(* ===== verification/_CoqProject ===== *)
-Q . S2P
Prelude.v
WalRecord.v
WalBatch.v
WalSegment.v
WalGuard.v
Backpressure.v
F64Text.v
WalLog.v
WalFlush.v
WalSystem.v
GroupCommit.v
PolicyStore.v
Enforcer.v
Usage.v
IngestGuard.v
Export.v
WriteBuffer.v
TelemetryWriter.v
FileList.v
ParquetWriter.v
TelemetrySink.v
IngestBatch.v
WalWriter.v
Compactor.v
Lease.v
Retention.v
PgUsage.v
PgUsageWorker.v
Billing.v
StorageUsage.v
StorageListing.v
Reclaimer.v
Paths.v
FileMover.v
Storage.v
MemoryCache.v
DiskCache.v
Reader.v
Sql.v
Arrow.v
Models.v
Schema.v
SpanSchema.v
TelemetryReader.v
ListQueries.v
Otlp.v
Conventions.v
SpanEvents.v
SpanType.v
Converter.v
Capture.v
SignalConverters.v
Auth.v
OtlpHttp.v
Authorize.v
PolicyDb.v
AdminApi.v
AdminGrpc.v
Analytics.v
ApiTypes.v
QueryService.v
ServiceAnalytics.v
ApiProto.v
ApiFields.v
QueryApi.v
Config.v
Resources.v
Metering.v
Exposition.v
Runtime.v
