(* ===== verification/Prelude.v ===== *)
(** zradar: a server that takes OTLP telemetry over gRPC and HTTP, logs it ahead
    of writing, keeps it in Parquet files per workspace and hour, and answers
    queries, under policies, quotas and retention. The sources are Rust, below
    [src/crates]; this development models them as pure functions and step
    functions and proves what each part promises.

    * The parts and the files that model them

    Ingestion, crate services/api-optel. A request is admitted ([IngestGuard]: parser
    caps, circuit breaker, admission layer; [Resources]: what the breaker measures),
    authenticated ([Auth]), its HTTP body limited and decoded ([OtlpHttp]) and handed
    to the export handlers of its transport ([Export], with the retry hints and the
    rate limiter). [Otlp] is the OTLP values and their JSON, [Converter] the trace
    converter over [Conventions] (the attribute conventions), [SpanEvents] and
    [SpanType], [Capture] what it hides when content is not captured,
    [SignalConverters] the converters of logs, metrics and scores. [Models] is the
    records they produce (core/zradar-models).

    Policy, crate core/zradar-policy and the Postgres plugin. [PolicyStore] (the
    policies and their resolution), [PolicyDb] (their table and its cache), [Usage]
    (the in-memory tracker), [Enforcer] (rate, quota and size checks with their
    audit).

    Write-ahead log, crate core/zradar-wal. [WalRecord] (record.rs) and [WalBatch]
    (batch.rs) are the codecs, [WalSegment] (segment.rs) the segment files with torn
    tails, [WalGuard] (disk.rs, backpressure.rs) the free-space guard and the
    backpressure ladder, [Backpressure] the ladder's floating point and its monitor,
    [WalLog] (lib.rs) opening, appending and rotating, [WalFlush] (flusher.rs,
    replay.rs, janitor.rs, checkpoint.rs) the draining, [GroupCommit]
    (group_commit.rs) the fsync loop. [WalSystem] puts them together: [sys_step]
    interleaves appends, flush passes, janitor passes, crashes and restarts. The
    sink's flush and the saving of the checkpoint are two operations: [Mortal] and
    the argument [save] let a pass or a replay end between them or anywhere else.
    [crash_image] is what a crash leaves of the segment files: a part of a record, a
    part of a new segment's header, or zero bytes behind the records.
    [IngestBatch] is the batches that cross it and [WalWriter] the writer in front of
    it (zradar-runtime/src/builder.rs).

    Storage, crates core/zradar-parquet, core/zradar-retention, the Postgres and the
    S3 plugin. [WriteBuffer] is the in-memory buffer with its flush worker,
    [TelemetryWriter] the partitioning of batches, [ParquetWriter] the writing of one
    file through its stages and the recovery after a crash, [FileList] the metadata
    tables, [TelemetrySink] the path from the log to the files, [Compactor] the
    merging of small files, [Lease] the read leases, [Retention] the configuration
    and the cleanup job, [Reclaimer] the removal of deleted files, [Paths] and
    [FileMover] the promotion of files to the bucket. [Storage] puts the writer, the
    compactor, the mover, the cleanup, the reclaimer and the recovery on one store:
    [storage_step].

    Reading, crate core/zradar-parquet. [Arrow], [Schema] and [SpanSchema] are the
    record batches and the schemas of each signal, [MemoryCache] and [DiskCache] the
    caches, [Reader] the query path over files, [Sql] the text of queries and its
    grammar, [TelemetryReader] the queries built from filters, [ListQueries] what they
    answer, [Analytics] the grouped analytics.

    The APIs, crate services/api. [Authorize] is the authorisation of both
    transports, [ApiTypes] the types of the query API, [QueryService] and
    [ServiceAnalytics] the service, [ApiProto] its messages and their translation,
    [ApiFields] what a record of either transport holds, field by field, [QueryApi]
    the HTTP and gRPC handlers; [AdminApi] and [AdminGrpc] are the admin API.

    Accounting. [PgUsage] is the usage tables with their rollups and readers,
    [PgUsageWorker] the channel and the worker that fill them, [StorageUsage] the
    storage ledger and its daily snapshots, [StorageListing] their listing, [Billing]
    what the writer and the compactor report as usage.

    The process. [Config] is the configuration and its loading, [Runtime] the order
    of the start, the listeners and the health checks, [Metering] and [Exposition] the
    metrics and the page they are served as, [F64Text] the text of numbers.

    * How state and operations correspond

    A struct is a Record with the source's fields, an enum an Inductive with its
    constructors, a function a Definition of the same name; where two crates use
    one name, the file's stem tells them apart. Integers are Z with the source's
    wrapping or saturating operations written out ([i64_wrap],
    [i64_saturating_add], ...). A [Result] is an [outcome], whose third
    constructor [Panic] is a panic. Hash maps are [gmap]s; where the order of
    their iteration matters it is a hypothesis, never a choice. Locks are the
    granularity of steps: what runs under one lock is one step, what does not is
    several, and the theorems quantify over their interleavings. A failure, a
    crash or a lost answer of a file system or database operation is part of an
    operation's environment argument ([WriteEnv], [CompactEnv], [InsertAnswer],
    ...), so each theorem holds for failures anywhere.

    * What the theorems show

    - The log: no acknowledged record is lost on the way to the sink; they arrive in
      order, each once but for those a failed pass delivers again
      ([acknowledged_delivered]); what a restart does is known for each kind of crash,
      those that keep the log from opening included ([restart_recovers_all],
      [open_recovers_crash]); the janitor deletes none still to be delivered; the
      codecs round-trip, and the inputs on which decoding panics or aborts are exactly
      known; an accepted batch is in the log in full ([acknowledged_rows_logged]);
      which records a partial write, a reordered append, a fresh segment or a power
      loss can lose.
    - The gates: a request is allowed outright exactly when it is within every limit
      that is checked and readable, the policies of a workspace resolve to the lowest
      limits, with an exact exception for size limits of two bases, each refusal
      is audited once, the limit comparison is exact short of overflow, a request is
      accepted exactly with a verified key, bodies are bounded whatever their
      encoding, and both transports agree; which blocks the code lets through or asks
      to retry.
    - The conversion: it always ends in a record, the order of conventions is the
      table of their precedences, the streamed JSON is the reference text, columns
      are capped, and with capture off two requests that differ in content only give
      one record.
    - The storage layer: every reachable store is well formed; each operation of
      each component is one step of a bag of rows ([storage_refines_bag]); the
      visible and the expired rows are the acknowledged ones, plus some of those
      whose write reported a failure ([storage_conserves_rows]). Below it, one
      theorem or more per component, and the failures that double or lose rows.
    - Reading: schemas round-trip, a query reads the matching rows of its files,
      filters reach SQL as text that parses to the conditions meant (the trace list:
      whose tokens are those of the conditions), analytics are over a fixed set of
      columns, and filters on others are dropped.
    - The APIs: the service refines its abstract log of answers, every query and
      every admin call stays in the caller's workspace, the retention restricts
      exactly the bounded queries, and the gRPC and the HTTP handler of a call answer
      with the same value under every name.
    - Accounting: rollups equal the aggregation of the events, every sample is
      counted or counted as dropped, removed files are booked once, snapshots
      telescope, their listing has each day once; and what is billed twice or not at
      all.
    - The process: loading equals the documented precedence where it does, the
      components start in order, readiness follows the checks; the metrics count what
      is reported, and their page reads back as the metrics.

    * Fuel and bounds

    Recursion is structural, on lists or on the bytes left. Where it is on fuel
    (the batch decoder, the segment reader, the digits of a number) the fuel is the
    length of the input or a bound shown to suffice, and the theorems that the result
    is produced are stated for that fuel, not under the assumption that it suffices.
    Loops of background tasks are step functions, so no bound on the length of a run
    is assumed anywhere.

    * What is not modelled, and why

    Calls into libraries are parameters with the documented behaviour the code
    relies on: CRC-32 ([Crc32]), the calendar of chrono ([Chrono]), uuid text
    ([UuidParser], [UuidText]), hashing, decompression, the JSON, protobuf and TOML
    encodings, Arrow and Parquet encoding (a file holds the rows written to it),
    DataFusion's execution, S3. SQL statements are the functions they compute on the
    tables, transactions all or nothing. Timers are modelled by when their tasks may
    run.

    Of the program's own code there is no model of: the construction of a
    component's parameters and the options of connections, reflection, response
    compression and CORS, the client of the health probe, the handlers that answer 501,
    log output (but for the paced warnings of authentication), the ids and times the
    database gives to rows of settings, audit and snapshots, the durations of runs, the
    average query time the database computes. A flush, janitor or replay pass sees one
    state of the log: no append falls inside it, but for the reordered append of
    [WalSystem]. Memory is unlimited but in [WalBatch]. The benchmarks, the test helpers and the bindings are left
    aside. *)

From stdpp Require Import base gmap sorting list strings.
From coqutil Require Import Byte.
From Stdlib Require Strings.Byte.

#[global] Open Scope Z_scope.

(** ** Outcomes of fallible Rust code

    A Rust function returning [Result<A, E>] either returns [Ok], returns
    [Err], or panics (slice index out of range, short read from a cursor,
    arithmetic underflow in a checked build). *)
Inductive outcome (E A : Type) : Type :=
| Ok (a : A)
| Err (e : E)
| Panic.
Arguments Ok {E A} _.
Arguments Err {E A} _.
Arguments Panic {E A}.

#[export] Instance outcome_ret (E : Type) : MRet (outcome E) := λ A a, Ok a.
#[export] Instance outcome_bind (E : Type) : MBind (outcome E) :=
  λ A B f o, match o with Ok a => f a | Err e => Err e | Panic => Panic end.
#[export] Instance outcome_fmap (E : Type) : FMap (outcome E) :=
  λ A B f o, match o with Ok a => Ok (f a) | Err e => Err e | Panic => Panic end.

#[export] Instance outcome_eq_dec (E A : Type) `{EqDecision E, EqDecision A} :
  EqDecision (outcome E A).
Proof. solve_decision. Defined.

(** [Option::ok_or]. *)
Definition ok_or {E A : Type} (o : option A) (e : E) : outcome E A :=
  match o with Some a => Ok a | None => Err e end.

(** [Result::map_err]. *)
Definition map_err {E F A : Type} (f : E → F) (o : outcome E A) : outcome F A :=
  match o with Ok a => Ok a | Err e => Err (f e) | Panic => Panic end.

Definition is_ok {E A : Type} (o : outcome E A) : bool :=
  match o with Ok _ => true | _ => false end.

(** A loop whose body can return early with an error. *)
Fixpoint ofold {E A S : Type} (f : S → A → outcome E S) (s : S) (l : list A) : outcome E S :=
  match l with
  | [] => mret s
  | a :: l' => s' ← f s a; ofold f s' l'
  end.

(** ** Machine integers *)

Abbreviation zlen l := (Z.of_nat (length l)) (only parsing).

Definition u8_max : Z := 255.
Definition u32_max : Z := 4294967295.
Definition u64_max : Z := 18446744073709551615.
Definition i64_max : Z := 9223372036854775807.
Definition i64_min : Z := -9223372036854775808.

(** [u64] arithmetic: wrapping and saturating operations. *)
Definition u64_wrap (z : Z) : Z := z mod 2 ^ 64.
Definition u64_saturating_add (a b : Z) : Z := Z.min (a + b) u64_max.
Definition u64_saturating_sub (a b : Z) : Z := Z.max (a - b) 0.
Definition u64_saturating_mul (a b : Z) : Z := Z.min (a * b) u64_max.
Definition i64_saturating_sub (a b : Z) : Z := Z.max i64_min (Z.min (a - b) i64_max).
Definition i64_saturating_add (a b : Z) : Z := Z.max i64_min (Z.min (a + b) i64_max).

(** Wrapping [i64] arithmetic, as [*] and [-] in a release build. *)
Definition i64_wrap (z : Z) : Z := (z + 2 ^ 63) mod 2 ^ 64 - 2 ^ 63.
Definition i64_clamp (z : Z) : Z := Z.max i64_min (Z.min z i64_max).
Definition i64_saturating_mul (a b : Z) : Z := i64_clamp (a * b).

(** [i64::try_from(u64).unwrap_or(i64::MAX)]. *)
Definition u64_to_i64_saturating (z : Z) : Z := if z <=? i64_max then z else i64_max.

(** Reading a 64-bit pattern as a two's-complement [i64]. *)
Definition i64_of_bits (z : Z) : Z := if z <? 2 ^ 63 then z else z - 2 ^ 64.

Definition u64_range (z : Z) : Prop := 0 ≤ z ≤ u64_max.
Definition i64_range (z : Z) : Prop := i64_min ≤ z ≤ i64_max.

#[export] Instance u64_range_dec z : Decision (u64_range z).
Proof. unfold u64_range. apply _. Defined.
#[export] Instance i64_range_dec z : Decision (i64_range z).
Proof. unfold i64_range. apply _. Defined.

#[export] Instance byte_eq_dec : EqDecision byte := Stdlib.Strings.Byte.byte_eq_dec.

(** ** Big-endian byte strings ([to_be_bytes], [from_be_bytes]) *)

Fixpoint be_bytes (n : nat) (z : Z) : list byte :=
  match n with
  | O => []
  | S n' => byte.of_Z (z / 256 ^ Z.of_nat n') :: be_bytes n' z
  end.

Definition be_value (l : list byte) : Z :=
  foldl (λ acc b, acc * 256 + byte.unsigned b) 0 l.

(** ** Reading from a byte cursor

    A [&[u8]] used as a cursor: [get_u8], [get_u32], [get_i64] and [get_u64]
    consume a big-endian integer from the front, a range index takes a prefix.
    Each of them panics when fewer bytes remain. *)
Definition split_bytes {E : Type} (n : nat) (c : list byte) : outcome E (list byte * list byte) :=
  if decide (length c < n)%nat then Panic else Ok (take n c, drop n c).

Definition get_be {E : Type} (n : nat) (c : list byte) : outcome E (Z * list byte) :=
  '(h, t) ← split_bytes n c; mret (be_value h, t).

(** ** Automation *)

(** Turn boolean tests of the code into propositions. *)
Ltac reflect_bools :=
  repeat match goal with
  | H : (_ <? _) = true |- _ => apply Z.ltb_lt in H
  | H : (_ <? _) = false |- _ => apply Z.ltb_ge in H
  | H : (_ <=? _) = true |- _ => apply Z.leb_le in H
  | H : (_ <=? _) = false |- _ => apply Z.leb_gt in H
  | H : (_ =? _) = true |- _ => apply Z.eqb_eq in H
  | H : (_ =? _) = false |- _ => apply Z.eqb_neq in H
  | H : _ && _ = true |- _ => apply andb_prop in H; destruct H
  | H : _ || _ = false |- _ => apply orb_false_elim in H; destruct H
  | H : negb _ = true |- _ => apply negb_true_iff in H
  | H : negb _ = false |- _ => apply negb_false_iff in H
  end.

(** Split the tests of the code in the goal and read them as propositions. *)
Ltac split_ifs :=
  repeat (case_match; simplify_eq/=; reflect_bools).

(** Run one monadic step. *)
Ltac ostep := cbn beta iota delta [mbind outcome_bind mret outcome_ret fmap outcome_fmap ok_or map_err].
Ltac ostep_in H := cbn beta iota delta [mbind outcome_bind mret outcome_ret fmap outcome_fmap ok_or map_err] in H.

Create HintDb zradar discriminated.
#[export] Hint Extern 0 (_ ≠ _) => discriminate : zradar.

(** ** Lemmas on outcomes *)

Lemma bind_Ok {E A B} (o : outcome E A) (f : A → outcome E B) b :
  o ≫= f = Ok b ↔ ∃ a, o = Ok a ∧ f a = Ok b.
Proof. destruct o; cbn; split; intros Hx; try destruct Hx as (? & ? & ?); simplify_eq; eauto. Qed.

Lemma bind_Panic {E A B} (o : outcome E A) (f : A → outcome E B) :
  o ≫= f = Panic ↔ o = Panic ∨ ∃ a, o = Ok a ∧ f a = Panic.
Proof.
  destruct o; cbn; split; intros Hx; try destruct Hx as [?|(? & ? & ?)]; simplify_eq; eauto.
Qed.

Lemma bind_Err {E A B} (o : outcome E A) (f : A → outcome E B) e :
  o ≫= f = Err e ↔ o = Err e ∨ ∃ a, o = Ok a ∧ f a = Err e.
Proof.
  destruct o; cbn; split; intros Hx; try destruct Hx as [?|(? & ? & ?)]; simplify_eq; eauto.
Qed.

Lemma ok_or_Ok {E A} (o : option A) (e : E) a : ok_or o e = Ok a ↔ o = Some a.
Proof. destruct o; cbn; naive_solver. Qed.

Lemma ofold_app {E A S} (f : S → A → outcome E S) s l1 l2 :
  ofold f s (l1 ++ l2) = s' ← ofold f s l1; ofold f s' l2.
Proof.
  revert s. induction l1 as [|a l1 IH]; intros s; [done|]. cbn [ofold app].
  destruct (f s a); ostep; [apply IH|done|done].
Qed.

Lemma ofold_pure {E A S} (g : S → A → S) s l :
  @ofold E A S (λ s a, Ok (g s a)) s l = Ok (foldl g s l).
Proof. revert s. induction l as [|a l IH]; intros s; cbn; [done|apply IH]. Qed.

Lemma foldl_snoc_list {A} (acc l : list A) : foldl (λ a x, a ++ [x]) acc l = acc ++ l.
Proof.
  revert acc. induction l as [|x l IH]; intros acc; cbn; [by rewrite app_nil_r|].
  by rewrite IH, <-app_assoc.
Qed.

(** Decompose a successful (or panicking) monadic computation. *)
Ltac obind_inv :=
  repeat match goal with
  | H : (_ ≫= _) = Ok _ |- _ => apply bind_Ok in H; destruct H as (? & ? & ?)
  | H : (let '(_, _) := ?p in _) = _ |- _ => destruct p; cbn beta iota in H
  | H : ok_or _ _ = Ok _ |- _ => apply ok_or_Ok in H
  | H : mret _ = Ok _ |- _ => injection H as H
  end; simplify_eq.

(** ** Lemmas on bytes *)

Lemma length_be_bytes n z : length (be_bytes n z) = n.
Proof. induction n; simpl; congruence. Qed.

(** Arithmetic on lengths of concatenated, cut and mapped lists. *)
Ltac len_lia :=
  rewrite ?length_app, ?length_take, ?length_drop, ?length_cons, ?length_nil,
    ?length_fmap, ?length_replicate, ?length_be_bytes in *; simpl in *; lia.

Lemma be_value_acc l acc :
  foldl (λ a b, a * 256 + byte.unsigned b) acc l = acc * 256 ^ zlen l + be_value l.
Proof.
  unfold be_value. revert acc. induction l as [|b l IH]; intros acc; cbn [foldl length].
  - rewrite Z.pow_0_r. lia.
  - rewrite IH, (IH (0 * 256 + _)), Nat2Z.inj_succ, Z.pow_succ_r by lia. ring.
Qed.

Lemma be_value_cons b l : be_value (b :: l) = byte.unsigned b * 256 ^ zlen l + be_value l.
Proof. unfold be_value at 1. cbn [foldl]. rewrite be_value_acc. ring. Qed.

Lemma be_value_range l : 0 ≤ be_value l < 256 ^ zlen l.
Proof.
  induction l as [|b l IH]; [done|].
  rewrite be_value_cons. cbn [length]. rewrite Nat2Z.inj_succ, Z.pow_succ_r by lia.
  pose proof (byte.unsigned_range b). nia.
Qed.

Lemma be_value_bytes n z : be_value (be_bytes n z) = z mod 256 ^ Z.of_nat n.
Proof.
  induction n as [|n IH]; cbn [be_bytes].
  - by rewrite Z.mod_1_r.
  - rewrite be_value_cons, IH, length_be_bytes, byte.unsigned_of_Z.
    unfold byte.wrap. change (2 ^ 8) with 256.
    rewrite Nat2Z.inj_succ, Z.pow_succ_r, (Z.mul_comm 256), Z.rem_mul_r by lia. ring.
Qed.

Lemma be_value_bytes_small n z :
  0 ≤ z < 256 ^ Z.of_nat n → be_value (be_bytes n z) = z.
Proof. intros. rewrite be_value_bytes. by apply Z.mod_small. Qed.

Lemma be_bytes_mod n z k : be_bytes n (z + k * 256 ^ Z.of_nat n) = be_bytes n z.
Proof.
  revert z k. induction n as [|n IH]; intros z k; [done|]. cbn [be_bytes]. f_equal.
  - apply byte.unsigned_inj. rewrite !byte.unsigned_of_Z. unfold byte.wrap.
    change (2 ^ 8) with 256.
    rewrite Nat2Z.inj_succ, Z.pow_succ_r, Z.mul_assoc, Z.div_add by lia.
    apply Z.mod_add. lia.
  - rewrite Nat2Z.inj_succ, Z.pow_succ_r, Z.mul_assoc by lia. apply IH.
Qed.

Lemma be_bytes_mod_pow n z : be_bytes n (z mod 256 ^ Z.of_nat n) = be_bytes n z.
Proof.
  rewrite (Z.div_mod z (256 ^ Z.of_nat n)) at 2 by lia.
  rewrite Z.add_comm, Z.mul_comm. symmetry. apply be_bytes_mod.
Qed.

Lemma be_bytes_value l : be_bytes (length l) (be_value l) = l.
Proof.
  induction l as [|b l IH]; [done|]. rewrite be_value_cons. cbn [length be_bytes].
  pose proof (be_value_range l) as Hr. f_equal.
  - rewrite Z.add_comm, Z.div_add, Z.div_small by lia. apply byte.of_Z_unsigned.
  - rewrite Z.add_comm, be_bytes_mod. done.
Qed.

Lemma be_bytes_value_n n l : length l = n → be_bytes n (be_value l) = l.
Proof. intros <-. apply be_bytes_value. Qed.

Lemma i64_of_bits_wrap z : i64_range z → i64_of_bits (z mod 2 ^ 64) = z.
Proof.
  unfold i64_range, i64_of_bits, i64_min, i64_max. intros Hz.
  destruct (Z.ltb_spec z 0).
  - replace (z mod 2 ^ 64) with (z + 2 ^ 64)
      by (apply (Z.mod_unique_pos _ _ (-1)); lia).
    destruct (Z.ltb_spec (z + 2 ^ 64) (2 ^ 63)); lia.
  - rewrite Z.mod_small by lia. destruct (Z.ltb_spec z (2 ^ 63)); lia.
Qed.

Lemma i64_of_bits_range z : 0 ≤ z < 2 ^ 64 → i64_range (i64_of_bits z).
Proof.
  unfold i64_range, i64_of_bits, i64_min, i64_max. intros.
  destruct (Z.ltb_spec z (2 ^ 63)); lia.
Qed.

Lemma be_bytes_i64_of_bits z : be_bytes 8 (i64_of_bits z) = be_bytes 8 z.
Proof.
  unfold i64_of_bits. destruct (Z.ltb_spec z (2 ^ 63)); [done|].
  replace (z - 2 ^ 64) with (z + (-1) * 256 ^ Z.of_nat 8) by lia.
  apply be_bytes_mod.
Qed.

Lemma split_bytes_app {E} n (h t : list byte) :
  length h = n → @split_bytes E n (h ++ t) = Ok (h, t).
Proof.
  intros Hn. unfold split_bytes. rewrite decide_False by len_lia.
  by rewrite take_app_length', drop_app_length' by done.
Qed.

Lemma get_be_app {E} n z (t : list byte) :
  0 ≤ z < 256 ^ Z.of_nat n → @get_be E n (be_bytes n z ++ t) = Ok (z, t).
Proof.
  intros. unfold get_be. rewrite split_bytes_app by apply length_be_bytes.
  cbn. by rewrite be_value_bytes_small.
Qed.

Lemma split_bytes_Panic {E} n c : @split_bytes E n c = Panic ↔ (length c < n)%nat.
Proof. unfold split_bytes. by case_decide. Qed.

Lemma split_bytes_Ok {E} n c h t :
  @split_bytes E n c = Ok (h, t) ↔ c = h ++ t ∧ length h = n.
Proof.
  unfold split_bytes. case_decide; split.
  - done.
  - intros [-> Hh]. len_lia.
  - intros [= <- <-]. rewrite take_drop. split; [done|]. rewrite length_take. lia.
  - intros [-> Hh]. by rewrite take_app_length', drop_app_length'.
Qed.

Lemma split_bytes_not_Err {E} n c (e : E) : split_bytes n c ≠ Err e.
Proof. unfold split_bytes. by case_decide. Qed.

Lemma get_be_Ok {E} n c v t :
  @get_be E n c = Ok (v, t) ↔ c = be_bytes n v ++ t ∧ 0 ≤ v < 256 ^ Z.of_nat n.
Proof.
  split.
  - unfold get_be, split_bytes. case_decide; [done|]. intros [= <- <-].
    rewrite be_bytes_value_n by (rewrite length_take; lia). rewrite take_drop.
    pose proof (be_value_range (take n c)) as Hr.
    by rewrite length_take, Nat.min_l in Hr by lia.
  - intros [-> ?]. by apply get_be_app.
Qed.

Lemma get_be_Panic {E} n c : @get_be E n c = Panic ↔ (length c < n)%nat.
Proof. unfold get_be, split_bytes. by case_decide. Qed.

Lemma get_be_not_Err {E} n c (e : E) : get_be n c ≠ Err e.
Proof. unfold get_be, split_bytes. by case_decide. Qed.
#[export] Hint Resolve get_be_not_Err split_bytes_not_Err : zradar.

(** ** Sums of integers *)

Definition zsum (l : list Z) : Z := foldr Z.add 0 l.

Lemma zsum_nil : zsum [] = 0.
Proof. done. Qed.
Lemma zsum_cons x l : zsum (x :: l) = x + zsum l.
Proof. done. Qed.

Lemma zsum_app l k : zsum (l ++ k) = zsum l + zsum k.
Proof. unfold zsum. induction l as [|x l IH]; cbn; [done|]. rewrite IH. lia. Qed.

#[export] Instance zsum_Permutation : Proper ((≡ₚ) ==> (=)) zsum.
Proof. unfold zsum. intros l k Hp. induction Hp; cbn; lia. Qed.

Lemma zsum_nonneg l : Forall (Z.le 0) l → 0 ≤ zsum l.
Proof. induction 1; unfold zsum in *; cbn; lia. Qed.

(** Saturating addition of non-negative terms saturates their sum. *)
Lemma i64_saturating_sum l acc :
  0 ≤ acc ≤ i64_max → Forall (Z.le 0) l →
  foldl i64_saturating_add acc l = Z.min (acc + zsum l) i64_max.
Proof.
  intros Hacc Hl. revert acc Hacc. induction Hl as [|x l Hx Hl IH]; intros acc Hacc; cbn.
  - lia.
  - pose proof (zsum_nonneg l Hl). unfold i64_saturating_add in *.
    rewrite IH by (unfold i64_min, i64_max in *; lia). unfold i64_min, i64_max, zsum in *. lia.
Qed.

Lemma u64_saturating_sum l acc :
  0 ≤ acc ≤ u64_max → Forall (Z.le 0) l →
  foldl u64_saturating_add acc l = Z.min (acc + zsum l) u64_max.
Proof.
  intros Hacc Hl. revert acc Hacc. induction Hl as [|x l Hx Hl IH]; intros acc Hacc; cbn.
  - lia.
  - pose proof (zsum_nonneg l Hl). unfold u64_saturating_add in *.
    rewrite IH by lia. unfold zsum in *. lia.
Qed.

#[global] Arguments zsum : simpl never.
#[global] Arguments be_bytes : simpl never.
#[global] Arguments be_value : simpl never.

(** ** Grouping a list into a map

    [map.entry(key(x)).or_default().push(x)] over a list. *)
Definition group_on {K A : Type} `{Countable K} (key : A → K) (l : list A) : gmap K (list A) :=
  foldl (λ m x, <[key x := default [] (m !! key x) ++ [x]]> m) ∅ l.

(** ** Lemmas on lists *)

Section Lists.
Context {A : Type}.
Implicit Types l k : list A.

Lemma filter_none (P : A → Prop) `{∀ x, Decision (P x)} l :
  (∀ x, x ∈ l → ¬ P x) → filter P l = [].
Proof.
  induction l as [|x l IH]; intros Hl; [done|].
  rewrite filter_cons_False by (apply Hl; by left). apply IH. intros y Hy. apply Hl. by right.
Qed.

Lemma filter_all (P : A → Prop) `{∀ x, Decision (P x)} l :
  (∀ x, x ∈ l → P x) → filter P l = l.
Proof.
  induction l as [|x l IH]; intros Hl; [done|].
  rewrite filter_cons_True by (apply Hl; by left). f_equal. apply IH. intros y Hy. apply Hl. by right.
Qed.

Lemma Forall_filter_keep (P Q : A → Prop) `{∀ x, Decision (P x)} l :
  Forall Q l → Forall Q (filter P l).
Proof. rewrite !Forall_forall. intros HQ x [_ Hx]%list_elem_of_filter. by apply HQ. Qed.

Lemma filter_ext_in (P Q : A → Prop) `{∀ x, Decision (P x)} `{∀ x, Decision (Q x)} l :
  (∀ x, x ∈ l → P x ↔ Q x) → filter P l = filter Q l.
Proof.
  induction l as [|x l IH]; intros Hl; [done|]. rewrite !filter_cons, IH by (intros y Hy; apply Hl; by right).
  specialize (Hl x ltac:(by left)). by repeat case_decide; try tauto.
Qed.

Lemma filter_snoc_keep (Q : A → Prop) `{!∀ y, Decision (Q y)} k y :
  Q y → filter Q (k ++ [y]) = filter Q k ++ [y].
Proof. intros HQ. by rewrite filter_app, (filter_cons_True Q), filter_nil. Qed.

Lemma filter_snoc_drop (Q : A → Prop) `{!∀ y, Decision (Q y)} k y :
  ¬ Q y → filter Q (k ++ [y]) = filter Q k.
Proof. intros HQ. by rewrite filter_app, (filter_cons_False Q), filter_nil, app_nil_r. Qed.

Lemma elem_of_two (x a b : A) : x ∈ [a; b] ↔ x = a ∨ x = b.
Proof. rewrite !elem_of_cons, elem_of_nil. tauto. Qed.

Lemma take_app_exact l k n : length l = n → take n (l ++ k) = l.
Proof. by intros; apply take_app_length'. Qed.

Lemma drop_app_exact l k n : length l = n → drop n (l ++ k) = k.
Proof. by intros; apply drop_app_length'. Qed.

Lemma take_app_short l k n : (n ≤ length l)%nat → take n (l ++ k) = take n l.
Proof. apply take_app_le. Qed.
Lemma Forall_and_in (P : A → Prop) l : Forall P l → Forall (λ x, P x ∧ x ∈ l) l.
Proof. rewrite !Forall_forall. auto. Qed.
End Lists.

(** A group holds the elements with its key, in order; there is none without. *)
Lemma group_on_lookup {K A : Type} `{Countable K} (key : A → K) l k :
  group_on key l !! k = match filter (λ x, key x = k) l with [] => None | g => Some g end.
Proof.
  induction l as [|x l IH] using rev_ind; [done|].
  unfold group_on in *. rewrite foldl_app. cbn [foldl].
  destruct (decide (key x = k)) as [Hk|Hk].
  - rewrite filter_snoc_keep by done. subst k. rewrite lookup_insert_eq, IH.
    by destruct (filter (λ y, key y = key x) l).
  - rewrite filter_snoc_drop by done. by rewrite lookup_insert_ne.
Qed.

Lemma elem_of_group_on {K A : Type} `{Countable K} (key : A → K) l k g :
  (k, g) ∈ map_to_list (group_on key l) ↔ g = filter (λ x, key x = k) l ∧ g ≠ [].
Proof.
  rewrite elem_of_map_to_list, group_on_lookup.
  destruct (filter (λ x, key x = k) l); split; [done|by intros [-> ?]|by intros [= <-]|by intros [-> _]].
Qed.

(** The groups of a list partition it. *)
Lemma group_on_concat {K A : Type} `{Countable K} (key : A → K) l :
  concat (map_to_list (group_on key l)).*2 ≡ₚ l.
Proof.
  induction l as [|x l IH] using rev_ind; [done|].
  unfold group_on in *. rewrite foldl_app. cbn [foldl]. set (m := foldl _ ∅ l) in *.
  rewrite <-insert_delete_eq, map_to_list_insert by apply lookup_delete_eq. cbn.
  destruct (m !! key x) as [g|] eqn:Hk; cbn [default app].
  - rewrite <-(map_to_list_delete m (key x) g Hk) in IH. cbn in IH. rewrite <-IH, <-!app_assoc.
    apply Permutation_app_head, Permutation_app_comm.
  - rewrite delete_id by done. rewrite IH. apply Permutation_cons_append.
Qed.

Lemma zsum_concat (ls : list (list Z)) : zsum (concat ls) = zsum (map zsum ls).
Proof. induction ls as [|l ls IH]; [done|]. cbn. by rewrite zsum_app, zsum_cons, IH. Qed.

Lemma string_app_assoc (a b c : string) : (a +:+ b) +:+ c = a +:+ (b +:+ c).
Proof. induction a as [|x a IH]; [done|]. change (String x ((a +:+ b) +:+ c) = String x (a +:+ (b +:+ c))). by rewrite IH. Qed.
