(* ===== verification/WalRecord.v ===== *)
(** On-disk WAL record codec: [zradar-wal/src/record.rs]. *)

From stdpp Require Import base gmap list.
From coqutil Require Import Byte.
From S2P Require Import Prelude.

(** [crc32fast::hash] returns a [u32]; nothing else about it is used. *)
Class Crc32 := {
  crc32_hash : list byte → Z;
  crc32_range : ∀ l, 0 ≤ crc32_hash l < 2 ^ 32;
}.

Definition RECORD_HEADER_SIZE : nat := 4 + 4 + 1 + 16 + 8 + 8.

Inductive SignalType := Trace | Metric | Log | Score.

#[export] Instance SignalType_eq_dec : EqDecision SignalType.
Proof. solve_decision. Defined.

(** [signal_type as u8]. *)
Definition signal_as_u8 (s : SignalType) : Z :=
  match s with Trace => 0 | Metric => 1 | Log => 2 | Score => 3 end.

Definition signal_from_u8 (v : Z) : option SignalType :=
  if v =? 0 then Some Trace
  else if v =? 1 then Some Metric
  else if v =? 2 then Some Log
  else if v =? 3 then Some Score
  else None.

Record WalRecord := mkWalRecord {
  signal_type : SignalType;
  workspace_id : list byte;
  arrival_timestamp_ns : Z;
  assigned_offset : Z;
  payload : list byte;
}.

#[export] Instance WalRecord_eq_dec : EqDecision WalRecord.
Proof. solve_decision. Defined.

Inductive RecordReadError :=
| TornWriteIncomplete (offset : Z)
| TornWriteCrcMismatch (offset expected actual : Z)
| TornWriteTruncated (offset need have : Z)
| InvalidSignalType (offset value : Z).

#[export] Instance RecordReadError_eq_dec : EqDecision RecordReadError.
Proof. solve_decision. Defined.

(** The types of the fields: a [Uuid] has 16 bytes, the timestamp is an
    [i64], the offset a [u64]; the length prefix is a [u32]. *)
Definition wf_record (r : WalRecord) : Prop :=
  length (workspace_id r) = 16%nat ∧
  i64_range (arrival_timestamp_ns r) ∧
  u64_range (assigned_offset r) ∧
  37 + zlen (payload r) ≤ u32_max.

#[export] Instance wf_record_dec r : Decision (wf_record r).
Proof. unfold wf_record, i64_range, u64_range. apply _. Defined.

Section Codec.
Context `{Crc32}.

(** The part of a record covered by its CRC. *)
Definition record_body (r : WalRecord) : list byte :=
  be_bytes 1 (signal_as_u8 (signal_type r)) ++
  workspace_id r ++
  be_bytes 8 (arrival_timestamp_ns r) ++
  be_bytes 8 (assigned_offset r) ++
  payload r.

Definition serialize (r : WalRecord) : list byte :=
  let payload_len := zlen (payload r) in
  let body_len := 4 + 1 + 16 + 8 + 8 + payload_len in
  be_bytes 4 body_len ++ be_bytes 4 (crc32_hash (record_body r)) ++ record_body r.

(** The record inside [body], the bytes after the length prefix. *)
Definition deserialize_body (body : list byte) (segment_offset total_consumed : Z) :
    outcome RecordReadError (WalRecord * Z) :=
  '(stored_crc, crc_data) ← get_be 4 body;
  let actual_crc := crc32_hash crc_data in
  if negb (stored_crc =? actual_crc) then
    Err (TornWriteCrcMismatch segment_offset stored_crc actual_crc)
  else
    '(signal_byte, c) ← get_be 1 crc_data;
    signal ← ok_or (signal_from_u8 signal_byte)
               (InvalidSignalType segment_offset signal_byte);
    '(workspace, c) ← split_bytes 16 c;
    '(ts, c) ← get_be 8 c;
    '(off, c) ← get_be 8 c;
    mret (mkWalRecord signal workspace (i64_of_bits ts) off c, total_consumed).

Definition deserialize (data : list byte) (segment_offset : Z) :
    outcome RecordReadError (WalRecord * Z) :=
  if zlen data <? 4 then Err (TornWriteIncomplete segment_offset)
  else
    '(body_len, _) ← get_be 4 data;
    if zlen data <? 4 + body_len then
      Err (TornWriteTruncated segment_offset (4 + body_len) (zlen data))
    else
      deserialize_body (take (Z.to_nat body_len) (drop 4 data)) segment_offset (4 + body_len).
End Codec.

(** CRC-32 (IEEE 802.3, reflected), used to run the model on concrete data. *)
Definition crc32_bit (c : Z) : Z :=
  if Z.testbit c 0 then Z.lxor (Z.shiftr c 1) 3988292384 else Z.shiftr c 1.
Definition crc32_byte (c : Z) (b : byte) : Z :=
  Nat.iter 8 crc32_bit (Z.lxor c (byte.unsigned b)).
Definition crc32_ieee (l : list byte) : Z :=
  Z.lxor (foldl crc32_byte u32_max l) u32_max mod 2 ^ 32.

Definition crc32_concrete : Crc32.
Proof.
  refine {| crc32_hash := crc32_ieee |}.
  intros l. apply Z.mod_pos_bound. done.
Defined.

(** "123456789" is the standard check input of CRC-32. *)
Example crc32_check :
  crc32_ieee (map byte.of_Z [49;50;51;52;53;54;55;56;57]) = 3421780262.
Proof. vm_compute. reflexivity. Qed.

#[global] Arguments serialize : simpl never.
#[global] Arguments deserialize : simpl never.

(** ** Lemmas *)

Lemma signal_from_as_u8 s : signal_from_u8 (signal_as_u8 s) = Some s.
Proof. by destruct s. Qed.

Lemma signal_from_u8_Some v s : signal_from_u8 v = Some s → v = signal_as_u8 s.
Proof. unfold signal_from_u8. intros. by split_ifs. Qed.

Lemma signal_as_u8_range s : 0 ≤ signal_as_u8 s < 256 ^ Z.of_nat 1.
Proof. destruct s; done. Qed.
#[export] Hint Resolve signal_as_u8_range : zradar.

Section Lemmas.
Context `{Crc32}.
Implicit Types (r : WalRecord) (data body : list byte).

Lemma crc32_be data : 0 ≤ crc32_hash data < 256 ^ Z.of_nat 4.
Proof. apply crc32_range. Qed.

Lemma length_record_body r :
  wf_record r → zlen (record_body r) = 33 + zlen (payload r).
Proof. intros (Hw & _). unfold record_body. rewrite !length_app, !length_be_bytes. lia. Qed.

Lemma length_serialize r :
  wf_record r → zlen (serialize r) = Z.of_nat RECORD_HEADER_SIZE + zlen (payload r).
Proof.
  intros Hr. unfold serialize. rewrite !length_app, !length_be_bytes.
  pose proof (length_record_body r Hr). unfold RECORD_HEADER_SIZE. lia.
Qed.

Lemma deserialize_frame body rest off :
  zlen body ≤ u32_max →
  deserialize (be_bytes 4 (zlen body) ++ body ++ rest) off =
    deserialize_body body off (4 + zlen body).
Proof.
  intros Hb. unfold deserialize, u32_max in *.
  rewrite (proj2 (Z.ltb_ge _ _)) by (rewrite length_app, length_be_bytes; lia).
  rewrite get_be_app by (change (256 ^ Z.of_nat 4) with 4294967296; lia). ostep.
  rewrite (proj2 (Z.ltb_ge _ _)) by (rewrite !length_app, length_be_bytes; lia).
  by rewrite drop_app_exact, Nat2Z.id, take_app_length by apply length_be_bytes.
Qed.

(** Every byte string of at least four bytes is a length prefix and a rest. *)
Lemma split_prefix data :
  4 ≤ zlen data →
  ∃ bl tl, data = be_bytes 4 bl ++ tl ∧ 0 ≤ bl ≤ u32_max ∧ bl = be_value (take 4 data).
Proof.
  intros Hd. exists (be_value (take 4 data)), (drop 4 data).
  rewrite be_bytes_value_n by (rewrite length_take; lia). rewrite take_drop.
  split_and!; try done; pose proof (be_value_range (take 4 data)) as Hr;
    rewrite length_take, Nat.min_l in Hr by lia; unfold u32_max; lia.
Qed.

Lemma deserialize_body_record r off n :
  wf_record r →
  deserialize_body (be_bytes 4 (crc32_hash (record_body r)) ++ record_body r) off n =
    Ok (r, n).
Proof.
  intros (Hw & Ht & Ho & _). unfold deserialize_body, u64_range, u64_max in *.
  rewrite get_be_app by apply crc32_be. ostep. rewrite Z.eqb_refl. cbn [negb].
  unfold record_body.
  rewrite get_be_app by auto with zradar. ostep. rewrite signal_from_as_u8. ostep.
  rewrite split_bytes_app by done. ostep.
  rewrite <-(be_bytes_mod_pow 8 (arrival_timestamp_ns r)).
  rewrite get_be_app by (apply Z.mod_pos_bound; lia). ostep.
  rewrite get_be_app by (change (256 ^ Z.of_nat 8) with (2 ^ 64); lia). ostep.
  change (256 ^ Z.of_nat 8) with (2 ^ 64).
  rewrite i64_of_bits_wrap by done. by destruct r.
Qed.

Lemma deserialize_serialize r rest off :
  wf_record r →
  deserialize (serialize r ++ rest) off = Ok (r, zlen (serialize r)).
Proof.
  intros Hr. pose proof (length_record_body r Hr) as Hl.
  pose proof (length_serialize r Hr) as Hs. unfold RECORD_HEADER_SIZE in Hs.
  set (body := be_bytes 4 (crc32_hash (record_body r)) ++ record_body r).
  assert (zlen body = 37 + zlen (payload r)) as Hb
    by (unfold body; rewrite length_app, length_be_bytes; lia).
  replace (serialize r ++ rest) with (be_bytes 4 (zlen body) ++ body ++ rest).
  - rewrite deserialize_frame by (rewrite Hb; apply Hr).
    rewrite (deserialize_body_record r off _ Hr). do 2 f_equal. lia.
  - unfold serialize, body. rewrite <-!app_assoc. do 2 f_equal. fold body. lia.
Qed.

(** A cut inside a record reads as a torn write. *)
Lemma deserialize_torn r n off :
  wf_record r → (n < length (serialize r))%nat →
  deserialize (take n (serialize r)) off =
    if decide (n < 4)%nat then Err (TornWriteIncomplete off)
    else Err (TornWriteTruncated off (zlen (serialize r)) (Z.of_nat n)).
Proof.
  intros Hr Hn. pose proof (length_serialize r Hr) as Hl. unfold RECORD_HEADER_SIZE in Hl.
  assert (length (take n (serialize r)) = n) as Hlen by (rewrite length_take; lia).
  unfold deserialize. rewrite Hlen. case_decide.
  - by rewrite (proj2 (Z.ltb_lt _ _)) by lia.
  - rewrite (proj2 (Z.ltb_ge _ _)) by lia.
    assert (take n (serialize r) = be_bytes 4 (37 + zlen (payload r)) ++
      take (n - 4) (be_bytes 4 (crc32_hash (record_body r)) ++ record_body r)) as ->.
    { unfold serialize. rewrite (take_app_ge _ _ n) by (rewrite length_be_bytes; lia).
      by rewrite length_be_bytes. }
    destruct Hr as (_ & _ & _ & Hp). unfold u32_max in Hp.
    rewrite get_be_app by (change (256 ^ Z.of_nat 4) with 4294967296; lia). ostep.
    rewrite (proj2 (Z.ltb_lt _ _)) by lia. do 2 f_equal. lia.
Qed.

(** So does a cut record followed by bytes that do not fill it up. *)
Lemma deserialize_overlap r n rest off :
  wf_record r → (4 ≤ n)%nat → (n + length rest < length (serialize r))%nat →
  deserialize (take n (serialize r) ++ rest) off =
    Err (TornWriteTruncated off (zlen (serialize r)) (Z.of_nat (n + length rest))).
Proof.
  intros Hr Hn Hlt. pose proof (length_serialize r Hr) as Hl. unfold RECORD_HEADER_SIZE in Hl.
  assert (length (take n (serialize r)) = n) as Hlen by (rewrite length_take; lia).
  unfold deserialize. rewrite length_app, Hlen. rewrite (proj2 (Z.ltb_ge _ _)) by lia.
  assert (take n (serialize r) = be_bytes 4 (37 + zlen (payload r)) ++
    take (n - 4) (be_bytes 4 (crc32_hash (record_body r)) ++ record_body r)) as ->.
  { unfold serialize. rewrite (take_app_ge _ _ n) by (rewrite length_be_bytes; lia).
    by rewrite length_be_bytes. }
  destruct Hr as (_ & _ & _ & Hp). unfold u32_max in Hp. rewrite <-app_assoc.
  rewrite get_be_app by (change (256 ^ Z.of_nat 4) with 4294967296; lia). ostep.
  rewrite (proj2 (Z.ltb_lt _ _)) by lia. do 2 f_equal. lia.
Qed.

(** The three ways [deserialize] ends, by the length prefix. *)
Lemma deserialize_cases data off :
  (zlen data < 4 ∧ deserialize data off = Err (TornWriteIncomplete off)) ∨
  (∃ bl tl, data = be_bytes 4 bl ++ tl ∧ 0 ≤ bl ≤ u32_max ∧ zlen tl < bl ∧
    deserialize data off = Err (TornWriteTruncated off (4 + bl) (zlen data))) ∨
  (∃ body rest, data = be_bytes 4 (zlen body) ++ body ++ rest ∧ zlen body ≤ u32_max ∧
    deserialize data off = deserialize_body body off (4 + zlen body)).
Proof.
  destruct (Z.lt_ge_cases (zlen data) 4) as [Hs|Hs].
  { left. split; [done|]. unfold deserialize. by rewrite (proj2 (Z.ltb_lt _ _)) by done. }
  right. destruct (split_prefix data Hs) as (bl & tl & -> & Hbl & _).
  destruct (Z.lt_ge_cases (zlen tl) bl) as [Ht|Ht]; [left|right].
  - exists bl, tl. split_and!; try done; try apply Hbl. unfold deserialize.
    rewrite (proj2 (Z.ltb_ge _ _)) by done. unfold u32_max in Hbl.
    rewrite get_be_app by (change (256 ^ Z.of_nat 4) with 4294967296; lia). ostep.
    rewrite (proj2 (Z.ltb_lt _ _)) by (rewrite length_app, length_be_bytes; lia). done.
  - exists (take (Z.to_nat bl) tl), (drop (Z.to_nat bl) tl).
    assert (zlen (take (Z.to_nat bl) tl) = bl) as Hb by (rewrite length_take; lia).
    rewrite Hb, take_drop. split_and!; [done|lia|].
    pose proof (deserialize_frame (take (Z.to_nat bl) tl) (drop (Z.to_nat bl) tl) off) as Hf.
    rewrite Hb, take_drop in Hf. apply Hf. lia.
Qed.

Lemma deserialize_body_Ok body off n r m :
  zlen body ≤ u32_max →
  deserialize_body body off n = Ok (r, m) ↔
    m = n ∧ wf_record r ∧
    body = be_bytes 4 (crc32_hash (record_body r)) ++ record_body r.
Proof.
  intros Hb. split.
  - unfold deserialize_body. intros Hd. apply bind_Ok in Hd as ([crc cd] & Hc & Hd).
    destruct (Z.eqb_spec crc (crc32_hash cd)) as [->|]; [|done]. cbn [negb] in Hd.
    obind_inv.
    repeat match goal with
    | H : get_be _ _ = Ok _ |- _ => apply get_be_Ok in H as [-> ?]
    | H : split_bytes _ _ = Ok _ |- _ => apply split_bytes_Ok in H as [-> ?]
    | H : signal_from_u8 _ = Some _ |- _ => apply signal_from_u8_Some in H as ->
    end.
    split_and!; [done| |].
    + unfold wf_record, u64_range, u64_max, u32_max in *. cbn.
      rewrite !length_app, !length_be_bytes in Hb.
      split_and!; [done|by apply i64_of_bits_range|lia|lia|lia].
    + unfold record_body. cbn. by rewrite be_bytes_i64_of_bits.
  - intros (-> & Hr & ->). by apply deserialize_body_record.
Qed.

(** Only serialized records are accepted: a successful read consumed exactly
    the bytes that [serialize] writes for the record it returned. *)
Lemma deserialize_Ok data off r n :
  deserialize data off = Ok (r, n) ↔
    wf_record r ∧ n = zlen (serialize r) ∧ ∃ rest, data = serialize r ++ rest.
Proof.
  split.
  - intros Hd. destruct (deserialize_cases data off)
      as [[? He]|[(? & ? & ? & ? & ? & He)|(body & rest & -> & Hb & He)]]; try congruence.
    rewrite He in Hd. apply deserialize_body_Ok in Hd as (-> & Hr & ->); [|done].
    pose proof (length_record_body r Hr) as Hl.
    pose proof (length_serialize r Hr) as Hs. unfold RECORD_HEADER_SIZE in Hs.
    rewrite length_app, length_be_bytes in *. split_and!; [done|lia|].
    exists rest. unfold serialize. rewrite <-!app_assoc. do 2 f_equal. lia.
  - intros (Hr & -> & rest & ->). by apply deserialize_serialize.
Qed.

(** The byte strings on which the slice indexing and the cursor reads of
    [deserialize] run past the end of the record body. *)
Definition short_body body : Prop :=
  zlen body < 4 ∨
  ∃ cd, body = be_bytes 4 (crc32_hash cd) ++ cd ∧
    (cd = [] ∨ ∃ s tl, cd = be_bytes 1 (signal_as_u8 s) ++ tl ∧ zlen tl < 32).

Lemma read_fields_Panic {B E} (c : list byte) (g : list byte → Z → Z → list byte → B) :
  ('(w, c1) ← split_bytes 16 c; '(ts, c2) ← get_be 8 c1; '(off, c3) ← get_be 8 c2;
   mret (g w ts off c3)) = @Panic E B ↔ zlen c < 32.
Proof.
  destruct (split_bytes 16 c) as [[w c1]|e|] eqn:E1; ostep.
  - apply split_bytes_Ok in E1 as [-> ?]. rewrite length_app.
    destruct (get_be 8 c1) as [[ts c2]|e|] eqn:E2; ostep.
    + apply get_be_Ok in E2 as [-> ?]. rewrite length_app, length_be_bytes.
      destruct (get_be 8 c2) as [[off c3]|e|] eqn:E3; ostep.
      * apply get_be_Ok in E3 as [-> ?]. rewrite length_app, length_be_bytes. split; [done|lia].
      * by apply get_be_not_Err in E3.
      * apply get_be_Panic in E3. split; [lia|done].
    + by apply get_be_not_Err in E2.
    + apply get_be_Panic in E2. split; [lia|done].
  - by apply split_bytes_not_Err in E1.
  - apply split_bytes_Panic in E1. split; [lia|done].
Qed.

Lemma deserialize_body_Panic body off n :
  deserialize_body body off n = Panic ↔ short_body body.
Proof.
  unfold deserialize_body, short_body. rewrite bind_Panic, get_be_Panic.
  split.
  - intros [?|([crc cd] & Hc & Hd)]; [left; lia|right].
    apply get_be_Ok in Hc as [-> _].
    destruct (Z.eqb_spec crc (crc32_hash cd)) as [->|]; [|done]. cbn [negb] in Hd.
    exists cd. split; [done|].
    apply bind_Panic in Hd as [Hd%get_be_Panic|([sb c] & Hc & Hd)].
    { left. destruct cd; [done|]. cbn in Hd. lia. }
    right. apply get_be_Ok in Hc as [-> _].
    destruct (signal_from_u8 sb) as [s|] eqn:Hs; [|done].
    apply signal_from_u8_Some in Hs as ->. exists s, c. split; [done|].
    by apply read_fields_Panic in Hd.
  - intros [?|(cd & -> & Hcd)]; [left; lia|right].
    exists (crc32_hash cd, cd). split; [apply get_be_app, crc32_be|].
    rewrite Z.eqb_refl. cbn [negb]. destruct Hcd as [->|(s & tl & -> & Htl)]; [done|].
    rewrite get_be_app by auto with zradar. ostep. rewrite signal_from_as_u8. ostep.
    by apply read_fields_Panic.
Qed.
Lemma deserialize_zero_prefix off rest :
  deserialize (replicate 4 (byte.of_Z 0) ++ rest) off = Panic.
Proof.
  change (replicate 4 (byte.of_Z 0) ++ rest) with (be_bytes 4 (zlen (@nil byte)) ++ [] ++ rest).
  rewrite deserialize_frame by done. apply deserialize_body_Panic. by left.
Qed.

Lemma deserialize_zeros n off : (4 ≤ n)%nat → deserialize (replicate n (byte.of_Z 0)) off = Panic.
Proof.
  intros Hn. replace n with (4 + (n - 4))%nat by lia. rewrite replicate_add.
  apply deserialize_zero_prefix.
Qed.
End Lemmas.

(** ** Properties *)

Section Properties.
Context `{Crc32}.

(** C33: [deserialize] accepts exactly what [serialize] wrote: it returns a record
    and a length if and only if the input starts with the serialization of
    that (well-formed) record, of that length, whatever follows. So every
    record round-trips, with its header overhead of 41 bytes, and no other
    bytes are ever taken for a record. *)
Theorem record_codec_exact data off r n :
  deserialize data off = Ok (r, n) ↔
    wf_record r ∧ n = zlen (serialize r) ∧
    n = Z.of_nat RECORD_HEADER_SIZE + zlen (payload r) ∧
    ∃ rest, data = serialize r ++ rest.
Proof.
  rewrite deserialize_Ok. split.
  - intros (Hr & -> & Hrest). split_and!; try done. by apply length_serialize.
  - tauto.
Qed.

(** A record cut short at any byte is reported as a torn write (incomplete
    length prefix, or truncated with the exact byte counts), never decoded
    and never a panic. *)
Theorem record_cut_is_torn r n off :
  wf_record r → (n < length (serialize r))%nat →
  deserialize (take n (serialize r)) off =
    if decide (n < 4)%nat then Err (TornWriteIncomplete off)
    else Err (TornWriteTruncated off (zlen (serialize r)) (Z.of_nat n)).
Proof. apply deserialize_torn. Qed.

(** When [deserialize] panics: exactly when the length prefix announces a body
    that is present but too short for its CRC, or, with a CRC that matches,
    too short for the fixed fields. A run of four zero bytes is such an
    input, so a zero-filled tail is not read as a torn write. *)
Theorem deserialize_panics_iff data off :
  (deserialize data off = Panic ↔
    ∃ body rest, data = be_bytes 4 (zlen body) ++ body ++ rest ∧
      zlen body ≤ u32_max ∧ short_body body) ∧
  (∀ rest, deserialize (replicate 4 (byte.of_Z 0) ++ rest) off = Panic).
Proof.
  assert (∀ d, (deserialize d off = Panic ↔
    ∃ body rest, d = be_bytes 4 (zlen body) ++ body ++ rest ∧
      zlen body ≤ u32_max ∧ short_body body)) as Hiff.
  { intros d. split.
    - intros Hd. destruct (deserialize_cases d off)
        as [[? He]|[(? & ? & ? & ? & ? & He)|(body & rest & -> & Hb & He)]]; try congruence.
      rewrite He in Hd. apply deserialize_body_Panic in Hd. eauto.
    - intros (body & rest & -> & Hb & Hs). rewrite deserialize_frame by done.
      by apply deserialize_body_Panic. }
  split; [apply Hiff|]. apply deserialize_zero_prefix.
Qed.
End Properties.

Section Witnesses.
Local Existing Instance crc32_concrete.

Definition small_record : WalRecord :=
  mkWalRecord Score (map byte.of_Z [1;2;3;4;5;6;7;8;9;10;11;12;13;14;15;16])
    (-5) 42 (map byte.of_Z [171; 0; 255]).

Lemma record_cut_is_torn_witness :
  wf_record small_record ∧
  deserialize (take 20 (serialize small_record)) 13 = Err (TornWriteTruncated 13 44 20).
Proof.
  assert (wf_record small_record) as Hwf by (apply (bool_decide_eq_true_1 _); vm_compute; reflexivity).
  split; [exact Hwf|].
  refine (eq_trans (record_cut_is_torn small_record 20 13 Hwf _) _).
  - vm_compute. repeat constructor.
  - vm_compute. reflexivity.
Defined.

Example small_record_roundtrip :
  deserialize (serialize small_record) 0 = Ok (small_record, 44).
Proof. vm_compute. reflexivity. Qed.
End Witnesses.
