(* ===== verification/WalBatch.v ===== *)
(** Batch envelope carried in a record payload: [zradar-wal/src/batch.rs].

    Decoding asks for room for as many rows as the payload declares before it
    looks at a single one. Whether the allocator has the room is a parameter;
    when it has not, the process aborts, which is [Panic] here. *)

From stdpp Require Import base gmap list.
From coqutil Require Import Byte.
From S2P Require Import Prelude.

(** [b"ZWB1"]. *)
Definition BATCH_MAGIC : list byte := map byte.of_Z [90; 87; 66; 49].

Inductive BatchEncoding := JsonRowsV1.

Definition encoding_as_u8 (e : BatchEncoding) : Z := match e with JsonRowsV1 => 1 end.
Definition encoding_from_u8 (v : Z) : option BatchEncoding :=
  if v =? 1 then Some JsonRowsV1 else None.

Inductive BatchDecodeError :=
| TooShort (n : Z)
| UnknownEncoding (v : Z)
| RowTruncated (index needed remaining : Z)
| CountMismatch (declared decoded : Z).

Record BatchPayload := mkBatchPayload {
  encoding : BatchEncoding;
  rows : list (list byte);
}.

(** One row: its length as a [u32], then its bytes. *)
Definition encode_row (row : list byte) : list byte := be_bytes 4 (zlen row) ++ row.

Definition encode_json_rows (rows : list (list byte)) : list byte :=
  BATCH_MAGIC ++ be_bytes 1 (encoding_as_u8 JsonRowsV1) ++
  be_bytes 4 (zlen rows) ++ concat (map encode_row rows).

(** The loop [for i in 0..count]. An iteration that does not return consumes at
    least the four bytes of a row length, so [length cursor + 1] iterations
    are enough fuel; running out of fuel is reported as [Panic]. *)
Fixpoint decode_rows (fuel : nat) (i count : Z) (cursor : list byte) (acc : list (list byte)) :
    outcome BatchDecodeError (list (list byte)) :=
  match fuel with
  | O => Panic
  | S fuel' =>
      if i <? count then
        if zlen cursor <? 4 then Err (CountMismatch count i)
        else
          '(row_len, cursor) ← get_be 4 cursor;
          if zlen cursor <? row_len then Err (RowTruncated i row_len (zlen cursor))
          else
            '(row, cursor) ← split_bytes (Z.to_nat row_len) cursor;
            decode_rows fuel' (i + 1) count cursor (acc ++ [row])
      else mret acc
  end.

(** [Vec::with_capacity(count as usize)]: whether there is room for that many
    row handles. The count is a [u32], so on a 64-bit machine the size does not
    overflow. *)
Definition with_capacity (grants : Z → bool) (count : Z) : outcome BatchDecodeError unit :=
  if grants count then mret () else Panic.

Definition decode (grants : Z → bool) (payload : list byte) : outcome BatchDecodeError (option BatchPayload) :=
  if bool_decide (length payload < length BATCH_MAGIC)%nat
     || negb (bool_decide (take (length BATCH_MAGIC) payload = BATCH_MAGIC))
  then mret None
  else if zlen payload <? zlen BATCH_MAGIC + 1 + 4 then Err (TooShort (zlen payload))
  else
    let cursor := drop (length BATCH_MAGIC) payload in
    '(enc_byte, cursor) ← get_be 1 cursor;
    encoding ← ok_or (encoding_from_u8 enc_byte) (UnknownEncoding enc_byte);
    '(count, cursor) ← get_be 4 cursor;
    _ ← with_capacity grants count;
    rows ← decode_rows (S (length cursor)) 0 count cursor [];
    mret (Some (mkBatchPayload encoding rows)).

(** Memory to spare. *)
Definition ample (count : Z) : bool := true.

(** Row counts and row lengths are written as [u32]. *)
Definition wf_rows (rows : list (list byte)) : Prop :=
  zlen rows ≤ u32_max ∧ Forall (λ row, zlen row ≤ u32_max) rows.

#[export] Instance wf_rows_dec rows : Decision (wf_rows rows).
Proof. unfold wf_rows. apply _. Defined.

(** ** Lemmas *)

Lemma get_be_u32 {E} z t : 0 ≤ z ≤ u32_max → @get_be E 4 (be_bytes 4 z ++ t) = Ok (z, t).
Proof. intros. apply get_be_app. unfold u32_max in *. change (256 ^ Z.of_nat 4) with 4294967296. lia. Qed.

Lemma length_encode_row row : length (encode_row row) = (4 + length row)%nat.
Proof. unfold encode_row. by rewrite length_app, length_be_bytes. Qed.

Lemma decode_rows_encode rs fuel i acc rest :
  Forall (λ row, zlen row ≤ u32_max) rs → (length rs < fuel)%nat →
  decode_rows fuel i (i + zlen rs) (concat (map encode_row rs) ++ rest) acc = Ok (acc ++ rs).
Proof.
  intros Hrs. revert fuel i acc. induction Hrs as [|row rs Hrow Hrs IH]; intros fuel i acc Hf;
    (destruct fuel as [|fuel]; [cbn in Hf; lia|]); cbn [decode_rows length map concat].
  - rewrite (proj2 (Z.ltb_ge _ _)) by lia. by rewrite app_nil_r.
  - rewrite (proj2 (Z.ltb_lt _ _)) by lia. unfold encode_row. rewrite <-!app_assoc.
    rewrite (proj2 (Z.ltb_ge _ _)) by (rewrite length_app, length_be_bytes; lia).
    rewrite get_be_u32 by (split; [lia|done]). ostep.
    rewrite (proj2 (Z.ltb_ge _ _)) by (rewrite length_app; lia).
    rewrite Nat2Z.id, split_bytes_app by done. ostep.
    replace (i + Z.of_nat (S (length rs))) with (i + 1 + zlen rs) by lia.
    rewrite IH by (cbn in Hf; lia). by rewrite <-app_assoc.
Qed.

Lemma length_encoded_rows rs :
  (length (concat (map encode_row rs)) ≥ 4 * length rs)%nat.
Proof.
  induction rs as [|r rs IH]; cbn [map concat length]; [lia|].
  rewrite length_app, length_encode_row. lia.
Qed.

(** What the loop accepts is an encoding of the rows it returns. *)
Lemma decode_rows_Ok fuel i count cursor acc rs :
  0 ≤ i → i ≤ count →
  decode_rows fuel i count cursor acc = Ok rs →
  ∃ new rest, rs = acc ++ new ∧ zlen new = count - i ∧
    Forall (λ row, zlen row ≤ u32_max) new ∧ cursor = concat (map encode_row new) ++ rest.
Proof.
  revert i cursor acc. induction fuel as [|fuel IH]; intros i cursor acc Hi Hc; [done|].
  cbn [decode_rows]. destruct (Z.ltb_spec i count).
  - destruct (zlen cursor <? 4); [done|]. intros Hd. obind_inv.
    match goal with H : get_be _ _ = Ok _ |- _ => apply get_be_Ok in H as [-> Hz] end.
    case_match; [done|]. obind_inv.
    match goal with H : split_bytes _ _ = Ok _ |- _ => apply split_bytes_Ok in H as [-> Hr] end.
    match goal with H : decode_rows _ _ _ _ _ = Ok _ |- _ =>
      apply IH in H as (new & rest & -> & Hn & Hf & ->); [|lia..] end.
    change (256 ^ Z.of_nat 4) with 4294967296 in Hz.
    match goal with H : length ?row = Z.to_nat ?z |- _ =>
      exists (row :: new), rest; cbn [map concat length]; unfold encode_row;
      replace (zlen row) with z by lia end.
    rewrite <-!app_assoc. split_and!; [done|lia| |done].
    constructor; [unfold u32_max; lia|done].
  - intros [= ->]. exists [], cursor. rewrite app_nil_r. split_and!; [done|cbn; lia|done|done].
Qed.

(** The loop neither reads out of range nor runs out of fuel. *)
Lemma decode_rows_total fuel i count cursor acc :
  (length cursor < fuel)%nat → decode_rows fuel i count cursor acc ≠ Panic.
Proof.
  revert i cursor acc. induction fuel as [|fuel IH]; intros i cursor acc Hf; [lia|].
  cbn [decode_rows]. destruct (i <? count); [|done].
  destruct (Z.ltb_spec (zlen cursor) 4); [done|].
  destruct (get_be 4 cursor) as [[z t]|e|] eqn:Hg; ostep; [|done|apply get_be_Panic in Hg; lia].
  apply get_be_Ok in Hg as [-> Hz]. rewrite length_app, length_be_bytes in *.
  destruct (Z.ltb_spec (zlen t) z); [done|].
  destruct (split_bytes (Z.to_nat z) t) as [[row t']|e|] eqn:Hs; ostep;
    [|done|apply split_bytes_Panic in Hs; lia].
  apply split_bytes_Ok in Hs as [-> ?]. apply IH. rewrite length_app in *. lia.
Qed.

(** ** Properties *)

(** Every envelope written by [encode_json_rows] decodes to its rows, in order
    and byte for byte, whatever follows it in the payload, if there is room for
    that many rows; the empty batch is a valid envelope. *)
Theorem batch_roundtrip grants rs rest :
  wf_rows rs → grants (zlen rs) = true →
  decode grants (encode_json_rows rs ++ rest) = Ok (Some (mkBatchPayload JsonRowsV1 rs)).
Proof.
  intros [Hn Hf] Hroom. unfold decode, encode_json_rows. rewrite <-!app_assoc.
  rewrite bool_decide_eq_false_2 by (rewrite length_app; lia).
  rewrite take_app_length, drop_app_length, bool_decide_eq_true_2 by done.
  cbn [negb orb]. rewrite (proj2 (Z.ltb_ge _ _)) by (rewrite !length_app, !length_be_bytes; lia).
  rewrite get_be_app by done. ostep. cbn [encoding_from_u8 encoding_as_u8 Z.eqb Pos.eqb]. ostep.
  rewrite get_be_u32 by (split; [lia|done]). ostep. unfold with_capacity. rewrite Hroom. ostep.
  pose proof (length_encoded_rows rs). rewrite (decode_rows_encode rs _ 0) by
    (try done; rewrite length_app; lia). done.
Qed.

Lemma batch_roundtrip_witness :
  wf_rows [[byte.of_Z 123; byte.of_Z 125]; []] ∧
  decode (λ n, n <? 1000) (encode_json_rows [[byte.of_Z 123; byte.of_Z 125]; []] ++ [byte.of_Z 0]) =
    Ok (Some (mkBatchPayload JsonRowsV1 [[byte.of_Z 123; byte.of_Z 125]; []])).
Proof.
  assert (wf_rows [[byte.of_Z 123; byte.of_Z 125]; []]) as Hwf
    by (apply (bool_decide_eq_true_1 _); vm_compute; reflexivity).
  split; [exact Hwf|]. apply batch_roundtrip; [exact Hwf|reflexivity].
Defined.

(** The head of an envelope that declares [count] rows, and what follows it. *)
Definition declares (count : Z) (rest payload : list byte) : Prop :=
  0 ≤ count ≤ u32_max ∧ payload = BATCH_MAGIC ++ be_bytes 1 (encoding_as_u8 JsonRowsV1) ++ be_bytes 4 count ++ rest.

Lemma decode_declared grants count rest payload : declares count rest payload →
  decode grants payload = if grants count then
    (λ rows, Some (mkBatchPayload JsonRowsV1 rows)) <$> decode_rows (S (length rest)) 0 count rest []
  else Panic.
Proof.
  intros [Hcount ->]. unfold decode.
  rewrite bool_decide_eq_false_2 by (rewrite length_app; lia).
  rewrite take_app_length, drop_app_length, bool_decide_eq_true_2 by done.
  cbn [negb orb]. rewrite (proj2 (Z.ltb_ge _ _)) by (rewrite !length_app, !length_be_bytes; lia).
  rewrite get_be_app by done. ostep. cbn [encoding_from_u8 encoding_as_u8 Z.eqb Pos.eqb]. ostep.
  rewrite get_be_u32 by done. ostep. unfold with_capacity. destruct (grants count); ostep; [|done].
  by destruct (decode_rows _ _ _ _ _).
Qed.

(** Any other payload is left to the legacy path, or is an error, and asks for no
    room. *)
Lemma decode_undeclared grants payload : (∀ count rest, ¬ declares count rest payload) →
  decode grants payload = Ok None ∧ take 4 payload ≠ BATCH_MAGIC ∨
  ∃ e, decode grants payload = Err e ∧ take 4 payload = BATCH_MAGIC.
Proof.
  intros Hno. unfold decode. change (length BATCH_MAGIC) with 4%nat.
  case_bool_decide as Hlen.
  { left. split; [done|]. intros Ht. apply (f_equal length) in Ht. rewrite length_take in Ht.
    change (length BATCH_MAGIC) with 4%nat in Ht. lia. }
  case_bool_decide as Hm; cbn [orb negb]; [|by left]. right.
  assert (payload = BATCH_MAGIC ++ drop 4 payload) as Hp by (rewrite <-Hm; by rewrite take_drop).
  remember (drop 4 payload) as c eqn:Hc. clear Hc.
  destruct (Z.ltb_spec (zlen payload) (Z.of_nat 4 + 1 + 4)) as [|Hge]; [by eexists|].
  rewrite Hp, length_app in Hge. change (length BATCH_MAGIC) with 4%nat in Hge.
  destruct (get_be 1 c) as [[enc c1]|e|] eqn:E1; ostep;
    [|by apply get_be_not_Err in E1|apply get_be_Panic in E1; lia].
  apply get_be_Ok in E1 as [-> Henc]. rewrite length_app, length_be_bytes in Hge.
  unfold encoding_from_u8. destruct (Z.eqb_spec enc 1) as [->|]; ostep; [|by eexists].
  destruct (get_be 4 c1) as [[count c2]|e|] eqn:E2; ostep;
    [|by apply get_be_not_Err in E2|apply get_be_Panic in E2; lia].
  apply get_be_Ok in E2 as [-> Hcount]. change (256 ^ Z.of_nat 4) with 4294967296 in Hcount.
  destruct (Hno count c2). split; [unfold u32_max; lia|exact Hp].
Qed.

(** Whether a payload declares rows can be read off its first nine bytes. *)
Lemma declares_or_not payload : (∃ count rest, declares count rest payload) ∨ ∀ count rest, ¬ declares count rest payload.
Proof.
  destruct (decide (take 5 payload = BATCH_MAGIC ++ be_bytes 1 (encoding_as_u8 JsonRowsV1) ∧ (9 ≤ length payload)%nat)) as [[Hhead Hlen]|Hno].
  - left. destruct (get_be (E := unit) 4 (drop 5 payload)) as [[count rest]|e|] eqn:Hg.
    + apply get_be_Ok in Hg as [Hd Hcount]. change (256 ^ Z.of_nat 4) with 4294967296 in Hcount.
      exists count, rest. split; [unfold u32_max; lia|]. rewrite app_assoc, <-Hhead, <-Hd. by rewrite take_drop.
    + by apply get_be_not_Err in Hg.
    + apply get_be_Panic in Hg. rewrite length_drop in Hg. lia.
  - right. intros count rest [Hcount ->]. apply Hno. rewrite app_assoc.
    split; [by rewrite take_app_length'|]. rewrite !length_app, !length_be_bytes. change (length BATCH_MAGIC) with 4%nat. lia.
Qed.

(** With memory to spare decoding does not panic. *)
Lemma decode_not_Panic payload : decode ample payload ≠ Panic.
Proof.
  destruct (declares_or_not payload) as [(count & rest & Hd)|Hno].
  - rewrite (decode_declared _ _ _ _ Hd). cbn [ample]. unfold ample.
    destruct (decode_rows _ _ _ _ _) eqn:Hr; [done|done|]. by apply decode_rows_total in Hr; [|lia].
  - by destruct (decode_undeclared ample payload Hno) as [[-> _]|(e & -> & _)].
Qed.

(** C40: Decoding any payload at all never reads out of range and its loop always
    terminates. It aborts exactly when a payload with the magic, the known
    encoding and a row count asks for room the allocator does not grant: the
    count is taken from the payload unchecked, and before any row is read. A
    payload without the magic is left to the legacy single-row path; an
    accepted payload starts with exactly the bytes [encode_json_rows] writes
    for the rows it returned, and asked for room for just those. *)
Theorem batch_decode_total grants payload :
  (decode grants payload = Panic ↔ ∃ count rest, declares count rest payload ∧ grants count = false) ∧
  (decode grants payload = Ok None ↔ take 4 payload ≠ BATCH_MAGIC) ∧
  (∀ b, decode grants payload = Ok (Some b) →
    wf_rows (rows b) ∧ grants (zlen (rows b)) = true ∧ ∃ rest, payload = encode_json_rows (rows b) ++ rest).
Proof.
  destruct (declares_or_not payload) as [(count & rest & Hd)|Hno].
  - assert (take 4 payload = BATCH_MAGIC) as Hmagic by (destruct Hd as [_ ->]; by rewrite take_app_length').
    assert (∀ count' rest', declares count' rest' payload → count' = count) as Huniq.
    { intros count' rest' [Hc' Hp']. destruct Hd as [Hc Hp]. rewrite Hp in Hp'. do 2 apply app_inv_head in Hp'.
      assert (get_be (E := unit) 4 (be_bytes 4 count ++ rest) = Ok (count', rest')) as Hg by (rewrite Hp'; by apply get_be_u32).
      rewrite get_be_u32 in Hg by done. by injection Hg as ->. }
    rewrite (decode_declared grants _ _ _ Hd). destruct (grants count) eqn:Hroom.
    + destruct (decode_rows _ _ _ _ _) as [rs|e|] eqn:Hr; cbn; [| |by apply decode_rows_total in Hr; [|lia]].
      * split; [split; [done|]|split; [split; [done|by intros []]|]].
        { intros (count' & rest' & ->%Huniq & Hno). congruence. }
        intros b [= <-]. cbn [rows]. destruct Hd as [Hcount ->].
        apply decode_rows_Ok in Hr as (new & rest' & -> & Hn & Hf & ->); [|lia..]. cbn [app].
        replace (zlen new) with count by lia. split; [split; [unfold u32_max in *; lia|done]|]. split; [done|]. exists rest'.
        unfold encode_json_rows. replace (zlen new) with count by lia. by rewrite <-!app_assoc.
      * split; [split; [done|]|split; [split; [done|by intros []]|done]].
        intros (count' & rest' & ->%Huniq & Hno). congruence.
    + split; [split; [intros _; by exists count, rest|done]|]. split; [split; [done|by intros []]|done].
  - destruct (decode_undeclared grants payload Hno) as [[-> Ht]|(e & -> & Ht)].
    + split; [split; [done|intros (count & rest & Hd & _); by apply Hno in Hd]|]. done.
    + split; [split; [done|intros (count & rest & Hd & _); by apply Hno in Hd]|]. split; [split; [done|by intros []]|done].
Qed.

(** Nine bytes are enough to ask for any number of rows, and to bring down a
    process that has no room for them. *)
Theorem nine_bytes_abort grants count : 0 ≤ count ≤ u32_max → grants count = false →
  length (BATCH_MAGIC ++ be_bytes 1 1 ++ be_bytes 4 count) = 9%nat ∧
  decode grants (BATCH_MAGIC ++ be_bytes 1 1 ++ be_bytes 4 count) = Panic.
Proof.
  intros Hcount Hroom. split; [by rewrite !length_app, !length_be_bytes|].
  rewrite (decode_declared grants count []); [by rewrite Hroom|]. split; [done|]. by rewrite app_nil_r.
Qed.

Lemma nine_bytes_abort_witness :
  decode (λ n, n <? 1000) (BATCH_MAGIC ++ be_bytes 1 1 ++ be_bytes 4 4294967295) = Panic.
Proof. apply (nine_bytes_abort (λ n, n <? 1000) 4294967295); [unfold u32_max; lia|reflexivity]. Defined.
