(* ===== verification/WalSegment.v ===== *)
(** WAL segment files: [zradar-wal/src/segment.rs].

    A segment file is its bytes; the WAL directory maps the id of each
    [{id:020}.seg] file to its content. *)

From stdpp Require Import base gmap sorting list.
From coqutil Require Import Byte.
From S2P Require Import Prelude WalRecord.

Abbreviation WalDir := (gmap Z (list byte)).

(** [b"ZWAL"]. *)
Definition SEGMENT_MAGIC : list byte := map byte.of_Z [90; 87; 65; 76].
Definition SEGMENT_VERSION : Z := 1.
Definition SEGMENT_HEADER_SIZE : Z := 13.

(** The [io::ErrorKind]s the crate distinguishes. *)
Inductive IoKind := UnexpectedEof | NotFound | StorageFull | OtherIo.

Inductive SegmentError :=
| InvalidMagic
| UnsupportedVersion (v : Z)
| SegmentIo (k : IoKind)
| SegmentRecord (e : RecordReadError).

#[export] Instance IoKind_eq_dec : EqDecision IoKind.
Proof. solve_decision. Defined.
#[export] Instance SegmentError_eq_dec : EqDecision SegmentError.
Proof. solve_decision. Defined.

(** How the operating system answers one [write_all]: everything written, or
    an error after a prefix reached the file. *)
Inductive io_write := WriteAll | WriteFails (written : nat) (k : IoKind).

Record SegmentWriter := mkSegmentWriter {
  w_segment_id : Z;
  w_current_size : Z;
}.

Record SegmentReader := mkSegmentReader {
  r_data : list byte;
  r_segment_id : Z;
  r_pos : Z;
}.

(** The three writes of [SegmentWriter::create]. *)
Definition segment_header (segment_id : Z) : list byte :=
  SEGMENT_MAGIC ++ be_bytes 1 SEGMENT_VERSION ++ be_bytes 8 segment_id.

(** [SegmentWriter::create]: the file is truncated, then gets its header. *)
Definition segment_create (dir : WalDir) (segment_id : Z) : WalDir * SegmentWriter :=
  (<[segment_id := segment_header segment_id]> dir,
   mkSegmentWriter segment_id SEGMENT_HEADER_SIZE).

(** [SegmentWriter::append]: [current_size] only advances when the whole
    record was written; a failed write leaves the bytes it managed to write. *)
Definition segment_append (dir : WalDir) (w : SegmentWriter) (data : list byte) (wr : io_write) :
    WalDir * SegmentWriter * outcome SegmentError Z :=
  let content := default [] (dir !! w_segment_id w) in
  match wr with
  | WriteAll =>
      (<[w_segment_id w := content ++ data]> dir,
       mkSegmentWriter (w_segment_id w) (w_current_size w + zlen data),
       Ok (w_current_size w))
  | WriteFails n k =>
      (<[w_segment_id w := content ++ take n data]> dir, w, Err (SegmentIo k))
  end.

(** [SegmentReader::open_path] on the bytes read from the file. *)
Definition open_data (data : list byte) : outcome SegmentError SegmentReader :=
  if zlen data <? SEGMENT_HEADER_SIZE then Err (SegmentIo UnexpectedEof)
  else if negb (bool_decide (take 4 data = SEGMENT_MAGIC)) then Err InvalidMagic
  else
    '(version, _) ← get_be 1 (drop 4 data);
    if negb (version =? SEGMENT_VERSION) then Err (UnsupportedVersion version)
    else
      '(segment_id, _) ← get_be 8 (drop 5 data);
      mret (mkSegmentReader data segment_id SEGMENT_HEADER_SIZE).

(** [SegmentReader::open]. *)
Definition segment_open (dir : WalDir) (segment_id : Z) : outcome SegmentError SegmentReader :=
  data ← ok_or (dir !! segment_id) (SegmentIo NotFound); open_data data.

(** [truncate_segment]: [set_len] cuts the file, or extends it with zeros. *)
Definition set_len (data : list byte) (n : Z) : list byte :=
  take (Z.to_nat n) data ++ replicate (Z.to_nat n - length data) (byte.of_Z 0).
Definition truncate_segment (dir : WalDir) (segment_id at_offset : Z) :
    outcome SegmentError WalDir :=
  data ← ok_or (dir !! segment_id) (SegmentIo NotFound);
  mret (<[segment_id := set_len data at_offset]> dir).

(** [list_segments]: the ids present in the directory, in increasing order. *)
Definition list_segments (dir : WalDir) : list Z := merge_sort (≤) (elements (dom dir)).

Section Reader.
Context `{Crc32}.

(** [SegmentReader::next_record]; the reader is returned as the call leaves it. *)
Definition next_record (rd : SegmentReader) :
    SegmentReader * outcome SegmentError (option WalRecord) :=
  if zlen (r_data rd) <=? r_pos rd then (rd, Ok None)
  else
    let remaining := drop (Z.to_nat (r_pos rd)) (r_data rd) in
    match deserialize remaining (r_pos rd) with
    | Ok (record, consumed) =>
        (mkSegmentReader (r_data rd) (r_segment_id rd) (r_pos rd + consumed), Ok (Some record))
    | Err e => (rd, Err (SegmentRecord e))
    | Panic => (rd, Panic)
    end.

(** [SegmentReader::truncation_point]. *)
Definition truncation_point (rd : SegmentReader) : Z := r_pos rd.

(** The loop [loop { match reader.next_record() { .. } }] that [Wal::open],
    the flusher and the replayer share: [on_record] is the body of the
    [Ok(Some(rec))] arm; the loop ends at a clean end of file or at the first
    error, which is returned with the reader. A record that is read consumes
    bytes, so [length data + 1] iterations are enough fuel. *)
Fixpoint read_loop {S E : Type} (fuel : nat) (on_record : S → WalRecord → outcome E S)
    (rd : SegmentReader) (s : S) : outcome E (S * SegmentReader * option SegmentError) :=
  match fuel with
  | O => Panic
  | Datatypes.S fuel' =>
      let '(rd', res) := next_record rd in
      match res with
      | Ok (Some rec) => s' ← on_record s rec; read_loop fuel' on_record rd' s'
      | Ok None => Ok (s, rd', None)
      | Err e => Ok (s, rd', Some e)
      | Panic => Panic
      end
  end.

Definition read_segment {S E : Type} (on_record : S → WalRecord → outcome E S)
    (rd : SegmentReader) (s : S) : outcome E (S * SegmentReader * option SegmentError) :=
  read_loop (Datatypes.S (length (r_data rd))) on_record rd s.

(** The content a segment file is meant to have. *)
Definition records_bytes (rs : list WalRecord) : list byte := concat (map serialize rs).
Definition segment_bytes (segment_id : Z) (rs : list WalRecord) : list byte :=
  segment_header segment_id ++ records_bytes rs.

(** How reading ends when [tail] is what is left at position [pos]. *)
Definition tail_end (tail : list byte) (pos : Z) (e : option SegmentError) : Prop :=
  (tail = [] ∧ e = None) ∨
  (tail ≠ [] ∧ ∃ er, deserialize tail pos = Err er ∧ e = Some (SegmentRecord er)).
End Reader.

(** The errors [Wal::open] recovers from by cutting the tail of the segment. *)
Definition is_torn_write (e : RecordReadError) : bool :=
  match e with
  | TornWriteIncomplete _ | TornWriteCrcMismatch _ _ _ | TornWriteTruncated _ _ _ => true
  | InvalidSignalType _ _ => false
  end.

#[global] Arguments segment_header : simpl never.
#[global] Arguments segment_bytes : simpl never.
#[global] Arguments set_len : simpl never.

(** ** Lemmas *)

Lemma length_segment_header id : length (segment_header id) = 13%nat.
Proof. unfold segment_header. by rewrite !length_app, !length_be_bytes. Qed.

Lemma open_data_header id data :
  u64_range id →
  open_data (segment_header id ++ data) =
    Ok (mkSegmentReader (segment_header id ++ data) id SEGMENT_HEADER_SIZE).
Proof.
  intros Hid. unfold u64_range, u64_max in Hid. unfold open_data, SEGMENT_HEADER_SIZE.
  rewrite (proj2 (Z.ltb_ge _ _)) by (rewrite length_app, length_segment_header; lia).
  assert (segment_header id ++ data =
    SEGMENT_MAGIC ++ be_bytes 1 SEGMENT_VERSION ++ be_bytes 8 id ++ data) as Hh
    by (unfold segment_header; by rewrite <-!app_assoc).
  replace (take 4 _) with SEGMENT_MAGIC by (by rewrite Hh, (take_app_exact SEGMENT_MAGIC)).
  rewrite bool_decide_eq_true_2 by done. cbn [negb].
  replace (drop 4 _) with (be_bytes 1 SEGMENT_VERSION ++ be_bytes 8 id ++ data)
    by (by rewrite Hh, (drop_app_exact SEGMENT_MAGIC)).
  rewrite get_be_app by done. ostep. cbn [Z.eqb Pos.eqb SEGMENT_VERSION negb].
  replace (drop 5 _) with (be_bytes 8 id ++ data)
    by (rewrite Hh, (app_assoc SEGMENT_MAGIC); by rewrite drop_app_exact
          by (by rewrite length_app, length_be_bytes)).
  rewrite get_be_app by (change (256 ^ Z.of_nat 8) with (2 ^ 64); lia). done.
Qed.

(** An opened reader stands right after a header of its own id. *)
Lemma open_data_Ok data rd :
  open_data data = Ok rd → ∃ tl, data = segment_header (r_segment_id rd) ++ tl ∧
    rd = mkSegmentReader data (r_segment_id rd) SEGMENT_HEADER_SIZE ∧ u64_range (r_segment_id rd).
Proof.
  unfold open_data, SEGMENT_HEADER_SIZE. destruct (Z.ltb_spec (zlen data) 13); [done|].
  case_bool_decide as Hm; cbn [negb]; [|done]. intros Hd. obind_inv.
  match goal with H : get_be 1 _ = Ok (?v, _) |- _ =>
    destruct (Z.eqb_spec v SEGMENT_VERSION) as [->|]; [|done]; apply get_be_Ok in H as [H4 _] end.
  cbn [negb] in *. obind_inv.
  match goal with H : get_be 8 _ = Ok (?v, ?l) |- _ => apply get_be_Ok in H as [H5 Hr]; exists l end.
  change (256 ^ Z.of_nat 8) with (2 ^ 64) in Hr. cbn.
  split_and!; [|done|unfold u64_range, u64_max; lia].
  rewrite <-(take_drop 4 data), Hm, H4 at 1. unfold segment_header. rewrite <-!app_assoc.
  do 2 f_equal. rewrite <-H5.
  replace (drop 5 data) with (drop 1 (drop 4 data)) by (by rewrite drop_drop).
  rewrite H4. by rewrite drop_app_exact by apply length_be_bytes.
Qed.

Section ReaderLemmas.
Context `{Crc32}.
Implicit Types (r : WalRecord) (rs : list WalRecord) (rd : SegmentReader).

Lemma serialize_nonempty r : wf_record r → (41 ≤ length (serialize r))%nat.
Proof. intros Hr. pose proof (length_serialize r Hr). unfold RECORD_HEADER_SIZE in *. lia. Qed.

Lemma records_bytes_app rs1 rs2 :
  records_bytes (rs1 ++ rs2) = records_bytes rs1 ++ records_bytes rs2.
Proof. unfold records_bytes. by rewrite map_app, concat_app. Qed.

Lemma records_bytes_cons r rs : records_bytes (r :: rs) = serialize r ++ records_bytes rs.
Proof. done. Qed.

Lemma records_bytes_length rs :
  Forall wf_record rs → (41 * length rs ≤ length (records_bytes rs))%nat.
Proof.
  induction 1 as [|r rs Hr _ IH]; [done|].
  rewrite records_bytes_cons, length_app. pose proof (serialize_nonempty r Hr).
  cbn [length]. lia.
Qed.

Lemma next_record_record rd pre r rest :
  wf_record r → r_data rd = pre ++ serialize r ++ rest → r_pos rd = zlen pre →
  next_record rd =
    (mkSegmentReader (r_data rd) (r_segment_id rd) (r_pos rd + zlen (serialize r)), Ok (Some r)).
Proof.
  intros Hr Hd Hp. pose proof (serialize_nonempty r Hr). unfold next_record.
  rewrite (proj2 (Z.leb_gt _ _)) by (rewrite Hd, Hp, !length_app; lia).
  rewrite Hd at 1. rewrite drop_app_exact by lia. by rewrite deserialize_serialize.
Qed.

Lemma next_record_tail rd pre tail e :
  r_data rd = pre ++ tail → r_pos rd = zlen pre → tail_end tail (r_pos rd) e →
  next_record rd = (rd, match e with None => Ok None | Some e => Err e end).
Proof.
  intros Hd Hp [[-> ->]|(Hne & er & He & ->)]; unfold next_record.
  - rewrite (proj2 (Z.leb_le _ _)) by (rewrite Hd, Hp, app_nil_r; lia). done.
  - assert (0 < zlen tail) by (destruct tail; [done|cbn; lia]).
    rewrite (proj2 (Z.leb_gt _ _)) by (rewrite Hd, Hp, length_app; lia).
    rewrite Hd at 1. rewrite drop_app_exact by lia. by rewrite He.
Qed.

Lemma next_record_zeros pre n id :
  (4 ≤ n)%nat →
  next_record (mkSegmentReader (pre ++ replicate n (byte.of_Z 0)) id (zlen pre)) =
    (mkSegmentReader (pre ++ replicate n (byte.of_Z 0)) id (zlen pre), Panic).
Proof.
  intros Hn. unfold next_record. cbn [r_data r_pos].
  rewrite (proj2 (Z.leb_gt _ _)) by (rewrite length_app, length_replicate; lia).
  rewrite drop_app_exact by lia. by rewrite deserialize_zeros.
Qed.

(** Whole records at the front of what is left are read one by one. *)
Lemma read_loop_prefix {S E} (f : S → WalRecord → outcome E S) rs tail :
  Forall wf_record rs → ∀ fuel rd pre s,
  r_data rd = pre ++ records_bytes rs ++ tail → r_pos rd = zlen pre →
  read_loop (length rs + fuel) f rd s = (s' ← ofold f s rs;
    read_loop fuel f (mkSegmentReader (r_data rd) (r_segment_id rd)
                        (r_pos rd + zlen (records_bytes rs))) s').
Proof.
  induction 1 as [|r rs Hr Hrs IH]; intros fuel rd pre s Hd Hp.
  - cbn [length Nat.add ofold]. ostep. rewrite Z.add_0_r. by destruct rd.
  - cbn [length Nat.add read_loop ofold]. rewrite records_bytes_cons, <-app_assoc in Hd.
    rewrite (next_record_record rd pre r _ Hr Hd Hp).
    destruct (f s r) as [s'|?|]; ostep; [|done|done].
    rewrite (IH fuel _ (pre ++ serialize r)); cbn [r_data r_pos r_segment_id].
    + by rewrite records_bytes_cons, length_app, Nat2Z.inj_add, Z.add_assoc.
    + by rewrite <-app_assoc.
    + rewrite length_app. lia.
Qed.

Lemma read_segment_prefix {S E} (f : S → WalRecord → outcome E S) id rs tail s :
  u64_range id → Forall wf_record rs →
  ∃ fuel rd, (0 < fuel)%nat ∧ open_data (segment_bytes id rs ++ tail) = Ok rd ∧
    read_segment f rd s = (s' ← ofold f s rs;
      read_loop fuel f (mkSegmentReader (segment_bytes id rs ++ tail) id
                          (zlen (segment_bytes id rs))) s').
Proof.
  intros Hid Hrs. unfold segment_bytes. rewrite <-app_assoc.
  pose proof (records_bytes_length rs Hrs).
  exists (Datatypes.S (length (segment_header id ++ records_bytes rs ++ tail)) - length rs)%nat.
  eexists. split_and!; [|by apply open_data_header|].
  { rewrite !length_app. lia. }
  unfold read_segment. cbn [r_data].
  set (n := Datatypes.S _).
  replace n with (length rs + (n - length rs))%nat at 1
    by (subst n; rewrite !length_app; lia).
  rewrite (read_loop_prefix f rs tail Hrs _ _ (segment_header id));
    cbn [r_data r_pos r_segment_id]; [|done|by rewrite length_segment_header].
  replace (zlen (segment_header id ++ records_bytes rs))
    with (SEGMENT_HEADER_SIZE + zlen (records_bytes rs)); [done|].
  rewrite length_app, length_segment_header. unfold SEGMENT_HEADER_SIZE. lia.
Qed.

(** Opening and reading a segment whose content is some records and a tail. *)
Lemma read_segment_records {S E} (f : S → WalRecord → outcome E S) id rs tail e s :
  u64_range id → Forall wf_record rs →
  tail_end tail (zlen (segment_bytes id rs)) e →
  ∃ rd, open_data (segment_bytes id rs ++ tail) = Ok rd ∧
    read_segment f rd s = (s' ← ofold f s rs;
      Ok (s', mkSegmentReader (segment_bytes id rs ++ tail) id (zlen (segment_bytes id rs)), e)).
Proof.
  intros Hid Hrs He.
  destruct (read_segment_prefix f id rs tail s Hid Hrs) as (fuel & rd & Hf & Ho & Hr).
  exists rd. split; [done|]. rewrite Hr. destruct fuel as [|fuel]; [lia|].
  destruct (ofold f s rs); ostep; [|done|done]. cbn [read_loop].
  rewrite (next_record_tail _ (segment_bytes id rs) tail e) by done. by destruct e.
Qed.

Lemma tail_end_nil pos : tail_end [] pos None.
Proof. by left. Qed.

(** A proper prefix of a record reads as a torn write. *)
Lemma tail_end_torn r n pos :
  wf_record r → (0 < n < length (serialize r))%nat →
  ∃ er, tail_end (take n (serialize r)) pos (Some (SegmentRecord er)) ∧ is_torn_write er = true.
Proof.
  intros Hr Hn. pose proof (deserialize_torn r n pos Hr (proj2 Hn)) as Hd.
  assert (take n (serialize r) ≠ []) as Hne.
  { intros Ht. apply (f_equal length) in Ht. rewrite length_take in Ht. cbn in Ht. lia. }
  case_decide; eexists; (split; [right; split; [exact Hne|]; eauto|done]).
Qed.

(** Cutting a run of records leaves some whole records and a torn one. *)
Lemma records_cut rs m :
  Forall wf_record rs → (m ≤ length (records_bytes rs))%nat →
  ∃ k tail, (k ≤ length rs)%nat ∧
    take m (records_bytes rs) = records_bytes (take k rs) ++ tail ∧
    (tail = [] ∨ ∃ r n, wf_record r ∧ rs !! k = Some r ∧
      tail = take n (serialize r) ∧ (0 < n < length (serialize r))%nat).
Proof.
  intros Hrs. revert m. induction Hrs as [|r rs Hr Hrs IH]; intros m Hm.
  - exists 0%nat, []. split_and!; [lia|by destruct m|by left].
  - rewrite records_bytes_cons in *. rewrite length_app in Hm.
    destruct (decide (m < length (serialize r))%nat) as [Hlt|Hge].
    + exists 0%nat, (take m (serialize r)).
      rewrite take_app_le by lia. split_and!; [lia|done|].
      destruct m as [|m]; [by left|right]. exists r, (Datatypes.S m). auto with lia.
    + destruct (IH (m - length (serialize r))%nat) as (k & tail & Hk & Ht & Htail); [lia|].
      exists (Datatypes.S k), tail. cbn [firstn length lookup list_lookup].
      rewrite take_app_ge, Ht, records_bytes_cons, app_assoc by lia.
      split_and!; [lia|done|done].
Qed.
Lemma segment_bytes_take_S id rs k r :
  rs !! k = Some r → segment_bytes id (take (Datatypes.S k) rs) =
    segment_bytes id (take k rs) ++ serialize r.
Proof.
  intros Hr. rewrite (take_S_r _ _ _ Hr). unfold segment_bytes.
  rewrite records_bytes_app, app_assoc. f_equal. apply app_nil_r.
Qed.

(** Cutting a segment file behind its header leaves the segment of the
    records that are whole before the cut, and a tail that reads as clean or
    torn. *)
Lemma segment_cut id rs m :
  Forall wf_record rs → (13 ≤ m ≤ length (segment_bytes id rs))%nat →
  ∃ k tail e, (k ≤ length rs)%nat ∧
    take m (segment_bytes id rs) = segment_bytes id (take k rs) ++ tail ∧
    tail_end tail (zlen (segment_bytes id (take k rs))) e ∧
    (e = None ∨ ∃ er, e = Some (SegmentRecord er) ∧ is_torn_write er = true) ∧
    zlen (segment_bytes id (take k rs)) ≤ Z.of_nat m ∧
    ((k < length rs)%nat → Z.of_nat m < zlen (segment_bytes id (take (Datatypes.S k) rs))).
Proof.
  intros Hrs Hm. unfold segment_bytes in Hm at 1.
  rewrite length_app, length_segment_header in Hm.
  destruct (records_cut rs (m - 13) Hrs) as (k & tail & Hk & Ht & Htail); [lia|].
  assert (take m (segment_bytes id rs) = segment_bytes id (take k rs) ++ tail) as Hcut.
  { unfold segment_bytes. rewrite take_app_ge by (rewrite length_segment_header; lia).
    by rewrite length_segment_header, Ht, app_assoc. }
  assert (length (take m (segment_bytes id rs)) = m) as Hlen.
  { rewrite length_take. unfold segment_bytes. rewrite length_app, length_segment_header. lia. }
  rewrite Hcut, length_app in Hlen. exists k, tail.
  destruct Htail as [->|(r & n & Hr & Hrk & -> & Hn)].
  - exists None. split_and!; [done|done|by apply tail_end_nil|by left|lia|]. intros Hlt.
    destruct (lookup_lt_is_Some_2 rs k Hlt) as [r Hrk].
    rewrite (segment_bytes_take_S _ _ _ _ Hrk), length_app. cbn in Hlen.
    pose proof (serialize_nonempty r (Forall_lookup_1 _ _ _ _ Hrs Hrk)). lia.
  - destruct (tail_end_torn r n (zlen (segment_bytes id (take k rs))) Hr Hn) as (er & ? & ?).
    exists (Some (SegmentRecord er)). split_and!; [done|done|done|by eauto|lia|]. intros _.
    rewrite (segment_bytes_take_S _ _ _ _ Hrk), length_app.
    rewrite length_take in Hlen. lia.
Qed.
End ReaderLemmas.

(** ** Properties *)

Section Properties.
Context `{Crc32}.

(** A segment file cut at any point after its header, as a crash in the
    middle of an append leaves it, reads back exactly the records that are
    whole in what is left, ends cleanly or with a torn-write error, and
    truncating it at the reader's truncation point restores the well-formed
    segment of those records. *)
Theorem segment_torn_tail id rs (m : nat) :
  u64_range id → Forall wf_record rs →
  (13 ≤ m ≤ length (segment_bytes id rs))%nat →
  ∃ rd rd' k e,
    open_data (take m (segment_bytes id rs)) = Ok rd ∧
    read_segment (E := unit) (λ acc r, Ok (acc ++ [r])) rd [] = Ok (take k rs, rd', e) ∧
    (k ≤ length rs)%nat ∧
    zlen (segment_bytes id (take k rs)) ≤ Z.of_nat m ∧
    ((k < length rs)%nat → Z.of_nat m < zlen (segment_bytes id (take (S k) rs))) ∧
    (e = None ∨ ∃ er, e = Some (SegmentRecord er) ∧ is_torn_write er = true) ∧
    set_len (take m (segment_bytes id rs)) (truncation_point rd') = segment_bytes id (take k rs).
Proof.
  intros Hid Hrs Hm.
  destruct (segment_cut id rs m Hrs Hm) as (k & tail & e & Hk & Hcut & He & Hte & Hle & Hgt).
  destruct (read_segment_records (E := unit) (λ acc r, Ok (acc ++ [r])) id (take k rs) tail e []
    Hid (Forall_take _ _ _ Hrs) He) as (rd & Ho & Hr).
  rewrite ofold_pure, foldl_snoc_list in Hr. ostep_in Hr. cbn [app] in Hr.
  rewrite Hcut. eexists rd, _, k, e. split_and!; try done.
  unfold set_len, truncation_point. cbn [r_pos]. rewrite Nat2Z.id, take_app_length, length_app.
  replace (_ - _)%nat with 0%nat by lia. apply app_nil_r.
Qed.
End Properties.

Section Witnesses.
Local Existing Instance crc32_concrete.

Lemma segment_torn_tail_witness :
  ∃ rd rd' k e,
    open_data (take 80 (segment_bytes 7 [small_record; small_record])) = Ok rd ∧
    read_segment (E := unit) (λ acc r, Ok (acc ++ [r])) rd [] =
      Ok (take k [small_record; small_record], rd', e) ∧ (k ≤ 2)%nat.
Proof.
  destruct (segment_torn_tail 7 [small_record; small_record] 80)
    as (rd & rd' & k & e & H1 & H2 & H3 & _).
  - apply (bool_decide_eq_true_1 _). vm_compute. reflexivity.
  - apply (bool_decide_eq_true_1 _). vm_compute. reflexivity.
  - vm_compute. split; repeat constructor.
  - exists rd, rd', k, e. split; [exact H1|]. split; [exact H2|exact H3].
Defined.

Example segment_torn_tail_value :
  (rd ← open_data (take 80 (segment_bytes 7 [small_record; small_record]));
   '(acc, rd', e) ← read_segment (λ acc r, Ok (acc ++ [r])) rd [];
   mret (acc, r_pos rd', e)) =
  Ok ([small_record], 57, Some (SegmentRecord (TornWriteTruncated 57 44 23))).
Proof. vm_compute. reflexivity. Qed.
End Witnesses.
