(* ===== verification/WalGuard.v ===== *)
(** Append errors, the free-space guard and the backpressure ladder:
    [zradar-wal/src/group_commit.rs] (errors), [disk.rs], [backpressure.rs]. *)

From stdpp Require Import base gmap list.
From coqutil Require Import Byte.
From S2P Require Import Prelude WalSegment.

(** ** Append errors *)

Inductive AppendError :=
| AppendIo (k : IoKind)
| FsyncDropped
| ResourceExhausted
| InsufficientDiskSpace (available required : Z).

Definition is_retryable (e : AppendError) : bool :=
  match e with
  | ResourceExhausted | InsufficientDiskSpace _ _ => true
  | AppendIo k => bool_decide (k = StorageFull)
  | FsyncDropped => false
  end.

(** ** Free-space guard *)

Definition MAX_SAMPLE_AGE_MS : Z := 1000.
Definition NEVER_SAMPLED : Z := u64_max.
Definition UNKNOWN_FREE : Z := u64_max.

Record DiskSpaceGuard := mkGuard {
  min_free_bytes : Z;
  check_every : Z;
  attempts : Z;
  free_bytes_cell : Z;
  last_sample_ms : Z;
  sampling : bool;
  warned_unavailable : bool;
}.

Definition guard_new (min_free every : Z) : DiskSpaceGuard :=
  mkGuard min_free (Z.max every 1) 0 UNKNOWN_FREE NEVER_SAMPLED false false.

Definition guard_enabled (g : DiskSpaceGuard) : bool := 0 <? min_free_bytes g.

Definition free_bytes (g : DiskSpaceGuard) : option Z :=
  if free_bytes_cell g =? UNKNOWN_FREE then None else Some (free_bytes_cell g).

(** [elapsed_ms], clipped away from the sentinel. [now] is the real age of the
    guard in milliseconds. *)
Definition elapsed_ms (now : Z) : Z := Z.min now (NEVER_SAMPLED - 1).

Definition sample_due (g : DiskSpaceGuard) (attempt now : Z) : bool :=
  if (last_sample_ms g =? NEVER_SAMPLED) || (attempt mod check_every g =? 0) then true
  else MAX_SAMPLE_AGE_MS <=? u64_saturating_sub (elapsed_ms now) (last_sample_ms g).

(** [refresh]: [sample] is the answer of [statvfs] (bytes available), [None]
    when it fails. A caller that finds another sample in flight returns. *)
Definition refresh (g : DiskSpaceGuard) (now : Z) (sample : option Z) : DiskSpaceGuard :=
  if sampling g then g
  else
    match sample with
    | Some available =>
        mkGuard (min_free_bytes g) (check_every g) (attempts g)
          (Z.min available (UNKNOWN_FREE - 1)) (elapsed_ms now) false (warned_unavailable g)
    | None =>
        mkGuard (min_free_bytes g) (check_every g) (attempts g)
          UNKNOWN_FREE (elapsed_ms now) false true
    end.

Definition with_attempts (g : DiskSpaceGuard) (n : Z) : DiskSpaceGuard :=
  mkGuard (min_free_bytes g) (check_every g) n (free_bytes_cell g) (last_sample_ms g)
    (sampling g) (warned_unavailable g).

Definition admit_ (g : DiskSpaceGuard) (now : Z) (sample : option Z) :
    DiskSpaceGuard * outcome AppendError unit :=
  if negb (guard_enabled g) then (g, Ok ())
  else
    let attempt := attempts g in
    let g := with_attempts g (u64_wrap (attempt + 1)) in
    let g := if sample_due g attempt now then refresh g now sample else g in
    match free_bytes g with
    | Some available =>
        if available <? min_free_bytes g
        then (g, Err (InsufficientDiskSpace available (min_free_bytes g)))
        else (g, Ok ())
    | None => (g, Ok ())
    end.

(** ** Backpressure ladder *)

Inductive BackpressureState := Normal | Slowdown | Reject.

Definition backpressure_from_u8 (v : Z) : BackpressureState :=
  if v =? 0 then Normal else if v =? 1 then Slowdown else if v =? 2 then Reject else Reject.
Definition backpressure_as_u8 (s : BackpressureState) : Z :=
  match s with Normal => 0 | Slowdown => 1 | Reject => 2 end.

Record BackpressureConfig := mkBackpressureConfig {
  backpressure_warn_pct : Z;
  backpressure_reject_pct : Z;
  slowdown_max_delay_ms : Z;
  wal_min_free_bytes : Z;
}.

(** [BackpressureMonitor::update]: the next state depends on the sample only. *)
Definition monitor_update (cfg : BackpressureConfig) (fill_pct dir_free_bytes : Z) :
    BackpressureState :=
  if (dir_free_bytes <? wal_min_free_bytes cfg) || (backpressure_reject_pct cfg <=? fill_pct)
  then Reject
  else if backpressure_warn_pct cfg <=? fill_pct then Slowdown
  else Normal.

(** ** Properties *)

(** The decision a sample calls for. *)
Definition guard_verdict (g : DiskSpaceGuard) : outcome AppendError unit :=
  match free_bytes g with
  | Some a => if a <? min_free_bytes g
              then Err (InsufficientDiskSpace a (min_free_bytes g)) else Ok ()
  | None => Ok ()
  end.

(** An enabled guard with no sample in flight decides every append on a
    free-space sample that is less than one second old: either the one it
    takes now, or the cached one. It refuses exactly when that sample is known
    and below the floor, and the refusal is retryable. *)
Theorem admit_decides_on_fresh_sample g now sample :
  guard_enabled g = true → sampling g = false →
  0 ≤ now → (last_sample_ms g = NEVER_SAMPLED ∨ last_sample_ms g ≤ elapsed_ms now) →
  let '(g', r) := admit_ g now sample in
  r = guard_verdict g' ∧
  0 ≤ elapsed_ms now - last_sample_ms g' < MAX_SAMPLE_AGE_MS ∧
  ((last_sample_ms g' = last_sample_ms g ∧ free_bytes_cell g' = free_bytes_cell g) ∨
   (last_sample_ms g' = elapsed_ms now ∧
    free_bytes g' = (λ a, Z.min a (UNKNOWN_FREE - 1)) <$> sample ∧
    sampling g' = false)) ∧
  (∀ e, r = Err e → is_retryable e = true).
Proof.
  intros Hen Hs Hnow Hlast. unfold admit_. rewrite Hen. cbn [negb].
  set (g1 := with_attempts g _).
  set (g2 := if sample_due g1 (attempts g) now then refresh g1 now sample else g1).
  replace (match free_bytes g2 with
           | Some available => if available <? min_free_bytes g2 then _ else _
           | None => (g2, Ok ()) end) with (g2, guard_verdict g2)
    by (unfold guard_verdict; destruct (free_bytes g2); [case_match|]; done).
  split; [done|]. split; [|split].
  - subst g2. unfold sample_due. cbn [g1 with_attempts last_sample_ms].
    destruct ((last_sample_ms g =? NEVER_SAMPLED) || _) eqn:Hd.
    + unfold refresh. cbn [g1 with_attempts sampling]. rewrite Hs.
      destruct sample; cbn [last_sample_ms]; unfold MAX_SAMPLE_AGE_MS; lia.
    + reflect_bools. destruct Hlast as [|Hlast]; [done|].
      destruct (Z.leb_spec MAX_SAMPLE_AGE_MS
                  (u64_saturating_sub (elapsed_ms now) (last_sample_ms g))) as [Hge|Hlt].
      * unfold refresh. cbn [g1 with_attempts sampling]. rewrite Hs.
        destruct sample; cbn [last_sample_ms]; unfold MAX_SAMPLE_AGE_MS; lia.
      * cbn [g1 with_attempts last_sample_ms]. unfold u64_saturating_sub in Hlt. lia.
  - subst g2. destruct (sample_due g1 (attempts g) now); [right|by left].
    unfold refresh. cbn [g1 with_attempts sampling]. rewrite Hs.
    destruct sample as [a|]; cbn; split_and!; try done.
    unfold free_bytes. cbn [free_bytes_cell fmap option_fmap option_map].
    destruct (Z.eqb_spec (Z.min a (UNKNOWN_FREE - 1)) UNKNOWN_FREE); [lia|done].
  - unfold guard_verdict. intros e. destruct (free_bytes g2); [|done].
    case_match; [|done]. by intros [= <-].
Qed.

Lemma admit_decides_on_fresh_sample_witness :
  let g := guard_new 100 1024 in
  admit_ g 5 (Some 50) =
    (mkGuard 100 1024 1 50 5 false false, Err (InsufficientDiskSpace 50 100)) ∧
  let '(g', r) := admit_ g 5 (Some 50) in
  r = guard_verdict g' ∧
  0 ≤ elapsed_ms 5 - last_sample_ms g' < MAX_SAMPLE_AGE_MS ∧
  ((last_sample_ms g' = last_sample_ms g ∧ free_bytes_cell g' = free_bytes_cell g) ∨
   (last_sample_ms g' = elapsed_ms 5 ∧
    free_bytes g' = (λ a, Z.min a (UNKNOWN_FREE - 1)) <$> Some 50 ∧ sampling g' = false)) ∧
  (∀ e, r = Err e → is_retryable e = true).
Proof.
  split; [vm_compute; reflexivity|].
  apply (admit_decides_on_fresh_sample (guard_new 100 1024) 5 (Some 50)).
  - reflexivity.
  - reflexivity.
  - lia.
  - left. reflexivity.
Defined.
