(* ===== verification/Backpressure.v ===== *)
(** The backpressure ladder of [zradar-wal/src/backpressure.rs] with its floating
    point: the fill percentage, the delay of the slowdown stage and the monitor.

    Rust's [f64] is the binary64 of [SpecFloat], whose operations compute. *)

From stdpp Require Import base list.
From Stdlib Require Import SpecFloat.
From S2P Require Import Prelude WalGuard.

(** ** binary64 *)

Definition f64 : Type := spec_float.

(** [z as f64], rounded to nearest even. *)
Definition f64_of_u64 (z : Z) : f64 := binary_normalize 53 1024 z 0 false.
Definition f64_div : f64 → f64 → f64 := SFdiv 53 1024.
Definition f64_mul : f64 → f64 → f64 := SFmul 53 1024.

(** [x as u8] and [x as u64]: towards zero, saturating, NaN as 0. *)
Definition unsigned_of_f64 (max : Z) (x : f64) : Z :=
  match x with
  | S754_zero _ | S754_nan => 0
  | S754_infinity s => if s then 0 else max
  | S754_finite s m e =>
      if s then 0 else Z.min (if 0 <=? e then Zpos m * 2 ^ e else Zpos m / 2 ^ (- e)) max
  end.

(** ** The fill percentage *)

(** [compute_fill_pct] of the sizes of the segment files that can be read; the
    capacity wraps in a release build. *)
Definition compute_fill_pct (segment_sizes : list Z) (segment_max_bytes : Z) : Z :=
  let total_bytes := foldr Z.add 0 segment_sizes in
  let max_capacity := (segment_max_bytes * 4) mod 2 ^ 64 in
  if max_capacity =? 0 then 0
  else Z.min (unsigned_of_f64 u8_max (f64_mul (f64_div (f64_of_u64 total_bytes) (f64_of_u64 max_capacity)) (f64_of_u64 100))) 100.

(** [get_dir_free_bytes]. *)
Definition get_dir_free_bytes (measured : option Z) : Z := default u64_max measured.

(** ** The delay *)

(** [slowdown_delay] in milliseconds; the difference of the percentages wraps in a
    release build. *)
Definition slowdown_delay (cfg : BackpressureConfig) (fill_pct : Z) : Z :=
  if fill_pct <=? backpressure_warn_pct cfg then 0
  else
    let range := (backpressure_reject_pct cfg - backpressure_warn_pct cfg) mod 2 ^ 8 in
    if range =? 0 then slowdown_max_delay_ms cfg
    else
      let progress := f64_div (f64_of_u64 (fill_pct - backpressure_warn_pct cfg)) (f64_of_u64 range) in
      Z.min (unsigned_of_f64 u64_max (f64_mul progress (f64_of_u64 (slowdown_max_delay_ms cfg)))) (slowdown_max_delay_ms cfg).

(** ** The monitor *)

(** The state is kept as a byte. *)
Definition Monitor : Type := Z.
Definition monitor_new : Monitor := backpressure_as_u8 Normal.
Definition monitor_state (m : Monitor) : BackpressureState := backpressure_from_u8 m.

(** One turn of [backpressure_monitor_loop]: what the sample measured, or nothing
    when the blocking task panicked. *)
Definition monitor_tick (cfg : BackpressureConfig) (segment_max_bytes : Z) (m : Monitor) (sample : option (list Z * option Z)) : Monitor :=
  match sample with
  | Some (sizes, free) =>
      backpressure_as_u8 (monitor_update cfg (compute_fill_pct sizes segment_max_bytes) (get_dir_free_bytes free))
  | None => m
  end.

(** ** Properties *)

Example half_full : compute_fill_pct [268435456; 268435456] 268435456 = 50.
Proof. vm_compute. reflexivity. Qed.

Example full : compute_fill_pct (replicate 4 268435456) 268435456 = 100.
Proof. vm_compute. reflexivity. Qed.

Example one_third_down : compute_fill_pct [1] 1 = 25 ∧ compute_fill_pct [1; 1; 1] 1 = 75 ∧ slowdown_delay (mkBackpressureConfig 70 90 100 0) 80 = 50.
Proof. vm_compute. done. Qed.

Lemma unsigned_of_f64_range max x : 0 ≤ max → 0 ≤ unsigned_of_f64 max x ≤ max.
Proof.
  intros Hmax. destruct x as [s|s| |s m e]; cbn; try lia; [by destruct s; lia|]. destruct s; [lia|].
  assert (0 ≤ (if 0 <=? e then Zpos m * 2 ^ e else Zpos m / 2 ^ - e)) as Hpos; [|lia].
  destruct (Z.leb_spec 0 e); [pose proof (Z.pow_nonneg 2 e); nia|]. apply Z.div_pos; [lia|]. by apply Z.pow_pos_nonneg; lia.
Qed.

(** The percentage is one, whatever the sizes, and the delay never exceeds its
    maximum, whatever the configuration. *)
Theorem backpressure_bounded sizes segment_max cfg fill :
  0 ≤ slowdown_max_delay_ms cfg →
  0 ≤ compute_fill_pct sizes segment_max ≤ 100 ∧ 0 ≤ slowdown_delay cfg fill ≤ slowdown_max_delay_ms cfg ∧
  (fill ≤ backpressure_warn_pct cfg → slowdown_delay cfg fill = 0).
Proof.
  intros Hd. split; [|split].
  - unfold compute_fill_pct. cbn zeta. destruct (_ =? 0); [lia|].
    pose proof (unsigned_of_f64_range u8_max (f64_mul (f64_div (f64_of_u64 (foldr Z.add 0 sizes)) (f64_of_u64 ((segment_max * 4) mod 2 ^ 64))) (f64_of_u64 100)) ltac:(done)). lia.
  - unfold slowdown_delay. destruct (_ <=? _); [lia|]. cbn zeta. destruct (_ =? 0); [lia|].
    pose proof (unsigned_of_f64_range u64_max (f64_mul (f64_div (f64_of_u64 (fill - backpressure_warn_pct cfg))
      (f64_of_u64 ((backpressure_reject_pct cfg - backpressure_warn_pct cfg) mod 2 ^ 8))) (f64_of_u64 (slowdown_max_delay_ms cfg))) ltac:(done)). lia.
  - intros Hf%Z.leb_le. unfold slowdown_delay. by rewrite Hf.
Qed.

(** A fuller WAL and a fuller disk never relax the stage. *)
Theorem ladder_monotone cfg fill fill' free free' :
  fill ≤ fill' → free' ≤ free →
  backpressure_as_u8 (monitor_update cfg fill free) ≤ backpressure_as_u8 (monitor_update cfg fill' free').
Proof.
  intros Hf Hd. unfold monitor_update.
  destruct (Z.ltb_spec free (wal_min_free_bytes cfg)), (Z.leb_spec (backpressure_reject_pct cfg) fill), (Z.leb_spec (backpressure_warn_pct cfg) fill),
    (Z.ltb_spec free' (wal_min_free_bytes cfg)), (Z.leb_spec (backpressure_reject_pct cfg) fill'), (Z.leb_spec (backpressure_warn_pct cfg) fill');
    cbn; lia.
Qed.

(** The state read back after any turns is that of the last sample taken, and
    [Normal] before the first. *)
Theorem monitor_shows_last_sample cfg segment_max samples :
  monitor_state (foldl (monitor_tick cfg segment_max) monitor_new samples) =
    match last (omap id samples) with
    | Some (sizes, free) => monitor_update cfg (compute_fill_pct sizes segment_max) (get_dir_free_bytes free)
    | None => Normal
    end.
Proof.
  induction samples as [|sample samples IH] using rev_ind; [done|].
  rewrite foldl_app. cbn [foldl]. rewrite omap_app. destruct sample as [[sizes free]|]; cbn [omap list_omap id monitor_tick].
  - rewrite last_snoc. by destruct (monitor_update _ _ _).
  - by rewrite app_nil_r.
Qed.
