(* ===== verification/F64Text.v ===== *)
(** The text of a binary64 number: Rust's [format!("{v}")], the shortest decimal
    that reads back as the number, written without an exponent.

    The digits are produced one by one from the number and the half distances to
    its neighbours, as integers over one denominator; the loop is on fuel, and
    [shortest_total] shows that the fuel given always suffices. *)

From stdpp Require Import base list strings pretty.
From Stdlib Require Import SpecFloat Ascii.
From S2P Require Import Prelude Backpressure.

(** A positive number with the distances to the bounds of the interval of decimals
    that read back as it; the bounds themselves belong to it when [inclusive]. *)
Record DecodedFloat := mkDecoded {
  dc_mant : Z;
  dc_minus : Z;
  dc_plus : Z;
  dc_exp : Z;
  dc_inclusive : bool;
}.

Definition decode_finite (m : positive) (e : Z) : DecodedFloat :=
  if Z.pos m =? 2 ^ 52 then mkDecoded (Z.pos m * 4) 1 2 (e - 2) (Z.even (Z.pos m))
  else mkDecoded (Z.pos m * 2) 1 1 (e - 1) (Z.even (Z.pos m)).

(** [a] reaches [b]: the comparison of the interval's bounds. *)
Definition reaches (inclusive : bool) (b a : Z) : bool := if inclusive then b <=? a else b <? a.

(** The integers of the loop: the number, the distances and [10 ^ k] over one
    denominator. *)
Definition scaled (d : DecodedFloat) (k : Z) : Z * Z * Z * Z :=
  let up := 2 ^ Z.max (dc_exp d) 0 * 10 ^ Z.max (- k) 0 in
  (dc_mant d * up, dc_minus d * up, dc_plus d * up, 2 ^ Z.max (- dc_exp d) 0 * 10 ^ Z.max k 0).

(** [estimate_scaling_factor], a [k] with [10 ^ k] at most the number or just below
    it, and the correction that puts the interval below [10 ^ k]. *)
Definition estimate_scaling_factor (mant exp : Z) : Z := Z.shiftr ((Z.log2_up mant + exp) * 1292913986) 32.
Definition scale_exponent (d : DecodedFloat) : Z :=
  let k := estimate_scaling_factor (dc_mant d + dc_plus d) (dc_exp d) in
  let '(mant, _, plus, scale) := scaled d k in
  if reaches (dc_inclusive d) scale (mant + plus) then k + 1 else k.

(** The digits so far as a number, and how many. *)
Fixpoint shortest_digits (fuel : nat) (inclusive : bool) (digits len mant minus plus scale : Z) : option (Z * Z) :=
  match fuel with
  | O => None
  | S fuel =>
      let digits := 10 * digits + 10 * mant / scale in
      let mant := 10 * mant mod scale in
      let down := reaches inclusive mant (10 * minus) in
      let up := reaches inclusive scale (mant + 10 * plus) in
      if down || up then Some (if up && (negb down || (scale <=? 2 * mant)) then digits + 1 else digits, len + 1)
      else shortest_digits fuel inclusive digits (len + 1) mant (10 * minus) (10 * plus) scale
  end.

(** The digits, how many, and the power of ten they are the fraction of. *)
Definition format_shortest (d : DecodedFloat) : option (Z * Z * Z) :=
  let k := scale_exponent d in
  let '(mant, minus, plus, scale) := scaled d k in
  '(digits, len) ← shortest_digits 30 (dc_inclusive d) 0 0 mant minus plus scale;
  Some (digits, len, k).

Definition zeros (n : Z) : string := Nat.iter (Z.to_nat n) (String "0"%char) EmptyString.

(** The digits [buf] with the point behind the first [exp] of them. *)
Definition digits_to_dec_str (buf : string) (exp : Z) : string :=
  let len := Z.of_nat (String.length buf) in
  if exp <=? 0 then "0." +:+ zeros (- exp) +:+ buf
  else if exp <? len then String.substring 0 (Z.to_nat exp) buf +:+ "." +:+ String.substring (Z.to_nat exp) (Z.to_nat (len - exp)) buf
  else buf +:+ zeros (exp - len).

Definition positive_text (m : positive) (e : Z) : option string :=
  '(digits, len, k) ← format_shortest (decode_finite m e);
  let buf := pretty digits in
  Some (digits_to_dec_str buf (k + (Z.of_nat (String.length buf) - len))).

Definition f64_text (v : f64) : option string :=
  let signed (s : bool) (t : string) := if s then "-" +:+ t else t in
  match v with
  | S754_nan => Some "NaN"
  | S754_infinity s => Some (signed s "inf")
  | S754_zero s => Some (signed s "0")
  | S754_finite s m e => signed s <$> positive_text m e
  end.

(** ** Samples *)

Definition f64_ratio (n d : Z) : f64 := f64_div (f64_of_u64 n) (f64_of_u64 d).

Example text_of_ratios :
  map f64_text [f64_ratio 5 10000; f64_ratio 1 40; f64_ratio 5 2; f64_ratio 1 3; f64_ratio 10 1; f64_of_u64 16777216] =
  map Some ["0.0005"; "0.025"; "2.5"; "0.3333333333333333"; "10"; "16777216"].
Proof. vm_compute. reflexivity. Qed.

Example text_of_extremes :
  f64_text (S754_finite true 9007199254740991 971) = Some ("-17976931348623157" +:+ zeros 292) ∧
  f64_text (S754_finite false 1 (-1074)) = Some ("0." +:+ zeros 323 +:+ "5") ∧
  f64_text (S754_finite false 4503599627370496 (-1074)) = Some ("0." +:+ zeros 307 +:+ "22250738585072014") ∧
  f64_text (f64_of_u64 9223372036854775807) = Some "9223372036854776000".
Proof. vm_compute. done. Qed.

(** ** Properties *)

(** [digits / 10 ^ len], of [10 ^ k], lies in the interval. *)
Definition in_interval (d : DecodedFloat) (k digits len : Z) : Prop :=
  let '(mant, minus, plus, scale) := scaled d k in
  if dc_inclusive d then (mant - minus) * 10 ^ len ≤ digits * scale ≤ (mant + plus) * 10 ^ len
  else (mant - minus) * 10 ^ len < digits * scale < (mant + plus) * 10 ^ len.

Lemma reaches_spec inclusive b a : reaches inclusive b a = true ↔ if inclusive then b ≤ a else b < a.
Proof. unfold reaches. destruct inclusive; [apply Z.leb_le|apply Z.ltb_lt]. Qed.

Lemma shortest_digits_in fuel inclusive digits len mant minus plus scale digits' len' :
  0 < scale → 0 < minus → 0 < plus →
  shortest_digits fuel inclusive digits len mant minus plus scale = Some (digits', len') →
  len < len' ∧
  let n := 10 ^ (len' - len) in
  let x := (digits' - n * digits) * scale in
  if inclusive then (mant - minus) * n ≤ x ≤ (mant + plus) * n else (mant - minus) * n < x < (mant + plus) * n.
Proof.
  intros Hs. revert digits len mant minus plus. induction fuel as [|fuel IH]; intros digits len mant minus plus Hm Hp; [done|].
  cbn [shortest_digits]. pose proof (Z.div_mod (10 * mant) scale ltac:(lia)) as Hdiv.
  pose proof (Z.mod_pos_bound (10 * mant) scale Hs) as Hmod.
  set (q := 10 * mant / scale) in *. set (r := 10 * mant mod scale) in *.
  destruct (reaches inclusive r (10 * minus)) eqn:Hdown, (reaches inclusive scale (r + 10 * plus)) eqn:Hup; cbn [orb andb negb];
    rewrite ?reaches_spec in *.
  4:{ intros Hd. apply IH in Hd as [Hlen Hx]; [|lia..]. split; [lia|]. cbn zeta in *.
      replace (len' - len) with (Z.succ (len' - (len + 1))) by lia. rewrite Z.pow_succ_r by lia.
      set (n := 10 ^ (len' - (len + 1))) in *.
      replace ((digits' - 10 * n * digits) * scale) with ((digits' - n * (10 * digits + q)) * scale + n * (scale * q)) by ring.
      replace (scale * q) with (10 * mant - r) by lia.
      destruct inclusive; nia. }
  all: intros [= <- <-]; (split; [lia|]); cbn zeta; replace (len + 1 - len) with 1 by lia; rewrite Z.pow_1_r.
  - destruct (Z.leb_spec scale (2 * r)); destruct inclusive; nia.
  - destruct inclusive; nia.
  - destruct inclusive; nia.
Qed.

(** Halving the distances' share of the scale at each digit, the loop ends. *)
Lemma shortest_digits_total fuel inclusive digits len mant minus plus scale :
  (0 < fuel)%nat → 0 < scale → scale ≤ 10 ^ Z.of_nat fuel * minus →
  is_Some (shortest_digits fuel inclusive digits len mant minus plus scale).
Proof.
  intros Hf Hs. revert digits len mant minus plus. induction fuel as [|fuel IH]; intros digits len mant minus plus Hle; [lia|].
  cbn [shortest_digits]. pose proof (Z.mod_pos_bound (10 * mant) scale Hs) as Hmod.
  destruct (_ || _) eqn:Hstop; [by eexists|]. apply IH.
  - destruct fuel; [|lia]. apply orb_false_iff in Hstop as [Hdown _]. exfalso.
    assert (reaches inclusive (10 * mant mod scale) (10 * minus) = true) as Ht; [|by rewrite Ht in Hdown].
    apply reaches_spec. change (10 ^ Z.of_nat 1) with 10 in Hle. destruct inclusive; lia.
  - rewrite Nat2Z.inj_succ, Z.pow_succ_r in Hle by lia. lia.
Qed.

(** [k] at its highest, for each exponent of a finite number. *)
Definition highest_scale (exp : Z) : Z := Z.shiftr ((56 + exp) * 1292913986) 32 + 1.

Lemma ten_le_two n : 0 ≤ n → 10 ^ (3 * (n / 10)) ≤ 2 ^ n.
Proof.
  intros Hn. pose proof (Z.div_pos n 10 Hn ltac:(lia)). pose proof (Z.mod_pos_bound n 10 ltac:(lia)).
  rewrite (Z.div_mod n 10) at 2 by lia. rewrite Z.pow_add_r by lia. rewrite !Z.pow_mul_r by lia.
  change (10 ^ 3) with 1000. change (2 ^ 10) with 1024.
  pose proof (Z.pow_le_mono_l 1000 1024 (n / 10) ltac:(lia)). pose proof (Z.pow_pos_nonneg 2 (n mod 10) ltac:(lia) ltac:(lia)).
  pose proof (Z.pow_pos_nonneg 1024 (n / 10) ltac:(lia) ltac:(lia)). nia.
Qed.

Lemma two_le_ten n : 0 ≤ n → 2 ^ n ≤ 10 ^ (4 * (n / 13) + 4).
Proof.
  intros Hn. pose proof (Z.div_pos n 13 Hn ltac:(lia)). pose proof (Z.mod_pos_bound n 13 ltac:(lia)).
  rewrite (Z.div_mod n 13) at 1 by lia. rewrite !Z.pow_add_r by lia. rewrite !Z.pow_mul_r by lia.
  change (10 ^ 4) with 10000. change (2 ^ 13) with 8192.
  pose proof (Z.pow_le_mono_l 8192 10000 (n / 13) ltac:(lia)). pose proof (Z.pow_le_mono_r 2 (n mod 13) 13 ltac:(lia) ltac:(lia)) as Hr.
  change (2 ^ 13) with 8192 in Hr. pose proof (Z.pow_pos_nonneg 8192 (n / 13) ltac:(lia) ltac:(lia)). nia.
Qed.

Lemma scales_fit exp : -1076 ≤ exp ≤ 970 →
  2 ^ Z.max (- exp) 0 * 10 ^ Z.max (highest_scale exp) 0 ≤ 10 ^ 30 * (2 ^ Z.max exp 0 * 10 ^ Z.max (- highest_scale exp) 0).
Proof.
  intros Hexp. unfold highest_scale. rewrite Z.shiftr_div_pow2 by lia. change (2 ^ 32) with 4294967296.
  pose proof (Z.div_mod ((56 + exp) * 1292913986) 4294967296 ltac:(lia)).
  pose proof (Z.mod_pos_bound ((56 + exp) * 1292913986) 4294967296 ltac:(lia)).
  set (K := (56 + exp) * 1292913986 / 4294967296) in *.
  destruct (Z.le_gt_cases 0 exp) as [Hp|Hn].
  - assert (0 ≤ K) by lia. rewrite (Z.max_r (- exp)), (Z.max_l exp), (Z.max_l (K + 1)), (Z.max_r (- (K + 1))) by lia. rewrite Z.mul_1_l, Z.mul_1_r.
    pose proof (Z.div_mod exp 10 ltac:(lia)). pose proof (Z.mod_pos_bound exp 10 ltac:(lia)).
    etrans; [|apply Z.mul_le_mono_nonneg_l, (ten_le_two exp); lia]. rewrite <- Z.pow_add_r by lia.
    apply Z.pow_le_mono_r; lia.
  - rewrite (Z.max_l (- exp)), (Z.max_r exp) by lia. rewrite Z.mul_1_l.
    pose proof (Z.div_mod (- exp) 13 ltac:(lia)). pose proof (Z.mod_pos_bound (- exp) 13 ltac:(lia)).
    etrans; [apply Z.mul_le_mono_nonneg_r, (two_le_ten (- exp)); [apply Z.pow_nonneg|]; lia|].
    rewrite <- !Z.pow_add_r by lia. apply Z.pow_le_mono_r; lia.
Qed.

Lemma scaled_positive d k : let '(_, minus, plus, scale) := scaled d k in
  0 < dc_minus d → 0 < dc_plus d → 0 < scale ∧ 0 < minus ∧ 0 < plus.
Proof.
  cbn. intros. assert (∀ b n, 0 < b → 0 < b ^ Z.max n 0) as Hpow by (intros; apply Z.pow_pos_nonneg; lia).
  split_and!; repeat apply Z.mul_pos_pos; try lia; by apply Hpow.
Qed.

Lemma bounded_range m e : bounded 53 1024 m e = true → Z.pos m < 2 ^ 53 ∧ -1074 ≤ e ≤ 971.
Proof.
  unfold bounded, canonical_mantissa, fexp. rewrite andb_true_iff, Z.eqb_eq, Z.leb_le. unfold SpecFloat.emin.
  intros [Hc He]. assert (Z.pos (digits2_pos m) ≤ 53) as Hd by lia. split; [|lia].
  apply Z.lt_le_trans with (2 ^ Z.pos (digits2_pos m)); [|apply Z.pow_le_mono_r; lia].
  clear. induction m as [m IH|m IH|]; cbn [digits2_pos]; rewrite ?Pos2Z.inj_succ, ?Z.pow_succ_r by lia; lia.
Qed.

Lemma decode_range m e :
  bounded 53 1024 m e = true →
  let d := decode_finite m e in dc_minus d = 1 ∧ 1 ≤ dc_plus d ∧ 0 < dc_mant d ∧ dc_mant d + dc_plus d ≤ 2 ^ 56 ∧ -1076 ≤ dc_exp d ≤ 970.
Proof. intros [Hm He]%bounded_range. unfold decode_finite. destruct (Z.eqb_spec (Z.pos m) (2 ^ 52)); cbn; lia. Qed.

Lemma scale_exponent_le d : 1 < dc_mant d + dc_plus d ≤ 2 ^ 56 → scale_exponent d ≤ highest_scale (dc_exp d).
Proof.
  intros Hd. assert (estimate_scaling_factor (dc_mant d + dc_plus d) (dc_exp d) + 1 ≤ highest_scale (dc_exp d)) as H.
  { unfold estimate_scaling_factor, highest_scale. rewrite !Z.shiftr_div_pow2 by lia.
    pose proof (Z.log2_up_le_mono _ _ (proj2 Hd)) as Hl. rewrite Z.log2_up_pow2 in Hl by lia.
    apply Zplus_le_compat_r, Z.div_le_mono; lia. }
  unfold scale_exponent. destruct (scaled _ _) as [[[a b] c] s]. destruct (reaches _ _ _); lia.
Qed.

Lemma format_shortest_total d :
  dc_minus d = 1 → 1 ≤ dc_plus d → 0 < dc_mant d → dc_mant d + dc_plus d ≤ 2 ^ 56 → -1076 ≤ dc_exp d ≤ 970 →
  is_Some (format_shortest d).
Proof.
  intros Hm Hp Hmant Hsum He. unfold format_shortest. pose proof (scaled_positive d (scale_exponent d)) as Hpos.
  pose proof (scale_exponent_le d ltac:(lia)) as Hk. pose proof (scales_fit _ He) as Hfit.
  generalize dependent (scale_exponent d). intros k Hpos Hk.
  destruct (scaled d k) as [[[mant minus] plus] scale] eqn:Hsc. destruct Hpos as (Hs & _ & _); [lia..|].
  destruct (shortest_digits_total 30 (dc_inclusive d) 0 0 mant minus plus scale) as [[digits len] ->]; [lia|exact Hs| |by eexists].
  unfold scaled in Hsc. injection Hsc as _ <- _ <-. rewrite Hm, Z.mul_1_l. change (Z.of_nat 30) with 30.
  etrans; [|etrans; [exact Hfit|]]; (apply Z.mul_le_mono_nonneg_l; [try done; by apply Z.pow_nonneg|]).
  - apply Z.pow_le_mono_r; lia.
  - apply Z.mul_le_mono_nonneg_l; [by apply Z.pow_nonneg|]. apply Z.pow_le_mono_r; lia.
Qed.

(** The text of every finite number exists and reads back as the number: its digits
    lie in the interval of the decimals that round to it. *)
Theorem f64_text_reads_back m e :
  bounded 53 1024 m e = true →
  is_Some (positive_text m e) ∧
  ∃ digits len k, format_shortest (decode_finite m e) = Some (digits, len, k) ∧ 0 < len ∧ in_interval (decode_finite m e) k digits len.
Proof.
  intros Hb. pose proof (decode_range m e Hb) as (Hm & Hp & Hmant & Hsum & He).
  pose proof (format_shortest_total _ Hm Hp Hmant Hsum He) as [[[digits len] k] Hf]. split.
  { unfold positive_text. rewrite Hf. by eexists. }
  exists digits, len, k. split; [done|]. revert Hf. unfold format_shortest, in_interval.
  set (d := decode_finite m e) in *. pose proof (scaled_positive d (scale_exponent d)) as Hpos.
  destruct (scaled d (scale_exponent d)) as [[[mant minus] plus] scale] eqn:Hsc.
  destruct (shortest_digits 30 (dc_inclusive d) 0 0 mant minus plus scale) as [[dg ln]|] eqn:Hd; [|done]. cbn [mbind option_bind]. intros [= -> -> <-]. rewrite Hsc.
  destruct Hpos as (Hs & Hmi & Hpl); [lia..|]. apply shortest_digits_in in Hd as [Hlen Hx]; [|done..].
  cbn zeta in Hx. rewrite Z.sub_0_r, Z.mul_0_r, Z.sub_0_r in Hx. done.
Qed.

Lemma f64_text_reads_back_witness : is_Some (positive_text 5764607523034235 (-59)).
Proof. exact (proj1 (f64_text_reads_back 5764607523034235 (-59) eq_refl)). Defined.
