(* ===== verification/WalLog.v ===== *)
(** The write-ahead log handle: [zradar-wal/src/lib.rs].

    [Wal::open] recovers the active segment of a directory, [Wal::append]
    assigns the next offset, rotates the segment when it is full and appends
    the serialized record. *)

From stdpp Require Import base gmap sorting list.
From coqutil Require Import Byte.
From S2P Require Import Prelude WalRecord WalSegment WalGuard.

(** The WAL directory: its segment files and the target of [current.seg],
    the symlink through which the group-commit task finds the file to fsync. *)
Record WalFs := mkWalFs {
  fs_segments : WalDir;
  fs_current : option Z;
}.

Record Wal := mkWal {
  wal_writer : SegmentWriter;
  offset_counter : Z;
  segment_max_bytes : Z;
  disk_guard : DiskSpaceGuard;
}.

Inductive WalError := WalSegmentError (e : SegmentError).

(** How the operating system answers the calls of one segment rotation. *)
Inductive rotate_io :=
| RotateOk
| RotateFsyncFails (k : IoKind)
| RotateCreateFails (written : nat) (k : IoKind)
| RotateSymlinkFails (k : IoKind).

(** The environment of one [append]: age of the guard, free-space sample, and
    the answers to its file operations. *)
Record AppendEnv := mkAppendEnv {
  env_now : Z;
  env_sample : option Z;
  env_rotate : rotate_io;
  env_write : io_write;
}.

(** [SegmentWriter::create] followed by [update_current_symlink]. *)
Definition create_active (fs : WalFs) (id : Z) : WalFs * SegmentWriter :=
  let '(dir, w) := segment_create (fs_segments fs) id in (mkWalFs dir (Some id), w).

Definition reopen_segment_for_append (dir : WalDir) (id : Z) : outcome WalError SegmentWriter :=
  data ← ok_or (dir !! id) (WalSegmentError (SegmentIo NotFound));
  mret (mkSegmentWriter id (zlen data)).

Definition segment_append_error (e : SegmentError) : AppendError :=
  match e with SegmentIo k => AppendIo k | _ => AppendIo OtherIo end.

Section Wal.
Context `{Crc32}.

(** The recovery scan of the last segment: the highest offset in it, after
    cutting a torn tail off. *)
Definition recover_segment (dir : WalDir) (last_id : Z) : outcome WalError (WalDir * Z) :=
  reader ← map_err WalSegmentError (segment_open dir last_id);
  '(max_offset, reader, stop) ←
    read_segment (λ m rec, Ok (Z.max m (assigned_offset rec))) reader 0;
  match stop with
  | None => mret (dir, max_offset)
  | Some (SegmentRecord e) =>
      if is_torn_write e then
        dir ← map_err WalSegmentError (truncate_segment dir last_id (truncation_point reader));
        mret (dir, max_offset)
      else Err (WalSegmentError (SegmentRecord e))
  | Some e => Err (WalSegmentError e)
  end.

Definition wal_open (fs : WalFs) (max_bytes : Z) (guard : DiskSpaceGuard) :
    outcome WalError (WalFs * Wal) :=
  match last (list_segments (fs_segments fs)) with
  | Some last_id =>
      '(dir, max_offset) ← recover_segment (fs_segments fs) last_id;
      let fs := mkWalFs dir (fs_current fs) in
      file_size ← ok_or ((λ d, zlen d) <$> dir !! last_id) (WalSegmentError (SegmentIo NotFound));
      if max_bytes <=? file_size then
        let '(fs, w) := create_active fs (last_id + 1) in
        mret (fs, mkWal w (max_offset + 1) max_bytes guard)
      else
        w ← reopen_segment_for_append dir last_id;
        mret (fs, mkWal w (max_offset + 1) max_bytes guard)
  | None =>
      let '(fs, w) := create_active fs 0 in mret (fs, mkWal w 0 max_bytes guard)
  end.

(** Sealing the active segment and opening the next one. *)
Definition rotate (fs : WalFs) (w : SegmentWriter) (io : rotate_io) :
    WalFs * SegmentWriter * outcome AppendError unit :=
  let new_id := w_segment_id w + 1 in
  match io with
  | RotateOk => let '(fs, w') := create_active fs new_id in (fs, w', Ok ())
  | RotateFsyncFails k => (fs, w, Err (AppendIo k))
  | RotateCreateFails n k =>
      (mkWalFs (<[new_id := take n (segment_header new_id)]> (fs_segments fs)) (fs_current fs),
       w, Err (AppendIo k))
  | RotateSymlinkFails k =>
      (mkWalFs (segment_create (fs_segments fs) new_id).1 None, w, Err (AppendIo k))
  end.

Definition with_offset (r : WalRecord) (off : Z) : WalRecord :=
  mkWalRecord (signal_type r) (workspace_id r) (arrival_timestamp_ns r) off (payload r).

(** The part of [append] under the writer lock: rotate if the record does
    not fit, then write it. *)
Definition locked_write (fs : WalFs) (wal : Wal) (data : list byte) (env : AppendEnv) :
    WalFs * Wal * outcome AppendError unit :=
  let set_writer w := mkWal w (offset_counter wal) (segment_max_bytes wal) (disk_guard wal) in
  let w := wal_writer wal in
  let '(fs, w, rotated) :=
    if segment_max_bytes wal <? w_current_size w + zlen data
    then rotate fs w (env_rotate env) else (fs, w, Ok ()) in
  match rotated with
  | Ok _ =>
      let '(dir, w, res) := segment_append (fs_segments fs) w data (env_write env) in
      (mkWalFs dir (fs_current fs), set_writer w,
       map_err segment_append_error ((λ _, ()) <$> res))
  | Err e => (fs, set_writer w, Err e)
  | Panic => (fs, set_writer w, Panic)
  end.

(** [Wal::append]; on success the record is registered for the next group
    commit. The offset is taken before the writer lock. *)
Definition append (fs : WalFs) (wal : Wal) (record : WalRecord) (env : AppendEnv) :
    WalFs * Wal * outcome AppendError WalRecord :=
  let '(guard, admitted) := admit_ (disk_guard wal) (env_now env) (env_sample env) in
  let wal := mkWal (wal_writer wal) (offset_counter wal) (segment_max_bytes wal) guard in
  match admitted with
  | Ok _ =>
      let offset := offset_counter wal in
      let wal := mkWal (wal_writer wal) (u64_wrap (offset + 1)) (segment_max_bytes wal) guard in
      let record := with_offset record offset in
      let '(fs, wal, res) := locked_write fs wal (serialize record) env in
      (fs, wal, (λ _, record) <$> res)
  | Err e => (fs, wal, Err e)
  | Panic => (fs, wal, Panic)
  end.

(** [Wal::check_free_space]: the guard's decision without an append. *)
Definition check_free_space (wal : Wal) (now : Z) (sample : option Z) : Wal * outcome AppendError unit :=
  let '(guard, res) := admit_ (disk_guard wal) now sample in
  (mkWal (wal_writer wal) (offset_counter wal) (segment_max_bytes wal) guard, res).

(** ** Abstract view

    A directory in order holds a list of segments by increasing id, each
    with its records; [segs_dir] is the directory that stores it. *)
Abbreviation segs := (list (Z * list WalRecord)).

Definition segs_dir (l : segs) : WalDir :=
  list_to_map ((λ s, (s.1, segment_bytes s.1 s.2)) <$> l).

Definition segs_wf (l : segs) : Prop :=
  StronglySorted Z.lt l.*1 ∧ Forall (λ s, u64_range s.1 ∧ Forall wf_record s.2) l.

Definition segs_records (l : segs) : list WalRecord := concat l.*2.

Definition max_offset_of (rs : list WalRecord) : Z :=
  foldl (λ m r, Z.max m (assigned_offset r)) 0 rs.

(** Appending one record to the last segment of a log, or to a fresh one. *)
Definition segs_append (l : segs) (rotate : bool) (r : WalRecord) : segs :=
  match last l with
  | Some (id, rs) =>
      if rotate then l ++ [(id + 1, [r])]
      else take (length l - 1) l ++ [(id, rs ++ [r])]
  | None => l
  end.

(** The handle [wal] writes to the last segment of [l], wherever [current.seg]
    points. *)
Definition wal_on (fs : WalFs) (wal : Wal) (l : segs) : Prop :=
  fs_segments fs = segs_dir l ∧ segs_wf l ∧
  ∃ init id rs, l = init ++ [(id, rs)] ∧
    wal_writer wal = mkSegmentWriter id (zlen (segment_bytes id rs)).

(** The same, with the symlink on that segment. *)
Definition wal_at (fs : WalFs) (wal : Wal) (l : segs) : Prop :=
  fs_segments fs = segs_dir l ∧ segs_wf l ∧
  ∃ init id rs, l = init ++ [(id, rs)] ∧
    wal_writer wal = mkSegmentWriter id (zlen (segment_bytes id rs)) ∧
    fs_current fs = Some id.
End Wal.

Abbreviation segs := (list (Z * list WalRecord)).

#[export] Instance segs_wf_dec (l : segs) : Decision (segs_wf l).
Proof. unfold segs_wf. apply _. Defined.

(** ** Lemmas on the abstract view *)

Section Segs.
Context `{Crc32}.
Implicit Types (l : segs) (rs : list WalRecord).

Lemma sorted_lt_NoDup (ids : list Z) : StronglySorted Z.lt ids → NoDup ids.
Proof.
  induction ids as [|x ids IH]; intros Hs; [constructor|].
  apply StronglySorted_cons in Hs as [Hx Hs]. constructor; [|by apply IH].
  intros Hin. rewrite Forall_forall in Hx. specialize (Hx x Hin). lia.
Qed.

Lemma sorted_lt_snoc (ids : list Z) id :
  StronglySorted Z.lt (ids ++ [id]) ↔ StronglySorted Z.lt ids ∧ Forall (λ x, x < id) ids.
Proof.
  rewrite StronglySorted_app, Forall_forall. split.
  - intros (Hlt & Hs & _). split; [done|]. intros x Hx. apply Hlt; [done|]. by left.
  - intros [Hs Hlt]. split_and!; [|done|repeat constructor].
    intros x y Hx ->%list_elem_of_singleton. by apply Hlt.
Qed.

Lemma segs_wf_snoc l id rs :
  segs_wf (l ++ [(id, rs)]) ↔
    segs_wf l ∧ Forall (λ x, x < id) l.*1 ∧ u64_range id ∧ Forall wf_record rs.
Proof.
  unfold segs_wf. rewrite fmap_app, Forall_app, Forall_singleton. cbn.
  rewrite sorted_lt_snoc. tauto.
Qed.

Lemma segs_dir_fst l : ((λ s, (s.1, segment_bytes s.1 s.2)) <$> l).*1 = l.*1.
Proof. rewrite <-list_fmap_compose. by apply list_fmap_ext. Qed.

Lemma segs_dir_NoDup l :
  segs_wf l → NoDup ((λ s, (s.1, segment_bytes s.1 s.2)) <$> l).*1.
Proof. intros [Hs _]. rewrite segs_dir_fst. by apply sorted_lt_NoDup. Qed.

Lemma segs_dir_lookup l id rs :
  segs_wf l → (id, rs) ∈ l → segs_dir l !! id = Some (segment_bytes id rs).
Proof.
  intros Hwf Hin. unfold segs_dir. apply elem_of_list_to_map_1; [by apply segs_dir_NoDup|].
  apply list_elem_of_fmap. by exists (id, rs).
Qed.

Lemma segs_dir_snoc l id rs :
  segs_wf (l ++ [(id, rs)]) →
  segs_dir (l ++ [(id, rs)]) = <[id := segment_bytes id rs]> (segs_dir l).
Proof.
  intros Hwf. unfold segs_dir. rewrite fmap_app. cbn [fmap list_fmap].
  rewrite (list_to_map_proper _
    ((id, segment_bytes id rs) :: ((λ s, (s.1, segment_bytes s.1 s.2)) <$> l))).
  - done.
  - apply segs_dir_NoDup in Hwf. by rewrite fmap_app in Hwf.
  - by rewrite Permutation_app_comm.
Qed.

Lemma segs_dir_update l id rs rs' :
  segs_wf (l ++ [(id, rs)]) → Forall wf_record rs' →
  <[id := segment_bytes id rs']> (segs_dir (l ++ [(id, rs)])) = segs_dir (l ++ [(id, rs')]).
Proof.
  intros Hwf Hrs'. rewrite (segs_dir_snoc l id rs Hwf), insert_insert_eq.
  apply segs_wf_snoc in Hwf as (? & ? & ? & _). symmetry. apply segs_dir_snoc.
  by apply segs_wf_snoc.
Qed.

Lemma list_segments_spec (dir : WalDir) :
  StronglySorted Z.lt (list_segments dir) ∧ ∀ id, id ∈ list_segments dir ↔ is_Some (dir !! id).
Proof.
  unfold list_segments. split.
  - assert (NoDup (merge_sort Z.le (elements (dom dir)))) as Hnd
      by (rewrite merge_sort_Permutation; apply NoDup_elements).
    assert (StronglySorted Z.le (merge_sort Z.le (elements (dom dir)))) as Hs
      by (apply (StronglySorted_merge_sort _); apply _).
    induction Hs as [|x l Hs IH Hx]; [constructor|].
    apply NoDup_cons in Hnd as [Hnx Hnd]. constructor; [by apply IH|]. rewrite Forall_forall in *.
    intros y Hy. specialize (Hx y Hy). destruct (decide (x = y)) as [->|]; [done|lia].
  - intros id. by rewrite merge_sort_Permutation, elem_of_elements, elem_of_dom.
Qed.

(** The segments are listed in the order of the log. *)
Lemma list_segments_segs l : segs_wf l → list_segments (segs_dir l) = l.*1.
Proof.
  intros Hwf. pose proof (list_segments_spec (segs_dir l)) as [Hs Hin].
  apply (StronglySorted_unique_strong Z.lt); [lia|done|apply Hwf|].
  apply NoDup_Permutation; [by apply sorted_lt_NoDup|apply sorted_lt_NoDup, Hwf|].
  intros id. rewrite Hin. unfold segs_dir. split.
  - intros [d Hd]. apply elem_of_list_to_map_2, list_elem_of_fmap in Hd as ([id' rs] & [= -> _] & ?).
    apply list_elem_of_fmap. by exists (id', rs).
  - intros ([id' rs] & -> & Hl)%list_elem_of_fmap. cbn.
    eexists. by apply segs_dir_lookup.
Qed.

Lemma list_segments_insert (dir : WalDir) id d :
  is_Some (dir !! id) → list_segments (<[id := d]> dir) = list_segments dir.
Proof.
  intros Hid. unfold list_segments. rewrite dom_insert_L.
  by rewrite subseteq_union_1_L by (apply singleton_subseteq_l, elem_of_dom, Hid).
Qed.

Lemma max_offset_of_acc rs m :
  m ≤ foldl (λ m r, Z.max m (assigned_offset r)) m rs ∧
  Forall (λ r, assigned_offset r ≤ foldl (λ m r, Z.max m (assigned_offset r)) m rs) rs.
Proof.
  revert m. induction rs as [|r rs IH]; intros m; cbn [foldl]; [split; [lia|constructor]|].
  destruct (IH (Z.max m (assigned_offset r))) as [Hm Hrs]. split; [lia|].
  constructor; [lia|done].
Qed.

Lemma max_offset_of_lt rs : Forall (λ r, assigned_offset r < max_offset_of rs + 1) rs.
Proof. eapply Forall_impl; [apply (max_offset_of_acc rs 0)|]. cbn. unfold max_offset_of. lia. Qed.

Lemma last_segment_segs l id rs :
  segs_wf (l ++ [(id, rs)]) → last (list_segments (segs_dir (l ++ [(id, rs)]))) = Some id.
Proof. intros Hwf. rewrite list_segments_segs by done. rewrite fmap_app. apply last_snoc. Qed.

Lemma segment_bytes_snoc id rs r : segment_bytes id (rs ++ [r]) = segment_bytes id rs ++ serialize r.
Proof.
  unfold segment_bytes. rewrite records_bytes_app, app_assoc. f_equal.
  unfold records_bytes. cbn. apply app_nil_r.
Qed.

Lemma segment_bytes_nil id : segment_bytes id [] = segment_header id.
Proof. unfold segment_bytes. apply app_nil_r. Qed.

Lemma wf_with_offset r off : wf_record r → u64_range off → wf_record (with_offset r off).
Proof. unfold wf_record, with_offset. cbn. tauto. Qed.
End Segs.

Section Log.
Context `{Crc32}.
Implicit Types (l : segs) (rs : list WalRecord) (env : AppendEnv).

Definition env_ok env : Prop := env_rotate env = RotateOk ∧ env_write env = WriteAll.

(** The log after the record [r] went through [locked_write]. *)
Definition log_append l (id : Z) rs (rotated : bool) (r : WalRecord) : segs :=
  if rotated then (l ++ [(id, rs)]) ++ [(id + 1, [r])] else l ++ [(id, rs ++ [r])].

Definition needs_rotation (wal : Wal) (r : WalRecord) : bool :=
  segment_max_bytes wal <? w_current_size (wal_writer wal) + zlen (serialize r).

Lemma segs_records_log_append l id rs rot r :
  segs_records (log_append l id rs rot r) = segs_records (l ++ [(id, rs)]) ++ [r].
Proof.
  unfold log_append, segs_records. destruct rot; rewrite !fmap_app, !concat_app; cbn;
    rewrite ?app_nil_r, <-?app_assoc; done.
Qed.

Lemma segs_wf_log_append l id rs rot r :
  segs_wf (l ++ [(id, rs)]) → wf_record r → u64_range (id + 1) →
  segs_wf (log_append l id rs rot r).
Proof.
  intros Hwf Hr Hid. pose proof Hwf as (Hl & Hlt & Hu & Hrs)%segs_wf_snoc.
  destruct rot; cbn [log_append].
  - apply segs_wf_snoc. split_and!; [done| |done|by constructor].
    rewrite fmap_app, Forall_app. cbn. rewrite Forall_singleton. split; [|lia].
    eapply Forall_impl; [exact Hlt|]. cbn. intros. lia.
  - apply segs_wf_snoc. split_and!; [done|done|done|]. apply Forall_app. auto.
Qed.

Lemma wal_on_inv fs wal l id rs :
  wal_on fs wal (l ++ [(id, rs)]) →
  fs_segments fs = segs_dir (l ++ [(id, rs)]) ∧ segs_wf (l ++ [(id, rs)]) ∧
  wal_writer wal = mkSegmentWriter id (zlen (segment_bytes id rs)).
Proof.
  intros (? & ? & l' & id' & rs' & Heq & ?). apply app_inj_tail in Heq as [<- [= <- <-]].
  by split_and!.
Qed.

Lemma wal_at_inv fs wal l id rs :
  wal_at fs wal (l ++ [(id, rs)]) →
  fs_segments fs = segs_dir (l ++ [(id, rs)]) ∧ segs_wf (l ++ [(id, rs)]) ∧
  wal_writer wal = mkSegmentWriter id (zlen (segment_bytes id rs)) ∧ fs_current fs = Some id.
Proof.
  intros (? & ? & l' & id' & rs' & Heq & ? & ?). apply app_inj_tail in Heq as [<- [= <- <-]].
  by split_and!.
Qed.

Lemma wal_at_on fs wal l : wal_at fs wal l → wal_on fs wal l.
Proof. intros (? & ? & init & id & rs & ? & ? & _). split_and!; [done|done|]. by exists init, id, rs. Qed.

Lemma wal_on_at fs wal l id rs :
  wal_on fs wal (l ++ [(id, rs)]) → fs_current fs = Some id → wal_at fs wal (l ++ [(id, rs)]).
Proof.
  intros (? & ? & ?)%wal_on_inv ?. split_and!; [done|done|]. by exists l, id, rs.
Qed.

(** Under the writer lock, the record joins the log at its end; a rotation
    moves the symlink to the new segment. *)
Lemma locked_write_ok fs wal l id rs r env :
  wal_on fs wal (l ++ [(id, rs)]) → env_ok env → wf_record r → u64_range (id + 1) →
  ∃ fs' w, locked_write fs wal (serialize r) env =
      (fs', mkWal w (offset_counter wal) (segment_max_bytes wal) (disk_guard wal), Ok ()) ∧
    wal_on fs' (mkWal w (offset_counter wal) (segment_max_bytes wal) (disk_guard wal))
      (log_append l id rs (needs_rotation wal r) r) ∧
    fs_current fs' = if needs_rotation wal r then Some (id + 1) else fs_current fs.
Proof.
  intros (Hfs & Hwf & Hw)%wal_on_inv [Hro Hwr] Hr Hid1.
  pose proof (segs_wf_log_append l id rs (needs_rotation wal r) r Hwf Hr Hid1) as Hwf'.
  unfold locked_write, needs_rotation in *. rewrite Hw in *. cbn [w_current_size] in *.
  pose proof Hwf as (Hl & Hlt & Hid & Hrs)%segs_wf_snoc.
  destruct (_ <? _); cbn [log_append] in *.
  - rewrite Hro. cbn. rewrite Hwr. cbn. rewrite lookup_insert_eq. cbn.
    do 2 eexists. split; [done|]. split; [|done]. split_and!; cbn.
    + rewrite insert_insert_eq, Hfs, (segs_dir_snoc _ (id + 1)) by done.
      by rewrite <-segment_bytes_nil, <-segment_bytes_snoc.
    + done.
    + exists (l ++ [(id, rs)]), (id + 1), [r]. split; [done|].
      f_equal. change [r] with ([] ++ [r]).
      rewrite segment_bytes_snoc, segment_bytes_nil, length_app, length_segment_header. unfold SEGMENT_HEADER_SIZE. lia.
  - rewrite Hwr. unfold segment_append. rewrite Hfs. cbn [w_segment_id w_current_size].
    rewrite (segs_dir_lookup _ id rs Hwf) by (apply elem_of_app; right; by left). cbn.
    do 2 eexists. split; [done|]. split; [|done]. split_and!; cbn.
    + rewrite <-segment_bytes_snoc. apply segs_dir_update; [done|]. apply Forall_app. auto.
    + done.
    + exists l, id, (rs ++ [r]). rewrite segment_bytes_snoc, length_app. split; [done|].
      f_equal. lia.
Qed.

Lemma log_append_wal_at fs wal l id rs rot r :
  wal_on fs wal (log_append l id rs rot r) →
  fs_current fs = Some (if rot then id + 1 else id) → wal_at fs wal (log_append l id rs rot r).
Proof. destruct rot; apply wal_on_at. Qed.

(** Recovery of a last segment with some whole records and a torn tail. *)
Lemma recover_segment_ok dir id rs tail e :
  u64_range id → Forall wf_record rs → dir !! id = Some (segment_bytes id rs ++ tail) →
  tail_end tail (zlen (segment_bytes id rs)) e →
  (e = None ∨ ∃ er, e = Some (SegmentRecord er) ∧ is_torn_write er = true) →
  recover_segment dir id = Ok (<[id := segment_bytes id rs]> dir, max_offset_of rs).
Proof.
  intros Hid Hrs Hdir Hte He. unfold recover_segment, segment_open. rewrite Hdir. ostep.
  destruct (read_segment_records (E := WalError) (λ m rec, Ok (Z.max m (assigned_offset rec)))
    id rs tail e 0 Hid Hrs Hte) as (rd & Ho & Hread).
  rewrite Ho. ostep. rewrite Hread, ofold_pure. ostep. fold (max_offset_of rs).
  destruct He as [->|(er & -> & Htorn)].
  - destruct Hte as [[-> _]|(_ & ? & _ & ?)]; [|done]. rewrite app_nil_r in Hdir.
    by rewrite insert_id.
  - rewrite Htorn. unfold truncate_segment, truncation_point, set_len. rewrite Hdir. ostep.
    cbn [r_pos]. rewrite Nat2Z.id, take_app_length, length_app.
    replace (_ - _)%nat with 0%nat by lia. cbn [replicate]. by rewrite app_nil_r.
Qed.

Lemma u64_wrap_succ z : 0 ≤ z < u64_max → u64_wrap (z + 1) = z + 1.
Proof. intros. unfold u64_wrap, u64_max in *. apply Z.mod_small. lia. Qed.

(** An admitted append that fits the active segment. *)
Lemma append_no_rotation fs wal r env g id size content :
  admit_ (disk_guard wal) (env_now env) (env_sample env) = (g, Ok ()) →
  wal_writer wal = mkSegmentWriter id size →
  fs_segments fs !! id = Some content →
  0 ≤ offset_counter wal < u64_max →
  let r' := with_offset r (offset_counter wal) in
  size + zlen (serialize r') ≤ segment_max_bytes wal →
  append fs wal r env =
    match env_write env with
    | WriteAll =>
        (mkWalFs (<[id := content ++ serialize r']> (fs_segments fs)) (fs_current fs),
         mkWal (mkSegmentWriter id (size + zlen (serialize r'))) (offset_counter wal + 1)
           (segment_max_bytes wal) g, Ok r')
    | WriteFails n k =>
        (mkWalFs (<[id := content ++ take n (serialize r')]> (fs_segments fs)) (fs_current fs),
         mkWal (mkSegmentWriter id size) (offset_counter wal + 1)
           (segment_max_bytes wal) g, Err (AppendIo k))
    end.
Proof.
  intros Hadm Hw Hlook Hoff r' Hmax. unfold append. rewrite Hadm.
  cbn [offset_counter wal_writer segment_max_bytes]. rewrite u64_wrap_succ by done. fold r'.
  unfold locked_write. cbn [offset_counter wal_writer segment_max_bytes disk_guard].
  rewrite Hw. cbn [w_current_size]. rewrite (proj2 (Z.ltb_ge _ _)) by lia.
  unfold segment_append. cbn [w_segment_id w_current_size]. rewrite Hlook. cbn [default].
  by destruct (env_write env).
Qed.

Lemma wal_at_fresh_wf l id rs :
  segs_wf (l ++ [(id, rs)]) → u64_range (id + 1) → segs_wf ((l ++ [(id, rs)]) ++ [(id + 1, [])]).
Proof.
  intros Hwf Hid1. pose proof Hwf as (Hl & Hlt & Hid & Hrs)%segs_wf_snoc.
  apply segs_wf_snoc. split_and!; [done| |done|done].
  rewrite fmap_app, Forall_app. cbn. rewrite Forall_singleton. split; [|lia].
  eapply Forall_impl; [exact Hlt|]. cbn. intros. lia.
Qed.

Lemma wal_at_fresh l id rs next max_bytes guard :
  segs_wf (l ++ [(id, rs)]) → id < u64_max →
  wal_at (mkWalFs (segs_dir ((l ++ [(id, rs)]) ++ [(id + 1, [])])) (Some (id + 1)))
    (mkWal (mkSegmentWriter (id + 1) SEGMENT_HEADER_SIZE) next max_bytes guard)
    ((l ++ [(id, rs)]) ++ [(id + 1, [])]).
Proof.
  intros Hwf Hidm. split_and!; [done| |].
  - apply wal_at_fresh_wf; [done|].
    apply segs_wf_snoc in Hwf as (_ & _ & Hid & _). unfold u64_range in *. lia.
  - exists (l ++ [(id, rs)]), (id + 1), []. split_and!; [done| |done].
    by rewrite segment_bytes_nil, length_segment_header.
Qed.

(** Opening a directory whose last segment holds [rs] and a tail that reads
    as clean or torn. *)
Lemma wal_open_cut l id rs tail e cur max_bytes guard :
  segs_wf (l ++ [(id, rs)]) → id < u64_max →
  tail_end tail (zlen (segment_bytes id rs)) e →
  (e = None ∨ ∃ er, e = Some (SegmentRecord er) ∧ is_torn_write er = true) →
  wal_open (mkWalFs (<[id := segment_bytes id rs ++ tail]> (segs_dir (l ++ [(id, rs)]))) cur)
    max_bytes guard =
  Ok (if max_bytes <=? zlen (segment_bytes id rs)
      then (mkWalFs (segs_dir ((l ++ [(id, rs)]) ++ [(id + 1, [])])) (Some (id + 1)),
            mkWal (mkSegmentWriter (id + 1) SEGMENT_HEADER_SIZE) (max_offset_of rs + 1)
              max_bytes guard)
      else (mkWalFs (segs_dir (l ++ [(id, rs)])) cur,
            mkWal (mkSegmentWriter id (zlen (segment_bytes id rs))) (max_offset_of rs + 1)
              max_bytes guard)).
Proof.
  intros Hwf Hidm Hte Htorn. pose proof Hwf as (Hl & Hlt & Hid & Hrs)%segs_wf_snoc.
  assert (segs_dir (l ++ [(id, rs)]) !! id = Some (segment_bytes id rs)) as Hlook
    by (apply segs_dir_lookup; [done|]; apply elem_of_app; right; by left).
  unfold wal_open. cbn [fs_segments fs_current].
  rewrite list_segments_insert by (by rewrite Hlook). rewrite last_segment_segs by done.
  rewrite (recover_segment_ok _ id rs tail e) by (first [done | by rewrite lookup_insert_eq]).
  ostep. rewrite insert_insert_eq, lookup_insert_eq. ostep. rewrite (insert_id _ id) by done.
  cbn [fmap option_fmap option_map]. ostep. destruct (max_bytes <=? zlen (segment_bytes id rs)); cbn.
  - rewrite (segs_dir_snoc _ (id + 1)), segment_bytes_nil; [done|].
    apply wal_at_fresh_wf; [done|]. unfold u64_range in *. lia.
  - unfold reopen_segment_for_append. rewrite Hlook. done.
Qed.
End Log.

(** Opening a directory whose last segment is shorter than a header. *)
Lemma wal_open_short_header `{Crc32} l id rs data cur max_bytes guard :
  segs_wf (l ++ [(id, rs)]) → (length data < 13)%nat →
  wal_open (mkWalFs (<[id := data]> (segs_dir (l ++ [(id, rs)]))) cur) max_bytes guard =
    Err (WalSegmentError (SegmentIo UnexpectedEof)).
Proof.
  intros Hwf Hlen. unfold wal_open. cbn [fs_segments].
  assert (segs_dir (l ++ [(id, rs)]) !! id = Some (segment_bytes id rs)) as Hlook
    by (apply segs_dir_lookup; [done|]; apply elem_of_app; right; by left).
  rewrite list_segments_insert by (by rewrite Hlook). rewrite last_segment_segs by done.
  unfold recover_segment, segment_open. rewrite lookup_insert_eq. cbn.
  unfold open_data. by rewrite (proj2 (Z.ltb_lt _ _)) by (unfold SEGMENT_HEADER_SIZE; lia).
Qed.

(** Opening a directory whose last segment ends in four zero bytes or more. *)
Lemma wal_open_zero_tail `{Crc32} l id rs n cur max_bytes guard :
  segs_wf (l ++ [(id, rs)]) → (4 ≤ n)%nat →
  wal_open (mkWalFs (<[id := segment_bytes id rs ++ replicate n (byte.of_Z 0)]>
                       (segs_dir (l ++ [(id, rs)]))) cur) max_bytes guard = Panic.
Proof.
  intros Hwf Hn. pose proof Hwf as (_ & _ & Hid & Hrs)%segs_wf_snoc. unfold wal_open. cbn [fs_segments].
  assert (segs_dir (l ++ [(id, rs)]) !! id = Some (segment_bytes id rs)) as Hlook
    by (apply segs_dir_lookup; [done|]; apply elem_of_app; right; by left).
  rewrite list_segments_insert by (by rewrite Hlook). rewrite last_segment_segs by done.
  unfold recover_segment, segment_open. rewrite lookup_insert_eq. ostep.
  destruct (read_segment_prefix (E := WalError) (λ m rec, Ok (Z.max m (assigned_offset rec)))
    id rs (replicate n (byte.of_Z 0)) 0 Hid Hrs) as (fuel & rd & Hf & Ho & Hr).
  rewrite Ho. ostep. rewrite Hr, ofold_pure. ostep. destruct fuel as [|fuel]; [lia|].
  cbn [read_loop]. by rewrite next_record_zeros.
Qed.

(** Offsets ascend along a list of records. *)
Definition offsets_ascend (rs : list WalRecord) : Prop :=
  StronglySorted (λ a b, assigned_offset a < assigned_offset b) rs.

Lemma ascend_below_last l id rs :
  rs ≠ [] → offsets_ascend (segs_records (l ++ [(id, rs)])) →
  Forall (λ r, assigned_offset r < max_offset_of rs + 1) (segs_records (l ++ [(id, rs)])).
Proof.
  unfold segs_records, offsets_ascend. rewrite fmap_app, concat_app. cbn. rewrite app_nil_r.
  intros Hne (Hlt & _ & _)%StronglySorted_app. pose proof (max_offset_of_lt rs) as Hrs.
  apply Forall_app. split; [|done]. destruct rs as [|r rs]; [done|].
  apply Forall_cons in Hrs as [Hr _]. apply Forall_forall. intros x Hx.
  specialize (Hlt x r Hx ltac:(by left)). cbn in Hlt. lia.
Qed.

(** A small record to run the model on. *)
Definition sample_record (offset : Z) (payload_len : nat) : WalRecord :=
  mkWalRecord Trace (replicate 16 (byte.of_Z 0)) 1700000000000000000 offset
    (replicate payload_len (byte.of_Z 170)).

Definition sample_env : AppendEnv := mkAppendEnv 0 (Some 1000) RotateOk WriteAll.

(** A handle open on the last segment of a log, with the guard disabled. *)
Definition sample_wal `{Crc32} (id : Z) (rs : list WalRecord) (next max_bytes : Z) : Wal :=
  mkWal (mkSegmentWriter id (zlen (segment_bytes id rs))) next max_bytes (guard_new 0 1).

Lemma sample_wal_at `{Crc32} l id rs next max_bytes :
  segs_wf (l ++ [(id, rs)]) →
  wal_at (mkWalFs (segs_dir (l ++ [(id, rs)])) (Some id)) (sample_wal id rs next max_bytes)
    (l ++ [(id, rs)]).
Proof. intros Hwf. split_and!; [done|done|]. by exists l, id, rs. Qed.

(** ** Properties *)

Section Properties.
Context `{Crc32}.

(** C9: An admitted append whose file operations succeed adds exactly its record,
    carrying the next offset, at the end of the log: in the active segment
    when it fits, else as the first record of a new one, which becomes the
    target of the [current.seg] symlink; the segments before are untouched. *)
Theorem append_extends_log fs wal l id rs r env g :
  wal_at fs wal (l ++ [(id, rs)]) → env_ok env →
  admit_ (disk_guard wal) (env_now env) (env_sample env) = (g, Ok ()) →
  wf_record r → 0 ≤ offset_counter wal < u64_max → 0 ≤ id < u64_max →
  let r' := with_offset r (offset_counter wal) in
  ∃ fs' wal',
    append fs wal r env = (fs', wal', Ok r') ∧
    wal_at fs' wal' (log_append l id rs (needs_rotation wal r') r') ∧
    segs_records (log_append l id rs (needs_rotation wal r') r') =
      segs_records (l ++ [(id, rs)]) ++ [r'] ∧
    offset_counter wal' = offset_counter wal + 1.
Proof.
  intros Hat Henv Hadm Hr Hoff Hid r'.
  pose proof (wal_at_inv _ _ _ _ _ Hat) as (Hfs & Hwf & Hw & Hcur). apply wal_at_on in Hat.
  unfold append. rewrite Hadm. cbn [offset_counter wal_writer segment_max_bytes].
  rewrite u64_wrap_succ by done.
  fold r'.
  set (wal1 := mkWal _ (offset_counter wal + 1) _ g).
  destruct (locked_write_ok fs wal1 l id rs r' env) as (fs' & w & Hlw & Hon & Hcur'); try done.
  { apply wf_with_offset; [done|]. unfold u64_range. lia. }
  { unfold u64_range. lia. }
  rewrite Hlw. cbn. do 2 eexists. split_and!; [done| | |done].
  - apply log_append_wal_at; [exact Hon|]. rewrite Hcur', Hcur.
    change (needs_rotation wal1 r') with (needs_rotation wal r'). by destruct (needs_rotation wal r').
  - apply segs_records_log_append.
Qed.

(** C7: Opening a log whose last segment is cut after [m] bytes. Cut inside its
    13-byte header, the log does not open. Cut anywhere behind it, [wal_open]
    recovers every record that is whole on disk and no torn one, leaves the
    sealed segments as they are, and continues one above the highest offset of
    the cut segment: above every offset of the log when offsets ascend in it
    and the segment kept a record, and from 1 again when it kept none. *)
Theorem open_recovers_crash l id rs (m : nat) max_bytes guard :
  segs_wf (l ++ [(id, rs)]) → id < u64_max → (m ≤ length (segment_bytes id rs))%nat →
  let opened := wal_open (mkWalFs (<[id := take m (segment_bytes id rs)]> (segs_dir (l ++ [(id, rs)])))
                            (Some id)) max_bytes guard in
  ((m < 13)%nat → opened = Err (WalSegmentError (SegmentIo UnexpectedEof))) ∧
  ((13 ≤ m)%nat → ∃ fs' wal' k,
    opened = Ok (fs', wal') ∧
    zlen (segment_bytes id (take k rs)) ≤ Z.of_nat m ∧
    ((k < length rs)%nat → Z.of_nat m < zlen (segment_bytes id (take (S k) rs))) ∧
    wal_at fs' wal' (if max_bytes <=? zlen (segment_bytes id (take k rs))
                     then (l ++ [(id, take k rs)]) ++ [(id + 1, [])]
                     else l ++ [(id, take k rs)]) ∧
    offset_counter wal' = max_offset_of (take k rs) + 1 ∧
    Forall (λ r, assigned_offset r < offset_counter wal') (take k rs) ∧
    (take k rs = [] → offset_counter wal' = 1) ∧
    (take k rs ≠ [] → offsets_ascend (segs_records (l ++ [(id, take k rs)])) →
     Forall (λ r, assigned_offset r < offset_counter wal') (segs_records (l ++ [(id, take k rs)])))).
Proof.
  intros Hwf Hidm Hmlen opened. pose proof Hwf as (Hl & Hlt & Hid & Hrs)%segs_wf_snoc.
  split; intros Hm.
  { apply wal_open_short_header; [done|]. rewrite length_take. lia. }
  destruct (segment_cut id rs m Hrs (conj Hm Hmlen)) as (k & tail & e & Hk & Hcut & Hte & Htorn & Hle & Hgt).
  assert (segs_wf (l ++ [(id, take k rs)])) as Hwfk
    by (apply segs_wf_snoc; split_and!; try done; by apply Forall_take).
  subst opened.
  replace (<[id := take m (segment_bytes id rs)]> (segs_dir (l ++ [(id, rs)]))) with
    (<[id := segment_bytes id (take k rs) ++ tail]> (segs_dir (l ++ [(id, take k rs)])))
    by (rewrite !segs_dir_snoc, !insert_insert_eq by done; by rewrite Hcut).
  rewrite (wal_open_cut l id (take k rs) tail e) by done.
  pose proof (max_offset_of_lt (take k rs)) as Hoffs.
  assert ((take k rs = [] → max_offset_of (take k rs) + 1 = 1) ∧
    (take k rs ≠ [] → offsets_ascend (segs_records (l ++ [(id, take k rs)])) →
     Forall (λ r, assigned_offset r < max_offset_of (take k rs) + 1)
       (segs_records (l ++ [(id, take k rs)])))) as [Hempty Hasc].
  { split; [by intros ->|]. apply ascend_below_last. }
  destruct (max_bytes <=? zlen (segment_bytes id (take k rs))) eqn:Hb;
    do 2 eexists; exists k; rewrite Hb;
    (split; [done|]; split; [done|]; split; [done|]; split; [|by split_and!]).
  - by apply wal_at_fresh.
  - split_and!; [done|done|]. by exists l, id, (take k rs).
Qed.

(** A failed append can destroy a later, acknowledged one. When a write stops
    part-way (a full disk), [append] reports a retryable error but the bytes
    stay in the file and the next append lands behind them; if that record
    does not fill the first one up, the reader stops at the fragment, and
    reopening the log truncates the acknowledged record away. *)
Theorem failed_append_loses_next fs wal l id rs r1 r2 n g1 g2 env1 env2 guard :
  wal_at fs wal (l ++ [(id, rs)]) → id < u64_max →
  admit_ (disk_guard wal) (env_now env1) (env_sample env1) = (g1, Ok ()) →
  admit_ g1 (env_now env2) (env_sample env2) = (g2, Ok ()) →
  env_write env1 = WriteFails n StorageFull → env_ok env2 →
  wf_record r1 → wf_record r2 → 0 ≤ offset_counter wal → offset_counter wal + 1 < u64_max →
  let r1' := with_offset r1 (offset_counter wal) in
  let r2' := with_offset r2 (offset_counter wal + 1) in
  (4 ≤ n)%nat → (n + length (serialize r2') < length (serialize r1'))%nat →
  zlen (segment_bytes id rs) + zlen (serialize r1') ≤ segment_max_bytes wal →
  ∃ fs1 wal1 fs2 wal2 fs3 wal3,
    append fs wal r1 env1 = (fs1, wal1, Err (AppendIo StorageFull)) ∧
    is_retryable (AppendIo StorageFull) = true ∧
    append fs1 wal1 r2 env2 = (fs2, wal2, Ok r2') ∧
    wal_open fs2 (segment_max_bytes wal) guard = Ok (fs3, wal3) ∧
    fs_segments fs3 = fs_segments fs.
Proof.
  intros (Hfs & Hwf & init & id' & rs' & Heq & Hw & Hcur) Hidm Hadm1 Hadm2 Hw1 [Hro Hw2]
    Hr1 Hr2 Hoff Hoff2 r1' r2' Hn Hlt Hmax.
  apply app_inj_tail in Heq as [<- [= <- <-]].
  assert (wf_record r1' ∧ wf_record r2') as [Hr1' Hr2'].
  { split; (apply wf_with_offset; [done|]); unfold u64_range; lia. }
  pose proof (serialize_nonempty r1' Hr1').
  assert (fs_segments fs !! id = Some (segment_bytes id rs)) as Hlook0
    by (rewrite Hfs; apply segs_dir_lookup; [done|]; apply elem_of_app; right; by left).
  do 2 eexists.
  rewrite (append_no_rotation fs wal r1 env1 g1 id _ _ Hadm1 Hw Hlook0) by (fold r1'; lia).
  rewrite Hw1. do 2 eexists.
  assert (tail_end (take n (serialize r1') ++ serialize r2') (zlen (segment_bytes id rs))
    (Some (SegmentRecord (TornWriteTruncated (zlen (segment_bytes id rs)) (zlen (serialize r1'))
      (Z.of_nat (n + length (serialize r2'))))))) as Hte.
  { right. split.
    - intros Hnil. apply (f_equal length) in Hnil. rewrite length_app, length_take in Hnil.
      cbn in Hnil. lia.
    - eexists. split; [|done]. by apply deserialize_overlap. }
  do 2 eexists. split; [done|]. split; [done|]. split.
  { rewrite (append_no_rotation _ _ r2 env2 g2 id (zlen (segment_bytes id rs))
      (segment_bytes id rs ++ take n (serialize r1'))); cbn; fold r1' r2'; try done; try lia.
    - by rewrite Hw2.
    - apply lookup_insert_eq. }
  cbn [fs_segments fs_current]. rewrite insert_insert_eq, <-app_assoc, Hfs.
  rewrite (wal_open_cut l id rs _ _ (fs_current fs) _ guard Hwf Hidm Hte) by eauto.
  by rewrite (proj2 (Z.leb_gt _ _)) by lia.
Qed.

(** Offsets restart. When the active segment is full, [wal_open] opens a
    fresh one; opening the log again before anything was appended finds that
    segment empty and hands out offset 1 again, whatever was used before. *)
Theorem reopen_restarts_offsets fs wal l id rs max_bytes guard :
  wal_at fs wal (l ++ [(id, rs)]) → id + 1 < u64_max →
  SEGMENT_HEADER_SIZE < max_bytes ≤ zlen (segment_bytes id rs) →
  ∃ fs1 wal1 fs2 wal2,
    wal_open fs max_bytes guard = Ok (fs1, wal1) ∧ offset_counter wal1 = max_offset_of rs + 1 ∧
    wal_open fs1 max_bytes guard = Ok (fs2, wal2) ∧ offset_counter wal2 = 1 ∧
    segs_dir ((l ++ [(id, rs)]) ++ [(id + 1, [])]) = fs_segments fs2.
Proof.
  intros (Hfs & Hwf & _) Hidm Hmax. destruct fs as [dir cur]. cbn in Hfs. subst dir.
  assert (u64_range (id + 1)) as Hid1.
  { apply segs_wf_snoc in Hwf as (_ & _ & Hid & _). unfold u64_range in *. lia. }
  rewrite <-(insert_id (segs_dir (l ++ [(id, rs)])) id (segment_bytes id rs ++ [])) by
    (rewrite app_nil_r; apply segs_dir_lookup; [done|]; apply elem_of_app; right; by left).
  rewrite (wal_open_cut l id rs [] None cur) by (first [done | lia | apply tail_end_nil | by left]).
  rewrite (proj2 (Z.leb_le _ _)) by lia. do 4 eexists. split; [done|]. split; [done|].
  pose proof (wal_at_fresh_wf l id rs Hwf Hid1) as Hwf'.
  rewrite <-(insert_id (segs_dir ((l ++ [(id, rs)]) ++ [(id + 1, [])])) (id + 1)
               (segment_bytes (id + 1) [] ++ [])) by
    (rewrite app_nil_r; apply segs_dir_lookup; [done|]; apply elem_of_app; right; by left).
  rewrite (wal_open_cut _ (id + 1) [] [] None) by (first [done | apply tail_end_nil | by left]).
  rewrite segment_bytes_nil, length_segment_header.
  rewrite (proj2 (Z.leb_gt _ _)) by (unfold SEGMENT_HEADER_SIZE in *; lia).
  split; [done|]. split; [done|]. rewrite app_nil_r, <-segment_bytes_nil. cbn [fs_segments].
  apply insert_id, segs_dir_lookup; [done|]. apply elem_of_app. right. by left.
Qed.

(** A crash between creating a segment and repointing the [current.seg]
    symlink survives the restart: the log reopens on the new segment while
    the symlink, through which the group commit finds the file to fsync,
    still names the old one. *)
Theorem reopen_keeps_stale_symlink fs wal l id rs max_bytes guard :
  wal_at fs wal (l ++ [(id, rs)]) → id + 1 < u64_max → SEGMENT_HEADER_SIZE < max_bytes →
  let crashed := mkWalFs (segment_create (fs_segments fs) (id + 1)).1 (fs_current fs) in
  ∃ fs' wal', wal_open crashed max_bytes guard = Ok (fs', wal') ∧
    w_segment_id (wal_writer wal') = id + 1 ∧ fs_current fs' = Some id.
Proof.
  intros (Hfs & Hwf & init & id' & rs' & Heq & Hw & Hcur) Hidm Hmax crashed.
  apply app_inj_tail in Heq as [<- [= <- <-]].
  assert (u64_range (id + 1)) as Hid1.
  { apply segs_wf_snoc in Hwf as (_ & _ & Hid & _). unfold u64_range in *. lia. }
  pose proof (wal_at_fresh_wf l id rs Hwf Hid1) as Hwf'.
  subst crashed. cbn [segment_create fst]. rewrite Hfs, <-segment_bytes_nil.
  rewrite <-(insert_insert_eq _ (id + 1) _ (segment_bytes (id + 1) [])).
  rewrite <-(segs_dir_snoc _ (id + 1) [] Hwf'), <-(app_nil_r (segment_bytes (id + 1) [])).
  rewrite (wal_open_cut _ (id + 1) [] [] None) by (first [done | apply tail_end_nil | by left]).
  rewrite segment_bytes_nil, length_segment_header.
  rewrite (proj2 (Z.leb_gt _ _)) by (unfold SEGMENT_HEADER_SIZE in *; lia).
  do 2 eexists. split; [done|]. split; [done|]. exact Hcur.
Qed.
End Properties.

(** ** Witnesses *)

Section Witnesses.
Local Existing Instance crc32_concrete.

Definition log1 : segs := [(0, [sample_record 0 3]); (1, [sample_record 1 3; sample_record 2 5])].
Definition log1_init : segs := [(0, [sample_record 0 3])].
Definition log1_last : list WalRecord := [sample_record 1 3; sample_record 2 5].

Lemma log1_wf : segs_wf (log1_init ++ [(1, log1_last)]).
Proof. apply (bool_decide_eq_true_1 _). vm_compute. reflexivity. Defined.

Lemma sample_record_wf (n : nat) off :
  u64_range off → (n < 1000)%nat → wf_record (sample_record off n).
Proof.
  intros Hoff Hn. unfold wf_record, sample_record. cbn. rewrite length_replicate.
  unfold i64_range, i64_min, i64_max, u32_max. split_and!; try lia; apply Hoff.
Defined.

Lemma append_extends_log_witness :
  ∃ fs' wal',
    append (mkWalFs (segs_dir (log1_init ++ [(1, log1_last)])) (Some 1))
      (sample_wal 1 log1_last 3 100) (sample_record 0 4) sample_env =
      (fs', wal', Ok (sample_record 3 4)) ∧
    wal_at fs' wal' ((log1_init ++ [(1, log1_last)]) ++ [(2, [sample_record 3 4])]).
Proof.
  destruct (append_extends_log (mkWalFs (segs_dir (log1_init ++ [(1, log1_last)])) (Some 1))
    (sample_wal 1 log1_last 3 100) log1_init 1 log1_last (sample_record 0 4) sample_env
    (guard_new 0 1)) as (fs' & wal' & Happ & Hat & _).
  - apply sample_wal_at, log1_wf.
  - split; reflexivity.
  - reflexivity.
  - apply sample_record_wf; [done|lia].
  - cbn. unfold u64_max. lia.
  - unfold u64_max. lia.
  - exists fs', wal'. split; [exact Happ|exact Hat].
Defined.

Lemma open_recovers_crash_witness :
  ∃ fs' wal' k,
    wal_open (mkWalFs (<[1 := take 70 (segment_bytes 1 log1_last)]>
                         (segs_dir (log1_init ++ [(1, log1_last)]))) (Some 1)) 1000 (guard_new 0 1)
      = Ok (fs', wal') ∧ zlen (segment_bytes 1 (take k log1_last)) ≤ 70.
Proof.
  destruct (proj2 (open_recovers_crash log1_init 1 log1_last 70 1000 (guard_new 0 1)
    log1_wf ltac:(unfold u64_max; lia) ltac:(vm_compute; repeat constructor)))
    as (fs' & wal' & k & Ho & Hk & _).
  - lia.
  - exists fs', wal', k. split; [exact Ho|exact Hk].
Defined.

Lemma failed_append_loses_next_witness :
  ∃ fs1 wal1 fs2 wal2 fs3 wal3,
    append (mkWalFs (segs_dir (log1_init ++ [(1, log1_last)])) (Some 1))
      (sample_wal 1 log1_last 3 1000) (sample_record 0 100)
      (mkAppendEnv 0 None RotateOk (WriteFails 10 StorageFull)) =
      (fs1, wal1, Err (AppendIo StorageFull)) ∧
    append fs1 wal1 (sample_record 0 3) sample_env = (fs2, wal2, Ok (sample_record 4 3)) ∧
    wal_open fs2 1000 (guard_new 0 1) = Ok (fs3, wal3) ∧
    fs_segments fs3 = segs_dir (log1_init ++ [(1, log1_last)]).
Proof.
  destruct (failed_append_loses_next
    (mkWalFs (segs_dir (log1_init ++ [(1, log1_last)])) (Some 1)) (sample_wal 1 log1_last 3 1000)
    log1_init 1 log1_last (sample_record 0 100) (sample_record 0 3) 10 (guard_new 0 1)
    (guard_new 0 1) (mkAppendEnv 0 None RotateOk (WriteFails 10 StorageFull)) sample_env
    (guard_new 0 1)) as (fs1 & wal1 & fs2 & wal2 & fs3 & wal3 & H1 & _ & H2 & H3 & H4).
  - apply sample_wal_at, log1_wf.
  - unfold u64_max. lia.
  - reflexivity.
  - reflexivity.
  - reflexivity.
  - split; reflexivity.
  - apply sample_record_wf; [done|lia].
  - apply sample_record_wf; [done|lia].
  - cbn. lia.
  - cbn. unfold u64_max. lia.
  - lia.
  - vm_compute. repeat constructor.
  - vm_compute. discriminate.
  - exists fs1, wal1, fs2, wal2, fs3, wal3. split; [exact H1|]. split; [exact H2|].
    split; [exact H3|exact H4].
Defined.

Lemma reopen_restarts_offsets_witness :
  ∃ fs1 wal1 fs2 wal2,
    wal_open (mkWalFs (segs_dir (log1_init ++ [(1, log1_last)])) (Some 1)) 50 (guard_new 0 1)
      = Ok (fs1, wal1) ∧ offset_counter wal1 = 3 ∧
    wal_open fs1 50 (guard_new 0 1) = Ok (fs2, wal2) ∧ offset_counter wal2 = 1.
Proof.
  destruct (reopen_restarts_offsets (mkWalFs (segs_dir (log1_init ++ [(1, log1_last)])) (Some 1))
    (sample_wal 1 log1_last 3 50) log1_init 1 log1_last 50 (guard_new 0 1))
    as (fs1 & wal1 & fs2 & wal2 & H1 & H2 & H3 & H4 & _).
  - apply sample_wal_at, log1_wf.
  - unfold u64_max. lia.
  - vm_compute. split; [reflexivity|discriminate].
  - exists fs1, wal1, fs2, wal2. split; [exact H1|]. split; [exact H2|].
    split; [exact H3|exact H4].
Defined.

Lemma reopen_keeps_stale_symlink_witness :
  ∃ fs' wal',
    wal_open (mkWalFs (segment_create (segs_dir (log1_init ++ [(1, log1_last)])) 2).1 (Some 1))
      1000 (guard_new 0 1) = Ok (fs', wal') ∧
    w_segment_id (wal_writer wal') = 2 ∧ fs_current fs' = Some 1.
Proof.
  apply (reopen_keeps_stale_symlink (mkWalFs (segs_dir (log1_init ++ [(1, log1_last)])) (Some 1))
    (sample_wal 1 log1_last 3 1000) log1_init 1 log1_last 1000 (guard_new 0 1)).
  - apply sample_wal_at, log1_wf.
  - unfold u64_max. lia.
  - vm_compute. reflexivity.
Defined.
End Witnesses.
