(* ===== verification/WalFlush.v ===== *)
(** Draining the WAL: [zradar-wal/src/checkpoint.rs], [flusher.rs],
    [replay.rs], [janitor.rs].

    The flusher and the replayer hand the records past the checkpoint to a sink
    and then save the checkpoint; the two are separate calls, and a pass that
    ends between them has delivered records the checkpoint knows nothing of.
    The janitor deletes segments the checkpoint has passed. *)

From stdpp Require Import base gmap sorting list.
From coqutil Require Import Byte.
From S2P Require Import Prelude WalRecord WalSegment WalGuard WalLog.

Record Checkpoint := mkCheckpoint {
  last_flushed_segment_id : Z;
  last_flushed_offset : Z;
  wal_format_version : Z;
}.

#[export] Instance Checkpoint_eq_dec : EqDecision Checkpoint.
Proof. solve_decision. Defined.

(** The [FlushSink] trait: [flush_records] reports success or failure. A sink
    that reports success took the batch as a whole; one that reports failure
    may have taken a part of it. *)
Class FlushSink (Σ : Type) := {
  flush_records : Σ → list WalRecord → Σ * bool;
  delivered : Σ → list WalRecord;
  flush_records_ok s rs s' :
    flush_records s rs = (s', true) → delivered s' = delivered s ++ rs;
  flush_records_failed s rs s' :
    flush_records s rs = (s', false) →
    ∃ part, part `sublist_of` rs ∧ delivered s' = delivered s ++ part;
}.

(** [SaveFailed]: [CheckpointStore::save] failed, or the process ended before
    its rename took effect; the stored checkpoint is the one before. *)
Inductive FlushError :=
| SinkFailed
| SaveFailed
| CorruptHeader (segment_id : Z)
| ReplaySegmentError (e : SegmentError).

(** A sink in a process that may die under it: [Until n k] lives to hand over
    [n] more batches, and dies in the call after them, when the sink has seen
    the first [k] records of the batch. *)
Inductive Life := Forever | Until (batches records : nat) | Dead.

Record Mortal (Σ : Type) := mkMortal { m_sink : Σ; m_life : Life }.
#[global] Arguments mkMortal {Σ}.
#[global] Arguments m_sink {Σ}.
#[global] Arguments m_life {Σ}.

Definition mortal_flush `{FlushSink Σ} (s : Mortal Σ) (rs : list WalRecord) : Mortal Σ * bool :=
  match m_life s with
  | Forever => let '(k, ok) := flush_records (m_sink s) rs in (mkMortal k Forever, ok)
  | Until (S n) k => let '(s', ok) := flush_records (m_sink s) rs in (mkMortal s' (Until n k), ok)
  | Until O k => (mkMortal (flush_records (m_sink s) (take k rs)).1 Dead, false)
  | Dead => (s, false)
  end.

#[export] Program Instance mortal_sink `{FlushSink Σ} : FlushSink (Mortal Σ) := {|
  flush_records := mortal_flush;
  delivered s := delivered (m_sink s);
|}.
Next Obligation.
  intros Σ HS [k life] rs s'. unfold mortal_flush. cbn.
  destruct life as [|[|n] p|]; [| |by destruct (flush_records k rs) eqn:?; intros [= <- ->]; cbn; eapply flush_records_ok|done].
  - destruct (flush_records k rs) eqn:?; intros [= <- ->]; cbn. by eapply flush_records_ok.
  - done.
Defined.
Next Obligation.
  intros Σ HS [k life] rs s'. unfold mortal_flush. cbn.
  destruct life as [|[|n] p|].
  - destruct (flush_records k rs) eqn:?; intros [= <- ->]; cbn. by eapply flush_records_failed.
  - destruct (flush_records k (take p rs)) as [k' []] eqn:Hf; intros [= <-]; cbn.
    + exists (take p rs). split; [apply sublist_take|by apply flush_records_ok].
    + destruct (flush_records_failed _ _ _ Hf) as (part & Hp & Hd). exists part. split; [|done].
      etrans; [exact Hp|apply sublist_take].
  - destruct (flush_records k rs) eqn:?; intros [= <- ->]; cbn. by eapply flush_records_failed.
  - intros [= <-]. exists []. split; [apply sublist_nil_l|]. by rewrite app_nil_r.
Defined.

(** [Option::map_or(off, |m| m.max(off))]. *)
Definition bump_max (m : option Z) (off : Z) : option Z :=
  Some (match m with None => off | Some m => Z.max m off end).

(** Where a pass starts, from the checkpoint it loaded. *)
Definition start_segment_id (ck : option Checkpoint) : Z :=
  match ck with None => 0 | Some cp => last_flushed_segment_id cp end.

(** The [continue] condition of both loops: flushed before, in the segment the
    checkpoint names. *)
Definition already_flushed (ck : option Checkpoint) (seg_id : Z) (rec : WalRecord) : bool :=
  match ck with
  | None => false
  | Some cp =>
      (assigned_offset rec <=? last_flushed_offset cp) && (seg_id =? last_flushed_segment_id cp)
  end.

Section Flusher.
Context `{Crc32} {Σ : Type} `{FlushSink Σ}.

(** Body of the reading loop of the flusher. *)
Definition collect_record (ck : option Checkpoint) (seg_id : Z)
    (acc : list WalRecord * option Z) (rec : WalRecord) :
    outcome unit (list WalRecord * option Z) :=
  if already_flushed ck seg_id rec then Ok acc
  else Ok (acc.1 ++ [rec], bump_max acc.2 (assigned_offset rec)).

(** The loop over the segments of one flush pass. [ck0] is the checkpoint the
    pass loaded, [save id] whether the checkpoint saved after the batch of
    segment [id] reaches the disk; the store and the sink are returned as the
    pass leaves them. *)
Fixpoint flush_segments (save : Z → bool) (dir : WalDir) (active_seg_id : Z) (ck0 : option Checkpoint)
    (segments : list Z) (ck : option Checkpoint) (sink : Σ) :
    option Checkpoint * Σ * outcome FlushError unit :=
  match segments with
  | [] => (ck, sink, Ok ())
  | seg_id :: rest =>
      if seg_id <? start_segment_id ck0 then
        flush_segments save dir active_seg_id ck0 rest ck sink
      else
        match segment_open dir seg_id with
        | Err _ => (ck, sink, Ok ())
        | Panic => (ck, sink, Panic)
        | Ok reader =>
            match read_segment (collect_record ck0 seg_id) reader ([], None) with
            | Ok (batch, max_offset_in_batch, _, _) =>
                match max_offset_in_batch with
                | Some max_offset =>
                    let '(sink, flushed) := flush_records sink batch in
                    if flushed then
                      if save seg_id then
                        let ck := Some (mkCheckpoint seg_id max_offset 1) in
                        if seg_id =? active_seg_id then (ck, sink, Ok ())
                        else flush_segments save dir active_seg_id ck0 rest ck sink
                      else (ck, sink, Err SaveFailed)
                    else (ck, sink, Err SinkFailed)
                | None =>
                    if seg_id =? active_seg_id then (ck, sink, Ok ())
                    else flush_segments save dir active_seg_id ck0 rest ck sink
                end
            | _ => (ck, sink, Panic)
            end
        end
  end.

(** [flush_once]; the last component is the new lag, when the pass gets there. *)
Definition flush_once (save : Z → bool) (dir : WalDir) (wal : Wal) (ck : option Checkpoint) (sink : Σ) :
    option Checkpoint * Σ * outcome FlushError (option Z) :=
  match list_segments dir with
  | [] => (ck, sink, Ok None)
  | segments =>
      let '(ck, sink, res) :=
        flush_segments save dir (w_segment_id (wal_writer wal)) ck segments ck sink in
      (ck, sink,
       _ ← res;
       let flushed := match ck with None => 0 | Some c => last_flushed_offset c + 1 end in
       mret (Some (u64_saturating_sub (offset_counter wal) flushed)))
  end.

(** ** Replay *)

Record ReplaySt := mkReplaySt {
  rp_batch : list WalRecord;
  rp_batch_bytes : Z;
  rp_max_offset : option Z;
  rp_total : Z;
  rp_last_segment : Z;
  rp_last_offset : Z;
  rp_sink : Σ;
}.

(** Flush the current batch and note the position it reached. *)
Definition replay_flush (seg_id : Z) (st : ReplaySt) : outcome (Σ * FlushError) ReplaySt :=
  let '(sink, ok) := flush_records (rp_sink st) (rp_batch st) in
  if ok then
    let '(seg, off) :=
      match rp_max_offset st with
      | Some m => (seg_id, m)
      | None => (rp_last_segment st, rp_last_offset st)
      end in
    Ok (mkReplaySt [] 0 None (rp_total st + zlen (rp_batch st)) seg off sink)
  else Err (sink, SinkFailed).

(** Body of the reading loop of the replayer. A replay that fails leaves the
    sink, and the directory, as it got. *)
Definition replay_record (ck : option Checkpoint) (max_bytes seg_id : Z)
    (st : ReplaySt) (rec : WalRecord) : outcome (Σ * FlushError) ReplaySt :=
  if already_flushed ck seg_id rec then Ok st
  else
    let st := mkReplaySt (rp_batch st ++ [rec]) (rp_batch_bytes st + (zlen (payload rec) + 64))
                (bump_max (rp_max_offset st) (assigned_offset rec)) (rp_total st)
                (rp_last_segment st) (rp_last_offset st) (rp_sink st) in
    if max_bytes <=? rp_batch_bytes st then replay_flush seg_id st else Ok st.

Definition in_dir (dir : WalDir) (e : Σ * FlushError) : WalDir * Σ * FlushError := (dir, e.1, e.2).

Fixpoint replay_segments (dir : WalDir) (ck : option Checkpoint) (max_bytes : Z)
    (segments : list Z) (st : ReplaySt) : outcome (WalDir * Σ * FlushError) (WalDir * ReplaySt) :=
  match segments with
  | [] => Ok (dir, st)
  | seg_id :: rest =>
      if seg_id <? start_segment_id ck then replay_segments dir ck max_bytes rest st
      else
        match segment_open dir seg_id with
        | Err (InvalidMagic | UnsupportedVersion _) => Err (dir, rp_sink st, CorruptHeader seg_id)
        | Err _ => Ok (dir, st)
        | Panic => Panic
        | Ok reader =>
            let st := mkReplaySt [] 0 None (rp_total st) (rp_last_segment st)
                        (rp_last_offset st) (rp_sink st) in
            '(st, reader, stop) ←
              map_err (in_dir dir) (read_segment (replay_record ck max_bytes seg_id) reader st);
            dir ← match stop with
                  | Some (SegmentRecord _) =>
                      map_err (λ e, (dir, rp_sink st, ReplaySegmentError e))
                        (truncate_segment dir seg_id (truncation_point reader))
                  | _ => Ok dir
                  end;
            st ← (if bool_decide (rp_batch st = []) then Ok st
                  else map_err (in_dir dir) (replay_flush seg_id st));
            replay_segments dir ck max_bytes rest st
        end
  end.

(** [WalReplayer::replay]: the directory, the checkpoint and the sink it
    leaves, and the number of records replayed. [save] is whether the checkpoint
    it saves at the end reaches the disk; a failed replay saves none. *)
Definition replay (save : bool) (dir : WalDir) (ck : option Checkpoint) (max_bytes : Z) (sink : Σ) :
    outcome (WalDir * Σ * FlushError) (WalDir * option Checkpoint * Σ * Z) :=
  match list_segments dir with
  | [] => Ok (dir, ck, sink, 0)
  | segments =>
      let last_offset := match ck with None => 0 | Some c => last_flushed_offset c end in
      '(dir, st) ← replay_segments dir ck max_bytes segments
                     (mkReplaySt [] 0 None 0 (start_segment_id ck) last_offset sink);
      if 0 <? rp_total st then
        if save then
          mret (dir, Some (mkCheckpoint (rp_last_segment st) (rp_last_offset st) 1), rp_sink st, rp_total st)
        else Err (dir, rp_sink st, SaveFailed)
      else mret (dir, ck, rp_sink st, rp_total st)
  end.
End Flusher.
#[global] Arguments mkReplaySt {Σ}.

(** [WalJanitor::cleanup_once]. *)
Definition janitor_segments (dir : WalDir) (active_id : Z) (cp : Checkpoint) (segments : list Z) :
    WalDir :=
  foldl (λ dir seg_id,
    if active_id <=? seg_id then dir
    else if seg_id <? last_flushed_segment_id cp then delete seg_id dir
    else dir) dir segments.

Definition cleanup_once (dir : WalDir) (wal : Wal) (ck : option Checkpoint) : WalDir :=
  match ck with
  | None => dir
  | Some cp => janitor_segments dir (w_segment_id (wal_writer wal)) cp (list_segments dir)
  end.

(** ** Specification: the records a checkpoint leaves to deliver *)

Definition seg_pending (ck : option Checkpoint) (s : Z * list WalRecord) : list WalRecord :=
  if s.1 <? start_segment_id ck then []
  else filter (λ r, already_flushed ck s.1 r = false) s.2.

Definition pending (ck : option Checkpoint) (l : segs) : list WalRecord :=
  concat (map (seg_pending ck) l).

(** The checkpoint after the pending records of [l] were delivered. *)
Definition checkpoint_after (ck0 : option Checkpoint) (l : segs) (ck : option Checkpoint) :
    option Checkpoint :=
  foldl (λ c s, match seg_pending ck0 s with
                | [] => c
                | todo => Some (mkCheckpoint s.1 (max_offset_of todo) 1)
                end) ck l.

(** Segments stored in [dir]. *)
Definition stored `{Crc32} (dir : WalDir) (l : segs) : Prop :=
  Forall (λ s, u64_range s.1 ∧ Forall wf_record s.2 ∧
               dir !! s.1 = Some (segment_bytes s.1 s.2)) l.

(** ** Lemmas *)

Lemma pending_app ck l1 l2 : pending ck (l1 ++ l2) = pending ck l1 ++ pending ck l2.
Proof. unfold pending. by rewrite map_app, concat_app. Qed.

Lemma pending_single ck s : pending ck [s] = seg_pending ck s.
Proof. unfold pending. cbn. apply app_nil_r. Qed.

Lemma bump_max_foldl rs :
  Forall (λ r, 0 ≤ assigned_offset r) rs → rs ≠ [] →
  foldl (λ m r, bump_max m (assigned_offset r)) None rs = Some (max_offset_of rs).
Proof.
  destruct rs as [|r rs]; [done|]. intros [Hr _]%Forall_cons _. cbn. unfold max_offset_of. cbn.
  rewrite Z.max_r by done. generalize (assigned_offset r). clear.
  induction rs as [|r rs IH]; intros z; cbn; [done|]. apply IH.
Qed.

Lemma collect_records ck id rs acc m :
  ofold (collect_record ck id) (acc, m) rs =
    Ok (acc ++ filter (λ r, already_flushed ck id r = false) rs,
        foldl (λ m r, bump_max m (assigned_offset r)) m
          (filter (λ r, already_flushed ck id r = false) rs)).
Proof.
  revert acc m. induction rs as [|r rs IH]; intros acc m.
  - cbn. by rewrite app_nil_r.
  - cbn [ofold].
    assert (collect_record ck id (acc, m) r = if already_flushed ck id r then Ok (acc, m)
      else Ok (acc ++ [r], bump_max m (assigned_offset r))) as -> by done.
    destruct (already_flushed ck id r) eqn:Hf; ostep.
    + rewrite IH. by rewrite filter_cons_False by congruence.
    + rewrite IH. cbn [fst snd]. rewrite filter_cons_True by done. by rewrite <-app_assoc.
Qed.

Lemma wf_offset_nonneg (P : WalRecord → Prop) `{∀ r, Decision (P r)} rs :
  Forall wf_record rs → Forall (λ r, 0 ≤ assigned_offset r) (filter P rs).
Proof.
  intros Hrs. apply Forall_forall. intros r [_ Hin]%list_elem_of_filter.
  rewrite Forall_forall in Hrs. destruct (Hrs r Hin) as (_ & _ & Ho & _).
  unfold u64_range in Ho. lia.
Qed.

Section Spec.
Context `{Crc32} {Σ : Type} `{FlushSink Σ}.
Implicit Types (l : segs) (ck : option Checkpoint).

(** Reading one stored segment gives its pending records and their maximum. *)
Lemma read_stored_segment dir ck id rs :
  u64_range id → Forall wf_record rs → dir !! id = Some (segment_bytes id rs) →
  start_segment_id ck ≤ id →
  ∃ rd rd', segment_open dir id = Ok rd ∧
    read_segment (collect_record ck id) rd ([], None) =
      Ok ((seg_pending ck (id, rs),
           match seg_pending ck (id, rs) with [] => None | todo => Some (max_offset_of todo) end),
          rd', None).
Proof.
  intros Hid Hrs Hdir Hst.
  destruct (read_segment_records (collect_record ck id) id rs [] None ([], None) Hid Hrs
    (tail_end_nil _)) as (rd & Ho & Hr). rewrite app_nil_r in *.
  exists rd. eexists. split.
  - unfold segment_open. by rewrite Hdir.
  - rewrite Hr, collect_records. ostep. cbn [app]. unfold seg_pending. cbn [fst snd].
    rewrite (proj2 (Z.ltb_ge _ _)) by done. do 4 f_equal.
    assert (Forall (λ r, 0 ≤ assigned_offset r) (filter (λ r, already_flushed ck id r = false) rs))
      as Hnn by by apply wf_offset_nonneg.
    destruct (filter _ rs) as [|r todo]; [done|]. by rewrite bump_max_foldl.
Qed.

(** How a pass over [l1 ++ l2] ended, when the checkpoint passed [l1] and
    [lost] was delivered beyond it: at the end, or at the first batch the sink
    refused or whose checkpoint was not saved. *)
Definition pass_result (save : Z → bool) (ck0 : option Checkpoint) (l2 : segs)
    (lost : list WalRecord) {A} (res : outcome FlushError A) : Prop :=
  (is_ok res = true ∧ l2 = [] ∧ lost = []) ∨
  (lost `sublist_of` pending ck0 l2 ∧
   (res = Err SinkFailed ∨ (res = Err SaveFailed ∧ ∃ id, save id = false))).

(** A flush pass delivers, segment by segment, what the checkpoint leaves
    pending; it stops early only when the sink refuses a batch or a checkpoint
    is not saved, and then at most a part of that batch is delivered without
    the checkpoint knowing. *)
Lemma flush_segments_spec save dir active ck0 l :
  stored dir l → NoDup l.*1 → last l.*1 = Some active → ∀ ck sink,
  ∃ l1 l2 lost sink' res, l = l1 ++ l2 ∧
    flush_segments save dir active ck0 l.*1 ck sink = (checkpoint_after ck0 l1 ck, sink', res) ∧
    delivered sink' = delivered sink ++ pending ck0 l1 ++ lost ∧
    pass_result save ck0 l2 lost res.
Proof.
  induction l as [|[id rs] l IH]; intros Hst Hnd Hlast ck sink; [done|].
  apply Forall_cons in Hst as [(Hid & Hrs & Hdir) Hst]. cbn [fmap list_fmap fst] in *.
  apply NoDup_cons in Hnd as [Hnin Hnd].
  assert (l ≠ [] → id ≠ active ∧ last l.*1 = Some active) as Hrest.
  { intros Hne. rewrite last_cons in Hlast.
    destruct (last l.*1) as [a|] eqn:Hl; [|by apply last_None, fmap_nil_inv in Hl].
    simplify_eq. split; [|done]. intros ->. apply Hnin. by apply last_Some_elem_of. }
  assert (l = [] → id = active) as Hlast1 by (intros ->; cbn in Hlast; congruence).
  (* the rest of the pass, from any intermediate state *)
  assert (∀ ck' sink', delivered sink' = delivered sink ++ seg_pending ck0 (id, rs) →
    checkpoint_after ck0 [(id, rs)] ck = ck' → ∃ l1 l2 lost sink2 res, (id, rs) :: l = l1 ++ l2 ∧
    (if id =? active then (ck', sink', Ok ()) else flush_segments save dir active ck0 l.*1 ck' sink') =
      (checkpoint_after ck0 l1 ck, sink2, res) ∧
    delivered sink2 = delivered sink ++ pending ck0 l1 ++ lost ∧
    pass_result save ck0 l2 lost res) as Hgo.
  { intros ck' sink' Hd Hck. destruct (Z.eqb_spec id active) as [->|Hne].
    - destruct l as [|s l]; [|by destruct (Hrest ltac:(done))].
      exists [(active, rs)], [], [], sink', (Ok ()). rewrite Hck.
      split_and!; [done|done|by rewrite pending_single, app_nil_r|by left].
    - destruct l as [|s l]; [by destruct Hne; apply Hlast1|].
      destruct (IH Hst Hnd (proj2 (Hrest ltac:(done))) ck' sink')
        as (l1 & l2 & lost & sink2 & res & Hl & Hf & Hd2 & Hres).
      exists ((id, rs) :: l1), l2, lost, sink2, res. split_and!; [by rewrite Hl| | |done].
      + rewrite Hf, <-Hck. done.
      + rewrite Hd2, Hd. unfold pending. cbn. by rewrite <-!app_assoc. }
  cbn [flush_segments]. destruct (Z.ltb_spec id (start_segment_id ck0)) as [Hlt|Hge].
  - assert (seg_pending ck0 (id, rs) = []) as Hp
      by (unfold seg_pending; cbn; by rewrite (proj2 (Z.ltb_lt _ _))).
    destruct l as [|s l].
    + exists [(id, rs)], [], [], sink, (Ok ()).
      split_and!; [done|cbn; by rewrite Hp|by rewrite pending_single, Hp, !app_nil_r|by left].
    + destruct (IH Hst Hnd (proj2 (Hrest ltac:(done))) ck sink)
        as (l1 & l2 & lost & sink2 & res & Hl & Hf & Hd2 & Hres).
      exists ((id, rs) :: l1), l2, lost, sink2, res. split_and!; [by rewrite Hl| | |done].
      * rewrite Hf. cbn. by rewrite Hp.
      * rewrite Hd2. unfold pending. cbn. by rewrite Hp.
  - destruct (read_stored_segment dir ck0 id rs Hid Hrs Hdir Hge) as (rd & rd' & Ho & Hr).
    rewrite Ho, Hr. destruct (seg_pending ck0 (id, rs)) as [|r todo] eqn:Hp.
    + apply Hgo; [by rewrite app_nil_r|]. cbn. by rewrite Hp.
    + assert (∀ part, part `sublist_of` (r :: todo) → part `sublist_of` pending ck0 ((id, rs) :: l)) as Hpart.
      { intros part Hpt. unfold pending. cbn [map concat]. rewrite Hp. by apply sublist_inserts_r. }
      destruct (flush_records sink (r :: todo)) as [sink' []] eqn:Hf; [destruct (save id) eqn:Hs|].
      * apply Hgo; [by apply flush_records_ok|]. cbn. by rewrite Hp.
      * exists [], ((id, rs) :: l), (r :: todo), sink', (Err SaveFailed). cbn [pending map concat app].
        split_and!; [done|done|by apply flush_records_ok|]. right. split; [by apply Hpart|]. right. eauto.
      * destruct (flush_records_failed _ _ _ Hf) as (part & Hpt & Hd).
        exists [], ((id, rs) :: l), part, sink', (Err SinkFailed). cbn [pending map concat app].
        split_and!; [done|done|done|]. right. split; [by apply Hpart|by left].
Qed.
End Spec.

(** Offsets increase inside a segment. *)
Definition ordered (rs : list WalRecord) : Prop :=
  StronglySorted (λ a b, assigned_offset a < assigned_offset b) rs.

Lemma ordered_filter (P : WalRecord → Prop) `{∀ r, Decision (P r)} rs :
  ordered rs → ordered (filter P rs).
Proof.
  unfold ordered. induction 1 as [|r rs Hs IH Hr]; [constructor|].
  rewrite filter_cons. case_decide; [|done]. constructor; [done|].
  apply Forall_forall. intros x [_ Hx]%list_elem_of_filter. rewrite Forall_forall in Hr. by apply Hr.
Qed.

Lemma ordered_filter_snoc (P : WalRecord → Prop) `{∀ r, Decision (P r)} rs r :
  ordered (rs ++ [r]) → ordered (filter P rs ++ [r]).
Proof.
  unfold ordered. rewrite !StronglySorted_app. intros (Hlt & Hrs & Hr).
  split_and!; [|by apply ordered_filter|done].
  intros x y [_ Hx]%list_elem_of_filter Hy. by apply Hlt.
Qed.

Lemma ordered_app_l rs1 rs2 : ordered (rs1 ++ rs2) → ordered rs1.
Proof. apply StronglySorted_app_1_l. Qed.
Lemma ordered_app_r rs1 rs2 : ordered (rs1 ++ rs2) → ordered rs2.
Proof. apply StronglySorted_app_1_r. Qed.

Lemma ordered_last rs r :
  ordered (rs ++ [r]) → Forall (λ x, assigned_offset x < assigned_offset r) rs.
Proof.
  intros Hs. apply Forall_forall. intros x Hx.
  eapply (StronglySorted_app_1_elem_of _ _ _ x r Hs Hx). by left.
Qed.

Lemma max_offset_of_snoc rs r : max_offset_of (rs ++ [r]) = Z.max (max_offset_of rs) (assigned_offset r).
Proof. unfold max_offset_of. by rewrite foldl_app. Qed.

(** In an ordered segment the maximum is the last offset. *)
Lemma max_offset_of_ordered rs r :
  ordered (rs ++ [r]) → 0 ≤ assigned_offset r → max_offset_of (rs ++ [r]) = assigned_offset r.
Proof.
  intros Ho Hr. rewrite max_offset_of_snoc. apply ordered_last in Ho.
  assert (max_offset_of rs ≤ assigned_offset r); [|lia].
  unfold max_offset_of. generalize 0 Hr. clear Hr.
  induction Ho as [|x rs Hx _ IH]; intros z Hz; cbn; [done|]. apply IH. lia.
Qed.

Lemma bump_max_ordered rs r :
  ordered (rs ++ [r]) →
  foldl (λ m r, bump_max m (assigned_offset r)) None (rs ++ [r]) = Some (assigned_offset r).
Proof.
  intros Ho. rewrite foldl_app. cbn. unfold bump_max at 1. f_equal.
  apply ordered_last in Ho.
  assert (∀ m, match m with None => True | Some z => z ≤ assigned_offset r end →
    match foldl (λ m r, bump_max m (assigned_offset r)) m rs with
    | None => True | Some z => z ≤ assigned_offset r end) as Hmax.
  { induction Ho as [|x rs Hx _ IH]; intros m Hm; cbn; [done|]. apply IH.
    destruct m; cbn; lia. }
  specialize (Hmax None I). destruct (foldl _ None rs); [lia|done].
Qed.

(** Where the records delivered so far end: segment and offset of the last one. *)
Definition position_after (s : Z) (todo : list WalRecord) (p : Z * Z) : Z * Z :=
  match last todo with None => p | Some r => (s, assigned_offset r) end.

(** Segments that may end in a tail the reader stops at. *)
Definition stored_tail `{Crc32} (dir : WalDir) (s : Z * list WalRecord) : Prop :=
  u64_range s.1 ∧ Forall wf_record s.2 ∧ ordered s.2 ∧
  ∃ tail e, dir !! s.1 = Some (segment_bytes s.1 s.2 ++ tail) ∧
    tail_end tail (zlen (segment_bytes s.1 s.2)) e.

Section Replay.
Context `{Crc32} {Σ : Type} `{FlushSink Σ}.
Implicit Types (l : segs) (ck : option Checkpoint) (st : ReplaySt (Σ := Σ)).

(** What the reading loop of one segment keeps: [d] was delivered and [b] waits
    in the batch. *)
Definition replay_inv (id : Z) (dl0 : list WalRecord) (t0 : Z) (p0 : Z * Z)
    (d b : list WalRecord) st : Prop :=
  rp_batch st = b ∧
  rp_max_offset st = foldl (λ m r, bump_max m (assigned_offset r)) None b ∧
  delivered (rp_sink st) = dl0 ++ d ∧
  rp_total st = t0 + zlen d ∧
  (rp_last_segment st, rp_last_offset st) = position_after id d p0.

Lemma replay_flush_spec id dl0 t0 p0 d b st :
  replay_inv id dl0 t0 p0 d b st → ordered b → b ≠ [] →
  (∃ st', replay_flush id st = Ok st' ∧ replay_inv id dl0 t0 p0 (d ++ b) [] st') ∨
  (∃ s part, replay_flush id st = Err (s, SinkFailed) ∧ part `sublist_of` b ∧
     delivered s = dl0 ++ d ++ part).
Proof.
  intros (Hb & Hm & Hd & Ht & Hp) Ho Hne. unfold replay_flush. rewrite Hb.
  destruct (flush_records (rp_sink st) b) as [s []] eqn:Hf.
  - left. destruct (exists_last Hne) as (b' & r & ->).
    rewrite Hm, bump_max_ordered by done. eexists. split; [done|].
    split_and!; cbn; [done|done| | |].
    + rewrite (flush_records_ok _ _ _ Hf), Hd. by rewrite <-app_assoc.
    + rewrite Ht, !length_app. lia.
    + unfold position_after. by rewrite app_assoc, last_snoc.
  - right. destruct (flush_records_failed _ _ _ Hf) as (part & Hpart & Hd').
    exists s, part. split; [done|]. split; [done|]. by rewrite Hd', Hd, <-app_assoc.
Qed.

Lemma replay_record_eq ck mb id st r :
  replay_record ck mb id st r =
    if already_flushed ck id r then Ok st
    else
      let st1 := mkReplaySt (rp_batch st ++ [r]) (rp_batch_bytes st + (zlen (payload r) + 64))
                   (bump_max (rp_max_offset st) (assigned_offset r)) (rp_total st)
                   (rp_last_segment st) (rp_last_offset st) (rp_sink st) in
      if mb <=? rp_batch_bytes st1 then replay_flush id st1 else Ok st1.
Proof. done. Qed.

Lemma replay_truncate {E} dir id rs tail e (f : SegmentError → E) :
  dir !! id = Some (segment_bytes id rs ++ tail) →
  tail_end tail (zlen (segment_bytes id rs)) e →
  match e with
  | Some (SegmentRecord _) =>
      map_err f (truncate_segment dir id
        (truncation_point (mkSegmentReader (segment_bytes id rs ++ tail) id (zlen (segment_bytes id rs)))))
  | _ => Ok dir
  end = Ok (<[id := segment_bytes id rs]> dir).
Proof.
  intros Hdir [[-> ->]|(_ & er & _ & ->)].
  - rewrite app_nil_r in Hdir. by rewrite insert_id.
  - unfold truncate_segment, truncation_point, set_len. rewrite Hdir. ostep. cbn [r_pos].
    rewrite Nat2Z.id, take_app_length, length_app.
    replace (_ - _)%nat with 0%nat by lia. by rewrite app_nil_r.
Qed.

Lemma replay_records_spec ck mb id dl0 t0 p0 rs : ∀ d b st,
  replay_inv id dl0 t0 p0 d b st →
  ordered (b ++ filter (λ r, already_flushed ck id r = false) rs) →
  (∃ st' d' b', ofold (replay_record ck mb id) st rs = Ok st' ∧
     replay_inv id dl0 t0 p0 d' b' st' ∧ ordered b' ∧
     d' ++ b' = d ++ b ++ filter (λ r, already_flushed ck id r = false) rs) ∨
  (∃ s lost, ofold (replay_record ck mb id) st rs = Err (s, SinkFailed) ∧
     lost `sublist_of` d ++ b ++ filter (λ r, already_flushed ck id r = false) rs ∧
     delivered s = dl0 ++ lost).
Proof.
  induction rs as [|r rs IH]; intros d b st Hinv Ho.
  - left. exists st, d, b. cbn in Ho. rewrite app_nil_r in Ho. cbn. rewrite app_nil_r. auto.
  - cbn [ofold]. rewrite replay_record_eq. cbv zeta. destruct (already_flushed ck id r) eqn:Hf; ostep.
    + rewrite filter_cons_False in Ho |- * by congruence. by apply IH.
    + rewrite filter_cons_True in Ho |- * by done.
      change (r :: filter _ rs) with ([r] ++ filter (λ r, already_flushed ck id r = false) rs) in *.
      rewrite app_assoc in Ho. set (st1 := mkReplaySt _ _ _ _ _ _ _).
      assert (replay_inv id dl0 t0 p0 d (b ++ [r]) st1) as Hinv1.
      { destruct Hinv as (Hb & Hm & Hd & Ht & Hp). split_and!; cbn; try done.
        - by rewrite Hb.
        - by rewrite Hm, foldl_app. }
      rewrite (app_assoc b). destruct (mb <=? rp_batch_bytes st1).
      * destruct (replay_flush_spec id dl0 t0 p0 d (b ++ [r]) st1 Hinv1)
          as [(st2 & -> & Hinv2)|(s & part & -> & Hpart & Hds)]; ostep.
        -- by apply ordered_app_l in Ho.
        -- by destruct b.
        -- destruct (IH _ _ _ Hinv2) as [(st' & d' & b' & ? & ? & ? & Heq)|(s & lost & ? & Hlost & ?)].
           ++ by apply ordered_app_r in Ho.
           ++ left. exists st', d', b'. split_and!; try done. rewrite Heq. cbn.
              by rewrite <-!app_assoc.
           ++ right. exists s, lost. split; [done|]. split; [|done].
              cbn [app] in Hlost. by rewrite <-(app_assoc d) in Hlost.
        -- right. exists s, (d ++ part). split; [done|]. split; [|done].
           apply sublist_app; [done|]. by apply sublist_inserts_r.
      * apply (IH d (b ++ [r]) st1 Hinv1 Ho).
Qed.

Lemma replay_last_flush (dir : WalDir) id st (o : outcome (Σ * FlushError) (ReplaySt (Σ := Σ))) :
  (if bool_decide (rp_batch st = []) then Ok st else replay_flush id st) = o →
  (if bool_decide (rp_batch st = []) then Ok st else map_err (in_dir dir) (replay_flush id st)) =
    map_err (in_dir dir) o.
Proof. intros <-. by case_bool_decide. Qed.

(** Opening, reading, truncating and flushing one segment. *)
Lemma replay_segment_spec dir ck mb id rs dl0 t0 p0 st :
  stored_tail dir (id, rs) → start_segment_id ck ≤ id →
  replay_inv id dl0 t0 p0 [] [] st →
  ∃ rd, segment_open dir id = Ok rd ∧
  ((∃ st' rd' stop,
      read_segment (replay_record ck mb id) rd st = Ok (st', rd', stop) ∧
      match stop with
      | Some (SegmentRecord _) =>
          map_err (λ e, (dir, rp_sink st', ReplaySegmentError e))
            (truncate_segment dir id (truncation_point rd'))
      | _ => Ok dir
      end = Ok (<[id := segment_bytes id rs]> dir) ∧
      ((∃ st2, (if bool_decide (rp_batch st' = []) then Ok st' else replay_flush id st') = Ok st2 ∧
          replay_inv id dl0 t0 p0 (seg_pending ck (id, rs)) [] st2) ∨
       (∃ s lost, (if bool_decide (rp_batch st' = []) then Ok st' else replay_flush id st') =
          Err (s, SinkFailed) ∧ lost `sublist_of` seg_pending ck (id, rs) ∧ delivered s = dl0 ++ lost))) ∨
   (∃ s lost, read_segment (replay_record ck mb id) rd st = Err (s, SinkFailed) ∧
      lost `sublist_of` seg_pending ck (id, rs) ∧ delivered s = dl0 ++ lost)).
Proof.
  intros (Hid & Hrs & Hord & tail & e & Hdir & Hte) Hst Hinv. cbn [fst snd] in *.
  destruct (read_segment_records (replay_record ck mb id) id rs tail e st Hid Hrs Hte)
    as (rd & Ho & Hr).
  exists rd. split; [unfold segment_open; by rewrite Hdir|]. rewrite Hr.
  assert (seg_pending ck (id, rs) = filter (λ r, already_flushed ck id r = false) rs) as Hp
    by (unfold seg_pending; cbn; by rewrite (proj2 (Z.ltb_ge _ _))).
  destruct (replay_records_spec ck mb id dl0 t0 p0 rs [] [] st Hinv)
    as [(st' & d' & b' & Hof & Hinv' & Hb' & Heq)|(s & lost & -> & Hlost & Hds)];
    [by apply ordered_filter| |right; exists s, lost; rewrite Hp; by split_and!].
  rewrite Hof. ostep. cbn [app] in Heq. rewrite <-Hp in Heq.
  pose proof Hinv' as (Hbatch & _). left. do 3 eexists. split; [done|].
  split; [by apply replay_truncate with (tail := tail)|]. rewrite Hbatch.
  destruct (decide (b' = [])) as [->|Hne].
  - left. rewrite bool_decide_eq_true_2 by done. eexists. split; [done|].
    by rewrite <-Heq, app_nil_r.
  - rewrite bool_decide_eq_false_2 by done.
    destruct (replay_flush_spec id dl0 t0 p0 d' b' st' Hinv' Hb' Hne)
      as [(st2 & Hf & Hinv2)|(s & part & Hf & Hpart & Hds)]; [left; exists st2; by rewrite <-Heq|right].
    exists s, (d' ++ part). rewrite <-Heq. split; [done|]. split; [|done]. by apply sublist_app.
Qed.

Lemma replay_segments_spec ck mb l : NoDup l.*1 → ∀ dir st,
  Forall (stored_tail dir) l →
  (∃ dir' st', replay_segments dir ck mb l.*1 st = Ok (dir', st') ∧
     delivered (rp_sink st') = delivered (rp_sink st) ++ pending ck l ∧
     rp_total st' = rp_total st + zlen (pending ck l) ∧
     (rp_last_segment st', rp_last_offset st') =
       foldl (λ p s, position_after s.1 (seg_pending ck s) p)
         (rp_last_segment st, rp_last_offset st) l ∧
     Forall (λ s, start_segment_id ck ≤ s.1 → dir' !! s.1 = Some (segment_bytes s.1 s.2)) l ∧
     (∀ id, id ∉ l.*1 ∨ id < start_segment_id ck → dir' !! id = dir !! id)) ∨
  (∃ dir' s lost, replay_segments dir ck mb l.*1 st = Err (dir', s, SinkFailed) ∧
     lost `sublist_of` pending ck l ∧ delivered s = delivered (rp_sink st) ++ lost ∧
     Forall (λ s, dir' !! s.1 = dir !! s.1 ∨ dir' !! s.1 = Some (segment_bytes s.1 s.2)) l ∧
     (∀ id, id ∉ l.*1 → dir' !! id = dir !! id)).
Proof.
  induction l as [|[id rs] l IH]; intros Hnd dir st Hst.
  { left. exists dir, st. cbn. rewrite app_nil_r, Z.add_0_r. by split_and!. }
  apply Forall_cons in Hst as [Hseg Hst]. cbn [fmap list_fmap fst] in *.
  apply NoDup_cons in Hnd as [Hnin Hnd]. cbn [replay_segments foldl fst].
  destruct (Z.ltb_spec id (start_segment_id ck)) as [Hlt|Hge].
  - assert (seg_pending ck (id, rs) = []) as Hp
      by (unfold seg_pending; cbn; by rewrite (proj2 (Z.ltb_lt _ _))).
    assert (pending ck ((id, rs) :: l) = pending ck l) as -> by (unfold pending; cbn; by rewrite Hp).
    rewrite Hp. cbn [position_after last].
    destruct (IH Hnd dir st Hst) as [(dir' & st' & ? & ? & ? & ? & Hl & Hother)|
      (dir' & s & lost & ? & ? & ? & Hl & Hother)]; [left|right].
    + exists dir', st'. split_and!; try done; [constructor; [cbn; lia|done]|].
      intros i Hi. apply Hother. rewrite not_elem_of_cons in Hi. tauto.
    + exists dir', s, lost. split_and!; try done; [constructor; [left; by apply Hother|done]|].
      intros i Hi. apply Hother. rewrite not_elem_of_cons in Hi. tauto.
  - set (st0 := mkReplaySt [] 0 None (rp_total st) (rp_last_segment st) (rp_last_offset st) (rp_sink st)).
    assert (∀ lost, lost `sublist_of` seg_pending ck (id, rs) → lost `sublist_of` pending ck ((id, rs) :: l))
      as Hhead by (intros lost Hlost; unfold pending; cbn; by apply sublist_inserts_r).
    assert (∀ j, j ∉ id :: l.*1 → <[id := segment_bytes id rs]> dir !! j = dir !! j) as Hsame
      by (intros j [Hne _]%not_elem_of_cons; by rewrite lookup_insert_ne).
    assert (Forall (λ s, <[id := segment_bytes id rs]> dir !! s.1 = dir !! s.1 ∨
        <[id := segment_bytes id rs]> dir !! s.1 = Some (segment_bytes s.1 s.2)) ((id, rs) :: l)) as Hsame2.
    { constructor; [right; apply lookup_insert_eq|]. apply Forall_forall. intros s Hs. left.
      rewrite lookup_insert_ne; [done|]. intros ->. apply Hnin. apply list_elem_of_fmap. by exists s. }
    destruct (replay_segment_spec dir ck mb id rs (delivered (rp_sink st)) (rp_total st)
      (rp_last_segment st, rp_last_offset st) st0 Hseg Hge) as (rd & Ho & Hcases).
    { split_and!; cbn; try done; [by rewrite app_nil_r|lia]. }
    rewrite Ho. cbv zeta. fold st0.
    destruct Hcases as [(st' & rd' & stop & Hread & Htr & Hfl)|(s & lost & Hread & Hlost & Hds)];
      rewrite Hread; ostep.
    2: { right. exists dir, s, lost. split_and!; [done|by apply Hhead|done| |done].
         apply Forall_forall. by left. }
    rewrite Htr. ostep. destruct Hfl as [(st2 & Hfl & Hinv)|(s & lost & Hfl & Hlost & Hds)];
      rewrite (replay_last_flush _ _ _ _ Hfl); ostep.
    + destruct Hinv as (_ & _ & Hd & Ht & Hp).
      assert (Forall (stored_tail (<[id := segment_bytes id rs]> dir)) l) as Hst'.
      { eapply Forall_impl; [exact (Forall_and_in _ _ Hst)|]. intros s [Hs Hin].
        unfold stored_tail in *. rewrite lookup_insert_ne; [done|].
        intros ->. apply Hnin. apply list_elem_of_fmap. by exists s. }
      destruct (IH Hnd _ st2 Hst') as [(dir2 & st3 & Hrep & Hd3 & Ht3 & Hp3 & Hl & Hother)|
        (dir2 & s & lost & Hrep & Hlost & Hds & Hl & Hother)]; [left|right].
      * exists dir2, st3. rewrite Hd3, Ht3, Hp3, Hd, Ht, Hp, Hrep.
        change (pending ck ((id, rs) :: l)) with (seg_pending ck (id, rs) ++ pending ck l).
        rewrite length_app, <-app_assoc. split_and!; [done|done|lia|done| |].
        -- constructor; [|done]. intros _. cbn. rewrite Hother by by left. apply lookup_insert_eq.
        -- intros i Hi. rewrite not_elem_of_cons in Hi. rewrite Hother by tauto.
           apply lookup_insert_ne. intros ->. destruct Hi as [[]|]; [done|lia].
      * exists dir2, s, (seg_pending ck (id, rs) ++ lost).
        rewrite Hds, Hd, <-app_assoc. split_and!; [done|by apply sublist_app|done| |].
        -- constructor; [right; cbn; rewrite Hother by done; apply lookup_insert_eq|].
           eapply Forall_impl; [exact (proj2 (Forall_and _ _) (conj Hl (proj2 (proj1 (Forall_cons _ _ _) Hsame2))))|].
           cbn. intros x [[->|?] ?]; [done|by right].
        -- intros i Hi. rewrite Hother by by apply not_elem_of_cons in Hi as [_ ?]. by apply Hsame.
    + right. exists (<[id := segment_bytes id rs]> dir), s, lost. split_and!; [done|by apply Hhead|done|done|done].
Qed.

End Replay.
