(* ===== verification/WalSystem.v ===== *)
(** The WAL as a running system: appends, flush passes, janitor passes and
    restarts interleaved, and what they guarantee together. Passes and replays
    may end anywhere: with an error of the sink, with a checkpoint that was not
    saved, or with the process. *)

From stdpp Require Import base gmap sorting list.
From coqutil Require Import Byte.
From S2P Require Import Prelude WalRecord WalSegment WalGuard WalLog WalFlush.

(** ** Advancing the checkpoint *)

Definition log_ordered (l : segs) : Prop := Forall (λ s, ordered s.2) l.

Lemma checkpoint_after_snoc ck0 l s ck :
  checkpoint_after ck0 (l ++ [s]) ck =
    match seg_pending ck0 s with
    | [] => checkpoint_after ck0 l ck
    | todo => Some (mkCheckpoint s.1 (max_offset_of todo) 1)
    end.
Proof. unfold checkpoint_after. rewrite foldl_app. done. Qed.

(** Segments behind the checkpointed one are entirely pending. *)
Lemma seg_pending_later ck id rs :
  start_segment_id ck < id → seg_pending ck (id, rs) = rs.
Proof.
  intros Hid. unfold seg_pending. cbn [fst snd]. rewrite (proj2 (Z.ltb_ge _ _)) by lia.
  induction rs as [|r rs IH]; [done|]. rewrite filter_cons_True; [by f_equal|].
  unfold already_flushed. destruct ck as [cp|]; [|done]. cbn in Hid.
  rewrite (proj2 (Z.eqb_neq id _)) by lia. apply andb_false_r.
Qed.

Lemma pending_later ck l :
  Forall (λ s, start_segment_id ck < s.1) l → pending ck l = segs_records l.
Proof.
  unfold pending, segs_records. induction 1 as [|[id rs] l Hid _ IH]; [done|].
  cbn. rewrite IH. f_equal. by apply seg_pending_later.
Qed.

Lemma pending_earlier ck l :
  Forall (λ s, s.1 < start_segment_id ck) l → pending ck l = [].
Proof.
  unfold pending. induction 1 as [|s l Hid _ IH]; [done|]. cbn. rewrite IH.
  unfold seg_pending. by rewrite (proj2 (Z.ltb_lt _ _)).
Qed.

(** In an ordered segment with something pending, the last record is pending,
    so the maximum of what is pending bounds the whole segment. *)
Lemma seg_pending_max ck id rs :
  ordered rs → Forall (λ r, 0 ≤ assigned_offset r) rs → seg_pending ck (id, rs) ≠ [] →
  Forall (λ r, assigned_offset r ≤ max_offset_of (seg_pending ck (id, rs))) rs.
Proof.
  intros Ho Hnn Hne. unfold seg_pending in *. cbn [fst snd] in *.
  destruct (id <? start_segment_id ck); [done|].
  destruct (decide (rs = [])) as [->|Hrs]; [constructor|].
  destruct (exists_last Hrs) as (rs' & r & ->).
  assert (already_flushed ck id r = false) as Hr.
  { destruct (already_flushed ck id r) eqn:Hr; [|done]. destruct Hne.
    apply filter_none. intros x Hx. rewrite not_false_iff_true.
    unfold already_flushed in *. destruct ck as [cp|]; [|done]. reflect_bools.
    apply andb_true_intro. rewrite Z.leb_le, Z.eqb_eq. split; [|done].
    apply elem_of_app in Hx as [Hx| ->%list_elem_of_singleton]; [|done].
    apply ordered_last in Ho. rewrite Forall_forall in Ho. specialize (Ho x Hx). lia. }
  rewrite filter_app, filter_cons_True, filter_nil by done.
  apply Forall_app in Hnn as [_ Hnn]. rewrite Forall_singleton in Hnn.
  rewrite max_offset_of_ordered; [|by apply ordered_filter_snoc|done].
  apply Forall_app. rewrite Forall_singleton. split; [|done].
  eapply Forall_impl; [by apply ordered_last|]. cbn. intros. lia.
Qed.

(** Delivering the pending records of a prefix of the log and advancing the
    checkpoint accordingly leaves exactly the rest pending. *)
Lemma pending_advance ck l1 l2 :
  segs_wf (l1 ++ l2) → log_ordered (l1 ++ l2) →
  pending ck l1 ++ pending (checkpoint_after ck l1 ck) (l1 ++ l2) = pending ck (l1 ++ l2).
Proof.
  revert l2. induction l1 as [|[id rs] l1 IH] using rev_ind; intros l2 Hwf Ho; [done|].
  rewrite checkpoint_after_snoc.
  destruct (decide (seg_pending ck (id, rs) = [])) as [Hp|Hp].
  - rewrite (pending_app ck l1), pending_single, Hp, app_nil_r.
    rewrite <-app_assoc in Hwf, Ho |- *. by apply IH.
  - rewrite !pending_app, !pending_single.
    replace (match seg_pending ck (id, rs) with [] => _ | _ => _ end)
      with (Some (mkCheckpoint id (max_offset_of (seg_pending ck (id, rs))) 1))
      by (by destruct (seg_pending ck (id, rs))).
    set (ck' := Some _).
    assert (start_segment_id ck ≤ id) as Hst.
    { unfold seg_pending in Hp. cbn in Hp. destruct (Z.ltb_spec id (start_segment_id ck)); [done|lia]. }
    destruct Hwf as [Hs Hf]. rewrite !fmap_app in Hs. cbn in Hs.
    rewrite <-app_assoc in Hs. apply StronglySorted_app in Hs as (Hlt & _ & Hs).
    apply StronglySorted_cons in Hs as [Hgt _].
    assert (pending ck' l1 = []) as ->.
    { apply pending_earlier, Forall_forall. intros s Hin. cbn. apply (Hlt s.1 id); [|by left].
      apply list_elem_of_fmap. eauto. }
    assert (∀ c, start_segment_id c ≤ id → pending c l2 = segs_records l2) as Hl2.
    { intros c Hc. apply pending_later, Forall_forall. intros s Hin. rewrite Forall_forall in Hgt.
      assert (id < s.1); [|lia]. apply Hgt, list_elem_of_fmap. eauto. }
    rewrite (Hl2 ck Hst), (Hl2 ck') by done.
    assert (seg_pending ck' (id, rs) = []) as ->; [|by rewrite app_nil_r].
    unfold seg_pending at 1. cbn [ck' start_segment_id fst snd last_flushed_segment_id].
    rewrite Z.ltb_irrefl. apply filter_none. intros x Hr. rewrite not_false_iff_true.
    unfold already_flushed. cbn. rewrite Z.eqb_refl, andb_true_r. apply Z.leb_le.
    unfold log_ordered in Ho. rewrite !Forall_app, !Forall_singleton in Ho, Hf.
    destruct Ho as [[_ Ho] _], Hf as [[_ [_ Hwfr]] _]. cbn in *.
    assert (Forall (λ r, 0 ≤ assigned_offset r) rs) as Hnn.
    { eapply Forall_impl; [exact Hwfr|]. intros y (_ & _ & [] & _). done. }
    pose proof (seg_pending_max ck id rs Ho Hnn Hp) as Hmax. rewrite Forall_forall in Hmax. by apply Hmax.
Qed.

(** ** Janitor *)

(** The segments a janitor pass leaves. *)
Definition janitor_keeps (active : Z) (cp : Checkpoint) (s : Z * list WalRecord) : bool :=
  (active <=? s.1) || (last_flushed_segment_id cp <=? s.1).

Lemma janitor_segments_lookup dir active cp ids id :
  janitor_segments dir active cp ids !! id =
    if bool_decide (id ∈ ids) && (id <? active) && (id <? last_flushed_segment_id cp)
    then None else dir !! id.
Proof.
  unfold janitor_segments. revert dir. induction ids as [|i ids IH]; intros dir; [done|].
  cbn [foldl]. rewrite IH. clear IH.
  destruct (decide (i = id)) as [->|Hne].
  - rewrite (bool_decide_eq_true_2 (id ∈ id :: ids)) by by left. cbn [andb].
    destruct (Z.leb_spec active id), (Z.ltb_spec id active); try lia; cbn [andb].
    + by rewrite andb_false_r.
    + destruct (id <? last_flushed_segment_id cp); rewrite ?andb_false_r; [|done].
      rewrite lookup_delete_eq. by destruct (_ && _ && _).
  - assert (bool_decide (id ∈ i :: ids) = bool_decide (id ∈ ids)) as ->.
    { apply bool_decide_ext. rewrite elem_of_cons. intuition congruence. }
    destruct (_ && _ && _); [done|]. destruct (active <=? i); [done|].
    destruct (i <? _); [|done]. by rewrite lookup_delete_ne.
Qed.

Section Janitor.
Context `{Crc32}.
Implicit Types (l : segs) (ck : option Checkpoint).

Lemma segs_wf_filter (P : Z * list WalRecord → Prop) `{∀ s, Decision (P s)} l :
  segs_wf l → segs_wf (filter P l).
Proof.
  intros [Hs Hf]. split.
  - induction l as [|s l IH]; [constructor|]. cbn in Hs.
    apply StronglySorted_cons in Hs as [Hlt Hs]. apply Forall_cons in Hf as [_ Hf].
    rewrite filter_cons. case_decide; [|by apply IH]. cbn. constructor; [by apply IH|].
    rewrite Forall_forall in *. intros x (s' & -> & [_ Hin]%list_elem_of_filter)%list_elem_of_fmap.
    apply Hlt, list_elem_of_fmap. by exists s'.
  - by apply Forall_filter_keep.
Qed.

Lemma segs_dir_lookup_None l id : id ∉ l.*1 → segs_dir l !! id = None.
Proof. intros Hid. apply not_elem_of_list_to_map_1. by rewrite segs_dir_fst. Qed.

Lemma janitor_segs active cp l :
  segs_wf l →
  janitor_segments (segs_dir l) active cp (list_segments (segs_dir l)) =
    segs_dir (filter (λ s, janitor_keeps active cp s = true) l).
Proof.
  intros Hwf. pose proof (segs_wf_filter (λ s, janitor_keeps active cp s = true) l Hwf) as Hwf'.
  rewrite list_segments_segs by done. apply map_eq. intros id. rewrite janitor_segments_lookup.
  destruct (decide (id ∈ l.*1)) as [Hin|Hout].
  - rewrite bool_decide_eq_true_2 by done. apply list_elem_of_fmap in Hin as ([i rs] & -> & Hin). cbn.
    rewrite (segs_dir_lookup l i rs Hwf Hin).
    destruct (janitor_keeps active cp (i, rs)) eqn:Hk.
    + rewrite (segs_dir_lookup _ i rs Hwf') by by apply list_elem_of_filter.
      unfold janitor_keeps in Hk. cbn in Hk. rewrite !Z.ltb_antisym.
      by destruct (active <=? i), (last_flushed_segment_id cp <=? i).
    + rewrite segs_dir_lookup_None.
      * unfold janitor_keeps in Hk. cbn in Hk. rewrite !Z.ltb_antisym.
        by destruct (active <=? i), (last_flushed_segment_id cp <=? i).
      * intros ([i' rs'] & -> & [Hk' Hin']%list_elem_of_filter)%list_elem_of_fmap.
        unfold janitor_keeps in Hk, Hk'. cbn in Hk, Hk'. congruence.
  - rewrite bool_decide_eq_false_2 by done. cbn. rewrite !segs_dir_lookup_None; [done| |done].
    intros (s & -> & [_ Hin]%list_elem_of_filter)%list_elem_of_fmap.
    apply Hout, list_elem_of_fmap. by exists s.
Qed.

(** Nothing the checkpoint leaves pending is deleted. *)
Lemma janitor_pending active cp l :
  pending (Some cp) (filter (λ s, janitor_keeps active cp s = true) l) = pending (Some cp) l.
Proof.
  unfold pending. induction l as [|s l IH]; [done|]. rewrite filter_cons. case_decide as Hk.
  - cbn. by rewrite IH.
  - cbn. rewrite IH. unfold seg_pending. cbn [start_segment_id].
    apply not_true_is_false, orb_false_elim in Hk as [_ Hk]. by rewrite Z.ltb_antisym, Hk.
Qed.
End Janitor.

(** ** The running system *)

Record Sys (Σ : Type) := mkSys {
  sys_fs : WalFs;
  sys_wal : Wal;
  sys_ck : option Checkpoint;
  sys_sink : Σ;
}.
#[global] Arguments mkSys {Σ}.
#[global] Arguments sys_fs {Σ}.
#[global] Arguments sys_wal {Σ}.
#[global] Arguments sys_ck {Σ}.
#[global] Arguments sys_sink {Σ}.

Section System.
Context `{Crc32} {Σ : Type} `{FlushSink Σ}.

(** What the process leaves behind when it dies. While it appends to the
    active segment: the log as it is, or with a part of the record behind it.
    While it rotates: a new segment with its header, perhaps with a part of its
    first record, and the symlink wherever the rotation got with it. Both are
    [Recoverable]. A rotation may also leave a part of the new header only
    ([TornHeader]), and a file system that extended the file before it wrote
    the data leaves zero bytes behind the records ([ZeroTail]). A record that
    is on disk as a whole counts as appended. *)
Inductive crash_damage := Recoverable | TornHeader | ZeroTail.

Inductive crash_image (fs : WalFs) (wal : Wal) : crash_damage → WalFs → Prop :=
| CrashClean : crash_image fs wal Recoverable fs
| CrashTorn content tail e :
    fs_segments fs !! w_segment_id (wal_writer wal) = Some content →
    tail_end tail (zlen content) (Some (SegmentRecord e)) → is_torn_write e = true →
    crash_image fs wal Recoverable
      (mkWalFs (<[w_segment_id (wal_writer wal) := content ++ tail]> (fs_segments fs)) (fs_current fs))
| CrashRotating tail e cur :
    w_segment_id (wal_writer wal) + 1 < u64_max →
    tail_end tail SEGMENT_HEADER_SIZE e →
    (e = None ∨ ∃ er, e = Some (SegmentRecord er) ∧ is_torn_write er = true) →
    crash_image fs wal Recoverable
      (mkWalFs (<[w_segment_id (wal_writer wal) + 1 :=
                    segment_header (w_segment_id (wal_writer wal) + 1) ++ tail]> (fs_segments fs)) cur)
| CrashTornHeader m :
    (m < 13)%nat →
    crash_image fs wal TornHeader
      (mkWalFs (<[w_segment_id (wal_writer wal) + 1 :=
                    take m (segment_header (w_segment_id (wal_writer wal) + 1))]> (fs_segments fs))
         (fs_current fs))
| CrashZeroTail content n :
    fs_segments fs !! w_segment_id (wal_writer wal) = Some content → (4 ≤ n)%nat →
    crash_image fs wal ZeroTail
      (mkWalFs (<[w_segment_id (wal_writer wal) := content ++ replicate n (byte.of_Z 0)]> (fs_segments fs))
         (fs_current fs)).

(** A pass that does not report success counts as failed. *)
Definition failed {E A : Type} (o : outcome E A) : nat := if is_ok o then 0 else 1.

(** One step of the system, with the records it acknowledges to a client and
    the number of passes that failed in it. A flush pass or a replay runs on a
    sink whose process may die at any point of it ([life]), and its checkpoints
    may not reach the disk ([save]). A restart is [Wal::open] followed by the
    replay, as in the server's builder. *)
Inductive sys_step : Sys Σ → list WalRecord → nat → Sys Σ → Prop :=
| StepAppend fs wal ck sink r env fs' wal' r' :
    wf_record r → env_ok env → offset_counter wal < u64_max →
    w_segment_id (wal_writer wal) < u64_max →
    append fs wal r env = (fs', wal', Ok r') →
    sys_step (mkSys fs wal ck sink) [r'] 0 (mkSys fs' wal' ck sink)
| StepRejected fs wal ck sink r env fs' wal' e g :
    admit_ (disk_guard wal) (env_now env) (env_sample env) = (g, Err e) →
    append fs wal r env = (fs', wal', Err e) →
    sys_step (mkSys fs wal ck sink) [] 0 (mkSys fs' wal' ck sink)
| StepCheck fs wal ck sink now sample wal' res :
    check_free_space wal now sample = (wal', res) →
    sys_step (mkSys fs wal ck sink) [] 0 (mkSys fs wal' ck sink)
| StepFlush fs wal ck sink life save ck' sink' res :
    flush_once save (fs_segments fs) wal ck (mkMortal sink life) = (ck', sink', res) →
    sys_step (mkSys fs wal ck sink) [] (failed res) (mkSys fs wal ck' (m_sink sink'))
| StepJanitor fs wal ck sink :
    sys_step (mkSys fs wal ck sink) [] 0
      (mkSys (mkWalFs (cleanup_once (fs_segments fs) wal ck) (fs_current fs)) wal ck sink)
| StepRestart fs wal ck sink img max_bytes guard mb life save fs' wal' dir ck' sink' n :
    w_segment_id (wal_writer wal) < u64_max → crash_image fs wal Recoverable img →
    wal_open img max_bytes guard = Ok (fs', wal') →
    replay save (fs_segments fs') ck mb (mkMortal sink life) = Ok (dir, ck', sink', n) →
    sys_step (mkSys fs wal ck sink) [] 0
      (mkSys (mkWalFs dir (fs_current fs')) wal' ck' (m_sink sink'))
| StepRestartFails fs wal ck sink img max_bytes guard mb life save fs' wal' dir sink' e :
    w_segment_id (wal_writer wal) < u64_max → crash_image fs wal Recoverable img →
    wal_open img max_bytes guard = Ok (fs', wal') →
    replay save (fs_segments fs') ck mb (mkMortal sink life) = Err (dir, sink', e) →
    sys_step (mkSys fs wal ck sink) [] 1
      (mkSys (mkWalFs dir (fs_current fs')) wal' ck (m_sink sink')).

(** Reachable from an empty directory; the records acknowledged on the way and
    the passes that failed. *)
Inductive reach (s0 : Σ) : Sys Σ → list WalRecord → nat → Prop :=
| ReachInit max_bytes guard fs wal :
    wal_open (mkWalFs ∅ None) max_bytes guard = Ok (fs, wal) →
    reach s0 (mkSys fs wal None s0) [] 0
| ReachStep s hist n new m s' :
    reach s0 s hist n → sys_step s new m s' → reach s0 s' (hist ++ new) (n + m).

(** The checkpoint stays within the log, whose next offset is [next]. *)
Definition ck_within (ck : option Checkpoint) (id : Z) (rs : list WalRecord) (next : Z) : Prop :=
  match ck with
  | None => True
  | Some cp => last_flushed_segment_id cp ≤ id ∧
      (last_flushed_segment_id cp = id →
       last_flushed_offset cp ≤ max_offset_of rs ∧ last_flushed_offset cp < next)
  end.
End System.

(** A sink that held [d0] and holds [d] was handed every record of [don], in
    order, and besides them at most one run of records of [hist] again for each
    of [n] failed passes. *)
Definition delivers (d0 hist don : list WalRecord) (n : nat) (d : list WalRecord) : Prop :=
  (d0 ++ don) `sublist_of` d ∧
  ∃ agains, (length agains ≤ n)%nat ∧ Forall (λ a, a `sublist_of` hist) agains ∧
    d ≡ₚ d0 ++ don ++ concat agains.

Definition log_inv `{Crc32} (d0 : list WalRecord) (fs : WalFs) (wal : Wal) (ck : option Checkpoint)
    (d hist : list WalRecord) (n : nat) : Prop :=
  ∃ l id rs don,
    wal_on fs wal (l ++ [(id, rs)]) ∧
    log_ordered (l ++ [(id, rs)]) ∧
    Forall (λ r, assigned_offset r < offset_counter wal) rs ∧
    0 ≤ offset_counter wal ∧ 0 ≤ id ∧
    ck_within ck id rs (offset_counter wal) ∧
    hist = don ++ pending ck (l ++ [(id, rs)]) ∧
    delivers d0 hist don n d.

Definition sys_inv `{Crc32} `{FlushSink Σ} (s0 : Σ) (s : Sys Σ) (hist : list WalRecord) (n : nat) : Prop :=
  log_inv (delivered s0) (sys_fs s) (sys_wal s) (sys_ck s) (delivered (sys_sink s)) hist n.

(** ** Accounts of what was delivered *)

Lemma sublist_concat_parts {A} (l k : list A) : l `sublist_of` k → length l = length k → l = k.
Proof.
  induction 1 as [|x l k Hs IH|x l k Hs IH]; cbn; intros Hlen; [done|f_equal; apply IH; lia|].
  apply sublist_length in Hs. lia.
Qed.

Lemma delivers_0 d0 hist don d : delivers d0 hist don 0 d ↔ d = d0 ++ don.
Proof.
  split.
  - intros (Hs & [|a agains] & Hn & _ & Hp); [|cbn in Hn; lia].
    symmetry. apply sublist_concat_parts; [done|].
    by rewrite (Permutation_length Hp), app_nil_r.
  - intros ->. split; [done|]. exists []. rewrite app_nil_r. by split_and!.
Qed.

Lemma delivers_hist d0 hist new don n d : delivers d0 hist don n d → delivers d0 (hist ++ new) don n d.
Proof.
  intros (Hs & agains & Hn & Ha & Hp). split; [done|]. exists agains. split_and!; [done| |done].
  eapply Forall_impl; [exact Ha|]. cbn. intros a Hsub. by apply sublist_inserts_r.
Qed.

(** A pass delivers [p], and perhaps [lost] beyond it. *)
Lemma delivers_pass d0 hist don n m d p lost :
  delivers d0 hist don n d → lost `sublist_of` hist → lost = [] ∨ m = 1%nat →
  delivers d0 hist (don ++ p) (n + m) (d ++ p ++ lost).
Proof.
  intros (Hs & agains & Hn & Ha & Hp) Hlost Hm. split.
  { rewrite app_assoc. apply sublist_app; [done|]. by apply sublist_inserts_r. }
  destruct Hm as [->| ->].
  - exists agains. split_and!; [lia|done|]. rewrite Hp, app_nil_r, <-!app_assoc. do 2 f_equiv.
    apply Permutation_app_comm.
  - exists (agains ++ [lost]). rewrite length_app, Forall_app, concat_app. cbn. rewrite app_nil_r.
    split_and!; [lia|done|by repeat constructor|]. rewrite Hp, <-!app_assoc. do 2 f_equiv.
    rewrite !app_assoc. f_equiv. apply Permutation_app_comm.
Qed.

(** ** Every step keeps the invariant *)

Section Invariant.
Context `{Crc32}.
Implicit Types (l : segs) (ck : option Checkpoint).

Lemma ck_within_start ck id rs next : 0 ≤ id → ck_within ck id rs next → start_segment_id ck ≤ id.
Proof. destruct ck as [cp|]; cbn; [tauto|done]. Qed.

(** A new record is pending. *)
Lemma pending_log_append ck l id rs rot r next :
  0 ≤ id → ck_within ck id rs next → assigned_offset r = next →
  pending ck (log_append l id rs rot r) = pending ck (l ++ [(id, rs)]) ++ [r].
Proof.
  intros Hid Hck Hr. pose proof (ck_within_start ck id rs next Hid Hck) as Hst.
  destruct rot; cbn [log_append]; rewrite !pending_app, !pending_single.
  - f_equal. apply seg_pending_later. lia.
  - rewrite <-app_assoc. f_equal. unfold seg_pending. cbn [fst snd].
    rewrite (proj2 (Z.ltb_ge _ _)) by done. rewrite filter_app. f_equal.
    rewrite filter_cons_True; [done|]. unfold already_flushed. destruct ck as [cp|]; [|done].
    destruct Hck as [_ Hck]. destruct (Z.eqb_spec id (last_flushed_segment_id cp)) as [Heq|];
      [|apply andb_false_r].
    rewrite (proj2 (Z.leb_gt _ _)); [done|]. destruct Hck; [done|]. lia.
Qed.

Lemma log_ordered_append l id rs rot r next :
  log_ordered (l ++ [(id, rs)]) → Forall (λ x, assigned_offset x < next) rs →
  assigned_offset r = next → log_ordered (log_append l id rs rot r).
Proof.
  unfold log_ordered. intros [Hl Hrs]%Forall_app Hlt Hr. rewrite Forall_singleton in Hrs. cbn in Hrs.
  destruct rot; cbn [log_append]; rewrite !Forall_app, !Forall_singleton; cbn.
  - split_and!; [done|done|]. repeat constructor.
  - split; [done|]. unfold ordered. apply StronglySorted_app. split_and!; [|done|repeat constructor].
    intros x y Hx ->%list_elem_of_singleton. rewrite Forall_forall in Hlt. specialize (Hlt x Hx). lia.
Qed.

Lemma ck_within_append ck l id rs rot r next :
  ck_within ck id rs next →
  ∃ l' id' rs', log_append l id rs rot r = l' ++ [(id', rs')] ∧ (id' = id ∨ id' = id + 1) ∧
    ck_within ck id' rs' (next + 1) ∧
    (Forall (λ x, assigned_offset x < next) rs → assigned_offset r = next →
     Forall (λ x, assigned_offset x < next + 1) rs').
Proof.
  intros Hck. destruct rot; cbn [log_append].
  - exists (l ++ [(id, rs)]), (id + 1), [r]. split_and!; [done|by right| |].
    + destruct ck as [cp|]; [|done]. destruct Hck. split; lia.
    + intros _ ?. repeat constructor. lia.
  - exists l, id, (rs ++ [r]). split_and!; [done|by left| |].
    + destruct ck as [cp|]; [|done]. destruct Hck as [? Hck]. split; [done|]. intros Hid.
      rewrite max_offset_of_snoc. destruct (Hck Hid). lia.
    + intros Hlt Hr. apply Forall_app. rewrite Forall_singleton. split; [|lia].
      eapply Forall_impl; [exact Hlt|]. cbn. lia.
Qed.

Lemma segs_wf_stored l : segs_wf l → stored (segs_dir l) l.
Proof.
  intros Hwf. pose proof Hwf as [_ Hf]. unfold stored.
  eapply Forall_impl; [exact (Forall_and_in _ _ Hf)|]. intros [id rs] [[? ?] Hin].
  split_and!; [done|done|]. by apply segs_dir_lookup.
Qed.

Lemma max_offset_of_incl rs rs' :
  (∀ r, r ∈ rs → r ∈ rs') → max_offset_of rs ≤ max_offset_of rs'.
Proof.
  intros Hincl. unfold max_offset_of at 1.
  pose proof (max_offset_of_acc rs' 0) as [Hz Hf]. fold (max_offset_of rs') in Hz, Hf.
  rewrite Forall_forall in Hf. revert Hz. generalize 0.
  induction rs as [|r rs IH]; intros z Hz; cbn; [done|]. apply IH.
  - intros x Hx. apply Hincl. by right.
  - apply Z.max_lub; [done|]. apply Hf, Hincl. by left.
Qed.

Lemma max_offset_of_bound rs n :
  0 < n → Forall (λ r, assigned_offset r < n) rs → max_offset_of rs < n.
Proof.
  intros Hn Hrs. unfold max_offset_of. revert Hn. generalize 0.
  induction Hrs as [|r rs Hr _ IH]; intros z Hz; cbn; [done|]. apply IH. lia.
Qed.

(** Advancing the checkpoint over part of the log keeps it within the log. *)
Lemma ck_within_after ck ck0 l l1 l2 id rs next :
  segs_wf (l ++ [(id, rs)]) → l ++ [(id, rs)] = l1 ++ l2 →
  Forall (λ r, assigned_offset r < next) rs → ck_within ck id rs next →
  ck_within (checkpoint_after ck0 l1 ck) id rs next.
Proof.
  intros Hwf Heq Hlt Hck. assert (∀ s, s ∈ l1 → s ∈ l ++ [(id, rs)]) as Hin
    by (intros s Hs; rewrite Heq; apply elem_of_app; by left).
  clear Heq. induction l1 as [|[i xs] l1 IH] using rev_ind; [done|].
  rewrite checkpoint_after_snoc. destruct (seg_pending ck0 (i, xs)) as [|x todo] eqn:Hp.
  { apply IH. intros s Hs. apply Hin, elem_of_app. by left. }
  assert ((i, xs) ∈ l ++ [(id, rs)]) as Hi by (apply Hin, elem_of_app; right; by left).
  apply segs_wf_snoc in Hwf as (_ & Hids & _ & Hrs). cbn -[max_offset_of].
  apply elem_of_app in Hi as [Hi|[= -> ->]%list_elem_of_singleton].
  - assert (i < id); [|lia]. rewrite Forall_forall in Hids. apply Hids, list_elem_of_fmap. by exists (i, xs).
  - split; [done|]. intros _.
    assert (∀ r, r ∈ x :: todo → r ∈ rs) as Hsub.
    { intros r. rewrite <-Hp. unfold seg_pending. cbn.
      destruct (id <? _); [by intros ?%not_elem_of_nil|]. by intros [_ ?]%list_elem_of_filter. }
    pose proof (max_offset_of_incl (x :: todo) rs Hsub) as Hmax.
    rewrite Forall_forall in Hlt, Hrs.
    assert (0 ≤ assigned_offset x) as Hx by apply (Hrs x (Hsub x ltac:(by left))).
    specialize (Hlt x (Hsub x ltac:(by left))) as Hxn. split; [done|].
    eapply max_offset_of_bound; [lia|]. apply Forall_forall. intros r Hr. by apply Hlt, Hsub.
Qed.
End Invariant.

Section Steps.
Context `{Crc32} {Σ : Type} `{FlushSink Σ}.
Implicit Types (l : segs) (ck : option Checkpoint).

Lemma step_append_inv d0 fs wal ck d r env fs' wal' r' hist n :
  wf_record r → env_ok env → offset_counter wal < u64_max →
  w_segment_id (wal_writer wal) < u64_max →
  append fs wal r env = (fs', wal', Ok r') →
  log_inv d0 fs wal ck d hist n → log_inv d0 fs' wal' ck d (hist ++ [r']) n.
Proof.
  intros Hr Henv Hoff Hseg Happ (l & id & rs & don & Hon & Ho & Hlt & Hnn & Hid & Hck & Hh & Hd).
  pose proof (wal_on_inv _ _ _ _ _ Hon) as (_ & Hwf & Hw). rewrite Hw in Hseg. cbn in Hseg.
  unfold append in Happ. destruct (admit_ _ _ _) as [g [[]|e|]]; [|done|done].
  rewrite u64_wrap_succ in Happ by done. cbn [offset_counter] in Happ.
  set (r0 := with_offset r (offset_counter wal)) in *. set (wal1 := mkWal _ _ _ g) in *.
  assert (wf_record r0) as Hr0 by (apply wf_with_offset; [done|]; unfold u64_range; lia).
  destruct (locked_write_ok fs wal1 l id rs r0 env) as (fs1 & w & Hlw & Hon1 & _); try done.
  { apply segs_wf_snoc in Hwf as (_ & _ & ? & _). unfold u64_range in *. lia. }
  rewrite Hlw in Happ. injection Happ as <- <- <-.
  destruct (ck_within_append ck l id rs (needs_rotation wal1 r0) r0 (offset_counter wal) Hck)
    as (l' & id' & rs' & Heq & Hid' & Hck' & Hlt').
  rewrite Heq in Hon1. exists l', id', rs', don. cbn [offset_counter wal1]. rewrite <-Heq. split_and!.
  - by rewrite Heq.
  - by eapply log_ordered_append.
  - by apply Hlt'.
  - lia.
  - lia.
  - done.
  - rewrite (pending_log_append ck l id rs _ r0 (offset_counter wal)) by done.
    by rewrite Hh, app_assoc.
  - by apply delivers_hist.
Qed.

(** The guard of the handle takes no part in the invariant. *)
Lemma log_inv_guard d0 fs wal ck d hist n g :
  log_inv d0 fs wal ck d hist n →
  log_inv d0 fs (mkWal (wal_writer wal) (offset_counter wal) (segment_max_bytes wal) g) ck d hist n.
Proof. done. Qed.

Lemma step_rejected_inv d0 fs wal ck d r env fs' wal' e g hist n :
  admit_ (disk_guard wal) (env_now env) (env_sample env) = (g, Err e) →
  append fs wal r env = (fs', wal', Err e) →
  log_inv d0 fs wal ck d hist n → log_inv d0 fs' wal' ck d hist n.
Proof.
  intros Hadm Happ Hinv. unfold append in Happ. rewrite Hadm in Happ. injection Happ as <- <-.
  by apply log_inv_guard.
Qed.

Lemma step_check_inv d0 fs wal ck d now sample wal' res hist n :
  check_free_space wal now sample = (wal', res) →
  log_inv d0 fs wal ck d hist n → log_inv d0 fs wal' ck d hist n.
Proof.
  intros Hcheck Hinv. unfold check_free_space in Hcheck. destruct (admit_ _ _ _) as [g r].
  injection Hcheck as <- _. by apply log_inv_guard.
Qed.

(** What one flush pass does to a log in order. *)
Lemma flush_once_spec save fs wal l id rs ck sink ck' sink' res :
  wal_on fs wal (l ++ [(id, rs)]) →
  flush_once save (fs_segments fs) wal ck sink = (ck', sink', res) →
  ∃ l1 l2 lost, l ++ [(id, rs)] = l1 ++ l2 ∧ ck' = checkpoint_after ck l1 ck ∧
    delivered sink' = delivered sink ++ pending ck l1 ++ lost ∧
    pass_result save ck l2 lost res.
Proof.
  intros (Hfs & Hwf & Hw)%wal_on_inv Hfl. unfold flush_once in Hfl.
  rewrite Hfs, list_segments_segs, Hw in Hfl by done. cbn [w_segment_id] in Hfl.
  destruct (flush_segments_spec save (segs_dir (l ++ [(id, rs)])) id ck (l ++ [(id, rs)])
    (segs_wf_stored _ Hwf) (sorted_lt_NoDup _ (proj1 Hwf))
    ltac:(rewrite fmap_app; apply last_snoc) ck sink) as (l1 & l2 & lost & sink1 & r & Heq & Hf & Hd & Hr).
  exists l1, l2, lost. destruct ((l ++ [(id, rs)]).*1) as [|z zs] eqn:Hz; [by destruct l|].
  rewrite Hf in Hfl. injection Hfl as <- <- <-. split_and!; [done..|].
  destruct Hr as [(Hok & ? & ?)|(? & [->|[-> ?]])].
  - left. split; [|done]. by destruct r.
  - right. split; [done|by left].
  - right. split; [done|by right].
Qed.

Lemma step_flush_inv d0 save fs wal ck sink ck' sink' res hist n :
  flush_once save (fs_segments fs) wal ck sink = (ck', sink', res) →
  log_inv d0 fs wal ck (delivered sink) hist n →
  log_inv d0 fs wal ck' (delivered sink') hist (n + failed res).
Proof.
  intros Hfl (l & id & rs & don & Hon & Ho & Hlt & Hnn & Hid & Hck & Hh & Hd).
  destruct (flush_once_spec _ _ _ _ _ _ _ _ _ _ _ Hon Hfl) as (l1 & l2 & lost & Heq & -> & Hd' & Hres).
  pose proof (wal_on_inv _ _ _ _ _ Hon) as (_ & Hwf & _).
  exists l, id, rs, (don ++ pending ck l1). split_and!; try done; [by eapply ck_within_after| |].
  - rewrite Hh, <-app_assoc. f_equal. rewrite Heq in Hwf, Ho |- *. symmetry. by apply pending_advance.
  - rewrite Hd'. apply delivers_pass; [done| |].
    + destruct Hres as [(_ & _ & ->)|[Hlost _]]; [apply sublist_nil_l|].
      rewrite Hh, Heq, pending_app. by do 2 apply sublist_inserts_l.
    + destruct Hres as [(_ & _ & ->)|[_ [->|[-> _]]]]; [by left|by right..].
Qed.

Lemma step_janitor_inv d0 fs wal ck d hist n :
  log_inv d0 fs wal ck d hist n →
  log_inv d0 (mkWalFs (cleanup_once (fs_segments fs) wal ck) (fs_current fs)) wal ck d hist n.
Proof.
  intros (l & id & rs & don & Hon & Ho & Hlt & Hnn & Hid & Hck & Hh & Hd).
  unfold cleanup_once. destruct ck as [cp|]; [|exists l, id, rs, don; by destruct fs].
  apply wal_on_inv in Hon as (Hfs & Hwf & Hw). rewrite Hfs, Hw, janitor_segs by done.
  cbn [w_segment_id]. rewrite <-(janitor_pending id cp) in Hh.
  set (P := λ s, janitor_keeps id cp s = true) in *.
  pose proof (segs_wf_filter P _ Hwf) as Hwf'.
  assert (filter P (l ++ [(id, rs)]) = filter P l ++ [(id, rs)]) as Hf.
  { rewrite filter_app. f_equal. rewrite (filter_cons_True P); [done|]. unfold P, janitor_keeps. cbn.
    by rewrite Z.leb_refl. }
  rewrite Hf in *. exists (filter P l), id, rs, don. split_and!; try done.
  - split_and!; [done|done|]. by exists (filter P l), id, rs.
  - unfold log_ordered in *. rewrite Forall_app in Ho |- *. destruct Ho as [Ho ?]. split; [|done].
    rewrite Forall_forall in *. intros x [_ Hx]%list_elem_of_filter. by apply Ho.
Qed.

(** The position the replayer saves is the flusher's checkpoint. *)
Lemma checkpoint_after_position ck l ck0 p :
  segs_wf l → log_ordered l →
  checkpoint_after ck l ck0 =
    match pending ck l with
    | [] => ck0
    | _ => let '(s, o) := foldl (λ p s, position_after s.1 (seg_pending ck s) p) p l in
           Some (mkCheckpoint s o 1)
    end.
Proof.
  induction l as [|[id rs] l IH] using rev_ind; intros Hwf Ho; [done|].
  rewrite checkpoint_after_snoc, pending_app, pending_single, foldl_app. cbn [foldl].
  apply segs_wf_snoc in Hwf as (Hwf & _ & _ & Hrs).
  unfold log_ordered in Ho. rewrite Forall_app, Forall_singleton in Ho. destruct Ho as [Ho Hord].
  unfold position_after at 1. destruct (last (seg_pending ck (id, rs))) as [r|] eqn:Hl.
  - apply last_Some in Hl as [todo Hl]. rewrite Hl.
    assert (max_offset_of (todo ++ [r]) = assigned_offset r) as Hm.
    { unfold seg_pending in Hl. cbn in Hl, Hord. destruct (id <? _); [by destruct todo|].
      apply max_offset_of_ordered; [rewrite <-Hl; by apply ordered_filter|].
      assert (r ∈ filter (λ r, already_flushed ck id r = false) rs) as [_ Hin]%list_elem_of_filter
        by (rewrite Hl; apply elem_of_app; right; by left).
      rewrite Forall_forall in Hrs. by destruct (Hrs r Hin) as (_ & _ & [] & _). }
    destruct (todo ++ [r]) as [|x t] eqn:Ht; [by destruct todo|].
    rewrite Hm. by destruct (pending ck l).
  - apply last_None in Hl. rewrite Hl, app_nil_r. by apply IH.
Qed.

(** How a replay of a log ends that leaves [todo] to deliver: [lost] is what
    it delivered without its checkpoint being saved. *)
Definition replay_error (save : bool) (todo lost : list WalRecord) (e : FlushError) : Prop :=
  lost `sublist_of` todo ∧ (e = SinkFailed ∨ (e = SaveFailed ∧ save = false)).

(** Replay of a log in order: what it delivers, its new checkpoint, its count,
    and that it changes no segment. *)
Lemma replay_spec save l ck mb sink :
  segs_wf l → log_ordered l →
  (∃ sink', replay save (segs_dir l) ck mb sink =
      Ok (segs_dir l, checkpoint_after ck l ck, sink', zlen (pending ck l)) ∧
    delivered sink' = delivered sink ++ pending ck l) ∨
  (∃ sink' lost e, replay save (segs_dir l) ck mb sink = Err (segs_dir l, sink', e) ∧
    replay_error save (pending ck l) lost e ∧ delivered sink' = delivered sink ++ lost).
Proof.
  intros Hwf Ho. unfold replay. rewrite list_segments_segs by done.
  destruct l as [|s l]; [left; exists sink; cbn; by rewrite app_nil_r|].
  set (L := s :: l) in *. destruct (L.*1) as [|z zs] eqn:Hz; [done|]. cbn beta iota. rewrite <-Hz.
  set (st0 := mkReplaySt _ _ _ _ _ _ _).
  assert (Forall (stored_tail (segs_dir L)) L) as Hst.
  { unfold log_ordered in Ho. pose proof Hwf as [_ Hf].
    eapply Forall_impl; [exact (Forall_and_in _ _ (proj2 (Forall_and _ _) (conj Ho Hf)))|].
    intros [id rs] [(Hord & Hid & Hrs) Hin]. split_and!; [done..|]. exists [], None.
    rewrite app_nil_r. split; [by apply segs_dir_lookup|apply tail_end_nil]. }
  clearbody L.
  destruct (replay_segments_spec ck mb L (sorted_lt_NoDup _ (proj1 Hwf)) (segs_dir L) st0 Hst)
    as [(dir' & st' & Hrep & Hd & Ht & Hp & Hl & Hother)|(dir' & s' & lost & Hrep & Hlost & Hd & Hl & Hother)];
    rewrite Hrep; ostep.
  - assert (dir' = segs_dir L) as ->.
    { apply map_eq. intros id. destruct (decide (id ∈ L.*1 ∧ start_segment_id ck ≤ id)) as [[Hin Hge]|Hn].
      - apply list_elem_of_fmap in Hin as ([i rs] & -> & Hin). rewrite Forall_forall in Hl.
        rewrite (Hl (i, rs) Hin Hge). symmetry. by apply segs_dir_lookup.
      - apply Hother. destruct (Z.lt_ge_cases id (start_segment_id ck)); [by right|left; tauto]. }
    rewrite (checkpoint_after_position ck L ck
      (start_segment_id ck, match ck with None => 0 | Some c => last_flushed_offset c end) Hwf Ho).
    change (rp_total st0) with 0 in Ht. change (rp_sink st0) with sink in Hd.
    cbn [rp_last_segment rp_last_offset st0] in Hp. rewrite <-Hp, Ht.
    destruct (pending ck L) as [|x todo] eqn:Htodo; [left; by exists (rp_sink st')|].
    rewrite Z.add_0_l, (proj2 (Z.ltb_lt _ _)) by (cbn; lia). destruct save; [left; by exists (rp_sink st')|].
    right. exists (rp_sink st'), (x :: todo), SaveFailed. split; [done|]. split; [split; [reflexivity|by right]|done].
  - right. exists s', lost, SinkFailed. split; [|split; [split; [done|by left]|done]]. do 3 f_equal.
    apply map_eq. intros id. destruct (decide (id ∈ L.*1)) as [Hin|Hn]; [|by apply Hother].
    apply list_elem_of_fmap in Hin as ([i rs] & -> & Hin). rewrite Forall_forall in Hl.
    destruct (Hl (i, rs) Hin) as [Heq|Heq]; cbn in *; rewrite Heq; [done|].
    symmetry. by apply segs_dir_lookup.
Qed.

(** A replay whose checkpoint leaves nothing does nothing. *)
Lemma replay_segments_nothing ck mb l st dir :
  stored dir l → pending ck l = [] → rp_batch st = [] → rp_batch_bytes st = 0 → rp_max_offset st = None →
  replay_segments dir ck mb l.*1 st = Ok (dir, st).
Proof.
  intros Hst Hp Hb Hbb Hm. revert Hp. induction Hst as [|[id rs] l (Hid & Hrs & Hdir) _ IH]; intros Hp; [done|].
  assert (seg_pending ck (id, rs) = [] ∧ pending ck l = []) as [Hs Hl] by by apply app_nil in Hp.
  cbn [fmap list_fmap fst replay_segments]. unfold seg_pending in Hs. cbn [fst snd] in *.
  destruct (id <? start_segment_id ck); [by apply IH|].
  destruct (read_segment_records (replay_record ck mb id) id rs [] None
    (mkReplaySt [] 0 None (rp_total st) (rp_last_segment st) (rp_last_offset st) (rp_sink st))
    Hid Hrs (tail_end_nil _)) as (rd & Ho & Hr). rewrite app_nil_r in *.
  assert (segment_open dir id = Ok rd) as -> by (unfold segment_open; by rewrite Hdir).
  assert (∀ st0, ofold (replay_record ck mb id) st0 rs = Ok st0) as Hskip.
  { clear -Hs. induction rs as [|r rs IH]; intros st0; [done|]. rewrite filter_cons in Hs.
    case_decide as Hf; [done|]. cbn [ofold].
    assert (replay_record ck mb id st0 r = Ok st0) as ->; [|ostep; by apply IH].
    unfold replay_record. by destruct (already_flushed ck id r). }
  rewrite Hr, Hskip. ostep. cbn [rp_batch]. rewrite bool_decide_eq_true_2 by done. ostep.
  rewrite <-Hb, <-Hbb, <-Hm. destruct st. cbn in *. by apply IH.
Qed.

Lemma replay_nothing save l ck mb sink :
  segs_wf l → pending ck l = [] → replay save (segs_dir l) ck mb sink = Ok (segs_dir l, ck, sink, 0).
Proof.
  intros Hwf Hp. unfold replay. rewrite list_segments_segs by done.
  destruct (l.*1) as [|z zs] eqn:Hz; [done|]. cbn beta iota. rewrite <-Hz.
  rewrite (replay_segments_nothing ck mb l) by (try done; by apply segs_wf_stored). by ostep.
Qed.

Lemma seg_pending_nil ck id : seg_pending ck (id, []) = [].
Proof. unfold seg_pending. by destruct (_ <? _). Qed.

(** What [Wal::open] finds in a recoverable image: the log before, possibly
    followed by an empty segment, and a torn tail behind it. *)
Lemma recoverable_image fs wal img l id rs :
  wal_on fs wal (l ++ [(id, rs)]) → id < u64_max → crash_image fs wal Recoverable img →
  ∃ l2 id2 rs2 tail e,
    (l2 ++ [(id2, rs2)] = l ++ [(id, rs)] ∨ l2 = l ++ [(id, rs)] ∧ id2 = id + 1 ∧ rs2 = []) ∧
    segs_wf (l2 ++ [(id2, rs2)]) ∧ id2 < u64_max ∧
    fs_segments img = <[id2 := segment_bytes id2 rs2 ++ tail]> (segs_dir (l2 ++ [(id2, rs2)])) ∧
    tail_end tail (zlen (segment_bytes id2 rs2)) e ∧
    (e = None ∨ ∃ er, e = Some (SegmentRecord er) ∧ is_torn_write er = true).
Proof.
  intros (Hfs & Hwf & Hw)%wal_on_inv Hid Himg.
  assert (segs_dir (l ++ [(id, rs)]) !! id = Some (segment_bytes id rs)) as Hlook
    by (apply segs_dir_lookup; [done|]; apply elem_of_app; right; by left).
  inversion Himg as [|content tail e Hc Hte He|tail e cur Hlt Hte He| |]; subst; cbn [fs_segments]; rewrite Hfs in *.
  - exists l, id, rs, [], None. rewrite app_nil_r, insert_id by done.
    split_and!; [by left|done|done|done|apply tail_end_nil|by left].
  - rewrite Hw in *. cbn [w_segment_id] in *. rewrite Hlook in Hc. injection Hc as <-.
    exists l, id, rs, tail, (Some (SegmentRecord e)). split_and!; [by left|done|done|done|done|right; eauto].
  - rewrite Hw in *. cbn [w_segment_id] in *.
    assert (segs_wf ((l ++ [(id, rs)]) ++ [(id + 1, [])])) as Hwf1.
    { apply wal_at_fresh_wf; [done|]. apply segs_wf_snoc in Hwf as (_ & _ & ? & _). unfold u64_range in *. lia. }
    exists (l ++ [(id, rs)]), (id + 1), [], tail, e. rewrite segment_bytes_nil, length_segment_header.
    split_and!; [by right|done|done| |done|done].
    by rewrite (segs_dir_snoc _ (id + 1)), insert_insert_eq.
Qed.

(** Reopening after a crash: the log is the one before, possibly followed by
    a fresh segment, or two. *)
Lemma reopen_spec fs wal img l id rs max_bytes guard :
  wal_on fs wal (l ++ [(id, rs)]) → id < u64_max → crash_image fs wal Recoverable img →
  ∃ fs' wal' l' id' rs', wal_open img max_bytes guard = Ok (fs', wal') ∧
    wal_on fs' wal' (l' ++ [(id', rs')]) ∧ 0 < offset_counter wal' ∧
    Forall (λ r, assigned_offset r < offset_counter wal') rs' ∧
    ((l' ++ [(id', rs')] = l ++ [(id, rs)] ∧ offset_counter wal' = max_offset_of rs + 1) ∨
     id < id' ∧ rs' = [] ∧ ∃ fresh, l' = l ++ [(id, rs)] ++ fresh ∧ Forall (λ s, s.2 = []) fresh).
Proof.
  intros Hon Hid Himg.
  destruct (recoverable_image fs wal img l id rs Hon Hid Himg)
    as (l2 & id2 & rs2 & tail & e & Hl2 & Hwf2 & Hid2 & Hseg & Hte & He).
  destruct img as [dir cur]. cbn [fs_segments] in Hseg. subst dir.
  rewrite (wal_open_cut l2 id2 rs2 tail e) by done.
  pose proof (proj1 (max_offset_of_acc rs2 0)) as Hnn. fold (max_offset_of rs2) in Hnn.
  destruct (max_bytes <=? zlen (segment_bytes id2 rs2)).
  - do 2 eexists. exists (l2 ++ [(id2, rs2)]), (id2 + 1), []. split; [done|].
    split; [by apply wal_at_on, wal_at_fresh|]. cbn [offset_counter]. split; [lia|]. split; [done|]. right.
    destruct Hl2 as [Heq|(-> & -> & ->)].
    + apply app_inj_tail in Heq as [-> [= -> ->]]. split; [lia|]. split; [done|]. exists [].
      rewrite app_nil_r. by split.
    + split; [lia|]. split; [done|]. exists [(id + 1, [])]. rewrite <-app_assoc. split; [done|]. by repeat constructor.
  - do 2 eexists. exists l2, id2, rs2. split; [done|]. split.
    { split_and!; [done|done|]. by exists l2, id2, rs2. }
    cbn [offset_counter]. split; [lia|]. split; [apply max_offset_of_lt|].
    destruct Hl2 as [Heq|(-> & -> & ->)].
    + left. split; [done|]. by apply app_inj_tail in Heq as [_ [= _ ->]].
    + right. split; [lia|]. split; [done|]. exists []. by rewrite app_nil_r.
Qed.

Lemma max_offset_of_nonneg rs : 0 ≤ max_offset_of rs.
Proof. apply (max_offset_of_acc rs 0). Qed.

Lemma pending_fresh ck fresh : Forall (λ s : Z * list WalRecord, s.2 = []) fresh → pending ck fresh = [].
Proof.
  unfold pending. induction 1 as [|[id rs] fresh Hs _ IH]; [done|]. cbn in *. subst rs.
  by rewrite seg_pending_nil, IH.
Qed.

(** What reopening keeps of the invariant, before the replay. *)
Lemma reopen_inv d0 fs wal ck d img max_bytes guard hist n :
  log_inv d0 fs wal ck d hist n →
  w_segment_id (wal_writer wal) < u64_max → crash_image fs wal Recoverable img →
  ∃ fs' wal', wal_open img max_bytes guard = Ok (fs', wal') ∧ log_inv d0 fs' wal' ck d hist n.
Proof.
  intros (l & id & rs & don & Hon & Ho & Hlt & Hnn & Hid & Hck & Hh & Hd) Hidm Himg.
  pose proof (wal_on_inv _ _ _ _ _ Hon) as (_ & _ & Hw). rewrite Hw in Hidm. cbn in Hidm.
  destruct (reopen_spec fs wal img l id rs max_bytes guard Hon Hidm Himg)
    as (fs' & wal' & l' & id' & rs' & Hopen & Hon' & Hc0 & Hlt' & Hl).
  exists fs', wal'. split; [done|]. exists l', id', rs', don.
  destruct Hl as [[Heq Hc]|(Hgt & -> & fresh & -> & Hfresh)].
  - apply app_inj_tail in Heq as Heq'. destruct Heq' as [-> [= -> ->]].
    split_and!; [done|done|done|lia|done| |done|done].
    destruct ck as [cp|]; [|done]. destruct Hck as [? Hck]. split; [done|].
    intros Hcp. destruct (Hck Hcp). lia.
  - split_and!; [done| |done|lia|lia| | |done].
    + unfold log_ordered in *. rewrite app_assoc.
      apply Forall_app_2; [apply Forall_app_2; [done|]|by repeat constructor].
      eapply Forall_impl; [exact Hfresh|]. intros [j xs]. cbn. intros ->. constructor.
    + destruct ck as [cp|]; [|done]. destruct Hck. split; lia.
    + rewrite pending_app, pending_single, seg_pending_nil, app_nil_r.
      by rewrite app_assoc, pending_app, (pending_fresh _ fresh), app_nil_r.
Qed.

(** A replay keeps the invariant: one that succeeds has delivered everything,
    one that fails has delivered a part of it that the checkpoint does not
    cover. *)
Lemma replay_inv_sys d0 save fs wal ck sink mb hist n :
  log_inv d0 fs wal ck (delivered sink) hist n →
  ∃ don todo, hist = don ++ todo ∧ delivers d0 hist don n (delivered sink) ∧
  ((∃ ck' sink', replay save (fs_segments fs) ck mb sink = Ok (fs_segments fs, ck', sink', zlen todo) ∧
    delivered sink' = delivered sink ++ todo ∧
    log_inv d0 fs wal ck' (delivered sink') hist n) ∨
  ∃ sink' lost e, replay save (fs_segments fs) ck mb sink = Err (fs_segments fs, sink', e) ∧
    replay_error save todo lost e ∧ delivered sink' = delivered sink ++ lost ∧
    log_inv d0 fs wal ck (delivered sink') hist (n + 1)).
Proof.
  intros (l & id & rs & don & Hon & Ho & Hlt & Hnn & Hid & Hck & Hh & Hd).
  pose proof (wal_on_inv _ _ _ _ _ Hon) as (Hfs & Hwf & _). rewrite Hfs.
  exists don, (pending ck (l ++ [(id, rs)])). split; [done|]. split; [done|].
  destruct (replay_spec save (l ++ [(id, rs)]) ck mb sink Hwf Ho)
    as [(sink' & Hrep & Hd')|(sink' & lost & e & Hrep & He & Hd')]; [left|right].
  - do 2 eexists. split; [exact Hrep|]. split; [done|].
    exists l, id, rs, (don ++ pending ck (l ++ [(id, rs)])). split_and!; try done.
    + eapply ck_within_after; [done|by rewrite app_nil_r|done|done].
    + pose proof (pending_advance ck (l ++ [(id, rs)]) []) as Hadv. rewrite app_nil_r in Hadv.
      specialize (Hadv Hwf Ho). rewrite Hh at 1. rewrite <-app_assoc. f_equal. symmetry. by apply Hadv.
    + rewrite Hd'. pose proof (delivers_pass d0 hist don n 0 (delivered sink) (pending ck (l ++ [(id, rs)])) []
        Hd ltac:(apply sublist_nil_l) (or_introl eq_refl)) as Hp. by rewrite app_nil_r, Nat.add_0_r in Hp.
  - exists sink', lost, e. split; [done|]. split; [exact He|]. split; [exact Hd'|].
    exists l, id, rs, don. split_and!; try done. rewrite Hd'.
    assert (lost `sublist_of` hist) as Hsub by (rewrite Hh; apply sublist_inserts_l, He).
    pose proof (delivers_pass d0 hist don n 1 (delivered sink) [] lost Hd Hsub (or_intror eq_refl)) as Hp.
    by rewrite app_nil_r in Hp.
Qed.

End Steps.

Section Reachable.
Context `{Crc32} {Σ : Type} `{FlushSink Σ}.
Implicit Types (l : segs) (ck : option Checkpoint).

(** The invariant holds of every reachable state. *)
Lemma reach_inv (s0 : Σ) s hist n : reach s0 s hist n → sys_inv s0 s hist n.
Proof.
  unfold sys_inv. induction 1 as [mb guard fs wal Ho|s hist n new m s' _ IH Hstep].
  - unfold wal_open in Ho. cbn in Ho. injection Ho as <- <-.
    exists [], 0, [], []. cbn [sys_fs sys_wal sys_ck sys_sink].
    assert (delivers (delivered s0) [] [] 0 (delivered s0)) as Hd by (apply delivers_0; by rewrite app_nil_r).
    split; [|split; [by repeat constructor|]; split; [constructor|]; by split_and!; try done].
    split_and!; cbn; [by rewrite segment_bytes_nil| |].
    + apply (bool_decide_eq_true_1 _). done.
    + exists [], 0, []. by rewrite segment_bytes_nil, length_segment_header.
  - destruct Hstep; cbn [sys_fs sys_wal sys_ck sys_sink] in *; rewrite ?app_nil_r, ?Nat.add_0_r.
    + by eapply step_append_inv.
    + by eapply step_rejected_inv.
    + by eapply step_check_inv.
    + by refine (step_flush_inv _ save _ _ _ (mkMortal sink life) _ sink' _ _ _ _ IH).
    + by eapply step_janitor_inv.
    + edestruct reopen_inv as (fs1 & wal1 & Ho1 & Hinv1); [done|done|done|].
      rewrite Ho1 in *. simplify_eq.
      change (delivered sink) with (delivered (mkMortal sink life)) in Hinv1.
      destruct (replay_inv_sys (delivered s0) save fs' wal' ck (mkMortal sink life) mb hist n Hinv1)
        as (don & todo & _ & _ & [(ck2 & sink2 & Hrep & _ & Hinv2)|(sink2 & lost & e & Hrep & _)]);
        rewrite Hrep in *; simplify_eq. by destruct fs'.
    + edestruct reopen_inv as (fs1 & wal1 & Ho1 & Hinv1); [done|done|done|].
      rewrite Ho1 in *. simplify_eq.
      change (delivered sink) with (delivered (mkMortal sink life)) in Hinv1.
      destruct (replay_inv_sys (delivered s0) save fs' wal' ck (mkMortal sink life) mb hist n Hinv1)
        as (don & todo & _ & _ & [(ck2 & sink2 & Hrep & _ & Hinv2)|(sink2 & lost & e2 & Hrep & _ & _ & Hinv2)]);
        rewrite Hrep in *; simplify_eq. by destruct fs'.
Qed.

(** The images [Wal::open] does not recover. *)
Lemma wal_open_torn_header fs wal l id rs img max_bytes guard :
  wal_on fs wal (l ++ [(id, rs)]) → w_segment_id (wal_writer wal) + 1 < u64_max →
  crash_image fs wal TornHeader img →
  wal_open img max_bytes guard = Err (WalSegmentError (SegmentIo UnexpectedEof)).
Proof.
  intros (Hfs & Hwf & Hw)%wal_on_inv Hid Himg. rewrite Hw in Hid. cbn in Hid.
  inversion Himg as [| | |m Hm|]; subst. rewrite Hfs, Hw. cbn [w_segment_id].
  rewrite <-(insert_insert_eq _ (id + 1) _ (segment_bytes (id + 1) [])), <-segs_dir_snoc.
  - apply wal_open_short_header; [|rewrite length_take; lia].
    apply wal_at_fresh_wf; [done|]. apply segs_wf_snoc in Hwf as (_ & _ & ? & _). unfold u64_range in *. lia.
  - apply wal_at_fresh_wf; [done|]. apply segs_wf_snoc in Hwf as (_ & _ & ? & _). unfold u64_range in *. lia.
Qed.

Lemma wal_open_zeros fs wal l id rs img max_bytes guard :
  wal_on fs wal (l ++ [(id, rs)]) → crash_image fs wal ZeroTail img →
  wal_open img max_bytes guard = Panic.
Proof.
  intros (Hfs & Hwf & Hw)%wal_on_inv Himg. inversion Himg as [| | | |content n Hc Hn]; subst.
  rewrite Hfs, Hw in *. cbn [w_segment_id] in *.
  rewrite (segs_dir_lookup _ id rs Hwf) in Hc by (apply elem_of_app; right; by left).
  injection Hc as <-. by apply wal_open_zero_tail.
Qed.

Lemma reach_more (s0 : Σ) s hist n new s' :
  reach s0 s hist n → sys_step s new 0 s' → reach s0 s' (hist ++ new) n.
Proof. intros Hr Hs. rewrite <-(Nat.add_0_r n). by eapply ReachStep. Qed.

Lemma reach_quiet (s0 : Σ) s hist n s' : reach s0 s hist n → sys_step s [] 0 s' → reach s0 s' hist n.
Proof. intros Hr Hs. rewrite <-(app_nil_r hist). by eapply reach_more. Qed.

(** A property of the sink that [flush_records] keeps, a pass keeps; and a sink
    that never refuses makes it reach the end. *)
Lemma flush_once_sink (P : Σ → Prop) save fs wal l id rs ck sink ck' sink' res :
  (∀ s batch, P s → P (flush_records s batch).1 ∧ (flush_records s batch).2 = true) →
  (∀ i, save i = true) → P sink → wal_on fs wal (l ++ [(id, rs)]) →
  flush_once save (fs_segments fs) wal ck sink = (ck', sink', res) → P sink' ∧ is_ok res = true.
Proof.
  intros HP Hsave Hs Hat Hfl.
  assert (∀ segs c s c' s' r, P s → flush_segments save (fs_segments fs) (w_segment_id (wal_writer wal)) ck segs c s =
    (c', s', r) → P s' ∧ r ≠ Err SinkFailed) as Hgo.
  { induction segs as [|i segs IH]; intros c s c' s' r HPs Hf; cbn [flush_segments] in Hf; [by simplify_eq|].
    destruct (i <? start_segment_id ck); [by eapply IH|].
    destruct (segment_open (fs_segments fs) i) as [rd|e|]; [|by simplify_eq..].
    destruct (read_segment _ _ _) as [[[[batch m] rd'] stop]|e|]; [|by simplify_eq..].
    destruct m as [m|].
    - destruct (HP s batch HPs) as [HP1 Hok]. destruct (flush_records s batch) as [s1 ok]. cbn in HP1, Hok.
      subst ok. rewrite Hsave in Hf. destruct (_ =? _); [by simplify_eq|by eapply IH].
    - destruct (_ =? _); [by simplify_eq|by eapply IH]. }
  destruct (flush_once_spec _ _ _ _ _ _ _ _ _ _ _ Hat Hfl) as (l1 & l2 & lost & _ & _ & _ & Hr).
  unfold flush_once in Hfl. destruct (list_segments (fs_segments fs)) as [|z zs] eqn:Hz; [by simplify_eq|].
  destruct (flush_segments _ _ _ _ _ _) as [[c s] r] eqn:Hf. destruct (Hgo _ _ _ _ _ _ Hs Hf) as [HPs Hne].
  simplify_eq. split; [done|]. destruct Hr as [[? _]|[_ [Hr|[_ [i Hi]]]]]; [done| |by rewrite Hsave in Hi].
  destruct r as [|e|]; [done| |done]. cbn in Hr. congruence.
Qed.

(** After a pass that reached the end, a restart replays nothing, whatever the
    state of the sink it is started with. *)
Lemma restart_after_flush (s0 : Σ) save fs wal ck sink hist n ck' sink' res img max_bytes guard save2 mb sink2 :
  reach s0 (mkSys fs wal ck sink) hist n →
  flush_once save (fs_segments fs) wal ck sink = (ck', sink', res) → is_ok res = true →
  w_segment_id (wal_writer wal) < u64_max → crash_image fs wal Recoverable img →
  delivers (delivered s0) hist hist n (delivered sink') ∧
  ∃ fs' wal', wal_open img max_bytes guard = Ok (fs', wal') ∧
    replay save2 (fs_segments fs') ck' mb sink2 = Ok (fs_segments fs', ck', sink2, 0).
Proof.
  intros Hreach Hfl Hok Hid Himg. apply reach_inv in Hreach as Hinv.
  destruct (Hinv) as (l & id & rs & don & Hon & Ho & _ & _ & _ & _ & Hh & Hd).
  cbn [sys_fs sys_wal sys_ck sys_sink] in *.
  destruct (flush_once_spec _ _ _ _ _ _ _ _ _ _ _ Hon Hfl)
    as (l1 & l2 & lost & Heq & -> & Hd' & [(_ & -> & ->)|[_ [->|[-> _]]]]); [|done..].
  rewrite app_nil_r in Heq. subst l1.
  pose proof (wal_on_inv _ _ _ _ _ Hon) as (_ & Hwf & _).
  split.
  { rewrite Hd'. rewrite Hh at 2. rewrite <-(Nat.add_0_r n).
    apply delivers_pass; [done|apply sublist_nil_l|by left]. }
  pose proof (pending_advance ck (l ++ [(id, rs)]) []) as Hadv. rewrite app_nil_r in Hadv.
  specialize (Hadv Hwf Ho). rewrite <-(app_nil_r (pending ck (l ++ [(id, rs)]))) in Hadv at 2.
  apply app_inv_head in Hadv. pose proof (wal_on_inv _ _ _ _ _ Hon) as (_ & _ & Hw).
  rewrite Hw in Hid. cbn in Hid.
  destruct (reopen_spec fs wal img l id rs max_bytes guard Hon Hid Himg)
    as (fs' & wal' & l' & id' & rs' & Hopen & Hon' & _ & _ & Hl).
  exists fs', wal'. split; [done|]. pose proof (wal_on_inv _ _ _ _ _ Hon') as (Hfs & Hwf' & _). rewrite Hfs.
  apply replay_nothing; [done|]. destruct Hl as [[-> _]|(_ & -> & fresh & -> & Hfresh)]; [done|].
  rewrite pending_app, pending_single, seg_pending_nil, app_nil_r, app_assoc, pending_app, Hadv.
  by apply pending_fresh.
Qed.
End Reachable.

(** ** Concurrent appends

    [append] is admission, then taking an offset, then the write under the
    writer lock; another thread may run between the last two. *)
Definition take_offset (wal : Wal) : Wal * Z :=
  (mkWal (wal_writer wal) (u64_wrap (offset_counter wal + 1)) (segment_max_bytes wal) (disk_guard wal),
   offset_counter wal).

Definition write_record `{Crc32} (fs : WalFs) (wal : Wal) (r : WalRecord) (off : Z) (env : AppendEnv) :
    WalFs * Wal * outcome AppendError WalRecord :=
  let '(fs, wal, res) := locked_write fs wal (serialize (with_offset r off)) env in
  (fs, wal, (λ _, with_offset r off) <$> res).

Section Concurrent.
Context `{Crc32}.

Lemma append_steps fs wal r env g :
  admit_ (disk_guard wal) (env_now env) (env_sample env) = (g, Ok ()) →
  append fs wal r env =
    let '(wal, off) := take_offset (mkWal (wal_writer wal) (offset_counter wal) (segment_max_bytes wal) g) in
    write_record fs wal r off env.
Proof. intros Hadm. unfold append. by rewrite Hadm. Qed.

Lemma write_record_ok fs wal l id rs r off env :
  wal_at fs wal (l ++ [(id, rs)]) → env_ok env → wf_record r → u64_range off → id < u64_max →
  ∃ fs' wal', write_record fs wal r off env = (fs', wal', Ok (with_offset r off)) ∧
    wal_at fs' wal' (log_append l id rs (needs_rotation wal (with_offset r off)) (with_offset r off)) ∧
    offset_counter wal' = offset_counter wal ∧ segment_max_bytes wal' = segment_max_bytes wal.
Proof.
  intros Hat Henv Hr Hoff Hid. unfold write_record.
  pose proof (wal_at_inv _ _ _ _ _ Hat) as (Hfs & Hwf & Hw & Hcur). apply wal_at_on in Hat.
  destruct (locked_write_ok fs wal l id rs (with_offset r off) env) as (fs' & w & Hlw & Hon & Hc); try done.
  { by apply wf_with_offset. }
  { apply segs_wf_snoc in Hwf as (_ & _ & ? & _). unfold u64_range in *. lia. }
  rewrite Hlw. do 2 eexists. split; [done|]. split; [|done].
  apply log_append_wal_at; [exact Hon|]. rewrite Hc, Hcur. by destruct (needs_rotation _ _).
Qed.

Lemma no_rotation wal l id rs r :
  w_current_size (wal_writer wal) = zlen (segment_bytes id rs) →
  zlen (segment_bytes id rs) + zlen (serialize r) ≤ segment_max_bytes wal →
  log_append l id rs (needs_rotation wal r) r = l ++ [(id, rs ++ [r])].
Proof.
  intros Hw Hfit. unfold needs_rotation. rewrite Hw. by rewrite (proj2 (Z.ltb_ge _ _)) by lia.
Qed.

(** A checkpoint at or past every offset of the last segment leaves nothing. *)
Lemma pending_passed l id rs off v :
  segs_wf (l ++ [(id, rs)]) → Forall (λ r, assigned_offset r ≤ off) rs →
  pending (Some (mkCheckpoint id off v)) (l ++ [(id, rs)]) = [].
Proof.
  intros (_ & Hids & _)%segs_wf_snoc Hoffs. rewrite pending_app, pending_single.
  rewrite pending_earlier; cbn.
  - unfold seg_pending. cbn. rewrite Z.ltb_irrefl. apply filter_none. intros r Hr.
    rewrite Forall_forall in Hoffs. unfold already_flushed. cbn.
    by rewrite Z.eqb_refl, andb_true_r, (proj2 (Z.leb_le _ _)) by by apply Hoffs.
  - apply Forall_forall. intros s Hs. rewrite Forall_forall in Hids.
    apply Hids, list_elem_of_fmap. by exists s.
Qed.

Lemma checkpoint_after_nothing ck0 l ck : pending ck0 l = [] → checkpoint_after ck0 l ck = ck.
Proof.
  revert ck. induction l as [|s l IH]; intros ck; [done|].
  change (pending ck0 (s :: l)) with (seg_pending ck0 s ++ pending ck0 l).
  intros [Hs Hl]%app_nil. cbn. rewrite Hs. by apply IH.
Qed.

(** A flush pass with nothing pending changes nothing. *)
Lemma flush_nothing {Σ : Type} `{FlushSink Σ} save fs wal l id rs ck (sink : Σ) ck' sink' res :
  wal_at fs wal (l ++ [(id, rs)]) → pending ck (l ++ [(id, rs)]) = [] →
  flush_once save (fs_segments fs) wal ck sink = (ck', sink', res) →
  ck' = ck ∧ delivered sink' = delivered sink.
Proof.
  intros Hat%wal_at_on Hp Hfl. destruct (flush_once_spec _ _ _ _ _ _ _ _ _ _ _ Hat Hfl)
    as (l1 & l2 & lost & Heq & -> & Hd & Hres).
  rewrite Heq, pending_app in Hp. apply app_nil in Hp as [Hp Hp2].
  assert (lost = []) as -> by (destruct Hres as [(_ & _ & ?)|[Hl _]]; [done|]; rewrite Hp2 in Hl;
    by apply sublist_nil_r).
  rewrite Hd, Hp, app_nil_r. split; [by apply checkpoint_after_nothing|done].
Qed.

(** The checkpoint after a pass over a log whose last record is pending. *)
Lemma checkpoint_after_last ck l id rs r :
  ordered (rs ++ [r]) → 0 ≤ assigned_offset r →
  seg_pending ck (id, rs ++ [r]) = seg_pending ck (id, rs) ++ [r] →
  checkpoint_after ck (l ++ [(id, rs ++ [r])]) ck = Some (mkCheckpoint id (assigned_offset r) 1).
Proof.
  intros Ho Hr Hp. rewrite checkpoint_after_snoc, Hp.
  assert (max_offset_of (seg_pending ck (id, rs) ++ [r]) = assigned_offset r) as Hm.
  { apply max_offset_of_ordered; [|done]. unfold seg_pending. cbn. destruct (id <? _); [repeat constructor|].
    by apply ordered_filter_snoc. }
  destruct (seg_pending ck (id, rs) ++ [r]) eqn:Hs; [by destruct (seg_pending ck (id, rs))|].
  cbn [fst]. by rewrite Hm.
Qed.
End Concurrent.

(** ** Properties *)

Section Properties.
Context `{Crc32} {Σ : Type} `{FlushSink Σ}.

(** C1: Nothing acknowledged is lost on the way to the sink. Take any run of
    appends (that succeed or that the free-space guard refuses), flush passes,
    janitor passes, crashes and restarts, where a pass or a replay may end at
    any point, between the batch and the checkpoint that records it too. The
    records acknowledged are those handed to the sink, in order, followed by
    those still to hand over; what the sink has beyond them is at most one run
    of acknowledged records again for each pass that failed, so without a
    failure every record is there once. From there a flush pass, unless the
    sink refuses a batch or a checkpoint is not saved, leaves the sink with
    every acknowledged record. *)
Theorem acknowledged_delivered (s0 : Σ) s hist n :
  reach s0 s hist n →
  (∃ don todo, hist = don ++ todo ∧ delivers (delivered s0) hist don n (delivered (sys_sink s))) ∧
  (n = 0%nat → ∃ todo, delivered (sys_sink s) ++ todo = delivered s0 ++ hist) ∧
  ∀ save ck' sink' res,
    flush_once save (fs_segments (sys_fs s)) (sys_wal s) (sys_ck s) (sys_sink s) = (ck', sink', res) →
    (is_ok res = true ∧ delivers (delivered s0) hist hist n (delivered sink') ∧
      (n = 0%nat → delivered sink' = delivered s0 ++ hist)) ∨
    res = Err SinkFailed ∨ (res = Err SaveFailed ∧ ∃ id, save id = false).
Proof.
  intros Hreach. destruct (reach_inv s0 s hist n Hreach) as (l & id & rs & don & Hon & _ & _ & _ & _ & _ & Hh & Hd).
  split; [by exists don, (pending (sys_ck s) (l ++ [(id, rs)]))|]. split.
  { intros ->. apply delivers_0 in Hd. rewrite Hd, Hh. eexists. by rewrite <-app_assoc. }
  intros save ck' sink' res Hfl.
  destruct (flush_once_spec _ _ _ _ _ _ _ _ _ _ _ Hon Hfl)
    as (l1 & l2 & lost & Heq & _ & Hd' & [(Hr & -> & ->)|[_ Hr]]); [left|by right].
  split; [done|]. rewrite app_nil_r in Heq. subst l1.
  assert (delivers (delivered s0) hist hist n (delivered sink')) as Hall.
  { rewrite Hd'. rewrite Hh at 2. rewrite <-(Nat.add_0_r n).
    apply delivers_pass; [done|apply sublist_nil_l|by left]. }
  split; [done|]. intros ->. by apply delivers_0 in Hall.
Qed.

(** C3: What a restart does with every crash. A log the process left while it
    appended or rotated, whatever it had written of a record by then, is
    opened, and the replay hands the sink exactly the acknowledged records the
    checkpoint does not cover, counts them and leaves the segments alone; it
    ends early only when the sink refuses a batch or the checkpoint is not
    saved. A log whose new segment has a part of its header only is not opened
    again, and one with four zero bytes or more behind its records panics. *)
Theorem restart_recovers_all (s0 : Σ) s hist n damage img max_bytes guard save mb :
  reach s0 s hist n → w_segment_id (wal_writer (sys_wal s)) + 1 < u64_max →
  crash_image (sys_fs s) (sys_wal s) damage img →
  match damage with
  | Recoverable => ∃ fs' wal' don todo,
      wal_open img max_bytes guard = Ok (fs', wal') ∧
      hist = don ++ todo ∧ delivers (delivered s0) hist don n (delivered (sys_sink s)) ∧
      ((∃ ck' sink',
          replay save (fs_segments fs') (sys_ck s) mb (sys_sink s) =
            Ok (fs_segments fs', ck', sink', zlen todo) ∧
          delivered sink' = delivered (sys_sink s) ++ todo) ∨
       (∃ sink' lost e,
          replay save (fs_segments fs') (sys_ck s) mb (sys_sink s) = Err (fs_segments fs', sink', e) ∧
          replay_error save todo lost e ∧ delivered sink' = delivered (sys_sink s) ++ lost))
  | TornHeader => wal_open img max_bytes guard = Err (WalSegmentError (SegmentIo UnexpectedEof))
  | ZeroTail => wal_open img max_bytes guard = Panic
  end.
Proof.
  intros Hreach Hid Himg. apply reach_inv in Hreach. destruct s as [fs wal ck sink].
  unfold sys_inv in Hreach. cbn [sys_fs sys_wal sys_ck sys_sink] in *. destruct damage.
  - destruct (reopen_inv (delivered s0) fs wal ck (delivered sink) img max_bytes guard hist n Hreach ltac:(lia) Himg)
      as (fs' & wal' & Hopen & Hinv).
    destruct (replay_inv_sys (delivered s0) save fs' wal' ck sink mb hist n Hinv)
      as (don & todo & Hh & Hd & Hcases).
    exists fs', wal', don, todo. split; [done|]. split; [done|]. split; [exact Hd|].
    destruct Hcases as [(ck' & sink' & ? & ? & _)|(sink' & lost & e & ? & ? & ? & _)]; [left|right].
    + by exists ck', sink'.
    + by exists sink', lost, e.
  - destruct Hreach as (l & id & rs & _ & Hon & _). by eapply wal_open_torn_header.
  - destruct Hreach as (l & id & rs & _ & Hon & _). by eapply wal_open_zeros.
Qed.

(** C37: Janitor safety: a pass deletes whole sealed segments only, none that holds a
    record the checkpoint leaves to deliver; every segment older than both the
    active and the checkpointed one goes. *)
Theorem janitor_deletes_only_delivered fs wal l cp :
  wal_at fs wal l →
  ∃ l', cleanup_once (fs_segments fs) wal (Some cp) = segs_dir l' ∧
    segs_wf l' ∧ last l' = last l ∧ pending (Some cp) l' = pending (Some cp) l ∧
    ∀ s, s ∈ l' ↔ s ∈ l ∧
      (w_segment_id (wal_writer wal) ≤ s.1 ∨ last_flushed_segment_id cp ≤ s.1).
Proof.
  intros (Hfs & Hwf & init & id & rs & -> & Hw & Hcur). unfold cleanup_once.
  rewrite Hfs, janitor_segs by done. rewrite Hw. cbn [w_segment_id].
  eexists. split; [done|]. split; [by apply segs_wf_filter|]. split; [|split; [apply janitor_pending|]].
  - rewrite filter_app, filter_cons_True, filter_nil, !last_snoc; [done|].
    unfold janitor_keeps. cbn. by rewrite Z.leb_refl.
  - intros s. rewrite list_elem_of_filter. unfold janitor_keeps.
    rewrite orb_true_iff, !Z.leb_le. tauto.
Qed.

(** Concurrent appends can lose an acknowledged record. Offsets are taken
    before the writer lock, so the record with the higher offset may be written
    first; when a flush pass runs before the other is written, the checkpoint
    has passed its offset, and no later pass delivers it, although its append
    was acknowledged. *)
Theorem reordered_append_is_skipped fs wal l id rs ra rb env ck sink :
  wal_at fs wal (l ++ [(id, rs)]) → env_ok env → wf_record ra → wf_record rb →
  0 ≤ offset_counter wal → offset_counter wal + 1 < u64_max → id < u64_max →
  Forall (λ r, assigned_offset r < offset_counter wal) rs → log_ordered (l ++ [(id, rs)]) →
  ck_within ck id rs (offset_counter wal) → 0 ≤ id →
  let n := offset_counter wal in
  zlen (segment_bytes id rs) + zlen (serialize (with_offset ra n)) +
    zlen (serialize (with_offset rb (n + 1))) ≤ segment_max_bytes wal →
  let '(wal_a, off_a) := take_offset wal in
  let '(wal_b, off_b) := take_offset wal_a in
  ∃ fs1 wal1 fs2 wal2,
    write_record fs wal_b rb off_b env = (fs1, wal1, Ok (with_offset rb (n + 1))) ∧
    write_record fs1 wal1 ra off_a env = (fs2, wal2, Ok (with_offset ra n)) ∧
    ∀ save ck1 sink1 res, flush_once save (fs_segments fs1) wal1 ck sink = (ck1, sink1, res) →
      is_ok res = true →
      delivered sink1 = delivered sink ++ pending ck (l ++ [(id, rs)]) ++ [with_offset rb (n + 1)] ∧
      ∀ save2 ck2 sink2 res2, flush_once save2 (fs_segments fs2) wal2 ck1 sink1 = (ck2, sink2, res2) →
        ck2 = ck1 ∧ delivered sink2 = delivered sink1.
Proof.
  intros Hat Henv Hra Hrb Hn Hn2 Hidm Hlt Ho Hck Hid n Hfit. unfold take_offset.
  cbn [offset_counter wal_writer segment_max_bytes disk_guard]. fold n.
  rewrite (u64_wrap_succ n), (u64_wrap_succ (n + 1)) by lia.
  set (wal_b := mkWal _ (n + 1 + 1) _ _). set (rb' := with_offset rb (n + 1)) in *.
  set (ra' := with_offset ra n) in *.
  pose proof (wal_at_inv _ _ _ _ _ Hat) as (Hfs & Hwf & Hw & _).
  destruct (write_record_ok fs wal_b l id rs rb (n + 1) env Hat Henv Hrb)
    as (fs1 & wal1 & Hwb & Hat1 & _ & Hm1); [unfold u64_range; lia|done|].
  fold rb' in Hwb, Hat1. rewrite no_rotation in Hat1 by (cbn; rewrite ?Hw; cbn; lia).
  pose proof (wal_at_inv _ _ _ _ _ Hat1) as (Hfs1 & Hwf1 & Hw1 & _).
  destruct (write_record_ok fs1 wal1 l id (rs ++ [rb']) ra n env Hat1 Henv Hra)
    as (fs2 & wal2 & Hwa & Hat2 & _ & _); [unfold u64_range; lia|done|].
  fold ra' in Hwa, Hat2. rewrite no_rotation in Hat2;
    [|by rewrite Hw1|rewrite Hm1, segment_bytes_snoc, length_app; cbn; lia].
  pose proof (wal_at_inv _ _ _ _ _ Hat2) as (_ & Hwf2 & _).
  exists fs1, wal1, fs2, wal2. split; [done|]. split; [done|]. intros save ck1 sink1 res Hfl Hok.
  destruct (flush_once_spec _ _ _ _ _ _ _ _ _ _ _ (wal_at_on _ _ _ Hat1) Hfl)
    as (l1 & l2 & lost & Heq & -> & Hd & [(_ & -> & ->)|[_ [->|[-> _]]]]); [|done..].
  rewrite app_nil_r in Heq, Hd. subst l1.
  assert (ck_within ck id rs (n + 1)) as Hckb
    by (destruct ck as [cp|]; [|done]; destruct Hck as [? Hc]; split; [done|];
        intros Hcp; destruct (Hc Hcp); lia).
  pose proof (pending_log_append ck l id rs false rb' (n + 1) Hid Hckb eq_refl) as Hp.
  cbn [log_append] in Hp. split; [by rewrite Hd, Hp|]. intros save2 ck2 sink2 res2 Hfl2.
  apply (flush_nothing _ _ _ _ _ _ _ _ _ _ _ Hat2) in Hfl2; [done|].
  assert (ordered (rs ++ [rb'])) as Hord.
  { pose proof (log_ordered_append l id rs false rb' (n + 1) Ho) as Hlo. cbn [log_append] in Hlo.
    unfold log_ordered in Hlo. rewrite Forall_app, Forall_singleton in Hlo. apply Hlo; [|done].
    eapply Forall_impl; [exact Hlt|]. cbn. lia. }
  rewrite (checkpoint_after_last ck l id rs rb' Hord).
  - apply pending_passed; [done|]. rewrite !Forall_app, !Forall_singleton. cbn.
    split_and!; [|lia|lia]. eapply Forall_impl; [exact Hlt|]. cbn. fold n. lia.
  - cbn. lia.
  - rewrite !pending_app, !pending_single, <-app_assoc in Hp. by apply app_inv_head in Hp.
Qed.

(** The flusher does not wait for the group commit: it may advance the
    checkpoint past records that no fsync covers yet. If power is lost then, the
    records vanish from the file while the checkpoint stays, [Wal::open] hands
    their offsets out again, and records acknowledged under those offsets are
    taken for flushed: no flush pass delivers them. *)
Theorem power_loss_hides_new_records l id rs off v max_bytes guard g r env (sink : Σ) :
  segs_wf (l ++ [(id, rs)]) → id < u64_max →
  let fs := mkWalFs (segs_dir (l ++ [(id, rs)])) (Some id) in
  let next := max_offset_of rs + 1 in
  next < u64_max → next ≤ off → env_ok env → wf_record r →
  admit_ guard (env_now env) (env_sample env) = (g, Ok ()) →
  zlen (segment_bytes id rs) < max_bytes →
  zlen (segment_bytes id rs) + zlen (serialize (with_offset r next)) ≤ max_bytes →
  ∃ wal fs' wal',
    wal_open fs max_bytes guard = Ok (fs, wal) ∧
    append fs wal r env = (fs', wal', Ok (with_offset r next)) ∧
    ∀ save ck' sink' res,
      flush_once save (fs_segments fs') wal' (Some (mkCheckpoint id off v)) sink = (ck', sink', res) →
      ck' = Some (mkCheckpoint id off v) ∧ delivered sink' = delivered sink.
Proof.
  intros Hwf Hidm fs0 next Hnx Hle Henv Hr Hadm Hlt Hfit.
  subst fs0. pose proof (max_offset_of_nonneg rs) as Hnn.
  rewrite <-(insert_id (segs_dir (l ++ [(id, rs)])) id (segment_bytes id rs ++ [])) by
    (rewrite app_nil_r; apply segs_dir_lookup; [done|]; apply elem_of_app; right; by left).
  rewrite (wal_open_cut l id rs [] None) by (first [done | apply tail_end_nil | by left]).
  rewrite app_nil_r, insert_id by (apply segs_dir_lookup; [done|]; apply elem_of_app; right; by left).
  rewrite (proj2 (Z.leb_gt _ _)) by done.
  set (wal := mkWal _ _ _ guard). set (fs := mkWalFs _ _).
  assert (wal_at fs wal (l ++ [(id, rs)])) as Hat by (split_and!; [done|done|]; by exists l, id, rs).
  exists wal. set (wal1 := mkWal (wal_writer wal) (next + 1) max_bytes g).
  destruct (write_record_ok fs wal1 l id rs r next env) as (fs' & wal' & Hwr & Hat' & _ & _);
    [done|done|done|unfold u64_range; lia|done|].
  exists fs', wal'. split; [done|]. split.
  { rewrite (append_steps fs wal r env g Hadm). unfold take_offset. cbn [offset_counter wal].
    fold next. rewrite u64_wrap_succ by lia. exact Hwr. }
  rewrite no_rotation in Hat' by (cbn; lia). intros save ck' sink' res Hfl.
  apply (flush_nothing _ _ _ _ _ _ _ _ _ _ _ Hat') in Hfl; [done|].
  apply pending_passed; [by apply wal_at_inv in Hat' as (_ & ? & _)|].
  apply Forall_app. rewrite Forall_singleton. cbn. split; [|done].
  eapply Forall_impl; [apply max_offset_of_lt|]. cbn. intros. lia.
Qed.
End Properties.

(** ** Witnesses *)

(** A sink that keeps a list and refuses batches as told. *)
Record ListSink := mkListSink { ls_rows : list WalRecord; ls_answers : list bool }.

Definition list_sink_flush (s : ListSink) (rs : list WalRecord) : ListSink * bool :=
  match ls_answers s with
  | false :: rest => (mkListSink (ls_rows s) rest, false)
  | true :: rest => (mkListSink (ls_rows s ++ rs) rest, true)
  | [] => (mkListSink (ls_rows s ++ rs) [], true)
  end.

Section Witnesses.
Local Existing Instance crc32_concrete.

#[local] Program Instance list_sink : FlushSink ListSink := {|
  flush_records := list_sink_flush;
  delivered := ls_rows;
|}.
Next Obligation.
  intros [d [|[] a]] rs s'; cbn; intros Heq; by injection Heq as <-.
Defined.
Next Obligation.
  intros [d [|[] a]] rs s'; cbn; intros Heq; simplify_eq.
  exists []. split; [apply sublist_nil_l|]. by rewrite app_nil_r.
Defined.

Definition state0 (max_bytes : Z) : WalFs * Wal :=
  match wal_open (mkWalFs ∅ None) max_bytes (guard_new 0 1) with
  | Ok p => p
  | _ => (mkWalFs ∅ None, sample_wal 0 [] 0 0)
  end.

Definition state_append (p : WalFs * Wal) (n : nat) : WalFs * Wal :=
  (append p.1 p.2 (sample_record 0 n) sample_env).1.

(** Three appends into small segments. *)
Definition state3 : WalFs * Wal := state_append (state_append (state_append (state0 120) 3) 4) 5.

Definition hist3 : list WalRecord := [sample_record 0 3; sample_record 1 4; sample_record 2 5].

Lemma reach_append {Σ : Type} `{FlushSink Σ} (s0 : Σ) p n hist (sink : Σ) :
  reach s0 (mkSys p.1 p.2 None sink) hist 0 → (n < 1000)%nat →
  offset_counter p.2 < u64_max → w_segment_id (wal_writer p.2) < u64_max →
  ∀ fs' wal' r', append p.1 p.2 (sample_record 0 n) sample_env = (fs', wal', Ok r') →
  reach s0 (mkSys fs' wal' None sink) (hist ++ [r']) 0.
Proof.
  intros Hr Hn Ho Hs fs' wal' r' Happ. eapply (ReachStep _ _ _ 0 _ 0); [exact Hr|].
  eapply (StepAppend _ _ _ _ _ sample_env); [|split; reflexivity|exact Ho|exact Hs|exact Happ].
  apply sample_record_wf; [unfold u64_range, u64_max; lia|done].
Defined.

Lemma reach3_any {Σ : Type} `{FlushSink Σ} (s0 : Σ) : reach s0 (mkSys state3.1 state3.2 None s0) hist3 0.
Proof.
  change hist3 with ((([] ++ [sample_record 0 3]) ++ [sample_record 1 4]) ++ [sample_record 2 5]).
  refine (reach_append _ (state_append (state_append (state0 120) 3) 4) 5 _ _ _ _ _ _ _ _ _ _);
    [|lia|vm_compute; reflexivity|vm_compute; reflexivity|vm_compute; reflexivity].
  refine (reach_append _ (state_append (state0 120) 3) 4 _ _ _ _ _ _ _ _ _ _);
    [|lia|vm_compute; reflexivity|vm_compute; reflexivity|vm_compute; reflexivity].
  refine (reach_append _ (state0 120) 3 _ _ _ _ _ _ _ _ _ _);
    [|lia|vm_compute; reflexivity|vm_compute; reflexivity|vm_compute; reflexivity].
  eapply ReachInit. vm_compute. reflexivity.
Defined.

Lemma reach3 :
  reach (mkListSink [] []) (mkSys state3.1 state3.2 None (mkListSink [] [])) hist3 0.
Proof. apply reach3_any. Defined.

Definition saved : Z → bool := λ _, true.

(** A pass whose process dies after the first batch, before its checkpoint. *)
Definition sink3_unsaved : ListSink := mkListSink [sample_record 0 3; sample_record 1 4] [].

Lemma reach3_unsaved :
  reach (mkListSink [] []) (mkSys state3.1 state3.2 None sink3_unsaved) hist3 1.
Proof.
  change hist3 with (hist3 ++ []). change 1%nat with (0 + failed (A := option Z) (@Err FlushError _ SaveFailed))%nat.
  eapply ReachStep; [exact reach3|].
  apply (StepFlush _ _ _ _ Forever (λ _, false) None (mkMortal sink3_unsaved Forever) (Err SaveFailed)).
  vm_compute. reflexivity.
Defined.

(** The next pass delivers that batch again, and then the rest. *)
Lemma acknowledged_delivered_witness :
  ∃ sink,
    flush_once saved (fs_segments state3.1) state3.2 None sink3_unsaved =
      (Some (mkCheckpoint 1 2 1), sink, Ok (Some 0)) ∧
    ls_rows sink = [sample_record 0 3; sample_record 1 4] ++ hist3 ∧
    ((is_ok (@Ok FlushError (option Z) (Some 0)) = true ∧
       delivers [] hist3 hist3 1 (delivered sink) ∧ (1%nat = 0%nat → delivered sink = [] ++ hist3)) ∨
     @Ok FlushError (option Z) (Some 0) = Err SinkFailed ∨
     (@Ok FlushError (option Z) (Some 0) = Err SaveFailed ∧ ∃ id, saved id = false)).
Proof.
  exists (flush_once saved (fs_segments state3.1) state3.2 None sink3_unsaved).1.2.
  split; [vm_compute; reflexivity|]. split; [vm_compute; reflexivity|].
  apply (proj2 (proj2 (acknowledged_delivered _ _ _ _ reach3_unsaved)) saved (Some (mkCheckpoint 1 2 1))).
  vm_compute. reflexivity.
Defined.

(** A crash in the first record of the next segment. *)
Definition image3 : WalFs :=
  mkWalFs (<[2 := segment_header 2 ++ [byte.of_Z 0]]> (fs_segments state3.1)) None.

Lemma restart_recovers_all_witness :
  ∃ fs' wal' don todo, wal_open image3 120 (guard_new 0 1) = Ok (fs', wal') ∧
    hist3 = don ++ todo ∧ delivers [] hist3 don 1 (delivered sink3_unsaved) ∧
  ((∃ ck' sink',
      replay true (fs_segments fs') None 1000 sink3_unsaved = Ok (fs_segments fs', ck', sink', zlen todo) ∧
      delivered sink' = delivered sink3_unsaved ++ todo) ∨
   ∃ sink' lost e, replay true (fs_segments fs') None 1000 sink3_unsaved = Err (fs_segments fs', sink', e) ∧
     replay_error true todo lost e ∧ delivered sink' = delivered sink3_unsaved ++ lost).
Proof.
  destruct (restart_recovers_all (mkListSink [] []) (mkSys state3.1 state3.2 None sink3_unsaved)
    hist3 1 Recoverable image3 120 (guard_new 0 1) true 1000)
    as (fs' & wal' & don & todo & Ho & Hh & Hd & Hr).
  - exact reach3_unsaved.
  - vm_compute. reflexivity.
  - apply (CrashRotating state3.1 state3.2 [byte.of_Z 0] (Some (SegmentRecord (TornWriteIncomplete 13))) None).
    + vm_compute. reflexivity.
    + right. split; [discriminate|]. eexists. split; [vm_compute; reflexivity|reflexivity].
    + right. eexists. split; reflexivity.
  - exists fs', wal', don, todo. cbn [sys_ck sys_sink] in Hd, Hr.
    split; [exact Ho|]. split; [exact Hh|]. split; [exact Hd|exact Hr].
Defined.

Lemma janitor_deletes_only_delivered_witness :
  ∃ l', cleanup_once (segs_dir (log1_init ++ [(1, log1_last)])) (sample_wal 1 log1_last 3 100)
    (Some (mkCheckpoint 1 1 1)) = segs_dir l' ∧ pending (Some (mkCheckpoint 1 1 1)) l' = [sample_record 2 5].
Proof.
  destruct (janitor_deletes_only_delivered
    (mkWalFs (segs_dir (log1_init ++ [(1, log1_last)])) (Some 1)) (sample_wal 1 log1_last 3 100)
    (log1_init ++ [(1, log1_last)]) (mkCheckpoint 1 1 1)) as (l' & H1 & _ & _ & H2 & _).
  - apply sample_wal_at, log1_wf.
  - exists l'. split; [exact H1|]. rewrite H2. vm_compute. reflexivity.
Defined.

Lemma log1_ordered : log_ordered (log1_init ++ [(1, log1_last)]).
Proof. repeat constructor. Defined.

Lemma reordered_append_is_skipped_witness :
  ∃ fs1 wal1 fs2 wal2,
    write_record (mkWalFs (segs_dir (log1_init ++ [(1, log1_last)])) (Some 1))
      (sample_wal 1 log1_last 5 1000) (sample_record 0 3) 4 sample_env =
      (fs1, wal1, Ok (sample_record 4 3)) ∧
    write_record fs1 wal1 (sample_record 0 3) 3 sample_env = (fs2, wal2, Ok (sample_record 3 3)) ∧
    ∀ save ck1 sink1 res,
      flush_once save (fs_segments fs1) wal1 None (mkListSink [] []) = (ck1, sink1, res) →
      is_ok res = true →
      delivered sink1 = segs_records log1 ++ [sample_record 4 3] ∧
      ∀ save2 ck2 sink2 res2, flush_once save2 (fs_segments fs2) wal2 ck1 sink1 = (ck2, sink2, res2) →
        ck2 = ck1 ∧ delivered sink2 = delivered sink1.
Proof.
  destruct (reordered_append_is_skipped (mkWalFs (segs_dir (log1_init ++ [(1, log1_last)])) (Some 1))
    (sample_wal 1 log1_last 3 1000) log1_init 1 log1_last (sample_record 0 3) (sample_record 0 3)
    sample_env None (mkListSink [] [])) as (fs1 & wal1 & fs2 & wal2 & H1 & H2 & H3).
  - apply sample_wal_at, log1_wf.
  - split; reflexivity.
  - apply sample_record_wf; [done|lia].
  - apply sample_record_wf; [done|lia].
  - cbn. lia.
  - cbn. unfold u64_max. lia.
  - unfold u64_max. lia.
  - repeat constructor.
  - exact log1_ordered.
  - exact I.
  - lia.
  - vm_compute. discriminate.
  - exists fs1, wal1, fs2, wal2. split; [exact H1|]. split; [exact H2|].
    intros save ck1 sink1 res Hf Hok. exact (H3 save ck1 sink1 res Hf Hok).
Defined.

Lemma power_loss_hides_new_records_witness :
  ∃ wal fs' wal',
    wal_open (mkWalFs (segs_dir (log1_init ++ [(1, log1_last)])) (Some 1)) 1000 (guard_new 0 1) =
      Ok (mkWalFs (segs_dir (log1_init ++ [(1, log1_last)])) (Some 1), wal) ∧
    append (mkWalFs (segs_dir (log1_init ++ [(1, log1_last)])) (Some 1)) wal (sample_record 0 3)
      sample_env = (fs', wal', Ok (sample_record 3 3)) ∧
    ∀ save ck' sink' res,
      flush_once save (fs_segments fs') wal' (Some (mkCheckpoint 1 4 1)) (mkListSink [] []) =
        (ck', sink', res) →
      ck' = Some (mkCheckpoint 1 4 1) ∧ delivered sink' = [].
Proof.
  destruct (power_loss_hides_new_records log1_init 1 log1_last 4 1 1000 (guard_new 0 1)
    (guard_new 0 1) (sample_record 0 3) sample_env (mkListSink [] []))
    as (wal & fs' & wal' & H1 & H2 & H3).
  - apply log1_wf.
  - unfold u64_max. lia.
  - vm_compute. reflexivity.
  - vm_compute. discriminate.
  - split; reflexivity.
  - apply sample_record_wf; [done|lia].
  - reflexivity.
  - vm_compute. reflexivity.
  - vm_compute. discriminate.
  - exists wal, fs', wal'. split; [exact H1|]. split; [exact H2|].
    intros save ck' sink' res Hf. exact (H3 save ck' sink' res Hf).
Defined.
End Witnesses.
