(* ===== verification/GroupCommit.v ===== *)
(** Group commit: [zradar-wal/src/group_commit.rs].

    Appends write their record and then register for the next fsync; one
    background task fsyncs the active segment and notifies who is registered.
    The steps of the appending threads and of the task interleave. *)

From stdpp Require Import base list.
From S2P Require Import Prelude.

(** [FsyncQueue]: the registered waiters and the fsync counter. A waiter is
    named by the position of its record in the file. *)
Record FsyncQueue := mkFsyncQueue {
  fq_pending : list Z;
  fsync_count : Z;
}.

Definition register (q : FsyncQueue) (w : Z) : FsyncQueue :=
  mkFsyncQueue (fq_pending q ++ [w]) (fsync_count q).

(** The queue after the drain and the waiters it notified. *)
Definition drain_and_notify (q : FsyncQueue) : FsyncQueue * list Z :=
  (mkFsyncQueue [] (fsync_count q), fq_pending q).

Definition has_pending (q : FsyncQueue) : bool := negb (bool_decide (fq_pending q = [])).

Definition inc_fsync_count (q : FsyncQueue) : FsyncQueue :=
  mkFsyncQueue (fq_pending q) (u64_wrap (fsync_count q + 1)).

(** Where the task is: asleep, after the [has_pending] test, after a
    successful [fsync_fn], or stopped; [cancelled] on the shutdown path. *)
Inductive LoopPc :=
| Waiting
| Checked (cancelled : bool)
| Synced (cancelled : bool)
| Counted (cancelled : bool)
| Stopped.

(** [gc_written] records are in the file, of which an fsync covers the first
    [gc_durable]; [gc_notified] had their [durable()] resolve. *)
Record Gc := mkGc {
  gc_queue : FsyncQueue;
  gc_pc : LoopPc;
  gc_written : Z;
  gc_durable : Z;
  gc_registered : list Z;
  gc_notified : list Z;
}.

Definition gc_init : Gc := mkGc (mkFsyncQueue [] 0) Waiting 0 0 [] [].

Inductive GcEvent := EvWrite | EvRegister (w : Z) | EvWake (cancelled : bool) | EvFsync (ok : bool)
  | EvCount | EvDrain.

(** One step; [None] when the event cannot happen in the state. *)
Definition gc_step (s : Gc) (e : GcEvent) : option Gc :=
  let 'mkGc q pc written durable registered notified := s in
  match e, pc with
  | EvWrite, _ => Some (mkGc q pc (written + 1) durable registered notified)
  | EvRegister w, _ =>
      if (0 <=? w) && (w <? written) && bool_decide (w ∉ registered)
      then Some (mkGc (register q w) pc written durable (registered ++ [w]) notified) else None
  | EvWake cancelled, Waiting =>
      Some (mkGc q (if has_pending q then Checked cancelled
                    else if cancelled then Stopped else Waiting) written durable registered notified)
  | EvFsync ok, Checked cancelled =>
      Some (mkGc q (if ok then Synced cancelled else if cancelled then Stopped else Waiting)
              written (if ok then written else durable) registered notified)
  | EvCount, Synced cancelled =>
      Some (mkGc (inc_fsync_count q) (Counted cancelled) written durable registered notified)
  | EvDrain, Counted cancelled =>
      let '(q, woken) := drain_and_notify q in
      Some (mkGc q (if cancelled then Stopped else Waiting) written durable registered
              (notified ++ woken))
  | _, _ => None
  end.

Fixpoint gc_run (s : Gc) (es : list GcEvent) : option Gc :=
  match es with
  | [] => Some s
  | e :: es => s' ← gc_step s e; gc_run s' es
  end.

(** ** Invariant *)

(** The task is between its fsync and its drain. *)
Definition between (pc : LoopPc) : bool :=
  match pc with Synced _ | Counted _ => true | _ => false end.

Definition gc_inv (s : Gc) : Prop :=
  gc_registered s = gc_notified s ++ fq_pending (gc_queue s) ∧
  NoDup (gc_registered s) ∧
  Forall (λ w, 0 ≤ w < gc_written s) (gc_registered s) ∧
  0 ≤ gc_durable s ≤ gc_written s.

Lemma gc_step_inv s e s' : gc_inv s → gc_step s e = Some s' → gc_inv s'.
Proof.
  unfold gc_inv. destruct s as [q pc written durable registered notified]. cbn.
  intros (Hreg & Hnd & Hf & Hd) Hs.
  destruct e as [|w|c|ok| |].
  - injection Hs as <-. cbn. split_and!; [done|done| |lia|lia].
    eapply Forall_impl; [exact Hf|]. cbn. lia.
  - destruct (_ && _) eqn:Hc; [|done]. injection Hs as <-. cbn.
    apply andb_prop in Hc as [Hc Hnew%bool_decide_eq_true]. reflect_bools.
    split_and!; [by rewrite Hreg, <-app_assoc| | |lia|lia].
    + apply NoDup_app. split; [done|]. split; [|apply NoDup_singleton].
      intros x Hx Hin%list_elem_of_singleton. by subst x.
    + apply Forall_app. split; [done|]. apply Forall_singleton. lia.
  - destruct pc; try done; injection Hs as <-. cbn. split_and!; try done; lia.
  - destruct pc; try done; injection Hs as <-. cbn. split_and!; [done|done|done| |]; destruct ok; lia.
  - destruct pc; try done; injection Hs as <-. cbn. split_and!; try done; lia.
  - destruct pc; try done; injection Hs as <-. cbn. rewrite app_nil_r. split_and!; try done; lia.
Qed.

Lemma gc_run_inv s es s' : gc_inv s → gc_run s es = Some s' → gc_inv s'.
Proof.
  revert s. induction es as [|e es IH]; intros s Hi Hr; cbn in Hr; [by injection Hr as <-|].
  destruct (gc_step s e) as [s1|] eqn:Hs; [|done]. cbn in Hr. eapply IH; [|done].
  by eapply gc_step_inv.
Qed.

Lemma gc_init_inv : gc_inv gc_init.
Proof. split_and!; [done|constructor|constructor|done|done]. Qed.

(** What a run must avoid: a registration between the fsync and the drain. *)
Fixpoint quiet (s : Gc) (es : list GcEvent) : bool :=
  match es with
  | [] => true
  | e :: es =>
      negb (match e with EvRegister _ => between (gc_pc s) | _ => false end) &&
      match gc_step s e with Some s' => quiet s' es | None => true end
  end.

Definition gc_durable_inv (s : Gc) : Prop :=
  Forall (λ w, w < gc_durable s) (gc_notified s) ∧
  (between (gc_pc s) = true → Forall (λ w, w < gc_durable s) (fq_pending (gc_queue s))).

Lemma gc_step_durable s e s' :
  gc_inv s → gc_durable_inv s → gc_step s e = Some s' →
  (between (gc_pc s) = true → ∀ w, e ≠ EvRegister w) → gc_durable_inv s'.
Proof.
  unfold gc_inv, gc_durable_inv. destruct s as [q pc written durable registered notified]. cbn.
  intros (Hreg & Hnd & Hf & Hd) [Hn Hp] Hs Hq.
  destruct e as [|w|c|ok| |].
  - by injection Hs as <-.
  - destruct (_ && _) eqn:Hc; [|done]. injection Hs as <-. cbn. split; [done|].
    intros Hb. by destruct (Hq Hb w).
  - destruct pc; try done; injection Hs as <-. cbn. split; [done|]. by destruct (has_pending q), c.
  - destruct pc; try done; injection Hs as <-. cbn. rewrite Hreg, Forall_app in Hf. destruct Hf as [Hfn Hfp].
    destruct ok; cbn.
    + split; [eapply Forall_impl; [exact Hn|]|intros _; eapply Forall_impl; [exact Hfp|]]; cbn; lia.
    + split; [done|]. by destruct cancelled.
  - destruct pc; try done; injection Hs as <-. cbn. split; [done|]. intros _. by apply Hp.
  - destruct pc; try done; injection Hs as <-. cbn. split; [|by destruct cancelled].
    apply Forall_app. split; [done|]. by apply Hp.
Qed.

(** ** Properties *)

(** C36: Group commit is sound as long as nobody registers between the fsync and the
    drain: every append that was told its record is durable has its record
    among those the last fsync covers; each registered append is notified at
    most once, in order of registration. *)
Theorem notified_is_durable es s :
  gc_run gc_init es = Some s → quiet gc_init es = true →
  Forall (λ w, 0 ≤ w < gc_durable s) (gc_notified s) ∧
  NoDup (gc_notified s) ∧ gc_registered s = gc_notified s ++ fq_pending (gc_queue s).
Proof.
  assert (∀ s0, gc_inv s0 → gc_durable_inv s0 → gc_run s0 es = Some s → quiet s0 es = true →
    gc_inv s ∧ gc_durable_inv s) as Hrun.
  { induction es as [|e es IH]; intros s0 Hi Hd Hr Hq; cbn in *; [by simplify_eq|].
    destruct (gc_step s0 e) as [s1|] eqn:Hs; [|done]. cbn in Hr.
    apply andb_prop in Hq as [Hq Hq']. apply (IH s1); [by eapply gc_step_inv| |done|done].
    eapply gc_step_durable; [exact Hi|done|done|]. intros Hb w ->. by rewrite Hb in Hq. }
  intros Hr Hq. destruct (Hrun gc_init gc_init_inv) as [(Hreg & Hnd & Hf & _) [Hn _]]; [|done|done|].
  { split; [constructor|done]. }
  rewrite Hreg in Hnd, Hf. apply NoDup_app in Hnd as (? & _). apply Forall_app in Hf as [Hf _].
  split_and!; [|done|done]. apply Forall_forall. intros w Hw. rewrite Forall_forall in Hn, Hf.
  split; [by apply Hf|by apply Hn].
Qed.

(** The race: from any state in which the task has fsynced and not yet drained,
    an append that writes its record and registers now is notified by the drain,
    although no fsync covers its record. *)
Theorem registered_after_fsync_not_durable q c written durable registered notified :
  let s := mkGc q (Counted c) written durable registered notified in
  gc_inv s → ∃ s', gc_run s [EvWrite; EvRegister written; EvDrain] = Some s' ∧
    written ∈ gc_notified s' ∧ gc_durable s' ≤ written.
Proof.
  intros s (Hreg & _ & Hf & Hd). cbn in *. rewrite Forall_forall in Hf.
  rewrite (proj2 (Z.leb_le _ _)), (proj2 (Z.ltb_lt _ _)), bool_decide_eq_true_2 by
    (first [lia | intros Hin; specialize (Hf _ Hin); lia]).
  eexists. split; [done|]. cbn. split; [|lia]. rewrite !elem_of_app. right. right. by left.
Qed.

(** Shutdown: a waiter still registered when the task stops without a last
    fsync never resolves as durable. *)
Theorem stopped_notifies_nobody es s s' :
  gc_pc s = Stopped → gc_run s es = Some s' →
  gc_notified s' = gc_notified s ∧ gc_durable s' = gc_durable s ∧ gc_pc s' = Stopped.
Proof.
  revert s. induction es as [|e es IH]; intros s Hpc Hr; cbn in Hr; [by simplify_eq|].
  destruct (gc_step s e) as [s1|] eqn:Hs; [|done]. cbn in Hr.
  destruct s as [q pc written durable registered notified]. cbn in Hpc. subst pc.
  destruct e; cbn in Hs; try case_match; simplify_eq; apply IH in Hr; done.
Qed.

(** ** Witnesses *)

Lemma notified_is_durable_witness :
  ∃ s, gc_run gc_init [EvWrite; EvRegister 0; EvWake false; EvWrite; EvFsync true; EvCount; EvDrain;
                       EvRegister 1] = Some s ∧
    Forall (λ w, 0 ≤ w < gc_durable s) (gc_notified s) ∧ gc_notified s = [0].
Proof.
  eexists. split; [vm_compute; reflexivity|]. split; [|reflexivity].
  apply (notified_is_durable [EvWrite; EvRegister 0; EvWake false; EvWrite; EvFsync true; EvCount;
    EvDrain; EvRegister 1]); vm_compute; reflexivity.
Defined.

Lemma registered_after_fsync_not_durable_witness :
  gc_run gc_init [EvWrite; EvRegister 0; EvWake false; EvFsync true; EvCount] =
    Some (mkGc (mkFsyncQueue [0] 1) (Counted false) 1 1 [0] []) ∧
  ∃ s', gc_run (mkGc (mkFsyncQueue [0] 1) (Counted false) 1 1 [0] [])
          [EvWrite; EvRegister 1; EvDrain] = Some s' ∧ 1 ∈ gc_notified s' ∧ gc_durable s' ≤ 1.
Proof.
  split; [vm_compute; reflexivity|].
  apply (registered_after_fsync_not_durable (mkFsyncQueue [0] 1) false 1 1 [0] []).
  split_and!; cbn; [reflexivity|apply NoDup_singleton| |lia|lia]. constructor; [cbn; lia|constructor].
Defined.

Lemma stopped_notifies_nobody_witness :
  ∃ s s', gc_run gc_init [EvWrite; EvWake true; EvRegister 0] = Some s ∧
    gc_run s [EvWrite; EvRegister 1] = Some s' ∧ gc_notified s' = gc_notified s.
Proof.
  do 2 eexists. split; [vm_compute; reflexivity|]. split; [vm_compute; reflexivity|].
  refine (proj1 (stopped_notifies_nobody [EvWrite; EvRegister 1]
    (mkGc (mkFsyncQueue [0] 0) Stopped 1 0 [0] []) _ _ _)); vm_compute; reflexivity.
Defined.
