(* ===== verification/PolicyStore.v ===== *)
(** Workspace policies and their resolution: [zradar-policy/src/types.rs] and
    [zradar-plugin-postgres/src/repositories/policy.rs].

    Policies are cached by workspace, signal, operation and limit kind; the
    limits that apply to one operation on one signal are merged from the
    exact and the catch-all entries. *)

From stdpp Require Import base gmap list strings.
From S2P Require Import Prelude.

Inductive SignalKind := Traces | Logs | Metrics | Rum | SessionReplay | ErrorTracking | AllSignals.
Inductive Operation := Ingest | Query | Store | AllOperations.
Inductive UsageBasis := CompressedBytes | ScannedBytes.

Inductive PolicyLimit :=
| Rate (records_per_sec bytes_per_sec : option Z)
| Quota (max_bytes period_start : Z) (period_end : option Z) (basis : UsageBasis)
| Size (max_bytes : Z) (basis : UsageBasis)
| Retention (max_days : Z)
| Window (max_query_days : Z).

Inductive PolicySource := SourceApi | SourceFile | SourceEnv | SourceCrd | SourceDefault.

Record Policy := mkPolicy {
  p_id : option Z;
  p_workspace_id : Z;
  p_signal : SignalKind;
  p_operation : Operation;
  p_limit : PolicyLimit;
  p_grace_pct : Z;
  p_hard_block_pct : Z;
  p_effective_from : Z;
  p_effective_until : option Z;
  p_source : PolicySource;
}.

Record ResolvedPolicy := mkResolvedPolicy {
  blocked : bool;
  rate : option PolicyLimit;
  quotas : list PolicyLimit;
  size : option PolicyLimit;
  retention : option PolicyLimit;
  query_window : option PolicyLimit;
  grace_pct : Z;
  hard_block_pct : Z;
}.

Definition resolved_default : ResolvedPolicy :=
  mkResolvedPolicy false None [] None None None 101 103.

#[export] Instance SignalKind_eq_dec : EqDecision SignalKind.
Proof. solve_decision. Defined.
#[export] Instance Operation_eq_dec : EqDecision Operation.
Proof. solve_decision. Defined.
#[export] Instance UsageBasis_eq_dec : EqDecision UsageBasis.
Proof. solve_decision. Defined.
#[export] Instance PolicyLimit_eq_dec : EqDecision PolicyLimit.
Proof. solve_decision. Defined.
#[export] Instance PolicySource_eq_dec : EqDecision PolicySource.
Proof. solve_decision. Defined.

(** ** Names stored in the database *)

Definition limit_kind (l : PolicyLimit) : string :=
  match l with
  | Rate _ _ => "rate"
  | Quota _ _ _ _ => "quota"
  | Size _ _ => "size"
  | Retention _ => "retention"
  | Window _ => "window"
  end.

Definition signal_kind (s : SignalKind) : string :=
  match s with
  | Traces => "traces"
  | Logs => "logs"
  | Metrics => "metrics"
  | Rum => "rum"
  | SessionReplay => "session_replay"
  | ErrorTracking => "error_tracking"
  | AllSignals => "all"
  end.

Definition operation (o : Operation) : string :=
  match o with Ingest => "ingest" | Query => "query" | Store => "store" | AllOperations => "all" end.

Definition policy_source (s : PolicySource) : string :=
  match s with
  | SourceApi => "api"
  | SourceFile => "file"
  | SourceEnv => "env"
  | SourceCrd => "crd"
  | SourceDefault => "default"
  end.

Inductive PolicyError := Invalid (what : string) | StoreUnavailable.

Definition parse_signal_kind (value : string) : outcome PolicyError SignalKind :=
  if decide (value = "traces") then Ok Traces
  else if decide (value = "logs") then Ok Logs
  else if decide (value = "metrics") then Ok Metrics
  else if decide (value = "rum") then Ok Rum
  else if decide (value = "session_replay") then Ok SessionReplay
  else if decide (value = "error_tracking") then Ok ErrorTracking
  else if decide (value = "all") then Ok AllSignals
  else Err (Invalid (String.append "unknown signal_kind " value)).

Definition parse_operation (value : string) : outcome PolicyError Operation :=
  if decide (value = "ingest") then Ok Ingest
  else if decide (value = "query") then Ok Query
  else if decide (value = "store") then Ok Store
  else if decide (value = "all") then Ok AllOperations
  else Err (Invalid (String.append "unknown operation " value)).

Definition parse_policy_source (value : string) : outcome PolicyError PolicySource :=
  if decide (value = "api") then Ok SourceApi
  else if decide (value = "file") then Ok SourceFile
  else if decide (value = "env") then Ok SourceEnv
  else if decide (value = "crd") then Ok SourceCrd
  else if decide (value = "default") then Ok SourceDefault
  else Err (Invalid (String.append "unknown policy source " value)).

(** ** Rows and the cache *)

(** A database row; [limit_json] has the result of its JSON decoding. *)
Record PolicyRow := mkPolicyRow {
  row_id : Z;
  row_workspace_id : Z;
  row_signal_kind : string;
  row_operation : string;
  row_limit_json : outcome PolicyError PolicyLimit;
  row_grace_pct : Z;
  row_hard_block_pct : Z;
  row_effective_from : Z;
  row_effective_until : option Z;
  row_source : string;
}.

Definition u8_try_from (z : Z) (e : PolicyError) : outcome PolicyError Z :=
  if (0 <=? z) && (z <=? u8_max) then Ok z else Err e.

Definition row_to_policy (row : PolicyRow) : outcome PolicyError Policy :=
  signal ← parse_signal_kind (row_signal_kind row);
  op ← parse_operation (row_operation row);
  limit ← row_limit_json row;
  grace ← u8_try_from (row_grace_pct row) (Invalid "invalid grace_pct");
  hard ← u8_try_from (row_hard_block_pct row) (Invalid "invalid hard_block_pct");
  source ← parse_policy_source (row_source row);
  mret (mkPolicy (Some (row_id row)) (row_workspace_id row) signal op limit grace hard
          (row_effective_from row) (row_effective_until row) source).

(** [PolicyCacheKey]; the operation and signal are kept by their names, which
    identify them. *)
Definition PolicyCacheKey : Type := Z * string * string * string.

Definition cache_key (workspace_id : Z) (s : SignalKind) (o : Operation) (kind : string) :
    PolicyCacheKey :=
  (workspace_id, signal_kind s, operation o, kind).

Definition policy_key (p : Policy) : PolicyCacheKey :=
  cache_key (p_workspace_id p) (p_signal p) (p_operation p) (limit_kind (p_limit p)).

Abbreviation PolicyCacheMap := (gmap PolicyCacheKey Policy).

(** The first row of a key wins; invalid rows are skipped. *)
Definition rows_to_cache (rows : list PolicyRow) : PolicyCacheMap :=
  foldl (λ cache row,
    match row_to_policy row with
    | Ok p => match cache !! policy_key p with Some _ => cache | None => <[policy_key p := p]> cache end
    | _ => cache
    end) ∅ rows.

(** ** Merging *)

Definition min_option (l r : option Z) : option Z :=
  match l, r with
  | Some l, Some r => Some (Z.min l r)
  | Some v, None | None, Some v => Some v
  | None, None => None
  end.

Definition choose_rate (current : option PolicyLimit) (candidate : PolicyLimit) : option PolicyLimit :=
  match current, candidate with
  | Some (Rate cr cb), Rate r b => Some (Rate (min_option cr r) (min_option cb b))
  | None, candidate => Some candidate
  | Some current, _ => Some current
  end.

Definition choose_lowest_bytes (current : option PolicyLimit) (candidate : PolicyLimit) :
    option PolicyLimit :=
  match current, candidate with
  | Some (Size current_bytes basis), Size max_bytes _ =>
      if max_bytes <? current_bytes then Some (Size max_bytes basis) else current
  | None, candidate => Some candidate
  | Some current, _ => Some current
  end.

Definition choose_lowest_days (current : option PolicyLimit) (candidate : PolicyLimit) :
    option PolicyLimit :=
  match current, candidate with
  | Some (Retention current_days), Retention max_days =>
      if max_days <? current_days then Some (Retention max_days) else current
  | Some (Window current_days), Window max_query_days =>
      if max_query_days <? current_days then Some (Window max_query_days) else current
  | None, candidate => Some candidate
  | Some current, _ => Some current
  end.

Definition merge_policy (r : ResolvedPolicy) (p : Policy) : ResolvedPolicy :=
  let grace := Z.min (grace_pct r) (p_grace_pct p) in
  let hard := Z.min (hard_block_pct r) (p_hard_block_pct p) in
  match p_limit p with
  | Rate _ _ =>
      mkResolvedPolicy (blocked r) (choose_rate (rate r) (p_limit p)) (quotas r) (size r)
        (retention r) (query_window r) grace hard
  | Quota _ _ _ _ =>
      mkResolvedPolicy (blocked r) (rate r) (quotas r ++ [p_limit p]) (size r)
        (retention r) (query_window r) grace hard
  | Size _ _ =>
      mkResolvedPolicy (blocked r) (rate r) (quotas r) (choose_lowest_bytes (size r) (p_limit p))
        (retention r) (query_window r) grace hard
  | Retention _ =>
      mkResolvedPolicy (blocked r) (rate r) (quotas r) (size r)
        (choose_lowest_days (retention r) (p_limit p)) (query_window r) grace hard
  | Window _ =>
      mkResolvedPolicy (blocked r) (rate r) (quotas r) (size r) (retention r)
        (choose_lowest_days (query_window r) (p_limit p)) grace hard
  end.

Definition merge_cached (cache : PolicyCacheMap) (key : PolicyCacheKey) (r : ResolvedPolicy) :
    ResolvedPolicy :=
  match cache !! key with Some p => merge_policy r p | None => r end.

Definition apply_cached_policy (cache : PolicyCacheMap) (r : ResolvedPolicy)
    (workspace_id : Z) (s : SignalKind) (o : Operation) : ResolvedPolicy :=
  let r := foldl (λ r kind, merge_cached cache (cache_key workspace_id s o kind) r) r
             ["rate"; "size"; "retention"; "window"] in
  merge_cached cache (cache_key workspace_id s o "quota") r.

Definition resolve_cached_policy (cache : PolicyCacheMap) (workspace_id : Z) (s : SignalKind)
    (o : Operation) : ResolvedPolicy :=
  foldl (λ r s', foldl (λ r o', apply_cached_policy cache r workspace_id s' o') r
                   [o; AllOperations]) resolved_default [s; AllSignals].

(** ** The policies a resolution merges, in order *)

Definition resolution_keys (workspace_id : Z) (s : SignalKind) (o : Operation) : list PolicyCacheKey :=
  s' ← [s; AllSignals]; o' ← [o; AllOperations];
  kind ← ["rate"; "size"; "retention"; "window"; "quota"];
  [cache_key workspace_id s' o' kind].

Definition applicable (cache : PolicyCacheMap) (workspace_id : Z) (s : SignalKind) (o : Operation) :
    list Policy :=
  omap (λ key, cache !! key) (resolution_keys workspace_id s o).

Definition cache_wf (cache : PolicyCacheMap) : Prop := map_Forall (λ key p, policy_key p = key) cache.

(** ** Lemmas *)

Lemma signal_kind_inj s1 s2 : signal_kind s1 = signal_kind s2 → s1 = s2.
Proof. by destruct s1, s2. Qed.
Lemma operation_inj o1 o2 : operation o1 = operation o2 → o1 = o2.
Proof. by destruct o1, o2. Qed.

Lemma foldl_merge_omap cache keys r :
  foldl merge_policy r (omap (λ key, cache !! key) keys) =
    foldl (λ r key, merge_cached cache key r) r keys.
Proof.
  revert r. induction keys as [|k keys IH]; intros r; [done|]. cbn. unfold merge_cached at 2.
  destruct (cache !! k); cbn; apply IH.
Qed.

(** Resolution is a left fold of [merge_policy] over the applicable policies. *)
Lemma resolve_fold cache ws s o :
  resolve_cached_policy cache ws s o = foldl merge_policy resolved_default (applicable cache ws s o).
Proof. unfold applicable. rewrite foldl_merge_omap. done. Qed.

Lemma elem_of_applicable cache ws s o p :
  cache_wf cache →
  p ∈ applicable cache ws s o ↔
    cache !! policy_key p = Some p ∧ p_workspace_id p = ws ∧
    (p_signal p = s ∨ p_signal p = AllSignals) ∧ (p_operation p = o ∨ p_operation p = AllOperations).
Proof.
  intros Hwf. unfold applicable. rewrite list_elem_of_omap. split.
  - intros (key & Hk & Hp). pose proof (Hwf key p Hp) as Hkey. cbn in Hkey. rewrite Hkey.
    unfold resolution_keys in Hk.
    apply list_elem_of_bind in Hk as (s' & Hk & Hs). apply list_elem_of_bind in Hk as (o' & Hk & Ho).
    apply list_elem_of_bind in Hk as (kind & ->%list_elem_of_singleton & _).
    unfold policy_key, cache_key in Hkey. simplify_eq. split; [done|]. split; [done|].
    rewrite (signal_kind_inj (p_signal p) s'), (operation_inj (p_operation p) o') by done.
    by rewrite <-!elem_of_two.
  - intros (Hp & <- & Hs & Ho). exists (policy_key p). split; [|done].
    unfold resolution_keys, policy_key. apply list_elem_of_bind. exists (p_signal p). split.
    + apply list_elem_of_bind. exists (p_operation p). split.
      * apply list_elem_of_bind. exists (limit_kind (p_limit p)). split; [by left|].
        rewrite !elem_of_cons. destruct (p_limit p); cbn; tauto.
      * by apply elem_of_two.
    + by apply elem_of_two.
Qed.

(** ** What a resolution guarantees *)

(** Each field holds a limit of its own kind. *)
Definition resolved_typed (r : ResolvedPolicy) : Prop :=
  (∀ l, rate r = Some l → limit_kind l = "rate") ∧
  (∀ l, size r = Some l → limit_kind l = "size") ∧
  (∀ l, retention r = Some l → limit_kind l = "retention") ∧
  (∀ l, query_window r = Some l → limit_kind l = "window").

Definition opt_le (a b : option Z) : Prop :=
  match b with None => True | Some b => match a with Some a => a ≤ b | None => False end end.

(** [r] has limits no higher than the policy [p], whatever a size limit is
    measured in. *)
Definition caps (r : ResolvedPolicy) (p : Policy) : Prop :=
  grace_pct r ≤ p_grace_pct p ∧ hard_block_pct r ≤ p_hard_block_pct p ∧
  match p_limit p with
  | Rate rs bs => ∃ rs' bs', rate r = Some (Rate rs' bs') ∧ opt_le rs' rs ∧ opt_le bs' bs
  | Quota _ _ _ _ => p_limit p ∈ quotas r
  | Size m _ => ∃ m' b', size r = Some (Size m' b') ∧ m' ≤ m
  | Retention d => ∃ d', retention r = Some (Retention d') ∧ d' ≤ d
  | Window d => ∃ d', query_window r = Some (Window d') ∧ d' ≤ d
  end.

Lemma opt_le_refl a : opt_le a a.
Proof. destruct a; cbn; lia. Qed.
Lemma opt_le_min_l a b c : opt_le a c → opt_le (min_option a b) c.
Proof. destruct a, b, c; cbn; lia. Qed.
Lemma opt_le_min_r a b : opt_le (min_option a b) b.
Proof. destruct a, b; cbn; lia. Qed.

Lemma merge_typed r p : resolved_typed r → resolved_typed (merge_policy r p).
Proof.
  intros (Hr & Hs & Hd & Hw). unfold merge_policy. destruct (p_limit p); split_and!; cbn; try done.
  - intros l. destruct (rate r) as [[]|]; cbn; intros; simplify_eq; try done; by apply Hr.
  - intros l. destruct (size r) as [[]|]; cbn; intros; try case_match; simplify_eq; try done; by apply Hs.
  - intros l. destruct (retention r) as [[]|]; cbn; intros; try case_match; simplify_eq; try done; by apply Hd.
  - intros l. destruct (query_window r) as [[]|]; cbn; intros; try case_match; simplify_eq; try done; by apply Hw.
Qed.

(** Merging caps by the merged policy. *)
Lemma merge_caps r p : resolved_typed r → caps (merge_policy r p) p.
Proof.
  intros (Hr & Hs & Hd & Hw). unfold caps, merge_policy.
  destruct (p_limit p) as [rs bs|m ps pe b|m b|d|d]; cbn; (split; [lia|]; split; [lia|]).
  - destruct (rate r) as [l|]; [|do 2 eexists; split; [done|split; apply opt_le_refl]].
    specialize (Hr l eq_refl). destruct l; try done.
    do 2 eexists. split; [done|]. split; apply opt_le_min_r.
  - apply elem_of_app. right. by left.
  - destruct (size r) as [l|]; [|do 2 eexists; split; [done|lia]].
    specialize (Hs l eq_refl). destruct l as [| |m0 b0| |]; try done. cbn.
    destruct (Z.ltb_spec m m0); do 2 eexists; (split; [done|lia]).
  - destruct (retention r) as [l|]; [|eexists; split; [done|lia]].
    specialize (Hd l eq_refl). destruct l as [| | |d0|]; try done. cbn.
    destruct (Z.ltb_spec d d0); eexists; (split; [done|lia]).
  - destruct (query_window r) as [l|]; [|eexists; split; [done|lia]].
    specialize (Hw l eq_refl). destruct l as [| | | |d0]; try done. cbn.
    destruct (Z.ltb_spec d d0); eexists; (split; [done|lia]).
Qed.

(** Merging more keeps what was covered. *)
Lemma merge_keeps r p q : caps r p → caps (merge_policy r q) p.
Proof.
  unfold caps. intros (Hg & Hh & Hl). unfold merge_policy.
  destruct (p_limit q) as [rs bs|m ps pe b|m b|d|d]; cbn; (split; [lia|]; split; [lia|]);
    destruct (p_limit p) as [rs' bs'|m' ps' pe' b'|m' b'|d'|d']; try done.
  - destruct Hl as (r0 & b0 & -> & ? & ?). cbn. do 2 eexists. split; [done|].
    split; by apply opt_le_min_l.
  - apply elem_of_app. by left.
  - destruct Hl as (m0 & b0 & -> & ?). cbn. destruct (Z.ltb_spec m m0); do 2 eexists; (split; [done|lia]).
  - destruct Hl as (d0 & -> & ?). cbn. destruct (Z.ltb_spec d d0); eexists; (split; [done|lia]).
  - destruct Hl as (d0 & -> & ?). cbn. destruct (Z.ltb_spec d d0); eexists; (split; [done|lia]).
Qed.

Lemma foldl_merge_caps l r p :
  resolved_typed r → p ∈ l ∨ caps r p → caps (foldl merge_policy r l) p.
Proof.
  revert r. induction l as [|q l IH]; intros r Ht [Hin|Hc]; cbn.
  - by apply not_elem_of_nil in Hin.
  - done.
  - apply IH; [by apply merge_typed|]. apply elem_of_cons in Hin as [->|?]; [right|by left].
    by apply merge_caps.
  - apply IH; [by apply merge_typed|]. right. by apply merge_keeps.
Qed.

Lemma resolved_default_typed : resolved_typed resolved_default.
Proof. by split_and!. Qed.

(** Every limit of a resolution is made from the limits of merged policies. *)
Definition derived (r : ResolvedPolicy) (l : list Policy) : Prop :=
  blocked r = false ∧
  (∀ rs bs, rate r = Some (Rate rs bs) →
     (∀ v, rs = Some v → ∃ p b, p ∈ l ∧ p_limit p = Rate (Some v) b) ∧
     (∀ v, bs = Some v → ∃ p a, p ∈ l ∧ p_limit p = Rate a (Some v))) ∧
  (∀ q, q ∈ quotas r → ∃ p, p ∈ l ∧ p_limit p = q) ∧
  (∀ m b, size r = Some (Size m b) → ∃ p b', p ∈ l ∧ p_limit p = Size m b') ∧
  (∀ d, retention r = Some (Retention d) → ∃ p, p ∈ l ∧ p_limit p = Retention d) ∧
  (∀ d, query_window r = Some (Window d) → ∃ p, p ∈ l ∧ p_limit p = Window d).

Lemma min_option_Some a b v : min_option a b = Some v → a = Some v ∨ b = Some v.
Proof. destruct a as [a|], b as [b|]; cbn; intros [= <-]; auto. destruct (Z.min_spec a b) as [[_ ->]|[_ ->]]; auto. Qed.

Lemma merge_derived l r p :
  resolved_typed r → p ∈ l → derived r l → derived (merge_policy r p) l.
Proof.
  intros Ht Hin (Hb & Hr & Hq & Hs & Hd & Hw). unfold merge_policy.
  destruct (p_limit p) as [rs bs|m ps pe b|m b|d|d] eqn:Hp; split_and!; cbn; try done.
  - destruct (rate r) as [[rs0 bs0| | | |]|] eqn:Hrate; cbn; intros rs' bs' Heq; simplify_eq; try (by apply Hr).
    + destruct (Hr _ _ eq_refl) as [Hr1 Hr2]. split; intros v [->| ->]%min_option_Some; eauto.
    + split; intros v ->; eauto.
  - intros q [Hq'|Hq']%elem_of_app; [by apply Hq|]. apply list_elem_of_singleton in Hq' as ->. eauto.
  - destruct (size r) as [[| |m0 b0| |]|] eqn:Hsize; cbn; intros m' b' Heq; try case_match; simplify_eq; eauto.
  - destruct (retention r) as [[| | |d0|d0]|] eqn:Hret; cbn; intros d' Heq; try case_match; simplify_eq; eauto.
  - destruct (query_window r) as [[| | |d0|d0]|] eqn:Hwin; cbn; intros d' Heq; try case_match; simplify_eq; eauto.
Qed.

Lemma foldl_merge_derived l l' r :
  resolved_typed r → (∀ p, p ∈ l' → p ∈ l) → derived r l →
  derived (foldl merge_policy r l') l ∧ resolved_typed (foldl merge_policy r l').
Proof.
  revert r. induction l' as [|p l' IH]; intros r Ht Hin Hd; [done|]. cbn. apply IH.
  - by apply merge_typed.
  - intros q Hq. apply Hin. by right.
  - apply merge_derived; [done| |done]. apply Hin. by left.
Qed.

(** *** What a size limit is measured in *)

Definition basis_of (l : PolicyLimit) : option UsageBasis := match l with Size _ b => Some b | _ => None end.

(** The basis of the first size limit. *)
Definition first_basis (l : list Policy) : option UsageBasis := head (omap (λ p, basis_of (p_limit p)) l).

(** [r] is at least as strict as [p]: its limits are no higher, and a size limit
    is measured in the same bytes. *)
Definition covers (r : ResolvedPolicy) (p : Policy) : Prop :=
  caps r p ∧ ∀ m b, p_limit p = Size m b → size r ≫= basis_of = Some b.

Lemma merge_basis r p : resolved_typed r →
  size (merge_policy r p) ≫= basis_of = match size r ≫= basis_of with Some b => Some b | None => basis_of (p_limit p) end.
Proof.
  intros (_ & Hs & _). unfold merge_policy. destruct (p_limit p) as [| |m b| |]; cbn; try by destruct (size r ≫= basis_of).
  destruct (size r) as [l|] eqn:Hsize; [|done]. specialize (Hs l eq_refl). destruct l; try done. cbn. by case_match.
Qed.

(** Merging keeps the basis of the first limit found. *)
Lemma foldl_merge_basis l r : resolved_typed r →
  size (foldl merge_policy r l) ≫= basis_of = match size r ≫= basis_of with Some b => Some b | None => first_basis l end.
Proof.
  revert r. induction l as [|p l IH]; intros r Ht; [unfold first_basis; cbn; by destruct (_ ≫= basis_of)|]. cbn [foldl].
  rewrite IH by by apply merge_typed. rewrite merge_basis by done. unfold first_basis. cbn.
  destruct (_ ≫= basis_of); [done|]. by destruct (basis_of (p_limit p)).
Qed.

Lemma resolved_basis cache ws s o : size (resolve_cached_policy cache ws s o) ≫= basis_of = first_basis (applicable cache ws s o).
Proof. rewrite resolve_fold. by rewrite (foldl_merge_basis _ _ resolved_default_typed). Qed.

(** The cache built from rows. *)
Definition valid_policies (rows : list PolicyRow) : list Policy :=
  omap (λ row, match row_to_policy row with Ok p => Some p | _ => None end) rows.

Lemma rows_to_cache_gen rows cache :
  cache_wf cache →
  let cache' := foldl (λ cache row,
    match row_to_policy row with
    | Ok p => match cache !! policy_key p with Some _ => cache | None => <[policy_key p := p]> cache end
    | _ => cache
    end) cache rows in
  cache_wf cache' ∧
  ∀ key, cache' !! key =
    match cache !! key with
    | Some p => Some p
    | None => head (filter (λ p, policy_key p = key) (valid_policies rows))
    end.
Proof.
  revert cache. induction rows as [|row rows IH]; intros cache Hwf; cbn.
  - split; [done|]. intros key. by destruct (cache !! key).
  - destruct (row_to_policy row) as [p|e|]; [|by apply IH..].
    destruct (cache !! policy_key p) as [q|] eqn:Hq.
    + destruct (IH cache Hwf) as [Hwf' Hl]. split; [done|]. intros key. rewrite Hl.
      destruct (cache !! key) eqn:Hk; [done|]. rewrite filter_cons_False; [done|]. congruence.
    + assert (cache_wf (<[policy_key p := p]> cache)) as Hwf1 by by apply map_Forall_insert_2.
      destruct (IH _ Hwf1) as [Hwf' Hl]. split; [done|]. intros key. rewrite Hl.
      destruct (decide (policy_key p = key)) as [<-|Hne].
      * rewrite lookup_insert_eq, Hq, filter_cons_True by done. done.
      * rewrite lookup_insert_ne, filter_cons_False by done. done.
Qed.

Lemma rows_to_cache_wf rows : cache_wf (rows_to_cache rows).
Proof. apply rows_to_cache_gen. apply map_Forall_empty. Qed.

(** ** Properties *)

(** C35: The resolution of an operation on a signal has limits and thresholds no
    higher than those of any applicable cached policy, exact or catch-all, and
    each limit it sets is one of theirs: the lowest of them, kind by kind, with
    every quota kept. It is at least as strict as each of them with one
    exception, which is exact: a size limit measured in other bytes than the
    first applicable size limit. Merging keeps the basis of the first, so that
    the merged limit, though no higher, is not a limit on what the other
    policy's was; when the first counts scanned bytes, the enforcer checks no
    size at all. *)
Theorem resolve_is_strictest cache ws s o :
  cache_wf cache →
  (∀ p, cache !! policy_key p = Some p → p_workspace_id p = ws →
     p_signal p = s ∨ p_signal p = AllSignals → p_operation p = o ∨ p_operation p = AllOperations →
     caps (resolve_cached_policy cache ws s o) p ∧
     (covers (resolve_cached_policy cache ws s o) p ↔
        ∀ m b, p_limit p = Size m b → first_basis (applicable cache ws s o) = Some b)) ∧
  derived (resolve_cached_policy cache ws s o) (applicable cache ws s o) ∧
  (∀ m b, size (resolve_cached_policy cache ws s o) = Some (Size m b) → first_basis (applicable cache ws s o) = Some b).
Proof.
  intros Hwf. split; [|split].
  - intros p Hp Hws Hs Ho. assert (caps (resolve_cached_policy cache ws s o) p) as Hcap.
    { rewrite resolve_fold. apply foldl_merge_caps; [apply resolved_default_typed|]. left. by apply elem_of_applicable. }
    split; [done|]. unfold covers. rewrite resolved_basis. by split; [intros [_ Hb]|].
  - rewrite resolve_fold. apply foldl_merge_derived; [apply resolved_default_typed|done|].
    split_and!; try done; by intros q ?%not_elem_of_nil.
  - intros m b Hsize. rewrite <-resolved_basis. by rewrite Hsize.
Qed.

(** Refreshing the cache keeps, for every key, the first valid row in the
    order the database returned them, most recently updated first; invalid rows
    hide nothing. *)
Theorem refresh_keeps_newest rows key :
  cache_wf (rows_to_cache rows) ∧
  rows_to_cache rows !! key = head (filter (λ p, policy_key p = key) (valid_policies rows)).
Proof.
  destruct (rows_to_cache_gen rows ∅ (map_Forall_empty _)) as [Hwf Hl]. split; [done|].
  unfold rows_to_cache. rewrite Hl. by rewrite lookup_empty.
Qed.

(** The names of signals, operations and sources read back, and nothing else
    reads. *)
Theorem names_roundtrip v s o src :
  parse_signal_kind (signal_kind s) = Ok s ∧ parse_operation (operation o) = Ok o ∧
  parse_policy_source (policy_source src) = Ok src ∧
  (is_ok (parse_signal_kind v) = true ↔ ∃ s', v = signal_kind s') ∧
  (is_ok (parse_operation v) = true ↔ ∃ o', v = operation o') ∧
  (is_ok (parse_policy_source v) = true ↔ ∃ src', v = policy_source src').
Proof.
  split_and!; [by destruct s|by destruct o|by destruct src|..].
  - split; [|intros [[] ->]; done]. unfold parse_signal_kind. repeat case_decide; intros; subst;
      first [by exists Traces|by exists Logs|by exists Metrics|by exists Rum|by exists SessionReplay
            |by exists ErrorTracking|by exists AllSignals|done].
  - split; [|intros [[] ->]; done]. unfold parse_operation. repeat case_decide; intros; subst;
      first [by exists Ingest|by exists Query|by exists Store|by exists AllOperations|done].
  - split; [|intros [[] ->]; done]. unfold parse_policy_source. repeat case_decide; intros; subst;
      first [by exists SourceApi|by exists SourceFile|by exists SourceEnv|by exists SourceCrd
            |by exists SourceDefault|done].
Qed.

(** A storage limit set for the [store] operation is never applied: writes
    resolve the [ingest] operation, and no entry of [store] enters that
    resolution. *)
Theorem store_limits_ignored_on_ingest cache ws s :
  cache_wf cache →
  (∀ key p, cache !! key = Some p → limit_kind (p_limit p) = "size" → p_operation p = Store) →
  size (resolve_cached_policy cache ws s Ingest) = None.
Proof.
  intros Hwf Hstore. rewrite resolve_fold.
  destruct (foldl_merge_derived (applicable cache ws s Ingest) (applicable cache ws s Ingest)
    resolved_default) as [(_ & _ & _ & Hs & _) (_ & Ht & _)]; [apply resolved_default_typed|done| |].
  { split_and!; try done; by intros q ?%not_elem_of_nil. }
  destruct (size _) as [l|] eqn:Hsize; [|done]. exfalso. specialize (Ht l eq_refl).
  destruct l as [| |m b| |]; try done. destruct (Hs m b eq_refl) as (p & b' & Hp & Hl).
  apply elem_of_applicable in Hp as (Hp & _ & _ & Hop); [|done].
  specialize (Hstore _ p Hp). rewrite Hl in Hstore. rewrite (Hstore eq_refl) in Hop. by destruct Hop.
Qed.

(** ** Witnesses *)

Definition sample_row (id : Z) (s o : string) (l : PolicyLimit) : PolicyRow :=
  mkPolicyRow id 7 s o (Ok l) 101 103 0 None "api".

Definition sample_rows : list PolicyRow :=
  [sample_row 1 "traces" "ingest" (Retention 30); sample_row 2 "all" "all" (Retention 7);
   sample_row 3 "traces" "bogus" (Retention 1); sample_row 4 "all" "ingest" (Quota 1000 0 None CompressedBytes);
   sample_row 5 "traces" "store" (Size 500 CompressedBytes); sample_row 6 "all" "all" (Retention 90)].

Lemma resolve_is_strictest_witness :
  covers (resolve_cached_policy (rows_to_cache sample_rows) 7 Traces Ingest)
    (mkPolicy (Some 2) 7 AllSignals AllOperations (Retention 7) 101 103 0 None SourceApi) ∧
  retention (resolve_cached_policy (rows_to_cache sample_rows) 7 Traces Ingest) = Some (Retention 7).
Proof.
  split; [|vm_compute; reflexivity].
  apply (proj1 (resolve_is_strictest (rows_to_cache sample_rows) 7 Traces Ingest
    (rows_to_cache_wf sample_rows)) (mkPolicy (Some 2) 7 AllSignals AllOperations (Retention 7) 101 103 0 None SourceApi)).
  - vm_compute. reflexivity.
  - reflexivity.
  - right. reflexivity.
  - right. reflexivity.
  - intros m b. discriminate.
Defined.

Lemma store_limits_ignored_on_ingest_witness :
  size (resolve_cached_policy (rows_to_cache sample_rows) 7 Traces Ingest) = None ∧
  size (resolve_cached_policy (rows_to_cache sample_rows) 7 Traces Store) = Some (Size 500 CompressedBytes).
Proof.
  split; [|vm_compute; reflexivity].
  apply (store_limits_ignored_on_ingest (rows_to_cache sample_rows) 7 Traces).
  - apply rows_to_cache_wf.
  - change (map_Forall (λ _ p, limit_kind (p_limit p) = "size" → p_operation p = Store)
      (rows_to_cache sample_rows)).
    apply (bool_decide_eq_true_1 _). vm_compute. reflexivity.
Defined.
