(* ===== verification/Enforcer.v ===== *)
(** The policy enforcer: [zradar-policy/src/enforcer.rs].

    Each check reads the usage so far, emits threshold events and returns a
    decision or nothing; [check_ingest] and [check_query] return the first
    decision and audit it. The events are the output of a writer monad. *)

From stdpp Require Import base gmap list strings sorting.
From S2P Require Import Prelude PolicyStore.

Inductive BlockCode := ProjectBlocked | RateLimitExceeded | QuotaExceeded | SizeExceeded
  | RetentionViolation | QueryWindowViolation.

Inductive Decision :=
| Allow
| AllowWithGrace (reason : string)
| Throttle (retry_after_ms : Z) (reason : string)
| Block (reason : string) (code : BlockCode).

Inductive DecisionSummary := SumAllow | SumGrace | SumThrottle | SumBlock.

Definition decision_summary (d : Decision) : DecisionSummary :=
  match d with
  | Allow => SumAllow
  | AllowWithGrace _ => SumGrace
  | Throttle _ _ => SumThrottle
  | Block _ _ => SumBlock
  end.

#[export] Instance BlockCode_eq_dec : EqDecision BlockCode.
Proof. solve_decision. Defined.
#[export] Instance Decision_eq_dec : EqDecision Decision.
Proof. solve_decision. Defined.

Record IngestCtx := mkIngestCtx {
  ic_workspace_id : Z;
  ic_signal : SignalKind;
  ic_records : Z;
  ic_estimated_bytes : option Z;
  ic_now_micros : Z;
}.

Record QueryCtx := mkQueryCtx {
  qc_workspace_id : Z;
  qc_signal : SignalKind;
  qc_start_micros : option Z;
  qc_end_micros : option Z;
  qc_estimated_scanned_bytes : option Z;
  qc_now_micros : Z;
}.

Record RateSample := mkRateSample {
  records_per_sec : Z;
  bytes_per_sec : Z;
}.

Record ThresholdEvent := mkThresholdEvent {
  te_workspace_id : Z;
  te_signal : SignalKind;
  te_operation : Operation;
  te_limit_kind : string;
  te_threshold_pct : Z;
  te_observed_value : Z;
  te_limit_value : Z;
  te_period_start : option Z;
  te_emitted_at : Z;
}.

Record DecisionAuditEvent := mkDecisionAuditEvent {
  ae_workspace_id : Z;
  ae_signal : SignalKind;
  ae_operation : Operation;
  ae_decision : DecisionSummary;
  ae_reason : string;
  ae_block_code : option BlockCode;
  ae_created_at : Z;
}.

Inductive PolicyEvent := EmitThreshold (e : ThresholdEvent) | EmitAudit (e : DecisionAuditEvent).

(** A computation that emits events. *)
Definition emitting (A : Type) : Type := list PolicyEvent * A.

#[export] Instance emitting_ret : MRet emitting := λ A a, ([], a).
#[export] Instance emitting_bind : MBind emitting :=
  λ A B f m, (m.1 ++ (f m.2).1, (f m.2).2).

(** [UsageReader]; a read that fails is [None], as [.ok()?] treats it. *)
Record UsageReader := mkUsageReader {
  current_rate : Z → SignalKind → Operation → option RateSample;
  period_used_bytes : Z → SignalKind → Operation → Z → option Z → option Z;
  stored_compressed_bytes : Z → SignalKind → option Z;
}.

Definition DAY_MICROS : Z := 86400 * 1000000.

Definition compare_limit_i64 (observed limit grace_pct hard_block_pct : Z) (code : BlockCode)
    (reason : string) : option Decision :=
  if limit <=? 0 then Some (Block reason code)
  else if i64_saturating_mul limit hard_block_pct <=? i64_saturating_mul observed 100
  then Some (Block reason code)
  else if i64_saturating_mul limit grace_pct <? i64_saturating_mul observed 100
  then Some (Throttle 1000 reason)
  else if limit <? observed then Some (AllowWithGrace reason)
  else None.

Definition compare_limit (observed limit grace_pct hard_block_pct : Z) (code : BlockCode)
    (reason : string) : option Decision :=
  compare_limit_i64 (u64_to_i64_saturating observed) (u64_to_i64_saturating limit)
    grace_pct hard_block_pct code reason.

(** [ThresholdContext]. *)
Record ThresholdContext := mkThresholdContext {
  tc_workspace_id : Z;
  tc_signal : SignalKind;
  tc_operation : Operation;
  tc_limit_kind : string;
  tc_emitted_at : Z;
}.

Definition thresholds_from_ingest (ctx : IngestCtx) (op : Operation) (kind : string) : ThresholdContext :=
  mkThresholdContext (ic_workspace_id ctx) (ic_signal ctx) op kind (ic_now_micros ctx).

Definition thresholds_from_query (ctx : QueryCtx) (op : Operation) (kind : string) : ThresholdContext :=
  mkThresholdContext (qc_workspace_id ctx) (qc_signal ctx) op kind (qc_now_micros ctx).

(** [Vec::dedup]. *)
Fixpoint dedup (l : list Z) : list Z :=
  match l with
  | x :: (y :: _) as rest => if x =? y then dedup rest else x :: dedup rest
  | _ => l
  end.

Definition thresholds (hard_block_pct : Z) : list Z :=
  dedup (merge_sort Z.le [70; 90; 100; hard_block_pct]).

Definition emit_thresholds (ctx : ThresholdContext) (observed limit : Z) (period_start : option Z)
    (hard_block_pct : Z) : emitting unit :=
  if limit <=? 0 then mret ()
  else
    (map (λ pct, EmitThreshold (mkThresholdEvent (tc_workspace_id ctx) (tc_signal ctx)
                   (tc_operation ctx) (tc_limit_kind ctx) pct observed limit period_start
                   (tc_emitted_at ctx)))
       (filter (λ pct, i64_saturating_mul limit pct ≤ i64_saturating_mul observed 100)
          (thresholds hard_block_pct)), ()).

Definition check_rate (usage : UsageReader) (ctx : IngestCtx) (rate : option PolicyLimit)
    (op : Operation) (grace_pct hard_block_pct : Z) : emitting (option Decision) :=
  match rate with
  | Some (Rate rps bps) =>
      match current_rate usage (ic_workspace_id ctx) (ic_signal ctx) op with
      | None => mret None
      | Some sample =>
          d ← match rps with
              | Some limit =>
                  let observed := u64_saturating_add (records_per_sec sample) (ic_records ctx) in
                  emit_thresholds (thresholds_from_ingest ctx op "rate_records")
                    (u64_to_i64_saturating observed) (u64_to_i64_saturating limit) None hard_block_pct;;
                  mret (compare_limit observed limit grace_pct hard_block_pct RateLimitExceeded
                          "rate_records_exceeded")
              | None => mret None
              end;
          match d with
          | Some d => mret (Some d)
          | None =>
              match bps, ic_estimated_bytes ctx with
              | Some limit, Some estimated_bytes =>
                  let observed := u64_saturating_add (bytes_per_sec sample) estimated_bytes in
                  emit_thresholds (thresholds_from_ingest ctx op "rate_bytes")
                    (u64_to_i64_saturating observed) (u64_to_i64_saturating limit) None hard_block_pct;;
                  mret (compare_limit observed limit grace_pct hard_block_pct RateLimitExceeded
                          "rate_bytes_exceeded")
              | _, _ => mret None
              end
          end
      end
  | _ => mret None
  end.

Definition check_quota (usage : UsageReader) (ctx : IngestCtx) (quota : PolicyLimit)
    (op : Operation) (grace_pct hard_block_pct : Z) : emitting (option Decision) :=
  match quota with
  | Quota max_bytes period_start period_end basis =>
      if decide (basis ≠ CompressedBytes) then mret None
      else
        match period_used_bytes usage (ic_workspace_id ctx) (ic_signal ctx) op period_start period_end with
        | None => mret None
        | Some used =>
            let observed := i64_saturating_add used
              (u64_to_i64_saturating (default 0 (ic_estimated_bytes ctx))) in
            emit_thresholds (thresholds_from_ingest ctx op "quota") observed max_bytes
              (Some period_start) hard_block_pct;;
            mret (compare_limit_i64 observed max_bytes grace_pct hard_block_pct QuotaExceeded
                    "quota_exceeded")
        end
  | _ => mret None
  end.

Definition check_size (usage : UsageReader) (ctx : IngestCtx) (size : option PolicyLimit)
    (grace_pct hard_block_pct : Z) : emitting (option Decision) :=
  match size with
  | Some (Size max_bytes basis) =>
      if decide (basis ≠ CompressedBytes) then mret None
      else
        match stored_compressed_bytes usage (ic_workspace_id ctx) (ic_signal ctx) with
        | None => mret None
        | Some stored =>
            emit_thresholds (thresholds_from_ingest ctx Store "size") stored max_bytes None
              hard_block_pct;;
            mret (compare_limit_i64 stored max_bytes grace_pct hard_block_pct SizeExceeded
                    "size_exceeded")
        end
  | _ => mret None
  end.

Definition check_query_range (ctx : QueryCtx) (retention query_window : option PolicyLimit) :
    option Decision :=
  let retention_violated :=
    match retention, qc_start_micros ctx with
    | Some (Retention max_days), Some start_micros =>
        start_micros <? i64_saturating_sub (qc_now_micros ctx) (i64_saturating_mul max_days DAY_MICROS)
    | _, _ => false
    end in
  if retention_violated then Some (Block "retention_violation" RetentionViolation)
  else
    let window_violated :=
      match query_window, qc_start_micros ctx, qc_end_micros ctx with
      | Some (Window max_query_days), Some start_micros, Some end_micros =>
          i64_saturating_mul max_query_days DAY_MICROS <? i64_saturating_sub end_micros start_micros
      | _, _, _ => false
      end in
    if window_violated then Some (Block "query_window_violation" QueryWindowViolation) else None.

Definition check_query_rate (usage : UsageReader) (ctx : QueryCtx) (rate : option PolicyLimit)
    (grace_pct hard_block_pct : Z) : emitting (option Decision) :=
  match rate with
  | Some (Rate _ (Some limit)) =>
      match current_rate usage (qc_workspace_id ctx) (qc_signal ctx) Query with
      | None => mret None
      | Some sample =>
          let observed := u64_saturating_add (bytes_per_sec sample)
            (default 0 (qc_estimated_scanned_bytes ctx)) in
          emit_thresholds (thresholds_from_query ctx Query "query_rate_bytes")
            (u64_to_i64_saturating observed) (u64_to_i64_saturating limit) None hard_block_pct;;
          mret (compare_limit observed limit grace_pct hard_block_pct RateLimitExceeded
                  "query_rate_exceeded")
      end
  | _ => mret None
  end.

Definition check_query_quota (usage : UsageReader) (ctx : QueryCtx) (quota : PolicyLimit)
    (grace_pct hard_block_pct : Z) : emitting (option Decision) :=
  match quota with
  | Quota max_bytes period_start period_end basis =>
      if decide (basis ≠ ScannedBytes) then mret None
      else
        match period_used_bytes usage (qc_workspace_id ctx) (qc_signal ctx) Query period_start period_end with
        | None => mret None
        | Some used =>
            let observed := i64_saturating_add used
              (u64_to_i64_saturating (default 0 (qc_estimated_scanned_bytes ctx))) in
            emit_thresholds (thresholds_from_query ctx Query "quota") observed max_bytes
              (Some period_start) hard_block_pct;;
            mret (compare_limit_i64 observed max_bytes grace_pct hard_block_pct QuotaExceeded
                    "query_quota_exceeded")
        end
  | _ => mret None
  end.

Definition decision_reason (d : Decision) : string :=
  match d with
  | Allow => "allow"
  | AllowWithGrace reason => reason
  | Throttle _ reason => reason
  | Block reason _ => reason
  end.

Definition decision_block_code (d : Decision) : option BlockCode :=
  match d with Block _ code => Some code | _ => None end.

(** [AuditContext] is the workspace, signal, operation and time. *)
Definition audit_decision (ws : Z) (s : SignalKind) (op : Operation) (created_at : Z) (d : Decision) :
    emitting unit :=
  match d with
  | Allow => mret ()
  | _ => ([EmitAudit (mkDecisionAuditEvent ws s op (decision_summary d) (decision_reason d)
            (decision_block_code d) created_at)], ())
  end.

(** Audit and return a decision. *)
Definition decide_ingest (ctx : IngestCtx) (op : Operation) (d : Decision) : emitting Decision :=
  audit_decision (ic_workspace_id ctx) (ic_signal ctx) op (ic_now_micros ctx) d;; mret d.

Definition decide_query (ctx : QueryCtx) (d : Decision) : emitting Decision :=
  audit_decision (qc_workspace_id ctx) (qc_signal ctx) Query (qc_now_micros ctx) d;; mret d.

(** The loop over the quotas: the first one with a decision. *)
Fixpoint first_decision (check : PolicyLimit → emitting (option Decision)) (quotas : list PolicyLimit) :
    emitting (option Decision) :=
  match quotas with
  | [] => mret None
  | quota :: rest =>
      d ← check quota;
      match d with Some d => mret (Some d) | None => first_decision check rest end
  end.

Definition check_ingest (usage : UsageReader) (resolve : Z → SignalKind → Operation → ResolvedPolicy)
    (ctx : IngestCtx) : emitting Decision :=
  let resolved := resolve (ic_workspace_id ctx) (ic_signal ctx) Ingest in
  if blocked resolved then decide_ingest ctx Ingest (Block "project_blocked" ProjectBlocked)
  else
    d ← check_rate usage ctx (rate resolved) Ingest (grace_pct resolved) (hard_block_pct resolved);
    match d with
    | Some d => decide_ingest ctx Ingest d
    | None =>
        d ← first_decision (λ quota, check_quota usage ctx quota Ingest (grace_pct resolved)
                                       (hard_block_pct resolved)) (quotas resolved);
        match d with
        | Some d => decide_ingest ctx Ingest d
        | None =>
            d ← check_size usage ctx (size resolved) (grace_pct resolved) (hard_block_pct resolved);
            match d with
            | Some d => decide_ingest ctx Store d
            | None => mret Allow
            end
        end
    end.

Definition check_query (usage : UsageReader) (resolve : Z → SignalKind → Operation → ResolvedPolicy)
    (ctx : QueryCtx) : emitting Decision :=
  let resolved := resolve (qc_workspace_id ctx) (qc_signal ctx) Query in
  match check_query_range ctx (retention resolved) (query_window resolved) with
  | Some d => decide_query ctx d
  | None =>
      d ← check_query_rate usage ctx (rate resolved) (grace_pct resolved) (hard_block_pct resolved);
      match d with
      | Some d => decide_query ctx d
      | None =>
          d ← first_decision (λ quota, check_query_quota usage ctx quota (grace_pct resolved)
                                         (hard_block_pct resolved)) (quotas resolved);
          match d with
          | Some d => decide_query ctx d
          | None => mret Allow
          end
      end
  end.

(** ** Lemmas *)

(** How bad a decision is for the caller. *)
Definition severity (d : option Decision) : Z :=
  match d with
  | None | Some Allow => 0
  | Some (AllowWithGrace _) => 1
  | Some (Throttle _ _) => 2
  | Some (Block _ _) => 3
  end.

Lemma compare_limit_None o l g h code reason :
  compare_limit_i64 o l g h code reason = None → 0 < l ∧ o ≤ l.
Proof. unfold compare_limit_i64. split_ifs; intros; simplify_eq; lia. Qed.

Lemma compare_limit_not_Allow o l g h code reason :
  compare_limit_i64 o l g h code reason ≠ Some Allow.
Proof. unfold compare_limit_i64. by split_ifs. Qed.

Lemma i64_saturating_mul_mono a b c : 0 ≤ c → a ≤ b → i64_saturating_mul a c ≤ i64_saturating_mul b c.
Proof. unfold i64_saturating_mul, i64_clamp. intros. assert (a * c ≤ b * c) by nia. lia. Qed.

Lemma i64_saturating_mul_exact a b : i64_range (a * b) → i64_saturating_mul a b = a * b.
Proof. unfold i64_saturating_mul, i64_clamp, i64_range. lia. Qed.

(** Run one step of an emitting computation. *)
Ltac wstep := cbn beta iota delta [mbind emitting_bind mret emitting_ret fst snd first_decision].
Ltac wstep_in H := cbn beta iota delta [mbind emitting_bind mret emitting_ret fst snd first_decision] in H.

(** The audit events among the emitted ones. *)
Definition audits (l : list PolicyEvent) : list DecisionAuditEvent :=
  omap (λ e, match e with EmitAudit a => Some a | _ => None end) l.

Lemma audits_app l1 l2 : audits (l1 ++ l2) = audits l1 ++ audits l2.
Proof. apply omap_app. Qed.

#[global] Arguments audits : simpl never.

(** A check: its events carry no audit, and it never decides [Allow]. *)
Definition plain_check (m : emitting (option Decision)) : Prop :=
  audits m.1 = [] ∧ m.2 ≠ Some Allow.

Lemma audits_thresholds ctx o l ps h : audits (emit_thresholds ctx o l ps h).1 = [].
Proof.
  unfold emit_thresholds. destruct (l <=? 0); [done|]. cbn. unfold audits.
  induction (filter _ _) as [|x xs IH]; [done|]. cbn. apply IH.
Qed.

Lemma audits_bind {A B} (m : emitting A) (f : A → emitting B) :
  audits (m ≫= f).1 = audits m.1 ++ audits (f m.2).1.
Proof. apply audits_app. Qed.

Lemma plain_compare ctx o l g h ps o' l' code reason :
  plain_check (emit_thresholds ctx o l ps h;; mret (compare_limit_i64 o' l' g h code reason)).
Proof.
  split; [by rewrite audits_bind, audits_thresholds|apply compare_limit_not_Allow].
Qed.

Lemma plain_none : plain_check (mret None).
Proof. done. Qed.

Lemma plain_orelse (m k : emitting (option Decision)) :
  plain_check m → plain_check k →
  plain_check (d ← m; match d with Some d => mret (Some d) | None => k end).
Proof.
  intros [Hm1 Hm2] [Hk1 Hk2]. split.
  - rewrite audits_bind, Hm1. destruct m.2; [reflexivity|exact Hk1].
  - destruct m as [l [d|]]; [exact Hm2|exact Hk2].
Qed.

Lemma plain_check_rate u ctx r op g h : plain_check (check_rate u ctx r op g h).
Proof.
  unfold check_rate. destruct r as [[rps bps| | | |]|]; try apply plain_none.
  destruct (current_rate _ _ _ _) as [s|]; [|apply plain_none].
  apply plain_orelse; [destruct rps|destruct bps, (ic_estimated_bytes ctx)];
    first [apply plain_compare|apply plain_none].
Qed.

Lemma plain_check_quota u ctx q op g h : plain_check (check_quota u ctx q op g h).
Proof.
  unfold check_quota. destruct q; try apply plain_none. case_decide; [apply plain_none|].
  case_match; [apply plain_compare|apply plain_none].
Qed.

Lemma plain_check_size u ctx s g h : plain_check (check_size u ctx s g h).
Proof.
  unfold check_size. destruct s as [[]|]; try apply plain_none. case_decide; [apply plain_none|].
  case_match; [apply plain_compare|apply plain_none].
Qed.

Lemma plain_first_decision check qs :
  (∀ q, plain_check (check q)) → plain_check (first_decision check qs).
Proof.
  intros Hc. induction qs as [|q qs IH]; cbn; [apply plain_none|]. by apply plain_orelse.
Qed.

(** The body of [check_ingest] after the [blocked] test, as one computation. *)
Lemma check_ingest_eq u resolve ctx :
  let r := resolve (ic_workspace_id ctx) (ic_signal ctx) Ingest in
  let rate_d := check_rate u ctx (rate r) Ingest (grace_pct r) (hard_block_pct r) in
  let quota_d := first_decision (λ q, check_quota u ctx q Ingest (grace_pct r) (hard_block_pct r))
                   (quotas r) in
  let size_d := check_size u ctx (size r) (grace_pct r) (hard_block_pct r) in
  (check_ingest u resolve ctx).2 =
    if blocked r then Block "project_blocked" ProjectBlocked
    else match rate_d.2 with
         | Some d => d
         | None => match quota_d.2 with
                   | Some d => d
                   | None => default Allow size_d.2
                   end
         end.
Proof.
  intros r rate_d quota_d size_d. unfold check_ingest. fold r. destruct (blocked r); [done|].
  fold rate_d. destruct rate_d as [? [d|]]; [done|].
  change (first_decision _ _) with quota_d. cbn. destruct quota_d as [? [d|]]; [done|].
  cbn. fold size_d. by destruct size_d as [? [d|]].
Qed.

Lemma first_decision_None check qs q :
  (first_decision check qs).2 = None → q ∈ qs → (check q).2 = None.
Proof.
  induction qs as [|q' qs IH]; [by intros _ ?%not_elem_of_nil|]. wstep.
  destruct (check q') as [e [d|]] eqn:Hq; wstep; [done|]. intros Hr [->|Hin]%elem_of_cons; [by rewrite Hq|].
  by apply IH.
Qed.

Lemma audit_decide_ingest ctx op d :
  audits (decide_ingest ctx op d).1 =
    match d with
    | Allow => []
    | _ => [mkDecisionAuditEvent (ic_workspace_id ctx) (ic_signal ctx) op (decision_summary d)
              (decision_reason d) (decision_block_code d) (ic_now_micros ctx)]
    end.
Proof. by destruct d. Qed.

(** When a limit takes no decision. *)
Definition respected (observed limit grace_pct hard_block_pct : Z) : Prop :=
  0 < limit ∧ observed ≤ limit ∧
  i64_saturating_mul observed 100 ≤ i64_saturating_mul limit grace_pct ∧
  i64_saturating_mul observed 100 < i64_saturating_mul limit hard_block_pct.

Lemma compare_limit_i64_None o l g h code reason :
  compare_limit_i64 o l g h code reason = None ↔ respected o l g h.
Proof. unfold compare_limit_i64, respected. split_ifs; split; intros; try done; lia. Qed.

Lemma rate_None u ctx lim g h :
  (check_rate u ctx lim Ingest g h).2 = None ↔
  (∀ limit b sample, lim = Some (Rate (Some limit) b) →
     current_rate u (ic_workspace_id ctx) (ic_signal ctx) Ingest = Some sample →
     respected (u64_to_i64_saturating (u64_saturating_add (records_per_sec sample) (ic_records ctx)))
       (u64_to_i64_saturating limit) g h) ∧
  (∀ n limit sample bytes, lim = Some (Rate n (Some limit)) →
     current_rate u (ic_workspace_id ctx) (ic_signal ctx) Ingest = Some sample →
     ic_estimated_bytes ctx = Some bytes →
     respected (u64_to_i64_saturating (u64_saturating_add (bytes_per_sec sample) bytes))
       (u64_to_i64_saturating limit) g h).
Proof.
  unfold check_rate. destruct lim as [[rps bps| | | |]|]; try (split; [by split|done]).
  destruct (current_rate _ _ _ _) as [sample|]; [|split; [by split|done]].
  assert ((∃ limit, rps = Some limit ∧ ∃ d, compare_limit (u64_saturating_add (records_per_sec sample) (ic_records ctx))
      limit g h RateLimitExceeded "rate_records_exceeded" = Some d) ∨
    ∀ limit, rps = Some limit → compare_limit (u64_saturating_add (records_per_sec sample) (ic_records ctx))
      limit g h RateLimitExceeded "rate_records_exceeded" = None) as [(limit & -> & d & Hd)|Hrps].
  { destruct rps as [limit|]; [|by right].
    destruct (compare_limit (u64_saturating_add (records_per_sec sample) (ic_records ctx)) limit g h
      RateLimitExceeded "rate_records_exceeded") as [d|] eqn:Hd; [left; eauto|]. right. by intros ? [= <-]. }
  - wstep. rewrite Hd. wstep. split; [done|]. intros [Hr _]. specialize (Hr limit bps sample eq_refl eq_refl).
    apply (compare_limit_i64_None _ _ _ _ RateLimitExceeded "rate_records_exceeded") in Hr.
    unfold compare_limit in Hd. congruence.
  - assert (∀ limit, rps = Some limit → respected (u64_to_i64_saturating (u64_saturating_add (records_per_sec sample)
      (ic_records ctx))) (u64_to_i64_saturating limit) g h) as Hrec
      by (intros limit Hl; apply (compare_limit_i64_None _ _ _ _ RateLimitExceeded "rate_records_exceeded"), Hrps, Hl).
    trans (∀ limit bytes, bps = Some limit → ic_estimated_bytes ctx = Some bytes →
      compare_limit (u64_saturating_add (bytes_per_sec sample) bytes) limit g h RateLimitExceeded "rate_bytes_exceeded" = None).
    + destruct rps as [limit|]; wstep; [rewrite (Hrps limit eq_refl); wstep|];
        (destruct bps as [l|], (ic_estimated_bytes ctx) as [b|]; wstep;
         [split; [by intros Hc ? ? [= <-] [= <-]|intros Hc; by apply Hc]|by split..]).
    + split.
      * intros Hb. split; [by intros ? ? ? [= -> ->] [= <-]; apply Hrec|].
        intros ? ? ? ? [= -> ->] [= <-] He.
        by apply (compare_limit_i64_None _ _ _ _ RateLimitExceeded "rate_bytes_exceeded"), Hb.
      * intros [_ Hb] l b -> He. by apply compare_limit_i64_None, (Hb rps l sample b).
Qed.

Lemma quotas_None u ctx qs g h :
  (first_decision (λ q, check_quota u ctx q Ingest g h) qs).2 = None ↔
  ∀ max ps pe used, Quota max ps pe CompressedBytes ∈ qs →
    period_used_bytes u (ic_workspace_id ctx) (ic_signal ctx) Ingest ps pe = Some used →
    respected (i64_saturating_add used (u64_to_i64_saturating (default 0 (ic_estimated_bytes ctx)))) max g h.
Proof.
  trans (∀ q, q ∈ qs → (check_quota u ctx q Ingest g h).2 = None).
  { split; [intros Hf q Hq; exact (first_decision_None _ qs q Hf Hq)|].
    induction qs as [|q qs IH]; intros Hall; [done|]. wstep. pose proof (Hall q ltac:(by left)) as Hq.
    destruct (check_quota u ctx q Ingest g h) as [e d]. cbn in Hq. subst d. wstep. apply IH.
    intros q' Hq'. apply Hall. by right. }
  split.
  - intros Hall max ps pe used Hin Hused. specialize (Hall _ Hin). unfold check_quota in Hall.
    rewrite Hused in Hall. wstep_in Hall. by apply compare_limit_i64_None in Hall.
  - intros Hall q Hin. unfold check_quota. destruct q as [|max ps pe basis| | |]; try done.
    case_decide as Hb; [done|]. assert (basis = CompressedBytes) as -> by (by destruct basis).
    destruct (period_used_bytes _ _ _ _ _ _) as [used|] eqn:Hused; [|done]. wstep.
    apply compare_limit_i64_None. by eapply Hall.
Qed.

Lemma size_None u ctx lim g h :
  (check_size u ctx lim g h).2 = None ↔
  ∀ max stored, lim = Some (Size max CompressedBytes) →
    stored_compressed_bytes u (ic_workspace_id ctx) (ic_signal ctx) = Some stored → respected stored max g h.
Proof.
  unfold check_size. destruct lim as [[| |max basis| |]|]; try by split.
  case_decide as Hb; [split; [by intros _ ? ? [= ? ->]|done]|].
  assert (basis = CompressedBytes) as -> by (by destruct basis).
  destruct (stored_compressed_bytes _ _ _) as [stored|]; [|by split].
  change (compare_limit_i64 stored max g h SizeExceeded "size_exceeded" = None ↔
    ∀ max' stored', Some (Size max CompressedBytes) = Some (Size max' CompressedBytes) →
      Some stored = Some stored' → respected stored' max' g h).
  rewrite compare_limit_i64_None.
  split; [by intros Hr ? ? [= <-] [= <-]|intros Hr; by apply Hr].
Qed.

Lemma check_ingest_allow u resolve ctx :
  let r := resolve (ic_workspace_id ctx) (ic_signal ctx) Ingest in
  (check_ingest u resolve ctx).2 = Allow ↔
    blocked r = false ∧
    (check_rate u ctx (rate r) Ingest (grace_pct r) (hard_block_pct r)).2 = None ∧
    (first_decision (λ q, check_quota u ctx q Ingest (grace_pct r) (hard_block_pct r)) (quotas r)).2 = None ∧
    (check_size u ctx (size r) (grace_pct r) (hard_block_pct r)).2 = None.
Proof.
  intros r. rewrite check_ingest_eq. cbv zeta. fold r. destruct (blocked r); [by split; [|intros []]|].
  pose proof (plain_check_rate u ctx (rate r) Ingest (grace_pct r) (hard_block_pct r)) as [_ Hnr].
  pose proof (plain_first_decision (λ q, check_quota u ctx q Ingest (grace_pct r) (hard_block_pct r))
    (quotas r) ltac:(intros; apply plain_check_quota)) as [_ Hnq].
  pose proof (plain_check_size u ctx (size r) (grace_pct r) (hard_block_pct r)) as [_ Hns].
  destruct (check_rate _ _ _ _ _ _).2 as [d|]; [split; [intros ->; congruence|by intros (_ & ? & _)]|].
  destruct (first_decision _ _).2 as [d|]; [split; [intros ->; congruence|by intros (_ & _ & ? & _)]|].
  destruct (check_size _ _ _ _ _).2 as [d|]; cbn; [split; [intros ->; congruence|by intros (_ & _ & _ & ?)]|].
  split; [intros _; by split_and!|done].
Qed.

(** ** Properties *)

(** Within 64 bits the comparison is exact: limits at or below zero block,
    usage at [hard_block_pct] percent of the limit blocks, above [grace_pct]
    percent throttles, above the limit passes with grace, else it passes. *)
Theorem compare_limit_exact o l g h code reason :
  0 ≤ o → 100 * o ≤ i64_max → 0 ≤ g ≤ 255 → 0 ≤ h ≤ 255 → 255 * l ≤ i64_max → i64_min ≤ l →
  compare_limit_i64 o l g h code reason =
    if l <=? 0 then Some (Block reason code)
    else if h * l <=? 100 * o then Some (Block reason code)
    else if g * l <? 100 * o then Some (Throttle 1000 reason)
    else if l <? o then Some (AllowWithGrace reason)
    else None.
Proof.
  intros Ho Ho2 Hg Hh Hl Hl2. unfold compare_limit_i64. destruct (Z.leb_spec l 0); [done|].
  unfold i64_max, i64_min in *.
  rewrite !i64_saturating_mul_exact by (unfold i64_range, i64_min, i64_max; nia).
  by rewrite (Z.mul_comm l h), (Z.mul_comm l g), (Z.mul_comm o 100).
Qed.

(** More usage never gets a milder decision, saturation included. *)
Theorem compare_limit_monotone o1 o2 l g h code reason :
  o1 ≤ o2 → severity (compare_limit_i64 o1 l g h code reason) ≤
            severity (compare_limit_i64 o2 l g h code reason).
Proof.
  intros Ho. pose proof (i64_saturating_mul_mono o1 o2 100 ltac:(lia) Ho).
  unfold compare_limit_i64. split_ifs; cbn; lia.
Qed.

(** The saturating products make huge limits unusable: once a hundred times the
    usage leaves 64 bits, a limit whose product saturates too blocks, however
    far the usage is below it. *)
Theorem saturated_limit_blocks o l g h code reason :
  i64_max ≤ 100 * o → i64_max ≤ l * h → 0 < l →
  compare_limit_i64 o l g h code reason = Some (Block reason code).
Proof.
  intros Ho Hl Hpos. unfold compare_limit_i64. rewrite (proj2 (Z.leb_gt _ _)) by done.
  rewrite (proj2 (Z.leb_le _ _)); [done|]. unfold i64_saturating_mul, i64_clamp. lia.
Qed.

(** C10: An ingest request is allowed outright exactly when the workspace is not
    blocked and every limit that applies to ingest and whose usage can be read
    is respected: the record rate with the records of the request, the byte
    rate when the request says how many bytes it is, every quota on compressed
    bytes, and the stored size. A limit is respected when it is above zero and
    the usage neither exceeds it nor reaches its grace and blocking bands. *)
Theorem allowed_ingest_within_limits u resolve ctx :
  let r := resolve (ic_workspace_id ctx) (ic_signal ctx) Ingest in
  let ok observed limit := respected observed limit (grace_pct r) (hard_block_pct r) in
  (check_ingest u resolve ctx).2 = Allow ↔
  blocked r = false ∧
  (∀ limit b sample, rate r = Some (Rate (Some limit) b) →
     current_rate u (ic_workspace_id ctx) (ic_signal ctx) Ingest = Some sample →
     ok (u64_to_i64_saturating (u64_saturating_add (records_per_sec sample) (ic_records ctx)))
       (u64_to_i64_saturating limit)) ∧
  (∀ n limit sample bytes, rate r = Some (Rate n (Some limit)) →
     current_rate u (ic_workspace_id ctx) (ic_signal ctx) Ingest = Some sample →
     ic_estimated_bytes ctx = Some bytes →
     ok (u64_to_i64_saturating (u64_saturating_add (bytes_per_sec sample) bytes))
       (u64_to_i64_saturating limit)) ∧
  (∀ max ps pe used, Quota max ps pe CompressedBytes ∈ quotas r →
     period_used_bytes u (ic_workspace_id ctx) (ic_signal ctx) Ingest ps pe = Some used →
     ok (i64_saturating_add used (u64_to_i64_saturating (default 0 (ic_estimated_bytes ctx)))) max) ∧
  (∀ max stored, size r = Some (Size max CompressedBytes) →
     stored_compressed_bytes u (ic_workspace_id ctx) (ic_signal ctx) = Some stored → ok stored max).
Proof.
  intros r ok. rewrite check_ingest_allow. fold r. rewrite rate_None, quotas_None, size_None. subst ok.
  split; [intros (? & [? ?] & ? & ?)|intros (? & ? & ? & ? & ?)]; by split_and!.
Qed.

(** A milder verdict hides a harder one: the first check with any decision ends
    the evaluation, so a request whose record rate is within its grace band is
    let through although a quota of the workspace says [Block]. *)
Theorem grace_hides_block u resolve ctx quota reason reason' code :
  let r := resolve (ic_workspace_id ctx) (ic_signal ctx) Ingest in
  blocked r = false →
  (check_rate u ctx (rate r) Ingest (grace_pct r) (hard_block_pct r)).2 = Some (AllowWithGrace reason) →
  quota ∈ quotas r →
  (check_quota u ctx quota Ingest (grace_pct r) (hard_block_pct r)).2 = Some (Block reason' code) →
  (check_ingest u resolve ctx).2 = AllowWithGrace reason ∧
  severity (Some (check_ingest u resolve ctx).2) <
    severity (check_quota u ctx quota Ingest (grace_pct r) (hard_block_pct r)).2.
Proof.
  intros r Hb Hrate Hin Hq. rewrite check_ingest_eq. cbv zeta. fold r. by rewrite Hb, Hrate, Hq.
Qed.

(** Auditing: an ingest check emits exactly one audit event, with the reason
    and block code of the decision it returns, when that is not [Allow], and
    none when it is. *)
Theorem ingest_audited_once u resolve ctx :
  ∃ op, audits (check_ingest u resolve ctx).1 =
    let d := (check_ingest u resolve ctx).2 in
    if bool_decide (d = Allow) then []
    else [mkDecisionAuditEvent (ic_workspace_id ctx) (ic_signal ctx) op (decision_summary d)
            (decision_reason d) (decision_block_code d) (ic_now_micros ctx)].
Proof.
  unfold check_ingest. destruct (blocked _); [by exists Ingest|].
  set (r := resolve _ _ _).
  destruct (plain_check_rate u ctx (rate r) Ingest (grace_pct r) (hard_block_pct r)) as [Hr Hnr].
  destruct (check_rate _ _ _ _ _ _) as [le [d|]]; cbn in *.
  { exists Ingest. rewrite audits_app, Hr. by destruct d. }
  destruct (plain_first_decision (λ q, check_quota u ctx q Ingest (grace_pct r) (hard_block_pct r))
    (quotas r) ltac:(intros; apply plain_check_quota)) as [Hq Hnq].
  destruct (first_decision _ _) as [lq [d|]]; cbn in *.
  { exists Ingest. rewrite !audits_app, Hr, Hq. by destruct d. }
  destruct (plain_check_size u ctx (size r) (grace_pct r) (hard_block_pct r)) as [Hs Hns].
  destruct (check_size _ _ _ _ _) as [ls [d|]]; cbn in *.
  { exists Store. rewrite !audits_app, Hr, Hq, Hs. by destruct d. }
  exists Ingest. by rewrite !audits_app, Hr, Hq, Hs.
Qed.

(** Reads that fail open: with no readable usage, a workspace that is not
    blocked is allowed whatever its limits. *)
Theorem unreadable_usage_allows u resolve ctx :
  (∀ ws s op, current_rate u ws s op = None) →
  (∀ ws s op ps pe, period_used_bytes u ws s op ps pe = None) →
  (∀ ws s, stored_compressed_bytes u ws s = None) →
  blocked (resolve (ic_workspace_id ctx) (ic_signal ctx) Ingest) = false →
  check_ingest u resolve ctx = ([], Allow).
Proof.
  intros Hr Hq Hs Hb. unfold check_ingest. rewrite Hb. set (r := resolve _ _ _).
  assert (check_rate u ctx (rate r) Ingest (grace_pct r) (hard_block_pct r) = ([], None)) as ->.
  { unfold check_rate. destruct (rate r) as [[]|]; try reflexivity. by rewrite Hr. }
  assert (first_decision (λ q, check_quota u ctx q Ingest (grace_pct r) (hard_block_pct r)) (quotas r)
    = ([], None)) as Hf.
  { induction (quotas r) as [|q qs IH]; [done|]. wstep.
    assert (check_quota u ctx q Ingest (grace_pct r) (hard_block_pct r) = ([], None)) as ->; [|wstep; by rewrite IH].
    unfold check_quota. destruct q; try reflexivity. case_decide; [reflexivity|]. by rewrite Hq. }
  wstep. rewrite Hf. wstep.
  assert (check_size u ctx (size r) (grace_pct r) (hard_block_pct r) = ([], None)) as ->; [|reflexivity].
  unfold check_size. destruct (size r) as [[]|]; try reflexivity. case_decide; [reflexivity|]. by rewrite Hs.
Qed.

(** ** Resolution and enforcement together *)

Definition scanned_size (r : ResolvedPolicy) : Prop := ∃ m, size r = Some (Size m ScannedBytes).

Lemma merge_scanned_size r p : scanned_size r → scanned_size (merge_policy r p).
Proof.
  intros [m Hm]. unfold scanned_size, merge_policy. destruct (p_limit p); cbn; eauto.
  rewrite Hm. cbn. case_match; eauto.
Qed.

Lemma foldl_merge_scanned_size l r : scanned_size r → scanned_size (foldl merge_policy r l).
Proof. revert r. induction l as [|p l IH]; intros r Hr; [done|]. cbn. by apply IH, merge_scanned_size. Qed.

(** A size limit on scanned bytes masks every other size limit: merging keeps
    the basis of the first limit found, the size check applies to compressed
    bytes only, so the merged limit, however low, is never enforced. *)
Theorem scanned_size_limit_masks cache ws s p m u ctx g h :
  cache_wf cache → cache !! cache_key ws s Ingest "size" = Some p →
  p_limit p = Size m ScannedBytes →
  check_size u ctx (size (resolve_cached_policy cache ws s Ingest)) g h = ([], None).
Proof.
  intros Hwf Hp Hl.
  assert (scanned_size (resolve_cached_policy cache ws s Ingest)) as [m' Hm'];
    [|by rewrite Hm'].
  rewrite resolve_fold. unfold applicable. rewrite foldl_merge_omap.
  change (resolution_keys ws s Ingest) with
    (cache_key ws s Ingest "rate" :: cache_key ws s Ingest "size" ::
       drop 2 (resolution_keys ws s Ingest)).
  cbn [foldl]. rewrite <-foldl_merge_omap. apply foldl_merge_scanned_size.
  unfold merge_cached at 1. rewrite Hp.
  unfold merge_cached. destruct (cache !! cache_key ws s Ingest "rate") as [q|] eqn:Hq.
  - apply Hwf in Hq. unfold policy_key, cache_key in Hq.
    assert (limit_kind (p_limit q) = "rate") as Hk by congruence.
    unfold scanned_size, merge_policy. rewrite Hl. destruct (p_limit q); try done. cbn. eauto.
  - unfold scanned_size, merge_policy. rewrite Hl. cbn. eauto.
Qed.

(** ** Witnesses *)

Definition sample_usage : UsageReader :=
  mkUsageReader (λ _ _ _, Some (mkRateSample 100 0)) (λ _ _ _ _ _, Some 5000) (λ _ _, Some 400).

Definition sample_ctx : IngestCtx := mkIngestCtx 7 Traces 10 None 0.

Definition sample_resolve (_ : Z) (_ : SignalKind) (_ : Operation) : ResolvedPolicy :=
  mkResolvedPolicy false (Some (Rate (Some 109) None)) [Quota 1000 0 None CompressedBytes] None None None
    101 103.

Lemma compare_limit_exact_witness :
  compare_limit_i64 1029 1000 101 103 QuotaExceeded "quota_exceeded" = Some (Throttle 1000 "quota_exceeded").
Proof.
  apply (compare_limit_exact 1029 1000 101 103 QuotaExceeded "quota_exceeded");
    unfold i64_max, i64_min; lia.
Defined.

Lemma compare_limit_monotone_witness :
  severity (compare_limit_i64 1005 1000 101 103 QuotaExceeded "q") ≤
  severity (compare_limit_i64 1015 1000 101 103 QuotaExceeded "q").
Proof. apply (compare_limit_monotone 1005 1015). lia. Defined.

Lemma saturated_limit_blocks_witness :
  compare_limit_i64 100000000000000000 4000000000000000000 101 103 SizeExceeded "size_exceeded" =
    Some (Block "size_exceeded" SizeExceeded).
Proof. apply saturated_limit_blocks; unfold i64_max; lia. Defined.

Lemma allowed_ingest_within_limits_witness :
  let resolve := resolve_cached_policy (rows_to_cache sample_rows) in
  (check_ingest (mkUsageReader (λ _ _ _, None) (λ _ _ _ _ _, Some 900) (λ _ _, None)) resolve
     sample_ctx).2 = Allow ∧
  ∀ max ps pe used, Quota max ps pe CompressedBytes ∈ quotas (resolve 7 Traces Ingest) →
     Some 900 = Some used →
     respected (i64_saturating_add used 0) max (grace_pct (resolve 7 Traces Ingest))
       (hard_block_pct (resolve 7 Traces Ingest)).
Proof.
  set (u := mkUsageReader _ _ _). split; [vm_compute; reflexivity|].
  exact (proj1 (proj2 (proj2 (proj2 (proj1 (allowed_ingest_within_limits u
    (resolve_cached_policy (rows_to_cache sample_rows)) sample_ctx) ltac:(vm_compute; reflexivity)))))).
Defined.

Lemma grace_hides_block_witness :
  (check_ingest sample_usage sample_resolve sample_ctx).2 = AllowWithGrace "rate_records_exceeded".
Proof.
  apply (grace_hides_block sample_usage sample_resolve sample_ctx (Quota 1000 0 None CompressedBytes)
    "rate_records_exceeded" "quota_exceeded" QuotaExceeded).
  - reflexivity.
  - vm_compute. reflexivity.
  - left.
  - vm_compute. reflexivity.
Defined.

Lemma unreadable_usage_allows_witness :
  check_ingest (mkUsageReader (λ _ _ _, None) (λ _ _ _ _ _, None) (λ _ _, None)) sample_resolve sample_ctx =
    ([], Allow).
Proof. apply unreadable_usage_allows; reflexivity. Defined.

Lemma scanned_size_limit_masks_witness :
  let rows := [sample_row 1 "traces" "ingest" (Size 1000 ScannedBytes);
               sample_row 2 "all" "all" (Size 10 CompressedBytes)] in
  size (resolve_cached_policy (rows_to_cache rows) 7 Traces Ingest) = Some (Size 10 ScannedBytes) ∧
  check_size sample_usage sample_ctx (size (resolve_cached_policy (rows_to_cache rows) 7 Traces Ingest)) 101 103
    = ([], None).
Proof.
  set (rows := [_; _]). split; [vm_compute; reflexivity|].
  apply (scanned_size_limit_masks (rows_to_cache rows) 7 Traces
    (mkPolicy (Some 1) 7 Traces Ingest (Size 1000 ScannedBytes) 101 103 0 None SourceApi) 1000).
  - apply rows_to_cache_wf.
  - vm_compute. reflexivity.
  - reflexivity.
Defined.
