(* ===== verification/Usage.v ===== *)
(** The in-memory usage tracker: [zradar-policy/src/usage.rs].

    Samples are kept per workspace, signal and operation in a concurrent map
    whose iteration order is unspecified; the reads sum over it with saturating
    additions. *)

From stdpp Require Import base gmap list strings sorting.
From S2P Require Import Prelude PolicyStore Enforcer.

#[export] Instance SignalKind_countable : Countable SignalKind.
Proof.
  apply (inj_countable' signal_kind (λ v, match parse_signal_kind v with Ok s => s | _ => AllSignals end)).
  by intros [].
Defined.
#[export] Instance Operation_countable : Countable Operation.
Proof.
  apply (inj_countable' operation (λ v, match parse_operation v with Ok o => o | _ => AllOperations end)).
  by intros [].
Defined.

(** [UsageKey] and [StoredKey]. *)
Abbreviation UsageKey := (Z * SignalKind * Operation)%type.
Abbreviation StoredKey := (Z * SignalKind)%type.

Record UsagePoint := mkUsagePoint {
  at_micros : Z;
  up_records : Z;
  up_bytes : Z;
}.

Record InMemoryUsageTracker := mkUsageTracker {
  events : gmap UsageKey (list UsagePoint);
  stored : gmap StoredKey Z;
}.

Definition tracker_new : InMemoryUsageTracker := mkUsageTracker ∅ ∅.

Record WriteSample := mkWriteSample {
  ws_workspace_id : Z;
  ws_signal : SignalKind;
  ws_compressed_bytes : Z;
  ws_records : Z;
  ws_flushed_at : Z;
}.

Record QuerySample := mkQuerySample {
  qs_workspace_id : Z;
  qs_signal : SignalKind;
  qs_bytes_scanned : Z;
  qs_submitted_at : Z;
}.

(** [u64::try_from(i64).unwrap_or(0)]. *)
Definition i64_to_u64_or_0 (z : Z) : Z := if 0 <=? z then z else 0.

Definition record_point (t : InMemoryUsageTracker) (key : UsageKey) (point : UsagePoint) :
    InMemoryUsageTracker :=
  mkUsageTracker (<[key := default [] (events t !! key) ++ [point]]> (events t)) (stored t).

Definition add_stored_compressed_bytes (t : InMemoryUsageTracker) (ws : Z) (s : SignalKind) (bytes : Z) :
    InMemoryUsageTracker :=
  mkUsageTracker (events t)
    (<[(ws, s) := match stored t !! (ws, s) with
                  | Some value => i64_saturating_add value bytes
                  | None => bytes
                  end]> (stored t)).

Definition record_write (t : InMemoryUsageTracker) (sample : WriteSample) : InMemoryUsageTracker :=
  let t := record_point t (ws_workspace_id sample, ws_signal sample, Ingest)
             (mkUsagePoint (ws_flushed_at sample) (i64_to_u64_or_0 (ws_records sample))
                (i64_to_u64_or_0 (ws_compressed_bytes sample))) in
  add_stored_compressed_bytes t (ws_workspace_id sample) (ws_signal sample) (ws_compressed_bytes sample).

Definition record_query (t : InMemoryUsageTracker) (sample : QuerySample) : InMemoryUsageTracker :=
  record_point t (qs_workspace_id sample, qs_signal sample, Query)
    (mkUsagePoint (qs_submitted_at sample) 1 (i64_to_u64_or_0 (qs_bytes_scanned sample))).

Definition usage_key_matches (key : UsageKey) (ws : Z) (s : SignalKind) (op : Operation) : bool :=
  (key.1.1 =? ws) && bool_decide (s = AllSignals ∨ key.1.2 = s) &&
    bool_decide (op = AllOperations ∨ key.2 = op).

(** The nested loops of the reads, over the entries in iteration order. *)
Definition fold_points {S : Type} (f : S → UsagePoint → S) (ws : Z) (s : SignalKind) (op : Operation)
    (entries : list (UsageKey * list UsagePoint)) (acc : S) : S :=
  foldl (λ acc entry, if usage_key_matches entry.1 ws s op then foldl f acc entry.2 else acc) acc entries.

Definition tracker_current_rate (entries : list (UsageKey * list UsagePoint)) (now : Z)
    (ws : Z) (s : SignalKind) (op : Operation) : RateSample :=
  let cutoff := i64_saturating_sub now 1000000 in
  let '(records, bytes) :=
    fold_points (λ acc p, if cutoff <=? at_micros p
                          then (u64_saturating_add acc.1 (up_records p), u64_saturating_add acc.2 (up_bytes p))
                          else acc) ws s op entries (0, 0) in
  mkRateSample records bytes.

Definition in_period (period_start : Z) (period_end : option Z) (p : UsagePoint) : bool :=
  (period_start <=? at_micros p) &&
    match period_end with None => true | Some e => at_micros p <? e end.

Definition tracker_period_used_bytes (entries : list (UsageKey * list UsagePoint))
    (ws : Z) (s : SignalKind) (op : Operation) (period_start : Z) (period_end : option Z) : Z :=
  fold_points (λ used p, if in_period period_start period_end p
                         then i64_saturating_add used (u64_to_i64_saturating (up_bytes p)) else used)
    ws s op entries 0.

Definition tracker_stored_bytes (entries : list (StoredKey * Z)) (ws : Z) (s : SignalKind) : Z :=
  foldl (λ acc entry, if (entry.1.1 =? ws) && bool_decide (s = AllSignals ∨ entry.1.2 = s)
                      then i64_saturating_add acc entry.2 else acc) 0 entries.

(** [FanoutUsageTracker]. *)
Definition fanout_record_write (targets : list InMemoryUsageTracker) (sample : WriteSample) :
    list InMemoryUsageTracker := map (λ t, record_write t sample) targets.

(** ** Specification: the history of samples *)

Inductive Sample := SWrite (s : WriteSample) | SQuery (s : QuerySample).

Definition record_sample (t : InMemoryUsageTracker) (s : Sample) : InMemoryUsageTracker :=
  match s with SWrite s => record_write t s | SQuery s => record_query t s end.

Definition sample_key (s : Sample) : UsageKey :=
  match s with
  | SWrite s => (ws_workspace_id s, ws_signal s, Ingest)
  | SQuery s => (qs_workspace_id s, qs_signal s, Query)
  end.

Definition sample_point (s : Sample) : UsagePoint :=
  match s with
  | SWrite s => mkUsagePoint (ws_flushed_at s) (i64_to_u64_or_0 (ws_records s))
                  (i64_to_u64_or_0 (ws_compressed_bytes s))
  | SQuery s => mkUsagePoint (qs_submitted_at s) 1 (i64_to_u64_or_0 (qs_bytes_scanned s))
  end.

Definition tracker_after (hist : list Sample) : InMemoryUsageTracker := foldl record_sample tracker_new hist.

(** ** Lemmas *)

Lemma tracker_after_snoc hist s : tracker_after (hist ++ [s]) = record_sample (tracker_after hist) s.
Proof. unfold tracker_after. by rewrite foldl_app. Qed.

(** What the map holds for a key: the points of the history with that key. *)
Lemma events_after hist key :
  default [] (events (tracker_after hist) !! key) =
    map sample_point (filter (λ s, sample_key s = key) hist).
Proof.
  induction hist as [|s hist IH] using rev_ind; [done|].
  rewrite tracker_after_snoc.
  assert (events (record_sample (tracker_after hist) s) =
    <[sample_key s := default [] (events (tracker_after hist) !! sample_key s) ++ [sample_point s]]>
      (events (tracker_after hist))) as -> by by destruct s.
  destruct (decide (sample_key s = key)) as [Hk|Hk].
  - rewrite filter_snoc_keep, map_app, <-IH by done. subst key. by rewrite lookup_insert_eq.
  - rewrite filter_snoc_drop, <-IH by done. by rewrite lookup_insert_ne.
Qed.

(** A sum over all points of all entries. *)
Definition entries_sum (f : UsageKey → UsagePoint → Z) (entries : list (UsageKey * list UsagePoint)) : Z :=
  zsum (map (λ e, zsum (map (f e.1) e.2)) entries).

#[local] Instance entries_sum_Permutation (f : UsageKey → UsagePoint → Z) : Proper ((≡ₚ) ==> (=)) (entries_sum f).
Proof. intros l k Hp. unfold entries_sum. by rewrite Hp. Qed.

Lemma entries_sum_insert (f : UsageKey → UsagePoint → Z) (m : gmap UsageKey (list UsagePoint)) (key : UsageKey) (p : UsagePoint) :
  entries_sum f (map_to_list (<[key := default [] (m !! key) ++ [p]]> m)) =
    entries_sum f (map_to_list m) + f key p.
Proof.
  destruct (m !! key) as [l|] eqn:Hk; cbn [default].
  - rewrite <-(map_to_list_delete m key l Hk), <-(insert_delete_eq m key).
    rewrite map_to_list_insert by apply lookup_delete_eq.
    unfold entries_sum. cbn. rewrite map_app, !zsum_cons, zsum_app. cbn. rewrite zsum_cons, zsum_nil. lia.
  - rewrite map_to_list_insert by done. unfold entries_sum. cbn. rewrite !zsum_cons, zsum_nil. lia.
Qed.

(** Sums over the map are sums over the history. *)
Lemma entries_sum_history (f : UsageKey → UsagePoint → Z) hist entries :
  entries ≡ₚ map_to_list (events (tracker_after hist)) →
  entries_sum f entries = zsum (map (λ s, f (sample_key s) (sample_point s)) hist).
Proof.
  intros ->. induction hist as [|s hist IH] using rev_ind; [done|].
  rewrite tracker_after_snoc, map_app, zsum_app.
  assert (events (record_sample (tracker_after hist) s) =
    <[sample_key s := default [] (events (tracker_after hist) !! sample_key s) ++ [sample_point s]]>
      (events (tracker_after hist))) as -> by by destruct s.
  rewrite entries_sum_insert, IH. cbn. rewrite zsum_cons, zsum_nil. lia.
Qed.

(** The bytes a point adds when it is counted. *)
Definition counted (f : UsagePoint → Z) (g : UsagePoint → bool) (p : UsagePoint) : Z :=
  if g p then f p else 0.

Lemma foldl_counted (f : UsagePoint → Z) (g : UsagePoint → bool) (ps : list UsagePoint) (acc : Z) :
  foldl (λ used p, if g p then i64_saturating_add used (f p) else used) acc ps =
    foldl i64_saturating_add acc (map f (filter (λ p, g p = true) ps)).
Proof.
  revert acc. induction ps as [|p ps IH]; intros acc; [done|]. cbn [foldl].
  rewrite IH, filter_cons. by destruct (g p); case_decide.
Qed.

Lemma zsum_filter (f : UsagePoint → Z) (g : UsagePoint → bool) (ps : list UsagePoint) :
  zsum (map f (filter (λ p, g p = true) ps)) = zsum (map (counted f g) ps).
Proof.
  induction ps as [|p ps IH]; [done|]. unfold counted in *.
  rewrite filter_cons. cbn [map]. rewrite zsum_cons, <-IH.
  destruct (g p); case_decide; try congruence; cbn; rewrite ?zsum_cons; lia.
Qed.

Lemma counted_nonneg (f : UsagePoint → Z) (g : UsagePoint → bool) (ps : list UsagePoint) : Forall (λ p, 0 ≤ f p) ps → Forall (Z.le 0) (map (counted f g) ps).
Proof.
  intros Hps. apply Forall_map. eapply Forall_impl; [exact Hps|]. intros p Hp. unfold counted.
  cbn. by destruct (g p).
Qed.

(** The nested loop with a saturating addition saturates the sum. *)
Lemma fold_points_saturating (f : UsagePoint → Z) (g : UsagePoint → bool) ws s op entries acc :
  Forall (λ e, Forall (λ p, 0 ≤ f p) e.2) entries → 0 ≤ acc ≤ i64_max →
  fold_points (λ used p, if g p then i64_saturating_add used (f p) else used) ws s op entries acc =
    Z.min (acc + entries_sum (λ key p, if usage_key_matches key ws s op then counted f g p else 0) entries)
      i64_max.
Proof.
  intros Hf. unfold fold_points, entries_sum. revert acc.
  induction Hf as [|[key ps] entries Hps Hf IH]; intros acc Hacc; cbn [foldl map fst snd].
  { rewrite zsum_nil. lia. }
  cbn in Hps. pose proof (zsum_nonneg _ (counted_nonneg f g ps Hps)) as Hnn.
  assert (0 ≤ zsum (map (λ e, zsum (map (λ p, if usage_key_matches e.1 ws s op then counted f g p else 0) e.2))
    entries)) as Hnn'.
  { apply zsum_nonneg, Forall_map. eapply Forall_impl; [exact Hf|]. intros e He. cbn.
    destruct (usage_key_matches e.1 ws s op).
    - by apply zsum_nonneg, counted_nonneg.
    - apply zsum_nonneg, Forall_map, Forall_true. done. }
  destruct (usage_key_matches key ws s op).
  - rewrite foldl_counted, i64_saturating_sum, zsum_filter by
      (first [done | by apply Forall_map, Forall_filter_keep]).
    rewrite IH by lia. rewrite zsum_cons. cbn beta iota.
    change (λ p, counted f g p) with (counted f g). lia.
  - rewrite IH by done. assert (zsum (map (λ _ : UsagePoint, 0) ps) = 0) as Hz
      by (clear; induction ps; [done|]; cbn; by rewrite zsum_cons).
    rewrite zsum_cons, Hz. lia.
Qed.

(** Every stored point is the point of some sample. *)
Lemma stored_points hist entries :
  entries ≡ₚ map_to_list (events (tracker_after hist)) →
  Forall (λ e, Forall (λ p, ∃ x, p = sample_point x) e.2) entries.
Proof.
  intros Hp. apply Forall_forall. intros [key ps] Hin. rewrite Hp in Hin.
  apply elem_of_map_to_list in Hin. pose proof (events_after hist key) as He. rewrite Hin in He.
  cbn in He. subst ps. apply Forall_map, Forall_forall. intros x _. by exists x.
Qed.

Lemma sample_point_bytes x : 0 ≤ u64_to_i64_saturating (up_bytes (sample_point x)).
Proof.
  assert (∀ z, 0 ≤ i64_to_u64_or_0 z) as Hz by (intros z; unfold i64_to_u64_or_0; split_ifs; lia).
  assert (0 ≤ up_bytes (sample_point x)) by (destruct x; apply Hz).
  unfold u64_to_i64_saturating, i64_max. split_ifs; lia.
Qed.

(** The bytes used in a period, over the history. *)
Lemma period_used_history hist entries ws s op period_start period_end :
  entries ≡ₚ map_to_list (events (tracker_after hist)) →
  tracker_period_used_bytes entries ws s op period_start period_end =
    Z.min
      (zsum (map (λ x, if usage_key_matches (sample_key x) ws s op &&
                          in_period period_start period_end (sample_point x)
                       then u64_to_i64_saturating (up_bytes (sample_point x)) else 0) hist)) i64_max.
Proof.
  intros Hp. unfold tracker_period_used_bytes.
  rewrite (fold_points_saturating (λ p, u64_to_i64_saturating (up_bytes p))).
  - rewrite (entries_sum_history _ hist) by done. cbn. rewrite Z.add_0_l. do 2 f_equal. apply map_ext. intros x.
    unfold counted. by destruct (usage_key_matches _ _ _ _).
  - eapply Forall_impl; [by apply (stored_points hist)|]. intros e He. cbn in *.
    eapply Forall_impl; [exact He|]. intros p [x ->]. apply sample_point_bytes.
  - unfold i64_max. lia.
Qed.

(** ** Properties *)

(** The bytes used in a period are the sum, over all recorded samples of the
    workspace, signal and operation asked for (or of all of them) inside the
    half-open period, of their bytes, saturated once at the end: neither the
    iteration order of the map nor the order of recording matters. No sample
    is ever dropped: the tracker holds as many points as were recorded. *)
Theorem period_used_is_history_sum hist entries ws s op period_start period_end :
  entries ≡ₚ map_to_list (events (tracker_after hist)) →
  tracker_period_used_bytes entries ws s op period_start period_end =
    Z.min
      (zsum (map (λ x, if usage_key_matches (sample_key x) ws s op &&
                          in_period period_start period_end (sample_point x)
                       then u64_to_i64_saturating (up_bytes (sample_point x)) else 0) hist)) i64_max ∧
  entries_sum (λ _ _, 1) entries = zlen hist.
Proof.
  intros Hp. split; [by apply period_used_history|].
  rewrite (entries_sum_history _ hist) by done. clear Hp.
  induction hist as [|x hist IH]; cbn in *; [done|]. rewrite zsum_cons, IH. lia.
Qed.

(** ** Witnesses *)

Definition sample_hist : list Sample :=
  [SWrite (mkWriteSample 7 Traces 1000 10 100); SQuery (mkQuerySample 7 Traces 50 150);
   SWrite (mkWriteSample 7 Logs 30 1 160); SWrite (mkWriteSample 8 Traces 5 1 170);
   SWrite (mkWriteSample 7 Traces 4 1 200)].

Lemma period_used_is_history_sum_witness :
  tracker_period_used_bytes (map_to_list (events (tracker_after sample_hist))) 7 AllSignals Ingest 100
    (Some 200) = 1030.
Proof.
  rewrite (proj1 (period_used_is_history_sum sample_hist _ 7 AllSignals Ingest 100 (Some 200)
    (Permutation_refl _))). vm_compute. reflexivity.
Defined.
