(* ===== verification/IngestGuard.v ===== *)
(** What stands between an OTLP request and the write-ahead log:
    [api-optel/src/parser_caps.rs], [circuit_breaker.rs], [admission.rs]. *)

From stdpp Require Import base gmap list strings.
From S2P Require Import Prelude.

(** ** Parser caps *)

Definition MAX_RESOURCE_GROUPS_PER_REQUEST : Z := 1024.
Definition MAX_SCOPE_GROUPS_PER_REQUEST : Z := 4096.
Definition MAX_RECORDS_PER_REQUEST : Z := 10000.

Inductive ParserCapError :=
| CapResourceSpans | CapScopeSpans | CapSpans
| CapResourceMetrics | CapScopeMetrics | CapMetrics
| CapResourceLogs | CapScopeLogs | CapLogRecords.

Definition cap_message (e : ParserCapError) : string :=
  match e with
  | CapResourceSpans => "too_many_resource_spans"
  | CapScopeSpans => "too_many_scope_spans"
  | CapSpans => "too_many_spans"
  | CapResourceMetrics => "too_many_resource_metrics"
  | CapScopeMetrics => "too_many_scope_metrics"
  | CapMetrics => "too_many_metrics"
  | CapResourceLogs => "too_many_resource_logs"
  | CapScopeLogs => "too_many_scope_logs"
  | CapLogRecords => "too_many_log_records"
  end.

(** The decoded request, a message of generated types: its records, by
    resource group and scope group. *)
Definition OtlpRequest (A : Type) : Type := list (list (list A)).

Section Caps.
Context {A : Type}.

(** The two nested loops, with their running counts. *)
Definition count_scope (too_many_records : ParserCapError) (records : Z) (scope : list A) :
    outcome ParserCapError Z :=
  let records := u64_saturating_add records (zlen scope) in
  if MAX_RECORDS_PER_REQUEST <? records then Err too_many_records else Ok records.

Definition count_resource (too_many_scopes too_many_records : ParserCapError) (counts : Z * Z)
    (resource : list (list A)) : outcome ParserCapError (Z * Z) :=
  let scopes := u64_saturating_add counts.1 (zlen resource) in
  if MAX_SCOPE_GROUPS_PER_REQUEST <? scopes then Err too_many_scopes
  else
    records ← ofold (count_scope too_many_records) counts.2 resource;
    mret (scopes, records).

Definition validate_request (too_many_resources too_many_scopes too_many_records : ParserCapError)
    (req : OtlpRequest A) : outcome ParserCapError unit :=
  if MAX_RESOURCE_GROUPS_PER_REQUEST <? zlen req then Err too_many_resources
  else
    _ ← ofold (count_resource too_many_scopes too_many_records) (0, 0) req;
    mret ().

Definition validate_trace_request := validate_request CapResourceSpans CapScopeSpans CapSpans.
Definition validate_metrics_request := validate_request CapResourceMetrics CapScopeMetrics CapMetrics.
Definition validate_logs_request := validate_request CapResourceLogs CapScopeLogs CapLogRecords.
End Caps.

(** ** Circuit breaker *)

Definition RESOURCE_SAMPLE_INTERVAL_MS : Z := 1000.
(** Durations in nanoseconds. *)
Definition QUEUE_RETRY_AFTER : Z := 1000000000.
Definition RESOURCE_PRESSURE_RETRY_AFTER : Z := 5000000000.
Definition UNKNOWN_PERCENT : Z := 255.
Definition CB_NEVER_SAMPLED : Z := u64_max.
Definition CGROUP_UNLIMITED_THRESHOLD : Z := 2 ^ 60.

Inductive TripReason := DiskUsage (pct : Z) | MemoryUsage (pct : Z) | QueueDepth (depth : Z).

Record Trip := mkTrip {
  trip_reason : TripReason;
  trip_retry_after : Z;
}.

Record CircuitBreaker := mkCircuitBreaker {
  max_disk_usage_percent : Z;
  max_memory_usage_percent : Z;
  max_queue_depth : Z;
  queue_depth : Z;
  last_sample_ms : Z;
  sampling : bool;
  disk_usage_percent : Z;
  memory_usage_percent : Z;
  warned_unavailable : bool;
}.

Definition breaker_new (max_disk max_memory max_queue : Z) : CircuitBreaker :=
  mkCircuitBreaker max_disk max_memory max_queue 0 CB_NEVER_SAMPLED false UNKNOWN_PERCENT UNKNOWN_PERCENT
    false.

Definition set_queue_depth (cb : CircuitBreaker) (depth : Z) : CircuitBreaker :=
  mkCircuitBreaker (max_disk_usage_percent cb) (max_memory_usage_percent cb) (max_queue_depth cb) depth
    (last_sample_ms cb) (sampling cb) (disk_usage_percent cb) (memory_usage_percent cb)
    (warned_unavailable cb).

Definition known (value : Z) : option Z := if value =? UNKNOWN_PERCENT then None else Some value.

(** [numerator * 100] divided by [denominator], rounded up, capped at 100. *)
Definition percent_ceil (numerator denominator : Z) : option Z :=
  if denominator =? 0 then None
  else Some (Z.min ((numerator * 100 + denominator - 1) / denominator) 100).

Definition disk_usage_from_blocks (total free available : Z) : option Z :=
  if total <? free then None
  else
    let used := total - free in
    if u64_max <? used + available then None else percent_ceil used (used + available).

Definition effective_memory_limit_bytes (cgroup mem_total : option Z) : option Z :=
  match cgroup, mem_total with
  | Some c, Some t => Some (Z.min c t)
  | Some c, None => Some c
  | None, t => t
  end.

(** The tail of [parse_cgroup_limit], on the number read. *)
Definition cgroup_limit (limit : Z) : option Z :=
  if (0 <? limit) && (limit <? CGROUP_UNLIMITED_THRESHOLD) then Some limit else None.

Record ResourceSample := mkResourceSample {
  disk_percent : option Z;
  memory_percent : option Z;
}.

(** How one call of [refresh_resources_if_stale] goes: when it starts and ends,
    what the blocking task measures, and whether the caller is dropped while it
    awaits that task. *)
Record RefreshEnv := mkRefreshEnv {
  re_start_ms : Z;
  re_end_ms : Z;
  re_sample : ResourceSample;
  re_dropped : bool;
}.

Definition cb_elapsed_ms (ms : Z) : Z := Z.min ms (CB_NEVER_SAMPLED - 1).

Definition set_sampling (cb : CircuitBreaker) (b : bool) : CircuitBreaker :=
  mkCircuitBreaker (max_disk_usage_percent cb) (max_memory_usage_percent cb) (max_queue_depth cb)
    (queue_depth cb) (last_sample_ms cb) b (disk_usage_percent cb) (memory_usage_percent cb)
    (warned_unavailable cb).

(** The breaker after the call, and whether the caller got to go on. *)
Definition refresh_resources_if_stale (cb : CircuitBreaker) (env : RefreshEnv) : CircuitBreaker * bool :=
  let now := cb_elapsed_ms (re_start_ms env) in
  if negb (last_sample_ms cb =? CB_NEVER_SAMPLED) &&
     (u64_saturating_sub now (last_sample_ms cb) <? RESOURCE_SAMPLE_INTERVAL_MS) then (cb, true)
  else if sampling cb then (cb, true)
  else if re_dropped env then (set_sampling cb true, false)
  else
    let sample := re_sample env in
    (mkCircuitBreaker (max_disk_usage_percent cb) (max_memory_usage_percent cb) (max_queue_depth cb)
       (queue_depth cb) (cb_elapsed_ms (re_end_ms env)) false
       (default UNKNOWN_PERCENT (disk_percent sample)) (default UNKNOWN_PERCENT (memory_percent sample))
       (warned_unavailable cb ||
        match disk_percent sample, memory_percent sample with Some _, Some _ => false | _, _ => true end),
     true).

Definition over (usage : option Z) (threshold : Z) : option Z :=
  match usage with
  | Some u => if threshold <? u then Some u else None
  | None => None
  end.

(** The thresholds, in order. *)
Definition breaker_decide (cb : CircuitBreaker) : outcome Trip unit :=
  match over (known (disk_usage_percent cb)) (max_disk_usage_percent cb) with
  | Some pct => Err (mkTrip (DiskUsage pct) RESOURCE_PRESSURE_RETRY_AFTER)
  | None =>
      match over (known (memory_usage_percent cb)) (max_memory_usage_percent cb) with
      | Some pct => Err (mkTrip (MemoryUsage pct) RESOURCE_PRESSURE_RETRY_AFTER)
      | None =>
          if max_queue_depth cb <? queue_depth cb
          then Err (mkTrip (QueueDepth (queue_depth cb)) QUEUE_RETRY_AFTER) else Ok ()
      end
  end.

(** [evaluate]; [None] when the caller was dropped. *)
Definition evaluate (cb : CircuitBreaker) (env : RefreshEnv) : CircuitBreaker * option (outcome Trip unit) :=
  let '(cb, goes_on) := refresh_resources_if_stale cb env in
  (cb, if goes_on then Some (breaker_decide cb) else None).

(** ** Admission

    The semaphore of the listener and the requests that hold a slot. *)

Inductive IngestProtocol := HttpProtocol | GrpcProtocol.
Inductive Rejection := Overloaded | TimedOut.

(** The status of a rejection: HTTP status code, or gRPC status code. *)
Definition reject_code (p : IngestProtocol) (r : Rejection) : Z :=
  match p, r with
  | GrpcProtocol, Overloaded => 14
  | GrpcProtocol, TimedOut => 4
  | HttpProtocol, Overloaded => 503
  | HttpProtocol, TimedOut => 504
  end.

Record Admission := mkAdmission {
  ad_permits : option Z;
  ad_timeout : option Z;
  ad_in_flight : list Z;
}.

Definition admission_new (max_concurrent_requests : Z) (timeout : option Z) : Admission :=
  mkAdmission (if 0 <? max_concurrent_requests then Some max_concurrent_requests else None)
    (match timeout with Some t => if t =? 0 then None else Some t | None => None end) [].

(** A request arrives, or one that holds a slot ends: with its response, at
    its timeout, or dropped with its connection. *)
Inductive AdmissionEvent :=
| Arrive (req : Z)
| Respond (req : Z)
| Timeout (req : Z)
| Disconnect (req : Z).

Inductive AdmissionAnswer := Admitted_ | Rejected (r : Rejection) | Served | Dropped.

Definition release (a : Admission) (req : Z) : Admission :=
  mkAdmission ((λ n, n + 1) <$> ad_permits a) (ad_timeout a) (filter (λ r, r ≠ req) (ad_in_flight a)).

(** [None] when the event cannot happen. *)
Definition admission_step (a : Admission) (e : AdmissionEvent) : option (Admission * AdmissionAnswer) :=
  match e with
  | Arrive req =>
      if bool_decide (req ∈ ad_in_flight a) then None
      else
        match ad_permits a with
        | Some n =>
            if n <=? 0 then Some (a, Rejected Overloaded)
            else Some (mkAdmission (Some (n - 1)) (ad_timeout a) (req :: ad_in_flight a), Admitted_)
        | None => Some (mkAdmission None (ad_timeout a) (req :: ad_in_flight a), Admitted_)
        end
  | Respond req => if bool_decide (req ∈ ad_in_flight a) then Some (release a req, Served) else None
  | Timeout req =>
      match ad_timeout a with
      | Some _ =>
          if bool_decide (req ∈ ad_in_flight a) then Some (release a req, Rejected TimedOut) else None
      | None => None
      end
  | Disconnect req => if bool_decide (req ∈ ad_in_flight a) then Some (release a req, Dropped) else None
  end.

Fixpoint admission_run (a : Admission) (es : list AdmissionEvent) : option (Admission * list AdmissionAnswer) :=
  match es with
  | [] => Some (a, [])
  | e :: es =>
      '(a, ans) ← admission_step a e;
      '(a, rest) ← admission_run a es;
      mret (a, ans :: rest)
  end.

(** ** Lemmas *)

Section CapLemmas.
Context {A : Type}.

Lemma count_scopes e (scopes : list (list A)) n :
  0 ≤ n ≤ MAX_RECORDS_PER_REQUEST →
  ofold (count_scope e) n scopes =
    if n + zlen (concat scopes) <=? MAX_RECORDS_PER_REQUEST
    then Ok (n + zlen (concat scopes)) else Err e.
Proof.
  revert n. induction scopes as [|sc scopes IH]; intros n Hn; cbn [ofold concat].
  - cbn. rewrite Z.add_0_r. by rewrite (proj2 (Z.leb_le _ _)) by lia.
  - assert (count_scope e n sc = if MAX_RECORDS_PER_REQUEST <? Z.min (n + zlen sc) u64_max then Err e
      else Ok (Z.min (n + zlen sc) u64_max)) as -> by done. rewrite length_app.
    unfold MAX_RECORDS_PER_REQUEST, u64_max in *.
    destruct (Z.ltb_spec 10000 (Z.min (n + zlen sc) 18446744073709551615)); ostep.
    + destruct (_ <=? _) eqn:Hc; reflect_bools; [lia|done].
    + replace (Z.min (n + zlen sc) 18446744073709551615) with (n + zlen sc) by lia.
      rewrite IH by lia. rewrite Nat2Z.inj_add, Z.add_assoc. done.
Qed.

Definition within_caps (req : OtlpRequest A) (scopes records : Z) : Prop :=
  scopes + zlen (concat req) ≤ MAX_SCOPE_GROUPS_PER_REQUEST ∧
  records + zlen (concat (concat req)) ≤ MAX_RECORDS_PER_REQUEST.

Lemma count_resources e2 e3 (req : OtlpRequest A) s r :
  0 ≤ s ≤ MAX_SCOPE_GROUPS_PER_REQUEST → 0 ≤ r ≤ MAX_RECORDS_PER_REQUEST →
  (within_caps req s r ∧ is_ok (ofold (count_resource e2 e3) (s, r) req) = true) ∨
  (¬ within_caps req s r ∧ (ofold (count_resource e2 e3) (s, r) req = Err e2 ∨
                            ofold (count_resource e2 e3) (s, r) req = Err e3)).
Proof.
  unfold within_caps. revert s r. induction req as [|rs req IH]; intros s r Hs Hr; cbn [ofold concat].
  - left. cbn. split; [lia|done].
  - assert (zlen (concat (rs ++ concat req)) = zlen (concat rs) + zlen (concat (concat req))) as Hc
      by (rewrite concat_app, length_app; lia).
    assert (count_resource e2 e3 (s, r) rs =
      if MAX_SCOPE_GROUPS_PER_REQUEST <? Z.min (s + zlen rs) u64_max then Err e2
      else records ← ofold (count_scope e3) r rs; mret (Z.min (s + zlen rs) u64_max, records)) as -> by done.
    rewrite Hc, length_app. unfold MAX_SCOPE_GROUPS_PER_REQUEST, u64_max in *.
    destruct (Z.ltb_spec 4096 (Z.min (s + zlen rs) 18446744073709551615)); ostep.
    + right. split; [lia|by left].
    + rewrite count_scopes by done. unfold MAX_RECORDS_PER_REQUEST in *.
      destruct (Z.leb_spec (r + zlen (concat rs)) 10000); ostep.
      * replace (Z.min (s + zlen rs) 18446744073709551615) with (s + zlen rs) by lia.
        destruct (IH (s + zlen rs) (r + zlen (concat rs))) as [[? ?]|[? ?]]; [lia|lia|left|right];
          (split; [lia|done]).
      * right. split; [lia|by right].
Qed.
End CapLemmas.

Lemma percent_ceil_bounds n d : 0 ≤ n → 0 < d → ∃ p, percent_ceil n d = Some p ∧ 0 ≤ p ≤ 100.
Proof.
  intros Hn Hd. unfold percent_ceil. rewrite (proj2 (Z.eqb_neq _ _)) by lia. eexists. split; [done|].
  assert (0 ≤ (n * 100 + d - 1) / d) by (apply Z.div_pos; lia). lia.
Qed.

(** ** Properties *)

(** A request passes the caps exactly when its resource groups, its scope
    groups and its records, each counted over the whole request, are within
    their limits; too many resource groups are reported first, and the other
    violations with the error of the count that broke. *)
Theorem caps_exact {A : Type} (e1 e2 e3 : ParserCapError) (req : OtlpRequest A) :
  (is_ok (validate_request e1 e2 e3 req) = true ↔
    zlen req ≤ MAX_RESOURCE_GROUPS_PER_REQUEST ∧ zlen (concat req) ≤ MAX_SCOPE_GROUPS_PER_REQUEST ∧
    zlen (concat (concat req)) ≤ MAX_RECORDS_PER_REQUEST) ∧
  (MAX_RESOURCE_GROUPS_PER_REQUEST < zlen req → validate_request e1 e2 e3 req = Err e1) ∧
  (zlen req ≤ MAX_RESOURCE_GROUPS_PER_REQUEST →
     is_ok (validate_request e1 e2 e3 req) = true ∨ validate_request e1 e2 e3 req = Err e2 ∨
     validate_request e1 e2 e3 req = Err e3).
Proof.
  unfold validate_request.
  destruct (Z.ltb_spec MAX_RESOURCE_GROUPS_PER_REQUEST (zlen req)) as [Hgt|Hle].
  - split_and!; [|done|lia]. split; [done|lia].
  - destruct (count_resources e2 e3 req 0 0) as [[Hw Hok]|[Hw Herr]];
      [unfold MAX_SCOPE_GROUPS_PER_REQUEST; lia|unfold MAX_RECORDS_PER_REQUEST; lia| |];
      unfold within_caps in Hw; rewrite !Z.add_0_l in Hw.
    + destruct (ofold _ _ _); try done. split_and!; [split; [intros _; tauto|done]|lia|by left].
    + split_and!; [split; [by destruct Herr as [->| ->]|tauto]|lia|].
      intros _. right. destruct Herr as [->| ->]; auto.
Qed.

(** The percentage is the ceiling of the true one, capped at 100: it never
    understates usage and never collides with the sentinel for "unknown"; the
    disk usage of consistent block counts is always measured. *)
Theorem usage_percent_exact n d :
  0 ≤ n ≤ u64_max → 0 < d ≤ u64_max →
  ∃ p, percent_ceil n d = Some p ∧ known p = Some p ∧ 0 ≤ p ≤ 100 ∧
    (p < 100 → 100 * n ≤ p * d ∧ (p - 1) * d < 100 * n) ∧ (p = 100 ↔ 99 * d < 100 * n).
Proof.
  intros Hn Hd. destruct (percent_ceil_bounds n d) as (p & Hp & Hr); [lia|lia|]. exists p.
  split; [done|]. split; [unfold known, UNKNOWN_PERCENT; by rewrite (proj2 (Z.eqb_neq _ _)) by lia|].
  split; [done|]. unfold percent_ceil in Hp. rewrite (proj2 (Z.eqb_neq _ _)) in Hp by lia.
  injection Hp as Hp. set (q := (n * 100 + d - 1) / d) in *.
  assert (d * q ≤ n * 100 + d - 1 < d * (q + 1)) as Hq.
  { unfold q. split; [apply Z.mul_div_le; lia|].
    pose proof (Z.mul_succ_div_gt (n * 100 + d - 1) d ltac:(lia)). lia. }
  clearbody q. split; [intros; nia|]. split; intros; nia.
Qed.

(** The breaker lets a request through exactly when every known measurement is
    within its threshold and the queue is: an unknown measurement never trips
    it, and disk trips before memory before queue. *)
Theorem breaker_decides cb :
  (is_ok (breaker_decide cb) = true ↔
     (∀ p, known (disk_usage_percent cb) = Some p → p ≤ max_disk_usage_percent cb) ∧
     (∀ p, known (memory_usage_percent cb) = Some p → p ≤ max_memory_usage_percent cb) ∧
     queue_depth cb ≤ max_queue_depth cb) ∧
  (∀ t, breaker_decide cb = Err t →
     trip_retry_after t = match trip_reason t with QueueDepth _ => QUEUE_RETRY_AFTER
                          | _ => RESOURCE_PRESSURE_RETRY_AFTER end).
Proof.
  unfold breaker_decide, over. destruct (known (disk_usage_percent cb)) as [d|];
    destruct (known (memory_usage_percent cb)) as [m|]; split_ifs;
    (split; [split; [try done; intros _; split_and!; intros; simplify_eq; lia
                    |try done; intros (Hd & Hm & Hq);
                     try specialize (Hd _ eq_refl); try specialize (Hm _ eq_refl); lia]
            |intros t Ht; simplify_eq; done]).
Qed.

(** A dropped request can blind the breaker for good. The caller that takes the
    [sampling] flag gives it back only after its blocking task finished; when
    its request is dropped while it waits, as the admission timeout and a
    disconnect do, the flag stays set, and whatever is measured later, no call
    refreshes the usage again. *)
Theorem dropped_sampler_freezes_breaker cb env cb' :
  last_sample_ms cb = CB_NEVER_SAMPLED → sampling cb = false → re_dropped env = true →
  cb' = (evaluate cb env).1 →
  (evaluate cb env).2 = None ∧
  ∀ envs, foldl (λ c e, (evaluate c e).1) cb' envs = cb' ∧
    ∀ env', (evaluate cb' env').2 = Some (breaker_decide cb').
Proof.
  intros Hlast Hs Hd ->.
  assert (evaluate cb env = (set_sampling cb true, None)) as ->.
  { unfold evaluate, refresh_resources_if_stale. by rewrite Hlast, Hs, Hd. }
  split; [done|]. cbn [fst].
  assert (∀ e, evaluate (set_sampling cb true) e =
    (set_sampling cb true, Some (breaker_decide (set_sampling cb true)))) as Hev.
  { intros e. unfold evaluate, refresh_resources_if_stale. cbn. by rewrite Hlast. }
  intros envs. split; [|intros env'; by rewrite Hev].
  induction envs as [|e envs IH]; [done|]. cbn [foldl]. by rewrite Hev.
Qed.

(** ** Admission *)

Definition admission_inv (max : Z) (a : Admission) : Prop :=
  NoDup (ad_in_flight a) ∧ zlen (ad_in_flight a) ≤ max ∧ ad_permits a = Some (max - zlen (ad_in_flight a)).

Lemma filter_ne_length (l : list Z) x :
  NoDup l → x ∈ l → S (length (filter (λ r, r ≠ x) l)) = length l.
Proof.
  induction 1 as [|y l Hy Hnd IH]; intros Hx; [by apply not_elem_of_nil in Hx|].
  rewrite filter_cons. apply elem_of_cons in Hx as [->|Hx].
  - rewrite decide_False by auto. cbn. f_equal. rewrite filter_all; [done|]. intros z Hz ->. done.
  - rewrite decide_True by (intros ->; done). cbn. f_equal. by apply IH.
Qed.

Lemma release_inv max a req :
  admission_inv max a → req ∈ ad_in_flight a → admission_inv max (release a req).
Proof.
  intros (Hnd & Hle & Hp) Hin. pose proof (filter_ne_length _ _ Hnd Hin) as Hlen. unfold release.
  split_and!; cbn; [by apply NoDup_filter|lia|]. rewrite Hp. cbn. f_equal. lia.
Qed.

Lemma admission_step_inv max a e a' ans :
  admission_inv max a → admission_step a e = Some (a', ans) → admission_inv max a'.
Proof.
  intros Hinv Hs. pose proof Hinv as (Hnd & Hle & Hp).
  destruct e as [req|req|req|req]; cbn in Hs; try rewrite Hp in Hs;
    try (case_bool_decide; [|done]); try (case_match; [|done]; case_bool_decide; [|done]);
    try (simplify_eq; by apply release_inv).
  case_bool_decide as Hnin; [done|]. destruct (Z.leb_spec (max - zlen (ad_in_flight a)) 0); simplify_eq; [done|].
  split_and!; cbn; [by constructor|lia|]. f_equal. lia.
Qed.

(** At most [max] requests are inside at any time, every slot a request took
    comes back when it responds, times out or disconnects, and a request is
    shed exactly when all slots are taken. *)
Theorem admission_bounds max timeout es a answers :
  0 < max → admission_run (admission_new max timeout) es = Some (a, answers) →
  zlen (ad_in_flight a) ≤ max ∧ ad_permits a = Some (max - zlen (ad_in_flight a)) ∧
  ∀ req, req ∉ ad_in_flight a →
    (admission_step a (Arrive req) = Some (a, Rejected Overloaded) ↔ zlen (ad_in_flight a) = max).
Proof.
  intros Hmax Hrun. assert (admission_inv max a) as (Hnd & Hle & Hp).
  { assert (admission_inv max (admission_new max timeout)) as Hinv.
    { unfold admission_new. rewrite (proj2 (Z.ltb_lt _ _)) by done.
      split_and!; cbn; [constructor|lia|f_equal; lia]. }
    revert Hinv Hrun. generalize (admission_new max timeout). revert answers.
    induction es as [|e es IH]; intros answers a0 Hinv Hrun; cbn in Hrun; [by simplify_eq|].
    destruct (admission_step a0 e) as [[a1 ans]|] eqn:Hs; [|done]. cbn in Hrun.
    destruct (admission_run a1 es) as [[a2 rest]|] eqn:Hr; [|done]. injection Hrun as -> _.
    eapply IH; [|exact Hr]. by eapply admission_step_inv. }
  split; [done|]. split; [done|]. intros req Hreq. cbn. rewrite bool_decide_eq_false_2 by done.
  rewrite Hp. destruct (Z.leb_spec (max - zlen (ad_in_flight a)) 0).
  - split; [intros; lia|done].
  - split; [done|lia].
Qed.

(** ** Witnesses *)

Lemma usage_percent_exact_witness :
  ∃ p, percent_ceil 2001 4000 = Some p ∧ known p = Some p ∧ 0 ≤ p ≤ 100 ∧
    (p < 100 → 100 * 2001 ≤ p * 4000 ∧ (p - 1) * 4000 < 100 * 2001) ∧ (p = 100 ↔ 99 * 4000 < 100 * 2001).
Proof. apply (usage_percent_exact 2001 4000); unfold u64_max; lia. Defined.

Lemma dropped_sampler_freezes_breaker_witness :
  let cb := breaker_new 90 90 10 in
  let env := mkRefreshEnv 5 6 (mkResourceSample (Some 99) (Some 99)) true in
  (evaluate cb env).2 = None ∧
  foldl (λ c e, (evaluate c e).1) (evaluate cb env).1
    [mkRefreshEnv 5000 5001 (mkResourceSample (Some 99) (Some 99)) false] = (evaluate cb env).1.
Proof.
  intros cb env.
  destruct (dropped_sampler_freezes_breaker cb env (evaluate cb env).1 eq_refl eq_refl eq_refl eq_refl)
    as [H1 H2].
  split; [exact H1|].
  exact (proj1 (H2 [mkRefreshEnv 5000 5001 (mkResourceSample (Some 99) (Some 99)) false])).
Defined.

Lemma admission_bounds_witness :
  ∃ a answers, admission_run (admission_new 2 (Some 100)) [Arrive 1; Arrive 2; Arrive 3; Timeout 1; Arrive 4]
      = Some (a, answers) ∧ zlen (ad_in_flight a) ≤ 2.
Proof.
  do 2 eexists. split; [vm_compute; reflexivity|].
  refine (proj1 (admission_bounds 2 (Some 100) [Arrive 1; Arrive 2; Arrive 3; Timeout 1; Arrive 4] _
    [Admitted_; Admitted_; Rejected Overloaded; Rejected TimedOut; Admitted_] _ _)); [lia|].
  vm_compute. reflexivity.
Defined.
