(* ===== verification/Export.v ===== *)
(** The OTLP export handlers: [api-optel/src/retry.rs], [ingestion_guard.rs],
    [rate_limiter.rs], [otlp_http/handlers.rs] and the gRPC services
    [trace_service.rs], [metrics_service.rs], [logs_service.rs].

    A request is authenticated, checked by the circuit breaker and the parser
    caps, charged against policies and the project's rate limit, converted and
    written. Rejections are gRPC statuses; the HTTP transport maps them to
    responses. *)

From stdpp Require Import base gmap list strings.
From Stdlib Require Import SpecFloat.
From S2P Require Import Prelude PolicyStore Enforcer IngestGuard.

(** ** Statuses and responses *)

Inductive Code := InvalidArgument | PermissionDenied | ResourceExhausted | Unavailable
  | InternalError | Unauthenticated | DeadlineExceeded | CodeNotFound | Unimplemented.

#[export] Instance Code_eq_dec : EqDecision Code.
Proof. solve_decision. Defined.

(** [tonic::Status] with its [RetryInfo] detail, a delay in nanoseconds. *)
Record Status := mkStatus {
  st_code : Code;
  st_message : string;
  st_retry_info : option Z;
}.

Definition status (code : Code) (message : string) : Status := mkStatus code message None.

Definition unavailable (message : string) (retry_after : Z) : Status :=
  mkStatus Unavailable message (Some retry_after).

Definition retryable_resource_exhausted (message : string) (retry_after : Z) : Status :=
  mkStatus ResourceExhausted message (Some retry_after).

(** [retry_delay]. *)
Definition retry_delay (s : Status) : option Z := st_retry_info s.

(** An HTTP response: status code and [Retry-After] seconds. *)
Record HttpResponse := mkHttpResponse {
  hr_code : Z;
  hr_retry_after : option Z;
}.

Definition http (code : Z) : HttpResponse := mkHttpResponse code None.

(** [retry_after_header]: whole seconds, rounded up, at least one. *)
Definition retry_after_header (retry_after_ns : Z) : Z :=
  Z.max (u64_saturating_add (retry_after_ns / 1000000000)
           (if 0 <? retry_after_ns mod 1000000000 then 1 else 0)) 1.

Definition with_retry_after (code retry_after : Z) : HttpResponse :=
  mkHttpResponse code (Some (retry_after_header retry_after)).

Definition http_unavailable (retry_after : Z) : HttpResponse := with_retry_after 503 retry_after.

Definition status_to_response (s : Status) : HttpResponse :=
  let code := match st_code s with
              | InvalidArgument => 400
              | PermissionDenied => 403
              | ResourceExhausted => 429
              | Unavailable => 503
              | _ => 500
              end in
  match retry_delay s with
  | Some delay => with_retry_after code delay
  | None => http code
  end.

(** A failed write: [WriteUnavailable] somewhere in the error chain, or not. *)
Inductive WriteError := Transient (reason : string) (retry_after : Z) | WriteFailed (what : string).

Definition write_error_status (what : string) (e : WriteError) : Status :=
  match e with
  | Transient reason retry_after =>
      unavailable (String.append "Failed to insert " (String.append what (String.append ": " reason)))
        retry_after
  | WriteFailed error =>
      status InternalError
        (String.append "Failed to insert " (String.append what (String.append ": " error)))
  end.

Definition write_error_response (e : WriteError) : HttpResponse :=
  match e with
  | Transient _ retry_after => http_unavailable retry_after
  | WriteFailed _ => http 500
  end.

(** What an exporter retries, as [retry.rs] quotes the OTLP specification. *)
Definition grpc_retryable (s : Status) : bool :=
  match st_code s with
  | Unavailable | DeadlineExceeded => true
  | ResourceExhausted => match st_retry_info s with Some _ => true | None => false end
  | _ => false
  end.

Definition http_retryable (r : HttpResponse) : bool :=
  bool_decide (hr_code r ∈ [429; 502; 503; 504]).

(** ** The rate limiter: a token bucket in [f64] *)

Definition f64 : Type := spec_float.
Definition f64_of_Z (z : Z) : f64 := binary_normalize 53 1024 z 0 false.
Definition f64_add : f64 → f64 → f64 := SFadd 53 1024.
Definition f64_sub : f64 → f64 → f64 := SFsub 53 1024.
Definition f64_mul : f64 → f64 → f64 := SFmul 53 1024.
Definition f64_div : f64 → f64 → f64 := SFdiv 53 1024.
Definition f64_min (a b : f64) : f64 :=
  match a with
  | S754_nan => b
  | _ => match b with S754_nan => a | _ => if SFltb a b then a else b end
  end.

(** [Duration::as_secs_f64]. *)
Definition as_secs_f64 (ns : Z) : f64 :=
  f64_add (f64_of_Z (ns / 1000000000)) (f64_div (f64_of_Z (ns mod 1000000000)) (f64_of_Z 1000000000)).

Record TokenBucket := mkTokenBucket {
  tokens : f64;
  last_refill : Z;
}.

(** The buckets by workspace; the clock is an argument, in nanoseconds. *)
Abbreviation ProjectRateLimiter := (gmap Z TokenBucket).

Definition check_and_record (rl : ProjectRateLimiter) (now workspace_id limit_per_second records : Z) :
    ProjectRateLimiter * bool :=
  if limit_per_second =? 0 then (rl, false)
  else
    let capacity := f64_of_Z (u64_saturating_mul limit_per_second 2) in
    let requested := f64_of_Z records in
    let bucket := default (mkTokenBucket capacity now) (rl !! workspace_id) in
    let elapsed_secs := as_secs_f64 (Z.max 0 (now - last_refill bucket)) in
    let refill := f64_mul elapsed_secs (f64_of_Z limit_per_second) in
    let tokens := f64_min (f64_add (tokens bucket) refill) capacity in
    if SFltb tokens requested then (<[workspace_id := mkTokenBucket tokens now]> rl, false)
    else (<[workspace_id := mkTokenBucket (f64_sub tokens requested) now]> rl, true).

(** ** Guards *)

Record WorkspaceSettings := mkWorkspaceSettings {
  set_blocked : bool;
  set_max_ingestion_rate : option Z;
  set_capture_llm_content_enabled : bool;
}.

Definition rate_limited_status (limit_per_second records : Z) : Status :=
  if (0 <? limit_per_second) && (records <=? u64_saturating_mul limit_per_second 2)
  then retryable_resource_exhausted "Project ingestion rate limit exceeded" 1000000000
  else status ResourceExhausted "Project ingestion rate limit exceeded".

(** [SettingsRepository::get_settings], when there is a repository. *)
Abbreviation SettingsRepo := (option (Z → outcome string (option WorkspaceSettings))).

Definition load_workspace_settings (repo : SettingsRepo) (workspace_id : Z) :
    outcome Status (option WorkspaceSettings) :=
  match repo with
  | None => Ok None
  | Some get_settings =>
      map_err (λ e, status InternalError (String.append "Failed to load project settings: " e))
        (get_settings workspace_id)
  end.

Definition enforce_workspace_settings_and_get (repo : SettingsRepo) (limiter : option ProjectRateLimiter)
    (now workspace_id records : Z) :
    option ProjectRateLimiter * outcome Status (option WorkspaceSettings) :=
  match load_workspace_settings repo workspace_id with
  | Ok (Some settings) =>
      if set_blocked settings
      then (limiter, Err (status PermissionDenied "Project is blocked for ingestion"))
      else
        match set_max_ingestion_rate settings with
        | Some limit =>
            if limit <? 0 then (limiter, Err (status InvalidArgument "Invalid max_ingestion_rate"))
            else
              match limiter with
              | None => (limiter, Ok (Some settings))
              | Some rl =>
                  let '(rl, ok) := check_and_record rl now workspace_id limit records in
                  if ok then (Some rl, Ok (Some settings))
                  else (Some rl, Err (rate_limited_status limit records))
              end
        | None => (limiter, Ok (Some settings))
        end
  | Ok None => (limiter, Ok None)
  | Err e => (limiter, Err e)
  | Panic => (limiter, Panic)
  end.

(** The status of a policy decision. *)
Definition decision_status (d : Decision) : outcome Status unit :=
  match d with
  | Allow | AllowWithGrace _ => Ok ()
  | Throttle retry_after_ms reason =>
      Err (retryable_resource_exhausted reason (retry_after_ms * 1000000))
  | Block reason code =>
      match code with
      | ProjectBlocked => Err (status PermissionDenied reason)
      | RateLimitExceeded | QuotaExceeded | SizeExceeded => Err (status ResourceExhausted reason)
      | RetentionViolation | QueryWindowViolation => Err (status InvalidArgument reason)
      end
  end.

Definition enforce_policy_ingest (enforcer : IngestCtx → Decision) (workspace_id : Z) (signal : SignalKind)
    (records : Z) (estimated_bytes : option Z) (now_micros : Z) : outcome Status unit :=
  decision_status (enforcer (mkIngestCtx workspace_id signal records estimated_bytes now_micros)).

(** ** Export handlers *)

(** [TelemetryWriter]: each insert reports success or an error. A success means
    that the batch was taken whole; a failed insert may leave rows of its own
    signal behind, and touches no other. *)
Class TelemetryWriter (Σ Span Metric Log Score : Type) := {
  insert_spans : Σ → list Span → Σ * outcome WriteError unit;
  insert_metrics : Σ → list Metric → Σ * outcome WriteError unit;
  insert_logs : Σ → list Log → Σ * outcome WriteError unit;
  insert_scores : Σ → list Score → Σ * outcome WriteError unit;
  logs_of : Σ → list Log;
  scores_of : Σ → list Score;
  insert_logs_ok s l s' : insert_logs s l = (s', Ok ()) →
    logs_of s' = logs_of s ++ l ∧ scores_of s' = scores_of s;
  insert_logs_failed s l s' e : insert_logs s l = (s', Err e) → scores_of s' = scores_of s;
  insert_scores_ok s l s' : insert_scores s l = (s', Ok ()) →
    logs_of s' = logs_of s ∧ scores_of s' = scores_of s ++ l;
  insert_scores_failed s l s' e : insert_scores s l = (s', Err e) → logs_of s' = logs_of s;
}.

Section Handlers.
Context {Σ Span Metric Log Score : Type} `{TelemetryWriter Σ Span Metric Log Score}.
(** The wire: body, its decompression and its protobuf decoding. *)
Context {Body Bytes R : Type} (decode_body : Body → Z + Bytes) (decode : Bytes → option (OtlpRequest R)).
(** The policy enforcer and the settings repository of the service. *)
Context (policy_enforcer : option (IngestCtx → Decision)) (settings_repo : SettingsRepo).

(** What a request changes. *)
Record ExportSt := mkExportSt {
  ex_writer : Σ;
  ex_limiter : option ProjectRateLimiter;
}.

Record RequestCtx := mkRequestCtx {
  rc_workspace_id : Z;
  rc_now_ns : Z;
}.

Definition record_count (req : OtlpRequest R) : Z := zsum (map (λ scope, zlen scope) (concat req)).

(** Policy, then settings and rate limit. *)
Definition enforce (st : ExportSt) (ctx : RequestCtx) (signal : SignalKind) (records : Z) :
    ExportSt * outcome Status (option WorkspaceSettings) :=
  let policy := match policy_enforcer with
                | None => Ok ()
                | Some enforcer =>
                    enforce_policy_ingest enforcer (rc_workspace_id ctx) signal records None
                      (rc_now_ns ctx / 1000)
                end in
  match policy with
  | Ok _ =>
      let '(limiter, res) := enforce_workspace_settings_and_get settings_repo (ex_limiter st) (rc_now_ns ctx)
                               (rc_workspace_id ctx) records in
      (mkExportSt (ex_writer st) limiter, res)
  | Err s => (st, Err s)
  | Panic => (st, Panic)
  end.

(** One insert of a handler, skipped for an empty batch. *)
Definition insert_nonempty {A : Type} (insert : Σ → list A → Σ * outcome WriteError unit)
    (st : ExportSt) (rows : list A) : ExportSt * outcome WriteError unit :=
  match rows with
  | [] => (st, Ok ())
  | _ => let '(w, res) := insert (ex_writer st) rows in (mkExportSt w (ex_limiter st), res)
  end.

(** The scores, then the logs of a logs export. *)
Definition write_logs (st : ExportSt) (scores : list Score) (logs : list Log) :
    ExportSt * outcome (string * WriteError) unit :=
  let '(st, res) := insert_nonempty insert_scores st scores in
  match res with
  | Ok _ =>
      let '(st, res) := insert_nonempty insert_logs st logs in
      (st, map_err (λ e, ("logs", e)) res)
  | Err e => (st, Err ("scores", e))
  | Panic => (st, Panic)
  end.

Context (extract_scores : OtlpRequest R → RequestCtx → list Score)
        (convert_logs : OtlpRequest R → RequestCtx → list Log).

(** [export_logs] of the HTTP transport, after the header checks. *)
Definition http_export_logs (st : ExportSt) (ctx : RequestCtx) (body : Body) : ExportSt * HttpResponse :=
  match decode_body body with
  | inl code => (st, http code)
  | inr bytes =>
      match decode bytes with
      | None => (st, http 400)
      | Some request =>
          if negb (is_ok (validate_logs_request request)) then (st, http 413)
          else
            let '(st, res) := enforce st ctx Logs (record_count request) in
            match res with
            | Ok _ =>
                let '(st, res) := write_logs st (extract_scores request ctx) (convert_logs request ctx) in
                match res with
                | Ok _ => (st, http 200)
                | Err (_, e) => (st, write_error_response e)
                | Panic => (st, http 500)
                end
            | Err s => (st, status_to_response s)
            | Panic => (st, http 500)
            end
      end
  end.

(** [export] of the gRPC logs service, on the decoded request, after
    authentication and the circuit breaker. *)
Definition grpc_export_logs (st : ExportSt) (ctx : RequestCtx) (request : OtlpRequest R) :
    ExportSt * outcome Status unit :=
  match validate_logs_request request with
  | Ok _ =>
      let '(st, res) := enforce st ctx Logs (record_count request) in
      match res with
      | Ok _ =>
          let '(st, res) := write_logs st (extract_scores request ctx) (convert_logs request ctx) in
          (st, map_err (λ e, write_error_status e.1 e.2) res)
      | Err s => (st, Err s)
      | Panic => (st, Panic)
      end
  | Err e => (st, Err (status ResourceExhausted (cap_message e)))
  | Panic => (st, Panic)
  end.

(** Spans: the conversion may fail, and sees whether content is captured. *)
Context (convert_spans : bool → OtlpRequest R → RequestCtx → outcome string (list Span))
        (convert_metrics : OtlpRequest R → RequestCtx → list Metric).

Definition capture_enabled (settings : option WorkspaceSettings) : bool :=
  match settings with Some s => set_capture_llm_content_enabled s | None => true end.

Definition http_export_traces (st : ExportSt) (ctx : RequestCtx) (body : Body) : ExportSt * HttpResponse :=
  match decode_body body with
  | inl code => (st, http code)
  | inr bytes =>
      match decode bytes with
      | None => (st, http 400)
      | Some request =>
          if negb (is_ok (validate_trace_request request)) then (st, http 413)
          else
            let '(st, res) := enforce st ctx Traces (record_count request) in
            match res with
            | Ok settings =>
                match convert_spans (capture_enabled settings) request ctx with
                | Ok all_spans =>
                    let '(st, res) := insert_nonempty insert_spans st all_spans in
                    match res with
                    | Ok _ => (st, http 200)
                    | Err e => (st, write_error_response e)
                    | Panic => (st, http 500)
                    end
                | _ => (st, http 400)
                end
            | Err s => (st, status_to_response s)
            | Panic => (st, http 500)
            end
      end
  end.

Definition grpc_export_traces (st : ExportSt) (ctx : RequestCtx) (request : OtlpRequest R) :
    ExportSt * outcome Status unit :=
  match validate_trace_request request with
  | Ok _ =>
      let '(st, res) := enforce st ctx Traces (record_count request) in
      match res with
      | Ok settings =>
          match convert_spans (capture_enabled settings) request ctx with
          | Ok all_spans =>
              let '(st, res) := insert_nonempty insert_spans st all_spans in
              (st, map_err (write_error_status "spans") res)
          | Err e => (st, Err (status InternalError (String.append "Failed to convert spans: " e)))
          | Panic => (st, Panic)
          end
      | Err s => (st, Err s)
      | Panic => (st, Panic)
      end
  | Err e => (st, Err (status ResourceExhausted (cap_message e)))
  | Panic => (st, Panic)
  end.

Definition http_export_metrics (st : ExportSt) (ctx : RequestCtx) (body : Body) : ExportSt * HttpResponse :=
  match decode_body body with
  | inl code => (st, http code)
  | inr bytes =>
      match decode bytes with
      | None => (st, http 400)
      | Some request =>
          if negb (is_ok (validate_metrics_request request)) then (st, http 413)
          else
            let metrics := convert_metrics request ctx in
            let '(st, res) := enforce st ctx Metrics (zlen metrics) in
            match res with
            | Ok _ =>
                let '(st, res) := insert_nonempty insert_metrics st metrics in
                match res with
                | Ok _ => (st, http 200)
                | Err e => (st, write_error_response e)
                | Panic => (st, http 500)
                end
            | Err s => (st, status_to_response s)
            | Panic => (st, http 500)
            end
      end
  end.

Definition grpc_export_metrics (st : ExportSt) (ctx : RequestCtx) (request : OtlpRequest R) :
    ExportSt * outcome Status unit :=
  match validate_metrics_request request with
  | Ok _ =>
      let metrics := convert_metrics request ctx in
      let '(st, res) := enforce st ctx Metrics (zlen metrics) in
      match res with
      | Ok _ =>
          let '(st, res) := insert_nonempty insert_metrics st metrics in
          (st, map_err (write_error_status "metrics") res)
      | Err s => (st, Err s)
      | Panic => (st, Panic)
      end
  | Err e => (st, Err (status ResourceExhausted (cap_message e)))
  | Panic => (st, Panic)
  end.

(** ** Lemmas *)

Lemma write_error_response_status what e :
  write_error_response e = status_to_response (write_error_status what e).
Proof. by destruct e. Qed.

Lemma enforce_writer st ctx signal n : ex_writer (enforce st ctx signal n).1 = ex_writer st.
Proof.
  unfold enforce. case_match; [|done..]. by destruct (enforce_workspace_settings_and_get _ _ _ _ _).
Qed.

(** The response the HTTP transport owes a gRPC outcome. *)
Definition response_of (res : outcome Status unit) : HttpResponse :=
  match res with
  | Ok _ => http 200
  | Err s => status_to_response s
  | Panic => http 500
  end.
End Handlers.
#[global] Arguments mkExportSt {Σ}.
#[global] Arguments ex_writer {Σ}.
#[global] Arguments ex_limiter {Σ}.
#[global] Arguments ExportSt Σ : clear implicits.

(** ** Properties *)

(** Whole seconds, rounded up, never zero: the header asks for at least the
    delay and less than a second more. *)
Lemma retry_after_header_ceil ns :
  0 ≤ ns → ns < u64_max →
  1 ≤ retry_after_header ns ∧ ns ≤ retry_after_header ns * 1000000000 ∧
  (1000000000 ≤ ns → (retry_after_header ns - 1) * 1000000000 < ns).
Proof.
  intros Hns Hmax. unfold retry_after_header, u64_saturating_add.
  pose proof (Z.div_mod ns 1000000000 ltac:(lia)) as Hdm.
  pose proof (Z.mod_pos_bound ns 1000000000 ltac:(lia)) as Hm.
  assert (0 ≤ ns / 1000000000) as Hd by (apply Z.div_pos; lia).
  assert (ns / 1000000000 + 1 ≤ u64_max) as Hle by (unfold u64_max in *; lia).
  destruct (Z.ltb_spec 0 (ns mod 1000000000)); lia.
Qed.

(** Which policy rejections an exporter retries: over gRPC exactly throttling,
    as meant; over HTTP also blocks for an exhausted rate, quota or size, since
    they too become [429]. *)
Theorem blocked_is_retried_over_http d s :
  decision_status d = Err s →
  (grpc_retryable s = true ↔ ∃ ms reason, d = Throttle ms reason) ∧
  (http_retryable (status_to_response s) = true ↔
     (∃ ms reason, d = Throttle ms reason) ∨
     ∃ reason code, d = Block reason code ∧
       code ∈ [RateLimitExceeded; QuotaExceeded; SizeExceeded]).
Proof.
  assert (∀ c d, http_retryable (with_retry_after c d) = http_retryable (http c)) as Hw by done.
  destruct d as [|r|ms r|r code]; cbn; try done.
  - intros [= <-]. cbn. split; [split; eauto|]. rewrite Hw. split; [eauto|done].
  - destruct code; intros [= <-]; cbn; (split; [split; [done|intros (? & ? & ?); done]|]); split;
      try done; try (intros [(? & ? & ?)|(? & ? & Heq & Hc)]; [done|]; injection Heq as <- <-; vm_compute in Hc;
        by repeat (apply elem_of_cons in Hc as [Hc|Hc]; [done|]); apply not_elem_of_nil in Hc);
      intros _; right; do 2 eexists; (split; [done|]); rewrite !elem_of_cons; auto.
Qed.

Section Properties.
Context {Σ Span Metric Log Score : Type} `{TelemetryWriter Σ Span Metric Log Score}.
Context {Body Bytes R : Type} (decode_body : Body → Z + Bytes) (decode : Bytes → option (OtlpRequest R)).
Context (policy_enforcer : option (IngestCtx → Decision)) (settings_repo : SettingsRepo).
Context (extract_scores : OtlpRequest R → RequestCtx → list Score)
        (convert_logs : OtlpRequest R → RequestCtx → list Log).
Implicit Types (st : ExportSt Σ).

Lemma insert_logs_nonempty_ok st logs st' :
  insert_nonempty insert_logs st logs = (st', Ok ()) →
  logs_of (ex_writer st') = logs_of (ex_writer st) ++ logs ∧
  scores_of (ex_writer st') = scores_of (ex_writer st).
Proof.
  destruct logs as [|x l]; cbn; [intros; simplify_eq; by rewrite app_nil_r|].
  destruct (insert_logs _ _) as [w res] eqn:Hi. intros; simplify_eq. by apply insert_logs_ok.
Qed.

Lemma insert_scores_nonempty_ok st scores st' :
  insert_nonempty insert_scores st scores = (st', Ok ()) →
  scores_of (ex_writer st') = scores_of (ex_writer st) ++ scores ∧
  logs_of (ex_writer st') = logs_of (ex_writer st).
Proof.
  destruct scores as [|x l]; cbn; [intros; simplify_eq; by rewrite app_nil_r|].
  destruct (insert_scores _ _) as [w res] eqn:Hi. intros; simplify_eq. by apply insert_scores_ok in Hi as [? ?].
Qed.

Lemma write_logs_ok st scores logs st' :
  write_logs st scores logs = (st', Ok ()) →
  scores_of (ex_writer st') = scores_of (ex_writer st) ++ scores ∧
  logs_of (ex_writer st') = logs_of (ex_writer st) ++ logs.
Proof.
  unfold write_logs. destruct (insert_nonempty insert_scores st scores) as [st1 [[]|e|]] eqn:Hs; try done.
  destruct (insert_nonempty insert_logs st1 logs) as [st2 [[]|e|]] eqn:Hl; cbn; intros; simplify_eq.
  apply insert_scores_nonempty_ok in Hs as [Hs1 Hs2]. apply insert_logs_nonempty_ok in Hl as [-> ->].
  by rewrite Hs1, Hs2.
Qed.

(** The handlers after decoding and validation. *)
Definition export_logs_body st (ctx : RequestCtx) (request : OtlpRequest R) :
    ExportSt Σ * outcome Status unit :=
  let '(st, res) := enforce policy_enforcer settings_repo st ctx Logs (record_count request) in
  match res with
  | Ok _ =>
      let '(st, res) := write_logs st (extract_scores request ctx) (convert_logs request ctx) in
      (st, map_err (λ e, write_error_status e.1 e.2) res)
  | Err s => (st, Err s)
  | Panic => (st, Panic)
  end.

Lemma grpc_export_logs_body st ctx request :
  validate_logs_request request = Ok () →
  grpc_export_logs policy_enforcer settings_repo extract_scores convert_logs st ctx request =
    export_logs_body st ctx request.
Proof. intros Hv. unfold grpc_export_logs. by rewrite Hv. Qed.

Lemma http_export_logs_body st ctx body bytes request :
  decode_body body = inr bytes → decode bytes = Some request → validate_logs_request request = Ok () →
  http_export_logs decode_body decode policy_enforcer settings_repo extract_scores convert_logs st ctx body =
    ((export_logs_body st ctx request).1, response_of (export_logs_body st ctx request).2).
Proof.
  intros Hb Hd Hv. unfold http_export_logs, export_logs_body. rewrite Hb, Hd, Hv. cbn [negb is_ok].
  destruct (enforce _ _ _ _ _ _) as [st1 [s|s|]]; [|done..].
  destruct (write_logs _ _ _) as [st2 [[]|[what e]|]]; cbn; [done| |done].
  by rewrite <-write_error_response_status.
Qed.

Lemma response_200 res : hr_code (response_of res) = 200 → res = Ok ().
Proof.
  destruct res as [[]|[c m ri]|]; [done| |done]. cbn. unfold status_to_response. cbn.
  by destruct c, ri.
Qed.

Lemma export_logs_body_ok st ctx request st' :
  export_logs_body st ctx request = (st', Ok ()) →
  scores_of (ex_writer st') = scores_of (ex_writer st) ++ extract_scores request ctx ∧
  logs_of (ex_writer st') = logs_of (ex_writer st) ++ convert_logs request ctx.
Proof.
  unfold export_logs_body.
  pose proof (enforce_writer policy_enforcer settings_repo st ctx Logs (record_count request)) as Hw.
  destruct (enforce _ _ _ _ _ _) as [st1 [s|s|]]; [|done..]. cbn in Hw. rewrite <-Hw.
  destruct (write_logs st1 _ _) as [st2 [[]|e|]] eqn:Hwr; intros; simplify_eq/=.
  by apply write_logs_ok.
Qed.

(** Both transports do the same: on a decoded request within the caps, the HTTP
    handler leaves the state the gRPC service leaves and answers with the
    response of its status; outside the caps both change nothing. *)
Theorem transports_agree_on_logs st ctx body bytes request :
  decode_body body = inr bytes → decode bytes = Some request →
  let http := http_export_logs decode_body decode policy_enforcer settings_repo extract_scores convert_logs
                st ctx body in
  let grpc := grpc_export_logs policy_enforcer settings_repo extract_scores convert_logs st ctx request in
  http.1 = grpc.1 ∧
  http.2 = (if is_ok (validate_logs_request request) then response_of grpc.2 else mkHttpResponse 413 None).
Proof.
  intros Hb Hd. cbv zeta. destruct (validate_logs_request request) as [[]|e|] eqn:Hv.
  - rewrite (http_export_logs_body st ctx body bytes request), grpc_export_logs_body by done. done.
  - unfold http_export_logs, grpc_export_logs. by rewrite Hb, Hd, Hv.
  - unfold http_export_logs, grpc_export_logs. by rewrite Hb, Hd, Hv.
Qed.

(** [200] means written: when the logs handler answers success, the writer took
    every score and every log of the request, after what it had. *)
Theorem logs_success_means_written st ctx body bytes request :
  decode_body body = inr bytes → decode bytes = Some request →
  hr_code (http_export_logs decode_body decode policy_enforcer settings_repo extract_scores convert_logs
             st ctx body).2 = 200 →
  let st' := (http_export_logs decode_body decode policy_enforcer settings_repo extract_scores convert_logs
                st ctx body).1 in
  scores_of (ex_writer st') = scores_of (ex_writer st) ++ extract_scores request ctx ∧
  logs_of (ex_writer st') = logs_of (ex_writer st) ++ convert_logs request ctx.
Proof.
  intros Hb Hd. destruct (validate_logs_request request) as [[]|e|] eqn:Hv.
  - rewrite (http_export_logs_body st ctx body bytes request) by done. cbn. intros Hok%response_200.
    apply export_logs_body_ok. by rewrite <-Hok, <-surjective_pairing.
  - unfold http_export_logs. by rewrite Hb, Hd, Hv.
  - unfold http_export_logs. by rewrite Hb, Hd, Hv.
Qed.

(** A logs export is not atomic: the scores are written first, so when the
    insert of the logs fails for a transient reason, the client is told to
    retry and its retry writes the scores a second time. *)
Theorem retried_logs_duplicate_scores st st1 ctx body bytes request w1 w2 reason delay :
  decode_body body = inr bytes → decode bytes = Some request → validate_logs_request request = Ok () →
  extract_scores request ctx ≠ [] → convert_logs request ctx ≠ [] →
  (∃ settings, enforce policy_enforcer settings_repo st ctx Logs (record_count request) = (st1, Ok settings)) →
  insert_scores (ex_writer st1) (extract_scores request ctx) = (w1, Ok ()) →
  insert_logs w1 (convert_logs request ctx) = (w2, Err (Transient reason delay)) →
  let handle := http_export_logs decode_body decode policy_enforcer settings_repo extract_scores convert_logs in
  http_retryable (handle st ctx body).2 = true ∧
  ∀ st2 r2, handle (handle st ctx body).1 ctx body = (st2, r2) → hr_code r2 = 200 →
    scores_of (ex_writer st2) =
      scores_of (ex_writer st) ++ extract_scores request ctx ++ extract_scores request ctx.
Proof.
  intros Hb Hd Hv Hs Hl [settings Hen] Hins Hinl handle.
  pose proof (enforce_writer policy_enforcer settings_repo st ctx Logs (record_count request)) as Hw.
  rewrite Hen in Hw. cbn in Hw.
  assert (export_logs_body st ctx request =
    (mkExportSt w2 (ex_limiter st1), Err (write_error_status "logs" (Transient reason delay)))) as Hbody.
  { unfold export_logs_body, write_logs, insert_nonempty. rewrite Hen.
    destruct (extract_scores request ctx) as [|x xs]; [done|]. rewrite Hins. cbn.
    destruct (convert_logs request ctx) as [|y ys]; [done|]. by rewrite Hinl. }
  assert (∀ st', handle st' ctx body =
    ((export_logs_body st' ctx request).1, response_of (export_logs_body st' ctx request).2)) as Hh
    by (intros st'; by apply (http_export_logs_body st' ctx body bytes request)).
  rewrite !Hh, Hbody. cbn [fst snd]. split; [done|]. intros st2 r2 Heq Hok. simplify_eq.
  apply response_200 in Hok.
  destruct (export_logs_body_ok (mkExportSt w2 (ex_limiter st1)) ctx request
    (export_logs_body (mkExportSt w2 (ex_limiter st1)) ctx request).1) as [-> _].
  { by rewrite <-Hok, <-surjective_pairing. }
  apply insert_scores_ok in Hins as [_ Hsc]. apply insert_logs_failed in Hinl as Hsc2.
  cbn. by rewrite Hsc2, Hsc, Hw, <-app_assoc.
Qed.
End Properties.

(** ** Witnesses *)

(** A writer that keeps its rows and refuses log inserts as told. *)
Record ListWriter := mkListWriter {
  lw_logs : list Z;
  lw_scores : list Z;
  lw_answers : list bool;
}.

Definition list_insert_logs (w : ListWriter) (l : list Z) : ListWriter * outcome WriteError unit :=
  match lw_answers w with
  | false :: rest =>
      (mkListWriter (lw_logs w) (lw_scores w) rest, Err (Transient "WAL disk space low" 5000000000))
  | true :: rest => (mkListWriter (lw_logs w ++ l) (lw_scores w) rest, Ok ())
  | [] => (mkListWriter (lw_logs w ++ l) (lw_scores w) [], Ok ())
  end.

Definition list_insert_scores (w : ListWriter) (l : list Z) : ListWriter * outcome WriteError unit :=
  (mkListWriter (lw_logs w) (lw_scores w ++ l) (lw_answers w), Ok ()).

Section Witnesses.
#[local] Instance list_writer : TelemetryWriter ListWriter Z Z Z Z.
Proof.
  refine {| insert_spans := λ w _, (w, Ok ()); insert_metrics := λ w _, (w, Ok ());
            insert_logs := list_insert_logs; insert_scores := list_insert_scores;
            logs_of := lw_logs; scores_of := lw_scores |}.
  - intros [lg sc [|[] a]] l s'; cbn; intros; by simplify_eq.
  - intros [lg sc [|[] a]] l s' e; cbn; intros; by simplify_eq.
  - intros [lg sc a] l s' Heq. by injection Heq as <-.
  - intros [lg sc a] l s' e Heq. discriminate.
Defined.

Definition sample_decode_body (b : list Z) : Z + list Z := inr b.
Definition sample_decode (b : list Z) : option (OtlpRequest Z) := Some [[b]].
Definition sample_scores (r : OtlpRequest Z) (_ : RequestCtx) : list Z :=
  filter (λ x, 100 ≤ x) (concat (concat r)).
Definition sample_logs (r : OtlpRequest Z) (_ : RequestCtx) : list Z := concat (concat r).
Definition sample_request_ctx : RequestCtx := mkRequestCtx 7 0.

Lemma blocked_is_retried_over_http_witness :
  grpc_retryable (status ResourceExhausted "quota_exceeded") = false ∧
  http_retryable (status_to_response (status ResourceExhausted "quota_exceeded")) = true.
Proof.
  destruct (blocked_is_retried_over_http (Block "quota_exceeded" QuotaExceeded)
    (status ResourceExhausted "quota_exceeded") eq_refl) as [_ H2].
  split; [reflexivity|]. apply H2. right. exists "quota_exceeded"%string, QuotaExceeded.
  split; [reflexivity|]. right. left.
Defined.

Lemma transports_agree_on_logs_witness :
  (http_export_logs sample_decode_body sample_decode None None sample_scores sample_logs
    (mkExportSt (mkListWriter [] [] []) None) sample_request_ctx [1; 200]).2 = http 200.
Proof.
  rewrite (proj2 (transports_agree_on_logs sample_decode_body sample_decode None None sample_scores
    sample_logs (mkExportSt (mkListWriter [] [] []) None) sample_request_ctx [1; 200] [1; 200] [[[1; 200]]]
    eq_refl eq_refl)).
  vm_compute. reflexivity.
Defined.

Lemma logs_success_means_written_witness :
  scores_of (ex_writer (http_export_logs sample_decode_body sample_decode None None sample_scores sample_logs
    (mkExportSt (mkListWriter [] [] []) None) sample_request_ctx [1; 200]).1) = [200].
Proof.
  refine (proj1 (logs_success_means_written sample_decode_body sample_decode None None sample_scores
    sample_logs (mkExportSt (mkListWriter [] [] []) None) sample_request_ctx [1; 200] [1; 200] [[[1; 200]]]
    eq_refl eq_refl _)).
  vm_compute. reflexivity.
Defined.

Lemma retried_logs_duplicate_scores_witness :
  let handle := http_export_logs sample_decode_body sample_decode None None sample_scores sample_logs in
  let st := mkExportSt (mkListWriter [] [] [false]) None in
  http_retryable (handle st sample_request_ctx [1; 200]).2 = true ∧
  ∀ st2 r2, handle (handle st sample_request_ctx [1; 200]).1 sample_request_ctx [1; 200] = (st2, r2) →
    hr_code r2 = 200 → scores_of (ex_writer st2) = [200; 200].
Proof.
  intros handle st.
  destruct (retried_logs_duplicate_scores sample_decode_body sample_decode None None sample_scores sample_logs
    st st sample_request_ctx [1; 200] [1; 200] [[[1; 200]]]
    (mkListWriter [] [200] [false]) (mkListWriter [] [200] []) "WAL disk space low" 5000000000)
    as [H1 H2].
  - reflexivity.
  - reflexivity.
  - vm_compute. reflexivity.
  - vm_compute. discriminate.
  - vm_compute. discriminate.
  - exists None. reflexivity.
  - reflexivity.
  - reflexivity.
  - split; [exact H1|]. intros st2 r2 Hh Hok. rewrite (H2 st2 r2 Hh Hok). vm_compute. reflexivity.
Defined.
End Witnesses.

(** The rate limiter on a small history: a burst of twice the limit passes,
    the next record does not, and a second later a full second's worth does. *)
Example rate_limiter_burst :
  let '(rl, a) := check_and_record ∅ 0 7 10 20 in
  let '(rl, b) := check_and_record rl 0 7 10 1 in
  let '(rl, c) := check_and_record rl 1000000000 7 10 10 in
  let '(rl, d) := check_and_record rl 1000000000 7 10 1 in
  (a, b, c, d) = (true, false, true, false).
Proof. vm_compute. reflexivity. Qed.
