(* ===== verification/WriteBuffer.v ===== *)
(** The write buffer and its flush worker: [zradar-parquet/src/write_buffer.rs]
    and [zradar-parquet/src/flush_worker.rs].

    Ingest threads push rows into slots; one worker drains slots and hands them
    to the file writer. [WriteBuffer] is the buffer as a value, [Worker] adds
    where the worker is between two of its steps, so that pushes interleave
    with the two phases of a drain and with the writes. *)

From stdpp Require Import base gmap list strings.
From S2P Require Import Prelude.

(** [BufferKey]: one slot per workspace, signal, stream and hour. *)
Record BufferKey := mkBufferKey {
  bk_workspace_id : string;
  bk_signal_type : string;
  bk_stream_name : string;
  bk_hour : string;
}.

#[export] Instance BufferKey_eq_dec : EqDecision BufferKey.
Proof. solve_decision. Defined.

#[export] Instance BufferKey_countable : Countable BufferKey.
Proof.
  refine (inj_countable'
    (λ k, (bk_workspace_id k, bk_signal_type k, bk_stream_name k, bk_hour k))
    (λ '(w, s, n, h), mkBufferKey w s n h) _).
  by intros [].
Defined.

Section Buffer.
Context {Span Metric LogRecord EvaluationScore : Type}.

(** [SignalBatch]. *)
Inductive SignalBatch :=
| Spans (v : list Span)
| Metrics (v : list Metric)
| Logs (v : list LogRecord)
| Scores (v : list EvaluationScore).

(** A row of any signal, to speak of the content of a batch. *)
Inductive Row :=
| SpanRow (r : Span)
| MetricRow (r : Metric)
| LogRow (r : LogRecord)
| ScoreRow (r : EvaluationScore).

Definition batch_rows (b : SignalBatch) : list Row :=
  match b with
  | Spans v => map SpanRow v
  | Metrics v => map MetricRow v
  | Logs v => map LogRow v
  | Scores v => map ScoreRow v
  end.

(** The [signal_type] string the writers put into a key for such rows. *)
Definition batch_signal (b : SignalBatch) : string :=
  match b with
  | Spans _ => "traces" | Metrics _ => "metrics" | Logs _ => "logs" | Scores _ => "scores"
  end.

Definition batch_len (b : SignalBatch) : Z :=
  match b with
  | Spans v => zlen v | Metrics v => zlen v | Logs v => zlen v | Scores v => zlen v
  end.

Definition batch_is_empty (b : SignalBatch) : bool := batch_len b =? 0.

(** [BufferSlot]; [created_at] in seconds. *)
Record BufferSlot := mkBufferSlot {
  data : SignalBatch;
  size_bytes : Z;
  created_at : Z;
}.

(** [WriteBuffer]; [flush_permit] is the permit [Notify::notify_one] stores. *)
Record WriteBuffer := mkWriteBuffer {
  slots : gmap BufferKey BufferSlot;
  max_slot_bytes : Z;
  flush_permit : bool;
}.

Definition write_buffer_new (max_slot_bytes : Z) : WriteBuffer := mkWriteBuffer ∅ max_slot_bytes false.

Definition rough_size (count bytes_per_record : Z) : Z := u64_wrap (count * bytes_per_record).

(** [if let SignalBatch::Spans(ref mut v) = slot.data { v.extend_from_slice(spans) }]
    and its three siblings: rows of another variant than the slot's are ignored. *)
Definition extend_slot (slot added : SignalBatch) : SignalBatch :=
  match slot, added with
  | Spans v, Spans w => Spans (v ++ w)
  | Metrics v, Metrics w => Metrics (v ++ w)
  | Logs v, Logs w => Logs (v ++ w)
  | Scores v, Scores w => Scores (v ++ w)
  | _, _ => slot
  end.

(** The same for the owned variants, which move the vector into an empty slot. *)
Definition append_owned {A : Type} (v w : list A) : list A :=
  match v with [] => w | _ => v ++ w end.

Definition move_into_slot (slot added : SignalBatch) : SignalBatch :=
  match slot, added with
  | Spans v, Spans w => Spans (append_owned v w)
  | Metrics v, Metrics w => Metrics (append_owned v w)
  | Logs v, Logs w => Logs (append_owned v w)
  | Scores v, Scores w => Scores (append_owned v w)
  | _, _ => slot
  end.

(** The common body of the eight push methods: [extend] puts the rows into the
    slot, [fresh] is the empty batch of a new slot. *)
Definition push (extend : SignalBatch → SignalBatch → SignalBatch) (bytes_per_record : Z)
    (fresh rows : SignalBatch) (buf : WriteBuffer) (key : BufferKey) (now : Z) : WriteBuffer :=
  let added := rough_size (batch_len rows) bytes_per_record in
  let slot := default (mkBufferSlot fresh 0 now) (slots buf !! key) in
  let slot := mkBufferSlot (extend (data slot) rows) (u64_wrap (size_bytes slot + added))
                (created_at slot) in
  mkWriteBuffer (<[key := slot]> (slots buf)) (max_slot_bytes buf)
    (flush_permit buf || (max_slot_bytes buf <=? size_bytes slot)).

Definition push_spans buf key (v : list Span) now := push extend_slot 512 (Spans []) (Spans v) buf key now.
Definition push_metrics buf key (v : list Metric) now := push extend_slot 256 (Metrics []) (Metrics v) buf key now.
Definition push_logs buf key (v : list LogRecord) now := push extend_slot 384 (Logs []) (Logs v) buf key now.
Definition push_scores buf key (v : list EvaluationScore) now := push extend_slot 256 (Scores []) (Scores v) buf key now.

Definition push_spans_owned buf key (v : list Span) now := push move_into_slot 512 (Spans []) (Spans v) buf key now.
Definition push_metrics_owned buf key (v : list Metric) now := push move_into_slot 256 (Metrics []) (Metrics v) buf key now.
Definition push_logs_owned buf key (v : list LogRecord) now := push move_into_slot 384 (Logs []) (Logs v) buf key now.
Definition push_scores_owned buf key (v : list EvaluationScore) now := push move_into_slot 256 (Scores []) (Scores v) buf key now.

(** The condition of [drain_eligible]'s filter. [Duration] differences of
    [Instant]s saturate at zero. *)
Definition slot_eligible (buf : WriteBuffer) (flush_interval_secs now : Z) (s : BufferSlot) : bool :=
  (max_slot_bytes buf <=? size_bytes s) ||
  (flush_interval_secs <=? Z.max 0 (now - created_at s)).

(** First phase of a drain: the keys of the slots to take. *)
Definition eligible_keys (buf : WriteBuffer) (flush_interval_secs now : Z) : list BufferKey :=
  (filter (λ kv, slot_eligible buf flush_interval_secs now kv.2 = true) (map_to_list (slots buf))).*1.

Definition all_keys (buf : WriteBuffer) : list BufferKey := (map_to_list (slots buf)).*1.

(** Second phase, per key: [self.slots.remove(&key)] and the push onto [result]. *)
Definition take_slot (buf : WriteBuffer) (key : BufferKey) (result : list (BufferKey * BufferSlot)) :
    WriteBuffer * list (BufferKey * BufferSlot) :=
  match slots buf !! key with
  | Some v => (mkWriteBuffer (delete key (slots buf)) (max_slot_bytes buf) (flush_permit buf),
               result ++ [(key, v)])
  | None => (buf, result)
  end.

Definition take_slots (buf : WriteBuffer) (keys : list BufferKey) : WriteBuffer * list (BufferKey * BufferSlot) :=
  foldl (λ st key, take_slot st.1 key st.2) (buf, []) keys.

(** The drains as one call, when nothing is pushed meanwhile. *)
Definition drain_eligible (buf : WriteBuffer) (flush_interval_secs now : Z) :
    WriteBuffer * list (BufferKey * BufferSlot) :=
  take_slots buf (eligible_keys buf flush_interval_secs now).

Definition drain_all (buf : WriteBuffer) : WriteBuffer * list (BufferKey * BufferSlot) :=
  take_slots buf (all_keys buf).

Definition record_count (buf : WriteBuffer) : Z :=
  zsum (map (λ kv, batch_len (data kv.2)) (map_to_list (slots buf))).
End Buffer.
Arguments SignalBatch : clear implicits.
Arguments BufferSlot : clear implicits.
Arguments WriteBuffer : clear implicits.
Arguments Row : clear implicits.

(** ** The worker *)

Section Worker.
Context {Span Metric LogRecord EvaluationScore : Type}.
Abbreviation Batch := (SignalBatch Span Metric LogRecord EvaluationScore).
Abbreviation Slot := (BufferSlot Span Metric LogRecord EvaluationScore).
Abbreviation Buf := (WriteBuffer Span Metric LogRecord EvaluationScore).
Abbreviation AnyRow := (Row Span Metric LogRecord EvaluationScore).

Definition push_batch (owned : bool) (buf : Buf) (key : BufferKey) (b : Batch) (now : Z) : Buf :=
  match b with
  | Spans v => (if owned then push_spans_owned else push_spans) buf key v now
  | Metrics v => (if owned then push_metrics_owned else push_metrics) buf key v now
  | Logs v => (if owned then push_logs_owned else push_logs) buf key v now
  | Scores v => (if owned then push_scores_owned else push_scores) buf key v now
  end.

(** [flush_one]: an empty batch succeeds without calling the writer; otherwise
    the result is the writer's, [write_ok]. *)
Definition flush_one (b : Batch) (write_ok : bool) : bool := batch_is_empty b || write_ok.

(** Where [FlushWorker::run] is: in [select!], inside a drain with keys left to
    take, inside [flush_slots] with slots left to write, or returned. [final]
    on the shutdown path. *)
Inductive WorkerPc :=
| Selecting
| Taking (keys : list BufferKey) (taken : list (BufferKey * Slot)) (final : bool)
| Flushing (todo : list (BufferKey * Slot)) (final : bool)
| Returned.

(** [wk_fates]: every slot a write was tried for, in order, with its result;
    [false] is the "data dropped" branch. *)
Record Worker := mkWorker {
  wk_buffer : Buf;
  wk_pc : WorkerPc;
  wk_fates : list (BufferKey * Batch * bool);
}.

Inductive WorkerEvent :=
| Push (owned : bool) (key : BufferKey) (b : Batch) (now : Z)
| Tick (now : Z) (order : list BufferKey)
| Notified (now : Z) (order : list BufferKey)
| Cancelled (order : list BufferKey)
| TakeSlot
| WriteSlot (write_ok : bool).

(** The next position once a phase has nothing left to do. *)
Definition settle (pc : WorkerPc) : WorkerPc :=
  match pc with
  | Taking [] [] final | Flushing [] final => if final then Returned else Selecting
  | Taking [] taken final => Flushing taken final
  | _ => pc
  end.

Definition start_drain (w : Worker) (keys order : list BufferKey) (final : bool) : option Worker :=
  if decide (order ≡ₚ keys)
  then Some (mkWorker (wk_buffer w) (settle (Taking order [] final)) (wk_fates w)) else None.

(** One step; [None] when the event cannot happen. [order] is the order in
    which [DashMap] lists the keys. A push goes to the method of its signal. *)
Definition worker_step (flush_interval_secs : Z) (w : Worker) (e : WorkerEvent) : option Worker :=
  let buf := wk_buffer w in
  match e, wk_pc w with
  | Push owned key b now, _ =>
      if bool_decide (bk_signal_type key = batch_signal b)
      then Some (mkWorker (push_batch owned buf key b now) (wk_pc w) (wk_fates w)) else None
  | Tick now order, Selecting =>
      start_drain w (eligible_keys buf flush_interval_secs now) order false
  | Notified now order, Selecting =>
      if flush_permit buf then
        let buf := mkWriteBuffer (slots buf) (max_slot_bytes buf) false in
        start_drain (mkWorker buf Selecting (wk_fates w))
          (eligible_keys buf flush_interval_secs now) order false
      else None
  | Cancelled order, Selecting => start_drain w (all_keys buf) order true
  | TakeSlot, Taking (key :: keys) taken final =>
      let '(buf, taken) := take_slot buf key taken in
      Some (mkWorker buf (settle (Taking keys taken final)) (wk_fates w))
  | WriteSlot write_ok, Flushing ((key, s) :: todo) final =>
      Some (mkWorker buf (settle (Flushing todo final))
              (wk_fates w ++ [(key, data s, flush_one (data s) write_ok)]))
  | _, _ => None
  end.

Fixpoint worker_run (flush_interval_secs : Z) (w : Worker) (es : list WorkerEvent) : option Worker :=
  match es with
  | [] => Some w
  | e :: es =>
      match worker_step flush_interval_secs w e with
      | Some w => worker_run flush_interval_secs w es
      | None => None
      end
  end.

Definition worker_init (max_slot_bytes : Z) : Worker := mkWorker (write_buffer_new max_slot_bytes) Selecting [].

(** ** Specification: the rows of a key, by where they are *)

Definition pushed_rows (k : BufferKey) (es : list WorkerEvent) : list AnyRow :=
  concat (map (λ e, match e with
                    | Push _ key b _ => if decide (key = k) then batch_rows b else []
                    | _ => []
                    end) es).

Definition settled_rows (k : BufferKey) (fs : list (BufferKey * Batch * bool)) : list AnyRow :=
  concat (map (λ f, if decide (f.1.1 = k) then batch_rows f.1.2 else []) fs).

Definition slot_rows (k : BufferKey) (l : list (BufferKey * Slot)) : list AnyRow :=
  concat (map (λ kv, if decide (kv.1 = k) then batch_rows (data kv.2) else []) l).

Definition in_flight (pc : WorkerPc) : list (BufferKey * Slot) :=
  match pc with
  | Taking _ taken _ => taken
  | Flushing todo _ => todo
  | _ => []
  end.

Definition buffered_rows (k : BufferKey) (buf : Buf) : list AnyRow :=
  match slots buf !! k with Some s => batch_rows (data s) | None => [] end.

(** Every slot holds rows of the signal its key names. *)
Definition slots_typed (buf : Buf) : Prop :=
  ∀ k s, slots buf !! k = Some s → bk_signal_type k = batch_signal (data s).

(** Keys the worker still has to take. *)
Definition keys_to_take (pc : WorkerPc) : list BufferKey :=
  match pc with Taking keys _ _ => keys | _ => [] end.

(** No lost wakeup: an oversized slot is about to be taken, or the notify
    permit is stored. *)
Definition oversize_signalled (w : Worker) : Prop :=
  ∀ k s, slots (wk_buffer w) !! k = Some s → max_slot_bytes (wk_buffer w) <= size_bytes s →
    k ∈ keys_to_take (wk_pc w) ∨ flush_permit (wk_buffer w) = true ∨ wk_pc w = Returned.

(** ** Lemmas *)

Lemma extend_slot_rows (a b : Batch) :
  batch_signal a = batch_signal b → batch_rows (extend_slot a b) = batch_rows a ++ batch_rows b.
Proof. destruct a, b; cbn; intros; simplify_eq; apply map_app. Qed.

Lemma append_owned_app {A : Type} (v w : list A) : append_owned v w = v ++ w.
Proof. by destruct v. Qed.

Lemma move_into_slot_eq (a b : Batch) : move_into_slot a b = extend_slot a b.
Proof. destruct a, b; cbn; by rewrite ?append_owned_app. Qed.

Lemma extend_slot_signal (a b : Batch) : batch_signal (extend_slot a b) = batch_signal a.
Proof. by destruct a, b. Qed.

(** What a push does to the slot map and the permit, for all eight methods. *)
Lemma push_batch_spec owned buf key b now : ∃ fresh per,
  batch_signal fresh = batch_signal b ∧ batch_rows fresh = [] ∧
  push_batch owned buf key b now = push extend_slot per fresh b buf key now.
Proof.
  assert (∀ per (fresh : Batch), push move_into_slot per fresh b buf key now =
    push extend_slot per fresh b buf key now) as Hown.
  { intros. unfold push. cbn. by rewrite move_into_slot_eq. }
  destruct b; [exists (Spans []), 512|exists (Metrics []), 256|exists (Logs []), 384|exists (Scores []), 256];
    (repeat split); destruct owned; try done; apply Hown.
Qed.

Lemma push_batch_rows owned buf key b now k :
  slots_typed buf → bk_signal_type key = batch_signal b →
  slots_typed (push_batch owned buf key b now) ∧
  buffered_rows k (push_batch owned buf key b now) =
    buffered_rows k buf ++ (if decide (key = k) then batch_rows b else []).
Proof.
  intros Ht Hs. destruct (push_batch_spec owned buf key b now) as (fresh & per & Hf & Hr & ->).
  assert (batch_signal (data (default (mkBufferSlot fresh 0 now) (slots buf !! key))) = batch_signal b) as Hd.
  { destruct (slots buf !! key) eqn:Hk; cbn; [|done]. rewrite <-Hs. symmetry. by eapply Ht. }
  split.
  - intros k' s'. unfold push. cbn. rewrite lookup_insert. case_decide as Hkk.
    + intros [= <-]. subst k'. cbn. by rewrite extend_slot_signal, Hd.
    + apply Ht.
  - unfold buffered_rows, push. cbn. rewrite lookup_insert. case_decide as Hkk.
    + subst k. cbn. rewrite extend_slot_rows by done. f_equal.
      destruct (slots buf !! key); cbn; done.
    + by rewrite app_nil_r.
Qed.

Lemma in_flight_settle pc : in_flight (settle pc) = in_flight pc.
Proof. destruct pc as [|[|k keys] [|t taken] []|[|t todo] []|]; done. Qed.

Lemma slot_rows_app k l1 l2 : slot_rows k (l1 ++ l2) = slot_rows k l1 ++ slot_rows k l2.
Proof. unfold slot_rows. by rewrite map_app, concat_app. Qed.

Lemma settled_rows_app k l1 l2 : settled_rows k (l1 ++ l2) = settled_rows k l1 ++ settled_rows k l2.
Proof. unfold settled_rows. by rewrite map_app, concat_app. Qed.

Lemma take_slot_rows buf key taken k :
  slots_typed buf →
  slots_typed (take_slot buf key taken).1 ∧
  slot_rows k (take_slot buf key taken).2 ++ buffered_rows k (take_slot buf key taken).1 =
    slot_rows k taken ++ buffered_rows k buf.
Proof.
  intros Ht. unfold take_slot. destruct (slots buf !! key) as [s|] eqn:Hk; [|done]. cbn [fst snd]. split.
  - intros k' s'. cbn [slots]. rewrite lookup_delete. case_decide; [done|]. apply Ht.
  - rewrite slot_rows_app, <-app_assoc. f_equal. unfold buffered_rows. cbn [slots].
    rewrite lookup_delete. unfold slot_rows. cbn [map concat fst snd]. rewrite app_nil_r.
    case_decide as Hkk; [|done]. subst k. by rewrite Hk, app_nil_r.
Qed.

Lemma pushed_rows_cons k e es : pushed_rows k (e :: es) = pushed_rows k [e] ++ pushed_rows k es.
Proof. unfold pushed_rows. cbn. by rewrite app_nil_r. Qed.

(** Where the rows of a key are, oldest first. *)
Definition rows_of (k : BufferKey) (w : Worker) : list AnyRow :=
  settled_rows k (wk_fates w) ++ slot_rows k (in_flight (wk_pc w)) ++ buffered_rows k (wk_buffer w).

Lemma start_drain_rows w keys order final w' k :
  start_drain w keys order final = Some w' → in_flight (wk_pc w) = [] →
  wk_buffer w' = wk_buffer w ∧ rows_of k w' = rows_of k w.
Proof.
  unfold start_drain. intros H Hpc. case_decide; [|done]. simplify_eq. split; [done|].
  unfold rows_of. cbn [wk_fates wk_pc wk_buffer]. by rewrite in_flight_settle, Hpc.
Qed.

Lemma worker_step_rows secs w e w' k :
  worker_step secs w e = Some w' → slots_typed (wk_buffer w) →
  slots_typed (wk_buffer w') ∧ rows_of k w' = rows_of k w ++ pushed_rows k [e].
Proof.
  intros Hstep Ht. unfold worker_step in Hstep.
  destruct e as [owned key b now|now order|now order|order| |ok].
  - case_bool_decide as Hs; [|done]. simplify_eq. unfold rows_of. cbn [wk_fates wk_pc wk_buffer].
    destruct (push_batch_rows owned (wk_buffer w) key b now k Ht Hs) as [Ht' ->]. split; [done|].
    unfold pushed_rows. cbn [map concat]. by rewrite !app_nil_r, !app_assoc.
  - destruct (wk_pc w) eqn:Hpc; try done.
    destruct (start_drain_rows _ _ _ _ _ k Hstep) as [-> ->]; [by rewrite Hpc|]. by rewrite app_nil_r.
  - destruct (wk_pc w) eqn:Hpc; try done. destruct (flush_permit _); [|done].
    destruct (start_drain_rows _ _ _ _ _ k Hstep) as [-> ->]; [done|]. rewrite app_nil_r. split; [done|].
    unfold rows_of. cbn [wk_fates wk_pc wk_buffer in_flight]. by rewrite Hpc.
  - destruct (wk_pc w) eqn:Hpc; try done.
    destruct (start_drain_rows _ _ _ _ _ k Hstep) as [-> ->]; [by rewrite Hpc|]. by rewrite app_nil_r.
  - destruct (wk_pc w) as [|[|key keys] taken final| |] eqn:Hpc; try done.
    destruct (take_slot_rows (wk_buffer w) key taken k Ht) as [Ht' Hrows].
    destruct (take_slot _ _ _) as [buf' taken']. cbn [fst snd] in *. simplify_eq. split; [done|].
    unfold rows_of. cbn [wk_fates wk_pc wk_buffer]. rewrite in_flight_settle, Hpc. cbn [in_flight].
    by rewrite Hrows, app_nil_r.
  - destruct (wk_pc w) as [| |[|[key s] todo] final|] eqn:Hpc; try done. simplify_eq. split; [done|].
    unfold rows_of. cbn [wk_fates wk_pc wk_buffer]. rewrite in_flight_settle, Hpc. cbn [in_flight].
    rewrite settled_rows_app, app_nil_r, <-app_assoc. f_equal. rewrite app_assoc. f_equal.
    unfold settled_rows, slot_rows. cbn [map concat fst snd]. destruct (decide (key = k)); cbn; by rewrite ?app_nil_r.
Qed.

Lemma worker_run_rows secs es : ∀ w w' k,
  worker_run secs w es = Some w' → slots_typed (wk_buffer w) →
  slots_typed (wk_buffer w') ∧ rows_of k w' = rows_of k w ++ pushed_rows k es.
Proof.
  induction es as [|e es IH]; intros w w' k Hrun Ht.
  - cbn in Hrun. simplify_eq. by rewrite app_nil_r.
  - cbn [worker_run] in Hrun. destruct (worker_step secs w e) as [w1|] eqn:Hs; [|done].
    destruct (worker_step_rows _ _ _ _ k Hs Ht) as [Ht1 H1].
    destruct (IH _ _ k Hrun Ht1) as [Ht' H2]. split; [done|].
    by rewrite H2, H1, (pushed_rows_cons k e es), app_assoc.
Qed.
Lemma keys_to_take_settle pc : keys_to_take (settle pc) = keys_to_take pc.
Proof. destruct pc as [|[|k keys] [|t taken] []|[|t todo] []|]; done. Qed.

Lemma elem_of_eligible_keys (buf : Buf) secs now k s :
  slots buf !! k = Some s → max_slot_bytes buf ≤ size_bytes s → k ∈ eligible_keys buf secs now.
Proof.
  intros Hk Hs. unfold eligible_keys. rewrite list_elem_of_fmap. exists (k, s). split; [done|].
  apply list_elem_of_filter. split; [|by apply elem_of_map_to_list].
  unfold slot_eligible. cbn [snd]. apply orb_true_iff. left. by apply Z.leb_le.
Qed.

Lemma elem_of_all_keys (buf : Buf) k s : slots buf !! k = Some s → k ∈ all_keys buf.
Proof.
  intros Hk. unfold all_keys. rewrite list_elem_of_fmap. exists (k, s). split; [done|].
  by apply elem_of_map_to_list.
Qed.

Lemma start_drain_signalled w keys order final w' :
  start_drain w keys order final = Some w' →
  (∀ k s, slots (wk_buffer w) !! k = Some s →
     max_slot_bytes (wk_buffer w) ≤ size_bytes s → k ∈ keys) →
  oversize_signalled w'.
Proof.
  unfold start_drain. intros H Hk. case_decide as Ho; [|done]. simplify_eq.
  intros k s Hs Hm. left. cbn [wk_buffer wk_pc] in *. rewrite keys_to_take_settle. cbn [keys_to_take].
  rewrite Ho. by eapply Hk.
Qed.

Lemma worker_step_signalled secs w e w' :
  worker_step secs w e = Some w' → oversize_signalled w → oversize_signalled w'.
Proof.
  intros Hstep Hw. unfold worker_step in Hstep.
  destruct e as [owned key b now|now order|now order|order| |ok].
  - case_bool_decide; [|done]. simplify_eq. intros k s.
    destruct (push_batch_spec owned (wk_buffer w) key b now) as (fresh & per & _ & _ & ->).
    unfold push. cbn [wk_buffer wk_pc slots max_slot_bytes flush_permit]. rewrite lookup_insert.
    case_decide.
    + intros [= <-] Hle. right. left. apply orb_true_iff. right. by apply Z.leb_le.
    + intros Hs Hle. destruct (Hw k s Hs Hle) as [?|[->|?]]; auto.
  - destruct (wk_pc w) eqn:Hpc; try done.
    eapply start_drain_signalled; [done|]. intros. by eapply elem_of_eligible_keys.
  - destruct (wk_pc w) eqn:Hpc; try done. destruct (flush_permit _); [|done].
    eapply start_drain_signalled; [done|]. cbn [wk_buffer]. intros. by eapply elem_of_eligible_keys.
  - destruct (wk_pc w) eqn:Hpc; try done.
    eapply start_drain_signalled; [done|]. intros. by eapply elem_of_all_keys.
  - destruct (wk_pc w) as [|[|key keys] taken final| |] eqn:Hpc; try done.
    unfold take_slot in Hstep.
    assert (∀ k s, slots (wk_buffer w) !! k = Some s → max_slot_bytes (wk_buffer w) ≤ size_bytes s →
      k = key ∨ k ∈ keys ∨ flush_permit (wk_buffer w) = true) as Hold.
    { intros k s Hs Hle. destruct (Hw k s Hs Hle) as [Hin|[?|?]]; [|auto|congruence].
      rewrite Hpc in Hin. cbn in Hin. apply elem_of_cons in Hin as [|]; auto. }
    destruct (slots (wk_buffer w) !! key) as [sk|] eqn:Hkey; simplify_eq; intros k s;
      cbn [wk_buffer wk_pc slots max_slot_bytes flush_permit]; rewrite keys_to_take_settle.
    + rewrite lookup_delete. case_decide; [done|]. intros Hs Hle.
      destruct (Hold k s Hs Hle) as [?|[?|?]]; [congruence| |]; auto.
    + intros Hs Hle. destruct (Hold k s Hs Hle) as [->|[?|?]]; [congruence| |]; auto.
  - destruct (wk_pc w) as [| |[|[key s] todo] final|] eqn:Hpc; try done. simplify_eq.
    intros k s' Hs Hle. cbn [wk_buffer wk_pc] in *. rewrite keys_to_take_settle.
    destruct (Hw k s' Hs Hle) as [Hin|[?|?]]; [|auto|congruence].
    rewrite Hpc in Hin. cbn in Hin. by apply not_elem_of_nil in Hin.
Qed.

Lemma worker_run_signalled secs es : ∀ w w',
  worker_run secs w es = Some w' → oversize_signalled w → oversize_signalled w'.
Proof.
  induction es as [|e es IH]; intros w w' Hrun Hw; cbn in Hrun; [by simplify_eq|].
  destruct (worker_step secs w e) as [w1|] eqn:Hs; [|done].
  eapply IH; [done|]. by eapply worker_step_signalled.
Qed.

Lemma worker_run_app secs es1 : ∀ w es2,
  worker_run secs w (es1 ++ es2) =
    match worker_run secs w es1 with Some w' => worker_run secs w' es2 | None => None end.
Proof.
  induction es1 as [|e es1 IH]; intros w es2; cbn; [done|].
  destruct (worker_step secs w e); [apply IH|done].
Qed.

(** Taking every listed key empties the buffer of them. *)
Lemma take_all secs fs final ks : ∀ (buf : Buf) taken, NoDup ks →
  (∀ k, k ∈ ks → is_Some (slots buf !! k)) →
  ∃ buf' tk, worker_run secs (mkWorker buf (settle (Taking ks taken final)) fs) (map (λ _, TakeSlot) ks) =
      Some (mkWorker buf' (settle (Flushing (taken ++ tk) final)) fs) ∧
    length tk = length ks ∧ (∀ k, k ∉ ks → slots buf' !! k = slots buf !! k) ∧
    (∀ k, k ∈ ks → slots buf' !! k = None).
Proof.
  induction ks as [|key ks IH]; intros buf taken Hnd Hin.
  - exists buf, []. cbn [map worker_run]. rewrite app_nil_r. split; [by destruct taken|].
    repeat split; try done. intros k Hk. by apply not_elem_of_nil in Hk.
  - apply NoDup_cons in Hnd as [Hkey Hnd]. destruct (Hin key) as [s Hs]; [by left|].
    destruct (IH (mkWriteBuffer (delete key (slots buf)) (max_slot_bytes buf) (flush_permit buf))
                (taken ++ [(key, s)]) Hnd) as (buf' & tk & Hrun & Hlen & Hout & Hgone).
    { intros k Hk. cbn [slots]. rewrite lookup_delete_ne by congruence. apply Hin. by right. }
    exists buf', ((key, s) :: tk). rewrite <-app_assoc in Hrun. cbn [slots length] in *.
    split; [etransitivity; [|exact Hrun]; cbn; unfold take_slot; by rewrite Hs|]. split; [congruence|]. split.
    + intros k Hk. rewrite not_elem_of_cons in Hk. destruct Hk as [Hne Hk].
      rewrite Hout by done. by rewrite lookup_delete_ne.
    + intros k [->|Hk]%elem_of_cons; [|by apply Hgone].
      rewrite Hout by done. by rewrite lookup_delete_eq.
Qed.

Lemma write_all secs (buf : Buf) final todo : ∀ oks fs, length oks = length todo →
  worker_run secs (mkWorker buf (settle (Flushing todo final)) fs) (map WriteSlot oks) =
    Some (mkWorker buf (if final then Returned else Selecting)
            (fs ++ zip_with (λ kv ok, (kv.1, data kv.2, flush_one (data kv.2) ok)) todo oks)).
Proof.
  induction todo as [|[key s] todo IH]; intros [|ok oks] fs Hlen; try done.
  - cbn. by rewrite app_nil_r.
  - etransitivity; [exact (IH oks (fs ++ [(key, data s, flush_one (data s) ok)]) ltac:(cbn in *; lia))|].
    by rewrite <-app_assoc.
Qed.
Lemma pushed_rows_quiet k ks oks order :
  pushed_rows k (Cancelled order :: map (λ _ : BufferKey, TakeSlot) ks ++ map WriteSlot oks) = [].
Proof.
  unfold pushed_rows. cbn. rewrite map_app, concat_app.
  induction ks as [|? ks IH]; [|exact IH]. by induction oks.
Qed.

Lemma worker_init_typed max : slots_typed (wk_buffer (worker_init max)).
Proof. done. Qed.

(** ** Theorems *)

(** C11: Whatever the interleaving of pushes, drains and writes, the rows pushed
    under a key are exactly, and in order, those a write was tried for, those
    drained and still to be written, and those in the buffer: nothing is lost
    between the phases of a drain, duplicated, or filed under another key. *)
Theorem flush_conserves_rows secs max es w k :
  worker_run secs (worker_init max) es = Some w →
  pushed_rows k es =
    settled_rows k (wk_fates w) ++ slot_rows k (in_flight (wk_pc w)) ++ buffered_rows k (wk_buffer w) ∧
  slots_typed (wk_buffer w).
Proof.
  intros Hrun. destruct (worker_run_rows _ _ _ _ k Hrun (worker_init_typed max)) as [Ht Hr].
  split; [|done]. symmetry. exact Hr.
Qed.

(** No lost wakeup: while the worker waits, a slot at or over the size limit
    implies a stored notify permit, so the worker is woken for it. *)
Theorem oversize_slot_wakes_worker secs max es w k s :
  worker_run secs (worker_init max) es = Some w →
  wk_pc w = Selecting →
  slots (wk_buffer w) !! k = Some s → max_slot_bytes (wk_buffer w) ≤ size_bytes s →
  ∀ now, ∃ w', worker_step secs w (Notified now (eligible_keys (wk_buffer w) secs now)) = Some w' ∧
    k ∈ keys_to_take (wk_pc w').
Proof.
  intros Hrun Hpc Hs Hle now.
  assert (oversize_signalled w) as Hw.
  { eapply worker_run_signalled; [done|]. intros ? ? H. cbn in H. by apply lookup_empty_Some in H. }
  destruct (Hw k s Hs Hle) as [Hin|[Hp|?]]; [|clear Hw|congruence].
  { rewrite Hpc in Hin. by apply not_elem_of_nil in Hin. }
  eexists. split.
  - cbn. rewrite Hpc, Hp. unfold start_drain. by rewrite decide_True.
  - cbn [wk_pc]. rewrite keys_to_take_settle. by eapply elem_of_eligible_keys.
Qed.

(** Shutdown: with no push after the cancellation, the worker returns after one
    take and one write per slot, the buffer is empty, and the writes cover
    exactly the rows that were buffered; if the writes succeed none is dropped. *)
Theorem shutdown_writes_everything secs w order oks :
  wk_pc w = Selecting → slots_typed (wk_buffer w) →
  order ≡ₚ all_keys (wk_buffer w) → length oks = length order →
  ∃ w' fs,
    worker_run secs w (Cancelled order :: map (λ _, TakeSlot) order ++ map WriteSlot oks) = Some w' ∧
    wk_pc w' = Returned ∧ slots (wk_buffer w') = ∅ ∧ wk_fates w' = wk_fates w ++ fs ∧
    (∀ k, settled_rows k fs = buffered_rows k (wk_buffer w)) ∧
    (Forall (λ ok, ok = true) oks → Forall (λ f, f.2 = true) fs).
Proof.
  intros Hpc Ht Ho Hlen.
  assert (NoDup order) as Hnd by (rewrite Ho; apply NoDup_fst_map_to_list).
  destruct (take_all secs (wk_fates w) true order (wk_buffer w) []) as (buf & tk & Hrun & Hl & Hout & Hgone).
  { done. }
  { intros k. rewrite Ho. unfold all_keys. rewrite list_elem_of_fmap. intros ([k' s] & -> & Hin).
    apply elem_of_map_to_list in Hin. by exists s. }
  assert (slots buf = ∅) as Hempty.
  { apply map_empty. intros k. destruct (decide (k ∈ order)); [by apply Hgone|].
    rewrite Hout by done. destruct (slots (wk_buffer w) !! k) eqn:Hk; [|done].
    apply elem_of_all_keys in Hk. by rewrite <-Ho in Hk. }
  pose proof (write_all secs buf true tk oks (wk_fates w) ltac:(lia)) as Hwrite.
  set (fs := zip_with _ tk oks) in Hwrite.
  assert (worker_run secs w (Cancelled order :: map (λ _, TakeSlot) order ++ map WriteSlot oks) =
    Some (mkWorker buf Returned (wk_fates w ++ fs))) as Hall.
  { cbn [worker_run worker_step]. rewrite Hpc. unfold start_drain. rewrite decide_True by done.
    rewrite worker_run_app. cbn [app] in Hrun. by rewrite Hrun. }
  exists (mkWorker buf Returned (wk_fates w ++ fs)), fs. repeat split; try done.
  - intros k. destruct (worker_run_rows _ _ _ _ k Hall Ht) as [_ Hr].
    rewrite pushed_rows_quiet, app_nil_r in Hr. unfold rows_of in Hr.
    cbn [wk_fates wk_pc wk_buffer in_flight] in Hr. rewrite Hpc in Hr. unfold buffered_rows at 1 in Hr.
    rewrite Hempty, lookup_empty, settled_rows_app in Hr. cbn in Hr. rewrite !app_nil_r in Hr.
    by apply app_inv_head in Hr.
  - intros Hoks. subst fs. clear -Hoks. revert oks Hoks. induction tk as [|t tk IH]; intros [|ok oks] Hoks; try by constructor.
    apply Forall_cons in Hoks as [-> Hoks]. constructor; [|by apply IH]. cbn. unfold flush_one. apply orb_true_r.
Qed.
End Worker.

(** ** Witnesses *)

Definition sample_key (hour : string) : BufferKey := mkBufferKey "w1" "logs" "default" hour.
Abbreviation sample_event := (WorkerEvent (Span := Z) (Metric := Z) (LogRecord := Z) (EvaluationScore := Z)).

(** A push during the drain of its own slot, and one to another hour. *)
Definition sample_events : list sample_event :=
  [Push false (sample_key "h1") (Logs [1; 2]) 0; Notified 1 [sample_key "h1"];
   Push true (sample_key "h1") (Logs [3]) 1; TakeSlot; Push true (sample_key "h1") (Logs [4; 5]) 2;
   WriteSlot false; Push false (sample_key "h2") (Logs [6]) 3].
Definition sample_worker := default (worker_init 500) (worker_run 30 (worker_init 500) sample_events).

Lemma sample_run : worker_run 30 (worker_init 500) sample_events = Some sample_worker.
Proof. vm_compute. reflexivity. Qed.

Lemma flush_conserves_rows_witness :
  pushed_rows (sample_key "h1") sample_events = map LogRow [1; 2; 3; 4; 5] ∧
  settled_rows (sample_key "h1") (wk_fates sample_worker) = map LogRow [1; 2; 3] ∧
  buffered_rows (sample_key "h1") (wk_buffer sample_worker) = map LogRow [4; 5] ∧
  slots_typed (wk_buffer sample_worker).
Proof.
  destruct (flush_conserves_rows 30 500 sample_events sample_worker (sample_key "h1") sample_run) as [Hr Ht].
  split; [|split; [|split; [|exact Ht]]]; vm_compute; reflexivity.
Defined.

Lemma oversize_slot_wakes_worker_witness : ∃ w',
  worker_step 30 sample_worker (Notified 4 (eligible_keys (wk_buffer sample_worker) 30 4)) = Some w' ∧
  sample_key "h1" ∈ keys_to_take (wk_pc w').
Proof.
  refine (oversize_slot_wakes_worker 30 500 sample_events sample_worker (sample_key "h1")
    (mkBufferSlot (Logs [4; 5]) 768 2) sample_run _ _ _ 4); vm_compute; [reflexivity|reflexivity|discriminate].
Defined.

Lemma shutdown_writes_everything_witness : ∃ w' fs,
  worker_run 30 sample_worker (Cancelled (all_keys (wk_buffer sample_worker)) ::
    map (λ _, TakeSlot) (all_keys (wk_buffer sample_worker)) ++ map WriteSlot [true; true]) = Some w' ∧
  wk_pc w' = Returned ∧ slots (wk_buffer w') = ∅ ∧ wk_fates w' = wk_fates sample_worker ++ fs ∧
  (∀ k, settled_rows k fs = buffered_rows k (wk_buffer sample_worker)) ∧
  (Forall (λ ok, ok = true) [true; true] → Forall (λ f, f.2 = true) fs).
Proof.
  refine (shutdown_writes_everything 30 sample_worker (all_keys (wk_buffer sample_worker)) [true; true] _ _ _ _).
  - vm_compute. reflexivity.
  - exact (proj2 (flush_conserves_rows 30 500 sample_events sample_worker (sample_key "h1") sample_run)).
  - reflexivity.
  - vm_compute. reflexivity.
Defined.
