(* ===== verification/TelemetryWriter.v ===== *)
(** Partitioning of a batch by storage key:
    [zradar-parquet/src/telemetry_writer.rs], with [ts_ns_to_date_path] of
    [zradar-parquet/src/writer.rs].

    A batch handed over by the write-ahead log mixes workspaces, services and
    hours; each row goes to the group of its own key. *)

From stdpp Require Import base gmap list strings pretty.
From S2P Require Import Prelude WriteBuffer.

(** chrono's [DateTime::from_timestamp(secs, _).format("%Y/%m/%d/%H")]. The law
    is what the format documents: it names the UTC hour, for the seconds an
    [i64] of nanoseconds can reach. *)
Definition secs_range (s : Z) : Prop := -9223372037 ≤ s ≤ 9223372036.

Class Chrono := {
  format_hour : Z → string;
  format_hour_eq s t : secs_range s → secs_range t →
    format_hour s = format_hour t ↔ s / 3600 = t / 3600;
}.

Definition NANOS_PER_HOUR : Z := 3600000000000.

(** [ts_ns / 1_000_000_000] truncates toward zero; the nanoseconds do not show
    in the hour, and the range check of [from_timestamp] never fails here. *)
Definition ts_ns_to_date_path `{Chrono} (ts_ns : Z) : string :=
  format_hour (Z.quot ts_ns 1000000000).

Definition stream_of (service_name : string) : string :=
  if bool_decide (service_name = "") then "default" else service_name.

Record PartitionKey := mkPartitionKey {
  pk_workspace_id : string;
  pk_stream_name : string;
  pk_hour : string;
}.

#[export] Instance PartitionKey_eq_dec : EqDecision PartitionKey.
Proof. solve_decision. Defined.

#[export] Instance PartitionKey_countable : Countable PartitionKey.
Proof.
  refine (inj_countable' (λ k, (pk_workspace_id k, pk_stream_name k, pk_hour k))
    (λ '(w, n, h), mkPartitionKey w n h) _).
  by intros [].
Defined.

Definition partition_key_of `{Chrono} (workspace_id service_name : string) (ts_ns : Z) : PartitionKey :=
  mkPartitionKey workspace_id (stream_of service_name) (ts_ns_to_date_path ts_ns).

Definition buffer_key (k : PartitionKey) (signal_type : string) : BufferKey :=
  mkBufferKey (pk_workspace_id k) signal_type (pk_stream_name k) (pk_hour k).

Section Partition.
Context `{Chrono} {T : Type} (workspace_of service_of : T → string) (ts_of : T → Z).

Definition row_key (r : T) : PartitionKey := partition_key_of (workspace_of r) (service_of r) (ts_of r).

(** The discriminator [(&workspace, &stream, hour_bucket)]; [div_euclid] by a
    positive number is [Z.div]. *)
Definition discriminator (r : T) : string * string * Z :=
  (workspace_of r, stream_of (service_of r), ts_of r / NANOS_PER_HOUR).

(** [rows[0]] panics on an empty batch. *)
Definition is_homogeneous (rows : list T) : outcome unit bool :=
  match rows with
  | [] => Panic
  | first :: _ => Ok (forallb (λ r, bool_decide (discriminator r = discriminator first)) rows)
  end.

Inductive Partitioned :=
| Homogeneous (key : PartitionKey) (rows : list T)
| Grouped (groups : list (PartitionKey * list T)).

(** The loop body: [index.entry(key).or_insert_with(..)] and
    [groups[idx].1.push(r)]. *)
Definition group_row (st : gmap PartitionKey nat * list (PartitionKey * list T)) (r : T) :
    gmap PartitionKey nat * list (PartitionKey * list T) :=
  let '(index, groups) := st in
  let key := row_key r in
  let '(index, groups, idx) :=
    match index !! key with
    | Some idx => (index, groups, idx)
    | None => (<[key := length groups]> index, groups ++ [(key, [])], length groups)
    end in
  (index, alter (λ g, (g.1, g.2 ++ [r])) idx groups).

Definition group_rows (rows : list T) : list (PartitionKey * list T) :=
  (foldl group_row (∅, []) rows).2.

(** [partition_by_storage_key] clones rows and [partition_owned] moves them;
    as values they are the same function. *)
Definition partition_by_storage_key (rows : list T) : outcome unit Partitioned :=
  homogeneous ← is_homogeneous rows;
  if (homogeneous : bool) then
    match rows with
    | [] => Panic
    | first :: _ => mret (Homogeneous (row_key first) rows)
    end
  else mret (Grouped (group_rows rows)).

(** The partitions as a list, the way the insert methods walk them. *)
Definition partitions (p : Partitioned) : list (PartitionKey * list T) :=
  match p with
  | Homogeneous key rows => [(key, rows)]
  | Grouped groups => groups
  end.

(** ** Specification *)

(** A grouping of [rows] by key: distinct keys, and per key the rows that have
    it in their order of arrival. *)
Definition grouping (rows : list T) (groups : list (PartitionKey * list T)) : Prop :=
  NoDup groups.*1 ∧
  (∀ k g, (k, g) ∈ groups → g = filter (λ r, row_key r = k) rows ∧ g ≠ []) ∧
  (∀ r, r ∈ rows → row_key r ∈ groups.*1).

(** ** Lemmas *)

(** The index maps each key of [groups] to its position. *)
Definition index_ok (index : gmap PartitionKey nat) (groups : list (PartitionKey * list T)) : Prop :=
  ∀ k i, index !! k = Some i ↔ groups.*1 !! i = Some k.

Lemma alter_keys (f : list T → list T) i (groups : list (PartitionKey * list T)) :
  (alter (λ g, (g.1, f g.2)) i groups).*1 = groups.*1.
Proof.
  revert i. induction groups as [|[k g] groups IH]; intros [|i]; cbn; try done. f_equal. apply IH.
Qed.

Lemma index_ok_snoc index groups key (g : list T) :
  index_ok index groups → index !! key = None →
  index_ok (<[key := length groups]> index) (groups ++ [(key, g)]).
Proof.
  intros Hi Hn k i. rewrite fmap_app, lookup_insert. cbn [fmap list_fmap fst].
  assert (∀ j, groups.*1 !! j ≠ Some key) as Hno.
  { intros j Hj. apply Hi in Hj. congruence. }
  destruct (decide (key = k)) as [->|Hne].
  - split.
    + intros [= <-]. rewrite lookup_app_r by (by rewrite length_fmap).
      by rewrite length_fmap, Nat.sub_diag.
    + intros Hl. apply lookup_snoc_Some in Hl as [[_ Hl]|[Hl _]]; [by apply Hno in Hl|].
      by rewrite length_fmap in Hl; subst i.
  - rewrite (Hi k i), lookup_snoc_Some. split.
    + intros Hl. left. split; [|done]. rewrite length_fmap. apply lookup_lt_Some in Hl.
      by rewrite length_fmap in Hl.
    + intros [[_ Hl]|[_ ?]]; [done|congruence].
Qed.

Lemma group_row_spec rows index groups r :
  index_ok index groups → grouping rows groups →
  ∃ index' groups', group_row (index, groups) r = (index', groups') ∧
    index_ok index' groups' ∧ grouping (rows ++ [r]) groups'.
Proof.
  intros Hi (Hnd & Hg & Hall). unfold group_row.
  destruct (index !! row_key r) as [idx|] eqn:Hk.
  - do 2 eexists. split; [done|]. split.
    { intros k i. rewrite (alter_keys (λ g, g ++ [r])). apply Hi. }
    pose proof (proj1 (Hi _ _) Hk) as Hidx. split; [|split].
    + by rewrite (alter_keys (λ g, g ++ [r])).
    + intros k g Hin. apply list_elem_of_lookup in Hin as [j Hj].
      destruct (decide (idx = j)) as [<-|Hne].
      * rewrite list_lookup_alter_eq in Hj. apply fmap_Some in Hj as ([k0 g0] & Hl & [= -> ->]).
        rewrite list_lookup_fmap, Hl in Hidx. cbn in Hidx. simplify_eq.
        destruct (Hg (row_key r) g0) as [-> _]; [by eapply list_elem_of_lookup_2|].
        split; [by rewrite filter_snoc_keep|]. intros Hnil. by apply app_nil in Hnil as [_ ?].
      * rewrite list_lookup_alter_ne in Hj by done.
        destruct (Hg k g) as [-> Hne2]; [by eapply list_elem_of_lookup_2|].
        rewrite filter_snoc_drop; [done|]. intros <-. apply Hne.
        assert (groups.*1 !! j = Some (row_key r)) as Hj' by (by rewrite list_lookup_fmap, Hj).
        by eapply NoDup_lookup.
    + intros r' [Hin|Hr%list_elem_of_singleton]%elem_of_app; [|subst r'];
        rewrite (alter_keys (λ g, g ++ [r])); [by apply Hall|].
      by eapply list_elem_of_lookup_2.
  - assert (row_key r ∉ groups.*1) as Hnin.
    { intros [j Hj]%list_elem_of_lookup. apply Hi in Hj. congruence. }
    do 2 eexists. split; [done|].
    rewrite alter_app_r_alt, Nat.sub_diag by done. cbn [alter list_alter fst snd app].
    split; [by apply index_ok_snoc|]. split; [|split].
    + rewrite fmap_app. cbn. apply NoDup_app. split; [done|]. split; [|apply NoDup_singleton].
      intros k Hin Hk'%list_elem_of_singleton. by subst k.
    + intros k g [Hin|Hnew%list_elem_of_singleton]%elem_of_app; [|injection Hnew as -> ->].
      * destruct (Hg k g Hin) as [-> Hne]. rewrite filter_snoc_drop; [done|].
        intros <-. apply Hnin. apply list_elem_of_fmap. by eexists (_, _).
      * rewrite filter_snoc_keep by done. rewrite filter_none; [done|].
        intros r' Hin Heq. apply Hnin. rewrite <-Heq. by apply Hall.
    + intros r' [Hin|Hr%list_elem_of_singleton]%elem_of_app; [|subst r']; rewrite fmap_app, elem_of_app;
        [left; by apply Hall|right; by left].
Qed.

Lemma group_rows_spec rows : grouping rows (group_rows rows).
Proof.
  assert (∃ index groups, foldl group_row (∅, []) rows = (index, groups) ∧
    index_ok index groups ∧ grouping rows groups) as (index & groups & Hf & _ & Hg).
  { induction rows as [|r rows IH] using rev_ind.
    - exists ∅, []. split; [done|]. split; [done|]. split; [constructor|]. split; intros; by set_solver.
    - destruct IH as (index & groups & Hf & Hi & Hg). rewrite foldl_app, Hf. by apply group_row_spec. }
  unfold group_rows. by rewrite Hf.
Qed.

Lemma date_path_nonneg t u : 0 ≤ t ≤ i64_max → 0 ≤ u ≤ i64_max →
  t / NANOS_PER_HOUR = u / NANOS_PER_HOUR ↔ ts_ns_to_date_path t = ts_ns_to_date_path u.
Proof.
  assert (∀ x, 0 ≤ x ≤ i64_max → secs_range (Z.quot x 1000000000) ∧
    Z.quot x 1000000000 / 3600 = x / NANOS_PER_HOUR) as Hx.
  { intros x Hx. unfold secs_range, NANOS_PER_HOUR, i64_max in *.
    rewrite Z.quot_div_nonneg by lia. split; [|by rewrite Z.div_div by lia].
    split; [assert (0 ≤ x / 1000000000) by (apply Z.div_pos; lia); lia|].
    apply Z.le_trans with (9223372036854775807 / 1000000000); [apply Z.div_le_mono; lia|by vm_compute]. }
  intros Ht Hu. unfold ts_ns_to_date_path. destruct (Hx t Ht) as [? Et], (Hx u Hu) as [? Eu].
  by rewrite format_hour_eq, Et, Eu.
Qed.

Lemma homogeneous_keys first rows :
  Forall (λ r, 0 ≤ ts_of r ≤ i64_max) (first :: rows) →
  forallb (λ r, bool_decide (discriminator r = discriminator first)) (first :: rows) = true →
  ∀ r, r ∈ first :: rows → row_key r = row_key first.
Proof.
  rewrite Forall_forall, forallb_forall. intros Hts Hd r Hr.
  specialize (Hd r (proj1 (list_elem_of_In _ _) Hr)). apply bool_decide_eq_true in Hd.
  unfold discriminator in Hd. injection Hd as Hw Hs Ht.
  unfold row_key, partition_key_of. rewrite Hw, Hs. f_equal.
  apply date_path_nonneg; [by apply Hts|apply Hts; by left|done].
Qed.

Lemma homogeneous_grouping first rows :
  (∀ r, r ∈ first :: rows → row_key r = row_key first) →
  grouping (first :: rows) [(row_key first, first :: rows)].
Proof.
  intros Hk. split; [|split].
  - apply NoDup_singleton.
  - intros k g Hin%list_elem_of_singleton. injection Hin as -> ->. split; [|done].
    symmetry. by apply filter_all.
  - intros r Hr. rewrite (Hk r Hr). by left.
Qed.

Lemma partition_total rows : rows ≠ [] →
  ∃ p, partition_by_storage_key rows = Ok p ∧
    (Forall (λ r, 0 ≤ ts_of r ≤ i64_max) rows → grouping rows (partitions p)).
Proof.
  destruct rows as [|first rows]; [done|]. intros _. unfold partition_by_storage_key.
  cbn [is_homogeneous]. ostep. destruct (forallb _ _) eqn:Hd.
  - eexists. split; [done|]. intros Hts. apply homogeneous_grouping. by apply homogeneous_keys.
  - eexists. split; [done|]. intros _. apply group_rows_spec.
Qed.

(** ** Theorems *)

(** Partitioning a non-empty batch of rows with timestamps from 1970 on never
    fails and groups the rows exactly by storage key: one group per key, its
    rows the batch's rows of that key in order; the fast path that skips the
    grouping gives the same result. *)
Theorem partition_exact rows :
  rows ≠ [] → Forall (λ r, 0 ≤ ts_of r ≤ i64_max) rows →
  ∃ p, partition_by_storage_key rows = Ok p ∧ grouping rows (partitions p).
Proof.
  intros Hne Hts. destruct (partition_total rows Hne) as (p & Hp & Hg). exists p. split; [done|]. by apply Hg.
Qed.

(** Before 1970 the integer bucket and the formatted hour disagree, because the
    first rounds down and the second toward zero: 23:59:59.999999999 of the
    last day of 1969 is formatted as the next hour, while its bucket is that of
    23:00:00. A batch of the two counts as homogeneous and is filed under the
    hour of whichever row comes first, although their keys differ. *)
Theorem partition_misfiles_before_1970 r1 r2 :
  workspace_of r1 = workspace_of r2 → service_of r1 = service_of r2 →
  ts_of r1 = -1 → ts_of r2 = - NANOS_PER_HOUR →
  partition_by_storage_key [r1; r2] = Ok (Homogeneous (row_key r1) [r1; r2]) ∧
  partition_by_storage_key [r2; r1] = Ok (Homogeneous (row_key r2) [r2; r1]) ∧
  row_key r1 ≠ row_key r2.
Proof.
  intros Hw Hs H1 H2. unfold partition_by_storage_key. cbn [is_homogeneous forallb].
  assert (discriminator r1 = discriminator r2) as Hd.
  { unfold discriminator. by rewrite Hw, Hs, H1, H2. }
  rewrite Hd, bool_decide_eq_true_2 by done. split; [done|]. split; [done|].
  unfold row_key, partition_key_of, ts_ns_to_date_path. intros [= _ _ Hh].
  rewrite H1, H2 in Hh. apply format_hour_eq in Hh; [|by vm_compute; split..].
  by vm_compute in Hh.
Qed.
End Partition.
Arguments Partitioned : clear implicits.

(** ** Witnesses *)

Lemma pretty_hour_eq s t : secs_range s → secs_range t → pretty (s / 3600) = pretty (t / 3600) ↔ s / 3600 = t / 3600.
Proof. intros _ _. split; [apply (inj pretty)|by intros ->]. Qed.

Definition chrono_concrete : Chrono := {| format_hour s := pretty (s / 3600); format_hour_eq := pretty_hour_eq |}.

(** A row as its workspace, service and timestamp. *)
Definition sample_row (w s : string) (t : Z) : string * string * Z := (w, s, t).
Definition sample_partition := partition_by_storage_key (H := chrono_concrete)
  (λ r : string * string * Z, r.1.1) (λ r, r.1.2) (λ r, r.2).
Definition sample_rows := [sample_row "a" "svc" 5; sample_row "b" "" 6; sample_row "a" "svc" 7].

Lemma partition_exact_witness : ∃ p, sample_partition sample_rows = Ok p ∧
  partitions p = [(mkPartitionKey "a" "svc" "0", [sample_row "a" "svc" 5; sample_row "a" "svc" 7]);
                  (mkPartitionKey "b" "default" "0", [sample_row "b" "" 6])].
Proof.
  destruct (partition_exact (H := chrono_concrete) (λ r : string * string * Z, r.1.1) (λ r, r.1.2) (λ r, r.2)
    sample_rows ltac:(discriminate)) as (p & Hp & Hg).
  - repeat constructor; by vm_compute.
  - exists p. split; [exact Hp|]. vm_compute in Hp. injection Hp as <-. reflexivity.
Defined.

Lemma partition_misfiles_before_1970_witness :
  sample_partition [sample_row "a" "svc" (-1); sample_row "a" "svc" (-3600000000000)] =
    Ok (Homogeneous (mkPartitionKey "a" "svc" "0")
          [sample_row "a" "svc" (-1); sample_row "a" "svc" (-3600000000000)]).
Proof.
  refine (proj1 (partition_misfiles_before_1970 (H := chrono_concrete)
    (λ r : string * string * Z, r.1.1) (λ r, r.1.2) (λ r, r.2)
    (sample_row "a" "svc" (-1)) (sample_row "a" "svc" (-3600000000000)) _ _ _ _)); reflexivity.
Defined.
