(* ===== verification/FileList.v ===== *)
(** The metadata of Parquet files: [zradar-models/src/file_list.rs], the
    [FileListRepository] trait of [zradar-traits/src/repositories/file_list.rs]
    and its Postgres implementation
    [zradar-plugin-postgres/src/repositories/file_list.rs].

    [FileDb] holds the tables [file_list] and [stream_stats]; each SQL statement
    is the function it computes on them. A statement that fails leaves the
    tables as they are; which ones fail is up to the caller of the model. *)

From stdpp Require Import base gmap sorting list strings.
From S2P Require Import Prelude.

(** [FileListEntry]; a workspace id is its UUID as a number. *)
Record FileListEntry := mkFileListEntry {
  fe_id : Z;
  fe_workspace_id : Z;
  fe_signal_type : string;
  fe_stream_name : string;
  fe_date : string;
  fe_file_path : string;
  fe_location : string;
  fe_min_ts : Z;
  fe_max_ts : Z;
  fe_records : Z;
  fe_original_size : Z;
  fe_compressed_size : Z;
  fe_deleted : bool;
  fe_created_at : Z;
  fe_updated_at : Z;
}.

#[export] Instance FileListEntry_eq_dec : EqDecision FileListEntry.
Proof. solve_decision. Defined.

(** [FileListFilter]; [None] is an absent condition. *)
Record FileListFilter := mkFileListFilter {
  ff_workspace_id : option Z;
  ff_signal_type : option string;
  ff_stream_name : option string;
  ff_time_range_start : option Z;
  ff_time_range_end : option Z;
  ff_location : option string;
  ff_deleted : option bool;
}.

Definition filter_default : FileListFilter := mkFileListFilter None None None None None None None.

(** [StreamStats], keyed by workspace, signal and stream. *)
Record StreamStats := mkStreamStats {
  ss_file_count : Z;
  ss_min_ts : Z;
  ss_max_ts : Z;
  ss_total_records : Z;
  ss_total_original_size : Z;
  ss_total_compressed_size : Z;
}.

Record FileDb := mkFileDb {
  file_rows : gmap Z FileListEntry;
  next_file_id : Z;
  stream_stats : gmap (Z * string * string) StreamStats;
}.

Definition file_db_empty : FileDb := mkFileDb ∅ 1 ∅.

Definition with_rows (db : FileDb) (rows : gmap Z FileListEntry) : FileDb :=
  mkFileDb rows (next_file_id db) (stream_stats db).

(** [INSERT .. deleted = false .. RETURNING id]: the id of the entry is
    replaced by the next of the sequence. *)
Definition register_file (db : FileDb) (e : FileListEntry) : FileDb * Z :=
  let id := next_file_id db in
  let row := mkFileListEntry id (fe_workspace_id e) (fe_signal_type e) (fe_stream_name e) (fe_date e)
    (fe_file_path e) (fe_location e) (fe_min_ts e) (fe_max_ts e) (fe_records e) (fe_original_size e)
    (fe_compressed_size e) false (fe_created_at e) (fe_updated_at e) in
  (mkFileDb (<[id := row]> (file_rows db)) (id + 1) (stream_stats db), id).

(** [$n IS NULL OR ..]. *)
Definition when_some {A : Type} (o : option A) (f : A → bool) : bool :=
  match o with None => true | Some a => f a end.

Definition matches (f : FileListFilter) (e : FileListEntry) : bool :=
  when_some (ff_workspace_id f) (λ w, fe_workspace_id e =? w)
  && when_some (ff_signal_type f) (λ s, bool_decide (fe_signal_type e = s))
  && when_some (ff_stream_name f) (λ s, bool_decide (fe_stream_name e = s))
  && when_some (ff_time_range_start f) (λ t, t <=? fe_max_ts e)
  && when_some (ff_time_range_end f) (λ t, fe_min_ts e <=? t)
  && when_some (ff_location f) (λ l, bool_decide (fe_location e = l))
  && when_some (ff_deleted f) (λ d, bool_decide (fe_deleted e = d)).

Definition rows_list (db : FileDb) : list FileListEntry := (map_to_list (file_rows db)).*2.

(** [ORDER BY min_ts DESC, created_at DESC]. *)
Definition query_order (a b : FileListEntry) : Prop :=
  fe_min_ts b < fe_min_ts a ∨ (fe_min_ts a = fe_min_ts b ∧ fe_created_at b ≤ fe_created_at a).

#[export] Instance query_order_dec : RelDecision query_order.
Proof. intros a b. unfold query_order. apply _. Defined.

Definition query_files (db : FileDb) (f : FileListFilter) : list FileListEntry :=
  merge_sort query_order (filter (λ e, matches f e = true) (rows_list db)).

(** The trait's [sum_compressed_size] folds with [saturating_add] over sizes
    clamped at zero; the SQL sums the column as it is. *)
Definition sum_compressed_size_default (db : FileDb) (f : FileListFilter) : Z :=
  foldl (λ total e, i64_saturating_add total (Z.max (fe_compressed_size e) 0)) 0 (query_files db f).
Definition sum_compressed_size (db : FileDb) (f : FileListFilter) : Z :=
  zsum (map fe_compressed_size (filter (λ e, matches f e = true) (rows_list db))).

(** [(workspace_id, signal_type, date)]. *)
Definition group_key (e : FileListEntry) : Z * string * string :=
  (fe_workspace_id e, fe_signal_type e, fe_date e).

Definition compactable (cutoff_us : Z) (e : FileListEntry) : bool :=
  negb (fe_deleted e) && bool_decide (fe_location e = "local") && (fe_created_at e <? cutoff_us).

(** [groups.entry(key).or_default().push(entry)] over a list. *)
Definition group_by_key (l : list FileListEntry) : gmap (Z * string * string) (list FileListEntry) :=
  group_on group_key l.

Definition min_ts_order (a b : FileListEntry) : Prop := fe_min_ts a ≤ fe_min_ts b.
#[export] Instance min_ts_order_dec : RelDecision min_ts_order.
Proof. intros a b. unfold min_ts_order. apply _. Defined.

(** The SQL of the Postgres implementation: the compactable rows joined with
    the groups of at least two, ordered by [min_ts] within a group. *)
Definition query_compactable_groups (db : FileDb) (cutoff_us : Z) : list (list FileListEntry) :=
  let candidates := filter (λ e, compactable cutoff_us e = true) (rows_list db) in
  let joined := filter (λ e, 2 ≤ zlen (filter (λ e', group_key e' = group_key e) candidates)) candidates in
  (map_to_list (group_by_key (merge_sort min_ts_order joined))).*2.

(** The trait's default method, on the result of [query_files]. *)
Definition query_compactable_groups_default (db : FileDb) (cutoff_us : Z) : list (list FileListEntry) :=
  let files := query_files db (mkFileListFilter None None None None None (Some "local") (Some false)) in
  let groups := group_by_key (filter (λ e, fe_created_at e < cutoff_us) files) in
  filter (λ g, 2 ≤ zlen g) (map_to_list groups).*2.

Definition set_location (location new_path : string) (now : Z) (e : FileListEntry) : FileListEntry :=
  mkFileListEntry (fe_id e) (fe_workspace_id e) (fe_signal_type e) (fe_stream_name e) (fe_date e)
    new_path location (fe_min_ts e) (fe_max_ts e) (fe_records e) (fe_original_size e)
    (fe_compressed_size e) (fe_deleted e) (fe_created_at e) now.

Definition set_deleted (now : Z) (e : FileListEntry) : FileListEntry :=
  mkFileListEntry (fe_id e) (fe_workspace_id e) (fe_signal_type e) (fe_stream_name e) (fe_date e)
    (fe_file_path e) (fe_location e) (fe_min_ts e) (fe_max_ts e) (fe_records e) (fe_original_size e)
    (fe_compressed_size e) true (fe_created_at e) now.

Definition update_location (db : FileDb) (id : Z) (location new_path : string) (now : Z) : FileDb :=
  with_rows db (alter (set_location location new_path now) id (file_rows db)).

Definition mark_deleted (db : FileDb) (ids : list Z) (now : Z) : FileDb :=
  with_rows db (foldl (λ m id, alter (set_deleted now) id m) (file_rows db) (remove_dups ids)).

Definition delete_entries (db : FileDb) (ids : list Z) : FileDb :=
  with_rows db (foldl (λ m id, delete id m) (file_rows db) ids).

(** [INSERT .. ON CONFLICT .. DO UPDATE]. *)
Definition upsert_stream_stats (db : FileDb) (key : Z * string * string)
    (min_ts max_ts records original_size compressed_size : Z) : FileDb :=
  let stats :=
    match stream_stats db !! key with
    | None => mkStreamStats 1 min_ts max_ts records original_size compressed_size
    | Some s => mkStreamStats (ss_file_count s + 1) (Z.min (ss_min_ts s) min_ts) (Z.max (ss_max_ts s) max_ts)
        (ss_total_records s + records) (ss_total_original_size s + original_size)
        (ss_total_compressed_size s + compressed_size)
    end in
  mkFileDb (file_rows db) (next_file_id db) (<[key := stats]> (stream_stats db)).

Definition list_active_keys (db : FileDb) (before_micros : Z) : gset (Z * string) :=
  list_to_set (map (λ e, (fe_workspace_id e, fe_signal_type e))
    (filter (λ e, fe_deleted e = false ∧ fe_created_at e < before_micros) (rows_list db))).

(** Every row is stored under its id, and ids were handed out by the sequence. *)
Definition db_wf (db : FileDb) : Prop :=
  ∀ id e, file_rows db !! id = Some e → fe_id e = id ∧ id < next_file_id db.

(** ** Lemmas *)

Lemma elem_of_rows_list db e : e ∈ rows_list db ↔ ∃ id, file_rows db !! id = Some e.
Proof.
  unfold rows_list. rewrite list_elem_of_fmap. split.
  - intros ([id e'] & -> & Hin). exists id. by apply elem_of_map_to_list in Hin.
  - intros [id Hid]. exists (id, e). split; [done|]. by apply elem_of_map_to_list.
Qed.

Lemma elem_of_query_files db f e :
  e ∈ query_files db f ↔ matches f e = true ∧ ∃ id, file_rows db !! id = Some e.
Proof. unfold query_files. by rewrite merge_sort_Permutation, list_elem_of_filter, elem_of_rows_list. Qed.

Lemma mark_deleted_lookup db ids now id :
  file_rows (mark_deleted db ids now) !! id =
    if decide (id ∈ ids) then set_deleted now <$> file_rows db !! id else file_rows db !! id.
Proof.
  unfold mark_deleted, with_rows. cbn [file_rows].
  assert (∀ (l : list Z) m, NoDup l →
    foldl (λ (m : gmap Z FileListEntry) i, alter (set_deleted now) i m) m l !! id =
      if decide (id ∈ l) then set_deleted now <$> m !! id else m !! id) as Hl.
  { induction l as [|i l IH]; intros m Hnd; [done|]. apply NoDup_cons in Hnd as [Hi Hnd]. cbn [foldl].
    rewrite IH by done. destruct (decide (id = i)) as [->|Hne].
    - rewrite (decide_False (P := i ∈ l)) by done. rewrite decide_True by by left. by rewrite lookup_alter_eq.
    - rewrite lookup_alter_ne by done.
      destruct (decide (id ∈ l)); [rewrite decide_True by by right|rewrite decide_False by (by rewrite not_elem_of_cons)]; done. }
  rewrite Hl by apply NoDup_remove_dups.
  destruct (decide (id ∈ ids)) as [Hin|Hin]; [rewrite decide_True|rewrite decide_False];
    try done; by rewrite elem_of_remove_dups.
Qed.

Lemma delete_entries_lookup db ids id :
  file_rows (delete_entries db ids) !! id = if decide (id ∈ ids) then None else file_rows db !! id.
Proof.
  unfold delete_entries, with_rows. cbn [file_rows]. generalize (file_rows db) as m.
  induction ids as [|i ids IH]; intros m; [done|]. cbn [foldl]. rewrite IH.
  destruct (decide (id = i)) as [->|Hne].
  - rewrite lookup_delete_eq. rewrite (decide_True (P := i ∈ i :: ids)) by by left. by case_decide.
  - rewrite lookup_delete_ne by done.
    destruct (decide (id ∈ ids)); [rewrite decide_True by by right|rewrite decide_False by (by rewrite not_elem_of_cons)]; done.
Qed.

Lemma register_file_lookup db e id :
  file_rows (register_file db e).1 !! id =
    if decide (id = next_file_id db) then Some (mkFileListEntry (next_file_id db) (fe_workspace_id e)
      (fe_signal_type e) (fe_stream_name e) (fe_date e) (fe_file_path e) (fe_location e) (fe_min_ts e)
      (fe_max_ts e) (fe_records e) (fe_original_size e) (fe_compressed_size e) false (fe_created_at e)
      (fe_updated_at e))
    else file_rows db !! id.
Proof. cbn. rewrite lookup_insert. by repeat case_decide. Qed.

Lemma db_wf_empty : db_wf file_db_empty.
Proof. intros id e He. cbn in He. by apply lookup_empty_Some in He. Qed.

Lemma db_wf_rows db rows :
  db_wf db → (∀ id e, rows !! id = Some e → ∃ e', file_rows db !! id = Some e' ∧ fe_id e = fe_id e') →
  db_wf (with_rows db rows).
Proof. intros Hwf Hr id e He. destruct (Hr id e He) as (e' & He' & ->). by apply (Hwf id e'). Qed.

Lemma db_wf_register db e : db_wf db → db_wf (register_file db e).1.
Proof.
  intros Hwf id e'. rewrite register_file_lookup. cbn. case_decide.
  - intros [= <-]. cbn. lia.
  - intros [? ?]%Hwf. lia.
Qed.

Lemma db_wf_mark_deleted db ids now : db_wf db → db_wf (mark_deleted db ids now).
Proof.
  intros Hwf. apply db_wf_rows; [done|]. intros id e He.
  pose proof (mark_deleted_lookup db ids now id) as Hl. unfold mark_deleted, with_rows in Hl. cbn [file_rows] in Hl.
  rewrite Hl in He. case_decide; [|by exists e]. apply fmap_Some in He as (e' & He' & ->). by exists e'.
Qed.

Lemma db_wf_delete_entries db ids : db_wf db → db_wf (delete_entries db ids).
Proof.
  intros Hwf. apply db_wf_rows; [done|]. intros id e He.
  pose proof (delete_entries_lookup db ids id) as Hl. unfold delete_entries, with_rows in Hl. cbn [file_rows] in Hl.
  rewrite Hl in He. case_decide; [done|]. by exists e.
Qed.

Lemma db_wf_update_location db id loc path now : db_wf db → db_wf (update_location db id loc path now).
Proof.
  intros Hwf. apply db_wf_rows; [done|]. intros id' e He. rewrite lookup_alter in He.
  case_decide; [|by exists e]. subst id'. apply fmap_Some in He as (e' & He' & ->). by exists e'.
Qed.

Lemma elem_of_groups l g :
  g ∈ (map_to_list (group_by_key l)).*2 ↔ ∃ k, g = filter (λ e, group_key e = k) l ∧ g ≠ [].
Proof.
  rewrite list_elem_of_fmap. unfold group_by_key. split.
  - intros ([k g'] & -> & Hin%elem_of_group_on). by exists k.
  - intros (k & -> & Hne). exists (k, filter (λ e, group_key e = k) l). split; [done|]. by apply elem_of_group_on.
Qed.

(** The candidates of a scan, as a list in no particular order. *)
Definition candidates (db : FileDb) (cutoff_us : Z) : list FileListEntry :=
  filter (λ e, compactable cutoff_us e = true) (rows_list db).

Lemma zlen_filter_perm (P : FileListEntry → Prop) `{!∀ e, Decision (P e)} l1 l2 :
  l1 ≡ₚ l2 → zlen (filter P l1) = zlen (filter P l2).
Proof. intros Hl. by rewrite Hl. Qed.

(** Both implementations return, per key, the candidates of that key. *)
Lemma postgres_groups_spec db cutoff g :
  g ∈ query_compactable_groups db cutoff →
  ∃ k, g ≡ₚ filter (λ e, group_key e = k) (candidates db cutoff) ∧ 2 ≤ zlen g.
Proof.
  unfold query_compactable_groups. intros (k & -> & Hne)%elem_of_groups. exists k.
  set (c := filter _ (rows_list db)) in *. fold (candidates db cutoff) in c.
  assert (filter (λ e, group_key e = k) (merge_sort min_ts_order
    (filter (λ e, 2 ≤ zlen (filter (λ e', group_key e' = group_key e) c)) c)) ≡ₚ
    filter (λ e, group_key e = k ∧ 2 ≤ zlen (filter (λ e', group_key e' = group_key e) c)) c) as Hp.
  { by rewrite merge_sort_Permutation, list_filter_filter. }
  destruct (filter (λ e, group_key e = k) (merge_sort _ _)) as [|e0 g0] eqn:Hg; [done|].
  assert (2 ≤ zlen (filter (λ e, group_key e = k) c)) as Hlen.
  { assert (e0 ∈ e0 :: g0) as Hin by by left. rewrite Hp, list_elem_of_filter in Hin.
    destruct Hin as [[<- ?] _]. done. }
  assert (e0 :: g0 ≡ₚ filter (λ e, group_key e = k) c) as Hall.
  { rewrite Hp. apply reflexive_eq. apply list_filter_iff. intros e. split; [tauto|].
    intros <-. done. }
  split; [done|]. by rewrite Hall.
Qed.

Lemma default_candidates db cutoff :
  filter (λ e, fe_created_at e < cutoff)
    (query_files db (mkFileListFilter None None None None None (Some "local") (Some false)))
  ≡ₚ candidates db cutoff.
Proof.
  unfold query_files, candidates. rewrite merge_sort_Permutation, list_filter_filter.
  apply reflexive_eq, list_filter_iff. intros e. unfold matches, compactable. cbn [when_some ff_workspace_id
    ff_signal_type ff_stream_name ff_time_range_start ff_time_range_end ff_location ff_deleted andb].
  rewrite !andb_true_iff, !bool_decide_eq_true, negb_true_iff, Z.ltb_lt. tauto.
Qed.

Lemma default_groups_spec db cutoff g :
  g ∈ query_compactable_groups_default db cutoff ↔
  2 ≤ zlen g ∧ ∃ k, g = filter (λ e, group_key e = k) (filter (λ e, fe_created_at e < cutoff)
    (query_files db (mkFileListFilter None None None None None (Some "local") (Some false)))).
Proof.
  unfold query_compactable_groups_default. rewrite list_elem_of_filter, elem_of_groups.
  split; [intros (? & k & ? & ?); eauto|]. intros (Hl & k & Hg). split; [done|]. exists k. split; [done|].
  intros ->. cbn in Hl. lia.
Qed.

Lemma postgres_group_exists db cutoff k :
  2 ≤ zlen (filter (λ e, group_key e = k) (candidates db cutoff)) →
  ∃ g, g ∈ query_compactable_groups db cutoff ∧ g ≡ₚ filter (λ e, group_key e = k) (candidates db cutoff).
Proof.
  intros Hl. set (c := candidates db cutoff) in *.
  set (sorted := merge_sort min_ts_order
    (filter (λ e, 2 ≤ zlen (filter (λ e', group_key e' = group_key e) c)) c)).
  assert (filter (λ e, group_key e = k) sorted ≡ₚ filter (λ e, group_key e = k) c) as Hp.
  { subst sorted. rewrite merge_sort_Permutation, list_filter_filter. apply reflexive_eq, list_filter_iff.
    intros e. split; [tauto|]. by intros <-. }
  exists (filter (λ e, group_key e = k) sorted). split; [|done].
  unfold query_compactable_groups. apply elem_of_groups. exists k. split; [done|].
  intros Hnil. rewrite Hnil in Hp. symmetry in Hp. apply Permutation_nil_r in Hp. rewrite Hp in Hl. cbn in Hl. lia.
Qed.

(** ** Theorems *)

(** The Postgres query and the trait's default method select the same files
    for compaction, group by group: every group of one is a group of the other
    up to the order of its files. *)
Theorem compactable_groups_agree db cutoff :
  (∀ g, g ∈ query_compactable_groups db cutoff →
     ∃ g', g' ∈ query_compactable_groups_default db cutoff ∧ g' ≡ₚ g) ∧
  (∀ g, g ∈ query_compactable_groups_default db cutoff →
     ∃ g', g' ∈ query_compactable_groups db cutoff ∧ g' ≡ₚ g).
Proof.
  split; intros g Hg.
  - destruct (postgres_groups_spec _ _ _ Hg) as (k & Hp & Hl).
    eexists. split; [apply default_groups_spec; split; [|by exists k]|].
    + etrans; [exact Hl|]. by rewrite Hp, default_candidates.
    + by rewrite default_candidates, Hp.
  - apply default_groups_spec in Hg as (Hl & k & ->).
    rewrite default_candidates in Hl. destruct (postgres_group_exists _ _ _ Hl) as (g' & Hin & Hp).
    exists g'. split; [done|]. by rewrite Hp, default_candidates.
Qed.

Lemma rows_list_inj db e1 e2 : db_wf db → e1 ∈ rows_list db → e2 ∈ rows_list db → fe_id e1 = fe_id e2 → e1 = e2.
Proof.
  intros Hwf [i1 H1]%elem_of_rows_list [i2 H2]%elem_of_rows_list Heq.
  destruct (Hwf _ _ H1) as [<- _], (Hwf _ _ H2) as [<- _]. rewrite Heq in H1. congruence.
Qed.

Lemma NoDup_rows_list db : db_wf db → NoDup (rows_list db).
Proof.
  intros Hwf. apply (NoDup_fmap_1 fe_id).
  assert (fe_id <$> rows_list db = (map_to_list (file_rows db)).*1) as ->; [|apply NoDup_fst_map_to_list].
  unfold rows_list. rewrite <-list_fmap_compose. apply Forall_fmap_ext. apply Forall_forall.
  intros [id e] Hin%elem_of_map_to_list. cbn. by destruct (Hwf _ _ Hin).
Qed.
