(* ===== verification/ParquetWriter.v ===== *)
(** Writing and recovering Parquet files: [zradar-parquet/src/writer.rs] and
    [zradar-parquet/src/recovery.rs].

    A write goes through fixed stages, from the conversion to a record batch to
    the two metadata statements; it can fail, or the process can die, at each.
    [Store] is the data directory with the metadata tables. The encoding of
    rows into a file is Arrow's: a file holds the rows written to it. *)

From stdpp Require Import base gmap sorting list strings.
From Stdlib Require Import Ascii.
From S2P Require Import Prelude FileList WriteBuffer TelemetryWriter.

(** [Uuid::parse_str(s).unwrap_or(Uuid::nil())]: the uuid crate's parser. *)
Class UuidParser := parse_uuid : string → option Z.
Definition parse_uuid_or_nil `{UuidParser} (s : string) : Z := default 0 (parse_uuid s).

(** [strip_prefix], and the rest of a string after its first slash. *)
Fixpoint strip_prefix (p s : string) : option string :=
  match p, s with
  | EmptyString, _ => Some s
  | String c p, String d s => if decide (c = d) then strip_prefix p s else None
  | String _ _, EmptyString => None
  end.

Fixpoint after_slash (s : string) : option string :=
  match s with
  | EmptyString => None
  | String c s => if decide (c = "/"%char) then Some s else after_slash s
  end.

(** [extract_s3_key] of the reader and the reclaimer. *)
Definition extract_s3_key (s3_url : string) : string :=
  match strip_prefix "s3://" s3_url with
  | Some rest => default s3_url (after_slash rest)
  | None => s3_url
  end.

Section Writer.
Context `{Chrono} `{UuidParser} {R : Type}.

(** A file holds a complete Parquet file with its rows, or something torn. *)
Inductive FileData := Whole (rows : list R) | Torn.

(** The local disk, the objects of the bucket by key, and the tables. *)
Record Store := mkStore {
  disk : gmap string FileData;
  objects : gmap string FileData;
  st_db : FileDb;
}.

Definition with_disk (st : Store) (d : gmap string FileData) : Store := mkStore d (objects st) (st_db st).
Definition with_objects (st : Store) (o : gmap string FileData) : Store := mkStore (disk st) o (st_db st).
Definition with_db (st : Store) (db : FileDb) : Store := mkStore (disk st) (objects st) db.

(** The arguments of [write_batch]. *)
Record WriteJob := mkWriteJob {
  wj_workspace_id : string;
  wj_stream_name : string;
  wj_signal_type : string;
  wj_rows : list R;
  wj_min_ts_ns : Z;
  wj_min_ts_us : Z;
  wj_max_ts_us : Z;
  wj_record_count : Z;
}.

(** The steps of [write_batch]; [Convert] is the conversion in its callers. *)
Inductive Stage := Convert | CreateDir | WriteTemp | FsyncTemp | RenameTemp | StatFile | Register | UpsertStats.

#[export] Instance Stage_eq_dec : EqDecision Stage.
Proof. solve_decision. Defined.

(** The error a call ends with: refused, or the stage that failed. *)
Inductive BatchWriteError := EmptySlice | StageFailed (s : Stage).

Definition write_stages : list Stage :=
  [Convert; CreateDir; WriteTemp; FsyncTemp; RenameTemp; StatFile; Register; UpsertStats].

(** What a call finds: the fresh v4 uuid, the clock, the sizes of the file it
    writes, and the stage it fails or dies at, if any, with whether the stage
    took (partial) effect before. *)
Record WriteEnv := mkWriteEnv {
  we_data_dir : string;
  we_uuid : string;
  we_now_us : Z;
  we_original_size : Z;
  we_compressed_size : Z;
  we_fail : option (Stage * bool);
}.

(** The file's path without its extension. *)
Definition file_stem (job : WriteJob) (env : WriteEnv) : string :=
  we_data_dir env +:+ "/files/" +:+ wj_workspace_id job +:+ "/" +:+ wj_signal_type job +:+ "/" +:+
  wj_stream_name job +:+ "/" +:+ ts_ns_to_date_path (wj_min_ts_ns job) +:+ "/" +:+ we_uuid env.

Definition full_path (job : WriteJob) (env : WriteEnv) : string := file_stem job env +:+ ".parquet".
Definition temp_path (job : WriteJob) (env : WriteEnv) : string := file_stem job env +:+ ".par".

(** The row inserted into [file_list]; the id is assigned on insertion. *)
Definition new_entry (job : WriteJob) (env : WriteEnv) : FileListEntry :=
  mkFileListEntry 0 (parse_uuid_or_nil (wj_workspace_id job)) (wj_signal_type job) (wj_stream_name job)
    (ts_ns_to_date_path (wj_min_ts_ns job)) (full_path job env) "local" (wj_min_ts_us job)
    (wj_max_ts_us job) (wj_record_count job) (we_original_size env) (we_compressed_size env) false
    (we_now_us env) (we_now_us env).

Definition stage_effect (job : WriteJob) (env : WriteEnv) (st : Store) (s : Stage) : Store :=
  match s with
  | WriteTemp => with_disk st (<[temp_path job env := Whole (wj_rows job)]> (disk st))
  | RenameTemp =>
      with_disk st (match disk st !! temp_path job env with
                    | Some f => <[full_path job env := f]> (delete (temp_path job env) (disk st))
                    | None => disk st
                    end)
  | Register => with_db st (register_file (st_db st) (new_entry job env)).1
  | UpsertStats =>
      with_db st (upsert_stream_stats (st_db st)
        (parse_uuid_or_nil (wj_workspace_id job), wj_signal_type job, wj_stream_name job)
        (wj_min_ts_us job) (wj_max_ts_us job) (wj_record_count job) (we_original_size env)
        (we_compressed_size env))
  | Convert | CreateDir | FsyncTemp | StatFile => st
  end.

(** What a stage that fails can leave: a torn temp file; otherwise its effect,
    as when the database commits and the answer is lost. *)
Definition failed_effect (job : WriteJob) (env : WriteEnv) (st : Store) (s : Stage) : Store :=
  match s with
  | WriteTemp => with_disk st (<[temp_path job env := Torn]> (disk st))
  | _ => stage_effect job env st s
  end.

Fixpoint run_stages (job : WriteJob) (env : WriteEnv) (st : Store) (l : list Stage) :
    Store * outcome BatchWriteError string :=
  match l with
  | [] => (st, Ok (full_path job env))
  | s :: l =>
      match we_fail env with
      | Some (f, effect) =>
          if decide (f = s) then (if effect then failed_effect job env st s else st, Err (StageFailed s))
          else run_stages job env (stage_effect job env st s) l
      | None => run_stages job env (stage_effect job env st s) l
      end
  end.

Definition write_batch (st : Store) (job : WriteJob) (env : WriteEnv) : Store * outcome BatchWriteError string :=
  run_stages job env st write_stages.

(** The four entry points; an empty slice is refused. [timestamp] and
    [duration_ns] read a row. *)
Definition min_of (l : list Z) : Z := match l with [] => 0 | z :: l => foldl Z.min z l end.
Definition max_of (l : list Z) : Z := match l with [] => 0 | z :: l => foldl Z.max z l end.

Definition write_rows (signal_type : string) (start_of end_of : R → Z) (st : Store)
    (workspace_id stream_name : string) (rows : list R) (env : WriteEnv) : Store * outcome BatchWriteError string :=
  match rows with
  | [] => (st, Err EmptySlice)
  | _ =>
      let min_ts_ns := min_of (map start_of rows) in
      let max_ts_ns := max_of (map end_of rows) in
      write_batch st (mkWriteJob workspace_id stream_name signal_type rows min_ts_ns
        (Z.quot min_ts_ns 1000) (Z.quot max_ts_ns 1000) (zlen rows)) env
  end.

Definition write_spans (timestamp duration_ns : R → Z) :=
  write_rows "traces" timestamp (λ s, i64_saturating_add (timestamp s) (duration_ns s)).
Definition write_metrics (timestamp : R → Z) := write_rows "metrics" timestamp timestamp.
Definition write_logs (timestamp : R → Z) := write_rows "logs" timestamp timestamp.
Definition write_scores (timestamp : R → Z) := write_rows "scores" timestamp timestamp.

(** [write_record_batch]: timestamps in nanoseconds. *)
Definition write_record_batch (st : Store) (workspace_id stream_name signal_type : string) (rows : list R)
    (min_ts_ns max_ts_ns record_count : Z) (env : WriteEnv) : Store * outcome BatchWriteError string :=
  write_batch st (mkWriteJob workspace_id stream_name signal_type rows min_ts_ns
    (Z.quot min_ts_ns 1000) (Z.quot max_ts_ns 1000) record_count) env.

(** ** Recovery *)

(** [path.extension() == "par"]. *)
Definition has_par_extension (path : string) : bool :=
  bool_decide (String.list_ascii_of_string ".par" `suffix_of` String.list_ascii_of_string path).

(** [recover_incomplete_writes]: every temp file below the data directory is
    removed; [keeps] names those whose removal failed. *)
Definition recover_incomplete_writes (keeps : string → bool) (st : Store) : Store :=
  with_disk st (filter (λ kv, negb (has_par_extension kv.1) || keeps kv.1 = true) (disk st)).

(** ** Specification: what a query can see *)

Definition entry_data (st : Store) (e : FileListEntry) : option FileData :=
  if decide (fe_location e = "s3") then objects st !! extract_s3_key (fe_file_path e)
  else disk st !! fe_file_path e.

Definition entry_rows (st : Store) (e : FileListEntry) : list R :=
  if fe_deleted e then [] else match entry_data st e with Some (Whole rows) => rows | _ => [] end.

Definition visible (st : Store) : list R := concat (map (entry_rows st) (rows_list (st_db st))).

(** Every live row names a complete file, and no row names a temp file. *)
Definition store_ok (st : Store) : Prop :=
  db_wf (st_db st) ∧
  ∀ id e, file_rows (st_db st) !! id = Some e →
    has_par_extension (fe_file_path e) = false ∧
    (fe_deleted e = false → ∃ rows, entry_data st e = Some (Whole rows)).

(** The call's uuid is fresh: nothing on disk or in the tables has its paths. *)
Definition fresh_paths (st : Store) (job : WriteJob) (env : WriteEnv) : Prop :=
  disk st !! temp_path job env = None ∧ disk st !! full_path job env = None ∧
  ∀ id e, file_rows (st_db st) !! id = Some e → fe_file_path e ≠ full_path job env.

(** ** Lemmas *)

Lemma list_ascii_app s t :
  String.list_ascii_of_string (s +:+ t) = String.list_ascii_of_string s ++ String.list_ascii_of_string t.
Proof. induction s as [|c s IH]; [done|]. cbn. by rewrite <-IH. Qed.

Lemma temp_path_par job env : has_par_extension (temp_path job env) = true.
Proof.
  unfold has_par_extension, temp_path. apply bool_decide_eq_true. rewrite list_ascii_app.
  by exists (String.list_ascii_of_string (file_stem job env)).
Qed.

Lemma full_path_par job env : has_par_extension (full_path job env) = false.
Proof.
  unfold has_par_extension, full_path. apply bool_decide_eq_false. rewrite list_ascii_app. cbn.
  intros [k Hk]. apply (f_equal (reverse (A := Ascii.ascii))) in Hk.
  rewrite !reverse_app in Hk. by cbn in Hk.
Qed.

Lemma full_not_temp job env : full_path job env ≠ temp_path job env.
Proof. intros He. pose proof (full_path_par job env) as Hf. by rewrite He, temp_path_par in Hf. Qed.

(** The stores a call passes through. *)
Definition store_torn st job env := failed_effect job env st WriteTemp.
Definition store_temp st job env := stage_effect job env st WriteTemp.
Definition store_renamed st job env := stage_effect job env (store_temp st job env) RenameTemp.
Definition store_registered st job env := stage_effect job env (store_renamed st job env) Register.
Definition store_written st job env := stage_effect job env (store_registered st job env) UpsertStats.

Lemma write_batch_cases st job env :
  let '(st', r) := write_batch st job env in
  (r = Ok (full_path job env) ∧ st' = store_written st job env ∧ we_fail env = None) ∨
  (∃ s effect, we_fail env = Some (s, effect) ∧ r = Err (StageFailed s) ∧
    ((st' ∈ [st; store_torn st job env; store_temp st job env; store_renamed st job env] ∧ s ≠ UpsertStats) ∨
     (st' ∈ [store_registered st job env; store_written st job env] ∧ (s = Register ∨ s = UpsertStats)))).
Proof.
  unfold write_batch, write_stages. destruct (we_fail env) as [[s effect]|] eqn:Hf.
  - assert (∀ s' l st, run_stages job env st (s' :: l) =
      if decide (s = s') then (if effect then failed_effect job env st s' else st, Err (StageFailed s'))
      else run_stages job env (stage_effect job env st s') l) as Hrun.
    { intros s' l st'. cbn. by rewrite Hf. }
    destruct s, effect; repeat (rewrite Hrun; first [rewrite decide_True by done|rewrite decide_False by done]);
      right; do 2 eexists; (split; [done|]); (split; [done|]);
      first [left; split; [solve [repeat first [left|right]]|done]
            |right; split; [solve [repeat first [left|right]]|auto]].
  - cbn. rewrite Hf. left. done.
Qed.

Lemma entry_data_disk st d e :
  d !! fe_file_path e = disk st !! fe_file_path e → entry_data (with_disk st d) e = entry_data st e.
Proof. intros Hd. unfold entry_data. cbn. by case_decide. Qed.

(** A change of the disk away from the listed paths is invisible. *)
Lemma disk_change_invisible st d :
  store_ok st →
  (∀ id e, file_rows (st_db st) !! id = Some e → d !! fe_file_path e = disk st !! fe_file_path e) →
  store_ok (with_disk st d) ∧ visible (with_disk st d) = visible st.
Proof.
  intros [Hwf Hok] Hd. split; [split; [done|]|].
  - intros id e He. destruct (Hok id e He) as [Hpar Hl]. split; [done|]. intros Hdel.
    destruct (Hl Hdel) as [rows Hr]. exists rows. rewrite entry_data_disk; [done|]. by eapply Hd.
  - unfold visible. cbn [st_db with_disk]. f_equal. apply map_ext_in. intros e Hin%list_elem_of_In.
    apply elem_of_rows_list in Hin as [id He]. unfold entry_rows. by rewrite entry_data_disk by by eapply Hd.
Qed.

Lemma not_temp_path st job env id e :
  store_ok st → file_rows (st_db st) !! id = Some e → fe_file_path e ≠ temp_path job env.
Proof.
  intros [_ Hok] He Heq. destruct (Hok id e He) as [Hpar _]. by rewrite Heq, temp_path_par in Hpar.
Qed.

Lemma store_temp_ok st job env f : store_ok st →
  store_ok (with_disk st (<[temp_path job env := f]> (disk st))) ∧
  visible (with_disk st (<[temp_path job env := f]> (disk st))) = visible st.
Proof.
  intros Hok. apply disk_change_invisible; [done|]. intros id e He.
  rewrite lookup_insert_ne; [done|]. intros Heq. by eapply not_temp_path.
Qed.

Lemma store_renamed_ok st job env : store_ok st → fresh_paths st job env →
  store_ok (store_renamed st job env) ∧ visible (store_renamed st job env) = visible st ∧
  disk (store_renamed st job env) !! full_path job env = Some (Whole (wj_rows job)) ∧
  st_db (store_renamed st job env) = st_db st.
Proof.
  intros Hok (_ & _ & Hfull). unfold store_renamed, store_temp. cbn [stage_effect disk with_disk].
  rewrite lookup_insert_eq.
  destruct (disk_change_invisible st (<[full_path job env := Whole (wj_rows job)]>
    (delete (temp_path job env) (<[temp_path job env := Whole (wj_rows job)]> (disk st)))) Hok) as [Hok' Hv].
  { intros id e He. rewrite lookup_insert_ne by (intros Heq; by eapply Hfull).
    assert (temp_path job env ≠ fe_file_path e) by (intros Heq; by eapply not_temp_path).
    by rewrite lookup_delete_ne, lookup_insert_ne. }
  split; [exact Hok'|]. split; [exact Hv|]. split; [|done]. cbn. by rewrite lookup_insert_eq.
Qed.

Lemma rows_list_register db e : db_wf db →
  ∃ e', rows_list (register_file db e).1 ≡ₚ e' :: rows_list db ∧ fe_file_path e' = fe_file_path e ∧
    fe_location e' = fe_location e ∧ fe_deleted e' = false.
Proof.
  intros Hwf. assert (file_rows db !! next_file_id db = None) as Hnew.
  { destruct (file_rows db !! next_file_id db) eqn:Hn; [|done]. apply Hwf in Hn. lia. }
  eexists. split.
  - unfold rows_list, register_file. cbn [fst file_rows]. rewrite map_to_list_insert by done. cbn. reflexivity.
  - done.
Qed.

Lemma register_visible st job env : store_ok st → disk st !! full_path job env = Some (Whole (wj_rows job)) →
  store_ok (stage_effect job env st Register) ∧
  visible (stage_effect job env st Register) ≡ₚ visible st ++ wj_rows job.
Proof.
  intros [Hwf Hok] Hd. split; [split|].
  - by apply db_wf_register.
  - intros id e. cbn [stage_effect st_db with_db]. rewrite register_file_lookup. case_decide.
    + intros [= <-]. split; [apply full_path_par|]. intros _. exists (wj_rows job). exact Hd.
    + intros He. exact (Hok id e He).
  - destruct (rows_list_register (st_db st) (new_entry job env) Hwf) as (e' & Hp & Hpath & Hloc & Hdel).
    unfold visible. cbn [stage_effect st_db with_db].
    assert (∀ l1 l2 : list FileListEntry, l1 ≡ₚ l2 →
      concat (map (entry_rows st) l1) ≡ₚ concat (map (entry_rows st) l2)) as Hc.
    { induction 1; cbn; [done|by f_equiv|rewrite !app_assoc; f_equiv; apply Permutation_app_comm|by etrans]. }
    change (entry_rows (with_db st _)) with (entry_rows st). rewrite (Hc _ _ Hp). cbn [map concat].
    rewrite Permutation_app_comm. f_equiv. unfold entry_rows, entry_data. rewrite Hdel, Hloc, Hpath.
    cbn [new_entry fe_location fe_file_path]. rewrite decide_False by done. by rewrite Hd.
Qed.

Lemma upsert_visible st job env :
  store_ok st → store_ok (stage_effect job env st UpsertStats) ∧
  visible (stage_effect job env st UpsertStats) = visible st.
Proof. done. Qed.

Lemma store_registered_ok st job env : store_ok st → fresh_paths st job env →
  store_ok (store_registered st job env) ∧
  visible (store_registered st job env) ≡ₚ visible st ++ wj_rows job.
Proof.
  intros Hok Hfresh. destruct (store_renamed_ok st job env Hok Hfresh) as (Hok' & Hv & Hd & _).
  destruct (register_visible _ job env Hok' Hd) as [Hok2 Hv2]. rewrite Hv in Hv2. done.
Qed.

(** Before the registration nothing becomes visible, from it on all of it. *)
Lemma write_batch_visible st job env : store_ok st → fresh_paths st job env →
  (∀ st', st' ∈ [st; store_torn st job env; store_temp st job env; store_renamed st job env] →
     store_ok st' ∧ visible st' = visible st) ∧
  (∀ st', st' ∈ [store_registered st job env; store_written st job env] →
     store_ok st' ∧ visible st' ≡ₚ visible st ++ wj_rows job).
Proof.
  intros Hok Hfresh. split; intros st'.
  - rewrite !elem_of_cons, elem_of_nil. intros [->|[->|[->|[->|[]]]]]; [done| | |].
    + by apply store_temp_ok.
    + by apply store_temp_ok.
    + by destruct (store_renamed_ok st job env Hok Hfresh) as (? & ? & _).
  - rewrite elem_of_two. destruct (store_registered_ok st job env Hok Hfresh) as [? ?].
    intros [->| ->]; done.
Qed.

(** The rows and the files of before are still there after a write. *)
Lemma store_written_keeps st job env e : store_ok st → fresh_paths st job env → e ∈ rows_list (st_db st) →
  e ∈ rows_list (st_db (store_written st job env)) ∧ entry_rows (store_written st job env) e = entry_rows st e.
Proof.
  intros Hok Hfresh Hin. apply elem_of_rows_list in Hin as [id He].
  assert (disk (store_written st job env) !! fe_file_path e = disk st !! fe_file_path e) as Hd.
  { pose proof (not_temp_path st job env id e Hok He). destruct Hfresh as (_ & _ & Hfull).
    pose proof (Hfull id e He). cbn. rewrite lookup_insert_eq, lookup_insert_ne by done.
    by rewrite lookup_delete_ne, lookup_insert_ne. }
  split.
  - apply elem_of_rows_list. exists id. destruct Hok as [Hwf _]. destruct (Hwf id e He) as [_ Hlt].
    cbn. by rewrite lookup_insert_ne by lia.
  - unfold entry_rows, entry_data. by rewrite Hd.
Qed.

Lemma recover_keeps keeps st p :
  has_par_extension p = false → disk (recover_incomplete_writes keeps st) !! p = disk st !! p.
Proof.
  intros Hpar. apply option_eq. intros f. cbn. rewrite map_lookup_filter_Some. cbn. rewrite Hpar. tauto.
Qed.

Lemma recover_invisible keeps st : store_ok st →
  store_ok (recover_incomplete_writes keeps st) ∧
  visible (recover_incomplete_writes keeps st) = visible st.
Proof.
  intros Hok. apply disk_change_invisible; [done|]. intros id e He.
  destruct Hok as [_ Hok]. destruct (Hok id e He) as [Hpar _]. by apply recover_keeps.
Qed.

(** What a write leaves for readers. *)
Lemma write_batch_outcome st job env st' r :
  store_ok st → fresh_paths st job env → write_batch st job env = (st', r) →
  store_ok st' ∧
  (visible st' = visible st ∨ visible st' ≡ₚ visible st ++ wj_rows job) ∧
  (r = Ok (full_path job env) → visible st' ≡ₚ visible st ++ wj_rows job) ∧
  (∀ s, r = Err (StageFailed s) → s ∉ [Register; UpsertStats] → visible st' = visible st).
Proof.
  intros Hok Hfresh Hw. pose proof (write_batch_cases st job env) as Hc. rewrite Hw in Hc.
  destruct (write_batch_visible st job env Hok Hfresh) as [Hbefore Hafter].
  destruct Hc as [(-> & -> & _)|(s & eff & _ & -> & [[Hin Hs]|[Hin Hs]])].
  - destruct (Hafter (store_written st job env)) as [? ?]; [by right; left|]. by split_and!; [|right| |].
  - destruct (Hbefore st' Hin) as [? ?]. by split_and!; [|left| |].
  - destruct (Hafter st' Hin) as [? ?]. split_and!; [done|by right|done|].
    intros s' [= <-] Hn. exfalso. apply Hn, elem_of_two. tauto.
Qed.

(** ** Theorems *)

(** C12: A write is all or nothing for readers, wherever it fails or the process
    dies: the store stays well formed (every live row names a complete file)
    and the rows a query sees are those of before, or those and the whole
    batch. A success shows the batch; an error before the registration hides it. *)
Theorem write_batch_atomic st job env st' r :
  store_ok st → fresh_paths st job env → write_batch st job env = (st', r) →
  store_ok st' ∧
  (visible st' = visible st ∨ visible st' ≡ₚ visible st ++ wj_rows job) ∧
  (r = Ok (full_path job env) → visible st' ≡ₚ visible st ++ wj_rows job) ∧
  (∀ s, r = Err (StageFailed s) → s ∉ [Register; UpsertStats] → visible st' = visible st).
Proof. apply write_batch_outcome. Qed.

(** Recovery after a crash at any stage: no temp file is left, exactly the temp
    files are gone, and what queries see is unchanged. A file the crash left
    renamed but unregistered is neither removed nor ever visible. *)
Theorem recovery_removes_temp_files st keeps :
  store_ok st →
  let st' := recover_incomplete_writes keeps st in
  store_ok st' ∧ visible st' = visible st ∧
  (∀ p f, disk st' !! p = Some f → has_par_extension p = true → keeps p = true) ∧
  (∀ p, has_par_extension p = false → disk st' !! p = disk st !! p).
Proof.
  intros Hok st'. destruct (recover_invisible keeps st Hok) as [Hok' Hv].
  split; [done|]. split; [done|]. split.
  - intros p f Hp Hpar. unfold st', recover_incomplete_writes in Hp. cbn in Hp.
    apply map_lookup_filter_Some in Hp as [_ Hk]. cbn in Hk. by rewrite Hpar in Hk.
  - intros p Hpar. by apply recover_keeps.
Qed.

(** A failure of the last statement is reported as a failed write although the
    batch is registered and visible; a caller that writes it again, as the
    write-ahead log's flusher does, makes every row of it visible twice. *)
Theorem failed_stats_update_duplicates st job env effect env2 :
  store_ok st → fresh_paths st job env → we_fail env = Some (UpsertStats, effect) →
  let st1 := (write_batch st job env).1 in
  fresh_paths st1 job env2 → we_fail env2 = None →
  (write_batch st job env).2 = Err (StageFailed UpsertStats) ∧
  visible st1 ≡ₚ visible st ++ wj_rows job ∧
  (write_batch st1 job env2).2 = Ok (full_path job env2) ∧
  visible (write_batch st1 job env2).1 ≡ₚ visible st ++ wj_rows job ++ wj_rows job.
Proof.
  intros Hok Hfresh Hf st1 Hfresh2 Hf2.
  destruct (write_batch_visible st job env Hok Hfresh) as [_ Hafter].
  pose proof (write_batch_cases st job env) as Hc1. subst st1.
  destruct (write_batch st job env) as [st1 r1]. cbn [fst snd] in *. rewrite Hf in Hc1.
  destruct Hc1 as [(_ & _ & ?)|(s & eff & [= <- <-] & -> & [[_ ?]|[Hin _]])]; [done|done|].
  destruct (Hafter st1 Hin) as [Hok1 Hv1].
  destruct (write_batch_visible st1 job env2 Hok1 Hfresh2) as [_ Hafter2].
  pose proof (write_batch_cases st1 job env2) as Hc2. destruct (write_batch st1 job env2) as [st2 r2].
  cbn [fst snd]. rewrite Hf2 in Hc2. destruct Hc2 as [(-> & -> & _)|(s & eff' & ? & _)]; [|done].
  destruct (Hafter2 (store_written st1 job env2)) as [_ Hv2]; [by right; left|].
  split_and!; [done|done|done|]. by rewrite Hv2, Hv1, <-app_assoc.
Qed.
End Writer.
Arguments FileData : clear implicits.
Arguments Store : clear implicits.
Arguments WriteJob : clear implicits.

(** ** Witnesses *)

Definition sample_uuid (s : string) : option Z := if decide (s = "w1") then Some 7 else None.
Definition sample_job : WriteJob Z := mkWriteJob "w1" "default" "logs" [10; 11] 5000 5 6 2.
Definition sample_write_env (uuid : string) (fail : option (Stage * bool)) : WriteEnv :=
  mkWriteEnv "/data" uuid 100 64 32 fail.
Definition empty_store : Store Z := mkStore ∅ ∅ file_db_empty.

#[local] Existing Instance chrono_concrete.
#[local] Instance sample_parser : UuidParser := sample_uuid.

Lemma empty_store_ok : store_ok empty_store.
Proof. split; [apply db_wf_empty|]. intros id e He. cbn in He. by apply lookup_empty_Some in He. Qed.

(** [fresh_paths] as a boolean. *)
Definition fresh_pathsb {R : Type} (st : Store R) (job : WriteJob R) (env : WriteEnv) : bool :=
  match disk st !! temp_path job env, disk st !! full_path job env with
  | None, None => bool_decide (map_Forall (λ _ e, fe_file_path e ≠ full_path job env) (file_rows (st_db st)))
  | _, _ => false
  end.

Lemma fresh_pathsb_correct {R : Type} (st : Store R) job env : fresh_pathsb st job env = true → fresh_paths st job env.
Proof.
  unfold fresh_pathsb, fresh_paths. destruct (disk st !! temp_path job env); [done|].
  destruct (disk st !! full_path job env); [done|]. rewrite bool_decide_eq_true. intros Hm. by split_and!.
Qed.

Lemma write_batch_atomic_witness :
  let st' := (write_batch empty_store sample_job (sample_write_env "u1" (Some (WriteTemp, true)))).1 in
  store_ok st' ∧ visible st' = [] ∧ disk st' !! "/data/files/w1/logs/default/0/u1.par" = Some Torn.
Proof.
  destruct (write_batch_atomic empty_store sample_job (sample_write_env "u1" (Some (WriteTemp, true)))
    (write_batch empty_store sample_job (sample_write_env "u1" (Some (WriteTemp, true)))).1
    (Err (StageFailed WriteTemp)) empty_store_ok) as (Hok & _ & _ & Hv).
  - apply fresh_pathsb_correct. vm_compute. reflexivity.
  - vm_compute. reflexivity.
  - split; [exact Hok|]. split; [|vm_compute; reflexivity].
    apply (Hv WriteTemp eq_refl). vm_compute. intros H. inversion H as [|? ? ? H']; subst. inversion H' as [|? ? ? H'']; subst. inversion H''.
Defined.

Lemma recovery_removes_temp_files_witness :
  let st := (write_batch empty_store sample_job (sample_write_env "u1" (Some (WriteTemp, true)))).1 in
  let st' := recover_incomplete_writes (λ _, false) st in
  store_ok st' ∧ visible st' = visible st ∧ disk st' = ∅.
Proof.
  intros st st'.
  destruct (recovery_removes_temp_files st (λ _, false)) as (Hok & Hv & _).
  - destruct write_batch_atomic_witness as [Hok _]. exact Hok.
  - split; [exact Hok|]. split; [exact Hv|]. vm_compute. reflexivity.
Defined.

Lemma failed_stats_update_duplicates_witness :
  visible (write_batch (write_batch empty_store sample_job (sample_write_env "u1" (Some (UpsertStats, false)))).1
             sample_job (sample_write_env "u2" None)).1 ≡ₚ [10; 11; 10; 11].
Proof.
  refine (proj2 (proj2 (proj2 (failed_stats_update_duplicates empty_store sample_job
    (sample_write_env "u1" (Some (UpsertStats, false))) false (sample_write_env "u2" None) empty_store_ok
    _ eq_refl _ eq_refl)))).
  - apply fresh_pathsb_correct. vm_compute. reflexivity.
  - apply fresh_pathsb_correct. vm_compute. reflexivity.
Defined.
