(* ===== verification/TelemetrySink.v ===== *)
(** From the write-ahead log to the Parquet store: the insert methods of
    [zradar-parquet/src/telemetry_writer.rs] and [TelemetryFlushSink] of
    [zradar-runtime/src/builder.rs].

    The flusher hands records to the sink, which decodes their rows and inserts
    them per signal; the writer files each partition in the write buffer when
    there is one, or writes it as a Parquet file at once. Records are decoded
    with memory to spare: what a record that declares more rows than there is
    room for does is in [WalBatch]. *)

From stdpp Require Import base gmap sorting list strings pretty.
From coqutil Require Import Byte.
From S2P Require Import Prelude WalRecord WalBatch WalSegment WalGuard WalLog WalFlush WalSystem WriteBuffer TelemetryWriter FileList ParquetWriter.

(** What the writers read of a row. *)
Class Telemetry (T : Type) := {
  workspace_of : T → string;
  service_of : T → string;
  ts_of : T → Z;
}.

(** [serde_json::from_slice]. *)
Class FromJson (T : Type) := from_slice : list byte → option T.

Section Sink.
Context `{Chrono} `{UuidParser}.
Context {Span MetricRecord LogRecord EvaluationScore : Type}.
Context `{Telemetry Span, Telemetry MetricRecord, Telemetry LogRecord, Telemetry EvaluationScore}.
Context `{FromJson Span, FromJson MetricRecord, FromJson LogRecord, FromJson EvaluationScore}.
Context (duration_ns : Span → Z).
(** What the n-th call of the writer finds. *)
Context (env_of : nat → WriteEnv).

Abbreviation Batch := (SignalBatch Span MetricRecord LogRecord EvaluationScore).
Abbreviation Buf := (WriteBuffer Span MetricRecord LogRecord EvaluationScore).
Abbreviation AnyRow := (Row Span MetricRecord LogRecord EvaluationScore).

(** [ParquetTelemetryWriter] with the store behind its file writer and the
    number of calls made. *)
Record TelemetryWriter := mkTelemetryWriter {
  tw_buffer : option Buf;
  tw_store : Store AnyRow;
  tw_calls : nat;
}.

Definition row_ts (r : AnyRow) : Z :=
  match r with SpanRow r => ts_of r | MetricRow r => ts_of r | LogRow r => ts_of r | ScoreRow r => ts_of r end.
Definition row_duration (r : AnyRow) : Z := match r with SpanRow r => duration_ns r | _ => 0 end.

(** The body shared by the eight [write_*_partition] methods: push or write. *)
Definition write_partition (push : Buf → Z → Buf)
    (write : Store AnyRow → WriteEnv → Store AnyRow * outcome BatchWriteError string)
    (w : TelemetryWriter) : TelemetryWriter * outcome BatchWriteError unit :=
  let env := env_of (tw_calls w) in
  match tw_buffer w with
  | Some buf => (mkTelemetryWriter (Some (push buf (we_now_us env / 1000000))) (tw_store w) (S (tw_calls w)), Ok ())
  | None =>
      let '(st, res) := write (tw_store w) env in
      (mkTelemetryWriter None st (S (tw_calls w)), (λ _, ()) <$> res)
  end.

Definition write_span_rows (key : PartitionKey) (v : list Span) (st : Store AnyRow) (env : WriteEnv) :=
  write_spans row_ts row_duration st (pk_workspace_id key) (pk_stream_name key) (map SpanRow v) env.
Definition write_metric_rows (key : PartitionKey) (v : list MetricRecord) (st : Store AnyRow) (env : WriteEnv) :=
  write_metrics row_ts st (pk_workspace_id key) (pk_stream_name key) (map MetricRow v) env.
Definition write_log_rows (key : PartitionKey) (v : list LogRecord) (st : Store AnyRow) (env : WriteEnv) :=
  write_logs row_ts st (pk_workspace_id key) (pk_stream_name key) (map LogRow v) env.
Definition write_score_rows (key : PartitionKey) (v : list EvaluationScore) (st : Store AnyRow) (env : WriteEnv) :=
  write_scores row_ts st (pk_workspace_id key) (pk_stream_name key) (map ScoreRow v) env.

Definition write_span_partition (w : TelemetryWriter) (key : PartitionKey) (v : list Span) :=
  write_partition (λ buf now, push_spans buf (buffer_key key "traces") v now) (write_span_rows key v) w.
Definition write_metric_partition (w : TelemetryWriter) (key : PartitionKey) (v : list MetricRecord) :=
  write_partition (λ buf now, push_metrics buf (buffer_key key "metrics") v now) (write_metric_rows key v) w.
Definition write_log_partition (w : TelemetryWriter) (key : PartitionKey) (v : list LogRecord) :=
  write_partition (λ buf now, push_logs buf (buffer_key key "logs") v now) (write_log_rows key v) w.
Definition write_score_partition (w : TelemetryWriter) (key : PartitionKey) (v : list EvaluationScore) :=
  write_partition (λ buf now, push_scores buf (buffer_key key "scores") v now) (write_score_rows key v) w.

Definition write_span_partition_owned (w : TelemetryWriter) (key : PartitionKey) (v : list Span) :=
  write_partition (λ buf now, push_spans_owned buf (buffer_key key "traces") v now) (write_span_rows key v) w.
Definition write_metric_partition_owned (w : TelemetryWriter) (key : PartitionKey) (v : list MetricRecord) :=
  write_partition (λ buf now, push_metrics_owned buf (buffer_key key "metrics") v now) (write_metric_rows key v) w.
Definition write_log_partition_owned (w : TelemetryWriter) (key : PartitionKey) (v : list LogRecord) :=
  write_partition (λ buf now, push_logs_owned buf (buffer_key key "logs") v now) (write_log_rows key v) w.
Definition write_score_partition_owned (w : TelemetryWriter) (key : PartitionKey) (v : list EvaluationScore) :=
  write_partition (λ buf now, push_scores_owned buf (buffer_key key "scores") v now) (write_score_rows key v) w.

(** [for (key, rows) in groups { self.write_.._partition(..).await?; }]. *)
Fixpoint write_groups {T : Type}
    (write : TelemetryWriter → PartitionKey → list T → TelemetryWriter * outcome BatchWriteError unit)
    (w : TelemetryWriter) (groups : list (PartitionKey * list T)) : TelemetryWriter * outcome BatchWriteError unit :=
  match groups with
  | [] => (w, Ok ())
  | (key, rows) :: groups =>
      match write w key rows with
      | (w, Ok _) => write_groups write w groups
      | r => r
      end
  end.

(** The body shared by the insert methods. *)
Definition insert_rows {T : Type} `{Telemetry T}
    (write : TelemetryWriter → PartitionKey → list T → TelemetryWriter * outcome BatchWriteError unit)
    (w : TelemetryWriter) (rows : list T) : TelemetryWriter * outcome BatchWriteError unit :=
  match rows with
  | [] => (w, Ok ())
  | _ =>
      match partition_by_storage_key workspace_of service_of ts_of rows with
      | Ok p => write_groups write w (partitions p)
      | _ => (w, Panic)
      end
  end.

Definition insert_spans := insert_rows write_span_partition.
Definition insert_metrics := insert_rows write_metric_partition.
Definition insert_logs := insert_rows write_log_partition.
Definition insert_scores := insert_rows write_score_partition.

Definition insert_spans_owned := insert_rows write_span_partition_owned.
Definition insert_metrics_owned := insert_rows write_metric_partition_owned.
Definition insert_logs_owned := insert_rows write_log_partition_owned.
Definition insert_scores_owned := insert_rows write_score_partition_owned.

(** [insert_batch], on [IngestPayload]. *)
Definition insert_batch (w : TelemetryWriter) (payload : Batch) : TelemetryWriter * outcome BatchWriteError unit :=
  match payload with
  | Spans rows => insert_spans_owned w rows
  | Metrics rows => insert_metrics_owned w rows
  | Logs rows => insert_logs_owned w rows
  | Scores rows => insert_scores_owned w rows
  end.

(** ** [TelemetryFlushSink] *)

Record Decoded := mkDecoded {
  d_spans : list Span;
  d_metrics : list MetricRecord;
  d_logs : list LogRecord;
  d_scores : list EvaluationScore;
}.

(** A row that does not parse is skipped. *)
Definition push_one (signal : SignalType) (d : Decoded) (row : list byte) : Decoded :=
  match signal with
  | Trace => match from_slice row with
             | Some r => mkDecoded (d_spans d ++ [r]) (d_metrics d) (d_logs d) (d_scores d) | None => d end
  | Metric => match from_slice row with
             | Some r => mkDecoded (d_spans d) (d_metrics d ++ [r]) (d_logs d) (d_scores d) | None => d end
  | Log => match from_slice row with
             | Some r => mkDecoded (d_spans d) (d_metrics d) (d_logs d ++ [r]) (d_scores d) | None => d end
  | Score => match from_slice row with
             | Some r => mkDecoded (d_spans d) (d_metrics d) (d_logs d) (d_scores d ++ [r]) | None => d end
  end.

(** The decoding loop of [flush_records]: an envelope gives its rows, a payload
    without one is a row of its own, a malformed envelope is skipped. *)
Definition decode_record (d : Decoded) (record : WalRecord) : outcome unit Decoded :=
  match decode ample (payload record) with
  | Ok (Some batch) => Ok (foldl (push_one (signal_type record)) d (rows batch))
  | Ok None => Ok (push_one (signal_type record) d (payload record))
  | Err _ => Ok d
  | Panic => Panic
  end.

Definition decode_records (records : list WalRecord) : outcome unit Decoded :=
  ofold decode_record (mkDecoded [] [] [] []) records.

(** [self.writer.insert_batch(..).await?] when there are rows: the writer and
    the result of what came before. *)
Definition and_then_insert (st : TelemetryWriter * outcome BatchWriteError unit) (b : Batch) :
    TelemetryWriter * outcome BatchWriteError unit :=
  match st with
  | (w, Ok _) => if batch_is_empty b then (w, Ok ()) else insert_batch w b
  | _ => st
  end.

Definition sink_flush_records (w : TelemetryWriter) (records : list WalRecord) :
    TelemetryWriter * outcome BatchWriteError unit :=
  match decode_records records with
  | Ok d =>
      foldl and_then_insert (w, Ok ())
        [Spans (d_spans d); Metrics (d_metrics d); Logs (d_logs d); Scores (d_scores d)]
  | _ => (w, Panic)
  end.

(** ** Lemmas *)

Lemma decode_record_ok d record : ∃ d', decode_record d record = Ok d'.
Proof.
  unfold decode_record. pose proof (decode_not_Panic (payload record)) as Hp.
  destruct (decode ample (payload record)) as [[b|]|e|]; eauto; done.
Qed.

Lemma decode_records_ok records : ∃ d, decode_records records = Ok d.
Proof.
  unfold decode_records. generalize (mkDecoded [] [] [] []) as d.
  induction records as [|r records IH]; intros d; [by exists d|].
  cbn [ofold]. destruct (decode_record_ok d r) as [d' ->]. ostep. apply IH.
Qed.

(** Walking groups with a buffer: each is pushed under its key. *)
Section Buffered.
Context {T : Type} `{Telemetry T} (owned : bool) (wrap : list T → Batch) (inj_row : T → AnyRow) (sig : string).
Context (write : PartitionKey → list T → Store AnyRow → WriteEnv → Store AnyRow * outcome BatchWriteError string).
Context (wrap_signal : ∀ v, batch_signal (wrap v) = sig) (wrap_rows : ∀ v, batch_rows (wrap v) = map inj_row v).

Definition buffered_write (w : TelemetryWriter) (key : PartitionKey) (v : list T) :=
  write_partition (λ buf now, push_batch owned buf (buffer_key key sig) (wrap v) now) (write key v) w.

Lemma write_groups_buffered groups : ∀ w buf, tw_buffer w = Some buf → slots_typed buf →
  ∃ w' buf', write_groups buffered_write w groups = (w', Ok ()) ∧
    tw_store w' = tw_store w ∧ tw_buffer w' = Some buf' ∧ slots_typed buf' ∧
    ∀ k, buffered_rows k buf' = buffered_rows k buf ++
      concat (map (λ g, if decide (buffer_key g.1 sig = k) then map inj_row g.2 else []) groups).
Proof.
  induction groups as [|[key v] groups IH]; intros w buf Hb Ht.
  - exists w, buf. split_and!; try done. intros k. by rewrite app_nil_r.
  - cbn [write_groups]. unfold buffered_write at 1, write_partition. rewrite Hb.
    set (now := we_now_us _ / _).
    assert (∀ k, slots_typed (push_batch owned buf (buffer_key key sig) (wrap v) now) ∧
      buffered_rows k (push_batch owned buf (buffer_key key sig) (wrap v) now) = buffered_rows k buf ++
        (if decide (buffer_key key sig = k) then map inj_row v else [])) as Hpush.
    { intros k. rewrite <-wrap_rows. apply push_batch_rows; [done|]. by rewrite wrap_signal. }
    destruct (IH (mkTelemetryWriter (Some (push_batch owned buf (buffer_key key sig) (wrap v) now))
      (tw_store w) (S (tw_calls w))) _ eq_refl (proj1 (Hpush (buffer_key key sig))))
      as (w' & buf' & Hw & Hst & Hb' & Ht' & Hr).
    exists w', buf'. split_and!; try done. intros k. rewrite Hr. destruct (Hpush k) as [_ ->].
    by rewrite <-app_assoc.
Qed.

Lemma concat_no_group k (gs : list (PartitionKey * list T)) :
  (∀ pk, pk ∈ gs.*1 → buffer_key pk sig ≠ k) →
  concat (map (λ g, if decide (buffer_key g.1 sig = k) then map inj_row g.2 else []) gs) = [].
Proof.
  induction gs as [|[p v] gs IH]; intros Hno; [done|]. cbn [map concat fst snd].
  rewrite decide_False by (apply Hno; by left). apply IH. intros pk Hin. apply Hno. by right.
Qed.

Lemma concat_groups k gs (rs : list T) : grouping workspace_of service_of ts_of rs gs →
  concat (map (λ g, if decide (buffer_key g.1 sig = k) then map inj_row g.2 else []) gs) =
    map inj_row (filter (λ r, buffer_key (row_key workspace_of service_of ts_of r) sig = k) rs).
Proof.
  intros (Hnd & Hg & Hall).
  destruct (decide (Exists (λ pk, buffer_key pk sig = k) gs.*1)) as [Hex|Hno]; rewrite Exists_exists in *.
  - destruct Hex as (pk & [[pk' g] [-> Hin]]%list_elem_of_fmap & Hk). cbn [fst] in Hk.
    destruct (Hg pk' g Hin) as [Hgeq _].
    assert (∀ pk, buffer_key pk sig = k ↔ pk = pk') as Hinj.
    { intros [a b c]. subst k. destruct pk'. unfold buffer_key. cbn. split; congruence. }
    transitivity (map inj_row g).
    + clear -Hnd Hin Hinj. induction gs as [|[p v] gs IH]; [by apply not_elem_of_nil in Hin|].
      cbn [fmap list_fmap fst] in Hnd. apply NoDup_cons in Hnd as [Hp Hnd]. cbn [map concat fst snd].
      apply elem_of_cons in Hin as [Heq|Hin].
      * injection Heq as <- <-. rewrite decide_True by by apply Hinj.
        rewrite concat_no_group; [by rewrite app_nil_r|]. intros pk Hpk. rewrite Hinj. by intros ->.
      * rewrite decide_False, IH; [done|done|done|].
        rewrite Hinj. intros ->. apply Hp. apply list_elem_of_fmap. by exists (pk', g).
    + f_equal. rewrite Hgeq. apply list_filter_iff. intros r. by rewrite Hinj.
  - transitivity (@nil AnyRow); [|symmetry; rewrite filter_none; [done|]].
    + apply concat_no_group. intros pk Hpk Hk. apply Hno. by exists pk.
    + intros r Hr Hk. apply Hno. eexists. split; [by apply Hall|done].
Qed.

(** An insert with a buffer succeeds, leaves the store alone and files each row
    under the key computed from it. *)
Lemma insert_rows_buffered (rs : list T) w buf : tw_buffer w = Some buf → slots_typed buf →
  ∃ w' buf', insert_rows buffered_write w rs = (w', Ok ()) ∧
    tw_store w' = tw_store w ∧ tw_buffer w' = Some buf' ∧ slots_typed buf' ∧
    (Forall (λ r, 0 ≤ ts_of r ≤ i64_max) rs → ∀ k, buffered_rows k buf' = buffered_rows k buf ++
      map inj_row (filter (λ r, buffer_key (row_key workspace_of service_of ts_of r) sig = k) rs)).
Proof.
  intros Hb Ht. destruct rs as [|r rs].
  { exists w, buf. split_and!; try done. intros _ k. by rewrite app_nil_r. }
  unfold insert_rows. destruct (partition_total workspace_of service_of ts_of (r :: rs)) as (p & Hp & Hg); [done|].
  rewrite Hp. destruct (write_groups_buffered (partitions p) w buf Hb Ht) as (w' & buf' & Hw & ? & ? & ? & Hr).
  exists w', buf'. split_and!; try done. intros Hts k. rewrite Hr. f_equal. apply concat_groups. by apply Hg.
Qed.
End Buffered.

(** The rows of a batch that belong under a buffer key, by their own fields. *)
Definition rows_under {T : Type} `{Telemetry T} (k : BufferKey) (sig : string) (v : list T) : list T :=
  filter (λ r, buffer_key (row_key workspace_of service_of ts_of r) sig = k) v.

Definition filed_rows (b : Batch) (k : BufferKey) : list AnyRow :=
  match b with
  | Spans v => map SpanRow (rows_under k "traces" v)
  | Metrics v => map MetricRow (rows_under k "metrics" v)
  | Logs v => map LogRow (rows_under k "logs" v)
  | Scores v => map ScoreRow (rows_under k "scores" v)
  end.

Definition rows_since_1970 {T : Type} `{Telemetry T} (v : list T) : Prop :=
  Forall (λ r, 0 ≤ ts_of r ≤ i64_max) v.

Definition since_1970 (b : Batch) : Prop :=
  match b with
  | Spans v => rows_since_1970 v | Metrics v => rows_since_1970 v
  | Logs v => rows_since_1970 v | Scores v => rows_since_1970 v
  end.

Definition decoded_batches (d : Decoded) : list Batch :=
  [Spans (d_spans d); Metrics (d_metrics d); Logs (d_logs d); Scores (d_scores d)].

(** The state after an insert with a buffer: it succeeded, the store is the
    same, and [added] was filed. *)
Definition filed (w : TelemetryWriter) (buf : Buf) (cond : Prop) (added : BufferKey → list AnyRow)
    (res : TelemetryWriter * outcome BatchWriteError unit) : Prop :=
  ∃ w' buf', res = (w', Ok ()) ∧ tw_store w' = tw_store w ∧ tw_buffer w' = Some buf' ∧ slots_typed buf' ∧
    (cond → ∀ k, buffered_rows k buf' = buffered_rows k buf ++ added k).

Lemma insert_batch_buffered b w buf : tw_buffer w = Some buf → slots_typed buf →
  filed w buf (since_1970 b) (filed_rows b) (insert_batch w b).
Proof.
  intros Hb Ht. destruct b as [v|v|v|v]; cbn [insert_batch since_1970 filed_rows].
  - apply (insert_rows_buffered true Spans SpanRow "traces" write_span_rows); done.
  - apply (insert_rows_buffered true Metrics MetricRow "metrics" write_metric_rows); done.
  - apply (insert_rows_buffered true Logs LogRow "logs" write_log_rows); done.
  - apply (insert_rows_buffered true Scores ScoreRow "scores" write_score_rows); done.
Qed.

Lemma filed_rows_empty b k : batch_is_empty b = true → filed_rows b k = [].
Proof.
  unfold batch_is_empty. intros Hl%Z.eqb_eq. destruct b as [v|v|v|v]; cbn in *; destruct v; done.
Qed.

Lemma and_then_buffered bs : ∀ w buf, tw_buffer w = Some buf → slots_typed buf →
  filed w buf (Forall since_1970 bs) (λ k, concat (map (λ b, filed_rows b k) bs))
    (foldl and_then_insert (w, Ok ()) bs).
Proof.
  induction bs as [|b bs IH]; intros w buf Hb Ht.
  - exists w, buf. split_and!; try done. intros _ k. by rewrite app_nil_r.
  - cbn [foldl]. unfold and_then_insert at 2. destruct (batch_is_empty b) eqn:He.
    + destruct (IH w buf Hb Ht) as (w' & buf' & Hw & Hs & Hb' & Ht' & Hr). exists w', buf'.
      split_and!; try done. intros [_ Hts]%Forall_cons k. rewrite (Hr Hts k). cbn [map concat].
      by rewrite filed_rows_empty.
    + destruct (insert_batch_buffered b w buf Hb Ht) as (w1 & buf1 & -> & Hs1 & Hb1 & Ht1 & Hr1).
      destruct (IH w1 buf1 Hb1 Ht1) as (w' & buf' & Hw & Hs & Hb' & Ht' & Hr). exists w', buf'.
      split_and!; try done; [congruence|]. intros [Hb0 Hts]%Forall_cons k.
      rewrite (Hr Hts k), (Hr1 Hb0 k). cbn [map concat]. by rewrite app_assoc.
Qed.

Lemma sink_flush_buffered records w buf : tw_buffer w = Some buf → slots_typed buf →
  ∃ d, decode_records records = Ok d ∧
  filed w buf (Forall since_1970 (decoded_batches d)) (λ k, concat (map (λ b, filed_rows b k) (decoded_batches d)))
    (sink_flush_records w records).
Proof.
  intros Hb Ht. destruct (decode_records_ok records) as [d Hd]. exists d. split; [done|].
  unfold sink_flush_records. rewrite Hd. by apply and_then_buffered.
Qed.

(** The moving and the cloning partition writers are the same function. *)
Lemma push_owned_eq (buf : Buf) key (b : Batch) now : push_batch true buf key b now = push_batch false buf key b now.
Proof.
  unfold push_batch. destruct b; unfold push_spans_owned, push_metrics_owned, push_logs_owned, push_scores_owned,
    push_spans, push_metrics, push_logs, push_scores, push; cbn; by rewrite move_into_slot_eq || (do 3 f_equal; by rewrite append_owned_app).
Qed.

Lemma write_groups_ext {T : Type}
    (f g : TelemetryWriter → PartitionKey → list T → TelemetryWriter * outcome BatchWriteError unit) groups :
  (∀ w key v, f w key v = g w key v) → ∀ w, write_groups f w groups = write_groups g w groups.
Proof.
  intros Hfg. induction groups as [|[key v] groups IH]; intros w; [done|]. cbn [write_groups].
  rewrite Hfg. destruct (g w key v) as [w' [[]| |]]; [apply IH|done|done].
Qed.

Lemma write_partition_ext push1 push2 write w :
  (∀ buf now, push1 buf now = push2 buf now) → write_partition push1 write w = write_partition push2 write w.
Proof. intros Hp. unfold write_partition. destruct (tw_buffer w); [by rewrite Hp|done]. Qed.

(** ** Theorems *)

(** The move-based batch entry point does exactly what the borrowing insert
    method of its signal does: same buffer, same store, same result. *)
Theorem insert_batch_moves_like_inserts w b :
  insert_batch w b =
    match b with
    | Spans rows => insert_spans w rows
    | Metrics rows => insert_metrics w rows
    | Logs rows => insert_logs w rows
    | Scores rows => insert_scores w rows
    end.
Proof.
  assert (∀ {T : Type} `{Telemetry T} (wrap : list T → Batch) (sig : string) write (rs : list T),
    insert_rows (λ w key v, write_partition
      (λ buf now, push_batch true buf (buffer_key key sig) (wrap v) now) (write key v) w) w rs =
    insert_rows (λ w key v, write_partition
      (λ buf now, push_batch false buf (buffer_key key sig) (wrap v) now) (write key v) w) w rs) as Heq.
  { intros T HT wrap sig write [|r rs]; [done|]. unfold insert_rows. destruct (partition_by_storage_key _ _ _ _); try done.
    apply write_groups_ext. intros w' key v. apply write_partition_ext. intros. apply push_owned_eq. }
  destruct b as [v|v|v|v]; cbn [insert_batch].
  - apply (Heq Span _ Spans "traces" write_span_rows).
  - apply (Heq MetricRecord _ Metrics "metrics" write_metric_rows).
  - apply (Heq LogRecord _ Logs "logs" write_log_rows).
  - apply (Heq EvaluationScore _ Scores "scores" write_score_rows).
Qed.

(** With a write buffer the flush of a batch of records never fails, never
    touches the store, and files every row that decodes (timestamps from 1970
    on) under its own workspace, stream and hour, after what was there. *)
Theorem buffered_flush_files_rows records w buf :
  tw_buffer w = Some buf → slots_typed buf →
  ∃ d w' buf', decode_records records = Ok d ∧ sink_flush_records w records = (w', Ok ()) ∧
    tw_store w' = tw_store w ∧ tw_buffer w' = Some buf' ∧ slots_typed buf' ∧
    (Forall since_1970 (decoded_batches d) → ∀ k,
       buffered_rows k buf' = buffered_rows k buf ++ concat (map (λ b, filed_rows b k) (decoded_batches d))).
Proof.
  intros Hb Ht. destruct (sink_flush_buffered records w buf Hb Ht) as (d & Hd & w' & buf' & H').
  by exists d, w', buf'.
Qed.

(** *** Without a buffer: a partition whose write keeps failing *)

Definition log_job (g : PartitionKey * list LogRecord) : WriteJob AnyRow :=
  let rows := map LogRow g.2 in
  let min_ts_ns := min_of (map row_ts rows) in
  let max_ts_ns := max_of (map row_ts rows) in
  mkWriteJob (pk_workspace_id g.1) (pk_stream_name g.1) "logs" rows min_ts_ns
    (Z.quot min_ts_ns 1000) (Z.quot max_ts_ns 1000) (zlen rows).

Definition group_log_rows (gs : list (PartitionKey * list LogRecord)) : list AnyRow := concat (map (λ g, map LogRow g.2) gs).

(** The writer after groups it wrote, and what their writes need: a success and
    a fresh uuid each. *)
Definition after_groups (w : TelemetryWriter) (gs : list (PartitionKey * list LogRecord)) : TelemetryWriter :=
  foldl (λ w g, mkTelemetryWriter None (write_batch (tw_store w) (log_job g) (env_of (tw_calls w))).1 (S (tw_calls w))) w gs.

Fixpoint groups_writable (w : TelemetryWriter) (gs : list (PartitionKey * list LogRecord)) : Prop :=
  match gs with
  | [] => True
  | g :: gs =>
      g.2 ≠ [] ∧ fresh_paths (tw_store w) (log_job g) (env_of (tw_calls w)) ∧ we_fail (env_of (tw_calls w)) = None ∧
      groups_writable (after_groups w [g]) gs
  end.

Lemma write_log_partition_direct w key v : tw_buffer w = None → v ≠ [] →
  write_log_partition_owned w key v =
    let '(st, res) := write_batch (tw_store w) (log_job (key, v)) (env_of (tw_calls w)) in
    (mkTelemetryWriter None st (S (tw_calls w)), (λ _, ()) <$> res).
Proof. intros Hb Hv. unfold write_log_partition_owned, write_partition. rewrite Hb. by destruct v. Qed.

Lemma write_good_groups gs rest : ∀ w, tw_buffer w = None → store_ok (tw_store w) → groups_writable w gs →
  write_groups write_log_partition_owned w (gs ++ rest) = write_groups write_log_partition_owned (after_groups w gs) rest ∧
  store_ok (tw_store (after_groups w gs)) ∧ tw_buffer (after_groups w gs) = None ∧
  tw_calls (after_groups w gs) = (tw_calls w + length gs)%nat ∧
  visible (tw_store (after_groups w gs)) ≡ₚ visible (tw_store w) ++ group_log_rows gs.
Proof.
  induction gs as [|[key v] gs IH]; intros w Hb Hok Hw.
  { split_and!; try done. unfold group_log_rows. by rewrite app_nil_r. }
  destruct Hw as (Hv & Hfresh & Hf & Hw). cbn [app write_groups snd] in *. rewrite write_log_partition_direct by done.
  set (res := write_batch (tw_store w) (log_job (key, v)) (env_of (tw_calls w))).
  set (w1 := mkTelemetryWriter None res.1 (S (tw_calls w))). change (after_groups w [(key, v)]) with w1 in Hw.
  change (after_groups w ((key, v) :: gs)) with (after_groups w1 gs).
  assert (res.2 = Ok (full_path (log_job (key, v)) (env_of (tw_calls w)))) as Hres.
  { pose proof (write_batch_cases (tw_store w) (log_job (key, v)) (env_of (tw_calls w))) as Hc. fold res in Hc.
    destruct res as [st r]. rewrite Hf in Hc. by destruct Hc as [(-> & _)|(? & ? & ? & _)]. }
  destruct (write_batch_outcome (tw_store w) (log_job (key, v)) (env_of (tw_calls w)) res.1 res.2 Hok Hfresh
    (surjective_pairing _)) as (Hok1 & _ & Hv1 & _).
  destruct (IH w1 eq_refl Hok1 Hw) as (He & Hok2 & Hb2 & Hn & Hv2).
  rewrite (surjective_pairing res), Hres. split_and!; [exact He|done|done| |].
  - rewrite Hn. cbn [w1 tw_calls length]. lia.
  - rewrite Hv2. cbn [w1 tw_store]. rewrite (Hv1 Hres). cbn [log_job wj_rows snd]. unfold group_log_rows. cbn [map concat snd].
    by rewrite app_assoc.
Qed.

(** Passes of the flusher over the same records: each writes [good] and fails
    on the next partition before anything of it is registered. *)
Inductive failing_passes (records : list WalRecord) (good : list (PartitionKey * list LogRecord)) :
    nat → TelemetryWriter → TelemetryWriter → Prop :=
| PassesNone w : failing_passes records good 0 w w
| PassesMore n w w1 w2 :
    groups_writable w good → we_fail (env_of (tw_calls w + length good)) = Some (CreateDir, false) →
    sink_flush_records w records = (w1, Err (StageFailed CreateDir)) →
    failing_passes records good n w1 w2 → failing_passes records good (S n) w w2.

(** One partition whose file cannot be created (a service name too long for a
    directory, say) fails the whole flush: the records are kept and retried, and
    every retry writes the partitions before it again. After [n] passes their
    rows are visible [n] times more, whoever's they are, and those behind it
    are still not written. *)
Theorem failing_partition_repeats_others records good bad rest n w w' logs :
  decode_records records = Ok (mkDecoded [] [] logs []) →
  partition_by_storage_key workspace_of service_of ts_of logs = Ok (Grouped (good ++ bad :: rest)) → bad.2 ≠ [] →
  tw_buffer w = None → store_ok (tw_store w) →
  failing_passes records good n w w' →
  store_ok (tw_store w') ∧
  visible (tw_store w') ≡ₚ visible (tw_store w) ++ concat (replicate n (group_log_rows good)).
Proof.
  intros Hdec Hpart Hbad Hb Hok Hrun. induction Hrun as [w|n w w1 w2 Hgood Hf Hflush _ IH].
  { split; [done|]. by rewrite app_nil_r. }
  destruct (write_good_groups good (bad :: rest) w Hb Hok Hgood) as (He & Hok1 & Hb1 & Hn & Hv).
  assert (logs ≠ []) as Hlogs by by destruct logs.
  assert (sink_flush_records w records = insert_logs_owned w logs) as Heq.
  { unfold sink_flush_records. rewrite Hdec. cbn [foldl d_spans d_metrics d_logs d_scores]. destruct logs as [|l logs]; [done|].
    change (and_then_insert (and_then_insert (w, Ok ()) (Spans [])) (Metrics [])) with (w, Ok () : outcome BatchWriteError ()).
    change (and_then_insert (w, Ok ()) (Logs (l :: logs))) with (insert_logs_owned w (l :: logs)).
    by destruct (insert_logs_owned w (l :: logs)) as [? [[]| |]]. }
  rewrite Heq in Hflush. unfold insert_logs_owned, insert_rows in Hflush. destruct logs as [|l logs]; [done|].
  rewrite Hpart in Hflush. cbn [partitions] in Hflush. rewrite He in Hflush. destruct bad as [pk v]. cbn [write_groups] in Hflush.
  rewrite write_log_partition_direct in Hflush by done. rewrite Hn in Hflush. unfold write_batch, write_stages in Hflush.
  cbn [run_stages] in Hflush. rewrite Hf in Hflush. cbn in Hflush. injection Hflush as <-.
  destruct (IH eq_refl Hok1) as [Hok2 Hv2]. split; [done|]. rewrite Hv2. cbn [tw_store replicate concat]. by rewrite Hv, app_assoc.
Qed.

(** ** The sink of the flusher *)

(** The writer and, for the specification, the records of the flushes it
    answered with success. *)
Record TelemetryFlushSink := mkSink {
  sk_writer : TelemetryWriter;
  sk_flushed : list WalRecord;
}.

#[export] Instance telemetry_flush_sink : FlushSink TelemetryFlushSink.
Proof.
  refine {| flush_records s records :=
              let '(w, res) := sink_flush_records (sk_writer s) records in
              (mkSink w (if is_ok res then sk_flushed s ++ records else sk_flushed s), is_ok res);
            delivered := sk_flushed |}.
  - intros s rs s' Hf. destruct (sink_flush_records (sk_writer s) rs) as [w res].
    injection Hf as <- Hr. cbn. by rewrite Hr.
  - intros s rs s' Hf. destruct (sink_flush_records (sk_writer s) rs) as [w res].
    injection Hf as <- Hr. cbn. rewrite Hr. exists []. split; [apply sublist_nil_l|]. by rewrite app_nil_r.
Defined.

(** A sink whose writer buffers and whose store is [st]. *)
Definition buffers_over (st : Store AnyRow) (s : TelemetryFlushSink) : Prop :=
  tw_store (sk_writer s) = st ∧ ∃ buf, tw_buffer (sk_writer s) = Some buf ∧ slots_typed buf.

Lemma buffers_over_flush st s rs : buffers_over st s →
  buffers_over st (flush_records s rs).1 ∧ (flush_records s rs).2 = true.
Proof.
  intros (Hs & buf & Hb & Ht).
  destruct (sink_flush_buffered rs (sk_writer s) buf Hb Ht) as (d & _ & w' & buf' & Hf & Hs' & Hb' & Ht' & _).
  cbn. rewrite Hf. cbn. split; [|done]. split; [exact (eq_trans Hs' Hs)|]. by exists buf'.
Qed.

(** The sink a restarted server builds: an empty buffer over the store that
    survived. *)
Definition restarted_sink (max_slot_bytes : Z) (s : TelemetryFlushSink) : TelemetryFlushSink :=
  mkSink (mkTelemetryWriter (Some (write_buffer_new max_slot_bytes)) (tw_store (sk_writer s)) 0) [].

(** C15: Durability ends at the write buffer. In the default configuration a flush
    pass takes every acknowledged record, reports success and advances the
    checkpoint while the store is untouched; if the process dies before the
    buffer is drained, the restart replays nothing, and the records are neither
    in a Parquet file nor in the new buffer. *)
Theorem buffered_records_lost_on_crash `{Crc32} st (s0 : TelemetryFlushSink) fs wal ck sink hist failures
    save ck' sink' res img max_bytes guard save2 mb max_slot_bytes :
  reach s0 (mkSys fs wal ck sink) hist failures → buffers_over st sink → (∀ id, save id = true) →
  flush_once save (fs_segments fs) wal ck sink = (ck', sink', res) →
  w_segment_id (wal_writer wal) < u64_max → crash_image fs wal Recoverable img →
  is_ok res = true ∧ delivers (delivered s0) hist hist failures (delivered sink') ∧
  (failures = 0%nat → delivered sink' = delivered s0 ++ hist) ∧ tw_store (sk_writer sink') = st ∧
  ∃ fs' wal', wal_open img max_bytes guard = Ok (fs', wal') ∧
    replay save2 (fs_segments fs') ck' mb (restarted_sink max_slot_bytes sink') =
      Ok (fs_segments fs', ck', restarted_sink max_slot_bytes sink', 0) ∧
    ∀ k buf, tw_buffer (sk_writer (restarted_sink max_slot_bytes sink')) = Some buf → buffered_rows k buf = [].
Proof.
  intros Hreach Hbuf Hsave Hfl Hid Himg.
  destruct (reach_inv _ _ _ _ Hreach) as (l & id & rs & don & Hon & _).
  destruct (flush_once_sink (buffers_over st) save fs wal l id rs ck sink ck' sink' res
    (buffers_over_flush st) Hsave Hbuf Hon Hfl) as [[Hst _] Hok].
  destruct (restart_after_flush s0 save fs wal ck sink hist failures ck' sink' res img max_bytes guard save2 mb
    (restarted_sink max_slot_bytes sink') Hreach Hfl Hok Hid Himg) as (Hd & fs' & wal' & Ho & Hrep).
  split; [done|]. split; [exact Hd|]. split; [intros ->; by apply delivers_0 in Hd|]. split; [done|].
  exists fs', wal'. split_and!; [done..|]. by intros k buf [= <-].
Qed.
End Sink.

(** ** Witnesses *)

Section Witnesses.
Local Existing Instance crc32_concrete.
Local Existing Instance chrono_concrete.
Local Existing Instance sample_parser.

(** Rows are integers of one service; a payload parses as its length. *)
#[local] Instance sample_telemetry : Telemetry Z :=
  {| workspace_of _ := "w1"; service_of _ := "svc"; ts_of z := z |}.
#[local] Instance sample_json : FromJson Z := λ l, Some (zlen l).

Abbreviation sample_sink_type := (TelemetryFlushSink (Span := Z) (MetricRecord := Z) (LogRecord := Z) (EvaluationScore := Z)).

Definition sample_envs (n : nat) : WriteEnv := mkWriteEnv "/data" (pretty n) 100 64 32 None.
Definition sample_store : Store (Row Z Z Z Z) := mkStore ∅ ∅ file_db_empty.
Definition sample_sink : sample_sink_type := mkSink (mkTelemetryWriter (Some (write_buffer_new 1000)) sample_store 0) [].

#[local] Instance sample_flush_sink : FlushSink sample_sink_type := telemetry_flush_sink (λ _, 0) sample_envs.

Lemma sample_buffers : buffers_over sample_store sample_sink.
Proof. split; [reflexivity|]. exists (write_buffer_new 1000). split; [reflexivity|]. intros k s Hk. cbn in Hk. by apply lookup_empty_Some in Hk. Defined.

Lemma buffered_flush_files_rows_witness : ∃ w' buf',
  sink_flush_records (λ _, 0) sample_envs (sk_writer sample_sink) hist3 = (w', Ok ()) ∧
  tw_store w' = sample_store ∧ tw_buffer w' = Some buf' ∧
  buffered_rows (mkBufferKey "w1" "traces" "svc" "0") buf' = map SpanRow [3; 4; 5].
Proof.
  destruct (buffered_flush_files_rows (λ _, 0) sample_envs hist3 (sk_writer sample_sink) (write_buffer_new 1000))
    as (d & w' & buf' & Hd & Hf & Hst & Hb & _ & Hr).
  - reflexivity.
  - destruct sample_buffers as [_ (b & [= <-] & Ht)]. exact Ht.
  - exists w', buf'. split; [exact Hf|]. split; [exact Hst|]. split; [exact Hb|].
    vm_compute in Hd. injection Hd as <-. rewrite Hr; [vm_compute; reflexivity|].
    repeat constructor; by vm_compute.
Defined.

Lemma buffered_records_lost_on_crash_witness : ∃ ck' sink',
  flush_once saved (fs_segments state3.1) state3.2 None sample_sink = (ck', sink', Ok (Some 0)) ∧
  delivered sink' = hist3 ∧ tw_store (sk_writer sink') = sample_store ∧
  ∃ fs' wal', wal_open state3.1 120 (guard_new 0 1) = Ok (fs', wal') ∧
    replay true (fs_segments fs') ck' 1000 (restarted_sink 1000 sink') =
      Ok (fs_segments fs', ck', restarted_sink 1000 sink', 0).
Proof.
  destruct (flush_once saved (fs_segments state3.1) state3.2 None sample_sink) as [[ck' sink'] res] eqn:Hfl.
  exists ck', sink'.
  destruct (buffered_records_lost_on_crash (λ _, 0) sample_envs sample_store sample_sink state3.1 state3.2 None
    sample_sink hist3 0 saved ck' sink' res state3.1 120 (guard_new 0 1) true 1000 1000)
    as (Hok & _ & Hd & Hst & fs' & wal' & Ho & Hr & _).
  - apply reach3_any.
  - exact sample_buffers.
  - intros id. reflexivity.
  - exact Hfl.
  - vm_compute. reflexivity.
  - apply CrashClean.
  - split; [|split; [exact (Hd eq_refl)|split; [exact Hst|exists fs', wal'; split; [exact Ho|exact Hr]]]].
    assert (res = Ok (Some 0)) as ->; [|reflexivity].
    assert (res = (flush_once saved (fs_segments state3.1) state3.2 None sample_sink).2) as -> by (by rewrite Hfl).
    vm_compute. reflexivity.
Defined.
End Witnesses.

(** Two services, and a second partition whose directory is never made. *)
Section MixedWitness.
Local Existing Instance chrono_concrete.
Local Existing Instance sample_parser.
Local Existing Instance sample_json.

#[local] Instance mixed_telemetry : Telemetry Z :=
  {| workspace_of _ := "w1"; service_of z := if z <=? 3 then "svc" else "bad"; ts_of z := z |}.

Definition failing_envs (n : nat) : WriteEnv :=
  mkWriteEnv "/data" (pretty n) 100 64 32 (if Nat.even n then None else Some (CreateDir, false)).
Definition mixed_records : list WalRecord :=
  map (λ r, mkWalRecord Log (workspace_id r) (arrival_timestamp_ns r) (assigned_offset r) (payload r)) hist3.
Definition mixed_writer : TelemetryWriter (Span := Z) (MetricRecord := Z) (LogRecord := Z) (EvaluationScore := Z) :=
  mkTelemetryWriter None sample_store 0.
Definition mixed_pass w := (sink_flush_records (λ _ : Z, 0) failing_envs w mixed_records).1.

Lemma failing_partition_repeats_others_witness :
  visible (tw_store (mixed_pass (mixed_pass mixed_writer))) ≡ₚ [LogRow 3; LogRow 3].
Proof.
  destruct (failing_partition_repeats_others (λ _ : Z, 0) failing_envs mixed_records
    [(mkPartitionKey "w1" "svc" "0", [3])] (mkPartitionKey "w1" "bad" "0", [4; 5]) [] 2 mixed_writer
    (mixed_pass (mixed_pass mixed_writer)) [3; 4; 5]) as [_ Hv].
  - vm_compute. reflexivity.
  - vm_compute. reflexivity.
  - discriminate.
  - reflexivity.
  - split; [apply db_wf_empty|]. intros id e He. cbn in He. by apply lookup_empty_Some in He.
  - apply (PassesMore _ _ _ _ _ mixed_writer (mixed_pass mixed_writer)); [| |vm_compute; reflexivity|
      apply (PassesMore _ _ _ _ _ (mixed_pass mixed_writer) (mixed_pass (mixed_pass mixed_writer)));
      [| |vm_compute; reflexivity|apply PassesNone]].
    + split; [discriminate|]. split; [apply fresh_pathsb_correct; vm_compute; reflexivity|]. split; [vm_compute; reflexivity|exact I].
    + vm_compute. reflexivity.
    + split; [discriminate|]. split; [apply fresh_pathsb_correct; vm_compute; reflexivity|]. split; [vm_compute; reflexivity|exact I].
    + vm_compute. reflexivity.
  - exact Hv.
Defined.
End MixedWitness.
