(* ===== verification/IngestBatch.v ===== *)
(** The batches that cross from ingestion to storage:
    [zradar-models/src/ingest_batch.rs].

    A batch carries rows of one signal with metadata derived from them, and can
    be split into batches of one workspace each. *)

From stdpp Require Import base gmap list strings.
From S2P Require Import Prelude ParquetWriter WriteBuffer TelemetrySink.

Definition INGEST_SCHEMA_VERSION : Z := 1.

(** [SignalType]. *)
Inductive IngestSignal := SignalSpans | SignalMetrics | SignalLogs | SignalScores.

Definition signal_as_str (s : IngestSignal) : string :=
  match s with SignalSpans => "traces" | SignalMetrics => "metrics" | SignalLogs => "logs" | SignalScores => "scores" end.

Section Rows.
Context {T : Type} `{UuidParser} (ws : T → string) (ts : T → Z).

Definition time_bounds (rows : list T) : Z * Z :=
  match map ts rows with
  | [] => (0, 0)
  | first :: rest => foldl (λ b t, (Z.min b.1 t, Z.max b.2 t)) (first, first) rest
  end.

Definition homogeneous_workspace (rows : list T) : option Z :=
  match rows with
  | [] => None
  | first :: _ => if forallb (λ r, bool_decide (ws r = ws first)) rows then parse_uuid (ws first) else None
  end.

(** One row of the loop of [group_by_workspace], over the index of the groups
    and the groups. *)
Definition place_row (st : gmap string nat * list (list T)) (row : T) : gmap string nat * list (list T) :=
  let '(index, groups) := st in
  match index !! ws row with
  | Some idx => (index, alter (λ g, g ++ [row]) idx groups)
  | None => (<[ws row := length groups]> index, alter (λ g, g ++ [row]) (length groups) (groups ++ [[]]))
  end.

Definition group_by_workspace (rows : list T) : list (list T) := (foldl place_row (∅, []) rows).2.
End Rows.

Section Batch.
Context `{UuidParser} {Span MetricRecord LogRecord EvaluationScore : Type}.
Context `{Telemetry Span, Telemetry MetricRecord, Telemetry LogRecord, Telemetry EvaluationScore}.

(** [IngestPayload] has the constructors of [SignalBatch]. *)
Abbreviation IngestPayload := (SignalBatch Span MetricRecord LogRecord EvaluationScore).

Record IngestBatch := mkIngestBatch {
  schema_version : Z;
  ib_signal_type : IngestSignal;
  ib_workspace_id : option Z;
  min_timestamp : Z;
  max_timestamp : Z;
  record_count : Z;
  ib_payload : IngestPayload;
}.

(** The metadata the four constructors derive from the rows. *)
Definition batch_of {T : Type} `{Telemetry T} (signal : IngestSignal) (payload : list T → IngestPayload) (rows : list T) :
    IngestBatch :=
  let '(lo, hi) := time_bounds ts_of rows in
  mkIngestBatch INGEST_SCHEMA_VERSION signal (homogeneous_workspace workspace_of rows) lo hi (zlen rows) (payload rows).

Definition batch_spans : list Span → IngestBatch := batch_of SignalSpans Spans.
Definition batch_metrics : list MetricRecord → IngestBatch := batch_of SignalMetrics Metrics.
Definition batch_logs : list LogRecord → IngestBatch := batch_of SignalLogs Logs.
Definition batch_scores : list EvaluationScore → IngestBatch := batch_of SignalScores Scores.

Definition ingest_batch_is_empty (b : IngestBatch) : bool := record_count b =? 0.
Definition time_range (b : IngestBatch) : Z * Z := (min_timestamp b, max_timestamp b).

Definition split_by_workspace (b : IngestBatch) : list IngestBatch :=
  match ib_payload b with
  | Spans rows => map batch_spans (group_by_workspace workspace_of rows)
  | Metrics rows => map batch_metrics (group_by_workspace workspace_of rows)
  | Logs rows => map batch_logs (group_by_workspace workspace_of rows)
  | Scores rows => map batch_scores (group_by_workspace workspace_of rows)
  end.
End Batch.
Arguments IngestBatch : clear implicits.

(** ** Lemmas *)

Section Bounds.
Context {T : Type} (ts : T → Z).

Lemma time_bounds_acc l lo hi : lo ≤ hi →
  let '(a, b) := foldl (λ b t, (Z.min b.1 t, Z.max b.2 t)) (lo, hi) l in
  a ≤ lo ∧ hi ≤ b ∧ Forall (λ t, a ≤ t ≤ b) l ∧ (a = lo ∨ a ∈ l) ∧ (b = hi ∨ b ∈ l).
Proof.
  revert lo hi. induction l as [|t l IH]; intros lo hi Hle; cbn [foldl fst snd].
  { split_and!; [lia|lia|constructor|by left|by left]. }
  specialize (IH (Z.min lo t) (Z.max hi t) ltac:(lia)).
  destruct (foldl _ _ l) as [a b]. destruct IH as (Ha & Hb & Hall & Hia & Hib).
  split_and!; [lia|lia|constructor; [lia|done]|..].
  - destruct Hia as [->|Hia]; [|right; by right].
    destruct (Z.min_spec lo t) as [[_ ->]|[_ ->]]; [by left|right; by left].
  - destruct Hib as [->|Hib]; [|right; by right].
    destruct (Z.max_spec hi t) as [[_ ->]|[_ ->]]; [right; by left|by left].
Qed.

(** The bounds are timestamps of rows, and none is outside. *)
Lemma time_bounds_exact rows : rows ≠ [] →
  let '(lo, hi) := time_bounds ts rows in
  lo ∈ map ts rows ∧ hi ∈ map ts rows ∧ Forall (λ r, lo ≤ ts r ≤ hi) rows.
Proof.
  unfold time_bounds. destruct rows as [|r rows]; [done|]. intros _. cbn [map].
  pose proof (time_bounds_acc (map ts rows) (ts r) (ts r) ltac:(lia)) as Hacc.
  destruct (foldl _ _ _) as [lo hi]. destruct Hacc as (Ha & Hb & Hall & Hia & Hib). split_and!.
  - destruct Hia as [->|Hia]; [by left|by right].
  - destruct Hib as [->|Hib]; [by left|by right].
  - constructor; [lia|]. by apply Forall_map in Hall.
Qed.
End Bounds.

(** The rows under a key, in their order. *)
Section Keyed.
Context {T K : Type} `{EqDecision K} (key : T → K).
Implicit Types (rows : list T) (keys : list K).

Definition rows_of rows (k : K) : list T := filter (λ r, key r = k) rows.

Lemma rows_of_snoc rows r k : rows_of (rows ++ [r]) k = rows_of rows k ++ (if decide (key r = k) then [r] else []).
Proof. unfold rows_of. rewrite filter_app, filter_cons, filter_nil. by case_decide. Qed.

Lemma rows_of_absent rows keys k : (∀ r, r ∈ rows → key r ∈ keys) → k ∉ keys → rows_of rows k = [].
Proof. intros Hin Hk. apply filter_none. intros r Hr Heq. apply Hk. rewrite <-Heq. by apply Hin. Qed.

(** The rows under pairwise different keys that cover the rows are all of
    them. *)
Lemma concat_rows_of rows keys : NoDup keys → (∀ r, r ∈ rows → key r ∈ keys) → concat (map (rows_of rows) keys) ≡ₚ rows.
Proof.
  revert rows. induction keys as [|k keys IH]; intros rows Hnd Hin.
  { destruct rows as [|r rows]; [done|]. exfalso. apply (not_elem_of_nil (key r)), Hin. by left. }
  apply NoDup_cons in Hnd as [Hk Hnd]. cbn [map concat].
  etrans; [|apply (filter_app_complement (λ r, key r = k) rows)]. apply Permutation_app; [done|].
  etrans; [|apply (IH (filter (λ r, key r ≠ k) rows) Hnd)].
  - apply reflexive_eq. f_equal. apply map_ext_in. intros k' Hk'%list_elem_of_In. unfold rows_of.
    rewrite list_filter_filter. apply list_filter_iff. intros r. split; [|tauto]. intros <-. split; [done|]. congruence.
  - intros r [Hne Hr]%list_elem_of_filter. by apply Hin, elem_of_cons in Hr as [?|?].
Qed.
End Keyed.

Section Groups.
Context {T : Type} (ws : T → string).
Implicit Types (rows : list T) (keys : list string).

(** The workspaces of rows in the order they are first seen. *)
Definition first_seen rows : list string :=
  foldl (λ keys r, if decide (ws r ∈ keys) then keys else keys ++ [ws r]) [] rows.

(** The index maps each workspace to the place of its group. *)
Definition indexed (st : gmap string nat * list (list T)) rows keys : Prop :=
  NoDup keys ∧ st.2 = map (rows_of ws rows) keys ∧ (∀ k i, st.1 !! k = Some i ↔ keys !! i = Some k) ∧
  ∀ r, r ∈ rows → ws r ∈ keys.

Lemma alter_group rows r keys i : NoDup keys → keys !! i = Some (ws r) →
  alter (λ g, g ++ [r]) i (map (rows_of ws rows) keys) = map (rows_of ws (rows ++ [r])) keys.
Proof.
  intros Hnd Hi. apply list_eq. intros j. rewrite !list_lookup_fmap. destruct (decide (i = j)) as [<-|Hne].
  - rewrite list_lookup_alter_eq, list_lookup_fmap, Hi. cbn. by rewrite rows_of_snoc, decide_True.
  - rewrite list_lookup_alter_ne, list_lookup_fmap by done. destruct (keys !! j) as [k|] eqn:Hj; [|done]. cbn.
    rewrite rows_of_snoc, decide_False, app_nil_r; [done|].
    intros <-. apply Hne. by eapply NoDup_lookup.
Qed.

Lemma place_row_indexed st rows keys r : indexed st rows keys →
  indexed (place_row ws st r) (rows ++ [r]) (if decide (ws r ∈ keys) then keys else keys ++ [ws r]).
Proof.
  destruct st as [index groups]. intros (Hnd & Hg & Hix & Hin). cbn in Hg, Hix. subst groups. unfold place_row.
  assert (∀ r', r' ∈ rows ++ [r] → ws r' ∈ keys ∨ ws r' = ws r) as Hin'.
  { intros r' [Hr|Hr%list_elem_of_singleton]%elem_of_app; [left; by apply Hin|right; by subst]. }
  destruct (index !! ws r) as [i|] eqn:Hi.
  - apply Hix in Hi as Hk. assert (ws r ∈ keys) as Hmem by by eapply list_elem_of_lookup_2. rewrite decide_True by done. split_and!; [done| |done|].
    + cbn. by apply alter_group.
    + intros r' Hr. destruct (Hin' r' Hr) as [?| ->]; done.
  - assert (ws r ∉ keys) as Hnew. { intros [i Hk]%list_elem_of_lookup. apply Hix in Hk. congruence. }
    rewrite decide_False by done. rewrite length_map.
    assert (NoDup (keys ++ [ws r])) as Hnd' by (apply NoDup_app; split_and!; [done|by intros k Hk ->%list_elem_of_singleton|apply NoDup_singleton]).
    split_and!; [done|..].
    + cbn. rewrite <-(alter_group rows r (keys ++ [ws r]) (length keys)); [|done|by apply list_lookup_middle].
      rewrite map_app. cbn. by rewrite (rows_of_absent ws rows keys).
    + intros k i. cbn. destruct (decide (k = ws r)) as [->|Hne].
      * rewrite lookup_insert_eq. split; [intros [= <-]; by apply list_lookup_middle|].
        intros Hk. f_equal. apply (NoDup_lookup (keys ++ [ws r]) _ _ (ws r)); [done|by apply list_lookup_middle|done].
      * rewrite lookup_insert_ne by done. rewrite Hix. rewrite lookup_app. destruct (keys !! i) as [k'|] eqn:Hk; [done|].
        split; [done|]. intros Hlast%list_lookup_singleton_Some. destruct Hlast as [_ ?]. congruence.
    + intros r' Hr. apply elem_of_app. destruct (Hin' r' Hr) as [?| ->]; [by left|right; by apply list_elem_of_singleton].
Qed.

(** The reference: the rows of each workspace, in the order the workspaces are
    first seen. *)
Lemma group_by_workspace_spec rows :
  group_by_workspace ws rows = map (rows_of ws rows) (first_seen rows) ∧ NoDup (first_seen rows) ∧
  ∀ r, r ∈ rows → ws r ∈ first_seen rows.
Proof.
  assert (indexed (foldl (place_row ws) (∅, []) rows) rows (first_seen rows)) as (Hnd & Hg & _ & Hin).
  { induction rows as [|r rows IH] using rev_ind.
    - split_and!; [apply NoDup_nil_2|done|intros k i; unfold first_seen; cbn [foldl fst]; by rewrite lookup_empty, lookup_nil|by intros r ?%not_elem_of_nil].
    - unfold first_seen. rewrite !foldl_app. cbn [foldl]. by apply place_row_indexed. }
  by split_and!.
Qed.

Lemma first_seen_spec rows k : k ∈ first_seen rows ↔ ∃ r, r ∈ rows ∧ ws r = k.
Proof.
  split; [|intros (r & Hr & <-); by apply group_by_workspace_spec].
  revert k. induction rows as [|r rows IH] using rev_ind; intros k; [by intros ?%not_elem_of_nil|].
  unfold first_seen. rewrite foldl_app. cbn [foldl]. intros Hk.
  assert (k ∈ first_seen rows ∨ k = ws r) as [(r' & Hr & <-)%IH| ->].
  { case_decide; [by left|]. apply elem_of_app in Hk as [?|?%list_elem_of_singleton]; [by left|by right]. }
  - exists r'. split; [apply elem_of_app; by left|done].
  - exists r. split; [apply elem_of_app; right; by left|done].
Qed.

End Groups.

(** ** Properties *)

Section Properties.
Context `{UuidParser} {Span MetricRecord LogRecord EvaluationScore : Type}.
Context `{Telemetry Span, Telemetry MetricRecord, Telemetry LogRecord, Telemetry EvaluationScore}.

Abbreviation Batch := (IngestBatch Span MetricRecord LogRecord EvaluationScore).
Abbreviation AnyRow := (Row Span MetricRecord LogRecord EvaluationScore).

Definition row_workspace (r : AnyRow) : string :=
  match r with SpanRow r => workspace_of r | MetricRow r => workspace_of r | LogRow r => workspace_of r | ScoreRow r => workspace_of r end.
Definition row_time (r : AnyRow) : Z :=
  match r with SpanRow r => ts_of r | MetricRow r => ts_of r | LogRow r => ts_of r | ScoreRow r => ts_of r end.

(** A batch of the rows of one workspace among [rows], described by its
    metadata: non-empty, counted, named when the id parses, and with bounds that
    are met. *)
Definition describes (rows : list AnyRow) (k : string) (b : Batch) : Prop :=
  let own := batch_rows (ib_payload b) in
  own = filter (λ r, row_workspace r = k) rows ∧ own ≠ [] ∧ record_count b = zlen own ∧
  ib_workspace_id b = parse_uuid k ∧
  min_timestamp b ∈ map row_time own ∧ max_timestamp b ∈ map row_time own ∧
  Forall (λ r, min_timestamp b ≤ row_time r ≤ max_timestamp b) own.

(** What the four signals share: rows injected into [AnyRow]. *)
Section Signal.
Context {T : Type} `{Telemetry T} (signal : IngestSignal) (inj_row : T → AnyRow).
Context (payload : list T → SignalBatch Span MetricRecord LogRecord EvaluationScore).
Context (payload_rows : ∀ v, batch_rows (payload v) = map inj_row v).
Context (inj_workspace : ∀ r, row_workspace (inj_row r) = workspace_of r) (inj_time : ∀ r, row_time (inj_row r) = ts_of r).

Lemma filter_inj_row k (v : list T) :
  filter (λ r, row_workspace r = k) (map inj_row v) = map inj_row (rows_of workspace_of v k).
Proof.
  unfold rows_of. induction v as [|r v IH]; [done|]. cbn [map]. rewrite !filter_cons, inj_workspace, IH. by case_decide.
Qed.

Lemma batch_of_describes k (v : list T) : k ∈ first_seen workspace_of v →
  describes (map inj_row v) k (batch_of signal payload (rows_of workspace_of v k)).
Proof.
  intros (r & Hr & Hk)%first_seen_spec. unfold describes, batch_of.
  assert (r ∈ rows_of workspace_of v k) as Hin by (by apply list_elem_of_filter).
  assert (∀ r', r' ∈ rows_of workspace_of v k → workspace_of r' = k) as Hown by (by intros r' [? _]%list_elem_of_filter).
  destruct (rows_of workspace_of v k) as [|r1 own] eqn:Heq; [by apply not_elem_of_nil in Hin|].
  pose proof (time_bounds_exact ts_of (r1 :: own)) as Hb. destruct (time_bounds ts_of (r1 :: own)) as [lo hi].
  destruct (Hb ltac:(done)) as (Hlo & Hhi & Hall). cbn [ib_payload record_count ib_workspace_id min_timestamp max_timestamp].
  assert (map row_time (map inj_row (r1 :: own)) = map ts_of (r1 :: own)) as Htimes.
  { rewrite map_map. apply map_ext. exact inj_time. }
  rewrite payload_rows, Htimes, length_map. split_and!; [by rewrite filter_inj_row, Heq|done|done| |done|done|].
  - cbn [homogeneous_workspace]. rewrite (Hown r1) by by left.
    rewrite (proj2 (forallb_forall _ _)); [done|]. intros r' Hr'%list_elem_of_In. apply bool_decide_eq_true. by apply Hown.
  - apply Forall_map. eapply Forall_impl; [exact Hall|]. cbn. intros r'. by rewrite inj_time.
Qed.

Lemma split_describes (v : list T) :
  let parts := map (batch_of signal payload) (group_by_workspace workspace_of v) in
  concat (map (λ p, batch_rows (ib_payload p)) parts) ≡ₚ map inj_row v ∧
  Forall2 (describes (map inj_row v)) (first_seen workspace_of v) parts.
Proof.
  intros parts. unfold parts. destruct (group_by_workspace_spec workspace_of v) as (-> & Hnd & Hall). split.
  - rewrite !map_map. transitivity (map inj_row (concat (map (rows_of workspace_of v) (first_seen workspace_of v)))).
    + apply reflexive_eq. rewrite concat_map, map_map. f_equal. apply map_ext. intros k. unfold batch_of.
      destruct (time_bounds _ _). apply payload_rows.
    + apply fmap_Permutation. by apply concat_rows_of.
  - rewrite map_map. apply Forall2_fmap_r, Forall_Forall2_diag, Forall_forall. intros k Hk. by apply batch_of_describes.
Qed.
End Signal.

(** Splitting a batch by workspace loses and invents no row, and gives for each
    workspace, in the order the workspaces are first seen, one batch of exactly
    its rows in their order, whose metadata is exact: the count, the workspace
    when its id parses, and time bounds that rows attain. *)
Theorem split_by_workspace_exact (b : Batch) :
  let rows := batch_rows (ib_payload b) in
  concat (map (λ p, batch_rows (ib_payload p)) (split_by_workspace b)) ≡ₚ rows ∧
  Forall2 (describes rows) (first_seen row_workspace rows) (split_by_workspace b).
Proof.
  assert (∀ (T : Type) (ws : T → string) (inj : T → AnyRow) v, (∀ r, row_workspace (inj r) = ws r) →
    first_seen row_workspace (map inj v) = first_seen ws v) as Hseen.
  { intros T ws inj v Hws. induction v as [|r v IH] using rev_ind; [done|].
    rewrite map_app. unfold first_seen in *. rewrite !foldl_app, IH. cbn [map foldl]. by rewrite Hws. }
  unfold split_by_workspace. destruct (ib_payload b) as [v|v|v|v]; cbn [batch_rows].
  - rewrite (Hseen _ workspace_of) by done. by apply (split_describes SignalSpans SpanRow Spans).
  - rewrite (Hseen _ workspace_of) by done. by apply (split_describes SignalMetrics MetricRow Metrics).
  - rewrite (Hseen _ workspace_of) by done. by apply (split_describes SignalLogs LogRow Logs).
  - rewrite (Hseen _ workspace_of) by done. by apply (split_describes SignalScores ScoreRow Scores).
Qed.
End Properties.
