(* ===== verification/WalWriter.v ===== *)
(** The writer in front of the log: [WalTelemetryWriter] of
    [zradar-runtime/src/builder.rs] and the default [insert_batch] of
    [zradar-traits/src/repositories/telemetry.rs].

    An insert groups its rows by workspace, appends one record per workspace to
    the write-ahead log and answers when the log says that they are durable. *)

From stdpp Require Import base gmap sorting list strings.
From coqutil Require Import Byte.
From S2P Require Import Prelude WalRecord WalBatch WalSegment WalGuard WalLog WalFlush WalSystem ParquetWriter WriteBuffer TelemetrySink IngestBatch Export.

(** [serde_json::to_vec]. *)
Class ToJson (T : Type) := to_vec : T → outcome string (list byte).

Definition WAL_RETRY_AFTER : Z := 5 * 1000000000.

(** How [AppendHandle::durable] ends, if it does: notified, or the sender was
    dropped. *)
Inductive Durable := Notified | SenderDropped | StillWaiting.

(** What one insert finds: the guard's clock and free-space sample at the check,
    the wall clock, and for each append its environment and how its wait for
    the fsync ends. *)
Record InsertEnv := mkInsertEnv {
  ie_check_now : Z;
  ie_check_sample : option Z;
  ie_now_ns : Z;
  ie_append : nat → AppendEnv;
  ie_durable : nat → Durable;
}.

(** [BTreeMap::entry(k).or_default().push(v)] on the entries in key order. *)
Fixpoint push_group (k : Z) (v : list byte) (groups : list (Z * list (list byte))) : list (Z * list (list byte)) :=
  match groups with
  | [] => [(k, [v])]
  | (k', vs) :: rest =>
      if k =? k' then (k', vs ++ [v]) :: rest
      else if k <? k' then (k, [v]) :: groups
      else (k', vs) :: push_group k v rest
  end.

Section WalWriter.
Context `{Crc32} `{UuidParser}.
(** The text of an append error and of the fsync error. *)
Context (show_append_error : AppendError → string).

Definition wal_append_error (e : AppendError) : WriteError :=
  if is_retryable e then Transient ("WAL append: " +:+ show_append_error e) WAL_RETRY_AFTER
  else WriteFailed ("WAL append: " +:+ show_append_error e).

Section Insert.
Context {T : Type} `{ToJson T} (workspace : T → string).

(** The loop that serializes the rows into groups. *)
Definition json_groups (rows : list T) : outcome WriteError (list (Z * list (list byte))) :=
  ofold (λ groups row,
    let workspace_id := parse_uuid_or_nil (workspace row) in
    bytes ← map_err (λ e, WriteFailed ("WAL row serialize: " +:+ e)) (to_vec row);
    mret (push_group workspace_id bytes groups)) [] rows.

Definition group_record (signal : SignalType) (now_ns : Z) (group : Z * list (list byte)) : WalRecord :=
  mkWalRecord signal (be_bytes 16 group.1) now_ns 0 (encode_json_rows group.2).

(** The loop over the groups from the n-th append on: the records appended, and
    the error that stopped it. *)
Fixpoint append_groups (signal : SignalType) (env : InsertEnv) (n : nat) (fs : WalFs) (wal : Wal)
    (groups : list (Z * list (list byte))) : WalFs * Wal * list WalRecord * outcome WriteError unit :=
  match groups with
  | [] => (fs, wal, [], Ok ())
  | group :: groups =>
      match append fs wal (group_record signal (ie_now_ns env) group) (ie_append env n) with
      | (fs, wal, Ok r) =>
          let '(fs, wal, rs, res) := append_groups signal env (S n) fs wal groups in (fs, wal, r :: rs, res)
      | (fs, wal, Err e) => (fs, wal, [], Err (wal_append_error e))
      | (fs, wal, Panic) => (fs, wal, [], Panic)
      end
  end.

(** [for handle in handles { handle.durable().await? }]; nothing when a wait
    does not end. *)
Fixpoint await_durable (env : InsertEnv) (n : nat) (handles : list WalRecord) : option (outcome WriteError unit) :=
  match handles with
  | [] => Some (Ok ())
  | _ :: handles =>
      match ie_durable env n with
      | Notified => await_durable env (S n) handles
      | SenderDropped => Some (Err (WriteFailed ("WAL fsync: " +:+ show_append_error FsyncDropped)))
      | StillWaiting => None
      end
  end.

(** [append_batches]. *)
Definition append_batches (signal : SignalType) (fs : WalFs) (wal : Wal) (rows : list T) (env : InsertEnv) :
    WalFs * Wal * option (outcome WriteError unit) :=
  match rows with
  | [] => (fs, wal, Some (Ok ()))
  | _ =>
      match json_groups rows with
      | Ok groups =>
          let '(wal, admitted) := check_free_space wal (ie_check_now env) (ie_check_sample env) in
          match admitted with
          | Ok _ =>
              let '(fs, wal, handles, res) := append_groups signal env 0 fs wal groups in
              match res with
              | Ok _ => (fs, wal, await_durable env 0 handles)
              | Err e => (fs, wal, Some (Err e))
              | Panic => (fs, wal, Some Panic)
              end
          | Err e => (fs, wal, Some (Err (wal_append_error e)))
          | Panic => (fs, wal, Some Panic)
          end
      | Err e => (fs, wal, Some (Err e))
      | Panic => (fs, wal, Some Panic)
      end
  end.
End Insert.

Section Signals.
Context {Span MetricRecord LogRecord EvaluationScore : Type}.
Context `{Telemetry Span, Telemetry MetricRecord, Telemetry LogRecord, Telemetry EvaluationScore}.
Context `{ToJson Span, ToJson MetricRecord, ToJson LogRecord, ToJson EvaluationScore}.

Definition wal_insert_spans : WalFs → Wal → list Span → InsertEnv → WalFs * Wal * option (outcome WriteError unit) :=
  append_batches workspace_of Trace.
Definition wal_insert_metrics : WalFs → Wal → list MetricRecord → InsertEnv → WalFs * Wal * option (outcome WriteError unit) :=
  append_batches workspace_of Metric.
Definition wal_insert_logs : WalFs → Wal → list LogRecord → InsertEnv → WalFs * Wal * option (outcome WriteError unit) :=
  append_batches workspace_of Log.
Definition wal_insert_scores : WalFs → Wal → list EvaluationScore → InsertEnv → WalFs * Wal * option (outcome WriteError unit) :=
  append_batches workspace_of Score.

(** The default [insert_batch] of the trait. *)
Definition wal_insert_batch (fs : WalFs) (wal : Wal) (batch : IngestBatch Span MetricRecord LogRecord EvaluationScore)
    (env : InsertEnv) : WalFs * Wal * option (outcome WriteError unit) :=
  match ib_payload batch with
  | Spans spans => wal_insert_spans fs wal spans env
  | Metrics metrics => wal_insert_metrics fs wal metrics env
  | Logs logs => wal_insert_logs fs wal logs env
  | Scores scores => wal_insert_scores fs wal scores env
  end.
End Signals.
End WalWriter.

(** ** Lemmas on grouping *)

Section Grouping.
Context `{UuidParser} {T : Type} `{ToJson T} (workspace : T → string).
Implicit Types (rows : list T) (ks : list Z).

Definition key_of (r : T) : Z := parse_uuid_or_nil (workspace r).
Definition json_of (r : T) : list byte := match to_vec r with Ok bytes => bytes | _ => [] end.

(** The entry of a workspace: the serialized rows of it, in their order. *)
Definition entry rows (k : Z) : Z * list (list byte) := (k, map json_of (rows_of key_of rows k)).

Lemma push_group_entries rows r ks :
  StronglySorted Z.lt ks → (∀ k, k ∈ ks ↔ ∃ r', r' ∈ rows ∧ key_of r' = k) →
  ∃ ks', push_group (key_of r) (json_of r) (map (entry rows) ks) = map (entry (rows ++ [r])) ks' ∧
    StronglySorted Z.lt ks' ∧ ∀ k, k ∈ ks' ↔ k ∈ ks ∨ k = key_of r.
Proof.
  intros Hs Hks.
  assert (∀ k, k ≠ key_of r → entry (rows ++ [r]) k = entry rows k) as Hother.
  { intros k Hk. unfold entry. by rewrite rows_of_snoc, decide_False, app_nil_r by done. }
  assert (entry (rows ++ [r]) (key_of r) = (key_of r, (entry rows (key_of r)).2 ++ [json_of r])) as Hsame.
  { unfold entry. by rewrite rows_of_snoc, decide_True, map_app by done. }
  assert (key_of r ∉ ks → (entry rows (key_of r)).2 = []) as Hnew.
  { intros Hn. unfold entry, rows_of. cbn. rewrite filter_none; [done|]. intros r' Hr' Hk. apply Hn, Hks. by exists r'. }
  clear Hks. induction Hs as [|k ks Hs IH Hk]; cbn [map push_group].
  { exists [key_of r]. cbn [map]. rewrite Hsame, Hnew by apply not_elem_of_nil. split_and!; [done|repeat constructor|].
    intros k. rewrite list_elem_of_singleton. split; [by right|]. by intros [?%not_elem_of_nil|?]. }
  rewrite Forall_forall in Hk.
  assert (∀ l, (∀ x, x ∈ l → x ≠ key_of r) → map (entry (rows ++ [r])) l = map (entry rows) l) as Hmap.
  { intros l Hl. apply map_ext_in. intros x Hx%list_elem_of_In. by apply Hother, Hl. }
  change (entry rows k) with (k, map json_of (rows_of key_of rows k)) at 1. cbv iota beta.
  destruct (Z.eqb_spec (key_of r) k) as [Heq|Hne].
  { exists (k :: ks). cbn [map]. rewrite Hmap by (intros x Hx; specialize (Hk x Hx); lia). subst k. rewrite Hsame.
    split_and!; [done|constructor; [done|by apply Forall_forall]|]. intros x. split; [by left|]. intros [?| ->]; [done|by left]. }
  destruct (Z.ltb_spec (key_of r) k).
  { exists (key_of r :: k :: ks). cbn [map]. rewrite (Hother k), Hmap by (try done; intros x Hx; specialize (Hk x Hx); lia).
    rewrite Hsame, Hnew by (intros [?|Hx]%elem_of_cons; [congruence|specialize (Hk _ Hx); lia]). split_and!; [done| |].
    - constructor; [constructor; [done|by apply Forall_forall]|]. constructor; [done|]. apply Forall_forall. intros x Hx. specialize (Hk x Hx). lia.
    - intros x. rewrite elem_of_cons. tauto. }
  destruct IH as (ks' & Hp & Hs' & Hin); [intros Hn; apply Hnew; intros [?|?]%elem_of_cons; congruence|].
  exists (k :: ks'). cbn [map]. rewrite Hp, (Hother k) by done. split_and!; [done| |].
  - constructor; [done|]. apply Forall_forall. intros x [Hx| ->]%Hin; [by apply Hk|lia].
  - intros x. rewrite !elem_of_cons, Hin. tauto.
Qed.

(** When every row serializes, the groups are the entries of the workspaces of
    the rows in increasing order; otherwise the insert fails. *)
Lemma json_groups_spec rows :
  (∀ r, r ∈ rows → is_ok (to_vec r) = true) →
  ∃ ks, json_groups workspace rows = Ok (map (entry rows) ks) ∧ StronglySorted Z.lt ks ∧
    ∀ k, k ∈ ks ↔ ∃ r, r ∈ rows ∧ key_of r = k.
Proof.
  induction rows as [|r rows IH] using rev_ind; intros Hok.
  { exists []. split_and!; [done|constructor|]. intros k. split; [by intros ?%not_elem_of_nil|by intros (? & ?%not_elem_of_nil & _)]. }
  destruct IH as (ks & Hg & Hs & Hks); [intros r' Hr'; apply Hok, elem_of_app; by left|].
  unfold json_groups in *. rewrite ofold_app, Hg. ostep. cbn [ofold].
  specialize (Hok r ltac:(apply elem_of_app; right; by left)).
  destruct (push_group_entries rows r ks Hs Hks) as (ks' & Hp & Hs' & Hks'). unfold json_of in Hp at 1.
  destruct (to_vec r) as [bytes| |]; [|done|done]. ostep. fold (key_of r). rewrite Hp. exists ks'. split_and!; [done|done|].
  intros k. rewrite Hks', Hks. setoid_rewrite elem_of_app. split.
  - intros [(r' & ? & ?)| ->]; [exists r'; tauto|]. exists r. split; [right; by left|done].
  - intros (r' & [?|?%list_elem_of_singleton] & <-); [left; by exists r'|right; by subst].
Qed.

(** All rows of [rows], by workspace. *)
Definition grouped_rows rows ks : list T := concat (map (rows_of key_of rows) ks).

(** The rows of one workspace string keep their order. *)
Lemma grouped_rows_order rows ks w : NoDup ks →
  (parse_uuid_or_nil w ∈ ks) → filter (λ r, workspace r = w) (grouped_rows rows ks) = filter (λ r, workspace r = w) rows.
Proof.
  intros Hnd Hin. unfold grouped_rows. induction ks as [|k ks IH]; [by apply not_elem_of_nil in Hin|].
  apply NoDup_cons in Hnd as [Hk Hnd]. cbn [map concat]. unfold rows_of at 1. rewrite filter_app, list_filter_filter.
  apply elem_of_cons in Hin as [<-|Hin].
  - rewrite (filter_none _ (concat _)), app_nil_r.
    + apply list_filter_iff. intros r. unfold key_of. split; [tauto|]. by intros <-.
    + intros r Hr%list_elem_of_In Hw. apply in_concat in Hr as (l & (k' & <- & Hk'%list_elem_of_In)%in_map_iff & Hr%list_elem_of_In).
      apply list_elem_of_filter in Hr as [Hkey _]. unfold key_of in Hkey. rewrite Hw in Hkey. congruence.
  - rewrite IH by done. rewrite filter_none; [done|]. intros r _ [Hw Hkey]. unfold key_of in Hkey. rewrite Hw in Hkey. congruence.
Qed.
End Grouping.

(** ** Lemmas on the log *)

Section Appending.
Context `{Crc32} `{UuidParser} {Σ : Type} `{FlushSink Σ} (show_append_error : AppendError → string).

Lemma admit_not_Panic g now sample : (admit_ g now sample).2 ≠ Panic ∧
  ∀ e, (admit_ g now sample).2 = Err e → is_retryable e = true.
Proof.
  unfold admit_. destruct (negb _); [done|]. destruct (free_bytes _); [|done]. destruct (_ <? _); [|done].
  split; [done|]. by intros e [= <-].
Qed.

(** An append whose file operations succeed is a step of the system: it logs the
    record under the next offset, or the guard refuses it. *)
Lemma append_reach (s0 : Σ) fs wal ck sink hist failures r env :
  reach s0 (mkSys fs wal ck sink) hist failures → wf_record r → env_ok env →
  offset_counter wal < u64_max → w_segment_id (wal_writer wal) < u64_max →
  (∃ fs' wal', append fs wal r env = (fs', wal', Ok (with_offset r (offset_counter wal))) ∧
     reach s0 (mkSys fs' wal' ck sink) (hist ++ [with_offset r (offset_counter wal)]) failures ∧
     offset_counter wal' = offset_counter wal + 1 ∧
     w_segment_id (wal_writer wal') ≤ w_segment_id (wal_writer wal) + 1) ∨
  (∃ wal' e, append fs wal r env = (fs, wal', Err e) ∧ is_retryable e = true ∧ reach s0 (mkSys fs wal' ck sink) hist failures).
Proof.
  intros Hreach Hr Henv Hoff Hseg.
  destruct (admit_ (disk_guard wal) (env_now env) (env_sample env)) as [g res] eqn:Hadm.
  pose proof (admit_not_Panic (disk_guard wal) (env_now env) (env_sample env)) as [Hnp Hretry]. rewrite Hadm in Hnp, Hretry.
  cbn [snd] in Hnp, Hretry. destruct res as [[]|e|]; [left|right|done].
  - pose proof (reach_inv s0 _ hist failures Hreach) as (l & id & rs & don & Hon & _ & _ & Hnn & _). cbn [sys_fs sys_wal] in *.
    pose proof (wal_on_inv _ _ _ _ _ Hon) as (Hfs & Hwf & Hw).
    assert (∃ fs' w, append fs wal r env =
      (fs', mkWal w (offset_counter wal + 1) (segment_max_bytes wal) g, Ok (with_offset r (offset_counter wal))) ∧
      w_segment_id w ≤ w_segment_id (wal_writer wal) + 1) as (fs' & w & Happ & Hid).
    { unfold append. rewrite Hadm. rewrite u64_wrap_succ by done. cbn [offset_counter wal_writer segment_max_bytes].
      set (wal1 := mkWal _ _ _ g).
      destruct (locked_write_ok fs wal1 l id rs (with_offset r (offset_counter wal)) env) as (fs' & w & -> & Hat & _); try done.
      - apply wf_with_offset; [done|]. unfold u64_range. lia.
      - rewrite Hw in Hseg. cbn in Hseg. apply segs_wf_snoc in Hwf as (_ & _ & ? & _). unfold u64_range in *. lia.
      - exists fs', w. split; [done|]. destruct Hat as (_ & _ & l' & id' & rs' & Heq & Hw'). cbn in Hw'. rewrite Hw', Hw. cbn.
        unfold log_append in Heq. destruct (needs_rotation _ _); apply app_inj_tail in Heq as [_ [= <- _]]; lia. }
    do 2 eexists. split; [exact Happ|]. split; [|by split]. eapply reach_more; [exact Hreach|]. by eapply StepAppend.
  - assert (append fs wal r env = (fs, mkWal (wal_writer wal) (offset_counter wal) (segment_max_bytes wal) g, Err e)) as Happ
      by (unfold append; by rewrite Hadm).
    do 2 eexists. split; [exact Happ|]. split; [by apply Hretry|].
    eapply reach_quiet; [exact Hreach|]. by eapply StepRejected.
Qed.

(** The record of a group, under some offset. *)
Definition records_group (signal : SignalType) (now_ns : Z) (r : WalRecord) (group : Z * list (list byte)) : Prop :=
  ∃ offset, r = with_offset (group_record signal now_ns group) offset.

(** The appends log the records of some first groups, all of them when they
    succeed, and otherwise report a refusal worth a retry. *)
Lemma append_groups_reach (s0 : Σ) failures signal env ck sink groups : ∀ n fs wal hist,
  reach s0 (mkSys fs wal ck sink) hist failures → (∀ n, env_ok (ie_append env n)) →
  Forall (λ g, wf_record (group_record signal (ie_now_ns env) g)) groups →
  offset_counter wal + zlen groups ≤ u64_max → w_segment_id (wal_writer wal) + zlen groups ≤ u64_max →
  ∃ fs' wal' recs res, append_groups show_append_error signal env n fs wal groups = (fs', wal', recs, res) ∧
    reach s0 (mkSys fs' wal' ck sink) (hist ++ recs) failures ∧
    ∃ done rest, groups = done ++ rest ∧ Forall2 (records_group signal (ie_now_ns env)) recs done ∧
      ((res = Ok () ∧ rest = []) ∨
       (rest ≠ [] ∧ ∃ e, is_retryable e = true ∧ res = Err (wal_append_error show_append_error e))).
Proof.
  induction groups as [|g groups IH]; intros n fs wal hist Hreach Henv Hwf Hoff Hseg.
  { exists fs, wal, [], (Ok ()). rewrite app_nil_r. split; [done|]. split; [done|]. exists [], []. split_and!; [done|constructor|by left]. }
  apply Forall_cons in Hwf as [Hg Hwf]. cbn [length] in Hoff, Hseg. cbn [append_groups].
  destruct (append_reach s0 fs wal ck sink hist failures _ (ie_append env n) Hreach Hg (Henv n)) as
    [(fs1 & wal1 & -> & Hreach1 & Hoff1 & Hseg1)|(wal1 & e & -> & He & Hreach1)]; [lia|lia| |].
  - destruct (IH (S n) fs1 wal1 _ Hreach1 Henv Hwf ltac:(lia) ltac:(lia)) as (fs' & wal' & recs & res & -> & Hr & done & rest & -> & Hrecs & Hres).
    do 4 eexists. split; [done|]. rewrite <-app_assoc in Hr. split; [exact Hr|].
    exists (g :: done), rest. split; [done|]. split; [|done]. constructor; [by eexists|done].
  - do 4 eexists. split; [done|]. rewrite app_nil_r. split; [done|]. exists [], (g :: groups). split; [done|]. split; [constructor|].
    right. split; [done|]. by exists e.
Qed.
End Appending.

(** ** Lemmas on decoding what was logged *)

Section Decoding.
Context {Span MetricRecord LogRecord EvaluationScore : Type}.
Context `{FromJson Span, FromJson MetricRecord, FromJson LogRecord, FromJson EvaluationScore}.

Abbreviation Rows := (Decoded (Span := Span) (MetricRecord := MetricRecord) (LogRecord := LogRecord) (EvaluationScore := EvaluationScore)).
Abbreviation AnyRow := (Row Span MetricRecord LogRecord EvaluationScore).

Definition decoded_rows (d : Rows) : list AnyRow :=
  map SpanRow (d_spans d) ++ map MetricRow (d_metrics d) ++ map LogRow (d_logs d) ++ map ScoreRow (d_scores d).

(** What the signals share: [add] puts rows of one signal behind those decoded. *)
Section Signal.
Context {T : Type} `{ToJson T, FromJson T} (signal : SignalType) (inj_row : T → AnyRow) (add : Rows → list T → Rows).
Context (add_nil : ∀ d, add d [] = d) (add_app : ∀ d v w, add (add d v) w = add d (v ++ w)).
Context (push_add : ∀ d r bytes, from_slice bytes = Some r → push_one signal d bytes = add d [r]).
Context (rows_add : ∀ v, decoded_rows (add (mkDecoded [] [] [] []) v) = map inj_row v).

(** [serde_json] reads back what it wrote. *)
Definition reads_back (v : list T) : Prop := Forall (λ r, from_slice (json_of r) = Some r) v.

Lemma push_rows v : reads_back v → ∀ d, foldl (push_one signal) d (map json_of v) = add d v.
Proof.
  induction 1 as [|r v Hr _ IH]; intros d; [by rewrite add_nil|]. cbn [map foldl]. by rewrite (push_add d r), IH, add_app.
Qed.

Lemma decode_groups now_ns recs groups (vs : list (list T)) :
  Forall2 (records_group signal now_ns) recs groups → map snd groups = map (map json_of) vs →
  Forall reads_back vs → Forall (λ v, wf_rows (map json_of v)) vs →
  ∀ d, ofold decode_record d recs = Ok (add d (concat vs)).
Proof.
  intros Hrecs. revert vs. induction Hrecs as [|r g recs groups [off ->] _ IH]; intros [|v vs] Hmap Hback Hwf d; try done.
  { cbn. by rewrite add_nil. }
  cbn [map] in Hmap. injection Hmap as Hg Hmap. apply Forall_cons in Hback as [Hv Hback]. apply Forall_cons in Hwf as [Hw Hwf].
  assert (decode_record d (with_offset (group_record signal now_ns g) off) = Ok (add d v)) as Hd.
  { unfold decode_record. change (payload _) with (encode_json_rows g.2). rewrite Hg.
    pose proof (batch_roundtrip ample (map json_of v) [] Hw eq_refl) as Hdec. rewrite app_nil_r in Hdec. rewrite Hdec.
    cbn [rows]. change (signal_type _) with signal. by rewrite push_rows. }
  cbn [ofold]. rewrite Hd. ostep. cbn [concat]. rewrite <-add_app. by apply IH.
Qed.

(** The envelope of all rows, which bounds that of any part of them. *)
Definition envelope_size (v : list T) : Z := 9 + zsum (map (λ r, 4 + zlen (json_of r)) v).

Lemma length_envelope v : zlen (encode_json_rows (map json_of v)) = envelope_size v.
Proof.
  unfold encode_json_rows, envelope_size. rewrite !length_app, !length_be_bytes. change (length BATCH_MAGIC) with 4%nat.
  assert (zlen (concat (map encode_row (map json_of v))) = zsum (map (λ r, 4 + zlen (json_of r)) v)) as <-; [|lia].
  induction v as [|r v IH]; [done|]. cbn [map concat]. rewrite length_app, length_encode_row. cbn. unfold zsum in *. cbn. lia.
Qed.

Lemma envelope_size_filter (P : T → Prop) `{∀ r, base.Decision (P r)} v : envelope_size (filter P v) ≤ envelope_size v.
Proof.
  unfold envelope_size, zsum. induction v as [|r v IH]; [done|]. rewrite filter_cons. case_decide; cbn; lia.
Qed.

Lemma envelope_wf v : envelope_size v ≤ u32_max → wf_rows (map json_of v).
Proof.
  unfold wf_rows, envelope_size, zsum. rewrite length_map. induction v as [|r v IH]; cbn.
  { intros _. split; [unfold u32_max; lia|constructor]. }
  intros Hle. destruct IH as [Hn Hall]; [lia|]. split; [|constructor; [|done]].
  - clear -Hle. assert (zlen v ≤ foldr Z.add 0 (map (λ r, 4 + zlen (json_of r)) v)); [|lia].
    clear. induction v; cbn; lia.
  - clear -Hle. assert (0 ≤ foldr Z.add 0 (map (λ r, 4 + zlen (json_of r)) v)); [|lia]. clear. induction v; cbn; lia.
Qed.
End Signal.
End Decoding.

(** ** Properties *)

Section Properties.
Context `{Crc32} `{UuidParser} {Σ : Type} `{FlushSink Σ} (show_append_error : AppendError → string).
Context {Span MetricRecord LogRecord EvaluationScore : Type}.
Context `{Telemetry Span, Telemetry MetricRecord, Telemetry LogRecord, Telemetry EvaluationScore}.
Context `{ToJson Span, ToJson MetricRecord, ToJson LogRecord, ToJson EvaluationScore}.
Context `{FromJson Span, FromJson MetricRecord, FromJson LogRecord, FromJson EvaluationScore}.

Abbreviation Rows := (Decoded (Span := Span) (MetricRecord := MetricRecord) (LogRecord := LogRecord) (EvaluationScore := EvaluationScore)).
Abbreviation AnyRow := (Row Span MetricRecord LogRecord EvaluationScore).
Abbreviation Batch := (SignalBatch Span MetricRecord LogRecord EvaluationScore).

(** What an insert of [rows] that answered [res] left in the log, [logged]. *)
Definition insert_logged (rows : list AnyRow) (res : option (outcome WriteError unit)) (logged : list AnyRow) : Prop :=
  (∃ rest, logged ++ rest ≡ₚ rows) ∧
  (res = Some (Ok ()) → logged ≡ₚ rows ∧
     ∀ w, filter (λ r, row_workspace r = w) logged = filter (λ r, row_workspace r = w) rows) ∧
  (∀ what delay, res = Some (Err (Transient what delay)) →
     (∀ r r', r ∈ rows → r' ∈ rows → row_workspace r = row_workspace r') → logged = []) ∧
  res ≠ Some Panic.

Lemma insert_logged_nothing rows e : insert_logged rows (Some (Err e)) [].
Proof. split_and!; try done. by exists rows. Qed.

(** How an insert can end once everything is appended. *)
Definition waited (res : option (outcome WriteError unit)) : Prop :=
  res = Some (Ok ()) ∨ res = Some (Err (WriteFailed ("WAL fsync: " +:+ show_append_error FsyncDropped))) ∨ res = None.

Lemma await_durable_cases env handles n :
  waited (await_durable show_append_error env n handles).
Proof.
  unfold waited. revert n. induction handles as [|h handles IH]; intros n; cbn [await_durable]; [by left|].
  destruct (ie_durable env n); [apply IH|right; by left|right; by right].
Qed.

(** The rows of a batch, with what [serde_json] must do for them and the sizes
    the record format can hold. *)
Definition storable {T : Type} `{ToJson T, FromJson T} (v : list T) : Prop :=
  Forall (λ r, is_ok (to_vec r) = true) v ∧ reads_back v ∧ 37 + envelope_size v ≤ u32_max.

Section Signal.
Context {T : Type} `{Telemetry T, ToJson T, FromJson T} (signal : SignalType) (inj_row : T → AnyRow) (add : Rows → list T → Rows).
Context (add_nil : ∀ d, add d [] = d) (add_app : ∀ d v w, add (add d v) w = add d (v ++ w)).
Context (push_add : ∀ d r bytes, from_slice bytes = Some r → push_one signal d bytes = add d [r]).
Context (rows_add : ∀ v, decoded_rows (add (mkDecoded [] [] [] []) v) = map inj_row v).
Context (inj_workspace : ∀ r, row_workspace (inj_row r) = workspace_of r).

Lemma groups_at_most_rows (rows : list T) ks :
  NoDup ks → (∀ k, k ∈ ks ↔ ∃ r, r ∈ rows ∧ key_of workspace_of r = k) → zlen ks ≤ zlen rows.
Proof.
  intros Hnd Hks. assert (length ks ≤ length (map (key_of workspace_of) rows))%nat as Hle; [|rewrite length_map in Hle; lia].
  apply submseteq_length, NoDup_submseteq; [done|]. intros k (r & Hr & <-)%Hks. apply list_elem_of_fmap. by exists r.
Qed.

Lemma storable_entry (rows : list T) now_ns k : storable rows → i64_range now_ns →
  wf_record (group_record signal now_ns (entry workspace_of rows k)) ∧
  wf_rows (map json_of (rows_of (key_of workspace_of) rows k)) ∧ reads_back (rows_of (key_of workspace_of) rows k).
Proof.
  intros (_ & Hback & Hsize) Hnow. unfold rows_of.
  pose proof (envelope_size_filter (λ r, key_of workspace_of r = k) rows) as Hle. split_and!.
  - unfold wf_record, group_record, entry, rows_of. cbn [WalRecord.workspace_id arrival_timestamp_ns assigned_offset payload fst snd].
    rewrite length_envelope, length_be_bytes. split_and!; [done|apply Hnow..|done|done|lia].
  - apply envelope_wf. lia.
  - unfold reads_back in *. rewrite Forall_forall in *. intros r [_ Hr]%list_elem_of_filter. by apply Hback.
Qed.

(** The conclusion for the first workspaces [ks1] of [ks1 ++ ks2]. *)
Lemma insert_logged_groups (rows : list T) ks1 ks2 res :
  NoDup (ks1 ++ ks2) → (∀ k, k ∈ ks1 ++ ks2 ↔ ∃ r, r ∈ rows ∧ key_of workspace_of r = k) →
  ((ks2 = [] ∧ waited res) ∨
   (ks2 ≠ [] ∧ ∃ e, res = Some (Err e))) →
  insert_logged (map inj_row rows) res (map inj_row (grouped_rows workspace_of rows ks1)).
Proof.
  intros Hnd Hks Hres.
  assert (grouped_rows workspace_of rows (ks1 ++ ks2) ≡ₚ rows) as Hperm
    by (apply concat_rows_of; [done|]; intros r Hr; apply Hks; by exists r).
  unfold grouped_rows in Hperm. rewrite map_app, concat_app in Hperm. split_and!.
  - eexists (map inj_row _). rewrite <-map_app. by apply fmap_Permutation.
  - intros ->. destruct Hres as [[-> _]|(_ & e & ?)]; [|done]. rewrite app_nil_r in *. split; [by apply fmap_Permutation|].
    intros w. rewrite !(filter_inj_row _ inj_workspace). f_equal. unfold rows_of.
    destruct (decide (parse_uuid_or_nil w ∈ ks1)) as [Hin|Hno]; [by apply grouped_rows_order|].
    assert (∀ r, r ∈ rows → workspace_of r ≠ w) as Hw.
    { intros r Hr <-. apply Hno, Hks. by exists r. }
    rewrite !filter_none; [done|done|]. intros r Hr. apply Hw. by rewrite <-Hperm.
  - intros what delay -> Hone. destruct Hres as [[_ Hres]|[Hks2 _]].
    { by destruct Hres as [?|[?|?]]. }
    destruct ks1 as [|k ks1]; [done|]. destruct ks2 as [|k' ks2]; [done|]. exfalso.
    destruct (proj1 (Hks k)) as (r & Hr & <-); [by left|].
    destruct (proj1 (Hks k')) as (r' & Hr' & Hk'); [apply elem_of_app; right; by left|].
    assert (key_of workspace_of r' = key_of workspace_of r) as Heq.
    { unfold key_of. rewrite <-!inj_workspace. f_equal. apply Hone; apply list_elem_of_fmap; by eexists. }
    cbn [app] in Hnd. apply NoDup_cons in Hnd as [Hnd _]. apply Hnd, elem_of_app. right. rewrite <-Heq, Hk'. by left.
  - intros ->. destruct Hres as [[_ Hres]|(_ & e & ?)]; [by destruct Hres as [?|[?|?]]|done].
Qed.

Lemma append_batches_logged (s0 : Σ) fs wal ck sink hist failures (rows : list T) env fs' wal' res :
  reach s0 (mkSys fs wal ck sink) hist failures → (∀ n, env_ok (ie_append env n)) → i64_range (ie_now_ns env) →
  offset_counter wal + zlen rows ≤ u64_max → w_segment_id (wal_writer wal) + zlen rows ≤ u64_max → storable rows →
  append_batches show_append_error workspace_of signal fs wal rows env = (fs', wal', res) →
  ∃ recs d, reach s0 (mkSys fs' wal' ck sink) (hist ++ recs) failures ∧ decode_records recs = Ok d ∧
    insert_logged (map inj_row rows) res (decoded_rows d).
Proof.
  intros Hreach Henv Hnow Hoff Hseg Hst.
  assert (∀ res, reach s0 (mkSys fs wal ck sink) hist failures → insert_logged (map inj_row rows) res [] →
    ∃ recs d, reach s0 (mkSys fs wal ck sink) (hist ++ recs) failures ∧ decode_records recs = Ok d ∧
      insert_logged (map inj_row rows) res (decoded_rows d)) as Hnothing.
  { intros r Hr Hl. exists [], (mkDecoded [] [] [] []). by rewrite app_nil_r. }
  unfold append_batches. destruct rows as [|row rows0].
  { intros [= <- <- <-]. apply Hnothing; [done|]. split_and!; try done. by exists []. }
  remember (row :: rows0) as rows eqn:Hrows. pose proof Hst as (Hser & Hback & _).
  destruct (json_groups_spec workspace_of rows) as (ks & -> & Hsorted & Hks); [by apply Forall_forall|].
  apply sorted_lt_NoDup in Hsorted as Hnd. pose proof (groups_at_most_rows rows ks Hnd Hks) as Hle.
  destruct (check_free_space wal _ _) as [wal1 adm] eqn:Hcheck.
  assert (reach s0 (mkSys fs wal1 ck sink) hist failures) as Hreach1.
  { eapply reach_quiet; [exact Hreach|]. by eapply StepCheck. }
  unfold check_free_space in Hcheck.
  pose proof (admit_not_Panic (disk_guard wal) (ie_check_now env) (ie_check_sample env)) as [Hnp _].
  destruct (admit_ _ _ _) as [g adm'] eqn:Hadm. injection Hcheck as <- <-. cbn [snd] in Hnp.
  destruct adm' as [[]|e|]; [| |done].
  - edestruct (append_groups_reach show_append_error s0 failures signal env ck sink (map (entry workspace_of rows) ks) 0 fs) as
      (fs1 & wal1 & recs & r & -> & Hr & logged & rest & Hsplit & Hrecs & Hend); [exact Hreach1|done| |rewrite length_map; cbn; lia..|].
    { apply Forall_map, Forall_forall. intros k _. by apply storable_entry. }
    apply map_eq_app in Hsplit as (ks1 & ks2 & -> & <- & <-).
    assert (decode_records recs = Ok (add (mkDecoded [] [] [] []) (grouped_rows workspace_of rows ks1))) as Hdec.
    { unfold decode_records, grouped_rows. eapply (decode_groups signal add add_nil add_app push_add); [exact Hrecs|by rewrite !map_map|..];
        apply Forall_map, Forall_forall; intros k _; by eapply storable_entry. }
    intros Heq. exists recs, (add (mkDecoded [] [] [] []) (grouped_rows workspace_of rows ks1)). rewrite rows_add.
    destruct Hend as [[-> Hnil]|(Hne & e & He & ->)].
    + injection Heq as <- <- <-. split_and!; [done|done|]. apply (insert_logged_groups rows ks1 ks2); [done|done|].
      left. split; [by destruct ks2|]. apply await_durable_cases.
    + injection Heq as <- <- <-. split_and!; [done|done|]. apply (insert_logged_groups rows ks1 ks2); [done|done|].
      right. split; [by intros ->|by eexists].
  - intros [= <- <- <-]. exists [], (mkDecoded [] [] [] []). rewrite app_nil_r. split_and!; [done|done|].
    apply insert_logged_nothing.
Qed.
End Signal.

Definition batch_storable (b : Batch) : Prop :=
  match b with Spans v => storable v | Metrics v => storable v | Logs v => storable v | Scores v => storable v end.

(** The laws of adding rows to one component. *)
Ltac solve_add :=
  try done; intros; repeat match goal with d : Decoded |- _ => destruct d end; unfold decoded_rows in *;
  cbn; rewrite ?app_nil_r, <-?app_assoc; cbn; try done; by case_match; simplify_eq.

(** C8: What an insert logs the flusher's sink will decode. From any state the
    system can reach, and whether or not the free-space guard lets it append, an
    insert takes the system to a reachable state whose acknowledged records grew
    by records that decode to rows of the batch, none twice: all of them, those
    of each workspace in their order, when it answers Ok; and none when it asks
    for a retry of a batch of one workspace. It does not panic. *)
Theorem acknowledged_rows_logged (s0 : Σ) fs wal ck sink hist failures
    (batch : IngestBatch Span MetricRecord LogRecord EvaluationScore) env fs' wal' res :
  reach s0 (mkSys fs wal ck sink) hist failures → (∀ n, env_ok (ie_append env n)) → i64_range (ie_now_ns env) →
  offset_counter wal + batch_len (ib_payload batch) ≤ u64_max →
  w_segment_id (wal_writer wal) + batch_len (ib_payload batch) ≤ u64_max → batch_storable (ib_payload batch) →
  wal_insert_batch show_append_error fs wal batch env = (fs', wal', res) →
  ∃ recs d, reach s0 (mkSys fs' wal' ck sink) (hist ++ recs) failures ∧ decode_records recs = Ok d ∧
    insert_logged (batch_rows (ib_payload batch)) res (decoded_rows d).
Proof.
  intros Hreach Henv Hnow Hoff Hseg Hst Hins. unfold wal_insert_batch in Hins.
  destruct (ib_payload batch) as [v|v|v|v]; cbn [batch_rows batch_len batch_storable] in *.
  - eapply (append_batches_logged Trace SpanRow (λ d v, mkDecoded (d_spans d ++ v) (d_metrics d) (d_logs d) (d_scores d))); solve_add.
  - eapply (append_batches_logged Metric MetricRow (λ d v, mkDecoded (d_spans d) (d_metrics d ++ v) (d_logs d) (d_scores d))); solve_add.
  - eapply (append_batches_logged Log LogRow (λ d v, mkDecoded (d_spans d) (d_metrics d) (d_logs d ++ v) (d_scores d))); solve_add.
  - eapply (append_batches_logged Score ScoreRow (λ d v, mkDecoded (d_spans d) (d_metrics d) (d_logs d) (d_scores d ++ v))); solve_add.
Qed.
End Properties.

(** ** Witnesses *)

Section Witnesses.
Local Existing Instance crc32_concrete.
Local Existing Instance sample_parser.
Local Existing Instance list_sink.

(** Logs are integers, of two workspaces; their JSON is their bytes. *)
#[local] Instance parity_telemetry : Telemetry Z :=
  {| workspace_of z := if Z.even z then "w1" else "w2"; service_of _ := "svc"; ts_of z := z |}.
#[local] Instance bytes_to_json : ToJson Z := λ z, Ok (be_bytes 8 z).
#[local] Instance bytes_from_json : FromJson Z := λ l, Some (be_value l).

Definition sample_batch : IngestBatch Z Z Z Z := batch_logs [5; 2; 4; 3].
Definition sample_insert_env : InsertEnv := mkInsertEnv 0 (Some 1000) 1700000000000000000 (λ _, sample_env) (λ _, Notified).
Definition sample_insert : WalFs * Wal * option (outcome WriteError unit) :=
  wal_insert_batch (λ _, "") state3.1 state3.2 sample_batch sample_insert_env.

Lemma acknowledged_rows_logged_witness : ∃ recs d,
  reach (mkListSink [] []) (mkSys sample_insert.1.1 sample_insert.1.2 None (mkListSink [] [])) (hist3 ++ recs) 0 ∧
  decode_records recs = Ok d ∧ decoded_rows d ≡ₚ map LogRow [5; 2; 4; 3] ∧
  filter (λ r, row_workspace r = "w2") (decoded_rows d) = map LogRow [5; 3].
Proof.
  destruct (acknowledged_rows_logged (λ _, "") (mkListSink [] []) state3.1 state3.2 None (mkListSink [] []) hist3 0 sample_batch
    sample_insert_env sample_insert.1.1 sample_insert.1.2 (Some (Ok ()))) as (recs & d & Hr & Hd & _ & Hok & _).
  - exact reach3.
  - intros n. split; reflexivity.
  - vm_compute. split; discriminate.
  - vm_compute. discriminate.
  - vm_compute. discriminate.
  - split; [|split].
    + apply (bool_decide_unpack _). vm_compute. exact I.
    + apply (bool_decide_unpack _). vm_compute. exact I.
    + vm_compute. discriminate.
  - vm_compute. reflexivity.
  - exists recs, d. destruct (Hok eq_refl) as [Hp Hf]. split; [exact Hr|]. split; [exact Hd|]. split; [exact Hp|].
    rewrite (Hf "w2"). vm_compute. reflexivity.
Defined.
End Witnesses.
