(* ===== verification/Compactor.v ===== *)
(** The compactor: [zradar-parquet/src/compactor.rs].

    One scan merges, per workspace, signal and hour, the small local files into
    one, and marks the originals deleted. The two are separate writes: what a
    query sees in between, and after a failure of the second, is the subject
    of the theorems. *)

From stdpp Require Import base gmap sorting list strings.
From Stdlib Require Import Ascii.
From S2P Require Import Prelude FileList WriteBuffer TelemetryWriter ParquetWriter.

(** [WorkspaceId::to_string], which the uuid parser reads back. *)
Class UuidText := {
  #[global] uuid_parser :: UuidParser;
  uuid_to_string : Z → string;
  parse_uuid_to_string w : parse_uuid (uuid_to_string w) = Some w;
}.

Section Compactor.
Context `{Chrono} `{UuidText} {R : Type}.
Abbreviation St := (Store R).

Inductive CompactError := ReadFailed | ConcatFailed | WriteMergedFailed (e : BatchWriteError) | MarkDeletedFailed.

(** What a group's merge finds: whether the batches concatenate (equal
    schemas), the call of the writer, the failure of [mark_deleted], if any,
    with whether the database applied it, and the clock. *)
Record CompactEnv := mkCompactEnv {
  ce_concat_ok : bool;
  ce_write : WriteEnv;
  ce_mark_fail : option bool;
  ce_now_us : Z;
}.

(** [read_parquet_files]: the rows of the files, all of which must open. *)
Definition read_file (st : St) (path : string) : outcome CompactError (list R) :=
  match disk st !! path with Some (Whole rows) => Ok rows | _ => Err ReadFailed end.

Definition read_parquet_files (st : St) (paths : list string) : outcome CompactError (list R) :=
  ofold (λ acc path, rows ← read_file st path; mret (acc ++ rows)) [] paths.

(** [compact_group]; [files] is not empty. *)
Definition compact_group (st : St) (workspace_id signal_type : string) (files : list FileListEntry)
    (env : CompactEnv) : St * outcome CompactError unit :=
  match files with
  | [] => (st, Panic)
  | first :: _ =>
      match read_parquet_files st (map fe_file_path files) with
      | Ok [] => (st, Ok ())
      | Ok merged =>
          if negb (ce_concat_ok env) then (st, Err ConcatFailed)
          else
            let min_ts_us := min_of (map fe_min_ts files) in
            let max_ts_us := max_of (map fe_max_ts files) in
            let '(st, res) := write_record_batch st workspace_id (fe_stream_name first) signal_type merged
              (i64_wrap (min_ts_us * 1000)) (i64_wrap (max_ts_us * 1000)) (zlen merged) (ce_write env) in
            match res with
            | Ok _ =>
                let ids := map fe_id files in
                let marked := with_db st (mark_deleted (st_db st) ids (ce_now_us env)) in
                match ce_mark_fail env with
                | None => (marked, Ok ())
                | Some applied => (if applied then marked else st, Err MarkDeletedFailed)
                end
            | Err e => (st, Err (WriteMergedFailed e))
            | Panic => (st, Panic)
            end
      | Err e => (st, Err e)
      | Panic => (st, Panic)
      end
  end.

(** The small files of a group. *)
Definition small_files (max_file_size_bytes : Z) (files : list FileListEntry) : list FileListEntry :=
  filter (λ f, fe_compressed_size f < max_file_size_bytes) files.

(** The loop of [compact_all] over the groups; a failed group is skipped.
    [env_of] is what the n-th merge finds; the count is the merged groups. *)
Fixpoint compact_groups (min_files max_file_size_bytes : Z) (env_of : nat → CompactEnv) (n : nat)
    (groups : list (list FileListEntry)) (st : St) : St * nat :=
  match groups with
  | [] => (st, O)
  | files :: groups =>
      match files with
      | [] => compact_groups min_files max_file_size_bytes env_of n groups st
      | first :: _ =>
          let small := small_files max_file_size_bytes files in
          if zlen small <? min_files then compact_groups min_files max_file_size_bytes env_of n groups st
          else
            let '(st, res) := compact_group st (uuid_to_string (fe_workspace_id first)) (fe_signal_type first)
                                small (env_of n) in
            let '(st, merged) := compact_groups min_files max_file_size_bytes env_of (S n) groups st in
            (st, if is_ok res then S merged else merged)
      end
  end.

(** [compact_all] at time [now_us]; [now - interval] wraps, the interval in
    microseconds saturates. *)
Definition compact_all (check_interval_secs min_files max_file_size_bytes : Z) (env_of : nat → CompactEnv)
    (now_us : Z) (st : St) : St * nat :=
  let cutoff_us := i64_wrap (now_us - i64_saturating_mul check_interval_secs 1000000) in
  compact_groups min_files max_file_size_bytes env_of 0 (query_compactable_groups (st_db st) cutoff_us) st.

(** ** Specification *)

Definition files_rows (st : St) (files : list FileListEntry) : list R :=
  concat (map (entry_rows st) files).

(** Files a scan may hand to a merge: distinct live local rows of the table. *)
Definition mergeable (st : St) (files : list FileListEntry) : Prop :=
  files ≠ [] ∧ NoDup files ∧
  Forall (λ e, e ∈ rows_list (st_db st) ∧ fe_deleted e = false ∧ fe_location e = "local") files.

(** The job the writer gets for a group. *)
Definition merge_job (workspace_id signal_type : string) (files : list FileListEntry) (merged : list R) : WriteJob R :=
  let min_ts_ns := i64_wrap (min_of (map fe_min_ts files) * 1000) in
  let max_ts_ns := i64_wrap (max_of (map fe_max_ts files) * 1000) in
  mkWriteJob workspace_id (match files with f :: _ => fe_stream_name f | [] => "" end) signal_type merged
    min_ts_ns (Z.quot min_ts_ns 1000) (Z.quot max_ts_ns 1000) (zlen merged).

(** ** Lemmas *)

Lemma entry_rows_local (st : St) e rows : fe_deleted e = false → fe_location e = "local" →
  disk st !! fe_file_path e = Some (Whole rows) → entry_rows st e = rows.
Proof.
  intros Hd Hl Hp. unfold entry_rows, entry_data. rewrite Hd, Hl, decide_False by done. by rewrite Hp.
Qed.

Lemma read_mergeable (st : St) files acc : store_ok st →
  Forall (λ e, e ∈ rows_list (st_db st) ∧ fe_deleted e = false ∧ fe_location e = "local") files →
  ofold (λ acc path, rows ← read_file st path; mret (acc ++ rows)) acc (map fe_file_path files) =
    Ok (acc ++ files_rows st files).
Proof.
  intros [_ Hok] Hf. revert acc. induction Hf as [|e files (Hin & Hd & Hl) _ IH]; intros acc.
  - cbn. by rewrite app_nil_r.
  - apply elem_of_rows_list in Hin as [id He]. destruct (Hok id e He) as [_ Hw].
    destruct (Hw Hd) as [rows Hr]. unfold entry_data in Hr. rewrite Hl, decide_False in Hr by done.
    cbn [map ofold].
    assert (read_file st (fe_file_path e) = Ok rows) as -> by (unfold read_file; by rewrite Hr).
    ostep. ostep. rewrite IH. unfold files_rows. cbn [map concat].
    rewrite (entry_rows_local st e rows) by done. by rewrite <-app_assoc.
Qed.

(** Marking is pointwise on the rows. *)
Definition mark (ids : list Z) (now : Z) (e : FileListEntry) : FileListEntry :=
  if decide (fe_id e ∈ ids) then set_deleted now e else e.

Lemma mark_deleted_rows db ids now : db_wf db →
  rows_list (mark_deleted db ids now) ≡ₚ map (mark ids now) (rows_list db).
Proof.
  intros Hwf. assert (file_rows (mark_deleted db ids now) = mark ids now <$> file_rows db) as Hm.
  { apply map_eq. intros id. rewrite mark_deleted_lookup, lookup_fmap.
    destruct (file_rows db !! id) as [e|] eqn:He; [|by case_decide]. destruct (Hwf id e He) as [Hid _].
    cbn. unfold mark. rewrite Hid. by case_decide. }
  unfold rows_list. rewrite Hm, map_to_list_fmap. apply reflexive_eq.
  change (map (mark ids now)) with (fmap (M := list) (mark ids now)). rewrite <-!list_fmap_compose.
  apply list_fmap_ext. by intros ? [? ?] ?.
Qed.

Lemma entry_rows_marked (st : St) ids now e :
  entry_rows st (mark ids now e) = if decide (fe_id e ∈ ids) then [] else entry_rows st e.
Proof. unfold mark. by case_decide. Qed.

Lemma concat_permutation {A B : Type} (f : A → list B) l1 l2 :
  l1 ≡ₚ l2 → concat (map f l1) ≡ₚ concat (map f l2).
Proof. induction 1; cbn; [done|by f_equiv|rewrite !app_assoc; f_equiv; apply Permutation_app_comm|by etrans]. Qed.

(** Marking some rows deleted hides exactly their rows. *)
Lemma mark_deleted_visible (st : St) files now : store_ok st → mergeable st files →
  visible st ≡ₚ files_rows st files ++ visible (with_db st (mark_deleted (st_db st) (map fe_id files) now)).
Proof.
  intros [Hwf _] (_ & Hnd & Hf). unfold visible. cbn [st_db with_db].
  set (ids := map fe_id files).
  change (entry_rows (with_db st _)) with (entry_rows st).
  rewrite (concat_permutation (entry_rows st) _ _ (mark_deleted_rows _ ids now Hwf)).
  assert (files ≡ₚ filter (λ e, fe_id e ∈ ids) (rows_list (st_db st))) as Hsel.
  { apply NoDup_Permutation; [done|apply NoDup_filter, NoDup_rows_list; done|]. intros e.
    rewrite list_elem_of_filter. rewrite Forall_forall in Hf. split.
    - intros Hin. split; [|by apply Hf]. apply list_elem_of_fmap. by exists e.
    - intros [[e' [Heq He']]%list_elem_of_fmap Hin]. destruct (Hf e' He') as [Hin' _].
      by rewrite (rows_list_inj (st_db st) e e'). }
  unfold files_rows. rewrite (concat_permutation (entry_rows st) _ _ Hsel). clear Hsel Hf Hnd.
  induction (rows_list (st_db st)) as [|e l IH]; [done|]. rewrite filter_cons. cbn [map concat].
  rewrite entry_rows_marked. case_decide; cbn [map concat app].
  - by rewrite <-app_assoc, <-IH.
  - rewrite IH. rewrite !app_assoc. f_equiv. apply Permutation_app_comm.
Qed.

Lemma store_ok_marked (st : St) ids now : store_ok st → store_ok (with_db st (mark_deleted (st_db st) ids now)).
Proof.
  intros [Hwf Hok]. split; [by apply db_wf_mark_deleted|]. intros id e. cbn [st_db with_db].
  rewrite mark_deleted_lookup. case_decide; [|apply Hok].
  intros (e' & He' & ->)%fmap_Some. split; [by apply (Hok id e')|done].
Qed.

Lemma group_members (st : St) cutoff g e : store_ok st → g ∈ query_compactable_groups (st_db st) cutoff → e ∈ g →
  e ∈ rows_list (st_db st) ∧ fe_deleted e = false ∧ fe_location e = "local".
Proof.
  intros _ Hg He. destruct (postgres_groups_spec _ _ _ Hg) as (k & Hp & _). rewrite Hp in He.
  unfold candidates in He. rewrite !list_elem_of_filter in He. destruct He as (_ & Hc & Hin).
  unfold compactable in Hc. apply andb_true_iff in Hc as [[Hd%negb_true_iff Hl%bool_decide_eq_true]%andb_true_iff _].
  done.
Qed.

(** What a scan hands to a merge is mergeable. *)
Lemma small_group_mergeable (st : St) cutoff max g : store_ok st →
  g ∈ query_compactable_groups (st_db st) cutoff → small_files max g ≠ [] → mergeable st (small_files max g).
Proof.
  intros Hok Hg Hne. split; [done|]. split.
  - apply NoDup_filter. destruct (postgres_groups_spec _ _ _ Hg) as (k & Hp & _). rewrite Hp.
    apply NoDup_filter, NoDup_filter, NoDup_rows_list. by destruct Hok.
  - apply Forall_forall. intros e [_ He]%list_elem_of_filter. by eapply group_members.
Qed.

Lemma files_rows_app (st : St) l1 l2 : files_rows st (l1 ++ l2) = files_rows st l1 ++ files_rows st l2.
Proof. unfold files_rows. by rewrite map_app, concat_app. Qed.

Lemma mergeable_written (st : St) files job env : store_ok st → fresh_paths st job env → mergeable st files →
  mergeable (store_written st job env) files ∧
  files_rows (store_written st job env) files = files_rows st files.
Proof.
  intros Hok Hfresh (Hne & Hnd & Hf). split; [split_and!; [done|done|]|].
  - eapply Forall_impl; [exact Hf|]. intros e (Hin & ? & ?). split; [|done].
    by apply store_written_keeps.
  - unfold files_rows. f_equal. apply map_ext_in. intros e Hin%list_elem_of_In.
    rewrite Forall_forall in Hf. destruct (Hf e Hin) as (Hr & _). by apply store_written_keeps.
Qed.

(** The branches of a merge. *)
Lemma compact_group_cases (st : St) w sig files env : store_ok st → mergeable st files →
  let job := merge_job (uuid_to_string w) sig files (files_rows st files) in
  let '(st1, res) := write_batch st job (ce_write env) in
  compact_group st (uuid_to_string w) sig files env =
    if decide (files_rows st files = []) then (st, Ok ())
    else if negb (ce_concat_ok env) then (st, Err ConcatFailed)
    else match res with
         | Ok _ =>
             let marked := with_db st1 (mark_deleted (st_db st1) (map fe_id files) (ce_now_us env)) in
             match ce_mark_fail env with
             | None => (marked, Ok ())
             | Some applied => (if applied then marked else st1, Err MarkDeletedFailed)
             end
         | Err e => (st1, Err (WriteMergedFailed e))
         | Panic => (st1, Panic)
         end.
Proof.
  intros Hok (Hne & _ & Hf) job. destruct (write_batch st job (ce_write env)) as [st1 res] eqn:Hw.
  unfold compact_group. destruct files as [|first files]; [done|].
  unfold read_parquet_files. rewrite (read_mergeable st (first :: files) [] Hok Hf). cbn [app].
  destruct (files_rows st (first :: files)) as [|r rs] eqn:Hrs; [by rewrite decide_True|].
  rewrite decide_False by done. destruct (negb (ce_concat_ok env)); [done|].
  unfold write_record_batch. subst job. unfold merge_job in Hw. rewrite Hw. by destruct res.
Qed.

(** The outcomes of a merge, seen from the queries. *)
Lemma compact_group_visible (st : St) cutoff max g w sig env st' r :
  store_ok st → g ∈ query_compactable_groups (st_db st) cutoff → small_files max g ≠ [] →
  let files := small_files max g in
  fresh_paths st (merge_job (uuid_to_string w) sig files (files_rows st files)) (ce_write env) →
  compact_group st (uuid_to_string w) sig files env = (st', r) →
  store_ok st' ∧ r ≠ Panic ∧
  (r = Ok () → visible st' ≡ₚ visible st) ∧
  (visible st' ≡ₚ visible st ∨ visible st' ≡ₚ visible st ++ files_rows st files).
Proof.
  intros Hok Hg Hne files Hfresh Hc. pose proof (small_group_mergeable st cutoff max g Hok Hg Hne) as Hm.
  fold files in Hm. pose proof (compact_group_cases st w sig files env Hok Hm) as Hcases. cbn zeta in Hcases.
  set (job := merge_job _ _ _ _) in *.
  pose proof (write_batch_cases st job (ce_write env)) as Hw.
  destruct (write_batch_visible st job (ce_write env) Hok Hfresh) as [Hbefore Hafter].
  destruct (write_batch st job (ce_write env)) as [st1 res]. rewrite Hc in Hcases.
  case_decide; [simplify_eq; by auto|]. destruct (negb _); [simplify_eq; by auto|].
  destruct Hw as [(-> & -> & _)|(s & eff & _ & -> & [[Hin _]|[Hin _]])].
  - destruct (Hafter (store_written st job (ce_write env))) as [Hok1 Hv1]; [by right; left|].
    destruct (mergeable_written st files job (ce_write env) Hok Hfresh Hm) as [Hm1 Hr1].
    set (st1 := store_written st job (ce_write env)) in *.
    assert (visible (with_db st1 (mark_deleted (st_db st1) (map fe_id files) (ce_now_us env))) ≡ₚ visible st) as Hmk.
    { pose proof (mark_deleted_visible st1 files (ce_now_us env) Hok1 Hm1) as Hv.
      rewrite Hr1, Hv1 in Hv. change (wj_rows job) with (files_rows st files) in Hv.
      rewrite (Permutation_app_comm (visible st)) in Hv. apply Permutation_app_inv_l in Hv. by symmetry. }
    pose proof (store_ok_marked st1 (map fe_id files) (ce_now_us env) Hok1).
    destruct (ce_mark_fail env) as [[]|]; simplify_eq; split_and!; auto; done.
  - destruct (Hbefore st1 Hin) as [Hok1 Hv1]. simplify_eq. split_and!; try done. left. by rewrite Hv1.
  - destruct (Hafter st1 Hin) as [Hok1 Hv1]. simplify_eq. split_and!; try done. by right.
Qed.

(** ** Theorems *)

(** C16: A merge of a group of the scan conserves the visible rows: after a success
    exactly those of before are visible, the originals being replaced by the
    merged file; after a failure at any point they are still visible, at worst
    with the group's rows a second time. Nothing is ever lost. *)
Theorem compaction_conserves_rows (st : St) cutoff max g w sig env st' r :
  store_ok st → g ∈ query_compactable_groups (st_db st) cutoff → small_files max g ≠ [] →
  let files := small_files max g in
  fresh_paths st (merge_job (uuid_to_string w) sig files (files_rows st files)) (ce_write env) →
  compact_group st (uuid_to_string w) sig files env = (st', r) →
  store_ok st' ∧ r ≠ Panic ∧
  (r = Ok () → visible st' ≡ₚ visible st) ∧
  (visible st' ≡ₚ visible st ∨ visible st' ≡ₚ visible st ++ files_rows st files).
Proof. apply compact_group_visible. Qed.

(** One scan whose merge is written but whose originals stay unmarked. *)
Inductive failed_scans : nat → St * list FileListEntry → St * list FileListEntry → Prop :=
| ScansNone s : failed_scans 0 s s
| ScansOne n st files w sig env e s' :
    let job := merge_job (uuid_to_string w) sig files (files_rows st files) in
    fresh_paths st job (ce_write env) → files_rows st files ≠ [] →
    ce_concat_ok env = true → we_fail (ce_write env) = None → ce_mark_fail env = Some false →
    file_rows (st_db (compact_group st (uuid_to_string w) sig files env).1) !! next_file_id (st_db st) = Some e →
    failed_scans n ((compact_group st (uuid_to_string w) sig files env).1, files ++ [e]) s' →
    failed_scans (S n) (st, files) s'.

Lemma failed_scan_step (st : St) files w sig env e :
  let job := merge_job (uuid_to_string w) sig files (files_rows st files) in
  store_ok st → mergeable st files → fresh_paths st job (ce_write env) → files_rows st files ≠ [] →
  ce_concat_ok env = true → we_fail (ce_write env) = None → ce_mark_fail env = Some false →
  let '(st', r) := compact_group st (uuid_to_string w) sig files env in
  file_rows (st_db st') !! next_file_id (st_db st) = Some e →
  r = Err MarkDeletedFailed ∧ store_ok st' ∧ mergeable st' (files ++ [e]) ∧
  files_rows st' (files ++ [e]) = files_rows st files ++ files_rows st files ∧
  visible st' ≡ₚ visible st ++ files_rows st files.
Proof.
  intros job Hok Hm Hfresh Hne Hcat Hfail Hmark.
  pose proof (compact_group_cases st w sig files env Hok Hm) as Hc. cbn zeta in Hc. fold job in Hc.
  pose proof (write_batch_cases st job (ce_write env)) as Hw.
  destruct (write_batch_visible st job (ce_write env) Hok Hfresh) as [_ Hafter].
  destruct (write_batch st job (ce_write env)) as [st1 res].
  destruct Hw as [(-> & -> & _)|(? & ? & ? & _)]; [|congruence].
  rewrite Hc, decide_False, Hcat, Hmark by done. cbn [negb]. intros He.
  destruct (Hafter (store_written st job (ce_write env))) as [Hok1 Hv1]; [by right; left|].
  destruct (mergeable_written st files job (ce_write env) Hok Hfresh Hm) as [Hm1 Hr1].
  cbn in He. rewrite lookup_insert_eq in He. injection He as <-.
  set (st1 := store_written st job (ce_write env)) in *. set (e := mkFileListEntry _ _ _ _ _ _ _ _ _ _ _ _ _ _ _).
  assert (e ∈ rows_list (st_db st1)) as Hin.
  { apply elem_of_rows_list. exists (next_file_id (st_db st)). cbn. by rewrite lookup_insert_eq. }
  assert (entry_rows st1 e = files_rows st files) as Her.
  { apply entry_rows_local; [done|done|]. subst st1. cbn. by rewrite !lookup_insert_eq. }
  split_and!; [done|done| | |exact Hv1].
  - destruct Hm1 as (_ & Hnd & Hf). split; [by destruct files|]. split.
    + apply NoDup_app. split; [done|]. split; [|apply NoDup_singleton].
      intros x Hx Hxe%list_elem_of_singleton. subst x. destruct Hm as (_ & _ & Hf0). rewrite Forall_forall in Hf0.
      destruct (Hf0 e Hx) as [[id Hid]%elem_of_rows_list _]. destruct Hok as [Hwf _].
      destruct (Hwf id e Hid). cbn in *. lia.
    + apply Forall_app. split; [done|]. by constructor.
  - rewrite files_rows_app, Hr1. f_equal. unfold files_rows at 1. cbn [map concat]. by rewrite Her, app_nil_r.
Qed.

(** Scans that write the merged file but fail to mark its sources deleted
    compound: the next scan merges originals and merged file together, so after
    [n] of them queries see the group's rows [2 ^ n] times. *)
Theorem failed_scans_double_rows n st files st' files' :
  failed_scans n (st, files) (st', files') → store_ok st → mergeable st files →
  store_ok st' ∧ zlen (files_rows st' files') = 2 ^ Z.of_nat n * zlen (files_rows st files) ∧
  zlen (visible st') = zlen (visible st) + (2 ^ Z.of_nat n - 1) * zlen (files_rows st files).
Proof.
  intros Hrun. remember (st, files) as s eqn:Hs. remember (st', files') as s' eqn:Hs'.
  revert st files Hs. induction Hrun as [s|n st0 files0 w sig env e s' job Hfresh Hne Hcat Hfail Hmark He _ IH];
    intros st files Hs Hok Hm; simplify_eq.
  - split; [done|]. cbn. lia.
  - pose proof (failed_scan_step st files w sig env e Hok Hm Hfresh Hne Hcat Hfail Hmark) as Hstep.
    destruct (compact_group st (uuid_to_string w) sig files env) as [st1 r]. cbn [fst] in *.
    destruct (Hstep He) as (_ & Hok1 & Hm1 & Hr1 & Hv1).
    destruct (IH eq_refl st1 (files ++ [e]) eq_refl Hok1 Hm1) as (Hok' & Hr' & Hv').
    split; [done|]. rewrite Hr', Hv', Hr1, Hv1, !length_app, Nat2Z.inj_succ, Z.pow_succ_r by lia. lia.
Qed.
End Compactor.

(** ** Witnesses *)

(** Numbers written in unary after their sign, as a concrete id syntax. *)
Fixpoint ones (n : nat) : string := match n with O => "" | S n => String "1"%char (ones n) end.
Definition unary_id (w : Z) : string := (if w <? 0 then String "-"%char else String "+"%char) (ones (Z.to_nat (Z.abs w))).
Definition parse_unary (s : string) : option Z :=
  match s with
  | EmptyString => None
  | String c t => Some (if decide (c = "-"%char) then - Z.of_nat (String.length t) else Z.of_nat (String.length t))
  end.

Lemma parse_unary_id w : parse_unary (unary_id w) = Some w.
Proof.
  assert (∀ n, String.length (ones n) = n) as Hl by (induction n; cbn; congruence).
  unfold unary_id, parse_unary. destruct (Z.ltb_spec w 0);
    [rewrite decide_True by done|rewrite decide_False by done]; rewrite Hl, Z2Nat.id by lia; f_equal; lia.
Qed.

Definition uuid_concrete : UuidText :=
  {| uuid_parser := parse_unary; uuid_to_string := unary_id; parse_uuid_to_string := parse_unary_id |}.

Section Witnesses.
Local Existing Instance chrono_concrete.
Local Existing Instance uuid_concrete.

Definition two_jobs (rows : list Z) : WriteJob Z := mkWriteJob (unary_id 3) "default" "logs" rows 5000 5 6 2.

(** A store with two small files of one group. *)
Definition one_file : Store Z := store_written empty_store (two_jobs [10; 11]) (sample_write_env "u1" None).
Definition two_files : Store Z := store_written one_file (two_jobs [12]) (sample_write_env "u2" None).

Lemma one_file_ok : store_ok one_file.
Proof.
  refine (proj1 (proj2 (write_batch_visible empty_store (two_jobs [10; 11]) (sample_write_env "u1" None)
    empty_store_ok _) _ _)).
  - apply fresh_pathsb_correct. vm_compute. reflexivity.
  - right. left.
Defined.

Lemma two_files_ok : store_ok two_files.
Proof.
  refine (proj1 (proj2 (write_batch_visible one_file (two_jobs [12]) (sample_write_env "u2" None)
    one_file_ok _) _ _)).
  - apply fresh_pathsb_correct. vm_compute. reflexivity.
  - right. left.
Defined.

Definition sample_group : list FileListEntry := rows_list (st_db two_files).
Definition sample_compact_env (mark_fail : option bool) : CompactEnv :=
  mkCompactEnv true (sample_write_env "u3" None) mark_fail 200.

Lemma compaction_conserves_rows_witness :
  visible (compact_group two_files (unary_id 3) "logs" (small_files 100 sample_group)
    (sample_compact_env None)).1 ≡ₚ visible two_files.
Proof.
  destruct (compaction_conserves_rows two_files 150 100 sample_group 3 "logs" (sample_compact_env None)
    (compact_group two_files (unary_id 3) "logs" (small_files 100 sample_group) (sample_compact_env None)).1 (Ok ()))
    as (_ & _ & Hv & _).
  - exact two_files_ok.
  - apply (bool_decide_unpack _). vm_compute. exact I.
  - vm_compute. discriminate.
  - apply fresh_pathsb_correct. vm_compute. reflexivity.
  - vm_compute. reflexivity.
  - exact (Hv eq_refl).
Defined.

Lemma failed_scans_double_rows_witness : ∃ st' files',
  failed_scans 1 (two_files, sample_group) (st', files') ∧ zlen (visible st') = 6.
Proof.
  set (st' := (compact_group two_files (unary_id 3) "logs" sample_group (sample_compact_env (Some false))).1).
  destruct (file_rows (st_db st') !! next_file_id (st_db two_files)) as [e|] eqn:He;
    [|vm_compute in He; discriminate].
  assert (failed_scans 1 (two_files, sample_group) (st', sample_group ++ [e])) as Hrun.
  { apply (ScansOne 0 two_files sample_group 3 "logs" (sample_compact_env (Some false)) e).
    - apply fresh_pathsb_correct. vm_compute. reflexivity.
    - vm_compute. discriminate.
    - reflexivity.
    - reflexivity.
    - reflexivity.
    - exact He.
    - apply ScansNone. }
  exists st', (sample_group ++ [e]). split; [exact Hrun|].
  destruct (failed_scans_double_rows 1 two_files sample_group st' (sample_group ++ [e]) Hrun two_files_ok)
    as (_ & _ & Hv).
  - split; [vm_compute; discriminate|]. split; [apply (bool_decide_unpack _); vm_compute; exact I|].
    apply (bool_decide_unpack _). vm_compute. exact I.
  - rewrite Hv. vm_compute. reflexivity.
Defined.
End Witnesses.
