(* ===== verification/Lease.v ===== *)
(** File read leases: [zradar-traits/src/file_lease.rs].

    A reference count per file id, incremented by readers and decremented when
    a guard is dropped. A drop takes two locked steps, the decrement and the
    removal of a zero entry, between which other threads run. *)

From stdpp Require Import base gmap list.
From S2P Require Import Prelude.

(** [FileLeaseRegistry]. *)
Record FileLeaseRegistry := mkLeases { counts : gmap Z Z }.

Definition leases_new : FileLeaseRegistry := mkLeases ∅.

(** [*self.counts.entry(id).or_insert(0) += 1]. *)
Definition acquire_one (reg : FileLeaseRegistry) (id : Z) : FileLeaseRegistry :=
  mkLeases (<[id := u64_wrap (default 0 (counts reg !! id) + 1)]> (counts reg)).

(** [acquire]: one guard per id, in the order of the ids. *)
Definition acquire (reg : FileLeaseRegistry) (file_ids : list Z) : FileLeaseRegistry * list Z :=
  (foldl acquire_one reg file_ids, file_ids).

Definition is_leased (reg : FileLeaseRegistry) (id : Z) : bool :=
  match counts reg !! id with Some c => 0 <? c | None => false end.

Definition active_lease_count (reg : FileLeaseRegistry) : Z :=
  zlen (filter (λ kv, 0 < kv.2) (map_to_list (counts reg))).

(** The two steps of [release]: the decrement, with whether to remove, and
    [remove_if(.., |_, count| *count == 0)]. *)
Definition release_decrement (reg : FileLeaseRegistry) (id : Z) : FileLeaseRegistry * bool :=
  match counts reg !! id with
  | Some c => let v := u64_saturating_sub c 1 in (mkLeases (<[id := v]> (counts reg)), v =? 0)
  | None => (reg, false)
  end.

Definition release_remove (reg : FileLeaseRegistry) (id : Z) : FileLeaseRegistry :=
  match counts reg !! id with
  | Some 0 => mkLeases (delete id (counts reg))
  | _ => reg
  end.

Definition release_lease (reg : FileLeaseRegistry) (id : Z) : FileLeaseRegistry :=
  let '(reg, should_remove) := release_decrement reg id in
  if should_remove then release_remove reg id else reg.

(** ** The registry under concurrent guards *)

(** [ls_held]: the ids of the guards alive; [ls_removing]: drops between their
    two steps. *)
Record LeaseState := mkLeaseState {
  ls_reg : FileLeaseRegistry;
  ls_held : list Z;
  ls_removing : list Z;
}.

Definition lease_init : LeaseState := mkLeaseState leases_new [] [].

Inductive LeaseEvent := Acquire (ids : list Z) | DropGuard (id : Z) | FinishDrop (id : Z).

Fixpoint remove_one (id : Z) (l : list Z) : list Z :=
  match l with
  | [] => []
  | x :: l => if decide (x = id) then l else x :: remove_one id l
  end.

Definition lease_step (s : LeaseState) (e : LeaseEvent) : option LeaseState :=
  match e with
  | Acquire ids =>
      let '(reg, guards) := acquire (ls_reg s) ids in
      Some (mkLeaseState reg (guards ++ ls_held s) (ls_removing s))
  | DropGuard id =>
      if bool_decide (id ∈ ls_held s) then
        let '(reg, should_remove) := release_decrement (ls_reg s) id in
        Some (mkLeaseState reg (remove_one id (ls_held s))
                (if should_remove then id :: ls_removing s else ls_removing s))
      else None
  | FinishDrop id =>
      if bool_decide (id ∈ ls_removing s)
      then Some (mkLeaseState (release_remove (ls_reg s) id) (ls_held s) (remove_one id (ls_removing s)))
      else None
  end.

Fixpoint lease_run (s : LeaseState) (es : list LeaseEvent) : option LeaseState :=
  match es with
  | [] => Some s
  | e :: es => match lease_step s e with Some s => lease_run s es | None => None end
  end.

(** ** Specification *)

Definition occurrences (id : Z) (l : list Z) : Z := zlen (filter (λ x, x = id) l).

(** Every count is the number of guards alive, and an entry is zero only while
    a drop is about to remove it. *)
Definition lease_inv (s : LeaseState) : Prop :=
  ∀ id, default 0 (counts (ls_reg s) !! id) = occurrences id (ls_held s) ∧
    (counts (ls_reg s) !! id = Some 0 → id ∈ ls_removing s).

(** ** Lemmas *)

Lemma occurrences_nonneg id l : 0 ≤ occurrences id l.
Proof. unfold occurrences. lia. Qed.

Lemma occurrences_le id l : occurrences id l ≤ zlen l.
Proof. unfold occurrences. pose proof (length_filter (λ x, x = id) l). lia. Qed.

Lemma occurrences_cons id x l : occurrences id (x :: l) = (if decide (x = id) then 1 else 0) + occurrences id l.
Proof. unfold occurrences. rewrite filter_cons. case_decide; cbn [length]; lia. Qed.

Lemma occurrences_app id l1 l2 : occurrences id (l1 ++ l2) = occurrences id l1 + occurrences id l2.
Proof. unfold occurrences. rewrite filter_app, length_app. lia. Qed.

Lemma occurrences_pos id l : 0 < occurrences id l ↔ id ∈ l.
Proof.
  induction l as [|x l IH]; [split; [done|by intros ?%not_elem_of_nil]|].
  rewrite occurrences_cons, elem_of_cons. pose proof (occurrences_nonneg id l).
  case_decide; split; intros; [by left|lia|right; apply IH; lia|].
  destruct H1 as [?|?%IH]; [congruence|lia].
Qed.

Lemma occurrences_remove id x l : x ∈ l →
  occurrences id (remove_one x l) = occurrences id l - (if decide (x = id) then 1 else 0).
Proof.
  induction l as [|y l IH]; [by intros ?%not_elem_of_nil|]. intros Hin. cbn [remove_one].
  rewrite occurrences_cons. destruct (decide (y = x)) as [->|Hne]; [lia|].
  rewrite occurrences_cons, IH; [lia|]. apply elem_of_cons in Hin as [?|?]; [congruence|done].
Qed.

Lemma acquire_counts ids reg id : zlen ids + default 0 (counts reg !! id) ≤ u64_max →
  0 ≤ default 0 (counts reg !! id) →
  default 0 (counts (foldl acquire_one reg ids) !! id) = occurrences id ids + default 0 (counts reg !! id) ∧
  (counts (foldl acquire_one reg ids) !! id = Some 0 → counts reg !! id = Some 0).
Proof.
  revert reg. induction ids as [|x ids IH]; intros reg Hmax Hnn; [done|]. cbn [foldl length] in *.
  assert (counts (acquire_one reg x) !! id = if decide (x = id) then Some (default 0 (counts reg !! id) + 1)
    else counts reg !! id) as Hx.
  { unfold acquire_one. cbn [counts]. rewrite lookup_insert. case_decide; [|done]. subst x. f_equal.
    unfold u64_wrap. apply Z.mod_small. unfold u64_max in Hmax. lia. }
  destruct (IH (acquire_one reg x)) as [Hc Hz]; rewrite Hx in *.
  - case_decide; cbn; lia.
  - case_decide; cbn; lia.
  - rewrite occurrences_cons. case_decide; cbn in *; split; [lia| |lia|done].
    intros H0. apply Hz in H0. injection H0. lia.
Qed.

Lemma lease_step_inv s e s' : lease_step s e = Some s' → zlen (ls_held s') ≤ u64_max →
  lease_inv s → lease_inv s'.
Proof.
  intros Hstep Hmax Hinv id. destruct (Hinv id) as [Hc Hz]. unfold lease_step in Hstep.
  destruct e as [ids|x|x].
  - cbn in Hstep. injection Hstep as <-. cbn [ls_reg ls_held ls_removing] in *.
    pose proof (occurrences_le id (ls_held s)). pose proof (occurrences_nonneg id (ls_held s)).
    rewrite length_app in Hmax.
    destruct (acquire_counts ids (ls_reg s) id) as [Hc' Hz']; [lia|lia|].
    rewrite Hc', occurrences_app, Hc. split; [done|]. intros. by apply Hz, Hz'.
  - case_bool_decide as Hin; [|done]. destruct (Hinv x) as [Hcx _]. apply occurrences_pos in Hin as Hpos.
    unfold release_decrement in Hstep. destruct (counts (ls_reg s) !! x) as [c|] eqn:Hx; [|cbn in Hcx; lia].
    cbn in Hcx. injection Hstep as <-. cbn [ls_reg ls_held ls_removing counts]. rewrite lookup_insert.
    rewrite occurrences_remove by done. case_decide as Hxi.
    + subst x. rewrite Hx in Hc. cbn in *. unfold u64_saturating_sub. split; [lia|]. intros [= H0].
      rewrite H0. cbn. by left.
    + split; [lia|]. intros H0. apply Hz in H0. case_match; [by right|done].
  - case_bool_decide as Hin; [|done]. injection Hstep as <-. cbn [ls_reg ls_held ls_removing].
    unfold release_remove.
    assert (∀ y, y ∈ ls_removing s → y ≠ x → y ∈ remove_one x (ls_removing s)) as Hkeep.
    { intros y Hy Hne. apply occurrences_pos. rewrite occurrences_remove, decide_False by done.
      apply occurrences_pos in Hy. lia. }
    destruct (counts (ls_reg s) !! x) as [[|c|c]|] eqn:Hx; cbn [counts].
    + rewrite lookup_delete. case_decide as Hxi.
      * subst x. rewrite Hx in Hc. cbn in *. split; [done|done].
      * split; [done|]. intros H0. apply Hkeep; [by apply Hz|congruence].
    + split; [done|]. intros H0. apply Hkeep; [by apply Hz|]. intros ->. congruence.
    + split; [done|]. intros H0. apply Hkeep; [by apply Hz|]. intros ->. congruence.
    + split; [done|]. intros H0. apply Hkeep; [by apply Hz|]. intros ->. congruence.
Qed.

(** Guards alive along a run; their number bounds the counters. *)
Fixpoint guards_below (max : Z) (s : LeaseState) (es : list LeaseEvent) : Prop :=
  zlen (ls_held s) ≤ max ∧
  match es with
  | [] => True
  | e :: es => match lease_step s e with Some s => guards_below max s es | None => True end
  end.

Lemma lease_run_inv es : ∀ s s', lease_run s es = Some s' → guards_below u64_max s es → lease_inv s → lease_inv s'.
Proof.
  induction es as [|e es IH]; intros s s' Hrun [Hle Hg] Hinv; cbn in Hrun; [by simplify_eq|].
  destruct (lease_step s e) as [s1|] eqn:Hs; [|done].
  eapply IH; [done|done|]. eapply lease_step_inv; [done| |done]. by destruct es; destruct Hg.
Qed.

(** ** Theorems *)

(** The registry is exact under any interleaving of acquisitions with the two
    steps of concurrent drops (fewer than [2^64] guards alive): a file counts
    as leased exactly while a guard for it is alive, and once no drop is in
    progress no entry is left for a file without guards. *)
Theorem lease_registry_exact es s id :
  lease_run lease_init es = Some s → guards_below u64_max lease_init es →
  (is_leased (ls_reg s) id = true ↔ id ∈ ls_held s) ∧
  (ls_removing s = [] → is_Some (counts (ls_reg s) !! id) → id ∈ ls_held s).
Proof.
  intros Hrun Hg. assert (lease_inv s) as Hinv.
  { eapply lease_run_inv; [done..|]. intros i. cbn. by rewrite lookup_empty. }
  destruct (Hinv id) as [Hc Hz]. rewrite <-occurrences_pos, <-Hc. unfold is_leased.
  destruct (counts (ls_reg s) !! id) as [c|]; cbn in *; split.
  - apply Z.ltb_lt.
  - intros Hr _. pose proof (occurrences_nonneg id (ls_held s)). destruct (decide (c = 0)) as [->|]; [|lia].
    specialize (Hz eq_refl). rewrite Hr in Hz. by apply not_elem_of_nil in Hz.
  - by split.
  - by intros _ [? ?].
Qed.

Lemma lease_registry_exact_witness :
  let es := [Acquire [7; 8]; Acquire [7]; DropGuard 8; DropGuard 7; Acquire [8]; FinishDrop 8; DropGuard 7] in
  ∃ s, lease_run lease_init es = Some s ∧ is_leased (ls_reg s) 8 = true ∧ is_leased (ls_reg s) 7 = false ∧
  (is_leased (ls_reg s) 8 = true ↔ 8 ∈ ls_held s).
Proof.
  intros es. eexists. split; [vm_compute; reflexivity|]. split; [reflexivity|]. split; [reflexivity|].
  refine (proj1 (lease_registry_exact es _ 8 _ _)); [vm_compute; reflexivity|].
  vm_compute. repeat split; discriminate.
Defined.
