(* ===== verification/Retention.v ===== *)
(** Retention: [zradar-retention/src/config.rs], [enforcer.rs] and
    [cleanup.rs], with the admin handlers of [api/src/retention/handlers.rs] and
    [api/src/settings/handlers.rs] that drive them.

    The cleanup job only marks rows deleted; their bytes are removed by the
    reclaimer, modelled in its own file. *)

From stdpp Require Import base gmap sorting list strings.
From S2P Require Import Prelude FileList WriteBuffer TelemetryWriter ParquetWriter Compactor Lease.

(** ** The configuration store *)

(** [RetentionConfigStore]: retention in days ([u32]) per workspace. *)
Record RetentionConfigStore := mkRetentionConfig {
  configs : gmap Z Z;
  global_default_days : Z;
}.

Definition retention_new (global_default_days : Z) : RetentionConfigStore := mkRetentionConfig ∅ global_default_days.

Definition config_upsert (c : RetentionConfigStore) (workspace_id days : Z) : RetentionConfigStore :=
  mkRetentionConfig (<[workspace_id := days]> (configs c)) (global_default_days c).

Definition get_effective_days (c : RetentionConfigStore) (workspace_id : Z) : Z :=
  default (global_default_days c) (configs c !! workspace_id).

(** The cutoffs; [days as i64 * 86_400] fits, the scaling and the difference
    wrap in a release build. *)
Definition get_cutoff_us (c : RetentionConfigStore) (workspace_id now_us : Z) : Z :=
  let secs := get_effective_days c workspace_id * 86400 in
  i64_wrap (now_us - i64_wrap (secs * 1000000)).

Definition get_cutoff_ns (c : RetentionConfigStore) (workspace_id now_ns : Z) : Z :=
  let secs := get_effective_days c workspace_id * 86400 in
  i64_wrap (now_ns - i64_wrap (secs * 1000000000)).

(** ** The query enforcer *)

Inductive EnforcementStrategy := Clamp | RejectQuery.

Record EnforcementResult := mkEnforcement {
  modified : bool;
  retention_days : Z;
  effective_start_ns : Z;
}.

Definition enforce_query (c : RetentionConfigStore) (strategy : EnforcementStrategy) (workspace_id now_ns : Z)
    (start_ns : option Z) : outcome Z (Z * EnforcementResult) :=
  let days := get_effective_days c workspace_id in
  let cutoff_ns := get_cutoff_ns c workspace_id now_ns in
  '(effective_start, modified) ←
    match start_ns with
    | None => Ok (cutoff_ns, false)
    | Some s =>
        if s <? cutoff_ns then
          match strategy with
          | Clamp => Ok (cutoff_ns, true)
          | RejectQuery => Err days
          end
        else Ok (s, false)
    end;
  mret (effective_start, mkEnforcement modified days effective_start).

(** ** The cleanup job *)

(** What a pass over one workspace finds: the clock, and whether
    [mark_deleted] succeeds. *)
Record CleanupEnv := mkCleanupEnv {
  cl_now_us : Z;
  cl_mark_ok : bool;
}.

Record CleanupStats := mkCleanupStats {
  files_marked : Z;
  projects_processed : Z;
  cleanup_errors : list Z;
}.

(** [by_workspace.entry(file.workspace_id).or_default().push(file)]. *)
Definition by_workspace (files : list FileListEntry) : gmap Z (list FileListEntry) := group_on fe_workspace_id files.

(** The body of the loop over the workspaces; a failed [mark_deleted] is noted
    and the next workspace goes on. *)
Definition cleanup_workspace (c : RetentionConfigStore) (env_of : Z → CleanupEnv)
    (st : FileDb * CleanupStats) (group : Z * list FileListEntry) : FileDb * CleanupStats :=
  let '(db, stats) := st in
  let '(workspace_id, files) := group in
  let env := env_of workspace_id in
  let cutoff_us := get_cutoff_us c workspace_id (cl_now_us env) in
  let expired := filter (λ f, fe_max_ts f ≤ cutoff_us) files in
  match expired with
  | [] => (db, stats)
  | _ =>
      if cl_mark_ok env
      then (mark_deleted db (map fe_id expired) (cl_now_us env),
            mkCleanupStats (files_marked stats + zlen expired) (projects_processed stats) (cleanup_errors stats))
      else (db, mkCleanupStats (files_marked stats) (projects_processed stats) (cleanup_errors stats ++ [workspace_id]))
  end.

(** [run_now_scoped] of the job. *)
Definition cleanup_run (c : RetentionConfigStore) (env_of : Z → CleanupEnv) (db : FileDb)
    (workspace_id : option Z) : FileDb * CleanupStats :=
  let all_files := query_files db (mkFileListFilter workspace_id None None None None None (Some false)) in
  let groups := by_workspace all_files in
  foldl (cleanup_workspace c env_of) (db, mkCleanupStats 0 (Z.of_nat (size groups)) []) (map_to_list groups).

(** ** The admin handlers *)

(** [run_cleanup] after authorisation, up to the marking: an override of the
    retention is stored before the run. *)
Definition run_cleanup (c : RetentionConfigStore) (env_of : Z → CleanupEnv) (db : FileDb)
    (workspace_id : Z) (override_days : option Z) : RetentionConfigStore * FileDb * CleanupStats :=
  let c := match override_days with Some days => config_upsert c workspace_id days | None => c end in
  let '(db, stats) := cleanup_run c env_of db (Some workspace_id) in
  (c, db, stats).

(** [days as i32] and [days as u32]. *)
Definition i32_of_u32 (days : Z) : Z := if days <? 2 ^ 31 then days else days - 2 ^ 32.
Definition u32_of_i32 (days : Z) : Z := days mod 2 ^ 32.

(** [NewWorkspaceSettings] and [WorkspaceSettings]; [i32] columns. *)
Record Settings := mkSettings {
  traces_retention_days : Z;
  metrics_retention_days : Z;
  logs_retention_days : Z;
  s_max_ingestion_rate : option Z;
  s_file_push_interval_secs : Z;
  s_blocked : bool;
  s_capture_llm_content_enabled : bool;
}.

Definition with_retention (s : Settings) (days : Z) : Settings :=
  mkSettings days days days (s_max_ingestion_rate s) (s_file_push_interval_secs s) (s_blocked s)
    (s_capture_llm_content_enabled s).

Definition defaults_for : Settings := mkSettings 90 30 30 None 300 false true.

(** [set_workspace_retention]: the settings row and the store both change. *)
Definition set_workspace_retention (c : RetentionConfigStore) (settings : gmap Z Settings)
    (workspace_id days : Z) : RetentionConfigStore * gmap Z Settings :=
  let s := default defaults_for (settings !! workspace_id) in
  (config_upsert c workspace_id days, <[workspace_id := with_retention s (i32_of_u32 days)]> settings).

(** [get_workspace_retention]: the days and whether they are inherited. *)
Definition get_workspace_retention (c : RetentionConfigStore) (settings : gmap Z Settings)
    (workspace_id : Z) : Z * bool :=
  match settings !! workspace_id with
  | Some s => (u32_of_i32 (traces_retention_days s), false)
  | None => (get_effective_days c workspace_id, true)
  end.

(** [get_workspace_settings]: a missing row is created with the defaults. *)
Definition get_workspace_settings (settings : gmap Z Settings) (workspace_id : Z) : gmap Z Settings * Settings :=
  match settings !! workspace_id with
  | Some s => (settings, s)
  | None => (<[workspace_id := defaults_for]> settings, defaults_for)
  end.

Definition validate_settings (s : Settings) : outcome string unit :=
  if traces_retention_days s <? 0 then Err "traces_retention_days must be non-negative"
  else if metrics_retention_days s <? 0 then Err "metrics_retention_days must be non-negative"
  else if logs_retention_days s <? 0 then Err "logs_retention_days must be non-negative"
  else if match s_max_ingestion_rate s with Some rate => rate <? 0 | None => false end
       then Err "max_ingestion_rate must be non-negative"
  else if s_file_push_interval_secs s <=? 0 then Err "file_push_interval_secs must be positive"
  else Ok ().

(** [update_workspace_settings]: validation, then the row; the retention store
    is not among what the handler can reach. *)
Definition update_workspace_settings (settings : gmap Z Settings) (workspace_id : Z) (s : Settings) :
    outcome string (gmap Z Settings) :=
  _ ← validate_settings s;
  mret (<[workspace_id := s]> settings).

(** The loop of the server's start-up over [list_all_settings]. *)
Definition startup_config (global_default_days : Z) (settings : gmap Z Settings) : RetentionConfigStore :=
  foldl (λ c kv, config_upsert c kv.1 (u32_of_i32 (traces_retention_days kv.2)))
    (retention_new global_default_days) (map_to_list settings).

(** ** Specification *)

(** The rows a run selects: live, in scope, no newer than the cutoff of their
    workspace, in a workspace whose statement succeeds. *)
Definition expires (c : RetentionConfigStore) (env_of : Z → CleanupEnv) (scope : option Z) (e : FileListEntry) : bool :=
  let w := fe_workspace_id e in
  negb (fe_deleted e) && when_some scope (λ s, w =? s)
  && (fe_max_ts e <=? get_cutoff_us c w (cl_now_us (env_of w))) && cl_mark_ok (env_of w).

(** ** Lemmas *)

Section Cleanup.
Context (c : RetentionConfigStore) (env_of : Z → CleanupEnv).

Definition group_ids (group : Z * list FileListEntry) : list Z :=
  if cl_mark_ok (env_of group.1)
  then map fe_id (filter (λ f, fe_max_ts f ≤ get_cutoff_us c group.1 (cl_now_us (env_of group.1))) group.2) else [].

Lemma cleanup_workspace_lookup db stats group id :
  file_rows (cleanup_workspace c env_of (db, stats) group).1 !! id =
    if decide (id ∈ group_ids group) then set_deleted (cl_now_us (env_of group.1)) <$> file_rows db !! id
    else file_rows db !! id.
Proof.
  destruct group as [w files]. unfold cleanup_workspace, group_ids. cbn [fst snd].
  destruct (filter _ files) as [|f l] eqn:Hf; cbn [map]; [by destruct (cl_mark_ok _)|].
  destruct (cl_mark_ok _); [|done]. cbn [fst]. by rewrite mark_deleted_lookup.
Qed.

Lemma cleanup_groups_lookup groups st id :
  file_rows (foldl (cleanup_workspace c env_of) st groups).1 !! id =
    foldl (λ o group, if decide (id ∈ group_ids group) then set_deleted (cl_now_us (env_of group.1)) <$> o else o)
      (file_rows st.1 !! id) groups.
Proof.
  revert st. induction groups as [|g groups IH]; intros [db stats]; [done|]. cbn [foldl].
  by rewrite IH, cleanup_workspace_lookup.
Qed.

(** A row is in one group; the others leave it alone. *)
Lemma foldl_one_group (o : option FileListEntry) id w (marked : Prop) `{!Decision marked} groups :
  NoDup groups.*1 → (∀ g, g ∈ groups → id ∈ group_ids g ↔ g.1 = w ∧ marked) →
  foldl (λ o group, if decide (id ∈ group_ids group) then set_deleted (cl_now_us (env_of group.1)) <$> o else o) o groups
  = if decide (w ∈ groups.*1 ∧ marked) then set_deleted (cl_now_us (env_of w)) <$> o else o.
Proof.
  revert o. induction groups as [|g groups IH]; intros o Hnd Hg; cbn [foldl].
  - rewrite decide_False; [done|]. by intros [?%not_elem_of_nil _].
  - apply NoDup_cons in Hnd as [Hni Hnd]. fold (fmap (M := list) (fst (A := Z) (B := list FileListEntry))) in Hni.
    assert (∀ g', g' ∈ groups → id ∈ group_ids g' ↔ g'.1 = w ∧ marked) as Hg' by (intros; apply Hg; by right).
    rewrite IH by done. pose proof (Hg g ltac:(by left)) as Hthis. rewrite fmap_cons.
    destruct (decide (id ∈ group_ids g)) as [Hin|Hin].
    + apply Hthis in Hin as [<- Hm]. rewrite (decide_False (P := g.1 ∈ groups.*1 ∧ marked)) by tauto.
      rewrite decide_True; [done|]. split; [by left|done].
    + apply decide_ext. rewrite elem_of_cons. split; [tauto|]. intros [[->|?] ?]; [|tauto]. tauto.
Qed.
End Cleanup.

Lemma cleanup_group_ids c env_of scope db id e g :
  db_wf db → file_rows db !! id = Some e →
  g ∈ map_to_list (by_workspace (query_files db (mkFileListFilter scope None None None None None (Some false)))) →
  id ∈ group_ids c env_of g ↔ g.1 = fe_workspace_id e ∧ expires c env_of scope e = true.
Proof.
  intros Hwf He Hg. destruct g as [w files]. apply elem_of_group_on in Hg as [-> _].
  destruct (Hwf id e He) as [Hid _]. unfold group_ids, expires. cbn [fst snd].
  assert (∀ f, f ∈ filter (λ x, fe_workspace_id x = w)
      (query_files db (mkFileListFilter scope None None None None None (Some false))) ↔
    fe_workspace_id f = w ∧ fe_deleted f = false ∧ when_some scope (λ s, fe_workspace_id f =? s) = true
    ∧ f ∈ rows_list db) as Hf.
  { intros f. rewrite list_elem_of_filter, elem_of_query_files, <-elem_of_rows_list. unfold matches.
    cbn [ff_workspace_id ff_signal_type ff_stream_name ff_time_range_start ff_time_range_end ff_location ff_deleted].
    cbn [when_some]. rewrite !andb_true_iff, bool_decide_eq_true. tauto. }
  assert (e ∈ rows_list db) as Hin by (apply elem_of_rows_list; by exists id).
  rewrite !andb_true_iff, negb_true_iff, Z.leb_le. split.
  - destruct (cl_mark_ok (env_of w)) eqn:Hok; [|by intros ?%not_elem_of_nil].
    intros (f & Hfid & [Hts Hff]%list_elem_of_filter)%list_elem_of_fmap.
    apply Hf in Hff as (Hw & Hd & Hs & Hr). assert (f = e) as -> by (apply (rows_list_inj db); [done..|congruence]).
    subst w. rewrite Hok. tauto.
  - intros [-> [[[Hd Hs] Hts] Hok]]. rewrite Hok. apply list_elem_of_fmap. exists e. split; [done|].
    apply list_elem_of_filter. split; [done|]. apply Hf. tauto.
Qed.

(** What a cleanup run leaves of a row. *)
Lemma cleanup_run_lookup c env_of db scope id :
  db_wf db →
  file_rows (cleanup_run c env_of db scope).1 !! id =
    (λ e, if expires c env_of scope e then set_deleted (cl_now_us (env_of (fe_workspace_id e))) e else e)
      <$> file_rows db !! id.
Proof.
  intros Hwf. unfold cleanup_run. cbn zeta.
  set (files := query_files db _). rewrite cleanup_groups_lookup. cbn [fst].
  destruct (file_rows db !! id) as [e|] eqn:He; cbn [fmap option_fmap option_map].
  - rewrite (foldl_one_group c env_of _ id (fe_workspace_id e) (expires c env_of scope e = true)).
    + destruct (expires c env_of scope e) eqn:Hx; [|rewrite decide_False; [done|by intros [_ ?]]].
      rewrite decide_True; [done|]. split; [|done].
      apply list_elem_of_fmap. exists (fe_workspace_id e, filter (λ x, fe_workspace_id x = fe_workspace_id e) files).
      split; [done|]. apply elem_of_group_on. split; [done|].
      apply (elem_of_not_nil e),  list_elem_of_filter. split; [done|].
      unfold files. apply elem_of_query_files. split; [|by exists id].
      unfold expires in Hx. apply andb_true_iff in Hx as [Hx _]. apply andb_true_iff in Hx as [Hx _].
      apply andb_true_iff in Hx as [Hd Hs]. apply negb_true_iff in Hd. unfold matches. cbn.
      rewrite Hd. unfold when_some in *. destruct scope; cbn in *; by rewrite ?Hs.
    + apply NoDup_fst_map_to_list.
    + intros g Hg. by eapply cleanup_group_ids.
  - generalize (map_to_list (by_workspace files)). intros l. induction l as [|g l IH]; [done|]. cbn [foldl].
    by case_decide.
Qed.

(** ** Theorems *)

Lemma cleanup_next_id c env_of db scope : next_file_id (cleanup_run c env_of db scope).1 = next_file_id db.
Proof.
  unfold cleanup_run. generalize (map_to_list (by_workspace (query_files db (mkFileListFilter scope None None None None None (Some false))))) as groups.
  intros groups. cbn zeta. generalize (mkCleanupStats 0 (Z.of_nat (size (by_workspace (query_files db
    (mkFileListFilter scope None None None None None (Some false)))))) []) as stats. intros stats.
  change db with (db, stats).1 at 2. generalize (db, stats) as acc. clear.
  induction groups as [|[w files] groups IH]; intros [db stats]; [done|]. cbn [foldl]. rewrite IH. unfold cleanup_workspace.
  destruct (filter _ files); [done|]. by destruct (cl_mark_ok _).
Qed.

Lemma cleanup_run_wf c env_of db scope : db_wf db → db_wf (cleanup_run c env_of db scope).1.
Proof.
  intros Hwf id e He. rewrite cleanup_next_id. rewrite cleanup_run_lookup in He by done.
  apply fmap_Some in He as (e0 & He0 & ->). destruct (Hwf id e0 He0) as [? ?]. by destruct (expires _ _ _ e0).
Qed.

(** A cleanup run marks exactly the rows it should: live rows of the scope that
    are no newer than the cutoff of their own workspace. Every other row, of
    whatever workspace, is left as it was, a failing workspace only keeps its
    own rows, and nothing is removed. *)
Theorem cleanup_marks_exactly_expired c env_of db scope id :
  db_wf db →
  file_rows (cleanup_run c env_of db scope).1 !! id =
    (λ e, if expires c env_of scope e then set_deleted (cl_now_us (env_of (fe_workspace_id e))) e else e)
      <$> file_rows db !! id.
Proof. apply cleanup_run_lookup. Qed.

(** ** Cutoffs *)

Definition DAY_US : Z := 86400 * 1000000.

(** Retentions whose nanoseconds fit: 292 years. *)
Definition MAX_EXACT_DAYS : Z := 106751.

Lemma i64_wrap_small x : i64_min ≤ x ≤ i64_max → i64_wrap x = x.
Proof. unfold i64_wrap, i64_min, i64_max. intros. Z.to_euclidean_division_equations. lia. Qed.

Lemma i64_wrap_over x : i64_max < x ≤ i64_max + 2 ^ 64 → i64_wrap x = x - 2 ^ 64.
Proof. unfold i64_wrap, i64_min, i64_max. intros. Z.to_euclidean_division_equations. lia. Qed.

Lemma cutoff_us_exact c w now :
  0 ≤ get_effective_days c w ≤ MAX_EXACT_DAYS → 0 ≤ now ≤ i64_max →
  get_cutoff_us c w now = now - get_effective_days c w * DAY_US.
Proof.
  unfold get_cutoff_us, DAY_US, MAX_EXACT_DAYS. intros.
  rewrite (i64_wrap_small (_ * 1000000)) by (unfold i64_min, i64_max in *; lia).
  rewrite i64_wrap_small by (unfold i64_min, i64_max in *; lia). lia.
Qed.

Lemma cutoff_ns_exact c w now :
  0 ≤ get_effective_days c w ≤ MAX_EXACT_DAYS → 0 ≤ now ≤ i64_max →
  get_cutoff_ns c w now = now - get_effective_days c w * (DAY_US * 1000).
Proof.
  unfold get_cutoff_ns, DAY_US, MAX_EXACT_DAYS. intros.
  rewrite (i64_wrap_small (_ * 1000000000)) by (unfold i64_min, i64_max in *; lia).
  rewrite i64_wrap_small by (unfold i64_min, i64_max in *; lia). lia.
Qed.

(** The enforcer never lets a query start before the cutoff. *)
Lemma enforce_query_start c strategy w now start eff r :
  enforce_query c strategy w now start = Ok (eff, r) → get_cutoff_ns c w now ≤ eff.
Proof.
  unfold enforce_query. cbn zeta. generalize (get_cutoff_ns c w now) as cutoff. intros cutoff He.
  destruct start as [s|]; [|injection He; lia].
  destruct (Z.ltb_spec s cutoff); [destruct strategy|]; [injection He; lia|done|injection He; lia].
Qed.

(** What cleanup marks is what queries may no longer ask for: when a file
    expires, every row in it ends before the start the query enforcer allows
    any query from then on, up to the one microsecond that the comparison with
    the cutoff includes. *)
Theorem cleanup_removes_only_hidden c env_of scope e ts strategy now_ns start eff r :
  let w := fe_workspace_id e in
  let now_us := cl_now_us (env_of w) in
  expires c env_of scope e = true → Z.quot ts 1000 ≤ fe_max_ts e →
  0 ≤ get_effective_days c w ≤ MAX_EXACT_DAYS → 0 ≤ now_us → now_us * 1000 ≤ now_ns ≤ i64_max →
  enforce_query c strategy w now_ns start = Ok (eff, r) →
  ts < eff + 1000.
Proof.
  intros w now_us Hx Hts Hd H0 Hnow He%enforce_query_start.
  unfold expires in Hx. fold w now_us in Hx. apply andb_true_iff in Hx as [Hx _].
  apply andb_true_iff in Hx as [_ Hle%Z.leb_le].
  rewrite cutoff_ns_exact in He by lia. rewrite cutoff_us_exact in Hle by (unfold i64_max in *; lia).
  unfold DAY_US in *. Z.to_euclidean_division_equations. lia.
Qed.

(** An absurdly long retention overflows into the future: between 106.8 and
    213.5 million days the microsecond cutoff lies after the present, so cleanup
    marks every file of the workspace, and between 130000 and 200000 days the
    nanosecond cutoff does, so the enforcer hides everything there is. *)
Theorem huge_retention_inverts c env_of scope e strategy now_ns start eff r :
  let w := fe_workspace_id e in
  let now_us := cl_now_us (env_of w) in
  (106800000 ≤ get_effective_days c w ≤ 213500000 → 10 ^ 15 ≤ now_us ≤ 2 * 10 ^ 15 →
   fe_deleted e = false → when_some scope (λ s, w =? s) = true → cl_mark_ok (env_of w) = true →
   fe_max_ts e ≤ now_us → expires c env_of scope e = true) ∧
  (130000 ≤ get_effective_days c w ≤ 200000 → 10 ^ 18 ≤ now_ns ≤ 2 * 10 ^ 18 →
   enforce_query c strategy w now_ns start = Ok (eff, r) → now_ns < eff).
Proof.
  intros w now_us. split.
  - intros Hd Hnow Hdel Hs Hok Hts. unfold expires. fold w now_us. rewrite Hdel, Hs, Hok. cbn.
    rewrite andb_true_r. apply Z.leb_le. unfold get_cutoff_us.
    rewrite (i64_wrap_over (_ * 1000000)) by (unfold i64_max; lia).
    rewrite i64_wrap_small by (unfold i64_min, i64_max; lia). lia.
  - intros Hd Hnow He%enforce_query_start. unfold get_cutoff_ns in He.
    rewrite (i64_wrap_over (_ * 1000000000)) in He by (unfold i64_max; lia).
    rewrite i64_wrap_small in He by (unfold i64_min, i64_max; lia). lia.
Qed.

(** ** The store and the settings across restarts *)

Lemma effective_days_upsert c w days w' :
  get_effective_days (config_upsert c w days) w' = if decide (w = w') then days else get_effective_days c w'.
Proof. unfold get_effective_days. cbn. rewrite lookup_insert. by case_decide. Qed.

Lemma startup_effective_days d settings w :
  get_effective_days (startup_config d settings) w =
    match settings !! w with Some s => u32_of_i32 (traces_retention_days s) | None => d end.
Proof.
  unfold startup_config.
  assert (∀ l c, NoDup l.*1 →
    get_effective_days (foldl (λ c kv, config_upsert c kv.1 (u32_of_i32 (traces_retention_days kv.2))) c l) w =
    match (list_to_map l : gmap Z Settings) !! w with
    | Some s => u32_of_i32 (traces_retention_days s) | None => get_effective_days c w end) as Hl.
  { induction l as [|[k s] l IH]; intros c Hnd; [done|]. apply NoDup_cons in Hnd as [Hk Hnd]. cbn [foldl fst snd].
    rewrite IH by done. cbn [list_to_map foldr]. rewrite lookup_insert, effective_days_upsert. cbn [fst snd] in *.
    destruct (decide (k = w)) as [->|]; [|done]. by rewrite not_elem_of_list_to_map_1. }
  rewrite Hl by apply NoDup_fst_map_to_list. by rewrite list_to_map_to_list.
Qed.

(** Setting a workspace's retention is durable: the running server and one
    started later from the settings table both use exactly the days that were
    set, for any [u32], and no other workspace is touched. *)
Theorem set_retention_survives_restart c settings w days d w' :
  0 ≤ days ≤ u32_max →
  let '(c', settings') := set_workspace_retention c settings w days in
  get_effective_days c' w = days ∧
  get_effective_days (startup_config d settings') w = days ∧
  get_workspace_retention c' settings' w = (days, false) ∧
  (w' ≠ w → get_effective_days c' w' = get_effective_days c w' ∧
     get_effective_days (startup_config d settings') w' = get_effective_days (startup_config d settings) w').
Proof.
  intros Hd. cbn. rewrite !startup_effective_days, effective_days_upsert, decide_True by done.
  unfold get_workspace_retention. rewrite lookup_insert_eq. cbn.
  assert (u32_of_i32 (i32_of_u32 days) = days) as ->.
  { unfold u32_of_i32, i32_of_u32, u32_max in *. destruct (Z.ltb_spec days (2 ^ 31)).
    - apply Z.mod_small. lia.
    - Z.to_euclidean_division_equations. lia. }
  split_and!; try done. intros Hne. rewrite lookup_insert_ne by done. split; [|done].
  rewrite effective_days_upsert. by apply decide_False.
Qed.

(** The other two ways to change retention are not. An override given to one
    cleanup run stays in force for every later run until a restart drops it; an
    update of the settings does nothing to the running server, and takes hold
    at the restart; so does reading the settings of a workspace that has none,
    which pins the table's default of ninety days. *)
Theorem retention_changes_diverge c env_of db w days d settings s settings' :
  (let '(c', _, _) := run_cleanup c env_of db w (Some days) in
   get_effective_days c' w = days) ∧
  (update_workspace_settings settings w s = Ok settings' → 
   get_effective_days (startup_config d settings') w = u32_of_i32 (traces_retention_days s)) ∧
  (settings !! w = None → get_effective_days (startup_config d settings) w = d ∧
   get_effective_days (startup_config d (get_workspace_settings settings w).1) w = 90).
Proof.
  split_and!.
  - unfold run_cleanup. destruct (cleanup_run _ _ _ _). by rewrite effective_days_upsert, decide_True.
  - unfold update_workspace_settings. intros Hu. destruct (validate_settings s); [|done..]. injection Hu as <-.
    by rewrite startup_effective_days, lookup_insert_eq.
  - intros Hn. unfold get_workspace_settings. rewrite Hn. cbn [fst].
    split; rewrite startup_effective_days; [by rewrite Hn|by rewrite lookup_insert_eq].
Qed.

(** ** Witnesses *)

Definition sample_entry (w max_ts : Z) : FileListEntry :=
  mkFileListEntry 0 w "logs" "default" "2026/06/26/00" "f.parquet" "local" 0 max_ts 1 10 10 false 0 0.
Definition sample_db : FileDb :=
  (register_file (register_file (register_file file_db_empty (sample_entry 1 1000)).1 (sample_entry 1 (10 ^ 15))).1
    (sample_entry 2 1000)).1.
Definition sample_env : Z → CleanupEnv := λ _, mkCleanupEnv (2 * 10 ^ 15) true.

Lemma sample_db_wf : db_wf sample_db.
Proof. do 3 apply db_wf_register. apply db_wf_empty. Defined.

Lemma cleanup_marks_exactly_expired_witness :
  fe_deleted <$> file_rows (cleanup_run (retention_new 30) sample_env sample_db (Some 1)).1 !! 1 = Some true ∧
  fe_deleted <$> file_rows (cleanup_run (retention_new 30) sample_env sample_db (Some 1)).1 !! 3 = Some false.
Proof.
  split; rewrite (cleanup_marks_exactly_expired (retention_new 30) sample_env sample_db (Some 1) _ sample_db_wf);
    vm_compute; reflexivity.
Defined.

Lemma cleanup_removes_only_hidden_witness : 900000 < 2 * 10 ^ 18 - 30 * (DAY_US * 1000) + 1000.
Proof.
  refine (cleanup_removes_only_hidden (retention_new 30) sample_env None (sample_entry 1 1000) 900000 Clamp
    (2 * 10 ^ 18) (Some 0) _ (mkEnforcement true 30 (2 * 10 ^ 18 - 30 * (DAY_US * 1000))) _ _ _ _ _ _);
    first [reflexivity|vm_compute; split; discriminate|vm_compute; discriminate].
Defined.

Lemma huge_retention_inverts_witness :
  expires (retention_new 110000000) sample_env None (sample_entry 1 (10 ^ 15)) = true.
Proof.
  refine (proj1 (huge_retention_inverts (retention_new 110000000) sample_env None (sample_entry 1 (10 ^ 15)) Clamp
    (10 ^ 18) None 0 (mkEnforcement false 0 0)) _ _ _ _ _ _);
    first [reflexivity|vm_compute; split; discriminate|vm_compute; discriminate].
Defined.

Lemma set_retention_survives_restart_witness :
  get_effective_days (startup_config 90 (set_workspace_retention (retention_new 90) ∅ 1 3000000000).2) 1 = 3000000000.
Proof.
  refine (proj1 (proj2 (set_retention_survives_restart (retention_new 90) ∅ 1 3000000000 90 2 _))).
  vm_compute; split; discriminate.
Defined.

Lemma retention_changes_diverge_witness :
  get_effective_days (startup_config 365 (get_workspace_settings ∅ 1).1) 1 = 90.
Proof.
  refine (proj2 (proj2 (proj2 (retention_changes_diverge (retention_new 365) sample_env sample_db 1 7 365 ∅ defaults_for ∅)) _)).
  reflexivity.
Defined.
