(* ===== verification/PgUsage.v ===== *)
(** The usage tables of the Postgres plugin:
    [zradar-plugin-postgres/src/repositories/usage.rs].

    Samples of writes and queries are inserted as event rows and, in the same
    transaction, added to daily and monthly rollups; the policy engine and the
    analytics API read them back. A SQL statement is the function it computes
    on the tables, [None] when it raises an error (an integer out of range),
    upon which the transaction is rolled back. The background worker that calls
    the inserts is in [PgUsageWorker]. *)

From stdpp Require Import base gmap sorting list strings.
From S2P Require Import Prelude PolicyStore Enforcer FileList.

(** ** Samples *)

(** [WriteSample] and [QuerySample] of [zradar-policy/src/types.rs]. *)
Record WriteSample := mkWriteSample {
  ws_workspace_id : Z;
  ws_signal : SignalKind;
  ws_stream_name : option string;
  ws_compressed_bytes : Z;
  ws_original_bytes : option Z;
  ws_records : Z;
  ws_file_id : option Z;
  ws_decision : DecisionSummary;
  ws_flushed_at : Z;
}.

Record QuerySample := mkQuerySample {
  qs_workspace_id : Z;
  qs_signal : SignalKind;
  qs_bytes_scanned : Z;
  qs_rows_scanned : option Z;
  qs_query_time_ms : option Z;
  qs_decision : DecisionSummary;
  qs_submitted_at : Z;
}.

(** ** Tables *)

Record IngestionDailyAggregate := mkIngestionDaily {
  id_compressed_bytes : Z;
  id_original_bytes : Z;
  id_records : Z;
  id_file_count : Z;
  id_updated_at : Z;
}.

Record QueryDailyAggregate := mkQueryDaily {
  qd_bytes_scanned : Z;
  qd_rows_scanned : Z;
  qd_query_count : Z;
  qd_updated_at : Z;
}.

Record MonthlyUsageAggregate := mkMonthly {
  mu_used_bytes : Z;
  mu_updated_at : Z;
}.

(** Days are numbered from the epoch; months by the microsecond they start. *)
Abbreviation DayKey := (Z * string * Z)%type.
Abbreviation MonthKey := (Z * string * string * Z)%type.

Record UsageDb := mkUsageDb {
  ingestion_events : list WriteSample;
  query_events : list QuerySample;
  ingestion_daily : gmap DayKey IngestionDailyAggregate;
  query_usage_daily : gmap DayKey QueryDailyAggregate;
  ingest_query_monthly : gmap MonthKey MonthlyUsageAggregate;
}.

Definition usage_db_empty : UsageDb := mkUsageDb [] [] ∅ ∅ ∅.

(** ** Integers of the database *)

(** [a + b] on [BIGINT]. *)
Definition sql_add (a b : Z) : option Z :=
  if (i64_min <=? a + b) && (a + b <=? i64_max) then Some (a + b) else None.

(** The generated column [((bytes + 1073741823) / 1073741824)::integer]. *)
Definition gb_fits (bytes : Z) : bool :=
  (bytes + 1073741823 <=? i64_max) && (Z.quot (bytes + 1073741823) 1073741824 <=? 2147483647).

(** The most bytes a rollup row can hold. *)
Definition MAX_ROLLUP_BYTES : Z := 2147483647 * 1073741824.

(** ** Aggregation and upserts *)

Section Rollup.
Context {K S A : Type} `{Countable K}.

(** [aggregates.entry(key).or_insert(new)], then the sample is added. *)
Definition aggregate (key : S → K) (new : S → A) (add : A → S → A) (samples : list S) : gmap K A :=
  foldl (λ m s, <[key s := add (default (new s) (m !! key s)) s]> m) ∅ samples.

(** [INSERT .. ON CONFLICT (key) DO UPDATE SET ..]. *)
Definition upsert_row (fits : A → bool) (combine : A → A → option A) (t : gmap K A) (row : K * A) : option (gmap K A) :=
  a ← match t !! row.1 with None => Some row.2 | Some old => combine old row.2 end;
  if fits a then Some (<[row.1 := a]> t) else None.

Fixpoint upsert_rows (fits : A → bool) (combine : A → A → option A) (t : gmap K A) (rows : list (K * A)) :
    option (gmap K A) :=
  match rows with
  | [] => Some t
  | row :: rows => t ← upsert_row fits combine t row; upsert_rows fits combine t rows
  end.
End Rollup.

(** [day_start_micros], and the date of a day's start. *)
Definition day_start_micros (timestamp_micros : Z) : Z := timestamp_micros - timestamp_micros mod DAY_MICROS.
Definition sql_day (day_micros : Z) : Z := day_micros / DAY_MICROS.

(** chrono's calendar: the year and month of a microsecond timestamp, when it
    is representable, and the first microsecond of a month. *)
Class ChronoCalendar := {
  year_month : Z → option (Z * Z);
  with_ymd_first : Z → Z → option Z;
}.

Definition month_start_micros `{ChronoCalendar} (timestamp_micros : Z) : Z :=
  match year_month timestamp_micros with
  | None => timestamp_micros
  | Some (year, month) => default timestamp_micros (with_ymd_first year month)
  end.

(** ** The aggregates of a batch *)

Definition ingestion_day_key (s : WriteSample) : DayKey :=
  (ws_workspace_id s, signal_kind (ws_signal s), sql_day (day_start_micros (ws_flushed_at s))).

Definition ingestion_daily_new (s : WriteSample) : IngestionDailyAggregate :=
  mkIngestionDaily 0 0 0 0 (ws_flushed_at s).

Definition ingestion_daily_add (e : IngestionDailyAggregate) (s : WriteSample) : IngestionDailyAggregate :=
  mkIngestionDaily
    (i64_saturating_add (id_compressed_bytes e) (ws_compressed_bytes s))
    (i64_saturating_add (id_original_bytes e) (default 0 (ws_original_bytes s)))
    (i64_saturating_add (id_records e) (ws_records s))
    (i64_saturating_add (id_file_count e) 1)
    (Z.max (id_updated_at e) (ws_flushed_at s)).

Definition aggregate_ingestion_daily (samples : list WriteSample) : gmap DayKey IngestionDailyAggregate :=
  aggregate ingestion_day_key ingestion_daily_new ingestion_daily_add samples.

Definition query_day_key (s : QuerySample) : DayKey :=
  (qs_workspace_id s, signal_kind (qs_signal s), sql_day (day_start_micros (qs_submitted_at s))).

Definition query_daily_new (s : QuerySample) : QueryDailyAggregate := mkQueryDaily 0 0 0 (qs_submitted_at s).

Definition query_daily_add (e : QueryDailyAggregate) (s : QuerySample) : QueryDailyAggregate :=
  mkQueryDaily
    (i64_saturating_add (qd_bytes_scanned e) (qs_bytes_scanned s))
    (i64_saturating_add (qd_rows_scanned e) (default 0 (qs_rows_scanned s)))
    (i64_saturating_add (qd_query_count e) 1)
    (Z.max (qd_updated_at e) (qs_submitted_at s)).

Definition aggregate_query_daily (samples : list QuerySample) : gmap DayKey QueryDailyAggregate :=
  aggregate query_day_key query_daily_new query_daily_add samples.

(** [aggregate_monthly_usage]: a sample by what it contributes. *)
Record MonthlySample := mkMonthlySample {
  ms_workspace_id : Z;
  ms_signal : SignalKind;
  ms_operation : Operation;
  ms_observed_at : Z;
  ms_used_bytes : Z;
}.

Definition monthly_new (s : MonthlySample) : MonthlyUsageAggregate := mkMonthly 0 (ms_observed_at s).

Definition monthly_add (e : MonthlyUsageAggregate) (s : MonthlySample) : MonthlyUsageAggregate :=
  mkMonthly (i64_saturating_add (mu_used_bytes e) (ms_used_bytes s)) (Z.max (mu_updated_at e) (ms_observed_at s)).

(** The [DO UPDATE SET] of the three upserts. *)
Definition ingestion_daily_update (old new : IngestionDailyAggregate) : option IngestionDailyAggregate :=
  compressed ← sql_add (id_compressed_bytes old) (id_compressed_bytes new);
  original ← sql_add (id_original_bytes old) (id_original_bytes new);
  records ← sql_add (id_records old) (id_records new);
  files ← sql_add (id_file_count old) (id_file_count new);
  Some (mkIngestionDaily compressed original records files (Z.max (id_updated_at old) (id_updated_at new))).

Definition query_daily_update (old new : QueryDailyAggregate) : option QueryDailyAggregate :=
  bytes ← sql_add (qd_bytes_scanned old) (qd_bytes_scanned new);
  rows ← sql_add (qd_rows_scanned old) (qd_rows_scanned new);
  count ← sql_add (qd_query_count old) (qd_query_count new);
  Some (mkQueryDaily bytes rows count (Z.max (qd_updated_at old) (qd_updated_at new))).

Definition monthly_update (old new : MonthlyUsageAggregate) : option MonthlyUsageAggregate :=
  used ← sql_add (mu_used_bytes old) (mu_used_bytes new);
  Some (mkMonthly used (Z.max (mu_updated_at old) (mu_updated_at new))).

Section Calendar.
Context `{ChronoCalendar}.

Definition month_key (s : MonthlySample) : MonthKey :=
  (ms_workspace_id s, signal_kind (ms_signal s), operation (ms_operation s), month_start_micros (ms_observed_at s)).

Definition aggregate_monthly_usage (samples : list MonthlySample) : gmap MonthKey MonthlyUsageAggregate :=
  aggregate month_key monthly_new monthly_add samples.

Definition monthly_of_write (s : WriteSample) : MonthlySample :=
  mkMonthlySample (ws_workspace_id s) (ws_signal s) Ingest (ws_flushed_at s) (ws_compressed_bytes s).
Definition monthly_of_query (s : QuerySample) : MonthlySample :=
  mkMonthlySample (qs_workspace_id s) (qs_signal s) Query (qs_submitted_at s) (qs_bytes_scanned s).

Definition aggregate_monthly_usage_for_writes (samples : list WriteSample) :=
  aggregate_monthly_usage (map monthly_of_write samples).
Definition aggregate_monthly_usage_for_queries (samples : list QuerySample) :=
  aggregate_monthly_usage (map monthly_of_query samples).

(** ** The statements *)

Definition upsert_ingestion_daily (t : gmap DayKey IngestionDailyAggregate) (samples : list WriteSample) :
    option (gmap DayKey IngestionDailyAggregate) :=
  upsert_rows (λ a, gb_fits (id_compressed_bytes a))
    ingestion_daily_update t (map_to_list (aggregate_ingestion_daily samples)).

Definition upsert_query_usage_daily (t : gmap DayKey QueryDailyAggregate) (samples : list QuerySample) :
    option (gmap DayKey QueryDailyAggregate) :=
  upsert_rows (λ a, gb_fits (qd_bytes_scanned a))
    query_daily_update t (map_to_list (aggregate_query_daily samples)).

Definition upsert_monthly_usage_aggregates (t : gmap MonthKey MonthlyUsageAggregate)
    (aggregates : gmap MonthKey MonthlyUsageAggregate) : option (gmap MonthKey MonthlyUsageAggregate) :=
  upsert_rows (λ a, gb_fits (mu_used_bytes a))
    monthly_update t (map_to_list aggregates).

(** [insert_write_samples] and [insert_query_samples]: one transaction each. *)
Definition insert_write_samples (db : UsageDb) (samples : list WriteSample) : option UsageDb :=
  match samples with
  | [] => Some db
  | _ =>
      daily ← upsert_ingestion_daily (ingestion_daily db) samples;
      monthly ← upsert_monthly_usage_aggregates (ingest_query_monthly db) (aggregate_monthly_usage_for_writes samples);
      Some (mkUsageDb (ingestion_events db ++ samples) (query_events db) daily (query_usage_daily db) monthly)
  end.

Definition insert_query_samples (db : UsageDb) (samples : list QuerySample) : option UsageDb :=
  match samples with
  | [] => Some db
  | _ =>
      daily ← upsert_query_usage_daily (query_usage_daily db) samples;
      monthly ← upsert_monthly_usage_aggregates (ingest_query_monthly db) (aggregate_monthly_usage_for_queries samples);
      Some (mkUsageDb (ingestion_events db) (query_events db ++ samples) (ingestion_daily db) daily monthly)
  end.
End Calendar.

(** ** The readers *)

(** [UsageUnavailable] is a failed statement or column, [InvalidKind] a text
    that names no signal or operation. *)
Inductive UsageError := UsageUnavailable | InvalidKind (value : string).

(** [COALESCE(SUM(..), 0)::bigint]. *)
Definition sum_bigint (l : list Z) : outcome UsageError Z :=
  let s := zsum l in
  if (i64_min <=? s) && (s <=? i64_max) then Ok s else Err UsageUnavailable.

Definition i64_to_u64_or_0 (z : Z) : Z := if 0 <=? z then z else 0.

(** [WHERE workspace_id = $1 AND signal_kind = $2], the latter unless all. *)
Definition row_matches (ws : Z) (s : SignalKind) (row_ws : Z) (row_signal : string) : bool :=
  (row_ws =? ws) && bool_decide (s = AllSignals ∨ row_signal = signal_kind s).

Definition write_matches (ws : Z) (s : SignalKind) (e : WriteSample) : bool :=
  row_matches ws s (ws_workspace_id e) (signal_kind (ws_signal e)).
Definition query_matches (ws : Z) (s : SignalKind) (e : QuerySample) : bool :=
  row_matches ws s (qs_workspace_id e) (signal_kind (qs_signal e)).

Definition current_rate (db : UsageDb) (now ws : Z) (s : SignalKind) (op : Operation) : outcome UsageError RateSample :=
  let cutoff := i64_saturating_sub now 1000000 in
  '(records, bytes) ←
    match op with
    | Ingest =>
        let rows := filter (λ e, write_matches ws s e && (cutoff <=? ws_flushed_at e) = true) (ingestion_events db) in
        records ← sum_bigint (map ws_records rows);
        bytes ← sum_bigint (map ws_compressed_bytes rows);
        mret (records, bytes)
    | Query =>
        let rows := filter (λ e, query_matches ws s e && (cutoff <=? qs_submitted_at e) = true) (query_events db) in
        bytes ← sum_bigint (map qs_bytes_scanned rows);
        mret (zlen rows, bytes)
    | Store | AllOperations => mret (0, 0)
    end;
  mret (mkRateSample (i64_to_u64_or_0 records) (i64_to_u64_or_0 bytes)).

(** [flushed_at >= start AND (end IS NULL OR flushed_at < end)]. *)
Definition in_period (period_start : Z) (period_end : option Z) (at_micros : Z) : bool :=
  (period_start <=? at_micros) && when_some period_end (λ e, at_micros <? e).

Definition period_used_bytes (db : UsageDb) (ws : Z) (s : SignalKind) (op : Operation)
    (period_start : Z) (period_end : option Z) : outcome UsageError Z :=
  match op with
  | Ingest =>
      sum_bigint (map ws_compressed_bytes
        (filter (λ e, write_matches ws s e && in_period period_start period_end (ws_flushed_at e) = true)
           (ingestion_events db)))
  | Query =>
      sum_bigint (map qs_bytes_scanned
        (filter (λ e, query_matches ws s e && in_period period_start period_end (qs_submitted_at e) = true)
           (query_events db)))
  | Store | AllOperations => Ok 0
  end.

(** The live rows of [file_list] of a workspace and signal. *)
Definition stored_rows (files : FileDb) (ws : Z) (s : SignalKind) : list FileListEntry :=
  filter (λ e, row_matches ws s (fe_workspace_id e) (fe_signal_type e) && negb (fe_deleted e) = true) (rows_list files).

Definition stored_compressed_bytes (files : FileDb) (ws : Z) (s : SignalKind) : outcome UsageError Z :=
  sum_bigint (map fe_compressed_size (stored_rows files ws s)).

Definition parse_signal_kind (value : string) : outcome UsageError SignalKind :=
  if decide (value = "traces") then Ok Traces
  else if decide (value = "logs") then Ok Logs
  else if decide (value = "metrics") then Ok Metrics
  else if decide (value = "rum") then Ok Rum
  else if decide (value = "session_replay") then Ok SessionReplay
  else if decide (value = "error_tracking") then Ok ErrorTracking
  else if decide (value = "all") then Ok AllSignals
  else Err (InvalidKind value).

Definition parse_operation_kind (value : string) : outcome UsageError Operation :=
  if decide (value = "ingest") then Ok Ingest
  else if decide (value = "query") then Ok Query
  else if decide (value = "store") then Ok Store
  else if decide (value = "all") then Ok AllOperations
  else Err UsageUnavailable.

Record RetentionUsageBucket := mkRetentionBucket {
  rb_signal : SignalKind;
  rb_retention_period_index : Z;
  rb_compressed_bytes : Z;
  rb_records : Z;
  rb_file_count : Z;
}.

(** [GREATEST((now - max_ts) / bucket, 0)] with buckets of thirty days. *)
Definition bucket_index (now : Z) (e : FileListEntry) : Z := Z.max (Z.quot (now - fe_max_ts e) (30 * DAY_MICROS)) 0.

(** [ORDER BY signal_type, bucket_index]. *)
Definition bucket_order (a b : (string * Z) * list FileListEntry) : Prop :=
  String.ltb a.1.1 b.1.1 = true ∨ (a.1.1 = b.1.1 ∧ a.1.2 ≤ b.1.2).
#[export] Instance bucket_order_dec : RelDecision bucket_order.
Proof. intros a b. unfold bucket_order. apply _. Defined.

Definition retention_buckets (files : FileDb) (now ws : Z) (s : SignalKind) : outcome UsageError (list RetentionUsageBucket) :=
  let groups := merge_sort bucket_order
    (map_to_list (group_on (λ e, (fe_signal_type e, bucket_index now e)) (stored_rows files ws s))) in
  mapM (λ g : (string * Z) * list FileListEntry,
    compressed ← sum_bigint (map fe_compressed_size g.2);
    records ← sum_bigint (map fe_records g.2);
    signal ← parse_signal_kind g.1.1;
    mret (mkRetentionBucket signal (if g.1.2 <=? u32_max then g.1.2 else 0) compressed records (zlen g.2))) groups.

(** [signal.filter(|signal| *signal != SignalKind::All)]. *)
Definition signal_filter (signal : option SignalKind) : option string :=
  match signal with Some AllSignals | None => None | Some s => Some (signal_kind s) end.

(** [ORDER BY signal_kind]. *)
Definition name_order {A : Type} (a b : string * A) : Prop := String.leb a.1 b.1 = true.
#[export] Instance name_order_dec {A : Type} : RelDecision (name_order (A := A)).
Proof. intros a b. unfold name_order. apply _. Defined.

(** [ingest_rate]: per signal, in the order of the names. *)
Definition ingest_rate (db : UsageDb) (ws : Z) (signal : option SignalKind) (window_start window_end : Z) :
    outcome UsageError (list (SignalKind * (Z * Z))) :=
  let window_seconds := Z.max (Z.quot (i64_saturating_sub window_end window_start) 1000000) 1 in
  let rows := filter (λ e, (ws_workspace_id e =? ws)
    && when_some (signal_filter signal) (λ f, bool_decide (signal_kind (ws_signal e) = f))
    && (window_start <=? ws_flushed_at e) && (ws_flushed_at e <? window_end) = true) (ingestion_events db) in
  let groups := merge_sort name_order
    (map_to_list (group_on (λ e, signal_kind (ws_signal e)) rows)) in
  mapM (λ g : string * list WriteSample,
    records ← sum_bigint (map ws_records g.2);
    bytes ← sum_bigint (map ws_compressed_bytes g.2);
    signal ← parse_signal_kind g.1;
    mret (signal, (i64_to_u64_or_0 (Z.quot records window_seconds), i64_to_u64_or_0 (Z.quot bytes window_seconds)))) groups.

(** [query_usage], without the average of [query_time_ms], a float. *)
Definition query_usage (db : UsageDb) (ws : Z) (signal : option SignalKind) (window_start window_end : Z) :
    outcome UsageError (list (SignalKind * (Z * Z * Z))) :=
  let rows := filter (λ e, (qs_workspace_id e =? ws)
    && when_some (signal_filter signal) (λ f, bool_decide (signal_kind (qs_signal e) = f))
    && (window_start <=? qs_submitted_at e) && (qs_submitted_at e <? window_end) = true) (query_events db) in
  let groups := merge_sort name_order (map_to_list (group_on (λ e, signal_kind (qs_signal e)) rows)) in
  mapM (λ g : string * list QuerySample,
    bytes ← sum_bigint (map qs_bytes_scanned g.2);
    rows ← sum_bigint (map (λ e, default 0 (qs_rows_scanned e)) g.2);
    signal ← parse_signal_kind g.1;
    mret (signal, (bytes, rows, zlen g.2))) groups.

Record UsageDailyRecord := mkUsageDailyRecord {
  ud_signal : SignalKind;
  ud_operation : Operation;
  ud_day : Z;
  ud_used_bytes : Z;
  ud_records : Z;
  ud_query_count : Z;
  ud_file_count : Z;
}.

(** [ORDER BY day DESC, signal_kind, operation]. *)
Definition daily_order (a b : UsageDailyRecord) : Prop :=
  ud_day b < ud_day a ∨ (ud_day a = ud_day b ∧
    (String.ltb (signal_kind (ud_signal a)) (signal_kind (ud_signal b)) = true ∨
     (ud_signal a = ud_signal b ∧ String.leb (operation (ud_operation a)) (operation (ud_operation b)) = true))).
#[export] Instance daily_order_dec : RelDecision daily_order.
Proof. intros a b. unfold daily_order. apply _. Defined.

(** [usage_daily]: both daily tables, days between the dates of two times. *)
Definition usage_daily (db : UsageDb) (ws : Z) (signal : option SignalKind) (start_micros end_micros : option Z) :
    outcome UsageError (list UsageDailyRecord) :=
  let selected (k : DayKey) :=
    (k.1.1 =? ws) && when_some (signal_filter signal) (λ f, bool_decide (k.1.2 = f))
    && when_some start_micros (λ t, sql_day t <=? k.2) && when_some end_micros (λ t, k.2 <=? sql_day t) in
  ingests ← mapM (λ kv : DayKey * IngestionDailyAggregate,
    s ← parse_signal_kind kv.1.1.2;
    mret (mkUsageDailyRecord s Ingest kv.1.2 (id_compressed_bytes kv.2) (id_records kv.2) 0 (id_file_count kv.2)))
    (filter (λ kv, selected kv.1 = true) (map_to_list (ingestion_daily db)));
  queries ← mapM (λ kv : DayKey * QueryDailyAggregate,
    s ← parse_signal_kind kv.1.1.2;
    mret (mkUsageDailyRecord s Query kv.1.2 (qd_bytes_scanned kv.2) (qd_rows_scanned kv.2) (qd_query_count kv.2) 0))
    (filter (λ kv, selected kv.1 = true) (map_to_list (query_usage_daily db)));
  mret (merge_sort daily_order (ingests ++ queries)).

(** ** Thresholds *)

Definition HOUR_MICROS : Z := 3600 * 1000000.

Definition threshold_dedupe_period_start (event : ThresholdEvent) : Z :=
  default (te_emitted_at event - te_emitted_at event mod HOUR_MICROS) (te_period_start event).

Definition i16_max : Z := 32767.

(** The primary key of [threshold_dedupe]. *)
Definition dedupe_key (event : ThresholdEvent) : (Z * string * string) * (string * Z * Z) :=
  ((te_workspace_id event, signal_kind (te_signal event), operation (te_operation event)),
   (te_limit_kind event, if te_threshold_pct event <=? i16_max then te_threshold_pct event else i16_max,
    threshold_dedupe_period_start event)).

(** [INSERT .. ON CONFLICT DO NOTHING] of [emitted_at]. *)
Definition threshold_emit (t : gmap ((Z * string * string) * (string * Z * Z)) Z) (event : ThresholdEvent) :
    gmap ((Z * string * string) * (string * Z * Z)) Z :=
  match t !! dedupe_key event with
  | Some _ => t
  | None => <[dedupe_key event := te_emitted_at event]> t
  end.

(** ** Rollups in general *)

(** What a rollup row should hold: the value of all samples of its key. *)
Definition rollup {K S A : Type} `{EqDecision K} (key : S → K) (val : list S → A) (l : list S) (k : K) : option A :=
  match filter (λ s, key s = k) l with [] => None | g => Some (val g) end.

(** The laws that make a rollup maintained by batches exact, on lists of
    samples whose sums are in range. *)
Class RollupLaws {S A : Type} (new : S → A) (add : A → S → A) (fits : A → bool) (combine : A → A → option A)
    (val : list S → A) (good : list S → Prop) := {
  good_sublist l k : l `sublist_of` k → good k → good l;
  val_one s : good [s] → add (new s) s = val [s];
  val_snoc l s : l ≠ [] → good (l ++ [s]) → add (val l) s = val (l ++ [s]);
  val_app l k : l ≠ [] → k ≠ [] → good (l ++ k) → combine (val l) (val k) = Some (val (l ++ k));
  val_fits l : good l → fits (val l) = true;
  val_perm l k : l ≡ₚ k → val l = val k;
}.

Lemma filter_sublist {A : Type} (P : A → Prop) `{!∀ x, base.Decision (P x)} (l : list A) : filter P l `sublist_of` l.
Proof. induction l as [|x l IH]; [done|]. rewrite filter_cons. case_decide; by constructor. Qed.

Section RollupLemmas.
Context {K S A : Type} `{Countable K} (key : S → K) {new : S → A} {add : A → S → A}.
Context {fits : A → bool} {combine : A → A → option A} {val : list S → A} {good : list S → Prop}.
Context `{!RollupLaws new add fits combine val good}.

Lemma aggregate_lookup l k : good l → aggregate key new add l !! k = rollup key val l k.
Proof.
  induction l as [|s l IH] using rev_ind; intros Hg; [done|].
  assert (good l) as Hl by (eapply good_sublist; [|exact Hg]; by apply sublist_inserts_r).
  unfold aggregate in *. rewrite foldl_app. cbn [foldl]. set (m := foldl _ ∅ l) in *. unfold rollup in *.
  destruct (decide (key s = k)) as [<-|Hk].
  - rewrite filter_snoc_keep, lookup_insert_eq, IH by done.
    assert (good (filter (λ x, key x = key s) l ++ [s])) as Hgf.
    { eapply good_sublist; [|exact Hg]. rewrite <-filter_snoc_keep by done. apply filter_sublist. }
    destruct (filter _ l) as [|x g] eqn:Hf; cbn [default app].
    + apply (f_equal Some). by apply val_one.
    + apply (f_equal Some). by apply (val_snoc (x :: g) s).
  - rewrite filter_snoc_drop, lookup_insert_ne by done. by apply IH.
Qed.

Lemma upsert_rows_lookup rows t :
  NoDup rows.*1 →
  (∀ k a, (k, a) ∈ rows → ∃ a', match t !! k with None => Some a | Some old => combine old a end = Some a' ∧ fits a' = true) →
  ∃ t', upsert_rows fits combine t rows = Some t' ∧
    ∀ k, t' !! k = match (list_to_map rows : gmap K A) !! k with
                   | None => t !! k
                   | Some a => match t !! k with None => Some a | Some old => combine old a end
                   end.
Proof.
  revert t. induction rows as [|[k a] rows IH]; intros t Hnd Hrows; [by exists t|].
  apply NoDup_cons in Hnd as [Hk Hnd]. cbn [fst] in Hk. fold (fmap (M := list) (fst (A := K) (B := A))) in Hk.
  destruct (Hrows k a) as (a' & Ha' & Hfits); [by left|].
  cbn [upsert_rows]. unfold upsert_row. cbn [fst snd]. rewrite Ha'. cbn. rewrite Hfits. cbn.
  destruct (IH (<[k:=a']> t) Hnd) as (t' & Ht' & Hl).
  { intros k' b Hin. destruct (decide (k = k')) as [<-|Hne].
    - exfalso. apply Hk. apply list_elem_of_fmap. by exists (k, b).
    - rewrite lookup_insert_ne by done. apply Hrows. by right. }
  exists t'. split; [done|]. intros k'. rewrite Hl. cbn. destruct (decide (k = k')) as [<-|Hne].
  - rewrite not_elem_of_list_to_map_1 by done. by rewrite !lookup_insert_eq.
  - by rewrite !lookup_insert_ne.
Qed.

(** A table that is the rollup of a history, upserted with the aggregate of a
    batch, is the rollup of the history with the batch. *)
Lemma upsert_extends l1 l2 t :
  good (l1 ++ l2) → (∀ k, t !! k = rollup key val l1 k) →
  ∃ t', upsert_rows fits combine t (map_to_list (aggregate key new add l2)) = Some t' ∧
    ∀ k, t' !! k = rollup key val (l1 ++ l2) k.
Proof.
  intros Hg Ht.
  assert (good l2) as Hg2 by (eapply good_sublist; [|exact Hg]; by apply sublist_inserts_l).
  assert (∀ k, good (filter (λ s, key s = k) l1 ++ filter (λ s, key s = k) l2)) as Hgk.
  { intros k. eapply good_sublist; [|exact Hg]. rewrite <-filter_app. apply filter_sublist. }
  assert (∀ k a, aggregate key new add l2 !! k = Some a →
    match t !! k with None => Some a | Some old => combine old a end = Some (val (filter (λ s, key s = k) (l1 ++ l2)))) as Hrow.
  { intros k a. rewrite aggregate_lookup, Ht by done. specialize (Hgk k). rewrite filter_app. unfold rollup.
    destruct (filter _ l2) as [|x g2]; [done|]. intros [= <-].
    destruct (filter _ l1) as [|y g1]; [done|]. by rewrite val_app. }
  destruct (upsert_rows_lookup (map_to_list (aggregate key new add l2)) t) as (t' & Ht' & Hl).
  - apply NoDup_fst_map_to_list.
  - intros k a Hin%elem_of_map_to_list. eexists. split; [by apply Hrow|]. apply val_fits. rewrite filter_app. apply Hgk.
  - exists t'. split; [done|]. intros k. rewrite Hl, list_to_map_to_list.
    destruct (aggregate key new add l2 !! k) as [a|] eqn:Ha.
    + rewrite (Hrow _ _ Ha). rewrite aggregate_lookup in Ha by done. unfold rollup in *. rewrite filter_app.
      destruct (filter _ l2) as [|x g2]; [done|]. by destruct (filter _ l1).
    + rewrite aggregate_lookup in Ha by done. rewrite Ht. unfold rollup in *. rewrite filter_app.
      destruct (filter _ l2); [|done]. by rewrite app_nil_r.
Qed.

Lemma rollup_perm l1 l2 k : l1 ≡ₚ l2 → rollup key val l1 k = rollup key val l2 k.
Proof.
  intros Hp. unfold rollup. assert (filter (λ s, key s = k) l1 ≡ₚ filter (λ s, key s = k) l2) as Hf by by rewrite Hp.
  destruct (filter _ l1) as [|x g1]; [by apply Permutation_nil_l in Hf as <-|].
  destruct (filter _ l2) as [|y g2]; [by apply Permutation_nil_r in Hf|]. by rewrite (val_perm _ _ Hf).
Qed.
End RollupLemmas.

(** ** The three rollups *)

(** The latest of a list of times, the least [i64] when there is none. *)
Definition latest (l : list Z) : Z := foldr Z.max i64_min l.

Lemma latest_app l k : latest (l ++ k) = Z.max (latest l) (latest k).
Proof.
  unfold latest. induction l as [|x l IH]; cbn; [|lia].
  assert (i64_min ≤ foldr Z.max i64_min k); [|lia]. induction k; cbn; lia.
Qed.

#[export] Instance latest_Permutation : Proper ((≡ₚ) ==> (=)) latest.
Proof. unfold latest. intros l k Hp. induction Hp; cbn; lia. Qed.

(** A list whose terms are non-negative with a sum of at most [max]. *)
Definition bounded (max : Z) (l : list Z) : Prop := Forall (Z.le 0) l ∧ zsum l ≤ max.

Lemma bounded_sublist {S : Type} (f : S → Z) max l k :
  l `sublist_of` k → bounded max (map f k) → bounded max (map f l).
Proof.
  unfold bounded. induction 1 as [|x l k Hs IH|x l k Hs IH]; cbn [map]; rewrite ?zsum_cons, ?Forall_cons.
  - done.
  - intros [[Hx Hk] Hle]. pose proof (zsum_nonneg _ Hk).
    assert (zsum (map f l) ≤ zsum (map f k)); [|destruct IH; [split; [done|lia]|]; split; [by split|lia]].
    clear -Hs Hk. induction Hs as [|y l k Hs IH|y l k Hs IH]; cbn [map] in *; rewrite ?zsum_cons; [lia|..];
      apply Forall_cons in Hk as [? ?]; specialize (IH ltac:(done)); lia.
  - intros [[Hx Hk] Hle]. apply IH. split; [done|lia].
Qed.

Lemma bounded_snoc_add max l x : max ≤ i64_max → bounded max (l ++ [x]) → i64_saturating_add (zsum l) x = zsum (l ++ [x]).
Proof.
  intros Hm [Hf Hle]. rewrite zsum_app in *. apply Forall_app in Hf as [Hl [Hx _]%Forall_cons].
  pose proof (zsum_nonneg _ Hl). cbn in *. rewrite zsum_cons, zsum_nil in *.
  unfold i64_saturating_add, i64_min in *. lia.
Qed.

Lemma bounded_app_add max l k : max ≤ i64_max → bounded max (l ++ k) → sql_add (zsum l) (zsum k) = Some (zsum (l ++ k)).
Proof.
  intros Hm [Hf Hle]. apply Forall_app in Hf as [Hl Hk]. pose proof (zsum_nonneg _ Hl). pose proof (zsum_nonneg _ Hk).
  rewrite zsum_app in *. unfold sql_add. rewrite !(proj2 (Z.leb_le _ _)); [done| |]; unfold i64_min in *; lia.
Qed.

Lemma bounded_one max x : max ≤ i64_max → bounded max [x] → i64_saturating_add 0 x = zsum [x].
Proof. intros. by apply (bounded_snoc_add max []). Qed.

Lemma bounded_gb_fits l : bounded MAX_ROLLUP_BYTES l → gb_fits (zsum l) = true.
Proof.
  intros [Hf Hle]. apply zsum_nonneg in Hf. unfold gb_fits, MAX_ROLLUP_BYTES, i64_max in *.
  apply andb_true_iff. split; apply Z.leb_le; [lia|]. Z.to_euclidean_division_equations. lia.
Qed.

Lemma zlen_as_zsum {S : Type} (l : list S) : zlen l = zsum (map (λ _, 1) l).
Proof. induction l as [|x l IH]; [done|]. cbn [map length]. rewrite zsum_cons, <-IH. lia. Qed.

Lemma rollup_max_bytes : MAX_ROLLUP_BYTES ≤ i64_max.
Proof. unfold MAX_ROLLUP_BYTES, i64_max. lia. Qed.

(** The value of a daily row and the samples it can hold. *)
Definition ingestion_day (g : list WriteSample) : IngestionDailyAggregate :=
  mkIngestionDaily (zsum (map ws_compressed_bytes g)) (zsum (map (λ s, default 0 (ws_original_bytes s)) g))
    (zsum (map ws_records g)) (zlen g) (latest (map ws_flushed_at g)).

Definition writes_good (g : list WriteSample) : Prop :=
  Forall (λ s, i64_min ≤ ws_flushed_at s) g ∧ bounded MAX_ROLLUP_BYTES (map ws_compressed_bytes g) ∧
  bounded i64_max (map (λ s, default 0 (ws_original_bytes s)) g) ∧ bounded i64_max (map ws_records g) ∧
  bounded i64_max (map (λ _, 1) g).

Definition query_day (g : list QuerySample) : QueryDailyAggregate :=
  mkQueryDaily (zsum (map qs_bytes_scanned g)) (zsum (map (λ s, default 0 (qs_rows_scanned s)) g)) (zlen g)
    (latest (map qs_submitted_at g)).

Definition queries_good (g : list QuerySample) : Prop :=
  Forall (λ s, i64_min ≤ qs_submitted_at s) g ∧ bounded MAX_ROLLUP_BYTES (map qs_bytes_scanned g) ∧
  bounded i64_max (map (λ s, default 0 (qs_rows_scanned s)) g) ∧ bounded i64_max (map (λ _, 1) g).

Definition month (g : list MonthlySample) : MonthlyUsageAggregate :=
  mkMonthly (zsum (map ms_used_bytes g)) (latest (map ms_observed_at g)).

Definition months_good (g : list MonthlySample) : Prop :=
  Forall (λ s, i64_min ≤ ms_observed_at s) g ∧ bounded MAX_ROLLUP_BYTES (map ms_used_bytes g).

Lemma latest_snoc_at l x : i64_min ≤ x → latest (l ++ [x]) = Z.max (latest l) x.
Proof. intros. rewrite latest_app. cbn. lia. Qed.

Lemma latest_one x : i64_min ≤ x → latest [x] = x.
Proof. intros. cbn. lia. Qed.

(** Rewrites the additions of a rollup on samples in range into sums. *)
Ltac sum_up :=
  cbn [map] in *; rewrite ?map_app in *; cbn [map] in *; rewrite ?zlen_as_zsum, ?map_app;
  repeat match goal with
  | H : bounded ?m [?x] |- _ => rewrite (bounded_one m x) by first [exact H|apply rollup_max_bytes|done]; clear H
  | H : bounded ?m (?l ++ [?x]) |- _ =>
      rewrite (bounded_snoc_add m l x) by first [exact H|apply rollup_max_bytes|done]; clear H
  | H : bounded ?m (?l ++ ?k) |- _ =>
      rewrite (bounded_app_add m l k) by first [exact H|apply rollup_max_bytes|done]; clear H
  end.

Lemma Forall_sublist_keep {A : Type} (P : A → Prop) l k : l `sublist_of` k → Forall P k → Forall P l.
Proof. induction 1 as [|x l k _ IH|x l k _ IH]; [done|..]; rewrite ?Forall_cons; naive_solver. Qed.

#[export] Instance ingestion_daily_laws :
  RollupLaws ingestion_daily_new ingestion_daily_add (λ a, gb_fits (id_compressed_bytes a)) ingestion_daily_update
    ingestion_day writes_good.
Proof.
  split; unfold writes_good, ingestion_day.
  - intros l k Hs (Hat & H1 & H2 & H3 & H4). split_and!; try by eapply bounded_sublist.
    by eapply Forall_sublist_keep.
  - intros s (Hat & H1 & H2 & H3 & H4). apply Forall_cons in Hat as [Hat _].
    unfold ingestion_daily_add. cbn [ingestion_daily_new id_compressed_bytes id_original_bytes id_records
      id_file_count id_updated_at]. sum_up. f_equal. rewrite latest_one; lia.
  - intros l s _ (Hat & H1 & H2 & H3 & H4). apply Forall_app in Hat as [_ [Hat _]%Forall_cons].
    unfold ingestion_daily_add. cbn [id_compressed_bytes id_original_bytes id_records id_file_count id_updated_at].
    sum_up. f_equal. by rewrite latest_snoc_at.
  - intros l k _ _ (Hat & H1 & H2 & H3 & H4).
    unfold ingestion_daily_update. cbn [id_compressed_bytes id_original_bytes id_records id_file_count id_updated_at].
    sum_up. cbn. by rewrite latest_app.
  - intros l (_ & H1 & _). by apply bounded_gb_fits.
  - intros l k Hp. f_equal; by rewrite Hp.
Qed.

#[export] Instance query_daily_laws :
  RollupLaws query_daily_new query_daily_add (λ a, gb_fits (qd_bytes_scanned a)) query_daily_update
    query_day queries_good.
Proof.
  split; unfold queries_good, query_day.
  - intros l k Hs (Hat & H1 & H2 & H3). split_and!; try by eapply bounded_sublist.
    by eapply Forall_sublist_keep.
  - intros s (Hat & H1 & H2 & H3). apply Forall_cons in Hat as [Hat _].
    unfold query_daily_add. cbn [query_daily_new qd_bytes_scanned qd_rows_scanned qd_query_count qd_updated_at].
    sum_up. f_equal. rewrite latest_one; lia.
  - intros l s _ (Hat & H1 & H2 & H3). apply Forall_app in Hat as [_ [Hat _]%Forall_cons].
    unfold query_daily_add. cbn [qd_bytes_scanned qd_rows_scanned qd_query_count qd_updated_at].
    sum_up. f_equal. by rewrite latest_snoc_at.
  - intros l k _ _ (Hat & H1 & H2 & H3).
    unfold query_daily_update. cbn [qd_bytes_scanned qd_rows_scanned qd_query_count qd_updated_at].
    sum_up. cbn. by rewrite latest_app.
  - intros l (_ & H1 & _). by apply bounded_gb_fits.
  - intros l k Hp. f_equal; by rewrite Hp.
Qed.

#[export] Instance monthly_laws :
  RollupLaws monthly_new monthly_add (λ a, gb_fits (mu_used_bytes a)) monthly_update month months_good.
Proof.
  split; unfold months_good, month.
  - intros l k Hs (Hat & H1). split; [by eapply Forall_sublist_keep|by eapply bounded_sublist].
  - intros s (Hat & H1). apply Forall_cons in Hat as [Hat _].
    unfold monthly_add. cbn [monthly_new mu_used_bytes mu_updated_at]. sum_up. f_equal. rewrite latest_one; lia.
  - intros l s _ (Hat & H1). apply Forall_app in Hat as [_ [Hat _]%Forall_cons].
    unfold monthly_add. cbn [mu_used_bytes mu_updated_at]. sum_up. f_equal. by rewrite latest_snoc_at.
  - intros l k _ _ (Hat & H1). unfold monthly_update. cbn [mu_used_bytes mu_updated_at].
    sum_up. cbn. by rewrite latest_app.
  - intros l (_ & H1). by apply bounded_gb_fits.
  - intros l k Hp. f_equal; by rewrite Hp.
Qed.

(** ** The tables as views of the events *)

Section Consistency.
Context `{ChronoCalendar}.

Definition monthly_history (db : UsageDb) : list MonthlySample :=
  map monthly_of_write (ingestion_events db) ++ map monthly_of_query (query_events db).

(** Every rollup row holds the sums over the events of its key. *)
Definition rollups_exact (db : UsageDb) : Prop :=
  (∀ k, ingestion_daily db !! k = rollup ingestion_day_key ingestion_day (ingestion_events db) k) ∧
  (∀ k, query_usage_daily db !! k = rollup query_day_key query_day (query_events db) k) ∧
  (∀ k, ingest_query_monthly db !! k = rollup month_key month (monthly_history db) k).

Lemma rollups_exact_empty : rollups_exact usage_db_empty.
Proof. by split_and!. Qed.

Lemma monthly_upsert l1 l2 l t :
  (∀ k, t !! k = rollup month_key month l1 k) → l1 ++ l2 ≡ₚ l → months_good l →
  ∃ t', upsert_monthly_usage_aggregates t (aggregate_monthly_usage l2) = Some t' ∧
    ∀ k, t' !! k = rollup month_key month l k.
Proof.
  intros Ht Hp Hg. destruct (upsert_extends month_key (new := monthly_new) (add := monthly_add)
    (fits := λ a, gb_fits (mu_used_bytes a)) (combine := monthly_update) l1 l2 t) as (t' & Ht' & Hl).
  - destruct Hg as [Hat [Hb1 Hb2]]. split; [by rewrite Hp|]. split; by rewrite Hp.
  - done.
  - exists t'. split; [done|]. intros k. rewrite Hl.
    by apply (rollup_perm month_key (new := monthly_new) (add := monthly_add)
      (fits := λ a, gb_fits (mu_used_bytes a)) (combine := monthly_update) (good := months_good)).
Qed.

(** ** Theorems *)

(** C17: The daily and monthly rollups are exact views of the event tables: a batch
    of write samples, whatever signals and days it mixes, is inserted without
    an error as long as all sums fit, and afterwards every rollup row, the
    monthly one that both operations share included, again holds the sums over
    all events of its key. *)
Theorem rollups_match_events db samples :
  rollups_exact db → writes_good (ingestion_events db ++ samples) →
  months_good (map monthly_of_write (ingestion_events db ++ samples) ++ map monthly_of_query (query_events db)) →
  ∃ db', insert_write_samples db samples = Some db' ∧
    ingestion_events db' = ingestion_events db ++ samples ∧ query_events db' = query_events db ∧ rollups_exact db'.
Proof.
  intros (Hd & Hq & Hm) Hg Hmg. unfold insert_write_samples.
  destruct (upsert_extends ingestion_day_key (new := ingestion_daily_new) (add := ingestion_daily_add)
    (fits := λ a, gb_fits (id_compressed_bytes a)) (combine := ingestion_daily_update)
    (ingestion_events db) samples (ingestion_daily db) Hg Hd) as (daily & Hdaily & Hdl).
  destruct (monthly_upsert (monthly_history db) (map monthly_of_write samples)
    (map monthly_of_write (ingestion_events db ++ samples) ++ map monthly_of_query (query_events db))
    (ingest_query_monthly db) Hm) as (monthly & Hmonthly & Hml).
  { unfold monthly_history. rewrite map_app, <-!app_assoc. apply Permutation_app_head, Permutation_app_comm. }
  { done. }
  destruct samples as [|s samples]; [exists db; by rewrite app_nil_r|].
  unfold upsert_ingestion_daily, aggregate_ingestion_daily, aggregate_monthly_usage_for_writes.
  rewrite Hdaily. cbn [mbind option_bind]. rewrite Hmonthly. cbn. eexists. split; [done|].
  split; [done|]. split; [done|]. by split_and!.
Qed.

(** The same for batches of query samples. *)
Theorem query_rollups_match_events db samples :
  rollups_exact db → queries_good (query_events db ++ samples) →
  months_good (map monthly_of_write (ingestion_events db) ++ map monthly_of_query (query_events db ++ samples)) →
  ∃ db', insert_query_samples db samples = Some db' ∧
    ingestion_events db' = ingestion_events db ∧ query_events db' = query_events db ++ samples ∧ rollups_exact db'.
Proof.
  intros (Hd & Hq & Hm) Hg Hmg. unfold insert_query_samples.
  destruct (upsert_extends query_day_key (new := query_daily_new) (add := query_daily_add)
    (fits := λ a, gb_fits (qd_bytes_scanned a)) (combine := query_daily_update)
    (query_events db) samples (query_usage_daily db) Hg Hq) as (daily & Hdaily & Hdl).
  destruct (monthly_upsert (monthly_history db) (map monthly_of_query samples)
    (map monthly_of_write (ingestion_events db) ++ map monthly_of_query (query_events db ++ samples))
    (ingest_query_monthly db) Hm) as (monthly & Hmonthly & Hml).
  { unfold monthly_history. by rewrite map_app, <-!app_assoc. }
  { done. }
  destruct samples as [|s samples]; [exists db; by rewrite app_nil_r|].
  unfold upsert_query_usage_daily, aggregate_query_daily, aggregate_monthly_usage_for_queries.
  rewrite Hdaily. cbn [mbind option_bind]. rewrite Hmonthly. cbn. eexists. split; [done|].
  split; [done|]. split; [done|]. by split_and!.
Qed.
End Consistency.

(** ** Retention buckets *)

Lemma mapM_Ok_Forall2 {E A B : Type} (f : A → outcome E B) l k : mapM f l = Ok k → Forall2 (λ x y, f x = Ok y) l k.
Proof.
  revert k. induction l as [|x l IH]; intros k; cbn; [intros [= <-]; constructor|].
  destruct (f x) as [y|e|] eqn:Hx; cbn; [|done..].
  destruct (mapM f l) as [ys|e|]; cbn; [|done..]. intros [= <-]. constructor; [done|by apply IH].
Qed.

Lemma mapM_Ok_total {E A B : Type} (f : A → outcome E B) l :
  (∀ x, x ∈ l → is_ok (f x) = true) → is_ok (mapM f l) = true.
Proof.
  induction l as [|x l IH]; intros Hl; [done|]. cbn. pose proof (Hl x ltac:(by left)) as Hx.
  destruct (f x); cbn in *; [|done..]. assert (is_ok (mapM f l) = true) as Hk by (apply IH; intros; apply Hl; by right).
  by destruct (mapM f l).
Qed.

Lemma sum_bigint_fits l : bounded i64_max l → sum_bigint l = Ok (zsum l).
Proof.
  intros [Hf Hle]. apply zsum_nonneg in Hf. unfold sum_bigint.
  rewrite !(proj2 (Z.leb_le _ _)); [done| |]; unfold i64_min in *; lia.
Qed.

Lemma sum_bigint_Ok l z : sum_bigint l = Ok z → z = zsum l.
Proof. unfold sum_bigint. cbn zeta. destruct (_ && _); by intros [=]. Qed.

Lemma elem_of_stored_rows files ws s e :
  e ∈ stored_rows files ws s ↔
  fe_workspace_id e = ws ∧ (s = AllSignals ∨ fe_signal_type e = signal_kind s) ∧ fe_deleted e = false ∧ e ∈ rows_list files.
Proof.
  unfold stored_rows, row_matches. rewrite list_elem_of_filter, !andb_true_iff, Z.eqb_eq, bool_decide_eq_true, negb_true_iff.
  tauto.
Qed.

(** The groups of [retention_buckets], in the order of the query. *)
Definition bucket_groups (files : FileDb) (now ws : Z) (s : SignalKind) : list ((string * Z) * list FileListEntry) :=
  merge_sort bucket_order
    (map_to_list (group_on (λ e, (fe_signal_type e, bucket_index now e)) (stored_rows files ws s))).

Lemma elem_of_bucket_groups files now ws s k g :
  (k, g) ∈ bucket_groups files now ws s ↔
  g = filter (λ e, (fe_signal_type e, bucket_index now e) = k) (stored_rows files ws s) ∧ g ≠ [].
Proof. unfold bucket_groups. rewrite merge_sort_Permutation. apply elem_of_group_on. Qed.

Lemma bucket_groups_concat files now ws s : concat (bucket_groups files now ws s).*2 ≡ₚ stored_rows files ws s.
Proof.
  etrans; [|apply (group_on_concat (λ e, (fe_signal_type e, bucket_index now e)))].
  unfold bucket_groups. by rewrite merge_sort_Permutation.
Qed.

(** The retention buckets partition what is stored: when every live file of the
    workspace has a signal type the policy engine knows and the sums fit, the
    buckets' bytes and file counts add up to those of the live files. A single
    live file of another type, such as the evaluation scores the writer files
    under [scores], makes the whole call fail for all signals together. *)
Theorem retention_buckets_partition files now ws s :
  bounded i64_max (map fe_compressed_size (stored_rows files ws s)) →
  bounded i64_max (map fe_records (stored_rows files ws s)) →
  ((∀ e, e ∈ stored_rows files ws s → is_ok (parse_signal_kind (fe_signal_type e)) = true) →
   ∃ buckets, retention_buckets files now ws s = Ok buckets ∧
     stored_compressed_bytes files ws s = Ok (zsum (map rb_compressed_bytes buckets)) ∧
     zsum (map rb_file_count buckets) = zlen (stored_rows files ws s)) ∧
  (∀ e, e ∈ stored_rows files ws s → fe_signal_type e = "scores" → is_ok (retention_buckets files now ws s) = false).
Proof.
  intros Hc Hr. unfold retention_buckets. fold (bucket_groups files now ws s).
  set (f := λ g : (string * Z) * list FileListEntry, _).
  assert (∀ k g, (k, g) ∈ bucket_groups files now ws s → f (k, g) = (signal ← parse_signal_kind k.1;
      mret (mkRetentionBucket signal (if k.2 <=? u32_max then k.2 else 0) (zsum (map fe_compressed_size g))
        (zsum (map fe_records g)) (zlen g)))) as Hf.
  { intros k g [-> _]%elem_of_bucket_groups. subst f. cbn [fst snd].
    rewrite !sum_bigint_fits by (eapply bounded_sublist; [apply filter_sublist|done]). done. }
  split.
  - intros Hparse.
    assert (is_ok (mapM f (bucket_groups files now ws s)) = true) as Hok.
    { apply mapM_Ok_total. intros [k g] Hin. rewrite (Hf k g Hin).
      apply elem_of_bucket_groups in Hin as [Hg Hne]. destruct g as [|e g]; [done|].
      assert (e ∈ e :: g) as Hein by by left. rewrite Hg in Hein. apply list_elem_of_filter in Hein as [<- He].
      apply Hparse in He. cbn. by destruct (parse_signal_kind (fe_signal_type e)). }
    destruct (mapM f (bucket_groups files now ws s)) as [buckets| |] eqn:Hb; [|done..].
    exists buckets. split; [done|]. apply mapM_Ok_Forall2 in Hb.
    unfold stored_compressed_bytes. rewrite sum_bigint_fits by done.
    rewrite <-(bucket_groups_concat files now ws s), concat_map, zsum_concat.
    assert (∀ l k, Forall2 (λ x y, f x = Ok y) l k → (∀ x, x ∈ l → x ∈ bucket_groups files now ws s) →
      zsum (map zsum (map (map fe_compressed_size) l.*2)) = zsum (map rb_compressed_bytes k) ∧
      zsum (map rb_file_count k) = zlen (concat l.*2)) as Hsum.
    { clear Hb Hok buckets. induction 1 as [|[k g] b l bs Hx Hl IH]; intros Hin; [done|].
      destruct IH as [IH1 IH2]; [intros; apply Hin; by right|].
      rewrite (Hf k g (Hin _ ltac:(by left))) in Hx. destruct (parse_signal_kind k.1); cbn in Hx; [|done..].
      injection Hx as <-. cbn. rewrite !zsum_cons, IH1, IH2, length_app. cbn. lia. }
    destruct (Hsum _ _ Hb) as [-> ->]; [done|]. split; [done|]. done.
  - intros e He Hsc. destruct (mapM f (bucket_groups files now ws s)) as [buckets| |] eqn:Hb; [|done..].
    exfalso. apply mapM_Ok_Forall2 in Hb.
    assert ((fe_signal_type e, bucket_index now e, filter (λ x, (fe_signal_type x, bucket_index now x) =
      (fe_signal_type e, bucket_index now e)) (stored_rows files ws s)) ∈ bucket_groups files now ws s) as Hin.
    { apply elem_of_bucket_groups. split; [done|]. apply (elem_of_not_nil e), list_elem_of_filter. done. }
    apply list_elem_of_lookup in Hin as [i Hi]. destruct (Forall2_lookup_l _ _ _ _ _ Hb Hi) as (b & _ & Hfb).
    rewrite Hf in Hfb by (by eapply list_elem_of_lookup_2). by rewrite Hsc in Hfb.
Qed.

(** ** Thresholds *)

(** Each threshold of a limit is recorded once per period, or per hour for
    limits without one, however often it is crossed: after any sequence of
    events a row holds the time of the first event of its key, and there is a
    row exactly for the keys of the events. *)
Theorem thresholds_deduplicated (evs : list ThresholdEvent) k :
  foldl threshold_emit ∅ evs !! k = te_emitted_at <$> head (filter (λ e, dedupe_key e = k) evs).
Proof.
  induction evs as [|e evs IH] using rev_ind; [done|].
  rewrite foldl_app. cbn [foldl]. set (t := foldl threshold_emit ∅ evs) in *. unfold threshold_emit.
  destruct (decide (dedupe_key e = k)) as [<-|Hk].
  - rewrite filter_snoc_keep by done. destruct (filter _ evs) as [|x l] eqn:Hf; cbn in IH |- *.
    + rewrite IH. by rewrite lookup_insert_eq.
    + by rewrite IH.
  - rewrite filter_snoc_drop, <-IH by done. destruct (t !! dedupe_key e); [done|]. by rewrite lookup_insert_ne.
Qed.

(** ** Witnesses *)

(** A calendar of months of thirty days. *)
Definition calendar_concrete : ChronoCalendar :=
  {| year_month := λ t, Some (0, t / (30 * DAY_MICROS)); with_ymd_first := λ _ m, Some (m * (30 * DAY_MICROS)) |}.

Section Witnesses.
Local Existing Instance calendar_concrete.

Definition sample_write (ws bytes at_micros : Z) (s : SignalKind) : WriteSample :=
  mkWriteSample ws s (Some "default") bytes (Some (2 * bytes)) 1 None SumAllow at_micros.
Definition sample_query (ws bytes at_micros : Z) : QuerySample :=
  mkQuerySample ws Logs bytes None (Some 3) SumAllow at_micros.

Lemma bounded_dec_correct max l : forallb (Z.leb 0) l && (zsum l <=? max) = true → bounded max l.
Proof.
  intros [Hf Hle%Z.leb_le]%andb_true_iff. split; [|done]. apply Forall_forall. intros x Hx%list_elem_of_In.
  rewrite forallb_forall in Hf. by apply Z.leb_le, Hf.
Qed.

Definition month_db : UsageDb :=
  default usage_db_empty (insert_write_samples usage_db_empty [sample_write 1 100 5 Logs; sample_write 1 50 6 Logs]).

Lemma rollups_match_events_witness : ∃ db',
  insert_write_samples usage_db_empty [sample_write 1 100 5 Logs; sample_write 1 50 6 Logs] = Some db' ∧
  mu_used_bytes <$> ingest_query_monthly db' !! (1, "logs", "ingest", 0) = Some 150.
Proof.
  destruct (rollups_match_events usage_db_empty [sample_write 1 100 5 Logs; sample_write 1 50 6 Logs]
    rollups_exact_empty) as (db' & Hdb & He & Hq & (_ & _ & Hm)).
  - split_and!; try (apply bounded_dec_correct; vm_compute; reflexivity).
    repeat constructor; vm_compute; discriminate.
  - split; [repeat constructor; vm_compute; discriminate|]. apply bounded_dec_correct. vm_compute. reflexivity.
  - exists db'. split; [exact Hdb|]. rewrite Hm. unfold monthly_history. rewrite He, Hq. vm_compute. reflexivity.
Defined.

Lemma query_rollups_match_events_witness : ∃ db',
  insert_query_samples usage_db_empty [sample_query 1 100 5; sample_query 1 50 6] = Some db' ∧
  qd_query_count <$> query_usage_daily db' !! (1, "logs", 0) = Some 2.
Proof.
  destruct (query_rollups_match_events usage_db_empty [sample_query 1 100 5; sample_query 1 50 6]
    rollups_exact_empty) as (db' & Hdb & He & Hq & (_ & Hd & _)).
  - split_and!; try (apply bounded_dec_correct; vm_compute; reflexivity).
    repeat constructor; vm_compute; discriminate.
  - split; [repeat constructor; vm_compute; discriminate|]. apply bounded_dec_correct. vm_compute. reflexivity.
  - exists db'. split; [exact Hdb|]. rewrite Hd, Hq. vm_compute. reflexivity.
Defined.

Definition scores_entry : FileListEntry :=
  mkFileListEntry 0 1 "scores" "default" "2026/06/26/00" "s.parquet" "local" 0 1000 1 10 10 false 0 0.

Lemma retention_buckets_partition_witness :
  is_ok (retention_buckets (register_file file_db_empty scores_entry).1 5000 1 AllSignals) = false.
Proof.
  refine (proj2 (retention_buckets_partition (register_file file_db_empty scores_entry).1 5000 1 AllSignals _ _)
    (mkFileListEntry 1 1 "scores" "default" "2026/06/26/00" "s.parquet" "local" 0 1000 1 10 10 false 0 0) _ _).
  - apply bounded_dec_correct. vm_compute. reflexivity.
  - apply bounded_dec_correct. vm_compute. reflexivity.
  - vm_compute. left.
  - reflexivity.
Defined.
End Witnesses.
