(* ===== verification/PgUsageWorker.v ===== *)
(** The background flush of usage samples: [PostgresUsageTracker] and
    [PostgresUsageFlushWorker] of
    [zradar-plugin-postgres/src/repositories/usage.rs].

    Request handlers offer samples to a bounded channel; one worker moves them
    into two buffers and inserts the buffers in batches. [UsageTracker] is the
    channel, the worker's buffers, the tables and the metrics; a step is one
    send or one round of the worker's loop. *)

From stdpp Require Import base gmap list strings.
From S2P Require Import Prelude PolicyStore Enforcer PgUsage.

Definition DEFAULT_USAGE_MAX_FLUSH_RETRIES : Z := 3.

Inductive UsageEvent := WriteEvent (s : WriteSample) | QueryEvent (s : QuerySample).

(** The counters; the flush duration is not modelled. *)
Record UsageTrackerMetrics := mkUsageMetrics {
  write_samples_dropped_total : Z;
  query_samples_dropped_total : Z;
  flush_failures_total : Z;
  flush_batches_total : Z;
  flush_samples_total : Z;
  buffered_samples : Z;
}.

Definition add_write_dropped (m : UsageTrackerMetrics) (n : Z) : UsageTrackerMetrics :=
  mkUsageMetrics (u64_wrap (write_samples_dropped_total m + n)) (query_samples_dropped_total m)
    (flush_failures_total m) (flush_batches_total m) (flush_samples_total m) (buffered_samples m).
Definition add_query_dropped (m : UsageTrackerMetrics) (n : Z) : UsageTrackerMetrics :=
  mkUsageMetrics (write_samples_dropped_total m) (u64_wrap (query_samples_dropped_total m + n))
    (flush_failures_total m) (flush_batches_total m) (flush_samples_total m) (buffered_samples m).
Definition add_flush_failure (m : UsageTrackerMetrics) : UsageTrackerMetrics :=
  mkUsageMetrics (write_samples_dropped_total m) (query_samples_dropped_total m)
    (u64_wrap (flush_failures_total m + 1)) (flush_batches_total m) (flush_samples_total m) (buffered_samples m).
Definition add_flushed (m : UsageTrackerMetrics) (n : Z) : UsageTrackerMetrics :=
  mkUsageMetrics (write_samples_dropped_total m) (query_samples_dropped_total m) (flush_failures_total m)
    (u64_wrap (flush_batches_total m + 1)) (u64_wrap (flush_samples_total m + n)) (buffered_samples m).
Definition with_buffered (m : UsageTrackerMetrics) (n : Z) : UsageTrackerMetrics :=
  mkUsageMetrics (write_samples_dropped_total m) (query_samples_dropped_total m) (flush_failures_total m)
    (flush_batches_total m) (flush_samples_total m) n.

Record UsageTracker := mkUsageTracker {
  channel_capacity : Z;
  batch_size : Z;
  retry_buffer_max_samples : Z;
  channel : list UsageEvent;
  worker_running : bool;
  writes : list WriteSample;
  queries : list QuerySample;
  write_flush_failures : Z;
  query_flush_failures : Z;
  tables : UsageDb;
  metrics : UsageTrackerMetrics;
}.

Definition spawn_with_options (capacity batch retry : Z) (db : UsageDb) : UsageTracker :=
  mkUsageTracker capacity batch retry [] true [] [] 0 0 db (mkUsageMetrics 0 0 0 0 0 0).

(** [record_write] and [record_query]: [try_send], which fails when the channel
    is full or the worker is gone. *)
Definition try_send (t : UsageTracker) (e : UsageEvent) : option UsageTracker :=
  if worker_running t && (zlen (channel t) <? channel_capacity t)
  then Some (mkUsageTracker (channel_capacity t) (batch_size t) (retry_buffer_max_samples t) (channel t ++ [e])
    (worker_running t) (writes t) (queries t) (write_flush_failures t) (query_flush_failures t) (tables t) (metrics t))
  else None.

Definition with_metrics (t : UsageTracker) (m : UsageTrackerMetrics) : UsageTracker :=
  mkUsageTracker (channel_capacity t) (batch_size t) (retry_buffer_max_samples t) (channel t)
    (worker_running t) (writes t) (queries t) (write_flush_failures t) (query_flush_failures t) (tables t) m.

Definition record_write (t : UsageTracker) (s : WriteSample) : UsageTracker :=
  match try_send t (WriteEvent s) with
  | Some t => t
  | None => with_metrics t (add_write_dropped (metrics t) 1)
  end.

Definition record_query (t : UsageTracker) (s : QuerySample) : UsageTracker :=
  match try_send t (QueryEvent s) with
  | Some t => t
  | None => with_metrics t (add_query_dropped (metrics t) 1)
  end.

(** ** The worker *)

(** How the database answers a transaction: it commits, it commits and the
    answer is lost, or it fails. A statement in error fails in any case. *)
Inductive InsertAnswer := Committed | AnswerLost | Refused.

Definition answered {S : Type} (insert : UsageDb → list S → option UsageDb) (answer : InsertAnswer)
    (db : UsageDb) (samples : list S) : UsageDb * bool :=
  match answer, insert db samples with
  | Committed, Some db' => (db', true)
  | AnswerLost, Some db' => (db', false)
  | _, _ => (db, false)
  end.

(** One half of [flush]: the tables, what stays in the buffer, the consecutive
    failures, the metrics, and how many samples are given up. *)
Definition flush_samples {S : Type} (insert : UsageDb → list S → option UsageDb) (answer : InsertAnswer)
    (db : UsageDb) (samples : list S) (failures : Z) (m : UsageTrackerMetrics) :
    UsageDb * list S * Z * UsageTrackerMetrics * Z :=
  match samples with
  | [] => (db, [], failures, m, 0)
  | _ =>
      let count := zlen samples in
      let '(db, ok) := answered insert answer db samples in
      if ok then (db, [], 0, add_flushed m count, 0)
      else
        let m := add_flush_failure m in
        let failures := u64_saturating_add failures 1 in
        if DEFAULT_USAGE_MAX_FLUSH_RETRIES <=? failures then (db, [], 0, m, count)
        else (db, samples, failures, m, 0)
  end.

(** The loop of [enforce_retry_buffer_limit] that shares [remaining] drops
    between the buffers, from the longer one each time. *)
Fixpoint drop_counts (remaining : nat) (write_len query_len writes_to_drop queries_to_drop : Z) : Z * Z :=
  match remaining with
  | O => (writes_to_drop, queries_to_drop)
  | S remaining =>
      if (query_len <=? write_len) && (0 <? write_len)
      then drop_counts remaining (write_len - 1) query_len (writes_to_drop + 1) queries_to_drop
      else if 0 <? query_len
      then drop_counts remaining write_len (query_len - 1) writes_to_drop (queries_to_drop + 1)
      else (writes_to_drop, queries_to_drop)
  end.

Definition enforce_retry_buffer_limit (t : UsageTracker) : UsageTracker :=
  let total_len := zlen (writes t) + zlen (queries t) in
  let '(ws, qs, m) :=
    if retry_buffer_max_samples t <? total_len then
      let '(w, q) := drop_counts (Z.to_nat (total_len - retry_buffer_max_samples t))
                       (zlen (writes t)) (zlen (queries t)) 0 0 in
      (drop (Z.to_nat w) (writes t), drop (Z.to_nat q) (queries t),
       add_query_dropped (add_write_dropped (metrics t) w) q)
    else (writes t, queries t, metrics t) in
  mkUsageTracker (channel_capacity t) (batch_size t) (retry_buffer_max_samples t) (channel t) (worker_running t)
    ws qs (write_flush_failures t) (query_flush_failures t) (tables t) (with_buffered m (zlen ws + zlen qs)).

Section Worker.
Context `{ChronoCalendar}.

Definition flush (t : UsageTracker) (answer_writes answer_queries : InsertAnswer) : UsageTracker :=
  match writes t, queries t with
  | [], [] => t
  | _, _ =>
      let '(db, ws, wf, m, wd) :=
        flush_samples insert_write_samples answer_writes (tables t) (writes t) (write_flush_failures t) (metrics t) in
      let m := add_write_dropped m wd in
      let '(db, qs, qf, m, qd) :=
        flush_samples insert_query_samples answer_queries db (queries t) (query_flush_failures t) m in
      let m := add_query_dropped m qd in
      enforce_retry_buffer_limit
        (mkUsageTracker (channel_capacity t) (batch_size t) (retry_buffer_max_samples t) (channel t)
           (worker_running t) ws qs wf qf db (with_buffered m (zlen ws + zlen qs)))
  end.

(** A sample is offered, the worker's select takes one from the channel or the
    tick, or the tracker is dropped and the worker ends. *)
Inductive TrackerEvent :=
| SendWrite (s : WriteSample)
| SendQuery (s : QuerySample)
| Recv (aw aq : InsertAnswer)
| Tick (aw aq : InsertAnswer)
| Close (aw aq : InsertAnswer).

Definition receive (t : UsageTracker) (e : UsageEvent) (rest : list UsageEvent) : UsageTracker :=
  mkUsageTracker (channel_capacity t) (batch_size t) (retry_buffer_max_samples t) rest (worker_running t)
    (match e with WriteEvent s => writes t ++ [s] | QueryEvent _ => writes t end)
    (match e with WriteEvent _ => queries t | QueryEvent s => queries t ++ [s] end)
    (write_flush_failures t) (query_flush_failures t) (tables t) (metrics t).

Definition stopped (t : UsageTracker) : UsageTracker :=
  mkUsageTracker (channel_capacity t) (batch_size t) (retry_buffer_max_samples t) (channel t) false
    (writes t) (queries t) (write_flush_failures t) (query_flush_failures t) (tables t) (metrics t).

Definition tracker_step (t : UsageTracker) (e : TrackerEvent) : option UsageTracker :=
  match e with
  | SendWrite s => Some (record_write t s)
  | SendQuery s => Some (record_query t s)
  | Recv aw aq =>
      match worker_running t, channel t with
      | true, event :: rest =>
          let t := receive t event rest in
          let t := with_metrics t (with_buffered (metrics t) (zlen (writes t) + zlen (queries t))) in
          let t := enforce_retry_buffer_limit t in
          Some (if batch_size t <=? zlen (writes t) + zlen (queries t) then flush t aw aq else t)
      | _, _ => None
      end
  | Tick aw aq => if worker_running t then Some (flush t aw aq) else None
  | Close aw aq =>
      match worker_running t, channel t with
      | true, [] => Some (stopped (flush t aw aq))
      | _, _ => None
      end
  end.

Fixpoint tracker_run (t : UsageTracker) (es : list TrackerEvent) : option UsageTracker :=
  match es with
  | [] => Some t
  | e :: es => match tracker_step t e with Some t => tracker_run t es | None => None end
  end.
End Worker.

(** ** Specification: where every sample is *)

(** The samples sent are, in some order, those given up, those delivered to the
    tables, those buffered and those in the channel; the events are the
    delivered samples with the repeats of batches whose answer was lost. *)
Definition accounted {S : Type} (exact : bool) (before sent chan buf evs : list S) (dropped_total : Z) : Prop :=
  ∃ dropped delivered repeated,
    sent ≡ₚ dropped ++ delivered ++ buf ++ chan ∧ evs ≡ₚ before ++ delivered ++ repeated ∧
    dropped_total = u64_wrap (zlen dropped) ∧ (exact = true → repeated = []).

Definition sent_writes (es : list TrackerEvent) : list WriteSample :=
  omap (λ e, match e with SendWrite s => Some s | _ => None end) es.
Definition sent_queries (es : list TrackerEvent) : list QuerySample :=
  omap (λ e, match e with SendQuery s => Some s | _ => None end) es.
Definition channel_writes (l : list UsageEvent) : list WriteSample :=
  omap (λ e, match e with WriteEvent s => Some s | _ => None end) l.
Definition channel_queries (l : list UsageEvent) : list QuerySample :=
  omap (λ e, match e with QueryEvent s => Some s | _ => None end) l.

Definition answer_kept (a : InsertAnswer) : bool := match a with AnswerLost => false | _ => true end.
Definition answers_kept (e : TrackerEvent) : bool :=
  match e with Recv aw aq | Tick aw aq | Close aw aq => answer_kept aw && answer_kept aq | _ => true end.

(** ** Lemmas *)

Section Accounting.
Context {S : Type}.
Implicit Types before sent chan buf evs : list S.

Lemma u64_wrap_add x y : u64_wrap (u64_wrap x + y) = u64_wrap (x + y).
Proof. unfold u64_wrap. by rewrite Z.add_mod_idemp_l. Qed.

Lemma accounted_send b before sent chan buf evs n s :
  accounted b before sent chan buf evs n → accounted b before (sent ++ [s]) (chan ++ [s]) buf evs n.
Proof.
  intros (dr & de & rp & Hs & He & Hn & Hx). exists dr, de, rp. split_and!; try done. rewrite Hs. by rewrite <-!app_assoc.
Qed.

Lemma accounted_reject b before sent chan buf evs n s :
  accounted b before sent chan buf evs n → accounted b before (sent ++ [s]) chan buf evs (u64_wrap (n + 1)).
Proof.
  intros (dr & de & rp & Hs & He & -> & Hx). exists (s :: dr), de, rp. split_and!; try done.
  - rewrite Hs. cbn. by rewrite <-Permutation_cons_append.
  - rewrite u64_wrap_add. cbn [length]. f_equal. lia.
Qed.

Lemma accounted_receive b before sent chan buf evs n s :
  accounted b before sent (s :: chan) buf evs n → accounted b before sent chan (buf ++ [s]) evs n.
Proof.
  intros (dr & de & rp & Hs & He & Hn & Hx). exists dr, de, rp. split_and!; try done. rewrite Hs. by rewrite <-!app_assoc.
Qed.

Lemma accounted_drop b before sent chan buf evs n k :
  0 ≤ k ≤ zlen buf → accounted b before sent chan buf evs n →
  accounted b before sent chan (drop (Z.to_nat k) buf) evs (u64_wrap (n + k)).
Proof.
  intros Hk (dr & de & rp & Hs & He & -> & Hx). exists (take (Z.to_nat k) buf ++ dr), de, rp. split_and!; try done.
  - rewrite Hs. rewrite <-(take_drop (Z.to_nat k) buf) at 1. rewrite <-!app_assoc.
    rewrite (Permutation_app_swap_app dr), (Permutation_app_swap_app de). solve_Permutation.
  - rewrite u64_wrap_add, length_app, length_take. f_equal. lia.
Qed.

Lemma accounted_weaken b b' before sent chan buf evs n :
  (b' = true → b = true) → accounted b before sent chan buf evs n → accounted b' before sent chan buf evs n.
Proof. intros Hb (dr & de & rp & Hs & He & Hn & Hx). exists dr, de, rp. split_and!; try done. auto. Qed.

Lemma accounted_flush (insert : UsageDb → list S → option UsageDb) (events_of : UsageDb → list S) answer db buf fl m
    db' buf' fl' m' d b before sent chan n :
  (∀ db l db', insert db l = Some db' → events_of db' = events_of db ++ l) →
  0 ≤ n < 2 ^ 64 →
  flush_samples insert answer db buf fl m = (db', buf', fl', m', d) →
  accounted b before sent chan buf (events_of db) n →
  accounted (b && answer_kept answer) before sent chan buf' (events_of db') (u64_wrap (n + d)).
Proof.
  intros Hins Hn Hf Hacc.
  assert (u64_wrap (n + 0) = n) as Hn0 by (unfold u64_wrap; rewrite Z.add_0_r; by apply Z.mod_small).
  assert (∀ db1, accounted (b && answer_kept answer) before sent chan buf (events_of db1) n →
    (if DEFAULT_USAGE_MAX_FLUSH_RETRIES <=? u64_saturating_add fl 1
     then (db1, @nil S, 0, add_flush_failure m, zlen buf)
     else (db1, buf, u64_saturating_add fl 1, add_flush_failure m, 0)) = (db', buf', fl', m', d) →
    accounted (b && answer_kept answer) before sent chan buf' (events_of db') (u64_wrap (n + d))) as Hfail.
  { intros db1 Hacc1 Heq. destruct (_ <=? _); simplify_eq; [|by rewrite Hn0].
    rewrite <-(drop_all buf). replace (length buf) with (Z.to_nat (zlen buf)) at 1 by lia. apply accounted_drop; [lia|done]. }
  destruct buf as [|s buf0] eqn:Hbuf.
  { cbn in Hf. simplify_eq. rewrite Hn0. eapply accounted_weaken; [|done]. by intros [? _]%andb_true_iff. }
  cbn [flush_samples] in Hf. rewrite <-Hbuf in *. clear Hbuf. unfold answered in Hf.
  assert (accounted (b && answer_kept answer) before sent chan buf (events_of db) n) as Hsame.
  { eapply accounted_weaken; [|done]. by intros [? _]%andb_true_iff. }
  destruct answer, (insert db buf) as [db1|] eqn:Hdb; cbn in Hf; try (by eapply Hfail).
  - simplify_eq. rewrite Hn0. rewrite (Hins _ _ _ Hdb). destruct Hacc as (dr & de & rp & Hs & He & Hx & Hr).
    exists dr, (de ++ buf), rp. split_and!.
    + rewrite Hs. cbn. by rewrite <-!app_assoc.
    + rewrite He, <-!app_assoc. by rewrite (Permutation_app_comm rp).
    + done.
    + rewrite andb_true_r. done.
  - apply (Hfail db1); [|done]. rewrite andb_false_r, (Hins _ _ _ Hdb). destruct Hacc as (dr & de & rp & Hs & He & Hx & Hr).
    exists dr, de, (rp ++ buf). split_and!; try done. by rewrite He, <-!app_assoc.
Qed.
End Accounting.

Lemma drop_counts_spec n wl ql wd qd :
  0 ≤ wl → 0 ≤ ql → Z.of_nat n ≤ wl + ql →
  let '(w, q) := drop_counts n wl ql wd qd in
  wd ≤ w ≤ wd + wl ∧ qd ≤ q ≤ qd + ql ∧ w + q = wd + qd + Z.of_nat n.
Proof.
  revert wl ql wd qd. induction n as [|n IH]; intros wl ql wd qd Hw Hq Hn; cbn [drop_counts]; [lia|].
  destruct (Z.leb_spec ql wl), (Z.ltb_spec 0 wl); cbn [andb].
  - specialize (IH (wl - 1) ql (wd + 1) qd ltac:(lia) ltac:(lia) ltac:(lia)). destruct (drop_counts n _ _ _ _). lia.
  - lia.
  - destruct (Z.ltb_spec 0 ql); [|lia].
    specialize (IH wl (ql - 1) wd (qd + 1) ltac:(lia) ltac:(lia) ltac:(lia)). destruct (drop_counts n _ _ _ _). lia.
  - destruct (Z.ltb_spec 0 ql); [|lia].
    specialize (IH wl (ql - 1) wd (qd + 1) ltac:(lia) ltac:(lia) ltac:(lia)). destruct (drop_counts n _ _ _ _). lia.
Qed.

Lemma u64_wrap_range x : 0 ≤ u64_wrap x < 2 ^ 64.
Proof. unfold u64_wrap. apply Z.mod_pos_bound. lia. Qed.

Section Tracker.
Context `{ChronoCalendar}.

Lemma insert_write_events db l db' :
  insert_write_samples db l = Some db' → ingestion_events db' = ingestion_events db ++ l ∧ query_events db' = query_events db.
Proof.
  unfold insert_write_samples. destruct l as [|s l]; [intros [= <-]; by rewrite app_nil_r|].
  destruct (upsert_ingestion_daily _ _); cbn; [|done]. destruct (upsert_monthly_usage_aggregates _ _); cbn; [|done].
  by intros [= <-].
Qed.

Lemma insert_query_events db l db' :
  insert_query_samples db l = Some db' → query_events db' = query_events db ++ l ∧ ingestion_events db' = ingestion_events db.
Proof.
  unfold insert_query_samples. destruct l as [|s l]; [intros [= <-]; by rewrite app_nil_r|].
  destruct (upsert_query_usage_daily _ _); cbn; [|done]. destruct (upsert_monthly_usage_aggregates _ _); cbn; [|done].
  by intros [= <-].
Qed.

Lemma flush_samples_other {S T : Type} (insert : UsageDb → list S → option UsageDb) (other : UsageDb → list T)
    answer db buf fl m db' buf' fl' m' d :
  (∀ db l db', insert db l = Some db' → other db' = other db) →
  flush_samples insert answer db buf fl m = (db', buf', fl', m', d) →
  other db' = other db ∧ write_samples_dropped_total m' = write_samples_dropped_total m ∧
  query_samples_dropped_total m' = query_samples_dropped_total m ∧ zlen buf' ≤ zlen buf.
Proof.
  intros Hins. destruct buf as [|s buf]; [cbn; intros [= <- <- <- <- <-]; cbn; split_and!; done|].
  cbn [flush_samples]. set (l := s :: buf). unfold answered. destruct answer, (insert db l) as [db1|] eqn:Hi; cbn;
    try (apply Hins in Hi); (destruct (_ <=? _) || idtac); intros [= <- <- <- <- <-]; cbn; split_and!; (done || lia).
Qed.

(** The invariant of the tracker, after the sends [sw] and [sq]. *)
Definition tracker_inv (exact : bool) (bw : list WriteSample) (bq : list QuerySample) (sw : list WriteSample)
    (sq : list QuerySample) (t : UsageTracker) : Prop :=
  accounted exact bw sw (channel_writes (channel t)) (writes t) (ingestion_events (tables t))
    (write_samples_dropped_total (metrics t)) ∧
  accounted exact bq sq (channel_queries (channel t)) (queries t) (query_events (tables t))
    (query_samples_dropped_total (metrics t)) ∧
  0 ≤ write_samples_dropped_total (metrics t) < 2 ^ 64 ∧ 0 ≤ query_samples_dropped_total (metrics t) < 2 ^ 64 ∧
  0 ≤ retry_buffer_max_samples t ∧ zlen (writes t) + zlen (queries t) ≤ retry_buffer_max_samples t.

Lemma enforce_inv b bw bq sw sq t :
  accounted b bw sw (channel_writes (channel t)) (writes t) (ingestion_events (tables t))
    (write_samples_dropped_total (metrics t)) →
  accounted b bq sq (channel_queries (channel t)) (queries t) (query_events (tables t))
    (query_samples_dropped_total (metrics t)) →
  0 ≤ write_samples_dropped_total (metrics t) < 2 ^ 64 → 0 ≤ query_samples_dropped_total (metrics t) < 2 ^ 64 →
  0 ≤ retry_buffer_max_samples t →
  tracker_inv b bw bq sw sq (enforce_retry_buffer_limit t).
Proof.
  intros Hw Hq Hrw Hrq Hr. unfold enforce_retry_buffer_limit.
  destruct (Z.ltb_spec (retry_buffer_max_samples t) (zlen (writes t) + zlen (queries t))) as [Hlt|Hle].
  - pose proof (drop_counts_spec (Z.to_nat (zlen (writes t) + zlen (queries t) - retry_buffer_max_samples t))
      (zlen (writes t)) (zlen (queries t)) 0 0 ltac:(lia) ltac:(lia) ltac:(lia)) as Hd.
    destruct (drop_counts _ _ _ _ _) as [w q]. unfold tracker_inv. cbn [channel writes queries tables metrics
      retry_buffer_max_samples with_buffered add_write_dropped add_query_dropped write_samples_dropped_total
      query_samples_dropped_total]. split_and!.
    + apply accounted_drop; [lia|done].
    + apply accounted_drop; [lia|done].
    + apply u64_wrap_range.
    + apply u64_wrap_range.
    + apply u64_wrap_range.
    + apply u64_wrap_range.
    + done.
    + rewrite !length_drop. lia.
  - unfold tracker_inv. cbn. split_and!; (done || lia).
Qed.

Lemma flush_inv b bw bq sw sq t aw aq :
  tracker_inv b bw bq sw sq t → tracker_inv (b && answer_kept aw && answer_kept aq) bw bq sw sq (flush t aw aq).
Proof.
  intros (Hw & Hq & Hrw & Hrq & Hr & Hlen).
  assert (∀ b', b' && answer_kept aw && answer_kept aq = true → b' = true) as Hb by (intros []; naive_solver).
  assert (tracker_inv (b && answer_kept aw && answer_kept aq) bw bq sw sq t) as Hsame.
  { split; [by eapply accounted_weaken; [apply Hb|]|]. split; [by eapply accounted_weaken; [apply Hb|]|done]. }
  unfold flush. destruct (flush_samples insert_write_samples aw _ _ _ _) as [[[[db1 ws] wf] m1] wd] eqn:Hfw.
  pose proof (accounted_flush insert_write_samples ingestion_events aw _ _ _ _ _ _ _ _ _ b bw sw _ _
    (λ db l db' H, proj1 (insert_write_events db l db' H)) Hrw Hfw Hw) as Hw1.
  destruct (flush_samples_other insert_write_samples query_events aw _ _ _ _ _ _ _ _ _
    (λ db l db' H, proj2 (insert_write_events db l db' H)) Hfw) as (Heq1 & Hm1 & Hm1' & _).
  destruct (flush_samples insert_query_samples aq _ _ _ _) as [[[[db2 qs] qf] m2] qd] eqn:Hfq.
  destruct (flush_samples_other insert_query_samples ingestion_events aq _ _ _ _ _ _ _ _ _
    (λ db l db' H, proj2 (insert_query_events db l db' H)) Hfq) as (Heq2 & Hm2 & Hm2' & _).
  cbn in Hm2, Hm2'.
  assert (accounted (b && answer_kept aq) bq sq (channel_queries (channel t)) qs (query_events db2)
    (u64_wrap (query_samples_dropped_total (metrics t) + qd))) as Hq1.
  { rewrite <-Hm1' in *. refine (accounted_flush insert_query_samples query_events aq _ _ _ _ _ _ _ _ _ b bq sq _ _
      (λ db l db' H, proj1 (insert_query_events db l db' H)) Hrq Hfq _). by rewrite Heq1. }
  assert (tracker_inv (b && answer_kept aw && answer_kept aq) bw bq sw sq (enforce_retry_buffer_limit
    (mkUsageTracker (channel_capacity t) (batch_size t) (retry_buffer_max_samples t) (channel t)
       (worker_running t) ws qs wf qf db2 (with_buffered (add_query_dropped m2 qd) (zlen ws + zlen qs))))) as Hdone.
  { apply enforce_inv; cbn; try done.
    - rewrite Heq2, Hm2, Hm1. eapply accounted_weaken; [|exact Hw1]. by intros [? _]%andb_true_iff.
    - rewrite Hm2', Hm1'. eapply accounted_weaken; [|exact Hq1]. destruct b, (answer_kept aw), (answer_kept aq); done.
    - rewrite Hm2. apply u64_wrap_range.
    - apply u64_wrap_range. }
  destruct (writes t) eqn:Hwt, (queries t) eqn:Hqt; [exact Hsame|exact Hdone..].
Qed.

Lemma tracker_step_inv b bw bq sw sq t e t' :
  tracker_step t e = Some t' → tracker_inv b bw bq sw sq t →
  tracker_inv (b && answers_kept e) bw bq (sw ++ sent_writes [e]) (sq ++ sent_queries [e]) t'.
Proof.
  intros Hstep Hinv. unfold sent_writes, sent_queries.
  destruct e as [s|s|aw aq|aw aq|aw aq]; cbn [omap list_omap answers_kept] in *; rewrite ?app_nil_r, ?andb_true_r.
  - injection Hstep as <-. destruct Hinv as (Hw & Hq & Hrw & Hrq & Hr & Hlen).
    unfold record_write, try_send. destruct (_ && _); unfold tracker_inv; cbn.
    + unfold channel_writes, channel_queries in *. rewrite !omap_app. cbn. rewrite app_nil_r.
      split; [by apply accounted_send|done].
    + split; [by apply accounted_reject|]. split; [done|]. split; [apply u64_wrap_range|done].
  - injection Hstep as <-. destruct Hinv as (Hw & Hq & Hrw & Hrq & Hr & Hlen).
    unfold record_query, try_send. destruct (_ && _); unfold tracker_inv; cbn.
    + unfold channel_writes, channel_queries in *. rewrite !omap_app. cbn. rewrite app_nil_r.
      split; [done|]. split; [by apply accounted_send|done].
    + split; [done|]. split; [by apply accounted_reject|]. split; [done|]. split; [apply u64_wrap_range|done].
  - cbn in Hstep. destruct (worker_running t); [|done]. destruct (channel t) as [|event rest] eqn:Hc; [done|].
    destruct Hinv as (Hw & Hq & Hrw & Hrq & Hr & Hlen). rewrite Hc in *.
    set (t1 := enforce_retry_buffer_limit _) in Hstep.
    assert (tracker_inv b bw bq sw sq t1) as Hinv1.
    { apply enforce_inv; cbn; try done; destruct event; cbn in *; try done; by apply accounted_receive. }
    destruct (_ <=? _); injection Hstep as <-; [rewrite andb_assoc; by apply flush_inv|].
    destruct Hinv1 as (Hw1 & Hq1 & ?). split; [|split; [|done]]; (eapply accounted_weaken; [|done]); by intros [? _]%andb_true_iff.
  - cbn in Hstep. destruct (worker_running t); [|done]. injection Hstep as <-. rewrite andb_assoc. by apply flush_inv.
  - cbn in Hstep. destruct (worker_running t); [|done]. destruct (channel t) eqn:Hc; [|done]. injection Hstep as <-.
    rewrite andb_assoc. exact (flush_inv _ _ _ _ _ _ aw aq Hinv).
Qed.

Lemma tracker_run_inv es : ∀ b bw bq sw sq t t',
  tracker_run t es = Some t' → tracker_inv b bw bq sw sq t →
  tracker_inv (b && forallb answers_kept es) bw bq (sw ++ sent_writes es) (sq ++ sent_queries es) t'.
Proof.
  induction es as [|e es IH]; intros b bw bq sw sq t t' Hrun Hinv; cbn in Hrun.
  - simplify_eq. cbn. by rewrite andb_true_r, !app_nil_r.
  - destruct (tracker_step t e) as [t1|] eqn:Hs; [|done]. cbn [forallb].
    specialize (IH _ _ _ _ _ _ _ Hrun (tracker_step_inv _ _ _ _ _ _ _ _ Hs Hinv)).
    rewrite andb_assoc. unfold sent_writes, sent_queries in *.
    rewrite <-!app_assoc, <-!omap_app in IH. exact IH.
Qed.

(** ** Theorems *)

(** C18: No usage sample goes missing silently: whatever the interleaving of sends
    with the worker's rounds, and whatever the database answers, the samples
    sent are exactly those delivered to the event tables, those still buffered
    or in the channel, and those given up, which the drop counter counts; the
    buffers never exceed the retry limit; and an event is there twice only if
    the answer to a committed transaction was lost. *)
Theorem usage_samples_accounted capacity batch retry db es t :
  0 ≤ retry → tracker_run (spawn_with_options capacity batch retry db) es = Some t →
  let exact := forallb answers_kept es in
  accounted exact (ingestion_events db) (sent_writes es) (channel_writes (channel t)) (writes t)
    (ingestion_events (tables t)) (write_samples_dropped_total (metrics t)) ∧
  accounted exact (query_events db) (sent_queries es) (channel_queries (channel t)) (queries t)
    (query_events (tables t)) (query_samples_dropped_total (metrics t)) ∧
  zlen (writes t) + zlen (queries t) ≤ retry.
Proof.
  intros Hr Hrun exact.
  destruct (tracker_run_inv es true (ingestion_events db) (query_events db) [] [] _ _ Hrun) as (Hw & Hq & _ & _ & _ & Hlen).
  - unfold tracker_inv. cbn. split_and!; try lia; try done; exists [], [], []; rewrite !app_nil_r; done.
  - split; [exact Hw|]. split; [exact Hq|].
    assert (retry_buffer_max_samples t = retry) as <-; [|done].
    assert (∀ t, retry_buffer_max_samples (enforce_retry_buffer_limit t) = retry_buffer_max_samples t) as Henf.
    { intros u. unfold enforce_retry_buffer_limit. destruct (_ <? _); [|done]. by destruct (drop_counts _ _ _ _ _). }
    assert (∀ t aw aq, retry_buffer_max_samples (flush t aw aq) = retry_buffer_max_samples t) as Hfl.
    { intros u aw aq. unfold flush. destruct (flush_samples _ _ _ _ _ _) as [[[[? ?] ?] ?] ?].
      destruct (flush_samples insert_query_samples _ _ _ _ _) as [[[[? ?] ?] ?] ?].
      destruct (writes u), (queries u); rewrite ?Henf; done. }
    clear -Hrun Henf Hfl. change retry with (retry_buffer_max_samples (spawn_with_options capacity batch retry db)).
    revert Hrun. generalize (spawn_with_options capacity batch retry db) as u. induction es as [|e es IH]; intros u Hrun; cbn in Hrun.
    + by simplify_eq.
    + destruct (tracker_step u e) as [u1|] eqn:Hs; [|done]. rewrite (IH _ Hrun).
      destruct e; cbn in Hs; try (injection Hs as <-; unfold record_write, record_query, try_send; by destruct (_ && _));
        destruct (worker_running u); try done; try (destruct (channel u); try done);
        try (destruct (_ <=? _)); injection Hs as <-; cbn; rewrite ?Hfl, ?Henf; done.
Qed.

Lemma enforce_within (t : UsageTracker) : zlen (writes t) + zlen (queries t) ≤ retry_buffer_max_samples t →
  enforce_retry_buffer_limit t = with_metrics t (with_buffered (metrics t) (zlen (writes t) + zlen (queries t))).
Proof. intros Hle. unfold enforce_retry_buffer_limit. by rewrite (proj2 (Z.ltb_ge _ _)) by lia. Qed.

(** A flush when only writes are buffered. *)
Lemma flush_writes_only t aw aq : queries t = [] → writes t ≠ [] → zlen (writes t) ≤ retry_buffer_max_samples t →
  let '(db, ws, wf, _, _) :=
    flush_samples insert_write_samples aw (tables t) (writes t) (write_flush_failures t) (metrics t) in
  writes (flush t aw aq) = ws ∧ queries (flush t aw aq) = [] ∧ tables (flush t aw aq) = db ∧
  write_flush_failures (flush t aw aq) = wf ∧ worker_running (flush t aw aq) = worker_running t ∧
  retry_buffer_max_samples (flush t aw aq) = retry_buffer_max_samples t.
Proof.
  intros Hq Hne Hle. unfold flush. rewrite Hq.
  destruct (flush_samples insert_write_samples aw _ _ _ _) as [[[[db ws] wf] m] wd] eqn:Hf.
  destruct (flush_samples_other insert_write_samples query_events aw _ _ _ _ _ _ _ _ _
    (λ db l db' H, proj2 (insert_write_events db l db' H)) Hf) as (_ & _ & _ & Hlen).
  cbn [flush_samples]. destruct (writes t) as [|s l]; [done|].
  rewrite enforce_within by (cbn [writes queries retry_buffer_max_samples length] in *; lia). done.
Qed.

(** A usage batch whose commit succeeds but whose answer is lost is inserted
    again a tick later: every sample of it is then twice in the tables, and
    counts twice in everything computed from them. *)
Theorem lost_answer_bills_twice t db1 db2 t' :
  worker_running t = true → queries t = [] → writes t ≠ [] → write_flush_failures t = 0 →
  zlen (writes t) ≤ retry_buffer_max_samples t →
  insert_write_samples (tables t) (writes t) = Some db1 → insert_write_samples db1 (writes t) = Some db2 →
  tracker_run t [Tick AnswerLost Committed; Tick Committed Committed] = Some t' →
  writes t' = [] ∧ ingestion_events (tables t') = ingestion_events (tables t) ++ writes t ++ writes t.
Proof.
  intros Hrun Hq Hne Hf Hlen H1 H2 Hs. cbn [tracker_run tracker_step] in Hs. rewrite Hrun in Hs.
  pose proof (flush_writes_only t AnswerLost Committed Hq Hne Hlen) as Hfl. rewrite Hf in Hfl.
  destruct (writes t) as [|s l] eqn:Hw; [done|]. cbn [flush_samples] in Hfl. unfold answered in Hfl. rewrite H1 in Hfl.
  cbn in Hfl. destruct Hfl as (Hw1 & Hq1 & Hdb1 & _ & Hrun1 & Hret1). set (t1 := flush t _ _) in *.
  rewrite Hrun1, Hrun in Hs. injection Hs as <-.
  pose proof (flush_writes_only t1 Committed Committed Hq1 ltac:(by rewrite Hw1) ltac:(by rewrite Hw1, Hret1)) as Hfl.
  rewrite Hw1, Hdb1 in Hfl. cbn [flush_samples] in Hfl. unfold answered in Hfl. rewrite H2 in Hfl.
  destruct Hfl as (-> & _ & -> & _). split; [done|].
  destruct (insert_write_events _ _ _ H1) as [E1 _], (insert_write_events _ _ _ H2) as [E2 _].
  by rewrite E2, E1, <-app_assoc.
Qed.
End Tracker.

(** ** Witnesses *)

Section Witnesses.
Local Existing Instance calendar_concrete.

Definition tracker_events : list TrackerEvent :=
  [SendWrite (sample_write 1 100 5 PolicyStore.Logs); SendQuery (sample_query 1 7 5); SendWrite (sample_write 1 50 6 PolicyStore.Logs);
   SendWrite (sample_write 2 1 6 PolicyStore.Logs);
   Recv Committed Committed; Recv Committed Committed; Tick AnswerLost Committed; Recv Refused Committed; Tick Committed Committed].

Definition tracker_end : UsageTracker :=
  default (spawn_with_options 3 10 10 usage_db_empty) (tracker_run (spawn_with_options 3 10 10 usage_db_empty) tracker_events).

Lemma usage_samples_accounted_witness :
  tracker_run (spawn_with_options 3 10 10 usage_db_empty) tracker_events = Some tracker_end ∧
  accounted false [] (sent_writes tracker_events) [] [] (ingestion_events (tables tracker_end)) 1.
Proof.
  assert (tracker_run (spawn_with_options 3 10 10 usage_db_empty) tracker_events = Some tracker_end) as Hrun
    by (vm_compute; reflexivity).
  split; [exact Hrun|].
  destruct (usage_samples_accounted 3 10 10 usage_db_empty tracker_events tracker_end ltac:(lia) Hrun) as (Hw & _).
  exact Hw.
Defined.

Definition before_tick : UsageTracker :=
  default (spawn_with_options 3 10 10 usage_db_empty)
    (tracker_run (spawn_with_options 3 10 10 usage_db_empty)
       [SendWrite (sample_write 1 100 5 PolicyStore.Logs); Recv Committed Committed]).

Definition billed (n : nat) : UsageDb :=
  Nat.iter n (λ db, default db (insert_write_samples db [sample_write 1 100 5 PolicyStore.Logs])) usage_db_empty.

Definition after_ticks : UsageTracker :=
  default before_tick (tracker_run before_tick [Tick AnswerLost Committed; Tick Committed Committed]).

Lemma lost_answer_bills_twice_witness :
  tracker_run before_tick [Tick AnswerLost Committed; Tick Committed Committed] = Some after_ticks ∧
  period_used_bytes (tables after_ticks) 1 PolicyStore.Logs Ingest 0 None = Ok 200.
Proof.
  assert (tracker_run before_tick [Tick AnswerLost Committed; Tick Committed Committed] = Some after_ticks) as Hrun
    by (vm_compute; reflexivity).
  split; [exact Hrun|].
  destruct (lost_answer_bills_twice before_tick (billed 1) (billed 2) after_ticks) as [_ He].
  - vm_compute. reflexivity.
  - vm_compute. reflexivity.
  - vm_compute. discriminate.
  - vm_compute. reflexivity.
  - vm_compute. discriminate.
  - vm_compute. reflexivity.
  - vm_compute. reflexivity.
  - exact Hrun.
  - unfold period_used_bytes. rewrite He. vm_compute. reflexivity.
Defined.
End Witnesses.
