(* ===== verification/Billing.v ===== *)
(** What is billed as ingestion: the usage sample the Parquet writer records
    ([zradar-parquet/src/writer.rs]), for files that clients sent and for files
    the compactor merges alike, and the two implementations of the usage reader
    that quotas are checked against. *)

From stdpp Require Import base gmap sorting list strings.
From S2P Require Import Prelude PolicyStore Enforcer FileList WriteBuffer TelemetryWriter ParquetWriter Compactor PgUsage PgUsageWorker.
From S2P Require Usage.

(** [signal_kind] of the writer; scores count as traces. *)
Definition signal_of_type (signal_type : string) : SignalKind :=
  if decide (signal_type = "traces") then Traces
  else if decide (signal_type = "logs") then PolicyStore.Logs
  else if decide (signal_type = "metrics") then PolicyStore.Metrics
  else if decide (signal_type = "scores") then Traces
  else if decide (signal_type = "rum") then Rum
  else if decide (signal_type = "session_replay") then SessionReplay
  else if decide (signal_type = "error_tracking") then ErrorTracking
  else AllSignals.

Section Billing.
Context `{Chrono} `{UuidText} {R : Type}.
Abbreviation St := (Store R).

(** The sample of a written file, and the samples of a call: one once the file
    is registered, even when the statistics then fail. *)
Definition write_sample (job : WriteJob R) (env : WriteEnv) (file_id : Z) : WriteSample :=
  mkWriteSample (parse_uuid_or_nil (wj_workspace_id job)) (signal_of_type (wj_signal_type job))
    (Some (wj_stream_name job)) (we_compressed_size env) (Some (we_original_size env)) (wj_record_count job)
    (Some file_id) SumAllow (we_now_us env).

Definition write_usage (st : St) (job : WriteJob R) (env : WriteEnv) : list WriteSample :=
  match (write_batch st job env).2 with
  | Ok _ | Err (StageFailed UpsertStats) => [write_sample job env (next_file_id (st_db st))]
  | _ => []
  end.

(** The samples of a merge, which goes through the same writer. *)
Definition compact_usage (st : St) (workspace_id signal_type : string) (files : list FileListEntry)
    (env : CompactEnv) : list WriteSample :=
  match read_parquet_files st (map fe_file_path files) with
  | Ok ((_ :: _) as merged) =>
      if ce_concat_ok env then write_usage st (merge_job workspace_id signal_type files merged) (ce_write env) else []
  | _ => []
  end.
End Billing.

Lemma filter_snoc_sum (f : WriteSample → Z) (P : WriteSample → bool) l s :
  P s = true → zsum (map f (filter (λ e, P e = true) (l ++ [s]))) = zsum (map f (filter (λ e, P e = true) l)) + f s.
Proof.
  intros HP. rewrite filter_snoc_keep, map_app, zsum_app by done. cbn. rewrite zsum_cons, zsum_nil. lia.
Qed.

Section Theorems.
Context `{Chrono} `{UuidText} `{ChronoCalendar} {R : Type}.
Abbreviation St := (Store R).

Lemma compact_usage_success (st : St) w sig files env st' :
  store_ok st → mergeable st files → files_rows st files ≠ [] →
  compact_group st (uuid_to_string w) sig files env = (st', Ok ()) →
  compact_usage st (uuid_to_string w) sig files env =
    [write_sample (merge_job (uuid_to_string w) sig files (files_rows st files)) (ce_write env)
       (next_file_id (st_db st))].
Proof.
  intros Hok Hm Hne Hc. pose proof (compact_group_cases st w sig files env Hok Hm) as Hcases. cbn zeta in Hcases.
  destruct (write_batch st _ _) as [st1 res] eqn:Hw. rewrite Hc, decide_False in Hcases by done.
  unfold compact_usage, read_parquet_files. destruct Hm as (_ & _ & Hf). rewrite (read_mergeable st files [] Hok Hf). cbn [app].
  destruct (files_rows st files) as [|r rs] eqn:Hrs; [done|].
  destruct (ce_concat_ok env); [|done]. cbn [negb] in Hcases. unfold write_usage. rewrite Hw. by destruct res.
Qed.

(** Compaction is billed as ingestion: a merge that succeeds leaves the queries
    the same rows as before, yet it records a usage sample of the merged file's
    size, and once that sample is in the tables the bytes that the workspace's
    ingestion quota is checked against, in every period that contains the
    merge, have grown by that size although no client sent anything. *)
Theorem compaction_billed_as_ingestion (st : St) cutoff max g w sig env st' db db' period_start period_end z z' :
  store_ok st → g ∈ query_compactable_groups (st_db st) cutoff → small_files max g ≠ [] →
  let files := small_files max g in
  files_rows st files ≠ [] →
  fresh_paths st (merge_job (uuid_to_string w) sig files (files_rows st files)) (ce_write env) →
  compact_group st (uuid_to_string w) sig files env = (st', Ok ()) →
  in_period period_start period_end (we_now_us (ce_write env)) = true →
  insert_write_samples db (compact_usage st (uuid_to_string w) sig files env) = Some db' →
  period_used_bytes db w (signal_of_type sig) Ingest period_start period_end = Ok z →
  period_used_bytes db' w (signal_of_type sig) Ingest period_start period_end = Ok z' →
  visible st' ≡ₚ visible st ∧ z' = z + we_compressed_size (ce_write env).
Proof.
  intros Hok Hg Hne files Hrows Hfresh Hc Hper Hins Hz Hz'.
  pose proof (small_group_mergeable st cutoff max g Hok Hg Hne) as Hm. fold files in Hm.
  destruct (compact_group_visible st cutoff max g w sig env st' (Ok ()) Hok Hg Hne Hfresh Hc) as (_ & _ & Hv & _).
  split; [by apply Hv|].
  rewrite (compact_usage_success _ _ _ _ _ _ Hok Hm Hrows Hc) in Hins.
  destruct (insert_write_events _ _ _ Hins) as [Hev _]. unfold period_used_bytes in *. rewrite Hev in Hz'.
  apply sum_bigint_Ok in Hz, Hz'.
  rewrite (filter_snoc_sum ws_compressed_bytes
    (λ e, write_matches w (signal_of_type sig) e && in_period period_start period_end (ws_flushed_at e))) in Hz'.
  - rewrite Hz', Hz. done.
  - cbn. rewrite Hper, andb_true_r. unfold write_matches, row_matches. cbn.
    unfold parse_uuid_or_nil. rewrite parse_uuid_to_string. cbn. rewrite Z.eqb_refl. cbn.
    apply bool_decide_eq_true. by right.
Qed.
End Theorems.

(** ** The two usage readers *)

Definition write_in_memory (s : WriteSample) : Usage.WriteSample :=
  Usage.mkWriteSample (ws_workspace_id s) (ws_signal s) (ws_compressed_bytes s) (ws_records s) (ws_flushed_at s).
Definition query_in_memory (s : QuerySample) : Usage.QuerySample :=
  Usage.mkQuerySample (qs_workspace_id s) (qs_signal s) (qs_bytes_scanned s) (qs_submitted_at s).

(** The history of an in-memory tracker that saw the events of the tables. *)
Definition memory_history (db : UsageDb) : list Usage.Sample :=
  map (λ s, Usage.SWrite (write_in_memory s)) (ingestion_events db) ++
  map (λ s, Usage.SQuery (query_in_memory s)) (query_events db).

Lemma zsum_if {A : Type} (f : A → Z) (P : A → bool) l :
  zsum (map (λ x, if P x then f x else 0) l) = zsum (map f (filter (λ x, P x = true) l)).
Proof.
  induction l as [|x l IH]; [done|]. cbn [map]. rewrite zsum_cons, IH, filter_cons.
  destruct (P x); [rewrite decide_True by done; cbn [map]; by rewrite zsum_cons|by rewrite decide_False].
Qed.

Lemma zsum_zero {A : Type} (f : A → Z) l : (∀ x, f x = 0) → zsum (map f l) = 0.
Proof. intros Hf. induction l as [|x l IH]; [done|]. cbn [map]. by rewrite zsum_cons, Hf, IH. Qed.

Lemma memory_bytes b : 0 ≤ b ≤ i64_max → u64_to_i64_saturating (Usage.i64_to_u64_or_0 b) = b.
Proof.
  intros Hb. unfold Usage.i64_to_u64_or_0, u64_to_i64_saturating. rewrite (proj2 (Z.leb_le 0 b)) by lia.
  destruct (Z.leb_spec b i64_max); lia.
Qed.

Lemma row_matches_memory ws s op row_ws row_signal row_op :
  op ≠ AllOperations →
  Usage.usage_key_matches (row_ws, row_signal, row_op) ws s op =
    row_matches ws s row_ws (signal_kind row_signal) && bool_decide (op = row_op).
Proof.
  intros Hop. unfold Usage.usage_key_matches, row_matches. cbn [fst snd]. f_equal; [f_equal|]; apply bool_decide_ext.
  - split; (intros [?|Heq]; [by left|right]); [by subst|by apply signal_kind_inj].
  - split; [intros [?|?]; [done|by subst]|]. intros ->. by right.
Qed.

Lemma bounded_in max l x : bounded max l → x ∈ l → 0 ≤ x ≤ max.
Proof.
  intros [Hf Hle] Hin. apply list_elem_of_split in Hin as (l1 & l2 & ->). apply Forall_app in Hf as [H1 [Hx H2]%Forall_cons].
  apply zsum_nonneg in H1, H2. rewrite zsum_app, zsum_cons in Hle. lia.
Qed.

(** The quota check does not depend on where usage is kept: for ingestion and
    for queries the Postgres reader and the in-memory tracker that recorded the
    same samples, in whatever order, report the same bytes for every
    workspace, signal and period. (For [Operation::All] they do not: the tables
    answer zero and the tracker the sum.) *)
Theorem usage_readers_agree db hist entries ws s op period_start period_end :
  hist ≡ₚ memory_history db → entries ≡ₚ map_to_list (Usage.events (Usage.tracker_after hist)) →
  bounded i64_max (map ws_compressed_bytes (ingestion_events db)) →
  bounded i64_max (map qs_bytes_scanned (query_events db)) →
  op = Ingest ∨ op = Query →
  period_used_bytes db ws s op period_start period_end =
    Ok (Usage.tracker_period_used_bytes entries ws s op period_start period_end).
Proof.
  intros Hh He Hw Hq Hop. rewrite (Usage.period_used_history hist) by done. rewrite Hh. unfold memory_history.
  rewrite map_app, zsum_app, !map_map.
  assert (∀ (P : WriteSample → bool), zsum (map (λ x, if P x then u64_to_i64_saturating
      (Usage.up_bytes (Usage.sample_point (Usage.SWrite (write_in_memory x)))) else 0) (ingestion_events db)) =
    zsum (map ws_compressed_bytes (filter (λ e, P e = true) (ingestion_events db)))) as Hws.
  { intros P. rewrite <-zsum_if. f_equal. apply map_ext_in. intros x Hx%list_elem_of_In. cbn.
    rewrite memory_bytes; [done|]. eapply bounded_in; [exact Hw|]. by apply list_elem_of_fmap_2. }
  assert (∀ (P : QuerySample → bool), zsum (map (λ x, if P x then u64_to_i64_saturating
      (Usage.up_bytes (Usage.sample_point (Usage.SQuery (query_in_memory x)))) else 0) (query_events db)) =
    zsum (map qs_bytes_scanned (filter (λ e, P e = true) (query_events db)))) as Hqs.
  { intros P. rewrite <-zsum_if. f_equal. apply map_ext_in. intros x Hx%list_elem_of_In. cbn.
    rewrite memory_bytes; [done|]. eapply bounded_in; [exact Hq|]. by apply list_elem_of_fmap_2. }
  rewrite Hws, Hqs. cbn [Usage.sample_key write_in_memory query_in_memory Usage.ws_workspace_id Usage.ws_signal
    Usage.qs_workspace_id Usage.qs_signal].
  assert (∀ {A} (f : A → Z) (P : A → bool) l, bounded i64_max (map f l) →
    bounded i64_max (map f (filter (λ e, P e = true) l))) as Hfit.
  { intros A f P l. apply bounded_sublist, filter_sublist. }
  destruct Hop as [-> | ->]; cbn [period_used_bytes].
  - rewrite (filter_none _ (query_events db)), (sum_bigint_fits (map _ _)) by
      (first [by apply Hfit|intros x _; rewrite row_matches_memory by done; cbn; by rewrite andb_false_r]).
    cbn [map]. rewrite zsum_nil, Z.add_0_r. f_equal. rewrite Z.min_l.
    + do 2 f_equal. apply list_filter_iff. intros x. rewrite row_matches_memory by done. cbn. by rewrite andb_true_r.
    + by apply (Hfit _ ws_compressed_bytes).
  - rewrite (filter_none _ (ingestion_events db)), (sum_bigint_fits (map _ _)) by
      (first [by apply Hfit|intros x _; rewrite row_matches_memory by done; cbn; by rewrite andb_false_r]).
    cbn [map]. rewrite zsum_nil, Z.add_0_l. f_equal. rewrite Z.min_l.
    + do 2 f_equal. apply list_filter_iff. intros x. rewrite row_matches_memory by done. cbn. by rewrite andb_true_r.
    + by apply (Hfit _ qs_bytes_scanned).
Qed.

(** ** Witnesses *)

Section Witnesses.
Local Existing Instance chrono_concrete.
Local Existing Instance uuid_concrete.
Local Existing Instance calendar_concrete.

Definition merged_store : Store Z :=
  (compact_group two_files (unary_id 3) "logs" (small_files 100 sample_group) (sample_compact_env None)).1.
Definition merge_usage : list WriteSample :=
  compact_usage two_files (unary_id 3) "logs" (small_files 100 sample_group) (sample_compact_env None).
Definition merge_billed : UsageDb := default usage_db_empty (insert_write_samples usage_db_empty merge_usage).

Lemma compaction_billed_as_ingestion_witness :
  visible merged_store ≡ₚ visible two_files ∧
  period_used_bytes merge_billed 3 PolicyStore.Logs Ingest 0 None = Ok (we_compressed_size (ce_write (sample_compact_env None))).
Proof.
  destruct (compaction_billed_as_ingestion two_files 150 100 sample_group 3 "logs" (sample_compact_env None) merged_store
    usage_db_empty merge_billed 0 None 0 (we_compressed_size (ce_write (sample_compact_env None)))) as [Hv _].
  - exact two_files_ok.
  - apply (bool_decide_unpack _). vm_compute. exact I.
  - vm_compute. discriminate.
  - vm_compute. discriminate.
  - apply fresh_pathsb_correct. vm_compute. reflexivity.
  - vm_compute. reflexivity.
  - vm_compute. reflexivity.
  - vm_compute. reflexivity.
  - reflexivity.
  - vm_compute. reflexivity.
  - split; [exact Hv|]. vm_compute. reflexivity.
Defined.

Lemma usage_readers_agree_witness :
  period_used_bytes month_db 1 PolicyStore.Logs Ingest 0 (Some 6) = Ok 100.
Proof.
  rewrite (usage_readers_agree month_db (memory_history month_db)
    (map_to_list (Usage.events (Usage.tracker_after (memory_history month_db)))) 1 PolicyStore.Logs Ingest 0 (Some 6)).
  - vm_compute. reflexivity.
  - reflexivity.
  - reflexivity.
  - apply bounded_dec_correct. vm_compute. reflexivity.
  - apply bounded_dec_correct. vm_compute. reflexivity.
  - left. reflexivity.
Defined.
End Witnesses.
