(* ===== verification/StorageUsage.v ===== *)
(** Storage accounting: the [StorageUsageRepository] of
    [zradar-plugin-postgres/src/repositories/storage_usage.rs] and the daily
    snapshot job [zradar-retention/src/storage_usage_daily.rs].

    What the reclaimer removes is booked per workspace, signal and day; the job
    carries a snapshot of the stored bytes from day to day by what was ingested
    and what was removed, and counts the files where it has no snapshot of the
    day before. Timestamps kept beside the counts are not modelled. *)

From stdpp Require Import base gmap sorting list strings.
From S2P Require Import Prelude PolicyStore Enforcer FileList PgUsage.

(** Bytes and files. *)
Abbreviation Amount := (Z * Z)%type.

Record StorageUsageDelta := mkStorageUsageDelta {
  sd_workspace_id : Z;
  sd_signal_kind : string;
  sd_day : Z;
  sd_compressed_bytes : Z;
  sd_file_count : Z;
}.

Record StorageDb := mkStorageDb {
  storage_cleanup_daily : gmap DayKey Amount;
  retention_storage_daily : gmap DayKey Amount;
}.

Definition storage_db_empty : StorageDb := mkStorageDb ∅ ∅.

(** ** The repository *)

Definition amount_update (old new : Amount) : option Amount :=
  bytes ← sql_add old.1 new.1;
  count ← sql_add old.2 new.2;
  Some (bytes, count).

(** [upsert_cleanup_deltas]; the deltas of a statement have distinct keys. *)
Definition upsert_cleanup_deltas (t : gmap DayKey Amount) (deltas : list StorageUsageDelta) : option (gmap DayKey Amount) :=
  upsert_rows (λ _, true) amount_update t
    (map (λ d, ((sd_workspace_id d, sd_signal_kind d, sd_day d),
                (Z.max (sd_compressed_bytes d) 0, Z.max (sd_file_count d) 0))) deltas).

Definition record_cleanup_daily (db : StorageDb) (deltas : list StorageUsageDelta) : option StorageDb :=
  match deltas with
  | [] => Some db
  | _ => t ← upsert_cleanup_deltas (storage_cleanup_daily db) deltas; Some (mkStorageDb t (retention_storage_daily db))
  end.

(** One transaction over both tables. *)
Definition record_cleanup_and_delete (db : StorageDb) (files : FileDb) (deltas : list StorageUsageDelta) (file_ids : list Z) :
    option (StorageDb * FileDb) :=
  match deltas, file_ids with
  | [], [] => Some (db, files)
  | _, _ =>
      db ← record_cleanup_daily db deltas;
      Some (db, match file_ids with [] => files | _ => delete_entries files file_ids end)
  end.

Definition get_ingestion_daily (usage : UsageDb) (ws : Z) (kind : string) (day : Z) : Amount :=
  match ingestion_daily usage !! (ws, kind, day) with
  | Some row => (id_compressed_bytes row, id_file_count row)
  | None => (0, 0)
  end.

Definition get_cleanup_daily (db : StorageDb) (ws : Z) (kind : string) (day : Z) : Amount :=
  default (0, 0) (storage_cleanup_daily db !! (ws, kind, day)).

Definition get_previous_snapshot (db : StorageDb) (ws : Z) (kind : string) (day : Z) : option Amount :=
  retention_storage_daily db !! (ws, kind, day - 1).

Definition upsert_storage_snapshot (db : StorageDb) (ws : Z) (kind : string) (day : Z) (amount : Amount) : StorageDb :=
  mkStorageDb (storage_cleanup_daily db) (<[(ws, kind, day) := amount]> (retention_storage_daily db)).

(** The live files of a key created before a time. *)
Definition current_files (files : FileDb) (ws : Z) (kind : string) (before_micros : Z) : list FileListEntry :=
  filter (λ e, fe_workspace_id e = ws ∧ fe_signal_type e = kind ∧ fe_deleted e = false ∧ fe_created_at e < before_micros)
    (rows_list files).

(** [None] when the sum is no [bigint]. *)
Definition get_current_file_stats (files : FileDb) (ws : Z) (kind : string) (before_micros : Z) : option Amount :=
  let rows := current_files files ws kind before_micros in
  match sum_bigint (map fe_compressed_size rows) with Ok bytes => Some (bytes, zlen rows) | _ => None end.

(** ** The daily job *)

Definition day_end_micros (day : Z) : Z := (day + 1) * DAY_MICROS.

(** [snapshot_one_key]; [fails] when one of its statements does. The sums of
    the incremental case wrap. *)
Definition snapshot_one_key (usage : UsageDb) (files : FileDb) (db : StorageDb) (ws : Z) (kind : string) (day : Z)
    (fails : bool) : option StorageDb :=
  if fails then None
  else
    amount ←
      match get_previous_snapshot db ws kind day with
      | Some (prev_bytes, prev_count) =>
          let '(added_bytes, added_count) := get_ingestion_daily usage ws kind day in
          let '(removed_bytes, removed_count) := get_cleanup_daily db ws kind day in
          Some (Z.max (i64_wrap (prev_bytes + added_bytes - removed_bytes)) 0,
                Z.max (i64_wrap (prev_count + added_count - removed_count)) 0)
      | None => get_current_file_stats files ws kind (day_end_micros day)
      end;
    Some (upsert_storage_snapshot db ws kind day amount).

(** [run_now]: every active key; a key that fails is counted and skipped, and
    any failure makes the run an error. The keys run concurrently, but each
    reads and writes only its own rows. *)
Definition snapshot_keys (usage : UsageDb) (files : FileDb) (day : Z) (fails : Z * string → bool)
    (st : StorageDb * nat) (keys : list (Z * string)) : StorageDb * nat :=
  foldl (λ st key,
    match snapshot_one_key usage files st.1 key.1 key.2 day (fails key) with
    | Some db => (db, st.2)
    | None => (st.1, S st.2)
    end) st keys.

Definition storage_run_now (usage : UsageDb) (files : FileDb) (db : StorageDb) (day : Z) (fails : Z * string → bool) :
    StorageDb * outcome nat unit :=
  let keys := elements (list_active_keys files (day_end_micros day)) in
  let '(db, errors) := snapshot_keys usage files day fails (db, O) keys in
  (db, match errors with O => Ok () | _ => Err errors end).

(** ** Today's estimate *)

(** [derive_storage_usage_daily_rows] for one workspace: the incremental rows
    of the keys with a snapshot of the day before, and the live files of the
    other keys, whenever they were created. *)
Definition derive_storage_usage (usage : UsageDb) (files : FileDb) (db : StorageDb) (ws : Z) (day : Z) (kind : string) : option Amount :=
  match get_previous_snapshot db ws kind day with
  | Some (prev_bytes, prev_count) =>
      let '(added_bytes, added_count) := get_ingestion_daily usage ws kind day in
      let '(removed_bytes, removed_count) := get_cleanup_daily db ws kind day in
      Some (Z.max (prev_bytes + added_bytes - removed_bytes) 0, Z.max (prev_count + added_count - removed_count) 0)
  | None =>
      match filter (λ e, fe_workspace_id e = ws ∧ fe_signal_type e = kind ∧ fe_deleted e = false) (rows_list files) with
      | [] => None
      | rows => Some (zsum (map fe_compressed_size rows), zlen rows)
      end
  end.

(** [includes_day]. *)
Definition includes_day (start_micros end_micros : option Z) (day : Z) : bool :=
  when_some start_micros (λ t, t / DAY_MICROS <=? day) && when_some end_micros (λ t, day <=? t / DAY_MICROS).

(** ** Lemmas *)

Lemma snapshot_one_key_other usage files db ws kind day fails db' ws' kind' day' :
  snapshot_one_key usage files db ws kind day fails = Some db' → (ws', kind', day') ≠ (ws, kind, day) →
  retention_storage_daily db' !! (ws', kind', day') = retention_storage_daily db !! (ws', kind', day') ∧
  storage_cleanup_daily db' = storage_cleanup_daily db.
Proof.
  unfold snapshot_one_key. destruct fails; [done|]. intros Hs Hne.
  assert (∃ amount, db' = upsert_storage_snapshot db ws kind day amount) as [amount ->].
  { revert Hs. destruct (get_previous_snapshot db ws kind day) as [[? ?]|].
    - destruct (get_ingestion_daily _ _ _ _), (get_cleanup_daily _ _ _ _). cbn. intros [= <-]. by eexists.
    - destruct (get_current_file_stats _ _ _ _); cbn; [|done]. intros [= <-]. by eexists. }
  cbn. split; [|done]. by rewrite lookup_insert_ne.
Qed.

Lemma snapshot_keys_cleanup usage files day fails keys : ∀ st,
  storage_cleanup_daily (snapshot_keys usage files day fails st keys).1 = storage_cleanup_daily st.1.
Proof.
  induction keys as [|[ws kind] keys IH]; intros [db n]; [done|]. unfold snapshot_keys in *. cbn [foldl fst snd].
  rewrite IH. destruct (snapshot_one_key _ _ _ _ _ _ _) as [db'|] eqn:Hs; [|done]. cbn.
  destruct (decide ((ws, kind, day - 1) = (ws, kind, day))) as [[= ?]|Hne]; [lia|].
  by destruct (snapshot_one_key_other _ _ _ _ _ _ _ _ _ _ _ Hs Hne).
Qed.

Lemma snapshot_keys_other usage files day fails keys ws kind day' : ∀ st,
  ((ws, kind) ∉ keys ∨ day' ≠ day) →
  retention_storage_daily (snapshot_keys usage files day fails st keys).1 !! (ws, kind, day') =
    retention_storage_daily st.1 !! (ws, kind, day').
Proof.
  induction keys as [|[w k] keys IH]; intros [db n] Hne; [done|]. unfold snapshot_keys in *. cbn [foldl fst snd].
  rewrite IH by (rewrite not_elem_of_cons in Hne; tauto).
  destruct (snapshot_one_key _ _ _ _ _ _ _) as [db'|] eqn:Hs; [|done]. cbn.
  refine (proj1 (snapshot_one_key_other _ _ _ _ _ _ _ _ _ _ _ Hs _)).
  rewrite not_elem_of_cons in Hne. intros [= -> -> ->]. tauto.
Qed.

(** The snapshot a run leaves for an active key that does not fail. *)
Lemma storage_run_now_key usage files db day fails ws kind :
  (ws, kind) ∈ list_active_keys files (day_end_micros day) → fails (ws, kind) = false →
  retention_storage_daily (storage_run_now usage files db day fails).1 !! (ws, kind, day) =
    match snapshot_one_key usage files db ws kind day false with
    | Some db' => retention_storage_daily db' !! (ws, kind, day)
    | None => retention_storage_daily db !! (ws, kind, day)
    end.
Proof.
  intros Hin Hf. unfold storage_run_now.
  pose proof (NoDup_elements (list_active_keys files (day_end_micros day))) as Hnd.
  apply elem_of_elements in Hin. set (keys := elements _) in *.
  assert (∀ st, NoDup keys → (ws, kind) ∈ keys →
    retention_storage_daily (snapshot_keys usage files day fails st keys).1 !! (ws, kind, day) =
    match snapshot_one_key usage files st.1 ws kind day false with
    | Some db' => retention_storage_daily db' !! (ws, kind, day)
    | None => retention_storage_daily st.1 !! (ws, kind, day) end) as Hk.
  { clear Hin Hnd. induction keys as [|[w k] keys IH]; intros [d n] Hnd Hin; [by apply not_elem_of_nil in Hin|].
    apply NoDup_cons in Hnd as [Hni Hnd]. unfold snapshot_keys in *. cbn [foldl fst snd].
    destruct (decide ((w, k) = (ws, kind))) as [[= -> ->]|Hne].
    - rewrite Hf. etrans; [apply (snapshot_keys_other usage files day fails keys ws kind day); by left|].
      by destruct (snapshot_one_key usage files d ws kind day false).
    - apply elem_of_cons in Hin as [?|Hin]; [congruence|].
      set (st1 := match snapshot_one_key usage files d w k day (fails (w, k)) with Some db0 => _ | None => _ end).
      rewrite IH by done.
      assert (∀ day', retention_storage_daily st1.1 !! (ws, kind, day') = retention_storage_daily d !! (ws, kind, day')
        ∧ storage_cleanup_daily st1.1 = storage_cleanup_daily d) as Hsame.
      { intros day'. subst st1. destruct (snapshot_one_key usage files d w k day _) as [d'|] eqn:Hs; [|done]. cbn.
        apply (snapshot_one_key_other _ _ _ _ _ _ _ _ _ _ _ Hs). intros [= -> -> ->]. done. }
      unfold snapshot_one_key, get_previous_snapshot, get_cleanup_daily.
      rewrite (proj1 (Hsame (day - 1))), (proj2 (Hsame day)), (proj1 (Hsame day)).
      destruct (retention_storage_daily d !! (ws, kind, day - 1)) as [[? ?]|].
      + destruct (get_ingestion_daily _ _ _ _). destruct (default _ _). cbn. by rewrite !lookup_insert_eq.
      + destruct (get_current_file_stats _ _ _ _); cbn; [by rewrite !lookup_insert_eq|done]. }
  specialize (Hk (db, O) Hnd Hin). destruct (snapshot_keys _ _ _ _ _ _). exact Hk.
Qed.

(** The days [first], [first + 1], ..., one run each; [files_of] is the file
    table a run finds. *)
Fixpoint storage_run_days (usage : UsageDb) (files_of : Z → FileDb) (first : Z) (n : nat) (db : StorageDb) : StorageDb :=
  match n with
  | O => db
  | S n => storage_run_days usage files_of (first + 1) n
             (storage_run_now usage (files_of first) db first (λ _, false)).1
  end.

(** What a day changes, and the changes of the first [n] days. *)
Definition net_day (usage : UsageDb) (db : StorageDb) (ws : Z) (kind : string) (day : Z) : Amount :=
  ((get_ingestion_daily usage ws kind day).1 - (get_cleanup_daily db ws kind day).1,
   (get_ingestion_daily usage ws kind day).2 - (get_cleanup_daily db ws kind day).2).

Definition net_days (usage : UsageDb) (db : StorageDb) (ws : Z) (kind : string) (first : Z) (n : nat) : Amount :=
  (zsum (map (λ i, (net_day usage db ws kind (first + Z.of_nat i)).1) (seq 0 n)),
   zsum (map (λ i, (net_day usage db ws kind (first + Z.of_nat i)).2) (seq 0 n))).

Lemma net_days_S usage db ws kind first n :
  (net_days usage db ws kind first (S n)).1 = (net_day usage db ws kind first).1 + (net_days usage db ws kind (first + 1) n).1 ∧
  (net_days usage db ws kind first (S n)).2 = (net_day usage db ws kind first).2 + (net_days usage db ws kind (first + 1) n).2.
Proof.
  unfold net_days. cbn [seq map fst snd]. rewrite !zsum_cons, Z.add_0_r, <-!seq_shift, !map_map.
  split; (f_equal; f_equal; apply map_ext; intros i; do 2 f_equal; lia).
Qed.

Lemma storage_run_now_cleanup usage files db day fails :
  storage_cleanup_daily (storage_run_now usage files db day fails).1 = storage_cleanup_daily db.
Proof.
  unfold storage_run_now. pose proof (snapshot_keys_cleanup usage files day fails (elements (list_active_keys files (day_end_micros day))) (db, O)).
  by destruct (snapshot_keys _ _ _ _ _ _).
Qed.

(** The snapshot of a key with one of the day before. *)
Lemma storage_run_now_incremental usage files db day ws kind b c :
  (ws, kind) ∈ list_active_keys files (day_end_micros day) →
  retention_storage_daily db !! (ws, kind, day - 1) = Some (b, c) →
  0 ≤ b + (net_day usage db ws kind day).1 ≤ i64_max → 0 ≤ c + (net_day usage db ws kind day).2 ≤ i64_max →
  retention_storage_daily (storage_run_now usage files db day (λ _, false)).1 !! (ws, kind, day) =
    Some (b + (net_day usage db ws kind day).1, c + (net_day usage db ws kind day).2).
Proof.
  intros Hin Hprev Hb Hc. rewrite storage_run_now_key by done. unfold snapshot_one_key, get_previous_snapshot.
  rewrite Hprev. unfold net_day in *. destruct (get_ingestion_daily usage ws kind day) as [ab ac].
  destruct (get_cleanup_daily db ws kind day) as [rb rc]. cbn in *. rewrite lookup_insert_eq.
  assert (∀ x, 0 ≤ x ≤ i64_max → Z.max (i64_wrap x) 0 = x) as Hw.
  { intros x Hx. unfold i64_wrap, i64_max in *. rewrite Z.mod_small by lia. lia. }
  do 2 f_equal; [replace (b + ab - rb) with (b + (ab - rb)) by lia|replace (c + ac - rc) with (c + (ac - rc)) by lia]; by apply Hw.
Qed.

(** ** Theorems *)

(** Snapshots are a running balance: while a key stays active and the balance
    stays in range, the snapshot after any number of daily runs is the one they
    started from plus everything ingested minus everything reclaimed since, in
    bytes and in files. *)
Theorem snapshots_telescope usage files_of ws kind n : ∀ first db b c,
  retention_storage_daily db !! (ws, kind, first - 1) = Some (b, c) →
  (∀ i, (i < n)%nat → (ws, kind) ∈ list_active_keys (files_of (first + Z.of_nat i)) (day_end_micros (first + Z.of_nat i))) →
  (∀ i, (i ≤ n)%nat → 0 ≤ b + (net_days usage db ws kind first i).1 ≤ i64_max ∧
                      0 ≤ c + (net_days usage db ws kind first i).2 ≤ i64_max) →
  retention_storage_daily (storage_run_days usage files_of first n db) !! (ws, kind, first + Z.of_nat n - 1) =
    Some (b + (net_days usage db ws kind first n).1, c + (net_days usage db ws kind first n).2).
Proof.
  induction n as [|n IH]; intros first db b c Hprev Hact Hrange.
  - cbn. rewrite Z.add_0_r. unfold zsum. cbn. by rewrite !Z.add_0_r.
  - cbn [storage_run_days]. set (db1 := (storage_run_now usage (files_of first) db first (λ _, false)).1).
    assert (∀ d, net_day usage db1 ws kind d = net_day usage db ws kind d) as Hnet.
    { intros d. unfold net_day, get_cleanup_daily, db1. by rewrite storage_run_now_cleanup. }
    assert (∀ f m, net_days usage db1 ws kind f m = net_days usage db ws kind f m) as Hnets.
    { intros f m. unfold net_days. f_equal; f_equal; apply map_ext; intros i; by rewrite Hnet. }
    destruct (net_days_S usage db ws kind first n) as [HS1 HS2].
    assert (retention_storage_daily db1 !! (ws, kind, first + 1 - 1) =
      Some (b + (net_day usage db ws kind first).1, c + (net_day usage db ws kind first).2)) as Hprev1.
    { replace (first + 1 - 1) with first by lia. apply storage_run_now_incremental; [|done|..].
      - specialize (Hact O ltac:(lia)). by rewrite Z.add_0_r in Hact.
      - destruct (Hrange 1%nat ltac:(lia)) as [Hb _]. destruct (net_days_S usage db ws kind first 0) as [H1 _].
        rewrite H1 in Hb.
        change (net_days usage db ws kind (first + 1) 0).1 with 0 in Hb. lia.
      - destruct (Hrange 1%nat ltac:(lia)) as [_ Hc]. destruct (net_days_S usage db ws kind first 0) as [_ H2].
        rewrite H2 in Hc.
        change (net_days usage db ws kind (first + 1) 0).2 with 0 in Hc. lia. }
    replace (first + Z.of_nat (S n) - 1) with (first + 1 + Z.of_nat n - 1) by lia.
    rewrite (IH (first + 1) db1 _ _ Hprev1).
    + rewrite !Hnets, HS1, HS2. do 2 f_equal; lia.
    + intros i Hi. specialize (Hact (S i) ltac:(lia)). by replace (first + 1 + Z.of_nat i) with (first + Z.of_nat (S i)) by lia.
    + intros i Hi. rewrite Hnets. destruct (Hrange (S i) ltac:(lia)) as [Hb Hc].
      destruct (net_days_S usage db ws kind first i) as [H1 H2]. rewrite H1 in Hb. rewrite H2 in Hc. lia.
Qed.

(** Evaluation scores are not counted: their files are listed under [scores],
    but the usage rollups have no such signal (the writer bills them to traces),
    so once there is a snapshot of the scores of a workspace it never grows,
    however much is stored. *)
Theorem scores_snapshot_never_grows `{ChronoCalendar} usage files db day ws b c b' c' :
  rollups_exact usage → 0 ≤ b ≤ i64_max → 0 ≤ c ≤ i64_max →
  0 ≤ (get_cleanup_daily db ws "scores" day).1 ≤ i64_max → 0 ≤ (get_cleanup_daily db ws "scores" day).2 ≤ i64_max →
  (ws, "scores") ∈ list_active_keys files (day_end_micros day) →
  retention_storage_daily db !! (ws, "scores", day - 1) = Some (b, c) →
  retention_storage_daily (storage_run_now usage files db day (λ _, false)).1 !! (ws, "scores", day) = Some (b', c') →
  b' ≤ b ∧ c' ≤ c.
Proof.
  intros (Hd & _) Hb Hc Hrb Hrc Hin Hprev. rewrite storage_run_now_key by done.
  unfold snapshot_one_key, get_previous_snapshot. rewrite Hprev.
  assert (get_ingestion_daily usage ws "scores" day = (0, 0)) as ->.
  { unfold get_ingestion_daily. rewrite Hd. unfold rollup.
    rewrite filter_none; [done|]. intros s _ Hk. unfold ingestion_day_key in Hk. injection Hk as _ Hk _.
    by destruct (ws_signal s). }
  destruct (get_cleanup_daily db ws "scores" day) as [rb rc]. cbn [fst snd mbind option_bind] in *.
  cbn [upsert_storage_snapshot retention_storage_daily]. rewrite lookup_insert_eq. intros [= <- <-].
  unfold i64_wrap, i64_max in *. rewrite !Z.mod_small by lia. lia.
Qed.

(** ** Witnesses *)

Definition logs_entry (id compressed created_at : Z) (kind : string) : FileListEntry :=
  mkFileListEntry id 1 kind "default" "2026/06/26/00" "s.parquet" "local" 0 1000 1 10 compressed false created_at created_at.
Definition one_log : FileDb := (register_file file_db_empty (logs_entry 0 70 5 "logs")).1.
Definition one_score : FileDb := (register_file file_db_empty (logs_entry 0 70 5 "scores")).1.
Definition day_two : StorageDb :=
  mkStorageDb {[(1, "logs", 2) := (10, 1); (1, "scores", 2) := (10, 1)]} {[(1, "logs", 1) := (70, 1); (1, "scores", 1) := (70, 1)]}.

Lemma snapshots_telescope_witness :
  retention_storage_daily (storage_run_days usage_db_empty (λ _, one_log) 2 1 day_two) !! (1, "logs", 2) = Some (60, 0).
Proof.
  refine (eq_trans (snapshots_telescope usage_db_empty (λ _, one_log) 1 "logs" 1 2 day_two 70 1 _ _ _) _).
  - vm_compute. reflexivity.
  - intros i Hi. replace i with O by lia. apply (bool_decide_unpack _). vm_compute. exact I.
  - intros [|[|i]] Hi; [vm_compute; repeat split; discriminate..|lia].
  - vm_compute. reflexivity.
Defined.

Lemma scores_snapshot_never_grows_witness : 60 ≤ 70 ∧ 0 ≤ 1.
Proof.
  refine (scores_snapshot_never_grows (H := calendar_concrete) usage_db_empty one_score day_two 2 1 70 1 60 0 _ _ _ _ _ _ _ _).
  - exact (rollups_exact_empty (H := calendar_concrete)).
  - vm_compute. split; discriminate.
  - vm_compute. split; discriminate.
  - vm_compute. split; discriminate.
  - vm_compute. split; discriminate.
  - apply (bool_decide_unpack _). vm_compute. exact I.
  - vm_compute. reflexivity.
  - vm_compute. reflexivity.
Defined.
