(* ===== verification/StorageListing.v ===== *)
(** The listing of daily storage usage: [query_storage_usage_daily] of
    [zradar-plugin-postgres/src/repositories/storage_usage.rs], the stored
    snapshots of past days and the estimate of the current one.

    Days are numbers here and texts in the code, whose order is the same; the time
    a snapshot was taken is not modelled. *)

From stdpp Require Import base gmap sorting list strings.
From S2P Require Import Prelude PolicyStore Enforcer FileList PgUsage StorageUsage.

Record DailySnapshot := mkDailySnapshot {
  ds_workspace_id : Z;
  ds_signal_kind : string;
  ds_day : Z;
  ds_amount : Amount;
  ds_estimated_today : bool;
}.
#[export] Instance DailySnapshot_eq_dec : EqDecision DailySnapshot.
Proof. solve_decision. Defined.

(** The rows of the statement; [current_date] is the database's. *)
Definition stored_snapshots (db : StorageDb) (current_date ws : Z) (kind : option string) (start_micros end_micros : option Z) : list DailySnapshot :=
  omap (λ row, let '((w, k, day), amount) := row in
    if (w =? ws) && (day <? current_date) && when_some kind (λ k', bool_decide (k = k'))
       && when_some start_micros (λ t, t / DAY_MICROS <=? day) && when_some end_micros (λ t, day <=? t / DAY_MICROS)
    then Some (mkDailySnapshot w k day amount false) else None) (map_to_list (retention_storage_daily db)).

(** The kinds [derive_storage_usage_daily_rows] can have a row for. *)
Definition estimate_kinds (files : FileDb) (db : StorageDb) (kind : option string) : list string :=
  filter (λ k, when_some kind (λ k', bool_decide (k = k')) = true)
    (remove_dups (map fe_signal_type (rows_list files) ++ map (λ row : DayKey * Amount, row.1.1.2) (map_to_list (retention_storage_daily db)))).

Definition derive_storage_usage_daily_rows (usage : UsageDb) (files : FileDb) (db : StorageDb) (ws day : Z) (kind : option string) : list DailySnapshot :=
  omap (λ k, (λ amount, mkDailySnapshot ws k day amount true) <$> derive_storage_usage usage files db ws day k) (estimate_kinds files db kind).

(** [b.day.cmp(&a.day).then_with(|| a.signal_kind.cmp(&b.signal_kind))]. *)
Definition snapshot_order (a b : DailySnapshot) : Prop :=
  ds_day b < ds_day a ∨ (ds_day a = ds_day b ∧ String.le (ds_signal_kind a) (ds_signal_kind b)).
#[export] Instance snapshot_order_dec : RelDecision snapshot_order.
Proof. intros a b. unfold snapshot_order. apply _. Defined.

(** [today] is the server's; the statements answer or the call fails. *)
Definition query_storage_usage_daily (usage : UsageDb) (files : FileDb) (db : StorageDb) (current_date today ws : Z) (kind : option string)
    (start_micros end_micros : option Z) : list DailySnapshot :=
  merge_sort snapshot_order
    (stored_snapshots db current_date ws kind start_micros end_micros ++
     (if includes_day start_micros end_micros today then derive_storage_usage_daily_rows usage files db ws today kind else [])).

(** ** Properties *)

Lemma kind_filter (kind : option string) k : when_some kind (λ k', bool_decide (k = k')) = true ↔ ∀ k', kind = Some k' → k = k'.
Proof.
  destruct kind as [k'|]; cbn; [|by split]. rewrite bool_decide_eq_true. split; [by intros -> ? [= <-]|]. intros H. by apply H.
Qed.

Lemma elem_of_stored db current_date ws kind start_ end_ s :
  s ∈ stored_snapshots db current_date ws kind start_ end_ ↔
  ds_workspace_id s = ws ∧ ds_estimated_today s = false ∧ ds_day s < current_date ∧
  retention_storage_daily db !! (ws, ds_signal_kind s, ds_day s) = Some (ds_amount s) ∧
  (∀ k', kind = Some k' → ds_signal_kind s = k') ∧ includes_day start_ end_ (ds_day s) = true.
Proof.
  unfold stored_snapshots. rewrite list_elem_of_omap. unfold includes_day. split.
  - intros ([[[w k] day] amount] & Hin & Hs). apply elem_of_map_to_list in Hin. destruct (_ && _) eqn:Hc; [|done]. injection Hs as <-.
    cbn. rewrite !andb_true_iff in Hc. destruct Hc as [[[[->%Z.eqb_eq Hd%Z.ltb_lt] Hk] Hst] Hen]. pose proof (proj1 (kind_filter _ _) Hk).
    split_and!; try done. by rewrite Hst, Hen.
  - destruct s as [w k day amount est]. cbn. intros (-> & -> & Hd & Hl & Hk & Hi). exists ((ws, k, day), amount).
    rewrite elem_of_map_to_list. split; [done|]. pose proof (proj2 (kind_filter _ _) Hk) as Hf. apply andb_true_iff in Hi as [Hst Hen].
    rewrite Z.eqb_refl, (proj2 (Z.ltb_lt _ _) Hd), Hf, Hst, Hen. done.
Qed.

Lemma estimate_kind_known usage files db ws day k amount :
  derive_storage_usage usage files db ws day k = Some amount → k ∈ estimate_kinds files db (Some k).
Proof.
  intros Hd. unfold estimate_kinds. apply list_elem_of_filter. split; [by apply kind_filter; intros ? [= <-]|].
  rewrite elem_of_remove_dups, elem_of_app. revert Hd. unfold derive_storage_usage.
  destruct (get_previous_snapshot db ws k day) as [prev|] eqn:Hp.
  - intros _. right. apply list_elem_of_In, in_map_iff. exists ((ws, k, day - 1), prev). split; [done|].
    by apply list_elem_of_In, elem_of_map_to_list.
  - destruct (filter _ _) as [|e rows] eqn:Hf; [done|]. intros _. left.
    assert (e ∈ filter (λ e, fe_workspace_id e = ws ∧ fe_signal_type e = k ∧ fe_deleted e = false) (rows_list files)) as He
      by (rewrite Hf; by left).
    apply list_elem_of_filter in He as [(_ & <- & _) He]. apply list_elem_of_In, in_map_iff. exists e. split; [done|]. by apply list_elem_of_In.
Qed.

Lemma elem_of_derived usage files db ws day kind s :
  s ∈ derive_storage_usage_daily_rows usage files db ws day kind ↔
  ds_workspace_id s = ws ∧ ds_estimated_today s = true ∧ ds_day s = day ∧ (∀ k', kind = Some k' → ds_signal_kind s = k') ∧
  derive_storage_usage usage files db ws day (ds_signal_kind s) = Some (ds_amount s).
Proof.
  unfold derive_storage_usage_daily_rows. rewrite list_elem_of_omap. split.
  - intros (k & [Hk _]%list_elem_of_filter & Hs). pose proof (proj1 (kind_filter _ _) Hk). apply fmap_Some in Hs as (amount & Ha & ->). done.
  - destruct s as [w k d amount est]. cbn. intros (-> & -> & -> & Hk & Hd). exists k. split; [|by rewrite Hd].
    pose proof (estimate_kind_known _ _ _ _ _ _ _ Hd) as Hin. apply list_elem_of_filter in Hin as [_ Hin].
    apply list_elem_of_filter. split; [by apply kind_filter|done].
Qed.

#[export] Instance snapshot_order_trans : Transitive snapshot_order.
Proof. intros a b c. unfold snapshot_order. intros [?|[? Hab]] [?|[? Hbc]]; try (left; lia). right. split; [lia|]. by etrans. Qed.
#[export] Instance snapshot_order_total : Total snapshot_order.
Proof.
  intros a b. unfold snapshot_order. destruct (Z.lt_total (ds_day a) (ds_day b)) as [?|[?|?]]; [right; by left| |left; by left].
  destruct (total String.le (ds_signal_kind a) (ds_signal_kind b)); [left|right]; right; split; done.
Qed.

(** The listing holds, newest day first and by kind within a day, the stored
    snapshot of every day before the database's date and the estimate of the
    server's day, as far as the request's kind and times allow; with the clocks
    agreeing no day of a kind appears twice. *)
Theorem storage_listing_exact usage files db current_date today ws kind start_ end_ :
  let listing := query_storage_usage_daily usage files db current_date today ws kind start_ end_ in
  StronglySorted snapshot_order listing ∧
  (∀ s, s ∈ listing ↔ ds_workspace_id s = ws ∧ (∀ k', kind = Some k' → ds_signal_kind s = k') ∧ includes_day start_ end_ (ds_day s) = true ∧
    (if ds_estimated_today s
     then ds_day s = today ∧ derive_storage_usage usage files db ws today (ds_signal_kind s) = Some (ds_amount s)
     else ds_day s < current_date ∧ retention_storage_daily db !! (ws, ds_signal_kind s, ds_day s) = Some (ds_amount s))) ∧
  (current_date ≤ today → ∀ s s', s ∈ listing → s' ∈ listing → ds_day s = ds_day s' → ds_signal_kind s = ds_signal_kind s' → s = s').
Proof.
  intros listing.
  assert (∀ s, s ∈ listing ↔ ds_workspace_id s = ws ∧ (∀ k', kind = Some k' → ds_signal_kind s = k') ∧ includes_day start_ end_ (ds_day s) = true ∧
    (if ds_estimated_today s
     then ds_day s = today ∧ derive_storage_usage usage files db ws today (ds_signal_kind s) = Some (ds_amount s)
     else ds_day s < current_date ∧ retention_storage_daily db !! (ws, ds_signal_kind s, ds_day s) = Some (ds_amount s))) as Hmem.
  { intros s. unfold listing, query_storage_usage_daily. rewrite merge_sort_Permutation, elem_of_app, elem_of_stored.
    destruct (includes_day start_ end_ today) eqn:Htoday.
    - rewrite elem_of_derived. split.
      + intros [(-> & He & Hd & Hl & Hk & Hi)|(-> & He & Hd & Hk & Hder)]; rewrite He; [done|]. rewrite Hd. done.
      + intros (-> & Hk & Hi & Hs). destruct (ds_estimated_today s) eqn:He; [right|left]; by destruct_and?.
    - split; [intros [(-> & He & Hd & Hl & Hk & Hi)|[]%elem_of_nil]; by rewrite He|].
      intros (-> & Hk & Hi & Hs). destruct (ds_estimated_today s) eqn:He; [|left; by destruct_and?]. destruct Hs as [Hd _]. by rewrite Hd, Htoday in Hi. }
  split; [|split; [exact Hmem|]].
  - apply (StronglySorted_merge_sort snapshot_order).
  - intros Hclock s s' Hs Hs' Hd Hk. apply Hmem in Hs as (Hw & _ & _ & Hs), Hs' as (Hw' & _ & _ & Hs').
    destruct s as [w k day amount est], s' as [w' k' day' amount' est']. cbn in *. subst.
    destruct est, est'; destruct_and?; try lia; congruence.
Qed.
