(* ===== verification/Reclaimer.v ===== *)
(** The file reclaimer: [zradar-retention/src/file_reclaimer.rs], the only
    component that removes the bytes of soft-deleted files and their rows. *)

From stdpp Require Import base gmap sorting list strings.
From S2P Require Import Prelude PolicyStore Enforcer FileList WriteBuffer TelemetryWriter ParquetWriter Compactor Lease Retention PgUsage PgUsageWorker StorageUsage.

Inductive ReclaimError := PhysicalDeleteFailed (file_id : Z) | CommitFailed (workspace_id : Z) | DeleteEntriesFailed.

Record ReclaimStats := mkReclaimStats {
  files_reclaimed : Z;
  bytes_freed : Z;
  files_skipped_leased : Z;
  reclaim_errors : list ReclaimError;
}.

(** What a cycle finds: whether a block storage and a usage repository are
    configured, the day, and, as the cycle reaches a file, what [is_leased]
    says and whether its bytes can be removed; and how the database answers a
    workspace's commit. *)
Record ReclaimEnv := mkReclaimEnv {
  re_block_storage : bool;
  re_storage_usage : bool;
  re_day : Z;
  re_leased : Z → bool;
  re_remove_ok : Z → bool;
  re_commit : Z → InsertAnswer;
}.

Section Reclaimer.
Context {R : Type}.
Abbreviation St := (Store R).

(** [delete_physical_file]: the new store, and whether the row may go. A file
    that is not there counts as removed. *)
Definition delete_physical_file (env : ReclaimEnv) (st : St) (file : FileListEntry) : St * bool :=
  if decide (fe_location file = "s3") then
    if re_block_storage env then
      if re_remove_ok env (fe_id file)
      then (with_objects st (delete (extract_s3_key (fe_file_path file)) (objects st)), true)
      else (st, false)
    else (st, true)
  else if re_remove_ok env (fe_id file)
  then (with_disk st (delete (fe_file_path file) (disk st)), true)
  else (st, false).

(** The loop over a workspace's files: the store, the statistics, the ids to
    delete and the deltas by workspace, signal and day. *)
Record Sweep := mkSweep {
  sw_store : St;
  sw_stats : ReclaimStats;
  sw_ids : list Z;
  sw_deltas : gmap DayKey StorageUsageDelta;
}.

Definition reclaim_file (env : ReclaimEnv) (s : Sweep) (file : FileListEntry) : Sweep :=
  let stats := sw_stats s in
  if re_leased env (fe_id file) then
    mkSweep (sw_store s) (mkReclaimStats (files_reclaimed stats) (bytes_freed stats) (files_skipped_leased stats + 1)
      (reclaim_errors stats)) (sw_ids s) (sw_deltas s)
  else
    let '(st, gone) := delete_physical_file env (sw_store s) file in
    if gone then
      let size := Z.max (fe_compressed_size file) 0 in
      let key := (fe_workspace_id file, fe_signal_type file, re_day env) in
      let d := default (mkStorageUsageDelta (fe_workspace_id file) (fe_signal_type file) (re_day env) 0 0)
                 (sw_deltas s !! key) in
      mkSweep st
        (mkReclaimStats (files_reclaimed stats + 1) (bytes_freed stats + size) (files_skipped_leased stats)
           (reclaim_errors stats))
        (sw_ids s ++ [fe_id file])
        (<[key := mkStorageUsageDelta (sd_workspace_id d) (sd_signal_kind d) (sd_day d)
                    (sd_compressed_bytes d + size) (sd_file_count d + 1)]> (sw_deltas s))
    else
      mkSweep st (mkReclaimStats (files_reclaimed stats) (bytes_freed stats) (files_skipped_leased stats)
        (reclaim_errors stats ++ [PhysicalDeleteFailed (fe_id file)])) (sw_ids s) (sw_deltas s).

Definition add_error (stats : ReclaimStats) (e : ReclaimError) : ReclaimStats :=
  mkReclaimStats (files_reclaimed stats) (bytes_freed stats) (files_skipped_leased stats) (reclaim_errors stats ++ [e]).

(** The commit of a workspace: ledger and rows in one transaction, or the rows
    alone without a usage repository. *)
Definition reclaim_commit (env : ReclaimEnv) (ledger : StorageDb) (s : Sweep) (workspace_id : Z) :
    St * StorageDb * ReclaimStats :=
  let st := sw_store s in
  match sw_ids s with
  | [] => (st, ledger, sw_stats s)
  | ids =>
      if re_storage_usage env then
        match re_commit env workspace_id,
              record_cleanup_and_delete ledger (st_db st) (map_to_list (sw_deltas s)).*2 ids with
        | Committed, Some (ledger', files) => (with_db st files, ledger', sw_stats s)
        | AnswerLost, Some (ledger', files) => (with_db st files, ledger', add_error (sw_stats s) (CommitFailed workspace_id))
        | _, _ => (st, ledger, add_error (sw_stats s) (CommitFailed workspace_id))
        end
      else
        match re_commit env workspace_id with
        | Committed => (with_db st (delete_entries (st_db st) ids), ledger, sw_stats s)
        | AnswerLost => (with_db st (delete_entries (st_db st) ids), ledger, add_error (sw_stats s) DeleteEntriesFailed)
        | Refused => (st, ledger, add_error (sw_stats s) DeleteEntriesFailed)
        end
  end.

Definition reclaim_workspace (env : ReclaimEnv) (acc : St * StorageDb * ReclaimStats)
    (group : Z * list FileListEntry) : St * StorageDb * ReclaimStats :=
  let '(st, ledger, stats) := acc in
  reclaim_commit env ledger (foldl (reclaim_file env) (mkSweep st stats [] ∅) group.2) group.1.

(** [run_now_scoped]. *)
Definition reclaim_run (env : ReclaimEnv) (st : St) (ledger : StorageDb) (workspace_id : option Z) :
    St * StorageDb * ReclaimStats :=
  let deleted_files := query_files (st_db st) (mkFileListFilter workspace_id None None None None None (Some true)) in
  foldl (reclaim_workspace env) (st, ledger, mkReclaimStats 0 0 0 []) (map_to_list (by_workspace deleted_files)).

(** ** Specification *)

(** What a cycle may remove: soft-deleted rows without a lease. *)
Definition reclaimable (env : ReclaimEnv) (e : FileListEntry) : Prop :=
  fe_deleted e = true ∧ re_leased env (fe_id e) = false.

(** The place of a row's bytes. *)
Definition place (e : FileListEntry) : bool * string :=
  if decide (fe_location e = "s3") then (true, extract_s3_key (fe_file_path e)) else (false, fe_file_path e).

(** No two rows share a place, as every writer draws fresh names. *)
Definition places_distinct (db : FileDb) : Prop :=
  ∀ e1 e2, e1 ∈ rows_list db → e2 ∈ rows_list db → place e1 = place e2 → e1 = e2.

Lemma places_NoDup db : NoDup (map place (rows_list db)) → places_distinct db.
Proof.
  unfold places_distinct. induction (rows_list db) as [|x l IH]; intros Hnd e1 e2 H1 H2 Hp; [by apply not_elem_of_nil in H1|].
  apply NoDup_cons in Hnd as [Hx Hnd]. apply elem_of_cons in H1 as [->|H1], H2 as [->|H2]; try done.
  - exfalso. apply Hx. rewrite Hp. by apply list_elem_of_fmap_2.
  - exfalso. apply Hx. rewrite <-Hp. by apply list_elem_of_fmap_2.
  - by apply IH.
Qed.

Definition data_at (st : St) (p : bool * string) : option (FileData R) :=
  if p.1 then objects st !! p.2 else disk st !! p.2.

(** [st] is [st0] after some removals: data only from the places of reclaimable
    rows, rows only reclaimable ones whose data is gone (or lies in a bucket
    that is not configured). *)
Definition reclaimed (env : ReclaimEnv) (st0 st : St) : Prop :=
  (∀ p, data_at st p = data_at st0 p ∨
        data_at st p = None ∧ ∃ e, e ∈ rows_list (st_db st0) ∧ reclaimable env e ∧ place e = p) ∧
  (∀ id, file_rows (st_db st) !! id = file_rows (st_db st0) !! id ∨
         file_rows (st_db st) !! id = None ∧
         ∃ e, file_rows (st_db st0) !! id = Some e ∧ reclaimable env e ∧
           (data_at st (place e) = None ∨ (fe_location e = "s3" ∧ re_block_storage env = false))).

(** ** Lemmas *)

Lemma data_at_place (st : St) e : data_at st (place e) = entry_data st e.
Proof. unfold data_at, place, entry_data. by case_decide. Qed.

Lemma data_at_with_db (st : St) db p : data_at (with_db st db) p = data_at st p.
Proof. done. Qed.

(** Removing one file touches its place only. *)
Lemma delete_physical_spec env (st : St) e st' gone :
  delete_physical_file env st e = (st', gone) →
  st_db st' = st_db st ∧
  (∀ p, data_at st' p = data_at st p ∨ data_at st' p = None ∧ p = place e) ∧
  (gone = true → data_at st' (place e) = None ∨ (fe_location e = "s3" ∧ re_block_storage env = false)).
Proof.
  unfold delete_physical_file, data_at, place. intros Hd.
  destruct (decide (fe_location e = "s3")) as [Hs|Hs].
  - destruct (re_block_storage env); [destruct (re_remove_ok env (fe_id e))|]; simplify_eq; cbn; split_and!;
      try done; try (intros; by left); try (intros _; auto; by rewrite lookup_delete_eq); try (by right).
    + intros [b q]. cbn. destruct b; [|by left]. rewrite lookup_delete.
      destruct (decide (extract_s3_key (fe_file_path e) = q)) as [<-|]; [by right|by left].
    + intros _. left. by rewrite lookup_delete_eq.
  - destruct (re_remove_ok env (fe_id e)); simplify_eq; cbn; split_and!; try done; try (intros; by left).
    + intros [b q]. cbn. destruct b; [by left|]. rewrite lookup_delete.
      destruct (decide (fe_file_path e = q)) as [<-|]; [by right|by left].
    + intros _. left. by rewrite lookup_delete_eq.
Qed.

Lemma reclaimed_refl env (st : St) : reclaimed env st st.
Proof. split; intros; by left. Qed.

(** A sweep's state while it works through soft-deleted rows of [st0]. *)
Definition sweep_ok env (st0 : St) (db : FileDb) (s : Sweep) : Prop :=
  reclaimed env st0 (sw_store s) ∧ st_db (sw_store s) = db ∧
  ∀ id, id ∈ sw_ids s → ∃ e, file_rows (st_db st0) !! id = Some e ∧ reclaimable env e ∧
    (data_at (sw_store s) (place e) = None ∨ (fe_location e = "s3" ∧ re_block_storage env = false)).

Lemma reclaim_file_ok env (st0 : St) db s e :
  db_wf (st_db st0) → e ∈ rows_list (st_db st0) → fe_deleted e = true →
  sweep_ok env st0 db s → sweep_ok env st0 db (reclaim_file env s e).
Proof.
  intros Hwf Hin Hdel ([Hdata Hrows] & Hdb & Hids). unfold reclaim_file.
  destruct (re_leased env (fe_id e)) eqn:Hl; [done|].
  destruct (delete_physical_file env (sw_store s) e) as [st' gone] eqn:Hd.
  destruct (delete_physical_spec _ _ _ _ _ Hd) as (Hdb' & Hp & Hgone).
  assert (∀ p, data_at (sw_store s) p = None → data_at st' p = None) as Hmono.
  { intros p Hn. destruct (Hp p) as [->|[? _]]; done. }
  assert (reclaimed env st0 st') as Hrec.
  { split.
    - intros p. destruct (Hp p) as [->|[Hn ->]]; [apply Hdata|]. right. split; [done|]. by exists e.
    - intros id. rewrite Hdb'. destruct (Hrows id) as [?|(? & e' & ? & ? & Hg)]; [by left|]. right. split; [done|].
      exists e'. split_and!; try done. destruct Hg as [?|?]; [left; by apply Hmono|by right]. }
  assert (∀ id, id ∈ sw_ids s → ∃ e, file_rows (st_db st0) !! id = Some e ∧ reclaimable env e ∧
    (data_at st' (place e) = None ∨ (fe_location e = "s3" ∧ re_block_storage env = false))) as Hids'.
  { intros id Hi. destruct (Hids id Hi) as (e' & ? & ? & Hg). exists e'. split_and!; try done.
    destruct Hg as [?|?]; [left; by apply Hmono|by right]. }
  destruct gone; unfold sweep_ok; cbn [sw_store sw_ids]; rewrite Hdb'; (split; [done|]; split; [done|]); [|done].
  intros id [Hi| ->%list_elem_of_singleton]%elem_of_app; [by apply Hids'|].
  exists e. apply elem_of_rows_list in Hin as [id Hid]. destruct (Hwf id e Hid) as [<- _].
  split_and!; try done. by apply Hgone.
Qed.

Lemma reclaim_commit_ok env (st0 : St) db ledger s w :
  sweep_ok env st0 db s → reclaimed env st0 (reclaim_commit env ledger s w).1.1.
Proof.
  intros ([Hdata Hrows] & Hdb & Hids).
  assert (reclaimed env st0 (with_db (sw_store s) (delete_entries (st_db (sw_store s)) (sw_ids s)))) as Hdel.
  { split; [exact Hdata|]. intros id. cbn [st_db with_db]. rewrite delete_entries_lookup.
    case_decide as Hi; [right; split; [done|]; by apply Hids|apply Hrows]. }
  assert (∀ ledger' files, record_cleanup_and_delete ledger (st_db (sw_store s)) (map_to_list (sw_deltas s)).*2 (sw_ids s) =
    Some (ledger', files) → reclaimed env st0 (with_db (sw_store s) files)) as Htx.
  { intros ledger' files. unfold record_cleanup_and_delete.
    assert (reclaimed env st0 (with_db (sw_store s) (st_db (sw_store s)))) as Hsame by (by split).
    destruct (record_cleanup_daily _ _); cbn; destruct (map_to_list (sw_deltas s)).*2, (sw_ids s); intros [=]; subst; done. }
  unfold reclaim_commit. destruct (sw_ids s) as [|i ids] eqn:Hs; [by split|]. rewrite <-Hs in *.
  destruct (re_storage_usage env).
  - destruct (record_cleanup_and_delete _ _ _ _) as [[ledger' files]|] eqn:Hr; destruct (re_commit env w); cbn;
      try (by split); by eapply Htx.
  - destruct (re_commit env w); cbn; [done|done|by split].
Qed.

Lemma reclaim_groups_ok env (st0 : St) groups : ∀ st ledger stats,
  db_wf (st_db st0) → Forall (λ g, Forall (λ e, e ∈ rows_list (st_db st0) ∧ fe_deleted e = true) g.2) groups →
  reclaimed env st0 st → reclaimed env st0 (foldl (reclaim_workspace env) (st, ledger, stats) groups).1.1.
Proof.
  induction groups as [|[w files] groups IH]; intros st ledger stats Hwf Hg Hst; [done|].
  apply Forall_cons in Hg as [Hfiles Hg]. cbn [foldl reclaim_workspace fst snd].
  assert (sweep_ok env st0 (st_db st) (foldl (reclaim_file env) (mkSweep st stats [] ∅) files)) as Hs.
  { assert (sweep_ok env st0 (st_db st) (mkSweep st stats [] ∅)) as H0.
    { split; [done|]. split; [done|]. by intros id ?%not_elem_of_nil. }
    revert H0. generalize (mkSweep st stats [] ∅) as s. cbn [snd] in Hfiles.
    induction Hfiles as [|e files [Hin Hdel] _ IHf]; intros s Hs; [done|]. cbn [foldl]. apply IHf. by apply reclaim_file_ok. }
  pose proof (reclaim_commit_ok env st0 _ ledger _ w Hs) as Hc.
  destruct (reclaim_commit env ledger _ w) as [[st1 ledger1] stats1]. by apply IH.
Qed.

Lemma reclaim_run_reclaimed env (st : St) ledger scope :
  db_wf (st_db st) → reclaimed env st (reclaim_run env st ledger scope).1.1.
Proof.
  intros Hwf. unfold reclaim_run. apply reclaim_groups_ok; [done| |apply reclaimed_refl].
  apply Forall_forall. intros [w files] Hin. apply elem_of_group_on in Hin as [-> _]. cbn [snd].
  apply Forall_forall. intros e [_ He]%list_elem_of_filter. apply elem_of_query_files in He as [Hm Hid].
  split; [by apply elem_of_rows_list|]. unfold matches in Hm.
  cbn [when_some ff_deleted] in Hm. by apply andb_true_iff in Hm as [_ Hm%bool_decide_eq_true].
Qed.
End Reclaimer.

(** Dropping rows that contribute nothing leaves a concatenation. *)
Lemma concat_dropped {A B : Type} (f : A → list B) (m' m : gmap Z A) :
  (∀ id, m' !! id = m !! id ∨ m' !! id = None ∧ ∀ x, m !! id = Some x → f x = []) →
  concat (map f (map_to_list m').*2) ≡ₚ concat (map f (map_to_list m).*2).
Proof.
  intros Hm. assert (m' ⊆ m) as Hsub.
  { apply map_subseteq_spec. intros id x Hx. destruct (Hm id) as [<-|[? _]]; [done|congruence]. }
  assert (map_to_list m ≡ₚ map_to_list m' ++ map_to_list (m ∖ m')) as ->.
  { apply NoDup_Permutation; [apply NoDup_map_to_list| |].
    - apply NoDup_app. split; [apply NoDup_map_to_list|]. split; [|apply NoDup_map_to_list].
      intros [id x] H1%elem_of_map_to_list [_ H2]%elem_of_map_to_list%lookup_difference_Some. congruence.
    - intros [id x]. rewrite elem_of_app, !elem_of_map_to_list, lookup_difference_Some.
      destruct (Hm id) as [->|[-> _]]; destruct (m !! id); naive_solver. }
  assert (concat (map f (map_to_list (m ∖ m')).*2) = []) as Hnil.
  { assert (Forall (λ kv, f kv.2 = []) (map_to_list (m ∖ m'))) as Hf.
    { apply Forall_forall. intros [id x] Hin%elem_of_map_to_list%lookup_difference_Some. cbn. destruct Hin as [Hx Hn].
      destruct (Hm id) as [Heq|[_ Hf]]; [congruence|by apply Hf]. }
    clear -Hf. induction Hf as [|[id x] l Hx _ IH]; [done|]. cbn in *. by rewrite Hx, IH. }
  rewrite fmap_app, map_app, concat_app, Hnil. by rewrite app_nil_r.
Qed.

Section Safety.
Context {R : Type}.
Abbreviation St := (Store R).

Lemma sweep_db env files : ∀ s, st_db (sw_store (foldl (reclaim_file env) s files)) = st_db (R := R) (sw_store s).
Proof.
  induction files as [|e files IH]; intros s; [done|]. cbn [foldl]. rewrite IH. unfold reclaim_file.
  destruct (re_leased _ _); [done|]. destruct (delete_physical_file env (sw_store s) e) as [st' gone] eqn:Hd.
  destruct (delete_physical_spec _ _ _ _ _ Hd) as [<- _]. by destruct gone.
Qed.

Lemma cleanup_tx_files ledger db deltas ids ledger' db' :
  record_cleanup_and_delete ledger db deltas ids = Some (ledger', db') →
  record_cleanup_daily ledger deltas = Some ledger' ∧ db' = delete_entries db ids.
Proof.
  unfold record_cleanup_and_delete.
  destruct deltas as [|d deltas], ids as [|i ids]; [intros [= <- <-]; by destruct db|..];
    (destruct (record_cleanup_daily _ _) as [l|]; cbn; intros Hr; [|done]); injection Hr as <- <-; by destruct db.
Qed.

Lemma reclaim_commit_next_id env ledger (s : Sweep (R := R)) w :
  next_file_id (st_db (reclaim_commit env ledger s w).1.1) = next_file_id (st_db (sw_store s)).
Proof.
  unfold reclaim_commit. destruct (sw_ids s) as [|i ids]; [done|]. destruct (re_storage_usage env).
  - destruct (record_cleanup_and_delete _ _ _ _) as [[l f]|] eqn:Hr; destruct (re_commit env w); try done;
      by apply cleanup_tx_files in Hr as [_ ->].
  - by destruct (re_commit env w).
Qed.

Lemma reclaim_run_next_id env (st : St) ledger scope :
  next_file_id (st_db (reclaim_run env st ledger scope).1.1) = next_file_id (st_db st).
Proof.
  unfold reclaim_run. generalize (map_to_list (by_workspace (query_files (st_db st)
    (mkFileListFilter scope None None None None None (Some true))))) as groups.
  intros groups. change (st_db st) with (st_db (st, ledger, mkReclaimStats 0 0 0 []).1.1).
  generalize (st, ledger, mkReclaimStats 0 0 0 []) as acc.
  induction groups as [|[w files] groups IH]; intros [[st1 l1] stats1]; [done|]. cbn [foldl]. rewrite IH.
  unfold reclaim_workspace. by rewrite reclaim_commit_next_id, sweep_db.
Qed.

Lemma live_data_kept env (st0 st : St) e :
  places_distinct (st_db st0) → reclaimed env st0 st → e ∈ rows_list (st_db st0) →
  fe_deleted e = false ∨ re_leased env (fe_id e) = true → entry_data st e = entry_data st0 e.
Proof.
  intros Hpl [Hdata _] Hin Hlive. rewrite <-!data_at_place.
  destruct (Hdata (place e)) as [->|(_ & e' & Hin' & [Hd Hl] & Hp)]; [done|].
  rewrite (Hpl e' e Hin' Hin Hp) in *. destruct Hlive; congruence.
Qed.

(** What a cycle leaves. *)
Lemma reclaim_run_safe env (st : St) ledger scope st' ledger' stats :
  store_ok st → places_distinct (st_db st) → reclaim_run env st ledger scope = (st', ledger', stats) →
  store_ok st' ∧ visible st' ≡ₚ visible st ∧
  (∀ id e, file_rows (st_db st) !! id = Some e → re_leased env id = true →
     file_rows (st_db st') !! id = Some e ∧ entry_data st' e = entry_data st e) ∧
  (∀ id e, file_rows (st_db st) !! id = Some e → file_rows (st_db st') !! id = None →
     fe_deleted e = true ∧ re_leased env id = false ∧
     (entry_data st' e = None ∨
      fe_location e = "s3" ∧ re_block_storage env = false ∧ entry_data st' e = entry_data st e)).
Proof.
  intros [Hwf Hok] Hpl Hrun. pose proof (reclaim_run_reclaimed env st ledger scope Hwf) as Hrec. rewrite Hrun in Hrec.
  cbn [fst] in Hrec. pose proof (live_data_kept env st st') as Hkept. destruct Hrec as [Hdata Hrows].
  assert (∀ id e, file_rows (st_db st') !! id = Some e → file_rows (st_db st) !! id = Some e) as Hback.
  { intros id e He. destruct (Hrows id) as [<-|[? _]]; [done|congruence]. }
  assert (db_wf (st_db st')) as Hwf'.
  { intros id e He. apply Hback in He. destruct (Hwf id e He) as [? ?]. split; [done|].
    pose proof (reclaim_run_next_id env st ledger scope) as Hn. rewrite Hrun in Hn. cbn in Hn. by rewrite Hn. }
  assert (∀ e id, file_rows (st_db st) !! id = Some e → fe_deleted e = false ∨ re_leased env (fe_id e) = true →
    entry_data st' e = entry_data st e) as Hk.
  { intros e id He Hlive. apply Hkept; [done|by split| |done]. apply elem_of_rows_list. by exists id. }
  split; [split; [done|]|split; [|split]].
  - intros id e He. apply Hback in He. destruct (Hok id e He) as [Hpar Hd]. split; [done|]. intros Hl.
    destruct (Hd Hl) as [rows Hr]. exists rows. rewrite (Hk e id); auto.
  - unfold visible, rows_list. etrans; [|apply (concat_dropped (entry_rows st) (file_rows (st_db st')) (file_rows (st_db st)))].
    + apply reflexive_eq. f_equal. apply map_ext_in. intros e Hin%list_elem_of_In.
      apply elem_of_rows_list in Hin as [id He]. apply Hback in He. unfold entry_rows.
      destruct (fe_deleted e) eqn:Hd; [done|]. by rewrite (Hk e id) by auto.
    + intros id. destruct (Hrows id) as [?|(Hn & e & He & [Hd _] & _)]; [by left|]. right. split; [done|].
      intros x Hx. rewrite He in Hx. injection Hx as <-. unfold entry_rows. by rewrite Hd.
  - intros id e He Hl. destruct (Hwf id e He) as [Hid _]. split.
    + destruct (Hrows id) as [->|(_ & e' & He' & [_ Hl'] & _)]; [done|]. rewrite He in He'. injection He' as <-. congruence.
    + apply (Hk e id); [done|]. right. congruence.
  - intros id e He Hn. destruct (Hwf id e He) as [Hid _].
    destruct (Hrows id) as [Heq|(_ & e' & He' & [Hd Hl] & Hg)]; [congruence|]. rewrite He in He'. injection He' as <-.
    split; [done|]. split; [congruence|]. rewrite data_at_place in Hg.
    destruct Hg as [Hg|[Hs3 Hb]]; [by left|].
    destruct (Hdata (place e)) as [Heq|(Hnone & _)]; rewrite ?data_at_place in *; [by right|by left].
Qed.

(** C13: A reclaim cycle is safe, whatever fails in it: queries see the same rows
    before and after, so no live file loses its bytes; every row with a read
    lease keeps both its entry and its data, soft-deleted or not; and a row
    disappears from the table only if it was soft-deleted and not leased, and
    then its bytes are gone too, except for a file of location [s3] when no
    block storage is configured: its row goes and its bytes stay. *)
Theorem reclaim_safe env (st : St) ledger scope st' ledger' stats :
  store_ok st → places_distinct (st_db st) → reclaim_run env st ledger scope = (st', ledger', stats) →
  store_ok st' ∧ visible st' ≡ₚ visible st ∧
  (∀ id e, file_rows (st_db st) !! id = Some e → re_leased env id = true →
     file_rows (st_db st') !! id = Some e ∧ entry_data st' e = entry_data st e) ∧
  (∀ id e, file_rows (st_db st) !! id = Some e → file_rows (st_db st') !! id = None →
     fe_deleted e = true ∧ re_leased env id = false ∧
     (entry_data st' e = None ∨
      fe_location e = "s3" ∧ re_block_storage env = false ∧ entry_data st' e = entry_data st e)).
Proof. apply reclaim_run_safe. Qed.
End Safety.

(** ** The ledger *)

Lemma upsert_rows_Some {K A : Type} `{Countable K} (fits : A → bool) (combine : A → A → option A) rows :
  ∀ (t t' : gmap K A), NoDup rows.*1 → upsert_rows fits combine t rows = Some t' →
  ∀ k, match (list_to_map rows : gmap K A) !! k with
       | None => t' !! k = t !! k
       | Some a => ∃ a', match t !! k with None => Some a | Some old => combine old a end = Some a' ∧ t' !! k = Some a'
       end.
Proof.
  induction rows as [|[k a] rows IH]; intros t t' Hnd Hu k'; [by injection Hu as <-|].
  apply NoDup_cons in Hnd as [Hk Hnd]. cbn [upsert_rows] in Hu. unfold upsert_row in Hu. cbn [fst snd] in *.
  destruct (match t !! k with None => Some a | Some old => combine old a end) as [a'|] eqn:Ha; cbn in Hu; [|done].
  destruct (fits a'); cbn in Hu; [|done]. specialize (IH _ _ Hnd Hu k'). cbn.
  destruct (decide (k = k')) as [<-|Hne].
  - rewrite not_elem_of_list_to_map_1 in IH by done. rewrite lookup_insert_eq in IH. rewrite lookup_insert_eq. by exists a'.
  - rewrite lookup_insert_ne in IH by done. by rewrite lookup_insert_ne.
Qed.

(** The files of a workspace that a cycle removes. *)
Definition removes (env : ReclaimEnv) (e : FileListEntry) : bool :=
  negb (re_leased env (fe_id e)) &&
  (if decide (fe_location e = "s3") then negb (re_block_storage env) || re_remove_ok env (fe_id e)
   else re_remove_ok env (fe_id e)).

Definition delta_key (env : ReclaimEnv) (e : FileListEntry) : DayKey := (fe_workspace_id e, fe_signal_type e, re_day env).
Definition delta_amount (o : option StorageUsageDelta) : Amount :=
  match o with Some d => (sd_compressed_bytes d, sd_file_count d) | None => (0, 0) end.
Definition size_of (e : FileListEntry) : Z := Z.max (fe_compressed_size e) 0.

(** Bytes and number of the files of a key. *)
Definition booked (env : ReclaimEnv) (k : DayKey) (files : list FileListEntry) : Amount :=
  let files := filter (λ e, delta_key env e = k) files in (zsum (map size_of files), zlen files).

Section Ledger.
Context {R : Type}.
Abbreviation St := (Store R).

Definition deltas_ok (deltas : gmap DayKey StorageUsageDelta) : Prop :=
  ∀ k d, deltas !! k = Some d → (sd_workspace_id d, sd_signal_kind d, sd_day d) = k ∧
    0 ≤ sd_compressed_bytes d ∧ 0 ≤ sd_file_count d.

Lemma reclaim_file_ledger env (s : Sweep (R := R)) e :
  deltas_ok (sw_deltas s) →
  sw_ids (reclaim_file env s e) = sw_ids s ++ (if removes env e then [fe_id e] else []) ∧
  deltas_ok (sw_deltas (reclaim_file env s e)) ∧
  ∀ k, delta_amount (sw_deltas (reclaim_file env s e) !! k) =
    ((delta_amount (sw_deltas s !! k)).1 + (booked env k (if removes env e then [e] else [])).1,
     (delta_amount (sw_deltas s !! k)).2 + (booked env k (if removes env e then [e] else [])).2).
Proof.
  intros Hok. unfold reclaim_file, removes. assert (∀ k, delta_amount (sw_deltas s !! k) =
    ((delta_amount (sw_deltas s !! k)).1 + (booked env k []).1, (delta_amount (sw_deltas s !! k)).2 + (booked env k []).2)) as Hnone.
  { intros k. unfold booked. cbn. rewrite zsum_nil, !Z.add_0_r. by destruct (delta_amount _). }
  destruct (re_leased env (fe_id e)); cbn [negb andb]; [by rewrite app_nil_r|].
  assert (∃ st', delete_physical_file env (sw_store s) e = (st',
    if decide (fe_location e = "s3") then negb (re_block_storage env) || re_remove_ok env (fe_id e)
    else re_remove_ok env (fe_id e))) as [st' ->].
  { unfold delete_physical_file. case_decide; [destruct (re_block_storage env)|]; try destruct (re_remove_ok env _); by eexists. }
  destruct (if decide _ then _ else _); cbn [sw_ids sw_deltas]; [|by rewrite app_nil_r].
  split; [done|]. set (old := sw_deltas s !! _). set (d := default _ old).
  assert ((sd_workspace_id d, sd_signal_kind d, sd_day d) = delta_key env e ∧ 0 ≤ sd_compressed_bytes d ∧ 0 ≤ sd_file_count d) as Hd.
  { subst d. destruct old as [d|] eqn:Ho; [by apply Hok|]. done. }
  assert (delta_amount old = (sd_compressed_bytes d, sd_file_count d)) as Ha by (subst d; by destruct old).
  split.
  - intros k d' Hd'. rewrite lookup_insert in Hd'. destruct (decide _) as [Hk|_]; [|by apply Hok].
    injection Hd' as <-. cbn. rewrite <-Hk. destruct Hd as (-> & ? & ?). split; [done|]. lia.
  - intros k. rewrite lookup_insert. change (fe_workspace_id e, fe_signal_type e, re_day env) with (delta_key env e) in *.
    unfold booked. rewrite filter_cons, filter_nil. destruct (decide (delta_key env e = k)) as [<-|Hne].
    + fold old. rewrite Ha. cbn. unfold size_of. rewrite zsum_cons, zsum_nil. f_equal; lia.
    + cbn [map length fst snd]. rewrite zsum_nil. change (zlen (@nil FileListEntry)) with 0.
      rewrite !Z.add_0_r. by rewrite <-surjective_pairing.
Qed.

Lemma booked_app env k l1 l2 :
  (booked env k (l1 ++ l2)).1 = (booked env k l1).1 + (booked env k l2).1 ∧
  (booked env k (l1 ++ l2)).2 = (booked env k l1).2 + (booked env k l2).2.
Proof. unfold booked. rewrite filter_app, map_app, zsum_app, length_app. cbn. split; lia. Qed.

Lemma sweep_ledger env files : ∀ (s : Sweep (R := R)), deltas_ok (sw_deltas s) →
  let s' := foldl (reclaim_file env) s files in
  sw_ids s' = sw_ids s ++ map fe_id (filter (λ e, removes env e = true) files) ∧ deltas_ok (sw_deltas s') ∧
  ∀ k, delta_amount (sw_deltas s' !! k) =
    ((delta_amount (sw_deltas s !! k)).1 + (booked env k (filter (λ e, removes env e = true) files)).1,
     (delta_amount (sw_deltas s !! k)).2 + (booked env k (filter (λ e, removes env e = true) files)).2).
Proof.
  induction files as [|e files IH]; intros s Hok; cbn [foldl].
  - split; [by rewrite app_nil_r|]. split; [done|]. intros k. unfold booked. cbn. rewrite zsum_nil, !Z.add_0_r.
    by destruct (delta_amount _).
  - destruct (reclaim_file_ledger env s e Hok) as (Hids & Hok' & Ham). destruct (IH _ Hok') as (Hids2 & Hok2 & Ham2).
    assert (filter (λ x, removes env x = true) (e :: files) =
      (if removes env e then [e] else []) ++ filter (λ x, removes env x = true) files) as ->.
    { rewrite filter_cons. destruct (removes env e); by case_decide. }
    split; [rewrite Hids2, Hids, map_app, app_assoc; by destruct (removes env e)|]. split; [done|].
    intros k. rewrite Ham2, Ham. cbn [fst snd].
    destruct (booked_app env k (if removes env e then [e] else []) (filter (λ x, removes env x = true) files)) as [-> ->].
    f_equal; lia.
Qed.

(** The rows of the statement that books a sweep. *)
Lemma cleanup_rows deltas : deltas_ok deltas →
  map (λ d, ((sd_workspace_id d, sd_signal_kind d, sd_day d), (Z.max (sd_compressed_bytes d) 0, Z.max (sd_file_count d) 0)))
    (map_to_list deltas).*2 = prod_map id (λ d, delta_amount (Some d)) <$> map_to_list deltas.
Proof.
  intros Hok. change (map_to_list deltas).*2 with (map snd (map_to_list deltas)). rewrite map_map.
  apply map_ext_in. intros [k d] Hin%list_elem_of_In%elem_of_map_to_list. cbn.
  destruct (Hok k d Hin) as (<- & ? & ?). do 2 f_equal; lia.
Qed.

Lemma sql_add_Some a b c : sql_add a b = Some c → c = a + b.
Proof. unfold sql_add. destruct (_ && _); by intros [=]. Qed.

Lemma upsert_deltas_lookup t deltas t' k : deltas_ok deltas →
  upsert_cleanup_deltas t (map_to_list deltas).*2 = Some t' →
  default (0, 0) (t' !! k) = ((default (0, 0) (t !! k)).1 + (delta_amount (deltas !! k)).1,
                              (default (0, 0) (t !! k)).2 + (delta_amount (deltas !! k)).2).
Proof.
  intros Hok. unfold upsert_cleanup_deltas. rewrite cleanup_rows by done. intros Hu.
  assert (NoDup (prod_map id (λ d, delta_amount (Some d)) <$> map_to_list deltas).*1) as Hnd.
  { rewrite <-list_fmap_compose. apply (NoDup_fst_map_to_list deltas). }
  pose proof (upsert_rows_Some _ _ _ _ _ Hnd Hu k) as Hl.
  rewrite list_to_map_fmap, list_to_map_to_list, lookup_fmap in Hl.
  destruct (deltas !! k) as [d|]; cbn in Hl |- *.
  - destruct Hl as ([b c] & Hc & ->). destruct (t !! k) as [[b0 c0]|]; cbn in *; [|by injection Hc as <- <-].
    unfold amount_update in Hc. cbn [fst snd] in Hc. destruct (sql_add b0 _) as [b1|] eqn:Hb; [|done].
    cbn [mbind option_bind] in Hc. destruct (sql_add c0 _) as [c1|] eqn:Hc1; [|done]. injection Hc as <- <-.
    by rewrite (sql_add_Some _ _ _ Hb), (sql_add_Some _ _ _ Hc1).
  - rewrite Hl, !Z.add_0_r. by destruct (default _ _).
Qed.

(** The two outcomes of a workspace's sweep. *)
Lemma reclaim_workspace_ledger env (st : St) ledger stats w files st' ledger' stats' :
  reclaim_workspace env (st, ledger, stats) (w, files) = (st', ledger', stats') → re_storage_usage env = true →
  let removed := filter (λ e, removes env e = true) files in
  (st_db st' = st_db st ∧ ledger' = ledger) ∨
  (st_db st' = delete_entries (st_db st) (map fe_id removed) ∧
   ∀ k, default (0, 0) (storage_cleanup_daily ledger' !! k) =
     ((default (0, 0) (storage_cleanup_daily ledger !! k)).1 + (booked env k removed).1,
      (default (0, 0) (storage_cleanup_daily ledger !! k)).2 + (booked env k removed).2)).
Proof.
  intros Hw Hrepo removed. unfold reclaim_workspace in Hw. cbn [fst snd] in Hw.
  destruct (sweep_ledger env files (mkSweep st stats [] ∅)) as (Hids & Hok & Ham).
  { intros k d. cbn. by rewrite lookup_empty. }
  pose proof (sweep_db env files (mkSweep st stats [] ∅)) as Hdb. cbn [sw_store sw_ids sw_deltas] in *.
  set (s := foldl _ _ files) in *. unfold reclaim_commit in Hw. rewrite Hrepo in Hw.
  destruct (sw_ids s) as [|i ids] eqn:Hs; [simplify_eq; by left|]. rewrite <-Hs in *.
  destruct (record_cleanup_and_delete _ _ _ _) as [[l f]|] eqn:Htx.
  - apply cleanup_tx_files in Htx as [Hl ->]. rewrite Hdb, Hids in Hw. cbn [app] in Hw. fold removed in Hw.
    destruct (re_commit env w); [right|right|left]; simplify_eq; cbn [st_db with_db]; [..|by rewrite Hdb];
      (split; [done|]); intros k;
      (assert (upsert_cleanup_deltas (storage_cleanup_daily ledger) (map_to_list (sw_deltas s)).*2 =
         Some (storage_cleanup_daily ledger')) as Hu;
       [unfold record_cleanup_daily in Hl; destruct (map_to_list (sw_deltas s)).*2;
        [injection Hl as <-; done|destruct (upsert_cleanup_deltas _ _); cbn in Hl; [by injection Hl as <-|done]]|]);
      rewrite (upsert_deltas_lookup _ _ _ k Hok Hu), Ham; cbn [fst snd]; rewrite lookup_empty; done.
  - destruct (re_commit env w); left; simplify_eq; by rewrite Hdb.
Qed.
Lemma filter_as_concat {A : Type} (P : A → Prop) `{!∀ x, base.Decision (P x)} l :
  filter P l = concat (map (λ x, if decide (P x) then [x] else []) l).
Proof. induction l as [|x l IH]; [done|]. rewrite filter_cons. cbn. rewrite <-IH. by case_decide. Qed.

Lemma reclaim_workspace_retention env (acc : St * StorageDb * ReclaimStats) group :
  retention_storage_daily (reclaim_workspace env acc group).1.2 = retention_storage_daily acc.1.2.
Proof.
  destruct acc as [[st ledger] stats]. unfold reclaim_workspace, reclaim_commit.
  set (s := foldl _ _ _). destruct (sw_ids s); [done|]. destruct (re_storage_usage env); [|by destruct (re_commit env _)].
  destruct (record_cleanup_and_delete _ _ _ _) as [[lg f]|] eqn:Htx; [|by destruct (re_commit env _)].
  apply cleanup_tx_files in Htx as [Hl _]. assert (retention_storage_daily lg = retention_storage_daily ledger) as Hr.
  { unfold record_cleanup_daily in Hl. destruct (map_to_list _).*2; [by injection Hl as <-|].
    destruct (upsert_cleanup_deltas _ _); cbn in Hl; [|done]. by injection Hl as <-. }
  by destruct (re_commit env _).
Qed.

(** Deleting soft-deleted rows leaves the live files. *)
Lemma current_files_deleted db ids ws kind t :
  (∀ id e, id ∈ ids → file_rows db !! id = Some e → fe_deleted e = true) →
  current_files (delete_entries db ids) ws kind t ≡ₚ current_files db ws kind t.
Proof.
  intros Hdel. unfold current_files, rows_list. rewrite !filter_as_concat. apply concat_dropped.
  intros id. rewrite delete_entries_lookup. case_decide as Hin; [right|by left]. split; [done|].
  intros e He. rewrite decide_False; [done|]. intros (_ & _ & Hd & _). by rewrite (Hdel id e Hin He) in Hd.
Qed.

(** ** Theorems *)

(** Removed files are booked exactly once: with a usage repository, a
    workspace's sweep either deletes the rows of all files whose bytes it
    removed and adds exactly their sizes to the cleanup ledger of the day, per
    signal, or it changes neither, and the rows stay for the next cycle. *)
Theorem reclaim_books_what_it_removes env (st : St) ledger stats w files st' ledger' stats' :
  reclaim_workspace env (st, ledger, stats) (w, files) = (st', ledger', stats') → re_storage_usage env = true →
  let removed := filter (λ e, removes env e = true) files in
  (st_db st' = st_db st ∧ ledger' = ledger) ∨
  (st_db st' = delete_entries (st_db st) (map fe_id removed) ∧
   ∀ k, default (0, 0) (storage_cleanup_daily ledger' !! k) =
     ((default (0, 0) (storage_cleanup_daily ledger !! k)).1 + (booked env k removed).1,
      (default (0, 0) (storage_cleanup_daily ledger !! k)).2 + (booked env k removed).2)).
Proof. apply reclaim_workspace_ledger. Qed.

(** A first snapshot goes wrong when soft-deleted files still await the
    reclaimer: it counts the live files only, but when the reclaimer then
    removes the others, on the next day, their sizes are subtracted although
    they were never counted. The next snapshot is short by exactly that much,
    while the live files have not changed. *)
Theorem first_snapshot_undercounts env usage (st : St) db stats ws kind day files st' db2 stats' b n :
  let db1 := (storage_run_now usage (st_db st) db day (λ _, false)).1 in
  get_previous_snapshot db ws kind day = None → (ws, kind) ∈ list_active_keys (st_db st) (day_end_micros day) →
  get_current_file_stats (st_db st) ws kind (day_end_micros day) = Some (b, n) →
  storage_cleanup_daily db !! (ws, kind, day + 1) = None → get_ingestion_daily usage ws kind (day + 1) = (0, 0) →
  db_wf (st_db st) → Forall (λ e, e ∈ rows_list (st_db st) ∧ fe_deleted e = true) files →
  reclaim_workspace env (st, db1, stats) (ws, files) = (st', db2, stats') →
  re_storage_usage env = true → re_day env = day + 1 → st_db st' ≠ st_db st →
  (ws, kind) ∈ list_active_keys (st_db st') (day_end_micros (day + 1)) →
  let '(removed_bytes, removed_files) := booked env (ws, kind, day + 1) (filter (λ e, removes env e = true) files) in
  0 ≤ b - removed_bytes ≤ i64_max → 0 ≤ n - removed_files ≤ i64_max →
  retention_storage_daily (storage_run_now usage (st_db st') db2 (day + 1) (λ _, false)).1 !! (ws, kind, day + 1) =
    Some (b - removed_bytes, n - removed_files) ∧
  ∀ t, current_files (st_db st') ws kind t ≡ₚ current_files (st_db st) ws kind t.
Proof.
  intros db1 Hprev Hact0 Hcur Hclean Hing Hwf Hfiles Hw Hrepo Hday Hchanged Hact.
  assert (retention_storage_daily db1 !! (ws, kind, day) = Some (b, n)) as Hsnap.
  { unfold db1. rewrite storage_run_now_key by done. unfold snapshot_one_key. rewrite Hprev, Hcur. cbn. by rewrite lookup_insert_eq. }
  assert (storage_cleanup_daily db1 = storage_cleanup_daily db) as Hdb1 by apply storage_run_now_cleanup. rewrite <-Hdb1 in Hclean.
  pose proof (reclaim_workspace_retention env (st, db1, stats) (ws, files)) as Hret. rewrite Hw in Hret. cbn in Hret.
  destruct (reclaim_workspace_ledger env st db1 stats ws files st' db2 stats' Hw Hrepo) as [[? _]|[Hdb Hled]]; [done|].
  specialize (Hled (ws, kind, day + 1)). rewrite Hclean in Hled. cbn [default fst snd] in Hled.
  destruct (booked env _ _) as [rb rn]. cbn [fst snd] in Hled. intros Hb Hn. split.
  - rewrite (storage_run_now_incremental usage (st_db st') db2 (day + 1) ws kind b n); [| done| |..].
    + unfold net_day. rewrite Hing. unfold get_cleanup_daily. rewrite Hled. cbn. do 2 f_equal; lia.
    + rewrite Hret. by replace (day + 1 - 1) with day by lia.
    + unfold net_day. rewrite Hing. unfold get_cleanup_daily. rewrite Hled. cbn. lia.
    + unfold net_day. rewrite Hing. unfold get_cleanup_daily. rewrite Hled. cbn. lia.
  - intros t. rewrite Hdb. apply current_files_deleted. intros id e Hin He.
    apply list_elem_of_fmap in Hin as (f & -> & [_ Hf]%list_elem_of_filter).
    rewrite Forall_forall in Hfiles. destruct (Hfiles f Hf) as [Hr Hd].
    assert (f = e) as <-; [|done]. apply (rows_list_inj (st_db st)); [done|done| |].
    + apply elem_of_rows_list. by exists (fe_id f).
    + by destruct (Hwf _ _ He) as [-> _].
Qed.
End Ledger.

(** ** Witnesses *)

Section Witnesses.
Local Existing Instance chrono_concrete.
Local Existing Instance uuid_concrete.

Definition reclaim_env (leased : Z → bool) (day : Z) : ReclaimEnv :=
  mkReclaimEnv false true day leased (λ _, true) (λ _, Committed).

(** The store of two files, the first soft-deleted. *)
Definition one_deleted : Store Z := with_db two_files (mark_deleted (st_db two_files) [1] 200).

Lemma one_deleted_ok : store_ok one_deleted.
Proof. apply store_ok_marked. exact two_files_ok. Defined.

Definition swept (leased : Z → bool) : Store Z * StorageDb * ReclaimStats :=
  reclaim_run (reclaim_env leased 3) one_deleted storage_db_empty None.

Lemma one_deleted_places : places_distinct (st_db one_deleted).
Proof. apply places_NoDup. apply (bool_decide_unpack _). vm_compute. exact I. Defined.

Lemma reclaim_safe_witness :
  visible (swept (λ _, false)).1.1 ≡ₚ visible one_deleted ∧ file_rows (st_db (swept (λ _, false)).1.1) !! 1 = None ∧
  is_Some (file_rows (st_db (swept (λ id, id =? 1)).1.1) !! 1).
Proof.
  destruct (reclaim_safe (reclaim_env (λ _, false) 3) one_deleted storage_db_empty None (swept (λ _, false)).1.1
    (swept (λ _, false)).1.2 (swept (λ _, false)).2 one_deleted_ok one_deleted_places ltac:(vm_compute; reflexivity)) as (_ & Hv & _).
  split; [exact Hv|]. split; [vm_compute; reflexivity|]. vm_compute. eexists. reflexivity.
Defined.

Definition deleted_rows : list FileListEntry := filter (λ e, fe_deleted e = true) (rows_list (st_db one_deleted)).
Definition swept_workspace : Store Z * StorageDb * ReclaimStats :=
  reclaim_workspace (reclaim_env (λ _, false) 3) (one_deleted, storage_db_empty, mkReclaimStats 0 0 0 []) (3, deleted_rows).

Lemma reclaim_books_what_it_removes_witness :
  storage_cleanup_daily swept_workspace.1.2 !! (3, "logs", 3) = Some (32, 1).
Proof.
  destruct (reclaim_books_what_it_removes (reclaim_env (λ _, false) 3) one_deleted storage_db_empty
    (mkReclaimStats 0 0 0 []) 3 deleted_rows swept_workspace.1.1 swept_workspace.1.2 swept_workspace.2
    ltac:(vm_compute; reflexivity) eq_refl) as [_|_]; vm_compute; reflexivity.
Defined.

Definition first_snapshot : StorageDb :=
  (storage_run_now usage_db_empty (st_db one_deleted) storage_db_empty 2 (λ _, false)).1.
Definition swept_after_snapshot : Store Z * StorageDb * ReclaimStats :=
  reclaim_workspace (reclaim_env (λ _, false) 3) (one_deleted, first_snapshot, mkReclaimStats 0 0 0 []) (3, deleted_rows).

Lemma first_snapshot_undercounts_witness :
  retention_storage_daily (storage_run_now usage_db_empty (st_db swept_after_snapshot.1.1) swept_after_snapshot.1.2 3
    (λ _, false)).1 !! (3, "logs", 3) = Some (0, 0).
Proof.
  refine (proj1 (first_snapshot_undercounts (reclaim_env (λ _, false) 3) usage_db_empty one_deleted storage_db_empty
    (mkReclaimStats 0 0 0 []) 3 "logs" 2 deleted_rows swept_after_snapshot.1.1 swept_after_snapshot.1.2
    swept_after_snapshot.2 32 1 _ _ _ _ _ _ _ _ _ _ _ _ _ _)).
  - reflexivity.
  - apply (bool_decide_unpack _). vm_compute. exact I.
  - vm_compute. reflexivity.
  - reflexivity.
  - reflexivity.
  - exact (proj1 one_deleted_ok).
  - apply Forall_forall. intros e [Hd He]%list_elem_of_filter. split; [exact He|exact Hd].
  - vm_compute. reflexivity.
  - reflexivity.
  - reflexivity.
  - intros Heq. apply (f_equal (λ db, bool_decide (is_Some (file_rows db !! 1)))) in Heq. vm_compute in Heq. discriminate.
  - apply (bool_decide_unpack _). vm_compute. exact I.
  - vm_compute. split; discriminate.
  - vm_compute. split; discriminate.
Defined.
End Witnesses.
