(* ===== verification/Paths.v ===== *)
(** Paths: what the sources use of [std::path] and the key of a moved file,
    [s3_key_for_local_file] of [zradar-parquet/src/file_mover.rs].

    A path is its text; its components are what is between the slashes, without
    empty and dot components. *)

From stdpp Require Import base gmap list strings.
From Stdlib Require Import Ascii.
From S2P Require Import Prelude FileList WriteBuffer TelemetryWriter ParquetWriter.

(** ** [std::path] on Unix *)

(** The text between slashes. *)
Fixpoint split_slash (s : string) : list string :=
  match s with
  | EmptyString => [""]
  | String c s =>
      if decide (c = "/"%char) then "" :: split_slash s
      else match split_slash s with [] => [String c ""] | x :: l => String c x :: l end
  end.

Fixpoint join_slash (l : list string) : string :=
  match l with [] => "" | [x] => x | x :: l => x +:+ "/" +:+ join_slash l end.

Definition has_root (s : string) : bool := match s with String c _ => bool_decide (c = "/"%char) | EmptyString => false end.

Inductive Component := RootDir | CurDir | ParentDir | NormalComp (s : string).
#[export] Instance Component_eq_dec : EqDecision Component.
Proof. solve_decision. Defined.

(** Behind the start of a path, empty and dot components are skipped. *)
Definition skipped (x : string) : bool := bool_decide (x = "" ∨ x = ".").
Definition component_of (x : string) : Component := if decide (x = "..") then ParentDir else NormalComp x.
Definition body_components (l : list string) : list Component := map component_of (filter (λ x, skipped x = false) l).

(** The first component, if it is special, and the rest of the text. *)
Definition path_start (s : string) : option Component * list string :=
  match split_slash s with
  | x :: l => if has_root s then (Some RootDir, l) else if decide (x = ".") then (Some CurDir, l) else (None, x :: l)
  | [] => (None, [])
  end.

Definition components (s : string) : list Component :=
  let '(start, l) := path_start s in option_list start ++ body_components l.

(** [Components::next] behind the start. *)
Fixpoint next_component (l : list string) : option (Component * list string) :=
  match l with
  | [] => None
  | x :: l => if skipped x then next_component l else Some (component_of x, l)
  end.

Fixpoint strip_body (base : list Component) (l : list string) : option (list string) :=
  match base with
  | [] => Some l
  | c :: base =>
      match next_component l with
      | Some (c', l) => if decide (c = c') then strip_body base l else None
      | None => None
      end
  end.

Fixpoint trim_left (l : list string) : list string :=
  match l with [] => [] | x :: l' => if skipped x then trim_left l' else l end.
Definition trim_right (l : list string) : list string := reverse (trim_left (reverse l)).

(** [Path::strip_prefix], as text. *)
Definition path_strip_prefix (base path : string) : option string :=
  let '(start, l) := path_start path in
  match components base with
  | [] => Some (join_slash (option_list (match start with Some RootDir => Some "" | Some CurDir => Some "." | _ => None end) ++ trim_right l))
  | c :: base' =>
      match start with
      | Some c' => if decide (c = c') then (λ l, join_slash (trim_right (trim_left l))) <$> strip_body base' l else None
      | None => (λ l, join_slash (trim_right (trim_left l))) <$> strip_body (c :: base') l
      end
  end.

(** [Path::file_name], when the last component is a name. *)
Definition file_name (path : string) : option string :=
  match last (components path) with Some (NormalComp s) => Some s | _ => None end.

(** ** [s3_key_for_local_file] *)

(** [trim_start_matches] of a non-empty pattern, as often as it matches; the
    fuel is the length of the text. *)
Fixpoint trim_start_matches (fuel : nat) (p s : string) : string :=
  match fuel with
  | O => s
  | S fuel => match strip_prefix p s with Some s => trim_start_matches fuel p s | None => s end
  end.

Fixpoint replace_backslash (s : string) : string :=
  match s with
  | EmptyString => EmptyString
  | String c s => String (if decide (c = "\"%char) then "/"%char else c) (replace_backslash s)
  end.

Definition path_to_s3_key (path : string) : string :=
  let s := trim_start_matches (String.length path) "./" path in
  replace_backslash (trim_start_matches (String.length s) "/" s).

Definition s3_key_for_local_file (data_dir local_path : string) : string :=
  let data_dir_key := path_to_s3_key data_dir in
  match path_to_s3_key <$> path_strip_prefix data_dir local_path with
  | None => path_to_s3_key local_path
  | Some relative_key =>
      if decide (relative_key = "") then path_to_s3_key local_path
      else
        let data_dir_basename := default "" (file_name data_dir) in
        let normalized_relative := default relative_key (strip_prefix (data_dir_basename +:+ "/") relative_key) in
        if decide (data_dir_key = "") then normalized_relative else data_dir_key +:+ "/" +:+ normalized_relative
  end.

(** The examples of the source's own tests. *)
Example key_collapses_basename :
  s3_key_for_local_file "/workspace/zradar/files" "/workspace/zradar/files/files/tenant/traces/service/2026/05/28/00/a.parquet"
  = "workspace/zradar/files/tenant/traces/service/2026/05/28/00/a.parquet".
Proof. reflexivity. Qed.
Example key_keeps_other_prefix :
  s3_key_for_local_file "/data/parquet" "/data/parquet/files/tenant/traces/a.parquet" = "data/parquet/files/tenant/traces/a.parquet".
Proof. reflexivity. Qed.

(** ** Where a path leads *)

(** The directory an absolute path without symbolic links denotes: each parent
    component leaves the directory before it. *)
Definition resolve_component (dir : list string) (c : Component) : list string :=
  match c with
  | RootDir => []
  | CurDir => dir
  | ParentDir => removelast dir
  | NormalComp s => dir ++ [s]
  end.
Definition denotes (path : string) : list string := foldl resolve_component [] (components path).

(** A name that is one component. *)
Definition plain_name (x : string) : Prop := split_slash x = [x] ∧ skipped x = false ∧ x ≠ "..".

(** ** Lemmas *)

Lemma split_slash_cons s : ∃ x l, split_slash s = x :: l.
Proof.
  induction s as [|c s (x & l & IH)]; [by eexists _, _|]. cbn [split_slash]. rewrite IH. case_decide; by eexists _, _.
Qed.

Lemma split_slash_app a b : split_slash (a +:+ "/" +:+ b) = split_slash a ++ split_slash b.
Proof.
  induction a as [|c a IH]; [done|]. change (String c a +:+ "/" +:+ b) with (String c (a +:+ "/" +:+ b)).
  cbn [split_slash]. rewrite IH. case_decide; [done|]. by destruct (split_slash_cons a) as (x & l & ->).
Qed.

Lemma split_join l : Forall plain_name l ∨ Forall (λ x, split_slash x = [x]) l → l ≠ [] → split_slash (join_slash l) = l.
Proof.
  intros Hl. assert (Forall (λ x, split_slash x = [x]) l) as Hs.
  { destruct Hl as [Hl|Hl]; [|done]. eapply Forall_impl; [exact Hl|]. by intros x [? _]. }
  clear Hl. induction Hs as [|x l Hx _ IH]; intros Hne; [done|]. destruct l as [|y l]; [done|].
  change (join_slash (x :: y :: l)) with (x +:+ "/" +:+ join_slash (y :: l)). by rewrite split_slash_app, Hx, IH.
Qed.

Lemma body_components_app l1 l2 : body_components (l1 ++ l2) = body_components l1 ++ body_components l2.
Proof. unfold body_components. by rewrite filter_app, map_app. Qed.

Lemma body_components_plain l : Forall plain_name l → body_components l = map NormalComp l.
Proof.
  induction 1 as [|x l (_ & Hs & Hd) _ IH]; [done|]. unfold body_components in *. rewrite filter_cons, decide_True by done.
  cbn [map]. rewrite IH. unfold component_of. by rewrite decide_False.
Qed.

Lemma resolve_plain l dir : foldl resolve_component dir (map NormalComp l) = dir ++ l.
Proof.
  revert dir. induction l as [|x l IH]; intros dir; [by rewrite app_nil_r|]. cbn. rewrite IH. by rewrite <-app_assoc.
Qed.

Lemma resolve_parents n dir : length dir = n → foldl resolve_component dir (replicate n ParentDir) = [].
Proof.
  revert dir. induction n as [|n IH]; intros dir Hl; cbn; [by destruct dir|]. apply IH.
  destruct dir as [|x dir] using rev_ind; [done|]. rewrite removelast_last. rewrite length_app in Hl. cbn in Hl. lia.
Qed.

Lemma body_parents n : body_components (replicate n "..") = replicate n ParentDir.
Proof.
  induction n as [|n IH]; [done|]. unfold body_components in *. cbn [replicate]. rewrite filter_cons, decide_True by done.
  cbn [map]. by rewrite IH.
Qed.

(** Joining onto an absolute path. *)
Lemma denotes_root l : l ≠ [] → Forall (λ x, split_slash x = [x]) l →
  denotes ("/" +:+ join_slash l) = foldl resolve_component [] (body_components l).
Proof.
  intros Hne Hl. unfold denotes, components.
  change (path_start ("/" +:+ join_slash l)) with (Some RootDir, split_slash (join_slash l)).
  cbn [option_list app foldl resolve_component]. by rewrite (split_join l (or_intror Hl) Hne).
Qed.

(** ** Theorems *)

Section Traversal.
Context `{Chrono} `{UuidParser} {R : Type}.

Lemma join_slash_app l1 l2 : l1 ≠ [] → l2 ≠ [] → join_slash (l1 ++ l2) = join_slash l1 +:+ "/" +:+ join_slash l2.
Proof.
  induction l1 as [|x l1 IH]; intros H1 H2; [done|]. destruct l1 as [|y l1].
  - cbn [app join_slash]. by destruct l2.
  - cbn [app] in IH |- *. change (join_slash (x :: y :: l1 ++ l2)) with (x +:+ "/" +:+ join_slash (y :: l1 ++ l2)).
    rewrite IH by done. change (join_slash (x :: y :: l1)) with (x +:+ "/" +:+ join_slash (y :: l1)).
    by rewrite !string_app_assoc.
Qed.

Lemma full_path_join job env dirs names date :
  we_data_dir env = "/" +:+ join_slash dirs → dirs ≠ [] → names ≠ [] → date ≠ [] →
  wj_stream_name job = join_slash names → ts_ns_to_date_path (wj_min_ts_ns (R := R) job) = join_slash date →
  full_path job env =
    "/" +:+ join_slash (dirs ++ ["files"; wj_workspace_id job; wj_signal_type job] ++ names ++ date ++ [we_uuid env +:+ ".parquet"]).
Proof.
  intros Hdir Hd Hn Hdt Hstream Hdate. unfold full_path, file_stem. rewrite Hdir, Hstream, Hdate.
  rewrite join_slash_app by done.
  change (join_slash (["files"; wj_workspace_id job; wj_signal_type job] ++ names ++ date ++ [we_uuid env +:+ ".parquet"]))
    with (join_slash ("files" :: wj_workspace_id job :: wj_signal_type job :: names ++ date ++ [we_uuid env +:+ ".parquet"])).
  assert (names ++ date ++ [we_uuid env +:+ ".parquet"] ≠ []) as Hne by by destruct names.
  assert (∀ x l, l ≠ [] → join_slash (x :: l) = x +:+ "/" +:+ join_slash l) as Hc by (intros x [|y l]; done).
  rewrite Hc by done. rewrite Hc by done. rewrite Hc by done. rewrite join_slash_app by (try done; by destruct date).
  rewrite join_slash_app by done. cbn [join_slash]. rewrite !string_app_assoc. done.
Qed.

(** The service name of a span, log or metric becomes part of the path of the
    file its rows are written to, unchecked: with enough parent components a
    client makes the server write the file into any directory it chooses,
    outside the data directory and outside its workspace's. *)
Theorem service_name_escapes_data_dir st (job : WriteJob R) env dirs target date service :
  dirs ≠ [] → Forall plain_name dirs → we_data_dir env = "/" +:+ join_slash dirs →
  plain_name (wj_workspace_id job) → plain_name (wj_signal_type job) → plain_name (we_uuid env +:+ ".parquet") →
  date ≠ [] → Forall plain_name date → ts_ns_to_date_path (wj_min_ts_ns job) = join_slash date →
  Forall plain_name target → service = join_slash (replicate (length dirs + 3) ".." ++ target) →
  wj_stream_name job = stream_of service → we_fail env = None →
  ∃ e, e ∈ rows_list (st_db (write_batch st job env).1) ∧
    denotes (fe_file_path e) = target ++ date ++ [we_uuid env +:+ ".parquet"].
Proof.
  intros Hd Hdirs Hdir Hw Hsig Hu Hdt Hdate Hdp Htarget -> Hstream Hf.
  set (names := replicate (length dirs + 3) ".." ++ target) in *.
  assert (names ≠ []) as Hn by (subst names; by rewrite Nat.add_comm).
  assert (∀ x, plain_name x → split_slash x = [x]) as Hp by (by intros x [? _]).
  assert (Forall (λ x, split_slash x = [x]) names) as Hnames.
  { apply Forall_app. split; [by apply Forall_replicate|]. eapply Forall_impl; [exact Htarget|done]. }
  assert (stream_of (join_slash names) = join_slash names) as Hname.
  { unfold stream_of. rewrite bool_decide_eq_false_2; [done|]. intros Heq. apply (f_equal split_slash) in Heq.
    rewrite (split_join names (or_intror Hnames) Hn) in Heq. apply (f_equal length) in Heq. subst names.
    rewrite length_app, length_replicate in Heq. cbn in Heq. lia. }
  rewrite Hname in Hstream.
  pose proof (write_batch_cases st job env) as Hc. destruct (write_batch st job env) as [st' r]. cbn [fst].
  rewrite Hf in Hc. destruct Hc as [(_ & -> & _)|(? & ? & ? & _)]; [|done].
  eexists. split.
  { apply elem_of_rows_list. exists (next_file_id (st_db st)). cbn. by rewrite lookup_insert_eq. }
  cbn [fe_file_path new_entry]. rewrite (full_path_join job env dirs names date) by done.
  set (base := dirs ++ ["files"; wj_workspace_id job; wj_signal_type job]).
  replace (dirs ++ ["files"; wj_workspace_id job; wj_signal_type job] ++ names ++ date ++ [we_uuid env +:+ ".parquet"])
    with (base ++ replicate (length dirs + 3) ".." ++ target ++ date ++ [we_uuid env +:+ ".parquet"])
    by (subst base names; by rewrite <-!app_assoc).
  assert (Forall plain_name base) as Hbase.
  { apply Forall_app. split; [done|]. repeat (constructor; [done|]). constructor. }
  assert (Forall plain_name (target ++ date ++ [we_uuid env +:+ ".parquet"])) as Hend by (rewrite !Forall_app; auto).
  rewrite denotes_root.
  - rewrite !(body_components_app base), (body_components_app (replicate _ _)), body_parents.
    rewrite !body_components_plain by done. rewrite !foldl_app, !resolve_plain. cbn [app].
    rewrite (resolve_parents (length dirs + 3) base) by (unfold base; by rewrite length_app). done.
  - subst base. by destruct dirs.
  - rewrite !Forall_app. rewrite !Forall_app in Hend. destruct Hend as (H1 & H2 & H3).
    split_and!; try (eapply Forall_impl; [eassumption|done]). by apply Forall_replicate.
Qed.
End Traversal.

(** ** Witness *)

Section Witness.
Local Existing Instance chrono_concrete.
Local Instance no_uuid : UuidParser := λ _, None.

Definition escaping_service : string := "../../../../../tmp/loot".
Definition escaping_job : WriteJob Z := mkWriteJob "w1" (stream_of escaping_service) "logs" [10; 11] 5000 5 6 2.
Definition srv_env : WriteEnv := mkWriteEnv "/srv/data" "u1" 100 64 32 None.

Lemma service_name_escapes_data_dir_witness :
  ∃ e, e ∈ rows_list (st_db (write_batch empty_store escaping_job srv_env).1) ∧
    denotes (fe_file_path e) = ["tmp"; "loot"; "0"; "u1.parquet"].
Proof.
  apply (service_name_escapes_data_dir empty_store escaping_job srv_env ["srv"; "data"] ["tmp"; "loot"] ["0"] escaping_service);
    try (apply (bool_decide_unpack _); vm_compute; exact I); try reflexivity; try discriminate.
  all: repeat constructor; first [discriminate|vm_compute; reflexivity].
Defined.
End Witness.
