(* ===== verification/FileMover.v ===== *)
(** Promotion of local files to the bucket: [zradar-parquet/src/file_mover.rs]
    with the upload of [zradar-plugin-s3/src/storage.rs].

    A cycle lists the local files, pushes each eligible one and schedules the
    removal of its local copy. The scheduled removals are tasks of the process:
    a list of paths next to the store. *)

From stdpp Require Import base gmap sorting list strings.
From Stdlib Require Import Ascii.
From S2P Require Import Prelude FileList WriteBuffer TelemetryWriter ParquetWriter Paths Compactor Lease PgUsage PgUsageWorker StorageUsage Reclaimer.

Section Mover.
Context {R : Type}.
Abbreviation St := (Store R).
Implicit Types (st : St) (timers : list string).

Context (data_dir bucket : string).

(** ** [S3BlockStorage::upload] *)

(** The outcome of the bucket's atomic write; a failed one may have stored the
    object before its answer was lost. *)
Inductive UploadResult := Uploaded | UploadFailed (stored : bool).

Definition s3_url (key : string) : string := "s3://" +:+ bucket +:+ "/" +:+ key.

Definition s3_upload (st : St) (key : string) (data : FileData R) (r : UploadResult) : St * option string :=
  let stored := with_objects st (<[key := data]> (objects st)) in
  match r with
  | Uploaded => (stored, Some (s3_url key))
  | UploadFailed true => (stored, None)
  | UploadFailed false => (st, None)
  end.

(** ** [FileMover] *)

(** What the push of one file finds: whether the read works, the upload, the
    failure of [update_location] with whether it was applied, and the
    database's clock. *)
Record PushEnv := mkPushEnv {
  pv_read_ok : bool;
  pv_upload : UploadResult;
  pv_update_fail : option bool;
  pv_now_us : Z;
}.

Inductive PushError := UpdateLocationFailed.

(** One round of the loop. A file that cannot be read or uploaded is left for
    the next cycle; an error of the database ends the cycle. *)
Definition push_file (s : St * list string) (file : FileListEntry) (env : PushEnv) :
    (St * list string) * outcome PushError unit :=
  let '(st, timers) := s in
  let local_path := fe_file_path file in
  match (if pv_read_ok env then disk st !! local_path else None) with
  | None => ((st, timers), Ok ())
  | Some data =>
      match s3_upload st (s3_key_for_local_file data_dir local_path) data (pv_upload env) with
      | (st, None) => ((st, timers), Ok ())
      | (st, Some url) =>
          let updated := with_db st (update_location (st_db st) (fe_id file) "s3" url (pv_now_us env)) in
          match pv_update_fail env with
          | None => ((updated, timers ++ [local_path]), Ok ())
          | Some applied => ((if applied then updated else st, timers), Err UpdateLocationFailed)
          end
      end
  end.

(** The files a cycle takes: local, live, old enough and not being read. The
    delay in microseconds is computed in u64 and reinterpreted. *)
Definition push_cutoff_us (file_push_delay_secs now_us : Z) : Z :=
  i64_wrap (now_us - i64_of_bits (u64_wrap (file_push_delay_secs * 1000000))).

Definition is_leased_by (leases : option FileLeaseRegistry) (id : Z) : bool :=
  match leases with Some reg => is_leased reg id | None => false end.

Definition eligible_files (file_push_delay_secs now_us : Z) (leases : option FileLeaseRegistry) (db : FileDb) :
    list FileListEntry :=
  filter (λ f, is_leased_by leases (fe_id f) = false)
    (filter (λ f, fe_created_at f ≤ push_cutoff_us file_push_delay_secs now_us)
      (query_files db (mkFileListFilter None None None None None (Some "local") (Some false)))).

Fixpoint push_files (s : St * list string) (files : list FileListEntry) (env_of : Z → PushEnv) :
    (St * list string) * outcome PushError unit :=
  match files with
  | [] => (s, Ok ())
  | file :: files =>
      match push_file s file (env_of (fe_id file)) with
      | (s, Ok _) => push_files s files env_of
      | (s, r) => (s, r)
      end
  end.

Definition push_eligible_files (s : St * list string) (file_push_delay_secs now_us : Z)
    (leases : option FileLeaseRegistry) (env_of : Z → PushEnv) : (St * list string) * outcome PushError unit :=
  push_files s (eligible_files file_push_delay_secs now_us leases (st_db s.1)) env_of.

(** The scheduled task of a path: it sleeps, then removes the file. *)
Fixpoint remove_path (path : string) (l : list string) : list string :=
  match l with [] => [] | p :: l => if decide (p = path) then l else p :: remove_path path l end.

Definition delete_local (s : St * list string) (path : string) (remove_ok : bool) : St * list string :=
  (if remove_ok then with_disk s.1 (delete path (disk s.1)) else s.1, remove_path path s.2).

(** ** Specification *)

(** The paths of scheduled removals belong to no local row. *)
Definition timers_ok (st : St) (timers : list string) : Prop :=
  ∀ e, e ∈ rows_list (st_db st) → fe_location e ≠ "s3" → fe_file_path e ∉ timers.

(** What a push relies on: the row of the file, if it is still there, is the
    local one of the listing (other components only mark or remove it), its
    path is its own, and its key is fresh and not a temporary's name. *)
Definition pushable (st : St) (file : FileListEntry) : Prop :=
  let key := s3_key_for_local_file data_dir (fe_file_path file) in
  (∀ e, e ∈ rows_list (st_db st) → fe_id e = fe_id file → fe_location e ≠ "s3" ∧ fe_file_path e = fe_file_path file) ∧
  (∀ e, e ∈ rows_list (st_db st) → fe_location e ≠ "s3" → fe_file_path e = fe_file_path file → fe_id e = fe_id file) ∧
  (∀ e, e ∈ rows_list (st_db st) → fe_location e = "s3" → extract_s3_key (fe_file_path e) ≠ key) ∧
  has_par_extension (s3_url key) = false.

(** Bucket names have no slash. *)
Definition bucket_ok : Prop := after_slash (bucket +:+ "/") = Some "".

(** ** Lemmas *)

Lemma after_slash_app s t : after_slash (s +:+ "/") = Some "" → after_slash (s +:+ "/" +:+ t) = Some t.
Proof.
  induction s as [|c s IH]; [done|]. change (String c s +:+ "/") with (String c (s +:+ "/")).
  change (String c s +:+ "/" +:+ t) with (String c (s +:+ "/" +:+ t)). cbn [after_slash].
  case_decide; [|done]. destruct s; done.
Qed.

Lemma extract_s3_url key : bucket_ok → extract_s3_key (s3_url key) = key.
Proof. intros Hb. unfold extract_s3_key, s3_url. 
  change (strip_prefix "s3://" ("s3://" +:+ bucket +:+ "/" +:+ key)) with (Some (bucket +:+ "/" +:+ key)). cbn iota.
  by rewrite after_slash_app.
Qed.

(** A change of rows that leaves the data of each live row where it is. *)
Lemma visible_map (f : FileListEntry → FileListEntry) st st' :
  file_rows (st_db st') = f <$> file_rows (st_db st) →
  (∀ e, e ∈ rows_list (st_db st) → entry_rows st' (f e) = entry_rows st e) → visible st' ≡ₚ visible st.
Proof.
  intros Hrows He. unfold visible, rows_list in *. rewrite Hrows, map_to_list_fmap.
  assert (map (entry_rows st') (prod_map id f <$> map_to_list (file_rows (st_db st))).*2 =
    map (entry_rows st) (map_to_list (file_rows (st_db st))).*2) as Heq; [|by rewrite <-Heq].
  change (map ?g ?l) with (g <$> l). rewrite <-!list_fmap_compose. apply list_fmap_ext. intros i [id e] Hi.
  apply He. apply list_elem_of_fmap. exists (id, e). split; [done|]. apply list_elem_of_lookup_2 in Hi. exact Hi.
Qed.

Lemma elem_of_rows_map (f : FileListEntry → FileListEntry) db db' e' : file_rows db' = f <$> file_rows db →
  e' ∈ rows_list db' ↔ ∃ e, e' = f e ∧ e ∈ rows_list db.
Proof.
  intros Hrows. rewrite elem_of_rows_list. split.
  - intros [id Hi]. rewrite Hrows, lookup_fmap in Hi. apply fmap_Some in Hi as (e & He & ->). exists e.
    split; [done|]. apply elem_of_rows_list. by exists id.
  - intros (e & -> & [id He]%elem_of_rows_list). exists id. by rewrite Hrows, lookup_fmap, He.
Qed.

(** The table after [update_location], as a map. *)
Definition moved (id : Z) (url : string) (now : Z) (e : FileListEntry) : FileListEntry :=
  if decide (fe_id e = id) then set_location "s3" url now e else e.

Lemma update_location_map db id url now : db_wf db →
  file_rows (update_location db id "s3" url now) = moved id url now <$> file_rows db.
Proof.
  intros Hwf. apply map_eq. intros i. cbn [update_location file_rows with_rows]. rewrite lookup_alter, lookup_fmap.
  destruct (decide (id = i)) as [->|Hne]; (destruct (file_rows db !! i) as [e|] eqn:Hi; [|done]);
    destruct (Hwf i e Hi) as [Hid _]; cbn; unfold moved; rewrite Hid.
  - by rewrite decide_True.
  - by rewrite decide_False by congruence.
Qed.

Definition mover_inv (s : St * list string) : Prop :=
  store_ok s.1 ∧ places_distinct (st_db s.1) ∧ timers_ok s.1 s.2.

Lemma entry_data_objects st key data e : (fe_location e = "s3" → extract_s3_key (fe_file_path e) ≠ key) →
  entry_data (with_objects st (<[key := data]> (objects st))) e = entry_data st e.
Proof.
  intros Hk. unfold entry_data, with_objects. cbn [objects disk]. case_decide as Hs; [|done].
  rewrite lookup_insert_ne; [done|]. intros Heq. by apply (Hk Hs).
Qed.

(** Data of the rows that stay is all that the invariant sees of the disk and
    the bucket. *)
Lemma mover_inv_data st st' timers : st_db st' = st_db st →
  (∀ e, e ∈ rows_list (st_db st) → fe_deleted e = false → entry_data st' e = entry_data st e) →
  mover_inv (st, timers) → mover_inv (st', timers) ∧ visible st' ≡ₚ visible st.
Proof.
  intros Hdb Hd [[Hwf Hok] [Hpl Ht]]. cbn [fst snd] in *. split.
  - unfold mover_inv, store_ok, timers_ok. cbn [fst snd]. rewrite Hdb. split_and!; [done| |done|done].
    intros id e He. destruct (Hok id e He) as [Hp Hw]. split; [done|]. intros Hlive. rewrite Hd; [by apply Hw| |done].
    apply elem_of_rows_list. by exists id.
  - apply (visible_map id); [by rewrite Hdb, map_fmap_id|]. intros e He. change (id e) with e. unfold entry_rows.
    destruct (fe_deleted e) eqn:Hdel; [done|]. by rewrite Hd.
Qed.

Lemma push_update_inv st timers file url now : mover_inv (st, timers) →
  (∀ e, e ∈ rows_list (st_db st) → fe_id e = fe_id file → fe_location e ≠ "s3" ∧ fe_file_path e = fe_file_path file) →
  (∀ e, e ∈ rows_list (st_db st) → fe_location e ≠ "s3" → fe_file_path e = fe_file_path file → fe_id e = fe_id file) →
  (∀ e, e ∈ rows_list (st_db st) → fe_location e = "s3" → extract_s3_key (fe_file_path e) ≠ extract_s3_key url) →
  has_par_extension url = false →
  (∀ e, e ∈ rows_list (st_db st) → fe_id e = fe_id file → objects st !! extract_s3_key url = disk st !! fe_file_path file) →
  let st' := with_db st (update_location (st_db st) (fe_id file) "s3" url now) in
  mover_inv (st', timers ++ [fe_file_path file]) ∧ visible st' ≡ₚ visible st.
Proof.
  intros ([Hwf Hok] & Hpl & Ht) Hrow Hpath Hkey Hpar Hobj st'. cbn [fst snd] in *.
  pose proof (update_location_map (st_db st) (fe_id file) url now Hwf) as Hmap.
  change (update_location (st_db st) (fe_id file) "s3" url now) with (st_db st') in Hmap. set (f := moved _ _ _) in Hmap.
  assert (∀ e, e ∈ rows_list (st_db st) → fe_id e = fe_id file → entry_data st' (f e) = entry_data st e) as Hmoved.
  { intros e He Hid. destruct (Hrow e He Hid) as [Hloc Hp]. unfold f, moved. rewrite decide_True by done.
    unfold entry_data. cbn [fe_location fe_file_path set_location]. rewrite decide_True by done. rewrite decide_False by done.
    rewrite Hp. cbn. by apply (Hobj e). }
  assert (∀ e, e ∈ rows_list (st_db st) → entry_data st' (f e) = entry_data st e) as Hdata.
  { intros e He. destruct (decide (fe_id e = fe_id file)); [by apply Hmoved|]. unfold f, moved. by rewrite decide_False. }
  assert (∀ e, fe_deleted (f e) = fe_deleted e ∧ fe_id (f e) = fe_id e) as Hf by (intros e; unfold f, moved; by case_decide).
  split; [split; [split|split]|]; cbn [fst snd].
  - by apply db_wf_update_location.
  - intros i e' He'. rewrite Hmap, lookup_fmap in He'. apply fmap_Some in He' as (e & He & ->). destruct (Hf e) as [-> _].
    assert (e ∈ rows_list (st_db st)) as Hin by (apply elem_of_rows_list; by exists i). rewrite Hdata by done.
    destruct (Hok i e He) as [Hp Hd]. split; [|done]. unfold f, moved. by case_decide.
  - intros e1 e2 (x1 & -> & H1)%(elem_of_rows_map f _ _ _ Hmap) (x2 & -> & H2)%(elem_of_rows_map f _ _ _ Hmap) Heq.
    assert (∀ x, x ∈ rows_list (st_db st) → place x ≠ (true, extract_s3_key url)) as Hnew.
    { intros x Hx. unfold place. case_decide as Hs; [|done]. intros [= Hk]. by apply (Hkey x). }
    revert Heq. unfold f, moved. destruct (decide (fe_id x1 = _)) as [Hi1|]; destruct (decide (fe_id x2 = _)) as [Hi2|].
    + intros _. f_equal. apply (rows_list_inj (st_db st)); [done..|congruence].
    + intros Heq. by destruct (Hnew x2 H2).
    + intros Heq. by destruct (Hnew x1 H1).
    + intros Heq. by apply Hpl.
  - intros e' (e & -> & He)%(elem_of_rows_map f _ _ _ Hmap) Hloc. rewrite elem_of_app, list_elem_of_singleton.
    revert Hloc. unfold f, moved. case_decide as Hid; [done|]. intros Hloc [Hin|Hin]; [by apply (Ht e)|]. by apply Hid, Hpath.
  - apply (visible_map f); [done|]. intros e He. unfold entry_rows. destruct (Hf e) as [-> _]. by rewrite Hdata.
Qed.

Lemma push_file_inv s file env s' r : bucket_ok → mover_inv s → pushable s.1 file → push_file s file env = (s', r) →
  mover_inv s' ∧ visible s'.1 ≡ₚ visible s.1.
Proof.
  intros Hb Hinv (Hrow & Hpath & Hkey & Hpar) Hp. destruct s as [st timers]. cbn [fst] in *. unfold push_file in Hp.
  destruct (pv_read_ok env); [|by injection Hp as <- <-].
  destruct (disk st !! fe_file_path file) as [data|] eqn:Hd; [|by injection Hp as <- <-].
  set (key := s3_key_for_local_file data_dir (fe_file_path file)) in *.
  set (st1 := with_objects st (<[key := data]> (objects st))).
  assert (mover_inv (st1, timers) ∧ visible st1 ≡ₚ visible st) as [Hinv1 Hv1].
  { apply mover_inv_data; [done| |done]. intros e He _. apply entry_data_objects. intros Hs. by apply Hkey. }
  unfold s3_upload in Hp. fold st1 in Hp. destruct (pv_upload env) as [|[]]; [|by injection Hp as <- <-..].
  destruct (push_update_inv st1 timers file (s3_url key) (pv_now_us env) Hinv1) as [Hinv2 Hv2]; try done.
  { intros e He Hs. rewrite extract_s3_url by done. by apply Hkey. }
  { intros e He Hid. rewrite extract_s3_url by done. cbn. by rewrite lookup_insert_eq. }
  destruct (pv_update_fail env) as [[]|]; injection Hp as <- <-; cbn [fst]; try (split; [done|by etrans]).
  split; [|by etrans]. destruct Hinv2 as (Hok2 & Hpl2 & Ht2). split; [done|]. split; [done|].
  intros e He Hs Hin. apply (Ht2 e He Hs). cbn [snd] in *. rewrite elem_of_app. by left.
Qed.

(** A scheduled removal touches no row's data. *)
Lemma delete_local_inv s path remove_ok : mover_inv s → path ∈ s.2 →
  mover_inv (delete_local s path remove_ok) ∧ visible (delete_local s path remove_ok).1 ≡ₚ visible s.1.
Proof.
  intros Hinv Hin. destruct s as [st timers]. cbn [fst snd] in *.
  assert (mover_inv (st, remove_path path timers)) as Hinv0.
  { destruct Hinv as (Hok & Hpl & Ht). split; [done|]. split; [done|]. intros e He Hs Hx. apply (Ht e He Hs). cbn [snd] in *.
    clear -Hx. induction timers as [|p timers IH]; [done|]. cbn in Hx. rewrite elem_of_cons. case_decide; [by right|].
    apply elem_of_cons in Hx as [?|?]; [by left|]. right. by apply IH. }
  unfold delete_local. cbn [fst snd]. destruct remove_ok; [|done]. apply mover_inv_data; [done| |done].
  intros e He _. unfold entry_data. case_decide as Hs; [done|]. cbn [disk with_disk]. rewrite lookup_delete_ne; [done|].
  intros ->. destruct Hinv as (_ & _ & Ht). by apply (Ht e He Hs).
Qed.

(** *** A cycle *)

Definition key_of (file : FileListEntry) : string := s3_key_for_local_file data_dir (fe_file_path file).

Definition moved_row (file : FileListEntry) (now : Z) : FileListEntry := set_location "s3" (s3_url (key_of file)) now file.

Definition push_succeeds (env : PushEnv) : Prop :=
  pv_read_ok env = true ∧ pv_upload env = Uploaded ∧ pv_update_fail env = None.

(** A push moves the row of its file or leaves the table as it was. *)
Lemma push_file_rows st timers file env s' r : file_rows (st_db st) !! fe_id file = Some file →
  push_file (st, timers) file env = (s', r) →
  disk s'.1 = disk st ∧ (∀ k, k ≠ key_of file → objects s'.1 !! k = objects st !! k) ∧
  (file_rows (st_db s'.1) = file_rows (st_db st) ∨
   objects s'.1 !! key_of file = disk st !! fe_file_path file ∧
   ∃ now, file_rows (st_db s'.1) = <[fe_id file := moved_row file now]> (file_rows (st_db st))) ∧
  (push_succeeds env → is_Some (disk st !! fe_file_path file) →
   r = Ok () ∧ ∃ now, file_rows (st_db s'.1) = <[fe_id file := moved_row file now]> (file_rows (st_db st))).
Proof.
  intros Hf Hp.
  assert (∀ now, alter (set_location "s3" (s3_url (key_of file)) now) (fe_id file) (file_rows (st_db st)) =
    <[fe_id file := moved_row file now]> (file_rows (st_db st))) as Halter.
  { intros now. apply map_eq. intros i. rewrite lookup_alter, lookup_insert. case_decide as Hi; [|done]. subst i. by rewrite Hf. }
  unfold push_file, s3_upload in Hp. fold (key_of file) in Hp.
  destruct (pv_read_ok env) eqn:Hr; [|injection Hp as <- <-; split_and!; [done..|by left|]].
  2: { intros [? _]. congruence. }
  destruct (disk st !! fe_file_path file) as [data|] eqn:Hd; [|injection Hp as <- <-; split_and!; [done..|by left|]].
  2: { intros _ [? ?]. congruence. }
  set (st1 := with_objects st (<[key_of file := data]> (objects st))) in *.
  assert (∀ k, k ≠ key_of file → objects st1 !! k = objects st !! k) as Hk by (intros k ?; cbn; by rewrite lookup_insert_ne).
  assert (objects st1 !! key_of file = Some data) as Hkey by (cbn; by rewrite lookup_insert_eq).
  destruct (pv_upload env) as [|[]] eqn:Hu; [|injection Hp as <- <-; split_and!; [done..|by left|intros (_ & ? & _); congruence]..].
  destruct (pv_update_fail env) as [[]|] eqn:Hfail; injection Hp as <- <-;
    (split; [done|split; [done|split]]); try (intros (_ & _ & ?); congruence); try (by left);
    try (intros _ _; split; [done|]); try (right; split; [done|]); eexists; apply Halter.
Qed.

(** The files still to be pushed stay pushable. *)
Lemma pushable_next st st' file file' : db_wf (st_db st) → pushable st file' → fe_id file ≠ fe_id file' → key_of file ≠ key_of file' →
  bucket_ok → (file_rows (st_db st') = file_rows (st_db st) ∨ ∃ now, file_rows (st_db st') = <[fe_id file := moved_row file now]> (file_rows (st_db st))) → pushable st' file'.
Proof.
  intros Hwf (Hrow & Hpath & Hkey & Hpar) Hid Hk Hb Hrows.
  assert (∀ e, e ∈ rows_list (st_db st') → e ∈ rows_list (st_db st) ∨ ∃ now, e = moved_row file now) as Hback.
  { intros e [i He]%elem_of_rows_list. destruct Hrows as [Heq|[now Heq]]; rewrite Heq in He.
    - left. apply elem_of_rows_list. by exists i.
    - apply lookup_insert_Some in He as [[_ <-]|[_ He]]; [right; by exists now|left]. apply elem_of_rows_list. by exists i. }
  split_and!; [| | |done].
  - intros e [?|[now ->]]%Hback ?; [by apply Hrow|done].
  - intros e [?|[now ->]]%Hback ? ?; [by apply Hpath|done].
  - intros e [?|[now ->]]%Hback ?; [by apply Hkey|]. cbn [fe_file_path moved_row set_location]. by rewrite extract_s3_url.
Qed.

(** What the listing of a cycle guarantees of its files. *)
Definition batch_ok (st : St) (files : list FileListEntry) : Prop :=
  (∀ e, e ∈ files → file_rows (st_db st) !! fe_id e = Some e ∧ fe_deleted e = false ∧ fe_location e = "local") ∧
  NoDup (map fe_id files) ∧ NoDup (map key_of files) ∧ Forall (pushable st) files.

Lemma batch_ok_next st st' file files : db_wf (st_db st) → bucket_ok → batch_ok st (file :: files) →
  (file_rows (st_db st') = file_rows (st_db st) ∨ ∃ now, file_rows (st_db st') = <[fe_id file := moved_row file now]> (file_rows (st_db st))) →
  batch_ok st' files.
Proof.
  intros Hwf Hb (Hin & Hids & Hkeys & [_ Hall]%Forall_cons) Hrows. cbn [map] in Hids, Hkeys.
  rewrite NoDup_cons in Hids. rewrite NoDup_cons in Hkeys. destruct Hids as [Hid Hids], Hkeys as [Hk Hkeys].
  assert (∀ e, e ∈ files → fe_id file ≠ fe_id e ∧ key_of file ≠ key_of e) as Hne.
  { intros e He. split; intros Heq; [apply Hid|apply Hk]; rewrite Heq; by apply list_elem_of_fmap_2. }
  split_and!; [|done|done|].
  - intros e He. assert (file_rows (st_db st') !! fe_id e = file_rows (st_db st) !! fe_id e) as ->.
    { destruct Hrows as [->|[now ->]]; [done|]. rewrite lookup_insert_ne; [done|]. by apply Hne. }
    apply Hin. by right.
  - rewrite Forall_forall in Hall |- *. intros e He. destruct (Hne e He).
    apply (pushable_next st st' file e); [done|by apply Hall|done..].
Qed.

(** What the pushes of [files] did to the rows and the bucket. *)
Definition push_files_done (s' : St * list string) (st : St) (files : list FileListEntry) (r : outcome PushError unit)
    (env_of : Z → PushEnv) : Prop :=
  (∀ id, file_rows (st_db s'.1) !! id = file_rows (st_db st) !! id ∨
     ∃ e now, e ∈ files ∧ fe_id e = id ∧ file_rows (st_db s'.1) !! id = Some (moved_row e now) ∧
       objects s'.1 !! key_of e = disk st !! fe_file_path e) ∧
  (∀ k, k ∉ map key_of files → objects s'.1 !! k = objects st !! k) ∧
  (r = Ok () → ∀ e, e ∈ files → push_succeeds (env_of (fe_id e)) →
     ∃ now, file_rows (st_db s'.1) !! fe_id e = Some (moved_row e now)).

Lemma push_files_spec env_of files : bucket_ok → ∀ s s' r, mover_inv s → batch_ok s.1 files → push_files s files env_of = (s', r) →
  mover_inv s' ∧ visible s'.1 ≡ₚ visible s.1 ∧ disk s'.1 = disk s.1 ∧ push_files_done s' s.1 files r env_of.
Proof.
  intros Hb. unfold push_files_done. induction files as [|file files IH]; intros s s' r Hinv Hbatch Hp; cbn [push_files] in Hp.
  { injection Hp as <- <-. split_and!; try done; [by left|]. by intros _ e ?%not_elem_of_nil. }
  pose proof Hbatch as (Hin & Hids & Hkeys & [Hpush Hall]%Forall_cons). cbn [map] in Hids, Hkeys.
  rewrite NoDup_cons in Hids. rewrite NoDup_cons in Hkeys. destruct Hids as [Hid Hids], Hkeys as [Hk Hkeys].
  destruct (push_file s file _) as [s1 r1] eqn:H1. destruct (Hin file ltac:(by left)) as (Hrow & Hlive & Hloc).
  destruct (push_file_inv _ _ _ _ _ Hb Hinv Hpush H1) as [Hinv1 Hv1]. destruct s as [st timers].
  destruct (push_file_rows _ _ _ _ _ _ Hrow H1) as (Hd1 & Ho1 & Hr1 & Hgood1). cbn [fst] in *.
  assert (∀ e, e ∈ files → fe_id file ≠ fe_id e ∧ key_of file ≠ key_of e) as Hne.
  { intros e He. split; intros Heq; [apply Hid|apply Hk]; rewrite Heq; by apply list_elem_of_fmap_2. }
  assert (∀ id, file_rows (st_db s1.1) !! id = file_rows (st_db st) !! id ∨
     ∃ now, fe_id file = id ∧ file_rows (st_db s1.1) !! id = Some (moved_row file now) ∧
       objects s1.1 !! key_of file = disk st !! fe_file_path file) as Hone.
  { intros id. destruct Hr1 as [->|[? [now ->]]]; [by left|]. rewrite lookup_insert. case_decide; [right|by left]. by exists now. }
  assert (push_succeeds (env_of (fe_id file)) → r1 = Ok () ∧ ∃ now, file_rows (st_db s1.1) !! fe_id file = Some (moved_row file now)) as Hgood.
  { intros Hs. destruct Hinv as ([_ Hok] & _). destruct (Hok _ _ Hrow) as [_ [rows Hw]]; [done|]. unfold entry_data in Hw.
    rewrite Hloc, (decide_False (P := "local" = "s3")) in Hw by done. cbn [fst] in Hw.
    destruct (Hgood1 Hs) as (Hr & now & Heq); [by rewrite Hw|]. split; [done|]. exists now. by rewrite Heq, lookup_insert_eq. }
  assert (r1 ≠ Ok () → (s1, r1) = (s', r) → push_files_done s' st (file :: files) r env_of) as Hstop.
  { intros Hr [= <- <-]. unfold push_files_done. split_and!; [|cbn [map]; by intros k [? _]%not_elem_of_cons; apply Ho1|done].
    intros id. destruct (Hone id) as [?|(now & ? & ? & ?)]; [by left|right]. exists file, now. split; [by left|done]. }
  destruct r1 as [[]|e|]; [|injection Hp as <- <-; split; [done|split; [done|split; [done|by apply Hstop]]]..].
  assert (batch_ok s1.1 files) as Hbatch1 by (apply (batch_ok_next st s1.1 file); [apply Hinv|done|done|destruct Hr1 as [?|[_ ?]]; [by left|by right]]).
  destruct (IH _ _ _ Hinv1 Hbatch1 Hp) as (Hinv2 & Hv2 & Hd2 & Hrows & Ho2 & Hdone). split_and!; [done|by etrans|congruence| | |].
  - intros id. destruct (Hrows id) as [Heq|(e & now & He & ? & ? & Hobj)].
    + rewrite Heq. destruct (Hone id) as [?|(now & ? & ? & Hobj)]; [by left|right]. exists file, now. split; [by left|].
      split; [done|]. split; [done|]. by rewrite Ho2.
    + right. exists e, now. split; [by right|]. by rewrite Hd1 in Hobj.
  - cbn [map]. intros k [? ?]%not_elem_of_cons. rewrite Ho2 by done. by apply Ho1.
  - intros Hr e [->|He]%elem_of_cons Hs; [|by apply Hdone]. destruct (Hgood Hs) as [_ [now Hm]].
    destruct (Hrows (fe_id file)) as [Heq|(e & ? & He & Heq & _)]; [exists now; congruence|]. by destruct (Hne e He).
Qed.

Lemma elem_of_eligible delay now leases db e : db_wf db → e ∈ eligible_files delay now leases db →
  file_rows db !! fe_id e = Some e ∧ fe_deleted e = false ∧ fe_location e = "local" ∧
  fe_created_at e ≤ push_cutoff_us delay now ∧ is_leased_by leases (fe_id e) = false.
Proof.
  intros Hwf [Hl [Hc Hq]%list_elem_of_filter]%list_elem_of_filter.
  apply elem_of_query_files in Hq as (Hm & id & He). destruct (Hwf id e He) as [<- _].
  unfold matches in Hm. cbn in Hm. apply andb_true_iff in Hm as [Hm ?%bool_decide_eq_true].
  apply bool_decide_eq_true in Hm. by split_and!.
Qed.

Lemma NoDup_eligible delay now leases db : db_wf db → NoDup (map fe_id (eligible_files delay now leases db)).
Proof.
  intros Hwf. change (map ?f ?l) with (f <$> l). apply NoDup_fmap_2_strong.
  - intros e1 e2 (H1 & _)%elem_of_eligible (H2 & _)%elem_of_eligible Heq; [|done..]. congruence.
  - unfold eligible_files, query_files. apply NoDup_filter, NoDup_filter. rewrite merge_sort_Permutation.
    apply NoDup_filter. by apply NoDup_rows_list.
Qed.

(** ** Theorems *)

(** C14: A push cycle moves files and nothing else. Whatever fails in it, the
    visible rows stay the same, and a row changes only if its file was live,
    local, old enough and without a lease: it then names the object holding the
    file's data. When the cycle succeeds, every eligible file whose steps
    worked has been moved. *)
Theorem push_cycle_moves st timers delay now leases env_of s' r :
  bucket_ok → mover_inv (st, timers) →
  NoDup (map key_of (eligible_files delay now leases (st_db st))) →
  Forall (pushable st) (eligible_files delay now leases (st_db st)) →
  push_eligible_files (st, timers) delay now leases env_of = (s', r) →
  mover_inv s' ∧ visible s'.1 ≡ₚ visible st ∧
  (∀ id, file_rows (st_db s'.1) !! id = file_rows (st_db st) !! id ∨
     ∃ e now', file_rows (st_db st) !! id = Some e ∧ fe_deleted e = false ∧ fe_location e = "local" ∧
       fe_created_at e ≤ push_cutoff_us delay now ∧ is_leased_by leases id = false ∧
       file_rows (st_db s'.1) !! id = Some (moved_row e now') ∧
       entry_data s'.1 (moved_row e now') = entry_data st e) ∧
  (r = Ok () → ∀ e, e ∈ eligible_files delay now leases (st_db st) → push_succeeds (env_of (fe_id e)) →
     ∃ now', file_rows (st_db s'.1) !! fe_id e = Some (moved_row e now')).
Proof.
  intros Hb Hinv Hkeys Hpush Hp. pose proof (proj1 (proj1 Hinv)) as Hwf. cbn [fst] in Hwf.
  set (files := eligible_files delay now leases (st_db st)) in *.
  assert (batch_ok st files) as Hbatch.
  { split_and!; [|by apply NoDup_eligible|done|done]. intros e He. by destruct (elem_of_eligible _ _ _ _ _ Hwf He) as (? & ? & ? & _). }
  destruct (push_files_spec env_of files Hb (st, timers) s' r Hinv Hbatch Hp) as (Hinv' & Hv & _ & Hrows & _ & Hdone).
  split_and!; [done|done| |done]. intros id. destruct (Hrows id) as [?|(e & now' & He & <- & Hrow & Hobj)]; [by left|right].
  destruct (elem_of_eligible _ _ _ _ _ Hwf He) as (? & ? & Hloc & ? & ?). exists e, now'. split_and!; try done.
  unfold entry_data. cbn [moved_row fe_location fe_file_path set_location].
  rewrite (decide_True (P := "s3" = "s3")), Hloc, (decide_False (P := "local" = "s3")) by done.
  by rewrite extract_s3_url.
Qed.
End Mover.

(** ** Witnesses *)

(** [pushable] as a boolean. *)
Definition pushableb {R : Type} (data_dir bucket : string) (st : Store R) (file : FileListEntry) : bool :=
  bool_decide (Forall (λ e,
    (fe_id e = fe_id file → fe_location e ≠ "s3" ∧ fe_file_path e = fe_file_path file) ∧
    (fe_location e ≠ "s3" → fe_file_path e = fe_file_path file → fe_id e = fe_id file) ∧
    (fe_location e = "s3" → extract_s3_key (fe_file_path e) ≠ s3_key_for_local_file data_dir (fe_file_path file)))
    (rows_list (st_db st))) &&
  negb (has_par_extension (s3_url bucket (s3_key_for_local_file data_dir (fe_file_path file)))).

Lemma pushableb_correct {R : Type} data_dir bucket (st : Store R) file :
  pushableb data_dir bucket st file = true → pushable data_dir bucket st file.
Proof.
  intros [H%bool_decide_eq_true Hp%negb_true_iff]%andb_true_iff. rewrite Forall_forall in H.
  split_and!; [| | |done]; intros e He; by destruct (H e He) as (? & ? & ?).
Qed.

Section Witnesses.
Local Existing Instance chrono_concrete.
Local Existing Instance uuid_concrete.

Definition push_ok_env (_ : Z) : PushEnv := mkPushEnv true Uploaded None 500.

(** Two files, the second being read. *)
Definition second_leased : FileLeaseRegistry := (acquire leases_new [2]).1.
Definition two_pushed : (Store Z * list string) * outcome PushError unit :=
  push_eligible_files "/data" "b" (two_files, []) 0 1000 (Some second_leased) push_ok_env.

Lemma two_files_mover_inv : mover_inv (two_files, []).
Proof.
  split; [exact two_files_ok|]. split.
  - apply places_NoDup. apply (bool_decide_unpack _). vm_compute. exact I.
  - intros e _ _ Hin. by apply not_elem_of_nil in Hin.
Qed.

Lemma push_cycle_moves_witness :
  visible two_pushed.1.1 ≡ₚ visible two_files ∧
  (fe_file_path <$> file_rows (st_db two_pushed.1.1) !! 1) = Some "s3://b/data/files/+111/logs/default/0/u1.parquet".
Proof.
  destruct (push_cycle_moves "/data" "b" two_files [] 0 1000 (Some second_leased) push_ok_env two_pushed.1 two_pushed.2)
    as (_ & Hv & _).
  - reflexivity.
  - exact two_files_mover_inv.
  - apply (bool_decide_unpack _). vm_compute. exact I.
  - apply Forall_forall. intros e He. apply pushableb_correct. revert e He. apply Forall_forall.
    apply (bool_decide_unpack _). vm_compute. exact I.
  - apply surjective_pairing.
  - split; [exact Hv|]. vm_compute. reflexivity.
Defined.
End Witnesses.
