(* ===== verification/Storage.v ===== *)
(** The storage layer as a whole: the Parquet writer, the compactor, the file
    mover, retention cleanup, the reclaimer and crash recovery working on one
    store.

    Each component's operation is a step of one machine. Seen from the queries
    the machine is a bag of rows that only a write extends and only retention
    shrinks; the theorems are about every run of it. *)

From stdpp Require Import base gmap sorting list strings.
From S2P Require Import Prelude FileList WriteBuffer TelemetryWriter ParquetWriter Compactor Lease Retention PgUsage PgUsageWorker StorageUsage Reclaimer Paths FileMover.

Section Machine.
Context `{Chrono} `{UuidText} {R : Type}.
Abbreviation St := (Store R).

(** The mover's configuration. *)
Context (data_dir bucket : string) (bucket_no_slash : bucket_ok bucket).

(** What is not the store: the usage ledger and the removals of local copies
    the mover has scheduled. *)
Record Background := mkBackground {
  bg_ledger : StorageDb;
  bg_timers : list string;
}.

(** One call of a component, with what it finds. The mover's cycle is one
    event per file, as others run between its pushes. *)
Inductive StorageEvent :=
| WriteFile (job : WriteJob R) (env : WriteEnv)
| CompactGroup (cutoff_us max_file_size_bytes : Z) (group : list FileListEntry) (env : CompactEnv)
| Cleanup (config : RetentionConfigStore) (env_of : Z → CleanupEnv) (scope : option Z)
| Reclaim (env : ReclaimEnv) (scope : option Z)
| PushFile (file : FileListEntry) (env : PushEnv)
| DeleteLocal (path : string) (remove_ok : bool)
| RecoverAfterCrash (keeps : string → bool).

(** The merge of a group, as the loop of [compact_all] calls it. *)
Definition merge_group (max_file_size_bytes : Z) (group : list FileListEntry) (env : CompactEnv) (st : St) :
    St * outcome CompactError unit :=
  match group with
  | [] => (st, Ok ())
  | first :: _ =>
      compact_group st (uuid_to_string (fe_workspace_id first)) (fe_signal_type first)
        (small_files max_file_size_bytes group) env
  end.

(** The step: the new state and whether the call succeeded. *)
Definition storage_step (s : St * Background) (e : StorageEvent) : (St * Background) * bool :=
  let '(st, bg) := s in
  match e with
  | WriteFile job env => let '(st, r) := write_batch st job env in ((st, bg), is_ok r)
  | CompactGroup _ max group env => let '(st, r) := merge_group max group env st in ((st, bg), is_ok r)
  | Cleanup config env_of scope => ((with_db st (cleanup_run config env_of (st_db st) scope).1, bg), true)
  | Reclaim env scope =>
      let '(st, ledger, stats) := reclaim_run env st (bg_ledger bg) scope in
      ((st, mkBackground ledger (bg_timers bg)), match reclaim_errors stats with [] => true | _ => false end)
  | PushFile file env =>
      let '(st, timers, r) := push_file data_dir bucket (st, bg_timers bg) file env in
      ((st, mkBackground (bg_ledger bg) timers), is_ok r)
  | DeleteLocal path remove_ok =>
      let '(st, timers) := delete_local (st, bg_timers bg) path remove_ok in
      ((st, mkBackground (bg_ledger bg) timers), true)
  | RecoverAfterCrash keeps => ((recover_incomplete_writes keeps st, mkBackground (bg_ledger bg) []), true)
  end.

Definition group_job (max_file_size_bytes : Z) (group : list FileListEntry) (st : St) : WriteJob R :=
  let files := small_files max_file_size_bytes group in
  match group with
  | [] => merge_job (uuid_to_string 0) "" files (files_rows st files)
  | first :: _ => merge_job (uuid_to_string (fe_workspace_id first)) (fe_signal_type first) files (files_rows st files)
  end.

(** What the callers guarantee: fresh uuids, groups from the scan, files of a
    listing of the mover, and removals that are scheduled. *)
Definition event_ok (s : St * Background) (e : StorageEvent) : Prop :=
  match e with
  | WriteFile job env => fresh_paths s.1 job env ∧ full_path job env ∉ bg_timers s.2
  | CompactGroup cutoff max group env =>
      group ∈ query_compactable_groups (st_db s.1) cutoff ∧ small_files max group ≠ [] ∧
      fresh_paths s.1 (group_job max group s.1) (ce_write env) ∧
      full_path (group_job max group s.1) (ce_write env) ∉ bg_timers s.2
  | PushFile file _ => pushable data_dir bucket s.1 file
  | DeleteLocal path _ => path ∈ bg_timers s.2
  | _ => True
  end.

(** ** The abstract machine: a bag of rows *)

Inductive RowLabel :=
| Acknowledge (rows : list R)
| Doubt (rows : list R)
| Expire (rows : list R)
| Keep.

(** An acknowledged write adds its rows. After a reported failure all or none
    of the rows in doubt may have been added. *)
Inductive bag_step : RowLabel → list R → list R → Prop :=
| BagAcknowledge rows before after : after ≡ₚ before ++ rows → bag_step (Acknowledge rows) before after
| BagDoubtAdded rows before after : after ≡ₚ before ++ rows → bag_step (Doubt rows) before after
| BagDoubtNot rows before after : after ≡ₚ before → bag_step (Doubt rows) before after
| BagExpire rows before after : before ≡ₚ after ++ rows → bag_step (Expire rows) before after
| BagKeep before after : after ≡ₚ before → bag_step Keep before after.

(** The rows a cleanup takes away. *)
Definition expired_rows (config : RetentionConfigStore) (env_of : Z → CleanupEnv) (scope : option Z) (st : St) : list R :=
  concat (map (entry_rows st) (filter (λ e, expires config env_of scope e = true) (rows_list (st_db st)))).

(** What a call means for the rows: only a write adds, only retention removes,
    and the merge of a group that fails puts the group's rows in doubt. *)
Definition meaning (st : St) (e : StorageEvent) (ok : bool) : RowLabel :=
  match e with
  | WriteFile job _ => if ok then Acknowledge (wj_rows job) else Doubt (wj_rows job)
  | CompactGroup _ max group _ => if ok then Keep else Doubt (files_rows st (small_files max group))
  | Cleanup config env_of scope => Expire (expired_rows config env_of scope st)
  | Reclaim _ _ | PushFile _ _ | DeleteLocal _ _ | RecoverAfterCrash _ => Keep
  end.

(** Runs from the empty store, with the labels so far. *)
Inductive storage_run : St * Background → list RowLabel → Prop :=
| RunStart : storage_run (mkStore ∅ ∅ file_db_empty, mkBackground storage_db_empty []) []
| RunStep s labels e s' ok :
    storage_run s labels → event_ok s e → storage_step s e = (s', ok) →
    storage_run s' (labels ++ [meaning s.1 e ok]).

Definition acknowledged (l : RowLabel) : list R := match l with Acknowledge rows => rows | _ => [] end.
Definition doubted (l : RowLabel) : list R := match l with Doubt rows => rows | _ => [] end.
Definition expired (l : RowLabel) : list R := match l with Expire rows => rows | _ => [] end.

(** The invariant: every live row names a complete file, no two rows share a
    place, and no removal is scheduled for the file of a local row. *)
Definition storage_inv (st : St) : Prop := store_ok st ∧ places_distinct (st_db st).
Definition machine_inv (s : St * Background) : Prop := mover_inv (s.1, bg_timers s.2).

(** ** Lemmas *)

(** Rows that come from other rows, with their ids and places. *)
Lemma places_from db db' :
  db_wf db' → places_distinct db →
  (∀ e', e' ∈ rows_list db' → ∃ e, e ∈ rows_list db ∧ place e' = place e ∧ fe_id e' = fe_id e) → places_distinct db'.
Proof.
  intros Hwf Hpl Hfrom e1 e2 H1 H2 Hp. destruct (Hfrom e1 H1) as (x1 & Hx1 & Hp1 & Hi1), (Hfrom e2 H2) as (x2 & Hx2 & Hp2 & Hi2).
  apply (rows_list_inj db'); [done..|]. rewrite Hi1, Hi2. f_equal. apply Hpl; [done..|]. congruence.
Qed.

Lemma places_register db e :
  db_wf db → places_distinct db → fe_location e = "local" →
  (∀ id x, file_rows db !! id = Some x → fe_file_path x ≠ fe_file_path e) →
  places_distinct (register_file db e).1.
Proof.
  intros Hwf Hpl Hloc Hnew. destruct (rows_list_register db e Hwf) as (e' & Hp & Hpath & Hloc' & _).
  assert (∀ x, x ∈ rows_list db → place x ≠ place e') as Hne.
  { intros x [id Hx]%elem_of_rows_list Heq. unfold place in Heq. rewrite Hloc', Hloc, (decide_False (P := "local" = "s3")) in Heq by done.
    case_decide; [done|]. injection Heq as Heq. apply (Hnew id x Hx). congruence. }
  intros e1 e2. rewrite Hp, !elem_of_cons. intros [->|H1] [->|H2] Heq; [done| | |by apply Hpl].
  - by destruct (Hne e2 H2).
  - by destruct (Hne e1 H1).
Qed.

Lemma places_mark_deleted db ids now : db_wf db → places_distinct db → places_distinct (mark_deleted db ids now).
Proof.
  intros Hwf Hpl. apply (places_from db); [by apply db_wf_mark_deleted|done|].
  intros e' [id He]%elem_of_rows_list. rewrite mark_deleted_lookup in He. case_decide.
  - apply fmap_Some in He as (e & He & ->). exists e. split; [apply elem_of_rows_list; by exists id|done].
  - exists e'. split; [apply elem_of_rows_list; by exists id|done].
Qed.

(** The databases a write can leave: the one of before, or with the entry. *)
Lemma write_batch_db (st : St) (job : WriteJob R) env :
  st_db (write_batch st job env).1 = st_db st ∨
  ∃ stats, st_db (write_batch st job env).1 = mkFileDb (file_rows (register_file (st_db st) (new_entry job env)).1)
    (next_file_id (register_file (st_db st) (new_entry job env)).1) stats.
Proof.
  pose proof (write_batch_cases st job env) as Hc. destruct (write_batch st job env) as [st' r]. cbn [fst].
  destruct Hc as [(_ & -> & _)|(s & eff & _ & _ & [[Hin _]|[Hin _]])].
  - right. by eexists.
  - left. rewrite !elem_of_cons, elem_of_nil in Hin. destruct Hin as [->|[->|[->|[->|[]]]]]; done.
  - right. apply elem_of_two in Hin as [->| ->]; by eexists.
Qed.

Lemma places_write (st : St) job env : store_ok st → fresh_paths st job env → places_distinct (st_db st) →
  places_distinct (st_db (write_batch st job env).1).
Proof.
  intros [Hwf _] (_ & _ & Hfresh) Hpl. destruct (write_batch_db st job env) as [->|[stats ->]]; [done|].
  apply (places_register _ (new_entry job env)) in Hpl; [exact Hpl|done|done|]. exact Hfresh.
Qed.

Lemma places_reclaim env (st : St) ledger scope : db_wf (st_db st) → db_wf (st_db (reclaim_run env st ledger scope).1.1) →
  places_distinct (st_db st) → places_distinct (st_db (R := R) (reclaim_run env st ledger scope).1.1).
Proof.
  intros Hwf Hwf' Hpl. destruct (reclaim_run_reclaimed env st ledger scope Hwf) as [_ Hrows].
  apply (places_from (st_db st)); [done|done|]. intros e [id He]%elem_of_rows_list.
  destruct (Hrows id) as [Heq|[? _]]; [|congruence]. exists e. split; [|done]. apply elem_of_rows_list. exists id. congruence.
Qed.

(** The table after a cleanup, as a map. *)
Lemma cleanup_rows_map c env_of db scope : db_wf db →
  file_rows (cleanup_run c env_of db scope).1 =
    (λ e, if expires c env_of scope e then set_deleted (cl_now_us (env_of (fe_workspace_id e))) e else e) <$> file_rows db.
Proof. intros Hwf. apply map_eq. intros id. rewrite lookup_fmap. by apply cleanup_run_lookup. Qed.

Lemma cleanup_visible c env_of (st : St) scope : storage_inv st →
  let st' := with_db st (cleanup_run c env_of (st_db st) scope).1 in
  storage_inv st' ∧ visible st ≡ₚ visible st' ++ expired_rows c env_of scope st.
Proof.
  intros [[Hwf Hok] Hpl] st'. set (f := λ e, if expires c env_of scope e then
    set_deleted (cl_now_us (env_of (fe_workspace_id e))) e else e).
  assert (file_rows (st_db st') = f <$> file_rows (st_db st)) as Hrows by by apply cleanup_rows_map.
  assert (rows_list (st_db st') ≡ₚ map f (rows_list (st_db st))) as Hlist.
  { unfold rows_list. rewrite Hrows, map_to_list_fmap, <-!list_fmap_compose. done. }
  assert (db_wf (st_db st')) as Hwf'.
  { intros id e He. rewrite Hrows, lookup_fmap in He. apply fmap_Some in He as (e0 & He0 & ->).
    destruct (Hwf id e0 He0) as [Hid Hlt]. cbn [st' st_db with_db]. rewrite cleanup_next_id.
    unfold f. by destruct (expires _ _ _ e0). }
  split; [split; [split; [done|]|]|].
  - intros id e He. rewrite Hrows, lookup_fmap in He. apply fmap_Some in He as (e0 & He0 & ->).
    destruct (Hok id e0 He0) as [Hpar Hd]. unfold f. destruct (expires _ _ _ e0); [done|]. done.
  - apply (places_from (st_db st)); [done|done|]. intros e' He'. rewrite Hlist in He'.
    apply list_elem_of_fmap in He' as (e & -> & He). exists e. split; [done|]. unfold f. by destruct (expires _ _ _ e).
  - unfold visible, expired_rows. rewrite (concat_permutation (entry_rows st') _ _ Hlist).
    change (entry_rows st') with (entry_rows st).
    assert (∀ e, entry_rows st (f e) = if expires c env_of scope e then [] else entry_rows st e) as Hf.
    { intros e. unfold f. by destruct (expires c env_of scope e). }
    clear Hlist Hrows Hwf' Hok Hwf Hpl. clearbody f. induction (rows_list (st_db st)) as [|e l IH]; [done|].
    rewrite filter_cons. cbn [map concat]. rewrite IH, Hf.
    destruct (expires c env_of scope e); case_decide; try done; cbn [map concat app].
    + rewrite !app_assoc. f_equiv. apply Permutation_app_comm.
    + by rewrite app_assoc.
Qed.

Lemma places_compact cutoff max group env (st : St) st' r : storage_inv st →
  group ∈ query_compactable_groups (st_db st) cutoff → small_files max group ≠ [] →
  fresh_paths st (group_job max group st) (ce_write env) → merge_group max group env st = (st', r) →
  places_distinct (st_db st').
Proof.
  intros [Hok Hpl] Hg Hne Hfresh Hm. destruct group as [|first group']; [by simplify_eq/=|].
  set (group := first :: group') in *. unfold merge_group in Hm. unfold group at 1 in Hm. fold group in Hm. cbn [group_job] in Hfresh.
  pose proof (compact_group_cases st (fe_workspace_id first) (fe_signal_type first) (small_files max group) env Hok
    (small_group_mergeable st cutoff max group Hok Hg Hne)) as Hc. cbn zeta in Hc. fold group in Hfresh.
  pose proof (places_write st _ _ Hok Hfresh Hpl) as Hpl1.
  destruct (write_batch_outcome st _ _ _ _ Hok Hfresh (surjective_pairing _)) as [[Hwf1 _] _].
  destruct (write_batch st _ _) as [st1 res]. cbn [fst] in *. rewrite Hm in Hc.
  case_decide; [by simplify_eq|]. destruct (negb _); [by simplify_eq|].
  destruct res; [|by simplify_eq..]. destruct (ce_mark_fail env) as [[]|]; simplify_eq; try done; by apply places_mark_deleted.
Qed.

(** Rows that keep their places, or have a new path. *)
Definition from_rows (st st' : St) (new : string → Prop) : Prop :=
  ∀ e', e' ∈ rows_list (st_db st') → new (fe_file_path e') ∨
    ∃ e, e ∈ rows_list (st_db st) ∧ fe_location e' = fe_location e ∧ fe_file_path e' = fe_file_path e.

Lemma from_rows_mark (st st' : St) ids now new : from_rows st st' new →
  from_rows st (with_db st' (mark_deleted (st_db st') ids now)) new.
Proof.
  intros Hf e' [id He']%elem_of_rows_list. cbn [st_db with_db] in He'. rewrite mark_deleted_lookup in He'. case_decide.
  - apply fmap_Some in He' as (e & He & ->). apply (Hf e). apply elem_of_rows_list. by exists id.
  - apply (Hf e'). apply elem_of_rows_list. by exists id.
Qed.

Lemma from_rows_write (st : St) (job : WriteJob R) env :
  from_rows st (write_batch st job env).1 (λ p, p = full_path job env).
Proof.
  intros e' [id He']%elem_of_rows_list. assert (file_rows (st_db st) !! id = Some e' ∨ fe_file_path e' = full_path job env) as [He| ->].
  { destruct (write_batch_db st job env) as [Heq|[stats Heq]]; rewrite Heq in He'; [by left|]. cbn [file_rows] in He'.
    unfold register_file in He'. cbn in He'. apply lookup_insert_Some in He' as [[_ <-]|[_ He]]; [by right|by left]. }
  - right. exists e'. split; [|done]. apply elem_of_rows_list. by exists id.
  - by left.
Qed.

Lemma timers_from (st st' : St) timers (new : string → Prop) : timers_ok st timers →
  from_rows st st' new → (∀ p, new p → p ∉ timers) → timers_ok st' timers.
Proof.
  intros Ht Hfrom Hnew e' He' Hs. destruct (Hfrom e' He') as [Hp|(e & He & Hl & ->)]; [by apply Hnew|]. apply Ht; congruence.
Qed.

Lemma merge_from_rows max group env (st st' : St) r : group ≠ [] → store_ok st → small_files max group ≠ [] →
  (∃ cutoff, group ∈ query_compactable_groups (st_db st) cutoff) → merge_group max group env st = (st', r) →
  from_rows st st' (λ p, p = full_path (group_job max group st) (ce_write env)).
Proof.
  intros Hne Hok Hsmall [cutoff Hg] Hm. destruct group as [|first group']; [done|]. unfold merge_group in Hm. cbn [group_job].
  set (group := first :: group') in *.
  pose proof (compact_group_cases st (fe_workspace_id first) (fe_signal_type first) (small_files max group) env Hok
    (small_group_mergeable st cutoff max group Hok Hg Hsmall)) as Hc. cbn zeta in Hc.
  set (job := merge_job _ _ _ _) in *. pose proof (from_rows_write st job (ce_write env)) as Hw.
  destruct (write_batch st job (ce_write env)) as [st1 res]. cbn [fst] in *. rewrite Hm in Hc.
  assert (from_rows st st (λ p, p = full_path job (ce_write env))) as Hself by (intros e' He'; right; by exists e').
  case_decide; [by simplify_eq|]. destruct (negb _); [by simplify_eq|].
  destruct res; [|by simplify_eq..]. destruct (ce_mark_fail env) as [[]|]; simplify_eq; try done; by apply from_rows_mark.
Qed.

(** One step keeps the invariant and is a step of the bag. *)
Lemma storage_step_simulates (s : St * Background) e s' ok : machine_inv s → event_ok s e → storage_step s e = (s', ok) →
  machine_inv s' ∧ bag_step (meaning s.1 e ok) (visible s.1) (visible s'.1).
Proof.
  intros Hminv He Hs. destruct s as [st bg]. pose proof Hminv as (Hok & Hpl & Ht). cbn [fst snd] in Hok, Hpl, Ht.
  pose proof (conj Hok Hpl : storage_inv st) as Hinv. destruct e; cbn [storage_step fst meaning event_ok] in *.
  - destruct He as [He Hnt]. pose proof (places_write st job env Hok He Hpl) as Hpl'.
    assert (timers_ok (write_batch st job env).1 (bg_timers bg)) as Ht'.
    { eapply timers_from; [exact Ht|apply from_rows_write|by intros p ->]. }
    pose proof (write_batch_cases st job env) as Hc. destruct (write_batch st job env) as [st1 r] eqn:Hw.
    destruct (write_batch_outcome st job env st1 r Hok He Hw) as (Hok1 & Hv & Hv2 & _).
    injection Hs as <- <-. split; [done|]. cbn [fst]. destruct Hc as [(Hr & _)|(? & ? & _ & Hr & _)]; rewrite Hr in *.
    + constructor. by apply Hv2.
    + destruct Hv as [->|Hv]; [by apply BagDoubtNot|by apply BagDoubtAdded].
  - destruct He as (Hg & Hne & Hfresh & Hnt).
    destruct (merge_group _ _ _ st) as [st1 r] eqn:Hm. pose proof (places_compact _ _ _ _ _ _ _ Hinv Hg Hne Hfresh Hm) as Hpl1.
    destruct group as [|first group'] eqn:Hgroup; [done|].
    assert (timers_ok st1 (bg_timers bg)) as Ht1.
    { eapply timers_from; [exact Ht|eapply (merge_from_rows _ (first :: group')); [done|done|exact Hne|by eexists|exact Hm]|by intros p ->]. }
    unfold merge_group in Hm.
    destruct (compact_group_visible st _ _ _ _ _ _ _ _ Hok Hg Hne Hfresh Hm) as (Hok1 & Hr & Hv & Hv2).
    injection Hs as <- <-. split; [done|]. destruct r as [[]|e|]; cbn [is_ok]; [|destruct Hv2|done]; [constructor; by apply Hv| |].
    + by apply BagDoubtNot.
    + by apply BagDoubtAdded.
  - injection Hs as <- <-. destruct (cleanup_visible config env_of st scope Hinv) as [[Hok' Hpl'] ?]. split; [|by constructor].
    split; [done|]. split; [done|]. apply (timers_from st _ _ (λ _, False) Ht); [|done].
    intros e' [id He']%elem_of_rows_list. cbn [fst st_db with_db] in He'. rewrite cleanup_rows_map in He' by apply Hok.
    rewrite lookup_fmap in He'. apply fmap_Some in He' as (e & He' & ->). right. exists e.
    split; [apply elem_of_rows_list; by exists id|]. by destruct (expires _ _ _ e).
  - destruct (reclaim_run env st _ scope) as [[st1 l1] stats] eqn:Hr. injection Hs as <- <-.
    destruct (reclaim_run_safe _ _ _ _ _ _ _ Hok Hpl Hr) as (Hok1 & Hv & _). split; [|by constructor].
    pose proof (places_reclaim env st (bg_ledger bg) scope) as Hp.
    destruct (reclaim_run_reclaimed env st (bg_ledger bg) scope (proj1 Hok)) as [_ Hrows]. rewrite Hr in Hp, Hrows.
    split; [done|]. split; [apply Hp; [apply Hok|apply Hok1|done]|]. apply (timers_from st _ _ (λ _, False) Ht); [|done].
    intros e' [id He']%elem_of_rows_list. right. exists e'. split; [|done]. apply elem_of_rows_list. exists id.
    destruct (Hrows id) as [Heq|[Hnone _]]; cbn [fst] in *; congruence.
  - destruct (push_file data_dir bucket (st, bg_timers bg) file env) as [[st1 t1] r] eqn:Hp. injection Hs as <- <-.
    destruct (push_file_inv _ _ _ _ _ _ _ bucket_no_slash Hminv He Hp) as [? Hv]. split; [done|]. by constructor.
  - destruct (delete_local (st, bg_timers bg) path remove_ok) as [st1 t1] eqn:Hd. injection Hs as <- <-.
    destruct (delete_local_inv (st, bg_timers bg) path remove_ok Hminv He) as [? Hv]. rewrite Hd in *. split; [done|]. by constructor.
  - injection Hs as <- <-. destruct (recover_invisible keeps st Hok) as [Hok' Hv]. split.
    + split; [done|]. split; [done|]. intros e' _ _ Hin. by apply not_elem_of_nil in Hin.
    + cbn [fst]. rewrite Hv. by constructor.
Qed.

Lemma bags_add (v v' xs x ys y extra more : list R) :
  v' ++ x ≡ₚ v ++ y ++ more → v ++ xs ≡ₚ ys ++ extra → v' ++ xs ++ x ≡ₚ (ys ++ y) ++ extra ++ more.
Proof.
  intros Hstep Hv. rewrite (Permutation_app_comm xs), app_assoc, Hstep, <-app_assoc, (Permutation_app_comm (y ++ more)), app_assoc, Hv.
  rewrite <-!app_assoc. f_equiv. rewrite !app_assoc. f_equiv. apply Permutation_app_comm.
Qed.

Lemma storage_run_inv s labels : storage_run s labels → machine_inv s.
Proof.
  induction 1 as [|s labels e s' ok _ IH He Hs]; [|by eapply storage_step_simulates].
  split; [split; [apply db_wf_empty|]|split].
  - intros id e He. cbn in He. by apply lookup_empty_Some in He.
  - intros e1 e2 H1. by apply not_elem_of_nil in H1.
  - intros e _ _ Hin. by apply not_elem_of_nil in Hin.
Qed.

(** ** Theorems *)

(** C20: Every state the storage layer reaches is well formed, whatever failed on
    the way: ids are the table's keys, a live row names a complete file, no
    row names a temporary file, no two rows share a place, and no local row
    loses its file to a scheduled removal. *)
Theorem storage_well_formed s labels : storage_run s labels →
  store_ok s.1 ∧ places_distinct (st_db s.1) ∧ timers_ok s.1 (bg_timers s.2).
Proof. apply storage_run_inv. Qed.

(** C4: The storage layer refines a bag of rows: each call of a component, with any
    failure at any of its stages, is one step of the bag as queries see it. *)
Theorem storage_refines_bag s labels e s' ok :
  storage_run s labels → event_ok s e → storage_step s e = (s', ok) →
  bag_step (meaning s.1 e ok) (visible s.1) (visible s'.1).
Proof. intros Hrun He Hs. by eapply storage_step_simulates; [eapply storage_run_inv| |]. Qed.

(** C2: No acknowledged row is lost and none is invented: at any time the visible
    rows and the rows retention expired are the acknowledged rows and some of
    those in doubt; with no failed call, exactly the acknowledged rows, each
    as often as it was written. *)
Theorem storage_conserves_rows s labels : storage_run s labels →
  ∃ extra, extra ⊆+ concat (map doubted labels) ∧
    visible s.1 ++ concat (map expired labels) ≡ₚ concat (map acknowledged labels) ++ extra.
Proof.
  induction 1 as [|s labels e s' ok Hrun (extra & Hsub & Hv) He Hs]; [by exists []|].
  destruct (storage_step_simulates s e s' ok (storage_run_inv _ _ Hrun) He Hs) as [_ Hstep].
  rewrite !map_app, !concat_app. cbn [map concat]. rewrite !app_nil_r.
  assert (bag_step (meaning s.1 e ok) (visible s.1) (visible s'.1) → ∃ more, more ⊆+ doubted (meaning s.1 e ok) ∧
    visible s'.1 ++ expired (meaning s.1 e ok) ≡ₚ visible s.1 ++ acknowledged (meaning s.1 e ok) ++ more) as Hmore.
  { destruct 1 as [rows ? ? Hp|rows ? ? Hp|rows ? ? Hp|rows ? ? Hp|? ? Hp]; cbn [doubted expired acknowledged]; rewrite ?Hp.
    - exists []. by rewrite !app_nil_r.
    - exists rows. by rewrite !app_nil_r.
    - exists []. split; [apply submseteq_nil_l|]. by rewrite !app_nil_r.
    - exists []. by rewrite !app_nil_r.
    - exists []. by rewrite !app_nil_r. }
  destruct (Hmore Hstep) as (more & Hm & Hp). exists (extra ++ more). split; [by apply submseteq_app|].
  by apply (bags_add (visible s.1)).
Qed.
End Machine.

(** ** Witnesses *)

Section Witnesses.
Local Existing Instance chrono_concrete.
Local Existing Instance uuid_concrete.

(** Two writes, a failed write whose file stays unregistered, a crash, the
    merge of the two files, the move of the merged file and the removal of its
    local copy, a cleanup that expires it, and a sweep. *)
Definition first_events : list (Store Z * Background → StorageEvent (R := Z)) :=
  [ λ _, WriteFile (two_jobs [10; 11]) (sample_write_env "u1" None);
    λ _, WriteFile (two_jobs [12]) (sample_write_env "u2" None);
    λ _, WriteFile (two_jobs [13]) (sample_write_env "u4" (Some (Register, false)));
    λ _, RecoverAfterCrash (λ _, false);
    λ s, CompactGroup 150 100 (rows_list (st_db s.1)) (sample_compact_env None) ].

Definition sample_run (s : Store Z * Background) (events : list (Store Z * Background → StorageEvent (R := Z))) :=
  foldl (λ s e, (storage_step "/data" "b" s (e s)).1) s events.

(** The merged file, as the mover lists it. *)
Definition merged_file : FileListEntry := Eval vm_compute in
  match eligible_files 0 1000 None (st_db (sample_run (empty_store, mkBackground storage_db_empty []) first_events).1) with
  | file :: _ => file
  | [] => mkFileListEntry 0 0 "" "" "" "" "" 0 0 0 0 0 false 0 0
  end.

Definition sample_events : list (Store Z * Background → StorageEvent (R := Z)) :=
  first_events ++
  [ λ _, PushFile merged_file (push_ok_env 0);
    λ _, DeleteLocal (fe_file_path merged_file) true;
    λ _, Cleanup (retention_new 0) (λ _, mkCleanupEnv 1000 true) None;
    λ _, Reclaim (reclaim_env (λ _, false) 3) None ].

Definition sample_after (n : nat) : Store Z * Background :=
  sample_run (empty_store, mkBackground storage_db_empty []) (take n sample_events).

Ltac sample_step :=
  eapply RunStep; [| |apply surjective_pairing].

Lemma fresh_write_ok {R : Type} (s : Store R * Background) job env :
  fresh_pathsb s.1 job env && bool_decide (full_path job env ∉ bg_timers s.2) = true →
  fresh_paths s.1 job env ∧ full_path job env ∉ bg_timers s.2.
Proof. intros [Hf Ht%bool_decide_eq_true]%andb_true_iff. split; [by apply fresh_pathsb_correct|done]. Qed.

Lemma storage_sample_run : ∃ labels, storage_run "/data" "b" (sample_after 9) labels ∧
  map acknowledged labels = [[10; 11]; [12]; []; []; []; []; []; []; []]
  ∧ map doubted labels = [[]; []; [13]; []; []; []; []; []; []] ∧ concat (map expired labels) ≡ₚ [10; 11; 12].
Proof.
  eexists. split; [|split; [|split]].
  - unfold sample_after. cbn [take app sample_events first_events]. unfold sample_run. cbn [foldl].
    sample_step; [|cbn [event_ok]; exact I]. sample_step; [|exact I].
    sample_step; [|cbn [event_ok]; apply (bool_decide_unpack _); vm_compute; exact I].
    sample_step; [|cbn [event_ok]; apply pushableb_correct; vm_compute; reflexivity].
    sample_step; [|cbn [event_ok]; split; [apply (bool_decide_unpack _); vm_compute; exact I|split; [vm_compute; discriminate|
      apply fresh_write_ok; vm_compute; reflexivity]]].
    sample_step; [|cbn [event_ok]; exact I].
    do 3 (sample_step; [|cbn [event_ok]; apply fresh_write_ok; vm_compute; reflexivity]).
    apply RunStart.
  - vm_compute. reflexivity.
  - vm_compute. reflexivity.
  - vm_compute. apply (Permutation_app_comm [12] [10; 11]).
Defined.

Lemma storage_well_formed_witness : store_ok (sample_after 9).1 ∧ visible (sample_after 9).1 = [].
Proof.
  destruct storage_sample_run as (labels & Hrun & _). destruct (storage_well_formed "/data" "b" eq_refl (sample_after 9) labels Hrun) as [Hok _].
  split; [exact Hok|]. vm_compute. reflexivity.
Defined.

Lemma storage_conserves_rows_witness : ∃ labels extra, storage_run "/data" "b" (sample_after 9) labels ∧
  extra ⊆+ [13] ∧ visible (sample_after 9).1 ++ [10; 11; 12] ≡ₚ [10; 11; 12] ++ extra.
Proof.
  destruct storage_sample_run as (labels & Hrun & Hack & Hdoubt & Hexp). exists labels.
  destruct (storage_conserves_rows "/data" "b" eq_refl (sample_after 9) labels Hrun) as (extra & Hsub & Hv). exists extra.
  rewrite Hack, Hexp in Hv. rewrite Hdoubt in Hsub. split; [exact Hrun|]. split; [exact Hsub|exact Hv].
Defined.

Lemma storage_refines_bag_witness : ∃ labels, storage_run "/data" "b" (sample_after 9) labels ∧
  bag_step (Acknowledge [10; 11]) (visible (sample_after 9).1)
    (visible (storage_step "/data" "b" (sample_after 9) (WriteFile (two_jobs [10; 11]) (sample_write_env "u9" None))).1.1).
Proof.
  destruct storage_sample_run as (labels & Hrun & _). exists labels. split; [exact Hrun|].
  refine (storage_refines_bag "/data" "b" eq_refl (sample_after 9) labels (WriteFile (two_jobs [10; 11]) (sample_write_env "u9" None)) _ true
    Hrun _ _).
  - apply fresh_write_ok. vm_compute. reflexivity.
  - apply surjective_pairing.
Defined.
End Witnesses.
