(* ===== verification/MemoryCache.v ===== *)
(** The in-memory cache of file bytes: [zradar-parquet/src/memory_cache.rs].

    Shards of byte-bounded caches in order of use, each behind its own lock, so
    that the calls of one shard form a sequence. The [lru] crate is an
    interface. *)

From stdpp Require Import base gmap sorting list strings.
From Stdlib Require Import Ascii.
From S2P Require Import Prelude.

(** ** The [lru] crate

    An unbounded [LruCache] as its documentation describes it, through its
    entries from the most to the least recently used. *)

Definition without {V : Type} (k : string) (l : list (string * V)) : list (string * V) := filter (λ kv, kv.1 ≠ k) l.
Definition find_key {V : Type} (k : string) (l : list (string * V)) : option V :=
  snd <$> head (filter (λ kv, kv.1 = k) l).

Class LruCache (C V : Type) := {
  lru_entries : C → list (string * V);
  lru_unbounded : C;
  lru_get : C → string → C * option V;
  lru_put : C → string → V → C;
  lru_pop : C → string → C * option V;
  lru_pop_lru : C → C * option (string * V);
  lru_entries_unbounded : lru_entries lru_unbounded = [];
  lru_get_spec c k : NoDup (lru_entries c).*1 →
    let '(c', r) := lru_get c k in
    r = find_key k (lru_entries c) ∧
    lru_entries c' = match r with Some v => (k, v) :: without k (lru_entries c) | None => lru_entries c end;
  lru_put_spec c k v : NoDup (lru_entries c).*1 → lru_entries (lru_put c k v) = (k, v) :: without k (lru_entries c);
  lru_pop_spec c k : NoDup (lru_entries c).*1 →
    let '(c', r) := lru_pop c k in
    r = find_key k (lru_entries c) ∧ lru_entries c' = without k (lru_entries c);
  lru_pop_lru_spec c : NoDup (lru_entries c).*1 →
    let '(c', r) := lru_pop_lru c in
    match r with Some e => lru_entries c = lru_entries c' ++ [e] | None => lru_entries c = [] ∧ lru_entries c' = [] end;
}.

(** ** The memory cache *)

Section MemoryCache.
Context {C V : Type} `{LruCache C V} (len : V → Z).

Record Shard := mkShard {
  cache : C;
  used_bytes : Z;
  max_bytes : Z;
}.

Definition shard_new (max_bytes : Z) : Shard := mkShard lru_unbounded 0 max_bytes.

(** The eviction loop; [fuel] bounds the pops. *)
Fixpoint evict (fuel : nat) (s : Shard) (new_size : Z) : Shard :=
  if max_bytes s <? u64_wrap (used_bytes s + new_size) then
    match fuel with
    | O => s
    | S fuel =>
        match lru_pop_lru (cache s) with
        | (c, Some (_, evicted)) =>
            evict fuel (mkShard c (u64_saturating_sub (used_bytes s) (len evicted)) (max_bytes s)) new_size
        | (c, None) => mkShard c (used_bytes s) (max_bytes s)
        end
    end
  else s.

Definition shard_insert (s : Shard) (key : string) (value : V) : Shard :=
  let new_size := len value in
  let s := evict (S (length (lru_entries (cache s)))) s new_size in
  let '(c, old) := lru_pop (cache s) key in
  let used := match old with Some old => u64_saturating_sub (used_bytes s) (len old) | None => used_bytes s end in
  mkShard (lru_put c key value) (u64_wrap (used + new_size)) (max_bytes s).

Definition shard_get (s : Shard) (key : string) : Shard * option V :=
  let '(c, r) := lru_get (cache s) key in (mkShard c (used_bytes s) (max_bytes s), r).

Definition shard_remove (s : Shard) (key : string) : Shard :=
  match lru_pop (cache s) key with
  | (c, Some evicted) => mkShard c (u64_saturating_sub (used_bytes s) (len evicted)) (max_bytes s)
  | (c, None) => mkShard c (used_bytes s) (max_bytes s)
  end.

(** [MemoryCache]; [DefaultHasher::finish] is a parameter, its algorithm is not
    specified. *)
Record MemoryCache := mkMemoryCache { shards : list Shard }.

Context (hash : string → Z).

Definition memory_cache_new (max_bytes shard_count : Z) : MemoryCache :=
  let shard_count := Z.max shard_count 1 in
  let per_shard := Z.max (max_bytes / shard_count) 1 in
  mkMemoryCache (replicate (Z.to_nat shard_count) (shard_new per_shard)).

Definition shard_index (m : MemoryCache) (key : string) : nat := Z.to_nat (hash key mod zlen (shards m)).

Definition memory_insert (m : MemoryCache) (key : string) (value : V) : MemoryCache :=
  mkMemoryCache (alter (λ s, shard_insert s key value) (shard_index m key) (shards m)).

Definition memory_get (m : MemoryCache) (key : string) : MemoryCache * option V :=
  match shards m !! shard_index m key with
  | Some s => let '(s, r) := shard_get s key in (mkMemoryCache (<[shard_index m key := s]> (shards m)), r)
  | None => (m, None)
  end.

Definition memory_remove (m : MemoryCache) (key : string) : MemoryCache :=
  mkMemoryCache (alter (λ s, shard_remove s key) (shard_index m key) (shards m)).
End MemoryCache.

(** ** Keyed lists *)

Lemma without_keys {V : Type} k (l : list (string * V)) : (without k l).*1 = filter (λ k', k' ≠ k) l.*1.
Proof.
  unfold without. induction l as [|[k' v] l IH]; [done|]. rewrite filter_cons, fmap_cons, filter_cons. cbn [fst].
  case_decide; [|done]. by rewrite fmap_cons, IH.
Qed.

Lemma NoDup_put {V : Type} k (v : V) l : NoDup l.*1 → NoDup ((k, v) :: without k l).*1.
Proof.
  intros Hnd. cbn. fold (fmap (M := list) (fst (A := string) (B := V))). rewrite without_keys. constructor.
  - by intros [? _]%list_elem_of_filter.
  - by apply NoDup_filter.
Qed.

Lemma NoDup_without {V : Type} k (l : list (string * V)) : NoDup l.*1 → NoDup (without k l).*1.
Proof. intros Hnd. rewrite without_keys. by apply NoDup_filter. Qed.

Lemma find_key_cons {V : Type} k k' (v : V) l :
  find_key k ((k', v) :: l) = if decide (k' = k) then Some v else find_key k l.
Proof. unfold find_key. rewrite filter_cons. cbn. by case_decide. Qed.

Lemma find_key_Some {V : Type} k (v : V) l : NoDup l.*1 → find_key k l = Some v ↔ (k, v) ∈ l.
Proof.
  intros Hnd. induction l as [|[k' v'] l IH]; [by rewrite elem_of_nil|]. rewrite find_key_cons, elem_of_cons.
  cbn in Hnd. fold (fmap (M := list) (fst (A := string) (B := V))) in Hnd. apply NoDup_cons in Hnd as [Hk Hnd].
  case_decide as Heq.
  - subst k'. split; [intros [= ->]; by left|]. intros [[= ->]|Hin]; [done|]. destruct Hk.
    apply list_elem_of_fmap. by exists (k, v).
  - rewrite IH by done. split; [by right|]. intros [[= -> ->]|?]; done.
Qed.

(** The bytes of the entries. *)
Definition entries_size {V : Type} (len : V → Z) (l : list (string * V)) : Z := zsum (map (λ kv, len kv.2) l).

Lemma entries_size_without {V : Type} (len : V → Z) k (l : list (string * V)) : NoDup l.*1 →
  entries_size len l = entries_size len (without k l) + match find_key k l with Some v => len v | None => 0 end.
Proof.
  intros Hnd. induction l as [|[k' v'] l IH]; [done|]. cbn in Hnd. fold (fmap (M := list) (fst (A := string) (B := V))) in Hnd.
  apply NoDup_cons in Hnd as [Hk Hnd]. rewrite find_key_cons. unfold without in *. rewrite filter_cons.
  unfold entries_size in *. cbn [map fst snd]. rewrite zsum_cons, IH by done. case_decide as Hne; case_decide; try (by destruct Hne).
  - cbn [map snd]. rewrite zsum_cons. cbn [snd]. lia.
  - subst k'. destruct (find_key k l) as [v|] eqn:Hf; [|lia]. apply find_key_Some in Hf; [|done].
    destruct Hk. apply list_elem_of_fmap. by exists (k, v).
Qed.

(** ** The memory cache under any sequence of calls *)

Section MemoryCacheSpec.
Context {C V : Type} `{LruCache C V} (len : V → Z) (hash : string → Z).

(** A [Bytes] holds at most [isize::MAX] bytes. *)
Context (len_isize : ∀ v, 0 ≤ len v < 2 ^ 63).

Inductive MemoryOp := MemoryInsert (key : string) (value : V) | MemoryGet (key : string) | MemoryRemove (key : string).

Definition memory_step (m : MemoryCache (C := C)) (op : MemoryOp) : MemoryCache :=
  match op with
  | MemoryInsert k v => memory_insert len hash m k v
  | MemoryGet k => (memory_get hash m k).1
  | MemoryRemove k => memory_remove len hash m k
  end.

Definition memory_run (max_bytes shard_count : Z) (ops : list MemoryOp) : MemoryCache :=
  foldl memory_step (memory_cache_new max_bytes shard_count) ops.

(** The value a key was last given. *)
Definition latest_value (key : string) (ops : list MemoryOp) : option V :=
  foldl (λ o op, match op with
                 | MemoryInsert k v => if decide (k = key) then Some v else o
                 | MemoryRemove k => if decide (k = key) then None else o
                 | MemoryGet _ => o
                 end) None ops.

(** A shard accounts for its entries and is within its budget, unless it holds
    a single oversized entry. *)
Definition shard_ok (s : Shard (C := C)) : Prop :=
  NoDup (lru_entries (cache s)).*1 ∧ used_bytes s = entries_size len (lru_entries (cache s)) ∧
  (used_bytes s ≤ max_bytes s ∨ (length (lru_entries (cache s)) ≤ 1)%nat).

Lemma entries_size_nonneg (l : list (string * V)) : 0 ≤ entries_size len l.
Proof. apply zsum_nonneg, Forall_forall. intros z [kv [<- _]]%list_elem_of_In%in_map_iff. apply len_isize. Qed.

Lemma entries_size_app (l1 l2 : list (string * V)) : entries_size len (l1 ++ l2) = entries_size len l1 + entries_size len l2.
Proof. unfold entries_size. by rewrite map_app, zsum_app. Qed.

Lemma shard_used_bound s : shard_ok s → 0 ≤ used_bytes s ≤ Z.max (max_bytes s) (2 ^ 63 - 1).
Proof.
  intros (_ & Hu & Hb). rewrite Hu. split; [apply entries_size_nonneg|]. destruct Hb as [Hb|Hl]; [lia|].
  destruct (lru_entries (cache s)) as [|[k v] [|]]; unfold entries_size; cbn [map snd]; [rewrite zsum_nil; lia| |cbn in Hl; lia].
  rewrite zsum_cons, zsum_nil. pose proof (len_isize v). lia.
Qed.

(** What the eviction leaves: a suffix of the entries is gone, and the new
    value fits unless nothing is left. *)
Lemma evict_spec fuel : ∀ (s : Shard (C := C)) new_size, shard_ok s → 0 ≤ max_bytes s ≤ 2 ^ 63 → 0 ≤ new_size < 2 ^ 63 →
  (length (lru_entries (cache s)) < fuel)%nat →
  let s' := evict len fuel s new_size in
  ∃ evicted, lru_entries (cache s) = lru_entries (cache s') ++ evicted ∧
    NoDup (lru_entries (cache s')).*1 ∧ used_bytes s' = entries_size len (lru_entries (cache s')) ∧
    max_bytes s' = max_bytes s ∧ (used_bytes s' + new_size ≤ max_bytes s' ∨ lru_entries (cache s') = []).
Proof.
  induction fuel as [|fuel IH]; intros s new_size Hok Hmax Hnew Hf s'; [lia|].
  pose proof (shard_used_bound s Hok) as Hub. subst s'. cbn [evict]. unfold u64_wrap. rewrite Z.mod_small by lia.
  destruct (Z.ltb_spec (max_bytes s) (used_bytes s + new_size)) as [Hlt|Hge].
  - pose proof (lru_pop_lru_spec (cache s) (proj1 Hok)) as Hp. destruct Hok as (Hnd & Hu & Hb).
    destruct (lru_pop_lru (cache s)) as [c [[k v]|]].
    + rewrite Hp in Hu, Hnd. rewrite entries_size_app in Hu. unfold entries_size at 2 in Hu. cbn [map snd] in Hu.
      rewrite zsum_cons, zsum_nil in Hu. pose proof (entries_size_nonneg (lru_entries c)). pose proof (len_isize v).
      rewrite fmap_app in Hnd. apply NoDup_app in Hnd as (Hnd & _).
      destruct (IH (mkShard c (u64_saturating_sub (used_bytes s) (len v)) (max_bytes s)) new_size) as (ev & He & Hnd' & Hu' & Hm & Hfit);
        cbn [cache used_bytes max_bytes] in *; try done.
      * split; [done|]. cbn [cache used_bytes max_bytes]. unfold u64_saturating_sub. split; [lia|]. destruct Hb as [Hb|Hl]; [lia|].
        rewrite Hp, length_app in Hl. cbn in Hl. assert (lru_entries c = []) as Hn by (apply length_zero_iff_nil; lia).
        left. rewrite Hn in Hu. unfold entries_size in Hu. cbn in Hu. rewrite zsum_nil in Hu. lia.
      * rewrite Hp, length_app in Hf. cbn in Hf. lia.
      * exists (ev ++ [(k, v)]). rewrite Hp, He, <-app_assoc. done.
    + destruct Hp as [Hn Hn']. exists []. cbn [cache used_bytes max_bytes]. rewrite Hn', Hu, Hn. split_and!; try done; [constructor|by right].
  - destruct Hok as (Hnd & Hu & Hb). exists []. rewrite app_nil_r. split_and!; try done. left. lia.
Qed.

Lemma shard_insert_spec s k v : shard_ok s → 0 ≤ max_bytes s ≤ 2 ^ 63 →
  let s' := shard_insert len s k v in
  shard_ok s' ∧ max_bytes s' = max_bytes s ∧ find_key k (lru_entries (cache s')) = Some v ∧
  (∀ k' v', (k', v') ∈ lru_entries (cache s') → k' ≠ k → (k', v') ∈ lru_entries (cache s)).
Proof.
  intros Hok Hmax s'. pose proof (len_isize v) as Hv. subst s'. unfold shard_insert.
  destruct (evict_spec (S (length (lru_entries (cache s)))) s (len v) Hok Hmax ltac:(lia) ltac:(lia))
    as (ev & He & Hnd & Hu & Hm & Hfit).
  set (s1 := evict _ _ _ _) in *. pose proof (lru_pop_spec (cache s1) k Hnd) as Hp.
  destruct (lru_pop (cache s1) k) as [c old]. destruct Hp as [Hold Hc].
  assert (NoDup (lru_entries c).*1) as Hndc by (rewrite Hc; by apply NoDup_without).
  pose proof (entries_size_without len k (lru_entries (cache s1)) Hnd) as Hsz. rewrite <-Hold, <-Hc in Hsz.
  set (used := match old with Some _ => _ | None => _ end).
  assert (used = entries_size len (lru_entries c)) as Hused.
  { subst used. rewrite Hu. pose proof (entries_size_nonneg (lru_entries c)). destruct old; unfold u64_saturating_sub; lia. }
  pose proof (entries_size_nonneg (lru_entries c)) as Hnn.
  assert (entries_size len (lru_entries (lru_put c k v)) = len v + used) as Hput.
  { rewrite lru_put_spec by done. unfold entries_size at 1. cbn [map snd]. rewrite zsum_cons. fold (entries_size len (without k (lru_entries c))).
    rewrite Hused. f_equal. rewrite (entries_size_without len k (lru_entries c) Hndc).
    destruct (find_key k (lru_entries c)) as [x|] eqn:Hx; [|lia]. apply find_key_Some in Hx; [|done].
    rewrite Hc in Hx. by apply list_elem_of_filter in Hx as [? _]. }
  assert (used + len v ≤ max_bytes s ∨ lru_entries c = []) as Hfit'.
  { rewrite Hm in Hfit. destruct Hfit as [Hfit|Hn]; [left|right; by rewrite Hc, Hn].
    rewrite Hused. destruct old as [o|]; [pose proof (len_isize o)|]; lia. }
  assert (0 ≤ used + len v < 2 ^ 64) as Hw.
  { destruct Hfit' as [?|Hn]; [lia|]. rewrite Hused, Hn. unfold entries_size. cbn. rewrite zsum_nil. lia. }
  unfold u64_wrap. rewrite Z.mod_small by lia. split; [split; [|split]|split; [|split]]; cbn [cache used_bytes max_bytes].
  - rewrite lru_put_spec by done. by apply NoDup_put.
  - rewrite Hput. lia.
  - rewrite Hm. destruct Hfit' as [?|Hn]; [left; lia|right]. by rewrite lru_put_spec, Hn.
  - done.
  - by rewrite lru_put_spec, find_key_cons, decide_True.
  - intros k' v'. rewrite lru_put_spec, elem_of_cons, Hc by done. intros [[= -> ->]|Hin] Hne; [done|].
    apply list_elem_of_filter in Hin as [_ [_ Hin]%list_elem_of_filter]. rewrite He. apply elem_of_app. by left.
Qed.

Lemma length_without {A : Type} k (l : list (string * A)) : (length (without k l) ≤ length l)%nat.
Proof. apply length_filter. Qed.

Lemma shard_remove_spec s k : shard_ok s →
  let s' := shard_remove len s k in
  shard_ok s' ∧ max_bytes s' = max_bytes s ∧ lru_entries (cache s') = without k (lru_entries (cache s)).
Proof.
  intros (Hnd & Hu & Hb). unfold shard_remove. pose proof (lru_pop_spec (cache s) k Hnd) as Hp.
  pose proof (entries_size_without len k (lru_entries (cache s)) Hnd) as Hsz.
  pose proof (entries_size_nonneg (without k (lru_entries (cache s)))).
  pose proof (length_without k (lru_entries (cache s))).
  destruct (lru_pop (cache s) k) as [c [v|]]; destruct Hp as [Hv Hc]; rewrite <-Hv in Hsz;
    (split; [split; [|split]|split]); cbn [cache used_bytes max_bytes]; try done; rewrite ?Hc;
    try (by apply NoDup_without); unfold u64_saturating_sub; try lia.
  pose proof (len_isize v). lia.
Qed.

Lemma shard_get_spec s k : shard_ok s →
  let '(s', r) := shard_get s k in
  shard_ok s' ∧ max_bytes s' = max_bytes s ∧ r = find_key k (lru_entries (cache s)) ∧
  (∀ kv, kv ∈ lru_entries (cache s') → kv ∈ lru_entries (cache s)).
Proof.
  intros (Hnd & Hu & Hb). unfold shard_get. pose proof (lru_get_spec (cache s) k Hnd) as Hg.
  destruct (lru_get (cache s) k) as [c r]. destruct Hg as [Hr Hc]. unfold shard_ok. cbn [cache used_bytes max_bytes].
  destruct r as [v|]; [|by rewrite Hc]. symmetry in Hr. pose proof Hr as Hin. apply find_key_Some in Hin; [|done].
  pose proof (entries_size_without len k (lru_entries (cache s)) Hnd) as Hsz. rewrite Hr in Hsz.
  rewrite Hc. split; [split; [|split]|split; [done|split; [done|]]].
  - by apply NoDup_put.
  - unfold entries_size at 1. cbn [map snd]. rewrite zsum_cons. fold (entries_size len (without k (lru_entries (cache s)))). lia.
  - destruct Hb as [?|Hl]; [by left|right]. destruct (lru_entries (cache s)) as [|[k0 v0] [|]]; [done| |cbn in Hl; lia].
    rewrite find_key_cons in Hr. unfold without. rewrite filter_cons. cbn [fst]. case_decide; [|done].
    rewrite decide_False by tauto. done.
  - intros kv. rewrite elem_of_cons. intros [->|[_ ?]%list_elem_of_filter]; done.
Qed.

(** The cache as a whole: every shard is in order and holds only latest values
    of its own keys. *)
Definition memory_ok (per_shard : Z) (n : nat) (ops : list MemoryOp) (m : MemoryCache (C := C)) : Prop :=
  length (shards m) = n ∧ ∀ i s, shards m !! i = Some s →
    shard_ok s ∧ max_bytes s = per_shard ∧
    ∀ k v, (k, v) ∈ lru_entries (cache s) → shard_index hash m k = i ∧ latest_value k ops = Some v.

Lemma latest_value_snoc k ops op : latest_value k (ops ++ [op]) =
  match op with
  | MemoryInsert k' v => if decide (k' = k) then Some v else latest_value k ops
  | MemoryRemove k' => if decide (k' = k) then None else latest_value k ops
  | MemoryGet _ => latest_value k ops
  end.
Proof. unfold latest_value. by rewrite foldl_app. Qed.

Lemma shard_index_length (m m' : MemoryCache (C := C)) k : length (shards m') = length (shards m) → shard_index (C := C) hash m' k = shard_index (C := C) hash m k.
Proof. unfold shard_index. by intros ->. Qed.

(** An operation on one shard. *)
Lemma memory_ok_alter per n ops op (m : MemoryCache (C := C)) k (f : Shard (C := C) → Shard) :
  memory_ok per n ops m →
  (∀ k', k' ≠ k → latest_value k' (ops ++ [op]) = latest_value k' ops) →
  (∀ s, shards m !! shard_index hash m k = Some s → shard_ok s → max_bytes s = per →
     shard_ok (f s) ∧ max_bytes (f s) = max_bytes s ∧
     ∀ k' v, (k', v) ∈ lru_entries (cache (f s)) →
       (k' = k ∧ latest_value k (ops ++ [op]) = Some v) ∨ (k' ≠ k ∧ (k', v) ∈ lru_entries (cache s))) →
  memory_ok per n (ops ++ [op]) (mkMemoryCache (alter f (shard_index hash m k) (shards m))).
Proof.
  intros [Hn Hok] Hother Hf. split; [cbn [shards]; by rewrite length_alter|]. intros i s. cbn [shards]. rewrite list_lookup_alter.
  assert (∀ k', shard_index hash (mkMemoryCache (alter f (shard_index hash m k) (shards m))) k' = shard_index hash m k') as Hidx.
  { intros k'. apply shard_index_length. cbn [shards]. by rewrite length_alter. }
  case_decide as Hi.
  - subst i. intros (s0 & Hs0 & ->)%fmap_Some. destruct (Hok _ _ Hs0) as (Hs & Hm & He).
    destruct (Hf s0 Hs0 Hs Hm) as (Hs' & Hm' & He'). split; [done|]. split; [congruence|]. intros k' v Hin. rewrite Hidx.
    destruct (He' k' v Hin) as [[-> ?]|[Hne Hin']]; [done|]. destruct (He _ _ Hin') as [? ?]. by rewrite Hother.
  - intros Hs. destruct (Hok _ _ Hs) as (Hs' & Hm & He). split; [done|]. split; [done|]. intros k' v Hin. rewrite Hidx.
    destruct (He _ _ Hin) as [Hk' ?]. split; [done|]. rewrite Hother; [done|]. intros ->. by destruct Hi.
Qed.

Lemma memory_step_ok per n ops op (m : MemoryCache (C := C)) : 0 ≤ per ≤ 2 ^ 63 → memory_ok per n ops m → memory_ok per n (ops ++ [op]) (memory_step m op).
Proof.
  intros Hper Hm. destruct op as [k v|k|k]; cbn [memory_step].
  - apply memory_ok_alter; [done|intros k' ?; rewrite latest_value_snoc; by rewrite decide_False|].
    intros s _ Hs Hmax. destruct (shard_insert_spec s k v Hs ltac:(lia)) as (Hs' & Hm' & Hf & He). split; [done|]. split; [done|].
    intros k' v' Hin. destruct (decide (k' = k)) as [->|Hne]; [left|right; auto]. split; [done|].
    rewrite latest_value_snoc, decide_True by done. apply find_key_Some in Hin; [congruence|]. apply Hs'.
  - unfold memory_get. destruct (shards m !! shard_index hash m k) as [s|] eqn:Hs.
    + destruct (shard_get s k) as [s' r] eqn:Hg. cbn [fst].
      replace (<[shard_index hash m k:=s']> (shards m)) with (alter (λ s, (shard_get s k).1) (shard_index hash m k) (shards m)).
      * apply memory_ok_alter; [done|intros; by rewrite latest_value_snoc|]. intros s0 Hs0 Hok Hmax.
        rewrite Hs in Hs0. injection Hs0 as <-. pose proof (shard_get_spec s k Hok) as Hsp. rewrite Hg in Hsp |- *. cbn [fst].
        destruct Hsp as (? & ? & _ & He). split; [done|]. split; [done|]. intros k' v Hin. apply He in Hin.
        destruct (decide (k' = k)) as [->|]; [left|by right]. split; [done|]. rewrite latest_value_snoc.
        destruct Hm as [_ Hm]. destruct (Hm _ _ Hs) as (_ & _ & Hl). by destruct (Hl _ _ Hin).
      * apply list_eq. intros i. rewrite list_lookup_alter, list_lookup_insert. case_decide as Hi.
        -- subst i. rewrite Hs. cbn. rewrite Hg. by rewrite decide_True by (split; [done|by apply lookup_lt_Some in Hs]).
        -- by rewrite decide_False by tauto.
    + destruct Hm as [Hn Hok]. split; [done|]. intros i s Hi. destruct (Hok i s Hi) as (? & ? & He). split_and!; try done.
      intros k' v Hin. rewrite latest_value_snoc. by apply He.
  - apply memory_ok_alter; [done|intros k' ?; rewrite latest_value_snoc; by rewrite decide_False|].
    intros s _ Hs Hmax. destruct (shard_remove_spec s k Hs) as (Hs' & Hm' & He). split; [done|]. split; [done|].
    intros k' v' Hin. rewrite He in Hin. apply list_elem_of_filter in Hin as [Hne Hin]. cbn in Hne. by right.
Qed.

Lemma per_shard_range total n : 0 ≤ total ≤ 2 ^ 63 → 0 ≤ Z.max (total / Z.max n 1) 1 ≤ 2 ^ 63.
Proof. intros Hmax. split; [lia|]. apply Z.max_lub; [|lia]. etrans; [|apply Hmax]. apply Z.div_le_upper_bound; nia. Qed.

Lemma memory_run_ok total n ops : 0 ≤ total ≤ 2 ^ 63 →
  memory_ok (Z.max (total / Z.max n 1) 1) (Z.to_nat (Z.max n 1)) ops (memory_run total n ops).
Proof.
  intros Hmax. pose proof (per_shard_range total n Hmax) as Hper.
  induction ops as [|op ops IH] using rev_ind.
  - split; [apply length_replicate|]. intros i s Hs. apply lookup_replicate in Hs as [-> _].
    assert (lru_entries (cache (shard_new (Z.max (total / Z.max n 1) 1))) = []) as He by apply lru_entries_unbounded.
    split; [|split; [done|]].
    + split; [rewrite He; constructor|]. rewrite He. split; [done|]. left. cbn. lia.
    + intros k v. rewrite He. by intros ?%not_elem_of_nil.
  - unfold memory_run. rewrite foldl_app. by apply memory_step_ok.
Qed.

(** ** Theorem *)

(** The memory cache under any sequence of calls: every shard counts the bytes
    of its entries and is within its share of the budget, unless it holds one
    oversized entry; a hit is the value the key was last given, never a removed
    one; and a value just inserted is a hit, whatever its size. *)
Theorem memory_cache_exact total n ops : 0 ≤ total ≤ 2 ^ 63 →
  let m := memory_run total n ops in
  (∀ i s, shards m !! i = Some s → used_bytes s = entries_size len (lru_entries (cache s)) ∧
     (used_bytes s ≤ Z.max (total / Z.max n 1) 1 ∨ (length (lru_entries (cache s)) ≤ 1)%nat)) ∧
  (∀ k v, (memory_get hash m k).2 = Some v → latest_value k ops = Some v) ∧
  (∀ k v, (memory_get hash (memory_insert len hash m k v) k).2 = Some v).
Proof.
  intros Hmax m. pose proof (memory_run_ok total n ops Hmax) as Hm. fold m in Hm.
  split; [|split].
  - intros i s Hs. destruct Hm as [_ Hm]. destruct (Hm i s Hs) as ((_ & ? & ?) & <- & _). done.
  - intros k v. unfold memory_get. destruct (shards m !! shard_index hash m k) as [s|] eqn:Hs; [|done].
    destruct Hm as [_ Hm]. destruct (Hm _ _ Hs) as (Hok & _ & Hl). pose proof (shard_get_spec s k Hok) as Hg.
    destruct (shard_get s k) as [s' r]. destruct Hg as (_ & _ & -> & _). cbn [snd]. intros Hf.
    apply find_key_Some in Hf; [|apply Hok]. by destruct (Hl _ _ Hf).
  - intros k v. unfold memory_get, memory_insert. cbn [shards]. rewrite (shard_index_length m) by (cbn [shards]; by rewrite length_alter).
    rewrite list_lookup_alter_eq. destruct Hm as [Hlen Hm].
    assert (shard_index hash m k < length (shards m))%nat as Hlt.
    { unfold shard_index. rewrite Hlen. pose proof (Z.mod_pos_bound (hash k) (Z.of_nat (Z.to_nat (Z.max n 1)))). lia. }
    apply lookup_lt_is_Some in Hlt as [s Hs]. rewrite Hs. cbn.
    destruct (Hm _ _ Hs) as (Hok & Hper & _).
    destruct (shard_insert_spec s k v Hok) as (Hok' & _ & Hf & _); [rewrite Hper; by apply per_shard_range|].
    pose proof (shard_get_spec (shard_insert len s k v) k Hok') as Hg.
    destruct (shard_get (shard_insert len s k v) k) as [s' r]. destruct Hg as (_ & _ & -> & _). exact Hf.
Qed.
End MemoryCacheSpec.

(** ** Witness *)

(** The crate's cache as the list of its entries. *)
Definition list_lru {V : Type} : LruCache (list (string * V)) V.
Proof.
  refine {|
    lru_entries := λ c, c;
    lru_unbounded := [];
    lru_get := λ c k, match find_key k c with Some v => ((k, v) :: without k c, Some v) | None => (c, None) end;
    lru_put := λ c k v, (k, v) :: without k c;
    lru_pop := λ c k, (without k c, find_key k c);
    lru_pop_lru := λ c, match last c with Some e => (removelast c, Some e) | None => ([], None) end |}.
  - done.
  - intros c k _. by destruct (find_key k c).
  - done.
  - done.
  - intros c _. destruct (last c) as [e|] eqn:Hl.
    + apply last_Some in Hl as [l ->]. by rewrite removelast_last.
    + by apply last_None in Hl as ->.
Defined.
#[local] Existing Instance list_lru.

Definition one_shard (_ : string) : Z := 0.
(** Values are their own sizes. *)
Definition size_of_value (v : Z) : Z := v mod 2 ^ 63.
Definition sample_ops : list (MemoryOp (V := Z)) :=
  [MemoryInsert "a" 5; MemoryInsert "b" 5; MemoryGet "a"; MemoryInsert "c" 5; MemoryRemove "c"].

Lemma memory_cache_exact_witness :
  (memory_get one_shard (memory_run size_of_value one_shard 10 1 sample_ops) "a").2 = Some 5 ∧
  (memory_get one_shard (memory_run size_of_value one_shard 10 1 sample_ops) "b").2 = None ∧
  latest_value "a" sample_ops = Some 5.
Proof.
  split; [vm_compute; reflexivity|]. split; [vm_compute; reflexivity|].
  apply (memory_cache_exact size_of_value one_shard) with (total := 10) (n := 1); [|lia|vm_compute; reflexivity].
  intros v. apply Z.mod_pos_bound. lia.
Defined.
