(* ===== verification/DiskCache.v ===== *)
(** The local cache of remote Parquet files: [zradar-parquet/src/disk_cache.rs].

    [DiskCache] is the in-memory index with the files of the cache directory.
    A call is the sequential composition of its steps; other calls run between
    them. Parquet files are [FileData] as in [ParquetWriter]. *)

From stdpp Require Import base gmap sorting list strings.
From Stdlib Require Import Ascii.
From S2P Require Import Prelude FileList WriteBuffer TelemetryWriter ParquetWriter.

(** [s3_key.replace(['/', ':'], "_")]. *)
Fixpoint cache_file_name (s3_key : string) : string :=
  match s3_key with
  | EmptyString => EmptyString
  | String c s => String (if decide (c = "/"%char ∨ c = ":"%char) then "_"%char else c) (cache_file_name s)
  end.

(** [CacheEntry]; instants are numbers. *)
Record CacheEntry := mkCacheEntry {
  local_path : string;
  ce_size_bytes : Z;
  last_accessed : Z;
  ce_created_at : Z;
}.

#[export] Instance CacheEntry_eq_dec : EqDecision CacheEntry.
Proof. solve_decision. Defined.

Definition lru_order (a b : string * CacheEntry) : Prop := last_accessed a.2 ≤ last_accessed b.2.
#[export] Instance lru_order_dec : RelDecision lru_order.
Proof. intros a b. unfold lru_order. apply _. Defined.

Section DiskCache.
Context {R : Type} (byte_size : FileData R → Z).

Record DiskCache := mkDiskCache {
  index : gmap string CacheEntry;
  cached_files : gmap string (FileData R);
  max_size_bytes : Z;
  ttl : Z;
}.

Definition disk_cache_new (max_size_bytes ttl : Z) : DiskCache := mkDiskCache ∅ ∅ max_size_bytes ttl.

Definition with_index (c : DiskCache) (i : gmap string CacheEntry) : DiskCache :=
  mkDiskCache i (cached_files c) (max_size_bytes c) (ttl c).
Definition with_files (c : DiskCache) (f : gmap string (FileData R)) : DiskCache :=
  mkDiskCache (index c) f (max_size_bytes c) (ttl c).

(** [created_at.elapsed() < self.ttl], saturating at zero. *)
Definition fresh (c : DiskCache) (e : CacheEntry) (now : Z) : bool := Z.max (now - ce_created_at e) 0 <? ttl c.

(** The fast path, under the read lock. *)
Definition cache_lookup (c : DiskCache) (s3_key : string) (now : Z) : option string :=
  match index c !! s3_key with
  | Some e =>
      if fresh c e now && bool_decide (is_Some (cached_files c !! local_path e)) then Some (local_path e) else None
  | None => None
  end.

Definition touch (c : DiskCache) (s3_key : string) (now : Z) : DiskCache :=
  with_index c (alter (λ e, mkCacheEntry (local_path e) (ce_size_bytes e) now (ce_created_at e)) s3_key (index c)).

(** [tokio::fs::write]: the file is truncated, then written. *)
Definition write_begin (c : DiskCache) (s3_key : string) : DiskCache :=
  with_files c (<[cache_file_name s3_key := Torn]> (cached_files c)).
Definition write_end (c : DiskCache) (s3_key : string) (data : FileData R) : DiskCache :=
  with_files c (<[cache_file_name s3_key := data]> (cached_files c)).

Definition index_insert (c : DiskCache) (s3_key : string) (data : FileData R) (now : Z) : DiskCache :=
  with_index c (<[s3_key := mkCacheEntry (cache_file_name s3_key) (byte_size data) now now]> (index c)).

(** [index.remove(&key)] and [remove_file], whose error is ignored. *)
Definition evict_key (c : DiskCache) (key : string) : DiskCache :=
  match index c !! key with
  | Some e => with_files (with_index c (delete key (index c))) (delete (local_path e) (cached_files c))
  | None => c
  end.

Definition index_size (i : gmap string CacheEntry) : Z := zsum (map (λ kv, ce_size_bytes kv.2) (map_to_list i)).

(** The loop over the entries, the least recently used first. *)
Fixpoint evict_lru (c : DiskCache) (entries : list (string * CacheEntry)) (running_total : Z) : DiskCache :=
  match entries with
  | [] => c
  | (key, e) :: entries =>
      if running_total <=? max_size_bytes c then c
      else
        match index c !! key with
        | Some _ => evict_lru (evict_key c key) entries (u64_saturating_sub running_total (ce_size_bytes e))
        | None => evict_lru c entries running_total
        end
  end.

(** [evict_if_needed], under the write lock; [order] is the order in which the
    map hands out its entries, to which the stable sort falls back on ties. *)
Definition evict_if_needed (c : DiskCache) (now : Z)
    (order : list (string * CacheEntry) → list (string * CacheEntry)) : DiskCache :=
  let expired := map fst (filter (λ kv, fresh c kv.2 now = false) (map_to_list (index c))) in
  let c := foldl evict_key c expired in
  let total := u64_wrap (index_size (index c)) in
  if total <=? max_size_bytes c then c
  else evict_lru c (merge_sort lru_order (order (map_to_list (index c)))) total.

(** What a call finds: its instants, the results of its I/O and the order of
    the map. *)
Record FetchEnv := mkFetchEnv {
  fv_checked_at : Z;
  fv_touched_at : Z;
  fv_dir_ok : bool;
  fv_download : option (FileData R);
  fv_write_ok : bool;
  fv_inserted_at : Z;
  fv_evicted_at : Z;
  fv_order : list (string * CacheEntry) → list (string * CacheEntry);
}.

Inductive FetchError := CreateDirFailed | DownloadFailed | WriteCachedFailed.

Definition fetch_and_insert (c : DiskCache) (s3_key : string) (env : FetchEnv) : DiskCache * outcome FetchError string :=
  if negb (fv_dir_ok env) then (c, Err CreateDirFailed)
  else
    match fv_download env with
    | None => (c, Err DownloadFailed)
    | Some data =>
        let c := write_begin c s3_key in
        if negb (fv_write_ok env) then (c, Err WriteCachedFailed)
        else
          let c := write_end c s3_key data in
          let c := index_insert c s3_key data (fv_inserted_at env) in
          (evict_if_needed c (fv_evicted_at env) (fv_order env), Ok (cache_file_name s3_key))
    end.

Definition get_or_fetch (c : DiskCache) (s3_key : string) (env : FetchEnv) : DiskCache * outcome FetchError string :=
  match cache_lookup c s3_key (fv_checked_at env) with
  | Some path => (touch c s3_key (fv_touched_at env), Ok path)
  | None => fetch_and_insert c s3_key env
  end.

(** The fetches of one query, one after the other. *)
Fixpoint fetch_all (c : DiskCache) (l : list (string * FetchEnv)) : DiskCache * outcome FetchError (list string) :=
  match l with
  | [] => (c, Ok [])
  | (key, env) :: l =>
      match get_or_fetch c key env with
      | (c, Ok path) =>
          let '(c, r) := fetch_all c l in (c, paths ← r; mret (path :: paths))
      | (c, Err e) => (c, Err e)
      | (c, Panic) => (c, Panic)
      end
  end.

(** ** Specification *)

(** The remote objects, which no component overwrites, and the keys in use. *)
Context (objects : gmap string (FileData R)) (used_key : string → Prop).
Context (used_key_inj : ∀ k1 k2, used_key k1 → used_key k2 → cache_file_name k1 = cache_file_name k2 → k1 = k2).
Context (byte_size_range : ∀ d, 0 ≤ byte_size d < 2 ^ 63).

(** The index and the directory agree, each file is its whole object, and the
    total is within the budget. *)
Definition cache_ok (c : DiskCache) : Prop :=
  (∀ k e, index c !! k = Some e → used_key k ∧ local_path e = cache_file_name k ∧
     ∃ d, objects !! k = Some d ∧ cached_files c !! local_path e = Some d ∧ ce_size_bytes e = byte_size d) ∧
  (∀ name, is_Some (cached_files c !! name) → ∃ k e, index c !! k = Some e ∧ local_path e = name).

(** The environment of a call: downloads return the object, a write of a
    downloaded file succeeds, the map's order is an order of its entries. *)
Definition fetch_env_ok (key : string) (env : FetchEnv) : Prop :=
  used_key key ∧ (fv_download env = None ∨ fv_download env = objects !! key) ∧ fv_write_ok env = true ∧
  ∀ l, fv_order env l ≡ₚ l.

(** ** Lemmas *)

Lemma index_size_delete i k e : i !! k = Some e → index_size i = ce_size_bytes e + index_size (delete k i).
Proof.
  intros Hk. unfold index_size. rewrite <-(map_to_list_delete i k e Hk) at 1. cbn [map snd]. by rewrite zsum_cons.
Qed.

Lemma index_size_insert i k e : index_size (<[k := e]> i) = ce_size_bytes e + index_size (delete k i).
Proof.
  rewrite (index_size_delete _ k e) by by rewrite lookup_insert_eq. by rewrite delete_insert_eq.
Qed.

Lemma entry_size_range c k e : cache_ok c → index c !! k = Some e → 0 ≤ ce_size_bytes e < 2 ^ 63.
Proof. intros [Hok _] Hk. destruct (Hok k e Hk) as (_ & _ & d & _ & _ & ->). apply byte_size_range. Qed.

Lemma index_size_nonneg c : cache_ok c → 0 ≤ index_size (index c).
Proof.
  intros Hok. apply zsum_nonneg, Forall_forall. intros z Hin. apply list_elem_of_In, in_map_iff in Hin as ([k e] & <- & Hin).
  apply list_elem_of_In, elem_of_map_to_list in Hin. by destruct (entry_size_range c k e Hok Hin).
Qed.

Lemma evict_key_ok c k : cache_ok c → cache_ok (evict_key c k).
Proof.
  intros [Hok Hdir]. unfold evict_key. destruct (index c !! k) as [e|] eqn:Hk; [|by split].
  destruct (Hok k e Hk) as (Huk & Hp & _). split; cbn [index cached_files with_index with_files].
  - intros k' e' [Hne Hk']%lookup_delete_Some. destruct (Hok k' e' Hk') as (Hu' & Hp' & d & Hd & Hf & Hs).
    split; [done|]. split; [done|]. exists d. split; [done|]. split; [|done]. rewrite lookup_delete_ne; [done|].
    rewrite Hp, Hp'. intros Heq. by apply used_key_inj in Heq.
  - intros name Hn. destruct (decide (local_path e = name)) as [<-|Hne].
    + rewrite lookup_delete_eq in Hn. by destruct Hn.
    + rewrite lookup_delete_ne in Hn by done. destruct (Hdir name Hn) as (k' & e' & Hk' & <-). exists k', e'.
      split; [|done]. rewrite lookup_delete_ne; [done|]. intros ->. congruence.
Qed.

Lemma evict_key_index c k : index (evict_key c k) = delete k (index c).
Proof. unfold evict_key. destruct (index c !! k) eqn:Hk; [done|]. by rewrite delete_id. Qed.

Lemma evict_key_params c k : max_size_bytes (evict_key c k) = max_size_bytes c ∧ ttl (evict_key c k) = ttl c.
Proof. unfold evict_key. by destruct (index c !! k). Qed.

Lemma evict_keys_ok ks : ∀ c, cache_ok c →
  let c' := foldl evict_key c ks in
  cache_ok c' ∧ max_size_bytes c' = max_size_bytes c ∧ ttl c' = ttl c ∧
  (∀ k, index c' !! k = if decide (k ∈ ks) then None else index c !! k) ∧ index_size (index c') ≤ index_size (index c).
Proof.
  induction ks as [|k ks IH]; intros c Hok; cbn [foldl].
  - by split_and!.
  - destruct (IH _ (evict_key_ok c k Hok)) as (Hok' & Hm & Ht & Hl & Hs). destruct (evict_key_params c k) as [Hm1 Ht1].
    rewrite evict_key_index in Hs. split_and!; [done|congruence|congruence| |].
    + intros k'. rewrite Hl, evict_key_index. destruct (decide (k' = k)) as [->|Hne].
      * rewrite (decide_True (P := k ∈ k :: ks)) by by left. rewrite lookup_delete_eq. by case_decide.
      * rewrite lookup_delete_ne by done. apply decide_ext. rewrite elem_of_cons. naive_solver.
    + etrans; [exact Hs|]. destruct (index c !! k) as [e|] eqn:Hk; [|by rewrite delete_id].
      rewrite (index_size_delete _ _ _ Hk). pose proof (entry_size_range c k e Hok Hk). lia.
Qed.

Lemma evict_lru_ok entries : ∀ c, cache_ok c → NoDup entries.*1 → (∀ k e, (k, e) ∈ entries → index c !! k = Some e) →
  let c' := evict_lru c entries (index_size (index c)) in
  cache_ok c' ∧ max_size_bytes c' = max_size_bytes c ∧ ttl c' = ttl c ∧ index c' ⊆ index c ∧
  (index_size (index c') ≤ max_size_bytes c ∨ ∀ k, k ∈ entries.*1 → index c' !! k = None).
Proof.
  induction entries as [|[k e] entries IH]; intros c Hok Hnd Hin; cbn [evict_lru].
  - split_and!; try done. right. by intros k ?%not_elem_of_nil.
  - rewrite fmap_cons, NoDup_cons in Hnd. destruct Hnd as [Hk Hnd]. cbn [fst] in Hk.
    destruct (Z.leb_spec (index_size (index c)) (max_size_bytes c)); [split_and!; try done; by left|].
    pose proof (Hin k e ltac:(by left)) as Hke. rewrite Hke.
    pose proof (index_size_nonneg _ (evict_key_ok c k Hok)) as Hnn. rewrite evict_key_index in Hnn.
    pose proof (index_size_delete _ _ _ Hke) as Hsz.
    assert (u64_saturating_sub (index_size (index c)) (ce_size_bytes e) = index_size (index (evict_key c k))) as ->
      by (rewrite evict_key_index; unfold u64_saturating_sub; lia).
    destruct (evict_key_params c k) as [Hm1 Ht1].
    destruct (IH _ (evict_key_ok c k Hok) Hnd) as (Hok' & Hm & Ht & Hsub & Hend).
    { intros k' e' Hin'. rewrite evict_key_index, lookup_delete_ne; [apply Hin; by right|]. intros <-.
      apply Hk. apply list_elem_of_fmap. by exists (k, e'). }
    set (c' := evict_lru _ _ _) in *. rewrite evict_key_index in Hsub.
    split_and!; [done|congruence|congruence| |].
    + etrans; [exact Hsub|]. apply delete_subseteq.
    + rewrite Hm1 in Hend. destruct Hend as [?|Hend]; [by left|right]. intros k'. rewrite fmap_cons, elem_of_cons.
      intros [->|?]; [|by apply Hend]. cbn. destruct (index c' !! k) eqn:Hx; [|done].
      eapply lookup_weaken in Hx; [|exact Hsub]. by rewrite lookup_delete_eq in Hx.
Qed.

(** The eviction keeps the invariant and ends within the budget. *)
Lemma evict_if_needed_ok c now order : cache_ok c → 0 ≤ max_size_bytes c → index_size (index c) < 2 ^ 64 →
  (∀ l, order l ≡ₚ l) →
  let c' := evict_if_needed c now order in
  cache_ok c' ∧ max_size_bytes c' = max_size_bytes c ∧ ttl c' = ttl c ∧ index c' ⊆ index c ∧
  index_size (index c') ≤ max_size_bytes c.
Proof.
  intros Hok Hmax Hlt Horder c'. subst c'. unfold evict_if_needed.
  destruct (evict_keys_ok (map fst (filter (λ kv, fresh c kv.2 now = false) (map_to_list (index c)))) c Hok)
    as (Hok1 & Hm1 & Ht1 & Hl1 & Hs1).
  set (c1 := foldl _ _ _) in *. pose proof (index_size_nonneg _ Hok1). unfold u64_wrap. rewrite Z.mod_small by lia.
  assert (index c1 ⊆ index c) as Hsub1.
  { apply map_subseteq_spec. intros k e. rewrite Hl1. by case_decide. }
  destruct (Z.leb_spec (index_size (index c1)) (max_size_bytes c1)); [split_and!; try done; lia|].
  assert (merge_sort lru_order (order (map_to_list (index c1))) ≡ₚ map_to_list (index c1)) as Hp
    by by rewrite merge_sort_Permutation, Horder.
  destruct (evict_lru_ok (merge_sort lru_order (order (map_to_list (index c1)))) c1 Hok1) as (Hok' & Hm & Ht & Hsub & Hend).
  - rewrite Hp. apply NoDup_fst_map_to_list.
  - intros k e. rewrite Hp. apply elem_of_map_to_list.
  - split_and!; [done|congruence|congruence|by etrans|]. rewrite Hm1 in Hend. destruct Hend as [?|Hend]; [done|].
    assert (index (evict_lru c1 (merge_sort lru_order (order (map_to_list (index c1)))) (index_size (index c1))) = ∅) as ->.
    { apply map_eq. intros k. rewrite lookup_empty. destruct (index c1 !! k) as [e|] eqn:Hk.
      - apply Hend. rewrite Hp. apply list_elem_of_fmap. exists (k, e). split; [done|]. by apply elem_of_map_to_list.
      - eapply lookup_weaken_None; done. }
    unfold index_size. rewrite map_to_list_empty. cbn. by rewrite zsum_nil.
Qed.

Lemma touch_ok c k now : cache_ok c → cache_ok (touch c k now) ∧ index_size (index (touch c k now)) = index_size (index c) ∧
  cached_files (touch c k now) = cached_files c.
Proof.
  intros [Hok Hdir]. split; [split|split; [|done]]; cbn [touch index cached_files with_index].
  - intros k' e. rewrite lookup_alter. case_decide; [|apply Hok]. subst k'. intros (e0 & He0 & ->)%fmap_Some.
    exact (Hok k e0 He0).
  - intros name Hn. destruct (Hdir name Hn) as (k' & e & Hk & Hp). destruct (decide (k = k')) as [<-|Hne].
    + eexists k, _. rewrite lookup_alter_eq, Hk. by split.
    + exists k', e. by rewrite lookup_alter_ne.
  - destruct (index c !! k) as [e|] eqn:Hk.
    + rewrite (index_size_delete (alter _ k (index c)) k
        (mkCacheEntry (local_path e) (ce_size_bytes e) now (ce_created_at e))) by by rewrite lookup_alter_eq, Hk.
      rewrite delete_alter_eq, (index_size_delete (index c) k e) by done. done.
    + f_equal. apply map_eq. intros k'. rewrite lookup_alter. case_decide; [|done]. subst k'. by rewrite Hk.
Qed.

(** The store after a download, before the eviction. *)
Definition fetched (c : DiskCache) (key : string) (data : FileData R) (now : Z) : DiskCache :=
  index_insert (write_end (write_begin c key) key data) key data now.

Lemma fetched_ok c key data now : cache_ok c → used_key key → objects !! key = Some data →
  index_size (index c) ≤ max_size_bytes c ≤ 2 ^ 63 →
  cache_ok (fetched c key data now) ∧ index_size (index (fetched c key data now)) < 2 ^ 64 ∧
  index (fetched c key data now) !! key = Some (mkCacheEntry (cache_file_name key) (byte_size data) now now).
Proof.
  intros [Hok Hdir] Huk Hobj Hsz. split; [split|split]; cbn [fetched index cached_files with_index with_files index_insert write_end write_begin].
  - intros k e. rewrite lookup_insert_Some. intros [[<- <-]|[Hne Hk]]; cbn [local_path ce_size_bytes].
    + split; [done|]. split; [done|]. exists data. by rewrite lookup_insert_eq.
    + destruct (Hok k e Hk) as (Hu' & Hp & d & Hd & Hf & Hs). split; [done|]. split; [done|]. exists d. split; [done|]. split; [|done].
      rewrite insert_insert_eq, lookup_insert_ne; [done|]. rewrite Hp. intros Heq. by apply used_key_inj in Heq.
  - intros name. rewrite insert_insert_eq. intros Hn. destruct (decide (cache_file_name key = name)) as [<-|Hne].
    + eexists key, _. by rewrite lookup_insert_eq.
    + rewrite lookup_insert_ne in Hn by done. destruct (Hdir name Hn) as (k & e & Hk & Hp).
      exists k, e. split; [|done]. rewrite lookup_insert_ne; [done|]. intros <-. destruct (Hok _ _ Hk) as (_ & Hp' & _). congruence.
  - rewrite index_size_insert. cbn [ce_size_bytes]. pose proof (byte_size_range data).
    assert (index_size (delete key (index c)) ≤ index_size (index c)); [|lia].
    destruct (index c !! key) as [e|] eqn:Hk; [|by rewrite delete_id]. rewrite (index_size_delete _ _ _ Hk).
    pose proof (entry_size_range c key e (conj Hok Hdir) Hk). lia.
  - by rewrite lookup_insert_eq.
Qed.

Lemma cache_lookup_path c key now path : cache_ok c → cache_lookup c key now = Some path →
  path = cache_file_name key ∧ is_Some (index c !! key) ∧ is_Some (cached_files c !! path).
Proof.
  intros [Hok _]. unfold cache_lookup. destruct (index c !! key) as [e|] eqn:Hk; [|done].
  destruct (fresh c e now && _) eqn:Hb; [|done]. intros [= <-]. apply andb_true_iff in Hb as [_ Hb%bool_decide_eq_true].
  destruct (Hok key e Hk) as (_ & Hp & _). done.
Qed.

(** One call keeps the cache in order and within its budget. *)
Lemma get_or_fetch_ok c key env : cache_ok c → index_size (index c) ≤ max_size_bytes c ≤ 2 ^ 63 → fetch_env_ok key env →
  let '(c', r) := get_or_fetch c key env in
  cache_ok c' ∧ index_size (index c') ≤ max_size_bytes c' ∧ max_size_bytes c' = max_size_bytes c ∧ ttl c' = ttl c ∧
  (∀ path, r = Ok path → path = cache_file_name key ∧ is_Some (objects !! key)).
Proof.
  intros Hok Hsz (Huk & Hdl & Hw & Hord). unfold get_or_fetch.
  destruct (cache_lookup c key _) as [path|] eqn:Hl.
  - destruct (cache_lookup_path c key _ path Hok Hl) as (-> & [e Hk] & _).
    destruct (touch_ok c key (fv_touched_at env) Hok) as (Hok' & Hs & _). rewrite Hs. split_and!; try done; [apply Hsz|].
    intros path [= <-]. split; [done|]. destruct Hok as [Hok _]. destruct (Hok key e Hk) as (_ & _ & d & ? & _). by exists d.
  - unfold fetch_and_insert. destruct (negb (fv_dir_ok env)); [split_and!; try done; lia|].
    destruct Hdl as [->|Hdl]; [split_and!; try done; lia|].
    destruct (fv_download env) as [data|]; [|split_and!; try done; lia]. symmetry in Hdl. rewrite Hw. cbn [negb].
    fold (fetched c key data (fv_inserted_at env)).
    destruct (fetched_ok c key data (fv_inserted_at env) Hok Huk Hdl Hsz) as (Hok1 & Hlt & _).
    destruct (evict_if_needed_ok (fetched c key data (fv_inserted_at env)) (fv_evicted_at env) (fv_order env) Hok1)
      as (Hok2 & Hm & Ht & _ & Hle); [|done|done|].
    { change (max_size_bytes (fetched _ _ _ _)) with (max_size_bytes c). pose proof (index_size_nonneg c Hok). lia. }
    rewrite Hm. split_and!; try done. intros path [= <-]. split; [done|by exists data].
Qed.

(** The file of a used key is its object. *)
Lemma cached_object c key d : cache_ok c → used_key key → cached_files c !! cache_file_name key = Some d →
  objects !! key = Some d ∧ is_Some (index c !! key).
Proof.
  intros [Hok Hdir] Huk Hd. destruct (Hdir (cache_file_name key)) as (k & e & Hk & Hp); [by exists d|].
  destruct (Hok k e Hk) as (Huk' & Hp' & d' & Hobj & Hf & _). rewrite Hp in Hp', Hf.
  apply used_key_inj in Hp'; [|done..]. subst k. rewrite Hd in Hf. injection Hf as <-. split; [done|]. by exists e.
Qed.

Definition object_size (key : string) : Z := match objects !! key with Some d => byte_size d | None => 0 end.

Lemma object_size_nonneg key : 0 ≤ object_size key.
Proof. unfold object_size. destruct (objects !! key); [apply byte_size_range|lia]. Qed.

Lemma zsum_submseteq (f : string → Z) l k : (∀ x, 0 ≤ f x) → l ⊆+ k → zsum (map f l) ≤ zsum (map f k).
Proof.
  intros Hf [rest ->]%submseteq_Permutation. rewrite map_app, zsum_app.
  assert (0 ≤ zsum (map f rest)); [|lia]. apply zsum_nonneg, Forall_forall.
  intros z [x [<- _]]%list_elem_of_In%in_map_iff. apply Hf.
Qed.

(** The sizes the index holds are those of the objects. *)
Lemma index_object_sizes c (l : list (string * CacheEntry)) : cache_ok c → (∀ k e, (k, e) ∈ l → index c !! k = Some e) →
  zsum (map (λ kv, ce_size_bytes kv.2) l) = zsum (map object_size l.*1).
Proof.
  intros [Hok _] Hin. f_equal. change (l.*1) with (map fst l). rewrite map_map. apply map_ext_in.
  intros [k e] Hke%list_elem_of_In. destruct (Hok k e (Hin k e Hke)) as (_ & _ & d & Hd & _ & Hs).
  unfold object_size. cbn [fst snd]. by rewrite Hd.
Qed.

Lemma keys_within_index c keys : cache_ok c → NoDup keys → (∀ k, k ∈ keys → is_Some (index c !! k)) →
  zsum (map object_size keys) ≤ index_size (index c).
Proof.
  intros Hok Hnd Hin. unfold index_size. rewrite (index_object_sizes c) by (try done; by intros ?? ?%elem_of_map_to_list).
  apply zsum_submseteq; [apply object_size_nonneg|]. apply NoDup_submseteq; [done|]. intros k Hk.
  destruct (Hin k Hk) as [e He]. apply list_elem_of_fmap. exists (k, e). split; [done|]. by apply elem_of_map_to_list.
Qed.

Lemma fetch_all_ok l : ∀ c, cache_ok c → index_size (index c) ≤ max_size_bytes c ≤ 2 ^ 63 →
  Forall (λ kv, fetch_env_ok kv.1 kv.2) l →
  let '(c', r) := fetch_all c l in
  cache_ok c' ∧ index_size (index c') ≤ max_size_bytes c' ∧ max_size_bytes c' = max_size_bytes c ∧
  (∀ paths, r = Ok paths → paths = map cache_file_name l.*1).
Proof.
  induction l as [|[key env] l IH]; intros c Hok Hsz Henv; cbn [fetch_all].
  - split_and!; try done; [lia|]. by intros paths [= <-].
  - apply Forall_cons in Henv as [He Hl]. cbn [fst snd] in He. pose proof (get_or_fetch_ok c key env Hok Hsz He) as Hg.
    destruct (get_or_fetch c key env) as [c1 r1]. destruct Hg as (Hok1 & Hs1 & Hm1 & _ & Hp).
    destruct r1 as [path|e|]; [|by split_and!..]. destruct (Hp path eq_refl) as [-> _].
    specialize (IH c1 Hok1 ltac:(rewrite Hm1 in *; lia) Hl). destruct (fetch_all c1 l) as [c2 r2].
    destruct IH as (Hok2 & Hs2 & Hm2 & Hp2). split_and!; [done|done|congruence|].
    intros paths. destruct r2 as [ps|e|]; [|done..]. ostep. intros [= <-]. by rewrite (Hp2 ps eq_refl).
Qed.

(** *** The least recently used entries go first *)

(** Entries older than [t0] go before those of this query, which stay when
    they fit by themselves. *)
Lemma evict_lru_keeps l1 l2 : ∀ c running,
  NoDup (l1 ++ l2).*1 → (∀ k e, (k, e) ∈ l1 ++ l2 → index c !! k = Some e ∧ 0 ≤ ce_size_bytes e) →
  running = zsum (map (λ kv, ce_size_bytes kv.2) (l1 ++ l2)) → zsum (map (λ kv, ce_size_bytes kv.2) l2) ≤ max_size_bytes c →
  ∀ k, k ∉ l1.*1 → index (evict_lru c (l1 ++ l2) running) !! k = index c !! k.
Proof.
  induction l1 as [|[k e] l1 IH]; intros c running Hnd Hin Hrun Hfit k' Hk'; cbn [app] in *.
  - destruct l2 as [|[k e] l2]; cbn [evict_lru]; [done|]. by destruct (Z.leb_spec running (max_size_bytes c)); [|lia].
  - cbn [evict_lru]. destruct (Z.leb_spec running (max_size_bytes c)); [done|].
    destruct (Hin k e ltac:(by left)) as [Hke Hs]. rewrite Hke. rewrite fmap_cons, NoDup_cons in Hnd. destruct Hnd as [Hk Hnd].
    rewrite fmap_cons, not_elem_of_cons in Hk'. destruct Hk' as [Hne Hk']. cbn [fst] in *.
    rewrite IH; [by rewrite evict_key_index, lookup_delete_ne by done|done| | |by destruct (evict_key_params c k) as [-> _]|done].
    + intros k2 e2 Hin2. rewrite evict_key_index, lookup_delete_ne; [apply Hin; by right|]. intros <-.
      apply Hk, list_elem_of_fmap. by exists (k, e2).
    + cbn [map snd] in Hrun. rewrite zsum_cons in Hrun. unfold u64_saturating_sub.
      assert (0 ≤ zsum (map (λ kv, ce_size_bytes kv.2) (l1 ++ l2))); [|lia]. apply zsum_nonneg, Forall_forall.
      intros z [[k2 e2] [<- Hin2]]%list_elem_of_In%in_map_iff. apply (Hin k2). right. by apply list_elem_of_In.
Qed.

Lemma sorted_split t0 (l : list (string * CacheEntry)) : StronglySorted lru_order l →
  l = filter (λ kv, last_accessed kv.2 < t0) l ++ filter (λ kv, ¬ last_accessed kv.2 < t0) l.
Proof.
  induction 1 as [|kv l Hl IH Hall]; [done|]. rewrite !filter_cons. destruct (decide (last_accessed kv.2 < t0)).
  - rewrite (decide_False (P := ¬ _)) by tauto. cbn. by rewrite <-IH.
  - rewrite decide_True by done.
    assert (filter (λ kv, last_accessed kv.2 < t0) l = []) as Hnil.
    { apply filter_none. intros x Hx. rewrite Forall_forall in Hall. specialize (Hall x Hx). unfold lru_order in Hall. lia. }
    rewrite Hnil in IH. rewrite Hnil. cbn in IH |- *. by rewrite <-IH.
Qed.

#[local] Instance lru_order_total : Total lru_order.
Proof. intros a b. unfold lru_order. lia. Qed.
#[local] Instance lru_order_trans : Transitive lru_order.
Proof. intros a b c. unfold lru_order. lia. Qed.

(** An eviction spares the entries used since [t0] when they fit the budget
    and are not past their time to live. *)
Lemma evict_if_needed_keeps c now order t0 : cache_ok c → index_size (index c) < 2 ^ 64 → (∀ l, order l ≡ₚ l) →
  zsum (map (λ kv, ce_size_bytes kv.2) (filter (λ kv, ¬ last_accessed kv.2 < t0) (map_to_list (index c)))) ≤ max_size_bytes c →
  ∀ k e, index c !! k = Some e → t0 ≤ last_accessed e → fresh c e now = true →
  index (evict_if_needed c now order) !! k = Some e.
Proof.
  intros Hok Hlt Horder Hfit k e Hk Ht0 Hfresh. unfold evict_if_needed.
  destruct (evict_keys_ok (map fst (filter (λ kv, fresh c kv.2 now = false) (map_to_list (index c)))) c Hok)
    as (Hok1 & Hm1 & Ht1 & Hl1 & Hs1).
  set (c1 := foldl _ _ _) in *. pose proof (index_size_nonneg _ Hok1). unfold u64_wrap. rewrite Z.mod_small by lia.
  assert (index c1 !! k = Some e) as Hk1.
  { rewrite Hl1, decide_False; [done|]. intros ([k' e'] & -> & [Hx Hin]%list_elem_of_filter)%list_elem_of_fmap.
    apply elem_of_map_to_list in Hin. cbn in *. congruence. }
  destruct (_ <=? _); [done|].
  set (l := merge_sort lru_order (order (map_to_list (index c1)))).
  assert (l ≡ₚ map_to_list (index c1)) as Hp by (subst l; by rewrite merge_sort_Permutation, Horder).
  pose proof (sorted_split t0 l (StronglySorted_merge_sort lru_order _)) as Hsplit.
  assert (∀ k e, (k, e) ∈ l → index c1 !! k = Some e) as Hl by (intros k' e'; rewrite Hp; apply elem_of_map_to_list).
  rewrite Hsplit, evict_lru_keeps; [done|rewrite <-Hsplit..| |].
  - rewrite Hp. apply NoDup_fst_map_to_list.
  - intros k' e' Hin%Hl. split; [done|]. by destruct (entry_size_range c1 k' e' Hok1 Hin).
  - unfold index_size. by rewrite Hp.
  - rewrite Hm1. etrans; [|exact Hfit].
    rewrite (index_object_sizes c1), (index_object_sizes c);
      [|done|by intros ?? [_ ?%elem_of_map_to_list]%list_elem_of_filter|done|by intros ?? [_ ?%Hl]%list_elem_of_filter].
    apply zsum_submseteq; [apply object_size_nonneg|]. apply NoDup_submseteq.
    + eapply sublist_NoDup; [|apply fmap_sublist, sublist_filter]. rewrite Hp. apply NoDup_fst_map_to_list.
    + intros k' ([k2 e2] & -> & [Hx Hin%Hl]%list_elem_of_filter)%list_elem_of_fmap. rewrite Hl1 in Hin. case_decide; [done|].
      apply list_elem_of_fmap. exists (k2, e2). split; [done|]. apply list_elem_of_filter. split; [done|]. by apply elem_of_map_to_list.
  - intros ([k' e'] & -> & [Hx Hin%Hl]%list_elem_of_filter)%list_elem_of_fmap. cbn in *. rewrite Hk1 in Hin. injection Hin as <-. lia.
Qed.

(** *** The fetches of a query *)

Section Query.
Context (keys : list string) (t0 te : Z).

Definition during (now : Z) : Prop := t0 ≤ now ≤ te.
Definition env_during (env : FetchEnv) : Prop :=
  during (fv_checked_at env) ∧ during (fv_touched_at env) ∧ during (fv_inserted_at env) ∧ during (fv_evicted_at env).

(** The query's entries outlive it, those it has fetched are in the index, and
    no other entry has been used since it began. *)
Definition query_inv (fetched_keys : list string) (c : DiskCache) : Prop :=
  (cache_ok c ∧ index_size (index c) ≤ max_size_bytes c ≤ 2 ^ 63 ∧ zsum (map object_size keys) ≤ max_size_bytes c ∧ te - t0 < ttl c) ∧
  (∀ k e, index c !! k = Some e → k ∈ keys → Z.max (te - ce_created_at e) 0 < ttl c) ∧
  (∀ k e, index c !! k = Some e → t0 ≤ last_accessed e → k ∈ keys) ∧
  (∀ k, k ∈ fetched_keys → k ∈ keys ∧ ∃ e, index c !! k = Some e ∧ t0 ≤ last_accessed e).

Lemma fresh_during c e now : Z.max (te - ce_created_at e) 0 < ttl c → now ≤ te → fresh c e now = true.
Proof. unfold fresh. rewrite Z.ltb_lt. lia. Qed.

Lemma query_inv_touch fk c key now : query_inv fk c → key ∈ keys → is_Some (index c !! key) → during now →
  query_inv (key :: fk) (touch c key now).
Proof.
  intros ((Hok & Hs & Hfit & Httl) & Hlive & Hold & Hnew) Hkey [e0 He0] [Hn0 _].
  destruct (touch_ok c key now Hok) as (Hok' & Hsz & _). split; [|split; [|split]]; cbn [touch index ttl max_size_bytes with_index].
  - split; [done|]. split; [|done]. change (index (touch c key now)) with (index (touch c key now)) in Hsz. cbn in Hsz |- *. lia.
  - intros k e. rewrite lookup_alter. case_decide; [|by apply Hlive]. subst k. rewrite He0. intros [= <-] ?. by apply (Hlive key e0).
  - intros k e. rewrite lookup_alter. case_decide; [by subst|by apply Hold].
  - intros k. rewrite elem_of_cons. intros Hk. rewrite lookup_alter. case_decide as Heq.
    + subst k. rewrite He0. split; [done|]. eexists. split; [done|]. done.
    + destruct Hk as [->|Hk]; [done|]. by apply Hnew.
Qed.

Lemma query_inv_fetch fk c key data now now' order : query_inv fk c → key ∈ keys → used_key key → objects !! key = Some data →
  during now → during now' → (∀ l, order l ≡ₚ l) →
  query_inv (key :: fk) (evict_if_needed (fetched c key data now) now' order).
Proof.
  intros ((Hok & Hs & Hfit & Httl) & Hlive & Hold & Hnew) Hkey Huk Hobj [Hn0 Hne] [Hn0' Hne'] Horder.
  destruct (fetched_ok c key data now Hok Huk Hobj Hs) as (Hok1 & Hlt & Hk1).
  pose proof (index_size_nonneg c Hok) as Hnn.
  destruct (evict_if_needed_ok (fetched c key data now) now' order Hok1) as (Hok2 & Hm & Ht & Hsub & Hle);
    [change (max_size_bytes (fetched _ _ _ _)) with (max_size_bytes c); lia|done|done|].
  set (c2 := evict_if_needed _ _ _) in *. change (max_size_bytes (fetched c key data now)) with (max_size_bytes c) in *.
  change (ttl (fetched c key data now)) with (ttl c) in *.
  assert (∀ k e, index (fetched c key data now) !! k = Some e →
    (k = key ∧ e = mkCacheEntry (cache_file_name key) (byte_size data) now now) ∨ (k ≠ key ∧ index c !! k = Some e)) as Hback.
  { intros k e. cbn. rewrite lookup_insert_Some. intros [[<- <-]|[? ?]]; [by left|right]. done. }
  assert (∀ k e, index (fetched c key data now) !! k = Some e → t0 ≤ last_accessed e → k ∈ keys) as Hold1.
  { intros k e [[-> ->]|[_ ?]]%Hback ?; [done|by apply (Hold k e)]. }
  assert (∀ k e, index (fetched c key data now) !! k = Some e → k ∈ keys → Z.max (te - ce_created_at e) 0 < ttl c) as Hlive1.
  { intros k e [[-> ->]|[_ ?]]%Hback ?; [cbn; lia|by apply (Hlive k e)]. }
  assert (∀ k e, index (fetched c key data now) !! k = Some e → t0 ≤ last_accessed e → index c2 !! k = Some e) as Hkeep.
  { intros k e Hk Hla. apply (evict_if_needed_keeps _ _ _ t0); [done|done|done| |done|done|].
    - change (max_size_bytes (fetched _ _ _ _)) with (max_size_bytes c). etrans; [|exact Hfit].
      rewrite (index_object_sizes (fetched c key data now)) by (try done; by intros ?? [_ ?%elem_of_map_to_list]%list_elem_of_filter).
      apply zsum_submseteq; [apply object_size_nonneg|]. apply NoDup_submseteq.
      + eapply sublist_NoDup; [|apply fmap_sublist, sublist_filter]. apply NoDup_fst_map_to_list.
      + intros k' ([k2 e2] & -> & [Hx Hin%elem_of_map_to_list]%list_elem_of_filter)%list_elem_of_fmap. cbn in Hx. apply (Hold1 k2 e2 Hin). lia.
    - apply fresh_during; [|done]. apply (Hlive1 k e Hk). by apply (Hold1 k e). }
  split; [|split; [|split]].
  - split; [done|]. rewrite Hm, Ht. split; [lia|done].
  - intros k e Hk Hin. rewrite Ht. eapply lookup_weaken in Hk; [|exact Hsub]. by apply (Hlive1 k e).
  - intros k e Hk Hla. eapply lookup_weaken in Hk; [|exact Hsub]. by apply (Hold1 k e).
  - intros k. rewrite elem_of_cons. intros [->|Hk].
    + split; [done|]. eexists. split; [by apply Hkeep|done].
    + destruct (Hnew k Hk) as (Hin & e & He & Hla). split; [done|]. destruct (decide (k = key)) as [->|Hne2].
      * eexists. split; [by apply Hkeep|done].
      * exists e. split; [|done]. apply Hkeep; [|done]. cbn. by rewrite lookup_insert_ne.
Qed.

Lemma query_inv_step fk c key env c' path : query_inv fk c → fetch_env_ok key env → env_during env → key ∈ keys →
  get_or_fetch c key env = (c', Ok path) → query_inv (key :: fk) c'.
Proof.
  intros Hinv (Huk & Hdl & Hw & Hord) (Hc & Htch & Hi & Hev) Hkey. unfold get_or_fetch.
  destruct (cache_lookup c key _) as [p|] eqn:Hlk.
  - intros [= <- _]. destruct (cache_lookup_path c key _ p (proj1 (proj1 Hinv)) Hlk) as (_ & ? & _). by apply query_inv_touch.
  - unfold fetch_and_insert. destruct (negb (fv_dir_ok env)); [done|]. destruct Hdl as [->|Hdl]; [done|].
    destruct (fv_download env) as [data|]; [|done]. rewrite Hw. intros [= <- _]. by apply query_inv_fetch.
Qed.

(** A key that has been fetched finds its object in the cache. *)
Lemma query_inv_file fk c key : query_inv fk c → key ∈ fk →
  ∃ d, objects !! key = Some d ∧ cached_files c !! cache_file_name key = Some d.
Proof.
  intros ((Hok & _) & _ & _ & Hnew) Hk. destruct (Hnew key Hk) as (_ & e & He & _).
  destruct Hok as [Hok _]. destruct (Hok key e He) as (_ & Hpath & d & Hd & Hfile & _). exists d. by rewrite <-Hpath.
Qed.

(** A fetch whose I/O works succeeds. *)
Lemma get_or_fetch_succeeds c key env : cache_ok c → index_size (index c) ≤ max_size_bytes c ≤ 2 ^ 63 → fetch_env_ok key env →
  fv_dir_ok env = true → is_Some (fv_download env) → ∃ c', get_or_fetch c key env = (c', Ok (cache_file_name key)).
Proof.
  intros Hok Hs Henv Hdir [d Hd]. pose proof (get_or_fetch_ok c key env Hok Hs Henv) as Hg. destruct Henv as (_ & _ & Hw & _).
  destruct (get_or_fetch c key env) as [c' r] eqn:Hr. destruct Hg as (_ & _ & _ & _ & Hp). exists c'. f_equal.
  assert (∃ path, r = Ok path) as [path ->]; [|by destruct (Hp path eq_refl) as [-> _]].
  unfold get_or_fetch in Hr. destruct (cache_lookup c key _); [simplify_eq; by eexists|]. unfold fetch_and_insert in Hr.
  rewrite Hdir, Hd, Hw in Hr. cbn [negb] in Hr. simplify_eq. by eexists.
Qed.

Lemma query_inv_all l : ∀ fk c, query_inv fk c → Forall (λ kv, fetch_env_ok kv.1 kv.2 ∧ env_during kv.2) l → l.*1 ⊆ keys →
  let '(c', r) := fetch_all c l in ∀ paths, r = Ok paths → query_inv (rev l.*1 ++ fk) c'.
Proof.
  induction l as [|[key env] l IH]; intros fk c Hinv Henv Hsub; cbn [fetch_all]; [done|].
  apply Forall_cons in Henv as [[(Huk & Hdl & Hw & Hord) (Hc & Htch & Hi & Hev)] Hl]. cbn [fst snd] in *.
  rewrite fmap_cons in Hsub. assert (key ∈ keys) as Hkey by (apply Hsub; by left).
  destruct (get_or_fetch c key env) as [c1 [path|e|]] eqn:Hg; [|done..].
  pose proof (query_inv_step fk c key env c1 path Hinv ltac:(done) ltac:(done) Hkey Hg) as Hstep.
  specialize (IH (key :: fk) c1 Hstep Hl ltac:(set_solver)). destruct (fetch_all c1 l) as [c2 r2].
  intros paths. destruct r2 as [ps| |]; [|done..]. intros _. specialize (IH ps eq_refl).
  rewrite fmap_cons. cbn [rev]. by rewrite <-app_assoc.
Qed.
End Query.

Lemma fetch_all_kept c l t0 te c' paths :
  cache_ok c → index_size (index c) ≤ max_size_bytes c ≤ 2 ^ 63 → zsum (map object_size l.*1) ≤ max_size_bytes c →
  0 ≤ te - t0 < ttl c →
  (∀ k e, index c !! k = Some e → last_accessed e < t0 ∧ (k ∈ l.*1 → te - ce_created_at e < ttl c)) →
  Forall (λ kv, fetch_env_ok kv.1 kv.2 ∧ env_during t0 te kv.2) l →
  fetch_all c l = (c', Ok paths) →
  Forall2 (λ key path, ∃ d, objects !! key = Some d ∧ cached_files c' !! path = Some d) l.*1 paths.
Proof.
  intros Hok Hs Hfit Httl Hbefore Henv Hf.
  pose proof (query_inv_all l.*1 t0 te l [] c) as Hq. rewrite Hf in Hq.
  assert (query_inv l.*1 t0 te (rev l.*1 ++ []) c') as ((Hok' & _) & _ & _ & Hnew).
  { apply (Hq) with (paths := paths); [|done..]. split; [split_and!; try done; lia|]. split; [|split].
    - intros k e Hk Hin. destruct (Hbefore k e Hk) as [_ Hc]. specialize (Hc Hin). lia.
    - intros k e Hk Hla. destruct (Hbefore k e Hk) as [? _]. lia.
    - by intros k ?%not_elem_of_nil. }
  assert (Forall (λ kv, fetch_env_ok kv.1 kv.2) l) as Henv' by (eapply Forall_impl; [exact Henv|]; by intros ? [? _]).
  pose proof (fetch_all_ok l c Hok Hs Henv') as Ha. rewrite Hf in Ha. destruct Ha as (_ & _ & _ & Hp).
  rewrite (Hp paths eq_refl). rewrite Forall2_fmap_r. apply Forall_Forall2_diag, Forall_forall. intros k Hk.
  destruct (Hnew k) as (_ & e & He & _). { rewrite app_nil_r. apply list_elem_of_In, in_rev. rewrite rev_involutive. by apply list_elem_of_In. }
  destruct Hok' as [Hok' _]. destruct (Hok' k e He) as (_ & Hpath & d & Hd & Hfile & _). exists d. by rewrite <-Hpath.
Qed.

(** ** Theorems *)

(** C19: A query whose remote files fit the budget together finds them all: after
    its last fetch every path it was given holds the whole object, however
    full the cache was and whatever it evicted, as long as nothing of the
    query passes its time to live meanwhile. *)
Theorem query_within_budget_keeps_files c l t0 te c' paths :
  cache_ok c → index_size (index c) ≤ max_size_bytes c ≤ 2 ^ 63 → zsum (map object_size l.*1) ≤ max_size_bytes c →
  0 ≤ te - t0 < ttl c →
  (∀ k e, index c !! k = Some e → last_accessed e < t0 ∧ (k ∈ l.*1 → te - ce_created_at e < ttl c)) →
  Forall (λ kv, fetch_env_ok kv.1 kv.2 ∧ env_during t0 te kv.2) l →
  fetch_all c l = (c', Ok paths) →
  Forall2 (λ key path, ∃ d, objects !! key = Some d ∧ cached_files c' !! path = Some d) l.*1 paths.
Proof. apply fetch_all_kept. Qed.

(** A query whose remote files exceed the budget cannot be answered: all its
    fetches succeed, but by the end the file of one of the returned paths is
    gone, although the method's documentation promises a readable file. *)
Theorem query_over_budget_dangles c l c' paths :
  cache_ok c → index_size (index c) ≤ max_size_bytes c ≤ 2 ^ 63 →
  Forall (λ kv, fetch_env_ok kv.1 kv.2) l → NoDup l.*1 → max_size_bytes c < zsum (map object_size l.*1) →
  fetch_all c l = (c', Ok paths) →
  Exists (λ path, cached_files c' !! path = None) paths.
Proof.
  intros Hok Hs Henv Hnd Hover Hf. pose proof (fetch_all_ok l c Hok Hs Henv) as Ha. rewrite Hf in Ha.
  destruct Ha as (Hok' & Hs' & Hm & Hp). rewrite (Hp paths eq_refl). apply dec_stable. intros Hn.
  assert (zsum (map object_size l.*1) ≤ index_size (index c')); [|lia]. apply keys_within_index; [done..|]. intros k Hk.
  destruct (cached_files c' !! cache_file_name k) as [d|] eqn:Hd.
  - pose proof Hk as ([k' env] & -> & Hin)%list_elem_of_fmap. rewrite Forall_forall in Henv. destruct (Henv _ Hin) as (Huk & _).
    by destruct (cached_object c' k' d Hok' Huk Hd).
  - destruct Hn. apply Exists_exists. exists (cache_file_name k). split; [|done]. by apply list_elem_of_fmap_2.
Qed.

(** Any sequence of calls leaves the cache within its budget, with the index
    and the directory in agreement and every file the whole of its object. *)
Theorem disk_cache_within_budget max t calls : 0 ≤ max ≤ 2 ^ 63 → Forall (λ kv, fetch_env_ok kv.1 kv.2) calls →
  let c := foldl (λ c kv, (get_or_fetch c kv.1 kv.2).1) (disk_cache_new max t) calls in
  cache_ok c ∧ index_size (index c) ≤ max ∧
  ∀ key d, used_key key → cached_files c !! cache_file_name key = Some d → objects !! key = Some d.
Proof.
  intros Hmax Henv c.
  assert (cache_ok c ∧ index_size (index c) ≤ max_size_bytes c ∧ max_size_bytes c = max) as (Hok & Hs & Hm).
  { subst c. induction calls as [|[k env] calls IH] using rev_ind; [split; [|split; [apply Hmax|done]]|].
    - split; [intros k e; cbn; by rewrite lookup_empty|]. intros name [d Hd]. cbn in Hd. by rewrite lookup_empty in Hd.
    - apply Forall_app in Henv as [Henv [He _]%Forall_cons]. destruct (IH Henv) as (Hok & Hs & Hm). rewrite foldl_app. cbn [foldl fst snd].
      pose proof (get_or_fetch_ok _ k env Hok ltac:(lia) He) as Hg. destruct (get_or_fetch _ k env) as [c1 r].
      destruct Hg as (? & ? & ? & _). cbn [fst]. split_and!; [done|done|congruence]. }
  split; [done|]. split; [lia|]. intros key d Huk Hd. by destruct (cached_object c key d Hok Huk Hd).
Qed.

(** Two queries that miss on the same object at once: the second rewrites the
    file in place while the first reads it, and until it is done a third query
    is handed the half-written file as a hit. *)
Theorem concurrent_misses_tear c key env c1 path now :
  cache_ok c → index_size (index c) ≤ max_size_bytes c ≤ 2 ^ 63 → fetch_env_ok key env →
  get_or_fetch c key env = (c1, Ok path) → cache_lookup c1 key now = Some path →
  cached_files (write_begin c1 key) !! path = Some Torn ∧ cache_lookup (write_begin c1 key) key now = Some path.
Proof.
  intros Hok Hs Henv Hg Hl. pose proof (get_or_fetch_ok c key env Hok Hs Henv) as Ha. rewrite Hg in Ha.
  destruct Ha as (Hok1 & _ & _ & _ & Hp). destruct (Hp path eq_refl) as [-> _].
  split; [cbn; by rewrite lookup_insert_eq|]. unfold cache_lookup in *. cbn [write_begin index with_files cached_files].
  destruct (index c1 !! key) as [e|]; [|done]. change (fresh (write_begin c1 key) e now) with (fresh c1 e now).
  destruct (fresh c1 e now); [|done]. cbn [andb] in *. case_bool_decide; [|done]. injection Hl as Hl. rewrite Hl.
  rewrite bool_decide_eq_true_2; [done|]. by rewrite lookup_insert_eq.
Qed.
End DiskCache.

(** ** Witnesses *)

Section Witnesses.
Definition ten_bytes (d : FileData Z) : Z := match d with Whole _ => 10 | Torn => 0 end.
Lemma ten_bytes_range d : 0 ≤ ten_bytes d < 2 ^ 63.
Proof. destruct d; cbn; lia. Qed.

Definition three_objects : gmap string (FileData Z) := {[ "w/a" := Whole [1]; "w/b" := Whole [2]; "v/c" := Whole [3] ]}.
Definition three_keys (k : string) : Prop := k ∈ ["w/a"; "w/b"; "v/c"].
Lemma three_keys_inj k1 k2 : three_keys k1 → three_keys k2 → cache_file_name k1 = cache_file_name k2 → k1 = k2.
Proof.
  unfold three_keys. rewrite !elem_of_cons. intros [->|[->|[->|[]%elem_of_nil]]] [->|[->|[->|[]%elem_of_nil]]] Heq;
    try reflexivity; vm_compute in Heq; discriminate.
Qed.

Definition sample_fetch (key : string) (now : Z) : string * FetchEnv (R := Z) :=
  (key, mkFetchEnv now now true (three_objects !! key) true now now (λ l, l)).

Lemma sample_fetch_ok key now t0 te : three_keys key → t0 ≤ now ≤ te →
  fetch_env_ok three_objects three_keys (sample_fetch key now).1 (sample_fetch key now).2 ∧
  env_during (R := Z) t0 te (sample_fetch key now).2.
Proof. intros Hk Hn. split; [split; [done|]; split; [by right|]; split; [done|]; by intros l|]. by split_and!. Qed.

#[local] Instance three_keys_dec k : Decision (three_keys k).
Proof. unfold three_keys. apply _. Defined.

Lemma sample_fetches_ok (l : list (string * Z)) t0 te : bool_decide (Forall (λ kn, three_keys kn.1 ∧ t0 ≤ kn.2 ∧ kn.2 ≤ te) l) = true →
  Forall (λ kv, fetch_env_ok three_objects three_keys kv.1 kv.2 ∧ env_during (R := Z) t0 te kv.2) (map (λ kn, sample_fetch kn.1 kn.2) l).
Proof.
  intros Hl%bool_decide_eq_true. change (map ?f l) with (f <$> l). rewrite Forall_fmap. eapply Forall_impl; [exact Hl|].
  intros [k n] (Hk & ? & ?). by apply sample_fetch_ok.
Qed.

(** The cache of one old file. *)
Definition old_cache : DiskCache := (get_or_fetch ten_bytes (disk_cache_new 20 1000) "v/c" (sample_fetch "v/c" 5).2).1.

Lemma old_cache_ok : cache_ok ten_bytes three_objects three_keys old_cache ∧ index_size (index old_cache) = 10.
Proof.
  pose proof (get_or_fetch_ok ten_bytes three_objects three_keys three_keys_inj ten_bytes_range (disk_cache_new 20 1000) "v/c"
    (sample_fetch "v/c" 5).2) as Hg. unfold old_cache. destruct (get_or_fetch ten_bytes _ _ _) as [c r] eqn:Hc. cbn [fst].
  destruct Hg as (Hok & _).
  - split; [intros k e; cbn; by rewrite lookup_empty|]. intros name [d Hd]. cbn in Hd. by rewrite lookup_empty in Hd.
  - vm_compute. split; discriminate.
  - apply (sample_fetch_ok "v/c" 5 0 10); [apply (bool_decide_unpack _); vm_compute; exact I|lia].
  - split; [exact Hok|]. vm_compute in Hc. injection Hc as <- <-. vm_compute. reflexivity.
Defined.

Definition two_fetches : list (string * FetchEnv (R := Z)) := map (λ kn, sample_fetch kn.1 kn.2) [("w/a", 11); ("w/b", 12)].
Definition three_fetches : list (string * FetchEnv (R := Z)) := map (λ kn, sample_fetch kn.1 kn.2) [("w/a", 11); ("w/b", 12); ("v/c", 13)].

Lemma two_fetches_ok : Forall (λ kv, fetch_env_ok three_objects three_keys kv.1 kv.2 ∧ env_during (R := Z) 10 20 kv.2) two_fetches.
Proof. apply sample_fetches_ok. vm_compute. reflexivity. Qed.
Lemma three_fetches_ok : Forall (λ kv, fetch_env_ok (R := Z) three_objects three_keys kv.1 kv.2) three_fetches.
Proof.
  eapply Forall_impl; [apply (sample_fetches_ok _ 0 20); vm_compute; reflexivity|]. by intros ? [? _].
Qed.

Lemma query_within_budget_keeps_files_witness :
  cached_files (fetch_all ten_bytes old_cache two_fetches).1 !! "w_a" = Some (Whole [1]) ∧
  cached_files (fetch_all ten_bytes old_cache two_fetches).1 !! "v_c" = None.
Proof.
  destruct old_cache_ok as [Hok Hs].
  pose proof (query_within_budget_keeps_files ten_bytes three_objects three_keys three_keys_inj ten_bytes_range old_cache
    two_fetches 10 20 (fetch_all ten_bytes old_cache two_fetches).1 ["w_a"; "w_b"] Hok) as Hq.
  split; [|vm_compute; reflexivity]. assert (Forall2 (λ key path, ∃ d, three_objects !! key = Some d ∧
    cached_files (fetch_all ten_bytes old_cache two_fetches).1 !! path = Some d) ["w/a"; "w/b"] ["w_a"; "w_b"]) as Hall.
  { apply Hq.
    - rewrite Hs. vm_compute. split; discriminate.
    - vm_compute. discriminate.
    - vm_compute. split; [discriminate|reflexivity].
    - intros k e Hk. assert (index old_cache = {[ "v/c" := mkCacheEntry "v_c" 10 5 5 ]}) as Hi by (vm_compute; reflexivity).
      rewrite Hi, lookup_singleton_Some in Hk. destruct Hk as [<- <-]. split; [cbn; lia|]. intros _. vm_compute. reflexivity.
    - exact two_fetches_ok.
    - vm_compute. reflexivity. }
  apply Forall2_cons in Hall as [(d & Hd & Hf) _]. rewrite Hf. rewrite <-Hd. vm_compute. reflexivity.
Defined.

Lemma query_over_budget_dangles_witness :
  Exists (λ path, cached_files (fetch_all ten_bytes old_cache three_fetches).1 !! path = None) ["w_a"; "w_b"; "v_c"].
Proof.
  destruct old_cache_ok as [Hok Hs].
  apply (query_over_budget_dangles ten_bytes three_objects three_keys three_keys_inj ten_bytes_range old_cache three_fetches
    (fetch_all ten_bytes old_cache three_fetches).1 ["w_a"; "w_b"; "v_c"] Hok).
  - rewrite Hs. vm_compute. split; discriminate.
  - exact three_fetches_ok.
  - apply (bool_decide_unpack _). vm_compute. exact I.
  - vm_compute. reflexivity.
  - vm_compute. reflexivity.
Defined.

Lemma disk_cache_within_budget_witness :
  index_size (index (foldl (λ c kv, (get_or_fetch ten_bytes c kv.1 kv.2).1) (disk_cache_new 20 1000) three_fetches)) ≤ 20.
Proof.
  apply (disk_cache_within_budget ten_bytes three_objects three_keys three_keys_inj ten_bytes_range 20 1000 three_fetches).
  - lia.
  - exact three_fetches_ok.
Defined.

Lemma concurrent_misses_tear_witness :
  cached_files (write_begin (get_or_fetch ten_bytes old_cache "w/a" (sample_fetch "w/a" 11).2).1 "w/a") !! "w_a" = Some Torn.
Proof.
  destruct old_cache_ok as [Hok Hs].
  apply (concurrent_misses_tear ten_bytes three_objects three_keys three_keys_inj ten_bytes_range old_cache "w/a"
    (sample_fetch "w/a" 11).2 (get_or_fetch ten_bytes old_cache "w/a" (sample_fetch "w/a" 11).2).1 "w_a" 12 Hok).
  - rewrite Hs. vm_compute. split; discriminate.
  - apply (sample_fetch_ok "w/a" 11 0 20); [apply (bool_decide_unpack _); vm_compute; exact I|lia].
  - vm_compute. reflexivity.
  - vm_compute. reflexivity.
Defined.
End Witnesses.
