(* ===== verification/Reader.v ===== *)
(** The query path over Parquet files: [zradar-parquet/src/reader.rs].

    A query lists the files that match its filter, leases them, resolves each
    to a local path and hands the paths to DataFusion, which runs the SQL over
    their rows. Other threads run between the steps: each step first takes
    whatever they did to the store, the leases and the caches. *)

From stdpp Require Import base gmap sorting list strings.
From S2P Require Import Prelude FileList WriteBuffer TelemetryWriter ParquetWriter Compactor Lease PgUsage PgUsageWorker StorageUsage Reclaimer.
From S2P Require Import Paths FileMover MemoryCache DiskCache.

(** DataFusion, over the files behind the paths it is given: when all of them
    are there, the SQL sees their rows; a missing one is the engine's error. *)
Class DataFusion (R A E : Type) := {
  run_sql : list R → outcome E A;
  missing_file : E;
}.

Section Reader.
Context {R A E C : Type} `{engine : DataFusion R A E} `{LruCache C (FileData R)}.

(** The bytes of a file, the hash of a cache key, and [canonicalize] on a path
    that exists. *)
Context (byte_size : FileData R → Z) (hash : string → Z) (canonicalize : string → string) (cache_dir : string).

(** What the readers share: the data directory with the tables, and what
    [ParquetFileReader] was given. *)
Record World := mkWorld {
  wd_store : Store R;
  wd_leases : option FileLeaseRegistry;
  wd_disk_cache : option (DiskCache (R := R));
  wd_memory_cache : option (MemoryCache (C := C));
}.

Definition with_leases (w : World) (l : option FileLeaseRegistry) : World :=
  mkWorld (wd_store w) l (wd_disk_cache w) (wd_memory_cache w).
Definition with_disk_cache (w : World) (c : option DiskCache) : World :=
  mkWorld (wd_store w) (wd_leases w) c (wd_memory_cache w).
Definition with_memory_cache (w : World) (m : option MemoryCache) : World :=
  mkWorld (wd_store w) (wd_leases w) (wd_disk_cache w) m.

Inductive QueryError :=
| ListFilesFailed
| FetchFailed (e : FetchError)
| NoDiskCache
| ResolvePathFailed
| ReadForCacheFailed
| EngineFailed (e : E).

(** A path on the local disk: a file of the data directory or of the cache. *)
Inductive LocalFile := DataFile (path : string) | CachedFile (name : string).

Definition file_at (w : World) (f : LocalFile) : option (FileData R) :=
  match f with
  | DataFile p => disk (wd_store w) !! p
  | CachedFile n => match wd_disk_cache w with Some c => cached_files c !! n | None => None end
  end.

Definition is_relative (path : string) : bool := match strip_prefix "./" path with Some _ => true | None => false end.

(** The path as text, the memory cache's key. *)
Definition path_text (f : LocalFile) : string :=
  match f with
  | DataFile p => if is_relative p then canonicalize p else p
  | CachedFile n => cache_dir +:+ "/" +:+ n
  end.

Definition populate_memory_cache (w : World) (f : LocalFile) : World * outcome QueryError unit :=
  match wd_memory_cache w with
  | None => (w, Ok ())
  | Some m =>
      match memory_get hash m (path_text f) with
      | (m, Some _) => (with_memory_cache w (Some m), Ok ())
      | (m, None) =>
          match file_at w f with
          | None => (with_memory_cache w (Some m), Err ReadForCacheFailed)
          | Some data => (with_memory_cache w (Some (memory_insert byte_size hash m (path_text f) data)), Ok ())
          end
      end
  end.

(** One round of the loop; [None] is a file that is skipped. *)
Definition resolve_file (w : World) (file : FileListEntry) (env : FetchEnv (R := R)) :
    World * outcome QueryError (option LocalFile) :=
  let '(w, located) :=
    if decide (fe_location file = "s3") then
      match wd_disk_cache w with
      | None => (w, Err NoDiskCache)
      | Some c =>
          let '(c, r) := get_or_fetch byte_size c (extract_s3_key (fe_file_path file)) env in
          (with_disk_cache w (Some c), match r with Ok p => Ok (CachedFile p) | Err e => Err (FetchFailed e) | Panic => Panic end)
      end
    else if is_relative (fe_file_path file) && bool_decide (disk (wd_store w) !! fe_file_path file = None)
    then (w, Err ResolvePathFailed)
    else (w, Ok (DataFile (fe_file_path file))) in
  match located with
  | Ok f =>
      if negb (bool_decide (fe_location file = "s3")) && bool_decide (file_at w f = None) then (w, Ok None)
      else
        let '(w, r) := populate_memory_cache w f in
        (w, _ ← r; mret (Some f))
  | Err e => (w, Err e)
  | Panic => (w, Panic)
  end.

(** What the other threads do before a step. *)
Abbreviation Others := (World → World).

Fixpoint resolve_files (w : World) (files : list FileListEntry) (envs : nat → Others * FetchEnv (R := R)) (n : nat) :
    World * outcome QueryError (list LocalFile) :=
  match files with
  | [] => (w, Ok [])
  | file :: files =>
      match resolve_file ((envs n).1 w) file (envs n).2 with
      | (w, Ok o) =>
          let '(w, r) := resolve_files w files envs (S n) in
          (w, paths ← r; mret (match o with Some f => f :: paths | None => paths end))
      | (w, Err e) => (w, Err e)
      | (w, Panic) => (w, Panic)
      end
  end.

(** The scan of the registered paths. *)
Definition scan (w : World) (paths : list LocalFile) : outcome QueryError A :=
  match mapM (file_at w) paths with
  | None => Err (EngineFailed missing_file)
  | Some files =>
      map_err EngineFailed (run_sql (concat (map (λ f, match f with Whole rows => rows | Torn => [] end) files)))
  end.

(** [query_parquet_as]: the answer, [None] for no file, and the world after
    it; [list_ok] is whether the listing succeeds, [before_lease] and [before_scan] run before the leases are taken and
    before DataFusion opens the files. *)
Definition query_parquet_as (w : World) (filter : FileListFilter) (list_ok : bool) (before_lease : Others)
    (envs : nat → Others * FetchEnv (R := R)) (before_scan : Others) : World * outcome QueryError (option A) :=
  if negb list_ok then (w, Err ListFilesFailed) else
  let files := query_files (st_db (wd_store w)) filter in
  if match files with [] => true | _ => false end then (w, Ok None) else
  let ids := map fe_id files in
  let w := before_lease w in
  let w := with_leases w ((λ reg, (acquire reg ids).1) <$> wd_leases w) in
  let '(w, resolved) := resolve_files w files envs 0 in
  let '(w, answer) :=
    match resolved with
    | Ok [] => (w, Ok None)
    | Ok paths => let w := before_scan w in (w, Some <$> scan w paths)
    | Err e => (w, Err e)
    | Panic => (w, Panic)
    end in
  (with_leases w ((λ reg, foldl release_lease reg ids) <$> wd_leases w), answer).

(** ** Specification *)

(** The rows behind the entries of a listing, as the store has them. *)
Definition listed_rows (st : Store R) (e : FileListEntry) : list R :=
  match entry_data st e with Some (Whole rows) => rows | _ => [] end.

Definition is_s3 (e : FileListEntry) : bool := bool_decide (fe_location e = "s3").

Definition s3_keys (files : list FileListEntry) : list string :=
  map (λ e, extract_s3_key (fe_file_path e)) (filter (λ e, fe_location e = "s3") files).

(** A local file that is not there, by a relative path. *)
Definition unresolvable (st : Store R) (e : FileListEntry) : bool :=
  negb (is_s3 e) && is_relative (fe_file_path e) && bool_decide (disk st !! fe_file_path e = None).

Context (used_key : string → Prop).
Context (used_key_inj : ∀ k1 k2, used_key k1 → used_key k2 → cache_file_name k1 = cache_file_name k2 → k1 = k2).
Context (byte_size_range : ∀ d, 0 ≤ byte_size d < 2 ^ 63).

(** The caches of a query over [files] between [t0] and [te]: the disk cache,
    if there are remote files, is in order and holds the query's files
    together; every remote object is there and every fetch works. *)
Definition cache_ready (st : Store R) (t0 te : Z) (files : list FileListEntry) (fetched : list string) (c : option DiskCache) : Prop :=
  match c with
  | Some c => query_inv byte_size (objects st) used_key (s3_keys files) t0 te fetched c
  | None => Forall (λ e, fe_location e ≠ "s3") files
  end.

Definition fetches_ok (st : Store R) (t0 te : Z) (files : list FileListEntry) (envs : nat → Others * FetchEnv (R := R)) (n : nat) : Prop :=
  (∀ i w, (envs i).1 w = w) ∧
  ∀ i e, files !! i = Some e → fe_location e = "s3" →
    fetch_env_ok (objects st) used_key (extract_s3_key (fe_file_path e)) (envs (n + i)%nat).2 ∧
    env_during t0 te (envs (n + i)%nat).2 ∧ fv_dir_ok (envs (n + i)%nat).2 = true ∧ is_Some (fv_download (envs (n + i)%nat).2).

Definition filter_out (e : FileListEntry) (files : list FileListEntry) : list FileListEntry := filter (λ x, x ≠ e) files.

(** ** Lemmas *)

Definition target (st : Store R) (e : FileListEntry) : option LocalFile :=
  if decide (fe_location e = "s3") then Some (CachedFile (cache_file_name (extract_s3_key (fe_file_path e))))
  else match disk st !! fe_file_path e with Some _ => Some (DataFile (fe_file_path e)) | None => None end.

Lemma populate_ok w f : is_Some (file_at w f) →
  ∃ m, populate_memory_cache w f = (with_memory_cache w m, Ok ()).
Proof.
  intros [d Hd]. unfold populate_memory_cache. destruct w as [st l c [m|]]; cbn [wd_memory_cache]; [|by exists None].
  destruct (memory_get hash m _) as [m' [v|]]; [by eexists|]. rewrite Hd. by eexists.
Qed.

(** One file, with the other threads quiet. *)
Lemma resolve_file_ok (w : World) t0 te all fetched e env :
  cache_ready (wd_store w) t0 te all fetched (wd_disk_cache w) → e ∈ all →
  (fe_location e = "s3" → fetch_env_ok (objects (wd_store w)) used_key (extract_s3_key (fe_file_path e)) env ∧
     env_during t0 te env ∧ fv_dir_ok env = true ∧ is_Some (fv_download env)) →
  ∃ w', wd_store w' = wd_store w ∧
    (if unresolvable (wd_store w) e
     then resolve_file w e env = (w', Err ResolvePathFailed)
     else resolve_file w e env = (w', Ok (target (wd_store w) e)) ∧
       ∃ fetched', cache_ready (wd_store w) t0 te all fetched' (wd_disk_cache w') ∧ fetched ⊆ fetched' ∧
         (fe_location e = "s3" → extract_s3_key (fe_file_path e) ∈ fetched')).
Proof.
  intros Hready Hin Henv. destruct w as [st l c m]. cbn [wd_store wd_disk_cache] in *. unfold resolve_file, target, unresolvable, is_s3.
  cbn [wd_disk_cache wd_store]. destruct (decide (fe_location e = "s3")) as [Hs|Hs].
  - set (key := extract_s3_key (fe_file_path e)) in *. destruct (Henv Hs) as (Hfe & Hdur & Hdir & Hdl).
    destruct c as [c|]; [|cbn in Hready; rewrite Forall_forall in Hready; by destruct (Hready e Hin)].
    cbn [cache_ready] in Hready. pose proof Hready as ((Hok & Hsz & _) & _).
    destruct (get_or_fetch_succeeds byte_size (objects st) used_key used_key_inj byte_size_range c key env Hok Hsz Hfe Hdir Hdl) as [c' Hg].
    assert (key ∈ s3_keys all) as Hk.
    { apply list_elem_of_fmap. exists e. split; [done|]. by apply list_elem_of_filter. }
    assert (query_inv byte_size (objects st) used_key (s3_keys all) t0 te (key :: fetched) c') as Hinv
      by by eapply query_inv_step.
    destruct (query_inv_file _ _ _ _ _ _ _ c' key Hinv ltac:(by left)) as (d & _ & Hf).
    rewrite Hg. cbn [fst snd]. rewrite (bool_decide_eq_true_2 (fe_location e = "s3")) by done. cbn [negb andb].
    set (w1 := with_disk_cache _ _).
    destruct (populate_ok w1 (CachedFile (cache_file_name key))) as [m' ->]; [cbn; by rewrite Hf|].
    eexists. split; [|split; [ostep; reflexivity|]]; [done|].
    exists (key :: fetched). cbn. split; [exact Hinv|]. split; [set_solver|]. intros _. by left.
  - rewrite (bool_decide_eq_false_2 (fe_location e = "s3")) by done. cbn [negb andb].
    destruct (disk st !! fe_file_path e) as [d|] eqn:Hd.
    + rewrite (bool_decide_eq_false_2 (Some d = None)), andb_false_r by done. cbn [file_at wd_store].
      rewrite Hd, (bool_decide_eq_false_2 (Some d = None)) by done.
      destruct (populate_ok (mkWorld st l c m) (DataFile (fe_file_path e))) as [m' ->]; [cbn; by rewrite Hd|].
      eexists. split; [|split; [ostep; reflexivity|]]; [done|].
      exists fetched. cbn. done.
    + rewrite (bool_decide_eq_true_2 (None = None)) by done. rewrite andb_true_r. destruct (is_relative (fe_file_path e)).
      * eexists. split; [|reflexivity]. done.
      * cbn [file_at wd_store]. rewrite Hd, bool_decide_eq_true_2 by done. exists (mkWorld st l c m). split; [done|].
        split; [done|]. by exists fetched.
Qed.


(** All the files, in order. *)
Lemma resolve_files_ok (st : Store R) t0 te all envs files : ∀ n (w : World) fetched, wd_store w = st →
  cache_ready st t0 te all fetched (wd_disk_cache w) → files ⊆ all → fetches_ok st t0 te files envs n →
  ∃ w', wd_store w' = st ∧
    (if existsb (unresolvable st) files
     then resolve_files w files envs n = (w', Err ResolvePathFailed)
     else resolve_files w files envs n = (w', Ok (omap (target st) files)) ∧
       ∃ fetched', cache_ready st t0 te all fetched' (wd_disk_cache w') ∧ fetched ⊆ fetched' ∧ s3_keys files ⊆ fetched').
Proof.
  induction files as [|e files IH]; intros n w fetched Hst Hready Hsub [Hquiet Henv].
  { exists w. split; [done|]. split; [done|]. exists fetched. split; [done|]. split; [done|]. by intros k Hk%not_elem_of_nil. }
  cbn [resolve_files existsb]. rewrite Hquiet.
  destruct (resolve_file_ok w t0 te all fetched e (envs n).2) as (w1 & Hst1 & Hr); [by rewrite Hst|apply Hsub; by left| |].
  { intros Hs. rewrite Hst. rewrite <-(Nat.add_0_r n). by apply (Henv 0%nat e). }
  rewrite Hst in *. destruct (unresolvable st e); cbn [orb].
  { rewrite Hr. exists w1. split; [done|]. done. }
  destruct Hr as (-> & fetched1 & Hready1 & Hsub1 & Hk).
  destruct (IH (S n) w1 fetched1 Hst1 Hready1 ltac:(set_solver)) as (w2 & Hst2 & Hrest).
  { split; [done|]. intros i e' Hi. replace (S n + i)%nat with (n + S i)%nat by lia. by apply Henv. }
  exists w2. split; [done|]. destruct (existsb _ files).
  - by rewrite Hrest.
  - destruct Hrest as (-> & fetched2 & Hready2 & Hsub2 & Hkeys). split.
    + ostep. change (omap (target st) (e :: files)) with
        (match target st e with Some f => f :: omap (target st) files | None => omap (target st) files end). done.
    + exists fetched2. split; [done|]. split; [set_solver|]. unfold s3_keys. rewrite filter_cons. case_decide; [|done].
      cbn [map]. intros k [->|?]%elem_of_cons; [|by apply Hkeys]. apply Hsub2. by apply Hk.
Qed.

(** The scan of the resolved paths sees the rows of their entries. *)
Lemma scan_targets (st : Store R) (w : World) t0 te all fetched files : wd_store w = st →
  cache_ready st t0 te all fetched (wd_disk_cache w) → s3_keys files ⊆ fetched → files ⊆ all →
  scan w (omap (target st) files) = map_err EngineFailed (run_sql (concat (map (listed_rows st) files))).
Proof.
  intros Hst Hready Hkeys Hall. unfold scan.
  assert (∃ datas, mapM (file_at w) (omap (target st) files) = Some datas ∧
    concat (map (λ f, match f with Whole rows => rows | Torn => [] end) datas) = concat (map (listed_rows st) files)) as (datas & -> & ->);
    [|done].
  induction files as [|e files IH]; [by exists []|].
  destruct IH as (datas & Hm & Hc).
  { intros k Hk. apply Hkeys. unfold s3_keys in *. rewrite filter_cons. case_decide; [|done]. by right. }
  { set_solver. }
  assert ((target st e = None ∧ listed_rows st e = []) ∨ ∃ f d, target st e = Some f ∧ file_at w f = Some d ∧
    listed_rows st e = match d with Whole rows => rows | Torn => [] end) as He.
  { unfold target, listed_rows, entry_data. destruct (decide (fe_location e = "s3")) as [Hs|Hs].
    - right. destruct w as [? ? c ?]. cbn [wd_store wd_disk_cache file_at] in *. subst. destruct c as [c|].
      + destruct (query_inv_file _ _ _ _ _ _ _ c (extract_s3_key (fe_file_path e)) Hready) as (d & Hd & Hf).
        { apply Hkeys. unfold s3_keys. rewrite filter_cons, decide_True by done. by left. }
        eexists _, d. split; [done|]. split; [done|]. by rewrite Hd.
      + cbn in Hready. rewrite Forall_forall in Hready. destruct (Hready e); [|done]. apply Hall. by left.
    - destruct (disk st !! fe_file_path e) as [d|] eqn:Hd; [right|by left]. eexists _, d. split; [done|]. cbn. by rewrite Hst. }
  change (omap (target st) (e :: files)) with
    (match target st e with Some f => f :: omap (target st) files | None => omap (target st) files end).
  cbn [map concat]. destruct He as [[-> ->]|(f & d & -> & Hf & ->)]; [by exists datas|].
  exists (d :: datas). split; [by apply mapM_Some_2, Forall2_cons, conj, mapM_Some_1|]. cbn [map concat]. by rewrite Hc.
Qed.

(** Interference before the first file only, then quiet. *)
Definition quieted (envs : nat → Others * FetchEnv (R := R)) (i : nat) : Others * FetchEnv (R := R) := (λ w, w, (envs i).2).

Lemma resolve_files_quieted files envs : ∀ n (w : World), (∀ i w, (n ≤ i)%nat → (envs i).1 w = w) →
  resolve_files w files envs n = resolve_files w files (quieted envs) n.
Proof.
  induction files as [|e files IH]; intros n w Hq; [done|]. cbn [resolve_files quieted fst snd]. rewrite Hq by lia.
  destruct (resolve_file w e (envs n).2) as [w1 [o|e'|]]; [|done..]. rewrite IH; [done|]. intros i w' ?. apply Hq. lia.
Qed.

Lemma resolve_files_late files envs (w : World) : files ≠ [] → (∀ i w, (0 < i)%nat → (envs i).1 w = w) →
  resolve_files w files envs 0 = resolve_files ((envs 0%nat).1 w) files (quieted envs) 0.
Proof.
  destruct files as [|e files]; [done|]. intros _ Hq. cbn [resolve_files quieted fst snd].
  destruct (resolve_file _ e _) as [w1 [o|e'|]]; [|done..]. rewrite resolve_files_quieted; [done|]. intros i w' ?. apply Hq. lia.
Qed.

(** A query in which the others are quiet except before the first file. *)
Lemma query_answer (w : World) filter envs t0 te fetched :
  let files := query_files (st_db (wd_store w)) filter in
  let w1 := (envs 0%nat).1 (with_leases w ((λ reg, (acquire reg (map fe_id files)).1) <$> wd_leases w)) in
  files ≠ [] → (∀ i w, (0 < i)%nat → (envs i).1 w = w) →
  cache_ready (wd_store w1) t0 te files fetched (wd_disk_cache w1) → fetches_ok (wd_store w1) t0 te files (quieted envs) 0 →
  ∃ w', wd_store w' = wd_store w1 ∧
    (existsb (unresolvable (wd_store w1)) files = false → ∃ fetched', cache_ready (wd_store w1) t0 te files fetched' (wd_disk_cache w')) ∧
    query_parquet_as w filter true (λ w, w) envs (λ w, w) =
    (w', if existsb (unresolvable (wd_store w1)) files then Err ResolvePathFailed
         else match omap (target (wd_store w1)) files with
              | [] => Ok None
              | _ => Some <$> map_err EngineFailed (run_sql (concat (map (listed_rows (wd_store w1)) files)))
              end).
Proof.
  intros files w1 Hne Hq Hready Hfetch. unfold query_parquet_as. cbn [negb]. fold files.
  destruct (resolve_files_ok (wd_store w1) t0 te files (quieted envs) files 0 w1 fetched eq_refl Hready ltac:(done) Hfetch) as (w2 & Hst2 & Hr).
  assert (match files with [] => true | _ => false end = false) as -> by by destruct files.
  rewrite resolve_files_late by done. fold w1. destruct (existsb _ files).
  - rewrite Hr. eexists. split; [|split; [|reflexivity]]; done.
  - destruct Hr as (-> & fetched2 & Hready2 & _ & Hkeys).
    pose proof (scan_targets (wd_store w1) w2 t0 te files fetched2 files Hst2 Hready2 Hkeys ltac:(done)) as Hscan.
    destruct (omap (target (wd_store w1)) files) as [|p ps]; [|rewrite Hscan]; (eexists; split; [|split; [|reflexivity]]); try done;
      intros _; by exists fetched2.
Qed.

Lemma live_file (st : Store R) filter e : store_ok st → ff_deleted filter = Some false → e ∈ query_files (st_db st) filter →
  fe_deleted e = false ∧ e ∈ rows_list (st_db st) ∧ ∃ rows, entry_data st e = Some (Whole rows).
Proof.
  intros [_ Hok] Hlive (Hm & id & He)%elem_of_query_files. assert (fe_deleted e = false) as Hd.
  { unfold matches in Hm. rewrite Hlive in Hm. apply andb_true_iff in Hm as [_ Hd]. by apply bool_decide_eq_true in Hd. }
  split; [done|]. split; [apply elem_of_rows_list; by exists id|]. by apply (Hok id e He).
Qed.

Lemma omap_cons_target (st : Store R) e files : omap (target st) (e :: files) =
  match target st e with Some f => f :: omap (target st) files | None => omap (target st) files end.
Proof. done. Qed.

(** Entries with their data in place resolve and keep their rows. *)
Lemma in_place (st st1 : Store R) e : fe_deleted e = false → entry_data st1 e = entry_data st e →
  (∃ rows, entry_data st e = Some (Whole rows)) →
  unresolvable st1 e = false ∧ is_Some (target st1 e) ∧ listed_rows st1 e = entry_rows st e.
Proof.
  intros Hl Heq [rows Hd]. unfold listed_rows, entry_rows. rewrite Hl, Heq, Hd. rewrite Hd in Heq.
  unfold entry_data, unresolvable, is_s3, target in *. case_decide as Hs.
  - by rewrite bool_decide_eq_true_2.
  - rewrite Heq. rewrite (bool_decide_eq_false_2 (Some _ = None)), andb_false_r by done. by split_and!.
Qed.

(** A query with all the others quiet: the answer, and a cache the next query
    over the same files can use. *)
Lemma quiet_query (w : World) filter envs t0 te fetched :
  let files := query_files (st_db (wd_store w)) filter in
  store_ok (wd_store w) → ff_deleted filter = Some false →
  cache_ready (wd_store w) t0 te files fetched (wd_disk_cache w) → fetches_ok (wd_store w) t0 te files envs 0 →
  ∃ w' fetched', wd_store w' = wd_store w ∧ cache_ready (wd_store w) t0 te files fetched' (wd_disk_cache w') ∧
    query_parquet_as w filter true (λ w, w) envs (λ w, w) =
    (w', match files with
         | [] => Ok None
         | _ => Some <$> map_err EngineFailed (run_sql (concat (map (entry_rows (wd_store w)) files)))
         end).
Proof.
  intros files Hst Hlive Hready Hfetch. destruct (decide (files = [])) as [Hnil|Hne].
  { exists w, fetched. split; [done|]. split; [done|]. unfold query_parquet_as. cbn [negb]. fold files. by rewrite Hnil. }
  assert (∀ e, e ∈ files → unresolvable (wd_store w) e = false ∧ is_Some (target (wd_store w) e) ∧
    listed_rows (wd_store w) e = entry_rows (wd_store w) e) as Hfile.
  { intros e He. destruct (live_file (wd_store w) filter e Hst Hlive He) as (? & _ & ?). by apply in_place. }
  destruct (query_answer w filter envs t0 te fetched Hne) as (w' & Hst' & Hready' & Hq).
  { intros i v _. apply Hfetch. }
  { by rewrite (proj1 Hfetch). }
  { rewrite (proj1 Hfetch). split; [done|]. apply Hfetch. }
  rewrite (proj1 Hfetch) in Hst', Hready', Hq. cbn [wd_store with_leases] in *. fold files in Hq, Hready'.
  assert (existsb (unresolvable (wd_store w)) files = false) as Hnone.
  { apply not_true_iff_false. intros (e & Hin & Hu)%existsb_exists. apply list_elem_of_In in Hin.
    destruct (Hfile e Hin) as [? _]. congruence. }
  destruct (Hready' Hnone) as [fetched' Hf']. exists w', fetched'. split; [done|]. split; [done|]. rewrite Hq, Hnone. f_equal.
  assert (map (listed_rows (wd_store w)) files = map (entry_rows (wd_store w)) files) as ->.
  { apply map_ext_in. intros e Hin%list_elem_of_In. by apply Hfile. }
  destruct files as [|e files0]; [done|]. rewrite omap_cons_target.
  destruct (Hfile e ltac:(by left)) as (_ & [f ->] & _). done.
Qed.

(** ** Theorems *)

(** C6: A query among quiet neighbours answers from exactly the matching files: its
    SQL runs over the rows of the live entries that match the filter, in the
    order of the listing, whichever are local and whichever in the bucket, and
    whatever the caches hold and evict, as long as the query's remote files fit
    the disk cache together. *)
Theorem query_reads_matching_rows (w : World) filter envs t0 te :
  let files := query_files (st_db (wd_store w)) filter in
  store_ok (wd_store w) → ff_deleted filter = Some false →
  cache_ready (wd_store w) t0 te files [] (wd_disk_cache w) → fetches_ok (wd_store w) t0 te files envs 0 →
  ∃ w', wd_store w' = wd_store w ∧ query_parquet_as w filter true (λ w, w) envs (λ w, w) =
    (w', match files with
         | [] => Ok None
         | _ => Some <$> map_err EngineFailed (run_sql (concat (map (entry_rows (wd_store w)) files)))
         end).
Proof.
  intros files Hst Hlive Hready Hfetch. destruct (quiet_query w filter envs t0 te [] Hst Hlive Hready Hfetch) as (w' & _ & Hw & _ & Hq).
  by exists w'.
Qed.

(** A lease does not hold a move that has already begun. When the delayed
    removal of a listed local file fires after the query took its leases, the
    query fails if the data directory is a relative path, the default, and
    otherwise answers without the rows of that file, with nothing said, though
    they are in the bucket all along. *)
Theorem moved_file_escapes_lease (w : World) filter envs t0 te e :
  let files := query_files (st_db (wd_store w)) filter in
  let w1 := (envs 0%nat).1 (with_leases w ((λ reg, (acquire reg (map fe_id files)).1) <$> wd_leases w)) in
  store_ok (wd_store w) → places_distinct (st_db (wd_store w)) → ff_deleted filter = Some false →
  e ∈ files → fe_location e ≠ "s3" →
  disk (wd_store w1) = delete (fe_file_path e) (disk (wd_store w)) → objects (wd_store w) ⊆ objects (wd_store w1) →
  (∀ i w, (0 < i)%nat → (envs i).1 w = w) →
  cache_ready (wd_store w1) t0 te files [] (wd_disk_cache w1) → fetches_ok (wd_store w1) t0 te files (quieted envs) 0 →
  ∃ w', query_parquet_as w filter true (λ w, w) envs (λ w, w) =
    (w', if is_relative (fe_file_path e) then Err ResolvePathFailed
         else match filter_out e files with
              | [] => Ok None
              | rest => Some <$> map_err EngineFailed (run_sql (concat (map (entry_rows (wd_store w)) rest)))
              end).
Proof.
  intros files w1 Hst Hpl Hlive He Hloc Hdisk Hobj Hq Hready Hfetch.
  destruct (query_answer w filter envs t0 te []) as (w' & _ & _ & Hans); [|done..|].
  { fold files. destruct files; [by apply not_elem_of_nil in He|done]. }
  exists w'. rewrite Hans. f_equal. fold files w1.
  destruct (live_file (wd_store w) filter e Hst Hlive He) as (_ & Herow & _).
  assert (disk (wd_store w1) !! fe_file_path e = None) as Hgone by (rewrite Hdisk; by rewrite lookup_delete_eq).
  assert (∀ x, x ∈ files → x ≠ e → unresolvable (wd_store w1) x = false ∧ is_Some (target (wd_store w1) x) ∧
    listed_rows (wd_store w1) x = entry_rows (wd_store w) x) as Hother.
  { intros x Hx Hne. destruct (live_file (wd_store w) filter x Hst Hlive Hx) as (Hl & Hxrow & rows & Hd).
    apply in_place; [done| |by exists rows]. rewrite Hd. unfold entry_data in *. case_decide.
    - by eapply lookup_weaken.
    - rewrite Hdisk, lookup_delete_ne; [done|]. intros Heq. apply Hne, Hpl; [done..|].
      unfold place. by rewrite !decide_False, Heq by done. }
  assert (unresolvable (wd_store w1) e = is_relative (fe_file_path e) ∧ target (wd_store w1) e = None ∧
    listed_rows (wd_store w1) e = []) as (Hu & Ht & Hlr).
  { unfold unresolvable, target, listed_rows, entry_data, is_s3. rewrite !decide_False, Hgone by done.
    rewrite (bool_decide_eq_false_2 (fe_location e = "s3")), (bool_decide_eq_true_2 (None = None)), andb_true_r by done. done. }
  destruct (is_relative (fe_file_path e)) eqn:Hrel.
  { assert (existsb (unresolvable (wd_store w1)) files = true) as ->; [|done]. apply existsb_exists. exists e.
    split; [by apply list_elem_of_In|done]. }
  assert (existsb (unresolvable (wd_store w1)) files = false ∧
    concat (map (listed_rows (wd_store w1)) files) = concat (map (entry_rows (wd_store w)) (filter_out e files)) ∧
    (omap (target (wd_store w1)) files = [] ↔ filter_out e files = [])) as (-> & -> & Hnil).
  { clearbody w1. clearbody files. clear -Hother Hu Ht Hlr. induction files as [|x files IH]; [done|].
    destruct IH as (IH1 & IH2 & IH3); [intros y Hy; apply Hother; by right|].
    unfold filter_out in *. rewrite filter_cons, omap_cons_target. cbn [existsb map concat]. rewrite IH1, IH2.
    destruct (decide (x = e)) as [->|Hne].
    - rewrite decide_False by (by intros []). by rewrite Hu, Ht, Hlr.
    - rewrite decide_True by done. destruct (Hother x ltac:(by left) Hne) as (-> & [f ->] & ->). done. }
  destruct (omap (target (wd_store w1)) files), (filter_out e files); try done; destruct Hnil as [Hn1 Hn2].
  - by discriminate (Hn1 eq_refl).
  - by discriminate (Hn2 eq_refl).
Qed.
End Reader.

(** ** Witnesses *)

Section Witnesses.
Local Existing Instance list_lru.
Local Existing Instance chrono_concrete.
Local Existing Instance uuid_concrete.

(** An engine that returns the rows. *)
#[local] Instance all_rows : DataFusion Z (list Z) unit := {| run_sql := λ rows, Ok rows; missing_file := tt |}.

Definition zero_hash (_ : string) : Z := 0.
Definition same_path (p : string) : string := p.
Definition live_filter : FileListFilter := mkFileListFilter None None None None None None (Some false).

Definition moved_key : string := "data/files/+111/logs/default/0/u1.parquet".
Definition only_moved_key (k : string) : Prop := k = moved_key.
Lemma only_moved_key_inj k1 k2 : only_moved_key k1 → only_moved_key k2 → cache_file_name k1 = cache_file_name k2 → k1 = k2.
Proof. by intros -> ->. Qed.

(** The first file in the bucket, the second on disk, and empty caches. *)
Definition mixed_store : Store Z := two_pushed.1.1.
Definition mixed_world : World (R := Z) (C := list (string * FileData Z)) :=
  mkWorld mixed_store (Some leases_new) (Some (disk_cache_new 20 1000)) (Some (memory_cache_new 1000 2)).
Definition quiet_envs (n : nat) : (World (R := Z) (C := list (string * FileData Z)) → World (R := Z) (C := list (string * FileData Z))) * FetchEnv (R := Z) :=
  (λ w, w, mkFetchEnv 11 11 true (objects mixed_store !! moved_key) true 11 11 (λ l, l)).
Definition mixed_files : list FileListEntry := query_files (st_db mixed_store) live_filter.

Lemma mixed_store_ok : store_ok mixed_store.
Proof.
  destruct (push_cycle_moves "/data" "b" two_files [] 0 1000 (Some second_leased) push_ok_env two_pushed.1 two_pushed.2)
    as ((Hok & _) & _).
  - reflexivity.
  - exact two_files_mover_inv.
  - apply (bool_decide_unpack _). vm_compute. exact I.
  - apply Forall_forall. intros e He. apply pushableb_correct. revert e He. apply Forall_forall.
    apply (bool_decide_unpack _). vm_compute. exact I.
  - apply surjective_pairing.
  - exact Hok.
Qed.

Lemma mixed_cache_ready : cache_ready ten_bytes only_moved_key mixed_store 10 20 mixed_files [] (wd_disk_cache mixed_world).
Proof.
  split; [split; [|split; [|split]]|split; [|split]].
  - split; [intros k e; cbn; by rewrite lookup_empty|]. intros name [d Hd]. cbn in Hd. by rewrite lookup_empty in Hd.
  - vm_compute. split; discriminate.
  - vm_compute. discriminate.
  - vm_compute. reflexivity.
  - intros k e Hk. cbn in Hk. by rewrite lookup_empty in Hk.
  - intros k e Hk. cbn in Hk. by rewrite lookup_empty in Hk.
  - intros k Hk. by apply not_elem_of_nil in Hk.
Qed.

Lemma mixed_fetches_ok : fetches_ok only_moved_key mixed_store 10 20 mixed_files quiet_envs 0.
Proof.
  split; [done|]. intros i e Hi Hs.
  assert (∀ e, e ∈ mixed_files → fe_location e = "s3" → extract_s3_key (fe_file_path e) = moved_key) as Hk.
  { apply (proj1 (Forall_forall (λ e, fe_location e = "s3" → extract_s3_key (fe_file_path e) = moved_key) mixed_files)).
    apply (bool_decide_unpack _). vm_compute. exact I. }
  rewrite (Hk e (list_elem_of_lookup_2 _ _ _ Hi) Hs). split; [|split; [|split]].
  - split; [done|]. split; [by right|]. split; [done|]. intros l. reflexivity.
  - unfold env_during, during. cbn. lia.
  - done.
  - vm_compute. eexists. reflexivity.
Qed.

Lemma query_reads_matching_rows_witness : ∃ w',
  query_parquet_as ten_bytes zero_hash same_path "/cache" mixed_world live_filter true (λ w, w) quiet_envs (λ w, w) =
    (w', Ok (Some [12; 10; 11])).
Proof.
  destruct (query_reads_matching_rows ten_bytes zero_hash same_path "/cache" only_moved_key only_moved_key_inj ten_bytes_range
    mixed_world live_filter quiet_envs 10 20) as (w' & _ & Hq).
  - exact mixed_store_ok.
  - reflexivity.
  - exact mixed_cache_ready.
  - exact mixed_fetches_ok.
  - exists w'. rewrite Hq. vm_compute. reflexivity.
Defined.

(** The mover pushes the first file and removes its local copy while a query
    that has leased it waits for its first step. *)
Definition first_file : FileListEntry := Eval vm_compute in
  match file_rows (st_db two_files) !! 1 with Some e => e | None => mkFileListEntry 0 0 "" "" "" "" "" 0 0 0 0 0 false 0 0 end.
Definition finish_move (st : Store Z) : Store Z :=
  (delete_local (push_file "/data" "b" (st, []) first_file (push_ok_env 1)).1 (fe_file_path first_file) true).1.
Definition local_world : World (R := Z) (C := list (string * FileData Z)) := mkWorld two_files (Some leases_new) None None.
Definition moving_envs (n : nat) : (World (R := Z) (C := list (string * FileData Z)) → World (R := Z) (C := list (string * FileData Z))) * FetchEnv (R := Z) :=
  (λ w, match n with O => mkWorld (finish_move (wd_store w)) (wd_leases w) (wd_disk_cache w) (wd_memory_cache w) | _ => w end,
   mkFetchEnv 11 11 true None true 11 11 (λ l, l)).

Lemma moved_file_escapes_lease_witness : ∃ w',
  query_parquet_as ten_bytes zero_hash same_path "/cache" local_world live_filter true (λ w, w) moving_envs (λ w, w) =
    (w', Ok (Some [12])) ∧
  visible (finish_move two_files) = [12; 10; 11].
Proof.
  destruct (moved_file_escapes_lease ten_bytes zero_hash same_path "/cache" only_moved_key only_moved_key_inj ten_bytes_range
    local_world live_filter moving_envs 10 20 first_file) as (w' & Hq).
  - exact two_files_ok.
  - apply (proj1 (proj2 two_files_mover_inv)).
  - reflexivity.
  - apply (bool_decide_unpack _). vm_compute. exact I.
  - vm_compute. discriminate.
  - vm_compute. reflexivity.
  - assert (objects (wd_store local_world) = ∅) as -> by (vm_compute; reflexivity). apply map_empty_subseteq.
  - intros [|i] w Hi; [lia|reflexivity].
  - apply (bool_decide_unpack _). vm_compute. exact I.
  - split; [done|]. intros i e Hi Hs. exfalso. revert Hs. apply list_elem_of_lookup_2 in Hi. revert e Hi.
    apply (proj1 (Forall_forall (λ e, fe_location e ≠ "s3") _)). apply (bool_decide_unpack _). vm_compute. exact I.
  - exists w'. split; [rewrite Hq; vm_compute; reflexivity|]. vm_compute. reflexivity.
Defined.
End Witnesses.
