(* ===== verification/Sql.v ===== *)
(** SQL text: the escaping of [zradar-parquet/src/telemetry_reader.rs], and the
    part of SQL's grammar its queries use.

    The reader builds its queries as text. The specification reads that text
    the way SQL does: [lex] splits it into words, string literals, whose quote
    is written twice, and symbols; [parse_sql] reads a query off the tokens.
    The lemmas say what a piece of built text lexes to, whatever strings a
    client put into it. *)

From stdpp Require Import base list strings pretty.
From Stdlib Require Import Ascii.
From S2P Require Import Prelude.

(** ** The text *)

(** [s.replace('\'', "''")], two quotes for one. *)
Definition quote_char : ascii := "'"%char.
Fixpoint escape_sql_str (s : string) : string :=
  match s with
  | EmptyString => EmptyString
  | String c s =>
      if decide (c = quote_char) then String quote_char (String quote_char (escape_sql_str s))
      else String c (escape_sql_str s)
  end.

Fixpoint join_text (sep : string) (l : list string) : string :=
  match l with [] => "" | [x] => x | x :: l => x +:+ sep +:+ join_text sep l end.

(** ** Lexing *)

Inductive Token := TWord (s : string) | TStr (s : string) | TSym (c : ascii).
#[export] Instance Token_eq_dec : EqDecision Token.
Proof. solve_decision. Defined.

Inductive LexState := Blank | InWord (s : string) | InStr (s : string) | QuoteSeen (s : string).

Definition is_space (c : ascii) : bool := bool_decide (c = " "%char ∨ c = "010"%char).
Definition in_range (lo hi : ascii) (c : ascii) : bool :=
  ((nat_of_ascii lo <=? nat_of_ascii c) && (nat_of_ascii c <=? nat_of_ascii hi))%nat.
Definition is_word_char (c : ascii) : bool :=
  in_range "a" "z" c || in_range "A" "Z" c || in_range "0" "9" c || bool_decide (c = "_"%char ∨ c = "."%char).

Definition push_char (s : string) (c : ascii) : string := s +:+ String c "".

(** A character at the start of a token. *)
Definition lex_start (c : ascii) : LexState * list Token :=
  if decide (c = quote_char) then (InStr "", [])
  else if is_space c then (Blank, [])
  else if is_word_char c then (InWord (String c ""), [])
  else (Blank, [TSym c]).

(** The token that ends at the end of a piece; a literal must be closed. *)
Definition lex_settle (st : LexState) : option (list Token) :=
  match st with
  | Blank => Some []
  | InWord s => Some [TWord s]
  | QuoteSeen s => Some [TStr s]
  | InStr _ => None
  end.

Definition lex_step (st : LexState) (c : ascii) : LexState * list Token :=
  match st with
  | Blank => lex_start c
  | InWord s => if is_word_char c then (InWord (push_char s c), []) else let '(st, ts) := lex_start c in (st, TWord s :: ts)
  | InStr s => if decide (c = quote_char) then (QuoteSeen s, []) else (InStr (push_char s c), [])
  | QuoteSeen s => if decide (c = quote_char) then (InStr (push_char s quote_char), [])
                   else let '(st, ts) := lex_start c in (st, TStr s :: ts)
  end.

Fixpoint lex_run (st : LexState) (s : string) : LexState * list Token :=
  match s with
  | EmptyString => (st, [])
  | String c s =>
      let '(st, ts) := lex_step st c in
      let '(st, ts') := lex_run st s in (st, ts ++ ts')
  end.

Definition lex (s : string) : option (list Token) :=
  let '(st, ts) := lex_run Blank s in app ts <$> lex_settle st.

(** ** Parsing *)

Inductive Cond :=
| CEq (col v : string)
| CLike (col pattern : string)
| CIn (col : string) (vs : list string)
| CGe (col : string) (z : Z)
| CLe (col : string) (z : Z).

(** A query of the fragment: [SELECT *] or [SELECT COUNT( * ) AS cnt], the
    conditions joined by AND, the order by [timestamp] (descending or not) and
    the page. *)
Record Query := mkQuery {
  q_count : bool;
  q_table : string;
  q_conds : list Cond;
  q_order : option bool;
  q_limit : option Z;
  q_offset : option Z;
}.

Definition digit_value (c : ascii) : Z := Z.of_nat (nat_of_ascii c) - 48.
Fixpoint digits_value (acc : Z) (s : string) : Z :=
  match s with EmptyString => acc | String c s => digits_value (10 * acc + digit_value c) s end.

Definition parse_number (ts : list Token) : option (Z * list Token) :=
  match ts with
  | TWord w :: ts => Some (digits_value 0 w, ts)
  | TSym c :: TWord w :: ts => if decide (c = "-"%char) then Some (- digits_value 0 w, ts) else None
  | _ => None
  end.

Fixpoint parse_strings (ts : list Token) : option (list string * list Token) :=
  match ts with
  | TStr s :: TSym c :: ts =>
      if decide (c = ","%char) then '(l, ts) ← parse_strings ts; Some (s :: l, ts)
      else if decide (c = ")"%char) then Some ([s], ts) else None
  | _ => None
  end.

Definition parse_cond (ts : list Token) : option (Cond * list Token) :=
  match ts with
  | TWord col :: TSym c :: TStr v :: ts => if decide (c = "="%char) then Some (CEq col v, ts) else None
  | TWord col :: TSym c :: TSym d :: ts =>
      if decide (d = "="%char) then
        '(z, ts) ← parse_number ts;
        if decide (c = ">"%char) then Some (CGe col z, ts) else if decide (c = "<"%char) then Some (CLe col z, ts) else None
      else None
  | TWord col :: TWord op :: TStr v :: ts => if decide (op = "LIKE") then Some (CLike col v, ts) else None
  | TWord col :: TWord op :: TSym c :: ts =>
      if decide (op = "IN" ∧ c = "("%char) then '(vs, ts) ← parse_strings ts; Some (CIn col vs, ts) else None
  | _ => None
  end.

Fixpoint parse_conds (fuel : nat) (ts : list Token) : option (list Cond * list Token) :=
  match fuel with
  | O => None
  | S fuel =>
      '(c, ts) ← parse_cond ts;
      match ts with
      | TWord w :: ts' =>
          if decide (w = "AND") then '(cs, ts) ← parse_conds fuel ts'; Some (c :: cs, ts) else Some ([c], ts)
      | _ => Some ([c], ts)
      end
  end.

(** An optional clause that starts with given words. *)
Fixpoint eat_words (ws : list string) (ts : list Token) : option (list Token) :=
  match ws, ts with
  | [], _ => Some ts
  | w :: ws, TWord x :: ts => if decide (w = x) then eat_words ws ts else None
  | _, _ => None
  end.

Definition parse_order (ts : list Token) : option bool * list Token :=
  match eat_words ["ORDER"; "BY"; "timestamp"] ts with
  | None => (None, ts)
  | Some ts => match eat_words ["DESC"] ts with Some ts => (Some true, ts) | None => (Some false, ts) end
  end.

Definition parse_clause (word : string) (ts : list Token) : option (option Z * list Token) :=
  match eat_words [word] ts with
  | None => Some (None, ts)
  | Some ts => '(z, ts) ← parse_number ts; Some (Some z, ts)
  end.

Definition parse_projection (ts : list Token) : option (bool * list Token) :=
  match eat_words ["SELECT"] ts with
  | Some (TSym c :: ts) => if decide (c = "*"%char) then Some (false, ts) else None
  | Some (TWord w :: TSym c :: TSym d :: TSym e :: ts) =>
      if decide (w = "COUNT" ∧ c = "("%char ∧ d = "*"%char ∧ e = ")"%char) then (λ ts, (true, ts)) <$> eat_words ["AS"; "cnt"] ts else None
  | _ => None
  end.

Definition parse_query (ts : list Token) : option Query :=
  '(count, ts) ← parse_projection ts;
  ts ← eat_words ["FROM"] ts;
  match ts with
  | TWord table :: ts =>
      ts ← eat_words ["WHERE"] ts;
      '(conds, ts) ← parse_conds (length ts) ts;
      let '(order, ts) := parse_order ts in
      '(limit, ts) ← parse_clause "LIMIT" ts;
      '(offset, ts) ← parse_clause "OFFSET" ts;
      match ts with [] => Some (mkQuery count table conds order limit offset) | _ => None end
  | _ => None
  end.

Definition parse_sql (text : string) : option Query := ts ← lex text; parse_query ts.

Example parse_sql_sample :
  parse_sql "SELECT * FROM logs WHERE workspace_id = 'w' AND message LIKE '%it''s%' AND timestamp >= -5 ORDER BY timestamp DESC LIMIT 10 OFFSET 0"
  = Some (mkQuery false "logs" [CEq "workspace_id" "w"; CLike "message" "%it's%"; CGe "timestamp" (-5)] (Some true) (Some 10) (Some 0)).
Proof. reflexivity. Qed.

(** ** Lemmas: lexing piece by piece *)

Lemma lex_run_app a b : ∀ st,
  lex_run st (a +:+ b) = let '(st1, t1) := lex_run st a in let '(st2, t2) := lex_run st1 b in (st2, t1 ++ t2).
Proof.
  induction a as [|c a IH]; intros st; [change ("" +:+ b) with b; cbn [lex_run]; by destruct (lex_run st b)|].
  change (String c a +:+ b) with (String c (a +:+ b)). cbn [lex_run]. destruct (lex_step st c) as [st1 t1].
  rewrite IH. destruct (lex_run st1 a) as [st2 t2], (lex_run st2 b) as [st3 t3]. by rewrite app_assoc.
Qed.

Lemma lex_Some s ts : lex s = Some ts → ∃ st t u, lex_run Blank s = (st, t) ∧ lex_settle st = Some u ∧ ts = t ++ u.
Proof.
  unfold lex. destruct (lex_run Blank s) as [st t]. destruct (lex_settle st) as [u|] eqn:Hu; [|done]. intros [= <-]. by exists st, t, u.
Qed.

(** A separator closes the token before it. *)
Lemma lex_step_separator st u c : lex_settle st = Some u → is_word_char c = false → c ≠ quote_char →
  lex_step st c = (Blank, u ++ (if is_space c then [] else [TSym c])).
Proof.
  intros Hs Hw Hq. assert (lex_start c = (Blank, if is_space c then [] else [TSym c])) as Hstart.
  { unfold lex_start. rewrite decide_False by done. rewrite Hw. by destruct (is_space c). }
  destruct st as [|w|w|w]; cbn [lex_settle] in Hs; simplify_eq; cbn [lex_step app]; rewrite ?Hw, ?Hstart; [done|done|].
  by rewrite decide_False.
Qed.

Lemma lex_separated a c b ta tb : lex a = Some ta → lex b = Some tb → is_word_char c = false → c ≠ quote_char →
  lex (a +:+ String c b) = Some (ta ++ (if is_space c then [] else [TSym c]) ++ tb).
Proof.
  intros (st & t & u & Ha & Hu & ->)%lex_Some (st' & t' & u' & Hb & Hu' & ->)%lex_Some Hw Hq.
  unfold lex. rewrite lex_run_app, Ha. cbn [lex_run]. rewrite (lex_step_separator st u c) by done. rewrite Hb.
  cbn [fst snd]. rewrite Hu'. cbn. by rewrite <-!app_assoc.
Qed.

Lemma lex_space a b ta tb : lex a = Some ta → lex b = Some tb → lex (a +:+ " " +:+ b) = Some (ta ++ tb).
Proof. intros Ha Hb. by apply (lex_separated a " "). Qed.

Lemma lex_symbol a c b ta tb : lex a = Some ta → lex b = Some tb → is_word_char c = false → is_space c = false → c ≠ quote_char →
  lex (a +:+ String c b) = Some (ta ++ TSym c :: tb).
Proof. intros Ha Hb Hw Hs Hq. rewrite (lex_separated a c b ta tb) by done. by rewrite Hs. Qed.

(** An escaped string between quotes is one literal, the string itself. *)
Lemma lex_escaped v : ∀ s, lex_run (InStr s) (escape_sql_str v) = (InStr (s +:+ v), []).
Proof.
  induction v as [|c v IH]; intros s; cbn [escape_sql_str lex_run].
  { f_equal. f_equal. induction s as [|x s IHs]; [done|]. change (String x s +:+ "") with (String x (s +:+ "")). by f_equal. }
  assert (∀ s, push_char s c +:+ v = s +:+ String c v) as Hpush.
  { clear. intros s. unfold push_char. induction s as [|x s IHs]; [done|].
    change (String x s +:+ String c v) with (String x (s +:+ String c v)). by rewrite <-IHs. }
  case_decide as Hc; cbn [lex_run lex_step].
  - subst c. rewrite decide_True by done. cbn [lex_step]. rewrite decide_True by done.
    by rewrite IH, Hpush.
  - rewrite decide_False by done. by rewrite IH, Hpush.
Qed.

Definition quoted (before v after : string) : string := "'" +:+ before +:+ escape_sql_str v +:+ after +:+ "'".

Definition plain (s : string) : Prop := quote_char ∉ String.list_ascii_of_string s.

Lemma lex_plain p : plain p → ∀ s, lex_run (InStr s) p = (InStr (s +:+ p), []).
Proof.
  intros Hp s. rewrite <-(lex_escaped p s). f_equal. unfold plain in Hp. induction p as [|c p IH]; [done|].
  cbn [String.list_ascii_of_string escape_sql_str] in *. rewrite not_elem_of_cons in Hp. destruct Hp as [Hc Hp].
  rewrite decide_False by congruence. f_equal. by apply IH.
Qed.

Lemma lex_open s : lex_run Blank ("'" +:+ s) = lex_run (InStr "") s.
Proof. change (lex_run Blank ("'" +:+ s)) with (let '(st, ts) := lex_run (InStr "") s in (st, [] ++ ts)). by destruct (lex_run _ s). Qed.

Lemma lex_close s : lex_run (InStr s) "'" = (QuoteSeen s, []).
Proof. reflexivity. Qed.

Lemma lex_quoted before v after : plain before → plain after → lex (quoted before v after) = Some [TStr (before +:+ v +:+ after)].
Proof.
  intros Hb Ha. unfold lex, quoted. rewrite lex_open, lex_run_app, (lex_plain before Hb), lex_run_app, lex_escaped, lex_run_app,
    (lex_plain after Ha), lex_close. change ("" +:+ before) with before. rewrite string_app_assoc. reflexivity.
Qed.

(** Words. *)
Fixpoint all_chars (P : ascii → bool) (s : string) : bool :=
  match s with EmptyString => true | String c s => P c && all_chars P s end.

Lemma lex_in_word w : ∀ s, all_chars is_word_char w = true → lex_run (InWord s) w = (InWord (s +:+ w), []).
Proof.
  induction w as [|c w IH]; intros s Hw; cbn [lex_run all_chars] in *.
  - f_equal. f_equal. induction s as [|x s IHs]; [done|]. change (String x s +:+ "") with (String x (s +:+ "")). by f_equal.
  - apply andb_true_iff in Hw as [Hc Hw]. cbn [lex_step]. rewrite Hc, (IH _ Hw). unfold push_char. by rewrite string_app_assoc.
Qed.

Definition is_word (w : string) : bool := match w with EmptyString => false | _ => all_chars is_word_char w end.

Lemma word_char_plain c : is_word_char c = true → c ≠ quote_char ∧ is_space c = false.
Proof. destruct c as [[] [] [] [] [] [] [] []]; vm_compute; intros Hc; (split; [discriminate|done]) || discriminate Hc. Qed.

Lemma lex_word w : is_word w = true → lex w = Some [TWord w].
Proof.
  destruct w as [|c w]; [done|]. cbn [is_word all_chars]. intros [Hc Hw]%andb_true_iff. unfold lex. cbn [lex_run lex_step].
  unfold lex_start. destruct (word_char_plain c Hc) as [Hq Hs]. rewrite decide_False, Hs, Hc by done.
  by rewrite (lex_in_word w _ Hw).
Qed.

(** Numbers. *)
Lemma pretty_char_digit (x : N) : (x < 10)%N →
  is_word_char (pretty_N_char x) = true ∧ digit_value (pretty_N_char x) = Z.of_N x.
Proof.
  intros Hx. assert (x = 0 ∨ x = 1 ∨ x = 2 ∨ x = 3 ∨ x = 4 ∨ x = 5 ∨ x = 6 ∨ x = 7 ∨ x = 8 ∨ x = 9)%N as Hc by lia.
  repeat (destruct Hc as [->|Hc]; [done|]). by rewrite Hc.
Qed.

Lemma pretty_go_digits x : ∀ s, all_chars is_word_char s = true →
  all_chars is_word_char (pretty_N_go x s) = true ∧ digits_value 0 (pretty_N_go x s) = digits_value (Z.of_N x) s.
Proof.
  induction (N.lt_wf_0 x) as [x _ IH]; intros s Hs. destruct (decide (x = 0)%N) as [->|Hx]; [by rewrite pretty_N_go_0|].
  rewrite pretty_N_go_step by lia. destruct (pretty_char_digit (x mod 10)) as [Hc Hd]; [by apply N.mod_lt|].
  destruct (IH (x / 10)%N) with (s := String (pretty_N_char (x mod 10)) s) as [Ha Hv].
  - apply N.div_lt; lia.
  - cbn [all_chars]. by rewrite Hc.
  - split; [done|]. rewrite Hv. cbn [digits_value]. rewrite Hd. f_equal. rewrite N2Z.inj_div, N2Z.inj_mod.
    symmetry. apply Z.div_mod. lia.
Qed.

Lemma pretty_digits (n : N) : is_word (pretty n) = true ∧ digits_value 0 (pretty n) = Z.of_N n.
Proof.
  unfold pretty, pretty_N. case_decide as Hn; [by subst|]. destruct (pretty_go_digits n "" eq_refl) as [Ha Hv].
  split; [|by rewrite Hv]. unfold is_word. destruct (pretty_N_go n "") as [|c s] eqn:Hp; [|done].
  exfalso. apply Hn. cbn in Hv. lia.
Qed.

Definition number_tokens (z : Z) : list Token :=
  match z with
  | Z0 => [TWord (pretty 0%N)]
  | Zpos p => [TWord (pretty (Npos p))]
  | Zneg p => [TSym "-"; TWord (pretty (Npos p))]
  end.

Lemma lex_number z : lex (pretty z) = Some (number_tokens z).
Proof.
  destruct z as [|p|p]; [done| |].
  - change (pretty (Zpos p)) with (pretty (Npos p)). apply lex_word, pretty_digits.
  - change (pretty (Zneg p)) with ("" +:+ String "-" (pretty (Npos p))).
    rewrite (lex_symbol "" "-" (pretty (Npos p)) [] [TWord (pretty (Npos p))]); [done..| |done|done|done].
    apply lex_word, pretty_digits.
Qed.

Lemma parse_number_tokens z ts : parse_number (number_tokens z ++ ts) = Some (z, ts).
Proof.
  destruct z as [|p|p]; [done| |]; cbn [number_tokens app parse_number].
  - destruct (pretty_digits (Npos p)) as [_ ->]. done.
  - rewrite decide_True by done. destruct (pretty_digits (Npos p)) as [_ ->]. done.
Qed.

(** ** Lemmas: what parses *)

Fixpoint strings_tokens (vs : list string) : list Token :=
  match vs with [] => [] | [v] => [TStr v; TSym ")"] | v :: vs => TStr v :: TSym "," :: strings_tokens vs end.

Definition cond_tokens (c : Cond) : list Token :=
  match c with
  | CEq col v => [TWord col; TSym "="; TStr v]
  | CLike col p => [TWord col; TWord "LIKE"; TStr p]
  | CIn col vs => [TWord col; TWord "IN"; TSym "("] ++ strings_tokens vs
  | CGe col z => [TWord col; TSym ">"; TSym "="] ++ number_tokens z
  | CLe col z => [TWord col; TSym "<"; TSym "="] ++ number_tokens z
  end.

Definition cond_ok (c : Cond) : Prop := match c with CIn _ vs => vs ≠ [] | _ => True end.

Fixpoint conds_tokens (cs : list Cond) : list Token :=
  match cs with [] => [] | [c] => cond_tokens c | c :: cs => cond_tokens c ++ TWord "AND" :: conds_tokens cs end.

Definition words (l : list string) : list Token := map TWord l.

Definition query_tokens (q : Query) : list Token :=
  words ["SELECT"] ++ (if q_count q then [TWord "COUNT"; TSym "("; TSym "*"; TSym ")"; TWord "AS"; TWord "cnt"] else [TSym "*"]) ++
  words ["FROM"; q_table q; "WHERE"] ++ conds_tokens (q_conds q) ++
  (match q_order q with None => [] | Some desc => words (["ORDER"; "BY"; "timestamp"] ++ if (desc : bool) then ["DESC"] else []) end) ++
  (match q_limit q with None => [] | Some z => TWord "LIMIT" :: number_tokens z end) ++
  (match q_offset q with None => [] | Some z => TWord "OFFSET" :: number_tokens z end).

Lemma parse_strings_tokens vs ts : vs ≠ [] → parse_strings (strings_tokens vs ++ ts) = Some (vs, ts).
Proof.
  induction vs as [|v vs IH]; [done|]. intros _. destruct vs as [|v' vs]; [done|].
  change (parse_strings (strings_tokens (v :: v' :: vs) ++ ts)) with
    ('(l, ts) ← parse_strings (strings_tokens (v' :: vs) ++ ts); Some (v :: l, ts)).
  by rewrite IH.
Qed.

Lemma parse_cond_tokens c ts : cond_ok c → parse_cond (cond_tokens c ++ ts) = Some (c, ts).
Proof.
  destruct c as [col v|col p|col vs|col z|col z]; intros Hok; [done|done| | |].
  - change (parse_cond (cond_tokens (CIn col vs) ++ ts)) with
      ('(vs, ts) ← parse_strings (strings_tokens vs ++ ts); Some (CIn col vs, ts)).
    by rewrite parse_strings_tokens.
  - change (parse_cond (cond_tokens (CGe col z) ++ ts)) with
      ('(z, ts) ← parse_number (number_tokens z ++ ts); Some (CGe col z, ts)).
    by rewrite parse_number_tokens.
  - change (parse_cond (cond_tokens (CLe col z) ++ ts)) with
      ('(z, ts) ← parse_number (number_tokens z ++ ts); Some (CLe col z, ts)).
    by rewrite parse_number_tokens.
Qed.

Definition not_and (ts : list Token) : Prop := match ts with TWord w :: _ => w ≠ "AND" | _ => True end.

Lemma parse_conds_tokens cs ts : ∀ fuel, (length cs ≤ fuel)%nat → cs ≠ [] → Forall cond_ok cs → not_and ts →
  parse_conds fuel (conds_tokens cs ++ ts) = Some (cs, ts).
Proof.
  induction cs as [|c cs IH]; intros fuel Hf Hne Hok Hts; [done|]. apply Forall_cons in Hok as [Hc Hok].
  destruct fuel as [|fuel]; [cbn in Hf; lia|]. destruct cs as [|c' cs].
  - cbn [parse_conds conds_tokens]. rewrite parse_cond_tokens by done. cbn. destruct ts as [|[w| |] ts]; try done.
    by rewrite decide_False.
  - change (conds_tokens (c :: c' :: cs)) with (cond_tokens c ++ TWord "AND" :: conds_tokens (c' :: cs)).
    cbn [parse_conds]. rewrite <-app_assoc, parse_cond_tokens by done. cbn [mbind option_bind].
    rewrite <-app_comm_cons, decide_True by done. rewrite IH; [done| |done|done|done]. cbn in *. lia.
Qed.

Lemma conds_tokens_length cs : (length cs ≤ length (conds_tokens cs))%nat.
Proof.
  induction cs as [|c cs IH]; [done|]. assert (1 ≤ length (cond_tokens c))%nat by (destruct c; cbn; lia).
  destruct cs as [|c' cs]; [cbn in *; lia|].
  change (conds_tokens (c :: c' :: cs)) with (cond_tokens c ++ TWord "AND" :: conds_tokens (c' :: cs)).
  rewrite length_app. cbn [length] in *. lia.
Qed.

(** Reading back the tokens of a query. *)
Lemma parse_query_tokens q : q_conds q ≠ [] → Forall cond_ok (q_conds q) → parse_query (query_tokens q) = Some q.
Proof.
  destruct q as [count table conds order limit offset]. cbn [q_conds]. intros Hne Hok.
  set (tail := (match order with None => [] | Some desc => words (["ORDER"; "BY"; "timestamp"] ++ if (desc : bool) then ["DESC"] else []) end) ++
    (match limit with None => [] | Some z => TWord "LIMIT" :: number_tokens z end) ++
    (match offset with None => [] | Some z => TWord "OFFSET" :: number_tokens z end)).
  assert (parse_query (query_tokens (mkQuery count table conds order limit offset)) =
    ('(conds, ts) ← parse_conds (length (conds_tokens conds ++ tail)) (conds_tokens conds ++ tail);
     let '(order, ts) := parse_order ts in
     '(limit, ts) ← parse_clause "LIMIT" ts;
     '(offset, ts) ← parse_clause "OFFSET" ts;
     match ts with [] => Some (mkQuery count table conds order limit offset) | _ => None end)) as ->
    by (by destruct count).
  rewrite parse_conds_tokens; [|rewrite length_app; pose proof (conds_tokens_length conds); lia|done|done|].
  2: { subst tail. by destruct order as [[]|], limit, offset. }
  cbn [mbind option_bind].
  assert (parse_order tail = (order, (match limit with None => [] | Some z => TWord "LIMIT" :: number_tokens z end) ++
    (match offset with None => [] | Some z => TWord "OFFSET" :: number_tokens z end))) as ->.
  { subst tail. by destruct order as [[]|], limit, offset. }
  assert (parse_clause "LIMIT" ((match limit with None => [] | Some z => TWord "LIMIT" :: number_tokens z end) ++
    (match offset with None => [] | Some z => TWord "OFFSET" :: number_tokens z end)) =
    Some (limit, match offset with None => [] | Some z => TWord "OFFSET" :: number_tokens z end)) as ->.
  { destruct limit as [z|]; [|by destruct offset]. unfold parse_clause. cbn [app eat_words]. rewrite decide_True by done.
    cbn [eat_words mbind option_bind]. by rewrite parse_number_tokens. }
  cbn [mbind option_bind]. destruct offset as [z|]; [|done]. unfold parse_clause. cbn [eat_words]. rewrite decide_True by done.
  rewrite <-(app_nil_r (number_tokens z)), parse_number_tokens. done.
Qed.

(** Joining conditions that lex. *)
Lemma lex_join cs (texts : list string) : cs ≠ [] → Forall2 (λ t c, lex t = Some (cond_tokens c)) texts cs →
  lex (join_text " AND " texts) = Some (conds_tokens cs).
Proof.
  intros Hne Hall. induction Hall as [|t c texts cs Ht Hall IH]; [done|]. destruct Hall as [|t' c' texts cs Ht' Hall]; [done|].
  change (join_text " AND " (t :: t' :: texts)) with (t +:+ " " +:+ ("AND" +:+ " " +:+ join_text " AND " (t' :: texts))).
  change (conds_tokens (c :: c' :: cs)) with (cond_tokens c ++ [TWord "AND"] ++ conds_tokens (c' :: cs)).
  apply lex_space; [done|]. by apply lex_space, IH.
Qed.

(** ** Lemmas: pieces that start with a space *)

Definition starts_blank (s : string) : bool := match s with EmptyString => true | String c _ => is_space c end.

Lemma lex_blank c s : is_space c = true → lex (String c s) = lex s.
Proof.
  intros Hc. unfold lex. cbn [lex_run lex_step]. unfold lex_start. rewrite decide_False, Hc.
  - by destruct (lex_run Blank s).
  - intros ->. by vm_compute in Hc.
Qed.

Lemma lex_after a b ta tb : lex a = Some ta → lex b = Some tb → starts_blank b = true → lex (a +:+ b) = Some (ta ++ tb).
Proof.
  intros Ha Hb Hs. destruct b as [|c b].
  - injection Hb as <-. rewrite app_nil_r, <-Ha. f_equal. clear. induction a as [|x a IH]; [done|].
    change (String x a +:+ "") with (String x (a +:+ "")). by f_equal.
  - cbn [starts_blank] in Hs. rewrite lex_blank in Hb by done.
    rewrite (lex_separated a c b ta tb) by (done || (destruct c as [[] [] [] [] [] [] [] []]; vm_compute in Hs; done || by vm_compute)).
    by rewrite Hs.
Qed.

Lemma starts_blank_app a b : starts_blank a = true → starts_blank b = true → starts_blank (a +:+ b) = true.
Proof. destruct a as [|c a]; [done|]. by intros Hc _. Qed.
