(* ===== verification/Arrow.v ===== *)
(** Arrow record batches, as the schemas of [zradar-parquet/src/schema] use
    them.

    The [arrow] crate is not part of the repository: [Arrow] lists the calls
    the schemas make, [ArrowLaws] what Arrow documents of them, and
    [column_arrays] is an implementation the witnesses run. The column
    extraction macros of the schemas and the optional-column helpers of
    [spans.rs] are here too. *)

From stdpp Require Import base list strings.
From S2P Require Import Prelude.

(** ** The interface *)

(** The column types of the schemas; [OtherType] is any other Arrow type. *)
Inductive DataType := Utf8 | Int64 | Int32 | Int16 | Float64 | OtherType (name : string).
#[export] Instance DataType_eq_dec : EqDecision DataType.
Proof. solve_decision. Defined.

Record Field := mkField { fd_name : string; fd_type : DataType; fd_nullable : bool }.

(** The Rust type of a cell; [F] is [f64]. *)
Definition native (F : Type) (t : DataType) : Type :=
  match t with Utf8 => string | Float64 => F | OtherType _ => unit | _ => Z end.

Class Arrow (F : Type) := {
  (** [StringArray], [Int64Array], ... *)
  PrimArray : DataType → Type;
  RecordBatch : Type;
  (** [from_iter_values] and [collect]; a [None] is a null. *)
  from_iter (t : DataType) : list (option (native F t)) → PrimArray t;
  value (t : DataType) : PrimArray t → nat → native F t;
  is_null (t : DataType) : PrimArray t → nat → bool;
  (** An [ArrayRef] is an array with its type. *)
  try_new : list Field → list { t & PrimArray t } → option RecordBatch;
  num_rows : RecordBatch → nat;
  columns : RecordBatch → list (string * { t & PrimArray t });
}.

Section Arrow.
Context {F : Type} `{Arrow F}.

Definition ArrayRef : Type := { t & PrimArray t }.

(** [Arc::new(array)] of an array with the given cells. *)
Definition array_ref (t : DataType) (cells : list (option (native F t))) : ArrayRef := existT t (from_iter t cells).

Fixpoint find_column (name : string) (cols : list (string * ArrayRef)) : option ArrayRef :=
  match cols with
  | [] => None
  | (n, a) :: cols => if String.eqb n name then Some a else find_column name cols
  end.

(** [column_by_name]: the first column of that name. *)
Definition column_by_name (b : RecordBatch) (name : string) : option ArrayRef := find_column name (columns b).

(** [as_any().downcast_ref::<..>()]. *)
Definition downcast (t : DataType) (a : ArrayRef) : option (PrimArray t) :=
  match decide (projT1 a = t) with
  | left e => Some (eq_rect (projT1 a) PrimArray (projT2 a) t e)
  | right _ => None
  end.

(** ** The macros of the schemas *)

Inductive SchemaError := MissingColumn (name : string) | WrongType (name : string).

(** [str_col!], [i64_col!], [i32_col!], [i16_col!] and [f64_col!]. *)
Definition col (t : DataType) (b : RecordBatch) (name : string) : outcome SchemaError (PrimArray t) :=
  match column_by_name b name with
  | None => Err (MissingColumn name)
  | Some a => match downcast t a with Some a => Ok a | None => Err (WrongType name) end
  end.

(** [optional_string_col], [optional_i16_col] and [optional_i32_col]. *)
Definition optional_col (t : DataType) (b : RecordBatch) (name : string) : outcome SchemaError (option (PrimArray t)) :=
  match column_by_name b name with
  | None => Ok None
  | Some a => match downcast t a with Some a => Ok (Some a) | None => Err (WrongType name) end
  end.
Definition optional_string_col := optional_col Utf8.
Definition optional_i16_col := optional_col Int16.
Definition optional_i32_col := optional_col Int32.

(** [.map(|c| c.value(i)).unwrap_or(d)]. *)
Definition value_or {t : DataType} (d : native F t) (a : option (PrimArray t)) (i : nat) : native F t :=
  match a with Some a => value t a i | None => d end.

(** ** What Arrow documents *)

Definition Cells : Type := { t & list (option (native F t)) }.
Definition to_array (c : Cells) : ArrayRef := array_ref (projT1 c) (projT2 c).

(** Columns that fit a schema: the types agree, every column has [n] cells and
    no null stands in a column that is not nullable. *)
Definition fits (n : nat) (f : Field) (c : Cells) : Prop :=
  fd_type f = projT1 c ∧ length (projT2 c) = n ∧ (fd_nullable f = false → Forall is_Some (projT2 c)).

Class ArrowLaws := {
  from_iter_value t cells i v : cells !! i = Some (Some v) → value t (from_iter t cells) i = v;
  from_iter_null t cells i c : cells !! i = Some c → is_null t (from_iter t cells) i = bool_decide (c = None);
  try_new_fits n fields cells : cells ≠ [] → Forall2 (fits n) fields cells →
    ∃ b, try_new fields (map to_array cells) = Some b ∧ num_rows b = n ∧
      columns b = zip (map fd_name fields) (map to_array cells);
}.

(** ** Lemmas *)

Context `{!ArrowLaws}.

Lemma downcast_to_array t (cells : list (option (native F t))) : downcast t (array_ref t cells) = Some (from_iter t cells).
Proof.
  unfold downcast. cbn [array_ref projT1 projT2]. destruct (decide (t = t)) as [e|]; [|done].
  by rewrite (proof_irrel e eq_refl).
Qed.

Fixpoint index_of (name : string) (names : list string) : option nat :=
  match names with
  | [] => None
  | n :: names => if String.eqb n name then Some 0%nat else S <$> index_of name names
  end.

Lemma find_column_zip name names arrays : length names = length arrays →
  find_column name (zip names arrays) = index_of name names ≫= (arrays !!.).
Proof.
  revert arrays. induction names as [|n names IH]; intros [|a arrays] Hl; try done. cbn [zip zip_with find_column index_of].
  destruct (String.eqb n name); [done|]. injection Hl as Hl. rewrite (IH arrays Hl). by destruct (index_of name names).
Qed.

(** A batch that has the columns [keep] of those of a list of rows. *)
Definition kept_of (keep : string → bool) (b : RecordBatch) (fields : list Field) (cells : list Cells) : Prop :=
  columns b = filter (λ c, keep c.1 = true) (zip (map fd_name fields) (map to_array cells)) ∧ length fields = length cells.

(** What reading [r] off such a batch gives when the columns [required] must be
    there. *)
Definition missing_or {A : Type} (keep : string → bool) (required : list string) (r : A) : outcome SchemaError A :=
  match find (λ n, negb (keep n)) required with Some n => Err (MissingColumn n) | None => Ok r end.

Lemma find_column_kept name cols keep :
  find_column name (filter (λ c, keep c.1 = true) cols) = if keep name then find_column name cols else None.
Proof.
  induction cols as [|[n a] cols IH]; [by destruct (keep name)|]. rewrite filter_cons. cbn [fst find_column].
  destruct (String.eqb_spec n name) as [->|Hn].
  - case_decide as Hk; [by rewrite Hk; cbn; rewrite String.eqb_refl|]. rewrite IH. by destruct (keep name).
  - case_decide; [|done]. cbn. by apply String.eqb_neq in Hn as ->.
Qed.

Lemma kept_column keep b fields cells name i t l : kept_of keep b fields cells →
  index_of name (map fd_name fields) = Some i → cells !! i = Some (existT t l) →
  column_by_name b name = if keep name then Some (array_ref t l) else None.
Proof.
  intros [Hb Hl] Hi Hc. unfold column_by_name. rewrite Hb, find_column_kept, find_column_zip by by rewrite !length_fmap.
  destruct (keep name); [|done]. rewrite Hi. cbn [mbind option_bind]. rewrite list_lookup_fmap. exact (f_equal (fmap to_array) Hc).
Qed.

Lemma read_required {B : Type} keep b fields cells name i t l (k : PrimArray t → outcome SchemaError B) required (r : B) :
  kept_of keep b fields cells → index_of name (map fd_name fields) = Some i → cells !! i = Some (existT t l) →
  k (from_iter t l) = missing_or keep required r → (col t b name ≫= k) = missing_or keep (name :: required) r.
Proof.
  intros Hb Hi Hc Hk. unfold col. rewrite (kept_column keep b fields cells name i t l) by done. unfold missing_or in *. cbn [find].
  destruct (keep name); cbn [negb]; [|done]. by rewrite downcast_to_array.
Qed.

Lemma read_optional {B : Type} keep b fields cells name i t l (k : option (PrimArray t) → outcome SchemaError B) (r : outcome SchemaError B) :
  kept_of keep b fields cells → index_of name (map fd_name fields) = Some i → cells !! i = Some (existT t l) →
  k (if keep name then Some (from_iter t l) else None) = r → (optional_col t b name ≫= k) = r.
Proof.
  intros Hb Hi Hc Hk. unfold optional_col. rewrite (kept_column keep b fields cells name i t l) by done.
  destruct (keep name); [|done]. by rewrite downcast_to_array.
Qed.

(** The cells of a list of rows, without nulls. *)
Definition cells_of {R : Type} (t : DataType) (get : R → native F t) (rows : list R) : list (option (native F t)) :=
  map (λ r, Some (get r)) rows.

Definition column {R : Type} (t : DataType) (get : R → native F t) (rows : list R) : Cells := existT t (cells_of t get rows).

Lemma value_cells {R : Type} t (get : R → native F t) rows i r : rows !! i = Some r →
  value t (from_iter t (cells_of t get rows)) i = get r.
Proof. intros Hr. apply from_iter_value. unfold cells_of. by rewrite list_lookup_fmap, Hr. Qed.

(** A nullable column. *)
Definition nullable_cells {R : Type} (t : DataType) (get : R → option (native F t)) (rows : list R) : list (option (native F t)) :=
  map get rows.
Definition nullable_column {R : Type} (t : DataType) (get : R → option (native F t)) (rows : list R) : Cells :=
  existT t (nullable_cells t get rows).

Lemma value_nullable {R : Type} t (get : R → option (native F t)) rows i r : rows !! i = Some r →
  (if is_null t (from_iter t (nullable_cells t get rows)) i then None
   else Some (value t (from_iter t (nullable_cells t get rows)) i)) = get r.
Proof.
  intros Hr. assert (nullable_cells t get rows !! i = Some (get r)) as Hc by by (unfold nullable_cells; rewrite list_lookup_fmap, Hr).
  rewrite (from_iter_null t _ i _ Hc). destruct (get r) as [v|] eqn:Hg.
  - rewrite bool_decide_eq_false_2 by done. by rewrite (from_iter_value t _ i v).
  - by rewrite bool_decide_eq_true_2.
Qed.

(** Rows rebuilt one by one. *)
Lemma rebuild_rows {R S : Type} (f : nat → S) (g : R → S) (rows : list R) : (∀ i r, rows !! i = Some r → f i = g r) →
  map f (seq 0 (length rows)) = map g rows.
Proof.
  intros Hf. apply list_eq. intros i. rewrite !list_lookup_fmap. destruct (rows !! i) as [r|] eqn:Hr; cbn.
  - rewrite lookup_seq_lt by by eapply lookup_lt_Some. cbn. by rewrite (Hf i r Hr).
  - by rewrite lookup_seq_ge by by apply lookup_ge_None.
Qed.

Lemma value_or_kept {R : Type} (keep : bool) t (get : R → native F t) d rows i r : rows !! i = Some r →
  value_or d (if keep then Some (from_iter t (cells_of t get rows)) else None) i = if keep then get r else d.
Proof. intros Hr. destruct keep; [|done]. by apply value_cells. Qed.
End Arrow.

Arguments ArrayRef {F _}.
Arguments Cells F : clear implicits.
Arguments ArrowLaws F {_}.

(** Read the columns of a schema one after the other. *)
Ltac read_columns Hb :=
  repeat first
    [ eapply (read_required _ _ _ _ _ _ _ _ _ _ _ Hb); [vm_compute; reflexivity|reflexivity|]
    | eapply (read_optional _ _ _ _ _ _ _ _ _ _ Hb); [vm_compute; reflexivity|reflexivity|] ].

Section Writers.
Context {F : Type} `{Arrow F, !ArrowLaws F}.

(** Columns fit a schema of the same types when nulls are only in nullable ones. *)
Lemma column_fits {R : Type} (rows : list R) (fields : list Field) (cols : list (Cells F)) :
  Forall2 (λ f c, fd_type f = projT1 c ∧ ((∃ t get, c = column t get rows) ∨
    fd_nullable f = true ∧ ∃ t get, c = nullable_column t get rows)) fields cols → Forall2 (fits (length rows)) fields cols.
Proof.
  intros Hall. eapply Forall2_impl; [exact Hall|]. intros f c [Ht [(t & get & ->)|(Hn & t & get & ->)]]; (split; [done|]); cbn.
  - unfold cells_of. split; [by rewrite length_fmap|]. intros _. apply Forall_fmap, Forall_true. by eexists.
  - unfold nullable_cells. split; [by rewrite length_fmap|]. congruence.
Qed.

Lemma num_rows_pos {A : Type} (l : list A) n : n = length l → l ≠ [] → (n =? 0)%nat = false.
Proof. intros -> Hl. by destruct l. Qed.

(** Building a batch of rows and dropping no column. *)
Lemma built_kept {A : Type} (fields : list Field) (rows : list A) (cells : list (Cells F)) :
  cells ≠ [] → Forall2 (fits (length rows)) fields cells →
  ∃ b, try_new fields (map to_array cells) = Some b ∧ num_rows b = length rows ∧ kept_of (λ _, true) b fields cells.
Proof.
  intros Hne Hfit. destruct (try_new_fits (length rows) fields cells Hne Hfit) as (b & Hb & Hn & Hc).
  exists b. split; [done|]. split; [done|]. split; [|by eapply Forall2_length]. rewrite Hc. symmetry. by apply filter_all.
Qed.

Lemma missing_none {A : Type} required (r : A) : missing_or (λ _, true) required r = Ok r.
Proof. unfold missing_or. assert (find (λ _, negb true) required = None) as ->; [|done]. by induction required. Qed.
End Writers.

(** The columns of a writer fit its schema. *)
Ltac fit_columns :=
  repeat (constructor; [split; [reflexivity|match goal with
    | |- (∃ _ _, column ?t ?g _ = _) ∨ _ => left; exists t, g; reflexivity
    | |- _ ∨ _ ∧ ∃ _ _, nullable_column ?t ?g _ = _ => right; split; [reflexivity|exists t, g; reflexivity]
    end]|]);
  constructor.

(** ** An implementation *)

Section Concrete.
Context {F : Type} (zero : F).

Definition cell_default (t : DataType) : native F t :=
  match t return native F t with
  | Utf8 => "" | Int64 => 0 | Int32 => 0 | Int16 => 0 | Float64 => zero | OtherType _ => tt
  end.

Definition fitsb (n : nat) (f : Field) (c : { t & list (option (native F t)) }) : bool :=
  bool_decide (fd_type f = projT1 c) && bool_decide (length (projT2 c) = n) &&
  (fd_nullable f || forallb (λ o, match o with Some _ => true | None => false end) (projT2 c)).

Fixpoint forallb2 {A B : Type} (p : A → B → bool) (l : list A) (k : list B) : bool :=
  match l, k with [], [] => true | a :: l, b :: k => p a b && forallb2 p l k | _, _ => false end.

#[local] Instance column_arrays : Arrow F := {|
  PrimArray t := list (option (native F t));
  RecordBatch := nat * list (string * { t & list (option (native F t)) });
  from_iter t cells := cells;
  value t a i := match a !! i with Some (Some v) => v | _ => cell_default t end;
  is_null t a i := match a !! i with Some None => true | _ => false end;
  try_new fields cols :=
    match cols with
    | [] => None
    | c :: _ =>
        let n := length (projT2 c) in
        if forallb2 (fitsb n) fields cols then Some (n, zip (map fd_name fields) cols) else None
    end;
  num_rows b := b.1;
  columns b := b.2;
|}.

Lemma fitsb_fits n f c : fits n f c → fitsb n f c = true.
Proof.
  intros (Ht & Hn & Hnull). unfold fitsb. rewrite !bool_decide_eq_true_2 by done. cbn [andb].
  destruct (fd_nullable f); [done|]. cbn [orb]. apply forallb_forall. intros o Ho%list_elem_of_In.
  specialize (Hnull eq_refl). rewrite Forall_forall in Hnull. by destruct (Hnull o Ho) as [v ->].
Qed.

#[local] Instance column_arrays_laws : ArrowLaws F.
Proof.
  split.
  - intros t cells i v Hv. cbn in *. by rewrite Hv.
  - intros t cells i [v|] Hc; cbn in *; by rewrite Hc.
  - intros n fields cells Hne Hfit.
    assert (map to_array cells = cells) as Hm.
    { clear. induction cells as [|[t l] cells IH]; [done|]. cbn [map]. by rewrite IH. }
    rewrite Hm. cbn [try_new column_arrays]. destruct cells as [|c cells]; [done|].
    assert (length (projT2 c) = n) as Hlen by (inversion Hfit as [|f c' fields' cells' (_ & Hl & _) _]; exact Hl).
    rewrite Hlen. assert (forallb2 (fitsb n) fields (c :: cells) = true) as ->; [|by eexists].
    clear Hne Hm Hlen. induction Hfit as [|f c' fields cells' Hf _ IH]; [done|]. cbn [forallb2]. by rewrite (fitsb_fits n f c' Hf), IH.
Qed.
End Concrete.
