(* ===== verification/Models.v ===== *)
(** The telemetry records of [zradar-models/src]: spans, logs, metrics and
    evaluation scores, with their defaults and enums.

    [F] is [f64] and [zero] its [0.0]; the clock and the uuid generator of a
    default are arguments. *)

From stdpp Require Import base list strings.
From S2P Require Import Prelude.

Section Models.
Context {F : Type}.

Record Span := mkSpan {
  sp_trace_id : string;
  sp_span_id : string;
  sp_parent_span_id : string;
  sp_timestamp : Z;
  sp_duration_ns : Z;
  sp_workspace_id : string;
  sp_service_name : string;
  sp_span_name : string;
  sp_span_kind : string;
  sp_span_type : string;
  sp_status_code : string;
  sp_status_message : string;
  sp_invocation_id : string;
  sp_session_id : string;
  sp_user_id : string;
  sp_agent_name : string;
  sp_agent_type : string;
  sp_llm_model : string;
  sp_llm_input : string;
  sp_llm_output : string;
  sp_prompt_tokens : Z;
  sp_completion_tokens : Z;
  sp_total_tokens : Z;
  sp_prompt_cost_usd : F;
  sp_completion_cost_usd : F;
  sp_total_cost_usd : F;
  sp_tool_name : string;
  sp_tool_call_id : string;
  sp_rail_type : string;
  sp_rail_name : string;
  sp_rail_stop : Z;
  sp_action_name : string;
  sp_action_has_llm_calls : Z;
  sp_action_llm_calls_count : Z;
  sp_workflow_run_id : string;
  sp_framework : string;
  sp_llm_provider : string;
  sp_llm_response_model : string;
  sp_events : string;
  sp_llm_cache_hit : Z;
  sp_llm_response_id : string;
  sp_environment : string;
  sp_links : string;
  sp_resource_cpu_micros : Z;
  sp_resource_memory_bytes : Z;
  sp_resource_memory_peak : Z;
  sp_prompt_id : string;
  sp_prompt_name : string;
  sp_prompt_version : Z;
  sp_completion_start_time : option Z;
  sp_time_to_first_token_ms : Z;
  sp_agent_version : string;
  sp_sdk_version : string;
  sp_level : string;
  sp_db_system_name : string;
  sp_db_namespace : string;
  sp_db_operation_name : string;
  sp_db_query_text : string;
  sp_db_query_summary : string;
  sp_db_collection_name : string;
  sp_db_response_status_code : string;
  sp_agent_id : string;
  sp_agent_description : string;
  sp_agent_task_id : string;
  sp_agent_task_parent_id : string;
  sp_agent_task_name : string;
  sp_agent_task_kind : string;
  sp_agent_task_state : string;
  sp_agent_task_status : string;
  sp_memory_type : string;
  sp_memory_key : string;
  sp_mcp_tool_name : string;
  sp_mcp_server_name : string;
  sp_mcp_tool_input : string;
  sp_mcp_tool_output : string;
  sp_evaluation_name : string;
  sp_evaluation_explanation : string;
  sp_evaluation_passed : Z;
  sp_model_parameters : string;
  sp_attributes : string;
  sp_created_at : Z;
  sp_updated_at : Z;
  sp_is_deleted : Z;
}.

Record LogRecord := mkLogRecord {
  lr_id : string;
  lr_timestamp : Z;
  lr_workspace_id : string;
  lr_trace_id : string;
  lr_span_id : string;
  lr_severity : string;
  lr_service_name : string;
  lr_message : string;
  lr_attributes : string;
  lr_resource : string;
  lr_agent_name : string;
  lr_session_id : string;
  lr_user_id : string;
  lr_created_at : Z;
}.

Record Metric := mkMetric {
  mt_metric_name : string;
  mt_metric_type : string;
  mt_timestamp : Z;
  mt_workspace_id : string;
  mt_value : F;
  mt_count : Z;
  mt_sum : F;
  mt_min : F;
  mt_max : F;
  mt_service_name : string;
  mt_agent_name : string;
  mt_user_id : string;
  mt_session_id : string;
  mt_labels : string;
}.

Record EvaluationScore := mkScore {
  ev_id : string;
  ev_workspace_id : string;
  ev_timestamp : Z;
  ev_created_at : Z;
  ev_updated_at : Z;
  ev_event_ts : Z;
  ev_trace_id : string;
  ev_span_id : string;
  ev_session_id : string;
  ev_dataset_run_id : string;
  ev_name : string;
  ev_value : F;
  ev_data_type : string;
  ev_string_value : string;
  ev_source : string;
  ev_comment : string;
  ev_author_user_id : string;
  ev_config_id : string;
  ev_eval_execution_trace_id : string;
  ev_queue_id : string;
  ev_environment : string;
  ev_service_name : string;
  ev_agent_name : string;
  ev_user_id : string;
  ev_metadata : string;
  ev_is_deleted : Z;
}.

(** ** Defaults *)

Context (zero : F).

(** [Span::default], at the time [now]. *)
Definition span_default (now : Z) : Span :=
  mkSpan "" "" "" 0 0 "" "" "" "INTERNAL" "SPAN" "UNSET" "" "" "" "" "" "" "" "" "" 0 0 0 zero zero zero "" "" "" ""
    0 "" 0 0 "" "" "" "" "[]" (-1) "" "" "[]" 0 0 0 "" "" 0 None 0 "" "" "INFO" "" "" "" "" "" "" "" "" "" "" "" ""
    "" "" "" "" "" "" "" "" "" "" "" (-1) "{}" "{}" now now 0.

Definition log_default : LogRecord :=
  mkLogRecord "" 0 "" "" "" "" "" "" "" "" "" "" "" 0.

Definition metric_default : Metric :=
  mkMetric "" "" 0 "" zero 0 zero zero zero "" "" "" "" "".

(** [EvaluationScore::default], with the new id and the time. *)
Definition score_default (id : string) (now : Z) : EvaluationScore :=
  mkScore id "" now now now now "" "" "" "" "" zero "NUMERIC" "" "API" "" "" "" "" "" "default" "" "" "" "{}" 0.

(** ** Enums *)

Definition VALID_SPAN_TYPES : list string :=
  ["SPAN"; "EVENT"; "GENERATION"; "AGENT"; "TOOL"; "CHAIN"; "RETRIEVER"; "EVALUATOR"; "EMBEDDING"; "GUARDRAIL";
   "RERANKER"; "DATABASE"].
Definition validate_span_type (type_str : string) : bool := bool_decide (type_str ∈ VALID_SPAN_TYPES).
End Models.

Arguments Span F : clear implicits.
Arguments LogRecord : clear implicits.
Arguments Metric F : clear implicits.
Arguments EvaluationScore F : clear implicits.

Inductive MetricType := Counter | Gauge | Histogram | Summary.
Definition metric_type_string (mt : MetricType) : string :=
  match mt with Counter => "COUNTER" | Gauge => "GAUGE" | Histogram => "HISTOGRAM" | Summary => "SUMMARY" end.

Inductive EvalDataType := Numeric | Categorical | BooleanData.
Definition data_type_string (dt : EvalDataType) : string :=
  match dt with Numeric => "NUMERIC" | Categorical => "CATEGORICAL" | BooleanData => "BOOLEAN" end.
Definition data_type_try_from (s : string) : outcome string EvalDataType :=
  if decide (s = "NUMERIC") then Ok Numeric
  else if decide (s = "CATEGORICAL") then Ok Categorical
  else if decide (s = "BOOLEAN") then Ok BooleanData
  else Err ("Invalid data type: " +:+ s).

Inductive EvalSource := Annotation | Api | EvalRun.
Definition eval_source_string (src : EvalSource) : string :=
  match src with Annotation => "ANNOTATION" | Api => "API" | EvalRun => "EVAL" end.
Definition eval_source_try_from (s : string) : outcome string EvalSource :=
  if decide (s = "ANNOTATION") then Ok Annotation
  else if decide (s = "API") then Ok Api
  else if decide (s = "EVAL") then Ok EvalRun
  else Err ("Invalid source: " +:+ s).

Lemma data_type_roundtrip dt : data_type_try_from (data_type_string dt) = Ok dt.
Proof. by destruct dt. Qed.
Lemma eval_source_roundtrip src : eval_source_try_from (eval_source_string src) = Ok src.
Proof. by destruct src. Qed.

(** ** Field assignment *)

(** [s <| f := v |>] is [s] with field [f] set to [v], as a Rust assignment to
    a field of a mutable reference. *)
Class Setter {R T : Type} (proj : R → T) := set_field : T → R → R.
Arguments set_field {R T} proj {_} _ _.
Notation "s <| f := v |>" := (set_field f v s) (at level 12, left associativity, f at level 11, v at level 11).

Definition span_eta {F} (s : Span F) : Span F :=
  mkSpan (sp_trace_id s) (sp_span_id s) (sp_parent_span_id s) (sp_timestamp s) (sp_duration_ns s)
    (sp_workspace_id s) (sp_service_name s) (sp_span_name s) (sp_span_kind s) (sp_span_type s) (sp_status_code
    s) (sp_status_message s) (sp_invocation_id s) (sp_session_id s) (sp_user_id s) (sp_agent_name s)
    (sp_agent_type s) (sp_llm_model s) (sp_llm_input s) (sp_llm_output s) (sp_prompt_tokens s)
    (sp_completion_tokens s) (sp_total_tokens s) (sp_prompt_cost_usd s) (sp_completion_cost_usd s)
    (sp_total_cost_usd s) (sp_tool_name s) (sp_tool_call_id s) (sp_rail_type s) (sp_rail_name s) (sp_rail_stop
    s) (sp_action_name s) (sp_action_has_llm_calls s) (sp_action_llm_calls_count s) (sp_workflow_run_id s)
    (sp_framework s) (sp_llm_provider s) (sp_llm_response_model s) (sp_events s) (sp_llm_cache_hit s)
    (sp_llm_response_id s) (sp_environment s) (sp_links s) (sp_resource_cpu_micros s) (sp_resource_memory_bytes
    s) (sp_resource_memory_peak s) (sp_prompt_id s) (sp_prompt_name s) (sp_prompt_version s)
    (sp_completion_start_time s) (sp_time_to_first_token_ms s) (sp_agent_version s) (sp_sdk_version s) (sp_level
    s) (sp_db_system_name s) (sp_db_namespace s) (sp_db_operation_name s) (sp_db_query_text s)
    (sp_db_query_summary s) (sp_db_collection_name s) (sp_db_response_status_code s) (sp_agent_id s)
    (sp_agent_description s) (sp_agent_task_id s) (sp_agent_task_parent_id s) (sp_agent_task_name s)
    (sp_agent_task_kind s) (sp_agent_task_state s) (sp_agent_task_status s) (sp_memory_type s) (sp_memory_key s)
    (sp_mcp_tool_name s) (sp_mcp_server_name s) (sp_mcp_tool_input s) (sp_mcp_tool_output s) (sp_evaluation_name
    s) (sp_evaluation_explanation s) (sp_evaluation_passed s) (sp_model_parameters s) (sp_attributes s)
    (sp_created_at s) (sp_updated_at s) (sp_is_deleted s).

Definition score_eta {F} (s : EvaluationScore F) : EvaluationScore F :=
  mkScore (ev_id s) (ev_workspace_id s) (ev_timestamp s) (ev_created_at s) (ev_updated_at s) (ev_event_ts s)
    (ev_trace_id s) (ev_span_id s) (ev_session_id s) (ev_dataset_run_id s) (ev_name s) (ev_value s)
    (ev_data_type s) (ev_string_value s) (ev_source s) (ev_comment s) (ev_author_user_id s) (ev_config_id s)
    (ev_eval_execution_trace_id s) (ev_queue_id s) (ev_environment s) (ev_service_name s) (ev_agent_name s)
    (ev_user_id s) (ev_metadata s) (ev_is_deleted s).

(** Replaces the one occurrence of the field in [eta s]. *)
Ltac derive_setter_from eta :=
  lazymatch goal with
  | |- Setter ?proj =>
      let v := fresh "v" in let s := fresh "s" in
      unfold Setter; intros v s;
      let e := eval cbv beta delta [span_eta score_eta] in (eta s) in
      lazymatch eval pattern (proj s) in e with
      | ?g _ => let r := eval cbv beta in (g v) in exact r
      end
  end.

Section Setters.
Context {F : Type}.
#[export] Instance set_sp_trace_id : Setter (@sp_trace_id F). Proof. derive_setter_from (@span_eta F). Defined.
#[export] Instance set_sp_span_id : Setter (@sp_span_id F). Proof. derive_setter_from (@span_eta F). Defined.
#[export] Instance set_sp_parent_span_id : Setter (@sp_parent_span_id F). Proof. derive_setter_from (@span_eta F). Defined.
#[export] Instance set_sp_timestamp : Setter (@sp_timestamp F). Proof. derive_setter_from (@span_eta F). Defined.
#[export] Instance set_sp_duration_ns : Setter (@sp_duration_ns F). Proof. derive_setter_from (@span_eta F). Defined.
#[export] Instance set_sp_workspace_id : Setter (@sp_workspace_id F). Proof. derive_setter_from (@span_eta F). Defined.
#[export] Instance set_sp_service_name : Setter (@sp_service_name F). Proof. derive_setter_from (@span_eta F). Defined.
#[export] Instance set_sp_span_name : Setter (@sp_span_name F). Proof. derive_setter_from (@span_eta F). Defined.
#[export] Instance set_sp_span_kind : Setter (@sp_span_kind F). Proof. derive_setter_from (@span_eta F). Defined.
#[export] Instance set_sp_span_type : Setter (@sp_span_type F). Proof. derive_setter_from (@span_eta F). Defined.
#[export] Instance set_sp_status_code : Setter (@sp_status_code F). Proof. derive_setter_from (@span_eta F). Defined.
#[export] Instance set_sp_status_message : Setter (@sp_status_message F). Proof. derive_setter_from (@span_eta F). Defined.
#[export] Instance set_sp_invocation_id : Setter (@sp_invocation_id F). Proof. derive_setter_from (@span_eta F). Defined.
#[export] Instance set_sp_session_id : Setter (@sp_session_id F). Proof. derive_setter_from (@span_eta F). Defined.
#[export] Instance set_sp_user_id : Setter (@sp_user_id F). Proof. derive_setter_from (@span_eta F). Defined.
#[export] Instance set_sp_agent_name : Setter (@sp_agent_name F). Proof. derive_setter_from (@span_eta F). Defined.
#[export] Instance set_sp_agent_type : Setter (@sp_agent_type F). Proof. derive_setter_from (@span_eta F). Defined.
#[export] Instance set_sp_llm_model : Setter (@sp_llm_model F). Proof. derive_setter_from (@span_eta F). Defined.
#[export] Instance set_sp_llm_input : Setter (@sp_llm_input F). Proof. derive_setter_from (@span_eta F). Defined.
#[export] Instance set_sp_llm_output : Setter (@sp_llm_output F). Proof. derive_setter_from (@span_eta F). Defined.
#[export] Instance set_sp_prompt_tokens : Setter (@sp_prompt_tokens F). Proof. derive_setter_from (@span_eta F). Defined.
#[export] Instance set_sp_completion_tokens : Setter (@sp_completion_tokens F). Proof. derive_setter_from (@span_eta F). Defined.
#[export] Instance set_sp_total_tokens : Setter (@sp_total_tokens F). Proof. derive_setter_from (@span_eta F). Defined.
#[export] Instance set_sp_prompt_cost_usd : Setter (@sp_prompt_cost_usd F). Proof. derive_setter_from (@span_eta F). Defined.
#[export] Instance set_sp_completion_cost_usd : Setter (@sp_completion_cost_usd F). Proof. derive_setter_from (@span_eta F). Defined.
#[export] Instance set_sp_total_cost_usd : Setter (@sp_total_cost_usd F). Proof. derive_setter_from (@span_eta F). Defined.
#[export] Instance set_sp_tool_name : Setter (@sp_tool_name F). Proof. derive_setter_from (@span_eta F). Defined.
#[export] Instance set_sp_tool_call_id : Setter (@sp_tool_call_id F). Proof. derive_setter_from (@span_eta F). Defined.
#[export] Instance set_sp_rail_type : Setter (@sp_rail_type F). Proof. derive_setter_from (@span_eta F). Defined.
#[export] Instance set_sp_rail_name : Setter (@sp_rail_name F). Proof. derive_setter_from (@span_eta F). Defined.
#[export] Instance set_sp_rail_stop : Setter (@sp_rail_stop F). Proof. derive_setter_from (@span_eta F). Defined.
#[export] Instance set_sp_action_name : Setter (@sp_action_name F). Proof. derive_setter_from (@span_eta F). Defined.
#[export] Instance set_sp_action_has_llm_calls : Setter (@sp_action_has_llm_calls F). Proof. derive_setter_from (@span_eta F). Defined.
#[export] Instance set_sp_action_llm_calls_count : Setter (@sp_action_llm_calls_count F). Proof. derive_setter_from (@span_eta F). Defined.
#[export] Instance set_sp_workflow_run_id : Setter (@sp_workflow_run_id F). Proof. derive_setter_from (@span_eta F). Defined.
#[export] Instance set_sp_framework : Setter (@sp_framework F). Proof. derive_setter_from (@span_eta F). Defined.
#[export] Instance set_sp_llm_provider : Setter (@sp_llm_provider F). Proof. derive_setter_from (@span_eta F). Defined.
#[export] Instance set_sp_llm_response_model : Setter (@sp_llm_response_model F). Proof. derive_setter_from (@span_eta F). Defined.
#[export] Instance set_sp_events : Setter (@sp_events F). Proof. derive_setter_from (@span_eta F). Defined.
#[export] Instance set_sp_llm_cache_hit : Setter (@sp_llm_cache_hit F). Proof. derive_setter_from (@span_eta F). Defined.
#[export] Instance set_sp_llm_response_id : Setter (@sp_llm_response_id F). Proof. derive_setter_from (@span_eta F). Defined.
#[export] Instance set_sp_environment : Setter (@sp_environment F). Proof. derive_setter_from (@span_eta F). Defined.
#[export] Instance set_sp_links : Setter (@sp_links F). Proof. derive_setter_from (@span_eta F). Defined.
#[export] Instance set_sp_resource_cpu_micros : Setter (@sp_resource_cpu_micros F). Proof. derive_setter_from (@span_eta F). Defined.
#[export] Instance set_sp_resource_memory_bytes : Setter (@sp_resource_memory_bytes F). Proof. derive_setter_from (@span_eta F). Defined.
#[export] Instance set_sp_resource_memory_peak : Setter (@sp_resource_memory_peak F). Proof. derive_setter_from (@span_eta F). Defined.
#[export] Instance set_sp_prompt_id : Setter (@sp_prompt_id F). Proof. derive_setter_from (@span_eta F). Defined.
#[export] Instance set_sp_prompt_name : Setter (@sp_prompt_name F). Proof. derive_setter_from (@span_eta F). Defined.
#[export] Instance set_sp_prompt_version : Setter (@sp_prompt_version F). Proof. derive_setter_from (@span_eta F). Defined.
#[export] Instance set_sp_completion_start_time : Setter (@sp_completion_start_time F). Proof. derive_setter_from (@span_eta F). Defined.
#[export] Instance set_sp_time_to_first_token_ms : Setter (@sp_time_to_first_token_ms F). Proof. derive_setter_from (@span_eta F). Defined.
#[export] Instance set_sp_agent_version : Setter (@sp_agent_version F). Proof. derive_setter_from (@span_eta F). Defined.
#[export] Instance set_sp_sdk_version : Setter (@sp_sdk_version F). Proof. derive_setter_from (@span_eta F). Defined.
#[export] Instance set_sp_level : Setter (@sp_level F). Proof. derive_setter_from (@span_eta F). Defined.
#[export] Instance set_sp_db_system_name : Setter (@sp_db_system_name F). Proof. derive_setter_from (@span_eta F). Defined.
#[export] Instance set_sp_db_namespace : Setter (@sp_db_namespace F). Proof. derive_setter_from (@span_eta F). Defined.
#[export] Instance set_sp_db_operation_name : Setter (@sp_db_operation_name F). Proof. derive_setter_from (@span_eta F). Defined.
#[export] Instance set_sp_db_query_text : Setter (@sp_db_query_text F). Proof. derive_setter_from (@span_eta F). Defined.
#[export] Instance set_sp_db_query_summary : Setter (@sp_db_query_summary F). Proof. derive_setter_from (@span_eta F). Defined.
#[export] Instance set_sp_db_collection_name : Setter (@sp_db_collection_name F). Proof. derive_setter_from (@span_eta F). Defined.
#[export] Instance set_sp_db_response_status_code : Setter (@sp_db_response_status_code F). Proof. derive_setter_from (@span_eta F). Defined.
#[export] Instance set_sp_agent_id : Setter (@sp_agent_id F). Proof. derive_setter_from (@span_eta F). Defined.
#[export] Instance set_sp_agent_description : Setter (@sp_agent_description F). Proof. derive_setter_from (@span_eta F). Defined.
#[export] Instance set_sp_agent_task_id : Setter (@sp_agent_task_id F). Proof. derive_setter_from (@span_eta F). Defined.
#[export] Instance set_sp_agent_task_parent_id : Setter (@sp_agent_task_parent_id F). Proof. derive_setter_from (@span_eta F). Defined.
#[export] Instance set_sp_agent_task_name : Setter (@sp_agent_task_name F). Proof. derive_setter_from (@span_eta F). Defined.
#[export] Instance set_sp_agent_task_kind : Setter (@sp_agent_task_kind F). Proof. derive_setter_from (@span_eta F). Defined.
#[export] Instance set_sp_agent_task_state : Setter (@sp_agent_task_state F). Proof. derive_setter_from (@span_eta F). Defined.
#[export] Instance set_sp_agent_task_status : Setter (@sp_agent_task_status F). Proof. derive_setter_from (@span_eta F). Defined.
#[export] Instance set_sp_memory_type : Setter (@sp_memory_type F). Proof. derive_setter_from (@span_eta F). Defined.
#[export] Instance set_sp_memory_key : Setter (@sp_memory_key F). Proof. derive_setter_from (@span_eta F). Defined.
#[export] Instance set_sp_mcp_tool_name : Setter (@sp_mcp_tool_name F). Proof. derive_setter_from (@span_eta F). Defined.
#[export] Instance set_sp_mcp_server_name : Setter (@sp_mcp_server_name F). Proof. derive_setter_from (@span_eta F). Defined.
#[export] Instance set_sp_mcp_tool_input : Setter (@sp_mcp_tool_input F). Proof. derive_setter_from (@span_eta F). Defined.
#[export] Instance set_sp_mcp_tool_output : Setter (@sp_mcp_tool_output F). Proof. derive_setter_from (@span_eta F). Defined.
#[export] Instance set_sp_evaluation_name : Setter (@sp_evaluation_name F). Proof. derive_setter_from (@span_eta F). Defined.
#[export] Instance set_sp_evaluation_explanation : Setter (@sp_evaluation_explanation F). Proof. derive_setter_from (@span_eta F). Defined.
#[export] Instance set_sp_evaluation_passed : Setter (@sp_evaluation_passed F). Proof. derive_setter_from (@span_eta F). Defined.
#[export] Instance set_sp_model_parameters : Setter (@sp_model_parameters F). Proof. derive_setter_from (@span_eta F). Defined.
#[export] Instance set_sp_attributes : Setter (@sp_attributes F). Proof. derive_setter_from (@span_eta F). Defined.
#[export] Instance set_sp_created_at : Setter (@sp_created_at F). Proof. derive_setter_from (@span_eta F). Defined.
#[export] Instance set_sp_updated_at : Setter (@sp_updated_at F). Proof. derive_setter_from (@span_eta F). Defined.
#[export] Instance set_sp_is_deleted : Setter (@sp_is_deleted F). Proof. derive_setter_from (@span_eta F). Defined.
#[export] Instance set_ev_id : Setter (@ev_id F). Proof. derive_setter_from (@score_eta F). Defined.
#[export] Instance set_ev_workspace_id : Setter (@ev_workspace_id F). Proof. derive_setter_from (@score_eta F). Defined.
#[export] Instance set_ev_timestamp : Setter (@ev_timestamp F). Proof. derive_setter_from (@score_eta F). Defined.
#[export] Instance set_ev_created_at : Setter (@ev_created_at F). Proof. derive_setter_from (@score_eta F). Defined.
#[export] Instance set_ev_updated_at : Setter (@ev_updated_at F). Proof. derive_setter_from (@score_eta F). Defined.
#[export] Instance set_ev_event_ts : Setter (@ev_event_ts F). Proof. derive_setter_from (@score_eta F). Defined.
#[export] Instance set_ev_trace_id : Setter (@ev_trace_id F). Proof. derive_setter_from (@score_eta F). Defined.
#[export] Instance set_ev_span_id : Setter (@ev_span_id F). Proof. derive_setter_from (@score_eta F). Defined.
#[export] Instance set_ev_session_id : Setter (@ev_session_id F). Proof. derive_setter_from (@score_eta F). Defined.
#[export] Instance set_ev_dataset_run_id : Setter (@ev_dataset_run_id F). Proof. derive_setter_from (@score_eta F). Defined.
#[export] Instance set_ev_name : Setter (@ev_name F). Proof. derive_setter_from (@score_eta F). Defined.
#[export] Instance set_ev_value : Setter (@ev_value F). Proof. derive_setter_from (@score_eta F). Defined.
#[export] Instance set_ev_data_type : Setter (@ev_data_type F). Proof. derive_setter_from (@score_eta F). Defined.
#[export] Instance set_ev_string_value : Setter (@ev_string_value F). Proof. derive_setter_from (@score_eta F). Defined.
#[export] Instance set_ev_source : Setter (@ev_source F). Proof. derive_setter_from (@score_eta F). Defined.
#[export] Instance set_ev_comment : Setter (@ev_comment F). Proof. derive_setter_from (@score_eta F). Defined.
#[export] Instance set_ev_author_user_id : Setter (@ev_author_user_id F). Proof. derive_setter_from (@score_eta F). Defined.
#[export] Instance set_ev_config_id : Setter (@ev_config_id F). Proof. derive_setter_from (@score_eta F). Defined.
#[export] Instance set_ev_eval_execution_trace_id : Setter (@ev_eval_execution_trace_id F). Proof. derive_setter_from (@score_eta F). Defined.
#[export] Instance set_ev_queue_id : Setter (@ev_queue_id F). Proof. derive_setter_from (@score_eta F). Defined.
#[export] Instance set_ev_environment : Setter (@ev_environment F). Proof. derive_setter_from (@score_eta F). Defined.
#[export] Instance set_ev_service_name : Setter (@ev_service_name F). Proof. derive_setter_from (@score_eta F). Defined.
#[export] Instance set_ev_agent_name : Setter (@ev_agent_name F). Proof. derive_setter_from (@score_eta F). Defined.
#[export] Instance set_ev_user_id : Setter (@ev_user_id F). Proof. derive_setter_from (@score_eta F). Defined.
#[export] Instance set_ev_metadata : Setter (@ev_metadata F). Proof. derive_setter_from (@score_eta F). Defined.
#[export] Instance set_ev_is_deleted : Setter (@ev_is_deleted F). Proof. derive_setter_from (@score_eta F). Defined.
End Setters.
