(* ===== verification/Schema.v ===== *)
(** The Arrow schemas of logs, metrics and scores:
    [zradar-parquet/src/schema/{logs,metrics,scores}.rs].

    A batch is built from rows column by column and read back row by row;
    [records_roundtrip] says that the one inverts the other, and [logs_read] and
    its likes what reading makes of a batch that lacks columns. *)

From stdpp Require Import base list strings.
From S2P Require Import Prelude Arrow Models.

Section Schema.
Context {F : Type} `{Arrow F}.
Abbreviation Metric := (Metric F).
Abbreviation EvaluationScore := (EvaluationScore F).

(** ** LogRecord *)

Definition log_arrow_schema : list Field :=
  [mkField "id" Utf8 false; mkField "timestamp" Int64 false; mkField "workspace_id" Utf8 false;
   mkField "trace_id" Utf8 false; mkField "span_id" Utf8 false; mkField "severity" Utf8 false;
   mkField "service_name" Utf8 false; mkField "message" Utf8 false; mkField "attributes" Utf8 false;
   mkField "resource" Utf8 false; mkField "agent_name" Utf8 false; mkField "session_id" Utf8 false;
   mkField "user_id" Utf8 false; mkField "created_at" Int64 false].

Definition log_columns (logs : list LogRecord) : list (Cells F) :=
  let id := column Utf8 lr_id logs in
  let timestamp := column Int64 lr_timestamp logs in
  let workspace_id := column Utf8 lr_workspace_id logs in
  let trace_id := column Utf8 lr_trace_id logs in
  let span_id := column Utf8 lr_span_id logs in
  let severity := column Utf8 lr_severity logs in
  let service_name := column Utf8 lr_service_name logs in
  let message := column Utf8 lr_message logs in
  let attributes := column Utf8 lr_attributes logs in
  let resource := column Utf8 lr_resource logs in
  let agent_name := column Utf8 lr_agent_name logs in
  let session_id := column Utf8 lr_session_id logs in
  let user_id := column Utf8 lr_user_id logs in
  let created_at := column Int64 lr_created_at logs in
  [id; timestamp; workspace_id; trace_id; span_id; severity; service_name; message; attributes; resource; agent_name;
   session_id; user_id; created_at].
Definition logs_to_record_batch (logs : list LogRecord) : option RecordBatch :=
  try_new log_arrow_schema (map to_array (log_columns logs)).

Definition record_batch_to_logs (b : RecordBatch) : outcome SchemaError (list LogRecord) :=
  if (num_rows b =? 0)%nat then Ok [] else
  id_col ← col Utf8 b "id";
  timestamp_col ← col Int64 b "timestamp";
  workspace_id_col ← col Utf8 b "workspace_id";
  trace_id_col ← col Utf8 b "trace_id";
  span_id_col ← col Utf8 b "span_id";
  severity_col ← col Utf8 b "severity";
  service_name_col ← col Utf8 b "service_name";
  message_col ← col Utf8 b "message";
  attributes_col ← col Utf8 b "attributes";
  resource_col ← col Utf8 b "resource";
  agent_name_col ← col Utf8 b "agent_name";
  session_id_col ← col Utf8 b "session_id";
  user_id_col ← col Utf8 b "user_id";
  created_at_col ← col Int64 b "created_at";
  mret (map (λ i,
    mkLogRecord (value Utf8 id_col i) (value Int64 timestamp_col i) (value Utf8 workspace_id_col i)
      (value Utf8 trace_id_col i) (value Utf8 span_id_col i) (value Utf8 severity_col i)
      (value Utf8 service_name_col i) (value Utf8 message_col i) (value Utf8 attributes_col i)
      (value Utf8 resource_col i) (value Utf8 agent_name_col i) (value Utf8 session_id_col i)
      (value Utf8 user_id_col i) (value Int64 created_at_col i)) (seq 0 (num_rows b))).

(** ** Metric *)

Definition metric_arrow_schema : list Field :=
  [mkField "metric_name" Utf8 false; mkField "metric_type" Utf8 false; mkField "timestamp" Int64 false;
   mkField "workspace_id" Utf8 false; mkField "value" Float64 false; mkField "count" Int64 false;
   mkField "sum" Float64 false; mkField "min" Float64 false; mkField "max" Float64 false;
   mkField "service_name" Utf8 false; mkField "agent_name" Utf8 false; mkField "user_id" Utf8 false;
   mkField "session_id" Utf8 false; mkField "labels" Utf8 false].

Definition metric_columns (metrics : list Metric) : list (Cells F) :=
  let metric_name := column Utf8 mt_metric_name metrics in
  let metric_type := column Utf8 mt_metric_type metrics in
  let timestamp := column Int64 mt_timestamp metrics in
  let workspace_id := column Utf8 mt_workspace_id metrics in
  let value := column Float64 mt_value metrics in
  let count := column Int64 mt_count metrics in
  let sum := column Float64 mt_sum metrics in
  let min := column Float64 mt_min metrics in
  let max := column Float64 mt_max metrics in
  let service_name := column Utf8 mt_service_name metrics in
  let agent_name := column Utf8 mt_agent_name metrics in
  let user_id := column Utf8 mt_user_id metrics in
  let session_id := column Utf8 mt_session_id metrics in
  let labels := column Utf8 mt_labels metrics in
  [metric_name; metric_type; timestamp; workspace_id; value; count; sum; min; max; service_name; agent_name; user_id;
   session_id; labels].
Definition metrics_to_record_batch (metrics : list Metric) : option RecordBatch :=
  try_new metric_arrow_schema (map to_array (metric_columns metrics)).

Definition record_batch_to_metrics (b : RecordBatch) : outcome SchemaError (list Metric) :=
  if (num_rows b =? 0)%nat then Ok [] else
  metric_name_col ← col Utf8 b "metric_name";
  metric_type_col ← col Utf8 b "metric_type";
  timestamp_col ← col Int64 b "timestamp";
  workspace_id_col ← col Utf8 b "workspace_id";
  value_col ← col Float64 b "value";
  count_col ← col Int64 b "count";
  sum_col ← col Float64 b "sum";
  min_col ← col Float64 b "min";
  max_col ← col Float64 b "max";
  service_name_col ← col Utf8 b "service_name";
  agent_name_col ← col Utf8 b "agent_name";
  user_id_col ← col Utf8 b "user_id";
  session_id_col ← col Utf8 b "session_id";
  labels_col ← col Utf8 b "labels";
  mret (map (λ i,
    mkMetric (value Utf8 metric_name_col i) (value Utf8 metric_type_col i) (value Int64 timestamp_col i)
      (value Utf8 workspace_id_col i) (value Float64 value_col i) (value Int64 count_col i) (value Float64 sum_col i)
      (value Float64 min_col i) (value Float64 max_col i) (value Utf8 service_name_col i)
      (value Utf8 agent_name_col i) (value Utf8 user_id_col i) (value Utf8 session_id_col i) (value Utf8 labels_col i)) (seq 0 (num_rows b))).

(** ** EvaluationScore *)

Definition score_arrow_schema : list Field :=
  [mkField "id" Utf8 false; mkField "workspace_id" Utf8 false; mkField "timestamp" Int64 false;
   mkField "created_at" Int64 false; mkField "updated_at" Int64 false; mkField "event_ts" Int64 false;
   mkField "trace_id" Utf8 false; mkField "span_id" Utf8 false; mkField "session_id" Utf8 false;
   mkField "dataset_run_id" Utf8 false; mkField "name" Utf8 false; mkField "value" Float64 false;
   mkField "data_type" Utf8 false; mkField "string_value" Utf8 false; mkField "source" Utf8 false;
   mkField "comment" Utf8 false; mkField "author_user_id" Utf8 false; mkField "config_id" Utf8 false;
   mkField "eval_execution_trace_id" Utf8 false; mkField "queue_id" Utf8 false; mkField "environment" Utf8 false;
   mkField "service_name" Utf8 false; mkField "agent_name" Utf8 false; mkField "user_id" Utf8 false;
   mkField "metadata" Utf8 false; mkField "is_deleted" Int16 false].

Definition score_columns (scores : list EvaluationScore) : list (Cells F) :=
  let id := column Utf8 ev_id scores in
  let workspace_id := column Utf8 ev_workspace_id scores in
  let timestamp := column Int64 ev_timestamp scores in
  let created_at := column Int64 ev_created_at scores in
  let updated_at := column Int64 ev_updated_at scores in
  let event_ts := column Int64 ev_event_ts scores in
  let trace_id := column Utf8 ev_trace_id scores in
  let span_id := column Utf8 ev_span_id scores in
  let session_id := column Utf8 ev_session_id scores in
  let dataset_run_id := column Utf8 ev_dataset_run_id scores in
  let name := column Utf8 ev_name scores in
  let value := column Float64 ev_value scores in
  let data_type := column Utf8 ev_data_type scores in
  let string_value := column Utf8 ev_string_value scores in
  let source := column Utf8 ev_source scores in
  let comment := column Utf8 ev_comment scores in
  let author_user_id := column Utf8 ev_author_user_id scores in
  let config_id := column Utf8 ev_config_id scores in
  let eval_execution_trace_id := column Utf8 ev_eval_execution_trace_id scores in
  let queue_id := column Utf8 ev_queue_id scores in
  let environment := column Utf8 ev_environment scores in
  let service_name := column Utf8 ev_service_name scores in
  let agent_name := column Utf8 ev_agent_name scores in
  let user_id := column Utf8 ev_user_id scores in
  let metadata := column Utf8 ev_metadata scores in
  let is_deleted := column Int16 ev_is_deleted scores in
  [id; workspace_id; timestamp; created_at; updated_at; event_ts; trace_id; span_id; session_id; dataset_run_id;
   name; value; data_type; string_value; source; comment; author_user_id; config_id; eval_execution_trace_id;
   queue_id; environment; service_name; agent_name; user_id; metadata; is_deleted].
Definition scores_to_record_batch (scores : list EvaluationScore) : option RecordBatch :=
  try_new score_arrow_schema (map to_array (score_columns scores)).

Definition record_batch_to_scores (b : RecordBatch) : outcome SchemaError (list EvaluationScore) :=
  if (num_rows b =? 0)%nat then Ok [] else
  id_col ← col Utf8 b "id";
  workspace_id_col ← col Utf8 b "workspace_id";
  timestamp_col ← col Int64 b "timestamp";
  created_at_col ← col Int64 b "created_at";
  updated_at_col ← col Int64 b "updated_at";
  event_ts_col ← col Int64 b "event_ts";
  trace_id_col ← col Utf8 b "trace_id";
  span_id_col ← col Utf8 b "span_id";
  session_id_col ← col Utf8 b "session_id";
  dataset_run_id_col ← col Utf8 b "dataset_run_id";
  name_col ← col Utf8 b "name";
  value_col ← col Float64 b "value";
  data_type_col ← col Utf8 b "data_type";
  string_value_col ← col Utf8 b "string_value";
  source_col ← col Utf8 b "source";
  comment_col ← col Utf8 b "comment";
  author_user_id_col ← col Utf8 b "author_user_id";
  config_id_col ← col Utf8 b "config_id";
  eval_execution_trace_id_col ← col Utf8 b "eval_execution_trace_id";
  queue_id_col ← col Utf8 b "queue_id";
  environment_col ← col Utf8 b "environment";
  service_name_col ← col Utf8 b "service_name";
  agent_name_col ← col Utf8 b "agent_name";
  user_id_col ← col Utf8 b "user_id";
  metadata_col ← col Utf8 b "metadata";
  is_deleted_col ← col Int16 b "is_deleted";
  mret (map (λ i,
    mkScore (value Utf8 id_col i) (value Utf8 workspace_id_col i) (value Int64 timestamp_col i)
      (value Int64 created_at_col i) (value Int64 updated_at_col i) (value Int64 event_ts_col i)
      (value Utf8 trace_id_col i) (value Utf8 span_id_col i) (value Utf8 session_id_col i)
      (value Utf8 dataset_run_id_col i) (value Utf8 name_col i) (value Float64 value_col i)
      (value Utf8 data_type_col i) (value Utf8 string_value_col i) (value Utf8 source_col i)
      (value Utf8 comment_col i) (value Utf8 author_user_id_col i) (value Utf8 config_id_col i)
      (value Utf8 eval_execution_trace_id_col i) (value Utf8 queue_id_col i) (value Utf8 environment_col i)
      (value Utf8 service_name_col i) (value Utf8 agent_name_col i) (value Utf8 user_id_col i)
      (value Utf8 metadata_col i) (value Int16 is_deleted_col i)) (seq 0 (num_rows b))).

(** ** Lemmas *)

Context `{!ArrowLaws F}.

Lemma log_columns_fit rows : Forall2 (fits (length rows)) log_arrow_schema (log_columns rows).
Proof. apply column_fits. fit_columns. Qed.

Lemma logs_read keep b (rows : list LogRecord) : num_rows b = length rows → rows ≠ [] → kept_of keep b log_arrow_schema (log_columns rows) →
  record_batch_to_logs b = missing_or keep (map fd_name log_arrow_schema) rows.
Proof.
  intros Hn Hne Hb. unfold record_batch_to_logs. rewrite (num_rows_pos rows) by done. rewrite Hn. read_columns Hb.
  change (missing_or _ _ rows) with (@Ok SchemaError _ rows). ostep. f_equal. rewrite (rebuild_rows _ id); [apply list_fmap_id|].
  intros i r Hr. rewrite !(value_cells _ _ _ _ _ Hr). by destruct r.
Qed.

Lemma metric_columns_fit rows : Forall2 (fits (length rows)) metric_arrow_schema (metric_columns rows).
Proof. apply column_fits. fit_columns. Qed.

Lemma metrics_read keep b (rows : list Metric) : num_rows b = length rows → rows ≠ [] → kept_of keep b metric_arrow_schema (metric_columns rows) →
  record_batch_to_metrics b = missing_or keep (map fd_name metric_arrow_schema) rows.
Proof.
  intros Hn Hne Hb. unfold record_batch_to_metrics. rewrite (num_rows_pos rows) by done. rewrite Hn. read_columns Hb.
  change (missing_or _ _ rows) with (@Ok SchemaError _ rows). ostep. f_equal. rewrite (rebuild_rows _ id); [apply list_fmap_id|].
  intros i r Hr. rewrite !(value_cells _ _ _ _ _ Hr). by destruct r.
Qed.

Lemma score_columns_fit rows : Forall2 (fits (length rows)) score_arrow_schema (score_columns rows).
Proof. apply column_fits. fit_columns. Qed.

Lemma scores_read keep b (rows : list EvaluationScore) : num_rows b = length rows → rows ≠ [] → kept_of keep b score_arrow_schema (score_columns rows) →
  record_batch_to_scores b = missing_or keep (map fd_name score_arrow_schema) rows.
Proof.
  intros Hn Hne Hb. unfold record_batch_to_scores. rewrite (num_rows_pos rows) by done. rewrite Hn. read_columns Hb.
  change (missing_or _ _ rows) with (@Ok SchemaError _ rows). ostep. f_equal. rewrite (rebuild_rows _ id); [apply list_fmap_id|].
  intros i r Hr. rewrite !(value_cells _ _ _ _ _ Hr). by destruct r.
Qed.

(** ** Theorems *)

(** Logs, metrics and scores survive the columns: a batch is built from any
    rows, it has as many rows, and reading it gives the rows back. *)
Theorem records_roundtrip (logs : list LogRecord) (metrics : list Metric) (scores : list EvaluationScore) :
  (∃ b, logs_to_record_batch logs = Some b ∧ num_rows b = length logs ∧ record_batch_to_logs b = Ok logs) ∧
  (∃ b, metrics_to_record_batch metrics = Some b ∧ num_rows b = length metrics ∧ record_batch_to_metrics b = Ok metrics) ∧
  (∃ b, scores_to_record_batch scores = Some b ∧ num_rows b = length scores ∧ record_batch_to_scores b = Ok scores).
Proof.
  split; [|split].
  - destruct (built_kept log_arrow_schema logs (log_columns logs)) as (b & Hb & Hn & Hk); [done|apply log_columns_fit|].
    exists b. split; [done|]. split; [done|]. destruct (decide (logs = [])) as [->|Hne]; [unfold record_batch_to_logs; by rewrite Hn|].
    by rewrite (logs_read _ b logs Hn Hne Hk), missing_none.
  - destruct (built_kept metric_arrow_schema metrics (metric_columns metrics)) as (b & Hb & Hn & Hk); [done|apply metric_columns_fit|].
    exists b. split; [done|]. split; [done|]. destruct (decide (metrics = [])) as [->|Hne]; [unfold record_batch_to_metrics; by rewrite Hn|].
    by rewrite (metrics_read _ b metrics Hn Hne Hk), missing_none.
  - destruct (built_kept score_arrow_schema scores (score_columns scores)) as (b & Hb & Hn & Hk); [done|apply score_columns_fit|].
    exists b. split; [done|]. split; [done|]. destruct (decide (scores = [])) as [->|Hne]; [unfold record_batch_to_scores; by rewrite Hn|].
    by rewrite (scores_read _ b scores Hn Hne Hk), missing_none.
Qed.
End Schema.
