(* ===== verification/SpanSchema.v ===== *)
(** The Arrow schema of spans: [zradar-parquet/src/schema/spans.rs].

    Columns added after the first schema are read leniently: a file that lacks
    them gives the default. *)

From stdpp Require Import base list strings.
From S2P Require Import Prelude Arrow Models Schema.

Section SpanSchema.
Context {F : Type} `{Arrow F}.
Abbreviation Span := (Span F).

Definition span_arrow_schema : list Field :=
  [mkField "trace_id" Utf8 false; mkField "span_id" Utf8 false; mkField "parent_span_id" Utf8 false;
   mkField "timestamp" Int64 false; mkField "duration_ns" Int64 false; mkField "workspace_id" Utf8 false;
   mkField "service_name" Utf8 false; mkField "span_name" Utf8 false; mkField "span_kind" Utf8 false;
   mkField "span_type" Utf8 false; mkField "status_code" Utf8 false; mkField "status_message" Utf8 false;
   mkField "invocation_id" Utf8 false; mkField "session_id" Utf8 false; mkField "user_id" Utf8 false;
   mkField "agent_name" Utf8 false; mkField "agent_type" Utf8 false; mkField "llm_model" Utf8 false;
   mkField "llm_input" Utf8 false; mkField "llm_output" Utf8 false; mkField "prompt_tokens" Int32 false;
   mkField "completion_tokens" Int32 false; mkField "total_tokens" Int32 false;
   mkField "prompt_cost_usd" Float64 false; mkField "completion_cost_usd" Float64 false;
   mkField "total_cost_usd" Float64 false; mkField "tool_name" Utf8 false; mkField "tool_call_id" Utf8 false;
   mkField "rail_type" Utf8 false; mkField "rail_name" Utf8 false; mkField "rail_stop" Int16 false;
   mkField "action_name" Utf8 false; mkField "action_has_llm_calls" Int16 false;
   mkField "action_llm_calls_count" Int32 false; mkField "workflow_run_id" Utf8 false;
   mkField "framework" Utf8 false; mkField "llm_provider" Utf8 false; mkField "llm_response_model" Utf8 false;
   mkField "events" Utf8 false; mkField "llm_cache_hit" Int16 false; mkField "llm_response_id" Utf8 false;
   mkField "environment" Utf8 false; mkField "links" Utf8 false; mkField "resource_cpu_micros" Int64 false;
   mkField "resource_memory_bytes" Int64 false; mkField "resource_memory_peak" Int64 false;
   mkField "prompt_id" Utf8 false; mkField "prompt_name" Utf8 false; mkField "prompt_version" Int32 false;
   mkField "completion_start_time" Int64 true; mkField "time_to_first_token_ms" Int32 false;
   mkField "agent_version" Utf8 false; mkField "sdk_version" Utf8 false; mkField "level" Utf8 false;
   mkField "db_system_name" Utf8 false; mkField "db_namespace" Utf8 false; mkField "db_operation_name" Utf8 false;
   mkField "db_query_text" Utf8 false; mkField "db_query_summary" Utf8 false;
   mkField "db_collection_name" Utf8 false; mkField "db_response_status_code" Utf8 false;
   mkField "agent_id" Utf8 false; mkField "agent_description" Utf8 false; mkField "agent_task_id" Utf8 false;
   mkField "agent_task_parent_id" Utf8 false; mkField "agent_task_name" Utf8 false;
   mkField "agent_task_kind" Utf8 false; mkField "agent_task_state" Utf8 false;
   mkField "agent_task_status" Utf8 false; mkField "memory_type" Utf8 false; mkField "memory_key" Utf8 false;
   mkField "mcp_tool_name" Utf8 false; mkField "mcp_server_name" Utf8 false; mkField "mcp_tool_input" Utf8 false;
   mkField "mcp_tool_output" Utf8 false; mkField "evaluation_name" Utf8 false;
   mkField "evaluation_explanation" Utf8 false; mkField "evaluation_passed" Int16 false;
   mkField "model_parameters" Utf8 false; mkField "attributes" Utf8 false; mkField "created_at" Int64 false;
   mkField "updated_at" Int64 false; mkField "is_deleted" Int16 false].

(** The columns of [spans_to_record_batch], in the order of the schema. *)
Definition span_core_columns (spans : list Span) : list (Cells F) :=
  [column Utf8 sp_trace_id spans;
   column Utf8 sp_span_id spans;
   column Utf8 sp_parent_span_id spans;
   column Int64 sp_timestamp spans;
   column Int64 sp_duration_ns spans;
   column Utf8 sp_workspace_id spans;
   column Utf8 sp_service_name spans;
   column Utf8 sp_span_name spans;
   column Utf8 sp_span_kind spans;
   column Utf8 sp_span_type spans;
   column Utf8 sp_status_code spans;
   column Utf8 sp_status_message spans;
   column Utf8 sp_invocation_id spans;
   column Utf8 sp_session_id spans;
   column Utf8 sp_user_id spans;
   column Utf8 sp_agent_name spans;
   column Utf8 sp_agent_type spans;
   column Utf8 sp_llm_model spans;
   column Utf8 sp_llm_input spans;
   column Utf8 sp_llm_output spans;
   column Int32 sp_prompt_tokens spans;
   column Int32 sp_completion_tokens spans;
   column Int32 sp_total_tokens spans;
   column Float64 sp_prompt_cost_usd spans;
   column Float64 sp_completion_cost_usd spans;
   column Float64 sp_total_cost_usd spans;
   column Utf8 sp_tool_name spans;
   column Utf8 sp_tool_call_id spans].

Definition span_agent_columns (spans : list Span) : list (Cells F) :=
  [column Utf8 sp_rail_type spans;
   column Utf8 sp_rail_name spans;
   column Int16 sp_rail_stop spans;
   column Utf8 sp_action_name spans;
   column Int16 sp_action_has_llm_calls spans;
   column Int32 sp_action_llm_calls_count spans;
   column Utf8 sp_workflow_run_id spans;
   column Utf8 sp_framework spans;
   column Utf8 sp_llm_provider spans;
   column Utf8 sp_llm_response_model spans;
   column Utf8 sp_events spans;
   column Int16 sp_llm_cache_hit spans;
   column Utf8 sp_llm_response_id spans;
   column Utf8 sp_environment spans;
   column Utf8 sp_links spans;
   column Int64 sp_resource_cpu_micros spans;
   column Int64 sp_resource_memory_bytes spans;
   column Int64 sp_resource_memory_peak spans;
   column Utf8 sp_prompt_id spans;
   column Utf8 sp_prompt_name spans;
   column Int32 sp_prompt_version spans;
   nullable_column Int64 sp_completion_start_time spans;
   column Int32 sp_time_to_first_token_ms spans;
   column Utf8 sp_agent_version spans;
   column Utf8 sp_sdk_version spans;
   column Utf8 sp_level spans].

Definition span_convention_columns (spans : list Span) : list (Cells F) :=
  [column Utf8 sp_db_system_name spans;
   column Utf8 sp_db_namespace spans;
   column Utf8 sp_db_operation_name spans;
   column Utf8 sp_db_query_text spans;
   column Utf8 sp_db_query_summary spans;
   column Utf8 sp_db_collection_name spans;
   column Utf8 sp_db_response_status_code spans;
   column Utf8 sp_agent_id spans;
   column Utf8 sp_agent_description spans;
   column Utf8 sp_agent_task_id spans;
   column Utf8 sp_agent_task_parent_id spans;
   column Utf8 sp_agent_task_name spans;
   column Utf8 sp_agent_task_kind spans;
   column Utf8 sp_agent_task_state spans;
   column Utf8 sp_agent_task_status spans;
   column Utf8 sp_memory_type spans;
   column Utf8 sp_memory_key spans;
   column Utf8 sp_mcp_tool_name spans;
   column Utf8 sp_mcp_server_name spans;
   column Utf8 sp_mcp_tool_input spans;
   column Utf8 sp_mcp_tool_output spans;
   column Utf8 sp_evaluation_name spans;
   column Utf8 sp_evaluation_explanation spans;
   column Int16 sp_evaluation_passed spans;
   column Utf8 sp_model_parameters spans;
   column Utf8 sp_attributes spans;
   column Int64 sp_created_at spans;
   column Int64 sp_updated_at spans;
   column Int16 sp_is_deleted spans].

Definition spans_to_record_batch (spans : list Span) : option RecordBatch :=
  try_new span_arrow_schema
    (map to_array (span_core_columns spans ++ span_agent_columns spans ++ span_convention_columns spans)).

(** [.filter(|s| !s.is_empty()).unwrap_or_else(|| "[]")]. *)
Definition json_array_or (s : string) : string := if decide (s = "") then "[]" else s.

Definition record_batch_to_spans (b : RecordBatch) : outcome SchemaError (list Span) :=
  if (num_rows b =? 0)%nat then Ok [] else
  trace_id_col ← col Utf8 b "trace_id";
  span_id_col ← col Utf8 b "span_id";
  parent_span_id_col ← col Utf8 b "parent_span_id";
  timestamp_col ← col Int64 b "timestamp";
  duration_ns_col ← col Int64 b "duration_ns";
  workspace_id_col ← col Utf8 b "workspace_id";
  service_name_col ← col Utf8 b "service_name";
  span_name_col ← col Utf8 b "span_name";
  span_kind_col ← col Utf8 b "span_kind";
  span_type_col ← col Utf8 b "span_type";
  status_code_col ← col Utf8 b "status_code";
  status_message_col ← col Utf8 b "status_message";
  invocation_id_col ← col Utf8 b "invocation_id";
  session_id_col ← col Utf8 b "session_id";
  user_id_col ← col Utf8 b "user_id";
  agent_name_col ← col Utf8 b "agent_name";
  agent_type_col ← col Utf8 b "agent_type";
  llm_model_col ← col Utf8 b "llm_model";
  llm_input_col ← col Utf8 b "llm_input";
  llm_output_col ← col Utf8 b "llm_output";
  prompt_tokens_col ← col Int32 b "prompt_tokens";
  completion_tokens_col ← col Int32 b "completion_tokens";
  total_tokens_col ← col Int32 b "total_tokens";
  prompt_cost_usd_col ← col Float64 b "prompt_cost_usd";
  completion_cost_usd_col ← col Float64 b "completion_cost_usd";
  total_cost_usd_col ← col Float64 b "total_cost_usd";
  tool_name_col ← col Utf8 b "tool_name";
  tool_call_id_col ← col Utf8 b "tool_call_id";
  rail_type_col ← optional_string_col b "rail_type";
  rail_name_col ← optional_string_col b "rail_name";
  rail_stop_col ← optional_i16_col b "rail_stop";
  action_name_col ← optional_string_col b "action_name";
  action_has_llm_calls_col ← optional_i16_col b "action_has_llm_calls";
  action_llm_calls_count_col ← optional_i32_col b "action_llm_calls_count";
  workflow_run_id_col ← optional_string_col b "workflow_run_id";
  framework_col ← optional_string_col b "framework";
  llm_provider_col ← optional_string_col b "llm_provider";
  llm_response_model_col ← optional_string_col b "llm_response_model";
  events_col ← optional_string_col b "events";
  llm_cache_hit_col ← optional_i16_col b "llm_cache_hit";
  llm_response_id_col ← optional_string_col b "llm_response_id";
  environment_col ← optional_string_col b "environment";
  links_col ← optional_string_col b "links";
  resource_cpu_micros_col ← col Int64 b "resource_cpu_micros";
  resource_memory_bytes_col ← col Int64 b "resource_memory_bytes";
  resource_memory_peak_col ← col Int64 b "resource_memory_peak";
  prompt_id_col ← optional_string_col b "prompt_id";
  prompt_name_col ← optional_string_col b "prompt_name";
  prompt_version_col ← col Int32 b "prompt_version";
  completion_start_time_col ← col Int64 b "completion_start_time";
  time_to_first_token_ms_col ← col Int32 b "time_to_first_token_ms";
  agent_version_col ← col Utf8 b "agent_version";
  sdk_version_col ← col Utf8 b "sdk_version";
  level_col ← col Utf8 b "level";
  db_system_col ← optional_string_col b "db_system_name";
  db_namespace_col ← optional_string_col b "db_namespace";
  db_operation_name_col ← optional_string_col b "db_operation_name";
  db_query_text_col ← optional_string_col b "db_query_text";
  db_query_summary_col ← optional_string_col b "db_query_summary";
  db_collection_name_col ← optional_string_col b "db_collection_name";
  db_response_status_code_col ← optional_string_col b "db_response_status_code";
  agent_id_col ← optional_string_col b "agent_id";
  agent_description_col ← optional_string_col b "agent_description";
  agent_task_id_col ← optional_string_col b "agent_task_id";
  agent_task_parent_id_col ← optional_string_col b "agent_task_parent_id";
  agent_task_name_col ← optional_string_col b "agent_task_name";
  agent_task_kind_col ← optional_string_col b "agent_task_kind";
  agent_task_state_col ← optional_string_col b "agent_task_state";
  agent_task_status_col ← optional_string_col b "agent_task_status";
  memory_type_col ← optional_string_col b "memory_type";
  memory_key_col ← optional_string_col b "memory_key";
  mcp_tool_name_col ← optional_string_col b "mcp_tool_name";
  mcp_server_name_col ← optional_string_col b "mcp_server_name";
  mcp_tool_input_col ← optional_string_col b "mcp_tool_input";
  mcp_tool_output_col ← optional_string_col b "mcp_tool_output";
  evaluation_name_col ← optional_string_col b "evaluation_name";
  evaluation_explanation_col ← optional_string_col b "evaluation_explanation";
  evaluation_passed_col ← optional_i16_col b "evaluation_passed";
  model_parameters_col ← col Utf8 b "model_parameters";
  attributes_col ← col Utf8 b "attributes";
  created_at_col ← col Int64 b "created_at";
  updated_at_col ← col Int64 b "updated_at";
  is_deleted_col ← col Int16 b "is_deleted";
  mret (map (λ i,
    mkSpan (value Utf8 trace_id_col i) (value Utf8 span_id_col i) (value Utf8 parent_span_id_col i)
      (value Int64 timestamp_col i) (value Int64 duration_ns_col i) (value Utf8 workspace_id_col i)
      (value Utf8 service_name_col i) (value Utf8 span_name_col i) (value Utf8 span_kind_col i)
      (value Utf8 span_type_col i) (value Utf8 status_code_col i) (value Utf8 status_message_col i)
      (value Utf8 invocation_id_col i) (value Utf8 session_id_col i) (value Utf8 user_id_col i)
      (value Utf8 agent_name_col i) (value Utf8 agent_type_col i) (value Utf8 llm_model_col i)
      (value Utf8 llm_input_col i) (value Utf8 llm_output_col i) (value Int32 prompt_tokens_col i)
      (value Int32 completion_tokens_col i) (value Int32 total_tokens_col i) (value Float64 prompt_cost_usd_col i)
      (value Float64 completion_cost_usd_col i) (value Float64 total_cost_usd_col i) (value Utf8 tool_name_col i)
      (value Utf8 tool_call_id_col i) (value_or (t := Utf8) "" rail_type_col i)
      (value_or (t := Utf8) "" rail_name_col i) (value_or (t := Int16) 0 rail_stop_col i)
      (value_or (t := Utf8) "" action_name_col i) (value_or (t := Int16) 0 action_has_llm_calls_col i)
      (value_or (t := Int32) 0 action_llm_calls_count_col i) (value_or (t := Utf8) "" workflow_run_id_col i)
      (value_or (t := Utf8) "" framework_col i) (value_or (t := Utf8) "" llm_provider_col i)
      (value_or (t := Utf8) "" llm_response_model_col i) (json_array_or (value_or (t := Utf8) "" events_col i))
      (value_or (t := Int16) (-1) llm_cache_hit_col i) (value_or (t := Utf8) "" llm_response_id_col i)
      (value_or (t := Utf8) "" environment_col i) (json_array_or (value_or (t := Utf8) "" links_col i))
      (value Int64 resource_cpu_micros_col i) (value Int64 resource_memory_bytes_col i)
      (value Int64 resource_memory_peak_col i) (value_or (t := Utf8) "" prompt_id_col i)
      (value_or (t := Utf8) "" prompt_name_col i) (value Int32 prompt_version_col i)
      (if is_null Int64 completion_start_time_col i then None else Some (value Int64 completion_start_time_col i))
      (value Int32 time_to_first_token_ms_col i) (value Utf8 agent_version_col i) (value Utf8 sdk_version_col i)
      (value Utf8 level_col i) (value_or (t := Utf8) "" db_system_col i) (value_or (t := Utf8) "" db_namespace_col i)
      (value_or (t := Utf8) "" db_operation_name_col i) (value_or (t := Utf8) "" db_query_text_col i)
      (value_or (t := Utf8) "" db_query_summary_col i) (value_or (t := Utf8) "" db_collection_name_col i)
      (value_or (t := Utf8) "" db_response_status_code_col i) (value_or (t := Utf8) "" agent_id_col i)
      (value_or (t := Utf8) "" agent_description_col i) (value_or (t := Utf8) "" agent_task_id_col i)
      (value_or (t := Utf8) "" agent_task_parent_id_col i) (value_or (t := Utf8) "" agent_task_name_col i)
      (value_or (t := Utf8) "" agent_task_kind_col i) (value_or (t := Utf8) "" agent_task_state_col i)
      (value_or (t := Utf8) "" agent_task_status_col i) (value_or (t := Utf8) "" memory_type_col i)
      (value_or (t := Utf8) "" memory_key_col i) (value_or (t := Utf8) "" mcp_tool_name_col i)
      (value_or (t := Utf8) "" mcp_server_name_col i) (value_or (t := Utf8) "" mcp_tool_input_col i)
      (value_or (t := Utf8) "" mcp_tool_output_col i) (value_or (t := Utf8) "" evaluation_name_col i)
      (value_or (t := Utf8) "" evaluation_explanation_col i) (value_or (t := Int16) (-1) evaluation_passed_col i)
      (value Utf8 model_parameters_col i) (value Utf8 attributes_col i) (value Int64 created_at_col i)
      (value Int64 updated_at_col i) (value Int16 is_deleted_col i)) (seq 0 (num_rows b))).

(** ** Specification *)

(** The columns a file must have, in the order they are read. *)
Definition required_columns : list string :=
  ["trace_id"; "span_id"; "parent_span_id"; "timestamp"; "duration_ns"; "workspace_id"; "service_name"; "span_name";
   "span_kind"; "span_type"; "status_code"; "status_message"; "invocation_id"; "session_id"; "user_id"; "agent_name";
   "agent_type"; "llm_model"; "llm_input"; "llm_output"; "prompt_tokens"; "completion_tokens"; "total_tokens";
   "prompt_cost_usd"; "completion_cost_usd"; "total_cost_usd"; "tool_name"; "tool_call_id"; "resource_cpu_micros";
   "resource_memory_bytes"; "resource_memory_peak"; "prompt_version"; "completion_start_time";
   "time_to_first_token_ms"; "agent_version"; "sdk_version"; "level"; "model_parameters"; "attributes"; "created_at";
   "updated_at"; "is_deleted"].

(** A span as it comes back from a file with the columns [keep]. *)
Definition kept_span (keep : string → bool) (s : Span) : Span :=
  mkSpan (sp_trace_id s) (sp_span_id s) (sp_parent_span_id s) (sp_timestamp s) (sp_duration_ns s) (sp_workspace_id s)
    (sp_service_name s) (sp_span_name s) (sp_span_kind s) (sp_span_type s) (sp_status_code s) (sp_status_message s)
    (sp_invocation_id s) (sp_session_id s) (sp_user_id s) (sp_agent_name s) (sp_agent_type s) (sp_llm_model s)
    (sp_llm_input s) (sp_llm_output s) (sp_prompt_tokens s) (sp_completion_tokens s) (sp_total_tokens s)
    (sp_prompt_cost_usd s) (sp_completion_cost_usd s) (sp_total_cost_usd s) (sp_tool_name s) (sp_tool_call_id s)
    (if keep "rail_type" then sp_rail_type s else "") (if keep "rail_name" then sp_rail_name s else "")
    (if keep "rail_stop" then sp_rail_stop s else 0) (if keep "action_name" then sp_action_name s else "")
    (if keep "action_has_llm_calls" then sp_action_has_llm_calls s else 0)
    (if keep "action_llm_calls_count" then sp_action_llm_calls_count s else 0)
    (if keep "workflow_run_id" then sp_workflow_run_id s else "") (if keep "framework" then sp_framework s else "")
    (if keep "llm_provider" then sp_llm_provider s else "")
    (if keep "llm_response_model" then sp_llm_response_model s else "")
    (json_array_or (if keep "events" then sp_events s else ""))
    (if keep "llm_cache_hit" then sp_llm_cache_hit s else (-1))
    (if keep "llm_response_id" then sp_llm_response_id s else "")
    (if keep "environment" then sp_environment s else "") (json_array_or (if keep "links" then sp_links s else ""))
    (sp_resource_cpu_micros s) (sp_resource_memory_bytes s) (sp_resource_memory_peak s)
    (if keep "prompt_id" then sp_prompt_id s else "") (if keep "prompt_name" then sp_prompt_name s else "")
    (sp_prompt_version s) (sp_completion_start_time s) (sp_time_to_first_token_ms s) (sp_agent_version s)
    (sp_sdk_version s) (sp_level s) (if keep "db_system_name" then sp_db_system_name s else "")
    (if keep "db_namespace" then sp_db_namespace s else "")
    (if keep "db_operation_name" then sp_db_operation_name s else "")
    (if keep "db_query_text" then sp_db_query_text s else "")
    (if keep "db_query_summary" then sp_db_query_summary s else "")
    (if keep "db_collection_name" then sp_db_collection_name s else "")
    (if keep "db_response_status_code" then sp_db_response_status_code s else "")
    (if keep "agent_id" then sp_agent_id s else "") (if keep "agent_description" then sp_agent_description s else "")
    (if keep "agent_task_id" then sp_agent_task_id s else "")
    (if keep "agent_task_parent_id" then sp_agent_task_parent_id s else "")
    (if keep "agent_task_name" then sp_agent_task_name s else "")
    (if keep "agent_task_kind" then sp_agent_task_kind s else "")
    (if keep "agent_task_state" then sp_agent_task_state s else "")
    (if keep "agent_task_status" then sp_agent_task_status s else "")
    (if keep "memory_type" then sp_memory_type s else "") (if keep "memory_key" then sp_memory_key s else "")
    (if keep "mcp_tool_name" then sp_mcp_tool_name s else "")
    (if keep "mcp_server_name" then sp_mcp_server_name s else "")
    (if keep "mcp_tool_input" then sp_mcp_tool_input s else "")
    (if keep "mcp_tool_output" then sp_mcp_tool_output s else "")
    (if keep "evaluation_name" then sp_evaluation_name s else "")
    (if keep "evaluation_explanation" then sp_evaluation_explanation s else "")
    (if keep "evaluation_passed" then sp_evaluation_passed s else (-1)) (sp_model_parameters s) (sp_attributes s)
    (sp_created_at s) (sp_updated_at s) (sp_is_deleted s).

(** ** Lemmas *)

Context `{!ArrowLaws F}.

Definition span_columns (spans : list Span) : list (Cells F) :=
  span_core_columns spans ++ span_agent_columns spans ++ span_convention_columns spans.

Lemma span_columns_fit spans : Forall2 (fits (length spans)) span_arrow_schema (span_columns spans).
Proof. apply column_fits. fit_columns. Qed.

Lemma spans_read keep b (spans : list Span) : num_rows b = length spans → spans ≠ [] → kept_of keep b span_arrow_schema (span_columns spans) →
  record_batch_to_spans b = missing_or keep required_columns (map (kept_span keep) spans).
Proof.
  intros Hn Hne Hb. unfold record_batch_to_spans. rewrite (num_rows_pos spans) by done. rewrite Hn. read_columns Hb.
  match goal with |- _ = missing_or _ _ ?r => change (missing_or _ _ r) with (@Ok SchemaError _ r) end. ostep. f_equal.
  apply rebuild_rows. intros i s Hs.
  rewrite !(value_cells _ _ _ _ _ Hs), !(value_or_kept _ _ _ _ _ _ _ Hs). unfold kept_span. f_equal.
  exact (value_nullable Int64 sp_completion_start_time spans i s Hs).
Qed.

(** A file written when the schema had only the columns [keep]. *)
Definition older_batch (keep : string → bool) (spans : list Span) : option RecordBatch :=
  let kept := filter (λ p, keep (fd_name p.1) = true) (zip span_arrow_schema (span_columns spans)) in
  try_new (map fst kept) (map to_array (map snd kept)).

Lemma older_batch_kept keep spans : keep "trace_id" = true →
  ∃ b, older_batch keep spans = Some b ∧ num_rows b = length spans ∧ kept_of keep b span_arrow_schema (span_columns spans).
Proof.
  intros Hkeep. set (kept := filter (λ p, keep (fd_name p.1) = true) (zip span_arrow_schema (span_columns spans))).
  destruct (try_new_fits (length spans) (map fst kept) (map snd kept)) as (b & Hb & Hn & Hc).
  - subst kept. unfold span_columns, span_core_columns. change span_arrow_schema with (mkField "trace_id" Utf8 false :: tail span_arrow_schema).
    cbn [app zip zip_with]. rewrite filter_cons_True by done. done.
  - pose proof (span_columns_fit spans) as Hfit. subst kept.
    generalize dependent (span_columns spans). generalize span_arrow_schema. intros fields cells Hfit.
    induction Hfit as [|f c fields cells Hf Hfit IH]; [constructor|]. cbn [zip zip_with]. rewrite filter_cons.
    case_decide; [by constructor|done].
  - exists b. split; [done|]. split; [done|]. split; [|by eapply Forall2_length, span_columns_fit]. rewrite Hc. subst kept.
    generalize (span_columns spans). generalize span_arrow_schema. intros fields.
    induction fields as [|f fields IH]; intros [|c cells]; [done..|]. cbn [zip zip_with map]. rewrite !filter_cons. cbn [fst].
    case_decide; [|apply IH]. cbn [map zip zip_with fst snd]. f_equal. apply IH.
Qed.

(** ** Theorems *)

(** A span with other texts in its two JSON columns. *)
Definition with_json (events links : string) (s : Span) : Span :=
  mkSpan (sp_trace_id s) (sp_span_id s) (sp_parent_span_id s) (sp_timestamp s) (sp_duration_ns s) (sp_workspace_id s) (sp_service_name s)
    (sp_span_name s) (sp_span_kind s) (sp_span_type s) (sp_status_code s) (sp_status_message s) (sp_invocation_id s) (sp_session_id s)
    (sp_user_id s) (sp_agent_name s) (sp_agent_type s) (sp_llm_model s) (sp_llm_input s) (sp_llm_output s) (sp_prompt_tokens s)
    (sp_completion_tokens s) (sp_total_tokens s) (sp_prompt_cost_usd s) (sp_completion_cost_usd s) (sp_total_cost_usd s) (sp_tool_name s)
    (sp_tool_call_id s) (sp_rail_type s) (sp_rail_name s) (sp_rail_stop s) (sp_action_name s) (sp_action_has_llm_calls s)
    (sp_action_llm_calls_count s) (sp_workflow_run_id s) (sp_framework s) (sp_llm_provider s) (sp_llm_response_model s) events
    (sp_llm_cache_hit s) (sp_llm_response_id s) (sp_environment s) links (sp_resource_cpu_micros s) (sp_resource_memory_bytes s)
    (sp_resource_memory_peak s) (sp_prompt_id s) (sp_prompt_name s) (sp_prompt_version s) (sp_completion_start_time s)
    (sp_time_to_first_token_ms s) (sp_agent_version s) (sp_sdk_version s) (sp_level s) (sp_db_system_name s) (sp_db_namespace s)
    (sp_db_operation_name s) (sp_db_query_text s) (sp_db_query_summary s) (sp_db_collection_name s) (sp_db_response_status_code s)
    (sp_agent_id s) (sp_agent_description s) (sp_agent_task_id s) (sp_agent_task_parent_id s) (sp_agent_task_name s) (sp_agent_task_kind s)
    (sp_agent_task_state s) (sp_agent_task_status s) (sp_memory_type s) (sp_memory_key s) (sp_mcp_tool_name s) (sp_mcp_server_name s)
    (sp_mcp_tool_input s) (sp_mcp_tool_output s) (sp_evaluation_name s) (sp_evaluation_explanation s) (sp_evaluation_passed s)
    (sp_model_parameters s) (sp_attributes s) (sp_created_at s) (sp_updated_at s) (sp_is_deleted s).

(** What a span reads back as: an empty [events] or [links] is an empty array. *)
Definition read_back (s : Span) : Span := with_json (json_array_or (sp_events s)) (json_array_or (sp_links s)) s.

Lemma read_back_same s : read_back s = s ↔ sp_events s ≠ "" ∧ sp_links s ≠ "".
Proof.
  unfold read_back, json_array_or. split.
  - intros Hs. pose proof (f_equal sp_events Hs) as He. pose proof (f_equal sp_links Hs) as Hl. cbn in He, Hl.
    split; intros Hempty; [rewrite Hempty in He|rewrite Hempty in Hl]; discriminate.
  - intros [He Hl]. rewrite !decide_False by done. by destruct s.
Qed.

Lemma read_back_exact spans : map read_back spans = spans ↔ Forall (λ s, sp_events s ≠ "" ∧ sp_links s ≠ "") spans.
Proof.
  induction spans as [|s spans IH]; [done|]. rewrite Forall_cons, <-IH, <-read_back_same. cbn. split; [by intros [= -> ->]|by intros [-> ->]].
Qed.

(** C26: Spans survive the columns: a batch is built from any spans, one row each,
    and reading it gives them back in order with all eighty-three fields, but
    for one change: an [events] or [links] that is the empty string reads back
    as the empty array, [[]] as text. Spans without such a field read back
    exactly. *)
Theorem spans_roundtrip (spans : list Span) :
  ∃ b, spans_to_record_batch spans = Some b ∧ num_rows b = length spans ∧ record_batch_to_spans b = Ok (map read_back spans) ∧
    (record_batch_to_spans b = Ok spans ↔ Forall (λ s, sp_events s ≠ "" ∧ sp_links s ≠ "") spans).
Proof.
  destruct (built_kept span_arrow_schema spans (span_columns spans)) as (b & Hb & Hn & Hk); [done|apply span_columns_fit|].
  assert (record_batch_to_spans b = Ok (map read_back spans)) as Hread.
  { destruct (decide (spans = [])) as [->|Hne]; [unfold record_batch_to_spans; by rewrite Hn|].
    by rewrite (spans_read _ b spans Hn Hne Hk), missing_none. }
  exists b. split; [done|]. split; [done|]. split; [done|]. rewrite Hread, <-read_back_exact. split; [by intros [= ->]|by intros ->].
Qed.

(** A file of an older schema reads as long as it has the required columns:
    each column it lacks gives the default of its field, [-1] for the
    three-valued ones and an empty array for [events] and [links]. A file
    without a required column is an error that names the first one missing. *)
Theorem older_files_read (keep : string → bool) (spans : list Span) : spans ≠ [] → keep "trace_id" = true →
  ∃ b, older_batch keep spans = Some b ∧
    record_batch_to_spans b = match find (λ n, negb (keep n)) required_columns with
                              | Some n => Err (MissingColumn n)
                              | None => Ok (map (kept_span keep) spans)
                              end.
Proof.
  intros Hne Hkeep. destruct (older_batch_kept keep spans Hkeep) as (b & Hb & Hn & Hk). exists b. split; [done|].
  by rewrite (spans_read keep b spans Hn Hne Hk).
Qed.
End SpanSchema.

(** ** Witnesses *)

Section Witnesses.
#[local] Instance arrays : Arrow Z := column_arrays 0.
#[local] Instance arrays_laws : ArrowLaws Z := column_arrays_laws 0.

Lemma spans_roundtrip_witness : ∃ b, spans_to_record_batch [span_default 0 1; span_default 0 2] = Some b ∧
  record_batch_to_spans b = Ok [span_default 0 1; span_default 0 2].
Proof.
  destruct (spans_roundtrip [span_default 0 1; span_default 0 2]) as (b & Hb & _ & _ & Hr). exists b. split; [exact Hb|].
  apply Hr. by repeat constructor.
Defined.

(** A file from before the cache-hit and the event columns. *)
Definition before_phase_4 (name : string) : bool := negb (bool_decide (name ∈ ["llm_cache_hit"; "events"; "environment"])).
Lemma older_files_read_witness : ∃ b s, older_batch before_phase_4 [span_default 0 1] = Some b ∧
  record_batch_to_spans b = Ok [s] ∧ sp_llm_cache_hit s = -1 ∧ sp_events s = "[]".
Proof.
  destruct (older_files_read before_phase_4 [span_default 0 1]) as (b & Hb & Hr); [done|reflexivity|].
  exists b. eexists. split; [exact Hb|]. split; [rewrite Hr; vm_compute; reflexivity|]. split; reflexivity.
Defined.
End Witnesses.
