(* ===== verification/TelemetryReader.v ===== *)
(** Queries over telemetry: [zradar-parquet/src/telemetry_reader.rs].

    Each query is built as SQL text from the client's filters and run by
    [query_parquet_as] over the files that the filters leave. The list queries
    run twice, once for the total and once for the page.

    [list_queries_parse] says that SQL reads the text of every list and by-id
    query as the query it stands for, whatever strings the client sent, and the
    trace list by its tokens. *)

From stdpp Require Import base gmap list strings pretty.
From Stdlib Require Import Ascii.
From S2P Require Import Prelude FileList WriteBuffer TelemetryWriter ParquetWriter Compactor Lease PgUsage PgUsageWorker StorageUsage Reclaimer.
From S2P Require Import Paths FileMover MemoryCache DiskCache Reader Sql Arrow Models Schema SpanSchema.

(** ** Filters *)

Record TimeRange := mkTimeRange { tr_start : Z; tr_end : Z }.
Record Pagination := mkPagination { pg_limit : option Z; pg_offset : option Z }.

Record TraceQueryFilters := mkTraceQueryFilters {
  tq_workspace_id : option Z;
  tq_time_range : option TimeRange;
  tq_service_name : option string;
  tq_span_name : option string;
  tq_status : option string;
  tq_min_duration_ms : option Z;
  tq_max_duration_ms : option Z;
  tq_llm_model : option string;
  tq_llm_provider : option string;
  tq_llm_response_model : option string;
  tq_agent_name : option string;
  tq_session_id : option string;
  tq_rail_type : option string;
  tq_action_name : option string;
  tq_workflow_run_id : option string;
  tq_framework : option string;
  tq_tool_name : option string;
  tq_invocation_id : option string;
  tq_environment : option string;
  tq_pagination : Pagination;
}.

Record SpanQueryFilters := mkSpanQueryFilters {
  sq_workspace_id : option Z;
  sq_trace_id : option string;
  sq_time_range : option TimeRange;
  sq_service_name : option string;
  sq_span_name : option string;
  sq_span_types : option (list string);
  sq_status : option string;
  sq_llm_model : option string;
  sq_llm_provider : option string;
  sq_llm_response_model : option string;
  sq_agent_name : option string;
  sq_session_id : option string;
  sq_rail_type : option string;
  sq_action_name : option string;
  sq_workflow_run_id : option string;
  sq_framework : option string;
  sq_tool_name : option string;
  sq_invocation_id : option string;
  sq_environment : option string;
  sq_min_duration_ms : option Z;
  sq_max_duration_ms : option Z;
  sq_db_system_name : option string;
  sq_db_operation_name : option string;
  sq_pagination : Pagination;
}.

Record LogQueryFilters := mkLogQueryFilters {
  lq_workspace_id : option Z;
  lq_time_range : option TimeRange;
  lq_severity : option string;
  lq_service_name : option string;
  lq_trace_id : option string;
  lq_search_text : option string;
  lq_agent_name : option string;
  lq_session_id : option string;
  lq_pagination : Pagination;
}.

Record MetricQueryFilters := mkMetricQueryFilters {
  mq_workspace_id : option Z;
  mq_time_range : option TimeRange;
  mq_metric_name : option string;
  mq_service_name : option string;
  mq_agent_name : option string;
  mq_pagination : Pagination;
}.

Record MetricSeriesFilters := mkMetricSeriesFilters {
  ms_workspace_id : option Z;
  ms_metric_name : string;
  ms_time_range : option TimeRange;
  ms_interval_seconds : Z;
  ms_aggregation : string;
  ms_service_name : option string;
}.

(** [pagination_values]. *)
Definition pagination_values (p : Pagination) : Z * Z := (default 50 (pg_limit p), default 0 (pg_offset p)).

(** The file filters: the workspace, the signal and the time range in
    microseconds, of live files. *)
Definition signal_file_filter (workspace_id : Z) (signal : string) (time_range : option TimeRange) : FileListFilter :=
  mkFileListFilter (Some workspace_id) (Some signal) None
    ((λ tr, Z.quot (tr_start tr) 1000) <$> time_range) ((λ tr, Z.quot (tr_end tr) 1000) <$> time_range) None (Some false).

Definition trace_file_filter (workspace_id : Z) (f : TraceQueryFilters) : FileListFilter :=
  signal_file_filter workspace_id "traces" (tq_time_range f).
Definition span_file_filter (workspace_id : Z) (f : SpanQueryFilters) : FileListFilter :=
  signal_file_filter workspace_id "traces" (sq_time_range f).

(** ** The text of a condition *)

Definition eq_text (col v : string) : string := col +:+ " = '" +:+ escape_sql_str v +:+ "'".
Definition like_text (col v : string) : string := col +:+ " LIKE '%" +:+ escape_sql_str v +:+ "%'".
Definition ge_text (col : string) (z : Z) : string := col +:+ " >= " +:+ pretty z.
Definition le_text (col : string) (z : Z) : string := col +:+ " <= " +:+ pretty z.
Definition in_text (col : string) (vs : list string) : string :=
  col +:+ " IN (" +:+ join_text ", " (map (λ v, "'" +:+ escape_sql_str v +:+ "'") vs) +:+ ")".

(** [if let Some(v) = .. { conditions.push(..) }]. *)
Definition opt_text {A : Type} (f : A → string) (o : option A) : list string :=
  match o with Some v => [f v] | None => [] end.
Definition range_texts (time_range : option TimeRange) : list string :=
  match time_range with Some tr => [ge_text "timestamp" (tr_start tr); le_text "timestamp" (tr_end tr)] | None => [] end.

Section Text.
Context `{UuidText}.

Definition workspace_text (workspace_id : Z) : string := "workspace_id = '" +:+ uuid_to_string workspace_id +:+ "'".

Definition log_conditions (workspace_id : Z) (f : LogQueryFilters) : list string :=
  [workspace_text workspace_id] ++
  opt_text (eq_text "severity") (lq_severity f) ++
  opt_text (eq_text "service_name") (lq_service_name f) ++
  opt_text (eq_text "trace_id") (lq_trace_id f) ++
  opt_text (like_text "message") (lq_search_text f) ++
  opt_text (eq_text "agent_name") (lq_agent_name f) ++
  opt_text (eq_text "session_id") (lq_session_id f) ++
  range_texts (lq_time_range f).

Definition metric_conditions (workspace_id : Z) (f : MetricQueryFilters) : list string :=
  [workspace_text workspace_id] ++
  opt_text (eq_text "metric_name") (mq_metric_name f) ++
  opt_text (eq_text "service_name") (mq_service_name f) ++
  opt_text (eq_text "agent_name") (mq_agent_name f) ++
  range_texts (mq_time_range f).

Definition span_conditions (workspace_id : Z) (f : SpanQueryFilters) : list string :=
  [workspace_text workspace_id] ++
  opt_text (eq_text "trace_id") (sq_trace_id f) ++
  opt_text (eq_text "service_name") (sq_service_name f) ++
  opt_text (like_text "span_name") (sq_span_name f) ++
  match sq_span_types f with Some (v :: vs) => [in_text "span_type" (v :: vs)] | _ => [] end ++
  opt_text (eq_text "status_code") (sq_status f) ++
  range_texts (sq_time_range f) ++
  opt_text (eq_text "llm_model") (sq_llm_model f) ++
  opt_text (eq_text "llm_provider") (sq_llm_provider f) ++
  opt_text (eq_text "llm_response_model") (sq_llm_response_model f) ++
  opt_text (eq_text "agent_name") (sq_agent_name f) ++
  opt_text (eq_text "session_id") (sq_session_id f) ++
  opt_text (eq_text "rail_type") (sq_rail_type f) ++
  opt_text (eq_text "action_name") (sq_action_name f) ++
  opt_text (eq_text "workflow_run_id") (sq_workflow_run_id f) ++
  opt_text (eq_text "framework") (sq_framework f) ++
  opt_text (eq_text "tool_name") (sq_tool_name f) ++
  opt_text (eq_text "invocation_id") (sq_invocation_id f) ++
  opt_text (eq_text "environment") (sq_environment f).

Definition count_text (table where_clause : string) : string :=
  "SELECT COUNT(*) AS cnt FROM " +:+ table +:+ " WHERE " +:+ where_clause.
Definition page_text (table where_clause : string) (limit offset : Z) : string :=
  "SELECT * FROM " +:+ table +:+ " WHERE " +:+ where_clause +:+ " ORDER BY timestamp DESC LIMIT " +:+ pretty limit +:+
  " OFFSET " +:+ pretty offset.

(** [get_trace_detail], [get_span] and [get_log]. *)
Definition trace_detail_text (workspace_id : Z) (trace_id : string) : string :=
  "SELECT * FROM spans WHERE " +:+ workspace_text workspace_id +:+ " AND " +:+ eq_text "trace_id" trace_id +:+ " ORDER BY timestamp".
Definition get_span_text (workspace_id : Z) (span_id : string) : string :=
  "SELECT * FROM spans WHERE " +:+ workspace_text workspace_id +:+ " AND " +:+ eq_text "span_id" span_id +:+ " LIMIT 1".
Definition get_log_text (workspace_id : Z) (log_id : string) : string :=
  "SELECT * FROM logs WHERE " +:+ workspace_text workspace_id +:+ " AND " +:+ eq_text "id" log_id +:+ " LIMIT 1".
End Text.

(** ** The trace query *)

(** [inner_where.push_str(&format!(" AND .."))]. *)
Definition and_text {A : Type} (f : A → string) (o : option A) : string :=
  match o with Some v => " AND " +:+ f v | None => "" end.

Section TraceText.
Context `{UuidText} (to_uppercase : string → string).

Definition span_name_text (workspace_id : Z) (name : string) : string :=
  "trace_id IN (SELECT DISTINCT trace_id FROM spans WHERE " +:+ workspace_text workspace_id +:+ " AND " +:+
  like_text "span_name" name +:+ ")".

Definition inner_where (workspace_id : Z) (f : TraceQueryFilters) : string :=
  workspace_text workspace_id +:+
  and_text (eq_text "service_name") (tq_service_name f) +:+
  and_text (span_name_text workspace_id) (tq_span_name f) +:+
  match tq_time_range f with
  | Some tr => " AND " +:+ ge_text "timestamp" (tr_start tr) +:+ " AND " +:+ le_text "timestamp" (tr_end tr)
  | None => ""
  end +:+
  and_text (eq_text "llm_model") (tq_llm_model f) +:+
  and_text (eq_text "llm_provider") (tq_llm_provider f) +:+
  and_text (eq_text "llm_response_model") (tq_llm_response_model f) +:+
  and_text (eq_text "agent_name") (tq_agent_name f) +:+
  and_text (eq_text "session_id") (tq_session_id f) +:+
  and_text (eq_text "rail_type") (tq_rail_type f) +:+
  and_text (eq_text "action_name") (tq_action_name f) +:+
  and_text (eq_text "workflow_run_id") (tq_workflow_run_id f) +:+
  and_text (eq_text "framework") (tq_framework f) +:+
  and_text (eq_text "tool_name") (tq_tool_name f) +:+
  and_text (eq_text "invocation_id") (tq_invocation_id f) +:+
  and_text (eq_text "environment") (tq_environment f).

Definition inner_head : string := "SELECT
                trace_id,
                MIN(span_name)  AS trace_name,
                MIN(timestamp)  AS start_time,
                MAX(timestamp + duration_ns) AS end_time,
                (MAX(timestamp + duration_ns) - MIN(timestamp)) / 1000000 AS duration_ms,
                COUNT(*)        AS span_count,
                MIN(service_name) AS service_name,
                MAX(CASE WHEN status_code = 'ERROR' THEN 1 ELSE 0 END) AS has_error
            FROM spans
            WHERE".
Definition inner_tail : string := "
            GROUP BY trace_id".
Definition inner_sql (workspace_id : Z) (f : TraceQueryFilters) : string :=
  inner_head +:+ " " +:+ inner_where workspace_id f +:+ inner_tail.

Definition outer_conditions (f : TraceQueryFilters) : list string :=
  match tq_status f with
  | Some status =>
      let s := to_uppercase status in
      if decide (s = "ERROR") then ["has_error = 1"] else if decide (s = "OK") then ["has_error = 0"] else []
  | None => []
  end ++
  opt_text (ge_text "duration_ms") (tq_min_duration_ms f) ++
  opt_text (le_text "duration_ms") (tq_max_duration_ms f).

Definition outer_where (f : TraceQueryFilters) : string :=
  match outer_conditions f with [] => "1=1" | l => join_text " AND " l end.

Definition trace_count_text (workspace_id : Z) (f : TraceQueryFilters) : string :=
  "SELECT COUNT(*) AS cnt FROM (" +:+ inner_sql workspace_id f +:+ ") t WHERE " +:+ outer_where f.
Definition trace_page_text (workspace_id : Z) (f : TraceQueryFilters) (limit offset : Z) : string :=
  "SELECT * FROM (" +:+ inner_sql workspace_id f +:+ ") t
            WHERE" +:+ " " +:+ outer_where f +:+ "
            ORDER BY start_time DESC
            LIMIT" +:+ " " +:+ pretty limit +:+ " OFFSET " +:+ pretty offset.
End TraceText.

(** ** The metric series *)

Section SeriesText.
Context `{UuidText} (to_lowercase : string → string).

(** [interval_seconds as i64] times a billion, in a release build. *)
Definition interval_ns (interval_seconds : Z) : Z := i64_wrap (i64_wrap interval_seconds * 1000000000).

Definition agg_fn (aggregation : string) : string :=
  let a := to_lowercase aggregation in
  if decide (a = "sum") then "SUM(value)"
  else if decide (a = "min") then "MIN(value)"
  else if decide (a = "max") then "MAX(value)"
  else if decide (a = "count") then "COUNT(*)"
  else "AVG(value)".

Definition series_conditions (workspace_id : Z) (f : MetricSeriesFilters) : list string :=
  [workspace_text workspace_id; eq_text "metric_name" (ms_metric_name f)] ++
  opt_text (eq_text "service_name") (ms_service_name f) ++
  range_texts (ms_time_range f).

Definition series_text (workspace_id : Z) (f : MetricSeriesFilters) : string :=
  let interval := pretty (interval_ns (ms_interval_seconds f)) in
  "SELECT
                (timestamp / " +:+ interval +:+ ") * " +:+ interval +:+ " AS bucket_ts,
                " +:+ agg_fn (ms_aggregation f) +:+ " AS value
            FROM metrics
            WHERE " +:+ join_text " AND " (series_conditions workspace_id f) +:+ "
            GROUP BY bucket_ts
            ORDER BY bucket_ts".
End SeriesText.

(** ** Running the queries *)

(** DataFusion over the rows of the files: the table's name, the SQL and the
    rows give record batches. *)
Class SqlEngine (R E F : Type) `{Arrow F} := {
  run_text : string → string → list R → outcome E (list RecordBatch);
  table_file_missing : E;
}.

(** The engine for one text, as [query_parquet_as] uses it. *)
#[export] Instance engine_for {R E F : Type} `{SqlEngine R E F} (table text : string) : DataFusion R (list RecordBatch) E := {|
  run_sql := run_text table text;
  missing_file := table_file_missing;
|}.

Record PaginatedResponse (X : Type) := mkPage { pr_items : list X; pr_total : Z; pr_limit : Z; pr_offset : Z }.
Arguments mkPage {X}.
Arguments pr_items {X}.
Arguments pr_total {X}.

Record TraceSummary := mkTraceSummary {
  ts_trace_id : string;
  ts_trace_name : string;
  ts_start_time : Z;
  ts_end_time : Z;
  ts_duration_ms : Z;
  ts_span_count : Z;
  ts_service_name : string;
  ts_has_error : Z;
}.

Record MetricPoint (F : Type) := mkMetricPoint { mp_bucket_ts : Z; mp_value : F }.
Arguments mkMetricPoint {F}.

(** What one call of [query_parquet_as] finds: see [Reader]. *)
Record QueryEnv (R C : Type) := mkQueryEnv {
  qe_list_ok : bool;
  qe_before_lease : World (R := R) (C := C) → World (R := R) (C := C);
  qe_files : nat → (World (R := R) (C := C) → World (R := R) (C := C)) * FetchEnv (R := R);
  qe_before_scan : World (R := R) (C := C) → World (R := R) (C := C);
}.
Arguments mkQueryEnv {R C}.
Arguments qe_list_ok {R C}.
Arguments qe_before_lease {R C}.
Arguments qe_files {R C}.
Arguments qe_before_scan {R C}.

Section Run.
Context {F R E C : Type} `{UuidText} `{Arrow F} `{!SqlEngine R E F} `{LruCache C (FileData R)}.
Context (byte_size : FileData R → Z) (hash : string → Z) (canonicalize : string → string) (cache_dir : string).
Context (to_uppercase to_lowercase : string → string).
Abbreviation Wd := (World (R := R) (C := C)).
Abbreviation Env := (QueryEnv R C).

Inductive ReaderError :=
| WorkspaceRequired
| QueryFailed (context : string) (e : QueryError (E := E))
| ConversionFailed (e : SchemaError).

(** [query_parquet_as] for a table and a text; no file is an empty answer. *)
Definition query_text (context table text : string) (w : Wd) (filter : FileListFilter) (env : Env) :
    Wd * outcome ReaderError (list RecordBatch) :=
  let '(w, r) := query_parquet_as (engine := engine_for table text) byte_size hash canonicalize cache_dir w filter
    (qe_list_ok env) (qe_before_lease env) (qe_files env) (qe_before_scan env) in
  (w, default [] <$> map_err (QueryFailed context) r).

(** [extract_count]: [value(0) as u64] of the column [cnt], or of the first;
    [None] for a batch without columns. *)
Fixpoint extract_count (batches : list RecordBatch) : option Z :=
  match batches with
  | [] => Some 0
  | batch :: batches =>
      if (num_rows batch =? 0)%nat then extract_count batches else
      match column_by_name batch "cnt" with
      | Some a => match downcast Int64 a with Some arr => Some (value Int64 arr 0 mod 2 ^ 64) | None => extract_count batches end
      | None =>
          match columns batch with
          | [] => None
          | (_, a) :: _ => match downcast Int64 a with Some arr => Some (value Int64 arr 0 mod 2 ^ 64) | None => extract_count batches end
          end
      end
  end.

(** [for batch in &batches { rows.extend(record_batch_to_..(batch)?) }]. *)
Definition decode_batches {X : Type} (decode : RecordBatch → outcome SchemaError (list X)) (batches : list RecordBatch) :
    outcome ReaderError (list X) :=
  ofold (λ acc b, rows ← map_err ConversionFailed (decode b); mret (acc ++ rows)) [] batches.

Definition total_rows (batches : list RecordBatch) : nat := foldr Nat.add 0%nat (map num_rows batches).

(** The count query, then the page query. *)
Definition list_query {X : Type} (table count_context page_context : string) (decode : RecordBatch → outcome SchemaError (list X))
    (w : Wd) (filter : FileListFilter) (count_sql : string) (main_sql : string) (p : Pagination) (env1 env2 : Env) :
    Wd * outcome ReaderError (PaginatedResponse X) :=
  let '(limit, offset) := pagination_values p in
  match query_text count_context table count_sql w filter env1 with
  | (w, Ok count_batches) =>
      let total := default 0 (extract_count count_batches) in
      let '(w, r) := query_text page_context table main_sql w filter env2 in
      (w, batches ← r; items ← decode_batches decode batches; mret (mkPage items total limit offset))
  | (w, Err e) => (w, Err e)
  | (w, Panic) => (w, Panic)
  end.

Definition query_spans (w : Wd) (f : SpanQueryFilters) (env1 env2 : Env) : Wd * outcome ReaderError (PaginatedResponse (Span F)) :=
  match sq_workspace_id f with
  | None => (w, Err WorkspaceRequired)
  | Some workspace_id =>
      let '(limit, offset) := pagination_values (sq_pagination f) in
      let where_clause := join_text " AND " (span_conditions workspace_id f) in
      list_query "spans" "Failed to count spans" "Failed to query spans" record_batch_to_spans w (span_file_filter workspace_id f)
        (count_text "spans" where_clause) (page_text "spans" where_clause limit offset) (sq_pagination f) env1 env2
  end.

Definition query_logs (w : Wd) (f : LogQueryFilters) (env1 env2 : Env) : Wd * outcome ReaderError (PaginatedResponse LogRecord) :=
  match lq_workspace_id f with
  | None => (w, Err WorkspaceRequired)
  | Some workspace_id =>
      let '(limit, offset) := pagination_values (lq_pagination f) in
      let where_clause := join_text " AND " (log_conditions workspace_id f) in
      list_query "logs" "Failed to count logs" "Failed to query logs" record_batch_to_logs w
        (signal_file_filter workspace_id "logs" (lq_time_range f))
        (count_text "logs" where_clause) (page_text "logs" where_clause limit offset) (lq_pagination f) env1 env2
  end.

Definition query_metrics (w : Wd) (f : MetricQueryFilters) (env1 env2 : Env) : Wd * outcome ReaderError (PaginatedResponse (Metric F)) :=
  match mq_workspace_id f with
  | None => (w, Err WorkspaceRequired)
  | Some workspace_id =>
      let '(limit, offset) := pagination_values (mq_pagination f) in
      let where_clause := join_text " AND " (metric_conditions workspace_id f) in
      list_query "metrics" "Failed to count metrics" "Failed to query metrics" record_batch_to_metrics w
        (signal_file_filter workspace_id "metrics" (mq_time_range f))
        (count_text "metrics" where_clause) (page_text "metrics" where_clause limit offset) (mq_pagination f) env1 env2
  end.

(** [batch_to_trace_summaries]; [has_error_col.value(i) as i16]. *)
Definition i16_wrap (z : Z) : Z := (z + 2 ^ 15) mod 2 ^ 16 - 2 ^ 15.
Definition batch_to_trace_summaries (b : RecordBatch) : outcome SchemaError (list TraceSummary) :=
  if (num_rows b =? 0)%nat then Ok [] else
  trace_id_col ← col Utf8 b "trace_id";
  trace_name_col ← col Utf8 b "trace_name";
  start_time_col ← col Int64 b "start_time";
  end_time_col ← col Int64 b "end_time";
  duration_ms_col ← col Int64 b "duration_ms";
  span_count_col ← col Int64 b "span_count";
  service_col ← col Utf8 b "service_name";
  has_error_col ← col Int64 b "has_error";
  mret (map (λ i,
    mkTraceSummary (value Utf8 trace_id_col i) (value Utf8 trace_name_col i) (value Int64 start_time_col i)
      (value Int64 end_time_col i) (value Int64 duration_ms_col i) (value Int64 span_count_col i)
      (value Utf8 service_col i) (i16_wrap (value Int64 has_error_col i))) (seq 0 (num_rows b))).

Definition query_traces (w : Wd) (f : TraceQueryFilters) (env1 env2 : Env) : Wd * outcome ReaderError (PaginatedResponse TraceSummary) :=
  match tq_workspace_id f with
  | None => (w, Err WorkspaceRequired)
  | Some workspace_id =>
      let '(limit, offset) := pagination_values (tq_pagination f) in
      list_query "spans" "Failed to count traces" "Failed to query traces" batch_to_trace_summaries w (trace_file_filter workspace_id f)
        (trace_count_text to_uppercase workspace_id f) (trace_page_text to_uppercase workspace_id f limit offset)
        (tq_pagination f) env1 env2
  end.

Definition get_trace_detail (w : Wd) (workspace_id : Z) (trace_id : string) (env : Env) : Wd * outcome ReaderError (option (list (Span F))) :=
  let '(w, r) := query_text "Failed to query trace detail" "spans" (trace_detail_text workspace_id trace_id) w
    (signal_file_filter workspace_id "traces" None) env in
  (w, batches ← r;
      if (total_rows batches =? 0)%nat then mret None
      else spans ← decode_batches record_batch_to_spans batches; mret (Some spans)).

(** The first row of the first batch: [&batches[0]] exists when there are rows. *)
Definition first_row {X : Type} (decode : RecordBatch → outcome SchemaError (list X)) (batches : list RecordBatch) :
    outcome ReaderError (option X) :=
  if (total_rows batches =? 0)%nat then mret None
  else match batches with
       | [] => Panic
       | b :: _ => rows ← map_err ConversionFailed (decode b); mret (head rows)
       end.

Definition get_span (w : Wd) (workspace_id : Z) (span_id : string) (env : Env) : Wd * outcome ReaderError (option (Span F)) :=
  let '(w, r) := query_text "Failed to query span by ID" "spans" (get_span_text workspace_id span_id) w
    (signal_file_filter workspace_id "traces" None) env in
  (w, r ≫= first_row record_batch_to_spans).

Definition get_log (w : Wd) (workspace_id : Z) (log_id : string) (env : Env) : Wd * outcome ReaderError (option LogRecord) :=
  let '(w, r) := query_text "Failed to query log by ID" "logs" (get_log_text workspace_id log_id) w
    (signal_file_filter workspace_id "logs" None) env in
  (w, r ≫= first_row record_batch_to_logs).

Definition series_points (b : RecordBatch) : outcome SchemaError (list (MetricPoint F)) :=
  if (num_rows b =? 0)%nat then Ok [] else
  bucket_col ← col Int64 b "bucket_ts";
  value_col ← col Float64 b "value";
  mret (map (λ i, mkMetricPoint (value Int64 bucket_col i) (value Float64 value_col i)) (seq 0 (num_rows b))).

Definition query_metric_series (w : Wd) (f : MetricSeriesFilters) (env : Env) : Wd * outcome ReaderError (list (MetricPoint F)) :=
  match ms_workspace_id f with
  | None => (w, Err WorkspaceRequired)
  | Some workspace_id =>
      let '(w, r) := query_text "Failed to query metric series" "metrics" (series_text to_lowercase workspace_id f) w
        (signal_file_filter workspace_id "metrics" (ms_time_range f)) env in
      (w, batches ← r; decode_batches series_points batches)
  end.
End Run.

(** ** Specification: what the texts stand for *)

Definition opt_cond {A : Type} (f : A → Cond) (o : option A) : list Cond := match o with Some v => [f v] | None => [] end.
Definition like_cond (col v : string) : Cond := CLike col ("%" +:+ v +:+ "%").
Definition range_conds (time_range : option TimeRange) : list Cond :=
  match time_range with Some tr => [CGe "timestamp" (tr_start tr); CLe "timestamp" (tr_end tr)] | None => [] end.

Section Spec.
Context `{UuidText}.

Definition workspace_cond (workspace_id : Z) : Cond := CEq "workspace_id" (uuid_to_string workspace_id).

Definition log_conds (workspace_id : Z) (f : LogQueryFilters) : list Cond :=
  [workspace_cond workspace_id] ++
  opt_cond (CEq "severity") (lq_severity f) ++
  opt_cond (CEq "service_name") (lq_service_name f) ++
  opt_cond (CEq "trace_id") (lq_trace_id f) ++
  opt_cond (like_cond "message") (lq_search_text f) ++
  opt_cond (CEq "agent_name") (lq_agent_name f) ++
  opt_cond (CEq "session_id") (lq_session_id f) ++
  range_conds (lq_time_range f).

Definition metric_conds (workspace_id : Z) (f : MetricQueryFilters) : list Cond :=
  [workspace_cond workspace_id] ++
  opt_cond (CEq "metric_name") (mq_metric_name f) ++
  opt_cond (CEq "service_name") (mq_service_name f) ++
  opt_cond (CEq "agent_name") (mq_agent_name f) ++
  range_conds (mq_time_range f).

Definition span_conds (workspace_id : Z) (f : SpanQueryFilters) : list Cond :=
  [workspace_cond workspace_id] ++
  opt_cond (CEq "trace_id") (sq_trace_id f) ++
  opt_cond (CEq "service_name") (sq_service_name f) ++
  opt_cond (like_cond "span_name") (sq_span_name f) ++
  match sq_span_types f with Some (v :: vs) => [CIn "span_type" (v :: vs)] | _ => [] end ++
  opt_cond (CEq "status_code") (sq_status f) ++
  range_conds (sq_time_range f) ++
  opt_cond (CEq "llm_model") (sq_llm_model f) ++
  opt_cond (CEq "llm_provider") (sq_llm_provider f) ++
  opt_cond (CEq "llm_response_model") (sq_llm_response_model f) ++
  opt_cond (CEq "agent_name") (sq_agent_name f) ++
  opt_cond (CEq "session_id") (sq_session_id f) ++
  opt_cond (CEq "rail_type") (sq_rail_type f) ++
  opt_cond (CEq "action_name") (sq_action_name f) ++
  opt_cond (CEq "workflow_run_id") (sq_workflow_run_id f) ++
  opt_cond (CEq "framework") (sq_framework f) ++
  opt_cond (CEq "tool_name") (sq_tool_name f) ++
  opt_cond (CEq "invocation_id") (sq_invocation_id f) ++
  opt_cond (CEq "environment") (sq_environment f).

(** ** Lemmas *)

(** A workspace id as text has no quote. *)
Context (uuid_plain : ∀ w, plain (uuid_to_string w)).

Lemma lex_quote v : lex ("'" +:+ escape_sql_str v +:+ "'") = Some [TStr v].
Proof.
  change ("'" +:+ escape_sql_str v +:+ "'") with (quoted "" v "").
  rewrite lex_quoted by apply not_elem_of_nil. do 3 f_equal. change ("" +:+ v +:+ "") with (v +:+ "").
  induction v as [|c v IH]; [done|]. change (String c v +:+ "") with (String c (v +:+ "")). by f_equal.
Qed.

Lemma escape_plain v : plain v → escape_sql_str v = v.
Proof.
  unfold plain. induction v as [|c v IH]; [done|]. cbn [String.list_ascii_of_string escape_sql_str]. rewrite not_elem_of_cons.
  intros [Hc Hv]. rewrite decide_False by congruence. by rewrite IH.
Qed.

Lemma lex_eq_text col v : is_word col = true → lex (eq_text col v) = Some (cond_tokens (CEq col v)).
Proof.
  intros Hc. change (eq_text col v) with (col +:+ " " +:+ ("" +:+ String "=" ("" +:+ " " +:+ ("'" +:+ escape_sql_str v +:+ "'")))).
  rewrite (lex_space _ _ [TWord col] [TSym "="; TStr v]); [done|by apply lex_word|].
  rewrite (lex_symbol _ _ _ [] [TStr v]); [done..| |done|done|done]. rewrite (lex_space _ _ [] [TStr v]); [done|done|apply lex_quote].
Qed.

Lemma lex_workspace w : lex (workspace_text w) = Some (cond_tokens (workspace_cond w)).
Proof.
  unfold workspace_cond. rewrite <-(lex_eq_text "workspace_id" (uuid_to_string w)) by done. unfold eq_text. by rewrite escape_plain by apply uuid_plain.
Qed.

Lemma lex_like_text col v : is_word col = true → lex (like_text col v) = Some (cond_tokens (like_cond col v)).
Proof.
  intros Hc. change (like_text col v) with (col +:+ " " +:+ ("LIKE" +:+ " " +:+ quoted "%" v "%")).
  rewrite (lex_space _ _ [TWord col] [TWord "LIKE"; TStr ("%" +:+ v +:+ "%")]); [done|by apply lex_word|].
  rewrite (lex_space _ _ [TWord "LIKE"] [TStr ("%" +:+ v +:+ "%")]); [done|done|].
  apply lex_quoted; vm_compute; by intros [|?%elem_of_nil]%elem_of_cons.
Qed.

Lemma lex_ge_text col z : is_word col = true → lex (ge_text col z) = Some (cond_tokens (CGe col z)).
Proof.
  intros Hc. change (ge_text col z) with (col +:+ " " +:+ (">=" +:+ " " +:+ pretty z)).
  rewrite (lex_space _ _ [TWord col] (TSym ">" :: TSym "=" :: number_tokens z)); [done|by apply lex_word|].
  by rewrite (lex_space _ _ [TSym ">"; TSym "="] (number_tokens z)); [|done|apply lex_number].
Qed.

Lemma lex_le_text col z : is_word col = true → lex (le_text col z) = Some (cond_tokens (CLe col z)).
Proof.
  intros Hc. change (le_text col z) with (col +:+ " " +:+ ("<=" +:+ " " +:+ pretty z)).
  rewrite (lex_space _ _ [TWord col] (TSym "<" :: TSym "=" :: number_tokens z)); [done|by apply lex_word|].
  by rewrite (lex_space _ _ [TSym "<"; TSym "="] (number_tokens z)); [|done|apply lex_number].
Qed.

Lemma lex_strings vs : vs ≠ [] →
  lex (join_text ", " (map (λ v, "'" +:+ escape_sql_str v +:+ "'") vs) +:+ ")") = Some (strings_tokens vs).
Proof.
  induction vs as [|v vs IH]; [done|]. intros _. destruct vs as [|v' vs].
  - cbn [map join_text strings_tokens]. by rewrite (lex_symbol _ ")" "" [TStr v] []); [|apply lex_quote|done..].
  - set (rest := join_text ", " (map (λ v, "'" +:+ escape_sql_str v +:+ "'") (v' :: vs))) in *.
    change (join_text ", " (map (λ v, "'" +:+ escape_sql_str v +:+ "'") (v :: v' :: vs)) +:+ ")") with
      ((("'" +:+ escape_sql_str v +:+ "'") +:+ ("," +:+ (" " +:+ rest))) +:+ ")").
    rewrite string_app_assoc.
    change (("," +:+ (" " +:+ rest)) +:+ ")") with (String "," ("" +:+ " " +:+ (rest +:+ ")"))).
    rewrite (lex_symbol _ "," _ [TStr v] (strings_tokens (v' :: vs))); [done|apply lex_quote| |done..].
    rewrite (lex_space _ _ [] (strings_tokens (v' :: vs))); [done|done|by apply IH].
Qed.

Lemma lex_in_text col vs : is_word col = true → vs ≠ [] → lex (in_text col vs) = Some (cond_tokens (CIn col vs)).
Proof.
  intros Hc Hv. unfold in_text. set (list := join_text _ _).
  change (col +:+ " IN (" +:+ list +:+ ")") with (col +:+ " " +:+ ("IN" +:+ " " +:+ ("" +:+ String "(" (list +:+ ")")))).
  rewrite (lex_space _ _ [TWord col] (TWord "IN" :: TSym "(" :: strings_tokens vs)); [done|by apply lex_word|].
  rewrite (lex_space _ _ [TWord "IN"] (TSym "(" :: strings_tokens vs)); [done|done|].
  by rewrite (lex_symbol _ "(" _ [] (strings_tokens vs)); [|done|by apply lex_strings|..].
Qed.

(** Lists of conditions, text by text. *)
Definition lexes : list string → list Cond → Prop := Forall2 (λ t c, lex t = Some (cond_tokens c)).

Lemma lexes_opt {A : Type} (t : A → string) (c : A → Cond) o : (∀ v, lex (t v) = Some (cond_tokens (c v))) → lexes (opt_text t o) (opt_cond c o).
Proof. intros Ht. destruct o; [|constructor]. constructor; [apply Ht|constructor]. Qed.

Lemma lexes_range r : lexes (range_texts r) (range_conds r).
Proof.
  destruct r as [r|]; [|constructor].
  constructor; [by apply lex_ge_text|]. constructor; [by apply lex_le_text|constructor].
Qed.

Lemma conds_ok_opt {A : Type} (c : A → Cond) o : (∀ v, cond_ok (c v)) → Forall cond_ok (opt_cond c o).
Proof. intros Hc. destruct o; [|constructor]. by constructor. Qed.
Lemma conds_ok_range r : Forall cond_ok (range_conds r).
Proof. destruct r; by repeat constructor. Qed.

Ltac lex_parts :=
  repeat (apply Forall2_app; [first [ apply lexes_opt; intros; first [by apply lex_eq_text|by apply lex_like_text]
                                    | apply lexes_range
                                    | constructor; [apply lex_workspace|constructor] ]|]);
  try first [apply lexes_opt; intros; first [by apply lex_eq_text|by apply lex_like_text] | apply lexes_range].
Ltac ok_parts :=
  repeat (apply Forall_app; split; [first [apply conds_ok_opt; intros; exact I | apply conds_ok_range | by repeat constructor]|]);
  try first [apply conds_ok_opt; intros; exact I | apply conds_ok_range].

Lemma log_conditions_lex w f : lexes (log_conditions w f) (log_conds w f) ∧ Forall cond_ok (log_conds w f).
Proof. split; [lex_parts|ok_parts]. Qed.
Lemma metric_conditions_lex w f : lexes (metric_conditions w f) (metric_conds w f) ∧ Forall cond_ok (metric_conds w f).
Proof. split; [lex_parts|ok_parts]. Qed.
Lemma span_conditions_lex w f : lexes (span_conditions w f) (span_conds w f) ∧ Forall cond_ok (span_conds w f).
Proof.
  split.
  - unfold span_conditions, span_conds. do 4 (apply Forall2_app; [first [constructor; [apply lex_workspace|constructor]
      |apply lexes_opt; intros; first [by apply lex_eq_text|by apply lex_like_text]]|]).
    apply Forall2_app; [|lex_parts]. destruct (sq_span_types f) as [[|v vs]|]; constructor; [|constructor]. by apply lex_in_text.
  - unfold span_conds. do 4 (apply Forall_app; split; [first [by repeat constructor|apply conds_ok_opt; intros; exact I]|]).
    apply Forall_app; split; [|ok_parts]. destruct (sq_span_types f) as [[|v vs]|]; by repeat constructor.
Qed.

(** The whole texts. *)
Lemma lex_joined texts conds : conds ≠ [] → lexes texts conds → lex (join_text " AND " texts) = Some (conds_tokens conds).
Proof. apply lex_join. Qed.

(** A query whose text lexes to its tokens parses. *)
Lemma parse_lexed text q : q_conds q ≠ [] → Forall cond_ok (q_conds q) → lex text = Some (query_tokens q) → parse_sql text = Some q.
Proof. intros Hne Hok Hl. unfold parse_sql. rewrite Hl. cbn [mbind option_bind]. by apply parse_query_tokens. Qed.

Lemma parse_count_text table texts conds : is_word table = true → conds ≠ [] → Forall cond_ok conds → lexes texts conds →
  parse_sql (count_text table (join_text " AND " texts)) = Some (mkQuery true table conds None None None).
Proof.
  intros Ht Hne Hok Hl. apply parse_lexed; [done|done|]. unfold count_text. set (wh := join_text _ _).
  assert (lex wh = Some (conds_tokens conds)) as Hwh by by apply lex_joined.
  change (lex ("SELECT COUNT(*) AS cnt FROM" +:+ " " +:+ (table +:+ " " +:+ ("WHERE" +:+ " " +:+ wh))) =
    Some (query_tokens (mkQuery true table conds None None None))).
  etrans; [eapply lex_space; [reflexivity|]; eapply lex_space; [by apply lex_word|]; eapply lex_space; [reflexivity|exact Hwh]|].
  transitivity (Some ((words ["SELECT"] ++ [TWord "COUNT"; TSym "("; TSym "*"; TSym ")"; TWord "AS"; TWord "cnt"] ++
    words ["FROM"; table; "WHERE"]) ++ conds_tokens conds)); [reflexivity|].
  rewrite <-(app_nil_r (conds_tokens conds)) at 1. reflexivity.
Qed.

Lemma parse_page_text table texts conds limit offset : is_word table = true → conds ≠ [] → Forall cond_ok conds → lexes texts conds →
  parse_sql (page_text table (join_text " AND " texts) limit offset) = Some (mkQuery false table conds (Some true) (Some limit) (Some offset)).
Proof.
  intros Ht Hne Hok Hl. apply parse_lexed; [done|done|]. unfold page_text. set (wh := join_text _ _).
  assert (lex wh = Some (conds_tokens conds)) as Hwh by by apply lex_joined.
  change (lex ("SELECT * FROM" +:+ " " +:+ (table +:+ " " +:+ ("WHERE" +:+ " " +:+ (wh +:+ " " +:+
    ("ORDER BY timestamp DESC LIMIT" +:+ " " +:+ (pretty limit +:+ " " +:+ ("OFFSET" +:+ " " +:+ pretty offset))))))) =
    Some (query_tokens (mkQuery false table conds (Some true) (Some limit) (Some offset)))).
  etrans; [eapply lex_space; [reflexivity|]; eapply lex_space; [by apply lex_word|]; eapply lex_space; [reflexivity|];
    eapply lex_space; [exact Hwh|]; eapply lex_space; [reflexivity|]; eapply lex_space; [apply lex_number|];
    eapply lex_space; [reflexivity|apply lex_number]|].
  reflexivity.
Qed.

(** The queries by id: two equalities and a tail. *)
Lemma lex_by_id table w col v tail ts : is_word col = true → lex table = Some [TWord table] → lex tail = Some ts →
  lex ("SELECT * FROM " +:+ table +:+ " WHERE " +:+ workspace_text w +:+ " AND " +:+ eq_text col v +:+ " " +:+ tail) =
    Some (words ["SELECT"] ++ [TSym "*"] ++ words ["FROM"; table; "WHERE"] ++ conds_tokens [workspace_cond w; CEq col v] ++ ts).
Proof.
  intros Hc Ht Htail.
  change (lex ("SELECT * FROM" +:+ " " +:+ (table +:+ " " +:+ ("WHERE" +:+ " " +:+ (workspace_text w +:+ " " +:+ ("AND" +:+ " " +:+
    (eq_text col v +:+ " " +:+ tail)))))) =
    Some (words ["SELECT"] ++ [TSym "*"] ++ words ["FROM"; table; "WHERE"] ++ conds_tokens [workspace_cond w; CEq col v] ++ ts)).
  etrans; [eapply lex_space; [reflexivity|]; eapply lex_space; [exact Ht|]; eapply lex_space; [reflexivity|];
    eapply lex_space; [apply lex_workspace|]; eapply lex_space; [reflexivity|]; eapply lex_space; [by apply lex_eq_text|exact Htail]|].
  reflexivity.
Qed.

Lemma parse_by_id table w col v tail order limit : is_word col = true → is_word table = true →
  lex tail = Some ((match order with None => [] | Some desc => words (["ORDER"; "BY"; "timestamp"] ++ if (desc : bool) then ["DESC"] else []) end) ++
    (match limit with None => [] | Some z => TWord "LIMIT" :: number_tokens z end)) →
  parse_sql ("SELECT * FROM " +:+ table +:+ " WHERE " +:+ workspace_text w +:+ " AND " +:+ eq_text col v +:+ " " +:+ tail) =
    Some (mkQuery false table [workspace_cond w; CEq col v] order limit None).
Proof.
  intros Hc Ht Htail. apply parse_lexed; [done|cbn [q_conds]; constructor; [exact I|constructor; [exact I|constructor]]|].
  rewrite (lex_by_id _ _ _ _ _ _ Hc (lex_word _ Ht) Htail). unfold query_tokens.
  cbn [q_count q_table q_conds q_order q_limit q_offset]. by rewrite app_nil_r.
Qed.

(** ** The trace query by its tokens *)

Definition and_tokens {A : Type} (f : A → list Token) (o : option A) : list Token :=
  match o with Some v => TWord "AND" :: f v | None => [] end.
Definition and_eq (col : string) : option string → list Token := and_tokens (λ v, cond_tokens (CEq col v)).

(** The traces with a span of that name, in the caller's workspace. *)
Definition span_name_tokens (w : Z) (name : string) : list Token :=
  words ["trace_id"; "IN"] ++ [TSym "("] ++ words ["SELECT"; "DISTINCT"; "trace_id"; "FROM"; "spans"; "WHERE"] ++
  cond_tokens (workspace_cond w) ++ TWord "AND" :: cond_tokens (like_cond "span_name" name) ++ [TSym ")"].

Definition inner_where_tokens (w : Z) (f : TraceQueryFilters) : list Token :=
  cond_tokens (workspace_cond w) ++
  and_eq "service_name" (tq_service_name f) ++
  and_tokens (span_name_tokens w) (tq_span_name f) ++
  match tq_time_range f with
  | Some tr => TWord "AND" :: cond_tokens (CGe "timestamp" (tr_start tr)) ++ TWord "AND" :: cond_tokens (CLe "timestamp" (tr_end tr))
  | None => []
  end ++
  and_eq "llm_model" (tq_llm_model f) ++
  and_eq "llm_provider" (tq_llm_provider f) ++
  and_eq "llm_response_model" (tq_llm_response_model f) ++
  and_eq "agent_name" (tq_agent_name f) ++
  and_eq "session_id" (tq_session_id f) ++
  and_eq "rail_type" (tq_rail_type f) ++
  and_eq "action_name" (tq_action_name f) ++
  and_eq "workflow_run_id" (tq_workflow_run_id f) ++
  and_eq "framework" (tq_framework f) ++
  and_eq "tool_name" (tq_tool_name f) ++
  and_eq "invocation_id" (tq_invocation_id f) ++
  and_eq "environment" (tq_environment f).

(** The tokens of the fixed part of the query. *)
Definition skeleton (text : string) : list Token := default [] (lex text).
Definition inner_tokens (w : Z) (f : TraceQueryFilters) : list Token :=
  skeleton inner_head ++ inner_where_tokens w f ++ words ["GROUP"; "BY"; "trace_id"].

(** A text that lexes and can follow another. *)
Definition lexes_after (t : string) (ts : list Token) : Prop := lex t = Some ts ∧ starts_blank t = true.

Lemma lexes_after_app a b ta tb : lexes_after a ta → lexes_after b tb → lexes_after (a +:+ b) (ta ++ tb).
Proof. intros [Ha Hsa] [Hb Hsb]. split; [by apply lex_after|by apply starts_blank_app]. Qed.

Lemma lex_then a b ta tb : lex a = Some ta → lexes_after b tb → lex (a +:+ b) = Some (ta ++ tb).
Proof. intros Ha [Hb Hs]. by apply lex_after. Qed.

Lemma lexes_after_and {A : Type} (t : A → string) (ts : A → list Token) o : (∀ v, lex (t v) = Some (ts v)) →
  lexes_after (and_text t o) (and_tokens ts o).
Proof.
  intros Ht. destruct o as [v|]; [|done]. split; [|done]. change (lex ("" +:+ " " +:+ ("AND" +:+ " " +:+ t v)) = Some (TWord "AND" :: ts v)).
  erewrite (lex_space "" _ [] (TWord "AND" :: ts v)); [done|done|]. by apply (lex_space "AND" _ [TWord "AND"]).
Qed.

Lemma lex_span_name w name : lex (span_name_text w name) = Some (span_name_tokens w name).
Proof.
  change (lex ("trace_id IN" +:+ " " +:+ ("" +:+ String "(" ("SELECT DISTINCT trace_id FROM spans WHERE" +:+ " " +:+ (workspace_text w +:+ " " +:+
    ("AND" +:+ " " +:+ (like_text "span_name" name +:+ String ")" "")))))) = Some (span_name_tokens w name)).
  etrans; [eapply lex_space; [reflexivity|]; eapply lex_symbol; [reflexivity| |done..]; eapply lex_space; [reflexivity|];
    eapply lex_space; [apply lex_workspace|]; eapply lex_space; [reflexivity|]; eapply lex_symbol; [by apply lex_like_text|reflexivity|done..]|].
  reflexivity.
Qed.

Lemma lexes_after_range r : lexes_after
  match r with Some tr => " AND " +:+ ge_text "timestamp" (tr_start tr) +:+ " AND " +:+ le_text "timestamp" (tr_end tr) | None => "" end
  match r with
  | Some tr => TWord "AND" :: cond_tokens (CGe "timestamp" (tr_start tr)) ++ TWord "AND" :: cond_tokens (CLe "timestamp" (tr_end tr))
  | None => []
  end.
Proof.
  destruct r as [r|]; [|done]. split; [|done].
  change (lex ("" +:+ " " +:+ ("AND" +:+ " " +:+ (ge_text "timestamp" (tr_start r) +:+ " " +:+ ("AND" +:+ " " +:+ le_text "timestamp" (tr_end r))))) =
    Some (TWord "AND" :: cond_tokens (CGe "timestamp" (tr_start r)) ++ TWord "AND" :: cond_tokens (CLe "timestamp" (tr_end r)))).
  etrans; [eapply lex_space; [reflexivity|]; eapply lex_space; [reflexivity|]; eapply lex_space; [by apply lex_ge_text|];
    eapply lex_space; [reflexivity|by apply lex_le_text]|]. reflexivity.
Qed.

Lemma lex_inner_where w f : lex (inner_where w f) = Some (inner_where_tokens w f).
Proof.
  assert (∀ col o, is_word col = true → lexes_after (and_text (eq_text col) o) (and_eq col o)) as Heq.
  { intros col o Hc. apply lexes_after_and. intros v. by apply lex_eq_text. }
  eapply lex_then; [apply lex_workspace|].
  repeat (apply lexes_after_app; [first [by apply Heq|apply lexes_after_and; apply lex_span_name|apply lexes_after_range]|]).
  by apply Heq.
Qed.

Lemma lex_inner_sql w f : lex (inner_sql w f) = Some (inner_tokens w f).
Proof.
  unfold inner_sql. set (wh := inner_where w f). assert (lex wh = Some (inner_where_tokens w f)) as Hwh by apply lex_inner_where.
  eapply lex_space; [reflexivity|]. eapply lex_then; [exact Hwh|]. split; reflexivity.
Qed.

(** The conditions outside the aggregation. *)
Definition outer_conds (to_uppercase : string → string) (f : TraceQueryFilters) : list (list Token) :=
  match tq_status f with
  | Some status =>
      let s := to_uppercase status in
      if decide (s = "ERROR") then [[TWord "has_error"; TSym "="; TWord "1"]]
      else if decide (s = "OK") then [[TWord "has_error"; TSym "="; TWord "0"]] else []
  | None => []
  end ++
  match tq_min_duration_ms f with Some z => [cond_tokens (CGe "duration_ms" z)] | None => [] end ++
  match tq_max_duration_ms f with Some z => [cond_tokens (CLe "duration_ms" z)] | None => [] end.

Fixpoint joined_tokens (l : list (list Token)) : list Token :=
  match l with [] => [] | [t] => t | t :: l => t ++ TWord "AND" :: joined_tokens l end.
Definition outer_tokens (to_uppercase : string → string) (f : TraceQueryFilters) : list Token :=
  match outer_conds to_uppercase f with [] => [TWord "1"; TSym "="; TWord "1"] | l => joined_tokens l end.

Lemma lex_joined_tokens texts tokens : tokens ≠ [] → Forall2 (λ t ts, lex t = Some ts) texts tokens →
  lex (join_text " AND " texts) = Some (joined_tokens tokens).
Proof.
  intros Hne Hall. induction Hall as [|t ts texts tokens Ht Hall IH]; [done|]. destruct Hall as [|t' ts' texts tokens Ht' Hall]; [done|].
  change (join_text " AND " (t :: t' :: texts)) with (t +:+ " " +:+ ("AND" +:+ " " +:+ join_text " AND " (t' :: texts))).
  change (joined_tokens (ts :: ts' :: tokens)) with (ts ++ [TWord "AND"] ++ joined_tokens (ts' :: tokens)).
  apply lex_space; [done|]. by apply lex_space, IH.
Qed.

Lemma lex_outer_where up f : lex (outer_where up f) = Some (outer_tokens up f).
Proof.
  assert (Forall2 (λ t ts, lex t = Some ts) (outer_conditions up f) (outer_conds up f)) as Hall.
  { unfold outer_conditions, outer_conds. apply Forall2_app.
    - destruct (tq_status f) as [s|]; [|constructor]. cbv zeta. repeat case_decide; repeat constructor.
    - apply Forall2_app; [destruct (tq_min_duration_ms f)|destruct (tq_max_duration_ms f)]; constructor; try constructor;
        [by apply lex_ge_text|by apply lex_le_text]. }
  unfold outer_where, outer_tokens. destruct Hall as [|t ts texts tokens Ht Hall]; [done|]. apply lex_joined_tokens; [done|by constructor].
Qed.

(** The trace query's words and symbols are fixed, and each string of the client
    is one string literal, at the place of its own column. *)
Lemma lex_trace_query (to_uppercase : string → string) (w : Z) (f : TraceQueryFilters) (limit offset : Z) :
  lex (trace_count_text to_uppercase w f) =
    Some (skeleton "SELECT COUNT(*) AS cnt FROM (" ++ inner_tokens w f ++ skeleton ") t WHERE" ++ outer_tokens to_uppercase f) ∧
  lex (trace_page_text to_uppercase w f limit offset) =
    Some (skeleton "SELECT * FROM (" ++ inner_tokens w f ++ skeleton ") t WHERE" ++ outer_tokens to_uppercase f ++
      words ["ORDER"; "BY"; "start_time"; "DESC"; "LIMIT"] ++ number_tokens limit ++ TWord "OFFSET" :: number_tokens offset).
Proof.
  pose proof (lex_inner_sql w f) as Hin. pose proof (lex_outer_where to_uppercase f) as Hout. split.
  - unfold trace_count_text. set (inner := inner_sql w f) in *. set (outer := outer_where to_uppercase f) in *.
    change (lex ("SELECT COUNT(*) AS cnt FROM " +:+ String "(" (inner +:+ String ")" (" t WHERE" +:+ " " +:+ outer))) =
      Some (skeleton "SELECT COUNT(*) AS cnt FROM (" ++ inner_tokens w f ++ skeleton ") t WHERE" ++ outer_tokens to_uppercase f)).
    etrans; [eapply lex_symbol; [reflexivity| |done..]; eapply lex_symbol; [exact Hin| |done..]; eapply lex_space; [reflexivity|exact Hout]|].
    reflexivity.
  - unfold trace_page_text. set (inner := inner_sql w f) in *. set (outer := outer_where to_uppercase f) in *.
    match goal with |- lex (_ +:+ inner +:+ _ +:+ " " +:+ outer +:+ ?order +:+ _) = Some ?ts =>
      change (lex ("SELECT * FROM " +:+ String "(" (inner +:+ String ")" (" t
            WHERE" +:+ " " +:+ (outer +:+ (order +:+ " " +:+ (pretty limit +:+ " " +:+ ("OFFSET" +:+ " " +:+ pretty offset))))))) = Some ts)
    end.
    etrans; [eapply lex_symbol; [reflexivity| |done..]; eapply lex_symbol; [exact Hin| |done..]; eapply lex_space; [reflexivity|];
      eapply lex_then; [exact Hout|]; split; [|reflexivity]; eapply lex_space; [reflexivity|]; eapply lex_space; [apply lex_number|];
      eapply lex_space; [reflexivity|apply lex_number]|].
    reflexivity.
Qed.
(** ** Theorems *)

(** C27: No string a client sends changes what a query means. SQL reads the text of
    the list queries for logs, metrics and spans, for the count and for the
    page, and of each query by id as the query with the filters' own values,
    the quotes and keywords in them included, in the caller's workspace. The
    trace list, an aggregation inside a selection, is beyond that grammar: of
    its count and its page it is the tokens that are fixed, the conditions of
    the inner and of the outer [WHERE] being those of the filters, where each
    string of the client is one literal at the place of its own column. *)
Theorem list_queries_parse (w : Z) (lf : LogQueryFilters) (mf : MetricQueryFilters) (sf : SpanQueryFilters) (tf : TraceQueryFilters)
    (to_uppercase : string → string) (limit offset : Z) (key : string) :
  Forall (λ '(table, texts, conds),
    parse_sql (count_text table (join_text " AND " texts)) = Some (mkQuery true table conds None None None) ∧
    parse_sql (page_text table (join_text " AND " texts) limit offset) =
      Some (mkQuery false table conds (Some true) (Some limit) (Some offset)))
    [("logs", log_conditions w lf, log_conds w lf);
     ("metrics", metric_conditions w mf, metric_conds w mf);
     ("spans", span_conditions w sf, span_conds w sf)] ∧
  lex (trace_count_text to_uppercase w tf) =
    Some (skeleton "SELECT COUNT(*) AS cnt FROM (" ++ inner_tokens w tf ++ skeleton ") t WHERE" ++ outer_tokens to_uppercase tf) ∧
  lex (trace_page_text to_uppercase w tf limit offset) =
    Some (skeleton "SELECT * FROM (" ++ inner_tokens w tf ++ skeleton ") t WHERE" ++ outer_tokens to_uppercase tf ++
      words ["ORDER"; "BY"; "start_time"; "DESC"; "LIMIT"] ++ number_tokens limit ++ TWord "OFFSET" :: number_tokens offset) ∧
  parse_sql (trace_detail_text w key) = Some (mkQuery false "spans" [workspace_cond w; CEq "trace_id" key] (Some false) None None) ∧
  parse_sql (get_span_text w key) = Some (mkQuery false "spans" [workspace_cond w; CEq "span_id" key] None (Some 1) None) ∧
  parse_sql (get_log_text w key) = Some (mkQuery false "logs" [workspace_cond w; CEq "id" key] None (Some 1) None).
Proof.
  destruct (lex_trace_query to_uppercase w tf limit offset) as [Hcount Hpage].
  split; [|split; [exact Hcount|split; [exact Hpage|split; [|split]]]].
  - repeat constructor; try apply parse_count_text; try apply parse_page_text; try done;
      first [apply log_conditions_lex|apply metric_conditions_lex|apply span_conditions_lex].
  - exact (parse_by_id "spans" w "trace_id" key "ORDER BY timestamp" (Some false) None eq_refl eq_refl eq_refl).
  - exact (parse_by_id "spans" w "span_id" key "LIMIT 1" None (Some 1) eq_refl eq_refl eq_refl).
  - exact (parse_by_id "logs" w "id" key "LIMIT 1" None (Some 1) eq_refl eq_refl eq_refl).
Qed.
End Spec.

(** ** The count of a metric series *)

Section CountSeries.
Context {F R E C : Type} `{UuidText} `{Arrow F} `{!ArrowLaws F} `{!SqlEngine R E F} `{LruCache C (FileData R)}.
Context (byte_size : FileData R → Z) (hash : string → Z) (canonicalize : string → string) (cache_dir : string).
Context (to_lowercase : string → string).

(** A batch of [SELECT .. AS bucket_ts, COUNT( * ) AS value]: both columns are
    64-bit integers. *)
Definition count_batch (b : RecordBatch) : Prop :=
  ∃ buckets counts, columns b = [("bucket_ts", array_ref Int64 buckets); ("value", array_ref Int64 counts)].

Lemma series_points_count b : count_batch b → num_rows b ≠ 0%nat → series_points b = Err (WrongType "value").
Proof.
  intros (buckets & counts & Hb) Hn. unfold series_points. apply Nat.eqb_neq in Hn as ->.
  unfold col, column_by_name. rewrite Hb. cbn [find_column String.eqb Ascii.eqb Bool.eqb]. rewrite downcast_to_array. reflexivity.
Qed.

(** The batches a query finds are none or the engine's. *)
Lemma query_text_source context table text (w w' : World (R := R) (C := C)) filter env bs :
  query_text byte_size hash canonicalize cache_dir context table text w filter env = (w', Ok bs) →
  bs = [] ∨ ∃ rows, run_text table text rows = Ok bs.
Proof.
  unfold query_text, query_parquet_as. destruct (qe_list_ok env); cbn [negb]; [|done].
  destruct (query_files _ filter) as [|e files]; [cbn; intros [= _ <-]; by left|].
  destruct (resolve_files _ _ _ _ _ _ _ _) as [w1 [[|p paths]|err|]]; cbn; [intros [= _ <-]; by left| |done|done].
  unfold scan. destruct (mapM _ _) as [datas|]; [|done]. cbn [run_sql engine_for].
  match goal with |- context [run_text table text ?rows] => destruct (run_text table text rows) as [bs'|err|] eqn:Hr end; [|done|done].
  cbn. intros [= _ <-]. right. by eexists.
Qed.

(** The series of counts cannot be had: the reader wants the values as floats
    and a count is an integer, so as soon as one bucket has a point the query
    is a conversion error. *)
Theorem count_series_fails (w w' : World (R := R) (C := C)) (f : MetricSeriesFilters) ws env bs :
  ms_workspace_id f = Some ws → to_lowercase (ms_aggregation f) = "count" →
  (∀ rows bs, run_text "metrics" (series_text to_lowercase ws f) rows = Ok bs → Forall count_batch bs) →
  query_text byte_size hash canonicalize cache_dir "Failed to query metric series" "metrics" (series_text to_lowercase ws f) w
    (signal_file_filter ws "metrics" (ms_time_range f)) env = (w', Ok bs) →
  (0 < total_rows bs)%nat →
  agg_fn to_lowercase (ms_aggregation f) = "COUNT(*)" ∧
  query_metric_series byte_size hash canonicalize cache_dir to_lowercase w f env = (w', Err (ConversionFailed (WrongType "value"))).
Proof.
  intros Hws Hcount Htyped Hq Hrows. split; [unfold agg_fn; by rewrite Hcount|].
  assert (Forall count_batch bs) as Hbs.
  { destruct (query_text_source _ _ _ _ _ _ _ _ Hq) as [->|[rows Hr]]; [constructor|by eapply Htyped]. }
  unfold query_metric_series. rewrite Hws, Hq. f_equal. ostep. clear Hq Htyped.
  unfold decode_batches. generalize (@nil (MetricPoint F)). induction Hbs as [|b bs Hb Hbs IH]; intros acc; [cbn in Hrows; lia|]. cbn [ofold].
  destruct (decide (num_rows b = 0%nat)) as [Hz|Hz].
  - assert (series_points b = Ok []) as -> by (unfold series_points; by rewrite Hz). ostep. ostep. apply IH.
    unfold total_rows in *. cbn in Hrows. lia.
  - by rewrite (series_points_count b Hb Hz).
Qed.
End CountSeries.

(** ** Witnesses *)

Section Witnesses.
#[local] Existing Instance list_lru.
#[local] Existing Instance chrono_concrete.
#[local] Existing Instance uuid_concrete.
#[local] Instance series_arrays : Arrow Z := column_arrays 0.
#[local] Instance series_arrays_laws : ArrowLaws Z := column_arrays_laws 0.

Lemma unary_plain w : plain (uuid_to_string w).
Proof.
  assert (∀ n, plain (ones n)) as Hones.
  { unfold plain. induction n as [|n IH]; [apply not_elem_of_nil|]. cbn. rewrite not_elem_of_cons. split; [discriminate|done]. }
  cbn [uuid_to_string uuid_concrete]. unfold unary_id, plain. destruct (w <? 0); cbn; rewrite not_elem_of_cons;
    (split; [discriminate|apply Hones]).
Qed.


(** A search text that tries to leave its literal. *)
Definition hostile_filters : LogQueryFilters :=
  mkLogQueryFilters (Some 3) None None None None (Some "x' OR workspace_id = 'other") None None (mkPagination None None).

Definition hostile_traces : TraceQueryFilters :=
  mkTraceQueryFilters (Some 3) None (Some "a'b") None (Some "ERROR") None None None None None
    None None None None None None None None None (mkPagination None None).

Lemma list_queries_parse_witness :
  parse_sql (count_text "logs" (join_text " AND " (log_conditions 3 hostile_filters))) =
    Some (mkQuery true "logs" [CEq "workspace_id" "+111"; CLike "message" "%x' OR workspace_id = 'other%"] None None None) ∧
  length <$> lex (trace_count_text id 3 hostile_traces) = Some 101%nat.
Proof.
  destruct (list_queries_parse unary_plain 3 hostile_filters (mkMetricQueryFilters None None None None None (mkPagination None None))
    (mkSpanQueryFilters None None None None None None None None None None None None None None None None None None None None None None None
      (mkPagination None None)) hostile_traces id 50 0 "") as (Hall & Htraces & _).
  apply Forall_cons_1 in Hall as [[Hlogs _] _]. rewrite Hlogs, Htraces. split; [reflexivity|vm_compute; reflexivity].
Defined.

(** A metrics file and an engine that counts its points. *)
Definition metric_job : WriteJob Z := mkWriteJob "+111" "default" "metrics" [1] 5000 5 6 1.
Definition metric_world : World (R := Z) (C := list (string * FileData Z)) :=
  mkWorld (store_written empty_store metric_job (sample_write_env "m1" None)) None None None.
Definition one_count : RecordBatch (F := Z) :=
  (1%nat, [("bucket_ts", existT Int64 [Some 0]); ("value", existT Int64 [Some 1])]).
#[local] Instance counting_engine : SqlEngine Z unit Z := {| run_text _ _ _ := Ok [one_count]; table_file_missing := tt |}.
Definition idle_env : QueryEnv Z (list (string * FileData Z)) :=
  mkQueryEnv true (λ w, w) (λ _, (λ w, w, mkFetchEnv 11 11 true None true 11 11 (λ l, l))) (λ w, w).
Definition count_filters : MetricSeriesFilters := mkMetricSeriesFilters (Some 3) "requests" None 60 "count" None.

Lemma count_series_fails_witness : ∃ w',
  query_metric_series (λ _, 10) (λ _, 0) (λ p, p) "/cache" (λ s, s) metric_world count_filters idle_env =
    (w', Err (ConversionFailed (WrongType "value"))).
Proof.
  eexists. eapply (count_series_fails (λ _, 10) (λ _, 0) (λ p, p) "/cache" (λ s, s) metric_world _ count_filters 3 idle_env [one_count]).
  - reflexivity.
  - reflexivity.
  - intros rows bs [= <-]. constructor; [|constructor]. eexists _, _. reflexivity.
  - vm_compute. reflexivity.
  - vm_compute. lia.
Defined.
End Witnesses.
