(* ===== verification/ListQueries.v ===== *)
(** What the list queries answer: the reader of [TelemetryReader] over the
    query path of [Reader], end to end.

    The engine is DataFusion's part: that it runs the SQL it reads. The rest is
    the program's: that the text says what the filters mean, that the files the
    filters rule out hold no matching row, that the files that remain are all
    read, and that the columns come back as the records they were. *)

From stdpp Require Import base gmap sorting list strings pretty.
From S2P Require Import Prelude FileList WriteBuffer TelemetryWriter ParquetWriter Compactor Lease PgUsage PgUsageWorker StorageUsage Reclaimer.
From S2P Require Import Paths FileMover Storage MemoryCache DiskCache Reader Sql Arrow Models Schema SpanSchema TelemetryReader.

(** ** The engine *)

(** How a row reads in SQL: whether a condition holds of it, and the columns
    the program itself relies on. *)
Class SqlRow (R : Type) := {
  holds : R → Cond → bool;
  ts_of : R → Z;
  workspace_of : R → string;
  signal_of : R → string;
  holds_workspace r v : holds r (CEq "workspace_id" v) = bool_decide (workspace_of r = v);
  holds_ge r z : holds r (CGe "timestamp" z) = (z <=? ts_of r);
  holds_le r z : holds r (CLe "timestamp" z) = (ts_of r <=? z);
}.

Section Engine.
Context {R : Type} `{SqlRow R}.

Definition satisfies (conds : list Cond) (r : R) : bool := forallb (holds r) conds.
Definition selected (conds : list Cond) (rows : list R) : list R := filter (λ r, satisfies conds r = true) rows.

(** The rows in the order a query asks for; ties are the engine's choice. *)
Definition ordered (order : option bool) (sorted : list R) : Prop :=
  match order with
  | Some true => StronglySorted (λ a b, ts_of b ≤ ts_of a) sorted
  | Some false => StronglySorted (λ a b, ts_of a ≤ ts_of b) sorted
  | None => True
  end.

Definition page_of (limit offset : option Z) (l : list R) : list R :=
  let rest := drop (Z.to_nat (default 0 offset)) l in
  match limit with Some n => take (Z.to_nat n) rest | None => rest end.
End Engine.

(** DataFusion runs the SQL of the fragment: a count is one batch with the
    number, a page is batches of the table's columns. *)
Class EngineLaws {F R E X : Type} `{Arrow F} `{!SqlEngine R E F} `{SqlRow R}
    (table : string) (schema : list Field) (columns_of : list X → list (Cells F)) (row_of : R → X) := {
  engine_counts text q rows : parse_sql text = Some q → q_table q = table → q_count q = true →
    ∃ b, run_text table text rows = Ok [b] ∧ num_rows b = 1%nat ∧
      columns b = [("cnt", array_ref Int64 [Some (zlen (selected (q_conds q) rows))])];
  engine_pages text q rows : parse_sql text = Some q → q_table q = table → q_count q = false →
    ∃ bs parts sorted, run_text table text rows = Ok bs ∧ sorted ≡ₚ selected (q_conds q) rows ∧ ordered (q_order q) sorted ∧
      concat parts = page_of (q_limit q) (q_offset q) sorted ∧
      Forall2 (λ b part, num_rows b = length part ∧ kept_of (λ _, true) b schema (columns_of (map row_of part))) bs parts;
}.

Section ListQueries.
Context {F R E C : Type} `{UuidText} `{Arrow F} `{!ArrowLaws F} `{!SqlEngine R E F} `{LruCache C (FileData R)} `{SqlRow R}.
Context (byte_size : FileData R → Z) (hash : string → Z) (canonicalize : string → string) (cache_dir : string).
Context (used_key : string → Prop).
Context (used_key_inj : ∀ k1 k2, used_key k1 → used_key k2 → cache_file_name k1 = cache_file_name k2 → k1 = k2).
Context (byte_size_range : ∀ d, 0 ≤ byte_size d < 2 ^ 63).
Context (uuid_plain : ∀ w, plain (uuid_to_string w)).
Abbreviation Wd := (World (R := R) (C := C)).

(** ** The files and their metadata *)

(** The metadata of each live file tells the truth about its rows. *)
Definition described (st : Store R) : Prop :=
  ∀ e r, e ∈ rows_list (st_db st) → r ∈ entry_rows st e →
    parse_uuid_or_nil (workspace_of r) = fe_workspace_id e ∧ signal_of r = fe_signal_type e ∧
    fe_min_ts e ≤ Z.quot (ts_of r) 1000 ≤ fe_max_ts e.

(** The rows a query is about. *)
Definition matching (st : Store R) (signal : string) (conds : list Cond) : list R :=
  filter (λ r, signal_of r = signal ∧ satisfies conds r = true) (visible st).

(** ** Lemmas *)

Lemma filter_concat {A : Type} (P : A → Prop) `{∀ x, Decision (P x)} (ls : list (list A)) :
  filter P (concat ls) = concat (map (filter P) ls).
Proof. induction ls as [|l ls IH]; [done|]. cbn [concat map]. by rewrite filter_app, IH. Qed.

(** The conditions of a client's filter on a list query: the workspace first
    and the time range among the rest. *)
Definition scoped (w : Z) (tr : option TimeRange) (conds : list Cond) : Prop :=
  workspace_cond w ∈ conds ∧ range_conds tr ⊆ conds.

Lemma satisfies_elem conds (r : R) c : satisfies conds r = true → c ∈ conds → holds r c = true.
Proof. unfold satisfies. rewrite forallb_forall. intros Hall Hc. by apply Hall, list_elem_of_In. Qed.

(** A row that matches is in a file the filter keeps. *)
Lemma matching_file_kept (st : Store R) e r w signal tr conds : described st → scoped w tr conds →
  e ∈ rows_list (st_db st) → r ∈ entry_rows st e → signal_of r = signal → satisfies conds r = true →
  matches (signal_file_filter w signal tr) e = true.
Proof.
  intros Hdesc [Hws Htr] He Hr Hsig Hsat. destruct (Hdesc e r He Hr) as (Hw & Hs & Hlo & Hhi).
  pose proof (satisfies_elem _ _ _ Hsat Hws) as Hhw. unfold workspace_cond in Hhw.
  rewrite holds_workspace in Hhw. apply bool_decide_eq_true in Hhw. rewrite Hhw in Hw.
  unfold parse_uuid_or_nil in Hw. rewrite parse_uuid_to_string in Hw. cbn in Hw.
  assert (fe_deleted e = false) as Hlive.
  { unfold entry_rows in Hr. destruct (fe_deleted e); [by apply not_elem_of_nil in Hr|done]. }
  unfold matches, signal_file_filter. cbn [ff_workspace_id ff_signal_type ff_stream_name ff_time_range_start ff_time_range_end ff_location ff_deleted when_some].
  rewrite <-Hs, Hsig, Hlive, <-Hw, Z.eqb_refl, !bool_decide_eq_true_2 by done. cbn [andb].
  destruct tr as [tr|]; [|done]. cbn [fmap option_fmap option_map when_some].
  assert (tr_start tr ≤ ts_of r ∧ ts_of r ≤ tr_end tr) as [Hge Hle].
  { split.
    - apply Z.leb_le. rewrite <-holds_ge. apply (satisfies_elem conds); [done|]. apply Htr. by left.
    - apply Z.leb_le. rewrite <-holds_le. apply (satisfies_elem conds); [done|]. apply Htr. right. by left. }
  pose proof (Z.quot_le_mono _ _ 1000 ltac:(lia) Hge). pose proof (Z.quot_le_mono _ _ 1000 ltac:(lia) Hle).
  rewrite !andb_true_r. apply andb_true_iff. split; apply Z.leb_le; lia.
Qed.

(** The rows read are the visible ones, as far as the query is concerned. *)
Lemma pruning_lossless (st : Store R) w signal tr conds : described st → scoped w tr conds →
  selected conds (concat (map (entry_rows st) (query_files (st_db st) (signal_file_filter w signal tr)))) ≡ₚ
  matching st signal conds.
Proof.
  intros Hdesc Hsc. unfold selected, matching, visible, query_files.
  rewrite (concat_permutation (entry_rows st) _ _ (merge_sort_Permutation query_order _)).
  rewrite !filter_concat, !map_map.
  assert (∀ l, l ⊆ rows_list (st_db st) →
    concat (map (λ e, filter (λ r, satisfies conds r = true) (entry_rows st e))
      (filter (λ e, matches (signal_file_filter w signal tr) e = true) l)) =
    concat (map (λ e, filter (λ r, signal_of r = signal ∧ satisfies conds r = true) (entry_rows st e)) l)) as ->; [|done..].
  induction l as [|e l IH]; [done|]. intros Hl. assert (e ∈ rows_list (st_db st)) as He by (apply Hl; by left).
  rewrite filter_cons. cbn [map concat]. specialize (IH ltac:(intros x Hx; apply Hl; by right)).
  case_decide as Hm.
  - cbn [map concat]. rewrite IH. f_equal. apply filter_ext_in. intros r Hr. split; [|tauto]. intros Hsat. split; [|done].
    destruct (Hdesc e r He Hr) as (_ & -> & _). apply andb_true_iff in Hm as [Hm _]. unfold matches, signal_file_filter in Hm.
    cbn [ff_workspace_id ff_signal_type ff_stream_name ff_time_range_start ff_time_range_end ff_location ff_deleted when_some] in Hm.
    repeat match goal with H : _ && _ = true |- _ => apply andb_true_iff in H as [? ?] end.
    by match goal with H : bool_decide (fe_signal_type e = signal) = true |- _ => apply bool_decide_eq_true in H end.
  - rewrite IH, (filter_none _ (entry_rows st e)); [done|]. intros r Hr [Hsig Hsat]. apply Hm.
    by eapply matching_file_kept.
Qed.

(** One query with the others quiet. *)
Definition quiet_env (envs : nat → (Wd → Wd) * FetchEnv (R := R)) : QueryEnv R C := mkQueryEnv true (λ w, w) envs (λ w, w).

Lemma quiet_text context table text (w : Wd) filter envs t0 te fetched bs :
  let files := query_files (st_db (wd_store w)) filter in
  store_ok (wd_store w) → ff_deleted filter = Some false →
  cache_ready byte_size used_key (wd_store w) t0 te files fetched (wd_disk_cache w) → fetches_ok used_key (wd_store w) t0 te files envs 0 →
  run_text table text (concat (map (entry_rows (wd_store w)) files)) = Ok bs →
  ∃ w' fetched', wd_store w' = wd_store w ∧ cache_ready byte_size used_key (wd_store w) t0 te files fetched' (wd_disk_cache w') ∧
    query_text byte_size hash canonicalize cache_dir context table text w filter (quiet_env envs) =
      (w', Ok (match files with [] => [] | _ => bs end)).
Proof.
  intros files Hst Hlive Hready Hfetch Hrun.
  destruct (quiet_query (engine := engine_for table text) byte_size hash canonicalize cache_dir used_key used_key_inj byte_size_range
    w filter envs t0 te fetched Hst Hlive Hready Hfetch) as (w' & fetched' & Hw & Hr' & Hq).
  exists w', fetched'. split; [done|]. split; [done|]. unfold query_text, quiet_env. cbn [qe_list_ok qe_before_lease qe_files qe_before_scan].
  rewrite Hq. fold files. f_equal. destruct files as [|e files']; [done|]. cbn [run_sql engine_for]. by rewrite Hrun.
Qed.

Lemma decode_parts {X Y : Type} (decode : RecordBatch → outcome SchemaError (list Y)) schema (columns_of : list X → list (Cells F)) (row_of : R → X) (read : X → Y) bs parts :
  (∀ b rows, num_rows b = length rows → kept_of (λ _, true) b schema (columns_of rows) → decode b = Ok (map read rows)) →
  Forall2 (λ b part, num_rows b = length part ∧ kept_of (λ _, true) b schema (columns_of (map row_of part))) bs parts →
  decode_batches (E := E) decode bs = Ok (map (λ r, read (row_of r)) (concat parts)).
Proof.
  intros Hdec Hall. unfold decode_batches.
  assert (∀ acc, ofold (λ acc b, rows ← map_err ConversionFailed (decode b); mret (acc ++ rows)) acc bs =
    @Ok (ReaderError (E := E)) _ (acc ++ map (λ r, read (row_of r)) (concat parts))) as Hfold; [|by rewrite Hfold].
  induction Hall as [|b part bs parts [Hn Hk] Hall IH]; intros acc; [by cbn; rewrite app_nil_r|]. cbn [ofold].
  rewrite (Hdec b (map row_of part)) by (rewrite ?length_fmap; done). ostep. ostep. rewrite IH. cbn [concat].
  by rewrite map_app, map_map, app_assoc.
Qed.

Lemma extract_count_one b (n : Z) : num_rows b = 1%nat → columns b = [("cnt", array_ref Int64 [Some n])] → 0 ≤ n < 2 ^ 64 → extract_count [b] = Some n.
Proof.
  intros Hn Hc Hr. cbn [extract_count]. rewrite Hn. unfold column_by_name. rewrite Hc. cbn [Nat.eqb find_column String.eqb Ascii.eqb Bool.eqb].
  rewrite downcast_to_array, (from_iter_value Int64 [Some n] 0 n) by done. by rewrite Z.mod_small.
Qed.

Lemma parsed_query table texts conds : is_word table = true → conds ≠ [] → lexes texts conds ∧ Forall cond_ok conds →
  parse_sql (count_text table (join_text " AND " texts)) = Some (mkQuery true table conds None None None) ∧
  ∀ limit offset, parse_sql (page_text table (join_text " AND " texts) limit offset) =
    Some (mkQuery false table conds (Some true) (Some limit) (Some offset)).
Proof. intros Ht Hne [Hl Hok]. split; [by apply parse_count_text|]. intros. by apply parse_page_text. Qed.

(** The count and the page of a list query over the rows of its files. *)
Lemma list_query_answers {X Y : Type} table count_context page_context (decode : RecordBatch → outcome SchemaError (list Y))
    schema (columns_of : list X → list (Cells F)) (row_of : R → X) (read : X → Y) `{!EngineLaws table schema columns_of row_of}
    (w : Wd) wid signal tr texts conds p envs1 envs2 t0 te :
  let st := wd_store w in
  let filter := signal_file_filter wid signal tr in
  let files := query_files (st_db st) filter in
  let '(limit, offset) := pagination_values p in
  let where_clause := join_text " AND " texts in
  (∀ b rows, num_rows b = length rows → kept_of (λ _, true) b schema (columns_of rows) → decode b = Ok (map read rows)) →
  is_word table = true → conds ≠ [] → lexes texts conds ∧ Forall cond_ok conds →
  store_ok st → described st → scoped wid tr conds → zlen (visible st) < 2 ^ 63 →
  cache_ready byte_size used_key st t0 te files [] (wd_disk_cache w) →
  fetches_ok used_key st t0 te files envs1 0 → fetches_ok used_key st t0 te files envs2 0 →
  ∃ w' sorted, wd_store w' = st ∧ sorted ≡ₚ matching st signal conds ∧ ordered (Some true) sorted ∧
    list_query byte_size hash canonicalize cache_dir table count_context page_context decode w filter
        (count_text table where_clause) (page_text table where_clause limit offset) p (quiet_env envs1) (quiet_env envs2) =
      (w', Ok (mkPage (map (λ r, read (row_of r)) (page_of (Some limit) (Some offset) sorted))
        (zlen (matching st signal conds)) limit offset)).
Proof.
  intros st filter files. destruct (pagination_values p) as [limit offset] eqn:Hp. intros wh Hdec Hword Hne Htexts Hst Hdesc Hsc Hsmall Hready Hf1 Hf2.
  set (rows := concat (map (entry_rows st) files)).
  destruct (parsed_query table texts conds Hword Hne Htexts) as [Hcount Hmain]. specialize (Hmain limit offset). fold wh in Hcount, Hmain.
  pose proof (pruning_lossless st wid signal tr conds Hdesc Hsc) as Hprune. fold filter in Hprune. fold files in Hprune. fold rows in Hprune.
  destruct (engine_counts _ _ rows Hcount eq_refl eq_refl) as (b & Hrun1 & Hn & Hc). cbn [q_conds] in Hc.
  destruct (engine_pages _ _ rows Hmain eq_refl eq_refl) as (bs & parts & sorted & Hrun2 & Hperm & Hord & Hpage & Hparts).
  cbn [q_conds q_order q_limit q_offset] in Hperm, Hord, Hpage.
  destruct (quiet_text count_context table (count_text table wh) w filter envs1 t0 te [] [b] Hst eq_refl Hready Hf1 Hrun1) as (w1 & fetched1 & Hw1 & Hready1 & Hq1).
  fold st files in Hw1, Hready1, Hq1.
  destruct (quiet_text page_context table (page_text table wh limit offset) w1 filter envs2 t0 te fetched1 bs) as (w2 & fetched2 & Hw2 & _ & Hq2).
  { by rewrite Hw1. } { done. } { by rewrite Hw1. } { by rewrite Hw1. } { by rewrite Hw1. }
  rewrite Hw1 in Hw2, Hq2. fold files in Hq2.
  assert (length sorted ≤ length (visible st))%nat as Hlen.
  { rewrite Hperm, Hprune. unfold matching. apply length_filter. }
  exists w2, sorted. split; [done|]. split; [by rewrite Hperm|]. split; [done|].
  unfold list_query. rewrite Hp, Hq1. cbv beta iota zeta. rewrite Hq2.
  assert (zlen (matching st signal conds) = zlen (selected conds rows)) as Hz by by rewrite Hprune.
  destruct files as [|e files'].
  - assert (sorted = []) as -> by (apply Permutation_nil_r; rewrite Hperm; done).
    assert (page_of (Some limit) (Some offset) (@nil R) = []) as -> by (unfold page_of; by rewrite drop_nil, take_nil).
    rewrite Hz. done.
  - rewrite (extract_count_one b _ Hn Hc) by (rewrite Hperm in Hlen; lia). f_equal. cbn [mbind outcome_bind].
    rewrite (decode_parts decode schema columns_of row_of read bs parts Hdec Hparts). ostep. by rewrite Hpage, Hz.
Qed.

Lemma scoped_logs ws f : scoped ws (lq_time_range f) (log_conds ws f).
Proof. unfold scoped, log_conds. split; [by left|]. intros c Hc. rewrite !elem_of_app. tauto. Qed.
Lemma scoped_metrics ws f : scoped ws (mq_time_range f) (metric_conds ws f).
Proof. unfold scoped, metric_conds. split; [by left|]. intros c Hc. rewrite !elem_of_app. tauto. Qed.
Lemma scoped_spans ws f : scoped ws (sq_time_range f) (span_conds ws f).
Proof. unfold scoped, span_conds. split; [by left|]. intros c Hc. rewrite !elem_of_app. tauto. Qed.

(** Reading whole batches of logs, metrics and spans. *)
Lemma logs_whole b (rows : list LogRecord) : num_rows b = length rows → kept_of (λ _, true) b log_arrow_schema (log_columns rows) →
  record_batch_to_logs b = Ok (map (λ r, r) rows).
Proof.
  intros Hn Hk. rewrite map_id. destruct (decide (rows = [])) as [->|Hne]; [unfold record_batch_to_logs; by rewrite Hn|].
  by rewrite (logs_read _ b rows Hn Hne Hk), missing_none.
Qed.
Lemma metrics_whole b (rows : list (Metric F)) : num_rows b = length rows → kept_of (λ _, true) b metric_arrow_schema (metric_columns rows) →
  record_batch_to_metrics b = Ok (map (λ r, r) rows).
Proof.
  intros Hn Hk. rewrite map_id. destruct (decide (rows = [])) as [->|Hne]; [unfold record_batch_to_metrics; by rewrite Hn|].
  by rewrite (metrics_read _ b rows Hn Hne Hk), missing_none.
Qed.
Lemma spans_whole b (rows : list (Span F)) : num_rows b = length rows → kept_of (λ _, true) b span_arrow_schema (span_columns rows) →
  record_batch_to_spans b = Ok (map (kept_span (λ _, true)) rows).
Proof.
  intros Hn Hk. destruct (decide (rows = [])) as [->|Hne]; [unfold record_batch_to_spans; by rewrite Hn|].
  by rewrite (spans_read _ b rows Hn Hne Hk), missing_none.
Qed.

(** A world at rest for a query: the store is in order, its metadata true, the
    caches ready for the files and every fetch working. *)
Definition at_rest (w : Wd) (filter : FileListFilter) (t0 te : Z) (envs1 envs2 : nat → (Wd → Wd) * FetchEnv (R := R)) : Prop :=
  let files := query_files (st_db (wd_store w)) filter in
  store_ok (wd_store w) ∧ described (wd_store w) ∧ zlen (visible (wd_store w)) < 2 ^ 63 ∧
  cache_ready byte_size used_key (wd_store w) t0 te files [] (wd_disk_cache w) ∧
  fetches_ok used_key (wd_store w) t0 te files envs1 0 ∧ fetches_ok used_key (wd_store w) t0 te files envs2 0.

(** ** Theorems *)

(** A log query answers what its filters ask for: the total is the number of
    the workspace's visible log rows that meet every condition, and the items
    are the page of them, newest first, as the records that were written.
    Which files the filters leave out, what the client's strings hold and where
    the files are makes no difference. *)
Theorem query_logs_answers (log_of : R → LogRecord) `{!EngineLaws "logs" log_arrow_schema log_columns log_of}
    (w : Wd) (f : LogQueryFilters) ws envs1 envs2 t0 te :
  lq_workspace_id f = Some ws → at_rest w (signal_file_filter ws "logs" (lq_time_range f)) t0 te envs1 envs2 →
  let '(limit, offset) := pagination_values (lq_pagination f) in
  let answer := matching (wd_store w) "logs" (log_conds ws f) in
  ∃ w' sorted, wd_store w' = wd_store w ∧ sorted ≡ₚ answer ∧ ordered (Some true) sorted ∧
    query_logs byte_size hash canonicalize cache_dir w f (quiet_env envs1) (quiet_env envs2) =
      (w', Ok (mkPage (map log_of (page_of (Some limit) (Some offset) sorted)) (zlen answer) limit offset)).
Proof.
  intros Hws (Hst & Hdesc & Hsmall & Hready & Hf1 & Hf2).
  pose proof (list_query_answers "logs" "Failed to count logs" "Failed to query logs" record_batch_to_logs log_arrow_schema log_columns log_of
    (λ r, r) w ws "logs" (lq_time_range f) (log_conditions ws f) (log_conds ws f) (lq_pagination f) envs1 envs2 t0 te) as Hans.
  unfold query_logs. rewrite Hws. destruct (pagination_values (lq_pagination f)) as [limit offset].
  apply Hans; [apply logs_whole|done|done|by apply log_conditions_lex|done|done|apply scoped_logs|done..].
Qed.
(** The same of a metric query. *)
Theorem query_metrics_answers (metric_of : R → Metric F) `{!EngineLaws "metrics" metric_arrow_schema metric_columns metric_of}
    (w : Wd) (f : MetricQueryFilters) ws envs1 envs2 t0 te :
  mq_workspace_id f = Some ws → at_rest w (signal_file_filter ws "metrics" (mq_time_range f)) t0 te envs1 envs2 →
  let '(limit, offset) := pagination_values (mq_pagination f) in
  let answer := matching (wd_store w) "metrics" (metric_conds ws f) in
  ∃ w' sorted, wd_store w' = wd_store w ∧ sorted ≡ₚ answer ∧ ordered (Some true) sorted ∧
    query_metrics byte_size hash canonicalize cache_dir w f (quiet_env envs1) (quiet_env envs2) =
      (w', Ok (mkPage (map metric_of (page_of (Some limit) (Some offset) sorted)) (zlen answer) limit offset)).
Proof.
  intros Hws (Hst & Hdesc & Hsmall & Hready & Hf1 & Hf2).
  pose proof (list_query_answers "metrics" "Failed to count metrics" "Failed to query metrics" record_batch_to_metrics metric_arrow_schema
    metric_columns metric_of (λ r, r) w ws "metrics" (mq_time_range f) (metric_conditions ws f) (metric_conds ws f) (mq_pagination f) envs1 envs2 t0 te) as Hans.
  unfold query_metrics. rewrite Hws. destruct (pagination_values (mq_pagination f)) as [limit offset].
  apply Hans; [apply metrics_whole|done|done|by apply metric_conditions_lex|done|done|apply scoped_metrics|done..].
Qed.

(** The same of a span query, as far as its conditions go: the duration and
    database filters of the client are not among them, so they select
    nothing. *)
Theorem query_spans_answers (span_of : R → Span F) `{!EngineLaws "spans" span_arrow_schema span_columns span_of}
    (w : Wd) (f : SpanQueryFilters) ws envs1 envs2 t0 te :
  sq_workspace_id f = Some ws → at_rest w (span_file_filter ws f) t0 te envs1 envs2 →
  let '(limit, offset) := pagination_values (sq_pagination f) in
  let answer := matching (wd_store w) "traces" (span_conds ws f) in
  ∃ w' sorted, wd_store w' = wd_store w ∧ sorted ≡ₚ answer ∧ ordered (Some true) sorted ∧
    query_spans byte_size hash canonicalize cache_dir w f (quiet_env envs1) (quiet_env envs2) =
      (w', Ok (mkPage (map (λ r, kept_span (λ _, true) (span_of r)) (page_of (Some limit) (Some offset) sorted)) (zlen answer) limit offset)).
Proof.
  intros Hws (Hst & Hdesc & Hsmall & Hready & Hf1 & Hf2).
  pose proof (list_query_answers "spans" "Failed to count spans" "Failed to query spans" record_batch_to_spans span_arrow_schema
    span_columns span_of (kept_span (λ _, true)) w ws "traces" (sq_time_range f) (span_conditions ws f) (span_conds ws f) (sq_pagination f) envs1 envs2 t0 te) as Hans.
  unfold query_spans. rewrite Hws. destruct (pagination_values (sq_pagination f)) as [limit offset].
  apply Hans; [apply spans_whole|done|done|by apply span_conditions_lex|done|done|apply scoped_spans|done..].
Qed.
End ListQueries.

(** ** An engine

    The model of an engine that runs the fragment over rows of logs: it parses
    the text and computes the answer. *)

Section ModelEngine.
Context {F R : Type} `{Arrow F} `{!ArrowLaws F} `{SqlRow R} (log_of : R → LogRecord).

Definition newest_first (a b : R) : Prop := ts_of b ≤ ts_of a.
Definition oldest_first (a b : R) : Prop := ts_of a ≤ ts_of b.
#[local] Instance newest_first_dec : RelDecision newest_first.
Proof. intros a b. unfold newest_first. apply _. Defined.
#[local] Instance oldest_first_dec : RelDecision oldest_first.
Proof. intros a b. unfold oldest_first. apply _. Defined.

Definition sort_rows (order : option bool) (rows : list R) : list R :=
  match order with Some true => merge_sort newest_first rows | Some false => merge_sort oldest_first rows | None => rows end.

Lemma sort_rows_ordered order rows : sort_rows order rows ≡ₚ rows ∧ ordered order (sort_rows order rows).
Proof.
  destruct order as [[]|]; [..|done]; (split; [apply merge_sort_Permutation|]).
  - assert (Transitive newest_first) by (intros x y z; unfold newest_first; lia).
    assert (Total newest_first) by (intros x y; unfold newest_first; lia). apply (StronglySorted_merge_sort newest_first).
  - assert (Transitive oldest_first) by (intros x y z; unfold oldest_first; lia).
    assert (Total oldest_first) by (intros x y; unfold oldest_first; lia). apply (StronglySorted_merge_sort oldest_first).
Qed.

Definition count_field : Field := mkField "cnt" Int64 false.

Definition run_model (table text : string) (rows : list R) : outcome unit (list RecordBatch) :=
  match parse_sql text with
  | None => Err ()
  | Some q =>
      let rows := selected (q_conds q) rows in
      let batch :=
        if q_count q then try_new [count_field] [to_array (existT Int64 [Some (zlen rows)])]
        else logs_to_record_batch (map log_of (page_of (q_limit q) (q_offset q) (sort_rows (q_order q) rows))) in
      match batch with Some b => Ok [b] | None => Err () end
  end.

#[local] Instance model_engine : SqlEngine R unit F := {| run_text := run_model; table_file_missing := () |}.

#[local] Instance model_engine_laws : EngineLaws "logs" log_arrow_schema log_columns log_of.
Proof.
  split; intros text q rows Hq _ Hc; cbn [run_text model_engine]; unfold run_model; rewrite Hq, Hc; cbv zeta.
  - destruct (try_new_fits 1 [count_field] [existT Int64 [Some (zlen (selected (q_conds q) rows))]]) as (b & Hb & Hn & Hcol); [done| |].
    + constructor; [|constructor]. split; [done|]. split; [done|]. intros _. constructor; [by eexists|constructor].
    + cbn [map] in Hb. rewrite Hb. by exists b.
  - set (sorted := sort_rows (q_order q) (selected (q_conds q) rows)). set (page := page_of _ _ sorted).
    destruct (built_kept log_arrow_schema (map log_of page) (log_columns (map log_of page))) as (b & Hb & Hn & Hk); [done|apply log_columns_fit|].
    unfold logs_to_record_batch. rewrite Hb. destruct (sort_rows_ordered (q_order q) (selected (q_conds q) rows)) as [Hp Ho].
    exists [b], [page], sorted. split; [done|]. split; [done|]. split; [done|]. split; [cbn; by rewrite app_nil_r|].
    constructor; [|constructor]. rewrite length_fmap in Hn. done.
Qed.
End ModelEngine.

(** ** Witnesses *)

Section Witnesses.
#[local] Existing Instance list_lru.
#[local] Existing Instance chrono_concrete.
#[local] Existing Instance uuid_concrete.
#[local] Instance query_arrays : Arrow Z := column_arrays 0.
#[local] Instance query_arrays_laws : ArrowLaws Z := column_arrays_laws 0.

(** The rows of the sample store as log lines: even ones are informational. *)
Definition sample_severity (r : Z) : string := if Z.even r then "INFO" else "ERROR".
Definition sample_log (r : Z) : LogRecord :=
  mkLogRecord (pretty r) (4990 + r) "+111" "" "" (sample_severity r) "" "" "" "" "" "" "" 0.
#[local] Instance sample_rows : SqlRow Z := {|
  holds r c := match c with
               | CEq "workspace_id" v => bool_decide ("+111" = v)
               | CEq "severity" v => bool_decide (sample_severity r = v)
               | CGe "timestamp" z => z <=? 4990 + r
               | CLe "timestamp" z => 4990 + r <=? z
               | _ => false
               end;
  ts_of r := 4990 + r;
  workspace_of _ := "+111";
  signal_of _ := "logs";
  holds_workspace _ _ := eq_refl;
  holds_ge _ _ := eq_refl;
  holds_le _ _ := eq_refl;
|}.
#[local] Instance sample_engine : SqlEngine Z unit Z := model_engine sample_log.

(** Informational logs of the workspace from 4.9 to 5.01 microseconds, one per
    page. *)
Definition sample_filters : LogQueryFilters :=
  mkLogQueryFilters (Some 3) (Some (mkTimeRange 4900 5010)) (Some "INFO") None None None None None (mkPagination (Some 1) (Some 0)).
Definition sample_filter : FileListFilter := signal_file_filter 3 "logs" (Some (mkTimeRange 4900 5010)).

Lemma mixed_at_rest : at_rest ten_bytes only_moved_key mixed_world sample_filter 10 20 quiet_envs quiet_envs.
Proof.
  assert (query_files (st_db mixed_store) sample_filter = mixed_files) as Hfiles by (vm_compute; reflexivity).
  split; [exact mixed_store_ok|]. split.
  - assert (Forall (λ e, Forall (λ r, parse_uuid_or_nil (workspace_of r) = fe_workspace_id e ∧ signal_of r = fe_signal_type e ∧
      fe_min_ts e ≤ Z.quot (ts_of r) 1000 ≤ fe_max_ts e) (entry_rows mixed_store e)) (rows_list (st_db mixed_store))) as Hall
      by (apply (bool_decide_unpack _); vm_compute; exact I).
    intros e r He Hr. rewrite Forall_forall in Hall. specialize (Hall e He). rewrite Forall_forall in Hall. by apply Hall.
  - split; [vm_compute; reflexivity|]. unfold mixed_world. cbn [wd_store]. rewrite Hfiles.
    split; [exact mixed_cache_ready|]. split; exact mixed_fetches_ok.
Qed.

Lemma query_logs_answers_witness : ∃ w',
  query_logs ten_bytes zero_hash same_path "/cache" mixed_world sample_filters (quiet_env quiet_envs) (quiet_env quiet_envs) =
    (w', Ok (mkPage [sample_log 12] 2 1 0)).
Proof.
  pose proof (query_logs_answers ten_bytes zero_hash same_path "/cache" only_moved_key only_moved_key_inj ten_bytes_range unary_plain
    sample_log (EngineLaws0 := model_engine_laws sample_log) mixed_world sample_filters 3 quiet_envs quiet_envs 10 20 eq_refl mixed_at_rest) as Hans.
  cbn [pagination_values sample_filters lq_pagination pg_limit pg_offset default] in Hans.
  destruct Hans as (w' & sorted & _ & Hperm & Hord & Hq). exists w'. refine (eq_trans Hq _). clear Hq.
  assert (matching (wd_store mixed_world) "logs" (log_conds 3 sample_filters) = [12; 10]) as Hm by (vm_compute; reflexivity).
  rewrite Hm in *. apply symmetry, Permutation_length_2_inv in Hperm as [->| ->]; [reflexivity|].
  exfalso. apply StronglySorted_inv in Hord as [_ Hord]. rewrite Forall_forall in Hord. specialize (Hord 12 ltac:(by left)). by apply Hord.
Defined.
End Witnesses.
