(* ===== verification/Otlp.v ===== *)
(** OTLP values and their JSON: [api-optel/src/otlp_util.rs] and the attribute
    view of [conventions/attr_view.rs].

    [F] is [f64]. JSON text is [serde_json]'s: [SerdeJson] is what the code
    uses of it, with a serializer as [serde] drives one; [hex] is the [hex]
    crate. A [BTreeMap] is the list of its entries in key order. *)

From stdpp Require Import base gmap list sorting strings pretty.
From Stdlib Require Import OrderedTypeEx.
From S2P Require Import Prelude.

(** ** Ordered maps with string keys *)

Abbreviation BTreeMap A := (list (string * A)).

(** [BTreeMap::insert]: a present key keeps its place and takes the value. *)
Fixpoint bt_insert {A} (k : string) (v : A) (m : BTreeMap A) : BTreeMap A :=
  match m with
  | [] => [(k, v)]
  | (k', v') :: rest =>
      match String.compare k k' with
      | Lt => (k, v) :: m
      | Eq => (k, v) :: rest
      | Gt => (k', v') :: bt_insert k v rest
      end
  end.

(** Collecting an iterator of pairs. *)
Definition bt_collect {A} (l : list (string * A)) : BTreeMap A :=
  foldl (λ m kv, bt_insert kv.1 kv.2 m) [] l.

Fixpoint bt_get {A} (k : string) (m : BTreeMap A) : option A :=
  match m with
  | [] => None
  | (k', v) :: rest => if decide (k = k') then Some v else bt_get k rest
  end.

(** The value of the last pair with the key. *)
Definition last_of {A} (k : string) (l : list (string * A)) : option A :=
  foldl (λ acc kv, if decide (k = kv.1) then Some kv.2 else acc) None l.

Definition key_lt (a b : string) : Prop := String.compare a b = Lt.

#[export] Instance key_lt_trans : Transitive key_lt.
Proof.
  intros a b c Hab%String_as_OT.cmp_lt Hbc%String_as_OT.cmp_lt. apply String_as_OT.cmp_lt.
  exact (String_as_OT.lt_trans a b c Hab Hbc).
Qed.

Definition bt_sorted {A} (m : BTreeMap A) : Prop := StronglySorted key_lt (map fst m).

Lemma compare_refl_str a : String.compare a a = Eq.
Proof.
  pose proof (String.compare_antisym a a) as H. destruct (String.compare a a) eqn:Ha; done.
Qed.

Lemma key_lt_ne a b : key_lt a b → a ≠ b.
Proof. intros H ->. unfold key_lt in H. by rewrite compare_refl_str in H. Qed.

Lemma bt_insert_keys {A} k (v : A) m : Forall (λ x, x = k ∨ x ∈ map fst m) (map fst (bt_insert k v m)).
Proof.
  induction m as [|[k' v'] rest IH]; cbn; [constructor; [by left|constructor]|].
  destruct (String.compare k k') eqn:Hc; cbn.
  - apply String.compare_eq_iff in Hc as ->. constructor; [by left|].
    apply Forall_forall. intros x Hx. right. by apply list_elem_of_further.
  - constructor; [by left|]. apply Forall_forall. intros x Hx. by right.
  - constructor; [right; left|]. eapply Forall_impl; [exact IH|]. intros x [->|Hx]; [by left|].
    right. by apply list_elem_of_further.
Qed.

Lemma bt_insert_sorted {A} k (v : A) m : bt_sorted m → bt_sorted (bt_insert k v m).
Proof.
  unfold bt_sorted. induction m as [|[k' v'] rest IH]; cbn; intros Hs; [repeat constructor|].
  inversion Hs as [|? ? Hrest Hall]; subst.
  destruct (String.compare k k') eqn:Hc; cbn.
  - apply String.compare_eq_iff in Hc as ->. by constructor.
  - constructor; [done|]. constructor; [done|]. eapply Forall_impl; [exact Hall|]. intros x. by etrans.
  - constructor; [by apply IH|]. apply Forall_forall. intros x Hx.
    destruct (proj1 (Forall_forall _ _) (bt_insert_keys k v rest) x Hx) as [->|Hin].
    + unfold key_lt. rewrite String.compare_antisym, Hc. done.
    + by apply (proj1 (Forall_forall _ _) Hall).
Qed.

Lemma bt_get_insert {A} k k' (v : A) m :
  bt_get k (bt_insert k' v m) = if decide (k = k') then Some v else bt_get k m.
Proof.
  induction m as [|[k1 v1] rest IH]; cbn; [done|].
  destruct (String.compare k' k1) eqn:Hc; cbn; [|done|].
  - apply String.compare_eq_iff in Hc as ->. by destruct (decide (k = k1)).
  - rewrite IH. destruct (decide (k = k1)) as [->|]; [|done].
    destruct (decide (k1 = k')) as [->|]; [|done]. by rewrite compare_refl_str in Hc.
Qed.

Section Collect.
Context {A : Type}.
Implicit Types (l : list (string * A)) (m : BTreeMap A).

Lemma collect_sorted l : bt_sorted (bt_collect l).
Proof.
  unfold bt_collect. assert (H : bt_sorted (A := A) []) by constructor. revert H.
  generalize (@nil (string * A)). induction l as [|[k v] l IH]; cbn; intros m Hm; [done|].
  by apply IH, bt_insert_sorted.
Qed.

Lemma get_collect k l : bt_get k (bt_collect l) = last_of k l.
Proof.
  unfold bt_collect, last_of. change (@None A) with (bt_get k (@nil (string * A))).
  generalize (@nil (string * A)). induction l as [|[k' v] l IH]; cbn; intros m; [done|].
  rewrite IH, bt_get_insert. done.
Qed.

Lemma insert_in k v m kv : kv ∈ bt_insert k v m → kv = (k, v) ∨ kv ∈ m.
Proof.
  induction m as [|[k' v'] rest IH]; cbn; [rewrite list_elem_of_singleton; by left|].
  destruct (String.compare k k'); rewrite ?elem_of_cons; naive_solver.
Qed.

Lemma collect_in l kv : kv ∈ bt_collect l → kv ∈ l.
Proof.
  unfold bt_collect. intros H.
  cut (kv ∈ l ∨ kv ∈ @nil (string * A)); [intros [?|Hn]; [done|by apply elem_of_nil in Hn]|].
  revert H. generalize (@nil (string * A)). induction l as [|[k v] l IH]; cbn; intros m H; [by right|].
  destruct (IH _ H) as [Hin|Hin]; [left; by right|].
  destruct (insert_in _ _ _ _ Hin) as [->|]; [left; left|by right].
Qed.
End Collect.

Lemma insert_map {A B} (f : A → B) k v (m : BTreeMap A) :
  map (prod_map id f) (bt_insert k v m) = bt_insert k (f v) (map (prod_map id f) m).
Proof.
  induction m as [|[k' v'] rest IH]; cbn; [done|].
  destruct (String.compare k k'); cbn; by rewrite ?IH.
Qed.

Lemma collect_map {A B} (f : A → B) l :
  map (prod_map id f) (bt_collect l) = bt_collect (map (prod_map id f) l).
Proof.
  unfold bt_collect. change (@nil (string * B)) with (map (prod_map id f) (@nil (string * A))).
  generalize (@nil (string * A)). induction l as [|[k v] l IH]; cbn; intros m; [done|].
  by rewrite IH, insert_map.
Qed.

(** ** [f64] and text primitives of the standard library *)

Class Float (F : Type) := {
  f_zero : F;
  is_finite : F → bool;
  f_of_Z : Z → F;
  f_div : F → F → F;
  f_to_string : F → string;
  f_parse : string → option F;
}.

(** ** OTLP values *)

(** [KeyValue], over the type of values. *)
Record KeyValueOf (A : Type) := mkKeyValue {
  kv_key : string;
  kv_value : option A;
}.
Arguments mkKeyValue {A} _ _.
Arguments kv_key {A} _.
Arguments kv_value {A} _.

(** [AnyValue]: its [oneof], with [NoValue] when none is set. *)
Inductive AnyValue {F : Type} :=
| NoValue
| StringValue (s : string)
| BoolValue (b : bool)
| IntValue (i : Z)
| DoubleValue (d : F)
| ArrayValue (values : list AnyValue)
| KvlistValue (values : list (KeyValueOf AnyValue))
| BytesValue (b : list Z)
| StringValueStrindex (i : Z).
Arguments AnyValue F : clear implicits.

Abbreviation KeyValue F := (KeyValueOf (AnyValue F)).

(** ** JSON *)

(** [serde_json::Value]; an object is a [BTreeMap]. *)
Inductive Json {F : Type} :=
| JNull
| JBool (b : bool)
| JInt (i : Z)
| JFloat (d : F)
| JString (s : string)
| JArray (values : list Json)
| JObject (m : list (string * Json)).
Arguments Json F : clear implicits.

(** A [serde] serializer: what each call contributes, with [serialize_seq] and
    [serialize_map] taking what their elements contributed; and the text
    [serde_json::to_string] gives, which is that serializer's output. *)
Class SerdeJson (F : Type) := {
  serialize_str : string → string;
  serialize_bool : bool → string;
  serialize_i64 : Z → string;
  serialize_f64 : F → string;
  serialize_none : string;
  serialize_seq : list string → string;
  serialize_map : list (string * string) → string;
  to_string : Json F → string;
  from_str : string → option (Json F);
}.

(** [impl Serialize for serde_json::Value], and the documented text of [None]
    and of a non-finite float: both are [null]. *)
Class SerdeJsonLaws (F : Type) `{Float F} `{SerdeJson F} := {
  to_string_null : to_string JNull = serialize_none;
  to_string_bool b : to_string (JBool b) = serialize_bool b;
  to_string_int i : to_string (JInt i) = serialize_i64 i;
  to_string_float d : to_string (JFloat d) = serialize_f64 d;
  to_string_string s : to_string (JString s) = serialize_str s;
  to_string_array l : to_string (JArray l) = serialize_seq (map to_string l);
  to_string_object m : to_string (JObject m) = serialize_map (map (prod_map id to_string) m);
  serialize_non_finite d : is_finite d = false → serialize_f64 d = serialize_none;
}.

(** [hex::encode] and its documented length. *)
Class Hex := {
  hex_encode : list Z → string;
  hex_length bs : String.length (hex_encode bs) = (2 * length bs)%nat;
}.

Section Otlp.
Context {F : Type} `{Float F} `{SerdeJson F} `{Hex}.
Implicit Types (v : AnyValue F) (attrs : list (KeyValue F)).

(** [Number::from_f64(d).map(Number).unwrap_or(Null)]. *)
Definition json_number (d : F) : Json F := if is_finite d then JFloat d else JNull.

Fixpoint any_value_to_json v : Json F :=
  match v with
  | StringValue s => JString s
  | BoolValue b => JBool b
  | IntValue i => JInt i
  | DoubleValue d => json_number d
  | ArrayValue values => JArray (map any_value_to_json values)
  | KvlistValue values =>
      JObject (foldl (λ m item, match kv_value item with
                                | Some val => bt_insert (kv_key item) (any_value_to_json val) m
                                | None => m
                                end) [] values)
  | BytesValue b => JString (hex_encode b)
  | StringValueStrindex _ => JNull
  | NoValue => JNull
  end.

(** The nesting of a value. *)
Fixpoint any_depth v : nat :=
  match v with
  | ArrayValue values => S (max_list (map any_depth values))
  | KvlistValue values =>
      S (max_list (map (λ kv, match kv_value kv with Some a => any_depth a | None => 0%nat end) values))
  | _ => 1%nat
  end.

(** The pairs [filter_map] keeps. *)
Definition set_pairs attrs : list (string * AnyValue F) :=
  omap (λ kv, (λ v, (kv_key kv, v)) <$> kv_value kv) attrs.

(** [AnyValueSer]: the recursion goes through a sorted copy of the entries, so
    it has fuel; [any_depth] is enough. *)
Fixpoint serialize_any (fuel : nat) v : string :=
  match fuel with
  | O => serialize_none
  | S fuel =>
      match v with
      | StringValue s => serialize_str s
      | BoolValue b => serialize_bool b
      | IntValue i => serialize_i64 i
      | DoubleValue d => serialize_f64 d
      | ArrayValue values => serialize_seq (map (serialize_any fuel) values)
      | KvlistValue values =>
          serialize_map (map (λ kv, (kv.1, serialize_any fuel kv.2)) (bt_collect (set_pairs values)))
      | BytesValue b => serialize_str (hex_encode b)
      | StringValueStrindex _ => serialize_none
      | NoValue => serialize_none
      end
  end.

Definition attrs_to_json_filtered attrs (skip : string → bool) : string :=
  let sorted := bt_collect (set_pairs (filter (λ kv, skip (kv_key kv) = false) attrs)) in
  serialize_map (map (λ kv, (kv.1, serialize_any (any_depth kv.2) kv.2)) sorted).

Definition attrs_to_json attrs : string := attrs_to_json_filtered attrs (λ _, false).

(** ** The attribute view *)

(** [AttrView]: the attributes and the keys conventions consumed; its index is
    a function of the attributes. *)
Record AttrView := mkAttrView {
  view_attrs : list (KeyValue F);
  consumed : gset string;
}.

Definition view_new attrs : AttrView := mkAttrView attrs ∅.

Definition view_index (view : AttrView) : gmap string nat :=
  foldl (λ m ikv, <[kv_key ikv.2 := ikv.1]> m) ∅ (imap pair (view_attrs view)).

Definition view_get (view : AttrView) (key : string) : option (AnyValue F) :=
  idx ← view_index view !! key;
  kv ← view_attrs view !! idx;
  kv_value kv.

Definition get_str (view : AttrView) (key : string) : option string :=
  match view_get view key with Some (StringValue s) => Some s | _ => None end.
Definition get_i64 (view : AttrView) (key : string) : option Z :=
  match view_get view key with Some (IntValue i) => Some i | _ => None end.
Definition get_u64 (view : AttrView) (key : string) : option Z :=
  match get_i64 view key with
  | Some v => if v <? 0 then None else Some v
  | None => None
  end.
Definition get_f64 (view : AttrView) (key : string) : option F :=
  match view_get view key with Some (DoubleValue d) => Some d | _ => None end.
Definition get_bool (view : AttrView) (key : string) : option bool :=
  match view_get view key with Some (BoolValue b) => Some b | _ => None end.

Definition view_contains (view : AttrView) (key : string) : bool :=
  bool_decide (is_Some (view_index view !! key)).

Definition view_iter (view : AttrView) : list (string * AnyValue F) := set_pairs (view_attrs view).

Definition mark_consumed (view : AttrView) (key : string) : AttrView :=
  mkAttrView (view_attrs view) ({[key]} ∪ consumed view).
Definition is_consumed (view : AttrView) (key : string) : bool := bool_decide (key ∈ consumed view).

(** ** The streamed text is the text of the value *)

Definition kv_depth (kv : KeyValue F) : nat :=
  match kv_value kv with Some a => any_depth a | None => 0%nat end.

Lemma kvlist_json values :
  any_value_to_json (KvlistValue values) =
  JObject (map (prod_map id any_value_to_json) (bt_collect (set_pairs values))).
Proof.
  cbn. f_equal. rewrite collect_map. unfold bt_collect, set_pairs.
  generalize (@nil (string * Json F)). induction values as [|[k [v|]] values IH]; cbn; intros m; [done|..]; apply IH.
Qed.

Lemma depth_in_list v l n : v ∈ l → (max_list (map any_depth l) ≤ n)%nat → (any_depth v ≤ n)%nat.
Proof.
  intros Hv Hn. etrans; [|exact Hn]. apply max_list_elem_of_le. by apply list_elem_of_fmap_2.
Qed.

Lemma depth_in_pairs kv l n :
  kv ∈ set_pairs l → (max_list (map kv_depth l) ≤ n)%nat → (any_depth kv.2 ≤ n)%nat.
Proof.
  intros (x & Hx & Hkv)%list_elem_of_omap Hn. etrans; [|exact Hn]. apply max_list_elem_of_le.
  destruct x as [k [v|]]; cbn in Hkv; [|done]. injection Hkv as <-.
  exact (list_elem_of_fmap_2 kv_depth l _ Hx).
Qed.

Context {laws : SerdeJsonLaws F}.

Lemma serialize_any_json n v : (any_depth v ≤ n)%nat → serialize_any n v = to_string (any_value_to_json v).
Proof.
  revert v. induction n as [|n IH]; intros v Hn; [destruct v; cbn in Hn; lia|].
  destruct v as [|s|b|i|d|values|values|bs|i]; cbn [serialize_any];
    rewrite ?kvlist_json; cbn [any_value_to_json any_depth] in *;
    rewrite ?to_string_null, ?to_string_bool, ?to_string_int, ?to_string_string, ?to_string_array,
      ?to_string_object; try done.
  - unfold json_number. destruct (is_finite d) eqn:Hd; [by rewrite to_string_float|].
    by rewrite to_string_null, serialize_non_finite.
  - f_equal. rewrite map_map. apply map_ext_in. intros v Hv%list_elem_of_In.
    apply IH. eapply depth_in_list; [done|lia].
  - f_equal. rewrite map_map. apply map_ext_in. intros kv Hkv%list_elem_of_In%collect_in.
    unfold prod_map; cbn. f_equal. apply IH. eapply depth_in_pairs; [done|].
    change (map kv_depth values) with (map (λ kv, match kv_value kv with Some a => any_depth a | None => 0%nat end) values).
    lia.
Qed.

(** The reference of the source's tests: a [serde_json::Map] built pair by pair
    and printed. *)
Definition reference_json attrs : string :=
  to_string (JObject (bt_collect (map (prod_map id any_value_to_json) (set_pairs attrs)))).

Lemma streamed_filtered attrs skip :
  attrs_to_json_filtered attrs skip = reference_json (filter (λ kv, skip (kv_key kv) = false) attrs).
Proof.
  unfold attrs_to_json_filtered, reference_json. rewrite to_string_object. f_equal.
  rewrite <-collect_map, map_map. apply map_ext_in. intros kv _.
  unfold prod_map; cbn. f_equal. by apply serialize_any_json.
Qed.

(** C29: The streamed attribute column is, for any attributes nested to any
    depth with any keys skipped, the text of the JSON value built from the kept
    attributes: keys in order, each once, each with the value of its last
    attribute. *)
Theorem streamed_json_is_reference attrs skip :
  let kept := filter (λ kv, skip (kv_key kv) = false) attrs in
  let m := bt_collect (map (prod_map id any_value_to_json) (set_pairs kept)) in
  attrs_to_json_filtered attrs skip = to_string (JObject m) ∧ bt_sorted m ∧
  ∀ k, bt_get k m = any_value_to_json <$> last_of k (set_pairs kept).
Proof.
  cbn zeta. split; [apply streamed_filtered|]. split; [apply collect_sorted|]. intros k.
  rewrite <-collect_map, <-get_collect. generalize (bt_collect (set_pairs (filter (λ kv, skip (kv_key kv) = false) attrs))).
  intros m. induction m as [|[k' v'] m IH]; cbn; [done|]. rewrite IH. by destruct (decide (k = k')).
Qed.

(** ** What the view reads *)

Definition has_key (key : string) (kv : KeyValue F) : Prop := kv_key kv = key.
#[export] Instance has_key_dec key kv : Decision (has_key key kv).
Proof. unfold has_key. apply _. Defined.

Lemma index_snoc attrs kv c c' :
  view_index (mkAttrView (attrs ++ [kv]) c) = <[kv_key kv := length attrs]> (view_index (mkAttrView attrs c')).
Proof.
  unfold view_index; cbn. rewrite imap_app, foldl_app. cbn -[insert Nat.add].
  unfold compose. cbn -[insert Nat.add]. by rewrite Nat.add_0_r.
Qed.

Lemma index_bound attrs c key i : view_index (mkAttrView attrs c) !! key = Some i → (i < length attrs)%nat.
Proof.
  revert i. induction attrs as [|kv attrs IH] using rev_ind; intros i.
  { unfold view_index; cbn. by rewrite lookup_empty. }
  rewrite (index_snoc _ _ _ c), length_app; cbn.
  intros [[_ <-]|[_ Hi]]%lookup_insert_Some; [lia|]. apply IH in Hi. lia.
Qed.

(** The view reads the last attribute of each key. *)
Lemma view_get_last attrs c key :
  view_get (mkAttrView attrs c) key = last (filter (has_key key) attrs) ≫= kv_value.
Proof.
  induction attrs as [|kv attrs IH] using rev_ind; [done|].
  unfold view_get in *. rewrite (index_snoc _ _ _ c), filter_app, filter_cons, filter_nil; cbn [view_attrs] in *.
  destruct (decide (has_key key kv)) as [<-|Hne].
  - cbn [app]. rewrite lookup_insert_eq; cbn. rewrite last_snoc.
    rewrite lookup_app_r by lia. by rewrite Nat.sub_diag.
  - rewrite lookup_insert_ne by done. rewrite app_nil_r, <-IH.
    destruct (view_index (mkAttrView attrs c) !! key) as [i|] eqn:Hi; cbn; [|done].
    apply index_bound in Hi. by rewrite lookup_app_l.
Qed.

Lemma view_contains_iff attrs c key :
  view_contains (mkAttrView attrs c) key = true ↔ key ∈ map kv_key attrs.
Proof.
  unfold view_contains. rewrite bool_decide_eq_true.
  induction attrs as [|kv attrs IH] using rev_ind.
  - cbn [map]. rewrite elem_of_nil. unfold view_index; cbn. rewrite lookup_empty. by split; [intros []|].
  - rewrite (index_snoc _ _ _ c), map_app, elem_of_app. cbn [map]. rewrite list_elem_of_singleton.
    destruct (decide (kv_key kv = key)) as [<-|Hne].
    + rewrite lookup_insert_eq. naive_solver.
    + rewrite lookup_insert_ne by done. rewrite IH. naive_solver.
Qed.

Lemma view_get_contains view key v : view_get view key = Some v → view_contains view key = true.
Proof.
  unfold view_get, view_contains. intros Hv. apply bool_decide_eq_true.
  destruct (view_index view !! key); [done|discriminate].
Qed.

(** Consumption is not read by the accessors. *)
Lemma view_get_consumed attrs c c' key : view_get (mkAttrView attrs c) key = view_get (mkAttrView attrs c') key.
Proof. done. Qed.

End Otlp.

Arguments AttrView F : clear implicits.

(** ** A concrete serializer, to evaluate the model on sample values *)

Module Sample.
(** Floats are integers, [-1] the one that is not finite. *)
#[export] Instance sample_float : Float Z :=
  {| f_zero := 0; is_finite d := negb (d =? -1); f_of_Z z := z; f_div := Z.quot; f_to_string := pretty;
     f_parse _ := None |}.

Definition quote : string := String (Ascii.Ascii false true false false false true false false) "".

Fixpoint joined (l : list string) : string :=
  match l with
  | [] => ""
  | [s] => s
  | s :: rest => s +:+ "," +:+ joined rest
  end.

Definition str_text (s : string) : string := quote +:+ s +:+ quote.
Definition seq_text (l : list string) : string := "[" +:+ joined l +:+ "]".
Definition map_text (m : list (string * string)) : string :=
  "{" +:+ joined (map (λ kv, str_text kv.1 +:+ ":" +:+ kv.2) m) +:+ "}".
Definition bool_text (b : bool) : string := if b then "true" else "false".
Definition float_text (d : Z) : string := if d =? -1 then "null" else pretty d.

Fixpoint json_text (j : Json Z) : string :=
  match j with
  | JNull => "null"
  | JBool b => bool_text b
  | JInt i => pretty i
  | JFloat d => float_text d
  | JString s => str_text s
  | JArray l => seq_text (map json_text l)
  | JObject m => map_text (map (prod_map id json_text) m)
  end.

#[export] Instance sample_json : SerdeJson Z :=
  {| serialize_str := str_text; serialize_bool := bool_text; serialize_i64 := pretty;
     serialize_f64 := float_text; serialize_none := "null"; serialize_seq := seq_text;
     serialize_map := map_text; to_string := json_text; from_str _ := None |}.

#[export] Instance sample_laws : SerdeJsonLaws Z.
Proof.
  split; try reflexivity. intros d Hd. cbn in *. unfold float_text. by destruct (d =? -1).
Qed.

Definition hex_digit (z : Z) : Ascii.ascii :=
  Ascii.ascii_of_nat (Z.to_nat (if z <? 10 then 48 + z else 87 + z)).
Fixpoint hex_text (bs : list Z) : string :=
  match bs with
  | [] => ""
  | b :: rest => String (hex_digit (b / 16 mod 16)) (String (hex_digit (b mod 16)) (hex_text rest))
  end.

Lemma hex_text_length bs : String.length (hex_text bs) = (2 * length bs)%nat.
Proof. induction bs as [|b bs IH]; cbn -[Nat.mul]; [done|]. rewrite IH. lia. Qed.

#[export] Instance sample_hex : Hex := {| hex_encode := hex_text; hex_length := hex_text_length |}.

Lemma length_append (a b : string) : String.length (a +:+ b) = (String.length a + String.length b)%nat.
Proof. induction a as [|c a IH]; [done|]. change (S (String.length (a +:+ b)) = S (String.length a) + String.length b)%nat. by rewrite IH. Qed.

Lemma joined_length l :
  Z.of_nat (String.length (joined l)) = zsum (map (λ s, Z.of_nat (String.length s)) l) + Z.max 0 (zlen l - 1).
Proof.
  induction l as [|s [|s' l] IH]; [done|cbn; rewrite zsum_cons, zsum_nil; lia|].
  change (joined (s :: s' :: l)) with (s +:+ "," +:+ joined (s' :: l)).
  rewrite !length_append. cbn [map length String.length] in *. rewrite !zsum_cons in *. lia.
Qed.
End Sample.
Import Sample.

Definition sample_value : AnyValue Z :=
  KvlistValue [mkKeyValue "b" (Some (ArrayValue [IntValue 2; DoubleValue (-1); BoolValue true]));
               mkKeyValue "a" (Some (StringValue "x")); mkKeyValue "b" (Some (BytesValue [222; 173]));
               mkKeyValue "c" None].
Definition sample_attrs : list (KeyValue Z) :=
  [mkKeyValue "z" (Some (StringValue "first")); mkKeyValue "m" (Some sample_value); mkKeyValue "skipped" (Some NoValue);
   mkKeyValue "z" (Some (IntValue 7)); mkKeyValue "empty" None].

Lemma streamed_json_is_reference_witness :
  let skip := λ k : string, bool_decide (k = "skipped") in
  attrs_to_json_filtered sample_attrs skip =
    "{" +:+ Sample.quote +:+ "m" +:+ Sample.quote +:+ ":{" +:+ Sample.quote +:+ "a" +:+ Sample.quote +:+ ":"
    +:+ Sample.quote +:+ "x" +:+ Sample.quote +:+ "," +:+ Sample.quote +:+ "b" +:+ Sample.quote +:+ ":"
    +:+ Sample.quote +:+ "dead" +:+ Sample.quote +:+ "}," +:+ Sample.quote +:+ "z" +:+ Sample.quote +:+ ":7}" ∧
  attrs_to_json_filtered sample_attrs skip =
    to_string (JObject (bt_collect (map (prod_map id any_value_to_json)
      (set_pairs (filter (λ kv, skip (kv_key kv) = false) sample_attrs))))).
Proof.
  split; [vm_compute; reflexivity|].
  exact (proj1 (streamed_json_is_reference sample_attrs (λ k : string, bool_decide (k = "skipped")))).
Defined.
