(* ===== verification/Conventions.v ===== *)
(** The attribute conventions: [api-optel/src/conventions/]. Each namespace maps
    attributes to span fields; the converter runs them in one order over one
    view and one span.

    A convention is a list of steps on the view and the span, each reading one
    attribute, assigning one field and marking the key consumed. *)

From stdpp Require Import base gmap list sorting strings.
From S2P Require Import Prelude Models Otlp.

Definition i32_max : Z := 2147483647.
Definition i32_min : Z := -2147483648.

(** [v as i32], [v.min(i32::MAX as u64) as i32] and
    [v.clamp(i32::MIN, i32::MAX) as i32]. *)
Definition as_i32 (v : Z) : Z := (v + 2 ^ 31) mod 2 ^ 32 - 2 ^ 31.
Definition capped_i32 (v : Z) : Z := as_i32 (Z.min v i32_max).
Definition clamped_i32 (v : Z) : Z := as_i32 (Z.max i32_min (Z.min v i32_max)).
Definition i16_from (b : bool) : Z := if b then 1 else 0.

Section Conventions.
Context {F : Type} `{Float F} `{SerdeJson F}.

(** What [apply] changes: the consumed keys of the view, and the span. *)
Definition Mapping : Type := AttrView F * Span F.

Definition steps (fs : list (Mapping → Mapping)) (st : Mapping) : Mapping := foldl (λ st f, f st) st fs.

(** [if let Some(v) = view.get(key) { span.field = v; view.mark_consumed(key); }]. *)
Definition promote {T} (get : AttrView F → string → option T) (key : string) (set : T → Span F → Span F)
    (st : Mapping) : Mapping :=
  match get st.1 key with
  | Some v => (mark_consumed st.1 key, set v st.2)
  | None => st
  end.

Definition str (key : string) (field : Span F → string) `{!Setter field} : Mapping → Mapping :=
  promote get_str key (set_field field).

Definition unsigned (cast : Z → Z) (key : string) (field : Span F → Z) `{!Setter field} : Mapping → Mapping :=
  promote get_u64 key (λ v, set_field field (cast v)).

Definition signed (cast : Z → Z) (key : string) (field : Span F → Z) `{!Setter field} : Mapping → Mapping :=
  promote get_i64 key (λ v, set_field field (cast v)).

Definition float (key : string) (field : Span F → F) `{!Setter field} : Mapping → Mapping :=
  promote get_f64 key (set_field field).

Definition flag (key : string) (field : Span F → Z) `{!Setter field} : Mapping → Mapping :=
  promote get_bool key (λ v, set_field field (i16_from v)).

(** [if let .. else if let ..]: the first key present. *)
Fixpoint first_str (keys : list string) (field : Span F → string) `{!Setter field} (st : Mapping) : Mapping :=
  match keys with
  | [] => st
  | key :: rest =>
      match get_str st.1 key with
      | Some _ => str key field st
      | None => first_str rest field st
      end
  end.

(** [if span.field.is_empty() && ..]. *)
Definition when_empty (field : Span F → string) (step : Mapping → Mapping) (st : Mapping) : Mapping :=
  if decide (field st.2 = "") then step st else st.

(** [if !view.contains(key) && ..]. *)
Definition unless_contains (key : string) (step : Mapping → Mapping) (st : Mapping) : Mapping :=
  if view_contains st.1 key then st else step st.

(** ** The conventions, a list of steps each *)

Definition openinference : list (Mapping → Mapping) := [].

Definition guardrails : list (Mapping → Mapping) :=
  [str "rail.type" sp_rail_type;
   str "rail.name" sp_rail_name;
   flag "rail.stop" sp_rail_stop;
   str "action.name" sp_action_name;
   flag "action.has_llm_calls" sp_action_has_llm_calls;
   signed clamped_i32 "action.llm_calls_count" sp_action_llm_calls_count;
   flag "llm.cache.hit" sp_llm_cache_hit].

Definition agent : list (Mapping → Mapping) :=
  [first_str ["zradar.invocation.id"; "invocation.id"; "invocation_id"] sp_invocation_id;
   str "session_id" sp_session_id;
   str "user_id" sp_user_id;
   str "gen_ai.agent.id" sp_agent_id;
   first_str ["gen_ai.agent.name"; "agent.name"] sp_agent_name;
   str "gen_ai.agent.version" sp_agent_version;
   str "gen_ai.agent.description" sp_agent_description;
   str "agent.type" sp_agent_type].

Definition gen_ai_task : list (Mapping → Mapping) :=
  [str "gen_ai.task.id" sp_agent_task_id;
   str "gen_ai.task.parent.id" sp_agent_task_parent_id;
   str "gen_ai.task.name" sp_agent_task_name;
   str "gen_ai.task.kind" sp_agent_task_kind;
   str "gen_ai.task.state" sp_agent_task_state;
   str "gen_ai.task.status" sp_agent_task_status].

Definition gen_ai_memory : list (Mapping → Mapping) :=
  [str "gen_ai.memory.type" sp_memory_type;
   str "gen_ai.memory.key" sp_memory_key].

Definition gen_ai_evaluation : list (Mapping → Mapping) :=
  [str "gen_ai.evaluation.name" sp_evaluation_name;
   str "gen_ai.evaluation.explanation" sp_evaluation_explanation;
   flag "gen_ai.evaluation.passed" sp_evaluation_passed].

Definition vertex : list (Mapping → Mapping) :=
  [str "gcp.vertex.agent.invocation_id" sp_invocation_id;
   str "gcp.vertex.agent.session_id" sp_session_id].

Definition llm : list (Mapping → Mapping) :=
  [str "llm.model" sp_llm_model;
   str "llm.input" sp_llm_input;
   str "llm.output" sp_llm_output;
   unsigned as_i32 "llm.usage.prompt_tokens" sp_prompt_tokens;
   unsigned as_i32 "llm.usage.completion_tokens" sp_completion_tokens;
   unsigned as_i32 "llm.usage.total_tokens" sp_total_tokens;
   float "llm.cost.total_usd" sp_total_cost_usd;
   float "llm.cost.prompt_usd" sp_prompt_cost_usd;
   float "llm.cost.completion_usd" sp_completion_cost_usd].

Definition gen_ai_v1_29 : list (Mapping → Mapping) :=
  [unsigned capped_i32 "gen_ai.usage.input_tokens" sp_prompt_tokens;
   unsigned capped_i32 "gen_ai.usage.output_tokens" sp_completion_tokens;
   str "gen_ai.response.model" sp_llm_response_model;
   str "gen_ai.provider.name" sp_llm_provider;
   str "gen_ai.response.id" sp_llm_response_id].

Definition gen_ai_legacy : list (Mapping → Mapping) :=
  [str "gen_ai.request.model" sp_llm_model;
   str "gen_ai.prompt" sp_llm_input;
   str "gen_ai.completion" sp_llm_output;
   unless_contains "gen_ai.usage.input_tokens"
     (unsigned capped_i32 "gen_ai.usage.prompt_tokens" sp_prompt_tokens);
   unless_contains "gen_ai.usage.output_tokens"
     (unsigned capped_i32 "gen_ai.usage.completion_tokens" sp_completion_tokens)].

Definition nat_toolkit : list (Mapping → Mapping) :=
  [str "nat.workflow.run_id" sp_workflow_run_id;
   when_empty sp_session_id (str "nat.conversation.id" sp_session_id);
   str "nat.framework" sp_framework;
   when_empty sp_agent_name (str "nat.function.name" sp_agent_name)].

Definition aiq : list (Mapping → Mapping) :=
  [str "aiq.workflow.run_id" sp_workflow_run_id;
   when_empty sp_session_id (str "aiq.conversation.id" sp_session_id);
   str "aiq.framework" sp_framework;
   when_empty sp_agent_name (str "aiq.function.name" sp_agent_name)].

Definition db : list (Mapping → Mapping) :=
  [str "db.system.name" sp_db_system_name;
   str "db.namespace" sp_db_namespace;
   str "db.operation.name" sp_db_operation_name;
   str "db.query.text" sp_db_query_text;
   str "db.query.summary" sp_db_query_summary;
   str "db.collection.name" sp_db_collection_name;
   str "db.response.status_code" sp_db_response_status_code].

Definition mcp : list (Mapping → Mapping) :=
  [str "mcp.tool.name" sp_mcp_tool_name;
   str "mcp.server.name" sp_mcp_server_name;
   str "mcp.tool.input" sp_mcp_tool_input;
   str "mcp.tool.output" sp_mcp_tool_output].

Definition tool : list (Mapping → Mapping) :=
  [str "tool.name" sp_tool_name;
   str "gen_ai.tool.name" sp_tool_name;
   str "tool.call.id" sp_tool_call_id;
   str "gen_ai.tool.call.id" sp_tool_call_id].

Definition prompt : list (Mapping → Mapping) :=
  [str "prompt.id" sp_prompt_id;
   str "prompt.name" sp_prompt_name;
   unsigned as_i32 "prompt.version" sp_prompt_version].

Definition resource : list (Mapping → Mapping) :=
  [signed id "resource.cpu.micros" sp_resource_cpu_micros;
   signed id "resource.memory.bytes" sp_resource_memory_bytes;
   signed id "resource.memory.peak" sp_resource_memory_peak;
   unsigned as_i32 "time_to_first_token_ms" sp_time_to_first_token_ms;
   unsigned as_i32 "ttft_ms" sp_time_to_first_token_ms;
   str "agent.version" sp_agent_version;
   str "sdk.version" sp_sdk_version;
   str "level" sp_level].

(** *** Sampling parameters *)

(** [json_key_for]: without the prefix. *)
Definition json_key_for (otel_key : string) : string :=
  if String.prefix "gen_ai.request." otel_key
  then String.substring 15 (String.length otel_key - 15) otel_key else otel_key.

Definition f64_params : list string :=
  ["gen_ai.request.temperature"; "gen_ai.request.top_p"; "gen_ai.request.frequency_penalty";
   "gen_ai.request.presence_penalty"].
Definition i64_params : list string :=
  ["gen_ai.request.top_k"; "gen_ai.request.max_tokens"; "gen_ai.request.seed"].

(** One insertion into [params]. *)
Definition param {T} (get : AttrView F → string → option T) (json : T → Json F)
    (st : AttrView F * BTreeMap (Json F)) (key : string) : AttrView F * BTreeMap (Json F) :=
  match get st.1 key with
  | Some v => (mark_consumed st.1 key, bt_insert (json_key_for key) (json v) st.2)
  | None => st
  end.

Definition collect_params (view : AttrView F) : AttrView F * BTreeMap (Json F) :=
  let st := foldl (param get_f64 json_number) (view, []) f64_params in
  let st := foldl (param get_i64 JInt) st i64_params in
  param get_str JString st "gen_ai.request.stop_sequences".

Definition apply_sampling_params (st : Mapping) : Mapping :=
  let '(view, params) := collect_params st.1 in
  (view, match params with [] => st.2 | _ => st.2 <| sp_model_parameters := to_string (JObject params) |> end).

Definition sampling_params : list (Mapping → Mapping) := [apply_sampling_params].

Definition default_conventions : list (list (Mapping → Mapping)) :=
  [openinference; guardrails; agent; gen_ai_task; gen_ai_memory; gen_ai_evaluation; vertex; llm;
   gen_ai_v1_29; gen_ai_legacy; nat_toolkit; aiq; db; mcp; tool; prompt; resource; sampling_params].

(** [for convention in &self.conventions { convention.apply(&view, &mut span) }]. *)
Definition run_conventions (conventions : list (list (Mapping → Mapping))) (st : Mapping) : Mapping :=
  foldl (λ st convention, steps convention st) st conventions.

(** ** What the pipeline promises

    The value each field takes, as a table that does not mention the order the
    conventions run in: for most fields the first attribute present of a list,
    else the value the span had. *)
Record FieldSpec := mkFieldSpec {
  fs_type : Type;
  fs_field : Span F → fs_type;
  fs_value : AttrView F → Span F → fs_type;
}.

Definition first_some {T} (sources : list (AttrView F → option T)) (view : AttrView F) (d : T) : T :=
  foldr (λ get rest, default rest (get view)) d sources.

Definition from {T} (get : AttrView F → string → option T) (key : string) : AttrView F → option T :=
  λ view, get view key.
Definition cast_from {A T} (cast : A → T) (get : AttrView F → string → option A) (key : string) :
    AttrView F → option T := λ view, cast <$> get view key.

Definition first_of {T} (field : Span F → T) (sources : list (AttrView F → option T)) : FieldSpec :=
  mkFieldSpec T field (λ view s, first_some sources view (field s)).
Definition strings (field : Span F → string) (keys : list string) : FieldSpec :=
  first_of field (map (from get_str) keys).
Definition untouched {T} (field : Span F → T) : FieldSpec := first_of field [].

(** The first of the values that is not empty, else the last. *)
Fixpoint first_nonempty (values : list (option string)) (v : string) : string :=
  match values with
  | [] => v
  | o :: rest => first_nonempty rest (if decide (v = "") then default v o else v)
  end.

(** A token count: the 1.29 attribute if its key is there at all, else the
    legacy one; when the one chosen is no count, the [llm.usage] one. *)
Definition token_count (field : Span F → Z) (current legacy llm : string) : FieldSpec :=
  mkFieldSpec Z field (λ view s,
    let canonical := default (default (field s) (as_i32 <$> get_u64 view llm)) (capped_i32 <$> get_u64 view current) in
    if view_contains view current then canonical else default canonical (capped_i32 <$> get_u64 view legacy)).

Definition params_of (view : AttrView F) : list (string * Json F) :=
  omap (λ k, (λ v, (json_key_for k, json_number v)) <$> get_f64 view k) f64_params
  ++ omap (λ k, (λ v, (json_key_for k, JInt v)) <$> get_i64 view k) i64_params
  ++ omap (λ k, (λ v, (json_key_for k, JString v)) <$> get_str view k) ["gen_ai.request.stop_sequences"].

Definition field_table : list FieldSpec :=
  [strings sp_rail_type ["rail.type"]; strings sp_rail_name ["rail.name"];
   first_of sp_rail_stop [cast_from i16_from get_bool "rail.stop"];
   strings sp_action_name ["action.name"];
   first_of sp_action_has_llm_calls [cast_from i16_from get_bool "action.has_llm_calls"];
   first_of sp_action_llm_calls_count [cast_from clamped_i32 get_i64 "action.llm_calls_count"];
   first_of sp_llm_cache_hit [cast_from i16_from get_bool "llm.cache.hit"];
   strings sp_invocation_id
     ["gcp.vertex.agent.invocation_id"; "zradar.invocation.id"; "invocation.id"; "invocation_id"];
   mkFieldSpec string sp_session_id (λ view s,
     first_nonempty [get_str view "nat.conversation.id"; get_str view "aiq.conversation.id"]
       (first_some (map (from get_str) ["gcp.vertex.agent.session_id"; "session_id"]) view (sp_session_id s)));
   strings sp_user_id ["user_id"]; strings sp_agent_id ["gen_ai.agent.id"];
   mkFieldSpec string sp_agent_name (λ view s,
     first_nonempty [get_str view "nat.function.name"; get_str view "aiq.function.name"]
       (first_some (map (from get_str) ["gen_ai.agent.name"; "agent.name"]) view (sp_agent_name s)));
   strings sp_agent_version ["agent.version"; "gen_ai.agent.version"];
   strings sp_agent_description ["gen_ai.agent.description"]; strings sp_agent_type ["agent.type"];
   strings sp_agent_task_id ["gen_ai.task.id"]; strings sp_agent_task_parent_id ["gen_ai.task.parent.id"];
   strings sp_agent_task_name ["gen_ai.task.name"]; strings sp_agent_task_kind ["gen_ai.task.kind"];
   strings sp_agent_task_state ["gen_ai.task.state"]; strings sp_agent_task_status ["gen_ai.task.status"];
   strings sp_memory_type ["gen_ai.memory.type"]; strings sp_memory_key ["gen_ai.memory.key"];
   strings sp_evaluation_name ["gen_ai.evaluation.name"];
   strings sp_evaluation_explanation ["gen_ai.evaluation.explanation"];
   first_of sp_evaluation_passed [cast_from i16_from get_bool "gen_ai.evaluation.passed"];
   strings sp_llm_model ["gen_ai.request.model"; "llm.model"];
   strings sp_llm_input ["gen_ai.prompt"; "llm.input"]; strings sp_llm_output ["gen_ai.completion"; "llm.output"];
   token_count sp_prompt_tokens "gen_ai.usage.input_tokens" "gen_ai.usage.prompt_tokens" "llm.usage.prompt_tokens";
   token_count sp_completion_tokens "gen_ai.usage.output_tokens" "gen_ai.usage.completion_tokens"
     "llm.usage.completion_tokens";
   first_of sp_total_tokens [cast_from as_i32 get_u64 "llm.usage.total_tokens"];
   first_of sp_total_cost_usd [from get_f64 "llm.cost.total_usd"];
   first_of sp_prompt_cost_usd [from get_f64 "llm.cost.prompt_usd"];
   first_of sp_completion_cost_usd [from get_f64 "llm.cost.completion_usd"];
   strings sp_llm_response_model ["gen_ai.response.model"]; strings sp_llm_provider ["gen_ai.provider.name"];
   strings sp_llm_response_id ["gen_ai.response.id"];
   strings sp_workflow_run_id ["aiq.workflow.run_id"; "nat.workflow.run_id"];
   strings sp_framework ["aiq.framework"; "nat.framework"];
   strings sp_db_system_name ["db.system.name"]; strings sp_db_namespace ["db.namespace"];
   strings sp_db_operation_name ["db.operation.name"]; strings sp_db_query_text ["db.query.text"];
   strings sp_db_query_summary ["db.query.summary"]; strings sp_db_collection_name ["db.collection.name"];
   strings sp_db_response_status_code ["db.response.status_code"];
   strings sp_mcp_tool_name ["mcp.tool.name"]; strings sp_mcp_server_name ["mcp.server.name"];
   strings sp_mcp_tool_input ["mcp.tool.input"]; strings sp_mcp_tool_output ["mcp.tool.output"];
   strings sp_tool_name ["gen_ai.tool.name"; "tool.name"];
   strings sp_tool_call_id ["gen_ai.tool.call.id"; "tool.call.id"];
   strings sp_prompt_id ["prompt.id"]; strings sp_prompt_name ["prompt.name"];
   first_of sp_prompt_version [cast_from as_i32 get_u64 "prompt.version"];
   first_of sp_resource_cpu_micros [from get_i64 "resource.cpu.micros"];
   first_of sp_resource_memory_bytes [from get_i64 "resource.memory.bytes"];
   first_of sp_resource_memory_peak [from get_i64 "resource.memory.peak"];
   first_of sp_time_to_first_token_ms
     [cast_from as_i32 get_u64 "ttft_ms"; cast_from as_i32 get_u64 "time_to_first_token_ms"];
   strings sp_sdk_version ["sdk.version"]; strings sp_level ["level"];
   mkFieldSpec string sp_model_parameters (λ view s,
     match bt_collect (params_of view) with [] => sp_model_parameters s | m => to_string (JObject m) end);
   untouched sp_trace_id; untouched sp_span_id; untouched sp_parent_span_id; untouched sp_timestamp;
   untouched sp_duration_ns; untouched sp_workspace_id; untouched sp_service_name; untouched sp_span_name;
   untouched sp_span_kind; untouched sp_span_type; untouched sp_status_code; untouched sp_status_message;
   untouched sp_events; untouched sp_environment; untouched sp_links; untouched sp_completion_start_time;
   untouched sp_attributes; untouched sp_created_at; untouched sp_updated_at; untouched sp_is_deleted].

(** ** Reading a field through the steps *)

(** In [st] the view still has [attrs], and [field] has the value [x]. *)
Definition at_field {T} (attrs : list (KeyValue F)) (field : Span F → T) (x : T) (st : Mapping) : Prop :=
  view_attrs st.1 = attrs ∧ field st.2 = x.

(** An accessor reads the attributes only. *)
Class Reads {T} (get : AttrView F → string → option T) : Prop :=
  reads : ∀ view key, get view key = get (view_new (view_attrs view)) key.

#[export] Instance reads_str : Reads get_str.
Proof. by intros []. Qed.
#[export] Instance reads_i64 : Reads get_i64.
Proof. by intros []. Qed.
#[export] Instance reads_u64 : Reads get_u64.
Proof. by intros []. Qed.
#[export] Instance reads_f64 : Reads get_f64.
Proof. by intros []. Qed.
#[export] Instance reads_bool : Reads get_bool.
Proof. by intros []. Qed.

Section At.
Context {T : Type} (attrs : list (KeyValue F)) (field : Span F → T).
Implicit Types (x : T) (st : Mapping).

Lemma promote_attrs {A} (get : AttrView F → string → option A) key set st :
  view_attrs (promote get key set st).1 = view_attrs st.1.
Proof. unfold promote. by destruct (get st.1 key). Qed.

Lemma at_start span : at_field attrs field (field span) (view_new attrs, span).
Proof. done. Qed.

Lemma at_promote_keep {A} (get : AttrView F → string → option A) key set x st :
  (∀ v s, field (set v s) = field s) → at_field attrs field x st → at_field attrs field x (promote get key set st).
Proof.
  intros Hset [Hv Hx]. split; [by rewrite promote_attrs|].
  unfold promote. destruct (get st.1 key); cbn; by rewrite ?Hset.
Qed.

Lemma at_promote_write {A} (get : AttrView F → string → option A) `{!Reads get} w key set x st :
  (∀ v s, field (set v s) = w v) → at_field attrs field x st →
  at_field attrs field (default x (w <$> get (view_new attrs) key)) (promote get key set st).
Proof.
  intros Hset [Hv Hx]. split; [by rewrite promote_attrs|].
  unfold promote. rewrite reads, Hv. destruct (get (view_new attrs) key); cbn; by rewrite ?Hset.
Qed.

Lemma at_promote_assign (get : AttrView F → string → option T) `{!Reads get} key set x st :
  (∀ v s, field (set v s) = v) → at_field attrs field x st →
  at_field attrs field (default x (get (view_new attrs) key)) (promote get key set st).
Proof.
  intros Hset Hst. pose proof (at_promote_write get id key set x st Hset Hst) as Hw.
  by destruct (get (view_new attrs) key).
Qed.

Lemma at_promote_cast {A} (get : AttrView F → string → option A) `{!Reads get} (cast : A → T) key set x st :
  (∀ v s, field (set v s) = v) → at_field attrs field x st →
  at_field attrs field (default x (cast <$> get (view_new attrs) key)) (promote get key (λ v, set (cast v)) st).
Proof. intros Hset. apply at_promote_write; auto. Qed.

Lemma at_unless key (step : Mapping → Mapping) x y st :
  at_field attrs field x st → (at_field attrs field x st → at_field attrs field y (step st)) →
  at_field attrs field (if view_contains (view_new attrs) key then x else y) (unless_contains key step st).
Proof.
  intros Hst Hstep. unfold unless_contains.
  replace (view_contains st.1 key) with (view_contains (view_new attrs) key); [|by destruct st as [[] ?], Hst as [<- _]].
  destruct (view_contains (view_new attrs) key); auto.
Qed.

Lemma at_unless_keep key (step : Mapping → Mapping) x st :
  at_field attrs field x st → (at_field attrs field x st → at_field attrs field x (step st)) →
  at_field attrs field x (unless_contains key step st).
Proof. intros Hst Hstep. unfold unless_contains. destruct (view_contains st.1 key); auto. Qed.

Lemma at_when_keep (guard : Span F → string) (step : Mapping → Mapping) x st :
  at_field attrs field x st → (at_field attrs field x st → at_field attrs field x (step st)) →
  at_field attrs field x (when_empty guard step st).
Proof. intros Hst Hstep. unfold when_empty. destruct (decide (guard st.2 = "")); auto. Qed.
End At.

Lemma at_when attrs (field : Span F → string) (step : Mapping → Mapping) x y st :
  at_field attrs field x st → (at_field attrs field x st → at_field attrs field y (step st)) →
  at_field attrs field (if decide (x = "") then y else x) (when_empty field step st).
Proof.
  intros Hst Hstep. unfold when_empty. pose proof Hst as [_ ->]. destruct (decide (x = "")); auto.
Qed.

Section First.
Context {T : Type} (attrs : list (KeyValue F)) (field : Span F → T).

Lemma first_str_keep keys (g : Span F → string) `{!Setter g} x st :
  (∀ v s, field (set_field g v s) = field s) → at_field attrs field x st →
  at_field attrs field x (first_str keys g st).
Proof.
  intros Hset Hst. induction keys as [|key rest IH]; cbn; [done|].
  destruct (get_str st.1 key); [by apply at_promote_keep|done].
Qed.
End First.

Lemma first_str_write attrs keys (g : Span F → string) `{!Setter g} x st :
  (∀ v s, g (set_field g v s) = v) → at_field attrs g x st →
  at_field attrs g (first_some (map (from get_str) keys) (view_new attrs) x) (first_str keys g st).
Proof.
  intros Hset Hst. induction keys as [|key rest IH]; [done|].
  change (at_field attrs g
    (default (first_some (map (from get_str) rest) (view_new attrs) x) (get_str (view_new attrs) key))
    (match get_str st.1 key with Some _ => str key g st | None => first_str rest g st end)).
  rewrite (reads (get := get_str) st.1 key).
  replace (view_attrs st.1) with attrs by by destruct Hst.
  destruct (get_str (view_new attrs) key) as [v|] eqn:Hv; [|exact IH].
  assert (H' := at_promote_assign attrs g get_str key (set_field g) x st Hset Hst).
  by rewrite Hv in H'.
Qed.

(** *** The sampling parameters *)

(** Insertions add up to one collection. *)
Lemma params_loop {T} (get : AttrView F → string → option T) `{!Reads get} (json : T → Json F) keys view m :
  let st := foldl (param get json) (view, m) keys in
  view_attrs st.1 = view_attrs view ∧
  st.2 = foldl (λ m kv, bt_insert kv.1 kv.2 m) m
           (omap (λ k, (λ v, (json_key_for k, json v)) <$> get (view_new (view_attrs view)) k) keys).
Proof.
  revert view m. induction keys as [|key keys IH]; cbn -[omap]; intros view m; [done|].
  unfold param at 2 4. cbn -[omap]. rewrite (reads (get := get) view key). cbn.
  destruct (get (view_new (view_attrs view)) key) as [v|]; cbn; [|apply IH].
  destruct (IH (mark_consumed view key) (bt_insert (json_key_for key) (json v) m)) as [-> ->]. done.
Qed.

Lemma collect_params_spec view :
  view_attrs (collect_params view).1 = view_attrs view ∧
  (collect_params view).2 = bt_collect (params_of (view_new (view_attrs view))).
Proof.
  unfold collect_params, params_of, bt_collect. rewrite !foldl_app.
  pose proof (params_loop get_f64 json_number f64_params view []) as H1. cbn zeta in H1.
  destruct (foldl (param get_f64 json_number) (view, []) f64_params) as [v1 m1]. destruct H1 as [Hv1 Hm1].
  pose proof (params_loop get_i64 JInt i64_params v1 m1) as H2. cbn zeta in H2.
  destruct (foldl (param get_i64 JInt) (v1, m1) i64_params) as [v2 m2]. destruct H2 as [Hv2 Hm2].
  pose proof (params_loop get_str JString ["gen_ai.request.stop_sequences"] v2 m2) as [Hv3 Hm3].
  cbn [fst snd] in *. change (foldl (param get_str JString) (v2, m2) ["gen_ai.request.stop_sequences"])
    with (param get_str JString (v2, m2) "gen_ai.request.stop_sequences") in *.
  rewrite Hv3, Hm3, Hm2, Hm1, Hv2, Hv1. done.
Qed.

Lemma sampling_keep {T} attrs (field : Span F → T) x st :
  (∀ v s, field (s <| sp_model_parameters := v |>) = field s) → at_field attrs field x st →
  at_field attrs field x (apply_sampling_params st).
Proof.
  intros Hset [Hv Hx]. unfold apply_sampling_params.
  destruct (collect_params_spec st.1) as [Hc _]. destruct (collect_params st.1) as [view params]; cbn in *.
  split; cbn; [congruence|]. destruct params; by rewrite ?Hset.
Qed.

Lemma sampling_write attrs x st :
  at_field attrs sp_model_parameters x st →
  at_field attrs sp_model_parameters
    (match bt_collect (params_of (view_new attrs)) with [] => x | m => to_string (JObject m) end)
    (apply_sampling_params st).
Proof.
  intros [Hv Hx]. unfold apply_sampling_params.
  destruct (collect_params_spec st.1) as [Hc Hp]. rewrite Hv in Hc, Hp.
  rewrite <-Hp. destruct (collect_params st.1) as [view params]; cbn in *.
  split; [done|]. by destruct params.
Qed.

Lemma at_eq {T} attrs (field : Span F → T) x y st : at_field attrs field x st → x = y → field st.2 = y.
Proof. by intros [_ ->] ->. Qed.

End Conventions.

(** The pipeline as one nest of steps. *)
Ltac unfold_pipeline :=
  cbv beta iota zeta delta [run_conventions default_conventions steps foldl openinference guardrails agent gen_ai_task
    gen_ai_memory gen_ai_evaluation vertex llm gen_ai_v1_29 gen_ai_legacy nat_toolkit aiq db mcp tool prompt
    resource sampling_params str unsigned signed float flag].

(** One step of the pipeline, read from its end. *)
Ltac at_step :=
  lazymatch goal with
  | |- at_field _ _ _ (promote _ _ _ _) =>
      first [apply at_promote_keep; [intros; reflexivity|]
            |apply at_promote_assign; [exact _|intros; reflexivity|]
            |apply at_promote_cast; [exact _|intros; reflexivity|]]
  | |- at_field _ _ _ (first_str _ _ _) =>
      first [apply first_str_keep; [intros; reflexivity|]
            |apply first_str_write; [intros; reflexivity|]]
  | |- at_field _ _ _ (when_empty _ _ _) => first [eapply at_when_keep; [|intros; at_step; eassumption]
            |eapply at_when; [|intros; at_step; eassumption]]
  | |- at_field _ _ _ (unless_contains _ _ _) => first [eapply at_unless_keep; [|intros; at_step; eassumption]
            |eapply at_unless; [|intros; at_step; eassumption]]
  | |- at_field _ _ _ (apply_sampling_params _) =>
      first [apply sampling_keep; [intros; reflexivity|] | apply sampling_write]
  | |- _ => apply at_start
  end.

Section Pipeline.
Context {F : Type} `{Float F} `{SerdeJson F}.
Implicit Types (attrs : list (KeyValue F)).

(** C28: Whatever the attributes, running the eighteen conventions one after the
    other over a span leaves in every one of its fields the value the table
    gives: for a field with several sources the first one present in the
    table's order, [session_id] and [agent_name] fall back to the agent
    toolkits only when empty, a token count follows the presence of the 1.29
    key, and what no convention owns keeps its value. *)
Theorem pipeline_is_table attrs span :
  Forall (λ row, fs_field row (run_conventions default_conventions (view_new attrs, span)).2
                 = fs_value row (view_new attrs) span) field_table.
Proof.
  unfold field_table. repeat apply Forall_cons_2; [..|apply Forall_nil_2];
    cbn [fs_field fs_value first_of strings token_count untouched];
    (eapply at_eq; [unfold_pipeline; repeat at_step|reflexivity]).
Qed.


Lemma get_u64_single key key' v :
  0 ≤ v → get_u64 (view_new [mkKeyValue key (Some (IntValue (F := F) v))]) key' = if String.eqb key key' then Some v else None.
Proof.
  intros Hv. unfold get_u64, get_i64, view_new. rewrite view_get_last, filter_cons, filter_nil.
  unfold has_key_dec, has_key; cbn [kv_key eq_rect_r eq_rect]. destruct (decide (key = key')) as [->|Hne]; cbn;
    [rewrite String.eqb_refl|by rewrite (proj2 (String.eqb_neq _ _) Hne)].
  by rewrite (proj2 (Z.ltb_ge v 0)).
Qed.

Lemma contains_single key key' (v : option (AnyValue F)) :
  view_contains (view_new [mkKeyValue key v]) key' = String.eqb key' key.
Proof.
  apply eq_true_iff_eq. unfold view_new. rewrite view_contains_iff, String.eqb_eq. cbn [map kv_key].
  by rewrite list_elem_of_singleton.
Qed.

(** A prompt count of 2^31 or more becomes a negative number when it comes
    as [llm.usage.prompt_tokens], and the largest [i32] when it comes as
    [gen_ai.usage.input_tokens]. *)
Theorem token_counts_wrap v (span : Span F) :
  2 ^ 31 ≤ v < 2 ^ 32 →
  let prompt_tokens key := sp_prompt_tokens (run_conventions default_conventions
                             (view_new [mkKeyValue key (Some (IntValue v))], span)).2 in
  prompt_tokens "llm.usage.prompt_tokens" = v - 2 ^ 32 ∧ prompt_tokens "gen_ai.usage.input_tokens" = i32_max.
Proof.
  intros Hv. cbn zeta. split; (eapply at_eq; [unfold_pipeline; repeat at_step|]);
    rewrite !get_u64_single, contains_single by lia; cbn -[Z.pow Z.add as_i32 capped_i32 i32_max].
  - unfold as_i32. change (2 ^ 32) with (2 * 2 ^ 31) in *. rewrite <-(Z_mod_plus_full _ (-1)).
    rewrite Z.mod_small; lia.
  - unfold capped_i32, i32_max. rewrite Z.min_r by lia. done.
Qed.
End Pipeline.

Import Otlp.Sample.

Lemma token_counts_wrap_witness :
  2 ^ 31 ≤ 3000000000 < 2 ^ 32 ∧
  sp_prompt_tokens (run_conventions (F := Z) default_conventions
    (view_new [mkKeyValue "llm.usage.prompt_tokens" (Some (IntValue 3000000000))], span_default 0 0)).2 = 3000000000 - 2 ^ 32.
Proof.
  split; [lia|]. destruct (token_counts_wrap (F := Z) 3000000000 (span_default 0 0)) as [Hllm _]; [lia|]. exact Hllm.
Defined.
