(* ===== verification/SpanEvents.v ===== *)
(** Span events and links: [api-optel/src/span_events.rs] and [span_links.rs].

    Token-stream events are dropped, the events that carry a prompt or a
    completion fill the span's columns, the others are kept as JSON up to a
    number and a size; links are kept as JSON up to a number. *)

From stdpp Require Import base gmap list sorting strings.
From S2P Require Import Prelude Models Otlp.

Section SpanEvents.
Context {F : Type} `{Float F} `{SerdeJson F} `{Hex}.

(** [span::Event]: what the code reads of it. *)
Record Event := mkEvent {
  e_name : string;
  e_time_unix_nano : Z;
  e_attributes : list (KeyValue F);
}.

Definition MAX_EVENTS_PER_SPAN : nat := 128.
Definition MAX_BYTES_PER_SPAN : Z := 65536.

Definition text_len (s : string) : Z := Z.of_nat (String.length s).

Definition ends_with (s suffix : string) : bool :=
  bool_decide (suffix = String.substring (String.length s - String.length suffix) (String.length suffix) s
               ∧ (String.length suffix ≤ String.length s)%nat).

Definition is_new_token_event (event : Event) : bool :=
  existsb (λ kv, bool_decide (kv_key kv = "nat.event_type") &&
                 match kv_value kv with Some (StringValue s) => ends_with s "_NEW_TOKEN" | _ => false end)
    (e_attributes event).

Definition string_value (kv : KeyValue F) : option string :=
  match kv_value kv with Some (StringValue s) => Some s | _ => None end.

(** [find_map]. *)
Fixpoint find_map {A B} (f : A → option B) (l : list A) : option B :=
  match l with
  | [] => None
  | x :: rest => match f x with Some y => Some y | None => find_map f rest end
  end.

Definition get_event_body_string (event : Event) : option string :=
  match find_map (λ kv, if bool_decide (kv_key kv ∈ ["content"; "gen_ai.content"]) then string_value kv else None)
          (e_attributes event) with
  | Some s => Some s
  | None => find_map string_value (e_attributes event)
  end.

(** The module's own [any_value_to_json]. *)
Fixpoint event_value_to_json (v : AnyValue F) : Json F :=
  match v with
  | StringValue s => JString s
  | BoolValue b => JBool b
  | IntValue i => JInt i
  | DoubleValue d => json_number d
  | ArrayValue values => JArray (map event_value_to_json values)
  | KvlistValue values =>
      JObject (foldl (λ m item, match kv_value item with
                                | Some val => bt_insert (kv_key item) (event_value_to_json val) m
                                | None => m
                                end) [] values)
  | BytesValue b => JString (hex_encode b)
  | StringValueStrindex _ => JNull
  | NoValue => JNull
  end.

(** One attribute of the 1.29 event. *)
Definition inference_attr (span : Span F) (attr : KeyValue F) : Span F :=
  if bool_decide (kv_key attr = "gen_ai.input.messages" ∧ sp_llm_input span = "") then
    match event_value_to_json <$> kv_value attr with
    | Some json_val => span <| sp_llm_input := to_string json_val |>
    | None => span
    end
  else if bool_decide (kv_key attr = "gen_ai.output.messages" ∧ sp_llm_output span = "") then
    match event_value_to_json <$> kv_value attr with
    | Some json_val => span <| sp_llm_output := to_string json_val |>
    | None => span
    end
  else span.

Definition apply_inference_detail_event (event : Event) (span : Span F) : Span F :=
  foldl inference_attr span (e_attributes event).

Definition attrs_object (attrs : list (KeyValue F)) (json : AnyValue F → Json F) : Json F :=
  JObject (foldl (λ m kv, match kv_value kv with Some v => bt_insert (kv_key kv) (json v) m | None => m end) [] attrs).

Definition event_to_json (event : Event) : Json F :=
  let map := bt_insert "name" (JString (e_name event)) [] in
  let map := if e_time_unix_nano event =? 0 then map
             else bt_insert "timestamp_ns" (JInt (i64_wrap (e_time_unix_nano event))) map in
  let map := match e_attributes event with
             | [] => map
             | attrs => bt_insert "attributes" (attrs_object attrs event_value_to_json) map
             end in
  JObject map.

Definition EVENTS_TRUNCATED : Json F := JObject [("events.truncated", JBool true)].

(** The events whose content goes to the span's columns. *)
Definition apply_promoted (event : Event) (span : Span F) : Span F :=
  if bool_decide (e_name event = "gen_ai.content.prompt") then
    if decide (sp_llm_input span = "") then
      match get_event_body_string event with Some content => span <| sp_llm_input := content |> | None => span end
    else span
  else if bool_decide (e_name event = "gen_ai.content.completion") then
    if decide (sp_llm_output span = "") then
      match get_event_body_string event with Some content => span <| sp_llm_output := content |> | None => span end
    else span
  else apply_inference_detail_event event span.

Definition promoted_names : list string :=
  ["gen_ai.content.prompt"; "gen_ai.content.completion"; "gen_ai.client.inference.operation.details"].
Definition is_promoted (event : Event) : bool := bool_decide (e_name event ∈ promoted_names).

(** The loop: the preserved events, whether it broke off, the span. *)
Fixpoint event_loop (events : list Event) (preserved : list (Json F)) (running_bytes : Z) (span : Span F) :
    list (Json F) * bool * Span F :=
  match events with
  | [] => (preserved, false, span)
  | event :: rest =>
      if is_promoted event then event_loop rest preserved running_bytes (apply_promoted event span)
      else
        let event_json := event_to_json event in
        let byte_cost := text_len (to_string event_json) + 1 in
        if MAX_BYTES_PER_SPAN <? running_bytes + byte_cost then (preserved, true, span)
        else event_loop rest (preserved ++ [event_json]) (running_bytes + byte_cost) span
  end.

Definition meaningful (events : list Event) : list Event :=
  take MAX_EVENTS_PER_SPAN (filter (λ e, is_new_token_event e = false) events).

Definition apply_span_events (events : list Event) (span : Span F) : Span F :=
  let '(preserved, truncated, span) := event_loop (meaningful events) [] 2 span in
  let preserved := if truncated then preserved ++ [EVENTS_TRUNCATED] else preserved in
  match preserved with
  | [] => span
  | _ => span <| sp_events := to_string (JArray preserved) |>
  end.

(** ** Links *)

(** [span::Link]: what the code reads of it. *)
Record Link := mkLink {
  l_trace_id : list Z;
  l_span_id : list Z;
  l_trace_state : string;
  l_attributes : list (KeyValue F);
}.

Definition MAX_LINKS_PER_SPAN : nat := 128.

Definition LINKS_TRUNCATED : Json F := JObject [("links.truncated", JBool true)].

Definition link_to_json (link : Link) : Json F :=
  let map := bt_insert "trace_id" (JString (hex_encode (l_trace_id link))) [] in
  let map := bt_insert "span_id" (JString (hex_encode (l_span_id link))) map in
  let map := if decide (l_trace_state link = "") then map
             else bt_insert "trace_state" (JString (l_trace_state link)) map in
  let map := match l_attributes link with
             | [] => map
             | attrs => bt_insert "attributes" (attrs_object attrs any_value_to_json) map
             end in
  JObject map.

Definition apply_span_links (links : list Link) (span : Span F) : Span F :=
  match links with
  | [] => span
  | _ =>
      let truncated := (MAX_LINKS_PER_SPAN <? length links)%nat in
      let out := map link_to_json (take MAX_LINKS_PER_SPAN links) in
      let out := if truncated then out ++ [LINKS_TRUNCATED] else out in
      span <| sp_links := to_string (JArray out) |>
  end.

(** ** What the loop keeps *)

(** The two converters of values are one function. *)
Lemma event_value_same v : event_value_to_json v = any_value_to_json v.
Proof. reflexivity. Qed.

Definition ordinary (event : Event) : Prop := is_promoted event = false.
#[export] Instance ordinary_dec event : Decision (ordinary event).
Proof. unfold ordinary. apply _. Defined.

Definition event_cost (event : Event) : Z := text_len (to_string (event_to_json event)) + 1.
Definition costs (events : list Event) : Z := zsum (map event_cost events).

(** The longest prefix of the ordinary events that fits the bytes left. *)
Lemma event_loop_spec events preserved running span :
  running ≤ MAX_BYTES_PER_SPAN →
  ∃ n, let kept := filter ordinary events in
  (event_loop events preserved running span).1 = (preserved ++ map event_to_json (take n kept), bool_decide (n < length kept)%nat)
  ∧ (n ≤ length kept)%nat ∧ running + costs (take n kept) ≤ MAX_BYTES_PER_SPAN
  ∧ ((n < length kept)%nat → MAX_BYTES_PER_SPAN < running + costs (take (S n) kept)).
Proof.
  unfold costs. revert preserved running span. induction events as [|event rest IH]; intros preserved running span Hr; cbn [event_loop].
  { exists 0%nat. cbn. rewrite app_nil_r, zsum_nil. split_and!; [done|lia..]. }
  rewrite filter_cons. destruct (is_promoted event) eqn:Hp.
  { destruct (decide (ordinary event)) as [Ho|_]; [unfold ordinary in Ho; congruence|]. by apply IH. }
  destruct (decide (ordinary event)) as [_|[]]; [|done].
  destruct (MAX_BYTES_PER_SPAN <? _) eqn:Hb.
  - exists 0%nat. cbn [take map length]. rewrite app_nil_r, zsum_cons, take_0; cbn [map]. rewrite zsum_nil.
    unfold event_cost. split_and!; [by rewrite bool_decide_eq_true_2 by lia|lia..].
  - destruct (IH (preserved ++ [event_to_json event]) (running + event_cost event) span) as (n & Heq & Hn & Hfit & Hcut);
      [unfold event_cost; lia|].
    exists (S n). unfold event_cost in Heq at 1. rewrite Heq.
    cbn [take map length]. rewrite !zsum_cons, <-app_assoc.
    split_and!; [|lia..].
    f_equal. apply bool_decide_ext. lia.
Qed.

Lemma inference_attr_events span attr : sp_events (inference_attr span attr) = sp_events span.
Proof.
  unfold inference_attr. repeat case_bool_decide; by destruct (event_value_to_json <$> kv_value attr).
Qed.

Lemma promoted_events event span : sp_events (apply_promoted event span) = sp_events span.
Proof.
  unfold apply_promoted. case_bool_decide; [|case_bool_decide].
  1-2: destruct (decide _); [|done]; by destruct (get_event_body_string event).
  unfold apply_inference_detail_event. revert span.
  induction (e_attributes event) as [|attr attrs IH]; cbn [foldl]; intros span; [done|].
  by rewrite IH, inference_attr_events.
Qed.

Lemma loop_events events preserved running span :
  sp_events (event_loop events preserved running span).2 = sp_events span.
Proof.
  revert preserved running span. induction events as [|event rest IH]; cbn [event_loop]; intros preserved running span; [done|].
  destruct (is_promoted event); [by rewrite IH, promoted_events|].
  destruct (MAX_BYTES_PER_SPAN <? _); [done|apply IH].
Qed.

(** [serde_json] writes arrays without blanks: brackets and commas. *)
Class CompactArrays : Prop :=
  seq_text_len l : text_len (serialize_seq l) = 2 + zsum (map text_len l) + Z.max 0 (zlen l - 1).

(** The events column for the first [n] of the kept events. *)
Definition events_out (kept : list Event) (n : nat) : list (Json F) :=
  map event_to_json (take n kept) ++ (if (n <? length kept)%nat then [EVENTS_TRUNCATED] else []).

Lemma events_out_len `{!SerdeJsonLaws F, !CompactArrays} kept n :
  2 + costs (take n kept) ≤ MAX_BYTES_PER_SPAN → (n ≤ length kept)%nat → events_out kept n ≠ [] →
  text_len (to_string (JArray (events_out kept n))) ≤ MAX_BYTES_PER_SPAN + text_len (to_string EVENTS_TRUNCATED).
Proof.
  intros Hfit Hn Hne. rewrite to_string_array, seq_text_len, map_map.
  assert (Hsum : ∀ l, zsum (map (λ e, text_len (to_string (event_to_json e))) l) + zlen l = costs l).
  { unfold costs. induction l as [|e l IH]; [done|]. cbn [map]. rewrite !zsum_cons. unfold event_cost at 1. cbn [length]. lia. }
  specialize (Hsum (take n kept)). assert (0 ≤ text_len (to_string EVENTS_TRUNCATED)) by (unfold text_len; lia).
  unfold events_out in *. rewrite map_app, map_map, zsum_app.
  rewrite length_map, length_app, length_map.
  destruct (n <? length kept)%nat; cbn [map length] in *; rewrite ?zsum_cons, ?zsum_nil; lia.
Qed.

(** The events past the 128th that is not noise are not looked at, not even when
    those before it are all promoted. *)
Lemma meaningful_full events rest :
  (MAX_EVENTS_PER_SPAN ≤ length (filter (λ e, is_new_token_event e = false) events))%nat → meaningful (events ++ rest) = meaningful events.
Proof. intros Hfull. unfold meaningful. by rewrite filter_app, take_app_le. Qed.

(** C31: The events column is built in three steps, in this order: token-stream
    noise is dropped, the first 128 events of what is left are taken, and of
    those the promoted ones (prompts, completions and inference details) are
    dropped. The column is the JSON of the longest prefix of the events then
    left that fits 65536 bytes, followed by the marker exactly when one did not
    fit, and exceeds that limit by at most the marker; it is left alone when no
    event is left. Promoted events count among the 128: once there are 128
    events that are not noise, no later event changes anything, and no marker
    tells that any was left out. *)
Theorem events_column_capped `{!SerdeJsonLaws F, !CompactArrays} events (span : Span F) :
  let kept := filter ordinary (take MAX_EVENTS_PER_SPAN (filter (λ e, is_new_token_event e = false) events)) in
  ∃ n, (n ≤ length kept)%nat ∧ (length kept ≤ MAX_EVENTS_PER_SPAN)%nat
  ∧ sp_events (apply_span_events events span) =
      match events_out kept n with [] => sp_events span | out => to_string (JArray out) end
  ∧ 2 + costs (take n kept) ≤ MAX_BYTES_PER_SPAN
  ∧ ((n < length kept)%nat → MAX_BYTES_PER_SPAN < 2 + costs (take (S n) kept))
  ∧ (events_out kept n ≠ [] → text_len (sp_events (apply_span_events events span))
                              ≤ MAX_BYTES_PER_SPAN + text_len (to_string EVENTS_TRUNCATED))
  ∧ (kept = [] → sp_events (apply_span_events events span) = sp_events span)
  ∧ ∀ rest, (MAX_EVENTS_PER_SPAN ≤ length (filter (λ e, is_new_token_event e = false) events))%nat →
      apply_span_events (events ++ rest) span = apply_span_events events span.
Proof.
  cbn zeta. change (take MAX_EVENTS_PER_SPAN (filter (λ e, is_new_token_event e = false) events)) with (meaningful events). set (kept := filter ordinary (meaningful events)).
  destruct (event_loop_spec (meaningful events) [] 2 span) as (n & Hloop & Hn & Hfit & Hcut); [done|].
  fold kept in Hloop, Hn, Hfit, Hcut. exists n.
  assert (Hcol : sp_events (apply_span_events events span) =
      match events_out kept n with [] => sp_events span | out => to_string (JArray out) end).
  { unfold apply_span_events, events_out. pose proof (loop_events (meaningful events) [] 2 span) as Hs.
    destruct (event_loop (meaningful events) [] 2 span) as [[preserved truncated] span']; cbn [fst snd app] in Hloop, Hs.
    injection Hloop as -> ->. rewrite <-Hs.
    destruct (Nat.ltb_spec n (length kept)) as [Hlt|Hge].
    - rewrite bool_decide_eq_true_2 by done. by destruct (map event_to_json (take n kept) ++ [EVENTS_TRUNCATED]).
    - rewrite bool_decide_eq_false_2 by lia. rewrite app_nil_r. by destruct (map event_to_json (take n kept)). }
  split_and!; [done| |done|done|done| | |].
  - etrans; [apply length_filter|]. unfold meaningful. rewrite length_take. lia.
  - intros Hne. rewrite Hcol. pose proof (events_out_len kept n Hfit Hn Hne).
    by destruct (events_out kept n).
  - intros Hk. rewrite Hcol. unfold events_out. rewrite Hk. cbn. by rewrite take_nil.
  - intros rest Hfull. unfold apply_span_events. by rewrite meaningful_full.
Qed.
End SpanEvents.

Import Otlp.Sample.

#[export] Instance sample_compact : CompactArrays (F := Z).
Proof.
  intros l. change (text_len (serialize_seq l)) with (text_len (seq_text l)). unfold text_len, seq_text.
  rewrite !length_append. cbn [String.length]. pose proof (joined_length l). lia.
Qed.

Definition sample_events : list (Event (F := Z)) :=
  [mkEvent "gen_ai.content.prompt" 1 [mkKeyValue "content" (Some (StringValue "hello"))];
   mkEvent "token" 2 [mkKeyValue "nat.event_type" (Some (StringValue "LLM_NEW_TOKEN"))];
   mkEvent "exception" 3 []].

Lemma events_column_capped_witness :
  let span := span_default 0 0 in
  let kept := filter ordinary (take MAX_EVENTS_PER_SPAN (filter (λ e, is_new_token_event e = false) sample_events)) in
  sp_llm_input (apply_span_events sample_events span) = "hello" ∧ length kept = 1%nat ∧
  (∃ n, (n ≤ length kept)%nat ∧ sp_events (apply_span_events sample_events span) =
    match events_out kept n with [] => sp_events span | out => to_string (JArray out) end) ∧
  sp_events (apply_span_events (replicate 128 (mkEvent "gen_ai.content.prompt" 1 []) ++ [mkEvent "exception" 3 []]) span) = "[]".
Proof.
  split; [vm_compute; reflexivity|]. split; [vm_compute; reflexivity|]. split.
  2:{ destruct (events_column_capped (replicate 128 (mkEvent "gen_ai.content.prompt" 1 [])) (span_default 0 0))
        as (n & _ & _ & _ & _ & _ & _ & Hnone & Hlater).
      rewrite Hlater by (vm_compute; lia). rewrite Hnone; vm_compute; reflexivity. }
  destruct (events_column_capped sample_events (span_default 0 0)) as (n & Hn & _ & Hcol & _).
  exists n. split; [exact Hn|exact Hcol].
Defined.
