(* ===== verification/SpanType.v ===== *)
(** Span type detection: [api-optel/src/span_type_mapper.rs]. *)

From stdpp Require Import base gmap list sorting strings.
From S2P Require Import Prelude Models Otlp.

(** [str::to_uppercase]. *)
Class Uppercase := to_uppercase : string → string.

Section SpanType.
Context {F : Type} `{Uppercase}.
Implicit Types (view : AttrView F).

(** [AttrSource] for the view. *)
Definition lookup_str view (key : string) : option string := get_str view key.
Definition has_attr view (key : string) : bool := view_contains view key.
Definition has_key_prefix view (prefix : string) : bool :=
  existsb (λ kv, String.prefix prefix kv.1) (view_iter view).

Definition has_model_info view : bool :=
  has_attr view "gen_ai.request.model" || has_attr view "gen_ai.response.model"
  || has_attr view "llm.model" || has_attr view "ai.model.id".
Definition has_evaluation_info view : bool := has_attr view "gen_ai.evaluation.name".
Definition has_tool_info view : bool :=
  has_attr view "tool.name" || has_attr view "gen_ai.tool.name" || has_attr view "mcp.tool.name".
Definition has_db_info view : bool := has_key_prefix view "db.".
Definition has_agent_info view : bool := has_attr view "agent.name" || has_attr view "agent.type".

Definition is_guardrails view (span_name service_name : string) : bool :=
  if String.prefix "guardrails." span_name then true
  else if bool_decide (lookup_str view "gen_ai.operation.name" = Some "guardrails") then true
  else if has_key_prefix view "rail." then true
  else has_attr view "action.name" && bool_decide (service_name = "nemo_guardrails").

(** The [match] on a name, with its wildcard. *)
Definition name_table (table : list (string * string)) (name : string) : string :=
  default "SPAN" (bt_get name table).

Definition openinference_type : string → string :=
  name_table [("CHAIN", "CHAIN"); ("RETRIEVER", "RETRIEVER"); ("LLM", "GENERATION"); ("EMBEDDING", "EMBEDDING");
              ("AGENT", "AGENT"); ("TOOL", "TOOL"); ("GUARDRAIL", "GUARDRAIL"); ("EVALUATOR", "EVALUATOR");
              ("RERANKER", "RERANKER")].

Definition operation_type : string → string :=
  name_table [("chat", "GENERATION"); ("completion", "GENERATION"); ("generate_content", "GENERATION");
              ("generate", "GENERATION"); ("embeddings", "EMBEDDING"); ("invoke_agent", "AGENT");
              ("create_agent", "AGENT"); ("execute_tool", "TOOL")].

(** The Vercel patterns: a type, or on to the next rule. *)
Definition vercel_type view (op_str : string) : option string :=
  if (String.prefix "ai.generateText" op_str || String.prefix "ai.streamText" op_str) && has_model_info view
  then Some "GENERATION"
  else if String.prefix "ai.embed" op_str && has_model_info view then Some "EMBEDDING"
  else if String.prefix "ai.toolCall" op_str then Some "TOOL"
  else None.

Definition heuristic_type view (duration_ns : Z) : string :=
  if has_db_info view then "DATABASE"
  else if has_model_info view then "GENERATION"
  else if has_evaluation_info view then "EVALUATOR"
  else if has_tool_info view then "TOOL"
  else if has_agent_info view then "AGENT"
  else if duration_ns =? 0 then "EVENT"
  else "SPAN".

Definition detect_type view (duration_ns : Z) (span_name service_name : string) : string :=
  match lookup_str view "zradar.span.type" with
  | Some type_str => to_uppercase type_str
  | None =>
      if is_guardrails view span_name service_name then "GUARDRAIL"
      else match lookup_str view "openinference.span.kind" with
      | Some kind => openinference_type (to_uppercase kind)
      | None =>
          match lookup_str view "gen_ai.operation.name" with
          | Some op => operation_type op
          | None =>
              match (match lookup_str view "operation.name" with
                     | Some op => Some op
                     | None => lookup_str view "ai.operationId"
                     end) ≫= vercel_type view with
              | Some t => t
              | None => heuristic_type view duration_ns
              end
          end
      end
  end.

(** ** Which types come out *)

Lemma in_types t : validate_span_type t = true → t ∈ VALID_SPAN_TYPES.
Proof. apply bool_decide_eq_true_1. Qed.

Lemma name_table_valid table name :
  Forall (λ e, e.2 ∈ VALID_SPAN_TYPES) table → name_table table name ∈ VALID_SPAN_TYPES.
Proof.
  unfold name_table. induction table as [|[k t] table IH]; cbn [bt_get default]; intros Hall; [by apply in_types|].
  inversion Hall; subst. destruct (decide (name = k)); [done|]. by apply IH.
Qed.

Lemma openinference_valid kind : openinference_type kind ∈ VALID_SPAN_TYPES.
Proof. apply name_table_valid. repeat constructor; by apply in_types. Qed.

Lemma operation_valid op : operation_type op ∈ VALID_SPAN_TYPES.
Proof. apply name_table_valid. repeat constructor; by apply in_types. Qed.

Lemma vercel_valid view op t : vercel_type view op = Some t → t ∈ VALID_SPAN_TYPES.
Proof.
  unfold vercel_type. repeat destruct (_ && _); try destruct (String.prefix _ _);
    intros [= <-]; by apply in_types.
Qed.

Lemma heuristic_valid view d : heuristic_type view d ∈ VALID_SPAN_TYPES.
Proof.
  unfold heuristic_type. repeat match goal with |- context [if ?b then _ else _] => destruct b end; by apply in_types.
Qed.

(** A span without an explicit type attribute gets one of the twelve types;
    with one, it gets that string in upper case, whatever it is. *)
Theorem detected_type_valid view d span_name service_name :
  match get_str view "zradar.span.type" with
  | Some t => detect_type view d span_name service_name = to_uppercase t
  | None => validate_span_type (detect_type view d span_name service_name) = true
  end.
Proof.
  unfold detect_type, lookup_str. destruct (get_str view "zradar.span.type") as [t|]; [done|].
  apply bool_decide_eq_true.
  destruct (is_guardrails _ _ _); [by apply in_types|].
  destruct (get_str view "openinference.span.kind"); [apply openinference_valid|].
  destruct (get_str view "gen_ai.operation.name"); [apply operation_valid|].
  destruct (_ ≫= vercel_type view) as [t|] eqn:Hv; [|apply heuristic_valid].
  destruct (match get_str view "operation.name" with Some op => Some op | None => get_str view "ai.operationId" end)
    as [op|]; [|done]. by apply vercel_valid in Hv.
Qed.
End SpanType.

(** ASCII capitals, to evaluate the model. *)
Module SpanTypeSample.
Definition upper_char (c : Ascii.ascii) : Ascii.ascii :=
  let n := Ascii.nat_of_ascii c in
  if (97 <=? n)%nat && (n <=? 122)%nat then Ascii.ascii_of_nat (n - 32) else c.
Fixpoint ascii_upper (s : string) : string :=
  match s with
  | EmptyString => EmptyString
  | String c rest => String (upper_char c) (ascii_upper rest)
  end.
#[export] Instance sample_upper : Uppercase := ascii_upper.
End SpanTypeSample.
