(* ===== verification/Converter.v ===== *)
(** The OTLP trace converter: [api-optel/src/converter.rs].

    A span is framed (identity, times), mapped by the conventions, completed
    with its events and links, typed, and, when the workspace does not capture
    content, stripped of it. [W] is [WorkspaceId]; its text and the parsing of a
    uuid are the [uuid] crate's; each span is stamped with a time of the clock. *)

From stdpp Require Import base gmap list sorting strings.
From S2P Require Import Prelude Models Otlp Conventions SpanEvents SpanType.

Arguments Event F : clear implicits.
Arguments Link F : clear implicits.

Section Converter.
Context {F W : Type} `{Float F} `{SerdeJson F} `{Hex} `{Uppercase}.
Context (workspace_text : W → string) (parse_uuid : string → option W).

Record OtlpStatus := mkOtlpStatus {
  os_code : Z;
  os_message : string;
}.

(** [trace::v1::Span]: what the code reads of it. *)
Record OtlpSpan := mkOtlpSpan {
  ot_trace_id : list Z;
  ot_span_id : list Z;
  ot_parent_span_id : list Z;
  ot_name : string;
  ot_kind : Z;
  ot_start_time_unix_nano : Z;
  ot_end_time_unix_nano : Z;
  ot_attributes : list (KeyValue F);
  ot_events : list (Event F);
  ot_links : list (Link F);
  ot_status : option OtlpStatus;
}.

(** [ResourceSpans]: the resource's attributes, the spans of each scope. *)
Record ResourceSpans := mkResourceSpans {
  rs_resource : option (list (KeyValue F));
  rs_scope_spans : list (list OtlpSpan);
}.

Definition extract_resource_string (resource : option (list (KeyValue F))) (key : string) : option string :=
  attributes ← resource;
  attr ← find_map (λ attr, if bool_decide (kv_key attr = key) then Some attr else None) attributes;
  match kv_value attr with
  | Some (StringValue s) => if decide (s = "") then None else Some s
  | _ => None
  end.

Definition normalize_parent_span_id (parent : list Z) : string :=
  if bool_decide (parent = []) || forallb (Z.eqb 0) parent then "" else hex_encode parent.

Definition duration_of (start_ns end_ns : Z) : Z :=
  if end_ns <? start_ns then 0 else u64_to_i64_saturating (end_ns - start_ns).

Definition span_kind_of (kind : Z) : string :=
  if kind =? 1 then "INTERNAL" else if kind =? 2 then "SERVER" else if kind =? 3 then "CLIENT"
  else if kind =? 4 then "PRODUCER" else if kind =? 5 then "CONSUMER" else "UNSPECIFIED".

Definition status_code_of (code : Z) : string :=
  if code =? 0 then "UNSET" else if code =? 1 then "OK" else if code =? 2 then "ERROR" else "UNSET".

(** The attribute keys skipped when content is not captured. *)
Definition content_key (k : string) : bool :=
  String.prefix "gen_ai.content." k
  || bool_decide (k ∈ ["llm.input"; "llm.output"; "gen_ai.prompt"; "gen_ai.completion"; "db.statement";
                       "db.query.text"; "mcp.tool.input"; "mcp.tool.output"]).

(** The [retain] on the stored events. *)
Definition event_retained (e : Json F) : bool :=
  match e with
  | JObject m => match bt_get "name" m with
                 | Some (JString n) => negb (bool_decide (n ∈ promoted_names))
                 | _ => true
                 end
  | _ => true
  end.

Definition clear_content (span : Span F) : Span F :=
  span <| sp_llm_input := "" |> <| sp_llm_output := "" |> <| sp_db_query_text := "" |>
       <| sp_mcp_tool_input := "" |> <| sp_mcp_tool_output := "" |>.

Definition strip_events (span : Span F) : Span F :=
  match from_str (sp_events span) with
  | Some (JArray events) =>
      span <| sp_events := to_string (JArray (filter (λ e, event_retained e = true) events)) |>
  | _ => span
  end.

(** The span before the conventions. *)
Definition frame (otlp_span : OtlpSpan) (service_name environment : string) (workspace_id : W) (now : Z) : Span F :=
  span_default f_zero now
    <| sp_trace_id := hex_encode (ot_trace_id otlp_span) |>
    <| sp_span_id := hex_encode (ot_span_id otlp_span) |>
    <| sp_parent_span_id := normalize_parent_span_id (ot_parent_span_id otlp_span) |>
    <| sp_timestamp := i64_wrap (ot_start_time_unix_nano otlp_span) |>
    <| sp_duration_ns := duration_of (ot_start_time_unix_nano otlp_span) (ot_end_time_unix_nano otlp_span) |>
    <| sp_workspace_id := workspace_text workspace_id |>
    <| sp_service_name := service_name |>
    <| sp_span_name := ot_name otlp_span |>
    <| sp_environment := environment |>.

(** [OtlpConverter]. *)
Record OtlpConverter := mkOtlpConverter {
  cv_conventions : list (list (Mapping (F := F) → Mapping (F := F)));
  cv_capture_policy : W → bool;
}.

Definition converter_new : OtlpConverter := mkOtlpConverter default_conventions (λ _, true).
Definition with_capture_enabled (cv : OtlpConverter) (capture_enabled : bool) : OtlpConverter :=
  mkOtlpConverter (cv_conventions cv) (λ _, capture_enabled).

Definition set_status (status : option OtlpStatus) (span : Span F) : Span F :=
  match status with
  | Some status => span <| sp_status_code := status_code_of (os_code status) |>
                        <| sp_status_message := os_message status |>
  | None => span
  end.

(** Type, kind and status. *)
Definition settle (otlp_span : OtlpSpan) (view : AttrView F) (duration_ns : Z) (span : Span F) : Span F :=
  let span := span <| sp_span_type := detect_type view duration_ns (sp_span_name span) (sp_service_name span) |> in
  let span := span <| sp_span_kind := span_kind_of (ot_kind otlp_span) |> in
  set_status (ot_status otlp_span) span.

(** The attributes column and the capture decision. *)
Definition store_content (cv : OtlpConverter) (attributes : list (KeyValue F)) (span : Span F) : Span F :=
  let capture_enabled := match parse_uuid (sp_workspace_id span) with
                         | Some workspace_id => cv_capture_policy cv workspace_id
                         | None => true
                         end in
  let span := span <| sp_attributes := attrs_to_json_filtered attributes
                        (λ k, negb capture_enabled && content_key k) |> in
  if capture_enabled then span else strip_events (clear_content span).

Definition convert_span (cv : OtlpConverter) (otlp_span : OtlpSpan) (service_name environment : string)
    (workspace_id : W) (now : Z) : outcome string (Span F) :=
  let duration_ns := duration_of (ot_start_time_unix_nano otlp_span) (ot_end_time_unix_nano otlp_span) in
  let span := frame otlp_span service_name environment workspace_id now in
  let '(view, span) := run_conventions (cv_conventions cv) (view_new (ot_attributes otlp_span), span) in
  let span := apply_span_events (ot_events otlp_span) span in
  let span := apply_span_links (ot_links otlp_span) span in
  let span := settle otlp_span view duration_ns span in
  let span := store_content cv (ot_attributes otlp_span) span in
  Ok (span <| sp_created_at := now |> <| sp_updated_at := now |>).

(** The spans of all scopes, in order; [clock] stamps the [i]-th. *)
Definition convert_resource_spans_with (cv : OtlpConverter) (resource_spans : ResourceSpans) (workspace_id : W)
    (clock : nat → Z) : outcome string (list (Span F)) :=
  let service_name := default "unknown" (extract_resource_string (rs_resource resource_spans) "service.name") in
  let environment := default "" (extract_resource_string (rs_resource resource_spans) "deployment.environment") in
  ofold (λ spans scope,
    ofold (λ spans otlp_span,
      span ← convert_span cv otlp_span service_name environment workspace_id (clock (length spans));
      mret (spans ++ [span])) spans scope) [] (rs_scope_spans resource_spans).
End Converter.
