(* ===== verification/Capture.v ===== *)
(** What leaves the trace converter when content is not captured: spans that
    differ in content only convert to the same record, and the attributes kept
    are exactly those whose keys are not listed. *)

From stdpp Require Import base gmap list sorting strings.
From S2P Require Import Prelude Models Otlp Conventions SpanEvents SpanType Converter.

(** ** Spans that differ in content only *)

Section Relations.
Context {F : Type}.

(** Equal but for the values of content attributes. *)
Definition attr_sim (a b : KeyValue F) : Prop :=
  kv_key a = kv_key b ∧
  if content_key (kv_key a) then (is_Some (kv_value a) ↔ is_Some (kv_value b)) else kv_value a = kv_value b.

(** Equal but for what a prompt, completion or inference event carries. *)
Definition event_sim (e e' : Event F) : Prop :=
  if is_promoted e then e_name e = e_name e' ∧ is_new_token_event e = is_new_token_event e' else e = e'.

Record span_sim (a b : OtlpSpan (F := F)) : Prop := mkSpanSim {
  sim_trace_id : ot_trace_id a = ot_trace_id b;
  sim_span_id : ot_span_id a = ot_span_id b;
  sim_parent : ot_parent_span_id a = ot_parent_span_id b;
  sim_name : ot_name a = ot_name b;
  sim_kind : ot_kind a = ot_kind b;
  sim_start : ot_start_time_unix_nano a = ot_start_time_unix_nano b;
  sim_end : ot_end_time_unix_nano a = ot_end_time_unix_nano b;
  sim_links : ot_links a = ot_links b;
  sim_status : ot_status a = ot_status b;
  sim_attributes : Forall2 attr_sim (ot_attributes a) (ot_attributes b);
  sim_events : Forall2 event_sim (ot_events a) (ot_events b);
}.

(** ** The view of related attributes *)

Implicit Types (l k : list (KeyValue F)).

Lemma sim_keys l l' : Forall2 attr_sim l l' → map kv_key l = map kv_key l'.
Proof. induction 1 as [|a b k k' [Hkey _] _ IH]; cbn; [done|]. by rewrite Hkey, IH. Qed.

Lemma sim_filter l l' key : Forall2 attr_sim l l' → Forall2 attr_sim (filter (has_key key) l) (filter (has_key key) l').
Proof.
  induction 1 as [|a b k k' Hab _ IH]; [constructor|].
  rewrite !filter_cons. pose proof Hab as [Hkey _].
  destruct (decide (has_key key a)), (decide (has_key key b)); try (unfold has_key in *; congruence). by constructor.
Qed.

Lemma sim_get l l' key : Forall2 attr_sim l l' → content_key key = false → view_get (view_new l) key = view_get (view_new l') key.
Proof.
  intros Hl Hkey. unfold view_new. rewrite !view_get_last.
  pose proof (sim_filter l l' key Hl) as Hf. apply Forall2_last in Hf.
  destruct (last (filter (has_key key) l)) as [a|] eqn:Ha; inversion Hf as [? b [Hab Hv] Hs Hb|]; subst; [|done].
  cbn. apply last_Some_elem_of, list_elem_of_filter in Ha as [Ha _]. unfold has_key in Ha.
  by rewrite Ha, Hkey in Hv.
Qed.

Lemma sim_contains l l' key : Forall2 attr_sim l l' → view_contains (view_new l) key = view_contains (view_new l') key.
Proof.
  intros Hl. apply eq_true_iff_eq. unfold view_new. rewrite !view_contains_iff. by rewrite (sim_keys l l').
Qed.

Lemma sim_prefix l l' prefix :
  Forall2 attr_sim l l' → has_key_prefix (view_new l) prefix = has_key_prefix (view_new l') prefix.
Proof.
  unfold has_key_prefix, view_iter; cbn [view_attrs view_new].
  induction 1 as [|a b k k' [Hkey Hv] _ IH]; [done|]. cbn.
  assert (Hs : is_Some (kv_value a) ↔ is_Some (kv_value b)) by (destruct (content_key _); [done|by rewrite Hv]).
  destruct (kv_value a), (kv_value b); cbn; [|..|exact IH].
  - f_equal; [by rewrite Hkey|exact IH].
  - destruct (proj1 Hs (mk_is_Some _ _ eq_refl)) as [? [=]].
  - destruct (proj2 Hs (mk_is_Some _ _ eq_refl)) as [? [=]].
Qed.

Lemma sim_filtered l l' :
  Forall2 attr_sim l l' →
  filter (λ kv, (true && content_key (kv_key kv)) = false) l =
  filter (λ kv, (true && content_key (kv_key kv)) = false) l'.
Proof.
  induction 1 as [|[k v] [k' v'] ? ? [Hkey Hv] _ IH]; [done|]. cbn in Hkey, Hv; subst k'.
  rewrite !filter_cons, IH. cbn [kv_key]. by destruct (content_key k); cbn; [|rewrite Hv].
Qed.
End Relations.

(** ** The steps of the conventions *)

Section Steps.
Context {F : Type} `{Float F} `{SerdeJson F} `{Hex}.
Context (l l' : list (KeyValue F)) (Hl : Forall2 attr_sim l l').
Implicit Types (st : Mapping (F := F)).

(** The two runs: views of the related attributes, spans equal but for content. *)
Definition low st st' : Prop :=
  view_attrs st.1 = l ∧ view_attrs st'.1 = l' ∧ clear_content st.2 = clear_content st'.2.

(** An accessor is a function of the value under the key. *)
Class ReadsValue {T} (get : AttrView F → string → option T) : Prop :=
  reads_value : ∀ view view' key, view_get view key = view_get view' key → get view key = get view' key.

#[export] Instance value_str : ReadsValue get_str.
Proof. intros view view' key Hg. unfold get_str. by rewrite Hg. Qed.
#[export] Instance value_i64 : ReadsValue get_i64.
Proof. intros view view' key Hg. unfold get_i64. by rewrite Hg. Qed.
#[export] Instance value_u64 : ReadsValue get_u64.
Proof. intros view view' key Hg. unfold get_u64. by rewrite (value_i64 _ _ _ Hg). Qed.
#[export] Instance value_f64 : ReadsValue get_f64.
Proof. intros view view' key Hg. unfold get_f64. by rewrite Hg. Qed.
#[export] Instance value_bool : ReadsValue get_bool.
Proof. intros view view' key Hg. unfold get_bool. by rewrite Hg. Qed.

Lemma low_get {T} (get : AttrView F → string → option T) `{!Reads get, !ReadsValue get} st st' key :
  low st st' → content_key key = false → get st.1 key = get st'.1 key.
Proof.
  intros (Hv & Hv' & _) Hkey. rewrite (reads st.1), (reads st'.1), Hv, Hv'. by apply reads_value, sim_get.
Qed.

Lemma low_promote {T} (get : AttrView F → string → option T) `{!Reads get, !ReadsValue get} key set st st' :
  content_key key = false → (∀ v s, clear_content (set v s) = set v (clear_content s)) →
  low st st' → low (promote get key set st) (promote get key set st').
Proof.
  intros Hkey Hset Hlow. pose proof (low_get get st st' key Hlow Hkey) as Hget. destruct Hlow as (Hv & Hv' & Hs).
  unfold low. rewrite !promote_attrs. split_and!; [done|done|].
  unfold promote. rewrite Hget. destruct (get st'.1 key); cbn [snd]; by rewrite ?Hset, ?Hs.
Qed.

Lemma low_content {T} (get : AttrView F → string → option T) key set st st' :
  (∀ v s, clear_content (set v s) = clear_content s) →
  low st st' → low (promote get key set st) (promote get key set st').
Proof.
  intros Hset (Hv & Hv' & Hs). unfold low. rewrite !promote_attrs. split_and!; [done|done|].
  unfold promote. destruct (get st.1 key), (get st'.1 key); cbn [snd]; by rewrite ?Hset, ?Hs.
Qed.

Lemma low_first keys (field : Span F → string) `{!Setter field} st st' :
  Forall (λ key, content_key key = false) keys →
  (∀ v s, clear_content (set_field field v s) = set_field field v (clear_content s)) →
  low st st' → low (first_str keys field st) (first_str keys field st').
Proof.
  intros Hkeys Hset Hlow. induction Hkeys as [|key rest Hkey _ IH]; cbn [first_str]; [done|].
  rewrite (low_get get_str st st' key Hlow Hkey). destruct (get_str st'.1 key); [exact (low_promote get_str key (set_field field) st st' Hkey Hset Hlow)|exact IH].
Qed.

Lemma low_when (field : Span F → string) step st st' :
  (∀ s, field (clear_content s) = field s) →
  low st st' → (low st st' → low (step st) (step st')) →
  low (when_empty field step st) (when_empty field step st').
Proof.
  intros Hf Hlow Hstep. unfold when_empty.
  replace (field st.2) with (field st'.2); [destruct (decide (field st'.2 = "")); auto|].
  rewrite <-(Hf st.2), <-(Hf st'.2). by destruct Hlow as (_ & _ & ->).
Qed.

Lemma low_unless key step st st' :
  low st st' → (low st st' → low (step st) (step st')) →
  low (unless_contains key step st) (unless_contains key step st').
Proof.
  intros Hlow Hstep. unfold unless_contains.
  replace (view_contains st.1 key) with (view_contains st'.1 key); [destruct (view_contains st'.1 key); auto|].
  destruct st as [[? ?] ?], st' as [[? ?] ?], Hlow as (Hv & Hv' & _); cbn in Hv, Hv'; subst.
  symmetry. exact (sim_contains _ _ key Hl).
Qed.

Lemma omap_ext_Forall {A B} (f g : A → option B) (xs : list A) : Forall (λ x, f x = g x) xs → omap f xs = omap g xs.
Proof. induction 1 as [|x xs Hx _ IH]; cbn; [done|]. by rewrite Hx, IH. Qed.

Lemma low_params : params_of (view_new l) = params_of (view_new l').
Proof.
  unfold params_of. f_equal; [|f_equal]; apply omap_ext_Forall;
    repeat constructor; f_equal; apply reads_value, sim_get; done.
Qed.

Lemma low_sampling st st' : low st st' → low (apply_sampling_params st) (apply_sampling_params st').
Proof.
  intros (Hv & Hv' & Hs). unfold apply_sampling_params.
  destruct (collect_params_spec st.1) as [Ha Hp], (collect_params_spec st'.1) as [Ha' Hp'].
  rewrite Hv in Ha, Hp. rewrite Hv' in Ha', Hp'. rewrite <-low_params, <-Hp in Hp'.
  destruct (collect_params st.1) as [view params], (collect_params st'.1) as [view' params']; cbn [fst snd] in *.
  subst params'. unfold low; cbn [fst snd]. split_and!; [done|done|].
  destruct params as [|p params]; [done|].
  exact (f_equal (set_field sp_model_parameters (to_string (JObject (p :: params)))) Hs).
Qed.

Ltac low_step :=
  lazymatch goal with
  | |- low (promote _ _ _ _) _ =>
      first [apply low_content; [intros; reflexivity|]
            |apply low_promote; [exact _|exact _|reflexivity|intros; reflexivity|]]
  | |- low (first_str _ _ _) _ => apply low_first; [repeat constructor|intros; reflexivity|]
  | |- low (when_empty _ _ _) _ => apply low_when; [intros; reflexivity| |intros; low_step; assumption]
  | |- low (unless_contains _ _ _) _ => apply low_unless; [|intros; low_step; assumption]
  | |- low (apply_sampling_params _) _ => apply low_sampling
  end.

Lemma low_pipeline span span' :
  clear_content span = clear_content span' →
  low (run_conventions default_conventions (view_new l, span)) (run_conventions default_conventions (view_new l', span')).
Proof. intros Hs. unfold_pipeline. repeat low_step. done. Qed.
End Steps.

(** ** Events *)

Section Events.
Context {F : Type} `{Float F} `{SerdeJson F} `{Hex}.
Implicit Types (span : Span F).

Lemma promoted_clear (event : Event F) span : clear_content (apply_promoted event span) = clear_content span.
Proof.
  unfold apply_promoted. case_bool_decide; [|case_bool_decide].
  1-2: destruct (decide _); [|done]; by destruct (get_event_body_string event).
  unfold apply_inference_detail_event. revert span.
  induction (e_attributes event) as [|attr attrs IH]; cbn [foldl]; intros span; [done|].
  rewrite IH. unfold inference_attr. repeat case_bool_decide; by destruct (event_value_to_json <$> kv_value attr).
Qed.

Lemma sim_meaningful (events events' : list (Event F)) :
  Forall2 event_sim events events' → Forall2 event_sim (meaningful events) (meaningful events').
Proof.
  intros Hev. unfold meaningful. apply Forall2_take.
  induction Hev as [|e e' es es' He _ IH]; [constructor|]. rewrite !filter_cons.
  assert (Htok : is_new_token_event e = is_new_token_event e') by (unfold event_sim in He; by destruct (is_promoted e), He).
  destruct (decide (is_new_token_event e = false)), (decide (is_new_token_event e' = false)); try congruence.
  by constructor.
Qed.

Lemma sim_loop events events' preserved running span span' :
  Forall2 event_sim events events' → clear_content span = clear_content span' →
  (event_loop events preserved running span).1 = (event_loop events' preserved running span').1
  ∧ clear_content (event_loop events preserved running span).2 = clear_content (event_loop events' preserved running span').2.
Proof.
  intros Hev. revert preserved running span span'.
  induction Hev as [|e e' es es' He _ IH]; cbn [event_loop]; intros preserved running span span' Hs; [done|].
  unfold event_sim in He. destruct (is_promoted e) eqn:Hp.
  - destruct He as [Hname _]. unfold is_promoted in *. rewrite <-Hname, Hp. apply IH. by rewrite !promoted_clear.
  - subst e'. rewrite Hp. destruct (MAX_BYTES_PER_SPAN <? _); [done|by apply IH].
Qed.

Lemma sim_span_events (events events' : list (Event F)) span span' :
  Forall2 event_sim events events' → clear_content span = clear_content span' →
  clear_content (apply_span_events events span) = clear_content (apply_span_events events' span').
Proof.
  intros Hev Hs. unfold apply_span_events.
  destruct (sim_loop _ _ [] 2 span span' (sim_meaningful _ _ Hev) Hs) as [Hout Hclear].
  destruct (event_loop (meaningful events) [] 2 span) as [[p t] s], (event_loop (meaningful events') [] 2 span') as [[p' t'] s'].
  cbn [fst snd] in *. injection Hout as -> ->. destruct (if t' then _ else _) as [|j out]; [done|].
  exact (f_equal (set_field sp_events (to_string (JArray (j :: out)))) Hclear).
Qed.

Lemma sim_span_links (links : list (Link F)) span span' :
  clear_content span = clear_content span' →
  clear_content (apply_span_links links span) = clear_content (apply_span_links links span').
Proof.
  intros Hs. unfold apply_span_links. destruct links as [|link links]; [done|].
  exact (f_equal (set_field sp_links (to_string _)) Hs).
Qed.
End Events.

(** ** Fields the converter frames and then leaves alone *)

Section Framed.
Context {F : Type} `{Float F} `{SerdeJson F} `{Hex} `{Uppercase}.
Implicit Types (span : Span F).

(** A field that neither the conventions nor the later steps assign. *)
Record Framed {T} (field : Span F → T) : Prop := mkFramed {
  framed_mapped l span : field (run_conventions default_conventions (view_new l, span)).2 = field span;
  framed_clear span : field (clear_content span) = field span;
  framed_events v span : field (span <| sp_events := v |>) = field span;
  framed_links v span : field (span <| sp_links := v |>) = field span;
  framed_type v span : field (span <| sp_span_type := v |>) = field span;
  framed_kind v span : field (span <| sp_span_kind := v |>) = field span;
  framed_code v span : field (span <| sp_status_code := v |>) = field span;
  framed_message v span : field (span <| sp_status_message := v |>) = field span;
  framed_attributes v span : field (span <| sp_attributes := v |>) = field span;
  framed_created v span : field (span <| sp_created_at := v |>) = field span;
  framed_updated v span : field (span <| sp_updated_at := v |>) = field span;
}.

Ltac prove_framed := split; [intros; eapply at_eq; [unfold_pipeline; repeat at_step|reflexivity]|reflexivity..].

Lemma framed_workspace : Framed sp_workspace_id.
Proof. prove_framed. Qed.
Lemma framed_trace : Framed sp_trace_id.
Proof. prove_framed. Qed.
Lemma framed_span : Framed sp_span_id.
Proof. prove_framed. Qed.
Lemma framed_parent : Framed sp_parent_span_id.
Proof. prove_framed. Qed.
Lemma framed_timestamp : Framed sp_timestamp.
Proof. prove_framed. Qed.
Lemma framed_duration : Framed sp_duration_ns.
Proof. prove_framed. Qed.
Lemma framed_service : Framed sp_service_name.
Proof. prove_framed. Qed.
Lemma framed_name : Framed sp_span_name.
Proof. prove_framed. Qed.
Lemma framed_environment : Framed sp_environment.
Proof. prove_framed. Qed.

Context {T : Type} (field : Span F → T) (Hf : Framed field).

Lemma events_framed events span : field (apply_span_events events span) = field span.
Proof using Hf.
  unfold apply_span_events.
  assert (Hw : field (event_loop (meaningful events) [] 2 span).2 = field span).
  { generalize (meaningful events) (@nil (Json F)) 2. intros es. revert span.
    induction es as [|e es IH]; cbn [event_loop]; intros s p r; [done|].
    destruct (is_promoted e).
    - by rewrite IH, <-(framed_clear _ Hf), promoted_clear, (framed_clear _ Hf).
    - destruct (MAX_BYTES_PER_SPAN <? _); [done|apply IH]. }
  destruct (event_loop (meaningful events) [] 2 span) as [[p t] s]. cbn [snd] in Hw.
  destruct (if t then _ else _); [done|]. by rewrite (framed_events _ Hf).
Qed.

Lemma links_framed links span : field (apply_span_links links span) = field span.
Proof using Hf. unfold apply_span_links. destruct links; [done|]. apply (framed_links _ Hf). Qed.

Lemma settle_framed o view d span : field (settle o view d span) = field span.
Proof using Hf.
  unfold settle, set_status. destruct (ot_status o);
    by rewrite ?(framed_message _ Hf), ?(framed_code _ Hf), (framed_kind _ Hf), (framed_type _ Hf).
Qed.

Lemma strip_framed span : field (strip_events span) = field span.
Proof using Hf.
  unfold strip_events. destruct (from_str (sp_events span)) as [[]|]; try done. apply (framed_events _ Hf).
Qed.

Context {W : Type} (workspace_text : W → string) (parse_uuid : string → option W).

Lemma store_framed cv l span : field (store_content parse_uuid cv l span) = field span.
Proof using Hf.
  unfold store_content. cbn zeta. destruct (match parse_uuid _ with Some _ => _ | None => _ end);
    by rewrite ?strip_framed, ?(framed_clear _ Hf), (framed_attributes _ Hf).
Qed.

(** In the record such a field has the value of the frame. *)
Lemma converted_framed cv o service_name environment w now span :
  cv_conventions cv = default_conventions →
  convert_span workspace_text parse_uuid cv o service_name environment w now = Ok span →
  field span = field (frame workspace_text o service_name environment w now).
Proof using Hf.
  intros Hcv. unfold convert_span. rewrite Hcv.
  pose proof (framed_mapped _ Hf (ot_attributes o) (frame workspace_text o service_name environment w now)) as Hm.
  destruct (run_conventions _ _) as [view s]; cbn [snd] in Hm. intros [= <-].
  by rewrite (framed_updated _ Hf), (framed_created _ Hf), store_framed, settle_framed, links_framed, events_framed.
Qed.
End Framed.

(** ** The converter *)

Section Capture.
Context {F W : Type} `{Float F} `{SerdeJson F} `{Hex} `{Uppercase}.
Context (workspace_text : W → string) (parse_uuid : string → option W).
(** [Uuid]'s text parses to the [Uuid]. *)
Context (parse_text : ∀ w, parse_uuid (workspace_text w) = Some w).
Implicit Types (span : Span F) (otlp_span : OtlpSpan (F := F)).

Abbreviation convert := (convert_span workspace_text parse_uuid).

Lemma sim_detect (l l' : list (KeyValue F)) d span_name service_name :
  Forall2 attr_sim l l' →
  detect_type (view_new l) d span_name service_name = detect_type (view_new l') d span_name service_name.
Proof.
  intros Hl.
  assert (Hstr : ∀ key, content_key key = false → get_str (view_new l) key = get_str (view_new l') key).
  { intros key Hkey. unfold get_str. by rewrite (sim_get l l'). }
  unfold detect_type, is_guardrails, lookup_str, vercel_type, heuristic_type, has_db_info, has_model_info,
    has_evaluation_info, has_tool_info, has_agent_info, has_attr.
  rewrite !Hstr by reflexivity.
  pose proof (λ prefix, sim_prefix l l' prefix Hl) as Hprefix. pose proof (λ key, sim_contains l l' key Hl) as Hcontains.
  clear Hstr Hl. rewrite !Hprefix, !Hcontains. reflexivity.
Qed.

Lemma view_after (l : list (KeyValue F)) span :
  view_attrs (run_conventions default_conventions (view_new l, span)).1 = l.
Proof.
  destruct (low_pipeline l l) with (span := span) (span' := span) as (Hv & _ & _); [|done|exact Hv].
  apply Forall_Forall2_diag, Forall_forall. intros kv _. split; [done|]. by destruct (content_key (kv_key kv)).
Qed.

Lemma detect_attrs (view : AttrView F) d span_name service_name :
  detect_type view d span_name service_name = detect_type (view_new (view_attrs view)) d span_name service_name.
Proof. by destruct view. Qed.

Lemma settle_clear o view d span : clear_content (settle o view d span) = settle o view d (clear_content span).
Proof. unfold settle. by destruct (ot_status o). Qed.

Lemma settle_view o v v' d span :
  (∀ n m, detect_type v d n m = detect_type v' d n m) → settle o v d span = settle o v' d span.
Proof. intros Hd. unfold settle. by rewrite Hd. Qed.

Lemma clear_attributes span v : clear_content (span <| sp_attributes := v |>) = clear_content span <| sp_attributes := v |>.
Proof. reflexivity. Qed.

(** With capture off, what is stored depends on the cleared span and the kept
    attributes only. *)
Lemma stored_without_content cv l l' w span span' :
  cv_capture_policy cv w = false →
  sp_workspace_id span = workspace_text w → sp_workspace_id span' = workspace_text w →
  Forall2 attr_sim l l' → clear_content span = clear_content span' →
  store_content parse_uuid cv l span = store_content parse_uuid cv l' span'.
Proof.
  intros Hpolicy Hw Hw' Hl Hs. unfold store_content. rewrite Hw, Hw', parse_text, Hpolicy. cbn [negb].
  unfold attrs_to_json_filtered. rewrite (sim_filtered l l' Hl).
  rewrite !clear_attributes, Hs. reflexivity.
Qed.

(** C25: With content capture off for the workspace, the converted span is a
    function of what is not content: two spans that differ only in the values
    of the listed content attributes and in what their prompt, completion and
    inference events carry convert to the same record. *)
Theorem capture_off_hides_content cv a b service_name environment w now :
  cv_conventions cv = default_conventions → cv_capture_policy cv w = false → span_sim a b →
  convert cv a service_name environment w now = convert cv b service_name environment w now.
Proof.
  intros Hcv Hpolicy Hsim. unfold convert_span. rewrite Hcv.
  assert (Hframe : frame workspace_text a service_name environment w now = frame workspace_text b service_name environment w now).
  { unfold frame. by destruct Hsim as [-> -> -> -> _ -> -> _ _ _ _]. }
  destruct Hsim as [_ _ _ _ Hkind Hstart Hend Hlinks Hstatus Hattrs Hevents].
  rewrite Hframe, Hstart, Hend, Hlinks. set (span := frame workspace_text b service_name environment w now).
  pose proof (low_pipeline _ _ Hattrs span span eq_refl) as (Hva & Hvb & Hmap).
  pose proof (framed_mapped _ framed_workspace (ot_attributes a) span) as Hwa. pose proof (framed_mapped _ framed_workspace (ot_attributes b) span) as Hwb.
  destruct (run_conventions _ (view_new (ot_attributes a), span)) as [va sa].
  destruct (run_conventions _ (view_new (ot_attributes b), span)) as [vb sb]. cbn [fst snd] in *.
  set (d := duration_of _ _).
  assert (Hset : ∀ v s, settle a v d s = settle b v d s) by (intros; unfold settle; by rewrite Hkind, Hstatus).
  assert (Hclear : clear_content (settle a va d (apply_span_links (ot_links b) (apply_span_events (ot_events a) sa))) =
                   clear_content (settle b vb d (apply_span_links (ot_links b) (apply_span_events (ot_events b) sb)))).
  { rewrite !settle_clear, Hset. rewrite (sim_span_links _ _ _ (sim_span_events _ _ _ _ Hevents Hmap)).
    apply settle_view. intros n m. rewrite (detect_attrs va), (detect_attrs vb), Hva, Hvb. by apply sim_detect. }
  assert (Hw : ∀ o v s es, sp_workspace_id s = sp_workspace_id span →
    sp_workspace_id (settle o v d (apply_span_links (ot_links b) (apply_span_events es s))) = workspace_text w).
  { intros o v s es Hs. by rewrite (settle_framed _ framed_workspace), (links_framed _ framed_workspace), (events_framed _ framed_workspace), Hs. }
  by rewrite (stored_without_content cv _ _ w _ _ Hpolicy (Hw _ _ _ _ Hwa) (Hw _ _ _ _ Hwb) Hattrs Hclear).
Qed.
End Capture.

(** ** What a workspace that opted out still stores *)

Section Stored.
Context {F W : Type} `{Float F} `{SerdeJson F} `{Hex} `{Uppercase} `{!SerdeJsonLaws F}.
Context (workspace_text : W → string) (parse_uuid : string → option W).
Context (parse_text : ∀ w, parse_uuid (workspace_text w) = Some w).

Lemma strip_events_attributes (span : Span F) : sp_attributes (strip_events span) = sp_attributes span.
Proof. unfold strip_events. by destruct (from_str (sp_events span)) as [[]|]. Qed.

Lemma stored_attributes cv l (span : Span F) w :
  sp_workspace_id span = workspace_text w →
  sp_attributes (store_content parse_uuid cv l span) =
  reference_json (filter (λ kv, negb (cv_capture_policy cv w) && content_key (kv_key kv) = false) l).
Proof.
  intros Hw. unfold store_content. rewrite Hw, parse_text. rewrite streamed_filtered.
  destruct (cv_capture_policy cv w); [done|]. by rewrite strip_events_attributes.
Qed.

(** The attributes column is the JSON of all attributes when the workspace
    captures content, and of those whose keys are not listed when it does not:
    whatever a client puts under another key, the messages of the current
    conventions ([gen_ai.input.messages]) among them, is stored. *)
Theorem stored_attributes_exact cv o service_name environment w now span :
  cv_conventions cv = default_conventions →
  convert_span workspace_text parse_uuid cv o service_name environment w now = Ok span →
  sp_attributes span =
    reference_json (filter (λ kv, negb (cv_capture_policy cv w) && content_key (kv_key kv) = false) (ot_attributes o))
  ∧ content_key "gen_ai.input.messages" = false.
Proof.
  intros Hcv. unfold convert_span. rewrite Hcv.
  pose proof (framed_mapped _ framed_workspace (ot_attributes o) (frame workspace_text o service_name environment w now)) as Hw.
  destruct (run_conventions _ _) as [view s]; cbn [snd] in Hw. intros [= <-]. split; [|done].
  rewrite <-(stored_attributes cv (ot_attributes o)
    (settle o view (duration_of (ot_start_time_unix_nano o) (ot_end_time_unix_nano o))
       (apply_span_links (ot_links o) (apply_span_events (ot_events o) s))) w); [done|].
  by rewrite (settle_framed _ framed_workspace), (links_framed _ framed_workspace), (events_framed _ framed_workspace), Hw.
Qed.
End Stored.

(** ** The whole request *)

Section Request.
Context {F W : Type} `{Float F} `{SerdeJson F} `{Hex} `{Uppercase}.
Context (workspace_text : W → string) (parse_uuid : string → option W).
Implicit Types (cv : OtlpConverter (F := F) (W := W)).

Lemma convert_span_ok cv o service_name environment w now :
  ∃ span, convert_span workspace_text parse_uuid cv o service_name environment w now = Ok span.
Proof. unfold convert_span. destruct (run_conventions _ _) as [view s]. by eexists. Qed.

Lemma normalized_root parent :
  normalize_parent_span_id parent = "" ↔ Forall (λ b, b = 0) parent.
Proof.
  unfold normalize_parent_span_id. destruct (forallb (Z.eqb 0) parent) eqn:Hall.
  - rewrite orb_true_r. split; [intros _|done]. rewrite forallb_forall in Hall. apply Forall_forall. intros b Hb%list_elem_of_In. by apply Hall in Hb as ->%Z.eqb_eq.
  - rewrite orb_false_r. case_bool_decide as Hnil; [by subst|]. split.
    + intros Hempty. pose proof (hex_length parent) as Hlen. rewrite Hempty in Hlen. by destruct parent.
    + intros Hz. exfalso. assert (forallb (Z.eqb 0) parent = true); [|congruence].
      apply forallb_forall. intros b Hb%list_elem_of_In. apply Z.eqb_eq. symmetry. by eapply (proj1 (Forall_forall _ _) Hz).
Qed.

(** What the record says of a span, whatever its attributes and events. *)
Definition identified w (service_name environment : string) (o : OtlpSpan (F := F)) (span : Span F) : Prop :=
  sp_workspace_id span = workspace_text w ∧ sp_service_name span = service_name ∧ sp_environment span = environment ∧
  sp_span_name span = ot_name o ∧ sp_trace_id span = hex_encode (ot_trace_id o) ∧
  sp_span_id span = hex_encode (ot_span_id o) ∧
  (sp_parent_span_id span = "" ↔ Forall (λ b, b = 0) (ot_parent_span_id o)) ∧
  sp_timestamp span = i64_wrap (ot_start_time_unix_nano o) ∧
  sp_duration_ns span = Z.min (Z.max 0 (ot_end_time_unix_nano o - ot_start_time_unix_nano o)) i64_max.

Lemma converted_identified cv o service_name environment w now span :
  cv_conventions cv = default_conventions →
  convert_span workspace_text parse_uuid cv o service_name environment w now = Ok span →
  identified w service_name environment o span.
Proof.
  intros Hcv Hspan. unfold identified.
  rewrite (converted_framed _ framed_workspace _ _ _ _ _ _ _ _ _ Hcv Hspan),
    (converted_framed _ framed_service _ _ _ _ _ _ _ _ _ Hcv Hspan),
    (converted_framed _ framed_environment _ _ _ _ _ _ _ _ _ Hcv Hspan),
    (converted_framed _ framed_name _ _ _ _ _ _ _ _ _ Hcv Hspan),
    (converted_framed _ framed_trace _ _ _ _ _ _ _ _ _ Hcv Hspan),
    (converted_framed _ framed_span _ _ _ _ _ _ _ _ _ Hcv Hspan),
    (converted_framed _ framed_parent _ _ _ _ _ _ _ _ _ Hcv Hspan),
    (converted_framed _ framed_timestamp _ _ _ _ _ _ _ _ _ Hcv Hspan),
    (converted_framed _ framed_duration _ _ _ _ _ _ _ _ _ Hcv Hspan).
  split_and!; try reflexivity; [apply normalized_root|].
  change (duration_of (ot_start_time_unix_nano o) (ot_end_time_unix_nano o) =
          Z.min (Z.max 0 (ot_end_time_unix_nano o - ot_start_time_unix_nano o)) i64_max).
  unfold duration_of, u64_to_i64_saturating, i64_max. repeat case_match; lia.
Qed.

Definition each_identified w service_name environment (os : list (OtlpSpan (F := F))) (spans : list (Span F)) : Prop :=
  Forall2 (identified w service_name environment) os spans.

Lemma scope_fold cv service_name environment w (clock : nat → Z) scope acc os :
  cv_conventions cv = default_conventions → each_identified w service_name environment os acc →
  ∃ spans, ofold (λ spans o, span ← convert_span workspace_text parse_uuid cv o service_name environment w (clock (length spans));
                             mret (spans ++ [span])) acc scope = Ok spans
  ∧ each_identified w service_name environment (os ++ scope) spans.
Proof.
  intros Hcv. revert acc os. induction scope as [|o scope IH]; cbn [ofold]; intros acc os Hacc.
  - exists acc. by rewrite app_nil_r.
  - destruct (convert_span_ok cv o service_name environment w (clock (length acc))) as [span Hspan].
    rewrite Hspan. ostep. destruct (IH (acc ++ [span]) (os ++ [o])) as (spans & Hfold & Hall).
    { apply Forall2_app; [done|]. constructor; [|constructor]. by eapply converted_identified. }
    exists spans. split; [exact Hfold|]. by rewrite <-app_assoc in Hall.
Qed.

(** C30: Converting a resource's spans never fails: it gives one record per
    span, in the order of the scopes, each in the request's workspace, under the
    resource's service and environment, with its own ids, name and start; a
    record is a root exactly when the parent id has no non-zero byte, and its
    duration is the difference of the times, at least 0 and at most the largest
    [i64]. *)
Theorem conversion_total cv rs w clock :
  cv_conventions cv = default_conventions →
  ∃ spans, convert_resource_spans_with workspace_text parse_uuid cv rs w clock = Ok spans
  ∧ each_identified w (default "unknown" (extract_resource_string (rs_resource rs) "service.name"))
      (default "" (extract_resource_string (rs_resource rs) "deployment.environment"))
      (concat (rs_scope_spans rs)) spans.
Proof.
  intros Hcv. unfold convert_resource_spans_with. set (sn := default "unknown" _). set (env := default "" _).
  assert (Hgen : ∀ scopes acc os, each_identified w sn env os acc → ∃ spans,
    ofold (λ spans scope, ofold (λ spans o, span ← convert_span workspace_text parse_uuid cv o sn env w (clock (length spans));
                                 mret (spans ++ [span])) spans scope) acc scopes = Ok spans
    ∧ each_identified w sn env (os ++ concat scopes) spans).
  { induction scopes as [|scope scopes IH]; cbn [ofold concat]; intros acc os Hacc.
    - exists acc. by rewrite app_nil_r.
    - destruct (scope_fold cv sn env w clock scope acc os Hcv Hacc) as (acc' & Hscope & Hacc').
      rewrite Hscope. destruct (IH acc' (os ++ scope) Hacc') as (spans & Hfold & Hall).
      exists spans. split; [exact Hfold|]. by rewrite <-app_assoc in Hall. }
  apply (Hgen (rs_scope_spans rs) [] []). constructor.
Qed.
End Request.

(** ** Sample requests *)

Import Otlp.Sample SpanType.SpanTypeSample.

(** Workspaces are their text. *)
Definition sample_span (prompt : string) : OtlpSpan (F := Z) :=
  mkOtlpSpan [1; 2] [3] [0; 0] "chat" 3 1000 5000
    [mkKeyValue "llm.input" (Some (StringValue prompt)); mkKeyValue "llm.model" (Some (StringValue "m1"))]
    [mkEvent "gen_ai.content.completion" 2000 [mkKeyValue "content" (Some (StringValue (prompt +:+ "!")))];
     mkEvent "exception" 3000 []]
    [] (Some (mkOtlpStatus 2 "failed")).

Definition opted_out : OtlpConverter (F := Z) (W := string) := with_capture_enabled converter_new false.

Lemma capture_off_hides_content_witness :
  cv_capture_policy opted_out "w1" = false ∧ span_sim (sample_span "secret") (sample_span "other") ∧
  convert_span id Some opted_out (sample_span "secret") "svc" "prod" "w1" 9 =
  convert_span id Some opted_out (sample_span "other") "svc" "prod" "w1" 9.
Proof.
  split; [reflexivity|]. split; [split; try reflexivity; repeat constructor; done|].
  apply (capture_off_hides_content id Some (λ _, eq_refl) opted_out); [reflexivity|reflexivity|].
  split; try reflexivity; repeat constructor; done.
Defined.

Definition message_span : OtlpSpan (F := Z) :=
  mkOtlpSpan [1] [2] [] "chat" 3 0 0
    [mkKeyValue "gen_ai.prompt" (Some (StringValue "hidden"));
     mkKeyValue "gen_ai.input.messages" (Some (StringValue "shown"))] [] [] None.

Lemma stored_attributes_exact_witness :
  ∃ span, convert_span id Some opted_out message_span "svc" "prod" "w1" 9 = Ok span ∧
  sp_attributes span = "{" +:+ str_text "gen_ai.input.messages" +:+ ":" +:+ str_text "shown" +:+ "}".
Proof.
  destruct (convert_span_ok id Some opted_out message_span "svc" "prod" "w1" 9) as [span Hspan].
  exists span. split; [exact Hspan|].
  destruct (stored_attributes_exact id Some (λ _, eq_refl) opted_out message_span "svc" "prod" "w1" 9 span eq_refl Hspan)
    as [-> _]. vm_compute. reflexivity.
Defined.

Lemma conversion_total_witness :
  ∃ spans, convert_resource_spans_with id Some opted_out
    (mkResourceSpans (Some [mkKeyValue "service.name" (Some (StringValue "svc"))]) [[sample_span "a"]; []; [message_span]])
    "w1" (λ i, Z.of_nat i) = Ok spans ∧
  each_identified id "w1" "svc" "" [sample_span "a"; message_span] spans.
Proof.
  exact (conversion_total id Some opted_out
    (mkResourceSpans (Some [mkKeyValue "service.name" (Some (StringValue "svc"))]) [[sample_span "a"]; []; [message_span]])
    "w1" (λ i, Z.of_nat i) eq_refl).
Defined.
