(* ===== verification/SignalConverters.v ===== *)
(** The other OTLP converters: [api-optel/src/logs_converter.rs],
    [metrics_converter.rs] and [score_extractor.rs].

    The workspace is its text; the uuid and the time each record is stamped with
    are arguments. *)

From stdpp Require Import base gmap list sorting strings pretty.
From Stdlib Require Import Ascii.
From S2P Require Import Prelude Models Otlp SpanEvents.

(** [str::trim]. *)
Class Trim := trim : string → string.

Section Signals.
Context {F : Type} `{Float F} `{SerdeJson F} `{Hex} `{Trim}.
Implicit Types (attrs : list (KeyValue F)).

(** The first attribute with the key, when it is a string. *)
Definition extract_string_attr attrs (key : string) : option string :=
  kv ← find_map (λ kv, if bool_decide (kv_key kv = key) then Some kv else None) attrs;
  match kv_value kv with Some (StringValue s) => Some s | _ => None end.

(** ** Logs *)

(** [logs::v1::LogRecord]: what the code reads of it. *)
Record OtlpLogRecord := mkOtlpLogRecord {
  ol_time_unix_nano : Z;
  ol_severity_number : Z;
  ol_severity_text : string;
  ol_body : option (AnyValue F);
  ol_attributes : list (KeyValue F);
  ol_trace_id : list Z;
  ol_span_id : list Z;
}.

(** [ResourceLogs]: the resource's attributes, the records of each scope. *)
Record ResourceLogs := mkResourceLogs {
  rl_resource : option (list (KeyValue F));
  rl_scope_logs : list (list OtlpLogRecord);
}.

Definition severity_number_to_text (n : Z) : string :=
  if (1 <=? n) && (n <=? 4) then "TRACE"
  else if (5 <=? n) && (n <=? 8) then "DEBUG"
  else if (9 <=? n) && (n <=? 12) then "INFO"
  else if (13 <=? n) && (n <=? 16) then "WARN"
  else if (17 <=? n) && (n <=? 20) then "ERROR"
  else if (21 <=? n) && (n <=? 24) then "FATAL"
  else "INFO".

(** The text of a scalar value, the empty string of any other. *)
Definition get_string_value (value : AnyValue F) : string :=
  match value with
  | StringValue s => s
  | IntValue i => pretty i
  | DoubleValue d => f_to_string d
  | BoolValue b => if b then "true" else "false"
  | _ => ""
  end.

Definition hex_or_empty (bytes : list Z) : string :=
  match bytes with [] => "" | _ => hex_encode bytes end.

Definition convert_log_record (log : OtlpLogRecord) (service_name agent_name resource_json : string)
    (id : string) (now_ns : Z) (workspace_id : string) : LogRecord :=
  let timestamp := if 0 <? ol_time_unix_nano log then i64_wrap (ol_time_unix_nano log) else now_ns in
  let severity := if decide (ol_severity_text log = "") then severity_number_to_text (ol_severity_number log)
                  else ol_severity_text log in
  let message := default "" (get_string_value <$> ol_body log) in
  let trace_id := hex_or_empty (ol_trace_id log) in
  let span_id := hex_or_empty (ol_span_id log) in
  let user_id := default "" (extract_string_attr (ol_attributes log) "user.id") in
  let session_id := default "" (extract_string_attr (ol_attributes log) "session.id") in
  let attributes_json := attrs_to_json (ol_attributes log) in
  mkLogRecord id timestamp workspace_id trace_id span_id severity service_name message attributes_json
    resource_json agent_name session_id user_id now_ns.

(** [OtlpLogsConverter::convert]; [stamp i] is the id and the time of the
    [i]-th record. *)
Definition convert_logs (request : list ResourceLogs) (workspace_id : string) (stamp : nat → string * Z) :
    list LogRecord :=
  foldl (λ out resource_logs,
    let resource_attrs := default [] (rl_resource resource_logs) in
    let service_name := default "unknown" (extract_string_attr resource_attrs "service.name") in
    let agent_name := default "" (extract_string_attr resource_attrs "agent.name") in
    let resource_json := attrs_to_json resource_attrs in
    foldl (λ out scope,
      foldl (λ out log_record,
        let '(id, now) := stamp (length out) in
        out ++ [convert_log_record log_record service_name agent_name resource_json id now workspace_id])
        out scope) out (rl_scope_logs resource_logs)) [] request.

(** ** Metrics *)

Inductive NumberValue := AsDouble (d : F) | AsInt (i : Z).

Record NumberDataPoint := mkNumberDataPoint {
  nd_time : Z;
  nd_value : option NumberValue;
  nd_attributes : list (KeyValue F);
}.

(** A point of a histogram or of an exponential histogram. *)
Record HistogramDataPoint := mkHistogramDataPoint {
  hd_time : Z;
  hd_count : Z;
  hd_sum : option F;
  hd_min : option F;
  hd_max : option F;
  hd_attributes : list (KeyValue F);
}.

Record SummaryDataPoint := mkSummaryDataPoint {
  sd_time : Z;
  sd_count : Z;
  sd_sum : F;
  sd_attributes : list (KeyValue F);
}.

Inductive MetricData :=
| GaugeData (points : list NumberDataPoint)
| SumData (points : list NumberDataPoint)
| HistogramData (points : list HistogramDataPoint)
| SummaryData (points : list SummaryDataPoint)
| ExponentialHistogramData (points : list HistogramDataPoint).

(** [metrics::v1::Metric] and [ResourceMetrics]. *)
Record OtlpMetric := mkOtlpMetric {
  om_name : string;
  om_data : option MetricData;
}.
Record ResourceMetrics := mkResourceMetrics {
  rm_resource : option (list (KeyValue F));
  rm_scope_metrics : list (list OtlpMetric);
}.

(** The module's own [attrs_to_json]: arrays, maps and bytes become [null], and
    so does a value that is not set. *)
Definition label_value (v : AnyValue F) : Json F :=
  match v with
  | StringValue s => JString s
  | IntValue i => JInt i
  | DoubleValue d => json_number d
  | BoolValue b => JBool b
  | _ => JNull
  end.
Definition labels_to_json attrs : string :=
  to_string (JObject (bt_collect (map (λ kv, (kv_key kv, default JNull (label_value <$> kv_value kv))) attrs))).

Section Points.
Context (metric_name service_name agent_name workspace_id : string).

Definition number_dp_to_metric (metric_type : string) (dp : NumberDataPoint) : Metric F :=
  let value := match nd_value dp with
               | Some (AsDouble d) => d
               | Some (AsInt i) => f_of_Z i
               | None => f_zero
               end in
  mkMetric metric_name metric_type (i64_wrap (nd_time dp)) workspace_id value 1 value value value
    service_name agent_name (default "" (extract_string_attr (nd_attributes dp) "user.id"))
    (default "" (extract_string_attr (nd_attributes dp) "session.id")) (labels_to_json (nd_attributes dp)).

Definition histogram_dp_to_metric (dp : HistogramDataPoint) : Metric F :=
  let sum := default f_zero (hd_sum dp) in
  mkMetric metric_name "HISTOGRAM" (i64_wrap (hd_time dp)) workspace_id
    (if 0 <? hd_count dp then f_div sum (f_of_Z (hd_count dp)) else f_zero)
    (i64_wrap (hd_count dp)) sum (default f_zero (hd_min dp)) (default f_zero (hd_max dp))
    service_name agent_name (default "" (extract_string_attr (hd_attributes dp) "user.id"))
    (default "" (extract_string_attr (hd_attributes dp) "session.id")) (labels_to_json (hd_attributes dp)).

Definition exponential_dp_to_metric (dp : HistogramDataPoint) : Metric F :=
  mkMetric metric_name "HISTOGRAM" (i64_wrap (hd_time dp)) workspace_id
    (default f_zero (hd_sum dp)) (i64_wrap (hd_count dp)) (default f_zero (hd_sum dp))
    (default f_zero (hd_min dp)) (default f_zero (hd_max dp))
    service_name agent_name (default "" (extract_string_attr (hd_attributes dp) "user.id"))
    (default "" (extract_string_attr (hd_attributes dp) "session.id")) (labels_to_json (hd_attributes dp)).

Definition summary_dp_to_metric (dp : SummaryDataPoint) : Metric F :=
  mkMetric metric_name "SUMMARY" (i64_wrap (sd_time dp)) workspace_id
    (if 0 <? sd_count dp then f_div (sd_sum dp) (f_of_Z (sd_count dp)) else f_zero)
    (i64_wrap (sd_count dp)) (sd_sum dp) f_zero f_zero
    service_name agent_name (default "" (extract_string_attr (sd_attributes dp) "user.id"))
    (default "" (extract_string_attr (sd_attributes dp) "session.id")) (labels_to_json (sd_attributes dp)).

(** The [match] on a metric's data: the records pushed. *)
Definition data_metrics (data : option MetricData) : list (Metric F) :=
  match data with
  | Some (GaugeData points) => map (number_dp_to_metric "GAUGE") points
  | Some (SumData points) => map (number_dp_to_metric "COUNTER") points
  | Some (HistogramData points) => map histogram_dp_to_metric points
  | Some (SummaryData points) => map summary_dp_to_metric points
  | Some (ExponentialHistogramData points) => map exponential_dp_to_metric points
  | None => []
  end.
End Points.

(** [OtlpMetricsConverter::convert]. *)
Definition convert_metrics (request : list ResourceMetrics) (workspace_id : string) : list (Metric F) :=
  foldl (λ out resource_metrics,
    let attrs := default [] (rm_resource resource_metrics) in
    let service_name := default "unknown" (extract_string_attr attrs "service.name") in
    let agent_name := default "" (extract_string_attr attrs "agent.name") in
    foldl (λ out scope,
      foldl (λ out metric,
        out ++ data_metrics (om_name metric) service_name agent_name workspace_id (om_data metric))
        out scope) out (rm_scope_metrics resource_metrics)) [] request.

(** ** Evaluation scores *)

Definition SCORE_ATTRIBUTE_PREFIX : string := "score.".

Definition get_double_value (value : AnyValue F) : F :=
  match value with
  | DoubleValue d => d
  | IntValue i => f_of_Z i
  | StringValue s => default f_zero (f_parse s)
  | _ => f_zero
  end.

(** [str::split(',')]. *)
Fixpoint split_commas (s : string) : list string :=
  match s with
  | EmptyString => [""]
  | String c rest =>
      if Ascii.eqb c ","%char then "" :: split_commas rest
      else match split_commas rest with
           | first :: more => String c first :: more
           | [] => [String c ""]
           end
  end.

(** [from_str::<Vec<String>>]: an array of strings. *)
Definition string_items (j : Json F) : option (list string) :=
  match j with
  | JArray items => mapM (λ item, match item with JString s => Some s | _ => None end) items
  | _ => None
  end.

Definition nonempty_trimmed (skills : list string) : list string :=
  filter (λ skill, skill ≠ "") (map trim skills).

Definition parse_skill_string (value : string) : list string :=
  let trimmed := trim value in
  if decide (trimmed = "") then []
  else match from_str trimmed ≫= string_items with
       | Some parsed => nonempty_trimmed parsed
       | None => nonempty_trimmed (split_commas trimmed)
       end.

Fixpoint get_skill_values (value : AnyValue F) : list string :=
  match value with
  | StringValue s => parse_skill_string s
  | ArrayValue values => concat (map get_skill_values values)
  | _ => let value := get_string_value value in if decide (value = "") then [] else [value]
  end.

Definition merge_skills_into_metadata (metadata : string) (skills : list string) : string :=
  let object := match from_str metadata with Some (JObject m) => m | _ => [] end in
  to_string (JObject (bt_insert "skills" (JArray (map JString skills)) object)).

(** The loop's variables. *)
Record ScoreState := mkScoreState {
  ss_score : EvaluationScore F;
  ss_has_score_attrs : bool;
  ss_has_required_fields : bool;
  ss_skills : list string;
}.

Definition set_score (st : ScoreState) (score : EvaluationScore F) : ScoreState :=
  mkScoreState score (ss_has_score_attrs st) (ss_has_required_fields st) (ss_skills st).

(** The fields that take a string. *)
Definition assign_string (field : string) (v : string) (s : EvaluationScore F) : EvaluationScore F :=
  if decide (field = "id") then s <| ev_id := v |>
  else if decide (field = "span_id") then s <| ev_span_id := v |>
  else if decide (field = "session_id") then s <| ev_session_id := v |>
  else if decide (field = "dataset_run_id") then s <| ev_dataset_run_id := v |>
  else if decide (field = "name") then s <| ev_name := v |>
  else if decide (field = "data_type") then s <| ev_data_type := v |>
  else if decide (field = "string_value") then s <| ev_string_value := v |>
  else if decide (field = "source") then s <| ev_source := v |>
  else if decide (field = "comment") then s <| ev_comment := v |>
  else if decide (field = "author_user_id") then s <| ev_author_user_id := v |>
  else if decide (field = "config_id") then s <| ev_config_id := v |>
  else if decide (field = "eval_execution_trace_id") then s <| ev_eval_execution_trace_id := v |>
  else if decide (field = "queue_id") then s <| ev_queue_id := v |>
  else if decide (field = "environment") then s <| ev_environment := v |>
  else if decide (field = "service_name") then s <| ev_service_name := v |>
  else if decide (field = "agent_name") then s <| ev_agent_name := v |>
  else if decide (field = "user_id") then s <| ev_user_id := v |>
  else if decide (field = "metadata") then s <| ev_metadata := v |>
  else s.

(** The [match] on the field of a score attribute. *)
Definition score_field (st : ScoreState) (field : string) (value : AnyValue F) : ScoreState :=
  if decide (field = "trace_id") then
    let v := get_string_value value in
    mkScoreState (ss_score st <| ev_trace_id := v |>) (ss_has_score_attrs st)
      (ss_has_required_fields st || negb (bool_decide (v = ""))) (ss_skills st)
  else if decide (field = "value") then set_score st (ss_score st <| ev_value := get_double_value value |>)
  else if bool_decide (field ∈ ["skills"; "agent_skills"; "skill"]) then
    mkScoreState (ss_score st) (ss_has_score_attrs st) (ss_has_required_fields st)
      (ss_skills st ++ get_skill_values value)
  else set_score st (assign_string field (get_string_value value) (ss_score st)).

Definition score_attr (st : ScoreState) (attr : KeyValue F) : ScoreState :=
  if negb (String.prefix SCORE_ATTRIBUTE_PREFIX (kv_key attr)) then st
  else
    let st := mkScoreState (ss_score st) true (ss_has_required_fields st) (ss_skills st) in
    let field := String.substring 6 (String.length (kv_key attr) - 6) (kv_key attr) in
    match kv_value attr with
    | Some NoValue | None => st
    | Some value => score_field st field value
    end.

(** [id] and [new_id] are the uuids of the default and of the fallback. *)
Definition parse_score (log : OtlpLogRecord) (workspace_id : string) (id new_id : string) (now : Z) :
    option (EvaluationScore F) :=
  let score := score_default f_zero id now <| ev_workspace_id := workspace_id |> in
  let st := foldl score_attr (mkScoreState score false false []) (ol_attributes log) in
  let score := match ss_skills st with
               | [] => ss_score st
               | skills => ss_score st
                   <| ev_metadata := merge_skills_into_metadata (ev_metadata (ss_score st)) skills |>
               end in
  let score := score <| ev_timestamp := i64_wrap (ol_time_unix_nano log) |> <| ev_created_at := now |>
                     <| ev_updated_at := now |> <| ev_event_ts := now |> in
  let score := if decide (ev_id score = "") then score <| ev_id := "eval_" +:+ new_id |> else score in
  if ss_has_score_attrs st && ss_has_required_fields st && negb (bool_decide (ev_name score = ""))
  then Some score else None.

(** [extract_scores]; [stamp i] are the uuids and the time of the [i]-th record. *)
Definition extract_scores (request : list ResourceLogs) (workspace_id : string)
    (stamp : nat → string * string * Z) : list (EvaluationScore F) :=
  omap (λ ir, let '(id, new_id, now) := stamp ir.1 in parse_score ir.2 workspace_id id new_id now)
    (imap pair (concat (map (λ rl, concat (rl_scope_logs rl)) request))).

(** ** One record per log record and per data point *)

Lemma foldl_ext {A B} (f g : A → B → A) acc l : (∀ a x, f a x = g a x) → foldl f acc l = foldl g acc l.
Proof. intros Hfg. revert acc. induction l as [|x l IH]; cbn; intros acc; [done|]. by rewrite Hfg, IH. Qed.

Lemma foldl_stamped {A B} (f : nat → A → B) acc l :
  foldl (λ out x, out ++ [f (length out) x]) acc l = acc ++ imap (λ i x, f (length acc + i)%nat x) l.
Proof.
  revert acc. induction l as [|x l IH]; cbn [foldl]; intros acc; [by rewrite app_nil_r|].
  rewrite IH, <-app_assoc. cbn [imap]. rewrite Nat.add_0_r. f_equal. cbn. f_equal.
  apply imap_ext. intros i y _. rewrite length_app; cbn. f_equal. lia.
Qed.

Lemma foldl_stamped_scopes {A B} (f : nat → A → B) acc (ls : list (list A)) :
  foldl (λ out l, foldl (λ out x, out ++ [f (length out) x]) out l) acc ls =
  acc ++ imap (λ i x, f (length acc + i)%nat x) (concat ls).
Proof.
  revert acc. induction ls as [|l ls IH]; cbn [foldl concat]; intros acc; [by rewrite app_nil_r|].
  rewrite IH, foldl_stamped, <-app_assoc. f_equal. rewrite imap_app. f_equal.
  apply imap_ext. intros i y _. unfold compose. rewrite length_app, length_imap. f_equal. lia.
Qed.

(** The records with the attributes of their resource, in order. *)
Definition flat_logs (request : list ResourceLogs) : list (list (KeyValue F) * OtlpLogRecord) :=
  concat (map (λ rl, map (pair (default [] (rl_resource rl))) (concat (rl_scope_logs rl))) request).

Definition log_of (workspace_id : string) (stamped : string * Z) (source : list (KeyValue F) * OtlpLogRecord) : LogRecord :=
  convert_log_record source.2 (default "unknown" (extract_string_attr source.1 "service.name"))
    (default "" (extract_string_attr source.1 "agent.name")) (attrs_to_json source.1) stamped.1 stamped.2 workspace_id.

(** A logs request converts to one record per log record, in order, the
    [i]-th with the [i]-th id and time, its resource's service, agent and
    attributes and the request's workspace. *)
Theorem logs_converted_in_order request workspace_id stamp :
  convert_logs request workspace_id stamp =
  imap (λ i source, log_of workspace_id (stamp i) source) (flat_logs request).
Proof.
  unfold convert_logs.
  match goal with |- foldl ?step _ _ = _ =>
    cut (∀ acc, foldl step acc request =
           acc ++ imap (λ i source, log_of workspace_id (stamp (length acc + i)%nat) source) (flat_logs request))
  end; [intros Hgen; apply (Hgen [])|].
  induction request as [|rl request IH]; cbn [foldl]; intros acc; [by rewrite app_nil_r|].
  set (attrs := default [] (rl_resource rl)).
  assert (Hrl : foldl (λ out scope, foldl (λ out log_record,
      let '(id, now) := stamp (length out) in
      out ++ [convert_log_record log_record (default "unknown" (extract_string_attr attrs "service.name"))
        (default "" (extract_string_attr attrs "agent.name")) (attrs_to_json attrs) id now workspace_id]) out scope)
      acc (rl_scope_logs rl) =
    acc ++ imap (λ i source, log_of workspace_id (stamp (length acc + i)%nat) source) (map (pair attrs) (concat (rl_scope_logs rl)))).
  { rewrite imap_fmap. rewrite <-(foldl_stamped_scopes (λ i log, log_of workspace_id (stamp i) (attrs, log))).
    apply foldl_ext. intros out scope. apply foldl_ext. intros out' log.
    unfold log_of; cbn. by destruct (stamp (length out')). }
  rewrite Hrl, IH, <-app_assoc. f_equal.
  change (flat_logs (rl :: request)) with (map (pair attrs) (concat (rl_scope_logs rl)) ++ flat_logs request).
  rewrite imap_app. f_equal. apply imap_ext. intros i y _. unfold compose.
  rewrite length_app, length_imap. do 2 f_equal. lia.
Qed.

Definition point_count (data : option MetricData) : nat :=
  match data with
  | Some (GaugeData points) | Some (SumData points) => length points
  | Some (HistogramData points) | Some (ExponentialHistogramData points) => length points
  | Some (SummaryData points) => length points
  | None => 0%nat
  end.

Lemma foldl_app_map {A B} (f : A → list B) acc l : foldl (λ out x, out ++ f x) acc l = acc ++ concat (map f l).
Proof.
  revert acc. induction l as [|x l IH]; cbn; intros acc; [by rewrite app_nil_r|]. by rewrite IH, <-app_assoc.
Qed.

(** The metrics of a request with the attributes of their resource, in order. *)
Definition flat_metrics (request : list ResourceMetrics) : list (list (KeyValue F) * OtlpMetric) :=
  concat (map (λ rm, map (pair (default [] (rm_resource rm))) (concat (rm_scope_metrics rm))) request).

Definition metrics_of (workspace_id : string) (source : list (KeyValue F) * OtlpMetric) : list (Metric F) :=
  data_metrics (om_name source.2) (default "unknown" (extract_string_attr source.1 "service.name"))
    (default "" (extract_string_attr source.1 "agent.name")) workspace_id (om_data source.2).

Lemma convert_metrics_flat request workspace_id :
  convert_metrics request workspace_id = concat (map (metrics_of workspace_id) (flat_metrics request)).
Proof.
  unfold convert_metrics. rewrite <-(app_nil_l (concat _)). generalize (@nil (Metric F)).
  induction request as [|rm request IH]; cbn [foldl]; intros acc; [by rewrite app_nil_r|].
  rewrite IH. unfold flat_metrics. cbn [map concat]. rewrite map_app, concat_app, app_assoc. f_equal.
  set (attrs := default [] (rm_resource rm)). rewrite map_map.
  generalize (rm_scope_metrics rm) as scopes. intros scopes. revert acc.
  induction scopes as [|scope scopes IHs]; cbn [foldl concat map]; intros acc; [by rewrite app_nil_r|].
  rewrite IHs, foldl_app_map, map_app, concat_app, app_assoc. done.
Qed.

Lemma concat_lengths {A B} (f : A → list B) (g : A → nat) l :
  (∀ x, length (f x) = g x) → length (concat (map f l)) = sum_list (map g l).
Proof. intros Hfg. induction l as [|x l IH]; cbn; [done|]. by rewrite length_app, IH, Hfg. Qed.

(** A metrics request converts to one record per data point, metric by
    metric, each in the request's workspace with its metric's name; a point with
    a count and a sum has their quotient as its value when it belongs to a
    histogram, but the sum itself when it belongs to an exponential histogram. *)
Theorem metrics_converted request workspace_id :
  let out := convert_metrics request workspace_id in
  out = concat (map (metrics_of workspace_id) (flat_metrics request)) ∧
  length out = sum_list (map (λ source, point_count (om_data source.2)) (flat_metrics request)) ∧
  Forall (λ m, mt_workspace_id m = workspace_id) out ∧
  ∀ name service agent dp s, 0 < hd_count dp → hd_sum dp = Some s →
    mt_value (histogram_dp_to_metric name service agent workspace_id dp) = f_div s (f_of_Z (hd_count dp)) ∧
    mt_value (exponential_dp_to_metric name service agent workspace_id dp) = s.
Proof.
  cbn zeta. rewrite convert_metrics_flat. split_and!; [done|..].
  - apply concat_lengths. intros [attrs m]. unfold metrics_of, point_count; cbn.
    destruct (om_data m) as [[]|]; cbn; by rewrite ?length_map.
  - apply Forall_concat, Forall_fmap, Forall_forall. intros [attrs m] _. cbn. unfold metrics_of; cbn.
    destruct (om_data m) as [[]|]; cbn; [..|constructor]; apply Forall_fmap, Forall_forall; by intros [].
  - intros name service agent dp s Hc Hs. cbn. rewrite Hs. destruct (0 <? hd_count dp) eqn:Hc'; [done|lia].
Qed.

(** ** Scores *)

Lemma substring_whole s : String.substring 0 (String.length s) s = s.
Proof. induction s as [|c s IH]; cbn; [done|]. by rewrite IH. Qed.

Lemma prefix_split p key :
  String.prefix p key = true → key = p +:+ String.substring (String.length p) (String.length key - String.length p) key.
Proof.
  revert key. induction p as [|c p IH]; intros key Hp.
  - cbn [String.length]. rewrite Nat.sub_0_r, substring_whole. done.
  - destruct key as [|c' key]; [done|]. simpl in Hp. destruct (ascii_dec c c') as [<-|]; [|done].
    change (String c key = String c (p +:+ String.substring (String.length p) (String.length key - String.length p) key)).
    f_equal. by apply IH.
Qed.

Lemma score_key_split key :
  String.prefix SCORE_ATTRIBUTE_PREFIX key = true →
  key = SCORE_ATTRIBUTE_PREFIX +:+ String.substring 6 (String.length key - 6) key.
Proof.
  apply (prefix_split SCORE_ATTRIBUTE_PREFIX).
Qed.

Lemma assign_string_keeps field v (s : EvaluationScore F) :
  ev_workspace_id (assign_string field v s) = ev_workspace_id s ∧ ev_trace_id (assign_string field v s) = ev_trace_id s.
Proof. unfold assign_string. by repeat case_decide. Qed.

(** What the loop keeps true; with [seen], the keys read so far. *)
Definition score_inv (workspace_id : string) (seen : list string) (st : ScoreState) : Prop :=
  ev_workspace_id (ss_score st) = workspace_id ∧
  (ss_has_required_fields st = true → "score.trace_id" ∈ seen ∧ (NoDup seen → ev_trace_id (ss_score st) ≠ "")).

Lemma score_field_inv workspace_id seen st field value :
  score_inv workspace_id seen st → score_inv workspace_id (seen ++ ["score." +:+ field]) (score_field st field value).
Proof.
  intros [Hw Hreq]. unfold score_field, score_inv.
  assert (Hsame : ∀ st', ss_has_required_fields st' = ss_has_required_fields st →
    ev_trace_id (ss_score st') = ev_trace_id (ss_score st) →
    ss_has_required_fields st' = true → "score.trace_id" ∈ seen ++ ["score." +:+ field] ∧
      (NoDup (seen ++ ["score." +:+ field]) → ev_trace_id (ss_score st') ≠ "")).
  { intros st' -> -> Hr. destruct (Hreq Hr) as [Hin Hne]. split; [set_solver|].
    intros (Hnd & _ & _)%NoDup_app. auto. }
  destruct (decide (field = "trace_id")) as [->|]; [|destruct (decide (field = "value")); [|case_bool_decide]].
  - split; [done|]. intros Hr. split; [set_solver|].
    intros (_ & Hdis & _)%NoDup_app. cbn in Hr |- *. destruct (ss_has_required_fields st) eqn:Hold.
    + destruct (Hreq eq_refl) as [Hin _]. destruct (Hdis _ Hin). by left.
    + cbn in Hr. by apply negb_true_iff, bool_decide_eq_false in Hr.
  - split; [exact Hw|]. by apply Hsame.
  - split; [exact Hw|]. by apply Hsame.
  - destruct (assign_string_keeps field (get_string_value value) (ss_score st)) as [Hws Htr].
    split; [cbn; congruence|]. by apply Hsame.
Qed.

Lemma score_inv_more workspace_id seen key st :
  score_inv workspace_id seen st → score_inv workspace_id (seen ++ [key]) st.
Proof.
  intros [Hw Hreq]. split; [done|]. intros Hr. destruct (Hreq Hr) as [Hin Hne]. split; [set_solver|].
  intros (Hnd & _ & _)%NoDup_app. auto.
Qed.

Lemma score_attr_inv workspace_id seen st attr :
  score_inv workspace_id seen st → score_inv workspace_id (seen ++ [kv_key attr]) (score_attr st attr).
Proof.
  intros Hst. unfold score_attr. destruct (String.prefix SCORE_ATTRIBUTE_PREFIX (kv_key attr)) eqn:Hp; cbn [negb];
    [|by apply score_inv_more].
  apply score_key_split in Hp.
  assert (Hmark : score_inv workspace_id seen (mkScoreState (ss_score st) true (ss_has_required_fields st) (ss_skills st)))
    by exact Hst.
  destruct (kv_value attr) as [[]|]; try by apply score_inv_more.
  all: rewrite Hp at 1; by apply score_field_inv.
Qed.

Lemma score_loop_inv workspace_id seen attrs st :
  score_inv workspace_id seen st → score_inv workspace_id (seen ++ map kv_key attrs) (foldl score_attr st attrs).
Proof.
  revert seen st. induction attrs as [|attr attrs IH]; cbn [foldl map]; intros seen st Hst; [by rewrite app_nil_r|].
  replace (seen ++ kv_key attr :: map kv_key attrs) with ((seen ++ [kv_key attr]) ++ map kv_key attrs)
    by by rewrite <-app_assoc.
  by apply IH, score_attr_inv.
Qed.

(** A score extracted from a log record is in the request's workspace,
    whatever the record's attributes say; it has an id and a name, the times of
    the record and of the clock, and a trace id as long as no attribute key is
    given twice. *)
Theorem scores_identified log workspace_id id new_id now score :
  parse_score log workspace_id id new_id now = Some score →
  ev_workspace_id score = workspace_id ∧ ev_id score ≠ "" ∧ ev_name score ≠ "" ∧
  ev_timestamp score = i64_wrap (ol_time_unix_nano log) ∧ ev_created_at score = now ∧
  (NoDup (map kv_key (ol_attributes log)) → ev_trace_id score ≠ "").
Proof.
  unfold parse_score.
  set (start := mkScoreState (score_default f_zero id now <| ev_workspace_id := workspace_id |>) false false []).
  assert (Hloop : score_inv workspace_id ([] ++ map kv_key (ol_attributes log)) (foldl score_attr start (ol_attributes log)))
    by (apply score_loop_inv; by split).
  destruct (foldl score_attr start (ol_attributes log)) as [s has_attrs has_required skills].
  destruct Hloop as [Hw Hreq]; cbn [ss_score ss_has_required_fields ss_has_score_attrs ss_skills] in *.
  set (merged := match skills with [] => s | _ => _ end).
  assert (Hm : ev_workspace_id merged = workspace_id ∧ ev_trace_id merged = ev_trace_id s) by (by destruct skills).
  clearbody merged. cbn zeta.
  destruct has_attrs, has_required; cbn [andb]; try discriminate. destruct (Hreq eq_refl) as [_ Hne].
  destruct Hm as [Hmw Hmt].
  case_decide as Hid; case_bool_decide as Hname; cbn [negb]; try discriminate; intros [= <-]; split_and!;
    try done; cbn in *; intros; rewrite ?Hmt; auto.
Qed.
End Signals.

(** ** Sample records *)

Import Otlp.Sample.

(** Trimming blanks, to evaluate the model. *)
Fixpoint trim_left (s : string) : string :=
  match s with
  | String c rest => if Ascii.eqb c " "%char then trim_left rest else s
  | EmptyString => EmptyString
  end.
#[export] Instance sample_trim : Trim := λ s, String.rev (trim_left (String.rev (trim_left s))).

Definition sample_score (attrs : list (KeyValue Z)) : OtlpLogRecord (F := Z) :=
  mkOtlpLogRecord 5 9 "" (Some (StringValue "scored")) attrs [1] [2].
Definition score_attrs : list (KeyValue Z) :=
  [mkKeyValue "score.trace_id" (Some (StringValue "t1")); mkKeyValue "score.name" (Some (StringValue "quality"));
   mkKeyValue "score.workspace_id" (Some (StringValue "other")); mkKeyValue "score.value" (Some (IntValue 3));
   mkKeyValue "score.skills" (Some (StringValue "a, b"))].

Lemma scores_identified_witness :
  ∃ score, parse_score (sample_score score_attrs) "w1" "u1" "u2" 7 = Some score ∧
  ev_workspace_id score = "w1" ∧ ev_id score ≠ "" ∧ ev_trace_id score ≠ "" ∧ ev_value score = 3 ∧
  ev_metadata score = "{" +:+ str_text "skills" +:+ ":[" +:+ str_text "a" +:+ "," +:+ str_text "b" +:+ "]}".
Proof.
  destruct (parse_score (sample_score score_attrs) "w1" "u1" "u2" 7) as [score|] eqn:Hscore;
    [|exfalso; vm_compute in Hscore; discriminate].
  exists score. destruct (scores_identified _ _ _ _ _ _ Hscore) as (Hw & Hid & _ & _ & _ & Htrace).
  split_and!; [done|exact Hw|exact Hid| | |].
  - apply Htrace. apply (bool_decide_unpack _). vm_compute. exact I.
  - vm_compute in Hscore. by injection Hscore as <-.
  - vm_compute in Hscore. by injection Hscore as <-.
Defined.

(** A record that gives [score.trace_id] twice, the second time empty, is
    stored as a score of no trace. *)
Theorem repeated_trace_id_empties :
  ∃ score, parse_score (sample_score (score_attrs ++ [mkKeyValue "score.trace_id" (Some (StringValue ""))])) "w1" "u1" "u2" 7
           = Some score ∧ ev_trace_id score = "".
Proof. eexists. split; [vm_compute; reflexivity|reflexivity]. Qed.
