(* ===== verification/Auth.v ===== *)
(** API-key authentication of the ingest transports:
    [api-optel/src/auth.rs], with the errors of
    [zradar-traits/src/errors.rs], the [Authenticator] of
    [zradar-traits/src/auth.rs] and its implementation over the configuration,
    [zradar-auth-config/src/lib.rs].

    A request is authenticated from its headers before its body is read. The
    failures are logged under a limiter shared by all requests, whose lock-free
    steps are interleaved here as the threads' steps may be. *)

From stdpp Require Import base gmap list strings pretty.
From Stdlib Require Import Ascii.
From S2P Require Import Prelude ParquetWriter Export.

(** ** Errors

    An [anyhow] error is its chain of causes, outermost first. *)

Inductive Cause := AuthUnavailable (reason : string) (retry_after : Z) | OtherCause (message : string).
Abbreviation AuthError := (list Cause).

(** [AuthUnavailable::find]: the first such cause anywhere in the chain. *)
Fixpoint find (error : AuthError) : option (string * Z) :=
  match error with
  | [] => None
  | AuthUnavailable reason retry_after :: _ => Some (reason, retry_after)
  | OtherCause _ :: error => find error
  end.

Definition show_cause (c : Cause) : string :=
  match c with
  | AuthUnavailable reason _ => String.append "credential verification unavailable: " reason
  | OtherCause message => message
  end.

(** [format!("{error:#}")]: the whole chain. *)
Definition show_chain (error : AuthError) : string := String.concat ": " (show_cause <$> error).

(** ** The log limiter

    [LogLimiter::check_at] by its atomic accesses: a load, a compare-exchange,
    and a swap or an addition. A thread is where it stands between them. *)

Record LogLimiter := mkLimiter {
  interval_ms : Z;
  next_allowed_ms : Z;
  suppressed : Z;
}.

Definition limiter_new (interval_ms : Z) : LogLimiter := mkLimiter interval_ms 0 0.

Inductive Thread :=
| AtLoad (now_ms : Z)
| AtExchange (now_ms next : Z)
| AtSwap (now_ms : Z)
| AtAdd (now_ms : Z)
| Logged (now_ms count : Z)
| Suppressed (now_ms : Z).

Definition check_step (l : LogLimiter) (t : Thread) : LogLimiter * Thread :=
  match t with
  | AtLoad now_ms =>
      let next := next_allowed_ms l in
      (l, if next <=? now_ms then AtExchange now_ms next else AtAdd now_ms)
  | AtExchange now_ms next =>
      if next_allowed_ms l =? next
      then (mkLimiter (interval_ms l) (u64_saturating_add now_ms (interval_ms l)) (suppressed l), AtSwap now_ms)
      else (l, AtAdd now_ms)
  | AtSwap now_ms => (mkLimiter (interval_ms l) (next_allowed_ms l) 0, Logged now_ms (suppressed l))
  | AtAdd now_ms =>
      (mkLimiter (interval_ms l) (next_allowed_ms l) (u64_wrap (suppressed l + 1)), Suppressed now_ms)
  | Logged _ _ | Suppressed _ => (l, t)
  end.

(** One call with no other thread in between. *)
Definition check_at (l : LogLimiter) (now_ms : Z) : LogLimiter * option Z :=
  let '(l, t) := check_step l (AtLoad now_ms) in
  let '(l, t) := check_step l t in
  let '(l, t) := check_step l t in
  (l, match t with Logged _ count => Some count | _ => None end).

(** Threads sharing a limiter, stepped in the order of a schedule. *)
Definition limiter_step (s : LogLimiter * list Thread) (i : nat) : LogLimiter * list Thread :=
  match s.2 !! i with
  | Some t => let '(l, t) := check_step s.1 t in (l, <[i := t]> s.2)
  | None => s
  end.

Definition limiter_run (s : LogLimiter * list Thread) (schedule : list nat) : LogLimiter * list Thread :=
  foldl limiter_step s schedule.

(** ** Messages *)

Definition is_continuation (c : Ascii.ascii) : bool :=
  let n := Ascii.nat_of_ascii c in (128 <=? n)%nat && (n <? 192)%nat.

(** [str::get(..n)]: nothing beyond the end or inside a character. *)
Definition get_prefix (n : nat) (s : list Ascii.ascii) : option (list Ascii.ascii) :=
  if (length s <? n)%nat then None
  else match drop n s with
       | c :: _ => if is_continuation c then None else Some (take n s)
       | [] => Some (take n s)
       end.

Definition ellipsis : string := "…".

Definition chars_suffix (token : string) : string :=
  String.append " (" (String.append (pretty (String.length token)) " chars)").

Definition key_prefix (token : string) : string :=
  match get_prefix 4 (String.list_ascii_of_string token) with
  | Some prefix =>
      if (16 <=? String.length token)%nat
      then String.append (String.string_of_list_ascii prefix) (String.append ellipsis (chars_suffix token))
      else String.append "<redacted>" (chars_suffix token)
  | None => String.append "<redacted>" (chars_suffix token)
  end.

Fixpoint is_prefix (p s : list Ascii.ascii) : bool :=
  match p, s with
  | [], _ => true
  | c :: p, d :: s => bool_decide (c = d) && is_prefix p s
  | _ :: _, [] => false
  end.

(** [str::replace] of a non-empty pattern: its occurrences from the left that do
    not overlap. [skip] counts the characters of an occurrence still to pass. *)
Fixpoint replace (by_ pat : list Ascii.ascii) (skip : nat) (s : list Ascii.ascii) : list Ascii.ascii :=
  match s with
  | [] => []
  | c :: s' =>
      match skip with
      | S skip => replace by_ pat skip s'
      | O => if is_prefix pat s then by_ ++ replace by_ pat (length pat - 1) s'
             else c :: replace by_ pat 0 s'
      end
  end.

(** What precedes the [n]-th character, if there is one. *)
Fixpoint before_char (n : nat) (s : list Ascii.ascii) : option (list Ascii.ascii) :=
  match s with
  | [] => None
  | c :: s =>
      if is_continuation c then cons c <$> before_char n s
      else match n with O => Some [] | S n => cons c <$> before_char n s end
  end.

Definition MAX_LOGGED_ERROR_CHARS : nat := 200.
Definition redacted : list Ascii.ascii := String.list_ascii_of_string "<redacted>".

Definition redact_chars (message token : list Ascii.ascii) : list Ascii.ascii :=
  let message := if (length token <? 8)%nat then message else replace redacted token 0 message in
  match before_char MAX_LOGGED_ERROR_CHARS message with
  | Some cut => cut ++ String.list_ascii_of_string ellipsis
  | None => message
  end.

Definition redact (message token : string) : string :=
  String.string_of_list_ascii
    (redact_chars (String.list_ascii_of_string message) (String.list_ascii_of_string token)).

(** ** Authentication *)

Record RequestContext := mkContext { workspace_id : Z }.

(** [http::HeaderMap]: the first value of a header and, when it is visible
    ASCII, its text. *)
Class Headers (H : Type) := header_get : H → string → option (option string).

Inductive AuthRejection := RejectUnauthenticated (message : string) | RejectUnavailable (retry_after : Z).

#[export] Instance AuthRejection_eq_dec : EqDecision AuthRejection.
Proof. solve_decision. Defined.
#[export] Instance RequestContext_eq_dec : EqDecision RequestContext.
Proof. solve_decision. Defined.

Definition UNAVAILABLE_MESSAGE : string := "API key verification temporarily unavailable".
Definition DEFAULT_AUTH_TIMEOUT : Z := 10 * 1000000000.
Definition AUTH_TIMEOUT_RETRY_AFTER : Z := 5 * 1000000000.
Definition AUTH_LOG_INTERVAL : Z := 10 * 1000.

Definition into_status (r : AuthRejection) : Status :=
  match r with
  | RejectUnauthenticated message => status Unauthenticated message
  | RejectUnavailable retry_after => unavailable UNAVAILABLE_MESSAGE retry_after
  end.

Definition into_http_response (r : AuthRejection) : HttpResponse :=
  match r with
  | RejectUnauthenticated _ => http 401
  | RejectUnavailable retry_after => http_unavailable retry_after
  end.

(** A verification: how long it takes, if it ends at all, and its result. *)
Record Verification := mkVerification {
  v_takes : option Z;
  v_result : outcome AuthError RequestContext;
}.

(** What is awaited under a limit: nothing comes of what never ends. *)
Inductive Awaited (A : Type) := Ready (a : A) | Elapsed | Never.
Arguments Ready {A} _.
Arguments Elapsed {A}.
Arguments Never {A}.

Definition await (limit : option Z) (v : Verification) : Awaited (outcome AuthError RequestContext) :=
  match v_takes v, limit with
  | Some d, Some limit => if d <=? limit then Ready (v_result v) else Elapsed
  | None, Some _ => Elapsed
  | Some _, None => Ready (v_result v)
  | None, None => Never
  end.

Record AuthLogs := mkAuthLogs { INVALID_KEY_LOG : LogLimiter; UNAVAILABLE_LOG : LogLimiter }.

Inductive LogLine :=
| LogInvalidKey (prefix error : string) (suppressed : Z)
| LogUnavailable (reason : string) (suppressed : Z).

Definition log_invalid_key (logs : AuthLogs) (now_ms : Z) (token error : string) : AuthLogs * list LogLine :=
  let '(l, count) := check_at (INVALID_KEY_LOG logs) now_ms in
  (mkAuthLogs l (UNAVAILABLE_LOG logs),
   match count with Some n => [LogInvalidKey (key_prefix token) error n] | None => [] end).

Definition log_unavailable (logs : AuthLogs) (now_ms : Z) (reason : string) : AuthLogs * list LogLine :=
  let '(l, count) := check_at (UNAVAILABLE_LOG logs) now_ms in
  (mkAuthLogs (INVALID_KEY_LOG logs) l, match count with Some n => [LogUnavailable reason n] | None => [] end).

Section Ingest.
Context {H : Type} `{Headers H} `{UuidParser} (show_duration : Z → string).

Record IngestAuth := mkIngestAuth {
  authenticator : option (string → H → Verification);
  allow_test_header_context : bool;
  timeout : option Z;
}.

Definition ingest_auth_new (authenticator : option (string → H → Verification)) (allow : bool) : IngestAuth :=
  mkIngestAuth authenticator allow (Some DEFAULT_AUTH_TIMEOUT).

Definition with_timeout (auth : IngestAuth) (timeout : option Z) : IngestAuth :=
  mkIngestAuth (authenticator auth) (allow_test_header_context auth)
    (t ← timeout; if t =? 0 then None else Some t).

Definition is_enabled (auth : IngestAuth) : bool := bool_decide (is_Some (authenticator auth)).

(** The key of a request. *)
Definition bearer_token (headers : H) : outcome AuthRejection string :=
  value ← ok_or (header_get headers "authorization") (RejectUnauthenticated "Missing authorization header");
  auth_header ← ok_or value (RejectUnauthenticated "Invalid authorization header");
  ok_or (strip_prefix "Bearer " auth_header) (RejectUnauthenticated "Expected: Bearer <api-key>").

(** The workspace a test names in its headers. *)
Definition test_workspace (headers : H) : option Z :=
  value ← header_get headers "x-workspace-id"; s ← value; parse_uuid s.

Definition override_workspace (auth : IngestAuth) (headers : H) (context : RequestContext) : RequestContext :=
  if allow_test_header_context auth
  then match test_workspace headers with Some w => mkContext w | None => context end
  else context.

(** [IngestAuth::authenticate]: nothing when the verification never ends. *)
Definition authenticate (auth : IngestAuth) (headers : H) (now_ms : Z) (logs : AuthLogs) :
    AuthLogs * list LogLine * option (outcome AuthRejection RequestContext) :=
  match authenticator auth with
  | None => (logs, [], Some (Ok (mkContext 0)))
  | Some verify =>
      match bearer_token headers with
      | Err e => (logs, [], Some (Err e))
      | Panic => (logs, [], Some Panic)
      | Ok token =>
          match await (timeout auth) (verify token headers) with
          | Never => (logs, [], None)
          | Elapsed =>
              (log_unavailable logs now_ms
                 (String.append "verification timed out after " (show_duration (default 0 (timeout auth)))),
               Some (Err (RejectUnavailable AUTH_TIMEOUT_RETRY_AFTER)))
          | Ready Panic => (logs, [], Some Panic)
          | Ready (Err error) =>
              match find error with
              | Some (reason, retry_after) =>
                  (log_unavailable logs now_ms (redact reason token), Some (Err (RejectUnavailable retry_after)))
              | None =>
                  (log_invalid_key logs now_ms token (redact (show_chain error) token),
                   Some (Err (RejectUnauthenticated "Invalid API key")))
              end
          | Ready (Ok context) => (logs, [], Some (Ok (override_workspace auth headers context)))
          end
      end
  end.

Definition auth_result (auth : IngestAuth) (headers : H) (now_ms : Z) (logs : AuthLogs) :
    option (outcome AuthRejection RequestContext) := (authenticate auth headers now_ms logs).2.

(** [authenticate_grpc]: the context the layer left in the request's extensions,
    or authentication here. *)
Definition authenticate_grpc (auth : option (string → H → Verification)) (extension : option RequestContext)
    (headers : H) (allow : bool) (timeout : option Z) (now_ms : Z) (logs : AuthLogs) :
    AuthLogs * list LogLine * option (outcome Status RequestContext) :=
  match extension with
  | Some context => (logs, [], Some (Ok context))
  | None =>
      let '(logs, lines, r) := authenticate (with_timeout (ingest_auth_new auth allow) timeout) headers now_ms logs in
      (logs, lines, map_err into_status <$> r)
  end.

(** [IngestAuthService::call]: the inner service is called, with the context in
    its extensions when there is an authenticator, or the status is the answer. *)
Definition auth_service_call {A : Type} (auth : IngestAuth) (headers : H) (now_ms : Z)
    (inner : option RequestContext → AuthLogs → AuthLogs * list LogLine * option (outcome Status A))
    (logs : AuthLogs) : AuthLogs * list LogLine * option (outcome Status A) :=
  if negb (is_enabled auth) then inner None logs
  else
    let '(logs, lines, r) := authenticate auth headers now_ms logs in
    match r with
    | None => (logs, lines, None)
    | Some (Ok context) => let '(logs, lines', a) := inner (Some context) logs in (logs, lines ++ lines', a)
    | Some (Err rejection) => (logs, lines, Some (Err (into_status rejection)))
    | Some Panic => (logs, lines, Some Panic)
    end.

(** *** The authenticator over the configured keys *)

Record ApiKeyConfig := mkApiKey { ak_key : string; ak_workspace_id : Z }.

(** [ConfigAuthenticator::from_config]: of two entries with one key the later
    stays. *)
Definition from_config (api_keys : list ApiKeyConfig) : gmap string RequestContext :=
  foldl (λ keys k, <[ak_key k := mkContext (ak_workspace_id k)]> keys) ∅ api_keys.

Definition config_authenticate (keys : gmap string RequestContext) (token : string) : outcome AuthError RequestContext :=
  ok_or (keys !! token) [OtherCause "Invalid API key"].

(** The default [authenticate_request] of the trait passes the token on; a
    lookup in memory takes no time. *)
Definition config_authenticator (keys : gmap string RequestContext) : string → H → Verification :=
  λ token _, mkVerification (Some 0) (config_authenticate keys token).
End Ingest.
Arguments IngestAuth : clear implicits.

(** [constant_time_eq] and [validate_service_token], over [u8] values. *)
Definition or_of_xors (a b : list Z) : Z := foldl (λ acc xy, Z.lor acc (Z.lxor xy.1 xy.2)) 0 (zip a b).

Definition constant_time_eq (a b : list Z) : bool :=
  if (length a =? length b)%nat then or_of_xors a b =? 0 else false.

Definition validate_service_token (token expected : list Z) : bool := constant_time_eq token expected.

(** ** Lemmas on the limiter *)

(** A thread that took the right to log, with its time. *)
Definition winner (t : Thread) : option Z :=
  match t with AtSwap now_ms | Logged now_ms _ => Some now_ms | _ => None end.
(** A thread that lost it, or never had it. *)
Definition loser (t : Thread) : option Z :=
  match t with AtAdd now_ms | Suppressed now_ms => Some now_ms | _ => None end.
Definition counted (t : Thread) : Z := match t with Suppressed _ => 1 | _ => 0 end.
Definition reported (t : Thread) : Z := match t with Logged _ count => count | _ => 0 end.
Definition started (t : Thread) : Prop := ∃ now_ms, t = AtLoad now_ms.

Fixpoint sum_of (f : Thread → Z) (ts : list Thread) : Z :=
  match ts with [] => 0 | t :: ts => f t + sum_of f ts end.

Lemma sum_of_insert f ts i t u : ts !! i = Some t → sum_of f (<[i := u]> ts) = sum_of f ts - f t + f u.
Proof.
  revert i. induction ts as [|x ts IH]; intros [|i] Hi; [done..| |].
  - injection Hi as ->. cbn. lia.
  - change (<[S i:=u]> (x :: ts)) with (x :: <[i:=u]> ts). cbn [sum_of]. rewrite (IH i Hi). lia.
Qed.

Lemma sum_of_started f ts : (∀ n, f (AtLoad n) = 0) → Forall started ts → sum_of f ts = 0.
Proof. intros Hf. induction 1 as [|x ts [n ->] _ IH]; cbn [sum_of]; [done|]. by rewrite Hf, IH. Qed.

Section Limiter.
Context (interval next0 : Z) (Hinterval : 0 ≤ interval).

(** Times with room for the interval. *)
Definition time_fits (t : Thread) : Prop :=
  match t with
  | AtLoad n | AtExchange n _ | AtSwap n | AtAdd n | Logged n _ | Suppressed n => n + interval ≤ u64_max
  end.

Record limiter_inv (s : LogLimiter * list Thread) : Prop := {
  li_interval : interval_ms s.1 = interval;
  li_fits : Forall time_fits s.2;
  li_next : ∀ i t n, s.2 !! i = Some t → winner t = Some n → n + interval ≤ next_allowed_ms s.1;
  li_loaded : ∀ i now next, s.2 !! i = Some (AtExchange now next) → next ≤ now;
  li_apart : ∀ i j t u n m, i ≠ j → s.2 !! i = Some t → s.2 !! j = Some u →
    winner t = Some n → winner u = Some m → interval ≤ Z.abs (n - m);
  li_none : (∀ i t, s.2 !! i = Some t → winner t = None) →
    next_allowed_ms s.1 = next0 ∧
    (∀ i t n, s.2 !! i = Some t → loser t = Some n → n < next0) ∧
    (∀ i now next, s.2 !! i = Some (AtExchange now next) → next = next0);
}.

Lemma limiter_inv_start ts :
  Forall started ts → Forall time_fits ts → limiter_inv (mkLimiter interval next0 0, ts).
Proof.
  intros Hs Hf. assert (∀ i t, ts !! i = Some t → started t) as Hst by (apply Forall_lookup; exact Hs).
  split; cbn; try done.
  - intros i t n Hi Hw. destruct (Hst i t Hi) as [? ->]. done.
  - intros i now next Hi. by destruct (Hst _ _ Hi).
  - intros i j t u n m _ Hi _ Hw. destruct (Hst i t Hi) as [? ->]. done.
  - intros _. split_and!; [done| |].
    + intros i t n Hi Hl. destruct (Hst i t Hi) as [? ->]. done.
    + intros i now next Hi. by destruct (Hst _ _ Hi).
Qed.

(** Replacing a thread by one that is no more of a winner, under a limiter with
    the same deadline. *)
Lemma limiter_inv_insert l l' ts i t u :
  limiter_inv (l, ts) → ts !! i = Some t → interval_ms l' = interval → next_allowed_ms l' = next_allowed_ms l →
  time_fits u → winner u = winner t →
  (∀ now next, u = AtExchange now next → next ≤ now ∧ next = next_allowed_ms l) →
  (∀ n, loser u = Some n → loser t = Some n ∨ n < next_allowed_ms l ∨ ∃ next, t = AtExchange n next ∧ next_allowed_ms l ≠ next) →
  limiter_inv (l', <[i := u]> ts).
Proof.
  intros [Hint Hfits Hnext Hloaded Hapart Hnone] Hi Hint' Hl Hfu Hw Hex Hlo. cbn in *.
  assert (∀ j v n, <[i := u]> ts !! j = Some v → winner v = Some n → ∃ v', ts !! j = Some v' ∧ winner v' = Some n) as Hwin.
  { intros j v n [[-> [<- _]]|[? ?]]%list_lookup_insert_Some Hv; [exists t; split; congruence|by exists v]. }
  split; cbn; [done|by apply Forall_insert|rewrite Hl|..].
  - intros j v n Hj Hv. destruct (Hwin j v n Hj Hv) as (v' & ? & ?). by eapply Hnext.
  - intros j now next [[-> [-> _]]|[? ?]]%list_lookup_insert_Some; [by apply (Hex now next)|by eapply Hloaded].
  - intros j k v w n m Hjk Hj Hk Hv Hw'.
    destruct (Hwin j v n Hj Hv) as (v' & ? & ?), (Hwin k w m Hk Hw') as (w' & ? & ?). eauto.
  - intros Hno. assert (∀ j v, ts !! j = Some v → winner v = None) as Hno'.
    { intros j v Hj. destruct (decide (j = i)) as [->|Hne].
      - simplify_eq. rewrite <-Hw. apply (Hno i). apply list_lookup_insert_Some. left. split_and!; [done..|].
        by eapply lookup_lt_Some.
      - apply (Hno j). by rewrite list_lookup_insert_ne. }
    destruct (Hnone Hno') as (Hn0 & Hlos & Hexc). rewrite Hl. split_and!; [done|..].
    + intros j v n [[-> [<- _]]|[? ?]]%list_lookup_insert_Some Hv; [|by eapply Hlos].
      destruct (Hlo n Hv) as [Hv'|[Hv'|(next & -> & Hne)]]; [by eapply Hlos|by rewrite <-Hn0|].
      destruct Hne. rewrite Hn0. symmetry. by eapply Hexc.
    + intros j now next [[-> [-> _]]|[? ?]]%list_lookup_insert_Some; [|by eapply Hexc].
      rewrite <-Hn0. by apply (Hex now next).
Qed.

(** Taking the right to log. *)
Lemma limiter_inv_win l ts i now :
  limiter_inv (l, ts) → ts !! i = Some (AtExchange now (next_allowed_ms l)) →
  limiter_inv (mkLimiter interval (u64_saturating_add now interval) (suppressed l), <[i := AtSwap now]> ts).
Proof.
  intros [Hint Hfits Hnext Hloaded Hapart Hnone] Hi. cbn in *.
  assert (now + interval ≤ u64_max) as Hfit by apply (proj1 (Forall_lookup _ _) Hfits i _ Hi).
  pose proof (Hloaded i _ _ Hi) as Hle. unfold u64_saturating_add. rewrite Z.min_l by done.
  split; cbn; [done|by apply Forall_insert|..].
  - intros j v n [[-> [<- _]]|[? Hj]]%list_lookup_insert_Some Hv; [by simplify_eq/=|].
    specialize (Hnext j v n Hj Hv). lia.
  - intros j now' next [[-> [? _]]|[? ?]]%list_lookup_insert_Some; [done|by eapply Hloaded].
  - intros j k v w n m Hjk [[-> [<- _]]|[? Hj]]%list_lookup_insert_Some
      [[-> [<- _]]|[? Hk]]%list_lookup_insert_Some Hv Hw; [done|..|by eapply (Hapart j k)].
    + specialize (Hnext k w m Hk Hw). simplify_eq/=. lia.
    + specialize (Hnext j v n Hj Hv). simplify_eq/=. lia.
  - intros Hno. exfalso. assert (Some now = None) as Hx; [|done].
    apply (Hno i (AtSwap now)). apply list_lookup_insert_Some. left. split_and!; [done..|]. by eapply lookup_lt_Some.
Qed.

Lemma limiter_inv_step s i : limiter_inv s → limiter_inv (limiter_step s i).
Proof.
  destruct s as [l ts]. intros Hinv. unfold limiter_step. cbn [fst snd].
  destruct (ts !! i) as [t|] eqn:Hi; [|done].
  pose proof (proj1 (Forall_lookup _ _) (li_fits _ Hinv) i t Hi) as Hf. pose proof (li_interval _ Hinv) as Hint.
  cbn in Hf, Hint. destruct t as [now|now next|now|now|now n|now]; cbn -[Z.leb Z.eqb].
  - destruct (Z.leb_spec (next_allowed_ms l) now).
    + eapply limiter_inv_insert; try done. intros ? ? [= <- <-]. by split.
    + eapply limiter_inv_insert; try done. intros n [= ->]. auto.
  - destruct (Z.eqb_spec (next_allowed_ms l) next) as [<-|Hne].
    + rewrite Hint. by apply limiter_inv_win.
    + eapply limiter_inv_insert; try done. intros n [= ->]. eauto.
  - eapply limiter_inv_insert; done.
  - eapply limiter_inv_insert; try done. intros n [= ->]. auto.
  - eapply limiter_inv_insert; done.
  - eapply limiter_inv_insert; try done. intros n [= ->]. auto.
Qed.

Lemma limiter_inv_run schedule s : limiter_inv s → limiter_inv (limiter_run s schedule).
Proof. revert s. induction schedule as [|i schedule IH]; intros s Hs; [done|]. apply IH. by apply limiter_inv_step. Qed.
End Limiter.

(** What is reported and what is still to be reported are the suppressed calls,
    up to the wrap-around of the counter. *)
Lemma limiter_counts_step s i :
  (sum_of reported (limiter_step s i).2 + suppressed (limiter_step s i).1 - sum_of counted (limiter_step s i).2) mod 2 ^ 64 =
  (sum_of reported s.2 + suppressed s.1 - sum_of counted s.2) mod 2 ^ 64.
Proof.
  destruct s as [l ts]. unfold limiter_step. cbn [fst snd]. destruct (ts !! i) as [t|] eqn:Hi; [|done].
  destruct (check_step l t) as [l' u] eqn:Hstep. cbn [fst snd]. rewrite !(sum_of_insert _ _ _ _ _ Hi).
  destruct t as [now|now next|now|now|now n|now]; cbn -[Z.pow Z.leb Z.eqb u64_wrap] in Hstep;
    repeat case_match; simplify_eq; cbn -[Z.pow u64_wrap]; try (f_equal; lia).
  unfold u64_wrap. pose proof (Z.div_mod (suppressed l + 1) (2 ^ 64) ltac:(done)) as Hdiv.
  rewrite <-(Z_mod_plus_full (sum_of reported ts + suppressed l - sum_of counted ts) (- ((suppressed l + 1) / 2 ^ 64)) (2 ^ 64)).
  f_equal. lia.
Qed.

(** ** Lemmas on redaction *)

Definition occurs (t s : list Ascii.ascii) : Prop := ∃ a b, s = a ++ t ++ b.

Lemma is_prefix_app p s : is_prefix p s = true ↔ p `prefix_of` s.
Proof.
  revert s. induction p as [|c p IH]; intros [|d s]; cbn.
  - split; [intros _; by exists []|done].
  - split; [intros _; by exists (d :: s)|done].
  - split; [done|]. intros [? ?]. done.
  - rewrite andb_true_iff, bool_decide_eq_true, IH. split.
    + intros [-> [k ->]]. by exists k.
    + intros [k Hk]. simplify_eq/=. split; [done|]. by exists k.
Qed.

Lemma replace_skip by_ pat k s : replace by_ pat k s = replace by_ pat 0 (drop k s).
Proof. revert k. induction s as [|c s IH]; intros [|k]; cbn [replace drop]; try done; apply IH. Qed.

Lemma occurs_cons t c s : t ≠ [] → occurs t (c :: s) → is_prefix t (c :: s) = true ∨ occurs t s.
Proof.
  intros Ht ([|d a] & b & Heq).
  - left. apply is_prefix_app. by exists b.
  - right. exists a, b. by simplify_eq/=.
Qed.

(** A word without the opening bracket that begins the result began the message. *)
Lemma replace_prefix pat p s :
  "<"%char ∉ p → p `prefix_of` replace redacted pat 0 s → p `prefix_of` s.
Proof.
  revert p. induction s as [|c s IH]; intros p Hp [k Hk]; cbn [replace] in Hk; [by exists k|].
  destruct p as [|d p]; [by eexists|]. apply not_elem_of_cons in Hp as [Hd Hp].
  destruct (is_prefix pat (c :: s)); [by simplify_eq/=|]. injection Hk as -> Hk.
  destruct (IH p Hp) as [k' ->]; [by exists k|]. by exists k'.
Qed.

(** An occurrence across two parts lies in one of them when it misses the last
    character of the first. *)
Lemma occurs_app_split t u x v :
  x ∉ t → t ≠ [] → occurs t (u ++ x :: v) → occurs t u ∨ occurs t v.
Proof.
  intros Hx Ht. induction u as [|c u IH]; cbn [app]; intros Ho.
  - apply occurs_cons in Ho as [Hpre|?]; [|by right|done]. exfalso. apply is_prefix_app in Hpre as [k Hk].
    destruct t; simplify_eq/=. apply Hx. by left.
  - destruct (occurs_cons t c _ Ht Ho) as [Hpre|Ho']; clear Ho.
    + left. apply is_prefix_app in Hpre as [k Hk]. change (c :: u ++ x :: v) with ((c :: u) ++ x :: v) in Hk.
      destruct (app_eq_inv _ _ _ _ Hk) as [(k' & Hl & Hr)|(k' & Hl & Hr)].
      * exists [], k'. by rewrite Hl.
      * destruct k' as [|y k']; [exists [], []; by rewrite Hl, !app_nil_r|].
        exfalso. apply Hx. simplify_eq/=. rewrite elem_of_cons, elem_of_app. right. right. by left.
    + destruct (IH Ho') as [(a & b & ->)|?]; [left|by right]. exists (c :: a), b. done.
Qed.

Lemma occurs_length t s : occurs t s → (length t ≤ length s)%nat.
Proof. intros (a & b & ->). rewrite !length_app. lia. Qed.

(** No redaction brackets and not the word between them. *)
Definition redactable (t : list Ascii.ascii) : Prop :=
  (8 ≤ length t)%nat ∧ ("<"%char ∉ t) ∧ (">"%char ∉ t) ∧ t ≠ String.list_ascii_of_string "redacted".

Lemma redacted_occurs t v : redactable t → occurs t (redacted ++ v) → occurs t v.
Proof.
  intros (Hlen & Hlt & Hgt & Hne) Ho. assert (t ≠ []) as Hnil by (destruct t; cbn in *; [lia|done]).
  change (redacted ++ v) with (("<"%char :: String.list_ascii_of_string "redacted") ++ (">"%char :: v)) in Ho.
  apply occurs_app_split in Ho as [Ho|?]; [|done..]. exfalso.
  apply occurs_cons in Ho as [Hpre|(a & b & Hab)]; [| |done].
  - apply is_prefix_app in Hpre as [k Hk]. destruct t; simplify_eq/=. apply Hlt. by left.
  - pose proof (f_equal length Hab) as Hl. rewrite !length_app in Hl. cbn in Hl.
    destruct a, b; cbn in *; try lia. rewrite app_nil_r in Hab. congruence.
Qed.

Lemma replace_hides t s : redactable t → ¬ occurs t (replace redacted t 0 s).
Proof.
  intros Ht. pose proof Ht as (Hlen & Hlt & _ & _). assert (t ≠ []) as Hnil by (destruct t; cbn in *; [lia|done]).
  remember (length s) as n eqn:Hn. revert s Hn. induction (lt_wf n) as [n _ IH]. intros [|c s] ->.
  - intros Ho%occurs_length. cbn in *. lia.
  - cbn [replace]. destruct (is_prefix t (c :: s)) eqn:Hpre.
    + intros Ho. apply redacted_occurs in Ho; [|done]. rewrite replace_skip in Ho.
      eapply (IH (length (drop (length t - 1) s))), Ho; [|done]. rewrite length_drop. cbn. lia.
    + intros Ho. apply occurs_cons in Ho as [Hpre'|Ho]; [| |done].
      * assert (is_prefix t (c :: s) = true); [|congruence]. apply is_prefix_app, (replace_prefix t); [done|].
        cbn [replace]. rewrite Hpre. by apply is_prefix_app.
      * eapply (IH (length s)), Ho; [cbn; lia|done].
Qed.

Lemma before_char_prefix n s cut : before_char n s = Some cut → cut `prefix_of` s.
Proof.
  revert n cut. induction s as [|c s IH]; intros n cut; cbn; [done|].
  assert (∀ m, cons c <$> before_char m s = Some cut → cut `prefix_of` c :: s) as Hc.
  { intros m (cut' & Hm & ->)%fmap_Some. destruct (IH m cut' Hm) as [k ->]. by exists k. }
  destruct (is_continuation c); [apply Hc|]. destruct n; [|apply Hc]. intros [= <-]. by exists (c :: s).
Qed.

Lemma occurs_prefix t u s : u `prefix_of` s → occurs t u → occurs t s.
Proof. intros [k ->] (a & b & ->). exists a, (b ++ k). by rewrite !(assoc_L (++)). Qed.

Lemma length_list_ascii s : length (String.list_ascii_of_string s) = String.length s.
Proof. induction s as [|c s IH]; [done|]. cbn. by rewrite IH. Qed.

Lemma get_prefix_ascii n s :
  Forall (λ c, (nat_of_ascii c < 128)%nat) s → (n ≤ length s)%nat → get_prefix n s = Some (take n s).
Proof.
  intros Ha Hn. unfold get_prefix. destruct (Nat.ltb_spec (length s) n); [lia|].
  destruct (drop n s) as [|c r] eqn:Hd; [done|]. assert (nat_of_ascii c < 128)%nat as Hc.
  { apply (Forall_drop _ n) in Ha. rewrite Hd in Ha. by inversion Ha. }
  unfold is_continuation. destruct (Nat.leb_spec 128 (nat_of_ascii c)); [lia|done].
Qed.

(** ** Lemmas on authentication *)

Lemma strip_prefix_Some p s r : strip_prefix p s = Some r ↔ s = String.append p r.
Proof.
  revert s. induction p as [|c p IH]; intros s; cbn.
  - change (String.append "" r) with r. split; congruence.
  - destruct s as [|d s]; [done|]. change (String.append (String c p) r) with (String c (String.append p r)).
    case_decide as Hc; [subst; rewrite IH|]; split; intros; simplify_eq; done.
Qed.

Lemma or_of_xors_zero acc l :
  foldl (λ acc xy, Z.lor acc (Z.lxor xy.1 xy.2)) acc l = 0 ↔ acc = 0 ∧ Forall (λ xy : Z * Z, xy.1 = xy.2) l.
Proof.
  revert acc. induction l as [|[x y] l IH]; intros acc; cbn [foldl].
  - split; [done|by intros [? _]].
  - rewrite IH, Z.lor_eq_0_iff, Forall_cons, Z.lxor_eq_0_iff. cbn. tauto.
Qed.

Section IngestLemmas.
Context {H : Type} `{Headers H} `{UuidParser} (show_duration : Z → string).

Lemma bearer_token_Ok (headers : H) token :
  bearer_token headers = Ok token ↔ header_get headers "authorization" = Some (Some (String.append "Bearer " token)).
Proof.
  unfold bearer_token. destruct (header_get headers "authorization") as [[v|]|]; ostep; [|split; done..].
  rewrite ok_or_Ok, strip_prefix_Some. split; congruence.
Qed.

Lemma bearer_token_not_Panic (headers : H) : bearer_token headers ≠ Panic.
Proof.
  unfold bearer_token. destruct (header_get headers "authorization") as [[v|]|]; ostep; [|done..].
  by destruct (strip_prefix _ v).
Qed.

(** The result of authentication does not depend on the log limiters or the clock. *)
Lemma auth_result_logs (auth : IngestAuth H) headers now now' logs logs' :
  auth_result show_duration auth headers now logs = auth_result show_duration auth headers now' logs'.
Proof.
  unfold auth_result, authenticate. destruct (authenticator auth) as [verify|]; [|done].
  destruct (bearer_token headers) as [token| |]; [|done..].
  destruct (await _ _) as [[context|error|]| |]; try done. by destruct (find error) as [[??]|].
Qed.

Lemma with_timeout_id (auth : IngestAuth H) :
  timeout auth ≠ Some 0 →
  with_timeout (ingest_auth_new (authenticator auth) (allow_test_header_context auth)) (timeout auth) = auth.
Proof.
  destruct auth as [a allow [t|]]; cbn; [|done]. intros Ht. unfold with_timeout. cbn.
  destruct (Z.eqb_spec t 0); [congruence|done].
Qed.
End IngestLemmas.

(** ** Properties *)

(** However the threads that hit the limiter interleave, two that log do so for
    times at least an interval apart; what the lines report plus what waits to
    be reported is the number of suppressed calls, up to the wrap-around of the
    counter; and a call is suppressed after the deadline only when another
    took the right to log. *)
Theorem log_limiter_paces interval next0 ts schedule :
  0 ≤ interval → Forall started ts → Forall (time_fits interval) ts →
  let s := limiter_run (mkLimiter interval next0 0, ts) schedule in
  (∀ i j n m a b, i ≠ j → s.2 !! i = Some (Logged n a) → s.2 !! j = Some (Logged m b) → interval ≤ Z.abs (n - m)) ∧
  (sum_of reported s.2 + suppressed s.1) mod 2 ^ 64 = sum_of counted s.2 mod 2 ^ 64 ∧
  ((∃ i n, s.2 !! i = Some (Suppressed n) ∧ next0 ≤ n) → ∃ j t, s.2 !! j = Some t ∧ is_Some (winner t)).
Proof.
  intros Hint Hs Hf s.
  assert (limiter_inv interval next0 s) as Hinv.
  { apply limiter_inv_run; [done|]. by apply limiter_inv_start. }
  split_and!.
  - intros i j n m a b Hij Hi Hj. by eapply (li_apart _ _ _ Hinv i j).
  - assert (∀ sched s0, (sum_of reported (limiter_run s0 sched).2 + suppressed (limiter_run s0 sched).1 -
        sum_of counted (limiter_run s0 sched).2) mod 2 ^ 64 =
      (sum_of reported s0.2 + suppressed s0.1 - sum_of counted s0.2) mod 2 ^ 64) as Hrun.
    { induction sched as [|i sched IH]; intros s0; [done|]. cbn [limiter_run foldl].
      etrans; [apply (IH (limiter_step s0 i))|apply limiter_counts_step]. }
    specialize (Hrun schedule (mkLimiter interval next0 0, ts)). fold s in Hrun. cbn [fst snd suppressed] in Hrun.
    rewrite !(sum_of_started _ ts) in Hrun by done. change ((0 + 0 - 0) mod 2 ^ 64) with 0 in Hrun.
    set (x := sum_of reported s.2 + suppressed s.1) in *. set (c := sum_of counted s.2) in *.
    pose proof (Z.div_mod (x - c) (2 ^ 64) ltac:(done)) as Hdiv.
    replace x with (c + ((x - c) / 2 ^ 64) * 2 ^ 64) by lia. apply Z_mod_plus_full.
  - intros (i & n & Hi & Hn). 
    destruct (decide (Exists (λ t, is_Some (winner t)) s.2)) as [(t & Ht & Hw)%Exists_exists|Hno].
    + apply list_elem_of_lookup in Ht as [j Hj]. eauto.
    + exfalso. rewrite <-Forall_Exists_neg in Hno. 
      destruct (li_none _ _ _ Hinv) as (_ & Hl & _).
      * intros j t Hj. apply eq_None_not_Some. by apply (proj1 (Forall_lookup _ _) Hno j).
      * specialize (Hl i _ n Hi eq_refl). lia.
Qed.

(** A verification's message is logged without the key: a key of at least eight
    ASCII characters that is not made of the redaction's own text occurs nowhere
    in the redacted message, cut or not. *)
Theorem redact_hides_key message token :
  redactable (String.list_ascii_of_string token) →
  Forall (λ c, (nat_of_ascii c < 128)%nat) (String.list_ascii_of_string token) →
  ¬ occurs (String.list_ascii_of_string token) (String.list_ascii_of_string (redact message token)).
Proof.
  intros Hr Hascii. unfold redact. rewrite String.list_ascii_of_string_of_list_ascii. unfold redact_chars.
  pose proof Hr as (Hlen & _). destruct (Nat.ltb_spec (length (String.list_ascii_of_string token)) 8); [lia|].
  set (t := String.list_ascii_of_string token) in *. set (m := String.list_ascii_of_string message).
  destruct (before_char _ _) as [cut|] eqn:Hcut; [|by apply replace_hides].
  apply before_char_prefix in Hcut. intros Ho.
  apply (replace_hides t m Hr). eapply occurs_prefix; [exact Hcut|].
  assert (t ≠ []) as Hnil by (destruct t; cbn in *; [lia|done]).
  assert (∀ c, (128 ≤ nat_of_ascii c)%nat → c ∉ t) as Hnot.
  { intros c Hc Hin. pose proof (proj1 (Forall_forall _ _) Hascii c Hin). cbn in *. lia. }
  change (String.list_ascii_of_string ellipsis) with (["226"; "128"; "166"]%char) in Ho.
  apply occurs_app_split in Ho as [?|Ho]; [done| |apply Hnot; vm_compute; lia|done].
  exfalso. apply occurs_length in Ho. cbn in Ho. lia.
Qed.

(** The hint that identifies a key shows its length, and its first four
    characters only when it has sixteen or more: it is the same for all keys that
    agree in these. *)
Theorem key_prefix_reveals token token' :
  Forall (λ c, (nat_of_ascii c < 128)%nat) (String.list_ascii_of_string token) →
  Forall (λ c, (nat_of_ascii c < 128)%nat) (String.list_ascii_of_string token') →
  String.length token = String.length token' →
  ((16 ≤ String.length token)%nat →
     take 4 (String.list_ascii_of_string token) = take 4 (String.list_ascii_of_string token')) →
  key_prefix token = key_prefix token'.
Proof.
  intros Ha Ha' Hlen Hfour. unfold key_prefix, chars_suffix. rewrite <-Hlen.
  destruct (Nat.leb_spec 16 (String.length token)) as [H16|]; [|by repeat case_match].
  rewrite !get_prefix_ascii by (done || rewrite length_list_ascii; lia). by rewrite Hfour.
Qed.

Section Theorems.
Context {H : Type} `{Headers H} `{UuidParser} (show_duration : Z → string).

(** As whom a request is served: as the nil workspace when ingest is open, and
    else as its key's workspace, or the one the test header names. *)
Definition authorized_as (auth : IngestAuth H) (headers : H) (context : RequestContext) : Prop :=
  (authenticator auth = None ∧ context = mkContext 0) ∨
  ∃ verify token given,
    authenticator auth = Some verify ∧
    header_get headers "authorization" = Some (Some (String.append "Bearer " token)) ∧
    await (timeout auth) (verify token headers) = Ready (Ok given) ∧
    workspace_id context =
      (if allow_test_header_context auth
       then default (workspace_id given) (test_workspace headers) else workspace_id given).

Lemma override_workspace_id (auth : IngestAuth H) headers given context :
  override_workspace auth headers given = context ↔
    workspace_id context = (if allow_test_header_context auth
      then default (workspace_id given) (test_workspace headers) else workspace_id given).
Proof.
  destruct context as [w'], given as [w]. unfold override_workspace.
  destruct (allow_test_header_context auth), (test_workspace headers); cbn; split; congruence.
Qed.

Lemma auth_result_Ok (auth : IngestAuth H) headers now logs context :
  auth_result show_duration auth headers now logs = Some (Ok context) ↔ authorized_as auth headers context.
Proof.
  unfold auth_result, authenticate, authorized_as. destruct (authenticator auth) as [verify|] eqn:Ha.
  2: { split; [intros [= <-]; by left|by intros [[_ ->]|(? & ? & ? & ? & _)]]. }
  destruct (bearer_token headers) as [token|e|] eqn:Ht.
  - pose proof Ht as Hh%bearer_token_Ok. split.
    + intros Hr. right. exists verify, token.
      destruct (await _ _) as [[given|error|]| |] eqn:Hw; try done; [|by destruct (find error) as [[??]|]].
      exists given. split_and!; [done..|]. apply override_workspace_id. cbn in Hr. congruence.
    + intros [[? _]|(verify' & token' & given & [= <-] & Hh' & Hw & Hc)]; [done|].
      rewrite Hh' in Hh. assert (token' = token) as ->.
      { apply bearer_token_Ok in Hh'. congruence. }
      rewrite Hw. cbn. apply override_workspace_id in Hc. by rewrite Hc.
  - split; [done|].
    intros [[? _]|(? & token & ? & _ & Hh%bearer_token_Ok & _)]; congruence.
  - by apply bearer_token_not_Panic in Ht.
Qed.

(** C39: A request is authenticated exactly when ingest is open, as the nil
    workspace, or when its [authorization] header is a bearer key that the
    authenticator accepts in time; its workspace is then the authenticator's,
    unless the test flag is on and [x-workspace-id] names another. With a limit
    there is always an answer. *)
Theorem authenticate_accepts (auth : IngestAuth H) headers now logs context :
  (auth_result show_duration auth headers now logs = Some (Ok context) ↔
     (authenticator auth = None ∧ context = mkContext 0) ∨
     ∃ verify token given,
       authenticator auth = Some verify ∧
       header_get headers "authorization" = Some (Some (String.append "Bearer " token)) ∧
       await (timeout auth) (verify token headers) = Ready (Ok given) ∧
       workspace_id context =
         (if allow_test_header_context auth
          then default (workspace_id given) (test_workspace headers) else workspace_id given)) ∧
  (is_Some (timeout auth) → is_Some (auth_result show_duration auth headers now logs)).
Proof.
  split; [apply auth_result_Ok|]. intros [t Hl]. unfold auth_result, authenticate.
  destruct (authenticator auth) as [verify|]; [|done]. rewrite Hl. unfold await.
  destruct (bearer_token headers) as [token|e|]; try done. destruct (v_takes _) as [d|]; [destruct (d <=? t)|]; try done.
  destruct (v_result _) as [?|error|]; try done. by destruct (find error) as [[??]|].
Qed.

(** The authentication layer changes where a request is authenticated, not the
    outcome: a handler behind it that resolves its context the same way answers
    as the handler alone, and when the request is refused the handler is not
    called. *)
Theorem layer_transparent {A : Type} (auth : IngestAuth H) headers now logs
    (handle : RequestContext → outcome Status A) :
  timeout auth ≠ Some 0 →
  let handler extension (logs : AuthLogs) :=
    let '(logs, lines, r) :=
      authenticate_grpc show_duration (authenticator auth) extension headers
        (allow_test_header_context auth) (timeout auth) now logs in
    (logs, lines, (λ r, r ≫= handle) <$> r) in
  auth_service_call show_duration auth headers now handler logs = handler None logs ∧
  ∀ rejection inner, auth_result show_duration auth headers now logs = Some (Err rejection) →
    (auth_service_call show_duration auth headers now inner logs).2 = Some (Err (into_status rejection) : outcome Status A).
Proof.
  intros Ht handler. split.
  - unfold auth_service_call, is_enabled, handler, authenticate_grpc. rewrite with_timeout_id by done.
    destruct (authenticator auth) as [verify|] eqn:Ha; [|done]. cbn [negb bool_decide].
    rewrite bool_decide_eq_true_2 by done. cbn [negb].
    destruct (authenticate _ _ _ _ _) as [[logs' lines] [[context|rejection|]|]]; cbn; try done.
    by rewrite app_nil_r.
  - intros rejection inner Hr. unfold auth_service_call, is_enabled. unfold auth_result in Hr.
    destruct (authenticator auth) as [verify|] eqn:Ha; [|unfold authenticate in Hr; by rewrite Ha in Hr].
    rewrite bool_decide_eq_true_2 by done. cbn [negb].
    destruct (authenticate _ _ _ _ _) as [[logs' lines] r]. cbn in Hr. by subst r.
Qed.

(** The two transports answer a rejection alike: an exporter retries the gRPC
    status exactly when it retries the HTTP response, which is the case for a
    key that could not be checked, and the header is the delay of the status in
    whole seconds, rounded up. *)
Theorem rejections_agree r :
  grpc_retryable (into_status r) = http_retryable (into_http_response r) ∧
  (grpc_retryable (into_status r) = true ↔ ∃ d, r = RejectUnavailable d) ∧
  hr_retry_after (into_http_response r) = retry_after_header <$> retry_delay (into_status r).
Proof. destruct r as [message|d]; split_and!; try done; split; try done; [intros [??]; done|eauto]. Qed.
End Theorems.

(** With the keys of the configuration, a request is accepted exactly when its key
    is listed, for the workspace of the last entry with that key. *)
Theorem config_key_accepted {H : Type} `{Headers H} `{UuidParser} show_duration api_keys (headers : H) token now logs w :
  header_get headers "authorization" = Some (Some (String.append "Bearer " token)) →
  auth_result show_duration (ingest_auth_new (Some (config_authenticator (from_config api_keys))) false) headers now logs =
    Some (Ok (mkContext w)) ↔
  last (filter (λ k, ak_key k = token) api_keys) = Some (mkApiKey token w).
Proof.
  intros Hh. assert (∀ keys : gmap string RequestContext, foldl (λ keys k, <[ak_key k := mkContext (ak_workspace_id k)]> keys) keys api_keys !! token =
    match last (filter (λ k, ak_key k = token) api_keys) with
    | Some k => Some (mkContext (ak_workspace_id k)) | None => keys !! token end) as Hlast.
  { induction api_keys as [|k api_keys IH]; intros keys; [done|]. cbn [foldl]. rewrite IH, filter_cons.
    case_decide as Hk; [|by rewrite lookup_insert_ne]. rewrite last_cons.
    destruct (last _); [done|]. subst. by rewrite lookup_insert_eq. }
  assert (∀ k, last (filter (λ k, ak_key k = token) api_keys) = Some k → ak_key k = token) as Hkey.
  { intros k Hk%last_Some_elem_of. by apply list_elem_of_filter in Hk as [? _]. }
  unfold auth_result, authenticate. cbn [authenticator ingest_auth_new].
  rewrite (proj2 (bearer_token_Ok headers token) Hh).
  change (await _ _) with (Ready (config_authenticate (from_config api_keys) token)).
  unfold config_authenticate, from_config. rewrite Hlast, lookup_empty.
  destruct (last _) as [[key w']|] eqn:Hl; cbn.
  - specialize (Hkey _ eq_refl). cbn in Hkey. subst key. unfold override_workspace. cbn. split; congruence.
  - split; done.
Qed.

(** The comparison of service tokens, folded over all bytes, decides equality. *)
Theorem validate_service_token_eq token expected : validate_service_token token expected = true ↔ token = expected.
Proof.
  unfold validate_service_token, constant_time_eq, or_of_xors. destruct (Nat.eqb_spec (length token) (length expected)) as [Hl|Hl].
  - rewrite Z.eqb_eq, or_of_xors_zero. split; [|intros ->; split; [done|]].
    + intros [_ Hz]. revert expected Hl Hz. induction token as [|x token IH]; intros [|y expected] Hl; try done.
      cbn [zip zip_with]. rewrite Forall_cons. cbn. intros [-> Hz]. f_equal. apply IH; [by injection Hl|done].
    + clear Hl. induction expected; cbn; constructor; done.
  - split; [done|]. intros ->. done.
Qed.

(** ** Witnesses *)

(** Two calls race past the load; the third comes an interval later. *)
Definition sample_threads : list Thread := [AtLoad 50; AtLoad 60; AtLoad 10100].
Definition sample_schedule : list nat := [0; 1; 0; 1; 1; 0; 2; 2; 2]%nat.

Lemma log_limiter_paces_witness :
  (limiter_run (mkLimiter 10000 0 0, sample_threads) sample_schedule).2 = [Logged 50 1; Suppressed 60; Logged 10100 0] ∧
  10000 ≤ Z.abs (50 - 10100).
Proof.
  split; [vm_compute; reflexivity|].
  apply (proj1 (log_limiter_paces 10000 0 sample_threads sample_schedule ltac:(lia)
    ltac:(repeat constructor; eexists; reflexivity) ltac:(repeat constructor; vm_compute; discriminate))
    0%nat 2%nat 50 10100 1 0); [lia|vm_compute; reflexivity|vm_compute; reflexivity].
Defined.

Lemma redact_hides_key_witness :
  redact "no such key: zk_live_1234 (zk_live_1234)" "zk_live_1234" = "no such key: <redacted> (<redacted>)" ∧
  ¬ occurs (String.list_ascii_of_string "zk_live_1234")
      (String.list_ascii_of_string (redact "no such key: zk_live_1234 (zk_live_1234)" "zk_live_1234")).
Proof.
  split; [vm_compute; reflexivity|].
  apply (redact_hides_key "no such key: zk_live_1234 (zk_live_1234)" "zk_live_1234").
  - split_and!; [cbn; lia|apply (bool_decide_unpack _); vm_compute; exact I..].
  - repeat constructor; vm_compute; lia.
Defined.

Lemma key_prefix_reveals_witness :
  key_prefix "zk_live_12345678" = "zk_l… (16 chars)" ∧ key_prefix "zk_live_12345678" = key_prefix "zk_loan_87654321".
Proof.
  split; [vm_compute; reflexivity|]. apply key_prefix_reveals.
  - repeat constructor; vm_compute; lia.
  - repeat constructor; vm_compute; lia.
  - reflexivity.
  - intros _. reflexivity.
Defined.

(** Header maps as association lists. *)
Definition header_list : Type := list (string * string).
#[local] Instance header_list_headers : Headers header_list := λ headers name,
  (λ kv, Some kv.2) <$> head (filter (λ kv, String.eqb kv.1 name = true) headers).
#[local] Instance uuid_sample : UuidParser := λ s, if String.eqb s "five" then Some 5 else None.

Definition sample_headers : header_list := [("authorization", "Bearer zk_live"); ("x-workspace-id", "five")].
Definition sample_keys : list ApiKeyConfig := [mkApiKey "zk_live" 7; mkApiKey "zk_other" 8; mkApiKey "zk_live" 9].
Definition sample_auth : IngestAuth header_list :=
  ingest_auth_new (Some (config_authenticator (from_config sample_keys))) true.
Definition sample_logs : AuthLogs := mkAuthLogs (limiter_new 10000) (limiter_new 10000).
Definition slow_auth : IngestAuth header_list :=
  ingest_auth_new (Some (λ _ _, mkVerification None (Ok (mkContext 1)))) false.

Lemma authenticate_accepts_witness :
  auth_result (λ _, "10s") sample_auth sample_headers 0 sample_logs = Some (Ok (mkContext 5)) ∧
  is_Some (auth_result (λ _, "10s") slow_auth sample_headers 0 sample_logs) ∧
  auth_result (λ _, "10s") slow_auth sample_headers 0 sample_logs = Some (Err (RejectUnavailable AUTH_TIMEOUT_RETRY_AFTER)).
Proof.
  split; [|split; [|vm_compute; reflexivity]].
  - apply (authenticate_accepts (λ _, "10s") sample_auth sample_headers 0 sample_logs (mkContext 5)). right.
    exists (config_authenticator (from_config sample_keys)), "zk_live", (mkContext 9).
    split; [reflexivity|]. split; [reflexivity|]. split; vm_compute; reflexivity.
  - apply (authenticate_accepts (λ _, "10s") slow_auth sample_headers 0 sample_logs (mkContext 0)). by eexists.
Defined.

Lemma layer_transparent_witness :
  auth_service_call (λ _, "10s") sample_auth sample_headers 0
    (λ extension logs,
       let '(logs, lines, r) := authenticate_grpc (λ _, "10s") (authenticator sample_auth) extension sample_headers
         true (Some DEFAULT_AUTH_TIMEOUT) 0 logs in
       (logs, lines, (λ r, r ≫= (λ c, Ok (workspace_id c))) <$> r)) sample_logs = (sample_logs, [], Some (Ok 5)).
Proof.
  etrans; [|vm_compute; reflexivity].
  apply (proj1 (layer_transparent (λ _, "10s") sample_auth sample_headers 0 sample_logs (λ c, Ok (workspace_id c))
    ltac:(vm_compute; discriminate))).
Defined.

Lemma config_key_accepted_witness :
  auth_result (λ _, "10s") (ingest_auth_new (Some (config_authenticator (from_config sample_keys))) false) sample_headers 0 sample_logs =
    Some (Ok (mkContext 9)).
Proof.
  apply (config_key_accepted (λ _, "10s") sample_keys sample_headers "zk_live" 0 sample_logs 9); reflexivity.
Defined.
