(* ===== verification/OtlpHttp.v ===== *)
(** The HTTP ingest transport around its handlers: [api-optel/src/otlp_http/encoding.rs],
    [server.rs] and the router of [handlers.rs].

    A connection must identify its protocol, a request is checked from its
    headers alone, its body is read and decompressed under a limit, and only
    then is it decoded and handed to the export handlers. *)

From stdpp Require Import base gmap list strings.
From Stdlib Require Import Ascii.
From coqutil Require Import Byte.
From S2P Require Import Prelude PolicyStore Enforcer IngestGuard ParquetWriter Export Auth.

(** ** The encoding of a body *)

Inductive ContentEncoding := Identity | Gzip | Zstd.
#[export] Instance ContentEncoding_eq_dec : EqDecision ContentEncoding.
Proof. solve_decision. Defined.

(** [HeaderMap::get_all]: every value of a header, the first of which [get]
    returns. *)
Class HeaderValues (H : Type) := {
  #[global] header_values_get :: Headers H;
  header_all : H → string → list (option string);
  header_get_all headers name : header_get headers name = head (header_all headers name);
}.

Definition lower (c : ascii) : ascii :=
  let n := nat_of_ascii c in if (65 <=? n)%nat && (n <=? 90)%nat then ascii_of_nat (n + 32) else c.

Fixpoint eq_ignore_ascii_case (a b : string) : bool :=
  match a, b with
  | EmptyString, EmptyString => true
  | String c a, String d b => Ascii.eqb (lower c) (lower d) && eq_ignore_ascii_case a b
  | _, _ => false
  end.

(** [str::trim] of a header's text, whose only white space is blanks and tabs. *)
Definition blank (c : ascii) : bool := Ascii.eqb c " "%char || Ascii.eqb c "009"%char.

Fixpoint trim_start (s : string) : string :=
  match s with String c s' => if blank c then trim_start s' else s | EmptyString => s end.
Fixpoint all_blank (s : string) : bool :=
  match s with String c s => blank c && all_blank s | EmptyString => true end.
Fixpoint trim_end (s : string) : string :=
  match s with
  | String c s => if blank c && all_blank s then EmptyString else String c (trim_end s)
  | EmptyString => EmptyString
  end.
Definition header_trim (s : string) : string := trim_end (trim_start s).

Definition encoding_named (value : string) : outcome Z ContentEncoding :=
  if String.eqb value "" || eq_ignore_ascii_case value "identity" then Ok Identity
  else if eq_ignore_ascii_case value "gzip" || eq_ignore_ascii_case value "x-gzip" then Ok Gzip
  else if eq_ignore_ascii_case value "zstd" then Ok Zstd
  else Err 415.

(** [ContentEncoding::from_headers]. *)
Definition encoding_from_headers {H : Type} `{HeaderValues H} (headers : H) : outcome Z ContentEncoding :=
  match header_all headers "content-encoding" with
  | [] => Ok Identity
  | [value] => text ← ok_or value 415; encoding_named (header_trim text)
  | _ => Err 415
  end.

(** ** Reading under a limit

    A decompressor hands out its output in pieces, may be interrupted, and may
    fail with a message; after the last piece it reports the end. *)

Inductive ReadEvent := Piece (data : list byte) | Interrupted | ReadFailed (message : string).
Inductive ReadError := TooLarge | Io (message : string).

Definition CHUNK : Z := 64 * 1024.

Inductive ReadResult := GotBytes (data : list byte) | WasInterrupted | GotError (message : string).

(** One [read] into [spare] bytes: what comes out, and what is left. *)
Definition read (events : list ReadEvent) (spare : Z) : ReadResult * list ReadEvent :=
  match events with
  | [] => (GotBytes [], [])
  | Piece data :: events =>
      let rest := drop (Z.to_nat spare) data in
      (GotBytes (take (Z.to_nat spare) data), match rest with [] => events | _ => Piece rest :: events end)
  | Interrupted :: events => (WasInterrupted, events)
  | ReadFailed message :: events => (GotError message, events)
  end.

(** What the reads of [events] add up to, one per byte and one per event. *)
Fixpoint reads_left (events : list ReadEvent) : nat :=
  match events with
  | [] => 0
  | Piece data :: events => S (length data + reads_left events)
  | _ :: events => S (reads_left events)
  end.

(** The loop of [read_capped] over the buffer's contents and capacity; [fuel]
    bounds the number of reads. *)
Fixpoint capped_loop (fuel : nat) (cap limit : Z) (out : list byte) (capacity : Z) (events : list ReadEvent) :
    option (outcome ReadError (list byte)) :=
  match fuel with
  | O => None
  | S fuel =>
      if (zlen out =? capacity) && (cap <=? zlen out) then Some (Err TooLarge)
      else
        let capacity :=
          if zlen out =? capacity then zlen out + Z.min (Z.max capacity CHUNK) (cap - zlen out) else capacity in
        match read events (capacity - zlen out) with
        | (GotBytes [], _) => Some (Ok out)
        | (GotBytes data, events) =>
            let out := out ++ data in
            if limit <? zlen out then Some (Err TooLarge) else capped_loop fuel cap limit out capacity events
        | (WasInterrupted, events) =>
            if limit <? zlen out then Some (Err TooLarge) else capped_loop fuel cap limit out capacity events
        | (GotError message, _) => Some (Err (Io message))
        end
  end.

Definition first_capacity (hint cap : Z) : Z := Z.max (Z.min CHUNK cap) (Z.min (u64_saturating_mul hint 4) cap).

(** [read_capped]: no more reads are needed than the events have. *)
Definition read_capped (events : list ReadEvent) (hint limit : Z) : option (outcome ReadError (list byte)) :=
  let cap := u64_saturating_add limit 1 in
  capped_loop (S (reads_left events)) cap limit [] (first_capacity hint cap) events.

(** ** Decompression *)

Definition MIN_ZSTD_WINDOW_LOG : Z := 23.
Definition MAX_ZSTD_WINDOW_LOG : Z := 27.

(** [usize::BITS - n.leading_zeros()]. *)
Definition bit_length (n : Z) : Z := if n =? 0 then 0 else Z.log2 n + 1.

Definition zstd_window_log_max (limit : Z) : Z :=
  Z.max MIN_ZSTD_WINDOW_LOG (Z.min (bit_length (u64_saturating_sub limit 1)) MAX_ZSTD_WINDOW_LOG).

(** [str::contains]. *)
Fixpoint contains (pat s : string) : bool :=
  String.prefix pat s || match s with String _ s => contains pat s | EmptyString => false end.

Section Decode.
(** [flate2] and [zstd]: the reads of a decoder over the input, which refuses a
    frame whose window is larger than the given logarithm; [None] when the
    decoder cannot be made. *)
Context (decoder : ContentEncoding → Z → list byte → option (list ReadEvent)).

Definition read_error_code (e : ReadError) : Z :=
  match e with
  | TooLarge => 413
  | Io message => if contains "too much memory" message then 413 else 400
  end.

Definition decompress (encoding : ContentEncoding) (input : list byte) (limit : Z) : option (outcome Z (list byte)) :=
  match encoding with
  | Identity => map_err read_error_code <$> read_capped (match input with [] => [] | _ => [Piece input] end) (zlen input) limit
  | _ =>
      match decoder encoding (zstd_window_log_max limit) input with
      | None => Some (Err 400)
      | Some events => map_err read_error_code <$> read_capped events (zlen input) limit
      end
  end.

(** [decode_body]; a panic of the blocking task is answered 500. *)
Definition decode_body (encoding : ContentEncoding) (body : list byte) (limit : Z) : outcome Z (list byte) :=
  if bool_decide (encoding = Identity) then if limit <? zlen body then Err 413 else Ok body
  else match decompress encoding body limit with
       | Some (Ok bytes) => Ok bytes
       | Some (Err code) => Err code
       | _ => Err 500
       end.
End Decode.

(** ** The checks before the body *)

Section Preflight.
Context {H : Type} `{HeaderValues H} `{UuidParser} (show_duration : Z → string).

(** [check_content_type]. *)
Definition check_content_type (headers : H) : outcome Z unit :=
  let ct := default "" (mjoin (header_get headers "content-type")) in
  if String.prefix "application/x-protobuf" ct then Ok () else Err 415.

Record ExportPreflight := mkPreflight { pf_context : RequestContext; pf_encoding : ContentEncoding }.

(** [OtlpHttpState]: what the checks use of it. The circuit breaker is what it
    answers when asked. *)
Record OtlpHttpState := mkHttpState {
  hs_auth : option (string → H → Verification);
  hs_allow_test_header_context : bool;
  hs_auth_timeout : option Z;
  hs_circuit_breaker : option (outcome Status unit);
  hs_max_decoded_body_bytes : Z;
}.

Definition check_circuit_breaker (breaker : option (outcome Status unit)) : option HttpResponse :=
  match breaker with Some (Err s) => Some (status_to_response s) | _ => None end.

(** [check_export_headers]: content type, encoding, key, breaker, in this
    order; nothing when the verification never ends. *)
Definition check_export_headers (state : OtlpHttpState) (headers : H) (now_ms : Z) (logs : AuthLogs) :
    AuthLogs * list LogLine * option (outcome HttpResponse ExportPreflight) :=
  match check_content_type headers with
  | Ok _ =>
      match encoding_from_headers headers with
      | Ok encoding =>
          let auth := with_timeout (ingest_auth_new (hs_auth state) (hs_allow_test_header_context state)) (hs_auth_timeout state) in
          let '(logs, lines, r) := authenticate show_duration auth headers now_ms logs in
          (logs, lines,
           match r with
           | Some (Ok context) =>
               Some (match check_circuit_breaker (hs_circuit_breaker state) with
                     | Some response => Err response
                     | None => Ok (mkPreflight context encoding)
                     end)
           | Some (Err rejection) => Some (Err (into_http_response rejection))
           | Some Panic => Some Panic
           | None => None
           end)
      | Err code => (logs, [], Some (Err (http code)))
      | Panic => (logs, [], Some Panic)
      end
  | Err code => (logs, [], Some (Err (http code)))
  | Panic => (logs, [], Some Panic)
  end.

(** *** Draining a rejected body *)

Definition MAX_CONCURRENT_DRAINS : Z := 64.

(** The loop over the frames that arrive before the deadline: the bytes
    discarded, and the frames left unread. *)
Fixpoint drain_frames (limit drained : Z) (frames : list Z) : Z * list Z :=
  match frames with
  | [] => (drained, [])
  | n :: frames =>
      let drained := u64_saturating_add drained n in
      if limit <? drained then (drained, frames) else drain_frames limit drained frames
  end.

(** Whether [drain_rejected_body] starts a drain, and the drains then running. *)
Definition try_drain (is_end_stream : bool) (running : Z) : Z * bool :=
  if is_end_stream then (running, false)
  else if running <? MAX_CONCURRENT_DRAINS then (running + 1, true) else (running, false).

(** *** A request *)

(** How reading the body ends: [OtlpBody::from_request] over the extractor of
    axum, which refuses a body over the wire limit with 413 and one that breaks
    off with 400. *)
Inductive BodyRead := BodyComplete (body : list byte) | BodyTimedOut | BodyOverLimit | BodyBroken.

Definition otlp_body (r : BodyRead) : outcome Z (list byte) :=
  match r with
  | BodyComplete body => Ok body
  | BodyTimedOut => Err 408
  | BodyOverLimit => Err 413
  | BodyBroken => Err 400
  end.

(** The route: [preflight], then the body, then a handler over the encoding
    and the body. *)
Definition otlp_http_request {S : Type} (state : OtlpHttpState) (headers : H) (now_ms : Z) (body : BodyRead)
    (handler : S → RequestContext → ContentEncoding * list byte → S * HttpResponse) (st : S) (logs : AuthLogs) :
    S * option HttpResponse :=
  match (check_export_headers state headers now_ms logs).2 with
  | Some (Ok checked) =>
      match otlp_body body with
      | Ok bytes => let '(st, response) := handler st (pf_context checked) (pf_encoding checked, bytes) in (st, Some response)
      | Err code => (st, Some (http code))
      | Panic => (st, Some (http 500))
      end
  | Some (Err response) => (st, Some response)
  | Some Panic => (st, Some (http 500))
  | None => (st, None)
  end.

(** The decoding the handlers are given. *)
Definition decode_request (decoder : ContentEncoding → Z → list byte → option (list ReadEvent)) (state : OtlpHttpState)
    (body : ContentEncoding * list byte) : Z + list byte :=
  match decode_body decoder body.1 body.2 (hs_max_decoded_body_bytes state) with
  | Ok bytes => inr bytes
  | Err code => inl code
  | Panic => inl 500
  end.
End Preflight.
Arguments OtlpHttpState : clear implicits.

(** ** The connection *)

(** The HTTP/2 connection preface. *)
Definition H2_PREFACE : string :=
  "PRI * HTTP/2.0" +:+ String "013" (String "010" (String "013" (String "010" ("SM" +:+ String "013" (String "010" (String "013" (String "010" EmptyString)))))))%char.

(** [protocol_identified]: the buffer after each [peek], which fills at most the
    length of the preface; nothing while the client has not sent enough. *)
Fixpoint protocol_identified (peeks : list (outcome string string)) : option (outcome string bool) :=
  match peeks with
  | [] => None
  | Ok buf :: peeks =>
      if String.eqb buf "" then Some (Ok false)
      else if (String.length buf =? String.length H2_PREFACE)%nat || negb (String.prefix buf H2_PREFACE) then Some (Ok true)
      else protocol_identified peeks
  | Err e :: _ => Some (Err e)
  | Panic :: _ => Some Panic
  end.

Inductive AcceptError := ConnectionRefused | ConnectionAborted | ConnectionReset | OtherAcceptError.

Definition is_connection_error (e : AcceptError) : bool :=
  match e with OtherAcceptError => false | _ => true end.

(** What the accept loop does with the result of one [accept]. *)
Inductive AcceptAction := SpawnConnection (id : Z) | AcceptAgain | BackOff.

Definition accept_action (r : outcome AcceptError Z) : AcceptAction :=
  match r with
  | Ok id => SpawnConnection id
  | Err e => if is_connection_error e then AcceptAgain else BackOff
  | Panic => BackOff
  end.

(** ** Lemmas *)

(** The output of the events up to the end or a failure. *)
Fixpoint output (events : list ReadEvent) : list byte * option string :=
  match events with
  | [] => ([], None)
  | Piece data :: events => let '(out, fail) := output events in (data ++ out, fail)
  | Interrupted :: events => output events
  | ReadFailed message :: _ => ([], Some message)
  end.

(** A reader returns no bytes only at its end. *)
Definition well_read (events : list ReadEvent) : Prop :=
  Forall (λ e, match e with Piece data => data ≠ [] | _ => True end) events.

(** What reading under a limit is to return. *)
Definition capped (limit : Z) (out : list byte) (fail : option string) : outcome ReadError (list byte) :=
  if limit <? zlen out then Err TooLarge else match fail with Some message => Err (Io message) | None => Ok out end.

Lemma capped_loop_spec fuel limit out capacity events :
  (reads_left events < fuel)%nat → well_read events → zlen out ≤ limit → 0 < capacity → zlen out ≤ capacity ≤ limit + 1 →
  capped_loop fuel (limit + 1) limit out capacity events = Some (capped limit (out ++ (output events).1) (output events).2).
Proof.
  revert out capacity events. induction fuel as [|fuel IH]; intros out capacity events Hfuel Hread Hout Hpos Hcap; [lia|].
  cbn [capped_loop]. destruct (Z.leb_spec (limit + 1) (zlen out)) as [?|Hlt]; [lia|]. rewrite andb_false_r.
  set (capacity' := if zlen out =? capacity then _ else _).
  assert (zlen out < capacity' ≤ limit + 1) as Hcap'.
  { unfold capacity', CHUNK. destruct (Z.eqb_spec (zlen out) capacity); lia. }
  assert (0 < capacity') as Hpos' by lia.
  assert (∀ n : nat, (length out + n)%nat = length out → n = 0%nat) as _ by lia.
  unfold well_read in Hread. destruct events as [|[data| |message] events]; cbn [read output fst snd reads_left] in *.
  - rewrite app_nil_r. unfold capped. destruct (Z.ltb_spec limit (zlen out)); [lia|done].
  - apply Forall_cons in Hread as [Hne Hread]. destruct (output events) as [more fail] eqn:Ho. cbn [fst snd].
    set (spare := Z.to_nat (capacity' - zlen out)). assert (1 ≤ spare)%nat as Hspare by lia.
    destruct (take spare data) as [|b got] eqn:Hgot.
    { destruct data; [done|]. destruct spare; [lia|done]. }
    rewrite <-Hgot. set (events' := match drop spare data with [] => events | _ => _ end).
    assert ((reads_left events' < fuel)%nat ∧ well_read events' ∧ (drop spare data ++ (output events).1, (output events).2) = output events') as (H1 & H2 & H3).
    { unfold events'. destruct (drop spare data) as [|c rest] eqn:Hd; cbn [reads_left output].
      - split; [lia|]. split; [done|]. by destruct (output events).
      - pose proof (f_equal length Hd) as Hl. rewrite length_drop in Hl. cbn in Hl |- *. split; [lia|].
        split; [by constructor|]. by rewrite Ho. }
    assert (out ++ data ++ more = (out ++ take spare data) ++ drop spare data ++ more) as ->.
    { by rewrite <-(assoc_L (++)), (assoc_L (++) (take spare data)), take_drop. }
    destruct (Z.ltb_spec limit (zlen (out ++ take spare data))) as [Hbig|Hsmall].
    + unfold capped. rewrite length_app. destruct (Z.ltb_spec limit (Z.of_nat (length (out ++ take spare data) + length (drop spare data ++ more)))); [done|lia].
    + rewrite IH; [|done|done|done|done|split; [|lia]]; [|rewrite length_app, length_take; lia].
      rewrite <-H3, Ho. done.
  - apply Forall_cons in Hread as [_ Hread]. destruct (Z.ltb_spec limit (zlen out)); [lia|].
    apply IH; [lia|done|done|done|lia].
  - rewrite app_nil_r. unfold capped. destruct (Z.ltb_spec limit (zlen out)); [lia|done].
Qed.

Lemma read_capped_capped events hint limit :
  well_read events → 0 ≤ limit < u64_max → 0 ≤ hint →
  read_capped events hint limit = Some (capped limit (output events).1 (output events).2).
Proof.
  intros Hread Hlimit Hhint. unfold read_capped, u64_saturating_add. rewrite Z.min_l by lia.
  apply (capped_loop_spec _ limit []); [lia|done|cbn; lia|..]; unfold first_capacity, u64_saturating_mul, CHUNK; cbn [length]; lia.
Qed.

Section DecodeLemmas.
Context (decoder : ContentEncoding → Z → list byte → option (list ReadEvent)).
(** A decoder's reads return no bytes only at their end. *)
Context (decoder_reads : ∀ encoding window input events, decoder encoding window input = Some events → well_read events).

(** The body a request is taken to have: itself, or what the decoder makes of
    it without failing. *)
Definition body_content (encoding : ContentEncoding) (body : list byte) (limit : Z) (bytes : list byte) : Prop :=
  match encoding with
  | Identity => bytes = body
  | _ => ∃ events, decoder encoding (zstd_window_log_max limit) body = Some events ∧ output events = (bytes, None)
  end.

(** C34: Decoding a body returns its content exactly when that has at most [limit]
    bytes; every other body is refused with 413 or 400. It always returns. *)
Theorem decode_body_exact encoding body limit :
  0 ≤ limit < u64_max →
  (∀ bytes, decode_body decoder encoding body limit = Ok bytes ↔ body_content encoding body limit bytes ∧ zlen bytes ≤ limit) ∧
  (∀ code, decode_body decoder encoding body limit = Err code → code = 413 ∨ code = 400) ∧
  decode_body decoder encoding body limit ≠ Panic.
Proof.
  intros Hlimit. unfold decode_body, body_content. case_bool_decide as He.
  - subst encoding. destruct (Z.ltb_spec limit (zlen body)) as [Hl|Hl]; split_and!; try done.
    + intros bytes. split; [done|]. intros [-> ?]. lia.
    + intros code [= <-]. by left.
    + intros bytes. split; [intros [= <-]; done|by intros [-> _]].
  - assert (decompress decoder encoding body limit =
      Some (match decoder encoding (zstd_window_log_max limit) body with
            | None => Err 400
            | Some events => map_err read_error_code (capped limit (output events).1 (output events).2)
            end)) as ->.
    { unfold decompress. destruct encoding; [done|..];
        (destruct (decoder _ _ body) as [events|] eqn:Hd; [|done]);
        rewrite read_capped_capped; first [done|lia|by eapply decoder_reads]. }
    assert (∀ P : Prop, (match encoding with Identity => P | _ => ∃ events,
        decoder encoding (zstd_window_log_max limit) body = Some events ∧ output events = ([], None) end) → True) as _ by done.
    destruct (decoder encoding (zstd_window_log_max limit) body) as [events|] eqn:Hd.
    + destruct (output events) as [out fail] eqn:Ho. cbn [fst snd]. unfold capped.
      assert (∀ bytes, match encoding with Identity => bytes = body
        | _ => ∃ events0, Some events = Some events0 ∧ output events0 = (bytes, None) end ↔ out = bytes ∧ fail = None) as Hc.
      { intros bytes. destruct encoding; [done|..]; split; [intros (? & [= <-] & ?)|intros [-> ->]; eauto|
          intros (? & [= <-] & ?)|intros [-> ->]; eauto]; split; congruence. }
      setoid_rewrite Hc. destruct (Z.ltb_spec limit (zlen out)); [|destruct fail as [message|]]; cbn; split_and!; try done.
      * intros bytes. split; [done|]. intros [[-> _] ?]. lia.
      * intros code [= <-]. by left.
      * intros bytes. split; [done|]. by intros [[_ ?] _].
      * intros code [= <-]. destruct (contains _ message); auto.
      * intros bytes. split; [intros [= <-]; done|by intros [[-> _] _]].
    + split_and!; [|intros code [= <-]; by right|done]. intros bytes. split; [done|]. intros [Hb _].
      destruct encoding; [done|..]; by destruct Hb as (? & ? & _).
Qed.
End DecodeLemmas.

Section RequestLemmas.
Context {H : Type} `{HeaderValues H} `{UuidParser} (show_duration : Z → string).

(** What the headers must establish. *)
Definition admissible (state : OtlpHttpState H) (headers : H) (now_ms : Z) (logs : AuthLogs) (checked : ExportPreflight) : Prop :=
  check_content_type headers = Ok () ∧ encoding_from_headers headers = Ok (pf_encoding checked) ∧
  auth_result show_duration (with_timeout (ingest_auth_new (hs_auth state) (hs_allow_test_header_context state)) (hs_auth_timeout state))
    headers now_ms logs = Some (Ok (pf_context checked)) ∧
  check_circuit_breaker (hs_circuit_breaker state) = None.

Lemma check_export_headers_Ok state headers now_ms logs checked :
  (check_export_headers show_duration state headers now_ms logs).2 = Some (Ok checked) ↔
  admissible state headers now_ms logs checked.
Proof.
  unfold check_export_headers, admissible, auth_result.
  destruct (check_content_type headers) as [[]|c|]; [|split; [done|by intros (? & _)]..].
  destruct (encoding_from_headers headers) as [e|c|]; [|split; [done|by intros (_ & ? & _)]..].
  cbn zeta. destruct (authenticate _ _ _ _ _) as [[logs' lines] [[context|rejection|]|]]; cbn;
    [|split; [done|by intros (_ & _ & ? & _)]..].
  destruct (check_circuit_breaker _) as [response|]; [split; [done|by intros (_ & _ & _ & ?)]|].
  destruct checked as [context' e']. cbn. split; [intros [= -> ->]; done|intros (_ & [= ->] & [= ->] & _); done].
Qed.

Lemma status_to_response_not_200 s : hr_code (status_to_response s) ≠ 200.
Proof. destruct s as [c m ri]. unfold status_to_response. cbn. by destruct c, ri. Qed.

Lemma rejected_not_200 state headers now_ms logs r :
  (check_export_headers show_duration state headers now_ms logs).2 = Some (Err r) → hr_code r ≠ 200.
Proof.
  unfold check_export_headers, check_content_type, encoding_from_headers, encoding_named.
  destruct (String.prefix _ _); [|by intros [= <-]].
  destruct (header_all headers "content-encoding") as [|value [|]]; [| |by intros [= <-]].
  2: destruct value as [text|]; ostep; [|by intros [= <-]].
  2: repeat match goal with |- context [if ?b then Ok _ else _] => destruct b end; [..|by intros [= <-]].
  all: cbn zeta; destruct (authenticate _ _ _ _ _) as [[logs' lines] [[context|rejection|]|]]; cbn; try done;
    [destruct (check_circuit_breaker _) as [response|] eqn:Hb; [|done]; intros [= <-]|intros [= <-]; by destruct rejection];
    destruct (hs_circuit_breaker state) as [[|s|]|]; cbn in Hb; simplify_eq; apply status_to_response_not_200.
Qed.

(** A request is decided from its headers first: unless they are admissible the
    answer is the same for every body, read or not, and the handler is not run;
    if they are, the handler is run exactly on the complete bodies, as the
    authenticated workspace. *)
Theorem headers_decide_first {S : Type} state headers now_ms body
    (handler : S → RequestContext → ContentEncoding * list byte → S * HttpResponse) st logs :
  let request := otlp_http_request show_duration state headers now_ms in
  (∀ checked, admissible state headers now_ms logs checked →
     request body handler st logs =
       match body with
       | BodyComplete bytes =>
           let '(st, response) := handler st (pf_context checked) (pf_encoding checked, bytes) in (st, Some response)
       | BodyTimedOut => (st, Some (http 408))
       | BodyOverLimit => (st, Some (http 413))
       | BodyBroken => (st, Some (http 400))
       end) ∧
  ((∀ checked, ¬ admissible state headers now_ms logs checked) →
     (∀ body' handler', request body handler st logs = request body' handler' st logs) ∧
     (request body handler st logs).1 = st).
Proof.
  intros request. unfold request, otlp_http_request. split.
  - intros checked ->%check_export_headers_Ok. by destruct body.
  - intros Hno. destruct ((check_export_headers show_duration state headers now_ms logs).2) as [[checked|response|]|] eqn:Hc; try done.
    by apply check_export_headers_Ok, Hno in Hc.
Qed.
End RequestLemmas.

(** As whom the server serves a request, with its authenticator and timeout. *)
Definition served_as {H : Type} `{HeaderValues H} `{UuidParser} (state : OtlpHttpState H) : H → RequestContext → Prop :=
  authorized_as (with_timeout (ingest_auth_new (hs_auth state) (hs_allow_test_header_context state)) (hs_auth_timeout state)).

(** C21: End to end over HTTP: when a logs export is answered 200, the request named
    a protobuf body in a supported encoding; the server takes requests without
    a key, and it counted as one of the nil workspace, or its bearer key was
    accepted in time, and it counted as one of the key's workspace (of the one
    the test header names, when that is allowed); the body decoded to at most
    the limit, and the writer took every score and log of it for that
    workspace. *)
Theorem http_logs_acknowledged {H Σ Span Metric Log Score R : Type} `{HeaderValues H} `{UuidParser}
    `{TelemetryWriter Σ Span Metric Log Score} show_duration
    (decoder : ContentEncoding → Z → list byte → option (list ReadEvent)) (decode : list byte → option (OtlpRequest R))
    policy_enforcer settings_repo extract_scores convert_logs now_ns
    (state : OtlpHttpState H) headers now_ms body (st st' : ExportSt Σ) logs response :
  (∀ encoding window input events, decoder encoding window input = Some events → well_read events) →
  0 ≤ hs_max_decoded_body_bytes state < u64_max →
  otlp_http_request show_duration state headers now_ms body
    (λ st context b, http_export_logs (decode_request decoder state) decode policy_enforcer settings_repo extract_scores
       convert_logs st (mkRequestCtx (workspace_id context) now_ns) b) st logs = (st', Some response) →
  hr_code response = 200 →
  ∃ checked wire bytes request,
    check_content_type headers = Ok () ∧ encoding_from_headers headers = Ok (pf_encoding checked) ∧
    served_as state headers (pf_context checked) ∧ check_circuit_breaker (hs_circuit_breaker state) = None ∧
    body = BodyComplete wire ∧
    body_content decoder (pf_encoding checked) wire (hs_max_decoded_body_bytes state) bytes ∧
    zlen bytes ≤ hs_max_decoded_body_bytes state ∧ decode bytes = Some request ∧
    let ctx := mkRequestCtx (workspace_id (pf_context checked)) now_ns in
    scores_of (ex_writer st') = scores_of (ex_writer st) ++ extract_scores request ctx ∧
    logs_of (ex_writer st') = logs_of (ex_writer st) ++ convert_logs request ctx.
Proof.
  intros Hdec Hlimit Hreq H200. unfold otlp_http_request in Hreq.
  destruct ((check_export_headers show_duration state headers now_ms logs).2) as [[checked|r|]|] eqn:Hc; simplify_eq/=.
  2: by apply rejected_not_200 in Hc.
  apply check_export_headers_Ok in Hc.
  destruct body as [wire| | |]; simplify_eq/=. set (ctx := mkRequestCtx (workspace_id (pf_context checked)) now_ns) in *.
  destruct (http_export_logs _ _ _ _ _ _ _ _ _) as [st1 response1] eqn:He. simplify_eq.
  destruct (decode_request decoder state (pf_encoding checked, wire)) as [code|bytes] eqn:Hb.
  { unfold http_export_logs in He. rewrite Hb in He. simplify_eq/=. unfold decode_request in Hb. cbn [fst snd] in Hb.
    destruct (decode_body_exact decoder Hdec (pf_encoding checked) wire _ Hlimit) as (_ & Hcode & _).
    destruct (decode_body _ _ _ _) as [?|code|]; simplify_eq. destruct (Hcode _ eq_refl); lia. }
  destruct (decode bytes) as [request|] eqn:Hd; [|unfold http_export_logs in He; rewrite Hb, Hd in He; by simplify_eq/=].
  destruct (validate_logs_request request) as [[]|e|] eqn:Hv;
    [|unfold http_export_logs in He; rewrite Hb, Hd, Hv in He; by simplify_eq/=..].
  rewrite (http_export_logs_body _ _ _ _ _ _ _ _ _ bytes request) in He by done. simplify_eq/=.
  apply response_200 in H200. exists checked, wire, bytes, request.
  destruct Hc as (? & ? & Hauth%auth_result_Ok & ?). do 3 (split; [done|]). split; [done|]. split; [done|].
  destruct (decode_body_exact decoder Hdec (pf_encoding checked) wire _ Hlimit) as (Hok & _).
  assert (decode_body decoder (pf_encoding checked) wire (hs_max_decoded_body_bytes state) = Ok bytes) as [? ?]%Hok.
  { unfold decode_request in Hb. cbn [fst snd] in Hb. by destruct (decode_body _ _ _ _); simplify_eq. }
  split; [done|]. split; [done|]. split; [done|]. eapply export_logs_body_ok. rewrite <-H200. apply surjective_pairing.
Qed.

(** A connection is served once what it sent cannot be a start of the HTTP/2
    preface, or is the whole of it; a client that stays within a part of the
    preface is left waiting, and is closed by the timeout around the check. *)
Theorem protocol_identified_decides peeks :
  Forall (λ buf, buf ≠ "" ∧ (String.length buf ≤ String.length H2_PREFACE)%nat) peeks →
  protocol_identified (Ok <$> peeks) =
    if existsb (λ buf, String.eqb buf H2_PREFACE || negb (String.prefix buf H2_PREFACE)) peeks then Some (Ok true) else None.
Proof.
  assert (∀ a b, String.prefix a b = true → String.length a = String.length b → a = b) as Hfull.
  { induction a as [|c a IH]; intros [|d b]; cbn; try done. destruct (ascii_dec c d) as [->|]; [|done].
    intros Hp [= Hl]. f_equal. by apply IH. }
  induction 1 as [|buf peeks [Hne Hlen] _ IH]; [done|]. cbn [fmap list_fmap protocol_identified existsb].
  destruct (String.eqb_spec buf "") as [?|_]; [done|].
  destruct (String.prefix buf H2_PREFACE) eqn:Hp; cbn [negb orb].
  - destruct (String.eqb_spec buf H2_PREFACE) as [->|Hneq]; [by rewrite Nat.eqb_refl|].
    destruct (Nat.eqb_spec (String.length buf) (String.length H2_PREFACE)); [by destruct Hneq; apply Hfull|]. by rewrite IH.
  - by rewrite !orb_true_r.
Qed.

(** A drain discards what a rejected request sends up to the limit, and at most
    one frame past it; drains in flight never exceed their cap. *)
Theorem drain_bounded limit frames running ended :
  Forall (λ n, 0 ≤ n) frames → zsum frames ≤ u64_max → 0 ≤ limit → running ≤ MAX_CONCURRENT_DRAINS →
  let '(drained, unread) := drain_frames limit 0 frames in
  (zsum frames ≤ limit → drained = zsum frames ∧ unread = []) ∧
  (limit < zsum frames → ∃ before last, frames = before ++ last :: unread ∧ zsum before ≤ limit ∧ drained = zsum before + last) ∧
  (try_drain ended running).1 ≤ MAX_CONCURRENT_DRAINS.
Proof.
  intros Hn Hsum Hlimit Hrun.
  assert (∀ frames done_, Forall (λ n, 0 ≤ n) frames → 0 ≤ done_ ≤ limit → done_ + zsum frames ≤ u64_max →
    let '(drained, unread) := drain_frames limit done_ frames in
    (done_ + zsum frames ≤ limit → drained = done_ + zsum frames ∧ unread = []) ∧
    (limit < done_ + zsum frames → ∃ before last, frames = before ++ last :: unread ∧
       done_ + zsum before ≤ limit ∧ drained = done_ + zsum before + last)) as Hgen.
  { clear. induction frames as [|n frames IH]; intros done_ Hn Hd Hs; cbn [drain_frames].
    - rewrite zsum_nil in *. split; [intros; split; [lia|done]|lia].
    - apply Forall_cons in Hn as [Hn Hns]. rewrite zsum_cons in *.
      assert (0 ≤ zsum frames) as Hz by by apply zsum_nonneg.
      unfold u64_saturating_add. rewrite Z.min_l by lia. destruct (Z.ltb_spec limit (done_ + n)).
      + split; [lia|]. intros _. exists [], n. rewrite zsum_nil. split; [done|lia].
      + specialize (IH (done_ + n) Hns ltac:(lia) ltac:(lia)). destruct (drain_frames _ _ _) as [drained unread].
        destruct IH as [IH1 IH2]. split.
        * intros ?. destruct IH1 as [-> ->]; [lia|]. split; [lia|done].
        * intros ?. destruct IH2 as (before & last & -> & ? & ?); [lia|]. exists (n :: before), last.
          rewrite zsum_cons. split; [done|lia]. }
  specialize (Hgen frames 0 Hn ltac:(lia) ltac:(lia)). destruct (drain_frames limit 0 frames) as [drained unread].
  destruct Hgen as [H1 H2]. split_and!; [exact H1|exact H2|].
  unfold try_drain. destruct ended; [done|]. destruct (Z.ltb_spec running MAX_CONCURRENT_DRAINS); cbn; lia.
Qed.

(** ** Witnesses *)

(** A decoder that repeats every byte of its input, one piece each. *)
Definition doubling : ContentEncoding → Z → list byte → option (list ReadEvent) :=
  λ _ _ input, Some (Interrupted :: ((λ b, Piece [b; b]) <$> input)).

Lemma doubling_reads encoding window input events : doubling encoding window input = Some events → well_read events.
Proof.
  intros [= <-]. constructor; [done|]. apply Forall_fmap, Forall_forall. intros b _. done.
Defined.

Lemma decode_body_exact_witness :
  decode_body doubling Gzip [Byte.x41; Byte.x42] 4 = Ok [Byte.x41; Byte.x41; Byte.x42; Byte.x42] ∧
  decode_body doubling Gzip [Byte.x41; Byte.x42] 3 = Err 413.
Proof.
  split; [|vm_compute; reflexivity].
  apply (decode_body_exact doubling doubling_reads Gzip [Byte.x41; Byte.x42] 4 ltac:(vm_compute; split; [discriminate|reflexivity])).
  split; [|vm_compute; discriminate].
  exists [Interrupted; Piece [Byte.x41; Byte.x41]; Piece [Byte.x42; Byte.x42]]. split; reflexivity.
Defined.

#[local] Existing Instance list_writer.
#[local] Existing Instance uuid_sample.

(** Header maps as association lists, all values of a name. *)
#[local] Instance header_list_values : HeaderValues header_list := {|
  header_values_get := λ headers name, head ((λ kv : string * string, Some kv.2) <$> filter (λ kv, String.eqb kv.1 name = true) headers);
  header_all headers name := (λ kv : string * string, Some kv.2) <$> filter (λ kv, String.eqb kv.1 name = true) headers;
  header_get_all headers name := eq_refl;
|}.

Definition export_headers : header_list :=
  [("content-type", "application/x-protobuf"); ("content-encoding", " GZIP"); ("authorization", "Bearer zk_live")].

Definition http_state : OtlpHttpState header_list :=
  mkHttpState (Some (config_authenticator (from_config sample_keys))) false (Some DEFAULT_AUTH_TIMEOUT) (Some (Ok ())) 4.

Definition decode_bytes (bytes : list byte) : option (OtlpRequest Z) := Some [[map byte.unsigned bytes]].

Definition sample_handler (st : ExportSt ListWriter) (context : RequestContext) (b : ContentEncoding * list byte) :
    ExportSt ListWriter * HttpResponse :=
  http_export_logs (decode_request doubling http_state) decode_bytes None None sample_scores Export.sample_logs st
    (mkRequestCtx (workspace_id context) 0) b.

Lemma headers_decide_first_witness :
  otlp_http_request (λ _, "10s") http_state export_headers 0 BodyTimedOut sample_handler (mkExportSt (mkListWriter [] [] []) None)
    Auth.sample_logs = (mkExportSt (mkListWriter [] [] []) None, Some (http 408)).
Proof.
  rewrite (proj1 (headers_decide_first (λ _, "10s") http_state export_headers 0 BodyTimedOut sample_handler
    (mkExportSt (mkListWriter [] [] []) None) Auth.sample_logs) (mkPreflight (mkContext 9) Gzip));
    [reflexivity|]. split_and!; vm_compute; reflexivity.
Defined.

Lemma http_logs_acknowledged_witness :
  ∃ bytes request, zlen bytes ≤ 4 ∧ decode_bytes bytes = Some request ∧ [65; 65; 66; 66] = concat (concat request).
Proof.
  destruct (http_logs_acknowledged (λ _, "10s") doubling decode_bytes None None sample_scores Export.sample_logs 0 http_state
    export_headers 0 (BodyComplete [Byte.x41; Byte.x42]) (mkExportSt (mkListWriter [] [] []) None)
    (mkExportSt (mkListWriter [65; 65; 66; 66] [] []) None) Auth.sample_logs (http 200) doubling_reads
    ltac:(vm_compute; split; [discriminate|reflexivity]) ltac:(vm_compute; reflexivity) eq_refl)
    as (checked & wire & bytes & request & _ & _ & _ & _ & Hw & Hc & Hl & Hd & Hscores & Hlogs).
  exists bytes, request. split; [exact Hl|]. split; [exact Hd|exact Hlogs].
Defined.

Lemma protocol_identified_decides_witness :
  protocol_identified (Ok <$> ["P"; "PRI * HT"]) = None ∧ protocol_identified (Ok <$> ["P"; "POST /v1"]) = Some (Ok true).
Proof.
  assert (∀ s, s ≠ "" → Nat.leb (String.length s) (String.length H2_PREFACE) = true →
    s ≠ "" ∧ (String.length s ≤ String.length H2_PREFACE)%nat) as Hok.
  { intros s Hs Hl. split; [exact Hs|]. by apply Nat.leb_le. }
  split.
  - rewrite (protocol_identified_decides ["P"; "PRI * HT"]); [reflexivity|].
    constructor; [apply Hok; [discriminate|reflexivity]|constructor; [apply Hok; [discriminate|reflexivity]|constructor]].
  - rewrite (protocol_identified_decides ["P"; "POST /v1"]); [reflexivity|].
    constructor; [apply Hok; [discriminate|reflexivity]|constructor; [apply Hok; [discriminate|reflexivity]|constructor]].
Defined.

Lemma drain_bounded_witness :
  drain_frames 10 0 [4; 5; 6; 7] = (15, [7]) ∧ (try_drain false 64).1 ≤ 64.
Proof.
  split; [vm_compute; reflexivity|].
  refine (proj2 (proj2 (drain_bounded 10 [4; 5; 6; 7] 64 false _ _ _ _))).
  - apply (bool_decide_unpack _). vm_compute. exact I.
  - vm_compute. discriminate.
  - discriminate.
  - discriminate.
Defined.
