(* ===== verification/Authorize.v ===== *)
(** Authorisation of the query and admin APIs: [api/src/http/auth_extractor.rs],
    [api/src/grpc/auth.rs] and [grpc/errors.rs], the errors of
    [api/src/errors/mod.rs] and [zradar-traits/src/errors.rs], the capabilities
    of [zradar-traits/src/capability.rs] and the context of
    [auth_context.rs], and the authorizer over the configured keys,
    [zradar-runtime/src/config_key.rs].

    An authorizer turns the headers into a workspace and capability keys; the
    handlers ask the resulting context what the caller may do. *)

From stdpp Require Import base gmap list strings.
From Stdlib Require Import Ascii.
From S2P Require Import Prelude ParquetWriter Export Auth.

(** ** Errors *)

(** [ControlError] of the HTTP API; [Database] holds the driver's error. *)
Inductive ControlError :=
| Database (cause : string) | NotFound (message : string) | Unauthorized (message : string)
| Forbidden (message : string) | InvalidInput (message : string) | Internal (message : string).
#[export] Instance ControlError_eq_dec : EqDecision ControlError.
Proof. solve_decision. Defined.

(** [IntoResponse]: the status and the message of the body; the causes of
    server errors are logged, not returned. *)
Definition error_response (e : ControlError) : Z * string :=
  match e with
  | Database _ => (500, "Database error")
  | NotFound message => (404, message)
  | Unauthorized message => (401, message)
  | Forbidden message => (403, message)
  | InvalidInput message => (400, message)
  | Internal _ => (500, "Internal server error")
  end.

Module Service.
(** [ServiceError] of the service traits. *)
Inductive ServiceError :=
| NotFound (m : string) | Unauthorized (m : string) | Forbidden (m : string) | InvalidInput (m : string)
| Internal (m : string) | ResourceExhausted (m : string) | Unimplemented (m : string).

(** [into_status] of the gRPC transport. *)
Definition into_status (e : ServiceError) : Status :=
  match e with
  | NotFound m => status CodeNotFound m
  | Unauthorized m => status Unauthenticated m
  | Forbidden m => status PermissionDenied m
  | InvalidInput m => status InvalidArgument m
  | Internal m => status InternalError m
  | ResourceExhausted m => status Export.ResourceExhausted m
  | Unimplemented m => status Export.Unimplemented m
  end.
End Service.

(** ** Capabilities *)

Inductive Capability :=
| ReadTraces | ReadDashboards | ReadLogs | ReadMetrics | ReadSettings | WriteSettings | Admin.
#[export] Instance Capability_eq_dec : EqDecision Capability.
Proof. solve_decision. Defined.

Definition from_key (key : string) : option Capability :=
  if String.eqb key "read_traces" then Some ReadTraces
  else if String.eqb key "read_dashboards" then Some ReadDashboards
  else if String.eqb key "read_logs" then Some ReadLogs
  else if String.eqb key "read_metrics" then Some ReadMetrics
  else if String.eqb key "read_settings" then Some ReadSettings
  else if String.eqb key "write_settings" then Some WriteSettings
  else if String.eqb key "admin" then Some Admin
  else None.

(** [{:?}] of a capability. *)
Definition show_capability (c : Capability) : string :=
  match c with
  | ReadTraces => "ReadTraces" | ReadDashboards => "ReadDashboards" | ReadLogs => "ReadLogs"
  | ReadMetrics => "ReadMetrics" | ReadSettings => "ReadSettings" | WriteSettings => "WriteSettings" | Admin => "Admin"
  end.

Definition missing_capability (c : Capability) : string := String.append "missing capability: " (show_capability c).

(** What an authorizer resolves. *)
Record AuthResolution := mkResolution { r_context : RequestContext; capability_keys : list string }.

(** [split(',')]. *)
Fixpoint split_commas (s : string) : list string :=
  match s with
  | EmptyString => [EmptyString]
  | String c s' =>
      if Ascii.eqb c ","%char then EmptyString :: split_commas s'
      else match split_commas s' with
           | part :: parts => String c part :: parts
           | [] => [String c EmptyString]
           end
  end.

(** [parse_capabilities] of a comma-separated header. *)
Definition parse_capabilities (trim : string → string) (header : string) : list Capability :=
  omap (λ p, from_key (trim p)) (split_commas header).

(** ** The context of a handler

    [AuthContext] of both transports; the authentication mode has the one value
    [Standalone]. *)
Inductive AuthMode := Standalone.

Record AuthContext := mkAuthContext { ac_ctx : RequestContext; ac_mode : AuthMode; ac_capabilities : list Capability }.

Definition ac_workspace (auth : AuthContext) : Z := workspace_id (ac_ctx auth).
Definition standalone (auth : AuthContext) : bool := bool_decide (ac_capabilities auth = []).

Definition require (auth : AuthContext) (c : Capability) : outcome ControlError unit :=
  if standalone auth then Ok ()
  else if bool_decide (c ∈ ac_capabilities auth) then Ok () else Err (Forbidden (missing_capability c)).

(** [require] of the service layer's context. *)
Definition service_require (auth : AuthContext) (c : Capability) : outcome Service.ServiceError unit :=
  if standalone auth || bool_decide (c ∈ ac_capabilities auth) then Ok ()
  else Err (Service.Forbidden (missing_capability c)).

Definition enforce_path_workspace (auth : AuthContext) (path_workspace : Z) : outcome ControlError unit :=
  if standalone auth then Ok ()
  else if negb (ac_workspace auth =? path_workspace)
       then Err (Forbidden "path workspace_id does not match authenticated workspace")
       else Ok ().

Definition workspace_or_standalone_override (auth : AuthContext) (requested : option Z) : outcome ControlError Z :=
  if standalone auth then Ok (default (ac_workspace auth) requested) else Ok (ac_workspace auth).

Definition workspace_or_reject_platform_override (auth : AuthContext) (requested : option Z) : outcome ControlError Z :=
  if standalone auth then Ok (default (ac_workspace auth) requested)
  else match requested with
       | Some w => if negb (w =? ac_workspace auth)
                   then Err (Forbidden "workspace_id override not allowed when capabilities are enforced")
                   else Ok (ac_workspace auth)
       | None => Ok (ac_workspace auth)
       end.

Definition audit_scope (auth : AuthContext) (requested : option Z) : outcome ControlError (option Z) :=
  if negb (standalone auth) then Ok (Some (ac_workspace auth)) else Ok requested.

(** ** The transports *)

(** An HTTP rejection: the status, the [Retry-After] seconds and the body. *)
Record HttpRejection := mkHttpRejection { rj_code : Z; rj_retry_after : option Z; rj_body : string }.

(** [AuthError] as a response. *)
Definition auth_error (message : string) : HttpRejection := mkHttpRejection 401 None message.

(** [rejection_response]: the delay is written as in the ingest transports. *)
Definition rejection_response (error : AuthError) : HttpRejection :=
  match find error with
  | Some (_, retry_after) =>
      mkHttpRejection 503 (Some (retry_after_header retry_after)) "Credential verification temporarily unavailable"
  | None => auth_error "Invalid credentials"
  end.

Definition rejection_status (error : AuthError) : Status :=
  match find error with
  | Some (_, retry_after) => unavailable "credential verification temporarily unavailable" retry_after
  | None => status Unauthenticated "Invalid credentials"
  end.

Definition auth_context_from_resolution (resolution : AuthResolution) : AuthContext :=
  mkAuthContext (r_context resolution) Standalone (omap from_key (capability_keys resolution)).

Section Transports.
Context {H : Type}.
(** [QueryAuthorizer] and [AdminAuthorizer]: from the headers. *)
Abbreviation Authorizer := (H → outcome AuthError AuthResolution).

(** [AuthContext::from_request_parts]; the mode and the authorizers are the
    request's extensions. *)
Definition from_request_parts (mode : option AuthMode) (query admin : option Authorizer) (headers : H) :
    outcome HttpRejection AuthContext :=
  mode ← ok_or mode (auth_error "Auth mode not configured");
  resolution ←
    match query, admin with
    | Some authorizer, _ | None, Some authorizer => map_err rejection_response (authorizer headers)
    | None, None => Err (auth_error "QueryAuthorizer or AdminAuthorizer not configured")
    end;
  mret (mkAuthContext (r_context resolution) mode (omap from_key (capability_keys resolution))).

(** [authorize_request], which [authorize_query] and [authorize_admin] call with
    the metadata as headers. *)
Definition authorize_request (authorizer : Authorizer) (headers : H) (cap : Capability) : outcome Status AuthContext :=
  resolution ← map_err rejection_status (authorizer headers);
  let auth := auth_context_from_resolution resolution in
  _ ← map_err Service.into_status (service_require auth cap);
  mret auth.

(** *** The authorizer over the configured keys *)

Context `{Headers H} `{UuidParser}.

Record ConfigKeyStore := mkConfigKeyStore { cks_keys : gmap string RequestContext; cks_allow_test_header_context : bool }.

Definition config_key_store (api_keys : list ApiKeyConfig) (allow : bool) : ConfigKeyStore :=
  mkConfigKeyStore (from_config api_keys) allow.

Definition header_str (headers : H) (name : string) : option string := mjoin (header_get headers name).

(** [ConfigKeyStore::authorize]. *)
Definition config_key_authorize (store : ConfigKeyStore) (headers : H) : outcome AuthError AuthResolution :=
  bearer ← ok_or (header_str headers "authorization" ≫= strip_prefix "Bearer ") [OtherCause "Missing Authorization header"];
  context ← ok_or (cks_keys store !! bearer) [OtherCause "Invalid API key"];
  let context :=
    if cks_allow_test_header_context store
    then match header_str headers "x-workspace-id" ≫= parse_uuid with Some id => mkContext id | None => context end
    else context in
  mret (mkResolution context []).

(** [api_key_authorizers_from_config]: both authorizers over one table. *)
Definition api_key_authorizers_from_config (api_keys : list ApiKeyConfig) (allow : bool) : Authorizer * Authorizer :=
  let store := config_key_store api_keys allow in (config_key_authorize store, config_key_authorize store).
End Transports.

(** ** Lemmas *)

Lemma standalone_true auth : standalone auth = true ↔ ac_capabilities auth = [].
Proof. unfold standalone. by rewrite bool_decide_eq_true. Qed.

Lemma standalone_false auth : standalone auth = false ↔ ac_capabilities auth ≠ [].
Proof. unfold standalone. by rewrite bool_decide_eq_false. Qed.

Lemma require_Ok auth c : require auth c = Ok () ↔ ac_capabilities auth = [] ∨ c ∈ ac_capabilities auth.
Proof.
  unfold require, standalone. case_bool_decide as Hs; [split; auto|]. case_bool_decide as Hc; split; auto; [done|].
  by intros [?|?].
Qed.

Lemma require_cases auth c : require auth c = Ok () ∨ require auth c = Err (Forbidden (missing_capability c)).
Proof. unfold require. destruct (standalone auth); [by left|]. case_bool_decide; auto. Qed.

Lemma service_require_agree auth c :
  service_require auth c = map_err (λ _, Service.Forbidden (missing_capability c)) (require auth c).
Proof. unfold service_require, require. destruct (standalone auth); [done|]. by case_bool_decide. Qed.

Lemma from_key_show c key : from_key key = Some c ↔
  key = match c with
        | ReadTraces => "read_traces" | ReadDashboards => "read_dashboards" | ReadLogs => "read_logs"
        | ReadMetrics => "read_metrics" | ReadSettings => "read_settings" | WriteSettings => "write_settings" | Admin => "admin"
        end.
Proof.
  unfold from_key. split; [|by destruct c; intros ->].
  repeat match goal with
  | |- context [String.eqb key ?s] => destruct (String.eqb_spec key s) as [->|_]; [by intros [= <-]|]
  end. done.
Qed.

(** ** Properties *)

(** The HTTP status that says what a gRPC code says, for the codes of the query
    and admin APIs. *)
Definition http_status (c : Code) : Z :=
  match c with
  | InvalidArgument => 400 | Unauthenticated => 401 | PermissionDenied => 403 | CodeNotFound => 404
  | Unavailable => 503 | _ => 500
  end.

(** The HTTP extractor and the gRPC helper, over one authorizer, take the same
    decision: the same context for the same callers, and for the others the same
    refusal, 401 and [UNAUTHENTICATED], 503 and [UNAVAILABLE] with the same delay,
    or 403 and [PERMISSION_DENIED] with the same message. *)
Theorem transports_authorize_alike {H : Type} (authorizer : H → outcome AuthError AuthResolution) headers cap :
  let http := from_request_parts (Some Standalone) (Some authorizer) None headers in
  match authorize_request authorizer headers cap with
  | Ok auth => http = Ok auth ∧ require auth cap = Ok ()
  | Err s =>
      (∃ r, http = Err r ∧ (r = auth_error "Invalid credentials" ∧ s = status Unauthenticated "Invalid credentials" ∨
         ∃ d, rj_code r = 503 ∧ rj_retry_after r = Some (retry_after_header d) ∧ st_code s = Unavailable ∧ retry_delay s = Some d)) ∨
      (∃ auth m, http = Ok auth ∧ require auth cap = Err (Forbidden m) ∧ s = status PermissionDenied m)
  | Panic => http = Panic
  end.
Proof.
  unfold from_request_parts, authorize_request. cbn zeta. destruct (authorizer headers) as [resolution|error|]; ostep; [|left|done].
  - unfold auth_context_from_resolution. cbn zeta. set (auth := mkAuthContext _ _ _).
    rewrite service_require_agree. destruct (require_cases auth cap) as [Hr|Hr]; rewrite Hr; cbn; [by split|].
    right. exists auth, (missing_capability cap). done.
  - eexists. split; [done|]. unfold rejection_response, rejection_status. destruct (find error) as [[reason d]|]; [right|by left].
    by exists d.
Qed.

(** A caller with at least one capability acts for its own workspace only: it
    may do what its list holds, and no path, override or filter gives it another
    workspace. *)
Theorem capabilities_confine auth :
  ac_capabilities auth ≠ [] →
  (∀ c, require auth c = Ok () ↔ c ∈ ac_capabilities auth) ∧
  (∀ w, enforce_path_workspace auth w = Ok () ↔ w = ac_workspace auth) ∧
  (∀ r w, workspace_or_standalone_override auth r = Ok w ↔ w = ac_workspace auth) ∧
  (∀ r w, workspace_or_reject_platform_override auth r = Ok w ↔ w = ac_workspace auth ∧ (r = None ∨ r = Some w)) ∧
  (∀ r s, audit_scope auth r = Ok s ↔ s = Some (ac_workspace auth)).
Proof.
  intros Hne. pose proof Hne as Hs%standalone_false.
  unfold enforce_path_workspace, workspace_or_standalone_override, workspace_or_reject_platform_override, audit_scope.
  rewrite Hs. cbn [negb]. split_and!.
  - intros c. rewrite require_Ok. tauto.
  - intros w. destruct (Z.eqb_spec (ac_workspace auth) w); cbn; split; congruence.
  - split; congruence.
  - intros [r|] w; [destruct (Z.eqb_spec r (ac_workspace auth)); cbn|]; split; intros; destruct_and?; destruct_or?; simplify_eq; auto.
  - split; congruence.
Qed.

(** Capability keys the server does not know are dropped, and a caller left
    with none is taken for a standalone one: though its authorizer granted it a
    list, every capability check passes and every workspace is open to it. *)
Theorem unknown_capabilities_unrestricted {H : Type} (authorizer : H → outcome AuthError AuthResolution) headers resolution c w :
  authorizer headers = Ok resolution → Forall (λ key, from_key key = None) (capability_keys resolution) →
  ∃ auth, from_request_parts (Some Standalone) (Some authorizer) None headers = Ok auth ∧
    require auth c = Ok () ∧ enforce_path_workspace auth w = Ok () ∧
    workspace_or_standalone_override auth (Some w) = Ok w ∧
    workspace_or_reject_platform_override auth (Some w) = Ok w ∧ audit_scope auth None = Ok None ∧
    authorize_request authorizer headers c = Ok auth.
Proof.
  intros Ha Hall. assert (omap from_key (capability_keys resolution) = []) as Hnil.
  { induction Hall as [|key keys Hk _ IH]; [done|]. cbn. by rewrite Hk. }
  eexists. unfold from_request_parts, authorize_request, auth_context_from_resolution. rewrite Ha. ostep.
  unfold service_require, require, enforce_path_workspace, workspace_or_standalone_override,
    workspace_or_reject_platform_override, audit_scope, standalone. cbn [ac_capabilities]. rewrite Hnil. done.
Qed.

(** With the configured keys, a request is authorised exactly when it carries a
    listed key, as the ingest transport accepts it; and it is then a standalone
    caller. *)
Theorem config_key_authorize_spec {H : Type} `{Headers H} `{UuidParser} api_keys allow show_duration (headers : H) now logs r :
  config_key_authorize (config_key_store api_keys allow) headers = Ok r ↔
  auth_result show_duration (ingest_auth_new (Some (config_authenticator (from_config api_keys))) allow) headers now logs =
    Some (Ok (r_context r)) ∧ capability_keys r = [].
Proof.
  unfold config_key_authorize, auth_result, authenticate, header_str, bearer_token, override_workspace, test_workspace, header_str.
  cbn [authenticator ingest_auth_new allow_test_header_context config_key_store cks_keys cks_allow_test_header_context].
  assert (∀ o : option (option string), (v ← o; s ← v; parse_uuid s) = mjoin o ≫= parse_uuid) as -> by by intros [[s|]|].
  destruct (header_get headers "authorization") as [[v|]|]; cbn -[strip_prefix]; [|split; [done|by intros [? _]]..].
  destruct (strip_prefix "Bearer " v) as [token|]; cbn; [|split; [done|by intros [? _]]].
  unfold config_authenticate. destruct (from_config api_keys !! token) as [context|]; cbn; [|split; [done|by intros [? _]]].
  destruct r as [context' keys]. ostep. cbn. split; [intros [= <- <-]; done|intros [[= <-] ->]; done].
Qed.

(** ** Witnesses *)

Definition platform_caller : AuthContext := mkAuthContext (mkContext 7) Standalone [ReadTraces; ReadSettings].

Lemma capabilities_confine_witness :
  require platform_caller ReadTraces = Ok () ∧ workspace_or_standalone_override platform_caller (Some 8) = Ok 7.
Proof.
  split; apply (capabilities_confine platform_caller ltac:(discriminate)); [by left|reflexivity].
Defined.

Lemma unknown_capabilities_unrestricted_witness :
  let authorizer (_ : unit) := Ok (mkResolution (mkContext 7) ["read_profiles"]) in
  ∃ auth, from_request_parts (Some Standalone) (Some authorizer) None () = Ok auth ∧
    require auth Admin = Ok () ∧ enforce_path_workspace auth 8 = Ok () ∧
    workspace_or_standalone_override auth (Some 8) = Ok 8 ∧
    workspace_or_reject_platform_override auth (Some 8) = Ok 8 ∧ audit_scope auth None = Ok None ∧
    authorize_request authorizer () Admin = Ok auth.
Proof.
  intros authorizer.
  apply (unknown_capabilities_unrestricted authorizer () (mkResolution (mkContext 7) ["read_profiles"]) Admin 8);
    [reflexivity|repeat constructor].
Defined.
