(* ===== verification/PolicyDb.v ===== *)
(** The policy table and its cache: [PostgresPolicyStore] in
    [zradar-plugin-postgres/src/repositories/policy.rs].

    Policies are rows under a partial unique index, one open-ended row per key.
    Every change is followed by a refresh, which replaces the cache resolution
    reads from; a timer refreshes it too. *)

From stdpp Require Import base gmap sorting list strings.
From S2P Require Import Prelude PolicyStore.

(** ** The table *)

(** A row with the columns the cache does not read. *)
Record PolicyRecord := mkPolicyRecord {
  pr_row : PolicyRow;
  pr_limit_kind : string;
  pr_updated_at : Z;
}.

(** The table and the next value of its id sequence. *)
Record PolicyTable := mkPolicyTable { policies : list PolicyRecord; next_id : Z }.

Record PostgresPolicyStore := mkPolicyStore { table : PolicyTable; cache : PolicyCacheMap }.

Definition policy_store_new (t : PolicyTable) : PostgresPolicyStore := mkPolicyStore t ∅.

Definition record_key (r : PolicyRecord) : PolicyCacheKey :=
  (row_workspace_id (pr_row r), row_signal_kind (pr_row r), row_operation (pr_row r), pr_limit_kind r).

Definition open_ended (r : PolicyRecord) : bool := bool_decide (row_effective_until (pr_row r) = None).

(** The row an insert would conflict with. *)
Definition conflicts (key : PolicyCacheKey) (r : PolicyRecord) : bool :=
  bool_decide (record_key r = key) && open_ended r.

(** The columns bound for a policy; [serde_json] writes every limit. *)
Definition policy_record (id now : Z) (p : Policy) : PolicyRecord :=
  mkPolicyRecord
    (mkPolicyRow id (p_workspace_id p) (signal_kind (p_signal p)) (operation (p_operation p)) (Ok (p_limit p))
       (p_grace_pct p) (p_hard_block_pct p) (p_effective_from p) (p_effective_until p) (policy_source (p_source p)))
    (limit_kind (p_limit p)) now.

(** [CHECK (effective_until IS NULL OR effective_until > effective_from)]. *)
Definition period_ok (p : Policy) : bool :=
  match p_effective_until p with Some until => p_effective_from p <? until | None => true end.

(** The statement of [upsert] and [upsert_many]: only open-ended rows are in the
    index, so only an open-ended policy updates a row, in place and under its
    old id. The sequence advances either way. *)
Definition policy_upsert_row (now : Z) (t : PolicyTable) (p : Policy) : outcome PolicyError PolicyTable :=
  if negb (period_ok p) then Err StoreUnavailable
  else
    let updates := bool_decide (p_effective_until p = None) && existsb (conflicts (policy_key p)) (policies t) in
    let rows :=
      if updates
      then (λ r, if conflicts (policy_key p) r then policy_record (row_id (pr_row r)) now p else r) <$> policies t
      else policies t ++ [policy_record (next_id t) now p] in
    mret (mkPolicyTable rows (next_id t + 1)).

(** ** The operations *)

(** How the statement or transaction of a call ends, and the clock it reads:
    applied and answered, not applied, or applied with the answer lost. *)
Inductive WriteAnswer := WriteDone | WriteFailed | WriteUnanswered.

Record PolicyEnv := mkPolicyEnv {
  pe_now : Z;
  pe_write : WriteAnswer;
  pe_refresh_now : Z;
  pe_refresh_ok : bool;
}.

(** [ORDER BY updated_at DESC]: some order of the rows, newest first. *)
Class NewestFirst := {
  newest_first : list PolicyRecord → list PolicyRecord;
  newest_first_perm rows : newest_first rows ≡ₚ rows;
  newest_first_sorted rows : StronglySorted (λ a b, pr_updated_at b ≤ pr_updated_at a) (newest_first rows);
}.

Section Store.
Context `{NewestFirst}.

Definition in_effect (now : Z) (r : PolicyRecord) : bool :=
  (row_effective_from (pr_row r) <=? now) &&
  match row_effective_until (pr_row r) with None => true | Some until => now <? until end.

Definition refresh_rows (now : Z) (t : PolicyTable) : list PolicyRow :=
  pr_row <$> newest_first (filter (λ r, in_effect now r = true) (policies t)).

Definition policy_refresh (now : Z) (ok : bool) (s : PostgresPolicyStore) : PostgresPolicyStore * outcome PolicyError unit :=
  if ok then (mkPolicyStore (table s) (rows_to_cache (refresh_rows now (table s))), Ok ())
  else (s, Err StoreUnavailable).

(** A change of the table, then the refresh. *)
Definition change (env : PolicyEnv) (s : PostgresPolicyStore) (t : outcome PolicyError PolicyTable) :
    PostgresPolicyStore * outcome PolicyError unit :=
  match t with
  | Ok t =>
      match pe_write env with
      | WriteDone => policy_refresh (pe_refresh_now env) (pe_refresh_ok env) (mkPolicyStore t (cache s))
      | WriteFailed => (s, Err StoreUnavailable)
      | WriteUnanswered => (mkPolicyStore t (cache s), Err StoreUnavailable)
      end
  | Err e => (s, Err e)
  | Panic => (s, Panic)
  end.

Definition upsert (env : PolicyEnv) (p : Policy) (s : PostgresPolicyStore) : PostgresPolicyStore * outcome PolicyError unit :=
  change env s (policy_upsert_row (pe_now env) (table s) p).

(** [upsert_many]: one transaction. *)
Definition upsert_many (env : PolicyEnv) (ps : list Policy) (s : PostgresPolicyStore) :
    PostgresPolicyStore * outcome PolicyError unit :=
  match ps with
  | [] => (s, Ok ())
  | _ => change env s (ofold (policy_upsert_row (pe_now env)) (table s) ps)
  end.

Definition delete (env : PolicyEnv) (id : Z) (s : PostgresPolicyStore) : PostgresPolicyStore * outcome PolicyError unit :=
  change env s (Ok (mkPolicyTable (filter (λ r, row_id (pr_row r) ≠ id) (policies (table s))) (next_id (table s)))).

(** [collect] into a [Result]: the first row that does not decode fails the
    whole list. *)
Fixpoint collect (rows : list PolicyRow) : outcome PolicyError (list Policy) :=
  match rows with
  | [] => mret []
  | row :: rows => p ← row_to_policy row; ps ← collect rows; mret (p :: ps)
  end.

Definition policy_list (ok : bool) (workspace_id : Z) (s : PostgresPolicyStore) : outcome PolicyError (list Policy) :=
  if ok
  then collect (pr_row <$> newest_first (filter (λ r, row_workspace_id (pr_row r) = workspace_id) (policies (table s))))
  else Err StoreUnavailable.

Definition resolve (s : PostgresPolicyStore) (workspace_id : Z) (signal : SignalKind) (op : Operation) : ResolvedPolicy :=
  resolve_cached_policy (cache s) workspace_id signal op.

(** ** Runs *)

Inductive PolicyOp := OpUpsert (p : Policy) | OpUpsertMany (ps : list Policy) | OpDelete (id : Z) | OpTick.

Definition policy_step (s : PostgresPolicyStore) (e : PolicyOp * PolicyEnv) : PostgresPolicyStore :=
  match e.1 with
  | OpUpsert p => (upsert e.2 p s).1
  | OpUpsertMany ps => (upsert_many e.2 ps s).1
  | OpDelete id => (delete e.2 id s).1
  | OpTick => (policy_refresh (pe_refresh_now e.2) (pe_refresh_ok e.2) s).1
  end.

Definition policy_run (s : PostgresPolicyStore) (es : list (PolicyOp * PolicyEnv)) : PostgresPolicyStore :=
  foldl policy_step s es.

(** The table: ids are distinct and below the sequence, and the index holds. *)
Record table_wf (t : PolicyTable) : Prop := {
  tw_ids : NoDup ((λ r, row_id (pr_row r)) <$> policies t);
  tw_next : Forall (λ r, row_id (pr_row r) < next_id t) (policies t);
  tw_index : NoDup (record_key <$> filter (λ r, open_ended r = true) (policies t));
}.
End Store.

(** ** Lemmas on the table *)

Lemma conflicts_true key r : conflicts key r = true ↔ record_key r = key ∧ open_ended r = true.
Proof. unfold conflicts. by rewrite andb_true_iff, bool_decide_eq_true. Qed.

Lemma policy_record_key id now p : record_key (policy_record id now p) = policy_key p.
Proof. done. Qed.

Lemma policy_record_open id now p : open_ended (policy_record id now p) = bool_decide (p_effective_until p = None).
Proof. done. Qed.

(** An update in place changes neither the ids nor the indexed keys. *)
Lemma update_rows now p (rows : list PolicyRecord) :
  p_effective_until p = None →
  let f r := if conflicts (policy_key p) r then policy_record (row_id (pr_row r)) now p else r in
  (λ r, row_id (pr_row r)) <$> (f <$> rows) = (λ r, row_id (pr_row r)) <$> rows ∧
  record_key <$> filter (λ r, open_ended r = true) (f <$> rows) = record_key <$> filter (λ r, open_ended r = true) rows.
Proof.
  intros Hp f. assert (∀ r, row_id (pr_row (f r)) = row_id (pr_row r) ∧ open_ended (f r) = open_ended r ∧ record_key (f r) = record_key r) as Hf.
  { intros r. unfold f. destruct (conflicts (policy_key p) r) eqn:Hc; [|done]. apply conflicts_true in Hc as [Hk Ho].
    rewrite policy_record_open, policy_record_key, bool_decide_eq_true_2, Hk, Ho by done. done. }
  induction rows as [|r rows [IH1 IH2]]; [done|]. destruct (Hf r) as (Hi & Ho & Hk).
  rewrite !fmap_cons, IH1, Hi, !filter_cons, Ho. split; [done|].
  case_decide; rewrite ?fmap_cons, IH2, ?Hk; done.
Qed.

Lemma upsert_row_wf now t p t' : table_wf t → policy_upsert_row now t p = Ok t' → table_wf t'.
Proof.
  intros [Hids Hnext Hindex]. unfold policy_upsert_row. destruct (period_ok p); cbn [negb]; [|done]. intros [= <-].
  assert (∀ id, id < next_id t → id < next_id t + 1) as Hlt by lia.
  destruct (bool_decide _ && existsb _ _) eqn:Hup.
  - apply andb_prop in Hup as [Hp%bool_decide_eq_true _]. destruct (update_rows now p (policies t) Hp) as [H1 H2].
    split; cbn [policies next_id]; [by rewrite H1| |by rewrite H2].
    apply Forall_fmap. eapply Forall_impl; [exact Hnext|]. intros r Hr. cbn. by case_match; apply Hlt.
  - split; cbn [policies next_id].
    + rewrite fmap_app. apply NoDup_app. split; [done|]. split; [|apply NoDup_singleton].
      intros id Hid ->%list_elem_of_singleton. apply list_elem_of_fmap in Hid as (r & Heq & Hr).
      apply (proj1 (Forall_forall _ _) Hnext) in Hr. cbn in Heq. lia.
    + apply Forall_app. split; [eapply Forall_impl; [exact Hnext|cbn; lia]|]. constructor; [cbn; lia|done].
    + rewrite filter_app, fmap_app, filter_cons, filter_nil, policy_record_open. case_decide as Ho; [|by rewrite app_nil_r].
      apply bool_decide_eq_true in Ho as Hp. rewrite bool_decide_eq_true_2 in Hup by done. cbn [andb] in Hup.
      apply NoDup_app. split; [done|]. split; [|apply NoDup_singleton].
      intros key Hkey ->%list_elem_of_singleton. apply list_elem_of_fmap in Hkey as (r & Hk & Hr).
      apply list_elem_of_filter in Hr as [Hro Hr]. apply not_true_iff_false in Hup. apply Hup, existsb_exists.
      exists r. split; [by apply list_elem_of_In|]. apply conflicts_true. split; [|done]. by rewrite <-Hk.
Qed.

Lemma upsert_rows_wf now ps t t' : table_wf t → ofold (policy_upsert_row now) t ps = Ok t' → table_wf t'.
Proof.
  revert t. induction ps as [|p ps IH]; intros t Ht; cbn [ofold]; [by intros [= <-]|].
  intros (t1 & H1 & H2)%bind_Ok. eapply IH; [|exact H2]. by eapply upsert_row_wf.
Qed.

Lemma sublist_filters {A} (P : A → Prop) `{!∀ x, base.Decision (P x)} (l k : list A) :
  l `sublist_of` k → filter P l `sublist_of` filter P k.
Proof.
  induction 1 as [|x l k _ IH|x l k _ IH]; [done|..]; rewrite ?filter_cons.
  - case_decide; [by apply sublist_skip|done].
  - case_decide; [by apply sublist_cons|done].
Qed.

Lemma delete_wf t id :
  table_wf t → table_wf (mkPolicyTable (filter (λ r, row_id (pr_row r) ≠ id) (policies t)) (next_id t)).
Proof.
  intros [Hids Hnext Hindex]. split; cbn [policies next_id].
  - eapply sublist_NoDup; [exact Hids|]. apply fmap_sublist, sublist_filter.
  - apply Forall_forall. intros r [_ Hr]%list_elem_of_filter. by apply (proj1 (Forall_forall _ _) Hnext).
  - eapply sublist_NoDup; [exact Hindex|]. apply fmap_sublist.
    apply sublist_filters, sublist_filter.
Qed.

(** What a written policy reads back as. *)
Definition with_id (id : Z) (p : Policy) : Policy :=
  mkPolicy (Some id) (p_workspace_id p) (p_signal p) (p_operation p) (p_limit p) (p_grace_pct p) (p_hard_block_pct p)
    (p_effective_from p) (p_effective_until p) (p_source p).

Definition u8_range (z : Z) : Prop := 0 ≤ z ≤ u8_max.

Lemma policy_record_roundtrip id now p :
  u8_range (p_grace_pct p) → u8_range (p_hard_block_pct p) →
  row_to_policy (pr_row (policy_record id now p)) = Ok (with_id id p).
Proof.
  intros Hg Hh. unfold row_to_policy, policy_record, u8_try_from. cbn -[Z.leb u8_max parse_signal_kind parse_operation parse_policy_source].
  assert (parse_signal_kind (signal_kind (p_signal p)) = Ok (p_signal p)) as -> by by destruct (p_signal p).
  assert (parse_operation (operation (p_operation p)) = Ok (p_operation p)) as -> by by destruct (p_operation p).
  assert (parse_policy_source (policy_source (p_source p)) = Ok (p_source p)) as -> by by destruct (p_source p).
  ostep. unfold u8_range in *. by rewrite !(proj2 (Z.leb_le _ _)) by lia.
Qed.

(** The cached policy of a key is that of the newest of its rows. *)
Lemma cache_newest (rows : list PolicyRecord) key (good : Policy → Prop) now :
  StronglySorted (λ a b, pr_updated_at b ≤ pr_updated_at a) rows →
  Forall (λ r, ∀ q, row_to_policy (pr_row r) = Ok q → policy_key q = key → good q ∨ pr_updated_at r < now) rows →
  Exists (λ r, pr_updated_at r = now ∧ ∃ q, row_to_policy (pr_row r) = Ok q ∧ policy_key q = key) rows →
  ∃ q, rows_to_cache (pr_row <$> rows) !! key = Some q ∧ good q.
Proof.
  intros Hsort Hall Hex. unfold rows_to_cache.
  destruct (rows_to_cache_gen (pr_row <$> rows) ∅ (map_Forall_empty _)) as [_ ->]. rewrite lookup_empty.
  induction Hsort as [|r rows Hsort IH Hr]; [by apply Exists_nil in Hex|].
  apply Forall_cons in Hall as [Hgood Hall]. unfold valid_policies. cbn [fmap list_fmap omap list_omap].
  destruct (row_to_policy (pr_row r)) as [q|e|] eqn:Hq.
  2, 3: apply Exists_cons in Hex as [(_ & q & Hq' & _)|Hex]; [congruence|by apply IH].
  destruct (decide (policy_key q = key)) as [Hk|Hk].
  - rewrite filter_cons_True by done. exists q. split; [done|]. destruct (Hgood q eq_refl Hk) as [?|Hlt]; [done|].
    apply Exists_cons in Hex as [(Hn & _)|Hex]; [lia|]. apply Exists_exists in Hex as (r' & Hr' & Hn & _).
    pose proof (proj1 (Forall_forall _ _) Hr r' Hr'). cbn in *. lia.
  - rewrite filter_cons_False by done. apply Exists_cons in Hex as [(_ & q' & Hq' & ?)|Hex]; [congruence|by apply IH].
Qed.

Lemma cache_none (rows : list PolicyRow) key :
  Forall (λ row, ∀ q, row_to_policy row = Ok q → policy_key q ≠ key) rows → rows_to_cache rows !! key = None.
Proof.
  intros Hall. unfold rows_to_cache. destruct (rows_to_cache_gen rows ∅ (map_Forall_empty _)) as [_ ->].
  rewrite lookup_empty. induction Hall as [|row rows Hrow Hall IH]; [done|]. unfold valid_policies. cbn [omap list_omap].
  destruct (row_to_policy row) as [q|e|]; [|done..]. rewrite filter_cons_False by by apply Hrow. done.
Qed.

(** ** Properties *)

Section Theorems.
Context `{NewestFirst}.

Lemma refresh_rows_in now t row :
  row ∈ refresh_rows now t → ∃ r, r ∈ policies t ∧ in_effect now r = true ∧ row = pr_row r.
Proof.
  unfold refresh_rows. intros (r' & -> & Hr)%list_elem_of_fmap. rewrite newest_first_perm in Hr.
  apply list_elem_of_filter in Hr as [? ?]. by exists r'.
Qed.

(** The table of a successful open-ended upsert holds the policy, and its other
    rows are old ones that were not in the way. *)
Lemma upsert_row_open now t p t' :
  p_effective_until p = None → policy_upsert_row now t p = Ok t' →
  (∃ id, policy_record id now p ∈ policies t') ∧
  ∀ r, r ∈ policies t' → (∃ id, r = policy_record id now p) ∨ (r ∈ policies t ∧ conflicts (policy_key p) r = false).
Proof.
  intros Hp. unfold policy_upsert_row, period_ok. rewrite Hp. cbn [negb]. rewrite bool_decide_eq_true_2 by done. cbn [andb].
  intros [= <-]. cbn [policies]. destruct (existsb (conflicts (policy_key p)) (policies t)) eqn:Hex.
  - apply existsb_exists in Hex as (r & Hr%list_elem_of_In & Hc). split.
    + exists (row_id (pr_row r)). apply list_elem_of_fmap. exists r. by rewrite Hc.
    + intros r' (r0 & -> & Hr0)%list_elem_of_fmap. destruct (conflicts (policy_key p) r0) eqn:Hc0; [left; eauto|by right].
  - split.
    + exists (next_id t). apply elem_of_app. right. by left.
    + intros r [Hr|Hr%list_elem_of_singleton]%elem_of_app; [right|left; eauto]. split; [done|].
      apply not_true_iff_false. intros Hc. apply not_true_iff_false in Hex. apply Hex, existsb_exists.
      exists r. by rewrite <-list_elem_of_In.
Qed.

(** Whatever upserts, batches, deletions and refreshes run, with failures and
    lost answers anywhere, the ids of the policies are distinct and no key has
    two open-ended rows. *)
Theorem policy_run_wf s es : table_wf (table s) → table_wf (table (policy_run s es)).
Proof.
  assert (∀ s e, table_wf (table s) → table_wf (table (policy_step s e))) as Hstep.
  { clear. intros s [op env] Hs.
    assert (∀ t, (∀ t', t = Ok t' → table_wf t') → table_wf (table (change env s t).1)) as Hchange.
    { intros [t|e|] Ht; [|done..]. unfold change, policy_refresh. destruct (pe_write env); [destruct (pe_refresh_ok env)|..];
        cbn; first [by apply Ht|done]. }
    unfold policy_step. destruct op as [p|ps|id|]; cbn [fst snd].
    - apply Hchange. intros t' Ht. by eapply upsert_row_wf.
    - unfold upsert_many. destruct ps as [|p ps]; [done|]. apply Hchange. intros t' Ht. by eapply upsert_rows_wf.
    - apply Hchange. intros t' [= <-]. by apply delete_wf.
    - unfold policy_refresh. by destruct (pe_refresh_ok env). }
  revert s. induction es as [|e es IH]; intros s Hs; [done|]. apply IH. by apply Hstep.
Qed.

(** An acknowledged upsert of an open-ended policy already in effect rules at
    once: the cache holds it for its key, and every resolution it applies to has
    limits and thresholds no higher than it. *)
Theorem upsert_takes_effect s s' env p :
  upsert env p s = (s', Ok ()) → p_effective_until p = None → p_effective_from p ≤ pe_refresh_now env →
  u8_range (p_grace_pct p) → u8_range (p_hard_block_pct p) →
  Forall (λ r, ∀ q, row_to_policy (pr_row r) = Ok q → policy_key q = policy_key p → pr_updated_at r < pe_now env)
    (policies (table s)) →
  (∃ id, cache s' !! policy_key p = Some (with_id id p)) ∧
  ∀ signal op, p_signal p = signal ∨ p_signal p = AllSignals → p_operation p = op ∨ p_operation p = AllOperations →
    caps (resolve s' (p_workspace_id p) signal op) p.
Proof.
  intros Hup Hopen Hfrom Hg Hh Hold. unfold upsert, change in Hup.
  destruct (policy_upsert_row (pe_now env) (table s) p) as [t'|e|] eqn:Hrow; [|done..].
  unfold policy_refresh in Hup. destruct (pe_write env), (pe_refresh_ok env); simplify_eq/=.
  destruct (upsert_row_open _ _ _ _ Hopen Hrow) as [[id Hin] Hall].
  assert (∃ q, rows_to_cache (refresh_rows (pe_refresh_now env) t') !! policy_key p = Some q ∧ ∃ id, q = with_id id p) as (q & Hq & id' & ->).
  { apply (cache_newest _ _ _ (pe_now env)); [apply newest_first_sorted|..].
    - apply Forall_forall. intros r Hr q Hq Hk. rewrite newest_first_perm in Hr. apply list_elem_of_filter in Hr as [_ Hr].
      destruct (Hall r Hr) as [[id' ->]|[Hr' _]].
      + left. rewrite policy_record_roundtrip in Hq by done. injection Hq as <-. eauto.
      + right. by apply (proj1 (Forall_forall _ _) Hold r Hr' q).
    - apply Exists_exists. exists (policy_record id (pe_now env) p). split; [|split; [done|]].
      + rewrite newest_first_perm. apply list_elem_of_filter. split; [|done]. unfold in_effect, policy_record. cbn.
        rewrite Hopen, andb_true_r. by apply Z.leb_le.
      + exists (with_id id p). by rewrite policy_record_roundtrip. }
  split; [by exists id'|]. intros signal op Hs Ho. unfold resolve. cbn [cache]. rewrite resolve_fold.
  apply (foldl_merge_caps _ _ (with_id id' p)); [apply resolved_default_typed|]. left.
  apply elem_of_applicable; [apply rows_to_cache_wf|]. done.
Qed.

(** Upserting an open-ended policy that starts later replaces the policy of its
    key now: when the key had only its open-ended row, no limit of that key is
    in force after the call, until a refresh past the start. *)
Theorem scheduling_drops_current s s' env p :
  upsert env p s = (s', Ok ()) → p_effective_until p = None → pe_refresh_now env < p_effective_from p →
  Forall (λ r, ∀ q, row_to_policy (pr_row r) = Ok q → policy_key q = policy_key p → conflicts (policy_key p) r = true)
    (policies (table s)) →
  cache s' !! policy_key p = None.
Proof.
  intros Hup Hopen Hfrom Hold. unfold upsert, change in Hup.
  destruct (policy_upsert_row (pe_now env) (table s) p) as [t'|e|] eqn:Hrow; [|done..].
  unfold policy_refresh in Hup. destruct (pe_write env), (pe_refresh_ok env); simplify_eq/=.
  destruct (upsert_row_open _ _ _ _ Hopen Hrow) as [_ Hall]. apply cache_none, Forall_forall.
  intros row Hr q Hq Hk. apply refresh_rows_in in Hr as (r & Hr & Heff & ->).
  destruct (Hall r Hr) as [[id ->]|[Hr' Hc]].
  - unfold in_effect, policy_record in Heff. cbn in Heff. apply andb_prop in Heff as [Heff%Z.leb_le _]. lia.
  - rewrite (proj1 (Forall_forall _ _) Hold r Hr' q Hq Hk) in Hc. done.
Qed.

(** The list of a workspace's policies fails on one row that does not decode,
    whichever it is; otherwise it has each row's policy. *)
Theorem policy_list_all_or_nothing ok workspace_id s :
  let rows := filter (λ r, row_workspace_id (pr_row r) = workspace_id) (policies (table s)) in
  (is_ok (policy_list ok workspace_id s) = true ↔ ok = true ∧ Forall (λ r, is_ok (row_to_policy (pr_row r)) = true) rows) ∧
  ∀ ps, policy_list ok workspace_id s = Ok ps →
    ps ≡ₚ omap (λ r, match row_to_policy (pr_row r) with Ok p => Some p | _ => None end) rows.
Proof.
  intros rows. unfold policy_list. destruct ok; [|split; [split; [done|by intros [? _]]|done]].
  fold rows. assert (∀ l : list PolicyRecord, (is_ok (collect (pr_row <$> l)) = true ↔ Forall (λ r, is_ok (row_to_policy (pr_row r)) = true) l) ∧
    ∀ ps, collect (pr_row <$> l) = Ok ps → ps = omap (λ r, match row_to_policy (pr_row r) with Ok p => Some p | _ => None end) l) as Hcol.
  { induction l as [|r l [IH1 IH2]]; [split; [split; done|by intros ps [= <-]]|]. cbn [fmap list_fmap collect omap list_omap].
    rewrite Forall_cons, <-IH1. destruct (row_to_policy (pr_row r)) as [p|e|]; ostep; [|split; [split; [done|by intros [? _]]|done]..].
    destruct (collect (pr_row <$> l)) as [ps|e|] eqn:Hl; cbn; (split; [first [done|split; [done|by intros [_ ?]]]|]); try done.
    intros ps' [= <-]. f_equal. by apply IH2. }
  destruct (Hcol (newest_first rows)) as [H1 H2]. split.
  - rewrite H1. split; [intros Hf; split; [done|]|intros [_ Hf]]; [by rewrite <-newest_first_perm|by rewrite newest_first_perm].
  - intros ps Hps. rewrite (H2 ps Hps). by rewrite newest_first_perm.
Qed.
End Theorems.

(** ** Witnesses *)

Definition newer (a b : PolicyRecord) : Prop := pr_updated_at b ≤ pr_updated_at a.
#[local] Instance newer_dec : RelDecision newer.
Proof. intros a b. unfold newer. apply _. Defined.
#[local] Instance newer_total : Total newer.
Proof. intros a b. unfold newer. lia. Qed.
#[local] Instance newer_trans : Transitive newer.
Proof. intros a b c. unfold newer. lia. Qed.

#[local] Instance newest_first_sort : NewestFirst := {|
  newest_first := merge_sort newer;
  newest_first_perm rows := merge_sort_Permutation _ rows;
  newest_first_sorted rows := StronglySorted_merge_sort _ rows;
|}.

Definition daily (from : Z) (until : option Z) (bytes : Z) : Policy :=
  mkPolicy None 7 Traces Ingest (Size bytes CompressedBytes) 101 103 from until SourceApi.

Definition env_at (now : Z) : PolicyEnv := mkPolicyEnv now WriteDone now true.

Definition sample_store : PostgresPolicyStore :=
  policy_run (policy_store_new (mkPolicyTable [] 1))
    [(OpUpsert (daily 0 None 500), env_at 10); (OpUpsertMany [daily 0 (Some 15) 50; daily 5 None 400], env_at 20);
     (OpDelete 9, env_at 30)].

Lemma policy_run_wf_witness :
  table_wf (table sample_store) ∧ (λ r, row_id (pr_row r)) <$> policies (table sample_store) = [1; 2].
Proof.
  split; [|vm_compute; reflexivity].
  apply (policy_run_wf (policy_store_new (mkPolicyTable [] 1))). split; [constructor|constructor|constructor].
Defined.

Lemma upsert_takes_effect_witness :
  cache (upsert (env_at 40) (daily 35 None 300) sample_store).1 !! policy_key (daily 35 None 300) =
    Some (with_id 1 (daily 35 None 300)) ∧
  caps (resolve (upsert (env_at 40) (daily 35 None 300) sample_store).1 7 Traces Ingest) (daily 35 None 300).
Proof.
  split; [vm_compute; reflexivity|].
  apply (proj2 (upsert_takes_effect sample_store (upsert (env_at 40) (daily 35 None 300) sample_store).1 (env_at 40)
    (daily 35 None 300) eq_refl eq_refl ltac:(vm_compute; discriminate) ltac:(split; vm_compute; discriminate)
    ltac:(split; vm_compute; discriminate)
    ltac:(apply Forall_forall; intros r Hr; repeat (apply elem_of_cons in Hr as [->|Hr]; [intros; vm_compute; reflexivity|]);
          by apply not_elem_of_nil in Hr))); left; reflexivity.
Defined.

(** A cheaper limit planned for later lifts the one in force. *)
Definition planned : PostgresPolicyStore := (upsert (env_at 10) (daily 0 None 500) (policy_store_new (mkPolicyTable [] 1))).1.

Lemma scheduling_drops_current_witness :
  size (resolve planned 7 Traces Ingest) = Some (Size 500 CompressedBytes) ∧
  cache (upsert (env_at 40) (daily 50 None 300) planned).1 !! policy_key (daily 50 None 300) = None.
Proof.
  split; [vm_compute; reflexivity|].
  apply (scheduling_drops_current planned _ (env_at 40) (daily 50 None 300) eq_refl eq_refl ltac:(vm_compute; reflexivity)).
  constructor; [intros; vm_compute; reflexivity|constructor].
Defined.

Lemma policy_list_all_or_nothing_witness :
  is_ok (policy_list true 7 sample_store) = true.
Proof. apply (policy_list_all_or_nothing true 7 sample_store). split; [reflexivity|]. repeat constructor. Defined.
