(* ===== verification/AdminApi.v ===== *)
(** The admin API: [api/src/policy/handlers.rs], [retention/handlers.rs],
    [settings/handlers.rs] and [audit/handlers.rs], with the repositories behind
    them, [zradar-plugin-postgres/src/repositories/audit_log.rs] and
    [settings.rs].

    A handler checks what its caller may do, changes one workspace's policies,
    settings, retention or files, and answers a status with a body. *)

From stdpp Require Import base gmap sorting list strings.
From S2P Require Import Prelude PolicyStore FileList WriteBuffer TelemetryWriter ParquetWriter Compactor Lease Retention StorageUsage Reclaimer Export Auth Authorize PolicyDb.

(** ** The audit log *)

(** [NewAuditLog] and [AuditLog]; the metadata the handlers write are the fields
    of the settings. *)
Record NewAuditLog := mkNewAuditLog {
  na_actor_workspace_id : option Z;
  na_resource_workspace_id : option Z;
  na_action : string;
  na_resource_type : string;
  na_resource_id : string;
  na_metadata : Settings;
}.

Record AuditLog := mkAuditLog { al_id : Z; al_log : NewAuditLog; al_created_at : Z }.

Record AuditTable := mkAuditTable { audit_logs : list AuditLog; next_audit_id : Z }.

Definition create_audit_log (now : Z) (log : NewAuditLog) (t : AuditTable) : AuditTable :=
  mkAuditTable (audit_logs t ++ [mkAuditLog (next_audit_id t) log now]) (next_audit_id t + 1).

(** [AuditLogFilters], and [AuditLogQuery] without the workspace. *)
Record AuditLogFilters := mkAuditFilters {
  af_workspace_id : option Z;
  af_action : option string;
  af_resource_type : option string;
  af_resource_id : option string;
  af_start_created_at : option Z;
  af_end_created_at : option Z;
  af_limit : option Z;
  af_offset : option Z;
}.

Definition audit_matches (f : AuditLogFilters) (l : AuditLog) : bool :=
  when_some (af_workspace_id f) (λ w, bool_decide (na_resource_workspace_id (al_log l) = Some w))
  && when_some (af_action f) (λ s, bool_decide (na_action (al_log l) = s))
  && when_some (af_resource_type f) (λ s, bool_decide (na_resource_type (al_log l) = s))
  && when_some (af_resource_id f) (λ s, bool_decide (na_resource_id (al_log l) = s))
  && when_some (af_start_created_at f) (λ t, t <=? al_created_at l)
  && when_some (af_end_created_at f) (λ t, al_created_at l <=? t).

(** [ORDER BY created_at DESC, id DESC]. *)
Definition later (a b : AuditLog) : Prop :=
  al_created_at b < al_created_at a ∨ (al_created_at a = al_created_at b ∧ al_id b ≤ al_id a).
#[local] Instance later_dec : RelDecision later.
Proof. intros a b. unfold later. apply _. Defined.

Record AuditLogPage := mkAuditPage { ap_items : list AuditLog; ap_total : Z; ap_limit : Z; ap_offset : Z }.

Definition matching_logs (f : AuditLogFilters) (logs : list AuditLog) : list AuditLog :=
  merge_sort later (filter (λ l, audit_matches f l = true) logs).

(** [list_audit_logs]; the count reads the table again. *)
Definition list_audit_logs (f : AuditLogFilters) (t t' : AuditTable) : AuditLogPage :=
  let limit := Z.max 1 (Z.min (default 100 (af_limit f)) 500) in
  let offset := default 0 (af_offset f) in
  mkAuditPage (take (Z.to_nat limit) (drop (Z.to_nat offset) (matching_logs f (audit_logs t))))
    (zlen (filter (λ l, audit_matches f l = true) (audit_logs t'))) limit offset.

(** ** The handlers *)

Inductive Body :=
| NoBody
| ErrorBody (message : string)
| PoliciesBody (ps : list Policy)
| EffectiveBody (ingest query store : ResolvedPolicy)
| CleanupBody (marked : CleanupStats) (reclaimed : ReclaimStats)
| RetentionBody (workspace_id retention_days : Z) (inherited : bool) (workspace_default_days : Z)
| SettingsBody (settings : Settings)
| AuditBody (page : AuditLogPage).

Definition Response : Type := Z * Body.

Definition control_error (e : ControlError) : Response :=
  let '(code, message) := error_response e in (code, ErrorBody message).

(** [PolicyConfig], as deserialised, and its defaults. *)
Definition default_grace_pct : Z := 101.
Definition default_hard_block_pct : Z := 103.

Record PolicyConfig := mkPolicyConfig {
  pc_signal : SignalKind;
  pc_operation : Operation;
  pc_limit : PolicyLimit;
  pc_grace_pct : option Z;
  pc_hard_block_pct : option Z;
  pc_effective_from : option Z;
  pc_effective_until : option Z;
  pc_source : option PolicySource;
}.

Definition policy_of_config (workspace_id now : Z) (c : PolicyConfig) : Policy :=
  mkPolicy None workspace_id (pc_signal c) (pc_operation c) (pc_limit c) (default default_grace_pct (pc_grace_pct c))
    (default default_hard_block_pct (pc_hard_block_pct c)) (default now (pc_effective_from c)) (pc_effective_until c)
    (default SourceApi (pc_source c)).

Section Admin.
Context {R : Type} `{NewestFirst} `{UuidText} (db_error : string).

(** What the handlers share with the rest of the server. *)
Record AdminState := mkAdmin {
  ad_policies : PostgresPolicyStore;
  ad_retention : RetentionConfigStore;
  ad_settings : gmap Z Settings;
  ad_audit : AuditTable;
  ad_store : Store R;
  ad_ledger : StorageDb;
}.

(** How the calls of one request end. *)
Record AdminEnv := mkAdminEnv {
  ae_now_micros : Z;
  ae_policy : PolicyEnv;
  ae_list_ok : bool;
  ae_cleanup_query_ok : bool;
  ae_cleanup : Z → CleanupEnv;
  ae_reclaim_query_ok : bool;
  ae_reclaim : ReclaimEnv;
  ae_settings_read_ok : bool;
  ae_settings_write : WriteAnswer;
  ae_audit_configured : bool;
  ae_audit_write : WriteAnswer;
  ae_audit_read : option AuditTable;
}.

Definition with_policies (s : AdminState) (p : PostgresPolicyStore) : AdminState :=
  mkAdmin p (ad_retention s) (ad_settings s) (ad_audit s) (ad_store s) (ad_ledger s).
Definition with_retention_store (s : AdminState) (c : RetentionConfigStore) : AdminState :=
  mkAdmin (ad_policies s) c (ad_settings s) (ad_audit s) (ad_store s) (ad_ledger s).
Definition with_settings (s : AdminState) (m : gmap Z Settings) : AdminState :=
  mkAdmin (ad_policies s) (ad_retention s) m (ad_audit s) (ad_store s) (ad_ledger s).
Definition with_audit (s : AdminState) (t : AuditTable) : AdminState :=
  mkAdmin (ad_policies s) (ad_retention s) (ad_settings s) t (ad_store s) (ad_ledger s).
Definition with_files (s : AdminState) (st : Store R) (ledger : StorageDb) : AdminState :=
  mkAdmin (ad_policies s) (ad_retention s) (ad_settings s) (ad_audit s) st ledger.

Definition show_policy_error (e : PolicyError) : string :=
  match e with
  | Invalid what => String.append "invalid policy: " what
  | StoreUnavailable => String.append "policy store unavailable: " db_error
  end.

(** [Err] of a guard becomes the response and nothing else happens. *)
Definition guarded {A : Type} (s : AdminState) (g : outcome ControlError A) (k : A → AdminState * Response) :
    AdminState * Response :=
  match g with
  | Ok a => k a
  | Err e => (s, control_error e)
  | Panic => (s, control_error (Internal ""))
  end.

(** A policy error as a response. *)
Definition policy_response {A : Type} (s : AdminState) (code : Z) (r : outcome PolicyError A) (k : A → AdminState * Response) :
    AdminState * Response :=
  match r with
  | Ok a => k a
  | Err e => (s, (code, ErrorBody (show_policy_error e)))
  | Panic => (s, (code, ErrorBody ""))
  end.

Definition upsert_policies (env : AdminEnv) (auth : AuthContext) (workspace_id : option Z) (configs : list PolicyConfig)
    (s : AdminState) : AdminState * Response :=
  guarded s (require auth Admin) (λ _,
  guarded s (workspace_or_reject_platform_override auth workspace_id) (λ workspace_id,
    let ps := policy_of_config workspace_id (ae_now_micros env) <$> configs in
    let '(p, r) := upsert_many (ae_policy env) ps (ad_policies s) in
    policy_response (with_policies s p) 400 r (λ _, (with_policies s p, (204, NoBody))))).

Definition list_policies (env : AdminEnv) (auth : AuthContext) (workspace_id : option Z) (s : AdminState) :
    AdminState * Response :=
  guarded s (require auth Admin) (λ _,
  guarded s (workspace_or_standalone_override auth workspace_id) (λ workspace_id,
    policy_response s 500 (policy_list (ae_list_ok env) workspace_id (ad_policies s)) (λ ps, (s, (200, PoliciesBody ps))))).

(** [get_effective_policy]: the workspace resolved is the authenticated one. *)
Definition get_effective_policy (auth : AuthContext) (path_workspace : Z) (s : AdminState) : AdminState * Response :=
  guarded s (require auth Admin) (λ _,
  guarded s (enforce_path_workspace auth path_workspace) (λ _,
    let w := ac_workspace auth in
    (s, (200, EffectiveBody (resolve (ad_policies s) w AllSignals Ingest) (resolve (ad_policies s) w AllSignals Query)
                (resolve (ad_policies s) w AllSignals PolicyStore.Store))))).

Definition delete_policy (env : AdminEnv) (auth : AuthContext) (id : Z) (workspace_id : option Z) (s : AdminState) :
    AdminState * Response :=
  guarded s (require auth Admin) (λ _,
  guarded s (workspace_or_standalone_override auth workspace_id) (λ workspace_id,
    policy_response s 500 (policy_list (ae_list_ok env) workspace_id (ad_policies s)) (λ ps,
      if existsb (λ p, bool_decide (p_id p = Some id)) ps
      then
        let '(p, r) := delete (ae_policy env) id (ad_policies s) in
        policy_response (with_policies s p) 500 r (λ _, (with_policies s p, (204, NoBody)))
      else (s, (404, NoBody))))).

(** [run_cleanup] of the retention handlers: the override is stored, expired
    rows are marked, then the deleted ones are reclaimed. *)
Definition run_cleanup_handler (env : AdminEnv) (auth : AuthContext) (retention_days workspace_id : option Z)
    (s : AdminState) : AdminState * Response :=
  guarded s (require auth Admin) (λ _,
  guarded s (workspace_or_standalone_override auth workspace_id) (λ workspace_id,
    let c := match retention_days with
             | Some days => config_upsert (ad_retention s) workspace_id days | None => ad_retention s end in
    let s := with_retention_store s c in
    if negb (ae_cleanup_query_ok env) then (s, (500, ErrorBody db_error))
    else
      let '(db, marked) := cleanup_run c (ae_cleanup env) (st_db (ad_store s)) (Some workspace_id) in
      let s := with_files s (with_db (ad_store s) db) (ad_ledger s) in
      if negb (ae_reclaim_query_ok env) then (s, (500, ErrorBody db_error))
      else
        let '(st, ledger, reclaimed) := reclaim_run (ae_reclaim env) (ad_store s) (ad_ledger s) (Some workspace_id) in
        (with_files s st ledger, (200, CleanupBody marked reclaimed)))).

Definition forbidden : Response := (403, ErrorBody "Forbidden").

(** [get_settings] and [upsert_settings] of the repository. *)
Definition read_settings (env : AdminEnv) (workspace_id : Z) (s : AdminState) : outcome string (option Settings) :=
  if ae_settings_read_ok env then Ok (ad_settings s !! workspace_id) else Err "Failed to get workspace settings".

Definition upsert_settings (env : AdminEnv) (workspace_id : Z) (row : Settings) (s : AdminState) :
    AdminState * outcome string Settings :=
  match ae_settings_write env with
  | WriteDone => (with_settings s (<[workspace_id := row]> (ad_settings s)), Ok row)
  | WriteFailed => (s, Err "Failed to upsert workspace settings")
  | WriteUnanswered => (with_settings s (<[workspace_id := row]> (ad_settings s)), Err "Failed to upsert workspace settings")
  end.

Definition get_workspace_retention_handler (env : AdminEnv) (auth : AuthContext) (path_workspace : Z) (s : AdminState) :
    AdminState * Response :=
  if negb (ac_workspace auth =? path_workspace) then (s, forbidden)
  else
    match read_settings env path_workspace s with
    | Ok (Some settings) =>
        let days := u32_of_i32 (traces_retention_days settings) in (s, (200, RetentionBody path_workspace days false days))
    | Ok None =>
        let days := get_effective_days (ad_retention s) path_workspace in (s, (200, RetentionBody path_workspace days true days))
    | Err e => (s, (500, ErrorBody e))
    | Panic => (s, (500, ErrorBody ""))
    end.

Definition set_workspace_retention_handler (env : AdminEnv) (auth : AuthContext) (path_workspace retention_days : Z)
    (s : AdminState) : AdminState * Response :=
  guarded s (require auth WriteSettings) (λ _,
    if negb (ac_workspace auth =? path_workspace) then (s, forbidden)
    else
      match read_settings env path_workspace s with
      | Ok found =>
          let row := with_retention (default defaults_for found) (i32_of_u32 retention_days) in
          let '(s, saved) := upsert_settings env path_workspace row s in
          match saved with
          | Ok saved =>
              (with_retention_store s (config_upsert (ad_retention s) path_workspace retention_days),
               (200, RetentionBody path_workspace retention_days false (u32_of_i32 (traces_retention_days saved))))
          | Err e => (s, (500, ErrorBody e))
          | Panic => (s, (500, ErrorBody ""))
          end
      | Err e => (s, (500, ErrorBody e))
      | Panic => (s, (500, ErrorBody ""))
      end).

(** [From<anyhow::Error>]. *)
Definition internal {A : Type} (r : outcome string A) : outcome ControlError A := map_err Internal r.

Definition get_workspace_settings_handler (env : AdminEnv) (auth : AuthContext) (path_workspace : Z) (s : AdminState) :
    AdminState * Response :=
  guarded s (require auth ReadSettings) (λ _,
  guarded s (enforce_path_workspace auth path_workspace) (λ _,
  guarded s (internal (read_settings env path_workspace s)) (λ found,
    match found with
    | Some settings => (s, (200, SettingsBody settings))
    | None =>
        let '(s, saved) := upsert_settings env path_workspace defaults_for s in
        guarded s (internal saved) (λ settings, (s, (200, SettingsBody settings)))
    end))).

Definition settings_audit (auth : AuthContext) (workspace_id : Z) (settings : Settings) : NewAuditLog :=
  mkNewAuditLog (Some (ac_workspace auth)) (Some workspace_id) "workspace_settings.update" "workspace_settings"
    (uuid_to_string workspace_id) settings.

Definition update_workspace_settings_handler (env : AdminEnv) (auth : AuthContext) (path_workspace : Z) (body : Settings)
    (s : AdminState) : AdminState * Response :=
  guarded s (require auth WriteSettings) (λ _,
  guarded s (enforce_path_workspace auth path_workspace) (λ _,
  guarded s (map_err InvalidInput (validate_settings body)) (λ _,
    let '(s, saved) := upsert_settings env path_workspace body s in
    guarded s (internal saved) (λ settings,
      if ae_audit_configured env then
        let logged := with_audit s (create_audit_log (ae_now_micros env) (settings_audit auth path_workspace settings) (ad_audit s)) in
        match ae_audit_write env with
        | WriteDone => (logged, (200, SettingsBody settings))
        | WriteFailed => (s, control_error (Internal "Failed to create audit log"))
        | WriteUnanswered => (logged, control_error (Internal "Failed to create audit log"))
        end
      else (s, (200, SettingsBody settings)))))).

(** [list_audit_logs]: the workspace of the query is replaced by the scope of
    the caller. *)
Definition list_audit_logs_handler (env : AdminEnv) (auth : AuthContext) (query : AuditLogFilters) (s : AdminState) :
    AdminState * Response :=
  guarded s (require auth Admin) (λ _,
  guarded s (audit_scope auth (af_workspace_id query)) (λ scope,
    let f := mkAuditFilters scope (af_action query) (af_resource_type query) (af_resource_id query)
               (af_start_created_at query) (af_end_created_at query) (af_limit query) (af_offset query) in
    match ae_audit_read env with
    | Some t' => (s, (200, AuditBody (list_audit_logs f (ad_audit s) t')))
    | None => (s, control_error (Internal "Failed to list audit logs"))
    end)).

(** ** Requests *)

Inductive AdminRequest :=
| UpsertPolicies (workspace_id : option Z) (configs : list PolicyConfig)
| ListPolicies (workspace_id : option Z)
| GetEffectivePolicy (path_workspace : Z)
| DeletePolicy (id : Z) (workspace_id : option Z)
| RunCleanup (retention_days workspace_id : option Z)
| GetRetention (path_workspace : Z)
| SetRetention (path_workspace retention_days : Z)
| GetSettings (path_workspace : Z)
| UpdateSettings (path_workspace : Z) (body : Settings)
| ListAuditLogs (query : AuditLogFilters).

Definition admin_step (env : AdminEnv) (auth : AuthContext) (r : AdminRequest) (s : AdminState) : AdminState * Response :=
  match r with
  | UpsertPolicies w configs => upsert_policies env auth w configs s
  | ListPolicies w => list_policies env auth w s
  | GetEffectivePolicy w => get_effective_policy auth w s
  | DeletePolicy id w => delete_policy env auth id w s
  | RunCleanup days w => run_cleanup_handler env auth days w s
  | GetRetention w => get_workspace_retention_handler env auth w s
  | SetRetention w days => set_workspace_retention_handler env auth w days s
  | GetSettings w => get_workspace_settings_handler env auth w s
  | UpdateSettings w body => update_workspace_settings_handler env auth w body s
  | ListAuditLogs query => list_audit_logs_handler env auth query s
  end.
End Admin.
Arguments AdminState : clear implicits.

(** ** Lemmas *)

(** The rows of the other workspaces. *)
Definition others (w : Z) (t : PolicyTable) : list PolicyRecord :=
  filter (λ r, row_workspace_id (pr_row r) ≠ w) (policies t).

Lemma upsert_row_others now t p t' :
  policy_upsert_row now t p = Ok t' → others (p_workspace_id p) t' = others (p_workspace_id p) t.
Proof.
  unfold policy_upsert_row. destruct (period_ok p); cbn [negb]; [|done]. intros [= <-]. unfold others. cbn [policies].
  destruct (bool_decide _ && existsb _ _).
  - induction (policies t) as [|r rows IH]; [done|]. rewrite fmap_cons, !filter_cons, IH.
    destruct (conflicts (policy_key p) r) eqn:Hc; [|done]. apply conflicts_true in Hc as [Hk _].
    assert (row_workspace_id (pr_row r) = p_workspace_id p) as Hr by (unfold record_key, policy_key, cache_key in Hk; congruence).
    rewrite !decide_False; [done|by intros []|by intros []].
  - rewrite filter_app, filter_cons, decide_False by by intros []. by rewrite filter_nil, app_nil_r.
Qed.

Lemma upsert_rows_others w now ps t t' :
  Forall (λ p, p_workspace_id p = w) ps → ofold (policy_upsert_row now) t ps = Ok t' → others w t' = others w t.
Proof.
  intros Hps. revert t. induction Hps as [|p ps <- _ IH]; intros t; cbn [ofold]; [by intros [= <-]|].
  intros (t1 & H1 & H2)%bind_Ok. rewrite (IH t1 H2). by eapply upsert_row_others.
Qed.

Section Confinement.
Context {R : Type} `{NewestFirst}.

Lemma change_table env s t (P : PolicyTable → Prop) :
  P (table s) → (∀ t', t = Ok t' → P t') → P (table (change env s t).1).
Proof.
  intros Hs Ht. destruct t as [t'|e|]; [|done..]. unfold change, policy_refresh.
  destruct (pe_write env); [destruct (pe_refresh_ok env)|..]; cbn; first [done|by apply Ht].
Qed.

(** Of a workspace whose policies list, a policy's id is that of a row of the
    workspace. *)
Lemma collect_id rows ps id :
  collect rows = Ok ps → existsb (λ p, bool_decide (p_id p = Some id)) ps = true → ∃ row, row ∈ rows ∧ row_id row = id.
Proof.
  revert ps. induction rows as [|row rows IH]; cbn [collect]; intros ps.
  - intros [= <-]. done.
  - intros (p & Hp & (ps' & Hps & [= <-])%bind_Ok)%bind_Ok. cbn [existsb]. intros [Hid%bool_decide_eq_true|Hex]%orb_true_iff.
    + exists row. split; [by left|]. unfold row_to_policy in Hp.
      repeat (apply bind_Ok in Hp as (? & _ & Hp)). injection Hp as <-. cbn in Hid. congruence.
    + destruct (IH ps' Hps Hex) as (row' & ? & ?). exists row'. split; [by right|done].
Qed.

(** Deleting the row of an id takes no row of another workspace. *)
Lemma delete_others w id t r :
  table_wf t → r ∈ policies t → row_id (pr_row r) = id → row_workspace_id (pr_row r) = w →
  others w (mkPolicyTable (filter (λ r, row_id (pr_row r) ≠ id) (policies t)) (next_id t)) = others w t.
Proof.
  intros [Hids _ _] Hr Hid Hw. unfold others. cbn [policies].
  assert (∀ r', r' ∈ policies t → row_id (pr_row r') = id → row_workspace_id (pr_row r') = w) as Hall.
  { intros r' Hr' Hid'. apply list_elem_of_lookup in Hr as [i Hi], Hr' as [j Hj].
    assert (i = j) as ->; [|congruence].
    eapply (NoDup_lookup _ i j id Hids); rewrite list_lookup_fmap, ?Hi, ?Hj; cbn; by f_equal. }
  clear Hr Hids. induction (policies t) as [|r' rows IH]; [done|].
  assert (∀ x, x ∈ rows → row_id (pr_row x) = id → row_workspace_id (pr_row x) = w) as Hrows.
  { intros x Hx. apply Hall. by right. }
  specialize (IH Hrows). rewrite !filter_cons. case_decide as Hne; rewrite ?filter_cons, IH; [done|].
  rewrite (decide_False (P := row_workspace_id (pr_row r') ≠ w)); [done|]. intros Hnw. apply Hnw, Hall; [by left|done].
Qed.

(** A scoped reclaim run takes no row of another workspace. *)
Lemma sweep_ids env files : ∀ s : Sweep (R := R),
  Forall (λ id, id ∈ sw_ids s ∨ id ∈ map fe_id files) (sw_ids (foldl (reclaim_file env) s files)).
Proof.
  induction files as [|e files IH]; intros s; cbn [foldl map]; [apply Forall_forall; auto|].
  apply Forall_forall. intros id Hid. pose proof (proj1 (Forall_forall _ _) (IH _) id Hid) as [Hs|Hf];
    [|right; by right]. clear IH Hid. revert Hs. unfold reclaim_file. destruct (re_leased _ _); [by left|].
  destruct (delete_physical_file _ _ _) as [st gone]. destruct gone; cbn [sw_ids]; [|by left].
  intros [?| ->%list_elem_of_singleton]%elem_of_app; [by left|right; by left].
Qed.

Lemma reclaim_workspace_rows env (st : Store R) ledger stats w files id :
  id ∉ map fe_id files →
  file_rows (st_db (reclaim_workspace env (st, ledger, stats) (w, files)).1.1) !! id = file_rows (st_db st) !! id.
Proof.
  intros Hid. cbn [reclaim_workspace fst snd].
  generalize (eq_refl (foldl (reclaim_file env) (mkSweep st stats [] ∅) files)).
  generalize (foldl (reclaim_file env) (mkSweep st stats [] ∅) files) at 1 3 as s. intros s Hsw. unfold reclaim_commit. cbn zeta. assert (st_db (sw_store s) = st_db st) as Hdb by (rewrite Hsw; apply sweep_db).
  assert (id ∉ sw_ids s) as Hnot.
  { rewrite Hsw. intros Hin. pose proof (proj1 (Forall_forall _ _) (sweep_ids env files (mkSweep st stats [] ∅)) id Hin) as [Hn|?];
      [by apply not_elem_of_nil in Hn|done]. }
  assert (file_rows (delete_entries (st_db (sw_store s)) (sw_ids s)) !! id = file_rows (st_db st) !! id) as Hdel.
  { rewrite delete_entries_lookup, decide_False, Hdb; done. }
  destruct (sw_ids s) as [|i ids] eqn:Hs; [cbn; by rewrite Hdb|]. rewrite <-Hs in *.
  destruct (re_storage_usage env), (re_commit env w); cbn; try done; try (by rewrite Hdb);
    (destruct (record_cleanup_and_delete _ _ _ _) as [[ledger' files']|] eqn:Hr; cbn; [|by rewrite Hdb]);
    apply cleanup_tx_files in Hr as [_ ->]; done.
Qed.

Lemma reclaim_run_others env (st : Store R) ledger w id e :
  db_wf (st_db st) → file_rows (st_db st) !! id = Some e → fe_workspace_id e ≠ w →
  file_rows (st_db (reclaim_run env st ledger (Some w)).1.1) !! id = Some e.
Proof.
  intros Hwf He Hw. unfold reclaim_run. rewrite <-He.
  assert (Forall (λ g, id ∉ map fe_id g.2) (map_to_list (by_workspace (query_files (st_db st)
    (mkFileListFilter (Some w) None None None None None (Some true)))))) as Hg.
  { apply Forall_forall. intros [k files] [-> _]%elem_of_group_on Hin. cbn [snd] in Hin.
    apply list_elem_of_fmap in Hin as (e' & -> & [_ He']%list_elem_of_filter). apply elem_of_query_files in He' as [Hm [id' Hid']].
    destruct (Hwf id' e' Hid') as [Heq _]. rewrite Heq, Hid' in He. injection He as ->.
    unfold matches in Hm. cbn [when_some ff_workspace_id] in Hm. rewrite !andb_true_iff in Hm. destruct_and!.
    apply Hw. by apply Z.eqb_eq. }
  revert Hg. generalize (map_to_list (by_workspace (query_files (st_db st)
    (mkFileListFilter (Some w) None None None None None (Some true))))). intros groups Hg. clear He Hw Hwf.
  generalize (mkReclaimStats 0 0 0 []). revert st ledger.
  induction Hg as [|[k files] groups Hk _ IH]; intros st ledger stats; [done|]. cbn [foldl].
  pose proof (reclaim_workspace_rows env st ledger stats k files id Hk) as Hstep.
  destruct (reclaim_workspace env (st, ledger, stats) (k, files)) as [[st1 ledger1] stats1]. rewrite IH. exact Hstep.
Qed.
End Confinement.

(** ** Counts over one workspace *)

(** The cached policies of a workspace. *)
Definition own_policies (w : Z) (cache : PolicyCacheMap) : PolicyCacheMap := filter (λ kp, kp.1.1.1.1 = w) cache.

(** The files of a workspace that are marked deleted, or are not. *)
Definition files_of (w : Z) (deleted : bool) (db : FileDb) : list FileListEntry :=
  filter (λ e, fe_workspace_id e = w ∧ fe_deleted e = deleted) (rows_list db).

(** What a cleanup of [w] counts, in the store it finds and in the one its
    marking leaves. *)
Definition marked_own (env : AdminEnv) (c : RetentionConfigStore) (w : Z) (db : FileDb) : CleanupStats :=
  let live := files_of w false db in
  let expired := filter (λ e, fe_max_ts e ≤ get_cutoff_us c w (cl_now_us (ae_cleanup env w))) live in
  mkCleanupStats (if cl_mark_ok (ae_cleanup env w) then zlen expired else 0)
    (if bool_decide (live = []) then 0 else 1)
    (if cl_mark_ok (ae_cleanup env w) || bool_decide (expired = []) then [] else [w]).

Definition reclaim_error_of (w : Z) (dead : list FileListEntry) (e : ReclaimError) : Prop :=
  match e with
  | PhysicalDeleteFailed id => id ∈ map fe_id dead
  | CommitFailed workspace_id => workspace_id = w
  | DeleteEntriesFailed => True
  end.

Definition reclaimed_counts (env : ReclaimEnv) (w : Z) (dead : list FileListEntry) (stats : ReclaimStats) : Prop :=
  files_reclaimed stats = zlen (filter (λ e, removes env e = true) dead) ∧
  bytes_freed stats = zsum (map size_of (filter (λ e, removes env e = true) dead)) ∧
  files_skipped_leased stats = zlen (filter (λ e, re_leased env (fe_id e) = true) dead) ∧
  Forall (reclaim_error_of w dead) (reclaim_errors stats).

Definition reclaimed_own (env : ReclaimEnv) (w : Z) (db : FileDb) (stats : ReclaimStats) : Prop :=
  reclaimed_counts env w (files_of w true db) stats.

Section Counts.
Context {R : Type}.

Lemma own_policies_lookup w cache key : key.1.1.1 = w → own_policies w cache !! key = cache !! key.
Proof.
  intros Hk. unfold own_policies. rewrite map_lookup_filter. destruct (cache !! key) as [p|]; [|done]. cbn.
  by rewrite option_guard_True.
Qed.

(** A resolution reads the policies of its workspace only. *)
Lemma resolve_own w cache s op :
  resolve_cached_policy (own_policies w cache) w s op = resolve_cached_policy cache w s op.
Proof.
  rewrite !resolve_fold. f_equal. unfold applicable.
  assert (Forall (λ key : PolicyCacheKey, key.1.1.1 = w) (resolution_keys w s op)) as Hk by by repeat constructor.
  induction Hk as [|key keys Hk _ IH]; [done|]. cbn [omap list_omap]. by rewrite own_policies_lookup, IH.
Qed.

Lemma group_on_one {K A : Type} `{Countable K} (key : A → K) k l :
  Forall (λ x, key x = k) l →
  map_to_list (group_on key l) = match l with [] => [] | _ => [(k, l)] end.
Proof.
  intros Hl. assert (group_on key l = match l with [] => ∅ | _ => {[k := l]} end) as ->.
  { apply map_eq. intros k'. rewrite group_on_lookup. destruct (decide (k = k')) as [<-|Hne].
    - rewrite filter_all by (by apply Forall_forall). destruct l; [done|]. by rewrite lookup_singleton_eq.
    - rewrite filter_none by (intros x Hx; rewrite Forall_forall in Hl; by rewrite (Hl x Hx)).
      destruct l; [done|]. by rewrite lookup_singleton_ne. }
  destruct l; [done|]. by rewrite map_to_list_singleton.
Qed.

Lemma filter_le {A : Type} (P Q : A → Prop) `{!∀ x, base.Decision (P x), !∀ x, base.Decision (Q x)} l :
  (∀ x, P x → Q x) → zlen (filter P l) ≤ zlen (filter Q l).
Proof.
  intros HPQ. induction l as [|x l IH]; [done|]. rewrite !filter_cons. case_decide as HP.
  - rewrite decide_True by auto. cbn [length]. lia.
  - case_decide; cbn [length]; lia.
Qed.

Lemma scoped_files w deleted db :
  query_files db (mkFileListFilter (Some w) None None None None None (Some deleted)) ≡ₚ files_of w deleted db.
Proof.
  unfold query_files, files_of. rewrite merge_sort_Permutation. apply reflexive_eq, list_filter_iff.
  intros e. unfold matches. cbn [when_some ff_workspace_id ff_signal_type ff_stream_name ff_time_range_start
    ff_time_range_end ff_location ff_deleted].
  rewrite !andb_true_r, andb_true_iff, Z.eqb_eq, bool_decide_eq_true. done.
Qed.

Lemma scoped_files_own w deleted db :
  Forall (λ e, fe_workspace_id e = w)
    (query_files db (mkFileListFilter (Some w) None None None None None (Some deleted))).
Proof. rewrite scoped_files. apply Forall_forall. by intros e [[? _] _]%list_elem_of_filter. Qed.

Lemma perm_nil (l k : list FileListEntry) : l ≡ₚ k → bool_decide (l = []) = bool_decide (k = []).
Proof. intros Hp%Permutation_length. apply bool_decide_ext. by destruct l, k. Qed.

Lemma cleanup_run_counts c env w db :
  (cleanup_run c (ae_cleanup env) db (Some w)).2 = marked_own env c w db.
Proof.
  unfold cleanup_run, marked_own. pose proof (scoped_files w false db) as Hperm.
  pose proof (scoped_files_own w false db) as Hown. set (files := query_files _ _) in *.
  set (live := files_of w false db) in *. unfold by_workspace. rewrite <-length_map_to_list, (group_on_one _ w files Hown).
  set (P := λ e : FileListEntry, fe_max_ts e ≤ get_cutoff_us c w (cl_now_us (ae_cleanup env w))).
  assert (filter P files ≡ₚ filter P live) as Hexp by by rewrite Hperm.
  rewrite <-(perm_nil _ _ Hperm), <-(perm_nil _ _ Hexp).
  assert (zlen (filter P live) = zlen (filter P files)) as -> by (f_equal; by rewrite Hexp).
  clear Hperm Hexp. destruct files as [|e files].
  { rewrite (bool_decide_eq_true_2 ([] = [])), (bool_decide_eq_true_2 (filter P [] = [])), orb_true_r by done.
    by destruct (cl_mark_ok _). }
  rewrite (bool_decide_eq_false_2 (e :: files = [])) by done.
  cbn [foldl cleanup_workspace length]. fold P. set (l := e :: files). clearbody l.
  destruct (filter P l) as [|x xs].
  - rewrite (bool_decide_eq_true_2 ([] = [])), orb_true_r by done. by destruct (cl_mark_ok _).
  - rewrite (bool_decide_eq_false_2 (x :: xs = [])), orb_false_r by done. by destruct (cl_mark_ok _).
Qed.

Lemma sweep_counts env files : ∀ (s : Sweep (R := R)),
  let stats := sw_stats (foldl (reclaim_file env) s files) in
  let gone := filter (λ e, removes env e = true) files in
  files_reclaimed stats = files_reclaimed (sw_stats s) + zlen gone ∧
  bytes_freed stats = bytes_freed (sw_stats s) + zsum (map size_of gone) ∧
  files_skipped_leased stats =
    files_skipped_leased (sw_stats s) + zlen (filter (λ e, re_leased env (fe_id e) = true) files) ∧
  ∃ ids, reclaim_errors stats = reclaim_errors (sw_stats s) ++ map PhysicalDeleteFailed ids ∧ ids ⊆ map fe_id files.
Proof.
  induction files as [|e files IH]; intros s; cbn zeta.
  { rewrite !filter_nil. cbn [foldl map length]. rewrite zsum_nil. split_and!; [lia..|]. exists []. by rewrite app_nil_r. }
  cbn [foldl]. destruct (IH (reclaim_file env s e)) as (H1 & H2 & H3 & ids & H4 & H5). rewrite H1, H2, H3, H4. clear IH H1 H2 H3 H4.
  assert (removes env e = negb (re_leased env (fe_id e)) && (delete_physical_file env (sw_store s) e).2) as Hrem.
  { unfold removes, delete_physical_file. f_equal. case_decide; [|by destruct (re_remove_ok _ _)].
    destruct (re_block_storage env); [|done]. by destruct (re_remove_ok _ _). }
  rewrite !filter_cons. unfold reclaim_file. rewrite Hrem. destruct (re_leased env (fe_id e)); cbn [negb andb].
  - rewrite decide_False, decide_True by done. cbn [sw_stats files_reclaimed bytes_freed files_skipped_leased reclaim_errors length].
    split_and!; [lia..|]. exists ids. split; [done|]. intros x Hx. right. by apply H5.
  - destruct (delete_physical_file env (sw_store s) e) as [st []]; cbn [snd].
    + rewrite decide_True, decide_False by done. cbn [sw_stats files_reclaimed bytes_freed files_skipped_leased reclaim_errors length map].
      rewrite zsum_cons. change (size_of e) with (Z.max (fe_compressed_size e) 0). split_and!; [lia..|]. exists ids. split; [done|]. intros x Hx. right. by apply H5.
    + rewrite !decide_False by done. cbn [sw_stats files_reclaimed bytes_freed files_skipped_leased reclaim_errors length map].
      split_and!; [lia..|]. exists (fe_id e :: ids). rewrite <-app_assoc. split; [done|].
      intros x [->|Hx]%elem_of_cons; [by left|right; by apply H5].
Qed.

Lemma reclaim_commit_stats env ledger (s : Sweep (R := R)) w dead :
  let stats := (reclaim_commit env ledger s w).2 in
  files_reclaimed stats = files_reclaimed (sw_stats s) ∧ bytes_freed stats = bytes_freed (sw_stats s) ∧
  files_skipped_leased stats = files_skipped_leased (sw_stats s) ∧
  ∃ errs, reclaim_errors stats = reclaim_errors (sw_stats s) ++ errs ∧ Forall (reclaim_error_of w dead) errs.
Proof.
  assert (∀ e, reclaim_error_of w dead e →
    ∃ errs, reclaim_errors (sw_stats s) ++ [e] = reclaim_errors (sw_stats s) ++ errs ∧ Forall (reclaim_error_of w dead) errs)
    as Hone by (intros e He; exists [e]; split; [done|by constructor]).
  assert (∃ errs, reclaim_errors (sw_stats s) = reclaim_errors (sw_stats s) ++ errs ∧ Forall (reclaim_error_of w dead) errs)
    as Hnone by (exists []; split; [by rewrite app_nil_r|constructor]).
  unfold reclaim_commit. destruct (sw_ids s) as [|i ids]; [by split_and!|]. destruct (re_storage_usage env).
  - destruct (re_commit env w),
      (record_cleanup_and_delete ledger (st_db (sw_store s)) (map_to_list (sw_deltas s)).*2 (i :: ids)) as [[l f]|];
      cbn; split_and!; try done; by apply Hone.
  - destruct (re_commit env w); cbn; split_and!; try done; by apply Hone.
Qed.

Lemma reclaimed_counts_perm env w l k stats :
  l ≡ₚ k → reclaimed_counts env w l stats → reclaimed_counts env w k stats.
Proof.
  intros Hp (H1 & H2 & H3 & H4). unfold reclaimed_counts. rewrite H1, H2, H3. split_and!.
  - f_equal. apply Permutation_length. by rewrite Hp.
  - by rewrite Hp.
  - f_equal. apply Permutation_length. by rewrite Hp.
  - eapply Forall_impl; [exact H4|]. intros []; cbn; try done. by rewrite Hp.
Qed.

Lemma reclaim_run_counts env (st : Store R) ledger w :
  reclaimed_own env w (st_db st) (reclaim_run env st ledger (Some w)).2.
Proof.
  unfold reclaim_run, by_workspace. pose proof (scoped_files w true (st_db st)) as Hperm.
  rewrite (group_on_one _ w _ (scoped_files_own w true (st_db st))). set (files := query_files _ _) in *.
  unfold reclaimed_own. apply (reclaimed_counts_perm env w files); [exact Hperm|]. clear Hperm. clearbody files.
  unfold reclaimed_counts. destruct files as [|e files]; [cbn; by split_and!|].
  set (l := e :: files).
  change (foldl (reclaim_workspace env) (st, ledger, mkReclaimStats 0 0 0 []) [(w, l)]) with
    (reclaim_commit env ledger (foldl (reclaim_file env) (mkSweep st (mkReclaimStats 0 0 0 []) [] ∅) l) w).
  pose proof (sweep_counts env l (mkSweep st (mkReclaimStats 0 0 0 []) [] ∅)) as (H1 & H2 & H3 & ids & H4 & H5).
  destruct (reclaim_commit_stats env ledger (foldl (reclaim_file env) (mkSweep st (mkReclaimStats 0 0 0 []) [] ∅) l) w l)
    as (C1 & C2 & C3 & errs & C4 & C5).
  rewrite C1, C2, C3, C4, H1, H2, H3, H4. split_and!; [done..|]. cbn [sw_stats reclaim_errors app].
  apply Forall_app. split; [|done]. apply Forall_forall. intros x (id & -> & Hid)%list_elem_of_fmap. cbn. by apply H5.
Qed.
End Counts.

(** ** Specification *)

(** A request on behalf of [w] leaves the other workspaces alone: their
    policies, retention, settings and files are as before, and what it adds to
    the audit log names [w]. *)
Record confined {R : Type} (w : Z) (s s' : AdminState R) : Prop := {
  cf_policies : others w (table (ad_policies s')) = others w (table (ad_policies s));
  cf_retention w' : w' ≠ w → configs (ad_retention s') !! w' = configs (ad_retention s) !! w';
  cf_settings w' : w' ≠ w → ad_settings s' !! w' = ad_settings s !! w';
  cf_files id e : file_rows (st_db (ad_store s)) !! id = Some e → fe_workspace_id e ≠ w →
    file_rows (st_db (ad_store s')) !! id = Some e;
  cf_audit : ∃ logs, audit_logs (ad_audit s') = audit_logs (ad_audit s) ++ logs ∧
    Forall (λ l, na_actor_workspace_id (al_log l) = Some w ∧ na_resource_workspace_id (al_log l) = Some w) logs;
}.

(** A body that answers with data answers with that of [w]: its policies, what
    they resolve to, its retention and settings as they are after the request,
    its audit entries, and the counts over its files. An error carries a
    message. *)
Definition body_of {R : Type} (env : AdminEnv) (w : Z) (s s' : AdminState R) (b : Body) : Prop :=
  match b with
  | NoBody | ErrorBody _ => True
  | PoliciesBody ps => Forall (λ p, p_workspace_id p = w) ps
  | EffectiveBody ingest query store =>
      let own op := resolve_cached_policy (own_policies w (cache (ad_policies s))) w AllSignals op in
      ingest = own Ingest ∧ query = own Query ∧ store = own PolicyStore.Store
  | CleanupBody marked reclaimed =>
      marked = marked_own env (ad_retention s') w (st_db (ad_store s)) ∧
      reclaimed_own (ae_reclaim env) w
        (cleanup_run (ad_retention s') (ae_cleanup env) (st_db (ad_store s)) (Some w)).1 reclaimed
  | RetentionBody workspace_id days inherited default_days =>
      workspace_id = w ∧
      if inherited
      then ad_settings s !! w = None ∧ days = get_effective_days (ad_retention s) w ∧ default_days = days
      else ∃ row, ad_settings s' !! w = Some row ∧ default_days = u32_of_i32 (traces_retention_days row)
  | SettingsBody settings => ad_settings s' !! w = Some settings
  | AuditBody page =>
      Forall (λ l, na_resource_workspace_id (al_log l) = Some w) (ap_items page) ∧
      ∃ t', ae_audit_read env = Some t' ∧
        ap_total page ≤ zlen (filter (λ l, na_resource_workspace_id (al_log l) = Some w) (audit_logs t'))
  end.

(** The capability a request asks for. *)
Definition needed_capability (r : AdminRequest) : option Capability :=
  match r with
  | UpsertPolicies _ _ | ListPolicies _ | GetEffectivePolicy _ | DeletePolicy _ _ | RunCleanup _ _ | ListAuditLogs _ => Some Admin
  | SetRetention _ _ | UpdateSettings _ _ => Some WriteSettings
  | GetSettings _ => Some ReadSettings
  | GetRetention _ => None
  end.

Section Specification.
Context {R : Type} `{NewestFirst} `{UuidText} (db_error : string).

Lemma confined_refl w (s : AdminState R) : confined w s s.
Proof. split; try done. exists []. by rewrite app_nil_r. Qed.

Lemma confined_policies w (s : AdminState R) p :
  others w (table p) = others w (table (ad_policies s)) → confined w s (with_policies s p).
Proof. intros Ho. split; try done. exists []. by rewrite app_nil_r. Qed.

Lemma confined_settings w row (s : AdminState R) : confined w s (with_settings s (<[w := row]> (ad_settings s))).
Proof. split; try done; [intros w' Hw; cbn; by rewrite lookup_insert_ne|]. exists []. by rewrite app_nil_r. Qed.

Lemma upsert_settings_confined env w row (s : AdminState R) : confined w s (upsert_settings env w row s).1.
Proof. unfold upsert_settings. destruct (ae_settings_write env); [apply confined_settings|apply confined_refl|apply confined_settings]. Qed.

Lemma upsert_settings_ctx env w row (s : AdminState R) :
  ad_policies (upsert_settings env w row s).1 = ad_policies s ∧ ad_retention (upsert_settings env w row s).1 = ad_retention s ∧
  ad_audit (upsert_settings env w row s).1 = ad_audit s ∧ ad_store (upsert_settings env w row s).1 = ad_store s.
Proof. unfold upsert_settings. by destruct (ae_settings_write env). Qed.

Lemma confined_retention w days (s s' : AdminState R) :
  confined w s s' → confined w s (with_retention_store s' (config_upsert (ad_retention s') w days)).
Proof.
  intros [Hp Hc Hs Hf Ha]. split; try done. intros w' Hw. cbn. rewrite lookup_insert_ne by done. by apply Hc.
Qed.

Lemma confined_audit w now log (s s' : AdminState R) :
  na_actor_workspace_id log = Some w → na_resource_workspace_id log = Some w →
  confined w s s' → confined w s (with_audit s' (create_audit_log now log (ad_audit s'))).
Proof.
  intros Hact Hres [Hp Hc Hs Hf (logs & Ha & Hl)]. split; try done. cbn. rewrite Ha.
  exists (logs ++ [mkAuditLog (next_audit_id (ad_audit s')) log now]). rewrite (assoc_L (++)). split; [done|].
  apply Forall_app. split; [done|]. by constructor.
Qed.

Definition good (env : AdminEnv) (w : Z) (s : AdminState R) (r : AdminState R * Response) : Prop :=
  confined w s r.1 ∧ body_of env w s r.1 r.2.2.

Lemma good_error env w s e : good env w s (s, control_error e).
Proof. split; [apply confined_refl|]. unfold control_error. by destruct (error_response e). Qed.

Lemma good_same env w s code b : body_of env w s s b → good env w s (s, (code, b)).
Proof. split; [apply confined_refl|done]. Qed.

Lemma guarded_good {A : Type} env w (s : AdminState R) (g : outcome ControlError A) k :
  (∀ a, g = Ok a → good env w s (k a)) → good env w s (guarded s g k).
Proof. intros Hk. destruct g; cbn; [by apply Hk|apply good_error|by apply good_same]. Qed.

(** A guard of a later state, as the state it started from sees it. *)
Lemma guarded_good_from {A : Type} env w (s s' : AdminState R) (g : outcome ControlError A) k :
  confined w s s' → (∀ a, g = Ok a → good env w s (k a)) → good env w s (guarded s' g k).
Proof.
  intros Hc Hk. destruct g as [a|e|]; cbn; [by apply Hk| |by split]. split; [done|]. unfold control_error.
  by destruct (error_response e).
Qed.

Lemma policy_response_good {A : Type} env w (s s' : AdminState R) code (r : outcome PolicyError A) k :
  confined w s s' → (∀ a, r = Ok a → good env w s (k a)) → good env w s (policy_response db_error s' code r k).
Proof. intros Hc Hk. destruct r; cbn; [by apply Hk|by split..]. Qed.

Lemma collect_workspace (rows : list PolicyRow) ps w :
  collect rows = Ok ps → Forall (λ row, row_workspace_id row = w) rows → Forall (λ p, p_workspace_id p = w) ps.
Proof.
  intros Hps Hrows. revert ps Hps. induction Hrows as [|row rows Hrow _ IH]; intros ps; cbn [collect]; [by intros [= <-]|].
  intros (p & Hp & (ps' & Hps & [= <-])%bind_Ok)%bind_Ok. constructor; [|by apply IH].
  unfold row_to_policy in Hp. repeat (apply bind_Ok in Hp as (? & _ & Hp)). injection Hp as <-. done.
Qed.

Lemma policy_list_workspace ok w s ps : policy_list ok w s = Ok ps → Forall (λ p, p_workspace_id p = w) ps.
Proof.
  unfold policy_list. destruct ok; [|done]. intros Hps. eapply collect_workspace; [exact Hps|].
  apply Forall_forall. intros row (r & -> & Hr)%list_elem_of_fmap. rewrite newest_first_perm in Hr.
  by apply list_elem_of_filter in Hr as [? _].
Qed.

Lemma policy_list_id ok w s ps id :
  policy_list ok w s = Ok ps → existsb (λ p, bool_decide (p_id p = Some id)) ps = true →
  ∃ r, r ∈ policies (table s) ∧ row_id (pr_row r) = id ∧ row_workspace_id (pr_row r) = w.
Proof.
  unfold policy_list. destruct ok; [|done]. intros Hps Hex.
  destruct (collect_id _ _ _ Hps Hex) as (row & (r & -> & Hr)%list_elem_of_fmap & Hid). rewrite newest_first_perm in Hr.
  apply list_elem_of_filter in Hr as [Hw Hr]. by exists r.
Qed.

Lemma capabilities_own auth w : ac_capabilities auth ≠ [] → enforce_path_workspace auth w = Ok () → w = ac_workspace auth.
Proof.
  intros Hcaps%standalone_false. unfold enforce_path_workspace. rewrite Hcaps. by destruct (Z.eqb_spec (ac_workspace auth) w).
Qed.

Lemma elem_of_take_drop {A} (x : A) n m l : x ∈ take n (drop m l) → x ∈ l.
Proof.
  intros Hx. assert (x ∈ drop m l) as Hd.
  { rewrite <-(take_drop n (drop m l)). apply elem_of_app. by left. }
  rewrite <-(take_drop m l). apply elem_of_app. by right.
Qed.

Lemma upsert_policies_good env auth w configs (s : AdminState R) :
  ac_capabilities auth ≠ [] → good env (ac_workspace auth) s (upsert_policies db_error env auth w configs s).
Proof.
  intros Hcaps%standalone_false. apply guarded_good. intros _ _. apply guarded_good. intros w' Hw'.
  assert (w' = ac_workspace auth) as ->.
  { unfold workspace_or_reject_platform_override in Hw'. rewrite Hcaps in Hw'. destruct w; [destruct (negb _)|]; congruence. }
  cbn beta zeta. destruct (upsert_many (ae_policy env) _ (ad_policies s)) as [p r] eqn:Hup.
  assert (confined (ac_workspace auth) s (with_policies s p)) as Hc.
  { apply confined_policies. unfold upsert_many in Hup. destruct (policy_of_config _ _ <$> configs) as [|c cs] eqn:Hps; [by simplify_eq|].
    replace p with (change (ae_policy env) (ad_policies s) (ofold (policy_upsert_row (pe_now (ae_policy env))) (table (ad_policies s)) (c :: cs))).1
      by by rewrite Hup.
    apply (change_table (ae_policy env) (ad_policies s) _ (λ t, others (ac_workspace auth) t = others (ac_workspace auth) (table (ad_policies s)))); [done|].
    intros t'. apply upsert_rows_others. rewrite <-Hps. apply Forall_fmap, Forall_forall. done. }
  apply policy_response_good; [done|]. intros _ _. by split.
Qed.

Lemma delete_policy_good env auth id w (s : AdminState R) :
  ac_capabilities auth ≠ [] → table_wf (table (ad_policies s)) →
  good env (ac_workspace auth) s (delete_policy db_error env auth id w s).
Proof.
  intros Hcaps%standalone_false Hwf. apply guarded_good. intros _ _. apply guarded_good. intros w' Hw'.
  unfold workspace_or_standalone_override in Hw'. rewrite Hcaps in Hw'. injection Hw' as <-.
  apply policy_response_good; [apply confined_refl|]. intros ps Hps.
  cbn beta. destruct (existsb _ ps) eqn:Hex; [|by apply good_same].
  destruct (policy_list_id _ _ _ _ _ Hps Hex) as (r & Hr & Hid & Hrw).
  cbn beta zeta. destruct (delete (ae_policy env) id (ad_policies s)) as [p res] eqn:Hdel.
  assert (confined (ac_workspace auth) s (with_policies s p)) as Hc.
  { apply confined_policies. replace p with (delete (ae_policy env) id (ad_policies s)).1 by by rewrite Hdel.
    apply (change_table (ae_policy env) (ad_policies s) _ (λ t, others (ac_workspace auth) t = others (ac_workspace auth) (table (ad_policies s)))); [done|].
    intros t' [= <-]. by eapply delete_others. }
  apply policy_response_good; [done|]. intros _ _. by split.
Qed.

Lemma run_cleanup_good env auth days w (s : AdminState R) :
  ac_capabilities auth ≠ [] → db_wf (st_db (ad_store s)) →
  good env (ac_workspace auth) s (run_cleanup_handler db_error env auth days w s).
Proof.
  intros Hcaps%standalone_false Hwf. apply guarded_good. intros _ _. apply guarded_good. intros w' Hw'.
  unfold workspace_or_standalone_override in Hw'. rewrite Hcaps in Hw'. injection Hw' as <-.
  cbn beta zeta. set (w' := ac_workspace auth). set (c := match days with Some _ => _ | None => _ end).
  assert (confined w' s (with_retention_store s c)) as Hc.
  { unfold c. destruct days; [apply confined_retention, confined_refl|]. destruct s. apply confined_refl. }
  cbn zeta. destruct (ae_cleanup_query_ok env); cbn [negb]; [|by split].
  destruct (cleanup_run _ _ _ _) as [db marked] eqn:Hrun. cbn zeta.
  change (ad_store (with_retention_store s c)) with (ad_store s) in Hrun.
  pose proof (cleanup_run_wf c (ae_cleanup env) (st_db (ad_store s)) (Some w') Hwf) as Hwf'. rewrite Hrun in Hwf'. cbn [fst] in Hwf'.
  set (s1 := with_files _ _ _).
  assert (∀ id e, file_rows (st_db (ad_store s)) !! id = Some e → fe_workspace_id e ≠ w' →
    file_rows (st_db (ad_store s1)) !! id = Some e) as Hfiles.
  { intros id e He Hne. cbn. pose proof (cleanup_run_lookup c (ae_cleanup env) (st_db (ad_store s)) (Some w') id Hwf) as Hl.
    rewrite Hrun, He in Hl. cbn [fst] in Hl. rewrite Hl. cbn. unfold expires. cbn [when_some].
    rewrite (proj2 (Z.eqb_neq _ _) Hne), andb_false_r. done. }
  assert (confined w' s s1) as Hc1 by (by destruct Hc).
  destruct (ae_reclaim_query_ok env); cbn [negb]; [|by split].
  destruct (reclaim_run _ _ _ _) as [[st ledger] reclaimed] eqn:Hrec. split.
  2: { cbn [snd fst body_of]. change (ad_retention (with_files s1 st ledger)) with c. rewrite Hrun. cbn [fst]. split.
       - pose proof (cleanup_run_counts c env w' (st_db (ad_store s))) as Hm. by rewrite Hrun in Hm.
       - pose proof (reclaim_run_counts (ae_reclaim env) (ad_store s1) (ad_ledger s1) w') as Hr. by rewrite Hrec in Hr. }
  destruct Hc1 as [? ? ? _ ?]. split; try done.
  intros id e He Hne. cbn. replace st with (reclaim_run (ae_reclaim env) (ad_store s1) (ad_ledger s1) (Some w')).1.1 by by rewrite Hrec.
  by apply reclaim_run_others; [|apply Hfiles|].
Qed.

Lemma upsert_settings_saved env w row (s s' : AdminState R) saved :
  upsert_settings env w row s = (s', Ok saved) → ad_settings s' !! w = Some saved.
Proof. unfold upsert_settings. destruct (ae_settings_write env); intros [= <- <-]. apply lookup_insert_eq. Qed.

Lemma set_retention_good env auth w days (s : AdminState R) :
  good env (ac_workspace auth) s (set_workspace_retention_handler env auth w days s).
Proof.
  apply guarded_good. intros _ _. destruct (Z.eqb_spec (ac_workspace auth) w) as [<-|]; cbn [negb]; [|by apply good_same].
  destruct (read_settings _ _ _) as [found|e|]; [|by apply good_same..].
  set (row := with_retention _ _). pose proof (upsert_settings_confined env (ac_workspace auth) row s) as Hc.
  cbn zeta. destruct (upsert_settings _ _ _ _) as [s' saved] eqn:Hup. cbn [fst] in Hc.
  destruct saved as [saved|e|]; [|by split..]. split; [by apply confined_retention|]. split; [done|].
  exists saved. split; [|done]. exact (upsert_settings_saved _ _ _ _ _ _ Hup).
Qed.

Lemma get_settings_good env auth w (s : AdminState R) :
  ac_capabilities auth ≠ [] → good env (ac_workspace auth) s (get_workspace_settings_handler env auth w s).
Proof.
  intros Hcaps. apply guarded_good. intros _ _. apply guarded_good. intros [] Hw. apply (capabilities_own auth w Hcaps) in Hw as ->.
  apply guarded_good. intros found Hf. destruct found as [settings|].
  { apply good_same. cbn. unfold read_settings in Hf. destruct (ae_settings_read_ok env); cbn in Hf; congruence. }
  pose proof (upsert_settings_confined env (ac_workspace auth) defaults_for s) as Hc.
  destruct (upsert_settings _ _ _ _) as [s' saved] eqn:Hup. apply guarded_good_from; [done|]. intros settings Hs.
  split; [done|]. destruct saved; [|done..]. injection Hs as ->. exact (upsert_settings_saved _ _ _ _ _ _ Hup).
Qed.

Lemma update_settings_good env auth w body (s : AdminState R) :
  ac_capabilities auth ≠ [] → good env (ac_workspace auth) s (update_workspace_settings_handler env auth w body s).
Proof.
  intros Hcaps. apply guarded_good. intros _ _. apply guarded_good. intros [] Hw. apply (capabilities_own auth w Hcaps) in Hw as ->.
  apply guarded_good. intros _ _.
  pose proof (upsert_settings_confined env (ac_workspace auth) body s) as Hc.
  destruct (upsert_settings _ _ _ _) as [s' saved] eqn:Hup. apply guarded_good_from; [done|]. intros settings Hs. cbn [fst] in Hc.
  assert (ad_settings s' !! ac_workspace auth = Some settings) as Hrow.
  { destruct saved; [|done..]. injection Hs as ->. exact (upsert_settings_saved _ _ _ _ _ _ Hup). }
  destruct (ae_audit_configured env); [|by split]. cbn zeta.
  assert (confined (ac_workspace auth) s (with_audit s' (create_audit_log (ae_now_micros env)
    (settings_audit auth (ac_workspace auth) settings) (ad_audit s')))) as Ha by by apply confined_audit.
  destruct (ae_audit_write env); by split.
Qed.

Lemma audit_matches_workspace f l w :
  audit_matches f l = true → af_workspace_id f = Some w → na_resource_workspace_id (al_log l) = Some w.
Proof.
  unfold audit_matches. intros Hm Hf. rewrite Hf in Hm. cbn [when_some] in Hm. rewrite !andb_true_iff in Hm.
  destruct Hm as [[[[[Hm _] _] _] _] _]. by apply bool_decide_eq_true in Hm.
Qed.

Lemma list_audit_good env auth query (s : AdminState R) :
  ac_capabilities auth ≠ [] → good env (ac_workspace auth) s (list_audit_logs_handler env auth query s).
Proof.
  intros Hcaps%standalone_false. apply guarded_good. intros _ _. apply guarded_good. intros scope Hs.
  unfold audit_scope in Hs. rewrite Hcaps in Hs. cbn [negb] in Hs. injection Hs as <-.
  cbn zeta. destruct (ae_audit_read env) as [t'|] eqn:Hread; [|apply good_error]. apply good_same.
  cbn [body_of list_audit_logs ap_items ap_total].
  split; [|exists t'; split; [done|]].
  2: { apply filter_le. intros l Hm. by eapply audit_matches_workspace. }
  apply Forall_forall. intros l Hl%elem_of_take_drop. unfold matching_logs in Hl. rewrite merge_sort_Permutation in Hl.
  apply list_elem_of_filter in Hl as [Hm _]. by eapply audit_matches_workspace.
Qed.

Lemma refused_unchanged {A : Type} (s : AdminState R) c (k : A → _) (g : outcome ControlError A) :
  g = Err (Forbidden (missing_capability c)) → guarded s g k = (s, (403, ErrorBody (missing_capability c))).
Proof. by intros ->. Qed.

Lemma admin_step_good env auth r (s : AdminState R) :
  ac_capabilities auth ≠ [] → table_wf (table (ad_policies s)) → db_wf (st_db (ad_store s)) →
  good env (ac_workspace auth) s (admin_step db_error env auth r s).
Proof.
  intros Hcaps Hpol Hdb. destruct r; cbn [admin_step].
  - by apply upsert_policies_good.
  - apply guarded_good. intros _ _. apply guarded_good. intros w Hw. unfold workspace_or_standalone_override in Hw.
    rewrite (proj2 (standalone_false auth) Hcaps) in Hw. injection Hw as <-.
    apply policy_response_good; [apply confined_refl|]. intros ps Hps. apply good_same. by eapply policy_list_workspace.
  - apply guarded_good. intros _ _. apply guarded_good. intros _ _. apply good_same.
    split_and!; symmetry; apply resolve_own.
  - by apply delete_policy_good.
  - by apply run_cleanup_good.
  - unfold get_workspace_retention_handler. destruct (Z.eqb_spec (ac_workspace auth) path_workspace) as [<-|]; cbn [negb];
      [|by apply good_same].
    assert (∀ found, read_settings env (ac_workspace auth) s = Ok found → ad_settings s !! ac_workspace auth = found) as Hread
      by (unfold read_settings; destruct (ae_settings_read_ok env); congruence).
    destruct (read_settings _ _ _) as [[settings|]|e|]; apply good_same; try done; specialize (Hread _ eq_refl); cbn.
    + split; [done|]. by exists settings.
    + by split_and!.
  - apply set_retention_good.
  - by apply get_settings_good.
  - by apply update_settings_good.
  - by apply list_audit_good.
Qed.


(** For a standalone caller the workspace in the path of the effective policy is
    not looked at: every path answers with the policies of the caller's own
    workspace. *)
Theorem effective_policy_ignores_path auth w w' (s : AdminState R) :
  ac_capabilities auth = [] →
  get_effective_policy auth w s = get_effective_policy auth w' s ∧
  get_effective_policy auth w s = (s, (200, EffectiveBody
    (resolve (ad_policies s) (ac_workspace auth) AllSignals Ingest)
    (resolve (ad_policies s) (ac_workspace auth) AllSignals Query)
    (resolve (ad_policies s) (ac_workspace auth) AllSignals PolicyStore.Store))).
Proof.
  intros Hs%standalone_true. unfold get_effective_policy, require, enforce_path_workspace. rewrite Hs. done.
Qed.
End Specification.

(** The pages of the audit log, read one after the other over one table, are its
    matching entries, newest first, each once; no page has more than 500. *)
Theorem audit_pages_cover f t (n : nat) :
  let page k := list_audit_logs (mkAuditFilters (af_workspace_id f) (af_action f) (af_resource_type f) (af_resource_id f)
    (af_start_created_at f) (af_end_created_at f) (af_limit f) (Some (Z.of_nat k * ap_limit (list_audit_logs f t t)))) t t in
  let size := Z.to_nat (ap_limit (list_audit_logs f t t)) in
  (1 ≤ size ≤ 500)%nat ∧
  concat (ap_items ∘ page <$> seq 0 n) = take (n * size) (matching_logs f (audit_logs t)) ∧
  matching_logs f (audit_logs t) ≡ₚ filter (λ l, audit_matches f l = true) (audit_logs t) ∧
  StronglySorted later (matching_logs f (audit_logs t)) ∧
  ap_total (page 0%nat) = zlen (matching_logs f (audit_logs t)).
Proof.
  intros page size.
  assert (Total later) as Htotal by (intros a b; unfold later; lia).
  assert (Transitive later) as Htrans by (intros a b c; unfold later; lia).
  assert (matching_logs f (audit_logs t) ≡ₚ filter (λ l, audit_matches f l = true) (audit_logs t)) as Hperm
    by apply merge_sort_Permutation.
  split_and!; [unfold size, list_audit_logs; cbn [ap_limit]; lia..| |done| |].
  - induction n as [|n IH]; [done|]. rewrite seq_S, fmap_app, concat_app, IH. cbn [fmap list_fmap concat Nat.add].
    rewrite app_nil_r.
    assert ((ap_items ∘ page) n = take size (drop (n * size) (matching_logs f (audit_logs t)))) as ->.
    { unfold page, size. cbn [compose list_audit_logs ap_items ap_limit af_limit af_offset from_option id].
      rewrite Z2Nat.inj_mul, Nat2Z.id by lia. done. }
    replace (S n * size)%nat with (n * size + size)%nat by lia. by rewrite take_take_drop.
  - by apply StronglySorted_merge_sort.
  - cbn [page list_audit_logs ap_total]. f_equal. symmetry. by apply Permutation_length.
Qed.

(** ** Witnesses *)

#[local] Existing Instance newest_first_sort.
#[local] Existing Instance uuid_concrete.

Definition sample_admin : AdminState Z :=
  mkAdmin sample_store (retention_new 30) ∅ (mkAuditTable [] 1) (mkStore ∅ ∅ Retention.sample_db) storage_db_empty.

Definition admin_env : AdminEnv :=
  mkAdminEnv 50 (env_at 50) true true Retention.sample_env true
    (mkReclaimEnv false false 0 (λ _, false) (λ _, true) (λ _, PgUsageWorker.Committed)) true WriteDone true WriteDone
    (Some (mkAuditTable [] 1)).

(** An administrator of workspace 1, whose files the sample holds. *)
Definition sample_admin_caller : AuthContext := mkAuthContext (mkContext 1) Standalone [Admin].


(** The run marked the expired file of workspace 1, not those of others. *)
Example cleanup_of_one_workspace :
  let s' := (admin_step "" admin_env sample_admin_caller (RunCleanup (Some 0) (Some 2)) sample_admin).1 in
  file_rows (st_db (ad_store s')) !! 1 = None ∧ is_Some (file_rows (st_db (ad_store s')) !! 3).
Proof. split; [vm_compute; reflexivity|vm_compute; eexists; reflexivity]. Qed.

Lemma effective_policy_ignores_path_witness :
  (get_effective_policy (mkAuthContext (mkContext 7) Standalone []) 8 sample_admin).2 =
    (get_effective_policy (mkAuthContext (mkContext 7) Standalone []) 7 sample_admin).2.
Proof.
  rewrite (proj1 (effective_policy_ignores_path (mkAuthContext (mkContext 7) Standalone []) 8 7 sample_admin eq_refl)).
  reflexivity.
Defined.
