(* ===== verification/AdminGrpc.v ===== *)
(** The admin API over gRPC: the handlers of [api/src/grpc/retention_handler.rs],
    [policy_handler.rs], [audit_handler.rs] and [settings_handler.rs], with the
    translation of their messages in [grpc/conversions.rs].

    The handlers work on the state of [AdminApi]. They take the workspace from the
    caller's key; the [workspace_id] of a request is not read, and the messages
    below leave it out. *)

From stdpp Require Import base gmap sorting list strings.
From S2P Require Import Prelude PolicyStore FileList WriteBuffer TelemetryWriter ParquetWriter Compactor Lease Retention StorageUsage Reclaimer Export Auth Authorize PolicyDb AdminApi.

Module Pb.
Record Policy := mkPbPolicy {
  xp_id : option Z;
  xp_workspace_id : string;
  xp_signal : string;
  xp_operation : string;
  xp_limit_json : string;
  xp_grace_pct : Z;
  xp_hard_block_pct : Z;
  xp_effective_from : Z;
  xp_effective_until : option Z;
  xp_source : string;
}.

Record PolicyConfig := mkPbPolicyConfig {
  xc_signal : string;
  xc_operation : string;
  xc_limit_json : string;
  xc_grace_pct : option Z;
  xc_hard_block_pct : option Z;
  xc_effective_from : option Z;
  xc_effective_until : option Z;
  xc_source : option string;
}.

Record ResolvedPolicy := mkPbResolved {
  xr_blocked : bool;
  xr_rate_json : option string;
  xr_quotas_json : list string;
  xr_size_json : option string;
  xr_retention_json : option string;
  xr_query_window_json : option string;
  xr_grace_pct : Z;
  xr_hard_block_pct : Z;
}.

Record AuditLog := mkPbAuditLog {
  xl_id : Z;
  xl_actor_workspace_id : option string;
  xl_resource_workspace_id : option string;
  xl_action : string;
  xl_resource_type : string;
  xl_resource_id : string;
  xl_metadata_json : string;
  xl_created_at : Z;
}.

(** Without the id and the time of the row. *)
Record WorkspaceSettings := mkPbSettings {
  xs_workspace_id : string;
  xs_traces_retention_days : Z;
  xs_metrics_retention_days : Z;
  xs_logs_retention_days : Z;
  xs_max_ingestion_rate : option Z;
  xs_file_push_interval_secs : Z;
  xs_blocked : bool;
  xs_capture_llm_content_enabled : bool;
}.

(** Without the duration. *)
Record RetentionRunStats := mkPbRunStats {
  xn_files_marked : Z;
  xn_files_deleted : Z;
  xn_bytes_freed : Z;
  xn_files_skipped_leased : Z;
  xn_projects_processed : Z;
  xn_errors : list string;
}.
End Pb.

(** The replies of the nine calls. *)
Inductive Reply :=
| RunCleanupResponse (stats : Pb.RetentionRunStats)
| RetentionResponse (workspace_id : string) (retention_days : Z) (inherited : bool) (workspace_default_days : Z)
| ListPoliciesResponse (ps : list Pb.Policy)
| UpsertPoliciesResponse
| EffectivePolicyResponse (ingest query store : Pb.ResolvedPolicy)
| ListAuditLogsResponse (items : list Pb.AuditLog) (total limit offset : Z)
| SettingsResponse (settings : Pb.WorkspaceSettings).

Section Grpc.
Context {R H : Type} `{NewestFirst} `{UuidText} (db_error : string) (authorizer : H → outcome AuthError AuthResolution).
(** serde_json on a limit and on the metadata of an audit entry, and the text of
    the errors a cleanup notes. *)
Context (limit_text : PolicyLimit → string) (parse_limit : string → outcome string PolicyLimit) (metadata_text : Settings → string)
  (show_cleanup_error : Z → string) (show_reclaim_error : ReclaimError → string).

(** ** Messages *)

Definition policy_to_proto (p : Policy) : Pb.Policy :=
  Pb.mkPbPolicy (p_id p) (uuid_to_string (p_workspace_id p)) (signal_kind (p_signal p)) (operation (p_operation p)) (limit_text (p_limit p))
    (p_grace_pct p) (p_hard_block_pct p) (p_effective_from p) (p_effective_until p) (policy_source (p_source p)).

Definition resolved_policy_to_proto (r : ResolvedPolicy) : Pb.ResolvedPolicy :=
  Pb.mkPbResolved (blocked r) (limit_text <$> rate r) (limit_text <$> quotas r) (limit_text <$> size r) (limit_text <$> retention r)
    (limit_text <$> query_window r) (grace_pct r) (hard_block_pct r).

Definition proto_signal_kind (s : string) : outcome Status SignalKind :=
  map_err (λ _, status InvalidArgument ("invalid signal: " +:+ s)) (PolicyStore.parse_signal_kind s).
Definition proto_operation (s : string) : outcome Status Operation :=
  map_err (λ _, status InvalidArgument ("invalid operation: " +:+ s)) (PolicyStore.parse_operation s).
Definition parse_policy_limit (json : string) : outcome Status PolicyLimit :=
  map_err (λ e, status InvalidArgument ("invalid limit_json: " +:+ e)) (parse_limit json).
Definition proto_policy_source (s : string) : outcome Status PolicySource :=
  map_err (λ _, status InvalidArgument ("invalid source: " +:+ s)) (PolicyStore.parse_policy_source s).

Definition policy_config_to_policy (workspace_id now : Z) (cfg : Pb.PolicyConfig) : outcome Status Policy :=
  signal ← proto_signal_kind (Pb.xc_signal cfg);
  op ← proto_operation (Pb.xc_operation cfg);
  limit ← parse_policy_limit (Pb.xc_limit_json cfg);
  source ← match Pb.xc_source cfg with Some s => proto_policy_source s | None => Ok SourceApi end;
  mret (mkPolicy None workspace_id signal op limit (Z.min (default 101 (Pb.xc_grace_pct cfg)) 255)
    (Z.min (default 103 (Pb.xc_hard_block_pct cfg)) 255) (default now (Pb.xc_effective_from cfg)) (Pb.xc_effective_until cfg) source).

(** [collect] into a [Result]. *)
Fixpoint collect_policies (workspace_id now : Z) (cfgs : list Pb.PolicyConfig) : outcome Status (list Policy) :=
  match cfgs with
  | [] => mret []
  | cfg :: cfgs => p ← policy_config_to_policy workspace_id now cfg; ps ← collect_policies workspace_id now cfgs; mret (p :: ps)
  end.

Definition audit_log_to_proto (l : AuditLog) : Pb.AuditLog :=
  Pb.mkPbAuditLog (al_id l) (uuid_to_string <$> na_actor_workspace_id (al_log l)) (uuid_to_string <$> na_resource_workspace_id (al_log l))
    (na_action (al_log l)) (na_resource_type (al_log l)) (na_resource_id (al_log l)) (metadata_text (na_metadata (al_log l))) (al_created_at l).

Definition workspace_settings_to_proto (workspace_id : Z) (s : Settings) : Pb.WorkspaceSettings :=
  Pb.mkPbSettings (uuid_to_string workspace_id) (traces_retention_days s) (metrics_retention_days s) (logs_retention_days s)
    (s_max_ingestion_rate s) (s_file_push_interval_secs s) (s_blocked s) (s_capture_llm_content_enabled s).

(** [with_reclaim], then [retention_run_stats_to_proto]. *)
Definition run_stats_to_proto (marked : CleanupStats) (reclaimed : ReclaimStats) : Pb.RetentionRunStats :=
  Pb.mkPbRunStats (files_marked marked) (files_reclaimed reclaimed) (bytes_freed reclaimed) (files_skipped_leased reclaimed)
    (projects_processed marked) ((show_cleanup_error <$> cleanup_errors marked) ++ (show_reclaim_error <$> reclaim_errors reclaimed)).

(** ** Handlers *)

Definition Answer : Type := AdminState R * outcome Status Reply.

(** [authorize_admin(..)?], then the workspace of the caller. *)
Definition authorize_admin (headers : H) (cap : Capability) (s : AdminState R) (k : Z → Answer) : Answer :=
  match authorize_request authorizer headers cap with
  | Ok auth => k (ac_workspace auth)
  | Err st => (s, Err st)
  | Panic => (s, Panic)
  end.

(** [?] on a result, in the state reached. *)
Definition tried {A : Type} (s : AdminState R) (r : outcome Status A) (k : A → Answer) : Answer :=
  match r with Ok a => k a | Err st => (s, Err st) | Panic => (s, Panic) end.

(** [map_anyhow_error]. *)
Definition map_anyhow_error {A : Type} (r : outcome string A) : outcome Status A := map_err (status InternalError) r.

Definition rpc_run_cleanup (env : AdminEnv) (headers : H) (retention_days : option Z) (s : AdminState R) : Answer :=
  authorize_admin headers Admin s (λ workspace_id,
    let c := match retention_days with
             | Some days => config_upsert (ad_retention s) workspace_id days | None => ad_retention s end in
    let s := with_retention_store s c in
    if negb (ae_cleanup_query_ok env) then (s, Err (status InternalError db_error))
    else
      let '(db, marked) := cleanup_run c (ae_cleanup env) (st_db (ad_store s)) (Some workspace_id) in
      let s := with_files s (with_db (ad_store s) db) (ad_ledger s) in
      if negb (ae_reclaim_query_ok env) then (s, Err (status InternalError db_error))
      else
        let '(st, ledger, reclaimed) := reclaim_run (ae_reclaim env) (ad_store s) (ad_ledger s) (Some workspace_id) in
        (with_files s st ledger, Ok (RunCleanupResponse (run_stats_to_proto marked reclaimed)))).

Definition rpc_get_workspace_retention (env : AdminEnv) (headers : H) (s : AdminState R) : Answer :=
  authorize_admin headers Admin s (λ workspace_id,
  tried s (map_anyhow_error (read_settings env workspace_id s)) (λ found,
    let '(days, inherited) := match found with
                              | Some settings => (u32_of_i32 (traces_retention_days settings), false)
                              | None => (get_effective_days (ad_retention s) workspace_id, true) end in
    (s, Ok (RetentionResponse (uuid_to_string workspace_id) days inherited days)))).

Definition rpc_set_workspace_retention (env : AdminEnv) (headers : H) (retention_days : Z) (s : AdminState R) : Answer :=
  authorize_admin headers WriteSettings s (λ workspace_id,
  tried s (map_anyhow_error (read_settings env workspace_id s)) (λ found,
    let settings := with_retention (default defaults_for found) (i32_of_u32 retention_days) in
    let '(s, saved) := upsert_settings env workspace_id settings s in
    tried s (map_anyhow_error saved) (λ saved,
      (with_retention_store s (config_upsert (ad_retention s) workspace_id retention_days),
       Ok (RetentionResponse (uuid_to_string workspace_id) retention_days false (u32_of_i32 (traces_retention_days saved))))))).

Definition rpc_list_policies (env : AdminEnv) (headers : H) (s : AdminState R) : Answer :=
  authorize_admin headers Admin s (λ workspace_id,
  tried s (map_err (λ e, status InternalError (show_policy_error db_error e)) (policy_list (ae_list_ok env) workspace_id (ad_policies s))) (λ ps,
    (s, Ok (ListPoliciesResponse (policy_to_proto <$> ps))))).

Definition rpc_upsert_policies (env : AdminEnv) (headers : H) (cfgs : list Pb.PolicyConfig) (s : AdminState R) : Answer :=
  authorize_admin headers Admin s (λ workspace_id,
  tried s (collect_policies workspace_id (ae_now_micros env) cfgs) (λ ps,
    let '(p, r) := upsert_many (ae_policy env) ps (ad_policies s) in
    let s := with_policies s p in
    tried s (map_err (λ e, status InvalidArgument (show_policy_error db_error e)) r) (λ _, (s, Ok UpsertPoliciesResponse)))).

Definition rpc_get_effective_policy (headers : H) (s : AdminState R) : Answer :=
  authorize_admin headers Admin s (λ workspace_id,
    let resolved op := resolved_policy_to_proto (resolve (ad_policies s) workspace_id AllSignals op) in
    (s, Ok (EffectivePolicyResponse (resolved Ingest) (resolved Query) (resolved PolicyStore.Store)))).

(** The filters of the request; its workspace is not among them. *)
Definition rpc_list_audit_logs (env : AdminEnv) (headers : H) (req : AuditLogFilters) (s : AdminState R) : Answer :=
  authorize_admin headers Admin s (λ workspace_id,
    let f := mkAuditFilters (Some workspace_id) (af_action req) (af_resource_type req) (af_resource_id req)
               (af_start_created_at req) (af_end_created_at req) (af_limit req) (af_offset req) in
    match ae_audit_read env with
    | Some t' =>
        let page := list_audit_logs f (ad_audit s) t' in
        (s, Ok (ListAuditLogsResponse (audit_log_to_proto <$> ap_items page) (ap_total page) (ap_limit page) (ap_offset page)))
    | None => (s, Err (status InternalError "Failed to list audit logs"))
    end).

Definition rpc_get_workspace_settings (env : AdminEnv) (headers : H) (s : AdminState R) : Answer :=
  authorize_admin headers ReadSettings s (λ workspace_id,
  tried s (map_anyhow_error (read_settings env workspace_id s)) (λ found,
    let '(s, settings) := match found with
                          | Some settings => (s, Ok settings)
                          | None => upsert_settings env workspace_id defaults_for s end in
    tried s (map_anyhow_error settings) (λ settings, (s, Ok (SettingsResponse (workspace_settings_to_proto workspace_id settings)))))).

Definition rpc_update_workspace_settings (env : AdminEnv) (headers : H) (body : Settings) (s : AdminState R) : Answer :=
  authorize_admin headers WriteSettings s (λ workspace_id,
  tried s (map_err (status InvalidArgument) (validate_settings body)) (λ _,
    let '(s, saved) := upsert_settings env workspace_id body s in
    tried s (map_anyhow_error saved) (λ settings,
      let reply := SettingsResponse (workspace_settings_to_proto workspace_id settings) in
      if ae_audit_configured env then
        let log := mkNewAuditLog (Some workspace_id) (Some workspace_id) "workspace_settings.update" "workspace_settings"
                     (uuid_to_string workspace_id) settings in
        let logged := with_audit s (create_audit_log (ae_now_micros env) log (ad_audit s)) in
        match ae_audit_write env with
        | WriteDone => (logged, Ok reply)
        | WriteFailed => (s, Err (status InternalError "Failed to create audit log"))
        | WriteUnanswered => (logged, Err (status InternalError "Failed to create audit log"))
        end
      else (s, Ok reply)))).

(** ** Requests *)

Inductive AdminRpc :=
| RpcRunCleanup (retention_days : option Z)
| RpcGetWorkspaceRetention
| RpcSetWorkspaceRetention (retention_days : Z)
| RpcListPolicies
| RpcUpsertPolicies (cfgs : list Pb.PolicyConfig)
| RpcGetEffectivePolicy
| RpcListAuditLogs (req : AuditLogFilters)
| RpcGetWorkspaceSettings
| RpcUpdateWorkspaceSettings (body : Settings).

Definition rpc_step (env : AdminEnv) (headers : H) (r : AdminRpc) (s : AdminState R) : Answer :=
  match r with
  | RpcRunCleanup days => rpc_run_cleanup env headers days s
  | RpcGetWorkspaceRetention => rpc_get_workspace_retention env headers s
  | RpcSetWorkspaceRetention days => rpc_set_workspace_retention env headers days s
  | RpcListPolicies => rpc_list_policies env headers s
  | RpcUpsertPolicies cfgs => rpc_upsert_policies env headers cfgs s
  | RpcGetEffectivePolicy => rpc_get_effective_policy headers s
  | RpcListAuditLogs req => rpc_list_audit_logs env headers req s
  | RpcGetWorkspaceSettings => rpc_get_workspace_settings env headers s
  | RpcUpdateWorkspaceSettings body => rpc_update_workspace_settings env headers body s
  end.
End Grpc.

(** ** Specification *)

Section Specification.
Context {R H : Type} `{NewestFirst} `{UuidText} (db_error : string) (authorizer : H → outcome AuthError AuthResolution).
Context (limit_text : PolicyLimit → string) (parse_limit : string → outcome string PolicyLimit) (metadata_text : Settings → string)
  (show_cleanup_error : Z → string) (show_reclaim_error : ReclaimError → string).

Abbreviation step := (rpc_step db_error authorizer limit_text parse_limit metadata_text show_cleanup_error show_reclaim_error).

(** The capability a call asks for. *)
Definition rpc_capability (r : AdminRpc) : Capability :=
  match r with
  | RpcSetWorkspaceRetention _ | RpcUpdateWorkspaceSettings _ => WriteSettings
  | RpcGetWorkspaceSettings => ReadSettings
  | _ => Admin
  end.

(** The policy configuration a message stands for, when it stands for one. *)
Definition config_of (cfg : Pb.PolicyConfig) : outcome Status PolicyConfig :=
  signal ← proto_signal_kind (Pb.xc_signal cfg);
  op ← proto_operation (Pb.xc_operation cfg);
  limit ← parse_policy_limit parse_limit (Pb.xc_limit_json cfg);
  source ← match Pb.xc_source cfg with Some s => Some <$> proto_policy_source s | None => Ok None end;
  mret (mkPolicyConfig signal op limit ((λ g, Z.min g 255) <$> Pb.xc_grace_pct cfg) ((λ g, Z.min g 255) <$> Pb.xc_hard_block_pct cfg)
    (Pb.xc_effective_from cfg) (Pb.xc_effective_until cfg) source).

Fixpoint configs_of (cfgs : list Pb.PolicyConfig) : outcome Status (list PolicyConfig) :=
  match cfgs with
  | [] => mret []
  | cfg :: cfgs => c ← config_of cfg; cs ← configs_of cfgs; mret (c :: cs)
  end.

(** The HTTP request of a call for the workspace [w]. *)
Definition http_request (w : Z) (r : AdminRpc) : outcome Status AdminRequest :=
  match r with
  | RpcRunCleanup days => Ok (RunCleanup days None)
  | RpcGetWorkspaceRetention => Ok (GetRetention w)
  | RpcSetWorkspaceRetention days => Ok (SetRetention w days)
  | RpcListPolicies => Ok (ListPolicies None)
  | RpcUpsertPolicies cfgs => cs ← configs_of cfgs; mret (UpsertPolicies None cs)
  | RpcGetEffectivePolicy => Ok (GetEffectivePolicy w)
  | RpcListAuditLogs req => Ok (ListAuditLogs req)
  | RpcGetWorkspaceSettings => Ok (GetSettings w)
  | RpcUpdateWorkspaceSettings body => Ok (UpdateSettings w body)
  end.

(** The message of an HTTP body, for the workspace [w]. *)
Definition reply_of (w : Z) (b : Body) : option Reply :=
  match b with
  | NoBody => Some UpsertPoliciesResponse
  | ErrorBody _ => None
  | PoliciesBody ps => Some (ListPoliciesResponse (policy_to_proto limit_text <$> ps))
  | EffectiveBody ingest query store =>
      Some (EffectivePolicyResponse (resolved_policy_to_proto limit_text ingest) (resolved_policy_to_proto limit_text query)
        (resolved_policy_to_proto limit_text store))
  | CleanupBody marked reclaimed => Some (RunCleanupResponse (run_stats_to_proto show_cleanup_error show_reclaim_error marked reclaimed))
  | RetentionBody workspace_id days inherited default_days => Some (RetentionResponse (uuid_to_string workspace_id) days inherited default_days)
  | SettingsBody settings => Some (SettingsResponse (workspace_settings_to_proto w settings))
  | AuditBody page =>
      Some (ListAuditLogsResponse (audit_log_to_proto metadata_text <$> ap_items page) (ap_total page) (ap_limit page) (ap_offset page))
  end.

(** The gRPC answer says what the HTTP answer says; of server errors only that
    there was one. *)
Definition same_answer (w : Z) (http : Response) (grpc : outcome Status Reply) : Prop :=
  match grpc with
  | Ok reply => 200 ≤ http.1 < 300 ∧ reply_of w http.2 = Some reply
  | Err st => http.1 = http_status (st_code st) ∧ (http.1 ≠ 500 → http.2 = ErrorBody (st_message st))
  | Panic => True
  end.

(** The caller with every capability: what the HTTP handlers check is then
    the path. *)
Definition full_caller (w : Z) : AuthContext :=
  mkAuthContext (mkContext w) Standalone [ReadTraces; ReadDashboards; ReadLogs; ReadMetrics; ReadSettings; WriteSettings; Admin].

Lemma full_require w c : require (full_caller w) c = Ok ().
Proof. by destruct c. Qed.

Lemma full_path w : enforce_path_workspace (full_caller w) w = Ok ().
Proof. unfold enforce_path_workspace, full_caller. cbn. by rewrite Z.eqb_refl. Qed.

(** A message is a configuration whose policy is that of the HTTP API. *)
Lemma policy_config_is_http w now cfg : policy_config_to_policy parse_limit w now cfg = policy_of_config w now <$> config_of cfg.
Proof.
  unfold policy_config_to_policy, config_of. destruct (proto_signal_kind _) as [signal|e|]; ostep; [|done..].
  destruct (proto_operation _) as [op|e|]; ostep; [|done..]. destruct (parse_policy_limit _ _) as [limit|e|]; ostep; [|done..].
  destruct (Pb.xc_source cfg) as [src|]; [destruct (proto_policy_source src) as [source|e|]; ostep; [|done..]|ostep];
    cbn; unfold policy_of_config; cbn; by destruct (Pb.xc_grace_pct cfg), (Pb.xc_hard_block_pct cfg).
Qed.

Lemma collect_policies_http w now cfgs :
  collect_policies parse_limit w now cfgs = fmap (M := list) (policy_of_config w now) <$> configs_of cfgs.
Proof.
  induction cfgs as [|cfg cfgs IH]; [done|]. cbn [collect_policies configs_of]. rewrite policy_config_is_http, IH.
  destruct (config_of cfg); ostep; [|done..]. by destruct (configs_of cfgs).
Qed.

(** A gRPC answer and an HTTP answer for [w] that leave the same state and say the same. *)
Definition alike (w : Z) (g : Answer (R := R)) (h : AdminState R * Response) : Prop := g.1 = h.1 ∧ same_answer w h.2 g.2.

(** The settings repository: over gRPC its message is answered, over HTTP of
    settings it is logged. *)
Lemma settings_alike {A : Type} w (s : AdminState R) (r : outcome string A) k kh :
  (∀ a, alike w (k a) (kh a)) → alike w (tried s (map_anyhow_error r) k) (guarded s (internal r) kh).
Proof. intros Hk. destruct r as [a|e|]; cbn; [apply Hk|done|done]. Qed.

Lemma policies_alike {A : Type} w (s : AdminState R) code st (r : outcome PolicyError A) k kh :
  code = http_status st → (∀ a, alike w (k a) (kh a)) →
  alike w (tried s (map_err (λ e, status st (show_policy_error db_error e)) r) k) (policy_response db_error s code r kh).
Proof. intros -> Hk. by destruct r as [a|e|]; cbn. Qed.

Lemma get_retention_alike env w (s : AdminState R) k :
  k = (λ found : option Settings, let '(days, inherited) := match found with
         | Some settings => (u32_of_i32 (traces_retention_days settings), false)
         | None => (get_effective_days (ad_retention s) w, true) end in
       (s, Ok (RetentionResponse (uuid_to_string w) days inherited days))) →
  alike w (tried s (map_anyhow_error (read_settings env w s)) k) (get_workspace_retention_handler env (full_caller w) w s).
Proof.
  intros ->. unfold get_workspace_retention_handler, full_caller. cbn. rewrite Z.eqb_refl. cbn [negb].
  by destruct (read_settings env w s) as [[settings|]|e|]; cbn.
Qed.

Lemma set_retention_alike env w days (s : AdminState R) :
  alike w (tried s (map_anyhow_error (read_settings env w s)) (λ found,
      let settings := with_retention (default defaults_for found) (i32_of_u32 days) in
      let '(s, saved) := upsert_settings env w settings s in
      tried s (map_anyhow_error saved) (λ saved,
        (with_retention_store s (config_upsert (ad_retention s) w days),
         Ok (RetentionResponse (uuid_to_string w) days false (u32_of_i32 (traces_retention_days saved)))))))
    (set_workspace_retention_handler env (full_caller w) w days s).
Proof.
  unfold set_workspace_retention_handler. rewrite full_require. cbn [guarded]. unfold full_caller. cbn [ac_workspace ac_ctx workspace_id].
  rewrite Z.eqb_refl. cbn [negb]. destruct (read_settings env w s) as [found|e|]; cbn [tried map_anyhow_error map_err]; [|done..].
  cbn zeta. destruct (upsert_settings _ _ _ _) as [s' [saved|e|]]; done.
Qed.

Lemma update_settings_alike env w body (s : AdminState R) :
  alike w (tried s (map_err (status InvalidArgument) (validate_settings body)) (λ _,
      let '(s, saved) := upsert_settings env w body s in
      tried s (map_anyhow_error saved) (λ settings,
        let reply := SettingsResponse (workspace_settings_to_proto w settings) in
        if ae_audit_configured env then
          let log := mkNewAuditLog (Some w) (Some w) "workspace_settings.update" "workspace_settings" (uuid_to_string w) settings in
          let logged := with_audit s (create_audit_log (ae_now_micros env) log (ad_audit s)) in
          match ae_audit_write env with
          | WriteDone => (logged, Ok reply)
          | WriteFailed => (s, Err (status InternalError "Failed to create audit log"))
          | WriteUnanswered => (logged, Err (status InternalError "Failed to create audit log"))
          end
        else (s, Ok reply))))
    (update_workspace_settings_handler env (full_caller w) w body s).
Proof.
  unfold update_workspace_settings_handler. rewrite full_require, full_path. cbn [guarded].
  destruct (validate_settings body) as [[]|e|]; cbn [tried guarded map_err]; [|done..].
  destruct (upsert_settings _ _ _ _) as [s' saved]. apply settings_alike. intros settings. cbn zeta.
  destruct (ae_audit_configured env); [|done]. by destruct (ae_audit_write env).
Qed.

Lemma get_settings_alike env w (s : AdminState R) :
  alike w (tried s (map_anyhow_error (read_settings env w s)) (λ found,
      let '(s, settings) := match found with Some settings => (s, Ok settings) | None => upsert_settings env w defaults_for s end in
      tried s (map_anyhow_error settings) (λ settings, (s, Ok (SettingsResponse (workspace_settings_to_proto w settings))))))
    (get_workspace_settings_handler env (full_caller w) w s).
Proof.
  unfold get_workspace_settings_handler. rewrite full_require, full_path. cbn [guarded]. apply settings_alike. intros [settings|]; [done|].
  destruct (upsert_settings _ _ _ _) as [s' saved]. by apply settings_alike.
Qed.

Lemma cleanup_alike env w days (s : AdminState R) headers auth :
  authorize_request authorizer headers Admin = Ok auth → ac_workspace auth = w →
  alike w (rpc_run_cleanup db_error authorizer show_cleanup_error show_reclaim_error env headers days s)
    (run_cleanup_handler db_error env (full_caller w) days None s).
Proof.
  intros Ha <-. unfold rpc_run_cleanup, authorize_admin, run_cleanup_handler. rewrite Ha, full_require. cbn [guarded].
  unfold workspace_or_standalone_override, full_caller. cbn. destruct (ae_cleanup_query_ok env); cbn [negb]; [|done].
  destruct (cleanup_run _ _ _ _) as [db marked]. destruct (ae_reclaim_query_ok env); cbn [negb]; [|done].
  by destruct (reclaim_run _ _ _ _) as [[st ledger] reclaimed].
Qed.

Lemma rpc_alike env headers r (s : AdminState R) auth request :
  authorize_request authorizer headers (rpc_capability r) = Ok auth → http_request (ac_workspace auth) r = Ok request →
  alike (ac_workspace auth) (step env headers r s) (admin_step db_error env (full_caller (ac_workspace auth)) request s).
Proof.
  intros Ha Hr. set (w := ac_workspace auth) in *.
  destruct r as [days| |days| |cfgs| |req| |body]; cbn [http_request rpc_capability rpc_step] in *;
    try (injection Hr as <-; cbn [admin_step]).
  - by apply (cleanup_alike env w days s headers auth).
  - unfold rpc_get_workspace_retention, authorize_admin. rewrite Ha. by apply get_retention_alike.
  - unfold rpc_set_workspace_retention, authorize_admin. rewrite Ha. apply set_retention_alike.
  - unfold rpc_list_policies, authorize_admin, list_policies. rewrite Ha, full_require. cbn [guarded].
    unfold workspace_or_standalone_override, full_caller. cbn. by apply policies_alike.
  - unfold rpc_upsert_policies, authorize_admin. rewrite Ha. fold w. rewrite collect_policies_http.
    destruct (configs_of cfgs) as [cs|st|]; cbn in Hr; [|done..]. injection Hr as <-. cbn [admin_step tried fmap outcome_fmap]. unfold upsert_policies. rewrite full_require. cbn [guarded].
    unfold workspace_or_reject_platform_override, full_caller. cbn. destruct (upsert_many _ _ _) as [p res]. by apply policies_alike.
  - unfold rpc_get_effective_policy, authorize_admin, get_effective_policy. rewrite Ha, full_require, full_path. by cbn.
  - unfold rpc_list_audit_logs, authorize_admin, list_audit_logs_handler. rewrite Ha, full_require. cbn [guarded].
    unfold audit_scope, full_caller. cbn. by destruct (ae_audit_read env).
  - unfold rpc_get_workspace_settings, authorize_admin. rewrite Ha. apply get_settings_alike.
  - unfold rpc_update_workspace_settings, authorize_admin. rewrite Ha. apply update_settings_alike.
Qed.

Lemma unverified_unchanged env headers r (s : AdminState R) :
  match authorize_request authorizer headers (rpc_capability r) with
  | Ok auth => True
  | Err st => step env headers r s = (s, Err st)
  | Panic => step env headers r s = (s, Panic)
  end.
Proof.
  destruct (authorize_request authorizer headers (rpc_capability r)) as [auth|st|] eqn:Ha; [done|..];
    destruct r; cbn in *; unfold rpc_run_cleanup, rpc_get_workspace_retention, rpc_set_workspace_retention, rpc_list_policies,
      rpc_upsert_policies, rpc_get_effective_policy, rpc_list_audit_logs, rpc_get_workspace_settings, rpc_update_workspace_settings,
      authorize_admin; by rewrite Ha.
Qed.

Lemma unparsed_unchanged env headers r (s : AdminState R) auth :
  authorize_request authorizer headers (rpc_capability r) = Ok auth →
  match http_request (ac_workspace auth) r with
  | Ok _ => True
  | Err st => step env headers r s = (s, Err st)
  | Panic => step env headers r s = (s, Panic)
  end.
Proof.
  intros Ha. destruct r as [days| |days| |cfgs| |req| |body]; cbn [http_request rpc_capability rpc_step] in *; try done.
  unfold rpc_upsert_policies, authorize_admin. rewrite Ha, collect_policies_http. by destruct (configs_of cfgs).
Qed.

(** C38: An admin call does, for the workspace of its caller, exactly what the HTTP
    request for that workspace does, and answers what it answers: once the
    caller is verified with the call's capability, the state it leaves is the
    one the HTTP handler leaves, a reply is the translation of the HTTP body
    and a refusal has the HTTP status, and outside server errors the message, of
    the HTTP answer. A caller who is not verified, or a policy message that does
    not parse, changes nothing. *)
Theorem admin_rpc_is_http env headers r (s : AdminState R) :
  match authorize_request authorizer headers (rpc_capability r) with
  | Ok auth =>
      let w := ac_workspace auth in
      match http_request w r with
      | Ok request => alike w (step env headers r s) (admin_step db_error env (full_caller w) request s)
      | Err st => step env headers r s = (s, Err st)
      | Panic => step env headers r s = (s, Panic)
      end
  | Err st => step env headers r s = (s, Err st)
  | Panic => step env headers r s = (s, Panic)
  end.
Proof.
  pose proof (unverified_unchanged env headers r s) as Hu.
  destruct (authorize_request authorizer headers (rpc_capability r)) as [auth|st|] eqn:Ha; [|done..].
  cbn zeta. pose proof (unparsed_unchanged env headers r s auth Ha) as Hp.
  destruct (http_request (ac_workspace auth) r) as [request|st|] eqn:Hr; [|done..]. by apply rpc_alike.
Qed.

(** A reply shows nothing of another workspace. *)
Definition reply_about (w : Z) (r : Reply) : Prop :=
  match r with
  | ListPoliciesResponse ps => Forall (λ p, Pb.xp_workspace_id p = uuid_to_string w) ps
  | RetentionResponse workspace_id _ _ _ => workspace_id = uuid_to_string w
  | ListAuditLogsResponse items _ _ _ => Forall (λ l, Pb.xl_resource_workspace_id l = Some (uuid_to_string w)) items
  | SettingsResponse settings => Pb.xs_workspace_id settings = uuid_to_string w
  | _ => True
  end.

Lemma reply_of_about env w (s s' : AdminState R) b reply :
  body_of env w s s' b → reply_of w b = Some reply → reply_about w reply.
Proof.
  destruct b; cbn; intros Hb [= <-]; cbn; try done.
  - apply Forall_fmap. eapply Forall_impl; [exact Hb|]. intros p Hp. cbn. by rewrite Hp.
  - by destruct Hb as [-> _].
  - apply Forall_fmap. destruct Hb as [Hb _]. eapply Forall_impl; [exact Hb|]. intros l Hl. cbn. by rewrite Hl.
Qed.

(** Any verified caller, of no capability too, acts on the workspace of its key
    only, whatever workspace the request names and however the calls behind the
    handler fail: the other workspaces keep their policies, retention, settings
    and files, and a reply shows nothing of them. Without the capability of the
    call nothing changes and nothing is shown. *)
Theorem rpc_confined env headers r (s : AdminState R) :
  table_wf (table (ad_policies s)) → db_wf (st_db (ad_store s)) →
  let '(s', answer) := step env headers r s in
  (∀ auth, authorize_request authorizer headers (rpc_capability r) = Ok auth →
    confined (ac_workspace auth) s s' ∧ ∀ reply, answer = Ok reply → reply_about (ac_workspace auth) reply) ∧
  ((∀ auth, authorize_request authorizer headers (rpc_capability r) ≠ Ok auth) → s' = s ∧ ∀ reply, answer ≠ Ok reply).
Proof.
  intros Hpol Hdb. pose proof (unverified_unchanged env headers r s) as Hu.
  destruct (authorize_request authorizer headers (rpc_capability r)) as [auth|st|] eqn:Ha;
    [|rewrite Hu; split; [done|by intros _]..].
  pose proof (unparsed_unchanged env headers r s auth Ha) as Hp. set (w := ac_workspace auth) in *.
  assert (∀ P : Prop, (∀ auth', Ok (E := Status) auth ≠ Ok auth') → P) as Hno by (intros P H'; by destruct (H' auth)).
  destruct (http_request w r) as [request|st|] eqn:Hr;
    [|rewrite Hp; split; [intros _ [= <-]; split; [apply confined_refl|done]|apply Hno]..].
  destruct (rpc_alike env headers r s auth request Ha Hr) as [Hs Hans].
  destruct (admin_step_good db_error env (full_caller w) request s ltac:(done) Hpol Hdb) as [Hc Hb].
  destruct (step env headers r s) as [s' answer]. cbn in Hs, Hans. subst s'. split; [|apply Hno].
  intros _ [= <-]. split; [exact Hc|]. intros reply ->. destruct Hans as [_ Hrep]. by eapply reply_of_about.
Qed.
End Specification.
