(* ===== verification/Analytics.v ===== *)
(** Analytics over spans: the [AnalyticsReader] of
    [zradar-parquet/src/telemetry_reader.rs].

    Each operation is one aggregation (the guardrails report four) whose text is
    built from the client's names and values. Names of columns and metrics go
    into the text unquoted, so the code takes them from whitelists:
    [analytics_query_whitelisted] says what that achieves for any request, and
    that a filter on a column outside the list is dropped. The
    answers are read off the batches of the engine cell by cell. *)

From stdpp Require Import base gmap list strings pretty.
From Stdlib Require Import Ascii.
From S2P Require Import Prelude FileList WriteBuffer TelemetryWriter ParquetWriter Compactor Lease PgUsage PgUsageWorker StorageUsage Reclaimer.
From S2P Require Import Paths FileMover MemoryCache DiskCache Reader Sql Arrow Models Schema SpanSchema TelemetryReader Otlp.

(** ** Requests and answers *)

(** [AnalyticsQueryFilters]; [filters] is in the order its map iterates in. *)
Record AnalyticsQueryFilters := mkAnalyticsQueryFilters {
  aq_workspace_id : Z;
  aq_start : Z;
  aq_end : Z;
  aq_metric : string;
  aq_group_by : list string;
  aq_filters : list (string * string);
}.

Record AnalyticsDataPoint (F : Type) := mkDataPoint { dp_bucket_ts : Z; dp_value : F; dp_groups : gmap string string }.
Arguments mkDataPoint {F}.
Arguments dp_bucket_ts {F}.
Arguments dp_value {F}.
Arguments dp_groups {F}.

Record TimeSeriesPoint (F : Type) := mkTimeSeriesPoint { tp_timestamp : string; tp_value : F }.
Arguments mkTimeSeriesPoint {F}.
Arguments tp_timestamp {F}.
Arguments tp_value {F}.

Record MetricsSummary (F : Type) := mkMetricsSummary {
  sm_total_traces : Z;
  sm_error_rate : F;
  sm_p50_latency : F;
  sm_p90_latency : F;
  sm_p99_latency : F;
}.
Arguments mkMetricsSummary {F}.

Record GuardrailsAnalyticsFilters := mkGuardrailsFilters { gf_workspace_id : Z; gf_start : Z; gf_end : Z }.
Record RailTypeBreakdown (F : Type) := mkRailType { rt_rail_type : string; rt_count : Z; rt_halted : Z; rt_halt_rate : F }.
Arguments mkRailType {F}.
Record RailNameStat := mkRailName { rn_rail_name : string; rn_rail_type : string; rn_halts : Z; rn_total : Z }.
Record GuardrailsAnalyticsResult (F : Type) := mkGuardrails {
  gr_total_requests : Z;
  gr_halted_requests : Z;
  gr_halt_rate : F;
  gr_by_rail_type : list (RailTypeBreakdown F);
  gr_top_halting_rails : list RailNameStat;
}.
Arguments mkGuardrails {F}.

(** ** The texts *)

Definition ALLOWED_METRICS : list (string * string) := [
  ("trace_count", "COUNT(DISTINCT trace_id)");
  ("span_count", "COUNT(*)");
  ("total_tokens", "CAST(SUM(total_tokens) AS DOUBLE)");
  ("prompt_tokens", "CAST(SUM(prompt_tokens) AS DOUBLE)");
  ("completion_tokens", "CAST(SUM(completion_tokens) AS DOUBLE)");
  ("total_cost_usd", "SUM(total_cost_usd)");
  ("avg_duration_ms", "AVG(CAST(duration_ns AS DOUBLE)) / 1000000.0");
  ("error_count", "CAST(SUM(CASE WHEN status_code = 'ERROR' THEN 1 ELSE 0 END) AS DOUBLE)")].

Definition ALLOWED_DIMENSIONS : list string :=
  ["agent_name"; "llm_model"; "session_id"; "service_name"; "span_name"; "span_type"; "status_code"; "agent_type"].

(** [ALLOWED_DIMENSIONS.contains(..)]. *)
Definition allowed_dimension (g : string) : bool := existsb (String.eqb g) ALLOWED_DIMENSIONS.

Definition metric_expr (metric : string) : option string :=
  snd <$> find (λ nv, String.eqb nv.1 metric) ALLOWED_METRICS.

Definition day_ns : Z := 86400000000000.

Definition ne_empty_text (g : string) : string := g +:+ " != ''".

Section Text.
Context `{UuidText}.

Definition daily_text (workspace_id start end_ : Z) : string :=
  "SELECT
                (MIN(timestamp) / " +:+ pretty day_ns +:+ ") * " +:+ pretty day_ns +:+ " AS day_bucket,
                COUNT(DISTINCT trace_id) AS cnt
            FROM spans
            WHERE " +:+ workspace_text workspace_id +:+ "
              AND " +:+ ge_text "timestamp" start +:+ "
              AND " +:+ le_text "timestamp" end_ +:+ "
            GROUP BY (timestamp / " +:+ pretty day_ns +:+ ")
            ORDER BY day_bucket".

Definition summary_text (workspace_id start end_ : Z) : string :=
  "SELECT
                COUNT(DISTINCT trace_id)                                              AS total_traces,
                SUM(CASE WHEN status_code = 'ERROR' THEN 1 ELSE 0 END)               AS error_count,
                approx_percentile_cont(CAST(duration_ns AS DOUBLE), 0.50) / 1000000.0 AS p50_ms,
                approx_percentile_cont(CAST(duration_ns AS DOUBLE), 0.90) / 1000000.0 AS p90_ms,
                approx_percentile_cont(CAST(duration_ns AS DOUBLE), 0.99) / 1000000.0 AS p99_ms
            FROM spans
            WHERE " +:+ workspace_text workspace_id +:+ "
              AND parent_span_id = ''
              AND " +:+ ge_text "timestamp" start +:+ "
              AND " +:+ le_text "timestamp" end_.

(** The conditions: the workspace and the range, the group columns that must not
    be empty, and the filters on columns of the list; a filter on any other
    column is passed over. *)
Definition analytics_conditions (workspace_id : Z) (f : AnalyticsQueryFilters) : list string :=
  [workspace_text workspace_id; ge_text "timestamp" (aq_start f); le_text "timestamp" (aq_end f)] ++
  map ne_empty_text (aq_group_by f) ++
  map (λ kv, eq_text kv.1 kv.2) (filter (λ kv, allowed_dimension kv.1 = true) (aq_filters f)).

Definition analytics_text (workspace_id : Z) (f : AnalyticsQueryFilters) (agg_expr : string) : string :=
  let where_clause := join_text " AND " (analytics_conditions workspace_id f) in
  let group_cols_csv := join_text ", " (aq_group_by f) in
  let select_groups := if String.eqb group_cols_csv "" then "" else ", " +:+ group_cols_csv in
  let group_clause := if String.eqb group_cols_csv "" then "bucket" else "bucket, " +:+ group_cols_csv in
  "SELECT
                (timestamp / " +:+ pretty day_ns +:+ ") * " +:+ pretty day_ns +:+ " AS bucket
                " +:+ select_groups +:+ ",
                " +:+ agg_expr +:+ " AS value
            FROM spans
            WHERE " +:+ where_clause +:+ "
            GROUP BY " +:+ group_clause +:+ "
            ORDER BY bucket".

Definition base_where (f : GuardrailsAnalyticsFilters) : string :=
  workspace_text (gf_workspace_id f) +:+ " AND span_type = 'GUARDRAIL' AND " +:+
  ge_text "timestamp" (gf_start f) +:+ " AND " +:+ le_text "timestamp" (gf_end f).

Definition total_sql (f : GuardrailsAnalyticsFilters) : string :=
  "SELECT COUNT(*) AS cnt FROM spans WHERE " +:+ base_where f +:+ " AND span_name = 'guardrails.request'".
Definition halted_sql (f : GuardrailsAnalyticsFilters) : string :=
  "SELECT COUNT(*) AS cnt FROM spans WHERE " +:+ base_where f +:+ " AND span_name = 'guardrails.rail' AND rail_stop = 1".
Definition by_type_sql (f : GuardrailsAnalyticsFilters) : string :=
  "SELECT rail_type,
                COUNT(*) AS total,
                CAST(SUM(CASE WHEN rail_stop = 1 THEN 1 ELSE 0 END) AS BIGINT) AS halted
            FROM spans
            WHERE " +:+ base_where f +:+ " AND rail_type != ''
            GROUP BY rail_type
            ORDER BY rail_type".
Definition top_rails_sql (f : GuardrailsAnalyticsFilters) : string :=
  "SELECT rail_name, rail_type,
                CAST(SUM(CASE WHEN rail_stop = 1 THEN 1 ELSE 0 END) AS BIGINT) AS halts,
                COUNT(*) AS total
            FROM spans
            WHERE " +:+ base_where f +:+ " AND rail_name != ''
            GROUP BY rail_name, rail_type
            ORDER BY halts DESC
            LIMIT 10".
End Text.

(** ** Running them *)

Section Run.
Context {F R E C : Type} `{UuidText} `{Float F} `{Arrow F} `{!SqlEngine R E F} `{LruCache C (FileData R)}.
Context (byte_size : FileData R → Z) (hash : string → Z) (canonicalize : string → string) (cache_dir : string).
Context (to_rfc3339 : Z → string).
Abbreviation Wd := (World (R := R) (C := C)).
Abbreviation Env := (QueryEnv R C).

(** The errors of the module, with the names the message carries. *)
Inductive AnalyticsError :=
| UnsupportedMetric (metric : string)
| UnsupportedDimension (g : string)
| ReadFailed (e : ReaderError (E := E)).

Definition file_range (start end_ : Z) : option TimeRange := Some (mkTimeRange start end_).

Definition spans_text (context text : string) (w : Wd) (ws start end_ : Z) (env : Env) : Wd * outcome AnalyticsError (list RecordBatch) :=
  let '(w, r) := query_text byte_size hash canonicalize cache_dir context "spans" text w
    (signal_file_filter ws "traces" (file_range start end_)) env in
  (w, map_err ReadFailed r).

(** A loop over the batches that have rows. *)
Definition read_batches {X : Type} (decode : RecordBatch → outcome SchemaError (list X)) (batches : list RecordBatch) :
    outcome AnalyticsError (list X) :=
  map_err ReadFailed
    (decode_batches (λ b, if (num_rows b =? 0)%nat then Ok [] else decode b) batches).

(** [column_by_name(..).and_then(downcast_ref)]. *)
Definition maybe_col (t : DataType) (b : RecordBatch) (name : string) : option (PrimArray t) :=
  column_by_name b name ≫= downcast t.

(** [extract_count_col]. *)
Definition extract_count_col (b : RecordBatch) : outcome SchemaError (PrimArray Int64) := col Int64 b "cnt".

Definition daily_points (b : RecordBatch) : outcome SchemaError (list (TimeSeriesPoint F)) :=
  bucket_col ← col Int64 b "day_bucket";
  cnt_col ← extract_count_col b;
  mret (map (λ i,
    let ts_secs := Z.quot (value Int64 bucket_col i) 1000000000 in
    mkTimeSeriesPoint (to_rfc3339 ts_secs) (f_of_Z (value Int64 cnt_col i))) (seq 0 (num_rows b))).

Definition get_daily_trace_counts (w : Wd) (workspace_id start end_ : Z) (env : Env) :
    Wd * outcome AnalyticsError (list (TimeSeriesPoint F)) :=
  let '(w, r) := spans_text "Failed to query daily trace counts" (daily_text workspace_id start end_) w workspace_id start end_ env in
  (w, r ≫= read_batches daily_points).

(** [MetricsSummary::default()]. *)
Definition summary_default : MetricsSummary F := mkMetricsSummary 0 f_zero f_zero f_zero f_zero.

(** [if d > 0 { n as f64 / d as f64 } else { 0.0 }]. *)
Definition rate (n d : Z) : F := if 0 <? d then f_div (f_of_Z n) (f_of_Z d) else f_zero.

Definition first_cell (t : DataType) (b : RecordBatch) (name : string) (d : native F t) : native F t :=
  match maybe_col t b name with Some a => value t a 0 | None => d end.

Definition summary_of (batches : list RecordBatch) : outcome AnalyticsError (MetricsSummary F) :=
  if (total_rows batches =? 0)%nat then mret summary_default else
  match batches with
  | [] => Panic
  | b :: _ =>
      let total_traces := first_cell Int64 b "total_traces" 0 in
      let error_count := first_cell Int64 b "error_count" 0 in
      let p50 := first_cell Float64 b "p50_ms" f_zero in
      let p90 := first_cell Float64 b "p90_ms" f_zero in
      let p99 := first_cell Float64 b "p99_ms" f_zero in
      mret (mkMetricsSummary total_traces (rate error_count total_traces) p50 p90 p99)
  end.

Definition get_metrics_summary (w : Wd) (workspace_id start end_ : Z) (env : Env) : Wd * outcome AnalyticsError (MetricsSummary F) :=
  let '(w, r) := spans_text "Failed to query metrics summary" (summary_text workspace_id start end_) w workspace_id start end_ env in
  (w, r ≫= summary_of).

(** One row: counts are integers, sums and averages floats; a group column that
    is absent or no string column has no entry. *)
Definition data_point (group_by : list string) (b : RecordBatch) (bucket_col : PrimArray Int64) (value_arr : ArrayRef) (i : nat) :
    AnalyticsDataPoint F :=
  let v := match downcast Float64 value_arr with
           | Some a => value Float64 a i
           | None => match downcast Int64 value_arr with Some a => f_of_Z (value Int64 a i) | None => f_zero end
           end in
  let group_arrays := omap (λ g, (λ a, (g, a)) <$> maybe_col Utf8 b g) group_by in
  mkDataPoint (value Int64 bucket_col i) v (foldl (λ m ga, <[ga.1 := value Utf8 ga.2 i]> m) ∅ group_arrays).

Definition data_points (group_by : list string) (b : RecordBatch) : outcome SchemaError (list (AnalyticsDataPoint F)) :=
  bucket_col ← col Int64 b "bucket";
  value_arr ← ok_or (column_by_name b "value") (MissingColumn "value");
  mret (map (data_point group_by b bucket_col value_arr) (seq 0 (num_rows b))).

Definition query_analytics (w : Wd) (workspace_id : Z) (f : AnalyticsQueryFilters) (env : Env) :
    Wd * outcome AnalyticsError (list (AnalyticsDataPoint F)) :=
  match metric_expr (aq_metric f) with
  | None => (w, Err (UnsupportedMetric (aq_metric f)))
  | Some agg_expr =>
      match find (λ g, negb (allowed_dimension g)) (aq_group_by f) with
      | Some g => (w, Err (UnsupportedDimension g))
      | None =>
          let '(w, r) := spans_text "Failed to execute analytics query" (analytics_text workspace_id f agg_expr) w
            workspace_id (aq_start f) (aq_end f) env in
          (w, r ≫= read_batches (data_points (aq_group_by f)))
      end
  end.

Definition rail_types (b : RecordBatch) : list (RailTypeBreakdown F) :=
  match maybe_col Utf8 b "rail_type", maybe_col Int64 b "total", maybe_col Int64 b "halted" with
  | Some rt, Some tc, Some hc =>
      map (λ i, let count := value Int64 tc i in let halted := value Int64 hc i in
        mkRailType (value Utf8 rt i) count halted (rate halted count)) (seq 0 (num_rows b))
  | _, _, _ => []
  end.

Definition rail_names (b : RecordBatch) : list RailNameStat :=
  match maybe_col Utf8 b "rail_name", maybe_col Utf8 b "rail_type", maybe_col Int64 b "halts", maybe_col Int64 b "total" with
  | Some nc, Some tc, Some hc, Some totc =>
      map (λ i, mkRailName (value Utf8 nc i) (value Utf8 tc i) (value Int64 hc i) (value Int64 totc i)) (seq 0 (num_rows b))
  | _, _, _, _ => []
  end.

(** The four queries one after the other, each with its own environment. *)
Definition get_guardrails_analytics (w : Wd) (f : GuardrailsAnalyticsFilters) (env1 env2 env3 env4 : Env) :
    Wd * outcome AnalyticsError (GuardrailsAnalyticsResult F) :=
  let query context text w := spans_text context text w (gf_workspace_id f) (gf_start f) (gf_end f) in
  match query "Failed to count guardrail requests" (total_sql f) w env1 with
  | (w, Err e) => (w, Err e) | (w, Panic) => (w, Panic)
  | (w, Ok total_batches) =>
      let total_requests := i64_wrap (default 0 (extract_count total_batches)) in
      match query "Failed to count halted guardrail requests" (halted_sql f) w env2 with
      | (w, Err e) => (w, Err e) | (w, Panic) => (w, Panic)
      | (w, Ok halted_batches) =>
          let halted_requests := i64_wrap (default 0 (extract_count halted_batches)) in
          match query "Failed to query rail_type breakdown" (by_type_sql f) w env3 with
          | (w, Err e) => (w, Err e) | (w, Panic) => (w, Panic)
          | (w, Ok type_batches) =>
              match query "Failed to query top halting rails" (top_rails_sql f) w env4 with
              | (w, Err e) => (w, Err e) | (w, Panic) => (w, Panic)
              | (w, Ok top_batches) =>
                  (w, Ok (mkGuardrails total_requests halted_requests (rate halted_requests total_requests)
                    (concat (map rail_types type_batches)) (concat (map rail_names top_batches))))
              end
          end
      end
  end.
End Run.

(** ** Specification *)

(** A request the whitelists let through, with its metric's expression. *)
Definition accepted (f : AnalyticsQueryFilters) (agg_expr : string) : Prop :=
  metric_expr (aq_metric f) = Some agg_expr ∧ Forall (λ g, allowed_dimension g = true) (aq_group_by f).

Fixpoint comma_tokens (l : list string) : list Token :=
  match l with [] => [] | [g] => [TWord g] | g :: l => TWord g :: TSym "," :: comma_tokens l end.

Section Tokens.
Context `{UuidText}.

Definition ne_empty_tokens (g : string) : list Token := [TWord g; TSym "!"; TSym "="; TStr ""].

Definition condition_tokens (workspace_id : Z) (f : AnalyticsQueryFilters) : list (list Token) :=
  [cond_tokens (workspace_cond workspace_id); cond_tokens (CGe "timestamp" (aq_start f)); cond_tokens (CLe "timestamp" (aq_end f))] ++
  map ne_empty_tokens (aq_group_by f) ++
  map (λ kv, cond_tokens (CEq kv.1 kv.2)) (filter (λ kv, allowed_dimension kv.1 = true) (aq_filters f)).

(** The tokens of the analytics text: fixed words, the columns and the
    expression of the lists, and the values as literals. *)
Definition analytics_tokens (workspace_id : Z) (f : AnalyticsQueryFilters) (agg_expr : string) : list Token :=
  let more := match aq_group_by f with [] => [] | l => TSym "," :: comma_tokens l end in
  skeleton "SELECT (timestamp / 86400000000000) * 86400000000000 AS bucket" ++ more ++ [TSym ","] ++
  skeleton agg_expr ++ words ["AS"; "value"; "FROM"; "spans"; "WHERE"] ++ joined_tokens (condition_tokens workspace_id f) ++
  words ["GROUP"; "BY"; "bucket"] ++ more ++ words ["ORDER"; "BY"; "bucket"].

(** ** Lemmas: the text *)

Lemma allowed_word g : allowed_dimension g = true → is_word g = true.
Proof.
  unfold allowed_dimension. rewrite existsb_exists. intros (d & Hd%list_elem_of_In & ->%String.eqb_eq).
  revert d Hd. apply Forall_forall, (bool_decide_unpack _). vm_compute. exact I.
Qed.

Lemma metric_expr_lexes metric e : metric_expr metric = Some e → is_Some (lex e) ∧ starts_blank e = false.
Proof.
  unfold metric_expr. destruct (find _ ALLOWED_METRICS) as [[n v]|] eqn:Hf; [|done]. intros [= <-].
  apply find_some in Hf as [Hf%list_elem_of_In _]. cbn [fst snd].
  assert (Forall (λ nv : string * string, is_Some (lex nv.2) ∧ starts_blank nv.2 = false) ALLOWED_METRICS) as Hall.
  { unfold ALLOWED_METRICS. repeat (constructor; [split; [vm_compute; by eexists|reflexivity]|]). constructor. }
  rewrite Forall_forall in Hall. exact (Hall _ Hf).
Qed.

Lemma lex_ne_empty g : is_word g = true → lex (ne_empty_text g) = Some (ne_empty_tokens g).
Proof. intros Hg. change (ne_empty_text g) with (g +:+ " " +:+ "!= ''"). by apply (lex_space g _ [TWord g]); [apply lex_word|]. Qed.

Lemma lex_comma l : Forall (λ g, is_word g = true) l → lex (join_text ", " l) = Some (comma_tokens l).
Proof.
  induction 1 as [|g l Hg Hl IH]; [done|]. destruct l as [|g' l]; [by apply lex_word|].
  change (join_text ", " (g :: g' :: l)) with (g +:+ String "," ("" +:+ " " +:+ join_text ", " (g' :: l))).
  change (comma_tokens (g :: g' :: l)) with ([TWord g] ++ TSym "," :: comma_tokens (g' :: l)).
  apply lex_symbol; [by apply lex_word| |done..]. by apply (lex_space "" _ []).
Qed.

Lemma comma_text_empty l : Forall (λ g, is_word g = true) l → String.eqb (join_text ", " l) "" = bool_decide (l = []).
Proof. intros Hl. destruct Hl as [|[|c g] l Hg Hl]; [done|done|]. by destruct l. Qed.

Context (uuid_plain : ∀ w, plain (uuid_to_string w)).

Lemma lex_conditions w f : Forall (λ g, allowed_dimension g = true) (aq_group_by f) →
  lex (join_text " AND " (analytics_conditions w f)) = Some (joined_tokens (condition_tokens w f)).
Proof.
  intros Hg. apply lex_joined_tokens; [done|]. unfold analytics_conditions, condition_tokens.
  apply Forall2_app; [|apply Forall2_app].
  - repeat apply Forall2_cons_2; [by apply lex_workspace|by apply lex_ge_text|by apply lex_le_text|constructor].
  - induction Hg as [|g l Hg Hl IH]; cbn [map]; constructor; [by apply lex_ne_empty, allowed_word|done].
  - induction (aq_filters f) as [|kv l IH]; [constructor|]. rewrite filter_cons. case_decide as Hk; [|done].
    cbn [map]. constructor; [by apply lex_eq_text, allowed_word|done].
Qed.

(** What the group columns add to the projection and to the grouping. *)
Definition select_groups (l : list string) : string :=
  if String.eqb (join_text ", " l) "" then "" else ", " +:+ join_text ", " l.
Definition group_clause (l : list string) : string :=
  if String.eqb (join_text ", " l) "" then "bucket" else "bucket, " +:+ join_text ", " l.
Definition more_tokens (l : list string) : list Token := match l with [] => [] | _ => TSym "," :: comma_tokens l end.

Lemma lex_groups l : Forall (λ g, is_word g = true) l →
  lex (select_groups l) = Some (more_tokens l) ∧ lex (group_clause l) = Some (TWord "bucket" :: more_tokens l).
Proof.
  intros Hl. unfold select_groups, group_clause. rewrite comma_text_empty by done. pose proof (lex_comma l Hl) as Hc.
  destruct l as [|g l]; [done|]. rewrite bool_decide_eq_false_2 by done. set (csv := join_text ", " (g :: l)) in *.
  change (", " +:+ csv) with ("" +:+ String "," ("" +:+ " " +:+ csv)).
  change ("bucket, " +:+ csv) with ("bucket" +:+ String "," ("" +:+ " " +:+ csv)).
  assert (lex ("" +:+ " " +:+ csv) = Some (comma_tokens (g :: l))) as Hcsv by by apply (lex_space "" _ []).
  split; [by apply (lex_symbol "" "," _ [])|by apply (lex_symbol "bucket" "," _ [TWord "bucket"])].
Qed.

Lemma day_ns_text : pretty day_ns = "86400000000000".
Proof. vm_compute. reflexivity. Qed.

Lemma lex_analytics w f e : accepted f e → lex (analytics_text w f e) = Some (analytics_tokens w f e).
Proof.
  intros [Hm Hg]. destruct (metric_expr_lexes _ _ Hm) as [[te He] _]. pose proof (lex_conditions w f Hg) as Hwh.
  destruct (lex_groups (aq_group_by f)) as [Hsel Hgc]; [by eapply Forall_impl; [exact Hg|apply allowed_word]|].
  assert (analytics_tokens w f e = skeleton "SELECT (timestamp / 86400000000000) * 86400000000000 AS bucket" ++
    (more_tokens (aq_group_by f) ++ TSym "," :: (te ++ (words ["AS"; "value"; "FROM"; "spans"; "WHERE"] ++
      (joined_tokens (condition_tokens w f) ++ (words ["GROUP"; "BY"] ++ ((TWord "bucket" :: more_tokens (aq_group_by f)) ++
        words ["ORDER"; "BY"; "bucket"]))))))) as ->.
  { unfold analytics_tokens, more_tokens, skeleton at 2. rewrite He. destruct (aq_group_by f); cbn [default app words map];
      rewrite <-?app_assoc, <-?app_comm_cons, <-?app_assoc; reflexivity. }
  unfold analytics_text. cbv zeta. change (if String.eqb (join_text ", " (aq_group_by f)) "" then "" else _) with (select_groups (aq_group_by f)).
  change (if String.eqb (join_text ", " (aq_group_by f)) "" then "bucket" else _) with (group_clause (aq_group_by f)).
  set (wh := join_text _ _) in *. set (sel := select_groups _) in *. set (gc := group_clause _) in *. rewrite day_ns_text.
  match goal with |- lex _ = Some ?ts => change (lex ("SELECT
                (timestamp / 86400000000000) * 86400000000000 AS bucket
               " +:+ " " +:+ (sel +:+ String "," ("
               " +:+ " " +:+ (e +:+ " " +:+ ("AS value
            FROM spans
            WHERE" +:+ " " +:+ (wh +:+ ("
            GROUP BY" +:+ " " +:+ (gc +:+ "
            ORDER BY bucket")))))))) = Some ts) end.
  eapply lex_space; [reflexivity|]. eapply lex_symbol; [exact Hsel| |done..].
  apply (lex_space _ _ []); [reflexivity|]. apply lex_space; [exact He|].
  apply lex_space; [reflexivity|]. eapply lex_then; [exact Hwh|]. split; [|reflexivity].
  apply lex_space; [reflexivity|]. eapply lex_then; [exact Hgc|]. done.
Qed.
End Tokens.

(** ** What the answers hold *)

(** A row of the aggregation: its bucket, its group columns and its value, a
    count or a float. *)
Record AnalyticsRow (F : Type) := mkAnalyticsRow { ar_bucket : Z; ar_group : string → string; ar_value : Z + F }.
Arguments mkAnalyticsRow {F}.
Arguments ar_bucket {F}.
Arguments ar_group {F}.
Arguments ar_value {F}.

Section Answers.
Context {F R E C : Type} `{UuidText} `{Float F} `{Arrow F} `{!ArrowLaws F} `{!SqlEngine R E F} `{LruCache C (FileData R)}.
Context (byte_size : FileData R → Z) (hash : string → Z) (canonicalize : string → string) (cache_dir : string).
Abbreviation Wd := (World (R := R) (C := C)).

(** The value column of a batch: all counts, or all floats. *)
Definition value_column (rows : list (AnalyticsRow F)) (c : Cells F) : Prop :=
  (∃ counts, ar_value <$> rows = inl <$> counts ∧ c = existT Int64 (Some <$> counts)) ∨
  (∃ floats, ar_value <$> rows = inr <$> floats ∧ c = existT Float64 (Some <$> floats)).

(** A batch as the engine makes it for [SELECT .. AS bucket, groups, .. AS value]. *)
Definition analytics_batch (group_by : list string) (rows : list (AnalyticsRow F)) (b : RecordBatch) : Prop :=
  num_rows b = length rows ∧ ∃ value_cells, value_column rows value_cells ∧
  columns b = ("bucket", array_ref Int64 (cells_of Int64 ar_bucket rows)) ::
    map (λ g, (g, array_ref Utf8 (cells_of Utf8 (λ r, ar_group r g) rows))) group_by ++
    [("value", to_array value_cells)].

Definition point_of (group_by : list string) (row : AnalyticsRow F) : AnalyticsDataPoint F :=
  mkDataPoint (ar_bucket row) (match ar_value row with inl n => f_of_Z n | inr d => d end)
    (foldl (λ m g, <[g := ar_group row g]> m) ∅ group_by).

Lemma dimension_not_reserved g : allowed_dimension g = true → g ≠ "bucket" ∧ g ≠ "value".
Proof. intros Hg. split; intros ->; discriminate Hg. Qed.

Lemma find_group (col_of : string → ArrayRef) g group_by (rest : list (string * ArrayRef)) :
  g ∈ group_by → find_column g (map (λ g, (g, col_of g)) group_by ++ rest) = Some (col_of g).
Proof.
  induction group_by as [|x l IH]; [by intros ?%elem_of_nil|]. cbn [map app find_column]. intros Hg.
  destruct (String.eqb_spec x g) as [->|Hx]; [done|]. apply IH. apply elem_of_cons in Hg as [->|?]; [done|done].
Qed.

Lemma find_past_groups (col_of : string → ArrayRef) name group_by (rest : list (string * ArrayRef)) :
  name ∉ group_by → find_column name (map (λ g, (g, col_of g)) group_by ++ rest) = find_column name rest.
Proof.
  induction group_by as [|x l IH]; [done|]. rewrite not_elem_of_cons. intros [Hx Hl]. cbn [map app find_column].
  destruct (String.eqb_spec x name) as [->|_]; [done|by apply IH].
Qed.

Lemma value_read (rows : list (AnalyticsRow F)) (cells : Cells F) i (r : AnalyticsRow F) : value_column rows cells → rows !! i = Some r →
  match downcast Float64 (to_array cells) with
  | Some a => value Float64 a i
  | None => match downcast Int64 (to_array cells) with Some a => f_of_Z (value Int64 a i) | None => f_zero end
  end = match ar_value r return F with inl n => f_of_Z n | inr d => d end.
Proof.
  intros Hv Hr. destruct Hv as [(vs & Hvs & ->)|(vs & Hvs & ->)]; unfold to_array; cbn [projT1 projT2].
  all: assert ((ar_value <$> rows) !! i = Some (ar_value r)) as Hi by exact (eq_trans (list_lookup_fmap _ _ _) (f_equal (fmap ar_value) Hr)).
  all: rewrite Hvs, list_lookup_fmap in Hi; destruct (vs !! i) as [v|] eqn:Hvi; [|done]; injection Hi as <-.
  - assert (downcast (H := H1) Float64 (array_ref Int64 (Some <$> vs)) = None) as -> by done. rewrite downcast_to_array. f_equal.
    apply (from_iter_value Int64 (Some <$> vs) i v). exact (eq_trans (list_lookup_fmap _ _ _) (f_equal (fmap Some) Hvi)).
  - rewrite downcast_to_array. apply (from_iter_value Float64 (Some <$> vs) i v).
    exact (eq_trans (list_lookup_fmap _ _ _) (f_equal (fmap Some) Hvi)).
Qed.

Lemma data_points_read group_by rows b : Forall (λ g, allowed_dimension g = true) group_by → analytics_batch group_by rows b →
  data_points group_by b = Ok (map (point_of group_by) rows).
Proof.
  intros Hg (Hn & cells & Hv & Hb).
  assert ("value" ∉ group_by) as Hval.
  { intros Hin. rewrite Forall_forall in Hg. by destruct (dimension_not_reserved _ (Hg _ Hin)). }
  assert (column_by_name b "bucket" = Some (array_ref Int64 (cells_of Int64 ar_bucket rows))) as Hbucket
    by (unfold column_by_name; by rewrite Hb).
  assert (column_by_name b "value" = Some (to_array cells)) as Hvalue.
  { unfold column_by_name. rewrite Hb. change (find_column "value" (?c :: ?l)) with (find_column "value" l).
    by rewrite find_past_groups. }
  unfold data_points, col. rewrite Hbucket, downcast_to_array. ostep. rewrite Hvalue. ostep.
  rewrite Hn. unfold mret, outcome_ret. f_equal. apply rebuild_rows. intros i r Hr. unfold data_point, point_of.
  rewrite (value_read rows cells i r Hv Hr), (value_cells Int64 ar_bucket rows i r Hr). f_equal.
  assert (∀ l (m : gmap string string), Forall (λ g, g ∈ group_by) l →
    foldl (λ (m : gmap string string) ga, <[ga.1 := value Utf8 ga.2 i]> m) m (omap (λ g, (λ a, (g, a)) <$> maybe_col Utf8 b g) l) =
    foldl (λ (m : gmap string string) g, <[g := ar_group r g]> m) m l) as Hall; [|by apply Hall, Forall_forall].
  induction l as [|g l IH]; intros m Hl; [done|]. apply Forall_cons in Hl as [Hin Hl]. cbn [omap list_omap foldl].
  assert (maybe_col Utf8 b g = Some (from_iter Utf8 (cells_of Utf8 (λ r, ar_group r g) rows))) as ->.
  { unfold maybe_col, column_by_name. rewrite Hb. cbn [find_column]. rewrite Forall_forall in Hg.
    destruct (dimension_not_reserved _ (Hg _ Hin)) as [Hnb _]. apply not_eq_sym, String.eqb_neq in Hnb as ->.
    rewrite (find_group (λ g, array_ref Utf8 (cells_of Utf8 (λ r, ar_group r g) rows))) by done. cbn. by rewrite downcast_to_array. }
  cbn [fmap option_fmap option_map foldl fst snd]. rewrite (value_cells Utf8 (λ r, ar_group r g) rows i r Hr). by apply IH.
Qed.

Lemma read_points group_by rowss bs : Forall (λ g, allowed_dimension g = true) group_by → Forall2 (analytics_batch group_by) rowss bs →
  read_batches (E := E) (data_points group_by) bs = Ok (map (point_of group_by) (concat rowss)).
Proof.
  intros Hg Hall. unfold read_batches, decode_batches.
  assert (∀ acc, ofold (λ acc b, rows ← map_err (ConversionFailed (E := E)) (if (num_rows b =? 0)%nat then Ok [] else data_points group_by b);
    mret (acc ++ rows)) acc bs = Ok (acc ++ map (point_of group_by) (concat rowss))) as Hfold; [|by rewrite Hfold].
  induction Hall as [|rows b rowss bs Hb Hall IH]; intros acc; [cbn; by rewrite app_nil_r|]. cbn [ofold].
  assert ((if (num_rows b =? 0)%nat then Ok [] else data_points group_by b) = Ok (map (point_of group_by) rows)) as ->.
  { destruct (Nat.eqb_spec (num_rows b) 0) as [Hz|Hz]; [|by apply data_points_read]. destruct Hb as [Hn _]. rewrite Hz in Hn.
    by destruct rows. }
  do 2 ostep. rewrite IH. cbn [concat]. by rewrite map_app, app_assoc.
Qed.

Lemma find_dimension gs : match find (λ g, negb (allowed_dimension g)) gs with
  | Some g => g ∈ gs ∧ allowed_dimension g = false
  | None => Forall (λ g, allowed_dimension g = true) gs
  end.
Proof.
  induction gs as [|g gs IH]; cbn [find]; [constructor|]. destruct (allowed_dimension g) eqn:Hg; cbn [negb].
  - destruct (find _ gs); [|by constructor]. destruct IH. split; [by apply elem_of_cons; right|done].
  - split; [apply elem_of_cons; by left|done].
Qed.

(** The answer of an accepted request, from what its query found. *)
Lemma accepted_query (w : Wd) ws f e env : accepted f e →
  query_analytics byte_size hash canonicalize cache_dir w ws f env =
    let '(w', r) := query_text byte_size hash canonicalize cache_dir "Failed to execute analytics query" "spans" (analytics_text ws f e) w
      (signal_file_filter ws "traces" (Some (mkTimeRange (aq_start f) (aq_end f)))) env in
    (w', map_err ReadFailed r ≫= read_batches (data_points (aq_group_by f))).
Proof.
  intros [Hm Hg]. unfold query_analytics. rewrite Hm. pose proof (find_dimension (aq_group_by f)) as Hf.
  destruct (find _ _) as [g|]; [destruct Hf as [Hin Hbad]; rewrite Forall_forall in Hg; by rewrite Hg in Hbad|].
  unfold spans_text, file_range. by destruct (query_text _ _ _ _ _ _ _ _ _ _).
Qed.

Lemma filter_twice {A : Type} (P : A → Prop) `{∀ x, Decision (P x)} (l : list A) : filter P (filter P l) = filter P l.
Proof. apply filter_all. by intros x [Hx _]%list_elem_of_filter. Qed.

(** The request without its filters on other columns than the listed ones. *)
Definition listed_filters (f : AnalyticsQueryFilters) : AnalyticsQueryFilters :=
  mkAnalyticsQueryFilters (aq_workspace_id f) (aq_start f) (aq_end f) (aq_metric f) (aq_group_by f)
    (filter (λ kv, allowed_dimension kv.1 = true) (aq_filters f)).

(** A filter on a column outside the list changes nothing: the text is the one
    without it, over all the rows the filter was to leave out. *)
Lemma unlisted_filters_dropped (ws : Z) (f : AnalyticsQueryFilters) e : analytics_text ws f e = analytics_text ws (listed_filters f) e.
Proof.
  unfold analytics_text, analytics_conditions, listed_filters. cbn [aq_workspace_id aq_start aq_end aq_metric aq_group_by aq_filters].
  by rewrite filter_twice.
Qed.

Lemma query_without_unlisted (w : Wd) (ws : Z) (f : AnalyticsQueryFilters) env :
  query_analytics byte_size hash canonicalize cache_dir w ws f env =
  query_analytics byte_size hash canonicalize cache_dir w ws (listed_filters f) env.
Proof.
  unfold query_analytics. cbn [aq_metric aq_group_by aq_start aq_end listed_filters].
  destruct (metric_expr _) as [e|]; [|done]. by rewrite (unlisted_filters_dropped ws f e).
Qed.

(** C24: Names a client sends get into the text of an analytics query only from the
    two lists. A metric or a group column outside them is an error and nothing
    is read. A filter on a column outside the list is not an error: it is
    dropped, and the query, its text included, is the one without it. For an
    accepted request the text's tokens are fixed but for the names of the
    lists, every value of a listed filter is one string literal whatever its
    characters, and the answer has one point for each row the engine found, in
    order, with its bucket, its value and its group columns. *)
Theorem analytics_query_whitelisted (w : Wd) (ws : Z) (f : AnalyticsQueryFilters) env :
  (∀ w, plain (uuid_to_string w)) →
  (metric_expr (aq_metric f) = None →
    query_analytics byte_size hash canonicalize cache_dir w ws f env = (w, Err (UnsupportedMetric (aq_metric f)))) ∧
  (∀ e, metric_expr (aq_metric f) = Some e → ¬ Forall (λ g, allowed_dimension g = true) (aq_group_by f) →
    ∃ g, g ∈ aq_group_by f ∧ allowed_dimension g = false ∧
      query_analytics byte_size hash canonicalize cache_dir w ws f env = (w, Err (UnsupportedDimension g))) ∧
  (query_analytics byte_size hash canonicalize cache_dir w ws f env =
     query_analytics byte_size hash canonicalize cache_dir w ws (listed_filters f) env ∧
   ∀ e, analytics_text ws f e = analytics_text ws (listed_filters f) e) ∧
  (∀ e, accepted f e → lex (analytics_text ws f e) = Some (analytics_tokens ws f e) ∧
    ∀ w' bs rowss,
      query_text byte_size hash canonicalize cache_dir "Failed to execute analytics query" "spans" (analytics_text ws f e) w
        (signal_file_filter ws "traces" (Some (mkTimeRange (aq_start f) (aq_end f)))) env = (w', Ok bs) →
      Forall2 (analytics_batch (aq_group_by f)) rowss bs →
      query_analytics byte_size hash canonicalize cache_dir w ws f env = (w', Ok (map (point_of (aq_group_by f)) (concat rowss)))).
Proof.
  intros Hplain. split; [intros Hm; unfold query_analytics; by rewrite Hm|]. split.
  - intros e Hm Hbad. pose proof (find_dimension (aq_group_by f)) as Hf. unfold query_analytics. rewrite Hm.
    destruct (find _ _) as [g|]; [|done]. destruct Hf as [Hin Hg]. by exists g.
  - split; [split; [apply query_without_unlisted|intros e; apply unlisted_filters_dropped]|].
    intros e He. split; [by apply lex_analytics|]. intros w' bs rowss Hq Hbs. rewrite (accepted_query w ws f e env He), Hq. f_equal.
    ostep. apply read_points; [exact (proj2 He)|done].
Qed.

End Answers.

(** ** Witnesses *)

Section Witnesses.
#[local] Existing Instance list_lru.
#[local] Existing Instance chrono_concrete.
#[local] Existing Instance uuid_concrete.
#[local] Instance analytics_arrays : Arrow Z := column_arrays 0.
#[local] Instance analytics_arrays_laws : ArrowLaws Z := column_arrays_laws 0.
#[local] Instance analytics_floats : Float Z := Otlp.Sample.sample_float.

Definition span_job : WriteJob Z := mkWriteJob "+111" "default" "traces" [1] 5000 5 6 1.
Definition span_world : World (R := Z) (C := list (string * FileData Z)) :=
  mkWorld (store_written empty_store span_job (sample_write_env "t1" None)) None None None.
Definition two_agents : list (AnalyticsRow Z) :=
  [mkAnalyticsRow 0 (λ _, "planner") (inl 3); mkAnalyticsRow 0 (λ _, "critic") (inl 4)].
Definition agents_batch : RecordBatch (F := Z) :=
  (2%nat, [("bucket", array_ref Int64 [Some 0; Some 0]); ("agent_name", array_ref Utf8 [Some "planner"; Some "critic"]);
           ("value", array_ref Int64 [Some 3; Some 4])]).
#[local] Instance agents_engine : SqlEngine Z unit Z := {| run_text _ _ _ := Ok [agents_batch]; table_file_missing := tt |}.
Definition agent_filters : AnalyticsQueryFilters :=
  mkAnalyticsQueryFilters 3 0 9000000000 "span_count" ["agent_name"] [("service_name", "x' OR '1'='1"); ("db_name", "ignored")].

Lemma analytics_query_whitelisted_witness : ∃ w' points,
  query_analytics (λ _, 10) (λ _, 0) (λ p, p) "/cache" span_world 3 agent_filters idle_env = (w', Ok points) ∧
  map (λ p, (dp_value p, dp_groups p !! "agent_name")) points = [(3, Some "planner"); (4, Some "critic")].
Proof.
  destruct (analytics_query_whitelisted (λ _, 10) (λ _, 0) (λ p, p) "/cache" span_world 3 agent_filters idle_env unary_plain)
    as (_ & _ & _ & Hok). destruct (Hok "COUNT(*)") as [_ Hans]; [split; [reflexivity|repeat constructor]|].
  eexists _, _. split.
  - apply (Hans _ [agents_batch] [two_agents]); [vm_compute; reflexivity|]. constructor; [|constructor].
    split; [reflexivity|]. eexists. split; [left; exists [3; 4]; split; reflexivity|]. reflexivity.
  - vm_compute. reflexivity.
Defined.
End Witnesses.
