(* ===== verification/ApiTypes.v ===== *)
(** The types of the query API and their conversions:
    [api/src/telemetry/types.rs], with the functions of
    [api/src/telemetry/service.rs] that translate between the storage's records
    and the API's.

    A time is [DateTime], the nanoseconds since the epoch: chrono's type holds
    times whose nanoseconds do not fit 64 bits. *)

From stdpp Require Import base gmap list strings.
From Stdlib Require Import Ascii.
From S2P Require Import Prelude PolicyStore Enforcer Sql Models Otlp TelemetryReader Analytics.

(** ** Times *)

Definition DateTime : Type := Z.

(** [timestamp_micros] rounds down; [timestamp_nanos_opt] is absent outside of
    [i64]. *)
Definition timestamp_micros (t : DateTime) : Z := t / 1000.
Definition timestamp_nanos_opt (t : DateTime) : option Z := if decide (i64_range t) then Some t else None.

(** ** Floats *)

(** The operations of [f64] the API computes with. *)
Class FloatArith (F : Type) := {
  f_add : F → F → F;
  f_mul : F → F → F;
  f_lt : F → F → bool;
  f_le : F → F → bool;
  f_eqb : F → F → bool;
  f_to_i64 : F → Z;
}.

(** ** Requests *)

Module Api.
Record TraceQueryFilters := mkTraceFilters {
  at_start_time : option DateTime;
  at_end_time : option DateTime;
  at_service_name : option string;
  at_operation_name : option string;
  at_min_duration_ms : option Z;
  at_max_duration_ms : option Z;
  at_status : option string;
  at_llm_model : option string;
  at_llm_provider : option string;
  at_llm_response_model : option string;
  at_agent_name : option string;
  at_session_id : option string;
  at_rail_type : option string;
  at_action_name : option string;
  at_workflow_run_id : option string;
  at_framework : option string;
  at_tool_name : option string;
  at_invocation_id : option string;
  at_environment : option string;
  at_limit : option Z;
  at_offset : option Z;
}.

Record SpanQueryFilters := mkSpanFilters {
  as_trace_id : option string;
  as_start_time : option DateTime;
  as_end_time : option DateTime;
  as_service_name : option string;
  as_operation_name : option string;
  as_span_type : option string;
  as_span_types : option string;
  as_status : option string;
  as_llm_model : option string;
  as_llm_provider : option string;
  as_llm_response_model : option string;
  as_agent_name : option string;
  as_session_id : option string;
  as_rail_type : option string;
  as_action_name : option string;
  as_workflow_run_id : option string;
  as_framework : option string;
  as_tool_name : option string;
  as_invocation_id : option string;
  as_environment : option string;
  as_min_duration_ms : option Z;
  as_max_duration_ms : option Z;
  as_db_system_name : option string;
  as_db_operation_name : option string;
  as_limit : option Z;
  as_offset : option Z;
}.

Record LogQueryFilters := mkLogFilters {
  al_start_time : option DateTime;
  al_end_time : option DateTime;
  al_severity : option string;
  al_service_name : option string;
  al_trace_id : option string;
  al_search_text : option string;
  al_agent_name : option string;
  al_session_id : option string;
  al_limit : option Z;
  al_offset : option Z;
}.

Record MetricQueryFilters := mkMetricFilters {
  am_start_time : option DateTime;
  am_end_time : option DateTime;
  am_metric_name : option string;
  am_service_name : option string;
  am_agent_name : option string;
  am_limit : option Z;
  am_offset : option Z;
}.

Record MetricSeriesFilters := mkSeriesFilters {
  ae_metric_name : string;
  ae_start_time : option DateTime;
  ae_end_time : option DateTime;
  ae_interval_seconds : option Z;
  ae_aggregation : option string;
  ae_service_name : option string;
}.

(** [AnalyticsQuery]; its map in the order it iterates in. *)
Record AnalyticsQuery := mkAnalyticsQuery {
  aa_start : option DateTime;
  aa_end : option DateTime;
  aa_metric : option string;
  aa_group_by : option string;
  aa_filters : option (list (string * string));
}.

Record TopNQuery := mkTopNQuery { an_start_time : DateTime; an_end_time : DateTime; an_n : option Z }.
Record ErrorAnalyticsQuery := mkErrorQuery { ar_start_time : DateTime; ar_end_time : DateTime; ar_service_name : option string }.
Record StorageUsageQuery := mkStorageQuery {
  au_start_time : option DateTime;
  au_end_time : option DateTime;
  au_signal_type : option string;
  au_location : option string;
}.

(** [StorageUsageDailyQuery], [UsageDailyQuery], [IngestRateQuery] and
    [QueryUsageQuery] have the same fields. *)
Record SignalWindowQuery := mkSignalWindow { aw_signal : option string; aw_start_time : option DateTime; aw_end_time : option DateTime }.

Record PaginatedResponse (X : Type) := mkResponse { rs_items : list X; rs_total : Z; rs_page : Z; rs_page_size : Z }.
Arguments mkResponse {X}.
Arguments rs_items {X}.
Arguments rs_total {X}.

Record TraceSummary := mkTraceSummary {
  su_trace_id : string;
  su_start_time : DateTime;
  su_duration_ms : Z;
  su_service_name : string;
  su_operation_name : string;
  su_status : string;
  su_span_count : Z;
}.
End Api.

(** ** Reading the columns back *)

Section Details.
Context {F : Type} `{Float F} `{FloatArith F} `{SerdeJson F}.

Definition non_empty_string (s : string) : option string := if String.eqb s "" then None else Some s.
Definition non_zero_i32 (z : Z) : option Z := if z =? 0 then None else Some z.
Definition cache_hit_to_bool (z : Z) : option bool := if z =? 1 then Some true else if z =? 0 then Some false else None.
Definition non_zero_f64 (d : F) : option F := if f_eqb d f_zero then None else Some d.

Definition parse_model_parameters (raw : string) : option (Json F) :=
  if String.eqb raw "" || String.eqb raw "{}" then None else
  v ← from_str raw;
  match v with JObject [] => None | _ => Some v end.

Definition parse_json_array (raw : string) : option (Json F) :=
  if String.eqb raw "" || String.eqb raw "[]" then None else
  v ← from_str raw;
  match v with JArray [] => None | _ => Some v end.

(** [serde_json::from_str(..).unwrap_or_default()] as a map of values. *)
Definition attributes_map (raw : string) : gmap string (Json F) :=
  match from_str raw with Some (JObject m) => list_to_map (reverse m) | _ => ∅ end.

Record SpanDetail := mkSpanDetail {
  dt_span_id : string;
  dt_trace_id : string;
  dt_parent_span_id : option string;
  dt_service_name : string;
  dt_operation_name : string;
  dt_span_type : string;
  dt_start_time : DateTime;
  dt_duration_ms : Z;
  dt_status : string;
  dt_agent_name : option string;
  dt_agent_type : option string;
  dt_session_id : option string;
  dt_llm_model : option string;
  dt_llm_provider : option string;
  dt_llm_response_model : option string;
  dt_llm_input : option string;
  dt_llm_output : option string;
  dt_prompt_tokens : option Z;
  dt_completion_tokens : option Z;
  dt_total_tokens : option Z;
  dt_prompt_cost_usd : option F;
  dt_completion_cost_usd : option F;
  dt_total_cost_usd : option F;
  dt_tool_name : option string;
  dt_tool_call_id : option string;
  dt_rail_type : option string;
  dt_rail_name : option string;
  dt_rail_stop : option bool;
  dt_action_name : option string;
  dt_workflow_run_id : option string;
  dt_framework : option string;
  dt_llm_cache_hit : option bool;
  dt_llm_response_id : option string;
  dt_environment : option string;
  dt_db_system_name : option string;
  dt_db_namespace : option string;
  dt_db_operation_name : option string;
  dt_db_query_text : option string;
  dt_db_query_summary : option string;
  dt_db_collection_name : option string;
  dt_db_response_status_code : option string;
  dt_agent_id : option string;
  dt_agent_description : option string;
  dt_agent_task_id : option string;
  dt_agent_task_parent_id : option string;
  dt_agent_task_name : option string;
  dt_agent_task_kind : option string;
  dt_agent_task_state : option string;
  dt_agent_task_status : option string;
  dt_memory_type : option string;
  dt_memory_key : option string;
  dt_mcp_tool_name : option string;
  dt_mcp_server_name : option string;
  dt_mcp_tool_input : option string;
  dt_mcp_tool_output : option string;
  dt_agent_version : option string;
  dt_sdk_version : option string;
  dt_evaluation_name : option string;
  dt_evaluation_explanation : option string;
  dt_evaluation_passed : option Z;
  dt_model_parameters : option (Json F);
  dt_events : option (Json F);
  dt_links : option (Json F);
  dt_attributes : gmap string (Json F);
}.

(** The conversion of a span, written three times in the source: in [get_trace],
    [query_spans] and [get_span]. *)
Definition span_detail (span : Span F) : SpanDetail := {|
  dt_span_id := sp_span_id span;
  dt_trace_id := sp_trace_id span;
  dt_parent_span_id := non_empty_string (sp_parent_span_id span);
  dt_service_name := sp_service_name span;
  dt_operation_name := sp_span_name span;
  dt_span_type := sp_span_type span;
  dt_start_time := sp_timestamp span;
  dt_duration_ms := Z.quot (sp_duration_ns span) 1000000;
  dt_status := sp_status_code span;
  dt_agent_name := non_empty_string (sp_agent_name span);
  dt_agent_type := non_empty_string (sp_agent_type span);
  dt_session_id := non_empty_string (sp_session_id span);
  dt_llm_model := non_empty_string (sp_llm_model span);
  dt_llm_provider := non_empty_string (sp_llm_provider span);
  dt_llm_response_model := non_empty_string (sp_llm_response_model span);
  dt_llm_input := non_empty_string (sp_llm_input span);
  dt_llm_output := non_empty_string (sp_llm_output span);
  dt_prompt_tokens := non_zero_i32 (sp_prompt_tokens span);
  dt_completion_tokens := non_zero_i32 (sp_completion_tokens span);
  dt_total_tokens := non_zero_i32 (sp_total_tokens span);
  dt_prompt_cost_usd := non_zero_f64 (sp_prompt_cost_usd span);
  dt_completion_cost_usd := non_zero_f64 (sp_completion_cost_usd span);
  dt_total_cost_usd := non_zero_f64 (sp_total_cost_usd span);
  dt_tool_name := non_empty_string (sp_tool_name span);
  dt_tool_call_id := non_empty_string (sp_tool_call_id span);
  dt_rail_type := non_empty_string (sp_rail_type span);
  dt_rail_name := non_empty_string (sp_rail_name span);
  dt_rail_stop := if sp_rail_stop span =? 0 then None else Some true;
  dt_action_name := non_empty_string (sp_action_name span);
  dt_workflow_run_id := non_empty_string (sp_workflow_run_id span);
  dt_framework := non_empty_string (sp_framework span);
  dt_llm_cache_hit := cache_hit_to_bool (sp_llm_cache_hit span);
  dt_llm_response_id := non_empty_string (sp_llm_response_id span);
  dt_environment := non_empty_string (sp_environment span);
  dt_db_system_name := non_empty_string (sp_db_system_name span);
  dt_db_namespace := non_empty_string (sp_db_namespace span);
  dt_db_operation_name := non_empty_string (sp_db_operation_name span);
  dt_db_query_text := non_empty_string (sp_db_query_text span);
  dt_db_query_summary := non_empty_string (sp_db_query_summary span);
  dt_db_collection_name := non_empty_string (sp_db_collection_name span);
  dt_db_response_status_code := non_empty_string (sp_db_response_status_code span);
  dt_agent_id := non_empty_string (sp_agent_id span);
  dt_agent_description := non_empty_string (sp_agent_description span);
  dt_agent_task_id := non_empty_string (sp_agent_task_id span);
  dt_agent_task_parent_id := non_empty_string (sp_agent_task_parent_id span);
  dt_agent_task_name := non_empty_string (sp_agent_task_name span);
  dt_agent_task_kind := non_empty_string (sp_agent_task_kind span);
  dt_agent_task_state := non_empty_string (sp_agent_task_state span);
  dt_agent_task_status := non_empty_string (sp_agent_task_status span);
  dt_memory_type := non_empty_string (sp_memory_type span);
  dt_memory_key := non_empty_string (sp_memory_key span);
  dt_mcp_tool_name := non_empty_string (sp_mcp_tool_name span);
  dt_mcp_server_name := non_empty_string (sp_mcp_server_name span);
  dt_mcp_tool_input := non_empty_string (sp_mcp_tool_input span);
  dt_mcp_tool_output := non_empty_string (sp_mcp_tool_output span);
  dt_agent_version := non_empty_string (sp_agent_version span);
  dt_sdk_version := non_empty_string (sp_sdk_version span);
  dt_evaluation_name := non_empty_string (sp_evaluation_name span);
  dt_evaluation_explanation := non_empty_string (sp_evaluation_explanation span);
  dt_evaluation_passed := if sp_evaluation_passed span =? -1 then None else Some (sp_evaluation_passed span);
  dt_model_parameters := parse_model_parameters (sp_model_parameters span);
  dt_events := parse_json_array (sp_events span);
  dt_links := parse_json_array (sp_links span);
  dt_attributes := attributes_map (sp_attributes span);
|}.

Record LogDetail := mkLogDetail {
  ld_id : string;
  ld_timestamp : DateTime;
  ld_severity : string;
  ld_service_name : string;
  ld_message : string;
  ld_trace_id : option string;
  ld_span_id : option string;
  ld_agent_name : option string;
  ld_session_id : option string;
  ld_user_id : option string;
  ld_attributes : gmap string (Json F);
}.

Definition log_detail (l : LogRecord) : LogDetail := {|
  ld_id := lr_id l;
  ld_timestamp := lr_timestamp l;
  ld_severity := lr_severity l;
  ld_service_name := lr_service_name l;
  ld_message := lr_message l;
  ld_trace_id := non_empty_string (lr_trace_id l);
  ld_span_id := non_empty_string (lr_span_id l);
  ld_agent_name := non_empty_string (lr_agent_name l);
  ld_session_id := non_empty_string (lr_session_id l);
  ld_user_id := non_empty_string (lr_user_id l);
  ld_attributes := attributes_map (lr_attributes l);
|}.

Record MetricDetail := mkMetricDetail {
  md_metric_name : string;
  md_metric_type : string;
  md_timestamp : DateTime;
  md_service_name : string;
  md_value : F;
  md_count : Z;
  md_sum : F;
  md_min : F;
  md_max : F;
  md_labels : gmap string (Json F);
}.

Definition metric_detail (m : Metric F) : MetricDetail := {|
  md_metric_name := mt_metric_name m;
  md_metric_type := mt_metric_type m;
  md_timestamp := mt_timestamp m;
  md_service_name := mt_service_name m;
  md_value := mt_value m;
  md_count := mt_count m;
  md_sum := mt_sum m;
  md_min := mt_min m;
  md_max := mt_max m;
  md_labels := attributes_map (mt_labels m);
|}.

Record MetricSeriesPoint := mkSeriesPoint { mp_timestamp : DateTime; mp_point : F }.

Record TraceDetail := mkTraceDetail {
  td_trace_id : string;
  td_start_time : DateTime;
  td_duration_ms : Z;
  td_spans : list SpanDetail;
}.

(** The summary of a trace found by the list query. *)
Definition trace_summary (t : TraceSummary) : Api.TraceSummary :=
  Api.mkTraceSummary (ts_trace_id t) (ts_start_time t) (ts_duration_ms t) (ts_service_name t) (ts_trace_name t)
    (if ts_has_error t =? 0 then "OK" else "ERROR") (ts_span_count t).

(** [result.total as i64], page 0 and the size of the page asked for. *)
Definition api_page {X Y : Type} (convert : X → Y) (r : PaginatedResponse X) : Api.PaginatedResponse Y :=
  Api.mkResponse (map convert (pr_items r)) (i64_wrap (pr_total r)) 0 (pr_limit X r).

(** ** Quota status *)

Inductive ThresholdStatus := StatusOk | StatusWarning | StatusCritical | StatusGrace | StatusBlocked.
#[export] Instance ThresholdStatus_eq_dec : EqDecision ThresholdStatus.
Proof. solve_decision. Defined.

Record QuotaStatus := mkQuotaStatus {
  qu_signal : SignalKind;
  qu_operation : Operation;
  qu_limit_kind : string;
  qu_limit_value : Z;
  qu_observed_value : Z;
  qu_pct_consumed : F;
  qu_status : ThresholdStatus;
  qu_period_start : option Z;
  qu_period_end : option Z;
  qu_projected_exhaustion_at : option Z;
}.

Definition quota_status (signal : SignalKind) (operation : Operation) (limit_kind : string)
    (limit_value observed_value hard_block_pct : Z) (period : option Z * option Z) : QuotaStatus :=
  let pct_consumed :=
    if 0 <? limit_value then f_div (f_mul (f_of_Z observed_value) (f_of_Z 100)) (f_of_Z limit_value) else f_of_Z 100 in
  let status :=
    if (limit_value <=? 0) || (i64_saturating_mul limit_value hard_block_pct <=? i64_saturating_mul observed_value 100) then StatusBlocked
    else if f_lt (f_of_Z 100) pct_consumed then StatusGrace
    else if f_le (f_of_Z 90) pct_consumed then StatusCritical
    else if f_le (f_of_Z 70) pct_consumed then StatusWarning
    else StatusOk in
  mkQuotaStatus signal operation limit_kind limit_value observed_value pct_consumed status period.1 period.2 None.

(** ** Groups of analytics points *)

Definition group_is (p : AnalyticsDataPoint F) (key value : string) : bool := bool_decide (dp_groups p !! key = Some value).

(** [points.iter().find(..).map(|p| p.value).unwrap_or(0.0)]. *)
Definition find_value (test : AnalyticsDataPoint F → bool) (points : list (AnalyticsDataPoint F)) : F :=
  match find test points with Some p => dp_value p | None => f_zero end.

Definition find_group_value (points : list (AnalyticsDataPoint F)) (key value : string) : F :=
  find_value (λ p, group_is p key value) points.

Definition find_endpoint_group_value (points : list (AnalyticsDataPoint F)) (service_name operation_name : string) : F :=
  find_value (λ p, group_is p "service_name" service_name && group_is p "span_name" operation_name) points.

Definition find_agent_group_value (points : list (AnalyticsDataPoint F)) (agent_name : string) (agent_type : option string) : F :=
  find_value (λ p, group_is p "agent_name" agent_name &&
    match dp_groups p !! "agent_type" with
    | Some v => bool_decide (Some v = agent_type)
    | None => bool_decide (agent_type = None)
    end) points.

Definition find_db_group_value (points : list (AnalyticsDataPoint F)) (db_system_name : string) (db_operation_name : option string) : F :=
  find_value (λ p, group_is p "db_system_name" db_system_name && bool_decide (dp_groups p !! "db_operation_name" = db_operation_name)) points.
End Details.

Arguments SpanDetail F : clear implicits.
Arguments LogDetail F : clear implicits.
Arguments MetricDetail F : clear implicits.
Arguments MetricSeriesPoint F : clear implicits.
Arguments TraceDetail F : clear implicits.
Arguments QuotaStatus F : clear implicits.

(** ** Names in requests *)

(** [s.split(sep)]: one piece more than there are separators. *)
Fixpoint split_on (sep : ascii) (s : string) : list string :=
  match s with
  | EmptyString => [""]
  | String c s =>
      if decide (c = sep) then "" :: split_on sep s
      else match split_on sep s with
           | [] => [String c ""]
           | piece :: rest => String c piece :: rest
           end
  end.

(** [str::trim] is a parameter: it removes white space in the sense of Unicode. *)
Section Names.
Context (trim : string → string).

Definition comma_list (s : string) : list string := map trim (split_on ","%char s).

Definition invalid_span_type (t : string) : string := "Invalid span_type: " +:+ t.

Definition parse_span_types (f : Api.SpanQueryFilters) : outcome string (option (list string)) :=
  match Api.as_span_types f with
  | Some types_str =>
      let types := comma_list types_str in
      match find (λ t, negb (validate_span_type t)) types with
      | Some t => Err (invalid_span_type t)
      | None => Ok (Some types)
      end
  | None =>
      match Api.as_span_type f with
      | Some single_type => if validate_span_type single_type then Ok (Some [single_type]) else Err (invalid_span_type single_type)
      | None => Ok None
      end
  end.
End Names.

Definition signal_type_name (signal : SignalKind) : option string :=
  match signal with
  | Traces => Some "traces"
  | Logs => Some "logs"
  | Metrics => Some "metrics"
  | _ => None
  end.

(** The service's [parse_signal_kind]; the message of the error. *)
Definition parse_signal (value : string) : outcome string SignalKind :=
  if String.eqb value "traces" then Ok Traces
  else if String.eqb value "logs" then Ok Logs
  else if String.eqb value "metrics" then Ok Metrics
  else if String.eqb value "all" then Ok AllSignals
  else Err ("Invalid signal: " +:+ value).

(** ** Lemmas *)

Section QuotaLemmas.
Context {F : Type} `{Float F} `{FloatArith F}.

(** A limit is shown as blocked exactly when the enforcer blocks on it: at the
    same usage, limit and hard threshold its comparison decides to block,
    whatever the grace percentage. *)
Theorem quota_status_blocks_like_enforcer signal op kind limit observed grace hard period code reason :
  qu_status (quota_status (F := F) signal op kind limit observed hard period) = StatusBlocked ↔
  compare_limit_i64 observed limit grace hard code reason = Some (Block reason code).
Proof.
  unfold quota_status, compare_limit_i64. cbn [qu_status].
  destruct (limit <=? 0); [done|]. cbn [orb].
  destruct (i64_saturating_mul limit hard <=? i64_saturating_mul observed 100); [done|].
  split; [|by repeat case_match]. by repeat case_match.
Qed.
End QuotaLemmas.
