(* ===== verification/QueryService.v ===== *)
(** The query service: [api/src/telemetry/service.rs], [QueryService] and its
    list, detail and usage operations. The grouped analytics are in
    [ServiceAnalytics].

    The service sees its storage through [StorageReader], as the source does
    through the [TelemetryReader] and [AnalyticsReader] traits; [parquet_storage]
    is the implementation of [TelemetryReader] and [Analytics]. An operation is
    a state transformer over the storage that also emits what it sends elsewhere:
    the enforcer's events and the usage samples. *)

From stdpp Require Import base gmap list strings sorting.
From S2P Require Import Prelude Authorize FileList WriteBuffer TelemetryWriter ParquetWriter Compactor Lease Retention PolicyStore Enforcer PgUsage PgUsageWorker.
From S2P Require Import StorageUsage Reclaimer Paths FileMover MemoryCache DiskCache Reader Sql Arrow Models Schema SpanSchema TelemetryReader.
From S2P Require Import Storage ListQueries Otlp Analytics ApiTypes.

(** ** The storage, as the service sees it *)

Class StorageReader (S E F : Type) := {
  sr_query_traces : S → TraceQueryFilters → S * outcome E (PaginatedResponse TraceSummary);
  sr_get_trace_detail : S → Z → string → S * outcome E (option (list (Span F)));
  sr_query_spans : S → SpanQueryFilters → S * outcome E (PaginatedResponse (Span F));
  sr_get_span : S → Z → string → S * outcome E (option (Span F));
  sr_query_logs : S → LogQueryFilters → S * outcome E (PaginatedResponse LogRecord);
  sr_get_log : S → Z → string → S * outcome E (option LogRecord);
  sr_query_metrics : S → MetricQueryFilters → S * outcome E (PaginatedResponse (Metric F));
  sr_query_metric_series : S → MetricSeriesFilters → S * outcome E (list (MetricPoint F));
  sr_query_analytics : S → Z → AnalyticsQueryFilters → S * outcome E (list (AnalyticsDataPoint F));
  sr_get_daily_trace_counts : S → Z → Z → Z → S * outcome E (list (TimeSeriesPoint F));
  sr_get_metrics_summary : S → Z → Z → Z → S * outcome E (MetricsSummary F);
  sr_get_guardrails_analytics : S → GuardrailsAnalyticsFilters → S * outcome E (GuardrailsAnalyticsResult F);
}.

(** ** The Parquet reader as storage *)

Section ParquetStorage.
Context {F R E C : Type} `{UuidText} `{Float F} `{Arrow F} `{!SqlEngine R E F} `{LruCache C (FileData R)}.
Context (byte_size : FileData R → Z) (hash : string → Z) (canonicalize : string → string) (cache_dir : string).
Context (to_uppercase to_lowercase : string → string) (to_rfc3339 : Z → string).

(** The world of the reader, and what each of the queries to come will find. *)
Record ReaderState := mkReaderState {
  rd_world : World (R := R) (C := C);
  rd_envs : nat → QueryEnv R C;
}.

Definition env_at (s : ReaderState) (i : nat) : QueryEnv R C := rd_envs s i.

(** An operation that runs [n] queries. *)
Definition run_reader {A Err : Type} (n : nat) (s : ReaderState) (r : World (R := R) (C := C) * outcome Err A) : ReaderState * outcome Err A :=
  (mkReaderState r.1 (λ i, rd_envs s (n + i)%nat), r.2).

Definition plain_read {A : Type} (n : nat) (s : ReaderState) (r : World (R := R) (C := C) * outcome (ReaderError (E := E)) A) :
    ReaderState * outcome (AnalyticsError (E := E)) A :=
  run_reader n s (r.1, map_err ReadFailed r.2).

#[global] Instance parquet_storage : StorageReader ReaderState (AnalyticsError (E := E)) F := {|
  sr_query_traces s f := plain_read 2 s (query_traces byte_size hash canonicalize cache_dir to_uppercase (rd_world s) f (env_at s 0) (env_at s 1));
  sr_get_trace_detail s w id := plain_read 1 s (get_trace_detail byte_size hash canonicalize cache_dir (rd_world s) w id (env_at s 0));
  sr_query_spans s f := plain_read 2 s (query_spans byte_size hash canonicalize cache_dir (rd_world s) f (env_at s 0) (env_at s 1));
  sr_get_span s w id := plain_read 1 s (get_span byte_size hash canonicalize cache_dir (rd_world s) w id (env_at s 0));
  sr_query_logs s f := plain_read 2 s (query_logs byte_size hash canonicalize cache_dir (rd_world s) f (env_at s 0) (env_at s 1));
  sr_get_log s w id := plain_read 1 s (get_log byte_size hash canonicalize cache_dir (rd_world s) w id (env_at s 0));
  sr_query_metrics s f := plain_read 2 s (query_metrics byte_size hash canonicalize cache_dir (rd_world s) f (env_at s 0) (env_at s 1));
  sr_query_metric_series s f := plain_read 1 s (query_metric_series byte_size hash canonicalize cache_dir to_lowercase (rd_world s) f (env_at s 0));
  sr_query_analytics s w f := run_reader 1 s (query_analytics byte_size hash canonicalize cache_dir (rd_world s) w f (env_at s 0));
  sr_get_daily_trace_counts s w a b :=
    run_reader 1 s (get_daily_trace_counts byte_size hash canonicalize cache_dir to_rfc3339 (rd_world s) w a b (env_at s 0));
  sr_get_metrics_summary s w a b := run_reader 1 s (get_metrics_summary byte_size hash canonicalize cache_dir (rd_world s) w a b (env_at s 0));
  sr_get_guardrails_analytics s f :=
    run_reader 4 s (get_guardrails_analytics byte_size hash canonicalize cache_dir (rd_world s) f (env_at s 0) (env_at s 1) (env_at s 2) (env_at s 3));
|}.
End ParquetStorage.

(** ** The service *)

(** What the service sends out: the enforcer's events, and the samples of the
    tasks it spawns for the usage tracker. *)
Inductive ServiceEvent := PolicyEmitted (e : PolicyEvent) | QueryRecorded (sample : QuerySample).

(** The repositories, by the reads the service makes; each may fail with a
    message. *)
Record FileListRepository := mkFileListRepo {
  repo_sum_compressed_size : FileListFilter → outcome string Z;
  repo_query_files : FileListFilter → outcome string (list FileListEntry);
}.

(** What the usage repositories return; days are texts. *)
Module UsageRecords.
Record UsageDailyRecord := mkDaily {
  du_workspace_id : Z;
  du_signal : SignalKind;
  du_operation : Operation;
  du_day : string;
  du_used_bytes : Z;
  du_records : Z;
  du_query_count : Z;
  du_file_count : Z;
}.

Record IngestRateRecord := mkIngestRate {
  ir_workspace_id : Z;
  ir_signal : SignalKind;
  ir_records_per_sec : Z;
  ir_bytes_per_sec : Z;
  ir_window_start_micros : Z;
  ir_window_end_micros : Z;
}.

Record QueryUsageRecord (F : Type) := mkQueryUsage {
  qr_workspace_id : Z;
  qr_signal : SignalKind;
  qr_bytes_scanned : Z;
  qr_rows_scanned : Z;
  qr_query_count : Z;
  qr_avg_query_time_ms : option F;
  qr_window_start_micros : Z;
  qr_window_end_micros : Z;
}.
End UsageRecords.

Record UsageAnalyticsReader (F : Type) := mkUsageAnalytics {
  repo_usage_daily : Z → option SignalKind → option Z → option Z → outcome string (list UsageRecords.UsageDailyRecord);
  repo_ingest_rate : Z → option SignalKind → Z → Z → outcome string (list UsageRecords.IngestRateRecord);
  repo_query_usage : Z → option SignalKind → Z → Z → outcome string (list (UsageRecords.QueryUsageRecord F));
}.
Arguments repo_usage_daily {F}.
Arguments repo_ingest_rate {F}.
Arguments repo_query_usage {F}.

Record StorageUsageDailySnapshot := mkUsageSnapshot {
  sn_workspace_id : Z;
  sn_signal : string;
  sn_day : string;
  sn_compressed_bytes : Z;
  sn_file_count : Z;
  sn_captured_at : Z;
  sn_estimated_today : bool;
}.

Record QueryService (F : Type) := mkQueryService {
  file_list_repo : option FileListRepository;
  enforcer : option (RetentionConfigStore * EnforcementStrategy);
  policy_enforcer : option (QueryCtx → emitting Decision);
  usage_tracker : bool;
  policy_store : option (Z → SignalKind → Operation → ResolvedPolicy);
  usage_reader : option UsageReader;
  usage_analytics_reader : option (UsageAnalyticsReader F);
  storage_usage_repo : option (Z → option string → option Z → option Z → outcome string (list StorageUsageDailySnapshot));
}.
Arguments mkQueryService {F}.
Arguments file_list_repo {F}.
Arguments enforcer {F}.
Arguments policy_enforcer {F}.
Arguments usage_tracker {F}.
Arguments policy_store {F}.
Arguments usage_reader {F}.
Arguments usage_analytics_reader {F}.
Arguments storage_usage_repo {F}.

Definition service_new {F : Type} : QueryService F := mkQueryService None None None false None None None None.

(** What one request reads from the clock: at the policy check, at the retention
    check, where the end of the range defaults, and when the usage sample is
    taken. *)
Record RequestClock := mkClock {
  ck_policy_micros : Z;
  ck_retention_ns : Z;
  ck_end : DateTime;
  ck_elapsed_ms : Z;
  ck_submitted_at : Z;
}.

Definition i32_max : Z := 2147483647.

Section Service.
Context {S E F : Type} `{Float F} `{FloatArith F} `{SerdeJson F} `{!StorageReader S E F} `{UuidText}.
Context (show_error : E → string) (retention_message : Z → string) (trim : string → string).

Definition svc (A : Type) : Type := S → S * (list ServiceEvent * outcome ControlError A).
#[local] Instance svc_ret : MRet svc := λ A a s, (s, ([], Ok a)).
#[local] Instance svc_bind : MBind svc := λ A B f m s,
  match m s with
  | (s, (events, Ok a)) => let '(s, (events', r)) := f a s in (s, (events ++ events', r))
  | (s, (events, Err e)) => (s, (events, Err e))
  | (s, (events, Panic)) => (s, (events, Panic))
  end.

Definition lift {A : Type} (r : outcome ControlError A) : svc A := λ s, (s, ([], r)).
Definition emit (events : list ServiceEvent) : svc unit := λ s, (s, (events, Ok ())).

(** [self.storage.op(..).await.map_err(|e| Internal(format!("..: {}", e)))?]. *)
Definition storage {A : Type} (context : string) (op : S → S * outcome E A) : svc A := λ s,
  let '(s, r) := op s in (s, ([], map_err (λ e, Internal (context +:+ ": " +:+ show_error e)) r)).

(** [enforce_start]. *)
Definition enforce_start (qs : QueryService F) (workspace_id now_ns : Z) (start_ns : option Z) : outcome ControlError Z :=
  match enforcer qs with
  | Some (c, strategy) => map_err (λ days, InvalidInput (retention_message days)) (fst <$> enforce_query c strategy workspace_id now_ns start_ns)
  | None => Ok (default 0 start_ns)
  end.

Definition scan_filter (workspace_id : Z) (signal_type : string) (start_micros end_micros : option Z) : FileListFilter :=
  mkFileListFilter (Some workspace_id) (Some signal_type) None start_micros end_micros None (Some false).

(** [u64::try_from(..).unwrap_or(0)]. *)
Definition estimate_scanned_bytes (qs : QueryService F) (workspace_id : Z) (signal : SignalKind) (start_micros end_micros : option Z) :
    outcome ControlError (option Z) :=
  match file_list_repo qs, signal_type_name signal with
  | Some repo, Some signal_type =>
      compressed_size ← map_err (λ e, Internal ("Storage metadata error: " +:+ e))
        (repo_sum_compressed_size repo (scan_filter workspace_id signal_type start_micros end_micros));
      mret (Some (if 0 <=? compressed_size then compressed_size else 0))
  | _, _ => Ok None
  end.

Definition enforce_policy_query (qs : QueryService F) (ck : RequestClock) (workspace_id : Z) (signal : SignalKind)
    (start_micros end_micros : option Z) : svc (option Z) :=
  estimated ← lift (estimate_scanned_bytes qs workspace_id signal start_micros end_micros);
  match policy_enforcer qs with
  | None => mret estimated
  | Some check =>
      let '(events, decision) := check (mkQueryCtx workspace_id signal start_micros end_micros estimated (ck_policy_micros ck)) in
      _ ← emit (map PolicyEmitted events);
      match decision with
      | Allow | AllowWithGrace _ => mret estimated
      | Throttle _ reason | Block reason _ => lift (Err (InvalidInput reason))
      end
  end.

Definition record_query_usage (qs : QueryService F) (ck : RequestClock) (workspace_id : Z) (signal : SignalKind)
    (estimated_scanned_bytes : option Z) (rows_scanned : Z) : svc unit :=
  if usage_tracker qs then
    emit [QueryRecorded (mkQuerySample workspace_id signal (u64_to_i64_saturating (default 0 estimated_scanned_bytes)) (Some rows_scanned)
      (Some (Z.min (ck_elapsed_ms ck) i32_max)) SumAllow (ck_submitted_at ck))]
  else mret ().

(** [(l as u32)], and the offset clamped at zero first. *)
Definition u32_of_i64 (z : Z) : Z := z mod 2 ^ 32.
Definition api_pagination (limit offset : option Z) : Pagination :=
  mkPagination (Some (u32_of_i64 (default 100 limit))) (Some (u32_of_i64 (Z.max (default 0 offset) 0))).

(** The time range of traces and spans: there when either bound is. *)
Definition open_time_range (ck : RequestClock) (enforced_start : Z) (start_time end_time : option DateTime) : option TimeRange :=
  match start_time, end_time with
  | None, None => None
  | _, _ => Some (mkTimeRange enforced_start
              (default (default 0 (timestamp_nanos_opt (ck_end ck))) (end_time ≫= timestamp_nanos_opt)))
  end.

(** The time range of logs and metrics: there when the end is. *)
Definition closed_time_range (enforced_start : Z) (end_time : option DateTime) : option TimeRange :=
  (λ t, mkTimeRange enforced_start (default 0 (timestamp_nanos_opt t))) <$> end_time.

Definition rows_scanned {X : Type} (items : list X) : Z := u64_to_i64_saturating (zlen items).

Definition query_traces (qs : QueryService F) (ck : RequestClock) (workspace_id : Z) (f : Api.TraceQueryFilters) :
    svc (Api.PaginatedResponse Api.TraceSummary) :=
  estimated ← enforce_policy_query qs ck workspace_id Traces (timestamp_micros <$> Api.at_start_time f) (timestamp_micros <$> Api.at_end_time f);
  enforced_start ← lift (enforce_start qs workspace_id (ck_retention_ns ck) (Api.at_start_time f ≫= timestamp_nanos_opt));
  let storage_filters := {|
    tq_workspace_id := Some workspace_id;
    tq_time_range := open_time_range ck enforced_start (Api.at_start_time f) (Api.at_end_time f);
    tq_service_name := Api.at_service_name f;
    tq_span_name := Api.at_operation_name f;
    tq_status := Api.at_status f;
    tq_min_duration_ms := (λ d, Z.max d 0) <$> Api.at_min_duration_ms f;
    tq_max_duration_ms := (λ d, Z.max d 0) <$> Api.at_max_duration_ms f;
    tq_llm_model := Api.at_llm_model f;
    tq_llm_provider := Api.at_llm_provider f;
    tq_llm_response_model := Api.at_llm_response_model f;
    tq_agent_name := Api.at_agent_name f;
    tq_session_id := Api.at_session_id f;
    tq_rail_type := Api.at_rail_type f;
    tq_action_name := Api.at_action_name f;
    tq_workflow_run_id := Api.at_workflow_run_id f;
    tq_framework := Api.at_framework f;
    tq_tool_name := Api.at_tool_name f;
    tq_invocation_id := Api.at_invocation_id f;
    tq_environment := Api.at_environment f;
    tq_pagination := api_pagination (Api.at_limit f) (Api.at_offset f);
  |} in
  result ← storage "Storage error" (λ s, sr_query_traces s storage_filters);
  _ ← record_query_usage qs ck workspace_id Traces estimated (rows_scanned (pr_items result));
  mret (api_page trace_summary result).

Definition get_trace (workspace_id : Z) (trace_id : string) : svc (TraceDetail F) :=
  found ← storage "Storage error" (λ s, sr_get_trace_detail s workspace_id trace_id);
  match found with
  | None | Some [] => lift (Err (NotFound "Trace not found"))
  | Some ((root :: _) as spans) =>
      let total_duration_ns := i64_wrap (zsum (map sp_duration_ns spans)) in
      mret (mkTraceDetail trace_id (sp_timestamp root) (Z.quot total_duration_ns 1000000) (map span_detail spans))
  end.

Definition query_spans (qs : QueryService F) (ck : RequestClock) (workspace_id : Z) (f : Api.SpanQueryFilters) :
    svc (Api.PaginatedResponse (SpanDetail F)) :=
  estimated ← enforce_policy_query qs ck workspace_id Traces (timestamp_micros <$> Api.as_start_time f) (timestamp_micros <$> Api.as_end_time f);
  enforced_start ← lift (enforce_start qs workspace_id (ck_retention_ns ck) (Api.as_start_time f ≫= timestamp_nanos_opt));
  span_types ← lift (map_err InvalidInput (parse_span_types trim f));
  let storage_filters := {|
    sq_workspace_id := Some workspace_id;
    sq_trace_id := Api.as_trace_id f;
    sq_time_range := open_time_range ck enforced_start (Api.as_start_time f) (Api.as_end_time f);
    sq_service_name := Api.as_service_name f;
    sq_span_name := Api.as_operation_name f;
    sq_span_types := span_types;
    sq_status := Api.as_status f;
    sq_llm_model := Api.as_llm_model f;
    sq_llm_provider := Api.as_llm_provider f;
    sq_llm_response_model := Api.as_llm_response_model f;
    sq_agent_name := Api.as_agent_name f;
    sq_session_id := Api.as_session_id f;
    sq_rail_type := Api.as_rail_type f;
    sq_action_name := Api.as_action_name f;
    sq_workflow_run_id := Api.as_workflow_run_id f;
    sq_framework := Api.as_framework f;
    sq_tool_name := Api.as_tool_name f;
    sq_invocation_id := Api.as_invocation_id f;
    sq_environment := Api.as_environment f;
    sq_min_duration_ms := (λ d, Z.max d 0) <$> Api.as_min_duration_ms f;
    sq_max_duration_ms := (λ d, Z.max d 0) <$> Api.as_max_duration_ms f;
    sq_db_system_name := Api.as_db_system_name f;
    sq_db_operation_name := Api.as_db_operation_name f;
    sq_pagination := api_pagination (Api.as_limit f) (Api.as_offset f);
  |} in
  result ← storage "Storage error" (λ s, sr_query_spans s storage_filters);
  _ ← record_query_usage qs ck workspace_id Traces estimated (rows_scanned (pr_items result));
  mret (api_page span_detail result).

Definition get_span (workspace_id : Z) (span_id : string) : svc (SpanDetail F) :=
  found ← storage "Storage error" (λ s, sr_get_span s workspace_id span_id);
  match found with Some span => mret (span_detail span) | None => lift (Err (NotFound "Span not found")) end.

(** The filters handed to the storage. *)
Definition log_storage_filters (workspace_id enforced_start : Z) (f : Api.LogQueryFilters) : LogQueryFilters := {|
  lq_workspace_id := Some workspace_id;
  lq_time_range := closed_time_range enforced_start (Api.al_end_time f);
  lq_severity := Api.al_severity f;
  lq_service_name := Api.al_service_name f;
  lq_trace_id := Api.al_trace_id f;
  lq_search_text := Api.al_search_text f;
  lq_agent_name := Api.al_agent_name f;
  lq_session_id := Api.al_session_id f;
  lq_pagination := api_pagination (Api.al_limit f) (Api.al_offset f);
|}.

Definition query_logs (qs : QueryService F) (ck : RequestClock) (workspace_id : Z) (f : Api.LogQueryFilters) :
    svc (Api.PaginatedResponse (LogDetail F)) :=
  estimated ← enforce_policy_query qs ck workspace_id Logs (timestamp_micros <$> Api.al_start_time f) (timestamp_micros <$> Api.al_end_time f);
  enforced_start ← lift (enforce_start qs workspace_id (ck_retention_ns ck) (Api.al_start_time f ≫= timestamp_nanos_opt));
  result ← storage "Storage error" (λ s, sr_query_logs s (log_storage_filters workspace_id enforced_start f));
  _ ← record_query_usage qs ck workspace_id Logs estimated (rows_scanned (pr_items result));
  mret (api_page log_detail result).

Definition get_log (workspace_id : Z) (log_id : string) : svc (LogDetail F) :=
  found ← storage "Storage error" (λ s, sr_get_log s workspace_id log_id);
  match found with Some log => mret (log_detail log) | None => lift (Err (NotFound "Log not found")) end.

Definition query_metrics (qs : QueryService F) (ck : RequestClock) (workspace_id : Z) (f : Api.MetricQueryFilters) :
    svc (Api.PaginatedResponse (MetricDetail F)) :=
  estimated ← enforce_policy_query qs ck workspace_id Metrics (timestamp_micros <$> Api.am_start_time f) (timestamp_micros <$> Api.am_end_time f);
  enforced_start ← lift (enforce_start qs workspace_id (ck_retention_ns ck) (Api.am_start_time f ≫= timestamp_nanos_opt));
  let storage_filters := {|
    mq_workspace_id := Some workspace_id;
    mq_time_range := closed_time_range enforced_start (Api.am_end_time f);
    mq_metric_name := Api.am_metric_name f;
    mq_service_name := Api.am_service_name f;
    mq_agent_name := Api.am_agent_name f;
    mq_pagination := api_pagination (Api.am_limit f) (Api.am_offset f);
  |} in
  result ← storage "Storage error" (λ s, sr_query_metrics s storage_filters);
  _ ← record_query_usage qs ck workspace_id Metrics estimated (rows_scanned (pr_items result));
  mret (api_page metric_detail result).

Definition query_metric_series (qs : QueryService F) (ck : RequestClock) (workspace_id : Z) (f : Api.MetricSeriesFilters) :
    svc (list (MetricSeriesPoint F)) :=
  estimated ← enforce_policy_query qs ck workspace_id Metrics (timestamp_micros <$> Api.ae_start_time f) (timestamp_micros <$> Api.ae_end_time f);
  let storage_filters := {|
    ms_workspace_id := Some workspace_id;
    ms_metric_name := Api.ae_metric_name f;
    ms_time_range :=
      match Api.ae_start_time f, Api.ae_end_time f with
      | Some a, Some b => Some (mkTimeRange (default 0 (timestamp_nanos_opt a)) (default 0 (timestamp_nanos_opt b)))
      | _, _ => None
      end;
    ms_interval_seconds := default 60 (Api.ae_interval_seconds f);
    ms_aggregation := default "avg" (Api.ae_aggregation f);
    ms_service_name := Api.ae_service_name f;
  |} in
  points ← storage "Storage error" (λ s, sr_query_metric_series s storage_filters);
  _ ← record_query_usage qs ck workspace_id Metrics estimated (rows_scanned points);
  mret (map (λ p, mkSeriesPoint (mp_bucket_ts F p) (mp_value F p)) points).

(** ** Storage usage *)

Record StorageUsage := mkStorageUsage {
  us_workspace_id : string;
  us_signal_type : string;
  us_location : string;
  us_file_count : Z;
  us_records : Z;
  us_original_size : Z;
  us_compressed_size : Z;
}.

Record StorageUsageDaily := mkUsageDay {
  uy_workspace_id : string;
  uy_signal : string;
  uy_day : string;
  uy_compressed_bytes : Z;
  uy_file_count : Z;
  uy_captured_at : Z;
  uy_estimated_today : bool;
}.

(** [grouped.entry(key).or_insert_with(..)], then the additions. *)
Definition add_file (grouped : gmap (string * string) StorageUsage) (file : FileListEntry) : gmap (string * string) StorageUsage :=
  let key := (fe_signal_type file, fe_location file) in
  let usage := default (mkStorageUsage (uuid_to_string (fe_workspace_id file)) (fe_signal_type file) (fe_location file) 0 0 0 0) (grouped !! key) in
  <[key := mkStorageUsage (us_workspace_id usage) (us_signal_type usage) (us_location usage)
             (i64_wrap (us_file_count usage + 1)) (i64_wrap (us_records usage + fe_records file))
             (i64_wrap (us_original_size usage + fe_original_size file)) (i64_wrap (us_compressed_size usage + fe_compressed_size file))]> grouped.

(** By signal, then by location. *)
Definition usage_order (a b : StorageUsage) : Prop :=
  key_lt (us_signal_type a) (us_signal_type b) ∨
  (us_signal_type a = us_signal_type b ∧ (key_lt (us_location a) (us_location b) ∨ us_location a = us_location b)).
#[local] Instance key_lt_dec : RelDecision key_lt.
Proof. intros a b. unfold key_lt. apply _. Defined.
#[local] Instance usage_order_dec : RelDecision usage_order.
Proof. intros a b. unfold usage_order. apply _. Defined.

Definition usage_filter (workspace_id : Z) (f : Api.StorageUsageQuery) : FileListFilter :=
  mkFileListFilter (Some workspace_id) (Api.au_signal_type f) None (timestamp_micros <$> Api.au_start_time f)
    (timestamp_micros <$> Api.au_end_time f) (Api.au_location f) (Some false).

Definition get_storage_usage (qs : QueryService F) (workspace_id : Z) (f : Api.StorageUsageQuery) : outcome ControlError (list StorageUsage) :=
  repo ← ok_or (file_list_repo qs) (Internal "Storage usage metadata repository is not configured");
  files ← map_err (λ e, Internal ("Storage metadata error: " +:+ e)) (repo_query_files repo (usage_filter workspace_id f));
  mret (merge_sort usage_order (map_to_list (foldl add_file ∅ files)).*2).

(** ** Quotas and daily usage *)

(** The message of a usage read that fails. *)
Context (usage_read_error : string).

Definition read_usage (r : option Z) : outcome ControlError Z := ok_or r (Internal usage_read_error).

Definition quota_statuses (usage : UsageReader) (workspace_id : Z) (signal : SignalKind) (operation : Operation) (resolved : ResolvedPolicy) :
    outcome ControlError (list (QuotaStatus F)) :=
  ofold (λ statuses quota,
    match quota with
    | Quota max_bytes period_start period_end _ =>
        observed_value ← read_usage (Enforcer.period_used_bytes usage workspace_id signal operation period_start period_end);
        mret (statuses ++ [quota_status (F := F) signal operation "quota" max_bytes observed_value (hard_block_pct resolved) (Some period_start, period_end)])
    | _ => mret statuses
    end) [] (quotas resolved).

Definition size_statuses (usage : UsageReader) (workspace_id : Z) (signal : SignalKind) (resolved : ResolvedPolicy) :
    outcome ControlError (list (QuotaStatus F)) :=
  match size resolved with
  | Some (Size max_bytes _) =>
      observed_value ← read_usage (Enforcer.stored_compressed_bytes usage workspace_id signal);
      mret [quota_status (F := F) signal Store "size" max_bytes observed_value (hard_block_pct resolved) (None, None)]
  | _ => mret []
  end.

Definition get_quota_status (qs : QueryService F) (workspace_id : Z) (query_signal : option string) :
    outcome ControlError (list (QuotaStatus F)) :=
  resolve ← ok_or (policy_store qs) (Internal "Policy store is not configured");
  usage ← ok_or (usage_reader qs) (Internal "Usage reader is not configured");
  signals ← match query_signal with
            | Some signal => (λ s, [s]) <$> map_err InvalidInput (parse_signal signal)
            | None => Ok [Traces; Logs; Metrics]
            end;
  ofold (λ statuses signal,
    ingest ← quota_statuses usage workspace_id signal Ingest (resolve workspace_id signal Ingest);
    query ← quota_statuses usage workspace_id signal PolicyStore.Query (resolve workspace_id signal PolicyStore.Query);
    stored ← size_statuses usage workspace_id signal (resolve workspace_id signal Store);
    mret (statuses ++ ingest ++ query ++ stored)) [] signals.

(** [query.signal.as_deref().map(parse_signal_kind).transpose()?]. *)
Definition parse_optional_signal (signal : option string) : outcome ControlError (option SignalKind) :=
  match signal with Some s => Some <$> map_err InvalidInput (parse_signal s) | None => Ok None end.

Definition analytics_of (qs : QueryService F) : outcome ControlError (UsageAnalyticsReader F) :=
  ok_or (usage_analytics_reader qs) (Internal "Usage analytics reader is not configured").

Definition get_usage_daily (qs : QueryService F) (workspace_id : Z) (query : Api.SignalWindowQuery) : outcome ControlError (list UsageRecords.UsageDailyRecord) :=
  reader ← analytics_of qs;
  signal ← parse_optional_signal (Api.aw_signal query);
  map_err Internal (repo_usage_daily reader workspace_id signal (timestamp_micros <$> Api.aw_start_time query) (timestamp_micros <$> Api.aw_end_time query)).

Definition get_storage_usage_daily (qs : QueryService F) (workspace_id : Z) (query : Api.SignalWindowQuery) :
    outcome ControlError (list StorageUsageDaily) :=
  repo ← ok_or (storage_usage_repo qs) (Internal "Storage usage repository is not configured");
  signal ← parse_optional_signal (Api.aw_signal query);
  rows ← map_err Internal (repo workspace_id (signal ≫= signal_type_name) (timestamp_micros <$> Api.aw_start_time query)
    (timestamp_micros <$> Api.aw_end_time query));
  mret (map (λ row, mkUsageDay (uuid_to_string (sn_workspace_id row)) (sn_signal row) (sn_day row) (sn_compressed_bytes row)
    (sn_file_count row) (sn_captured_at row) (sn_estimated_today row)) rows).

(** The last minute by default, and the last hour. *)
Definition window_of (now : DateTime) (seconds : Z) (query : Api.SignalWindowQuery) : Z * Z :=
  (timestamp_micros (default (now - seconds * 1000000000) (Api.aw_start_time query)), timestamp_micros (default now (Api.aw_end_time query))).

Definition get_ingest_rate (qs : QueryService F) (now : DateTime) (workspace_id : Z) (query : Api.SignalWindowQuery) :
    outcome ControlError (list UsageRecords.IngestRateRecord) :=
  reader ← analytics_of qs;
  signal ← parse_optional_signal (Api.aw_signal query);
  let '(start, end_) := window_of now 60 query in
  map_err Internal (repo_ingest_rate reader workspace_id signal start end_).

Definition get_query_usage (qs : QueryService F) (now : DateTime) (workspace_id : Z) (query : Api.SignalWindowQuery) :
    outcome ControlError (list (UsageRecords.QueryUsageRecord F)) :=
  reader ← analytics_of qs;
  signal ← parse_optional_signal (Api.aw_signal query);
  let '(start, end_) := window_of now 3600 query in
  map_err Internal (repo_query_usage reader workspace_id signal start end_).
End Service.

(** The metadata repository over the tables of [FileList]. *)
Definition file_repo (db : FileDb) : FileListRepository :=
  mkFileListRepo (λ f, Ok (sum_compressed_size db f)) (λ f, Ok (query_files db f)).

(** ** What an answer goes through *)

Section Scoping.
Context {S E F : Type} `{Float F} `{FloatArith F} `{SerdeJson F} `{!StorageReader S E F} `{UuidText}.
Context (show_error : E → string) (retention_message : Z → string) (trim : string → string).
#[local] Existing Instance svc_bind.
#[local] Existing Instance svc_ret.
Implicit Types (s : S) (qs : QueryService F) (ck : RequestClock).

Definition decision_allows (d : Decision) : Prop := match d with Allow | AllowWithGrace _ => True | _ => False end.

(** The policy let the query through, with the bytes of the files it may read. *)
Definition policy_allows qs ck (ws : Z) (signal : SignalKind) (start_time end_time : option DateTime) : Prop :=
  ∃ est, estimate_scanned_bytes qs ws signal (timestamp_micros <$> start_time) (timestamp_micros <$> end_time) = Ok est ∧
    ∀ check, policy_enforcer qs = Some check →
      decision_allows (check (mkQueryCtx ws signal (timestamp_micros <$> start_time) (timestamp_micros <$> end_time) est (ck_policy_micros ck))).2.

(** A bounded request: its time range is there and begins no earlier than the
    retention of the workspace allows. A request without the bound has no time
    range, and the retention does not restrict it. *)
Definition retention_restricts qs ck (ws : Z) (bounded : bool) (tr : option TimeRange) : Prop :=
  if bounded then
    ∃ t, tr = Some t ∧ ∀ c strategy, enforcer qs = Some (c, strategy) → get_cutoff_ns c ws (ck_retention_ns ck) ≤ tr_start t
  else tr = None.

(** What bounds a request: for traces and spans either bound, for logs and
    metrics its end. *)
Definition either_bound (start_time end_time : option DateTime) : bool := bool_decide (is_Some start_time) || bool_decide (is_Some end_time).
Definition end_bound (end_time : option DateTime) : bool := bool_decide (is_Some end_time).

(** The usage samples among the events. *)
Definition recordings (events : list ServiceEvent) : list (Z * SignalKind * option Z) :=
  omap (λ e, match e with QueryRecorded q => Some (qs_workspace_id q, qs_signal q, qs_rows_scanned q) | PolicyEmitted _ => None end) events.

(** The page is the storage's answer to one filter that has [good]. *)
Definition answered_by {G X Y : Type} qs ck ws signal start_time end_time (op : S → G → S * outcome E (PaginatedResponse X))
    (convert : X → Y) (good : G → Prop) s s' (events : list ServiceEvent) (page : Api.PaginatedResponse Y) : Prop :=
  policy_allows qs ck ws signal start_time end_time ∧
  ∃ g res, good g ∧ op s g = (s', Ok res) ∧ page = api_page convert res ∧
    recordings events = if usage_tracker qs then [(ws, signal, Some (rows_scanned (pr_items res)))] else [].

Lemma svc_bind_Ok {A B : Type} (m : svc A) (f : A → svc B) s s' events b : (m ≫= f) s = (s', (events, Ok b)) →
  ∃ s1 ev1 a ev2, m s = (s1, (ev1, Ok a)) ∧ f a s1 = (s', (ev2, Ok b)) ∧ events = ev1 ++ ev2.
Proof.
  unfold mbind, svc_bind. destruct (m s) as [s1 [ev1 [a|e|]]]; [|done..]. destruct (f a s1) as [s2 [ev2 r]] eqn:Hf.
  intros [= -> <- ->]. by exists s1, ev1, a, ev2.
Qed.

Lemma svc_bind_step {A B : Type} (m : svc A) (f : A → svc B) s s1 s2 ev1 ev2 a r :
  m s = (s1, (ev1, Ok a)) → f a s1 = (s2, (ev2, r)) → (m ≫= f) s = (s2, (ev1 ++ ev2, r)).
Proof. intros Hm Hf. unfold mbind, svc_bind. by rewrite Hm, Hf. Qed.

Lemma lift_Ok {A : Type} (r : outcome ControlError A) s s' events a : lift r s = (s', (events, Ok a)) → s' = s ∧ events = [] ∧ r = Ok a.
Proof. unfold lift. by intros [= -> <- ->]. Qed.

Lemma storage_Ok {A : Type} context (op : S → S * outcome E A) s s' events a :
  storage show_error context op s = (s', (events, Ok a)) → op s = (s', Ok a) ∧ events = [].
Proof. unfold storage. destruct (op s) as [s1 [x|e|]]; [|done..]. by intros [= -> <- ->]. Qed.

Lemma record_Ok qs ck ws signal est n s s' events u : record_query_usage qs ck ws signal est n s = (s', (events, Ok u)) →
  s' = s ∧ recordings events = if usage_tracker qs then [(ws, signal, Some n)] else [].
Proof. unfold record_query_usage. destruct (usage_tracker qs); by intros [= -> <-]. Qed.

Lemma record_total qs ck ws signal est n s : ∃ events, record_query_usage qs ck ws signal est n s = (s, (events, Ok ())).
Proof. unfold record_query_usage. destruct (usage_tracker qs); by eexists. Qed.

(** Without a policy enforcer only the estimate can fail. *)
Lemma no_policy qs ck ws signal start_micros end_micros est s : policy_enforcer qs = None →
  estimate_scanned_bytes qs ws signal start_micros end_micros = Ok est →
  enforce_policy_query qs ck ws signal start_micros end_micros s = (s, ([], Ok est)).
Proof. intros Hp He. unfold enforce_policy_query. rewrite Hp, He. reflexivity. Qed.

Lemma recordings_app a b : recordings (a ++ b) = recordings a ++ recordings b.
Proof. apply omap_app. Qed.

Lemma recordings_policy events : recordings (map PolicyEmitted events) = [].
Proof. by induction events. Qed.

Lemma enforce_policy_Ok qs ck ws signal start_time end_time s s' events est :
  enforce_policy_query qs ck ws signal (timestamp_micros <$> start_time) (timestamp_micros <$> end_time) s = (s', (events, Ok est)) →
  s' = s ∧ recordings events = [] ∧ policy_allows qs ck ws signal start_time end_time.
Proof.
  unfold enforce_policy_query. intros (s1 & ev1 & est1 & ev2 & (-> & -> & Hest)%lift_Ok & Hk & ->)%svc_bind_Ok.
  destruct (policy_enforcer qs) as [check|] eqn:Hcheck.
  - destruct (check _) as [events decision] eqn:Hd.
    apply svc_bind_Ok in Hk as (s2 & ev3 & u & ev4 & Hemit & Hk & ->). injection Hemit as <- <- _. cbn [app].
    rewrite recordings_app, recordings_policy. split; [|split; [|exists est1; split; [done|]]].
    + destruct decision; by injection Hk.
    + destruct decision; by injection Hk as <- <-.
    + intros check' Hcheck'. rewrite Hcheck in Hcheck'. injection Hcheck' as <-. rewrite Hd. by destruct decision.
  - injection Hk as <- <- <-. split; [done|]. split; [done|]. exists est1. split; [done|]. intros check' Hc. by rewrite Hcheck in Hc.
Qed.

Lemma enforce_start_cutoff qs ck ws start z : enforce_start retention_message qs ws (ck_retention_ns ck) start = Ok z →
  ∀ c strategy, enforcer qs = Some (c, strategy) → get_cutoff_ns c ws (ck_retention_ns ck) ≤ z.
Proof.
  unfold enforce_start. intros Hz c strategy Hc. rewrite Hc in Hz.
  destruct (enforce_query c strategy ws (ck_retention_ns ck) start) as [[eff r]|d|] eqn:He; [|done..]. injection Hz as <-.
  by apply enforce_query_start in He.
Qed.

Lemma open_range_restricted qs ck ws start z start_time end_time : enforce_start retention_message qs ws (ck_retention_ns ck) start = Ok z →
  retention_restricts qs ck ws (either_bound start_time end_time) (open_time_range ck z start_time end_time).
Proof.
  intros Hz. pose proof (enforce_start_cutoff _ _ _ _ _ Hz) as Hcut. unfold retention_restricts, either_bound.
  destruct start_time, end_time; cbn; try done; eexists; (split; [reflexivity|exact Hcut]).
Qed.

Lemma closed_range_restricted qs ck ws start z end_time : enforce_start retention_message qs ws (ck_retention_ns ck) start = Ok z →
  retention_restricts qs ck ws (end_bound end_time) (closed_time_range z end_time).
Proof.
  intros Hz. pose proof (enforce_start_cutoff _ _ _ _ _ Hz) as Hcut. unfold retention_restricts, end_bound.
  destruct end_time; cbn; [|done]. eexists. split; [reflexivity|exact Hcut].
Qed.

(** The tail all list queries share. *)
Lemma storage_then_record {G X Y : Type} qs ck ws signal start_time end_time op (convert : X → Y) (good : G → Prop) g est s1 s s' ev1 ev2 page :
  policy_allows qs ck ws signal start_time end_time → recordings ev1 = [] → s1 = s → good g →
  (result ← storage show_error "Storage error" (λ s, op s g);
   _ ← record_query_usage qs ck ws signal est (rows_scanned (pr_items result));
   mret (api_page convert result)) s1 = (s', (ev2, Ok page)) →
  answered_by qs ck ws signal start_time end_time op convert good s s' (ev1 ++ ev2) page.
Proof.
  intros Hpol Hev -> Hg (s2 & ev3 & res & ev4 & (Hop & ->)%storage_Ok & Hk & ->)%svc_bind_Ok.
  apply svc_bind_Ok in Hk as (s3 & ev5 & u & ev6 & (-> & Hrec)%record_Ok & Hret & ->). injection Hret as <- <- <-.
  split; [done|]. exists g, res. split; [done|]. split; [done|]. split; [done|].
  by rewrite !recordings_app, Hev, Hrec, app_nil_r.
Qed.

(** Every page a list query returns is the storage's answer to one filter: that
    filter names the workspace of the caller and no other, the policy allowed
    the query, and with a usage tracker exactly one sample is sent, with the
    number of items. The retention restricts a request for traces or spans that
    gives either bound, and one for logs or metrics that gives an end: the
    filter's time range then begins no earlier than the cutoff. Any other
    request has no time range at all. *)
Theorem list_queries_scoped qs ck ws s s' events :
  (∀ f page, query_traces show_error retention_message qs ck ws f s = (s', (events, Ok page)) →
    answered_by qs ck ws Traces (Api.at_start_time f) (Api.at_end_time f) sr_query_traces trace_summary
      (λ g, tq_workspace_id g = Some ws ∧ retention_restricts qs ck ws (either_bound (Api.at_start_time f) (Api.at_end_time f)) (tq_time_range g)) s s' events page) ∧
  (∀ f page, query_spans show_error retention_message trim qs ck ws f s = (s', (events, Ok page)) →
    answered_by qs ck ws Traces (Api.as_start_time f) (Api.as_end_time f) sr_query_spans span_detail
      (λ g, sq_workspace_id g = Some ws ∧ retention_restricts qs ck ws (either_bound (Api.as_start_time f) (Api.as_end_time f)) (sq_time_range g)) s s' events page) ∧
  (∀ f page, query_logs show_error retention_message qs ck ws f s = (s', (events, Ok page)) →
    answered_by qs ck ws Logs (Api.al_start_time f) (Api.al_end_time f) sr_query_logs log_detail
      (λ g, lq_workspace_id g = Some ws ∧ retention_restricts qs ck ws (end_bound (Api.al_end_time f)) (lq_time_range g)) s s' events page) ∧
  (∀ f page, query_metrics show_error retention_message qs ck ws f s = (s', (events, Ok page)) →
    answered_by qs ck ws Metrics (Api.am_start_time f) (Api.am_end_time f) sr_query_metrics metric_detail
      (λ g, mq_workspace_id g = Some ws ∧ retention_restricts qs ck ws (end_bound (Api.am_end_time f)) (mq_time_range g)) s s' events page).
Proof.
  split; [|split; [|split]]; intros f page.
  1,3,4: intros (s1 & ev1 & est & ev2 & (-> & Hr & Hpol)%enforce_policy_Ok & Hk & ->)%svc_bind_Ok;
    apply svc_bind_Ok in Hk as (s2 & ev3 & z & ev4 & (-> & -> & Hz)%lift_Ok & Hk & ->); eapply storage_then_record;
    [done|done|done| |exact Hk].
  - split; [done|]. by eapply open_range_restricted.
  - split; [done|]. by eapply closed_range_restricted.
  - split; [done|]. by eapply closed_range_restricted.
  - intros (s1 & ev1 & est & ev2 & (-> & Hr & Hpol)%enforce_policy_Ok & Hk & ->)%svc_bind_Ok.
    apply svc_bind_Ok in Hk as (s2 & ev3 & z & ev4 & (-> & -> & Hz)%lift_Ok & Hk & ->).
    apply svc_bind_Ok in Hk as (s3 & ev5 & types & ev6 & (-> & -> & Ht)%lift_Ok & Hk & ->).
    eapply storage_then_record; [done|done|done| |exact Hk].
    split; [done|]. by eapply open_range_restricted.
Qed.
End Scoping.

(** ** Further facts about the operations *)

Section Operations.
Context {S E F : Type} `{Float F} `{FloatArith F} `{SerdeJson F} `{!StorageReader S E F} `{UuidText}.
Context (show_error : E → string) (retention_message : Z → string) (trim : string → string).
#[local] Existing Instance svc_bind.
#[local] Existing Instance svc_ret.
#[local] Existing Instance usage_order_dec.
Implicit Types (s : S) (qs : QueryService F) (ck : RequestClock).

(** A request for logs with a start and no end: the start is dropped, and the
    retention with it; the answer is that of a request without bounds. *)
Theorem start_without_end_ignored qs ck ws (f : Api.LogQueryFilters) s :
  Api.al_end_time f = None → policy_enforcer qs = None → file_list_repo qs = None → (∀ c, enforcer qs ≠ Some (c, RejectQuery)) →
  query_logs show_error retention_message qs ck ws f s =
  query_logs show_error retention_message qs ck ws
    (Api.mkLogFilters None None (Api.al_severity f) (Api.al_service_name f) (Api.al_trace_id f) (Api.al_search_text f)
      (Api.al_agent_name f) (Api.al_session_id f) (Api.al_limit f) (Api.al_offset f)) s.
Proof.
  intros Hend Hpol Hrepo Hclamp.
  assert (∀ start, ∃ z, enforce_start retention_message qs ws (ck_retention_ns ck) start = Ok z) as Hstart.
  { intros start. unfold enforce_start. destruct (enforcer qs) as [[c [|]]|]; [|by destruct (Hclamp c)|by eexists].
    unfold enforce_query. destruct start as [t|]; [destruct (t <? _)|]; cbn; by eexists. }
  unfold query_logs, enforce_policy_query, estimate_scanned_bytes. rewrite Hrepo, Hpol. cbn [Api.al_start_time Api.al_end_time Api.al_limit].
  destruct (Hstart (Api.al_start_time f ≫= timestamp_nanos_opt)) as [z ->], (Hstart (None ≫= timestamp_nanos_opt)) as [z' ->].
  assert (log_storage_filters ws z f = log_storage_filters ws z' (Api.mkLogFilters None None (Api.al_severity f) (Api.al_service_name f)
    (Api.al_trace_id f) (Api.al_search_text f) (Api.al_agent_name f) (Api.al_session_id f) (Api.al_limit f) (Api.al_offset f))) as Hsame.
  { unfold log_storage_filters. cbn. by rewrite Hend. }
  unfold mbind, svc_bind, lift, mret, svc_ret. cbn [fst snd app]. by rewrite Hsame.
Qed.

(** A negative limit asks for a page of billions. *)
Theorem negative_limit_wraps l offset : - 2 ^ 32 ≤ l < 0 → pg_limit (api_pagination (Some l) offset) = Some (2 ^ 32 + l).
Proof.
  intros Hl. unfold api_pagination, u32_of_i64. cbn [pg_limit default from_option id]. f_equal.
  rewrite <-(Z.mod_add l 1) by lia. rewrite Z.mod_small; lia.
Qed.

(** The detail of a trace adds the durations of its spans up, so a child counts
    again within its parent: a trace of a span and a child as long as it is
    shown as lasting twice as long. *)
Theorem trace_detail_sums_durations ws trace_id (root child : Span F) s s' :
  sr_get_trace_detail s ws trace_id = (s', Ok (Some [root; child])) → sp_duration_ns child = sp_duration_ns root →
  0 ≤ 2 * sp_duration_ns root ≤ i64_max →
  get_trace show_error ws trace_id s =
    (s', ([], Ok (mkTraceDetail trace_id (sp_timestamp root) (Z.quot (2 * sp_duration_ns root) 1000000) (map span_detail [root; child])))).
Proof.
  intros Hget Hdur Hrange.
  assert (i64_wrap (zsum (map sp_duration_ns [root; child])) = 2 * sp_duration_ns root) as Hsum.
  { cbn [map]. rewrite Hdur, !zsum_cons, zsum_nil. rewrite i64_wrap_small by (unfold i64_min in *; lia).
    lia. }
  unfold get_trace, storage, mbind, svc_bind. rewrite Hget. cbn [map_err app]. by rewrite Hsum.
Qed.

(** *** The totals of storage usage *)

Lemma i64_wrap_add a b : i64_wrap (i64_wrap a + b) = i64_wrap (a + b).
Proof.
  unfold i64_wrap. f_equal. replace ((a + 2 ^ 63) mod 2 ^ 64 - 2 ^ 63 + b + 2 ^ 63) with ((a + 2 ^ 63) mod 2 ^ 64 + b) by lia.
  rewrite Z.add_mod_idemp_l by lia. f_equal. lia.
Qed.

Definition usage_key (e : FileListEntry) : string * string := (fe_signal_type e, fe_location e).

(** The usage of a group of files. *)
Definition usage_of (ws : Z) (k : string * string) (files : list FileListEntry) : StorageUsage :=
  mkStorageUsage (uuid_to_string ws) k.1 k.2 (i64_wrap (zlen files)) (i64_wrap (zsum (map fe_records files)))
    (i64_wrap (zsum (map fe_original_size files))) (i64_wrap (zsum (map fe_compressed_size files))).

Definition keyed (k : string * string) (files : list FileListEntry) : list FileListEntry := filter (λ e, usage_key e = k) files.

Lemma usage_of_snoc ws k files e : usage_of ws k (files ++ [e]) =
  let u := usage_of ws k files in
  mkStorageUsage (us_workspace_id u) (us_signal_type u) (us_location u) (i64_wrap (us_file_count u + 1)) (i64_wrap (us_records u + fe_records e))
    (i64_wrap (us_original_size u + fe_original_size e)) (i64_wrap (us_compressed_size u + fe_compressed_size e)).
Proof.
  unfold usage_of. cbn. rewrite !map_app, !zsum_app, length_app. cbn [map length]. rewrite !zsum_cons, zsum_nil, !Z.add_0_r, !i64_wrap_add.
  do 3 f_equal. lia.
Qed.

Lemma grouped_usage ws files : Forall (λ e, fe_workspace_id e = ws) files → ∀ k,
  foldl add_file ∅ files !! k = match keyed k files with [] => None | l => Some (usage_of ws k l) end.
Proof.
  induction files as [|e files IH] using rev_ind; intros Hws k; [done|]. apply Forall_app in Hws as [Hws He%Forall_inv].
  specialize (IH Hws). rewrite foldl_app. cbn [foldl]. unfold add_file at 1. fold (usage_key e). unfold keyed in *. rewrite filter_app, filter_cons, filter_nil.
  destruct (decide (usage_key e = k)) as [<-|Hk].
  - rewrite lookup_insert_eq, IH.
    assert (∀ l, match l ++ [e] with [] => None | l => Some (usage_of ws (usage_key e) l) end = Some (usage_of ws (usage_key e) (l ++ [e]))) as ->
      by by intros [].
    rewrite usage_of_snoc. destruct (filter _ files) as [|e0 l]; [|done]. cbn in *. by rewrite He.
  - rewrite lookup_insert_ne by done. rewrite IH, app_nil_r. done.
Qed.

#[local] Instance usage_order_trans : Transitive usage_order.
Proof.
  intros a b c [Hab|[Hab Hl]] [Hbc|[Hbc Hl']]; unfold usage_order.
  - left. by etrans.
  - left. by rewrite <-Hbc.
  - left. by rewrite Hab.
  - right. split; [by etrans|]. destruct Hl as [Hl| ->]; [|done]. left. destruct Hl' as [Hl'|<-]; [by etrans|done].
Qed.

Lemma key_lt_cases a b : key_lt a b ∨ a = b ∨ key_lt b a.
Proof.
  unfold key_lt. destruct (String.compare a b) eqn:Hc; [right; left; by apply String.compare_eq_iff|by left|].
  right. right. by rewrite String.compare_antisym, Hc.
Qed.

#[local] Instance usage_order_total : Total usage_order.
Proof.
  intros a b. unfold usage_order.
  destruct (key_lt_cases (us_signal_type a) (us_signal_type b)) as [?|[?|?]]; [by left; left| |by right; left].
  destruct (key_lt_cases (us_location a) (us_location b)) as [?|[?|?]]; eauto 6.
Qed.

Lemma usage_filter_workspace ws f e : matches (usage_filter ws f) e = true → fe_workspace_id e = ws.
Proof. unfold matches. cbn [usage_filter ff_workspace_id when_some]. rewrite !andb_true_iff, Z.eqb_eq. by intros [[[[[[He _] _] _] _] _] _]. Qed.

Lemma usage_of_perm ws k l l' : l ≡ₚ l' → usage_of ws k l = usage_of ws k l'.
Proof. intros Hp. unfold usage_of. assert (∀ g, zsum (map g l) = zsum (map g l')) as Hsum.
  { intros g. by apply zsum_Permutation, (fmap_Permutation g). }
  by rewrite !Hsum, (Permutation_length Hp). Qed.

(** The storage usage report is the live files of the workspace that match the
    request, by signal and location: one row for each pair that has a file, in
    the order of the names, with the number of its files and the sums of their
    records and sizes, as 64-bit integers add. *)
Theorem storage_usage_totals qs (db : FileDb) ws (f : Api.StorageUsageQuery) :
  file_list_repo qs = Some (file_repo db) →
  let files k := keyed k (filter (λ e, matches (usage_filter ws f) e = true) (rows_list db)) in
  ∃ usage, get_storage_usage qs ws f = Ok usage ∧ StronglySorted usage_order usage ∧
    ∀ u, u ∈ usage ↔ ∃ k, files k ≠ [] ∧ u = usage_of ws k (files k).
Proof.
  intros Hrepo files. unfold get_storage_usage. rewrite Hrepo. cbn [ok_or file_repo repo_query_files]. ostep.
  set (found := query_files db (usage_filter ws f)). eexists. split; [reflexivity|]. split.
  - apply (StronglySorted_merge_sort usage_order).
  - intros u. rewrite merge_sort_Permutation, list_elem_of_fmap.
    assert (Forall (λ e, fe_workspace_id e = ws) found) as Hws.
    { apply Forall_forall. intros e [Hm _]%elem_of_query_files. by eapply usage_filter_workspace. }
    assert (∀ k, keyed k found ≡ₚ files k) as Hperm.
    { intros k. unfold keyed, files, found, query_files. by rewrite merge_sort_Permutation. }
    split.
    + intros ([k v] & -> & Hk%elem_of_map_to_list). rewrite (grouped_usage ws found Hws) in Hk. exists k. cbn [snd].
      rewrite <-(usage_of_perm ws k _ _ (Hperm k)). destruct (keyed k found) as [|e l] eqn:He; [done|]. injection Hk as <-.
      split; [|done]. intros Hnil. specialize (Hperm k). rewrite Hnil in Hperm. apply Permutation_nil_r in Hperm. congruence.
    + intros (k & Hne & ->). exists (k, usage_of ws k (files k)). split; [done|]. apply elem_of_map_to_list.
      rewrite (grouped_usage ws found Hws), <-(usage_of_perm ws k _ _ (Hperm k)).
      destruct (keyed k found) as [|e l] eqn:He; [|done]. specialize (Hperm k). rewrite He in Hperm. by apply Permutation_nil_l in Hperm.
Qed.
End Operations.

(** ** Log queries, from the request to the files *)

Section EndToEnd.
Context {F R E C : Type} `{UuidText} `{Float F} `{FloatArith F} `{SerdeJson F} `{Arrow F} `{!ArrowLaws F} `{!SqlEngine R E F}.
Context `{LruCache C (FileData R)} `{SqlRow R}.
Context (byte_size : FileData R → Z) (hash : string → Z) (canonicalize : string → string) (cache_dir : string).
Context (to_uppercase to_lowercase : string → string) (to_rfc3339 : Z → string).
Context (show_error : AnalyticsError (E := E) → string) (retention_message : Z → string).
Context (used_key : string → Prop).
Context (used_key_inj : ∀ k1 k2, used_key k1 → used_key k2 → cache_file_name k1 = cache_file_name k2 → k1 = k2).
Context (byte_size_range : ∀ d, 0 ≤ byte_size d < 2 ^ 63).
Context (uuid_plain : ∀ w, plain (uuid_to_string w)).
#[local] Instance reader_storage : StorageReader (ReaderState (R := R) (C := C)) (AnalyticsError (E := E)) F :=
  parquet_storage byte_size hash canonicalize cache_dir to_uppercase to_lowercase to_rfc3339.
Abbreviation service_query_logs := (query_logs (S := ReaderState (R := R) (C := C)) (F := F) show_error retention_message).

Lemma matching_in (st : ParquetWriter.Store R) ws f (r : R) : r ∈ matching st "logs" (log_conds ws f) →
  workspace_of r = uuid_to_string ws ∧ (∀ t, lq_time_range f = Some t → tr_start t ≤ ts_of r ≤ tr_end t).
Proof.
  unfold matching. rewrite list_elem_of_filter. intros [[_ Hsat] _]. destruct (scoped_logs hash canonicalize cache_dir ws f) as [Hws Htr]. split.
  - pose proof (satisfies_elem _ _ _ Hsat Hws) as Hh. unfold workspace_cond in Hh. rewrite holds_workspace in Hh. by apply bool_decide_eq_true in Hh.
  - intros t Ht. rewrite Ht in Htr. split; apply Z.leb_le.
    + rewrite <-holds_ge. apply (satisfies_elem (log_conds ws f)); [done|]. apply Htr. by left.
    + rewrite <-holds_le. apply (satisfies_elem (log_conds ws f)); [done|]. apply Htr. right. by left.
Qed.

(** C5: A log query over HTTP or gRPC, down to the files. Without a policy enforcer
    and with readable metadata, the answer is the page of the visible log rows
    of the caller's workspace that meet the request's conditions, newest first,
    with their number as the total. Each is a row of that workspace; if the
    request has an end, none is later than it or earlier than the start it
    asked for and than the workspace's retention allows. *)
Theorem service_logs_answers (log_of : R → LogRecord) `{!EngineLaws "logs" log_arrow_schema log_columns log_of}
    qs ck ws (f : Api.LogQueryFilters) (s : ReaderState (R := R) (C := C)) envs1 envs2 t0 te est start :
  policy_enforcer qs = None →
  estimate_scanned_bytes qs ws Logs (timestamp_micros <$> Api.al_start_time f) (timestamp_micros <$> Api.al_end_time f) = Ok est →
  enforce_start retention_message qs ws (ck_retention_ns ck) (Api.al_start_time f ≫= timestamp_nanos_opt) = Ok start →
  env_at s 0 = quiet_env envs1 → env_at s 1 = quiet_env envs2 →
  at_rest byte_size used_key (rd_world s) (signal_file_filter ws "logs" (closed_time_range start (Api.al_end_time f))) t0 te envs1 envs2 →
  let '(limit, offset) := pagination_values (api_pagination (Api.al_limit f) (Api.al_offset f)) in
  let answer := matching (wd_store (rd_world s)) "logs" (log_conds ws (log_storage_filters ws start f)) in
  ∃ s' events sorted,
    service_query_logs qs ck ws f s =
      (s', (events, Ok (Api.mkResponse (map (log_detail ∘ log_of) (page_of (Some limit) (Some offset) sorted)) (zlen answer) 0 limit))) ∧
    wd_store (rd_world s') = wd_store (rd_world s) ∧ sorted ≡ₚ answer ∧ ordered (Some true) sorted ∧
    ∀ r, r ∈ sorted → workspace_of r = uuid_to_string ws ∧
      ∀ t, Api.al_end_time f = Some t → start ≤ ts_of r ≤ default 0 (timestamp_nanos_opt t) ∧
        ∀ c strategy, enforcer qs = Some (c, strategy) → get_cutoff_ns c ws (ck_retention_ns ck) ≤ ts_of r.
Proof.
  intros Hpol Hest Hstart He0 He1 Hrest.
  pose proof (query_logs_answers byte_size hash canonicalize cache_dir used_key used_key_inj byte_size_range uuid_plain log_of
    (rd_world s) (log_storage_filters ws start f) ws envs1 envs2 t0 te eq_refl Hrest) as Hans.
  change (lq_pagination (log_storage_filters ws start f)) with (api_pagination (Api.al_limit f) (Api.al_offset f)) in Hans.
  destruct (pagination_values _) as [limit offset]. destruct Hans as (w' & sorted & Hw & Hperm & Hord & Hq).
  set (answer := matching _ _ _) in *.
  assert (i64_wrap (zlen answer) = zlen answer) as Hlen.
  { apply i64_wrap_small. destruct Hrest as (_ & _ & Hsmall & _). pose proof (length_filter (λ r, signal_of r = "logs" ∧
      satisfies (log_conds ws (log_storage_filters ws start f)) r = true) (visible (wd_store (rd_world s)))).
    subst answer. unfold matching, i64_min, i64_max. lia. }
  set (s' := mkReaderState w' (λ i, rd_envs s (2 + i)%nat)). set (page := mkPage _ _ _ _) in Hq.
  destruct (record_total qs ck ws Logs est (rows_scanned (pr_items page)) s') as [events Hrec].
  exists s', ([] ++ [] ++ [] ++ events ++ []), sorted. split; [|split; [|split; [|split]]]; [|exact Hw|exact Hperm|exact Hord|].
  - eapply svc_bind_step; [by apply no_policy|]. eapply svc_bind_step; [by rewrite Hstart|].
    eapply svc_bind_step; [unfold storage; cbn [sr_query_logs reader_storage parquet_storage]; unfold plain_read, run_reader; rewrite He0, He1, Hq; reflexivity|].
    eapply svc_bind_step; [exact Hrec|]. unfold mret, svc_ret, api_page. cbn [page pr_items pr_total pr_limit].
    by rewrite map_map, Hlen.
  - intros r Hr. rewrite Hperm in Hr. apply matching_in in Hr as [Hws Ht]. split; [done|]. intros t Hend.
    assert (start ≤ ts_of r ≤ default 0 (timestamp_nanos_opt t)) as Hrange.
    { apply (Ht (mkTimeRange start (default 0 (timestamp_nanos_opt t)))). cbn. by rewrite Hend. }
    split; [exact Hrange|]. intros c strategy Hc. pose proof (enforce_start_cutoff retention_message qs ck ws _ start Hstart c strategy Hc). lia.
Qed.
End EndToEnd.

(** ** Witnesses *)

Section Witnesses.
#[local] Existing Instance list_lru.
#[local] Existing Instance chrono_concrete.
#[local] Existing Instance uuid_concrete.
#[local] Existing Instance query_arrays.
#[local] Existing Instance query_arrays_laws.
#[local] Existing Instance sample_rows.
#[local] Existing Instance sample_engine.
#[local] Existing Instance Otlp.Sample.sample_float.
#[local] Existing Instance Otlp.Sample.sample_json.
#[local] Instance sample_arith : FloatArith Z :=
  {| f_add := Z.add; f_mul := Z.mul; f_lt := Z.ltb; f_le := Z.leb; f_eqb := Z.eqb; f_to_i64 z := z |}.

(** A storage that knows one log and one trace, and counts its calls. *)
Definition one_page {X : Type} (l : list X) : PaginatedResponse X := mkPage l 1 100 0.
Definition child_span (d : Z) : Span Z := (span_default 0 0) <| sp_duration_ns := d |>.
#[local] Instance canned_storage : StorageReader nat unit Z := {|
  sr_query_traces n _ := (S n, Ok (one_page []));
  sr_get_trace_detail n _ _ := (S n, Ok (Some [child_span 5000000; child_span 5000000]));
  sr_query_spans n _ := (S n, Ok (one_page []));
  sr_get_span n _ _ := (S n, Ok None);
  sr_query_logs n _ := (S n, Ok (one_page [sample_log 12]));
  sr_get_log n _ _ := (S n, Ok None);
  sr_query_metrics n _ := (S n, Ok (one_page []));
  sr_query_metric_series n _ := (S n, Ok []);
  sr_query_analytics n _ _ := (S n, Ok []);
  sr_get_daily_trace_counts n _ _ _ := (S n, Ok []);
  sr_get_metrics_summary n _ _ _ := (S n, Err ());
  sr_get_guardrails_analytics n _ := (S n, Err ());
|}.

(** Retention of a day, clamping, and a usage tracker. *)
Definition day_service : QueryService Z :=
  mkQueryService None (Some (retention_new 1, Clamp)) None true None None None None.
Definition day_clock : RequestClock := mkClock 0 (86400 * 1000000000 + 4900) 0 7 8.
Definition info_logs (end_time : option DateTime) : Api.LogQueryFilters :=
  Api.mkLogFilters (Some 100) end_time (Some "INFO") None None None None None (Some 1) None.

Lemma list_queries_scoped_witness :
  answered_by day_service day_clock 3 Logs (Some 100) (Some 5010) sr_query_logs log_detail
    (λ g, lq_workspace_id g = Some 3 ∧ retention_restricts day_service day_clock 3 true (lq_time_range g)) 0%nat 1%nat
    [QueryRecorded (mkQuerySample 3 Logs 0 (Some 1) (Some 7) SumAllow 8)] (Api.mkResponse [log_detail (sample_log 12)] 1 0 100).
Proof.
  destruct (list_queries_scoped (F := Z) (λ _, "") (λ _, "") (λ x, x) day_service day_clock 3 0%nat 1%nat
    [QueryRecorded (mkQuerySample 3 Logs 0 (Some 1) (Some 7) SumAllow 8)]) as (_ & _ & Hlogs & _).
  apply (Hlogs (info_logs (Some 5010))). vm_compute. reflexivity.
Defined.

Lemma start_without_end_ignored_witness :
  query_logs (F := Z) (λ _, "") (λ _, "") day_service day_clock 3 (info_logs None) 0%nat =
  query_logs (F := Z) (λ _, "") (λ _, "") day_service day_clock 3
    (Api.mkLogFilters None None (Some "INFO") None None None None None (Some 1) None) 0%nat.
Proof. apply (start_without_end_ignored (λ _, "") (λ _, "") day_service day_clock 3 (info_logs None) 0%nat); done. Defined.

Lemma negative_limit_wraps_witness : pg_limit (api_pagination (Some (-1)) None) = Some 4294967295.
Proof. apply (negative_limit_wraps (-1) None). lia. Defined.

Lemma trace_detail_sums_durations_witness :
  get_trace (F := Z) (λ _, "") 3 "t" 0%nat = (1%nat, ([], Ok (mkTraceDetail "t" 0 10 (map span_detail [child_span 5000000; child_span 5000000])))).
Proof.
  apply (trace_detail_sums_durations (λ _, "") 3 "t" (child_span 5000000) (child_span 5000000) 0%nat 1%nat); [reflexivity|reflexivity|].
  vm_compute. by split.
Defined.

Lemma storage_usage_totals_witness : ∃ usage,
  get_storage_usage (F := Z) (mkQueryService (Some (file_repo (st_db mixed_store))) None None false None None None None) 3 (Api.mkStorageQuery None None None None) = Ok usage ∧
  StronglySorted usage_order usage.
Proof.
  destruct (storage_usage_totals (F := Z) (mkQueryService (Some (file_repo (st_db mixed_store))) None None false None None None None) (st_db mixed_store) 3
    (Api.mkStorageQuery None None None None) eq_refl) as (usage & Hu & Hs & _). exists usage. split; [exact Hu|exact Hs].
Defined.

Definition mixed_state : ReaderState (R := Z) (C := list (string * FileData Z)) := mkReaderState mixed_world (λ _, quiet_env quiet_envs).

Lemma service_logs_answers_witness : ∃ s' events,
  query_logs (S := ReaderState (R := Z) (C := list (string * FileData Z))) (F := Z)
    (StorageReader0 := parquet_storage ten_bytes zero_hash same_path "/cache" id id (λ _, "")) (λ _, "") (λ _, "")
    day_service day_clock 3 (info_logs (Some 5010)) mixed_state =
    (s', (events, Ok (Api.mkResponse [log_detail (sample_log 12)] 2 0 1))).
Proof.
  destruct (service_logs_answers (F := Z) ten_bytes zero_hash same_path "/cache" id id (λ _, "") (λ _, "") (λ _, "") only_moved_key only_moved_key_inj
    ten_bytes_range unary_plain sample_log (EngineLaws0 := model_engine_laws sample_log) day_service day_clock 3 (info_logs (Some 5010)) mixed_state
    quiet_envs quiet_envs 10 20 None 4900 eq_refl eq_refl eq_refl eq_refl eq_refl mixed_at_rest)
    as (s' & events & sorted & Hq & _ & Hperm & Hord & _).
  exists s', events. refine (eq_trans Hq _). clear Hq.
  assert (matching (wd_store (rd_world mixed_state)) "logs" (log_conds 3 (log_storage_filters 3 4900 (info_logs (Some 5010)))) = [12; 10]) as Hm
    by (vm_compute; reflexivity).
  rewrite Hm in *. apply symmetry, Permutation_length_2_inv in Hperm as [->| ->]; [reflexivity|].
  exfalso. apply StronglySorted_inv in Hord as [_ Hord]. rewrite Forall_forall in Hord. specialize (Hord 12 ltac:(by left)). by apply Hord.
Defined.
End Witnesses.
