(* ===== verification/ServiceAnalytics.v ===== *)
(** The grouped analytics of the query service: [api/src/telemetry/service.rs],
    from [get_analytics] to [get_guardrails_analytics].

    Each endpoint joins the answers of several aggregations of the storage, which
    are by day as well as by group. The aggregations of one endpoint run
    concurrently in the source; here they run in the order they are written,
    one of the orders they may take effect in. *)

From stdpp Require Import base gmap list strings sorting.
From S2P Require Import Prelude Authorize FileList WriteBuffer TelemetryWriter ParquetWriter Compactor Lease Retention PolicyStore Enforcer PgUsage PgUsageWorker.
From S2P Require Import StorageUsage Reclaimer Paths FileMover MemoryCache DiskCache Reader Sql Arrow Models Schema SpanSchema TelemetryReader.
From S2P Require Import ListQueries Otlp Analytics ApiTypes QueryService.

(** ** Answers *)

Record AnalyticsResult (F : Type) := mkAnalyticsResult { ax_timestamp : string; ax_value : F; ax_groups : option (gmap string string) }.
Arguments mkAnalyticsResult {F}.
Record TopEndpoint (F : Type) := mkTopEndpoint {
  te_operation_name : string;
  te_service_name : string;
  te_count : Z;
  te_avg_duration_ms : F;
  te_p95_duration_ms : option F;
  te_error_rate : F;
}.
Arguments mkTopEndpoint {F}.
Arguments te_count {F}.
Record ErrorBreakdown (F : Type) := mkErrorBreakdown { eb_error_type : string; eb_count : Z; eb_percentage : F }.
Arguments mkErrorBreakdown {F}.
Arguments eb_error_type {F}.
Arguments eb_count {F}.
Record LlmAnalytics (F : Type) := mkLlm {
  la_llm_model : string;
  la_request_count : Z;
  la_total_tokens : F;
  la_total_cost_usd : F;
  la_avg_duration_ms : F;
}.
Arguments mkLlm {F}.
Arguments la_llm_model {F}.
Arguments la_request_count {F}.
Arguments la_total_tokens {F}.
Record AgentAnalytics (F : Type) := mkAgent {
  ag_agent_name : string;
  ag_agent_type : option string;
  ag_span_count : Z;
  ag_error_count : Z;
  ag_total_tokens : F;
  ag_avg_duration_ms : F;
}.
Arguments mkAgent {F}.
Record DatabaseAnalytics (F : Type) := mkDatabase {
  da_db_system_name : string;
  da_db_operation_name : option string;
  da_request_count : Z;
  da_avg_duration_ms : F;
  da_error_count : Z;
}.
Arguments mkDatabase {F}.

(** ** The endpoints *)

Section Endpoints.
Context {S E F : Type} `{Float F} `{FloatArith F} `{!StorageReader S E F}.
Context (show_error show_chain : E → string) (trim : string → string) (to_rfc3339 : Z → string).
#[local] Existing Instance svc_bind.
#[local] Existing Instance svc_ret.

(** The range of an analytics query: seven days to [now] by default. *)
Definition analytics_range (now : DateTime) (query : Api.AnalyticsQuery) : Z * Z :=
  let end_ := match Api.aa_end query with Some d => default 0 (timestamp_nanos_opt d) | None => default 0 (timestamp_nanos_opt now) end in
  let start := match Api.aa_start query with Some d => default 0 (timestamp_nanos_opt d) | None => i64_wrap (end_ - 7 * 24 * 60 * 60 * 1000000000) end in
  (start, end_).

Definition analytics_call (context : string) (workspace_id start end_ : Z) (metric : string) (group_by : list string)
    (filters : list (string * string)) : svc (S := S) (list (AnalyticsDataPoint F)) :=
  storage show_error context (λ s, sr_query_analytics s workspace_id (mkAnalyticsQueryFilters workspace_id start end_ metric group_by filters)).

Definition analytics_result (p : AnalyticsDataPoint F) : AnalyticsResult F :=
  mkAnalyticsResult (to_rfc3339 (Z.quot (dp_bucket_ts p) 1000000000)) (dp_value p)
    (if decide (dp_groups p = ∅) then None else Some (dp_groups p)).

Definition get_analytics (now : DateTime) (workspace_id : Z) (query : Api.AnalyticsQuery) : svc (S := S) (list (AnalyticsResult F)) :=
  let '(start, end_) := analytics_range now query in
  let group_by_vec := match Api.aa_group_by query with Some s => comma_list trim s | None => [] end in
  let has_group_by := negb (bool_decide (group_by_vec = [])) in
  let has_metric := match Api.aa_metric query with Some m => negb (String.eqb m "trace_count") | None => false end in
  let has_filters := match Api.aa_filters query with Some f => negb (bool_decide (f = [])) | None => false end in
  if has_group_by || has_metric || has_filters then
    points ← analytics_call "Analytics error" workspace_id start end_ (default "trace_count" (Api.aa_metric query)) group_by_vec
      (default [] (Api.aa_filters query));
    mret (map analytics_result points)
  else
    points ← storage show_error "Storage error" (λ s, sr_get_daily_trace_counts s workspace_id start end_);
    mret (map (λ p, mkAnalyticsResult (tp_timestamp p) (tp_value p) None) points).

Definition service_metrics_summary (now : DateTime) (workspace_id : Z) (query : Api.AnalyticsQuery) : svc (S := S) (MetricsSummary F) :=
  let '(start, end_) := analytics_range now query in
  storage show_error "Storage error" (λ s, sr_get_metrics_summary s workspace_id start end_).

(** [groups.get(key).cloned().unwrap_or_default()]. *)
Definition group_or_empty (p : AnalyticsDataPoint F) (key : string) : string := default "" (dp_groups p !! key).

(** [sort_by_key(Reverse(count))], a stable sort. *)
Fixpoint insert_endpoint (e : TopEndpoint F) (l : list (TopEndpoint F)) : list (TopEndpoint F) :=
  match l with
  | [] => [e]
  | x :: l => if te_count x <? te_count e then e :: x :: l else x :: insert_endpoint e l
  end.
Definition sort_endpoints (l : list (TopEndpoint F)) : list (TopEndpoint F) := foldl (λ acc e, insert_endpoint e acc) [] l.

Definition top_endpoint (durations errors : list (AnalyticsDataPoint F)) (point : AnalyticsDataPoint F) : TopEndpoint F :=
  let operation_name := group_or_empty point "span_name" in
  let service_name := group_or_empty point "service_name" in
  let error_count := find_endpoint_group_value errors service_name operation_name in
  mkTopEndpoint operation_name service_name (f_to_i64 (dp_value point)) (find_endpoint_group_value durations service_name operation_name) None
    (if f_lt f_zero (dp_value point) then f_div error_count (dp_value point) else f_zero).

Definition get_top_endpoints (workspace_id : Z) (query : Api.TopNQuery) : svc (S := S) (list (TopEndpoint F)) :=
  let limit := Z.to_nat (Z.max (default 10 (Api.an_n query)) 1) in
  let start := default 0 (timestamp_nanos_opt (Api.an_start_time query)) in
  let end_ := default 0 (timestamp_nanos_opt (Api.an_end_time query)) in
  let call metric := analytics_call "Analytics error" workspace_id start end_ metric ["service_name"; "span_name"] [] in
  points ← call "span_count";
  durations ← call "avg_duration_ms";
  errors ← call "error_count";
  mret (take limit (sort_endpoints (map (top_endpoint durations errors) points))).

Definition get_error_breakdown (workspace_id : Z) (query : Api.ErrorAnalyticsQuery) : svc (S := S) (list (ErrorBreakdown F)) :=
  let filters := ("status_code", "ERROR") :: match Api.ar_service_name query with Some s => [("service_name", s)] | None => [] end in
  points ← analytics_call "Analytics error" workspace_id (default 0 (timestamp_nanos_opt (Api.ar_start_time query)))
    (default 0 (timestamp_nanos_opt (Api.ar_end_time query))) "error_count" ["service_name"] filters;
  let total := foldl f_add f_zero (map dp_value points) in
  mret (map (λ point, mkErrorBreakdown (group_or_empty point "service_name") (f_to_i64 (dp_value point))
    (if f_lt f_zero total then f_mul (f_div (dp_value point) total) (f_of_Z 100) else f_zero)) points).

Definition llm_row (tokens costs durations : list (AnalyticsDataPoint F)) (point : AnalyticsDataPoint F) : LlmAnalytics F :=
  let llm_model := group_or_empty point "llm_model" in
  mkLlm llm_model (f_to_i64 (dp_value point)) (find_group_value tokens "llm_model" llm_model)
    (find_group_value costs "llm_model" llm_model) (find_group_value durations "llm_model" llm_model).

Definition get_llm_analytics (now : DateTime) (workspace_id : Z) (query : Api.AnalyticsQuery) : svc (S := S) (list (LlmAnalytics F)) :=
  let '(start, end_) := analytics_range now query in
  let call metric := analytics_call "Analytics error" workspace_id start end_ metric ["llm_model"] [] in
  requests ← call "span_count";
  tokens ← call "total_tokens";
  costs ← call "total_cost_usd";
  durations ← call "avg_duration_ms";
  mret (map (llm_row tokens costs durations) requests).

Definition agent_row (errors tokens durations : list (AnalyticsDataPoint F)) (point : AnalyticsDataPoint F) : AgentAnalytics F :=
  let agent_name := group_or_empty point "agent_name" in
  let agent_type := dp_groups point !! "agent_type" in
  mkAgent agent_name agent_type (f_to_i64 (dp_value point)) (f_to_i64 (find_agent_group_value errors agent_name agent_type))
    (find_agent_group_value tokens agent_name agent_type) (find_agent_group_value durations agent_name agent_type).

Definition get_agent_analytics (now : DateTime) (workspace_id : Z) (query : Api.AnalyticsQuery) : svc (S := S) (list (AgentAnalytics F)) :=
  let '(start, end_) := analytics_range now query in
  let call metric := analytics_call "Analytics error" workspace_id start end_ metric ["agent_name"] [] in
  spans ← call "span_count";
  errors ← call "error_count";
  tokens ← call "total_tokens";
  durations ← call "avg_duration_ms";
  mret (map (agent_row errors tokens durations) spans).

Definition database_row (errors durations : list (AnalyticsDataPoint F)) (point : AnalyticsDataPoint F) : DatabaseAnalytics F :=
  let db_system_name := group_or_empty point "db_system_name" in
  let db_operation_name := dp_groups point !! "db_operation_name" in
  mkDatabase db_system_name db_operation_name (f_to_i64 (dp_value point)) (find_db_group_value durations db_system_name db_operation_name)
    (f_to_i64 (find_db_group_value errors db_system_name db_operation_name)).

Definition get_database_analytics (now : DateTime) (workspace_id : Z) (query : Api.AnalyticsQuery) : svc (S := S) (list (DatabaseAnalytics F)) :=
  let '(start, end_) := analytics_range now query in
  let call metric := analytics_call "Analytics error" workspace_id start end_ metric ["db_system_name"; "db_operation_name"] [("span_type", "DATABASE")] in
  spans ← call "span_count";
  errors ← call "error_count";
  durations ← call "avg_duration_ms";
  mret (map (database_row errors durations) spans).

(** [{e:#}] writes the chain of causes. *)
Definition service_guardrails (now : DateTime) (workspace_id : Z) (query : Api.AnalyticsQuery) : svc (S := S) (GuardrailsAnalyticsResult F) :=
  let '(start, end_) := analytics_range now query in
  storage show_chain "Guardrails analytics error" (λ s, sr_get_guardrails_analytics s (mkGuardrailsFilters workspace_id start end_)).
End Endpoints.

(** ** What the endpoints answer *)

Section Answers.
Context {S E F : Type} `{Float F} `{FloatArith F} `{!StorageReader S E F}.
Context (show_error : E → string).

Lemma insert_endpoint_perm (e : TopEndpoint F) l : insert_endpoint e l ≡ₚ e :: l.
Proof.
  induction l as [|x l IH]; [done|]. cbn [insert_endpoint]. destruct (te_count x <? te_count e); [done|]. rewrite IH. apply perm_swap.
Qed.

Definition by_count (a b : TopEndpoint F) : Prop := te_count b ≤ te_count a.

Lemma insert_endpoint_sorted (e : TopEndpoint F) l : StronglySorted by_count l → StronglySorted by_count (insert_endpoint e l).
Proof.
  induction 1 as [|x l Hl IH Hx]; [repeat constructor|]. cbn [insert_endpoint]. destruct (Z.ltb_spec (te_count x) (te_count e)).
  - repeat constructor; [done|done|unfold by_count; lia|]. eapply Forall_impl; [exact Hx|]. intros y. unfold by_count. lia.
  - constructor; [done|]. rewrite insert_endpoint_perm. constructor; [done|done].
Qed.

Lemma sort_endpoints_spec (l : list (TopEndpoint F)) : sort_endpoints l ≡ₚ l ∧ StronglySorted by_count (sort_endpoints l).
Proof.
  induction l as [|e l [Hp Hs]] using rev_ind; [split; [done|constructor]|]. unfold sort_endpoints in *. rewrite foldl_app. cbn [foldl]. split.
  - rewrite insert_endpoint_perm, Hp. by rewrite Permutation_app_comm.
  - by apply insert_endpoint_sorted.
Qed.

Lemma sorted_app_split {A : Type} (R : A → A → Prop) (l k : list A) : StronglySorted R (l ++ k) →
  StronglySorted R l ∧ ∀ x y, x ∈ l → y ∈ k → R x y.
Proof.
  induction l as [|a l IH]; [split; [constructor|]; by intros x y ?%elem_of_nil|]. cbn [app]. intros [Hs Ha]%StronglySorted_inv.
  apply Forall_app in Ha as [Hl Hk]. destruct (IH Hs) as [Hsl Hlk]. split; [by constructor|]. intros x y [->|Hx]%elem_of_cons Hy.
  - rewrite Forall_forall in Hk. by apply Hk.
  - by apply Hlk.
Qed.

(** The top endpoints are the ones with the most spans: the rows come by falling
    count, no more than asked for and at least one when there is any, and no
    endpoint left out has a larger count than one that is in. *)
Theorem top_endpoints_ranked ws query s s' events rows :
  get_top_endpoints show_error ws query s = (s', (events, Ok rows)) →
  ∃ points durations errors rest,
    rows ++ rest ≡ₚ map (top_endpoint durations errors) points ∧ StronglySorted by_count rows ∧
    zlen rows = Z.min (Z.max (default 10 (Api.an_n query)) 1) (zlen points) ∧ ∀ r x, r ∈ rows → x ∈ rest → te_count x ≤ te_count r.
Proof.
  unfold get_top_endpoints. cbv zeta. intros (s1 & ev1 & points & ev2 & _ & Hk & _)%svc_bind_Ok.
  apply svc_bind_Ok in Hk as (s2 & ev3 & durations & ev4 & _ & Hk & _). apply svc_bind_Ok in Hk as (s3 & ev5 & errors & ev6 & _ & Hk & _).
  injection Hk as _ _ <-. set (all := map (top_endpoint durations errors) points). set (n := Z.to_nat _).
  destruct (sort_endpoints_spec all) as [Hp Hs]. rewrite <-(take_drop n (sort_endpoints all)) in Hp, Hs.
  apply sorted_app_split in Hs as [Hs Hrest]. exists points, durations, errors, (drop n (sort_endpoints all)).
  split; [done|]. split; [done|]. split; [|exact Hrest]. rewrite length_take.
  assert (length (sort_endpoints all) = length points) as ->.
  { rewrite (Permutation_length (proj1 (sort_endpoints_spec all))). apply length_map. }
  subst n. lia.
Qed.

(** The aggregations are by day, and the LLM report does not join the days: it
    has one row for each day of each model, each with its day's requests, but
    with the tokens, costs and durations of the model's first point in all of
    them. *)
Theorem llm_rows_repeat_first_day now ws query s s' events rows :
  get_llm_analytics show_error now ws query s = (s', (events, Ok rows)) →
  ∃ s1 requests,
    sr_query_analytics s ws (mkAnalyticsQueryFilters ws (analytics_range now query).1 (analytics_range now query).2 "span_count" ["llm_model"] [])
      = (s1, Ok requests) ∧
    map la_request_count rows = map (λ p, f_to_i64 (dp_value p)) requests ∧
    map la_llm_model rows = map (λ p, group_or_empty p "llm_model") requests ∧
    ∀ r r', r ∈ rows → r' ∈ rows → la_llm_model r = la_llm_model r' →
      la_total_tokens r = la_total_tokens r' ∧ la_total_cost_usd F r = la_total_cost_usd F r' ∧ la_avg_duration_ms F r = la_avg_duration_ms F r'.
Proof.
  unfold get_llm_analytics. destruct (analytics_range now query) as [start end_]. cbn [fst snd].
  intros (s1 & ev1 & requests & ev2 & Hreq & Hk & _)%svc_bind_Ok. unfold analytics_call in Hreq. apply storage_Ok in Hreq as [Hreq _].
  apply svc_bind_Ok in Hk as (s2 & ev3 & tokens & ev4 & _ & Hk & _). apply svc_bind_Ok in Hk as (s3 & ev5 & costs & ev6 & _ & Hk & _).
  apply svc_bind_Ok in Hk as (s4 & ev7 & durations & ev8 & _ & Hk & _). injection Hk as _ _ <-.
  exists s1, requests. split; [exact Hreq|]. rewrite !map_map. split; [done|]. split; [done|].
  intros r r' (p & <- & _)%list_elem_of_In%in_map_iff (p' & <- & _)%list_elem_of_In%in_map_iff. cbn. by intros ->.
Qed.
End Answers.

(** ** The endpoints over the Parquet reader *)

Section OverParquet.
Context {F R E C : Type} `{UuidText} `{Float F} `{FloatArith F} `{Arrow F} `{!SqlEngine R E F} `{LruCache C (FileData R)}.
Context (byte_size : FileData R → Z) (hash : string → Z) (canonicalize : string → string) (cache_dir : string).
Context (to_uppercase to_lowercase : string → string) (to_rfc3339 : Z → string).
Context (show_error : AnalyticsError (E := E) → string) (trim : string → string).
#[local] Instance analytics_storage : StorageReader (ReaderState (R := R) (C := C)) (AnalyticsError (E := E)) F :=
  parquet_storage byte_size hash canonicalize cache_dir to_uppercase to_lowercase to_rfc3339.

(** The database analytics never answer: the columns they group by are not in
    the reader's list of dimensions, so every request is an internal error and
    no file is read. *)
Theorem database_analytics_fail now ws query (s : ReaderState (R := R) (C := C)) : ∃ s',
  get_database_analytics show_error now ws query s =
    (s', ([], Err (Internal ("Analytics error: " +:+ show_error (UnsupportedDimension "db_system_name"))))) ∧ rd_world s' = rd_world s.
Proof. unfold get_database_analytics. destruct (analytics_range now query) as [start end_]. eexists. split; reflexivity. Qed.

(** An empty [group_by] is one empty name, not none: the request fails. *)
Theorem empty_group_by_fails now ws query e (s : ReaderState (R := R) (C := C)) :
  trim "" = "" → Api.aa_group_by query = Some "" → metric_expr (default "trace_count" (Api.aa_metric query)) = Some e → ∃ s',
  get_analytics show_error trim to_rfc3339 now ws query s =
    (s', ([], Err (Internal ("Analytics error: " +:+ show_error (UnsupportedDimension ""))))).
Proof.
  intros Htrim Hg Hm. unfold get_analytics. destruct (analytics_range now query) as [start end_]. eexists. rewrite Hg.
  unfold comma_list. cbn [split_on map]. rewrite Htrim. cbn [orb negb bool_decide].
  unfold analytics_call, storage, mbind, svc_bind. cbn [sr_query_analytics analytics_storage parquet_storage].
  unfold run_reader, query_analytics. cbn [aq_metric aq_group_by]. rewrite Hm. reflexivity.
Qed.
End OverParquet.

(** ** Witnesses *)

Section Witnesses.
#[local] Existing Instance list_lru.
#[local] Existing Instance chrono_concrete.
#[local] Existing Instance uuid_concrete.
#[local] Existing Instance query_arrays.
#[local] Existing Instance agents_engine.
#[local] Existing Instance Otlp.Sample.sample_float.
#[local] Existing Instance sample_arith.

Definition model_point (day n : Z) : AnalyticsDataPoint Z := mkDataPoint (day * day_ns) n {[ "llm_model" := "m" ]}.

(** A storage that answers the aggregations of two days: 3 and 4 spans, 30 and
    40 of every other metric. *)
#[local] Instance two_day_storage : StorageReader nat unit Z := {|
  sr_query_traces n _ := (n, Err ());
  sr_get_trace_detail n _ _ := (n, Err ());
  sr_query_spans n _ := (n, Err ());
  sr_get_span n _ _ := (n, Err ());
  sr_query_logs n _ := (n, Err ());
  sr_get_log n _ _ := (n, Err ());
  sr_query_metrics n _ := (n, Err ());
  sr_query_metric_series n _ := (n, Err ());
  sr_query_analytics n _ f := (S n, Ok (if String.eqb (aq_metric f) "span_count" then [model_point 0 3; model_point 1 4]
                                        else [model_point 0 30; model_point 1 40]));
  sr_get_daily_trace_counts n _ _ _ := (n, Err ());
  sr_get_metrics_summary n _ _ _ := (n, Err ());
  sr_get_guardrails_analytics n _ := (n, Err ());
|}.

Definition any_time : Api.AnalyticsQuery := Api.mkAnalyticsQuery (Some 0) (Some 9) None None None.
Definition first_day_rows : list (LlmAnalytics Z) := [mkLlm "m" 3 30 30 30; mkLlm "m" 4 30 30 30].

Lemma llm_rows_repeat_first_day_witness :
  ∃ s1 requests, sr_query_analytics 0%nat 3 (mkAnalyticsQueryFilters 3 0 9 "span_count" ["llm_model"] []) = (s1, Ok requests) ∧
    map la_request_count first_day_rows = map (λ p, f_to_i64 (dp_value p)) requests.
Proof.
  destruct (llm_rows_repeat_first_day (λ _, "") 0 3 any_time 0%nat 4%nat [] first_day_rows) as (s1 & requests & Hq & Hc & _).
  - vm_compute. reflexivity.
  - exists s1, requests. split; [exact Hq|exact Hc].
Defined.

Lemma top_endpoints_ranked_witness : ∃ rows : list (TopEndpoint Z), StronglySorted by_count rows ∧ length rows = 1%nat.
Proof.
  destruct (top_endpoints_ranked (λ _, "") 3 (Api.mkTopNQuery 0 9 (Some 1)) 0%nat 3%nat [] [mkTopEndpoint "" "" 4 0 None 0])
    as (points & durations & errors & rest & _ & Hs & _).
  - vm_compute. reflexivity.
  - eexists. split; [exact Hs|reflexivity].
Defined.

Lemma empty_group_by_fails_witness : ∃ s',
  get_analytics (StorageReader0 := parquet_storage (λ _, 10) (λ _, 0) (λ p, p) "/cache" id id (λ _, "")) (λ _, "refused") id (λ _, "") 0 3
    (Api.mkAnalyticsQuery None None None (Some "") None) (mkReaderState span_world (λ _, idle_env)) =
    (s', ([], Err (Internal "Analytics error: refused"))).
Proof.
  apply (empty_group_by_fails (λ _, 10) (λ _, 0) (λ p, p) "/cache" id id (λ _, "") (λ _, "refused") id 0 3
    (Api.mkAnalyticsQuery None None None (Some "") None) "COUNT(DISTINCT trace_id)" (mkReaderState span_world (λ _, idle_env))); reflexivity.
Defined.
End Witnesses.
