(* ===== verification/ApiProto.v ===== *)
(** The messages of the query gRPC API and their translation to and from the
    types of the service: [api/src/grpc/conversions.rs], with the messages of
    [proto/zradar/query/v1/query.proto].

    Each message is a record of its own. A reply that only wraps a list of
    messages is that list here; the workspace a request names is left out,
    because no conversion that is used reads it. *)

From stdpp Require Import base gmap list strings.
From Stdlib Require Import Ascii.
From S2P Require Import Prelude Compactor PolicyStore Export Authorize Models Otlp TelemetryReader Analytics ApiTypes QueryService ServiceAnalytics.

(** ** Times *)

(** [prost_types::Timestamp]. *)
Record Timestamp := mkTimestamp { pt_seconds : Z; pt_nanos : Z }.

(** [DateTime::from_timestamp] of chrono, with its documented behaviour: every
    second a [DateTime] can hold, with its nanoseconds; no nanoseconds of two
    seconds or more. *)
Class ChronoTime := {
  from_timestamp : Z → Z → option DateTime;
  datetime_range : Z → Prop;
  from_timestamp_ok secs nsecs : datetime_range secs → 0 ≤ nsecs < 1000000000 → from_timestamp secs nsecs = Some (secs * 1000000000 + nsecs);
  from_timestamp_nanos secs nsecs : 2000000000 ≤ nsecs → from_timestamp secs nsecs = None;
}.

(** The cast of an [i32] to [u32]. *)
Definition u32_of_nanos (z : Z) : Z := z mod 2 ^ 32.

Section Times.
Context `{ChronoTime}.

Definition proto_timestamp_to_datetime (ts : Timestamp) : option DateTime := from_timestamp (pt_seconds ts) (u32_of_nanos (pt_nanos ts)).
Definition optional_proto_timestamp (ts : option Timestamp) : option DateTime := ts ≫= proto_timestamp_to_datetime.
End Times.

Definition datetime_to_proto (dt : DateTime) : Timestamp := mkTimestamp (dt / 1000000000) (dt mod 1000000000).

Record ProtoTimeRange := mkProtoRange { px_start : option Timestamp; px_end : option Timestamp }.
Definition proto_time_range `{ChronoTime} (tr : ProtoTimeRange) : option DateTime * option DateTime :=
  (optional_proto_timestamp (px_start tr), optional_proto_timestamp (px_end tr)).

(** [req.time_range.as_ref().map(proto_time_range).unwrap_or((None, None))]. *)
Definition request_range `{ChronoTime} (tr : option ProtoTimeRange) : option DateTime * option DateTime :=
  default (None, None) (proto_time_range <$> tr).

(** ** Errors *)

(** The text of the database error goes into the message. *)
Definition map_control_error (e : ControlError) : Status :=
  match e with
  | Database err => status InternalError ("Database error: " +:+ err)
  | NotFound msg => status CodeNotFound msg
  | Unauthorized msg => status Unauthenticated msg
  | Forbidden msg => status PermissionDenied msg
  | InvalidInput msg => status InvalidArgument msg
  | Internal msg => status InternalError msg
  end.

(** ** Pagination *)

Record PaginationRequest := mkPaginationRequest { pq_limit : Z; pq_offset : Z }.

Definition pagination_limit_offset (pagination : option PaginationRequest) : Z * Z :=
  match pagination with
  | Some p => (if 0 <? pq_limit p then pq_limit p else 100, pq_offset p)
  | None => (100, 0)
  end.

(** [req.pagination.as_ref().map(|p| p.offset).unwrap_or(0)]. *)
Definition request_offset (pagination : option PaginationRequest) : Z := default 0 (pq_offset <$> pagination).

(** [i32] from an [i64], by truncation. *)
Definition i32_of_i64 (z : Z) : Z := (z + 2 ^ 31) mod 2 ^ 32 - 2 ^ 31.

(** ** Requests *)

Module Pb.
Record QueryTracesRequest := mkQueryTracesRequest {
  pt_time_range : option ProtoTimeRange;
  pt_service_name : option string;
  pt_operation_name : option string;
  pt_status : option string;
  pt_min_duration_ms : option Z;
  pt_max_duration_ms : option Z;
  pt_llm_model : option string;
  pt_llm_provider : option string;
  pt_llm_response_model : option string;
  pt_agent_name : option string;
  pt_session_id : option string;
  pt_rail_type : option string;
  pt_action_name : option string;
  pt_workflow_run_id : option string;
  pt_framework : option string;
  pt_tool_name : option string;
  pt_invocation_id : option string;
  pt_environment : option string;
  pt_pagination : option PaginationRequest;
}.

Record QuerySpansRequest := mkQuerySpansRequest {
  ps_trace_id : option string;
  ps_time_range : option ProtoTimeRange;
  ps_service_name : option string;
  ps_operation_name : option string;
  ps_span_types : list string;
  ps_status : option string;
  ps_llm_model : option string;
  ps_llm_provider : option string;
  ps_llm_response_model : option string;
  ps_agent_name : option string;
  ps_session_id : option string;
  ps_rail_type : option string;
  ps_action_name : option string;
  ps_workflow_run_id : option string;
  ps_framework : option string;
  ps_tool_name : option string;
  ps_invocation_id : option string;
  ps_environment : option string;
  ps_pagination : option PaginationRequest;
}.

Record QueryLogsRequest := mkQueryLogsRequest {
  pl_time_range : option ProtoTimeRange;
  pl_severity : option string;
  pl_service_name : option string;
  pl_trace_id : option string;
  pl_search_text : option string;
  pl_agent_name : option string;
  pl_session_id : option string;
  pl_pagination : option PaginationRequest;
}.

Record QueryMetricsRequest := mkQueryMetricsRequest {
  pm_time_range : option ProtoTimeRange;
  pm_metric_name : option string;
  pm_service_name : option string;
  pm_agent_name : option string;
  pm_pagination : option PaginationRequest;
}.

Record QueryMetricSeriesRequest := mkQueryMetricSeriesRequest {
  pe_metric_name : string;
  pe_time_range : option ProtoTimeRange;
  pe_interval_seconds : option Z;
  pe_aggregation : option string;
  pe_service_name : option string;
}.

(** [GetAnalyticsRequest], [GetLlmAnalyticsRequest] and [GetAgentAnalyticsRequest]
    have the same fields; the map in the order it iterates in. *)
Record AnalyticsRequest := mkAnalyticsRequest {
  pa_start : option Timestamp;
  pa_end : option Timestamp;
  pa_metric : option string;
  pa_group_by : list string;
  pa_filters : list (string * string);
}.

(** [GetMetricsSummaryRequest] and [GetGuardrailsAnalyticsRequest]. *)
Record RangeRequest := mkRangeRequest { pr_start : option Timestamp; pr_end : option Timestamp }.
Record GetTopEndpointsRequest := mkTopEndpointsRequest { pn_start_time : option Timestamp; pn_end_time : option Timestamp; pn_n : option Z }.
Record GetErrorBreakdownRequest := mkErrorBreakdownRequest {
  pb_start_time : option Timestamp;
  pb_end_time : option Timestamp;
  pb_service_name : option string;
}.
Record GetStorageUsageRequest := mkStorageUsageRequest {
  pu_start_time : option Timestamp;
  pu_end_time : option Timestamp;
  pu_signal_type : option string;
  pu_location : option string;
}.
(** The requests of daily storage usage, daily usage, ingest rate and query
    usage. *)
Record SignalWindowRequest := mkSignalWindowRequest { pw_signal : option string; pw_start_time : option Timestamp; pw_end_time : option Timestamp }.

(** *** Replies *)

Record TraceSummary := mkPbTraceSummary {
  rt_trace_id : string;
  rt_start_time : option Timestamp;
  rt_duration_ms : Z;
  rt_service_name : string;
  rt_operation_name : string;
  rt_status : string;
  rt_span_count : Z;
}.

Record SpanDetail (F : Type) := mkPbSpanDetail {
  rs_span_id : string;
  rs_trace_id : string;
  rs_parent_span_id : option string;
  rs_service_name : string;
  rs_operation_name : string;
  rs_span_type : string;
  rs_start_time : option Timestamp;
  rs_duration_ms : Z;
  rs_status : string;
  rs_agent_name : option string;
  rs_agent_type : option string;
  rs_session_id : option string;
  rs_llm_model : option string;
  rs_llm_provider : option string;
  rs_llm_response_model : option string;
  rs_llm_input : option string;
  rs_llm_output : option string;
  rs_prompt_tokens : option Z;
  rs_completion_tokens : option Z;
  rs_total_tokens : option Z;
  rs_prompt_cost_usd : option F;
  rs_completion_cost_usd : option F;
  rs_total_cost_usd : option F;
  rs_tool_name : option string;
  rs_tool_call_id : option string;
  rs_rail_type : option string;
  rs_rail_name : option string;
  rs_rail_stop : option bool;
  rs_action_name : option string;
  rs_workflow_run_id : option string;
  rs_framework : option string;
  rs_llm_cache_hit : option bool;
  rs_llm_response_id : option string;
  rs_environment : option string;
  rs_db_system_name : option string;
  rs_db_namespace : option string;
  rs_db_operation_name : option string;
  rs_db_query_text : option string;
  rs_db_query_summary : option string;
  rs_db_collection_name : option string;
  rs_db_response_status_code : option string;
  rs_agent_id : option string;
  rs_agent_description : option string;
  rs_agent_task_id : option string;
  rs_agent_task_parent_id : option string;
  rs_agent_task_name : option string;
  rs_agent_task_kind : option string;
  rs_agent_task_state : option string;
  rs_agent_task_status : option string;
  rs_memory_type : option string;
  rs_memory_key : option string;
  rs_mcp_tool_name : option string;
  rs_mcp_server_name : option string;
  rs_mcp_tool_input : option string;
  rs_mcp_tool_output : option string;
  rs_agent_version : option string;
  rs_sdk_version : option string;
  rs_evaluation_name : option string;
  rs_evaluation_explanation : option string;
  rs_evaluation_passed : option Z;
  rs_model_parameters_json : option string;
  rs_events_json : option string;
  rs_links_json : option string;
  rs_attributes : gmap string string;
}.

Record LogDetail := mkPbLogDetail {
  rl_id : string;
  rl_timestamp : option Timestamp;
  rl_severity : string;
  rl_service_name : string;
  rl_message : string;
  rl_trace_id : option string;
  rl_span_id : option string;
  rl_agent_name : option string;
  rl_session_id : option string;
  rl_user_id : option string;
  rl_attributes : gmap string string;
}.

Record MetricDetail (F : Type) := mkPbMetricDetail {
  rm_metric_name : string;
  rm_metric_type : string;
  rm_timestamp : option Timestamp;
  rm_service_name : string;
  rm_value : F;
  rm_count : Z;
  rm_sum : F;
  rm_min : F;
  rm_max : F;
  rm_labels : gmap string string;
}.

Record MetricSeriesPoint (F : Type) := mkPbSeriesPoint { re_timestamp : option Timestamp; re_value : F }.
Record TraceDetail (F : Type) := mkPbTraceDetail {
  rd_trace_id : string;
  rd_start_time : option Timestamp;
  rd_duration_ms : Z;
  rd_spans : list (SpanDetail F);
}.

(** The four pages have the same fields. *)
Record Page (X : Type) := mkPbPage { rp_items : list X; rp_total_count : Z; rp_limit : Z; rp_offset : Z }.
Record AnalyticsResult (F : Type) := mkPbAnalyticsResult { rr_timestamp : string; rr_value : F; rr_groups : gmap string string }.
Record QuotaStatus (F : Type) := mkPbQuotaStatus {
  rq_signal : string;
  rq_operation : string;
  rq_limit_kind : string;
  rq_limit_value : Z;
  rq_observed_value : Z;
  rq_pct_consumed : F;
  rq_status : string;
  rq_period_start : option Z;
  rq_period_end : option Z;
  rq_projected_exhaustion_at : option Z;
}.

Record MetricsSummary (F : Type) := mkPbMetricsSummary {
  rz_total_traces : Z;
  rz_error_rate : F;
  rz_p50_latency : F;
  rz_p90_latency : F;
  rz_p99_latency : F;
}.

Record TopEndpoint (F : Type) := mkPbTopEndpoint {
  rn_operation_name : string;
  rn_service_name : string;
  rn_count : Z;
  rn_avg_duration_ms : F;
  rn_p95_duration_ms : option F;
  rn_error_rate : F;
}.

Record ErrorBreakdown (F : Type) := mkPbErrorBreakdown { rb_error_type : string; rb_count : Z; rb_percentage : F }.

Record LlmAnalytics (F : Type) := mkPbLlm {
  rx_llm_model : string;
  rx_request_count : Z;
  rx_total_tokens : F;
  rx_total_cost_usd : F;
  rx_avg_duration_ms : F;
}.

Record AgentAnalytics (F : Type) := mkPbAgent {
  ra_agent_name : string;
  ra_agent_type : option string;
  ra_span_count : Z;
  ra_error_count : Z;
  ra_total_tokens : F;
  ra_avg_duration_ms : F;
}.

Record RailTypeBreakdown (F : Type) := mkPbRailType { ry_rail_type : string; ry_count : Z; ry_halted : Z; ry_halt_rate : F }.
Record RailNameStat := mkPbRailName { rk_rail_name : string; rk_rail_type : string; rk_halts : Z; rk_total : Z }.
Record GuardrailsAnalytics (F : Type) := mkPbGuardrails {
  rg_total_requests : Z;
  rg_halted_requests : Z;
  rg_halt_rate : F;
  rg_by_rail_type : list (RailTypeBreakdown F);
  rg_top_halting_rails : list RailNameStat;
}.

Record StorageUsage := mkPbStorageUsage {
  ru_workspace_id : string;
  ru_signal_type : string;
  ru_location : string;
  ru_file_count : Z;
  ru_records : Z;
  ru_original_size : Z;
  ru_compressed_size : Z;
}.

Record StorageUsageDaily := mkPbStorageUsageDaily {
  rv_workspace_id : string;
  rv_signal : string;
  rv_day : string;
  rv_compressed_bytes : Z;
  rv_file_count : Z;
  rv_captured_at : Z;
  rv_estimated_today : bool;
}.

Record UsageDailyRecord := mkPbUsageDaily {
  rw_workspace_id : string;
  rw_signal : string;
  rw_operation : string;
  rw_day : string;
  rw_used_bytes : Z;
  rw_records : Z;
  rw_query_count : Z;
  rw_file_count : Z;
}.

Record IngestRateRecord := mkPbIngestRate {
  ri_workspace_id : string;
  ri_signal : string;
  ri_records_per_sec : Z;
  ri_bytes_per_sec : Z;
  ri_window_start_micros : Z;
  ri_window_end_micros : Z;
}.

Record QueryUsageRecord (F : Type) := mkPbQueryUsage {
  rj_workspace_id : string;
  rj_signal : string;
  rj_bytes_scanned : Z;
  rj_rows_scanned : Z;
  rj_query_count : Z;
  rj_avg_query_time_ms : option F;
  rj_window_start_micros : Z;
  rj_window_end_micros : Z;
}.
End Pb.
Arguments Pb.mkPbMetricDetail {F}.
Arguments Pb.mkPbSeriesPoint {F}.
Arguments Pb.mkPbTraceDetail {F}.
Arguments Pb.mkPbPage {X}.
Arguments Pb.mkPbAnalyticsResult {F}.
Arguments Pb.mkPbQuotaStatus {F}.
Arguments Pb.mkPbMetricsSummary {F}.
Arguments Pb.mkPbTopEndpoint {F}.
Arguments Pb.mkPbErrorBreakdown {F}.
Arguments Pb.mkPbLlm {F}.
Arguments Pb.mkPbAgent {F}.
Arguments Pb.mkPbRailType {F}.
Arguments Pb.mkPbGuardrails {F}.
Arguments Pb.mkPbQueryUsage {F}.

(** *** From the requests *)

Section Requests.
Context `{ChronoTime}.

Definition trace_filters_from_request (req : Pb.QueryTracesRequest) : Api.TraceQueryFilters :=
  let '(start_time, end_time) := request_range (Pb.pt_time_range req) in
  let '(limit, offset) := pagination_limit_offset (Pb.pt_pagination req) in
  {|
    Api.at_start_time := start_time;
    Api.at_end_time := end_time;
    Api.at_service_name := Pb.pt_service_name req;
    Api.at_operation_name := Pb.pt_operation_name req;
    Api.at_min_duration_ms := u64_to_i64_saturating <$> Pb.pt_min_duration_ms req;
    Api.at_max_duration_ms := u64_to_i64_saturating <$> Pb.pt_max_duration_ms req;
    Api.at_status := Pb.pt_status req;
    Api.at_llm_model := Pb.pt_llm_model req;
    Api.at_llm_provider := Pb.pt_llm_provider req;
    Api.at_llm_response_model := Pb.pt_llm_response_model req;
    Api.at_agent_name := Pb.pt_agent_name req;
    Api.at_session_id := Pb.pt_session_id req;
    Api.at_rail_type := Pb.pt_rail_type req;
    Api.at_action_name := Pb.pt_action_name req;
    Api.at_workflow_run_id := Pb.pt_workflow_run_id req;
    Api.at_framework := Pb.pt_framework req;
    Api.at_tool_name := Pb.pt_tool_name req;
    Api.at_invocation_id := Pb.pt_invocation_id req;
    Api.at_environment := Pb.pt_environment req;
    Api.at_limit := Some limit;
    Api.at_offset := Some offset;
  |}.

Definition span_filters_from_request (req : Pb.QuerySpansRequest) : Api.SpanQueryFilters :=
  let '(start_time, end_time) := request_range (Pb.ps_time_range req) in
  let '(limit, offset) := pagination_limit_offset (Pb.ps_pagination req) in
  {|
    Api.as_trace_id := Pb.ps_trace_id req;
    Api.as_start_time := start_time;
    Api.as_end_time := end_time;
    Api.as_service_name := Pb.ps_service_name req;
    Api.as_operation_name := Pb.ps_operation_name req;
    Api.as_span_type := None;
    Api.as_span_types := match Pb.ps_span_types req with [] => None | types => Some (String.concat "," types) end;
    Api.as_status := Pb.ps_status req;
    Api.as_llm_model := Pb.ps_llm_model req;
    Api.as_llm_provider := Pb.ps_llm_provider req;
    Api.as_llm_response_model := Pb.ps_llm_response_model req;
    Api.as_agent_name := Pb.ps_agent_name req;
    Api.as_session_id := Pb.ps_session_id req;
    Api.as_rail_type := Pb.ps_rail_type req;
    Api.as_action_name := Pb.ps_action_name req;
    Api.as_workflow_run_id := Pb.ps_workflow_run_id req;
    Api.as_framework := Pb.ps_framework req;
    Api.as_tool_name := Pb.ps_tool_name req;
    Api.as_invocation_id := Pb.ps_invocation_id req;
    Api.as_environment := Pb.ps_environment req;
    Api.as_min_duration_ms := None;
    Api.as_max_duration_ms := None;
    Api.as_db_system_name := None;
    Api.as_db_operation_name := None;
    Api.as_limit := Some limit;
    Api.as_offset := Some offset;
  |}.

Definition log_filters_from_request (req : Pb.QueryLogsRequest) : Api.LogQueryFilters :=
  let '(start_time, end_time) := request_range (Pb.pl_time_range req) in
  let '(limit, offset) := pagination_limit_offset (Pb.pl_pagination req) in
  {|
    Api.al_start_time := start_time;
    Api.al_end_time := end_time;
    Api.al_severity := Pb.pl_severity req;
    Api.al_service_name := Pb.pl_service_name req;
    Api.al_trace_id := Pb.pl_trace_id req;
    Api.al_search_text := Pb.pl_search_text req;
    Api.al_agent_name := Pb.pl_agent_name req;
    Api.al_session_id := Pb.pl_session_id req;
    Api.al_limit := Some limit;
    Api.al_offset := Some offset;
  |}.

Definition metric_filters_from_request (req : Pb.QueryMetricsRequest) : Api.MetricQueryFilters :=
  let '(start_time, end_time) := request_range (Pb.pm_time_range req) in
  let '(limit, offset) := pagination_limit_offset (Pb.pm_pagination req) in
  {|
    Api.am_start_time := start_time;
    Api.am_end_time := end_time;
    Api.am_metric_name := Pb.pm_metric_name req;
    Api.am_service_name := Pb.pm_service_name req;
    Api.am_agent_name := Pb.pm_agent_name req;
    Api.am_limit := Some limit;
    Api.am_offset := Some offset;
  |}.

Definition metric_series_filters_from_request (req : Pb.QueryMetricSeriesRequest) : Api.MetricSeriesFilters :=
  let '(start_time, end_time) := request_range (Pb.pe_time_range req) in
  {|
    Api.ae_metric_name := Pb.pe_metric_name req;
    Api.ae_start_time := start_time;
    Api.ae_end_time := end_time;
    Api.ae_interval_seconds := Pb.pe_interval_seconds req;
    Api.ae_aggregation := Pb.pe_aggregation req;
    Api.ae_service_name := Pb.pe_service_name req;
  |}.

Definition analytics_query_from_fields (req : Pb.AnalyticsRequest) : Api.AnalyticsQuery := {|
  Api.aa_start := optional_proto_timestamp (Pb.pa_start req);
  Api.aa_end := optional_proto_timestamp (Pb.pa_end req);
  Api.aa_metric := Pb.pa_metric req;
  Api.aa_group_by := match Pb.pa_group_by req with [] => None | groups => Some (String.concat "," groups) end;
  Api.aa_filters := match Pb.pa_filters req with [] => None | filters => Some filters end;
|}.

Definition analytics_query_from_range (req : Pb.RangeRequest) : Api.AnalyticsQuery :=
  Api.mkAnalyticsQuery (optional_proto_timestamp (Pb.pr_start req)) (optional_proto_timestamp (Pb.pr_end req)) None None None.

Definition top_n_query_from_request (req : Pb.GetTopEndpointsRequest) : outcome Status Api.TopNQuery :=
  start_time ← ok_or (optional_proto_timestamp (Pb.pn_start_time req)) (status InvalidArgument "start_time is required");
  end_time ← ok_or (optional_proto_timestamp (Pb.pn_end_time req)) (status InvalidArgument "end_time is required");
  mret (Api.mkTopNQuery start_time end_time (Pb.pn_n req)).

Definition error_analytics_from_request (req : Pb.GetErrorBreakdownRequest) : outcome Status Api.ErrorAnalyticsQuery :=
  start_time ← ok_or (optional_proto_timestamp (Pb.pb_start_time req)) (status InvalidArgument "start_time is required");
  end_time ← ok_or (optional_proto_timestamp (Pb.pb_end_time req)) (status InvalidArgument "end_time is required");
  mret (Api.mkErrorQuery start_time end_time (Pb.pb_service_name req)).

Definition storage_usage_query_from_request (req : Pb.GetStorageUsageRequest) : Api.StorageUsageQuery :=
  Api.mkStorageQuery (optional_proto_timestamp (Pb.pu_start_time req)) (optional_proto_timestamp (Pb.pu_end_time req))
    (Pb.pu_signal_type req) (Pb.pu_location req).

Definition signal_window_from_request (req : Pb.SignalWindowRequest) : Api.SignalWindowQuery :=
  Api.mkSignalWindow (Pb.pw_signal req) (optional_proto_timestamp (Pb.pw_start_time req)) (optional_proto_timestamp (Pb.pw_end_time req)).
End Requests.

(** *** To the replies *)

Section Replies.
Context {F : Type} `{SerdeJson F}.

(** A string value is copied, any other is written as JSON. *)
Definition json_text (v : Json F) : string := match v with JString s => s | _ => to_string v end.
Definition json_map_to_proto (attrs : gmap string (Json F)) : gmap string string := json_text <$> attrs.
Definition optional_json_string (value : option (Json F)) : option string := to_string <$> value.

Definition trace_summary_to_proto (t : Api.TraceSummary) : Pb.TraceSummary :=
  Pb.mkPbTraceSummary (Api.su_trace_id t) (Some (datetime_to_proto (Api.su_start_time t))) (Api.su_duration_ms t)
    (Api.su_service_name t) (Api.su_operation_name t) (Api.su_status t) (Api.su_span_count t).

Definition span_detail_to_proto (s : SpanDetail F) : Pb.SpanDetail F := {|
  Pb.rs_span_id := dt_span_id s;
  Pb.rs_trace_id := dt_trace_id s;
  Pb.rs_parent_span_id := dt_parent_span_id s;
  Pb.rs_service_name := dt_service_name s;
  Pb.rs_operation_name := dt_operation_name s;
  Pb.rs_span_type := dt_span_type s;
  Pb.rs_start_time := Some (datetime_to_proto (dt_start_time s));
  Pb.rs_duration_ms := dt_duration_ms s;
  Pb.rs_status := dt_status s;
  Pb.rs_agent_name := dt_agent_name s;
  Pb.rs_agent_type := dt_agent_type s;
  Pb.rs_session_id := dt_session_id s;
  Pb.rs_llm_model := dt_llm_model s;
  Pb.rs_llm_provider := dt_llm_provider s;
  Pb.rs_llm_response_model := dt_llm_response_model s;
  Pb.rs_llm_input := dt_llm_input s;
  Pb.rs_llm_output := dt_llm_output s;
  Pb.rs_prompt_tokens := dt_prompt_tokens s;
  Pb.rs_completion_tokens := dt_completion_tokens s;
  Pb.rs_total_tokens := dt_total_tokens s;
  Pb.rs_prompt_cost_usd := dt_prompt_cost_usd s;
  Pb.rs_completion_cost_usd := dt_completion_cost_usd s;
  Pb.rs_total_cost_usd := dt_total_cost_usd s;
  Pb.rs_tool_name := dt_tool_name s;
  Pb.rs_tool_call_id := dt_tool_call_id s;
  Pb.rs_rail_type := dt_rail_type s;
  Pb.rs_rail_name := dt_rail_name s;
  Pb.rs_rail_stop := dt_rail_stop s;
  Pb.rs_action_name := dt_action_name s;
  Pb.rs_workflow_run_id := dt_workflow_run_id s;
  Pb.rs_framework := dt_framework s;
  Pb.rs_llm_cache_hit := dt_llm_cache_hit s;
  Pb.rs_llm_response_id := dt_llm_response_id s;
  Pb.rs_environment := dt_environment s;
  Pb.rs_db_system_name := dt_db_system_name s;
  Pb.rs_db_namespace := dt_db_namespace s;
  Pb.rs_db_operation_name := dt_db_operation_name s;
  Pb.rs_db_query_text := dt_db_query_text s;
  Pb.rs_db_query_summary := dt_db_query_summary s;
  Pb.rs_db_collection_name := dt_db_collection_name s;
  Pb.rs_db_response_status_code := dt_db_response_status_code s;
  Pb.rs_agent_id := dt_agent_id s;
  Pb.rs_agent_description := dt_agent_description s;
  Pb.rs_agent_task_id := dt_agent_task_id s;
  Pb.rs_agent_task_parent_id := dt_agent_task_parent_id s;
  Pb.rs_agent_task_name := dt_agent_task_name s;
  Pb.rs_agent_task_kind := dt_agent_task_kind s;
  Pb.rs_agent_task_state := dt_agent_task_state s;
  Pb.rs_agent_task_status := dt_agent_task_status s;
  Pb.rs_memory_type := dt_memory_type s;
  Pb.rs_memory_key := dt_memory_key s;
  Pb.rs_mcp_tool_name := dt_mcp_tool_name s;
  Pb.rs_mcp_server_name := dt_mcp_server_name s;
  Pb.rs_mcp_tool_input := dt_mcp_tool_input s;
  Pb.rs_mcp_tool_output := dt_mcp_tool_output s;
  Pb.rs_agent_version := dt_agent_version s;
  Pb.rs_sdk_version := dt_sdk_version s;
  Pb.rs_evaluation_name := dt_evaluation_name s;
  Pb.rs_evaluation_explanation := dt_evaluation_explanation s;
  Pb.rs_evaluation_passed := dt_evaluation_passed s;
  Pb.rs_model_parameters_json := optional_json_string (dt_model_parameters s);
  Pb.rs_events_json := optional_json_string (dt_events s);
  Pb.rs_links_json := optional_json_string (dt_links s);
  Pb.rs_attributes := json_map_to_proto (dt_attributes s);
|}.

Definition trace_detail_to_proto (t : TraceDetail F) : Pb.TraceDetail F :=
  Pb.mkPbTraceDetail (td_trace_id t) (Some (datetime_to_proto (td_start_time t))) (td_duration_ms t) (map span_detail_to_proto (td_spans t)).

Definition log_detail_to_proto (l : LogDetail F) : Pb.LogDetail :=
  Pb.mkPbLogDetail (ld_id l) (Some (datetime_to_proto (ld_timestamp l))) (ld_severity l) (ld_service_name l) (ld_message l)
    (ld_trace_id l) (ld_span_id l) (ld_agent_name l) (ld_session_id l) (ld_user_id l) (json_map_to_proto (ld_attributes l)).

Definition metric_detail_to_proto (m : MetricDetail F) : Pb.MetricDetail F :=
  Pb.mkPbMetricDetail (md_metric_name m) (md_metric_type m) (Some (datetime_to_proto (md_timestamp m))) (md_service_name m) (md_value m)
    (md_count m) (md_sum m) (md_min m) (md_max m) (json_map_to_proto (md_labels m)).

Definition metric_series_point_to_proto (p : MetricSeriesPoint F) : Pb.MetricSeriesPoint F :=
  Pb.mkPbSeriesPoint (Some (datetime_to_proto (mp_timestamp p))) (mp_point p).

(** The body shared by the four [paginated_*_to_proto]. *)
Definition paginated_to_proto {X Y : Type} (convert : X → Y) (page : Api.PaginatedResponse X) (offset : Z) : Pb.Page Y :=
  Pb.mkPbPage (map convert (Api.rs_items page)) (Api.rs_total page) (i32_of_i64 (Api.rs_page_size X page)) offset.

Definition threshold_status_to_str (s : ThresholdStatus) : string :=
  match s with
  | StatusOk => "ok" | StatusWarning => "warning" | StatusCritical => "critical" | StatusGrace => "grace" | StatusBlocked => "blocked"
  end.

(** The names serde gives the kinds are those of the policy table. *)
Definition signal_kind_to_str (s : SignalKind) : string := signal_kind s.
Definition operation_to_str (o : Operation) : string := operation o.

Definition quota_status_to_proto (q : QuotaStatus F) : Pb.QuotaStatus F :=
  Pb.mkPbQuotaStatus (signal_kind_to_str (qu_signal q)) (operation_to_str (qu_operation q)) (qu_limit_kind q) (qu_limit_value q)
    (qu_observed_value q) (qu_pct_consumed q) (threshold_status_to_str (qu_status q)) (qu_period_start q) (qu_period_end q)
    (qu_projected_exhaustion_at q).

Definition analytics_result_to_proto (r : AnalyticsResult F) : Pb.AnalyticsResult F :=
  Pb.mkPbAnalyticsResult (ax_timestamp F r) (ax_value F r) (default ∅ (ax_groups F r)).

Definition metrics_summary_to_proto (m : MetricsSummary F) : Pb.MetricsSummary F :=
  Pb.mkPbMetricsSummary (sm_total_traces F m) (sm_error_rate F m) (sm_p50_latency F m) (sm_p90_latency F m) (sm_p99_latency F m).

Definition top_endpoint_to_proto (e : TopEndpoint F) : Pb.TopEndpoint F :=
  Pb.mkPbTopEndpoint (te_operation_name F e) (te_service_name F e) (te_count e) (te_avg_duration_ms F e) (te_p95_duration_ms F e)
    (te_error_rate F e).

Definition error_breakdown_to_proto (e : ErrorBreakdown F) : Pb.ErrorBreakdown F :=
  Pb.mkPbErrorBreakdown (eb_error_type e) (eb_count e) (eb_percentage F e).

Definition llm_analytics_to_proto (a : LlmAnalytics F) : Pb.LlmAnalytics F :=
  Pb.mkPbLlm (la_llm_model a) (la_request_count a) (la_total_tokens a) (la_total_cost_usd F a) (la_avg_duration_ms F a).

Definition agent_analytics_to_proto (a : AgentAnalytics F) : Pb.AgentAnalytics F :=
  Pb.mkPbAgent (ag_agent_name F a) (ag_agent_type F a) (ag_span_count F a) (ag_error_count F a) (ag_total_tokens F a)
    (ag_avg_duration_ms F a).

Definition guardrails_analytics_to_proto (g : GuardrailsAnalyticsResult F) : Pb.GuardrailsAnalytics F :=
  Pb.mkPbGuardrails (gr_total_requests F g) (gr_halted_requests F g) (gr_halt_rate F g)
    (map (λ r, Pb.mkPbRailType (rt_rail_type F r) (rt_count F r) (rt_halted F r) (rt_halt_rate F r)) (gr_by_rail_type F g))
    (map (λ r, Pb.mkPbRailName (rn_rail_name r) (rn_rail_type r) (rn_halts r) (rn_total r)) (gr_top_halting_rails F g)).

Definition storage_usage_to_proto (u : StorageUsage) : Pb.StorageUsage :=
  Pb.mkPbStorageUsage (us_workspace_id u) (us_signal_type u) (us_location u) (us_file_count u) (us_records u) (us_original_size u)
    (us_compressed_size u).

Definition storage_usage_daily_to_proto (d : StorageUsageDaily) : Pb.StorageUsageDaily :=
  Pb.mkPbStorageUsageDaily (uy_workspace_id d) (uy_signal d) (uy_day d) (uy_compressed_bytes d) (uy_file_count d) (uy_captured_at d)
    (uy_estimated_today d).

(** [WorkspaceId::to_string] is the text of its UUID. *)
Definition usage_daily_to_proto `{UuidText} (r : UsageRecords.UsageDailyRecord) : Pb.UsageDailyRecord :=
  Pb.mkPbUsageDaily (uuid_to_string (UsageRecords.du_workspace_id r)) (signal_kind_to_str (UsageRecords.du_signal r))
    (operation_to_str (UsageRecords.du_operation r)) (UsageRecords.du_day r) (UsageRecords.du_used_bytes r) (UsageRecords.du_records r) (UsageRecords.du_query_count r)
    (UsageRecords.du_file_count r).

Definition ingest_rate_to_proto `{UuidText} (r : UsageRecords.IngestRateRecord) : Pb.IngestRateRecord :=
  Pb.mkPbIngestRate (uuid_to_string (UsageRecords.ir_workspace_id r)) (signal_kind_to_str (UsageRecords.ir_signal r)) (UsageRecords.ir_records_per_sec r)
    (UsageRecords.ir_bytes_per_sec r) (UsageRecords.ir_window_start_micros r) (UsageRecords.ir_window_end_micros r).

Definition query_usage_to_proto `{UuidText} (r : UsageRecords.QueryUsageRecord F) : Pb.QueryUsageRecord F :=
  Pb.mkPbQueryUsage (uuid_to_string (UsageRecords.qr_workspace_id F r)) (signal_kind_to_str (UsageRecords.qr_signal F r)) (UsageRecords.qr_bytes_scanned F r)
    (UsageRecords.qr_rows_scanned F r) (UsageRecords.qr_query_count F r) (UsageRecords.qr_avg_query_time_ms F r) (UsageRecords.qr_window_start_micros F r)
    (UsageRecords.qr_window_end_micros F r).
End Replies.

(** ** Properties *)

Section Properties.
Context `{ChronoTime}.

(** A time the service answers with reads back as itself. *)
Theorem proto_timestamp_roundtrip (dt : DateTime) :
  datetime_range (dt / 1000000000) → proto_timestamp_to_datetime (datetime_to_proto dt) = Some dt.
Proof.
  intros Hr. unfold proto_timestamp_to_datetime, datetime_to_proto. cbn [pt_seconds pt_nanos].
  pose proof (Z.mod_pos_bound dt 1000000000 ltac:(lia)). unfold u32_of_nanos. rewrite Z.mod_small by lia.
  rewrite from_timestamp_ok by done. f_equal. pose proof (Z.div_mod dt 1000000000 ltac:(lia)). lia.
Qed.

Lemma negative_nanos_absent ts : - 2 ^ 31 ≤ pt_nanos ts < 0 → proto_timestamp_to_datetime ts = None.
Proof.
  intros Hn. unfold proto_timestamp_to_datetime, u32_of_nanos. apply from_timestamp_nanos.
  rewrite <-(Z.mod_add _ 1) by lia. rewrite Z.mod_small by lia. lia.
Qed.

(** An end that is no valid time is not an error: a query for logs or metrics
    whose end has negative nanoseconds is answered without any time range, while
    the queries for endpoints and errors refuse it. *)
Theorem invalid_end_unbounds ts start req_logs req_metrics n :
  - 2 ^ 31 ≤ pt_nanos ts < 0 →
  Pb.pl_time_range req_logs = Some (mkProtoRange start (Some ts)) →
  Pb.pm_time_range req_metrics = Some (mkProtoRange start (Some ts)) →
  Api.al_end_time (log_filters_from_request req_logs) = None ∧
  Api.am_end_time (metric_filters_from_request req_metrics) = None ∧
  top_n_query_from_request (Pb.mkTopEndpointsRequest (Some ts) (Some ts) n) = Err (status InvalidArgument "start_time is required").
Proof.
  intros Hn%negative_nanos_absent Hl Hm. unfold log_filters_from_request, metric_filters_from_request, top_n_query_from_request.
  rewrite Hl, Hm. unfold request_range, proto_time_range, optional_proto_timestamp. cbn. rewrite Hn. split_and!.
  - by destruct (pagination_limit_offset _).
  - by destruct (pagination_limit_offset _).
  - done.
Qed.
End Properties.

(** *** Lists in one string *)

Fixpoint no_comma (s : string) : bool :=
  match s with EmptyString => true | String c s => negb (Ascii.eqb c ","%char) && no_comma s end.

Lemma split_on_app a rest : no_comma a = true → split_on ","%char (a +:+ String ","%char rest) = a :: split_on ","%char rest.
Proof.
  induction a as [|c a IH]; [done|]. cbn [no_comma]. intros [Hc Ha]%andb_prop. apply negb_true_iff, Ascii.eqb_neq in Hc.
  change (String c a +:+ String ","%char rest) with (String c (a +:+ String ","%char rest)). cbn [split_on].
  rewrite decide_False by done. by rewrite IH.
Qed.

Lemma split_on_single a : no_comma a = true → split_on ","%char a = [a].
Proof.
  induction a as [|c a IH]; [done|]. cbn [no_comma]. intros [Hc Ha]%andb_prop. apply negb_true_iff, Ascii.eqb_neq in Hc.
  cbn [split_on]. rewrite decide_False by done. by rewrite IH.
Qed.

Lemma split_on_concat l : l ≠ [] → Forall (λ s, no_comma s = true) l → split_on ","%char (String.concat "," l) = l.
Proof.
  intros Hne Hall. induction Hall as [|a l Ha Hl IH]; [done|]. destruct l as [|b l]; [by apply split_on_single|].
  change (String.concat "," (a :: b :: l)) with (a +:+ String ","%char (String.concat "," (b :: l))).
  rewrite split_on_app by done. by rewrite IH.
Qed.

Lemma valid_type_no_comma t : validate_span_type t = true → no_comma t = true.
Proof.
  unfold validate_span_type. intros Ht%bool_decide_eq_true. revert t Ht. apply Forall_forall.
  apply (bool_decide_unpack _). vm_compute. exact I.
Qed.

(** The span types of a request reach the storage as they are: joining them with
    commas and splitting the text again gives the same list, whatever valid types
    it holds. *)
Theorem span_types_survive `{ChronoTime} (trim : string → string) (req : Pb.QuerySpansRequest) :
  (∀ t, validate_span_type t = true → trim t = t) → Pb.ps_span_types req ≠ [] →
  Forall (λ t, validate_span_type t = true) (Pb.ps_span_types req) →
  parse_span_types trim (span_filters_from_request req) = Ok (Some (Pb.ps_span_types req)).
Proof.
  intros Htrim Hne Hall. unfold parse_span_types, span_filters_from_request.
  destruct (request_range _), (pagination_limit_offset _). cbn [Api.as_span_types].
  destruct (Pb.ps_span_types req) as [|t0 ts] eqn:Heq; [done|]. rewrite <-Heq in *. unfold comma_list.
  rewrite split_on_concat; [|done|eapply Forall_impl; [exact Hall|apply valid_type_no_comma]].
  assert (map trim (Pb.ps_span_types req) = Pb.ps_span_types req) as ->.
  { rewrite <-(map_id (Pb.ps_span_types req)) at 2. apply map_ext_in. intros t Ht%list_elem_of_In.
    rewrite Forall_forall in Hall. by apply Htrim, Hall. }
  assert (find (λ t, negb (validate_span_type t)) (Pb.ps_span_types req) = None) as ->; [|done].
  clear Heq Hne. induction Hall as [|t l Ht _ IH]; [done|]. cbn [find]. by rewrite Ht.
Qed.
