(* ===== verification/ApiFields.v ===== *)
(** The content of the query API's answers, field by field.

    A view gives every answer of the service and every message of the query API
    its fields by name, with the values in a form the two transports share: a
    time as its instant, an enum and an identifier as their texts. The names
    are those serde and the message give the field; where they differ
    ([model_parameters], [events] and [links], which are JSON over HTTP and
    texts of JSON in the message), the message's. The views are written from
    the two type definitions; that the translations of [ApiProto] keep them is
    proved here. *)

From stdpp Require Import base gmap list strings.
From S2P Require Import Prelude Compactor PolicyStore Export Authorize Models Otlp TelemetryReader Analytics ApiTypes QueryService ServiceAnalytics ApiProto.

(** ** Fields *)

Inductive FieldValue (F : Type) :=
| FNull
| FText (s : string)
| FInt (z : Z)
| FNum (x : F)
| FFlag (b : bool)
| FTime (t : DateTime)
| FMap (m : gmap string string)
| FList (rows : list (list (string * FieldValue F))).
Arguments FNull {F}.
Arguments FText {F}.
Arguments FInt {F}.
Arguments FNum {F}.
Arguments FFlag {F}.
Arguments FTime {F}.
Arguments FMap {F}.
Arguments FList {F}.

(** The views: what a type's values hold, by name. *)
Class Fields (F A : Type) := fields : A → list (string * FieldValue F).

(** An absent value is [null]. *)
Definition opt {F A : Type} (f : A → FieldValue F) (o : option A) : FieldValue F := match o with Some a => f a | None => FNull end.

(** A protobuf time names an instant. *)
Definition timestamp_field {F : Type} (t : Timestamp) : FieldValue F := FTime (pt_seconds t * 1000000000 + pt_nanos t).

(** The names serde gives the states of a quota. *)
Definition threshold_name (s : ThresholdStatus) : string :=
  match s with
  | StatusOk => "ok" | StatusWarning => "warning" | StatusCritical => "critical" | StatusGrace => "grace" | StatusBlocked => "blocked"
  end.

Section Views.
Context {F : Type} `{SerdeJson F} `{UuidText}.

(** *** The service's answers *)

#[export] Instance summary_fields : Fields F Api.TraceSummary := λ r, [
  ("trace_id", FText (Api.su_trace_id r)); ("start_time", FTime (Api.su_start_time r)); ("duration_ms", FInt (Api.su_duration_ms r));
  ("service_name", FText (Api.su_service_name r)); ("operation_name", FText (Api.su_operation_name r)); ("status", FText (Api.su_status r));
  ("span_count", FInt (Api.su_span_count r))].

#[export] Instance span_fields : Fields F (SpanDetail F) := λ r, [
  ("span_id", FText (dt_span_id r)); ("trace_id", FText (dt_trace_id r)); ("parent_span_id", opt FText (dt_parent_span_id r));
  ("service_name", FText (dt_service_name r)); ("operation_name", FText (dt_operation_name r)); ("span_type", FText (dt_span_type r));
  ("start_time", FTime (dt_start_time r)); ("duration_ms", FInt (dt_duration_ms r)); ("status", FText (dt_status r));
  ("agent_name", opt FText (dt_agent_name r)); ("agent_type", opt FText (dt_agent_type r)); ("session_id", opt FText (dt_session_id r));
  ("llm_model", opt FText (dt_llm_model r)); ("llm_provider", opt FText (dt_llm_provider r));
  ("llm_response_model", opt FText (dt_llm_response_model r)); ("llm_input", opt FText (dt_llm_input r));
  ("llm_output", opt FText (dt_llm_output r)); ("prompt_tokens", opt FInt (dt_prompt_tokens r));
  ("completion_tokens", opt FInt (dt_completion_tokens r)); ("total_tokens", opt FInt (dt_total_tokens r));
  ("prompt_cost_usd", opt FNum (dt_prompt_cost_usd r)); ("completion_cost_usd", opt FNum (dt_completion_cost_usd r));
  ("total_cost_usd", opt FNum (dt_total_cost_usd r)); ("tool_name", opt FText (dt_tool_name r)); ("tool_call_id", opt FText (dt_tool_call_id r));
  ("rail_type", opt FText (dt_rail_type r)); ("rail_name", opt FText (dt_rail_name r)); ("rail_stop", opt FFlag (dt_rail_stop r));
  ("action_name", opt FText (dt_action_name r)); ("workflow_run_id", opt FText (dt_workflow_run_id r)); ("framework", opt FText (dt_framework r));
  ("llm_cache_hit", opt FFlag (dt_llm_cache_hit r)); ("llm_response_id", opt FText (dt_llm_response_id r));
  ("environment", opt FText (dt_environment r)); ("db_system_name", opt FText (dt_db_system_name r));
  ("db_namespace", opt FText (dt_db_namespace r)); ("db_operation_name", opt FText (dt_db_operation_name r));
  ("db_query_text", opt FText (dt_db_query_text r)); ("db_query_summary", opt FText (dt_db_query_summary r));
  ("db_collection_name", opt FText (dt_db_collection_name r)); ("db_response_status_code", opt FText (dt_db_response_status_code r));
  ("agent_id", opt FText (dt_agent_id r)); ("agent_description", opt FText (dt_agent_description r));
  ("agent_task_id", opt FText (dt_agent_task_id r)); ("agent_task_parent_id", opt FText (dt_agent_task_parent_id r));
  ("agent_task_name", opt FText (dt_agent_task_name r)); ("agent_task_kind", opt FText (dt_agent_task_kind r));
  ("agent_task_state", opt FText (dt_agent_task_state r)); ("agent_task_status", opt FText (dt_agent_task_status r));
  ("memory_type", opt FText (dt_memory_type r)); ("memory_key", opt FText (dt_memory_key r)); ("mcp_tool_name", opt FText (dt_mcp_tool_name r));
  ("mcp_server_name", opt FText (dt_mcp_server_name r)); ("mcp_tool_input", opt FText (dt_mcp_tool_input r));
  ("mcp_tool_output", opt FText (dt_mcp_tool_output r)); ("agent_version", opt FText (dt_agent_version r));
  ("sdk_version", opt FText (dt_sdk_version r)); ("evaluation_name", opt FText (dt_evaluation_name r));
  ("evaluation_explanation", opt FText (dt_evaluation_explanation r)); ("evaluation_passed", opt FInt (dt_evaluation_passed r));
  ("model_parameters_json", opt (FText ∘ to_string) (dt_model_parameters r)); ("events_json", opt (FText ∘ to_string) (dt_events r));
  ("links_json", opt (FText ∘ to_string) (dt_links r)); ("attributes", FMap (json_text <$> (dt_attributes r)))].

#[export] Instance trace_fields : Fields F (TraceDetail F) := λ r, [
  ("trace_id", FText (td_trace_id r)); ("start_time", FTime (td_start_time r)); ("duration_ms", FInt (td_duration_ms r));
  ("spans", FList (map fields (td_spans r)))].

#[export] Instance log_fields : Fields F (LogDetail F) := λ r, [
  ("id", FText (ld_id r)); ("timestamp", FTime (ld_timestamp r)); ("severity", FText (ld_severity r)); ("service_name", FText (ld_service_name r));
  ("message", FText (ld_message r)); ("trace_id", opt FText (ld_trace_id r)); ("span_id", opt FText (ld_span_id r));
  ("agent_name", opt FText (ld_agent_name r)); ("session_id", opt FText (ld_session_id r)); ("user_id", opt FText (ld_user_id r));
  ("attributes", FMap (json_text <$> (ld_attributes r)))].

#[export] Instance metric_fields : Fields F (MetricDetail F) := λ r, [
  ("metric_name", FText (md_metric_name r)); ("metric_type", FText (md_metric_type r)); ("timestamp", FTime (md_timestamp r));
  ("service_name", FText (md_service_name r)); ("value", FNum (md_value r)); ("count", FInt (md_count r)); ("sum", FNum (md_sum r));
  ("min", FNum (md_min r)); ("max", FNum (md_max r)); ("labels", FMap (json_text <$> (md_labels r)))].

#[export] Instance point_fields : Fields F (MetricSeriesPoint F) := λ r, [
  ("timestamp", FTime (mp_timestamp r)); ("value", FNum (mp_point r))].

#[export] Instance analytics_fields : Fields F (AnalyticsResult F) := λ r, [
  ("timestamp", FText (ax_timestamp F r)); ("value", FNum (ax_value F r)); ("groups", FMap (default ∅ (ax_groups F r)))].

#[export] Instance metrics_summary_fields : Fields F (MetricsSummary F) := λ r, [
  ("total_traces", FInt (sm_total_traces F r)); ("error_rate", FNum (sm_error_rate F r)); ("p50_latency", FNum (sm_p50_latency F r));
  ("p90_latency", FNum (sm_p90_latency F r)); ("p99_latency", FNum (sm_p99_latency F r))].

#[export] Instance endpoint_fields : Fields F (TopEndpoint F) := λ r, [
  ("operation_name", FText (te_operation_name F r)); ("service_name", FText (te_service_name F r)); ("count", FInt (te_count r));
  ("avg_duration_ms", FNum (te_avg_duration_ms F r)); ("p95_duration_ms", opt FNum (te_p95_duration_ms F r));
  ("error_rate", FNum (te_error_rate F r))].

#[export] Instance error_fields : Fields F (ErrorBreakdown F) := λ r, [
  ("error_type", FText (eb_error_type r)); ("count", FInt (eb_count r)); ("percentage", FNum (eb_percentage F r))].

#[export] Instance llm_fields : Fields F (LlmAnalytics F) := λ r, [
  ("llm_model", FText (la_llm_model r)); ("request_count", FInt (la_request_count r)); ("total_tokens", FNum (la_total_tokens r));
  ("total_cost_usd", FNum (la_total_cost_usd F r)); ("avg_duration_ms", FNum (la_avg_duration_ms F r))].

#[export] Instance agent_fields : Fields F (AgentAnalytics F) := λ r, [
  ("agent_name", FText (ag_agent_name F r)); ("agent_type", opt FText (ag_agent_type F r)); ("span_count", FInt (ag_span_count F r));
  ("error_count", FInt (ag_error_count F r)); ("total_tokens", FNum (ag_total_tokens F r)); ("avg_duration_ms", FNum (ag_avg_duration_ms F r))].

#[export] Instance rail_type_fields : Fields F (RailTypeBreakdown F) := λ r, [
  ("rail_type", FText (rt_rail_type F r)); ("count", FInt (rt_count F r)); ("halted", FInt (rt_halted F r)); ("halt_rate", FNum (rt_halt_rate F r))].

#[export] Instance rail_name_fields : Fields F RailNameStat := λ r, [
  ("rail_name", FText (rn_rail_name r)); ("rail_type", FText (rn_rail_type r)); ("halts", FInt (rn_halts r)); ("total", FInt (rn_total r))].

#[export] Instance guardrails_fields : Fields F (GuardrailsAnalyticsResult F) := λ r, [
  ("total_requests", FInt (gr_total_requests F r)); ("halted_requests", FInt (gr_halted_requests F r)); ("halt_rate", FNum (gr_halt_rate F r));
  ("by_rail_type", FList (map fields (gr_by_rail_type F r))); ("top_halting_rails", FList (map fields (gr_top_halting_rails F r)))].

#[export] Instance storage_fields : Fields F StorageUsage := λ r, [
  ("workspace_id", FText (us_workspace_id r)); ("signal_type", FText (us_signal_type r)); ("location", FText (us_location r));
  ("file_count", FInt (us_file_count r)); ("records", FInt (us_records r)); ("original_size", FInt (us_original_size r));
  ("compressed_size", FInt (us_compressed_size r))].

#[export] Instance storage_day_fields : Fields F StorageUsageDaily := λ r, [
  ("workspace_id", FText (uy_workspace_id r)); ("signal", FText (uy_signal r)); ("day", FText (uy_day r));
  ("compressed_bytes", FInt (uy_compressed_bytes r)); ("file_count", FInt (uy_file_count r)); ("captured_at", FInt (uy_captured_at r));
  ("estimated_today", FFlag (uy_estimated_today r))].

#[export] Instance quota_fields : Fields F (QuotaStatus F) := λ r, [
  ("signal", FText (signal_kind (qu_signal r))); ("operation", FText (operation (qu_operation r))); ("limit_kind", FText (qu_limit_kind r));
  ("limit_value", FInt (qu_limit_value r)); ("observed_value", FInt (qu_observed_value r)); ("pct_consumed", FNum (qu_pct_consumed r));
  ("status", FText (threshold_name (qu_status r))); ("period_start", opt FInt (qu_period_start r)); ("period_end", opt FInt (qu_period_end r));
  ("projected_exhaustion_at", opt FInt (qu_projected_exhaustion_at r))].

#[export] Instance usage_day_fields : Fields F UsageRecords.UsageDailyRecord := λ r, [
  ("workspace_id", FText (uuid_to_string (UsageRecords.du_workspace_id r))); ("signal", FText (signal_kind (UsageRecords.du_signal r)));
  ("operation", FText (operation (UsageRecords.du_operation r))); ("day", FText (UsageRecords.du_day r));
  ("used_bytes", FInt (UsageRecords.du_used_bytes r)); ("records", FInt (UsageRecords.du_records r));
  ("query_count", FInt (UsageRecords.du_query_count r)); ("file_count", FInt (UsageRecords.du_file_count r))].

#[export] Instance rate_fields : Fields F UsageRecords.IngestRateRecord := λ r, [
  ("workspace_id", FText (uuid_to_string (UsageRecords.ir_workspace_id r))); ("signal", FText (signal_kind (UsageRecords.ir_signal r)));
  ("records_per_sec", FInt (UsageRecords.ir_records_per_sec r)); ("bytes_per_sec", FInt (UsageRecords.ir_bytes_per_sec r));
  ("window_start_micros", FInt (UsageRecords.ir_window_start_micros r)); ("window_end_micros", FInt (UsageRecords.ir_window_end_micros r))].

#[export] Instance query_usage_fields : Fields F (UsageRecords.QueryUsageRecord F) := λ r, [
  ("workspace_id", FText (uuid_to_string (UsageRecords.qr_workspace_id F r))); ("signal", FText (signal_kind (UsageRecords.qr_signal F r)));
  ("bytes_scanned", FInt (UsageRecords.qr_bytes_scanned F r)); ("rows_scanned", FInt (UsageRecords.qr_rows_scanned F r));
  ("query_count", FInt (UsageRecords.qr_query_count F r)); ("avg_query_time_ms", opt FNum (UsageRecords.qr_avg_query_time_ms F r));
  ("window_start_micros", FInt (UsageRecords.qr_window_start_micros F r)); ("window_end_micros", FInt (UsageRecords.qr_window_end_micros F r))].

(** *** The messages *)

#[export] Instance pb_summary_fields : Fields F Pb.TraceSummary := λ r, [
  ("trace_id", FText (Pb.rt_trace_id r)); ("start_time", opt timestamp_field (Pb.rt_start_time r)); ("duration_ms", FInt (Pb.rt_duration_ms r));
  ("service_name", FText (Pb.rt_service_name r)); ("operation_name", FText (Pb.rt_operation_name r)); ("status", FText (Pb.rt_status r));
  ("span_count", FInt (Pb.rt_span_count r))].

#[export] Instance pb_span_fields : Fields F (Pb.SpanDetail F) := λ r, [
  ("span_id", FText (Pb.rs_span_id F r)); ("trace_id", FText (Pb.rs_trace_id F r)); ("parent_span_id", opt FText (Pb.rs_parent_span_id F r));
  ("service_name", FText (Pb.rs_service_name F r)); ("operation_name", FText (Pb.rs_operation_name F r));
  ("span_type", FText (Pb.rs_span_type F r)); ("start_time", opt timestamp_field (Pb.rs_start_time F r));
  ("duration_ms", FInt (Pb.rs_duration_ms F r)); ("status", FText (Pb.rs_status F r)); ("agent_name", opt FText (Pb.rs_agent_name F r));
  ("agent_type", opt FText (Pb.rs_agent_type F r)); ("session_id", opt FText (Pb.rs_session_id F r));
  ("llm_model", opt FText (Pb.rs_llm_model F r)); ("llm_provider", opt FText (Pb.rs_llm_provider F r));
  ("llm_response_model", opt FText (Pb.rs_llm_response_model F r)); ("llm_input", opt FText (Pb.rs_llm_input F r));
  ("llm_output", opt FText (Pb.rs_llm_output F r)); ("prompt_tokens", opt FInt (Pb.rs_prompt_tokens F r));
  ("completion_tokens", opt FInt (Pb.rs_completion_tokens F r)); ("total_tokens", opt FInt (Pb.rs_total_tokens F r));
  ("prompt_cost_usd", opt FNum (Pb.rs_prompt_cost_usd F r)); ("completion_cost_usd", opt FNum (Pb.rs_completion_cost_usd F r));
  ("total_cost_usd", opt FNum (Pb.rs_total_cost_usd F r)); ("tool_name", opt FText (Pb.rs_tool_name F r));
  ("tool_call_id", opt FText (Pb.rs_tool_call_id F r)); ("rail_type", opt FText (Pb.rs_rail_type F r));
  ("rail_name", opt FText (Pb.rs_rail_name F r)); ("rail_stop", opt FFlag (Pb.rs_rail_stop F r));
  ("action_name", opt FText (Pb.rs_action_name F r)); ("workflow_run_id", opt FText (Pb.rs_workflow_run_id F r));
  ("framework", opt FText (Pb.rs_framework F r)); ("llm_cache_hit", opt FFlag (Pb.rs_llm_cache_hit F r));
  ("llm_response_id", opt FText (Pb.rs_llm_response_id F r)); ("environment", opt FText (Pb.rs_environment F r));
  ("db_system_name", opt FText (Pb.rs_db_system_name F r)); ("db_namespace", opt FText (Pb.rs_db_namespace F r));
  ("db_operation_name", opt FText (Pb.rs_db_operation_name F r)); ("db_query_text", opt FText (Pb.rs_db_query_text F r));
  ("db_query_summary", opt FText (Pb.rs_db_query_summary F r)); ("db_collection_name", opt FText (Pb.rs_db_collection_name F r));
  ("db_response_status_code", opt FText (Pb.rs_db_response_status_code F r)); ("agent_id", opt FText (Pb.rs_agent_id F r));
  ("agent_description", opt FText (Pb.rs_agent_description F r)); ("agent_task_id", opt FText (Pb.rs_agent_task_id F r));
  ("agent_task_parent_id", opt FText (Pb.rs_agent_task_parent_id F r)); ("agent_task_name", opt FText (Pb.rs_agent_task_name F r));
  ("agent_task_kind", opt FText (Pb.rs_agent_task_kind F r)); ("agent_task_state", opt FText (Pb.rs_agent_task_state F r));
  ("agent_task_status", opt FText (Pb.rs_agent_task_status F r)); ("memory_type", opt FText (Pb.rs_memory_type F r));
  ("memory_key", opt FText (Pb.rs_memory_key F r)); ("mcp_tool_name", opt FText (Pb.rs_mcp_tool_name F r));
  ("mcp_server_name", opt FText (Pb.rs_mcp_server_name F r)); ("mcp_tool_input", opt FText (Pb.rs_mcp_tool_input F r));
  ("mcp_tool_output", opt FText (Pb.rs_mcp_tool_output F r)); ("agent_version", opt FText (Pb.rs_agent_version F r));
  ("sdk_version", opt FText (Pb.rs_sdk_version F r)); ("evaluation_name", opt FText (Pb.rs_evaluation_name F r));
  ("evaluation_explanation", opt FText (Pb.rs_evaluation_explanation F r)); ("evaluation_passed", opt FInt (Pb.rs_evaluation_passed F r));
  ("model_parameters_json", opt FText (Pb.rs_model_parameters_json F r)); ("events_json", opt FText (Pb.rs_events_json F r));
  ("links_json", opt FText (Pb.rs_links_json F r)); ("attributes", FMap (Pb.rs_attributes F r))].

#[export] Instance pb_trace_fields : Fields F (Pb.TraceDetail F) := λ r, [
  ("trace_id", FText (Pb.rd_trace_id F r)); ("start_time", opt timestamp_field (Pb.rd_start_time F r));
  ("duration_ms", FInt (Pb.rd_duration_ms F r)); ("spans", FList (map fields (Pb.rd_spans F r)))].

#[export] Instance pb_log_fields : Fields F Pb.LogDetail := λ r, [
  ("id", FText (Pb.rl_id r)); ("timestamp", opt timestamp_field (Pb.rl_timestamp r)); ("severity", FText (Pb.rl_severity r));
  ("service_name", FText (Pb.rl_service_name r)); ("message", FText (Pb.rl_message r)); ("trace_id", opt FText (Pb.rl_trace_id r));
  ("span_id", opt FText (Pb.rl_span_id r)); ("agent_name", opt FText (Pb.rl_agent_name r)); ("session_id", opt FText (Pb.rl_session_id r));
  ("user_id", opt FText (Pb.rl_user_id r)); ("attributes", FMap (Pb.rl_attributes r))].

#[export] Instance pb_metric_fields : Fields F (Pb.MetricDetail F) := λ r, [
  ("metric_name", FText (Pb.rm_metric_name F r)); ("metric_type", FText (Pb.rm_metric_type F r));
  ("timestamp", opt timestamp_field (Pb.rm_timestamp F r)); ("service_name", FText (Pb.rm_service_name F r)); ("value", FNum (Pb.rm_value F r));
  ("count", FInt (Pb.rm_count F r)); ("sum", FNum (Pb.rm_sum F r)); ("min", FNum (Pb.rm_min F r)); ("max", FNum (Pb.rm_max F r));
  ("labels", FMap (Pb.rm_labels F r))].

#[export] Instance pb_point_fields : Fields F (Pb.MetricSeriesPoint F) := λ r, [
  ("timestamp", opt timestamp_field (Pb.re_timestamp F r)); ("value", FNum (Pb.re_value F r))].

#[export] Instance pb_analytics_fields : Fields F (Pb.AnalyticsResult F) := λ r, [
  ("timestamp", FText (Pb.rr_timestamp F r)); ("value", FNum (Pb.rr_value F r)); ("groups", FMap (Pb.rr_groups F r))].

#[export] Instance pb_metrics_summary_fields : Fields F (Pb.MetricsSummary F) := λ r, [
  ("total_traces", FInt (Pb.rz_total_traces F r)); ("error_rate", FNum (Pb.rz_error_rate F r)); ("p50_latency", FNum (Pb.rz_p50_latency F r));
  ("p90_latency", FNum (Pb.rz_p90_latency F r)); ("p99_latency", FNum (Pb.rz_p99_latency F r))].

#[export] Instance pb_endpoint_fields : Fields F (Pb.TopEndpoint F) := λ r, [
  ("operation_name", FText (Pb.rn_operation_name F r)); ("service_name", FText (Pb.rn_service_name F r)); ("count", FInt (Pb.rn_count F r));
  ("avg_duration_ms", FNum (Pb.rn_avg_duration_ms F r)); ("p95_duration_ms", opt FNum (Pb.rn_p95_duration_ms F r));
  ("error_rate", FNum (Pb.rn_error_rate F r))].

#[export] Instance pb_error_fields : Fields F (Pb.ErrorBreakdown F) := λ r, [
  ("error_type", FText (Pb.rb_error_type F r)); ("count", FInt (Pb.rb_count F r)); ("percentage", FNum (Pb.rb_percentage F r))].

#[export] Instance pb_llm_fields : Fields F (Pb.LlmAnalytics F) := λ r, [
  ("llm_model", FText (Pb.rx_llm_model F r)); ("request_count", FInt (Pb.rx_request_count F r)); ("total_tokens", FNum (Pb.rx_total_tokens F r));
  ("total_cost_usd", FNum (Pb.rx_total_cost_usd F r)); ("avg_duration_ms", FNum (Pb.rx_avg_duration_ms F r))].

#[export] Instance pb_agent_fields : Fields F (Pb.AgentAnalytics F) := λ r, [
  ("agent_name", FText (Pb.ra_agent_name F r)); ("agent_type", opt FText (Pb.ra_agent_type F r)); ("span_count", FInt (Pb.ra_span_count F r));
  ("error_count", FInt (Pb.ra_error_count F r)); ("total_tokens", FNum (Pb.ra_total_tokens F r));
  ("avg_duration_ms", FNum (Pb.ra_avg_duration_ms F r))].

#[export] Instance pb_rail_type_fields : Fields F (Pb.RailTypeBreakdown F) := λ r, [
  ("rail_type", FText (Pb.ry_rail_type F r)); ("count", FInt (Pb.ry_count F r)); ("halted", FInt (Pb.ry_halted F r));
  ("halt_rate", FNum (Pb.ry_halt_rate F r))].

#[export] Instance pb_rail_name_fields : Fields F Pb.RailNameStat := λ r, [
  ("rail_name", FText (Pb.rk_rail_name r)); ("rail_type", FText (Pb.rk_rail_type r)); ("halts", FInt (Pb.rk_halts r));
  ("total", FInt (Pb.rk_total r))].

#[export] Instance pb_guardrails_fields : Fields F (Pb.GuardrailsAnalytics F) := λ r, [
  ("total_requests", FInt (Pb.rg_total_requests F r)); ("halted_requests", FInt (Pb.rg_halted_requests F r));
  ("halt_rate", FNum (Pb.rg_halt_rate F r)); ("by_rail_type", FList (map fields (Pb.rg_by_rail_type F r)));
  ("top_halting_rails", FList (map fields (Pb.rg_top_halting_rails F r)))].

#[export] Instance pb_storage_fields : Fields F Pb.StorageUsage := λ r, [
  ("workspace_id", FText (Pb.ru_workspace_id r)); ("signal_type", FText (Pb.ru_signal_type r)); ("location", FText (Pb.ru_location r));
  ("file_count", FInt (Pb.ru_file_count r)); ("records", FInt (Pb.ru_records r)); ("original_size", FInt (Pb.ru_original_size r));
  ("compressed_size", FInt (Pb.ru_compressed_size r))].

#[export] Instance pb_storage_day_fields : Fields F Pb.StorageUsageDaily := λ r, [
  ("workspace_id", FText (Pb.rv_workspace_id r)); ("signal", FText (Pb.rv_signal r)); ("day", FText (Pb.rv_day r));
  ("compressed_bytes", FInt (Pb.rv_compressed_bytes r)); ("file_count", FInt (Pb.rv_file_count r)); ("captured_at", FInt (Pb.rv_captured_at r));
  ("estimated_today", FFlag (Pb.rv_estimated_today r))].

#[export] Instance pb_quota_fields : Fields F (Pb.QuotaStatus F) := λ r, [
  ("signal", FText (Pb.rq_signal F r)); ("operation", FText (Pb.rq_operation F r)); ("limit_kind", FText (Pb.rq_limit_kind F r));
  ("limit_value", FInt (Pb.rq_limit_value F r)); ("observed_value", FInt (Pb.rq_observed_value F r));
  ("pct_consumed", FNum (Pb.rq_pct_consumed F r)); ("status", FText (Pb.rq_status F r)); ("period_start", opt FInt (Pb.rq_period_start F r));
  ("period_end", opt FInt (Pb.rq_period_end F r)); ("projected_exhaustion_at", opt FInt (Pb.rq_projected_exhaustion_at F r))].

#[export] Instance pb_usage_day_fields : Fields F Pb.UsageDailyRecord := λ r, [
  ("workspace_id", FText (Pb.rw_workspace_id r)); ("signal", FText (Pb.rw_signal r)); ("operation", FText (Pb.rw_operation r));
  ("day", FText (Pb.rw_day r)); ("used_bytes", FInt (Pb.rw_used_bytes r)); ("records", FInt (Pb.rw_records r));
  ("query_count", FInt (Pb.rw_query_count r)); ("file_count", FInt (Pb.rw_file_count r))].

#[export] Instance pb_rate_fields : Fields F Pb.IngestRateRecord := λ r, [
  ("workspace_id", FText (Pb.ri_workspace_id r)); ("signal", FText (Pb.ri_signal r)); ("records_per_sec", FInt (Pb.ri_records_per_sec r));
  ("bytes_per_sec", FInt (Pb.ri_bytes_per_sec r)); ("window_start_micros", FInt (Pb.ri_window_start_micros r));
  ("window_end_micros", FInt (Pb.ri_window_end_micros r))].

#[export] Instance pb_query_usage_fields : Fields F (Pb.QueryUsageRecord F) := λ r, [
  ("workspace_id", FText (Pb.rj_workspace_id F r)); ("signal", FText (Pb.rj_signal F r)); ("bytes_scanned", FInt (Pb.rj_bytes_scanned F r));
  ("rows_scanned", FInt (Pb.rj_rows_scanned F r)); ("query_count", FInt (Pb.rj_query_count F r));
  ("avg_query_time_ms", opt FNum (Pb.rj_avg_query_time_ms F r)); ("window_start_micros", FInt (Pb.rj_window_start_micros F r));
  ("window_end_micros", FInt (Pb.rj_window_end_micros F r))].

End Views.

(** ** The translations keep the content *)

(** Two records with the same fields. *)
Definition same_content (F : Type) {A B : Type} `{Fields F A} `{Fields F B} (a : A) (b : B) : Prop := fields a = fields b.
Definition same_rows (F : Type) {A B : Type} `{Fields F A} `{Fields F B} : list A → list B → Prop := Forall2 (same_content F).

(** A page over the two transports: the same rows in the same order, the same
    total, the size of the page, and the offset that was asked for. The HTTP
    page's number, always 0, has no counterpart. *)
Definition same_page (F : Type) {A B : Type} `{Fields F A} `{Fields F B} (pagination : option PaginationRequest)
    (h : Api.PaginatedResponse A) (g : Pb.Page B) : Prop :=
  same_rows F (Api.rs_items h) (Pb.rp_items B g) ∧ Pb.rp_total_count B g = Api.rs_total h ∧
  Pb.rp_limit B g = i32_of_i64 (Api.rs_page_size A h) ∧ Pb.rp_offset B g = request_offset pagination.

#[global] Arguments timestamp_field : simpl never.

Lemma timestamp_keeps_time {F : Type} (t : DateTime) : timestamp_field (F := F) (datetime_to_proto t) = FTime t.
Proof.
  unfold timestamp_field, datetime_to_proto. cbn [pt_seconds pt_nanos]. f_equal.
  pose proof (Z.div_mod t 1000000000 ltac:(lia)). lia.
Qed.

Lemma threshold_status_name s : threshold_status_to_str s = threshold_name s.
Proof. by destruct s. Qed.

Lemma same_rows_map {F A B : Type} `{Fields F A} `{Fields F B} (convert : A → B) l :
  (∀ a, same_content F a (convert a)) → same_rows F l (map convert l).
Proof. intros Hc. induction l; cbn; constructor; auto. Qed.

Lemma same_page_intro {F A B : Type} `{Fields F A} `{Fields F B} (convert : A → B) pagination page :
  (∀ a, same_content F a (convert a)) → same_page F pagination page (paginated_to_proto convert page (request_offset pagination)).
Proof. intros Hc. split; [by apply same_rows_map|done]. Qed.

(** The fields of a translation, computed; the times are the instants. *)
Ltac unfold_views :=
  intros; unfold same_content, fields;
  match goal with |- ?a = ?b => let a' := eval hnf in a in let b' := eval hnf in b in change (a' = b') end.
Ltac same_fields_tac :=
  unfold_views; cbn; rewrite ?timestamp_keeps_time, ?threshold_status_name; reflexivity.

Section Translations.
Context {F : Type} `{SerdeJson F} `{UuidText}.

Lemma trace_summary_kept a : same_content F a (trace_summary_to_proto a).
Proof. same_fields_tac. Qed.
Lemma span_detail_kept a : same_content F a (span_detail_to_proto a).
Proof.
  unfold_views. cbn. rewrite timestamp_keeps_time. by destruct (dt_model_parameters a), (dt_events a), (dt_links a).
Qed.
Lemma log_detail_kept a : same_content F a (log_detail_to_proto a).
Proof. same_fields_tac. Qed.
Lemma metric_detail_kept a : same_content F a (metric_detail_to_proto a).
Proof. same_fields_tac. Qed.
Lemma metric_series_point_kept a : same_content F a (metric_series_point_to_proto a).
Proof. same_fields_tac. Qed.
Lemma analytics_result_kept a : same_content F a (analytics_result_to_proto a).
Proof. same_fields_tac. Qed.
Lemma metrics_summary_kept a : same_content F a (metrics_summary_to_proto a).
Proof. same_fields_tac. Qed.
Lemma top_endpoint_kept a : same_content F a (top_endpoint_to_proto a).
Proof. same_fields_tac. Qed.
Lemma error_breakdown_kept a : same_content F a (error_breakdown_to_proto a).
Proof. same_fields_tac. Qed.
Lemma llm_analytics_kept a : same_content F a (llm_analytics_to_proto a).
Proof. same_fields_tac. Qed.
Lemma agent_analytics_kept a : same_content F a (agent_analytics_to_proto a).
Proof. same_fields_tac. Qed.
Lemma storage_usage_kept a : same_content F a (storage_usage_to_proto a).
Proof. same_fields_tac. Qed.
Lemma storage_usage_daily_kept a : same_content F a (storage_usage_daily_to_proto a).
Proof. same_fields_tac. Qed.
Lemma quota_status_kept a : same_content F a (quota_status_to_proto a).
Proof. same_fields_tac. Qed.
Lemma usage_daily_kept a : same_content F a (usage_daily_to_proto a).
Proof. same_fields_tac. Qed.
Lemma ingest_rate_kept a : same_content F a (ingest_rate_to_proto a).
Proof. same_fields_tac. Qed.
Lemma query_usage_kept a : same_content F a (query_usage_to_proto a).
Proof. same_fields_tac. Qed.

Lemma trace_detail_kept a : same_content F a (trace_detail_to_proto a).
Proof.
  unfold_views. cbn. rewrite timestamp_keeps_time, map_map. by rewrite (map_ext _ _ span_detail_kept).
Qed.

Lemma guardrails_kept a : same_content F a (guardrails_analytics_to_proto a).
Proof. unfold_views. cbn. by rewrite !map_map. Qed.
End Translations.

Create HintDb api_fields.
#[export] Hint Resolve trace_summary_kept trace_detail_kept span_detail_kept log_detail_kept metric_detail_kept metric_series_point_kept
  analytics_result_kept metrics_summary_kept top_endpoint_kept error_breakdown_kept llm_analytics_kept agent_analytics_kept guardrails_kept
  storage_usage_kept storage_usage_daily_kept quota_status_kept usage_daily_kept ingest_rate_kept query_usage_kept : api_fields.
