(* ===== verification/QueryApi.v ===== *)
(** The query API over its two transports: the HTTP handlers of
    [api/src/telemetry/handlers.rs] and the gRPC handlers of
    [api/src/grpc/query_handler.rs] and [grpc/analytics_handler.rs].

    A handler authorises the caller, runs one operation of the query service for
    the caller's workspace and translates its answer. *)

From stdpp Require Import base gmap list strings.
From S2P Require Import Prelude Export Auth Authorize FileList WriteBuffer TelemetryWriter ParquetWriter Compactor Lease Retention PolicyStore Enforcer PgUsage PgUsageWorker.
From S2P Require Import StorageUsage Reclaimer Paths FileMover MemoryCache DiskCache Reader Sql Arrow Models Schema SpanSchema TelemetryReader.
From S2P Require Import ListQueries Otlp Analytics ApiTypes QueryService ServiceAnalytics ApiProto ApiFields.

(** What an HTTP handler answers instead of a body. *)
Inductive HttpFailure := HttpRejected (r : HttpRejection) | HttpRefused (code : Z) (message : string) | BadQueryString.

Definition http_refused (e : ControlError) : HttpFailure := let '(code, message) := error_response e in HttpRefused code message.

Section Api.
Context {S E F H : Type} `{Float F} `{FloatArith F} `{SerdeJson F} `{!StorageReader S E F} `{UuidText} `{ChronoTime}.
Context (show_error show_chain : E → string) (retention_message : Z → string) (trim : string → string) (to_rfc3339 : Z → string).
Context (usage_read_error : string).
(** The service, what the request reads from the clock, and the authorizer of
    the query routes. *)
Context (qs : QueryService F) (ck : RequestClock) (now : DateTime) (authorizer : H → outcome AuthError AuthResolution).

(** ** The handlers' common form *)

(** HTTP: the extractors run first, the caller's context and then the query
    string; then [auth.require(cap)?] and the service. *)
Definition http_handle {G A : Type} (cap : Capability) (op : Z → G → svc (S := S) A) (headers : H) (query : option G) :
    S → S * (list ServiceEvent * outcome HttpFailure A) := λ s,
  match from_request_parts (Some Standalone) (Some authorizer) None headers with
  | Ok auth =>
      match query with
      | Some filters =>
          match require auth cap with
          | Ok _ => let '(s, (events, r)) := op (ac_workspace auth) filters s in (s, (events, map_err http_refused r))
          | Err e => (s, ([], Err (http_refused e)))
          | Panic => (s, ([], Panic))
          end
      | None => (s, ([], Err BadQueryString))
      end
  | Err r => (s, ([], Err (HttpRejected r)))
  | Panic => (s, ([], Panic))
  end.

(** gRPC: [authorize_query], the translation of the request, the service, and
    the translation of its answer. *)
Definition grpc_handle {Q G A B : Type} (cap : Capability) (convert : Q → outcome Status G) (op : Z → G → svc (S := S) A)
    (reply : Q → A → B) (headers : H) (req : Q) : S → S * (list ServiceEvent * outcome Status B) := λ s,
  match authorize_request authorizer headers cap with
  | Ok auth =>
      match convert req with
      | Ok filters =>
          let '(s, (events, r)) := op (ac_workspace auth) filters s in (s, (events, reply req <$> map_err map_control_error r))
      | Err st => (s, ([], Err st))
      | Panic => (s, ([], Panic))
      end
  | Err st => (s, ([], Err st))
  | Panic => (s, ([], Panic))
  end.

(** An operation that neither reads the telemetry nor sends anything. *)
Definition direct {G A : Type} (op : Z → G → outcome ControlError A) : Z → G → svc (S := S) A := λ workspace_id g, lift (op workspace_id g).

(** ** Queries *)

Definition op_traces := query_traces show_error retention_message qs ck.
Definition op_spans := query_spans show_error retention_message trim qs ck.
Definition op_logs := query_logs show_error retention_message qs ck.
Definition op_metrics := query_metrics show_error retention_message qs ck.
Definition op_series := query_metric_series show_error qs ck.

Definition http_query_traces := http_handle ReadTraces op_traces.
Definition http_get_trace := http_handle ReadTraces (get_trace show_error).
Definition http_get_span := http_handle ReadTraces (get_span show_error).
Definition http_query_spans := http_handle ReadTraces op_spans.
Definition http_query_logs := http_handle ReadLogs op_logs.
Definition http_get_log := http_handle ReadLogs (get_log show_error).
Definition http_query_metrics := http_handle ReadMetrics op_metrics.
Definition http_query_metric_series := http_handle ReadMetrics op_series.

Definition page_reply {Q X Y : Type} (pagination : Q → option PaginationRequest) (convert : X → Y) (req : Q) (page : Api.PaginatedResponse X) : Pb.Page Y :=
  paginated_to_proto convert page (request_offset (pagination req)).

Definition grpc_query_traces :=
  grpc_handle ReadTraces (λ req, Ok (trace_filters_from_request req)) op_traces (page_reply Pb.pt_pagination trace_summary_to_proto).
Definition grpc_get_trace := grpc_handle ReadTraces Ok (get_trace show_error) (λ _, trace_detail_to_proto).
Definition grpc_query_spans :=
  grpc_handle ReadTraces (λ req, Ok (span_filters_from_request req)) op_spans (page_reply Pb.ps_pagination span_detail_to_proto).
Definition grpc_get_span := grpc_handle ReadTraces Ok (get_span show_error) (λ _, span_detail_to_proto).
Definition grpc_query_logs :=
  grpc_handle ReadLogs (λ req, Ok (log_filters_from_request req)) op_logs (page_reply Pb.pl_pagination log_detail_to_proto).
Definition grpc_get_log := grpc_handle ReadLogs Ok (get_log show_error) (λ _, log_detail_to_proto).
Definition grpc_query_metrics :=
  grpc_handle ReadMetrics (λ req, Ok (metric_filters_from_request req)) op_metrics (page_reply Pb.pm_pagination metric_detail_to_proto).
Definition grpc_query_metric_series :=
  grpc_handle ReadMetrics (λ req, Ok (metric_series_filters_from_request req)) op_series (λ _, map metric_series_point_to_proto).

(** ** Analytics *)

Definition op_analytics := get_analytics show_error trim to_rfc3339 now.
Definition op_summary := service_metrics_summary (F := F) show_error now.
Definition op_llm := get_llm_analytics show_error now.
Definition op_agents := get_agent_analytics show_error now.
Definition op_guardrails := service_guardrails (F := F) show_chain now.
Definition op_storage_usage := direct (get_storage_usage qs).
Definition op_storage_usage_daily := direct (get_storage_usage_daily qs).
Definition op_quota_status := direct (get_quota_status usage_read_error qs).
Definition op_usage_daily := direct (get_usage_daily qs).
Definition op_ingest_rate := direct (get_ingest_rate qs now).
Definition op_query_usage := direct (get_query_usage qs now).

Definition http_get_analytics := http_handle ReadDashboards op_analytics.
Definition http_get_metrics_summary := http_handle ReadMetrics op_summary.
Definition http_get_top_endpoints := http_handle ReadDashboards (get_top_endpoints show_error).
Definition http_get_error_breakdown := http_handle ReadDashboards (get_error_breakdown show_error).
Definition http_get_llm_analytics := http_handle ReadDashboards op_llm.
Definition http_get_agent_analytics := http_handle ReadDashboards op_agents.
Definition http_get_guardrails_analytics := http_handle ReadDashboards op_guardrails.
Definition http_get_storage_usage := http_handle ReadDashboards op_storage_usage.
Definition http_get_storage_usage_daily := http_handle ReadDashboards op_storage_usage_daily.
Definition http_get_quota_status := http_handle ReadDashboards op_quota_status.
Definition http_get_usage_daily := http_handle ReadDashboards op_usage_daily.
Definition http_get_ingest_rate := http_handle ReadDashboards op_ingest_rate.
Definition http_get_query_usage := http_handle ReadDashboards op_query_usage.

Definition grpc_get_analytics :=
  grpc_handle ReadDashboards (λ req, Ok (analytics_query_from_fields req)) op_analytics (λ _, map analytics_result_to_proto).
Definition grpc_get_metrics_summary := grpc_handle ReadMetrics (λ req, Ok (analytics_query_from_range req)) op_summary (λ _, metrics_summary_to_proto).
Definition grpc_get_top_endpoints := grpc_handle ReadDashboards top_n_query_from_request (get_top_endpoints show_error) (λ _, map top_endpoint_to_proto).
Definition grpc_get_error_breakdown := grpc_handle ReadDashboards error_analytics_from_request (get_error_breakdown show_error) (λ _, map error_breakdown_to_proto).
Definition grpc_get_llm_analytics := grpc_handle ReadDashboards (λ req, Ok (analytics_query_from_fields req)) op_llm (λ _, map llm_analytics_to_proto).
Definition grpc_get_agent_analytics := grpc_handle ReadDashboards (λ req, Ok (analytics_query_from_fields req)) op_agents (λ _, map agent_analytics_to_proto).
Definition grpc_get_guardrails_analytics := grpc_handle ReadDashboards (λ req, Ok (analytics_query_from_range req)) op_guardrails (λ _, guardrails_analytics_to_proto).
Definition grpc_get_storage_usage := grpc_handle ReadDashboards (λ req, Ok (storage_usage_query_from_request req)) op_storage_usage (λ _, map storage_usage_to_proto).
Definition grpc_get_storage_usage_daily :=
  grpc_handle ReadDashboards (λ req, Ok (signal_window_from_request req)) op_storage_usage_daily (λ _, map storage_usage_daily_to_proto).
Definition grpc_get_quota_status := grpc_handle ReadDashboards Ok op_quota_status (λ _, map quota_status_to_proto).
Definition grpc_get_usage_daily := grpc_handle ReadDashboards (λ req, Ok (signal_window_from_request req)) op_usage_daily (λ _, map usage_daily_to_proto).
Definition grpc_get_ingest_rate := grpc_handle ReadDashboards (λ req, Ok (signal_window_from_request req)) op_ingest_rate (λ _, map ingest_rate_to_proto).
Definition grpc_get_query_usage := grpc_handle ReadDashboards (λ req, Ok (signal_window_from_request req)) op_query_usage (λ _, map query_usage_to_proto).
End Api.

(** ** What the two transports have in common *)

(** A refusal over HTTP and one over gRPC mean the same: the codes correspond, and
    so do the messages of all but server errors. *)
Definition same_refusal (h : HttpFailure) (s : Status) : Prop :=
  match h with
  | HttpRejected r => rj_code r = http_status (st_code s)
  | HttpRefused code message => code = http_status (st_code s) ∧ (code ≠ 500 → message = st_message s)
  | BadQueryString => False
  end.

(** Two handlers agree: the storage is left in the same state, the same events
    were sent, and the two answers are the [same]. *)
Definition agree {S A B : Type} (same : A → B → Prop) (h : S * (list ServiceEvent * outcome HttpFailure A))
    (g : S * (list ServiceEvent * outcome Status B)) : Prop :=
  h.1 = g.1 ∧ h.2.1 = g.2.1 ∧
  match h.2.2, g.2.2 with
  | Ok a, Ok b => same a b
  | Err e, Err s => same_refusal e s
  | Panic, Panic => True
  | _, _ => False
  end.

Lemma control_errors_agree e : same_refusal (http_refused e) (map_control_error e).
Proof. by destruct e. Qed.

Section Agreement.
Context {S H : Type} (authorizer : H → outcome AuthError AuthResolution).

(** A verified caller with the capability. *)
Definition verified (headers : H) (cap : Capability) (auth : AuthContext) : Prop :=
  authorize_request authorizer headers cap = Ok auth.

Lemma http_authorized cap headers :
  match authorize_request authorizer headers cap with
  | Ok auth => from_request_parts (Some Standalone) (Some authorizer) None headers = Ok auth ∧ require auth cap = Ok ()
  | Err st =>
      (∃ r, from_request_parts (Some Standalone) (Some authorizer) None headers = Err r ∧ rj_code r = http_status (st_code st)) ∨
      (∃ auth e, from_request_parts (Some Standalone) (Some authorizer) None headers = Ok auth ∧ require auth cap = Err e ∧
         same_refusal (http_refused e) st)
  | Panic => from_request_parts (Some Standalone) (Some authorizer) None headers = Panic
  end.
Proof.
  pose proof (transports_authorize_alike authorizer headers cap) as Ha. cbn zeta in Ha.
  destruct (authorize_request authorizer headers cap) as [auth|st|]; [exact Ha| |exact Ha].
  destruct Ha as [(r & Hr & [[-> ->]|(d & Hc & _ & Hs & _)])|(auth & m & Hr & Hq & ->)].
  - left. by eexists.
  - left. exists r. by rewrite Hc, Hs.
  - right. exists auth, (Forbidden m). done.
Qed.

Lemma handlers_agree {Q G A B : Type} cap (convert : Q → outcome Status G) (op : Z → G → svc (S := S) A) (reply : Q → A → B) (same : A → B → Prop)
    headers req filters s :
  convert req = Ok filters → (∀ a, same a (reply req a)) →
  agree same (http_handle authorizer cap op headers (Some filters) s) (grpc_handle authorizer cap convert op reply headers req s).
Proof.
  intros Hconv Hsame. unfold http_handle, grpc_handle. pose proof (http_authorized cap headers) as Ha.
  destruct (authorize_request authorizer headers cap) as [auth|st|].
  - destruct Ha as [-> ->]. rewrite Hconv. destruct (op (ac_workspace auth) filters s) as [s' [events [a|e|]]]; cbn; [by split; [|split; [|apply Hsame]]| |done].
    split; [done|]. split; [done|]. apply control_errors_agree.
  - destruct Ha as [(r & -> & Hr)|(auth & e & -> & -> & He)]; done.
  - by rewrite Ha.
Qed.

Lemma http_handle_Ok {G A : Type} cap (op : Z → G → svc (S := S) A) headers query s s' events a :
  http_handle authorizer cap op headers query s = (s', (events, Ok a)) →
  ∃ auth filters, verified headers cap auth ∧ query = Some filters ∧ op (ac_workspace auth) filters s = (s', (events, Ok a)).
Proof.
  unfold http_handle, verified. pose proof (http_authorized cap headers) as Ha.
  destruct (authorize_request authorizer headers cap) as [auth|st|].
  - destruct Ha as [-> ->]. destruct query as [filters|]; [|done]. destruct (op (ac_workspace auth) filters s) as [s1 [ev1 [a1|e|]]] eqn:Hop; [|done|done].
    cbn. intros [= -> -> ->]. by exists auth, filters.
  - destruct Ha as [(r & -> & Hr)|(auth & e & -> & -> & He)]; [done|by destruct query].
  - by rewrite Ha.
Qed.

Lemma grpc_handle_Ok {Q G A B : Type} cap (convert : Q → outcome Status G) (op : Z → G → svc (S := S) A) (reply : Q → A → B) headers req s s' events b :
  grpc_handle authorizer cap convert op reply headers req s = (s', (events, Ok b)) →
  ∃ auth filters a, verified headers cap auth ∧ convert req = Ok filters ∧
    op (ac_workspace auth) filters s = (s', (events, Ok a)) ∧ b = reply req a.
Proof.
  unfold grpc_handle, verified. destruct (authorize_request authorizer headers cap) as [auth|st|]; [|done|done].
  destruct (convert req) as [filters|st|] eqn:Hconv; [|done|done].
  destruct (op (ac_workspace auth) filters s) as [s1 [ev1 [a1|e|]]] eqn:Hop; cbn; [|done|done].
  intros [= -> -> <-]. by exists auth, filters, a1.
Qed.

(** A caller that is not verified reaches neither the service nor the storage. *)
Lemma refused_untouched {Q G A B : Type} cap (convert : Q → outcome Status G) (op : Z → G → svc (S := S) A) (reply : Q → A → B) headers req query s :
  (∀ auth, ¬ verified headers cap auth) →
  (∃ r, http_handle authorizer cap op headers query s = (s, ([], r))) ∧
  (∃ r, grpc_handle authorizer cap convert op reply headers req s = (s, ([], r))).
Proof.
  intros Hno. unfold http_handle, grpc_handle. pose proof (http_authorized cap headers) as Ha. unfold verified in Hno.
  destruct (authorize_request authorizer headers cap) as [auth|st|]; [by destruct (Hno auth)| |].
  - split; [|by eexists]. destruct Ha as [(r & -> & Hr)|(auth & e & -> & -> & He)]; [by eexists|]. destruct query; by eexists.
  - rewrite Ha. split; by eexists.
Qed.
End Agreement.

Section Properties.
#[local] Existing Instance svc_bind.
#[local] Existing Instance svc_ret.
Context {S E F H : Type} `{Float F} `{FloatArith F} `{SerdeJson F} `{!StorageReader S E F} `{UuidText} `{ChronoTime}.
Context (show_error show_chain : E → string) (retention_message : Z → string) (trim : string → string) (to_rfc3339 : Z → string).
Context (usage_read_error : string) (qs : QueryService F) (ck : RequestClock) (now : DateTime) (authorizer : H → outcome AuthError AuthResolution).


(** What a page of the list queries is, for the caller's workspace. *)
Definition traces_page (ws : Z) f s s' events page : Prop :=
  answered_by qs ck ws Traces (Api.at_start_time f) (Api.at_end_time f) sr_query_traces trace_summary
    (λ g, tq_workspace_id g = Some ws ∧ retention_restricts qs ck ws (either_bound (Api.at_start_time f) (Api.at_end_time f)) (tq_time_range g)) s s' events page.
Definition spans_page (ws : Z) f s s' events page : Prop :=
  answered_by qs ck ws Traces (Api.as_start_time f) (Api.as_end_time f) sr_query_spans span_detail
    (λ g, sq_workspace_id g = Some ws ∧ retention_restricts qs ck ws (either_bound (Api.as_start_time f) (Api.as_end_time f)) (sq_time_range g)) s s' events page.
Definition logs_page (ws : Z) f s s' events page : Prop :=
  answered_by qs ck ws Logs (Api.al_start_time f) (Api.al_end_time f) sr_query_logs log_detail
    (λ g, lq_workspace_id g = Some ws ∧ retention_restricts qs ck ws (end_bound (Api.al_end_time f)) (lq_time_range g)) s s' events page.
Definition metrics_page (ws : Z) f s s' events page : Prop :=
  answered_by qs ck ws Metrics (Api.am_start_time f) (Api.am_end_time f) sr_query_metrics metric_detail
    (λ g, mq_workspace_id g = Some ws ∧ retention_restricts qs ck ws (end_bound (Api.am_end_time f)) (mq_time_range g)) s s' events page.

(** A page is only answered to a verified caller with the capability of the
    signal. *)
Definition scoped_answer {X : Type} (headers : H) (cap : Capability) (page_of : Z → S → S → list ServiceEvent → Api.PaginatedResponse X → Prop)
    (s s' : S) events page : Prop :=
  ∃ auth, verified authorizer headers cap auth ∧ page_of (ac_workspace auth) s s' events page.

(** C23: Every page a list query of either transport returns was asked for by a caller
    whose key the authorizer verified and who holds the signal's capability,
    and is the storage's answer to one filter: that filter names the workspace
    of that caller and no other, and the policy allowed the query; with a usage
    tracker exactly one sample is sent. The retention restricts only a bounded
    request: one for traces or spans that gives a start or an end, one for logs
    or metrics that gives an end. The filter of a bounded request has a time
    range that begins no earlier than the workspace's retention allows; that of
    any other request has none, and rows beyond the retention are answered. The
    gRPC answer is the translation of such a page. *)
Theorem query_api_scoped headers s s' events :
  (∀ query page, http_query_traces show_error retention_message qs ck authorizer headers query s = (s', (events, Ok page)) →
    ∃ f, query = Some f ∧ scoped_answer headers ReadTraces (λ ws, traces_page ws f) s s' events page) ∧
  (∀ query page, http_query_spans show_error retention_message trim qs ck authorizer headers query s = (s', (events, Ok page)) →
    ∃ f, query = Some f ∧ scoped_answer headers ReadTraces (λ ws, spans_page ws f) s s' events page) ∧
  (∀ query page, http_query_logs show_error retention_message qs ck authorizer headers query s = (s', (events, Ok page)) →
    ∃ f, query = Some f ∧ scoped_answer headers ReadLogs (λ ws, logs_page ws f) s s' events page) ∧
  (∀ query page, http_query_metrics show_error retention_message qs ck authorizer headers query s = (s', (events, Ok page)) →
    ∃ f, query = Some f ∧ scoped_answer headers ReadMetrics (λ ws, metrics_page ws f) s s' events page) ∧
  (∀ req reply, grpc_query_traces show_error retention_message qs ck authorizer headers req s = (s', (events, Ok reply)) →
    ∃ page, reply = page_reply Pb.pt_pagination trace_summary_to_proto req page ∧
      scoped_answer headers ReadTraces (λ ws, traces_page ws (trace_filters_from_request req)) s s' events page) ∧
  (∀ req reply, grpc_query_spans show_error retention_message trim qs ck authorizer headers req s = (s', (events, Ok reply)) →
    ∃ page, reply = page_reply Pb.ps_pagination span_detail_to_proto req page ∧
      scoped_answer headers ReadTraces (λ ws, spans_page ws (span_filters_from_request req)) s s' events page) ∧
  (∀ req reply, grpc_query_logs show_error retention_message qs ck authorizer headers req s = (s', (events, Ok reply)) →
    ∃ page, reply = page_reply Pb.pl_pagination log_detail_to_proto req page ∧
      scoped_answer headers ReadLogs (λ ws, logs_page ws (log_filters_from_request req)) s s' events page) ∧
  (∀ req reply, grpc_query_metrics show_error retention_message qs ck authorizer headers req s = (s', (events, Ok reply)) →
    ∃ page, reply = page_reply Pb.pm_pagination metric_detail_to_proto req page ∧
      scoped_answer headers ReadMetrics (λ ws, metrics_page ws (metric_filters_from_request req)) s s' events page).
Proof.
  assert (∀ ws, _) as Hscoped by (intros ws; exact (list_queries_scoped show_error retention_message trim qs ck ws s s' events)).
  repeat apply conj.
  1-4: intros query page (auth & f & Hv & -> & Hop)%http_handle_Ok; exists f; split; [done|]; exists auth; split; [done|]; by apply (Hscoped (ac_workspace auth)).
  all: intros req reply (auth & f & page & Hv & [= <-] & Hop & ->)%grpc_handle_Ok; exists page; split; [done|]; exists auth; split; [done|];
    by apply (Hscoped (ac_workspace auth)).
Qed.

(** A failing storage: over HTTP the caller reads a fixed sentence, over gRPC the
    text of the failure. *)
Theorem grpc_reveals_storage_errors headers auth id s s' e :
  verified authorizer headers ReadLogs auth → sr_get_log s (ac_workspace auth) id = (s', Err e) →
  http_get_log show_error authorizer headers (Some id) s = (s', ([], Err (HttpRefused 500 "Internal server error"))) ∧
  grpc_get_log show_error authorizer headers id s = (s', ([], Err (status InternalError ("Storage error: " +:+ show_error e)))).
Proof.
  unfold verified. intros Hv Hg. pose proof (http_authorized authorizer ReadLogs headers) as Ha. rewrite Hv in Ha. destruct Ha as [Hp Hr].
  unfold http_get_log, grpc_get_log, http_handle, grpc_handle. rewrite Hp, Hv, Hr.
  assert (∀ k, (storage show_error "Storage error" (λ s, sr_get_log s (ac_workspace auth) id) ≫= k) s = (s', ([], Err (Internal ("Storage error: " +:+ show_error e))) : list ServiceEvent * outcome ControlError (LogDetail F))) as Hop.
  { intros k. unfold mbind, svc_bind, storage. by rewrite Hg. }
  unfold get_log. by rewrite Hop.
Qed.

(** The limit of a gRPC page is positive, unlike over HTTP, where a negative limit
    wraps; a negative offset reads as none. *)
Theorem grpc_pages_bounded (pagination : option PaginationRequest) :
  (∀ p, pagination = Some p → pq_limit p < 2 ^ 31) →
  let '(limit, offset) := pagination_limit_offset pagination in
  0 < limit < 2 ^ 31 ∧ pg_limit (api_pagination (Some limit) (Some offset)) = Some limit ∧
  ((∀ p, pagination = Some p → pq_offset p < 2 ^ 31) → pg_offset (api_pagination (Some limit) (Some offset)) = Some (Z.max offset 0)).
Proof.
  intros Hp. unfold pagination_limit_offset. destruct pagination as [p|]; [specialize (Hp p eq_refl)|by cbn].
  unfold api_pagination, u32_of_i64. cbn [default pg_limit pg_offset].
  split; [|split].
  - destruct (Z.ltb_spec 0 (pq_limit p)); lia.
  - f_equal. apply Z.mod_small. destruct (Z.ltb_spec 0 (pq_limit p)); lia.
  - intros Ho. specialize (Ho p eq_refl). f_equal. apply Z.mod_small. cbn. lia.
Qed.
End Properties.

(** ** Witnesses *)

Section Witnesses.
#[local] Existing Instance chrono_concrete.
#[local] Existing Instance uuid_concrete.
#[local] Existing Instance Otlp.Sample.sample_float.
#[local] Existing Instance Otlp.Sample.sample_json.
#[local] Existing Instance sample_arith.
#[local] Existing Instance canned_storage.

(** [chrono]'s constructor on a window of seconds around the epoch. *)
#[local] Program Instance chrono_time_concrete : ChronoTime := {|
  from_timestamp secs nsecs :=
    if (Z.abs secs <? 2 ^ 40) && (nsecs <? 1000000000) then Some (secs * 1000000000 + nsecs) else None;
  datetime_range secs := Z.abs secs < 2 ^ 40;
|}.
Next Obligation.
  intros secs nsecs Hs Hn. cbn beta in *. apply Z.ltb_lt in Hs. rewrite Hs. destruct Hn as [_ Hn%Z.ltb_lt]. by rewrite Hn.
Qed.
Next Obligation.
  intros secs nsecs Hn. cbn beta. assert ((nsecs <? 1000000000) = false) as -> by (apply Z.ltb_ge; lia).
  by rewrite andb_false_r.
Qed.

(** A key that reads the logs of workspace 3, and no other key. *)
Definition log_reader (key : string) : outcome AuthError AuthResolution :=
  if String.eqb key "key" then Ok (mkResolution (mkContext 3) ["read_logs"]) else Err [].

Definition log_request : Pb.QueryLogsRequest :=
  Pb.mkQueryLogsRequest (Some (mkProtoRange (Some (mkTimestamp 0 100)) (Some (mkTimestamp 0 5010)))) (Some "INFO") None None None None None
    (Some (mkPaginationRequest 0 (-1))).

Definition log_events : list ServiceEvent := [QueryRecorded (mkQuerySample 3 Logs 0 (Some 1) (Some 7) SumAllow 8)].


Lemma query_api_scoped_witness : ∃ page, Pb.mkPbPage (map log_detail_to_proto [log_detail (F := Z) (sample_log 12)]) 1 100 (-1) = page_reply Pb.pl_pagination log_detail_to_proto log_request page ∧
  scoped_answer log_reader "key" ReadLogs (λ ws, logs_page day_service day_clock ws (log_filters_from_request log_request)) 0%nat 1%nat log_events page.
Proof.
  pose proof (query_api_scoped (F := Z) (λ _, "") (λ _, "") (λ x, x) day_service day_clock log_reader "key" 0%nat 1%nat log_events) as Hall.
  destruct Hall as (_ & _ & _ & _ & _ & _ & Hlogs & _). apply Hlogs. vm_compute. reflexivity.
Defined.
End Witnesses.
