(* ===== verification/Config.v ===== *)
(** The configuration of the server: the structures of [zradar-models/src/config/]
    with their serde defaults, and [Config::load].

    A TOML document is the table the [toml] crate parses it to, and the
    deserialisers are those serde derives: a missing key takes its default, a
    value of another type or out of range is an error, an unknown key is not
    looked at. *)

From stdpp Require Import base list strings.
From Stdlib Require Import Ascii.
From S2P Require Import Prelude Auth Sql.

Inductive Toml :=
| TomlInteger (z : Z)
| TomlString (s : string)
| TomlBoolean (b : bool)
| TomlArray (vs : list Toml)
| TomlTable (t : list (string * Toml)).

Definition table : Type := list (string * Toml).

(** ** serde *)

Fixpoint find_key (t : table) (name : string) : option Toml :=
  match t with
  | [] => None
  | (k, v) :: t => if String.eqb k name then Some v else find_key t name
  end.

Definition field {A : Type} (t : table) (name : string) (decode : Toml → option A) (missing : option A) : option A :=
  match find_key t name with Some v => decode v | None => missing end.

(** [#[serde(default = "..")]], [#[serde(default)]] on an [Option], and a field without default. *)
Definition with_default {A : Type} (t : table) name (decode : Toml → option A) (d : A) : option A := field t name decode (Some d).
Definition optional {A : Type} (t : table) name (decode : Toml → option A) : option (option A) := field t name (λ v, Some <$> decode v) (Some None).
Definition required {A : Type} (t : table) name (decode : Toml → option A) : option A := field t name decode None.

Definition integer_in (low high : Z) (v : Toml) : option Z :=
  match v with TomlInteger z => if (low <=? z) && (z <=? high) then Some z else None | _ => None end.
Definition as_u8 : Toml → option Z := integer_in 0 u8_max.
Definition as_u16 : Toml → option Z := integer_in 0 (2 ^ 16 - 1).
Definition as_u32 : Toml → option Z := integer_in 0 u32_max.
(** A TOML integer has 64 bits and a sign. *)
Definition as_u64 : Toml → option Z := integer_in 0 i64_max.
Definition as_i64 : Toml → option Z := integer_in i64_min i64_max.
Definition as_usize : Toml → option Z := as_u64.
Definition as_string (v : Toml) : option string := match v with TomlString s => Some s | _ => None end.
Definition as_bool (v : Toml) : option bool := match v with TomlBoolean b => Some b | _ => None end.
Definition as_table {A : Type} (decode : table → option A) (v : Toml) : option A := match v with TomlTable t => decode t | _ => None end.
Definition as_list {A : Type} (decode : Toml → option A) (v : Toml) : option (list A) := match v with TomlArray vs => mapM decode vs | _ => None end.

(** ** The structures *)

Record OtlpLimitsConfig := mkOtlpLimits {
  max_concurrent_requests : Z;
  request_timeout_secs : Z;
  grpc_max_decoding_message_bytes : Z;
  grpc_max_concurrent_streams : Z;
  grpc_http2_keepalive_interval_secs : Z;
  grpc_http2_keepalive_timeout_secs : Z;
  grpc_tcp_keepalive_secs : Z;
  http_max_body_bytes : Z;
  http_header_read_timeout_secs : Z;
  http_body_read_timeout_secs : Z;
  http_max_decoded_body_bytes : option Z;
  auth_timeout_secs : Z;
}.

Definition otlp_limits_default : OtlpLimitsConfig :=
  mkOtlpLimits 256 30 (4 * 1024 * 1024) 100 60 20 60 (8 * 1024 * 1024) 30 15 None 10.

Definition otlp_limits_from (t : table) : option OtlpLimitsConfig :=
  requests ← with_default t "max_concurrent_requests" as_usize 256;
  timeout ← with_default t "request_timeout_secs" as_u64 30;
  message ← with_default t "grpc_max_decoding_message_bytes" as_usize (4 * 1024 * 1024);
  streams ← with_default t "grpc_max_concurrent_streams" as_u32 100;
  interval ← with_default t "grpc_http2_keepalive_interval_secs" as_u64 60;
  ack ← with_default t "grpc_http2_keepalive_timeout_secs" as_u64 20;
  tcp ← with_default t "grpc_tcp_keepalive_secs" as_u64 60;
  body ← with_default t "http_max_body_bytes" as_usize (8 * 1024 * 1024);
  header ← with_default t "http_header_read_timeout_secs" as_u64 30;
  body_read ← with_default t "http_body_read_timeout_secs" as_u64 15;
  decoded ← optional t "http_max_decoded_body_bytes" as_usize;
  auth ← with_default t "auth_timeout_secs" as_u64 10;
  Some (mkOtlpLimits requests timeout message streams interval ack tcp body header body_read decoded auth).

Definition effective_http_max_decoded_body_bytes (c : OtlpLimitsConfig) : Z :=
  default (http_max_body_bytes c) (http_max_decoded_body_bytes c).

Record AuthConfig := mkAuthConfig { otlp_require_api_key : bool; allow_test_header_context : bool }.
Definition auth_default : AuthConfig := mkAuthConfig true false.
Definition auth_from (t : table) : option AuthConfig :=
  require_key ← with_default t "otlp_require_api_key" as_bool true;
  allow ← with_default t "allow_test_header_context" as_bool false;
  Some (mkAuthConfig require_key allow).

Record WalIngestorConfig := mkWalIngestor {
  wi_wal_dir : string;
  wi_segment_max_bytes : Z;
  wi_flush_interval_ms : Z;
  wi_group_commit_window_ms : Z;
  wi_replay_batch_max_bytes : Z;
  wi_wal_min_free_bytes : Z;
  wi_disk_check_interval : Z;
}.
Definition wal_ingestor_default : WalIngestorConfig :=
  mkWalIngestor "./data/wal" (256 * 1024 * 1024) 200 1 (64 * 1024 * 1024) (1024 * 1024 * 1024) 1024.
Definition wal_ingestor_from (t : table) : option WalIngestorConfig :=
  dir ← with_default t "wal_dir" as_string "./data/wal";
  segment ← with_default t "segment_max_bytes" as_u64 (256 * 1024 * 1024);
  flush ← with_default t "flush_interval_ms" as_u64 200;
  window ← with_default t "group_commit_window_ms" as_u64 1;
  replay ← with_default t "replay_batch_max_bytes" as_u64 (64 * 1024 * 1024);
  free ← with_default t "wal_min_free_bytes" as_u64 (1024 * 1024 * 1024);
  check ← with_default t "disk_check_interval" as_u64 1024;
  Some (mkWalIngestor dir segment flush window replay free check).

Record S3StorageConfig := mkS3Storage { s3_bucket : string; s3_region : string; s3_endpoint : option string }.
Definition s3_storage_from (t : table) : option S3StorageConfig :=
  bucket ← required t "bucket" as_string;
  region ← required t "region" as_string;
  endpoint ← optional t "endpoint" as_string;
  Some (mkS3Storage bucket region endpoint).

Record ParquetStorageConfig := mkParquetStorage {
  ps_file_push_delay_secs : Z;
  ps_file_push_interval_secs : Z;
  ps_file_delete_local_delay_secs : Z;
  ps_cache_dir : string;
  ps_cache_max_size_bytes : Z;
  ps_cache_ttl_secs : Z;
  ps_retention_check_interval_secs : Z;
  ps_storage_snapshot_interval_secs : Z;
  ps_retention_days : Z;
  ps_circuit_breaker_max_disk_usage_percent : Z;
  ps_circuit_breaker_max_memory_usage_percent : Z;
  ps_circuit_breaker_max_queue_depth : Z;
  ps_bloom_filter_columns : list string;
  ps_fsync_before_rename : bool;
  ps_write_buffer_enabled : bool;
  ps_write_buffer_size_bytes : Z;
  ps_write_buffer_flush_interval_secs : Z;
  ps_memory_cache_enabled : bool;
  ps_memory_cache_max_bytes : Z;
  ps_memory_cache_shards : Z;
  ps_compaction_enabled : bool;
  ps_compaction_check_interval_secs : Z;
  ps_compaction_min_files : Z;
  ps_compaction_max_file_size_bytes : Z;
}.

Definition parquet_storage_default : ParquetStorageConfig := {|
  ps_file_push_delay_secs := 60;
  ps_file_push_interval_secs := 30;
  ps_file_delete_local_delay_secs := 300;
  ps_cache_dir := "./data/parquet-cache";
  ps_cache_max_size_bytes := 1073741824;
  ps_cache_ttl_secs := 3600;
  ps_retention_check_interval_secs := 3600;
  ps_storage_snapshot_interval_secs := 86400;
  ps_retention_days := 30;
  ps_circuit_breaker_max_disk_usage_percent := 95;
  ps_circuit_breaker_max_memory_usage_percent := 95;
  ps_circuit_breaker_max_queue_depth := 10000;
  ps_bloom_filter_columns := ["trace_id"; "span_id"; "id"];
  ps_fsync_before_rename := true;
  ps_write_buffer_enabled := true;
  ps_write_buffer_size_bytes := 8 * 1024 * 1024;
  ps_write_buffer_flush_interval_secs := 30;
  ps_memory_cache_enabled := true;
  ps_memory_cache_max_bytes := 256 * 1024 * 1024;
  ps_memory_cache_shards := 16;
  ps_compaction_enabled := true;
  ps_compaction_check_interval_secs := 3600;
  ps_compaction_min_files := 4;
  ps_compaction_max_file_size_bytes := 52428800;
|}.

Definition parquet_storage_from (t : table) : option ParquetStorageConfig :=
  push_delay ← with_default t "file_push_delay_secs" as_u64 60;
  push_interval ← with_default t "file_push_interval_secs" as_u64 30;
  delete_delay ← with_default t "file_delete_local_delay_secs" as_u64 300;
  cache_dir ← with_default t "cache_dir" as_string "./data/parquet-cache";
  cache_size ← with_default t "cache_max_size_bytes" as_u64 1073741824;
  cache_ttl ← with_default t "cache_ttl_secs" as_u64 3600;
  retention_check ← with_default t "retention_check_interval_secs" as_u64 3600;
  snapshot ← with_default t "storage_snapshot_interval_secs" as_u64 86400;
  days ← with_default t "retention_days" as_u32 30;
  disk ← with_default t "circuit_breaker_max_disk_usage_percent" as_u8 95;
  memory ← with_default t "circuit_breaker_max_memory_usage_percent" as_u8 95;
  queue ← with_default t "circuit_breaker_max_queue_depth" as_u64 10000;
  bloom ← with_default t "bloom_filter_columns" (as_list as_string) ["trace_id"; "span_id"; "id"];
  fsync ← with_default t "fsync_before_rename" as_bool true;
  buffer ← with_default t "write_buffer_enabled" as_bool true;
  buffer_size ← with_default t "write_buffer_size_bytes" as_usize (8 * 1024 * 1024);
  buffer_flush ← with_default t "write_buffer_flush_interval_secs" as_u64 30;
  mem ← with_default t "memory_cache_enabled" as_bool true;
  mem_bytes ← with_default t "memory_cache_max_bytes" as_u64 (256 * 1024 * 1024);
  mem_shards ← with_default t "memory_cache_shards" as_usize 16;
  compaction ← with_default t "compaction_enabled" as_bool true;
  compaction_check ← with_default t "compaction_check_interval_secs" as_u64 3600;
  compaction_files ← with_default t "compaction_min_files" as_usize 4;
  compaction_size ← with_default t "compaction_max_file_size_bytes" as_i64 52428800;
  Some (mkParquetStorage push_delay push_interval delete_delay cache_dir cache_size cache_ttl retention_check snapshot days disk memory queue
    bloom fsync buffer buffer_size buffer_flush mem mem_bytes mem_shards compaction compaction_check compaction_files compaction_size).

Record StorageConfig := mkStorageConfig { sc_s3 : option S3StorageConfig; sc_parquet_data_dir : string; sc_parquet : ParquetStorageConfig }.
Definition storage_default : StorageConfig := mkStorageConfig None "./data/parquet-files" parquet_storage_default.
Definition storage_from (t : table) : option StorageConfig :=
  s3 ← optional t "s3" (as_table s3_storage_from);
  dir ← with_default t "parquet_data_dir" as_string "./data/parquet-files";
  parquet ← with_default t "parquet" (as_table parquet_storage_from) parquet_storage_default;
  Some (mkStorageConfig s3 dir parquet).

Record IngestorConfig := mkIngestor { ig_storage : StorageConfig; ig_wal : WalIngestorConfig }.
Definition ingestor_from (t : table) : option IngestorConfig :=
  storage ← with_default t "storage" (as_table storage_from) storage_default;
  wal ← with_default t "wal" (as_table wal_ingestor_from) wal_ingestor_default;
  Some (mkIngestor storage wal).

Record Config := mkConfig {
  otlp_port : Z;
  otlp_http_port : Z;
  query_api_port : Z;
  batch_size : Z;
  batch_timeout_seconds : Z;
  postgres_max_connections : option Z;
  api_keys : list ApiKeyConfig;
  cf_auth : AuthConfig;
  ingestor : option IngestorConfig;
  admin_api_port : option Z;
  query_grpc_port : option Z;
  admin_grpc_port : option Z;
  cors_allowed_origins : list string;
  otlp_limits : OtlpLimitsConfig;
}.

(** [effective_admin_port] and the gRPC ports. *)
Definition effective_admin_port (c : Config) : Z := default (query_api_port c) (admin_api_port c).
Definition effective_query_grpc_port (c : Config) : Z := default 8081 (query_grpc_port c).
Definition effective_admin_grpc_port (c : Config) : Z := default 8082 (admin_grpc_port c).

Section Load.
(** The uuid crate's parser and the toml crate's. *)
Context (parse_uuid : string → option Z) (parse_toml : string → option table).

(** The name of a key is a string and is not used. *)
Definition api_key_from (t : table) : option ApiKeyConfig :=
  key ← required t "key" as_string;
  workspace ← required t "workspace_id" (λ v, s ← as_string v; parse_uuid s);
  _ ← with_default t "name" as_string "";
  Some (mkApiKey key workspace).

Definition postgres_from (t : table) : option Z := with_default t "max_connections" as_usize 10.
Definition cors_from (t : table) : option (list string) := with_default t "allowed_origins" (as_list as_string) [].

Definition config_from (t : table) : option Config :=
  otlp ← with_default t "otlp_port" as_u16 4317;
  http ← with_default t "otlp_http_port" as_u16 4318;
  query ← with_default t "query_api_port" as_u16 8080;
  batch ← with_default t "batch_size" as_usize 1000;
  timeout ← with_default t "batch_timeout_seconds" as_u64 10;
  postgres ← optional t "postgres" (as_table postgres_from);
  keys ← with_default t "api_keys" (as_list (as_table api_key_from)) [];
  auth ← with_default t "auth" (as_table auth_from) auth_default;
  ingestor ← optional t "ingestor" (as_table ingestor_from);
  admin ← optional t "admin_api_port" as_u16;
  query_grpc ← optional t "query_grpc_port" as_u16;
  admin_grpc ← optional t "admin_grpc_port" as_u16;
  cors ← with_default t "cors" (as_table cors_from) [];
  limits ← with_default t "otlp_limits" (as_table otlp_limits_from) otlp_limits_default;
  Some (mkConfig otlp http query batch timeout postgres keys auth ingestor admin query_grpc admin_grpc cors limits).

(** ** Loading *)

(** [str::parse] of an unsigned integer: digits after an optional plus sign. *)
Definition is_ascii_digit (c : ascii) : bool := let n := nat_of_ascii c in (48 <=? n)%nat && (n <=? 57)%nat.
Fixpoint all_digits (s : string) : bool := match s with EmptyString => true | String c s => is_ascii_digit c && all_digits s end.
Definition parse_unsigned (max : Z) (s : string) : option Z :=
  let s := match s with String "+" s' => s' | _ => s end in
  match s with
  | EmptyString => None
  | _ => if all_digits s then let z := digits_value 0 s in if z <=? max then Some z else None else None
  end.

(** [std::env::var(name).ok().and_then(|s| s.parse().ok())]. *)
Definition env_number (env : string → option string) (max : Z) (name : string) : option Z := s ← env name; parse_unsigned max s.
Definition env_port (env : string → option string) (name : string) : option Z := env_number env (2 ^ 16 - 1) name.

Definition config_from_env (env : string → option string) : Config := {|
  otlp_port := default 4317 (env_port env "OTLP_PORT");
  otlp_http_port := default 4318 (env_port env "OTLP_HTTP_PORT");
  query_api_port := default 8080 (env_port env "QUERY_API_PORT");
  batch_size := default 1000 (env_number env u64_max "BATCH_SIZE");
  batch_timeout_seconds := default 10 (env_number env u64_max "BATCH_TIMEOUT_SECONDS");
  postgres_max_connections := None;
  api_keys := [];
  cf_auth := auth_default;
  ingestor := None;
  admin_api_port := None;
  query_grpc_port := None;
  admin_grpc_port := None;
  cors_allowed_origins := [];
  otlp_limits := otlp_limits_default;
|}.

Definition with_ports (c : Config) (otlp query : Z) : Config :=
  mkConfig otlp (otlp_http_port c) query (batch_size c) (batch_timeout_seconds c) (postgres_max_connections c) (api_keys c) (cf_auth c)
    (ingestor c) (admin_api_port c) (query_grpc_port c) (admin_grpc_port c) (cors_allowed_origins c) (otlp_limits c).

(** [Config::load]: the text of [config.toml], when it can be read, and the environment. *)
Definition load (config_toml : option string) (env : string → option string) : option Config :=
  config ← match config_toml with
           | Some contents => t ← parse_toml contents; config_from t
           | None => Some (config_from_env env)
           end;
  Some (with_ports config (default (otlp_port config) (env_port env "OTLP_PORT")) (default (query_api_port config) (env_port env "QUERY_API_PORT"))).
End Load.

(** ** Properties *)

Section Properties.
Context (parse_uuid : string → option Z) (parse_toml : string → option table).

Lemma with_default_missing {A : Type} t name (decode : Toml → option A) d : find_key t name = None → with_default t name decode d = Some d.
Proof. unfold with_default, field. by intros ->. Qed.

Lemma with_default_elim {A : Type} t name (decode : Toml → option A) d a (P : A → Prop) :
  with_default t name decode d = Some a → P d → (∀ v, find_key t name = Some v → decode v = Some a → P a) → P a.
Proof. unfold with_default, field. destruct (find_key t name) as [v|]; [naive_solver|]. by intros [= <-]. Qed.

Lemma optional_elim {A : Type} t name (decode : Toml → option A) a (P : option A → Prop) :
  optional t name decode = Some a → P None → (∀ v x, decode v = Some x → P (Some x)) → P a.
Proof.
  unfold optional, field. destruct (find_key t name) as [v|]; [|by intros [= <-]]. destruct (decode v) as [x|] eqn:Hd; [|done].
  intros [= <-] _ H. by eapply H.
Qed.

Lemma integer_in_range low high v z : integer_in low high v = Some z → low ≤ z ≤ high.
Proof. destruct v; try done. cbn. destruct (_ && _) eqn:Hr; [|done]. intros [= <-]. lia. Qed.

(** A document without a section configures what [Default] does, and the empty
    document what the empty environment does. *)
Theorem defaults_are_serde_defaults :
  otlp_limits_from [] = Some otlp_limits_default ∧ auth_from [] = Some auth_default ∧
  wal_ingestor_from [] = Some wal_ingestor_default ∧ parquet_storage_from [] = Some parquet_storage_default ∧
  storage_from [] = Some storage_default ∧ ingestor_from [] = Some (mkIngestor storage_default wal_ingestor_default) ∧
  config_from parse_uuid [] = Some (config_from_env (λ _, None)).
Proof. done. Qed.

Definition port_ok (p : Z) : Prop := 0 ≤ p < 2 ^ 16.
Definition ports_ok (c : Config) : Prop :=
  port_ok (otlp_port c) ∧ port_ok (otlp_http_port c) ∧ port_ok (effective_admin_port c) ∧
  port_ok (effective_query_grpc_port c) ∧ port_ok (effective_admin_grpc_port c).

Lemma as_u16_ok v p : as_u16 v = Some p → port_ok p.
Proof. intros H%integer_in_range. unfold port_ok. lia. Qed.

Lemma digits_value_mono s : ∀ acc, 0 ≤ acc → all_digits s = true → acc ≤ digits_value acc s.
Proof.
  induction s as [|c s IH]; intros acc Hacc; cbn [all_digits digits_value]; [lia|]. intros [Hc Hs]%andb_true_iff.
  unfold is_ascii_digit in Hc. cbn zeta in Hc. apply andb_true_iff in Hc as [Hl%Nat.leb_le _].
  assert (0 ≤ digit_value c) by (unfold digit_value; lia).
  etrans; [|apply IH; [lia|done]]. lia.
Qed.

Lemma parse_unsigned_range max s z : parse_unsigned max s = Some z → 0 ≤ z ≤ max.
Proof.
  unfold parse_unsigned. set (s' := match s with String "+" s' => s' | _ => s end). clearbody s'. destruct s' as [|c s']; [done|].
  destruct (all_digits (String c s')) eqn:Hd; [|done]. pose proof (digits_value_mono (String c s') 0 ltac:(lia) Hd) as Hlow. revert Hlow.
  generalize (digits_value 0 (String c s')) as n. intros n Hlow. cbn zeta. destruct (Z.leb_spec n max); [|done]. intros [= <-]. lia.
Qed.

Lemma env_port_ok env name p : env_port env name = Some p → port_ok p.
Proof. unfold env_port, env_number. intros (s & _ & Hp%parse_unsigned_range)%bind_Some. unfold port_ok. lia. Qed.

Lemma default_ok (P : Z → Prop) d o : P d → (∀ p, o = Some p → P p) → P (default d o).
Proof. destruct o; naive_solver. Qed.

Lemma config_from_inv t c : config_from parse_uuid t = Some c →
  with_default t "otlp_port" as_u16 4317 = Some (otlp_port c) ∧ with_default t "otlp_http_port" as_u16 4318 = Some (otlp_http_port c) ∧
  with_default t "query_api_port" as_u16 8080 = Some (query_api_port c) ∧ optional t "admin_api_port" as_u16 = Some (admin_api_port c) ∧
  optional t "query_grpc_port" as_u16 = Some (query_grpc_port c) ∧ optional t "admin_grpc_port" as_u16 = Some (admin_grpc_port c).
Proof.
  unfold config_from. intros Hc. repeat (apply bind_Some in Hc as (? & ? & Hc)). injection Hc as <-. done.
Qed.

Lemma config_from_ports t c : config_from parse_uuid t = Some c → ports_ok c ∧ port_ok (query_api_port c).
Proof.
  intros (H1 & H2 & H3 & H4 & H5 & H6)%config_from_inv.
  assert (∀ name d p, with_default t name as_u16 d = Some p → port_ok d → port_ok p) as Hd.
  { intros name d p Hp Hok. eapply (with_default_elim _ _ _ _ _ port_ok Hp Hok). intros v _. apply as_u16_ok. }
  assert (∀ name d p, optional t name as_u16 = Some p → port_ok d → port_ok (default d p)) as Ho.
  { intros name d p Hp Hok. eapply (optional_elim _ _ _ _ (λ p, port_ok (default d p)) Hp Hok). intros v port. apply as_u16_ok. }
  assert (port_ok (query_api_port c)) as Hp3 by by eapply Hd.
  unfold ports_ok, effective_admin_port, effective_query_grpc_port, effective_admin_grpc_port.
  split_and!; [by eapply Hd|by eapply Hd|by eapply Ho|by eapply Ho|by eapply Ho|done].
Qed.

(** Every port of a configuration that loads is a port; the two variables win
    over the file, and nothing else in the environment does: with a file the
    OTLP/HTTP port and the batch settings are the file's or the defaults. *)
Theorem load_ports config_toml env c :
  load parse_uuid parse_toml config_toml env = Some c →
  ports_ok c ∧
  (∀ p, env_port env "OTLP_PORT" = Some p → otlp_port c = p) ∧ (∀ p, env_port env "QUERY_API_PORT" = Some p → query_api_port c = p) ∧
  (∀ contents, config_toml = Some contents → ∃ t file, parse_toml contents = Some t ∧ config_from parse_uuid t = Some file ∧
    c = with_ports file (otlp_port c) (query_api_port c) ∧
    (env_port env "OTLP_PORT" = None → otlp_port c = otlp_port file) ∧
    (env_port env "QUERY_API_PORT" = None → query_api_port c = query_api_port file)).
Proof.
  unfold load. intros (base & Hbase & [= <-])%bind_Some.
  assert (ports_ok base ∧ port_ok (query_api_port base)) as [(H1 & H2 & H3 & H4 & H5) H6].
  { destruct config_toml as [contents|]; [apply bind_Some in Hbase as (t & _ & Hc); by eapply config_from_ports|].
    injection Hbase as <-. unfold ports_ok, effective_admin_port. cbn.
    split_and!; try done; apply default_ok; try done; intros p; apply env_port_ok. }
  split; [|split; [|split]].
  - unfold ports_ok, effective_admin_port, effective_query_grpc_port, effective_admin_grpc_port in *. cbn.
    split_and!; try done; [apply default_ok; [done|]; intros p; apply env_port_ok|].
    destruct (admin_api_port base) as [p|]; [done|]. cbn. apply default_ok; [done|]. intros p; apply env_port_ok.
  - by intros p ->.
  - by intros p ->.
  - intros contents ->. apply bind_Some in Hbase as (t & Ht & Hc). exists t, base. split_and!; [done..| |]; by intros ->.
Qed.

(** A configuration that puts the query API on 8081 and names no other port, as
    the reference and the file for Docker do, gives the admin HTTP server and
    the query gRPC server one port. *)
Theorem documented_ports_clash contents env t c :
  load parse_uuid parse_toml (Some contents) env = Some c → parse_toml contents = Some t →
  find_key t "query_api_port" = Some (TomlInteger 8081) → find_key t "admin_api_port" = None → find_key t "query_grpc_port" = None →
  (∀ s, env "QUERY_API_PORT" = Some s → parse_unsigned (2 ^ 16 - 1) s = Some 8081) →
  effective_admin_port c = effective_query_grpc_port c.
Proof.
  unfold load. intros (base & Hbase & [= <-])%bind_Some Ht Hquery Hadmin Hgrpc Henv.
  apply bind_Some in Hbase as (t' & Ht' & Hc). rewrite Ht in Ht'. injection Ht' as <-.
  assert (query_api_port base = 8081 ∧ admin_api_port base = None ∧ query_grpc_port base = None) as (Hq & Ha & Hg).
  { apply config_from_inv in Hc as (_ & _ & H3 & H4 & H5 & _). unfold with_default, optional, field in *.
    rewrite Hquery in H3. rewrite Hadmin in H4. rewrite Hgrpc in H5. by simplify_eq/=. }
  unfold effective_admin_port, effective_query_grpc_port. cbn. rewrite Ha, Hg, Hq. cbn. unfold env_port, env_number.
  destruct (env "QUERY_API_PORT") as [s|] eqn:He; cbn; [|done]. by rewrite (Henv s eq_refl).
Qed.

(** The minimal configuration of the reference, as the [toml] crate reads it. *)
Definition documented_table : table := [
  ("otlp_port", TomlInteger 4317);
  ("query_api_port", TomlInteger 8081);
  ("postgres", TomlTable [("max_connections", TomlInteger 20)]);
  ("auth", TomlTable []);
  ("api_keys", TomlArray [TomlTable [("key", TomlString "zk_live_your_secure_key"); ("tenant_id", TomlString "your-org");
     ("workspace_id", TomlString "00000000-0000-0000-0000-000000000000"); ("project_id", TomlString "your-project"); ("name", TomlString "production")]]);
  ("ingestor", TomlTable [("storage_type", TomlString "s3");
     ("storage", TomlTable [("s3", TomlTable [("bucket", TomlString "your-traces-bucket"); ("region", TomlString "us-east-1")])])]);
  ("migrations", TomlTable [("auto_migrate", TomlBoolean false)])].
End Properties.

Lemma documented_ports_clash_witness : ∃ c,
  load (λ _, Some 0) (λ _, Some documented_table) (Some "") (λ _, None) = Some c ∧ effective_admin_port c = effective_query_grpc_port c.
Proof.
  eexists. split; [vm_compute; reflexivity|].
  apply (documented_ports_clash (λ _, Some 0) (λ _, Some documented_table) "" (λ _, None) documented_table);
    [vm_compute; reflexivity|reflexivity|reflexivity|reflexivity|reflexivity|discriminate].
Defined.
