(* ===== verification/Resources.v ===== *)
(** What the circuit breaker measures: the readers of [/proc], of the cgroup files
    and of the file system in [api-optel/src/circuit_breaker.rs].

    A file is the text it reads as, when it can be read. Strings are their UTF-8
    bytes. *)

From stdpp Require Import base list strings pretty.
From Stdlib Require Import Ascii.
From S2P Require Import Prelude Sql Config IngestGuard.

(** ** [str] *)

(** The bytes of the white space a text begins with, Unicode's; 0 when it begins
    with another character. *)
Definition white_space (s : string) : nat :=
  match s with
  | EmptyString => 0
  | String c1 s1 =>
      let b1 := nat_of_ascii c1 in
      if bool_decide (b1 = 32 ∨ 9 ≤ b1 ≤ 13)%nat then 1
      else
        match s1 with
        | EmptyString => 0
        | String c2 s2 =>
            let b2 := nat_of_ascii c2 in
            if bool_decide (b1 = 194 ∧ (b2 = 133 ∨ b2 = 160))%nat then 2
            else
              match s2 with
              | EmptyString => 0
              | String c3 _ =>
                  let b3 := nat_of_ascii c3 in
                  if bool_decide ((b1 = 225 ∧ b2 = 154 ∧ b3 = 128) ∨
                    (b1 = 226 ∧ b2 = 128 ∧ (128 ≤ b3 ≤ 138 ∨ b3 = 168 ∨ b3 = 169 ∨ b3 = 175)) ∨
                    (b1 = 226 ∧ b2 = 129 ∧ b3 = 159) ∨ (b1 = 227 ∧ b2 = 128 ∧ b3 = 128))%nat then 3 else 0
              end
        end
  end.

Definition flush_word (word : string) : list string := match word with EmptyString => [] | _ => [word] end.

(** [split_whitespace]; [skip] bytes of a white space are still to pass. *)
Fixpoint split_whitespace_from (skip : nat) (word s : string) : list string :=
  match s with
  | EmptyString => flush_word word
  | String c s' =>
      match skip with
      | S k => split_whitespace_from k word s'
      | O => match white_space s with
             | O => split_whitespace_from 0 (word +:+ String c EmptyString) s'
             | S k => flush_word word ++ split_whitespace_from k EmptyString s'
             end
      end
  end.
Definition split_whitespace (s : string) : list string := split_whitespace_from 0 EmptyString s.

(** [trim]. *)
Fixpoint trim_start_from (skip : nat) (s : string) : string :=
  match s with
  | EmptyString => EmptyString
  | String _ s' => match skip with
                   | S k => trim_start_from k s'
                   | O => match white_space s with O => s | S k => trim_start_from k s' end
                   end
  end.
Fixpoint trim_end (s : string) : string :=
  match s with
  | EmptyString => EmptyString
  | String c s' => match trim_start_from 0 s with EmptyString => EmptyString | _ => String c (trim_end s') end
  end.
Definition str_trim (s : string) : string := trim_end (trim_start_from 0 s).

(** [lines]: without the line feeds, and a carriage return before one. *)
Definition without_return (line : string) : string :=
  let fix go s := match s with
                  | EmptyString => EmptyString
                  | String c EmptyString => if (nat_of_ascii c =? 13)%nat then EmptyString else s
                  | String c s' => String c (go s')
                  end in go line.
Fixpoint lines_from (line s : string) : list string :=
  match s with
  | EmptyString => flush_word line
  | String c s' => if (nat_of_ascii c =? 10)%nat then without_return line :: lines_from EmptyString s' else lines_from (line +:+ String c EmptyString) s'
  end.
Definition lines (s : string) : list string := lines_from EmptyString s.

Fixpoint after_prefix (p s : string) : option string :=
  match p, s with
  | EmptyString, _ => Some s
  | String a p', String b s' => if Ascii.eqb a b then after_prefix p' s' else None
  | _, _ => None
  end.

Definition lower (c : ascii) : nat := let n := nat_of_ascii c in if bool_decide (65 ≤ n ≤ 90)%nat then (n + 32)%nat else n.
Fixpoint eq_ignore_ascii_case (a b : string) : bool :=
  match a, b with
  | EmptyString, EmptyString => true
  | String x a', String y b' => (lower x =? lower y)%nat && eq_ignore_ascii_case a' b'
  | _, _ => false
  end.

Fixpoint trim_start_slashes (s : string) : string :=
  match s with String "/" s' => trim_start_slashes s' | _ => s end.

(** [Path::join] of a relative path. *)
Fixpoint ends_with_slash (s : string) : bool :=
  match s with EmptyString => false | String c EmptyString => Ascii.eqb c "/" | String _ s' => ends_with_slash s' end.
Definition join (path rel : string) : string := if ends_with_slash path then path +:+ rel else path +:+ "/" +:+ rel.

(** ** Memory *)

Definition checked_mul (a b : Z) : option Z := if a * b <=? u64_max then Some (a * b) else None.

Definition parse_kb_field (contents key : string) : option Z :=
  rest ← head (omap (after_prefix key) (lines contents));
  match split_whitespace rest with
  | [] => None
  | value :: units =>
      n ← parse_unsigned u64_max value;
      match units with
      | unit_ :: _ => if eq_ignore_ascii_case unit_ "kb" then checked_mul n 1024 else None
      | [] => Some n
      end
  end.

Definition parse_vm_rss_bytes (s : string) : option Z := parse_kb_field s "VmRSS:".
Definition parse_meminfo_total_bytes (s : string) : option Z := parse_kb_field s "MemTotal:".

Definition parse_cgroup_limit (contents : string) : option Z :=
  let value := str_trim contents in
  if String.eqb value "max" then None else parse_unsigned u64_max value ≫= cgroup_limit.

(** [find_map] over the lines. *)
Definition parse_cgroup_v2_path (contents : string) : option string := str_trim <$> head (omap (after_prefix "0::") (lines contents)).

Section Measure.
(** What [read_to_string] reads of a path. *)
Context (read : string → option string).

Definition CGROUP_ROOT : string := "/sys/fs/cgroup".

(** The files of a v2 limit, in the order they are tried. *)
Definition cgroup_candidates : list string :=
  match read "/proc/self/cgroup" ≫= parse_cgroup_v2_path with
  | Some rel => match trim_start_slashes rel with
                | EmptyString => []
                | rel => [join (join CGROUP_ROOT rel) "memory.max"]
                end
  | None => []
  end ++ [join CGROUP_ROOT "memory.max"].

Definition cgroup_memory_limit_bytes : option Z :=
  match head (omap read cgroup_candidates) with
  | Some contents => parse_cgroup_limit contents
  | None => read (join CGROUP_ROOT "memory/memory.limit_in_bytes") ≫= parse_cgroup_limit
  end.

Definition memory_limit : option Z :=
  effective_memory_limit_bytes cgroup_memory_limit_bytes (read "/proc/meminfo" ≫= parse_meminfo_total_bytes).

Definition measured_memory_percent : option Z :=
  rss ← read "/proc/self/status" ≫= parse_vm_rss_bytes;
  limit ← memory_limit;
  percent_ceil rss limit.

(** ** Disk *)

(** [existing_ancestor]: of the ancestors of the path, itself first. *)
Definition existing_ancestor (ancestors : list string) (relative : bool) (exists_ : string → bool) : option string :=
  match List.find (λ p, negb (String.eqb p "") && exists_ p) ancestors with
  | Some p => Some p
  | None => if relative then Some "." else None
  end.

Definition measured_disk_percent (ancestors : list string) (relative : bool) (exists_ : string → bool) (statvfs : string → option (Z * Z * Z)) : option Z :=
  target ← existing_ancestor ancestors relative exists_;
  stat ← statvfs target;
  let '(blocks, bfree, bavail) := stat in disk_usage_from_blocks blocks bfree bavail.

(** [ResourceSample::collect]. *)
Definition collect_sample (ancestors : list string) (relative : bool) (exists_ : string → bool) (statvfs : string → option (Z * Z * Z)) : ResourceSample :=
  mkResourceSample (measured_disk_percent ancestors relative exists_ statvfs) measured_memory_percent.
End Measure.

(** ** Properties *)

Definition tab : string := String (ascii_of_nat 9) EmptyString.
Definition newline : string := String (ascii_of_nat 10) EmptyString.

Example reads_vm_rss : parse_vm_rss_bytes ("Name:" +:+ tab +:+ "zradar" +:+ newline +:+ "VmRSS:" +:+ tab +:+ "   12345 kB" +:+ newline) = Some (12345 * 1024).
Proof. vm_compute. reflexivity. Qed.

Example no_limit : parse_cgroup_limit ("max" +:+ newline) = None ∧ parse_cgroup_limit ("9223372036854771712" +:+ newline) = None ∧
  parse_cgroup_limit ("1073741824" +:+ newline) = Some 1073741824.
Proof. vm_compute. done. Qed.

Example v2_path : parse_cgroup_v2_path ("1:name=systemd:/x" +:+ newline +:+ "0::/system.slice/zradar.service" +:+ newline) = Some "/system.slice/zradar.service".
Proof. vm_compute. reflexivity. Qed.

Lemma cgroup_limit_range z l : cgroup_limit z = Some l → 0 < l < CGROUP_UNLIMITED_THRESHOLD.
Proof. unfold cgroup_limit. destruct (_ && _) eqn:Hr; [|done]. intros [= <-]. lia. Qed.

Lemma parse_cgroup_limit_range s l : parse_cgroup_limit s = Some l → 0 < l < CGROUP_UNLIMITED_THRESHOLD.
Proof.
  unfold parse_cgroup_limit. cbn zeta. destruct (String.eqb _ _); [done|]. intros (z & _ & H)%bind_Some. by eapply cgroup_limit_range.
Qed.

Lemma percent_ceil_range n d p : 0 ≤ n → 0 ≤ d → percent_ceil n d = Some p → 0 ≤ p ≤ 100 ∧ (p < 100 → n * 100 ≤ p * d).
Proof.
  unfold percent_ceil. intros Hn Hd. destruct (Z.eqb_spec d 0); [done|]. intros [= <-].
  pose proof (Z.div_mod (n * 100 + d - 1) d ltac:(lia)). pose proof (Z.mod_pos_bound (n * 100 + d - 1) d ltac:(lia)).
  assert (0 ≤ (n * 100 + d - 1) / d) by (apply Z.div_pos; lia). split; [lia|]. intros Hlt. nia.
Qed.

Lemma parse_kb_field_nonneg s key n : parse_kb_field s key = Some n → 0 ≤ n.
Proof.
  unfold parse_kb_field. intros (rest & _ & Hr)%bind_Some. destruct (split_whitespace rest) as [|value units]; [done|].
  apply bind_Some in Hr as (z & Hz%parse_unsigned_range & Hu). destruct units as [|u units]; [by simplify_eq; lia|].
  destruct (eq_ignore_ascii_case u "kb"); [|done]. unfold checked_mul in Hu. destruct (_ <=? _); [|done]. simplify_eq. lia.
Qed.

(** What is measured is a percentage: memory is that of the smaller of a cgroup
    limit and the physical memory, rounded up, and below a hundred it is no less
    than the share really used. *)
Theorem memory_percent_sound read p :
  measured_memory_percent read = Some p →
  ∃ rss limit, read "/proc/self/status" ≫= parse_vm_rss_bytes = Some rss ∧ memory_limit read = Some limit ∧
    0 ≤ p ≤ 100 ∧ (p < 100 → rss * 100 ≤ p * limit) ∧
    (∀ c, cgroup_memory_limit_bytes read = Some c → limit ≤ c < CGROUP_UNLIMITED_THRESHOLD).
Proof.
  unfold measured_memory_percent. intros (rss & Hrss & (limit & Hlim & Hp)%bind_Some)%bind_Some. exists rss, limit.
  assert (0 ≤ rss) as H0.
  { apply bind_Some in Hrss as (s & _ & Hs). by eapply parse_kb_field_nonneg. }
  assert (∀ c, cgroup_memory_limit_bytes read = Some c → 0 < c < CGROUP_UNLIMITED_THRESHOLD) as Hc.
  { unfold cgroup_memory_limit_bytes. intros c. destruct (head _) as [s|]; [apply parse_cgroup_limit_range|].
    intros (s & _ & Hs)%bind_Some. by eapply parse_cgroup_limit_range. }
  assert (0 ≤ limit ∧ ∀ c, cgroup_memory_limit_bytes read = Some c → limit ≤ c < CGROUP_UNLIMITED_THRESHOLD) as [Hl Hcl].
  { unfold memory_limit, effective_memory_limit_bytes in Hlim. destruct (read "/proc/meminfo" ≫= parse_meminfo_total_bytes) as [t|] eqn:Ht.
    - apply bind_Some in Ht as (s & _ & Hs%parse_kb_field_nonneg).
      destruct (cgroup_memory_limit_bytes read) as [c|]; simplify_eq; [|split; [lia|done]].
      specialize (Hc c eq_refl). split; [lia|]. intros c' [= <-]. lia.
    - destruct (cgroup_memory_limit_bytes read) as [c|]; simplify_eq. specialize (Hc limit eq_refl). split; [lia|]. intros c' [= <-]. lia. }
  destruct (percent_ceil_range rss limit p H0 Hl Hp) as [Hr Hs]. done.
Qed.

(** The file of the process's own group decides alone: when it says [max], a limit
    set on the group around it is not looked for. *)
Theorem own_group_decides read rel contents :
  read "/proc/self/cgroup" ≫= parse_cgroup_v2_path = Some rel → trim_start_slashes rel ≠ "" →
  read (join (join CGROUP_ROOT (trim_start_slashes rel)) "memory.max") = Some contents →
  cgroup_memory_limit_bytes read = parse_cgroup_limit contents.
Proof.
  intros Hrel Hne Hread. unfold cgroup_memory_limit_bytes, cgroup_candidates. rewrite Hrel.
  destruct (trim_start_slashes rel) as [|c s]; [done|]. cbn [app omap list_omap]. by rewrite Hread.
Qed.
