(* ===== verification/Metering.v ===== *)
(** The metrics: [zradar-metrics/src/primitive.rs] (counters, gauges, histograms
    and the Prometheus encoder), [ingest.rs] (the metric groups) and [hub.rs] (the
    registry).

    A metric is its value and every update one atomic step; an observation of a
    histogram is three, which other observations come between. The text is bytes. *)

From stdpp Require Import base gmap list sorting strings pretty.
From Stdlib Require Import SpecFloat Ascii.
From S2P Require Import Prelude Backpressure F64Text Sql Models.

(** ** Primitives *)

Definition Counter : Type := Z.
Definition counter_add (c : Counter) (n : Z) : Counter := u64_wrap (c + n).
Definition counter_inc (c : Counter) : Counter := counter_add c 1.

(** A gauge is kept as the bits of its [f64], all zeroes at first. *)
Definition Gauge : Type := f64.
Definition f64_zero : f64 := S754_zero false.
Definition set_u64 (v : Z) : Gauge := f64_of_u64 v.
Definition f64_add : f64 → f64 → f64 := SFadd 53 1024.

Definition LATENCY_SECONDS : list f64 :=
  [f64_ratio 5 10000; f64_ratio 1 1000; f64_ratio 25 10000; f64_ratio 5 1000; f64_ratio 1 100; f64_ratio 25 1000; f64_ratio 5 100;
   f64_ratio 1 10; f64_ratio 25 100; f64_ratio 5 10; f64_of_u64 1; f64_ratio 25 10; f64_of_u64 5; f64_of_u64 10].

Definition SIZE_BYTES : list f64 :=
  map f64_of_u64 [1024; 16384; 65536; 262144; 1048576; 4194304; 16777216; 67108864; 268435456].

Record Histogram := mkHistogram {
  bounds : list f64;
  counts : list Z;
  sum : f64;
  count : Z;
}.

Definition histogram_new (bounds : list f64) : Histogram := mkHistogram bounds (replicate (S (length bounds)) 0) f64_zero 0.

(** The first bucket the value is not above; NaN is in none but the last. *)
Definition hist_bucket_index (bounds : list f64) (v : f64) : nat :=
  default (length bounds) (fst <$> list_find (λ b, SFleb v b = true) bounds).

(** The atomic steps of [observe]; the compare-exchange loop of the sum ends in one. *)
Inductive HistStep := Bucket (v : f64) | CountUp | SumUp (v : f64).

Definition hist_step (h : Histogram) (s : HistStep) : Histogram :=
  match s with
  | Bucket v => mkHistogram (bounds h) (alter counter_inc (hist_bucket_index (bounds h) v) (counts h)) (sum h) (count h)
  | CountUp => mkHistogram (bounds h) (counts h) (sum h) (counter_inc (count h))
  | SumUp v => mkHistogram (bounds h) (counts h) (f64_add (sum h) v) (count h)
  end.

Definition hist_run (h : Histogram) (steps : list HistStep) : Histogram := foldl hist_step h steps.
Definition observation (v : f64) : list HistStep := [Bucket v; CountUp; SumUp v].
Definition observe (h : Histogram) (v : f64) : Histogram := hist_run h (observation v).

(** [Duration::as_secs_f64] of nanoseconds. *)
Definition as_secs_f64 (ns : Z) : f64 :=
  f64_add (f64_of_u64 (ns / 1000000000)) (f64_div (f64_of_u64 (ns mod 1000000000)) (f64_of_u64 1000000000)).
Definition observe_duration (h : Histogram) (ns : Z) : Histogram := observe h (as_secs_f64 ns).

(** ** The encoder *)

Definition quote : string := String "034"%char EmptyString.
Definition nl : string := String "010"%char EmptyString.

Record PromEncoder := mkEncoder { out : string; seen : gset string }.
Definition encoder_new : PromEncoder := mkEncoder EmptyString ∅.
Definition into_string (e : PromEncoder) : string := out e.
Definition push_str (e : PromEncoder) (s : string) : PromEncoder := mkEncoder (out e +:+ s) (seen e).

Definition meta_text (name help typ : string) : string :=
  "# HELP " +:+ name +:+ " " +:+ help +:+ nl +:+ "# TYPE " +:+ name +:+ " " +:+ typ +:+ nl.

Definition meta (e : PromEncoder) (name help typ : string) : PromEncoder :=
  if decide (name ∈ seen e) then e
  else push_str (mkEncoder (out e) ({[name]} ∪ seen e)) (meta_text name help typ).

(** The characters of a label's value. *)
Fixpoint escape_label (v : string) : string :=
  match v with
  | EmptyString => EmptyString
  | String c v => (if Ascii.eqb c "034" then String "\" quote
                   else if Ascii.eqb c "\" then "\\"
                   else if Ascii.eqb c "010" then "\n"
                   else String c EmptyString) +:+ escape_label v
  end.

Definition label_text (l : string * string) : string := l.1 +:+ "=" +:+ quote +:+ escape_label l.2 +:+ quote.
Fixpoint join_labels (ls : list (string * string)) : string :=
  match ls with
  | [] => EmptyString
  | [l] => label_text l
  | l :: ls => label_text l +:+ "," +:+ join_labels ls
  end.
Definition write_labels (labels : list (string * string)) : string :=
  match labels with [] => EmptyString | _ => "{" +:+ join_labels labels +:+ "}" end.

Definition itoa (v : Z) : string := pretty v.

(** Every finite number has a text ([f64_text_reads_back]). *)
Definition ftoa (v : f64) : string :=
  match v with
  | S754_nan => "NaN"
  | S754_infinity false => "+Inf"
  | S754_infinity true => "-Inf"
  | _ => default "" (f64_text v)
  end.

Definition line (name : string) (labels : list (string * string)) (value : string) : string :=
  name +:+ write_labels labels +:+ " " +:+ value +:+ nl.
Definition line_u64 (e : PromEncoder) (name : string) (labels : list (string * string)) (value : Z) : PromEncoder :=
  push_str e (line name labels (itoa value)).
Definition line_f64 (e : PromEncoder) (name : string) (labels : list (string * string)) (value : f64) : PromEncoder :=
  push_str e (line name labels (ftoa value)).

Definition counter (e : PromEncoder) (name help : string) (value : Z) (labels : list (string * string)) : PromEncoder :=
  line_u64 (meta e name help "counter") name labels value.
Definition gauge (e : PromEncoder) (name help : string) (value : f64) (labels : list (string * string)) : PromEncoder :=
  line_f64 (meta e name help "gauge") name labels value.

(** The buckets up to each bound, then all. *)
Fixpoint bucket_lines (e : PromEncoder) (name : string) (labels : list (string * string)) (cumulative : Z) (bounds : list f64) (counts : list Z)
    : PromEncoder * Z :=
  match bounds, counts with
  | b :: bounds, c :: counts =>
      let cumulative := u64_wrap (cumulative + c) in
      bucket_lines (line_u64 e name (labels ++ [("le", ftoa b)]) cumulative) name labels cumulative bounds counts
  | [], c :: _ => (e, u64_wrap (cumulative + c))
  | _, [] => (e, cumulative)
  end.

Definition histogram (e : PromEncoder) (name help : string) (h : Histogram) (labels : list (string * string)) : PromEncoder :=
  let e := meta e name help "histogram" in
  let bucket_name := name +:+ "_bucket" in
  let '(e, cumulative) := bucket_lines e bucket_name labels 0 (bounds h) (counts h) in
  let e := line_u64 e bucket_name (labels ++ [("le", "+Inf")]) cumulative in
  let e := line_f64 e (name +:+ "_sum") labels (sum h) in
  line_u64 e (name +:+ "_count") labels cumulative.

(** ** The metric groups *)

Inductive Signal := Traces | Metrics | Logs | Scores.
Definition all_signals : list Signal := [Traces; Metrics; Logs; Scores].
Definition metric_signal_as_str (s : Signal) : string :=
  match s with Traces => "traces" | Metrics => "metrics" | Logs => "logs" | Scores => "scores" end.
Definition signal_index (s : Signal) : nat := match s with Traces => 0 | Metrics => 1 | Logs => 2 | Scores => 3 end.

Inductive RejectReason := RejectAuth | RejectCircuitBreaker | RejectPolicy | RejectRateLimit | RejectParserCap | RejectInternal.
Definition all_reasons : list RejectReason := [RejectAuth; RejectCircuitBreaker; RejectPolicy; RejectRateLimit; RejectParserCap; RejectInternal].
Definition reason_as_str (r : RejectReason) : string :=
  match r with
  | RejectAuth => "auth" | RejectCircuitBreaker => "circuit_breaker" | RejectPolicy => "policy"
  | RejectRateLimit => "rate_limit" | RejectParserCap => "parser_cap" | RejectInternal => "internal"
  end.
Definition reason_index (r : RejectReason) : nat :=
  match r with
  | RejectAuth => 0 | RejectCircuitBreaker => 1 | RejectPolicy => 2 | RejectRateLimit => 3 | RejectParserCap => 4 | RejectInternal => 5
  end.

Inductive BreakerCause := Disk | Memory | Queue.
Definition all_causes : list BreakerCause := [Disk; Memory; Queue].
Definition cause_as_str (c : BreakerCause) : string := match c with Disk => "disk" | Memory => "memory" | Queue => "queue" end.
Definition cause_index (c : BreakerCause) : nat := match c with Disk => 0 | Memory => 1 | Queue => 2 end.

#[export] Instance Signal_eq_dec : EqDecision Signal.
Proof. solve_decision. Defined.
#[export] Instance RejectReason_eq_dec : EqDecision RejectReason.
Proof. solve_decision. Defined.

Definition counters (n : nat) : list Counter := replicate n 0.
Definition hists (n : nat) (bounds : list f64) : list Histogram := replicate n (histogram_new bounds).

Record IngestMetrics := mkIngestMetrics {
  requests : list Counter;
  rejections : list Counter;
  rows_accepted : list Counter;
  bytes_ingested : list Counter;
  ack_latency : list Histogram;
  convert_latency : list Histogram;
  visibility_lag : list Histogram;
  flush_records : list Counter;
  parquet_files : list Counter;
  parquet_file_bytes : Histogram;
  buffer_records : Gauge;
  buffer_bytes : Gauge;
  queue_depth : Gauge;
  cb_state : Gauge;
  cb_trips : list Counter;
  disk_usage_ratio : Gauge;
  convert_skipped : Counter;
  timestamp_anomalies : Counter;
  dropped : Counter;
}.

Definition ingest_metrics_default : IngestMetrics :=
  mkIngestMetrics (counters 4) (counters 6) (counters 4) (counters 4) (hists 4 LATENCY_SECONDS) (hists 4 LATENCY_SECONDS)
    (hists 4 LATENCY_SECONDS) (counters 4) (counters 4) (histogram_new SIZE_BYTES) f64_zero f64_zero f64_zero f64_zero (counters 3)
    f64_zero 0 0 0.

Definition ingest_metrics_eta (m : IngestMetrics) : IngestMetrics :=
  mkIngestMetrics (requests m) (rejections m) (rows_accepted m) (bytes_ingested m) (ack_latency m) (convert_latency m)
    (visibility_lag m) (flush_records m) (parquet_files m) (parquet_file_bytes m) (buffer_records m) (buffer_bytes m) (queue_depth m)
    (cb_state m) (cb_trips m) (disk_usage_ratio m) (convert_skipped m) (timestamp_anomalies m) (dropped m).

Record WorkspaceMetrics := mkWorkspaceMetrics {
  ws_rows_accepted : list Counter;
  ws_bytes_ingested : list Counter;
  ws_rejections : list Counter;
  ws_ack_latency : list Histogram;
  ws_visibility_lag : list Histogram;
}.

Definition workspace_metrics_default : WorkspaceMetrics :=
  mkWorkspaceMetrics (counters 4) (counters 4) (counters 6) (hists 4 LATENCY_SECONDS) (hists 4 LATENCY_SECONDS).

Definition workspace_metrics_eta (m : WorkspaceMetrics) : WorkspaceMetrics :=
  mkWorkspaceMetrics (ws_rows_accepted m) (ws_bytes_ingested m) (ws_rejections m) (ws_ack_latency m) (ws_visibility_lag m).

(** A field's setter is the identity on records with that field replaced. *)
Ltac derive_group_setter eta :=
  lazymatch goal with
  | |- Setter ?proj =>
      let v := fresh "v" in let m := fresh "m" in
      unfold Setter; intros v m;
      let e := eval red in (eta m) in
      lazymatch eval pattern (proj m) in e with ?g _ => let r := eval cbv beta in (g v) in exact r end
  end.

#[export] Instance set_requests : Setter requests. Proof. derive_group_setter ingest_metrics_eta. Defined.
#[export] Instance set_rejections : Setter rejections. Proof. derive_group_setter ingest_metrics_eta. Defined.
#[export] Instance set_rows_accepted : Setter rows_accepted. Proof. derive_group_setter ingest_metrics_eta. Defined.
#[export] Instance set_bytes_ingested : Setter bytes_ingested. Proof. derive_group_setter ingest_metrics_eta. Defined.
#[export] Instance set_ack_latency : Setter ack_latency. Proof. derive_group_setter ingest_metrics_eta. Defined.
#[export] Instance set_convert_latency : Setter convert_latency. Proof. derive_group_setter ingest_metrics_eta. Defined.
#[export] Instance set_visibility_lag : Setter visibility_lag. Proof. derive_group_setter ingest_metrics_eta. Defined.
#[export] Instance set_flush_records : Setter flush_records. Proof. derive_group_setter ingest_metrics_eta. Defined.
#[export] Instance set_parquet_files : Setter parquet_files. Proof. derive_group_setter ingest_metrics_eta. Defined.
#[export] Instance set_parquet_file_bytes : Setter parquet_file_bytes. Proof. derive_group_setter ingest_metrics_eta. Defined.
#[export] Instance set_buffer_records : Setter buffer_records. Proof. derive_group_setter ingest_metrics_eta. Defined.
#[export] Instance set_buffer_bytes : Setter buffer_bytes. Proof. derive_group_setter ingest_metrics_eta. Defined.
#[export] Instance set_queue_depth_gauge : Setter queue_depth. Proof. derive_group_setter ingest_metrics_eta. Defined.
#[export] Instance set_cb_state : Setter cb_state. Proof. derive_group_setter ingest_metrics_eta. Defined.
#[export] Instance set_cb_trips : Setter cb_trips. Proof. derive_group_setter ingest_metrics_eta. Defined.
#[export] Instance set_disk_usage_ratio : Setter disk_usage_ratio. Proof. derive_group_setter ingest_metrics_eta. Defined.
#[export] Instance set_convert_skipped : Setter convert_skipped. Proof. derive_group_setter ingest_metrics_eta. Defined.
#[export] Instance set_timestamp_anomalies : Setter timestamp_anomalies. Proof. derive_group_setter ingest_metrics_eta. Defined.
#[export] Instance set_dropped : Setter dropped. Proof. derive_group_setter ingest_metrics_eta. Defined.
#[export] Instance set_ws_rows_accepted : Setter ws_rows_accepted. Proof. derive_group_setter workspace_metrics_eta. Defined.
#[export] Instance set_ws_bytes_ingested : Setter ws_bytes_ingested. Proof. derive_group_setter workspace_metrics_eta. Defined.
#[export] Instance set_ws_rejections : Setter ws_rejections. Proof. derive_group_setter workspace_metrics_eta. Defined.
#[export] Instance set_ws_ack_latency : Setter ws_ack_latency. Proof. derive_group_setter workspace_metrics_eta. Defined.
#[export] Instance set_ws_visibility_lag : Setter ws_visibility_lag. Proof. derive_group_setter workspace_metrics_eta. Defined.

(** [group\[i\].add(n)]: the groups have as many entries as their enum. *)
Definition add_at (i : nat) (n : Z) (cs : list Counter) : list Counter := alter (λ c, counter_add c n) i cs.
Definition observe_at (i : nat) (v : f64) (hs : list Histogram) : list Histogram := alter (λ h, observe h v) i hs.

Definition group_accepted (m : IngestMetrics) (s : Signal) (rows bytes : Z) : IngestMetrics :=
  m <| rows_accepted := add_at (signal_index s) rows (rows_accepted m) |>
    <| bytes_ingested := add_at (signal_index s) bytes (bytes_ingested m) |>.
Definition observe_ack (m : IngestMetrics) (s : Signal) (secs : f64) : IngestMetrics :=
  m <| ack_latency := observe_at (signal_index s) secs (ack_latency m) |>.
Definition observe_convert (m : IngestMetrics) (s : Signal) (secs : f64) : IngestMetrics :=
  m <| convert_latency := observe_at (signal_index s) secs (convert_latency m) |>.
Definition observe_visibility (m : IngestMetrics) (s : Signal) (secs : f64) : IngestMetrics :=
  m <| visibility_lag := observe_at (signal_index s) secs (visibility_lag m) |>.
Definition group_rejected (m : IngestMetrics) (r : RejectReason) : IngestMetrics :=
  m <| rejections := add_at (reason_index r) 1 (rejections m) |>.
Definition group_parquet_written (m : IngestMetrics) (s : Signal) (bytes : Z) : IngestMetrics :=
  m <| parquet_files := add_at (signal_index s) 1 (parquet_files m) |>
    <| parquet_file_bytes := observe (parquet_file_bytes m) (f64_of_u64 bytes) |>.

Definition ws_accepted (m : WorkspaceMetrics) (s : Signal) (rows bytes : Z) : WorkspaceMetrics :=
  m <| ws_rows_accepted := add_at (signal_index s) rows (ws_rows_accepted m) |>
    <| ws_bytes_ingested := add_at (signal_index s) bytes (ws_bytes_ingested m) |>.
Definition ws_rejected (m : WorkspaceMetrics) (r : RejectReason) : WorkspaceMetrics :=
  m <| ws_rejections := add_at (reason_index r) 1 (ws_rejections m) |>.
Definition ws_observe_ack (m : WorkspaceMetrics) (s : Signal) (secs : f64) : WorkspaceMetrics :=
  m <| ws_ack_latency := observe_at (signal_index s) secs (ws_ack_latency m) |>.
Definition ws_observe_visibility (m : WorkspaceMetrics) (s : Signal) (secs : f64) : WorkspaceMetrics :=
  m <| ws_visibility_lag := observe_at (signal_index s) secs (ws_visibility_lag m) |>.

(** The calls [collect] makes on the encoder. *)
Inductive EncoderCall :=
| CallCounter (name help : string) (value : Z) (labels : list (string * string))
| CallGauge (name help : string) (value : f64) (labels : list (string * string))
| CallHistogram (name help : string) (h : Histogram) (labels : list (string * string)).

Definition encode_call (e : PromEncoder) (c : EncoderCall) : PromEncoder :=
  match c with
  | CallCounter name help value labels => counter e name help value labels
  | CallGauge name help value labels => gauge e name help value labels
  | CallHistogram name help h labels => histogram e name help h labels
  end.

Definition counter_at (cs : list Counter) (i : nat) : Z := default 0 (cs !! i).
Definition histogram_at (hs : list Histogram) (i : nat) : Histogram := default (histogram_new []) (hs !! i).

Definition system_calls (m : IngestMetrics) : list EncoderCall :=
  (s ← all_signals;
   let i := signal_index s in
   let l := [("signal", metric_signal_as_str s)] in
   [CallCounter "zradar_ingest_requests_total" "OTLP export requests received." (counter_at (requests m) i) l;
    CallCounter "zradar_ingest_rows_accepted_total" "Telemetry rows accepted after the guard chain." (counter_at (rows_accepted m) i) l;
    CallCounter "zradar_ingest_bytes_total" "Telemetry bytes accepted." (counter_at (bytes_ingested m) i) l;
    CallHistogram "zradar_ingest_ack_latency_seconds" "Receive→ack latency (includes WAL fsync)." (histogram_at (ack_latency m) i) l;
    CallHistogram "zradar_ingest_convert_duration_seconds" "OTLP→domain conversion latency." (histogram_at (convert_latency m) i) l;
    CallHistogram "zradar_ingest_visibility_lag_seconds" "Ack→queryable lag (async WAL flush)." (histogram_at (visibility_lag m) i) l;
    CallCounter "zradar_storage_flush_records_total" "Records flushed from WAL to Parquet." (counter_at (flush_records m) i) l;
    CallCounter "zradar_storage_parquet_files_total" "Parquet files written." (counter_at (parquet_files m) i) l]) ++
  (r ← all_reasons;
   [CallCounter "zradar_ingest_rejections_total" "Requests/rows rejected by the guard chain."
      (counter_at (rejections m) (reason_index r)) [("reason", reason_as_str r)]]) ++
  (c ← all_causes;
   [CallCounter "zradar_saturation_circuit_breaker_trips_total" "Circuit-breaker trips by cause."
      (counter_at (cb_trips m) (cause_index c)) [("cause", cause_as_str c)]]) ++
  [CallHistogram "zradar_storage_parquet_file_bytes" "Compressed Parquet file size distribution." (parquet_file_bytes m) [];
   CallGauge "zradar_storage_buffer_records" "Rows buffered awaiting flush." (buffer_records m) [];
   CallGauge "zradar_storage_buffer_bytes" "Bytes buffered awaiting flush." (buffer_bytes m) [];
   CallGauge "zradar_saturation_queue_depth" "Pending write-buffer record count." (queue_depth m) [];
   CallGauge "zradar_saturation_circuit_breaker_state" "Circuit-breaker state (0=closed, 1=open)." (cb_state m) [];
   CallGauge "zradar_saturation_disk_usage_ratio" "Parquet data dir disk usage ratio (0..1)." (disk_usage_ratio m) [];
   CallCounter "zradar_correctness_convert_skipped_total" "Malformed records skipped during conversion." (convert_skipped m) [];
   CallCounter "zradar_correctness_timestamp_anomalies_total"
     "Spans with anomalous timestamps (end<start, future, zero-duration)." (timestamp_anomalies m) [];
   CallCounter "zradar_correctness_dropped_total" "Unexpected drops between accept and persist (data-loss signal)." (dropped m) []].

Definition workspace_calls (m : WorkspaceMetrics) (workspace : string) : list EncoderCall :=
  (s ← all_signals;
   let i := signal_index s in
   let l := [("workspace", workspace); ("signal", metric_signal_as_str s)] in
   [CallCounter "zradar_ingest_ws_rows_accepted_total" "Rows accepted, per observed workspace." (counter_at (ws_rows_accepted m) i) l;
    CallCounter "zradar_ingest_ws_bytes_total" "Bytes accepted, per observed workspace." (counter_at (ws_bytes_ingested m) i) l;
    CallHistogram "zradar_ingest_ws_ack_latency_seconds" "Ack latency, per observed workspace." (histogram_at (ws_ack_latency m) i) l;
    CallHistogram "zradar_ingest_ws_visibility_lag_seconds" "Ack→queryable lag, per observed workspace."
      (histogram_at (ws_visibility_lag m) i) l]) ++
  (r ← all_reasons;
   [CallCounter "zradar_ingest_ws_rejections_total" "Rejections, per observed workspace."
      (counter_at (ws_rejections m) (reason_index r)) [("workspace", workspace); ("reason", reason_as_str r)]]).

Definition collect_calls (calls : list EncoderCall) (e : PromEncoder) : PromEncoder := foldl encode_call e calls.

(** ** The hub *)

Record MetricsHub := mkHub { system : IngestMetrics; workspaces : gmap Z WorkspaceMetrics }.
Definition hub_new : MetricsHub := mkHub ingest_metrics_default ∅.

(** What the pipeline reports. *)
Inductive HubEvent :=
| Request (s : Signal)
| Accepted (workspace : Z) (s : Signal) (rows bytes ack_ns convert_ns : Z)
| Rejected (workspace : Z) (r : RejectReason)
| Visibility (workspace : Z) (s : Signal) (lag_ns : Z)
| Flushed (s : Signal) (rows : Z)
| ParquetWritten (s : Signal) (bytes : Z)
| SetBuffer (rows bytes : Z)
| SetQueueDepth (n : Z)
| SetBreaker (open : bool)
| BreakerTrip (c : BreakerCause)
| SetDiskRatio (ratio : f64)
| ConvertSkipped
| TimestampAnomaly
| Dropped (n : Z)
| ForgetWorkspace (workspace : Z).

(** [ws]: the workspace's own group, made on its first use, when the policy
    observes it. *)
Definition with_ws (observed : Z → bool) (hub : MetricsHub) (w : Z) (f : WorkspaceMetrics → WorkspaceMetrics) : MetricsHub :=
  if observed w then mkHub (system hub) (<[w := f (default workspace_metrics_default (workspaces hub !! w))]> (workspaces hub)) else hub.
Definition on_system (hub : MetricsHub) (f : IngestMetrics → IngestMetrics) : MetricsHub := mkHub (f (system hub)) (workspaces hub).

Definition hub_step (observed : Z → bool) (hub : MetricsHub) (e : HubEvent) : MetricsHub :=
  match e with
  | Request s => on_system hub (λ m, m <| requests := add_at (signal_index s) 1 (requests m) |>)
  | Accepted w s rows bytes ack convert =>
      with_ws observed
        (on_system hub (λ m, observe_convert (observe_ack (group_accepted m s rows bytes) s (as_secs_f64 ack)) s (as_secs_f64 convert)))
        w (λ m, ws_observe_ack (ws_accepted m s rows bytes) s (as_secs_f64 ack))
  | Rejected w r => with_ws observed (on_system hub (λ m, group_rejected m r)) w (λ m, ws_rejected m r)
  | Visibility w s lag =>
      with_ws observed (on_system hub (λ m, observe_visibility m s (as_secs_f64 lag))) w (λ m, ws_observe_visibility m s (as_secs_f64 lag))
  | Flushed s rows => on_system hub (λ m, m <| flush_records := add_at (signal_index s) rows (flush_records m) |>)
  | ParquetWritten s bytes => on_system hub (λ m, group_parquet_written m s bytes)
  | SetBuffer rows bytes => on_system hub (λ m, m <| buffer_records := set_u64 rows |> <| buffer_bytes := set_u64 bytes |>)
  | SetQueueDepth n => on_system hub (λ m, m <| queue_depth := set_u64 n |>)
  | SetBreaker open => on_system hub (λ m, m <| cb_state := if open then f64_of_u64 1 else f64_zero |>)
  | BreakerTrip c => on_system hub (λ m, m <| cb_trips := add_at (cause_index c) 1 (cb_trips m) |>)
  | SetDiskRatio ratio => on_system hub (λ m, m <| disk_usage_ratio := ratio |>)
  | ConvertSkipped => on_system hub (λ m, m <| convert_skipped := counter_inc (convert_skipped m) |>)
  | TimestampAnomaly => on_system hub (λ m, m <| timestamp_anomalies := counter_inc (timestamp_anomalies m) |>)
  | Dropped n => on_system hub (λ m, m <| dropped := counter_add (dropped m) n |>)
  | ForgetWorkspace w => mkHub (system hub) (delete w (workspaces hub))
  end.

(** A run: what is reported, each under the policy at that time. *)
Definition hub_run (hub : MetricsHub) (events : list ((Z → bool) * HubEvent)) : MetricsHub :=
  foldl (λ hub e, hub_step e.1 hub e.2) hub events.

(** [order] is the order the map iterates in, [uuid_text] the text of an id. *)
Definition hub_calls (uuid_text : Z → string) (hub : MetricsHub) (order : list (Z * WorkspaceMetrics)) : list EncoderCall :=
  system_calls (system hub) ++ ('(w, m) ← order; workspace_calls m (uuid_text w)).
Definition render (uuid_text : Z → string) (hub : MetricsHub) (order : list (Z * WorkspaceMetrics)) : string :=
  into_string (collect_calls (hub_calls uuid_text hub order) encoder_new).

(** ** Properties *)

Lemma u64_wrap_add_l a b : u64_wrap (u64_wrap a + b) = u64_wrap (a + b).
Proof. apply Z.add_mod_idemp_l. done. Qed.
Lemma u64_wrap_add_r a b : u64_wrap (a + u64_wrap b) = u64_wrap (a + b).
Proof. apply Z.add_mod_idemp_r. done. Qed.

(** *** Histograms *)

Lemma SFleb_trans x y z : SFleb x y = true → SFleb y z = true → SFleb x z = true.
Proof.
  unfold SFleb, SFcompare.
  destruct x as [sx|sx| |sx mx ex], y as [sy|sy| |sy my ey], z as [sz|sz| |sz mz ez]; try done;
    try destruct sx; try destruct sy; try destruct sz; try done;
    change (Pos.compare_cont Eq) with Pos.compare; cbn [CompOpp];
    destruct (Z.compare_spec ex ey), (Z.compare_spec ey ez), (Z.compare_spec ex ez); try done; try lia;
    destruct (Pos.compare_spec mx my), (Pos.compare_spec my mz), (Pos.compare_spec mx mz); try done; lia.
Qed.

(** The buckets of the values observed, each in the first it fits. *)
Fixpoint counts_of (bounds : list f64) (vs : list f64) : list Z :=
  match bounds with
  | [] => [zlen vs]
  | b :: bounds => zlen (filter (λ v, SFleb v b = true) vs) :: counts_of bounds (filter (λ v, SFleb v b ≠ true) vs)
  end.

Lemma zlen_snoc {A} (l : list A) x : zlen (l ++ [x]) = zlen l + 1.
Proof. rewrite length_app. cbn [length]. lia. Qed.

Lemma counts_of_snoc bounds vs v :
  counts_of bounds (vs ++ [v]) = alter (λ c, c + 1) (hist_bucket_index bounds v) (counts_of bounds vs).
Proof.
  unfold hist_bucket_index. revert vs. induction bounds as [|b bounds IH]; intros vs; cbn; [by rewrite zlen_snoc|].
  rewrite !filter_app, !filter_cons, !filter_nil. destruct (decide (SFleb v b = true)) as [Hv|Hv].
  - rewrite (decide_False (P := SFleb v b ≠ true)) by naive_solver. cbn. by rewrite zlen_snoc, app_nil_r.
  - rewrite (decide_True (P := SFleb v b ≠ true)) by done. rewrite app_nil_r, IH.
    by destruct (list_find (λ b, SFleb v b = true) bounds) as [[i x]|].
Qed.

Definition bucket_value (s : HistStep) : option f64 := match s with Bucket v => Some v | _ => None end.
Definition sum_value (s : HistStep) : option f64 := match s with SumUp v => Some v | _ => None end.
Definition is_count (s : HistStep) : Prop := match s with CountUp => True | _ => False end.
#[export] Instance is_count_dec s : Decision (is_count s).
Proof. destruct s; apply _. Defined.

Lemma hist_run_bounds h steps : bounds (hist_run h steps) = bounds h.
Proof. revert h. induction steps as [|s steps IH]; intros h; cbn; [done|]. rewrite IH. by destruct s. Qed.

Lemma hist_run_counts bs steps :
  counts (hist_run (histogram_new bs) steps) = map u64_wrap (counts_of bs (omap bucket_value steps)).
Proof.
  induction steps as [|s steps IH] using rev_ind.
  - cbn. induction bs as [|b bs IH]; cbn; [done|]. f_equal. exact IH.
  - unfold hist_run. rewrite foldl_snoc, omap_app. change (foldl hist_step (histogram_new bs) steps) with (hist_run (histogram_new bs) steps).
    destruct s as [v| |v]; cbn; rewrite ?app_nil_r; [|exact IH..].
    rewrite IH, hist_run_bounds, counts_of_snoc. cbn. symmetry. apply list_fmap_alter. apply Forall_forall. intros c _.
    unfold counter_inc, counter_add. by rewrite u64_wrap_add_l.
Qed.

(** What the encoder's loop over the buckets says. *)
Fixpoint running_totals (cumulative : Z) (counts : list Z) : list Z :=
  match counts with
  | [] => []
  | c :: counts => let cumulative := u64_wrap (cumulative + c) in cumulative :: running_totals cumulative counts
  end.
Definition bucket_totals (h : Histogram) : list Z := running_totals 0 (counts h).

Lemma filter_partition_length {A} (P Q : A → Prop) `{!∀ x, Decision (P x), !∀ x, Decision (Q x)} (l : list A) :
  (∀ x, P x → Q x) →
  zlen (filter Q l) = zlen (filter P l) + zlen (filter Q (filter (λ x, ¬ P x) l)).
Proof.
  intros HPQ. induction l as [|x l IH]; [done|]. rewrite !(filter_cons _ x).
  destruct (decide (P x)) as [HP|HP].
  - rewrite (decide_True (P := Q x)), (decide_False (P := ¬ P x)) by (done || naive_solver). cbn [length]. lia.
  - rewrite (decide_True (P := ¬ P x)) by done. rewrite filter_cons. destruct (decide (Q x)); cbn [length]; lia.
Qed.

Lemma filter_all_length {A} (P : A → Prop) `{!∀ x, Decision (P x)} (l : list A) :
  zlen l = zlen (filter P l) + zlen (filter (λ x, ¬ P x) l).
Proof.
  induction l as [|x l IH]; [done|]. rewrite !filter_cons.
  destruct (decide (P x)); [rewrite decide_False by naive_solver|rewrite decide_True by done]; cbn [length]; lia.
Qed.

Lemma running_totals_of bs vs acc :
  StronglySorted (λ a b, SFleb a b = true) bs →
  running_totals (u64_wrap acc) (map u64_wrap (counts_of bs vs)) =
  map (λ b, u64_wrap (acc + zlen (filter (λ v, SFleb v b = true) vs))) bs ++ [u64_wrap (acc + zlen vs)].
Proof.
  intros Hs. revert acc vs. induction Hs as [|b bs Hs IH Hb]; intros acc vs; cbn [counts_of map running_totals app].
  - by rewrite u64_wrap_add_l, u64_wrap_add_r.
  - rewrite u64_wrap_add_l, u64_wrap_add_r. f_equal. rewrite IH. f_equal.
    + apply map_ext_in. intros b' Hin. rewrite <- Z.add_assoc. do 2 f_equal. symmetry. apply filter_partition_length.
      rewrite Forall_forall in Hb. intros v Hv. eapply SFleb_trans; [exact Hv|]. apply Hb. by apply list_elem_of_In.
    + rewrite <- Z.add_assoc. do 3 f_equal. symmetry. apply filter_all_length.
Qed.

(** Whatever observations run concurrently, the text's bucket of a bound counts the
    values so far that are not above it, and the last all of them; the count and the
    sum follow the steps made so far. *)
Theorem histogram_exact bs steps :
  StronglySorted (λ a b, SFleb a b = true) bs →
  let h := hist_run (histogram_new bs) steps in
  let vs := omap bucket_value steps in
  bucket_totals h = map (λ b, u64_wrap (zlen (filter (λ v, SFleb v b = true) vs))) bs ++ [u64_wrap (zlen vs)] ∧
  count h = u64_wrap (zlen (filter is_count steps)) ∧
  sum h = foldl f64_add f64_zero (omap sum_value steps).
Proof.
  intros Hs h vs. split_and!.
  - unfold bucket_totals, h. rewrite hist_run_counts. exact (running_totals_of bs vs 0 Hs).
  - unfold h. induction steps as [|s steps IH] using rev_ind; [done|]. unfold hist_run. rewrite foldl_snoc, filter_app.
    change (foldl hist_step (histogram_new bs) steps) with (hist_run (histogram_new bs) steps).
    destruct s as [v| |v]; cbn [hist_step count]; [rewrite (filter_cons_False is_count) by (intros [])|rewrite (filter_cons_True is_count) by exact I|rewrite (filter_cons_False is_count) by (intros [])];
      rewrite filter_nil, ?app_nil_r; [exact IH| |exact IH].
    rewrite zlen_snoc. unfold counter_inc, counter_add. by rewrite IH, u64_wrap_add_l.
  - unfold h. induction steps as [|s steps IH] using rev_ind; [done|]. unfold hist_run. rewrite foldl_snoc, omap_app, foldl_app.
    destruct s; cbn; try exact IH. f_equal. exact IH.
Qed.

(** The bounds the metrics use are increasing. *)
Definition increasing (bs : list f64) : bool :=
  bool_decide (StronglySorted (λ a b, SFleb a b = true) bs).

Lemma latency_increasing : StronglySorted (λ a b, SFleb a b = true) LATENCY_SECONDS.
Proof. unfold LATENCY_SECONDS. repeat (constructor; [|repeat constructor; vm_compute; reflexivity]). constructor. Qed.
Lemma sizes_increasing : StronglySorted (λ a b, SFleb a b = true) SIZE_BYTES.
Proof. unfold SIZE_BYTES. cbn [map]. repeat (constructor; [|repeat constructor; vm_compute; reflexivity]). constructor. Qed.

(** Two observations, the second begun before the sum of the first is added, and a
    third that is not a number and has only reached its bucket. *)
Definition sample_steps : list HistStep :=
  [Bucket (f64_ratio 3 1000); CountUp; Bucket (f64_ratio 1 5); SumUp (f64_ratio 3 1000); CountUp; SumUp (f64_ratio 1 5); Bucket S754_nan].

Lemma histogram_exact_witness :
  bucket_totals (hist_run (histogram_new LATENCY_SECONDS) sample_steps) = [0; 0; 0; 1; 1; 1; 1; 1; 2; 2; 2; 2; 2; 2; 3] ∧
  count (hist_run (histogram_new LATENCY_SECONDS) sample_steps) = 2.
Proof.
  destruct (histogram_exact LATENCY_SECONDS sample_steps latency_increasing) as (Hb & Hc & _). split.
  - rewrite Hb. vm_compute. reflexivity.
  - rewrite Hc. vm_compute. reflexivity.
Defined.

(** *** The hub *)

(** A group of counters holds these totals. *)
Definition totals {A : Type} (f : A → Z) (all : list A) : list Counter := map (λ a, u64_wrap (f a)) all.

Lemma add_at_signal f s n :
  add_at (signal_index s) n (totals f all_signals) = totals (λ s', f s' + (if decide (s = s') then n else 0)) all_signals.
Proof. unfold add_at, counter_add. destruct s; cbn; rewrite ?Z.add_0_r, ?u64_wrap_add_l; done. Qed.

Lemma add_at_reason f r n :
  add_at (reason_index r) n (totals f all_reasons) = totals (λ r', f r' + (if decide (r = r') then n else 0)) all_reasons.
Proof. unfold add_at, counter_add. destruct r; cbn; rewrite ?Z.add_0_r, ?u64_wrap_add_l; done. Qed.

#[export] Instance totals_proper A : Proper (pointwise_relation A eq ==> eq ==> eq) totals.
Proof. intros f g H all _ <-. apply map_ext. intros a. by rewrite H. Qed.

(** What was reported: the rows accepted of a signal and the rejections for a
    reason, of all workspaces ([None]) or of one, since it was last forgotten and
    while it was observed. *)
Definition rows_of (s : Signal) (e : HubEvent) : Z :=
  match e with Accepted _ s' rows _ _ _ => if decide (s' = s) then rows else 0 | _ => 0 end.
Definition bytes_of (s : Signal) (e : HubEvent) : Z :=
  match e with Accepted _ s' _ bytes _ _ => if decide (s' = s) then bytes else 0 | _ => 0 end.
Definition rejections_of (r : RejectReason) (e : HubEvent) : Z :=
  match e with Rejected _ r' => if decide (r' = r) then 1 else 0 | _ => 0 end.
Definition of_workspace (w : Z) (e : HubEvent) : bool :=
  match e with Accepted w' _ _ _ _ _ | Rejected w' _ | Visibility w' _ _ => w' =? w | _ => false end.

Fixpoint total (f : HubEvent → Z) (events : list ((Z → bool) * HubEvent)) : Z :=
  match events with [] => 0 | (_, e) :: events => f e + total f events end.
Fixpoint ws_total (w : Z) (f : HubEvent → Z) (acc : Z) (events : list ((Z → bool) * HubEvent)) : Z :=
  match events with
  | [] => acc
  | (observed, e) :: events =>
      ws_total w f (match e with
                    | ForgetWorkspace w' => if w' =? w then 0 else acc
                    | _ => if observed w && of_workspace w e then acc + f e else acc
                    end) events
  end.

Lemma total_snoc f events e : total f (events ++ [e]) = total f events + f e.2.
Proof. induction events as [|[o e'] events IH]; cbn; [destruct e; cbn; lia|]. lia. Qed.

Lemma ws_total_snoc w f acc events e :
  ws_total w f acc (events ++ [e]) =
  match e.2 with
  | ForgetWorkspace w' => if w' =? w then 0 else ws_total w f acc events
  | _ => if e.1 w && of_workspace w e.2 then ws_total w f acc events + f e.2 else ws_total w f acc events
  end.
Proof. revert acc. induction events as [|[o e'] events IH]; intros acc; cbn; [destruct e as [o []]; done|]. apply IH. Qed.

Definition system_accounts (m : IngestMetrics) (events : list ((Z → bool) * HubEvent)) : Prop :=
  rows_accepted m = totals (λ s, total (rows_of s) events) all_signals ∧
  bytes_ingested m = totals (λ s, total (bytes_of s) events) all_signals ∧
  rejections m = totals (λ r, total (rejections_of r) events) all_reasons.

Definition workspace_accounts (w : Z) (m : WorkspaceMetrics) (events : list ((Z → bool) * HubEvent)) : Prop :=
  ws_rows_accepted m = totals (λ s, ws_total w (rows_of s) 0 events) all_signals ∧
  ws_bytes_ingested m = totals (λ s, ws_total w (bytes_of s) 0 events) all_signals ∧
  ws_rejections m = totals (λ r, ws_total w (rejections_of r) 0 events) all_reasons.

Lemma totals_zero {A} (f : A → Z) all : totals (λ a, f a + 0) all = totals f all.
Proof. by setoid_rewrite Z.add_0_r. Qed.

Lemma system_accounts_step events e hub :
  system_accounts (system hub) events → system_accounts (system (hub_step e.1 hub e.2)) (events ++ [e]).
Proof.
  intros (Hr & Hb & Hj). unfold system_accounts. setoid_rewrite total_snoc.
  destruct e as [o e]. cbn [fst snd].
  destruct e; cbn [hub_step rows_of bytes_of rejections_of]; rewrite ?totals_zero; unfold with_ws; try destruct (o _); cbn [system on_system];
    (split_and!; [cbn; rewrite Hr|cbn; rewrite Hb|cbn; rewrite Hj]); try reflexivity;
    first [apply add_at_signal|apply add_at_reason].
Qed.

Lemma with_ws_lookup observed hub w f w' :
  workspaces (with_ws observed hub w f) !! w' =
  if observed w && (w =? w') then Some (f (default workspace_metrics_default (workspaces hub !! w))) else workspaces hub !! w'.
Proof.
  unfold with_ws. destruct (observed w); [|done]. cbn [workspaces andb]. destruct (Z.eqb_spec w w') as [->|Hne].
  - apply lookup_insert_eq.
  - by apply lookup_insert_ne.
Qed.

Lemma workspace_accounts_step w events e hub :
  let group hub := default workspace_metrics_default (workspaces hub !! w) in
  workspace_accounts w (group hub) events → workspace_accounts w (group (hub_step e.1 hub e.2)) (events ++ [e]).
Proof.
  intros group (Hr & Hb & Hj). unfold workspace_accounts. setoid_rewrite ws_total_snoc. destruct e as [o e]. unfold group in *. cbn [fst snd].
  destruct e; cbn [hub_step of_workspace]; rewrite ?andb_false_r; try by split_and!.
  1-3: rewrite with_ws_lookup; destruct (Z.eqb_spec workspace w) as [->|Hne]; rewrite ?andb_false_r; [|by split_and!];
    rewrite !andb_true_r; destruct (o w); [|by split_and!]; change (workspaces (on_system hub ?f)) with (workspaces hub);
    generalize dependent (default workspace_metrics_default (workspaces hub !! w)); intros m Hr Hb Hj;
    cbn [rows_of bytes_of rejections_of]; rewrite ?totals_zero;
    (split_and!; [first [exact Hr|cbn; rewrite Hr; apply add_at_signal]|first [exact Hb|cbn; rewrite Hb; apply add_at_signal]
                 |first [exact Hj|cbn; rewrite Hj; apply add_at_reason]]).
  destruct (Z.eqb_spec workspace w) as [->|Hne]; cbn [workspaces].
  - rewrite lookup_delete_eq. by split_and!.
  - rewrite lookup_delete_ne by done. by split_and!.
Qed.

Lemma hub_series_observed events w :
  is_Some (workspaces (hub_run hub_new events) !! w) → ∃ e, e ∈ events ∧ e.1 w = true ∧ of_workspace w e.2 = true.
Proof.
  induction events as [|[o e] events IH] using rev_ind; [by intros [? ?]|]. unfold hub_run. rewrite foldl_snoc. fold (hub_run hub_new events).
  assert (is_Some (workspaces (hub_run hub_new events) !! w) → ∃ e', e' ∈ events ++ [(o, e)] ∧ e'.1 w = true ∧ of_workspace w e'.2 = true) as Hold.
  { intros (e' & He' & ?)%IH. exists e'. rewrite elem_of_app. tauto. }
  assert (∀ w' f hub', workspaces hub' = workspaces (hub_run hub_new events) → of_workspace w e = (w' =? w) →
    is_Some (workspaces (with_ws o hub' w' f) !! w) → ∃ e', e' ∈ events ++ [(o, e)] ∧ e'.1 w = true ∧ of_workspace w e'.2 = true) as Hnew.
  { intros w' f hub' Hw' Hof. rewrite with_ws_lookup, Hw'. destruct (o w') eqn:Ho; cbn [andb]; [|exact Hold].
    destruct (Z.eqb_spec w' w) as [->|Hne]; [|exact Hold]. intros _. exists (o, e). rewrite elem_of_app, list_elem_of_singleton. auto. }
  cbn [fst snd]. destruct e; cbn [hub_step on_system workspaces]; try exact Hold; try by apply Hnew.
  destruct (decide (workspace = w)) as [->|Hne]; [rewrite lookup_delete_eq; by intros [? ?]|]. by rewrite lookup_delete_ne.
Qed.

Lemma hub_system_accounts events : system_accounts (system (hub_run hub_new events)) events.
Proof. induction events as [|e events IH] using rev_ind; [done|]. unfold hub_run. rewrite foldl_snoc. by apply system_accounts_step. Qed.

Lemma hub_workspace_accounts events w :
  workspace_accounts w (default workspace_metrics_default (workspaces (hub_run hub_new events) !! w)) events.
Proof. induction events as [|e events IH] using rev_ind; [done|]. unfold hub_run. rewrite foldl_snoc. by apply workspace_accounts_step. Qed.

(** In every run the system's counters hold, modulo [2 ^ 64], what was reported by
    all workspaces, and a workspace's series what it reported while the policy
    observed it since it was last forgotten; a workspace the policy never observed has
    no series. *)
Theorem hub_accounts events :
  let hub := hub_run hub_new events in
  system_accounts (system hub) events ∧
  (∀ w, workspace_accounts w (default workspace_metrics_default (workspaces hub !! w)) events) ∧
  (∀ w, is_Some (workspaces hub !! w) → ∃ e, e ∈ events ∧ e.1 w = true ∧ of_workspace w e.2 = true).
Proof.
  intros hub. split_and!; [apply hub_system_accounts|apply hub_workspace_accounts|apply hub_series_observed].
Qed.
