(* ===== verification/Exposition.v ===== *)
(** The page [/metrics]: the metrics of the log ([zradar-wal/src/metrics.rs]), of
    the usage tracker ([UsageTrackerMetrics] of
    [zradar-plugin-postgres/src/repositories/usage.rs]) and of the hub ([Metering]),
    as [zradar-runtime/src/builder.rs] serves them, and a reader of the text format
    they are written in. *)

From stdpp Require Import base gmap list sorting strings pretty.
From Stdlib Require Import SpecFloat Ascii.
From S2P Require Import Prelude Backpressure F64Text Sql PgUsageWorker Metering.

(** ** The metrics of the log *)

Module Wal.
Record WalMetrics := mkWalMetrics {
  append_total : Z;
  append_bytes_total : Z;
  fsync_total : Z;
  segment_bytes : Z;
  lag_bytes : Z;
  lag_seconds : Z;
  dir_free_bytes : Z;
  backpressure_state : Z;
  replay_records_total : Z;
  replay_duration_ms : Z;
  torn_writes_total : Z;
  append_duration_ns_sum : Z;
  append_duration_ns_count : Z;
}.

Definition wal_metrics_new : WalMetrics := mkWalMetrics 0 0 0 0 0 0 0 0 0 0 0 0 0.

Definition record_append (m : WalMetrics) (bytes duration_ns : Z) : WalMetrics :=
  mkWalMetrics (u64_wrap (append_total m + 1)) (u64_wrap (append_bytes_total m + bytes)) (fsync_total m) (segment_bytes m) (lag_bytes m)
    (lag_seconds m) (dir_free_bytes m) (backpressure_state m) (replay_records_total m) (replay_duration_ms m) (torn_writes_total m)
    (u64_wrap (append_duration_ns_sum m + duration_ns)) (u64_wrap (append_duration_ns_count m + 1)).
Definition record_fsync (m : WalMetrics) : WalMetrics :=
  mkWalMetrics (append_total m) (append_bytes_total m) (u64_wrap (fsync_total m + 1)) (segment_bytes m) (lag_bytes m)
    (lag_seconds m) (dir_free_bytes m) (backpressure_state m) (replay_records_total m) (replay_duration_ms m) (torn_writes_total m)
    (append_duration_ns_sum m) (append_duration_ns_count m).
Definition record_torn_write (m : WalMetrics) : WalMetrics :=
  mkWalMetrics (append_total m) (append_bytes_total m) (fsync_total m) (segment_bytes m) (lag_bytes m)
    (lag_seconds m) (dir_free_bytes m) (backpressure_state m) (replay_records_total m) (replay_duration_ms m)
    (u64_wrap (torn_writes_total m + 1)) (append_duration_ns_sum m) (append_duration_ns_count m).

Definition write_metric (typ name help : string) (value : Z) : string :=
  "# HELP " +:+ name +:+ " " +:+ help +:+ nl +:+ "# TYPE " +:+ name +:+ " " +:+ typ +:+ nl +:+ name +:+ " " +:+ pretty value +:+ nl.
Definition write_counter : string → string → Z → string := write_metric "counter".
Definition write_gauge : string → string → Z → string := write_metric "gauge".

Definition render_prometheus (m : WalMetrics) : string :=
  write_counter "zradar_wal_append_total" "Total WAL records appended" (append_total m) +:+
  write_counter "zradar_wal_append_bytes_total" "Total bytes appended to WAL" (append_bytes_total m) +:+
  write_counter "zradar_wal_fsync_total" "Total fsync calls by group-commit" (fsync_total m) +:+
  write_gauge "zradar_wal_segment_bytes" "Active segment size in bytes" (segment_bytes m) +:+
  write_gauge "zradar_wal_lag_bytes" "Bytes between append highwater and flush checkpoint" (lag_bytes m) +:+
  write_gauge "zradar_wal_lag_seconds" "Estimated seconds of unflushed data" (lag_seconds m) +:+
  write_gauge "zradar_wal_dir_free_bytes" "Free bytes on WAL filesystem" (dir_free_bytes m) +:+
  write_gauge "zradar_wal_backpressure_state" "Backpressure state (0=Normal, 1=Slowdown, 2=Reject)" (backpressure_state m) +:+
  write_counter "zradar_wal_replay_records_total" "Records replayed on last startup" (replay_records_total m) +:+
  write_gauge "zradar_wal_replay_duration_seconds" "Duration of last replay" (replay_duration_ms m / 1000) +:+
  write_counter "zradar_wal_torn_writes_total" "Total torn writes detected and recovered" (torn_writes_total m) +:+
  "# HELP zradar_wal_append_duration_seconds Append latency" +:+ nl +:+
  "# TYPE zradar_wal_append_duration_seconds summary" +:+ nl +:+
  "zradar_wal_append_duration_seconds_sum " +:+
    default "" (f64_text (f64_div (f64_of_u64 (append_duration_ns_sum m)) (f64_of_u64 1000000000))) +:+ nl +:+
  "zradar_wal_append_duration_seconds_count " +:+ pretty (append_duration_ns_count m) +:+ nl.
End Wal.

(** ** The metrics of the usage tracker *)

Definition usage_write_metric (typ name : string) (value : Z) : string :=
  "# TYPE " +:+ name +:+ " " +:+ typ +:+ nl +:+ name +:+ " " +:+ pretty value +:+ nl.
Definition usage_write_counter : string → Z → string := usage_write_metric "counter".
Definition usage_write_gauge : string → Z → string := usage_write_metric "gauge".

(** [last_flush_ms] is the duration of the last flush. *)
Definition usage_render_prometheus (m : UsageTrackerMetrics) (last_flush_ms : Z) : string :=
  usage_write_counter "zradar_usage_tracker_write_samples_dropped_total" (write_samples_dropped_total m) +:+
  usage_write_counter "zradar_usage_tracker_query_samples_dropped_total" (query_samples_dropped_total m) +:+
  usage_write_counter "zradar_usage_tracker_flush_failures_total" (flush_failures_total m) +:+
  usage_write_counter "zradar_usage_tracker_flush_batches_total" (flush_batches_total m) +:+
  usage_write_counter "zradar_usage_tracker_flush_samples_total" (flush_samples_total m) +:+
  usage_write_gauge "zradar_usage_tracker_buffered_samples" (buffered_samples m) +:+
  usage_write_gauge "zradar_usage_tracker_last_flush_duration_ms" last_flush_ms.

(** ** The page *)

Definition served_metrics (uuid_text : Z → string) (wal : Wal.WalMetrics) (usage : UsageTrackerMetrics) (last_flush_ms : Z) (hub : MetricsHub)
    (order : list (Z * WorkspaceMetrics)) : string :=
  Wal.render_prometheus wal +:+ usage_render_prometheus usage last_flush_ms +:+ render uuid_text hub order.

(** ** A reader of the text format *)

Inductive Line :=
| Comment (text : string)
| Sample (name : string) (labels : list (string * string)) (value : string).

Fixpoint split_lines (acc s : string) : list string :=
  match s with
  | EmptyString => match acc with EmptyString => [] | _ => [acc] end
  | String c s => if Ascii.eqb c "010" then acc :: split_lines EmptyString s else split_lines (acc +:+ String c EmptyString) s
  end.

(** The text before the first character that satisfies [stop], and from it on. *)
Fixpoint span_until (stop : ascii → bool) (s : string) : string * string :=
  match s with
  | EmptyString => (EmptyString, EmptyString)
  | String c s' => if stop c then (EmptyString, s) else let '(a, b) := span_until stop s' in (String c a, b)
  end.

(** A label's value up to the closing quote, unescaped. *)
Fixpoint read_quoted (s : string) : option (string * string) :=
  match s with
  | EmptyString => None
  | String c s =>
      if Ascii.eqb c "034" then Some (EmptyString, s)
      else if Ascii.eqb c "\" then
        match s with
        | EmptyString => None
        | String e s => '(v, rest) ← read_quoted s; Some (String (if Ascii.eqb e "n" then "010"%char else e) v, rest)
        end
      else '(v, rest) ← read_quoted s; Some (String c v, rest)
  end.

Fixpoint parse_labels (fuel : nat) (s : string) : option (list (string * string) * string) :=
  match fuel with
  | O => None
  | S fuel =>
      match span_until (λ c, Ascii.eqb c "=") s with
      | (k, String _ (String q s)) =>
          if Ascii.eqb q "034" then
            '(v, rest) ← read_quoted s;
            match rest with
            | String c rest =>
                if Ascii.eqb c "}" then Some ([(k, v)], rest)
                else if Ascii.eqb c "," then '(ls, rest) ← parse_labels fuel rest; Some ((k, v) :: ls, rest)
                else None
            | EmptyString => None
            end
          else None
      | _ => None
      end
  end.

Definition parse_value (name : string) (labels : list (string * string)) (s : string) : option Line :=
  match s with String c v => if Ascii.eqb c " " then Some (Sample name labels v) else None | EmptyString => None end.

Definition parse_line (s : string) : option Line :=
  match s with
  | String "#" _ => Some (Comment s)
  | _ =>
      let '(name, rest) := span_until (λ c, Ascii.eqb c "{" || Ascii.eqb c " ") s in
      match rest with
      | String "{" rest => '(labels, rest) ← parse_labels (String.length rest) rest; parse_value name labels rest
      | _ => parse_value name [] rest
      end
  end.

Definition parse_exposition (s : string) : option (list Line) := mapM parse_line (split_lines EmptyString s).

(** ** What a page says *)

Definition line_body (l : Line) : string :=
  match l with Comment t => t | Sample name labels value => name +:+ write_labels labels +:+ " " +:+ value end.
Definition exposition_text (ls : list Line) : string := foldr (λ l s, line_body l +:+ nl +:+ s) EmptyString ls.

Definition not_newline (c : ascii) : bool := negb (Ascii.eqb c "010").
Definition name_char (c : ascii) : bool := not_newline c && negb (Ascii.eqb c "{" || Ascii.eqb c " " || Ascii.eqb c "#").
Definition key_char (c : ascii) : bool := not_newline c && negb (Ascii.eqb c "=").

Definition line_ok (l : Line) : bool :=
  match l with
  | Comment t => match t with String "#" _ => all_chars not_newline t | _ => false end
  | Sample name labels value => all_chars name_char name && forallb (λ l, all_chars key_char l.1) labels && all_chars not_newline value
  end.

(** ** Reading back *)

Lemma app_cons c s t : String c s +:+ t = String c (s +:+ t).
Proof. reflexivity. Qed.

Lemma app_nil_r_string s : s +:+ "" = s.
Proof. induction s as [|c s IH]; [done|]. by rewrite app_cons, IH. Qed.

Lemma all_chars_app P s t : all_chars P (s +:+ t) = all_chars P s && all_chars P t.
Proof. induction s as [|c s IH]; [done|]. rewrite app_cons. cbn [all_chars]. by rewrite IH, andb_assoc. Qed.

Lemma all_chars_impl (P Q : ascii → bool) s : (∀ c, P c = true → Q c = true) → all_chars P s = true → all_chars Q s = true.
Proof.
  intros HPQ. induction s as [|c s IH]; [done|]. cbn [all_chars]. rewrite !andb_true_iff. intros [Hc Hs]. split; [by apply HPQ|by apply IH].
Qed.

Lemma split_line l s acc : all_chars not_newline l = true → split_lines acc (l +:+ nl +:+ s) = (acc +:+ l) :: split_lines "" s.
Proof.
  revert acc. induction l as [|c l IH]; intros acc Hl.
  - by rewrite app_nil_r_string.
  - cbn [all_chars] in Hl. apply andb_true_iff in Hl as [Hc Hl]. rewrite app_cons. cbn [split_lines].
    apply negb_true_iff in Hc. rewrite Hc, IH by done. rewrite string_app_assoc. done.
Qed.

Lemma span_until_app stop a c b :
  all_chars (λ c, negb (stop c)) a = true → stop c = true → span_until stop (a +:+ String c b) = (a, String c b).
Proof.
  intros Ha Hc. induction a as [|x a IH].
  - change ("" +:+ String c b) with (String c b). cbn [span_until]. by rewrite Hc.
  - cbn [all_chars] in Ha. apply andb_true_iff in Ha as [Hx Ha]. apply negb_true_iff in Hx.
    rewrite app_cons. cbn [span_until]. by rewrite Hx, IH.
Qed.

Lemma read_escaped v rest : read_quoted (escape_label v +:+ String "034" rest) = Some (v, rest).
Proof.
  induction v as [|c v IH]; [done|]. cbn [escape_label].
  destruct (Ascii.eqb_spec c "034") as [->|Hq]; [|destruct (Ascii.eqb_spec c "\") as [->|Hb]; [|destruct (Ascii.eqb_spec c "010") as [->|Hn]]];
    rewrite string_app_assoc, ?app_cons; cbn [read_quoted].
  - exact (f_equal (λ o, '(v, rest) ← o; Some (String "034" v, rest)) IH).
  - exact (f_equal (λ o, '(v, rest) ← o; Some (String "\" v, rest)) IH).
  - exact (f_equal (λ o, '(v, rest) ← o; Some (String "010" v, rest)) IH).
  - apply Ascii.eqb_neq in Hq, Hb. change ("" +:+ ?t) with t. rewrite Hq, Hb.
    exact (f_equal (λ o, '(v, rest) ← o; Some (String c v, rest)) IH).
Qed.

Lemma escape_no_newline v : all_chars not_newline (escape_label v) = true.
Proof.
  induction v as [|c v IH]; [done|]. cbn [escape_label]. rewrite all_chars_app, IH, andb_true_r.
  destruct (Ascii.eqb c "034"); [done|]. destruct (Ascii.eqb c "\"); [done|]. destruct (Ascii.eqb c "010") eqn:Hn; [done|].
  cbn. unfold not_newline. by rewrite Hn.
Qed.

Lemma key_char_stops c : key_char c = true → negb (Ascii.eqb c "=") = true.
Proof. unfold key_char. by intros [_ ?]%andb_true_iff. Qed.

Lemma parse_join_labels ls rest fuel :
  ls ≠ [] → (length ls ≤ fuel)%nat → forallb (λ l, all_chars key_char l.1) ls = true →
  parse_labels fuel (join_labels ls +:+ "}" +:+ rest) = Some (ls, rest).
Proof.
  revert ls. induction fuel as [|fuel IH]; intros [|[k v] ls] Hne Hf Hk; [done|cbn in Hf; lia|done|].
  cbn [forallb fst] in Hk. apply andb_true_iff in Hk as [Hk Hks].
  assert (∀ tail, span_until (λ c, Ascii.eqb c "=") (label_text (k, v) +:+ tail) =
    (k, String "=" (String "034" (escape_label v +:+ String "034" tail)))) as Hspan.
  { intros tail. unfold label_text. cbn [fst snd]. rewrite !string_app_assoc. apply span_until_app; [|done].
    eapply all_chars_impl; [|exact Hk]. exact key_char_stops. }
  assert (∀ tail, read_quoted (escape_label v +:+ String "034" tail) = Some (v, tail)) as Hread by (intros; apply read_escaped).
  cbn [parse_labels]. destruct ls as [|l ls].
  - cbn [join_labels]. rewrite Hspan. change (Ascii.eqb "034" "034") with true. cbn beta iota. rewrite Hread. done.
  - change (join_labels ((k, v) :: l :: ls)) with (label_text (k, v) +:+ "," +:+ join_labels (l :: ls)).
    rewrite !string_app_assoc, Hspan. change (Ascii.eqb "034" "034") with true. cbn beta iota. rewrite Hread. cbn [mbind option_bind].
    change ("," +:+ ?t) with (String "," t). cbn beta iota. change (Ascii.eqb "," "}") with false. change (Ascii.eqb "," ",") with true.
    cbn beta iota. rewrite IH by (done || cbn in *; lia). done.
Qed.

Lemma string_length_app s t : String.length (s +:+ t) = (String.length s + String.length t)%nat.
Proof. induction s as [|c s IH]; [done|]. rewrite app_cons. cbn [String.length]. by rewrite IH. Qed.

Lemma length_join_labels ls : (length ls ≤ String.length (join_labels ls))%nat.
Proof.
  induction ls as [|l [|l' ls] IH]; [done| |].
  - cbn [join_labels length]. unfold label_text. rewrite !string_length_app. cbn [String.length quote]. lia.
  - change (join_labels (l :: l' :: ls)) with (label_text l +:+ "," +:+ join_labels (l' :: ls)). rewrite !string_length_app.
    cbn [String.length length] in *. lia.
Qed.

Lemma parse_line_body l : line_ok l = true → parse_line (line_body l) = Some l.
Proof.
  destruct l as [t|name labels value]; cbn [line_ok line_body].
  - destruct t as [|c t]; [done|]. unfold parse_line. by destruct c as [[] [] [] [] [] [] [] []].
  - rewrite !andb_true_iff. intros [[Hn Hl] Hv].
    set (rest := write_labels labels +:+ " " +:+ value).
    assert (parse_line (name +:+ rest) =
      let '(name, rest) := span_until (λ c, Ascii.eqb c "{" || Ascii.eqb c " ") (name +:+ rest) in
      match rest with
      | String "{" rest => '(labels, rest) ← parse_labels (String.length rest) rest; parse_value name labels rest
      | _ => parse_value name [] rest
      end) as ->.
    { destruct name as [|c name]; [by destruct labels|]. rewrite app_cons. unfold parse_line.
      cbn [all_chars] in Hn. apply andb_true_iff in Hn as [Hc _]. by destruct c as [[] [] [] [] [] [] [] []]. }
    assert (all_chars (λ c, negb (Ascii.eqb c "{" || Ascii.eqb c " ")) name = true) as Hstop.
    { eapply all_chars_impl; [|exact Hn]. intros c. unfold name_char. by destruct c as [[] [] [] [] [] [] [] []]. }
    destruct labels as [|l ls].
    + subst rest. change (write_labels [] +:+ " " +:+ value) with (String " " value). by rewrite span_until_app.
    + subst rest. unfold write_labels. rewrite !string_app_assoc.
      change ("{" +:+ ?t) with (String "{" t). rewrite span_until_app by done.
      rewrite parse_join_labels; [done|done| |done]. rewrite !string_length_app. pose proof (length_join_labels (l :: ls)). lia.
Qed.

Lemma write_labels_no_newline ls : forallb (λ l, all_chars key_char l.1) ls = true → all_chars not_newline (write_labels ls) = true.
Proof.
  assert (forallb (λ l, all_chars key_char l.1) ls = true → all_chars not_newline (join_labels ls) = true) as Hjoin.
  { intros H. induction ls as [|l [|l' ls] IH]; [done| |]; cbn [forallb] in H; apply andb_true_iff in H as [Hl H];
      (assert (all_chars not_newline (label_text l) = true) as Ht;
       [unfold label_text; rewrite !all_chars_app, escape_no_newline;
        rewrite (all_chars_impl key_char not_newline l.1) by (done || (unfold key_char; by intros c [? _]%andb_true_iff)); done|]); [exact Ht|].
    change (join_labels (l :: l' :: ls)) with (label_text l +:+ "," +:+ join_labels (l' :: ls)).
    rewrite !all_chars_app, Ht, IH by done. done. }
  intros H. destruct ls as [|l ls]; [done|]. unfold write_labels. rewrite !all_chars_app, Hjoin by done. done.
Qed.

Lemma line_body_no_newline l : line_ok l = true → all_chars not_newline (line_body l) = true.
Proof.
  destruct l as [t|name labels value]; cbn [line_ok line_body].
  - destruct t as [|c t]; [done|]. by destruct c as [[] [] [] [] [] [] [] []].
  - rewrite !andb_true_iff. intros [[Hn Hl] Hv]. rewrite !all_chars_app, write_labels_no_newline, Hv by done.
    rewrite (all_chars_impl name_char not_newline name) by (done || (unfold name_char; by intros c [? _]%andb_true_iff)). done.
Qed.

(** A page of well-formed lines reads back as those lines. *)
Lemma parse_page ls : forallb line_ok ls = true → parse_exposition (exposition_text ls) = Some ls.
Proof.
  unfold parse_exposition. induction ls as [|l ls IH]; [done|]. cbn [forallb exposition_text foldr].
  intros [Hl Hls]%andb_true_iff. rewrite split_line by by apply line_body_no_newline.
  change ("" +:+ line_body l) with (line_body l). cbn [mapM]. rewrite parse_line_body by done.
  change (foldr _ "" ls) with (exposition_text ls). by rewrite IH.
Qed.

(** ** Numbers have no line ends *)

Lemma word_no_newline c : is_word_char c = true → not_newline c = true.
Proof. by destruct c as [[] [] [] [] [] [] [] []]. Qed.

Lemma pretty_no_newline (z : Z) : all_chars not_newline (pretty z) = true.
Proof.
  assert (∀ n : N, all_chars not_newline (pretty n) = true) as HN.
  { intros n. destruct (pretty_digits n) as [Hw _]. unfold is_word in Hw. destruct (pretty n) as [|c s]; [done|].
    by apply (all_chars_impl is_word_char); [exact word_no_newline|]. }
  destruct z as [|p|p]; [done|apply (HN (Npos p))|]. change (pretty (Z.neg p)) with ("-" +:+ pretty (Npos p)). by rewrite all_chars_app, HN.
Qed.

Lemma zeros_no_newline n : all_chars not_newline (zeros n) = true.
Proof. unfold zeros. induction (Z.to_nat n) as [|k IH]; [done|]. cbn [Nat.iter nat_rect all_chars]. exact IH. Qed.

Lemma substring_all_chars P n m s : all_chars P s = true → all_chars P (String.substring n m s) = true.
Proof.
  revert n m. induction s as [|c s IH]; intros [|n] [|m] H; try done; cbn [String.substring all_chars] in *;
    apply andb_true_iff in H as [Hc Hs]; rewrite ?Hc; by apply IH.
Qed.

Lemma f64_text_no_newline v : all_chars not_newline (default "" (f64_text v)) = true.
Proof.
  assert (∀ m e, all_chars not_newline (default "" (positive_text m e)) = true) as Hp.
  { intros m e. unfold positive_text. destruct (format_shortest _) as [[[digits len] k]|]; [|done]. cbn [mbind option_bind from_option id].
    unfold digits_to_dec_str. pose proof (pretty_no_newline digits) as Hd.
    destruct (_ <=? 0); [by rewrite !all_chars_app, zeros_no_newline, Hd|]. destruct (_ <? _);
      rewrite !all_chars_app, ?substring_all_chars, ?zeros_no_newline, ?Hd; done. }
  destruct v as [s|s| |s m e]; [by destruct s|by destruct s|done|]. cbn [f64_text]. specialize (Hp m e).
  destruct (positive_text m e) as [t|]; [|done]. cbn [fmap option_fmap option_map from_option id] in *. destruct s; [|exact Hp].
  by rewrite all_chars_app, Hp.
Qed.

Lemma ftoa_no_newline v : all_chars not_newline (ftoa v) = true.
Proof. destruct v as [s|[]| |s m e]; try done; apply f64_text_no_newline. Qed.

(** ** The lines of the encoder's calls *)

Definition metadata (name help typ : string) : list Line :=
  [Comment ("# HELP " +:+ name +:+ " " +:+ help); Comment ("# TYPE " +:+ name +:+ " " +:+ typ)].

Definition call_name (c : EncoderCall) : string :=
  match c with CallCounter n _ _ _ | CallGauge n _ _ _ | CallHistogram n _ _ _ => n end.
Definition call_help (c : EncoderCall) : string :=
  match c with CallCounter _ h _ _ | CallGauge _ h _ _ | CallHistogram _ h _ _ => h end.
Definition call_labels (c : EncoderCall) : list (string * string) :=
  match c with CallCounter _ _ _ l | CallGauge _ _ _ l | CallHistogram _ _ _ l => l end.
Definition call_type (c : EncoderCall) : string :=
  match c with CallCounter _ _ _ _ => "counter" | CallGauge _ _ _ _ => "gauge" | CallHistogram _ _ _ _ => "histogram" end.

Definition histogram_samples (name : string) (h : Histogram) (labels : list (string * string)) : list Line :=
  zip_with (λ le total, Sample (name +:+ "_bucket") (labels ++ [("le", le)]) (itoa total)) (map ftoa (bounds h) ++ ["+Inf"]) (bucket_totals h) ++
  [Sample (name +:+ "_sum") labels (ftoa (sum h)); Sample (name +:+ "_count") labels (itoa (default 0 (last (bucket_totals h))))].

Definition call_samples (c : EncoderCall) : list Line :=
  match c with
  | CallCounter name _ value labels => [Sample name labels (itoa value)]
  | CallGauge name _ value labels => [Sample name labels (ftoa value)]
  | CallHistogram name _ h labels => histogram_samples name h labels
  end.

(** Each call's samples; the first call of a name documents it. *)
Fixpoint lines_of (documented : list string) (calls : list EncoderCall) : list Line :=
  match calls with
  | [] => []
  | c :: calls =>
      (if decide (call_name c ∈ documented) then [] else metadata (call_name c) (call_help c) (call_type c)) ++
      call_samples c ++ lines_of (call_name c :: documented) calls
  end.

Lemma page_text_app ls ks : exposition_text (ls ++ ks) = exposition_text ls +:+ exposition_text ks.
Proof. induction ls as [|l ls IH]; [done|]. cbn [app exposition_text foldr]. fold (exposition_text (ls ++ ks)). rewrite IH. fold (exposition_text ls). by rewrite !string_app_assoc. Qed.

Lemma page_text_line name labels value : exposition_text [Sample name labels value] = line name labels value.
Proof. cbn [exposition_text foldr line_body]. unfold line. rewrite !string_app_assoc. done. Qed.

Definition sized (h : Histogram) : Prop := length (counts h) = S (length (bounds h)).

Lemma bucket_lines_text e name labels cumulative bs cs :
  length cs = S (length bs) →
  bucket_lines e name labels cumulative bs cs =
  (push_str e (exposition_text (zip_with (λ le total, Sample name (labels ++ [("le", le)]) (itoa total)) (map ftoa bs) (running_totals cumulative cs))),
   default 0 (last (running_totals cumulative cs))).
Proof.
  revert e cumulative cs. induction bs as [|b bs IH]; intros e cumulative [|c cs] Hlen; try done.
  - destruct cs; [|done]. cbn. unfold push_str. rewrite app_nil_r_string. by destruct e.
  - cbn [bucket_lines map running_totals zip_with]. injection Hlen as Hlen. rewrite IH by done. f_equal.
    + unfold push_str, line_u64. cbn [out seen exposition_text foldr line_body]. f_equal. unfold push_str, line. cbn [out]. rewrite !string_app_assoc. done.
    + destruct cs; [done|]. cbn [running_totals]. by rewrite last_cons_cons.
Qed.

Definition call_sized (c : EncoderCall) : Prop := match c with CallHistogram _ _ h _ => sized h | _ => True end.
Definition call_ok (c : EncoderCall) : bool :=
  all_chars name_char (call_name c) && all_chars not_newline (call_help c) && forallb (λ l, all_chars key_char l.1) (call_labels c).

Lemma meta_says e name help typ :
  meta e name help typ =
  mkEncoder (out e +:+ exposition_text (if decide (name ∈ seen e) then [] else metadata name help typ)) ({[name]} ∪ seen e).
Proof.
  unfold meta. destruct (decide (name ∈ seen e)) as [Hin|Hin].
  - change (exposition_text []) with "". rewrite app_nil_r_string. destruct e as [o s]. cbn [out seen] in *. f_equal.
    apply set_eq. intros x. rewrite elem_of_union, elem_of_singleton. naive_solver.
  - unfold push_str, meta_text. cbn [out seen metadata exposition_text foldr line_body]. rewrite !string_app_assoc. done.
Qed.

Lemma encode_call_says e c :
  call_sized c →
  encode_call e c =
  mkEncoder (out e +:+ exposition_text ((if decide (call_name c ∈ seen e) then [] else metadata (call_name c) (call_help c) (call_type c)) ++ call_samples c))
    ({[call_name c]} ∪ seen e).
Proof.
  intros Hs. destruct c as [name help value labels|name help value labels|name help h labels];
    cbn [encode_call call_name call_help call_type call_samples]; rewrite page_text_app.
  - unfold counter, line_u64. rewrite meta_says. unfold push_str. cbn [out seen]. by rewrite page_text_line, string_app_assoc.
  - unfold gauge, line_f64. rewrite meta_says. unfold push_str. cbn [out seen]. by rewrite page_text_line, string_app_assoc.
  - unfold histogram, histogram_samples. rewrite meta_says. rewrite bucket_lines_text by exact Hs.
    fold (bucket_totals h). unfold line_u64, line_f64, push_str. cbn [out seen].
    assert (zip_with (λ le total, Sample (name +:+ "_bucket") (labels ++ [("le", le)]) (itoa total)) (map ftoa (bounds h) ++ ["+Inf"]) (bucket_totals h) =
      zip_with (λ le total, Sample (name +:+ "_bucket") (labels ++ [("le", le)]) (itoa total)) (map ftoa (bounds h)) (bucket_totals h) ++
      [Sample (name +:+ "_bucket") (labels ++ [("le", "+Inf")]) (itoa (default 0 (last (bucket_totals h))))]) as ->.
    { assert (length (bucket_totals h) = S (length (map ftoa (bounds h)))) as Hl.
      { rewrite length_map, <- Hs. unfold bucket_totals. generalize 0. induction (counts h) as [|c cs IH]; intros z; cbn; [done|]. by rewrite IH. }
      revert Hl. generalize (map ftoa (bounds h)). induction (bucket_totals h) as [|t ts IH]; intros les Hl; [done|].
      destruct les as [|le les]; cbn [app zip_with].
      - destruct ts; [done|]. done.
      - injection Hl as Hl. rewrite IH by done. destruct ts; [done|]. by rewrite last_cons_cons. }
    rewrite !page_text_app, !page_text_line. change [Sample (name +:+ "_sum") ?l ?v; ?r] with ([Sample (name +:+ "_sum") l v] ++ [r]).
    rewrite page_text_app, !page_text_line, !string_app_assoc. done.
Qed.

Lemma collect_says calls e documented :
  Forall call_sized calls → (∀ n, n ∈ documented ↔ n ∈ seen e) →
  out (collect_calls calls e) = out e +:+ exposition_text (lines_of documented calls).
Proof.
  intros Hs. revert e documented. induction Hs as [|c calls Hc Hs IH]; intros e documented Hd.
  - cbn. by rewrite app_nil_r_string.
  - unfold collect_calls. cbn [foldl lines_of]. rewrite (encode_call_says e c Hc). change (foldl encode_call ?e calls) with (collect_calls calls e).
    rewrite (IH _ (call_name c :: documented)).
    + cbn [out]. rewrite !page_text_app, !string_app_assoc. f_equal. f_equal.
      rewrite (decide_ext (call_name c ∈ seen e) (call_name c ∈ documented)) by (symmetry; apply Hd). done.
    + intros n. cbn [seen]. rewrite elem_of_cons, elem_of_union, elem_of_singleton, Hd. done.
Qed.

Lemma lines_of_ok calls documented : forallb call_ok calls = true → forallb line_ok (lines_of documented calls) = true.
Proof.
  revert documented. induction calls as [|c calls IH]; intros documented H; [done|]. cbn [forallb lines_of] in *.
  apply andb_true_iff in H as [Hc H]. rewrite !forallb_app, IH, andb_true_r by done. unfold call_ok in Hc. rewrite !andb_true_iff in Hc.
  destruct Hc as [[Hn Hh] Hl]. apply andb_true_iff. split.
  - destruct (decide _); [done|]. cbn [metadata forallb line_ok]. change ("# HELP " +:+ ?t) with (String "#" (" HELP " +:+ t)).
    change ("# TYPE " +:+ ?t) with (String "#" (" TYPE " +:+ t)). cbn [all_chars].
    assert (all_chars not_newline (call_name c) = true) as Hn' by (eapply all_chars_impl; [|exact Hn]; unfold name_char; by intros x [? _]%andb_true_iff).
    rewrite !all_chars_app, Hn', Hh. by destruct c.
  - assert (∀ suffix, all_chars name_char suffix = true → all_chars name_char (call_name c +:+ suffix) = true) as Hsuf
      by (intros; rewrite all_chars_app; by rewrite Hn).
    destruct c as [name help value labels|name help value labels|name help h labels]; cbn [call_samples call_name call_labels forallb line_ok] in *.
    + by rewrite Hn, Hl, pretty_no_newline.
    + by rewrite Hn, Hl, ftoa_no_newline.
    + unfold histogram_samples. rewrite forallb_app. apply andb_true_iff. split.
      * generalize (bucket_totals h). generalize (map ftoa (bounds h) ++ ["+Inf"]). intros les ts. revert ts.
        induction les as [|le les IHl]; intros [|t ts]; try done. cbn [zip_with forallb line_ok]. rewrite Hsuf by done.
        unfold itoa. rewrite forallb_app, Hl, pretty_no_newline. cbn. apply IHl.
      * cbn [forallb line_ok]. unfold itoa. rewrite !Hsuf, Hl, ftoa_no_newline, pretty_no_newline by done. done.
Qed.

(** ** The page of a running server *)

Definition system_sized (m : IngestMetrics) : Prop :=
  Forall sized (ack_latency m) ∧ Forall sized (convert_latency m) ∧ Forall sized (visibility_lag m) ∧ sized (parquet_file_bytes m).
Definition workspace_sized (m : WorkspaceMetrics) : Prop := Forall sized (ws_ack_latency m) ∧ Forall sized (ws_visibility_lag m).
Definition hub_sized (hub : MetricsHub) : Prop := system_sized (system hub) ∧ map_Forall (λ _, workspace_sized) (workspaces hub).

Lemma sized_new bs : sized (histogram_new bs).
Proof. unfold sized. cbn. by rewrite length_replicate. Qed.

Lemma sized_observe h v : sized h → sized (observe h v).
Proof. unfold sized, observe, hist_run. cbn. by rewrite length_alter. Qed.

Lemma sized_observe_at i v hs : Forall sized hs → Forall sized (observe_at i v hs).
Proof. intros H. unfold observe_at. apply Forall_alter; [done|]. intros. by apply sized_observe. Qed.

Lemma sized_hists n bs : Forall sized (hists n bs).
Proof. apply Forall_replicate, sized_new. Qed.

Lemma sized_at hs i : Forall sized hs → sized (histogram_at hs i).
Proof.
  intros H. unfold histogram_at. destruct (hs !! i) as [h|] eqn:Hi; [|apply sized_new]. rewrite Forall_lookup in H. exact (H _ _ Hi).
Qed.

#[local] Hint Resolve sized_new sized_observe sized_observe_at sized_hists : core.

Lemma with_ws_sized observed hub w f :
  (∀ m, workspace_sized m → workspace_sized (f m)) → hub_sized hub → hub_sized (with_ws observed hub w f).
Proof.
  intros Hf [Hs Hw]. unfold with_ws. destruct (observed w); [|done]. split; [done|]. cbn [workspaces]. apply map_Forall_insert_2; [|done].
  apply Hf. destruct (workspaces hub !! w) as [m|] eqn:Hm; [exact (Hw _ _ Hm)|]. split; apply sized_hists.
Qed.

Lemma on_system_sized hub f : (∀ m, system_sized m → system_sized (f m)) → hub_sized hub → hub_sized (on_system hub f).
Proof. intros Hf [Hs Hw]. split; [by apply Hf|done]. Qed.

Lemma hub_step_sized observed hub e : hub_sized hub → hub_sized (hub_step observed hub e).
Proof.
  intros H. destruct e; cbn [hub_step]; try apply with_ws_sized; try (apply on_system_sized; [|exact H]);
    try (intros m (? & ? & ? & ?); unfold system_sized; cbn -[observe_at observe]; by eauto 7); try (intros m (? & ?); unfold workspace_sized; cbn -[observe_at observe]; by eauto).
  destruct H as [Hs Hw]. split; [done|]. by apply map_Forall_delete.
Qed.

Lemma hub_run_sized events : hub_sized (hub_run hub_new events).
Proof.
  induction events as [|e events IH] using rev_ind.
  - split; [|apply map_Forall_empty]. split_and!; [apply sized_hists..|apply sized_new].
  - unfold hub_run. rewrite foldl_snoc. by apply hub_step_sized.
Qed.

Lemma system_calls_sized m : system_sized m → Forall call_sized (system_calls m).
Proof.
  intros (Ha & Hc & Hv & Hp). unfold system_calls. cbn [all_signals all_reasons all_causes mbind list_bind app].
  repeat (apply Forall_cons; split); try exact I; try exact Hp; try (by apply sized_at). apply Forall_nil. exact I.
Qed.

Lemma workspace_calls_sized m w : workspace_sized m → Forall call_sized (workspace_calls m w).
Proof.
  intros (Ha & Hv). unfold workspace_calls. cbn [all_signals all_reasons mbind list_bind app].
  repeat (apply Forall_cons; split); try exact I; try (by apply sized_at). apply Forall_nil. exact I.
Qed.

Lemma system_calls_ok m : forallb call_ok (system_calls m) = true.
Proof. reflexivity. Qed.
Lemma workspace_calls_ok m w : forallb call_ok (workspace_calls m w) = true.
Proof. reflexivity. Qed.

(** The lines of the log's and the usage tracker's metrics. *)
Definition metric_lines (typ name help : string) (value : Z) : list Line :=
  metadata name help typ ++ [Sample name [] (pretty value)].

Definition wal_lines (m : Wal.WalMetrics) : list Line :=
  metric_lines "counter" "zradar_wal_append_total" "Total WAL records appended" (Wal.append_total m) ++
  metric_lines "counter" "zradar_wal_append_bytes_total" "Total bytes appended to WAL" (Wal.append_bytes_total m) ++
  metric_lines "counter" "zradar_wal_fsync_total" "Total fsync calls by group-commit" (Wal.fsync_total m) ++
  metric_lines "gauge" "zradar_wal_segment_bytes" "Active segment size in bytes" (Wal.segment_bytes m) ++
  metric_lines "gauge" "zradar_wal_lag_bytes" "Bytes between append highwater and flush checkpoint" (Wal.lag_bytes m) ++
  metric_lines "gauge" "zradar_wal_lag_seconds" "Estimated seconds of unflushed data" (Wal.lag_seconds m) ++
  metric_lines "gauge" "zradar_wal_dir_free_bytes" "Free bytes on WAL filesystem" (Wal.dir_free_bytes m) ++
  metric_lines "gauge" "zradar_wal_backpressure_state" "Backpressure state (0=Normal, 1=Slowdown, 2=Reject)" (Wal.backpressure_state m) ++
  metric_lines "counter" "zradar_wal_replay_records_total" "Records replayed on last startup" (Wal.replay_records_total m) ++
  metric_lines "gauge" "zradar_wal_replay_duration_seconds" "Duration of last replay" (Wal.replay_duration_ms m / 1000) ++
  metric_lines "counter" "zradar_wal_torn_writes_total" "Total torn writes detected and recovered" (Wal.torn_writes_total m) ++
  metadata "zradar_wal_append_duration_seconds" "Append latency" "summary" ++
  [Sample "zradar_wal_append_duration_seconds_sum" []
     (default "" (f64_text (f64_div (f64_of_u64 (Wal.append_duration_ns_sum m)) (f64_of_u64 1000000000))));
   Sample "zradar_wal_append_duration_seconds_count" [] (pretty (Wal.append_duration_ns_count m))].

Definition usage_metric (typ name : string) (value : Z) : list Line :=
  [Comment ("# TYPE " +:+ name +:+ " " +:+ typ); Sample name [] (pretty value)].

Definition usage_lines (m : UsageTrackerMetrics) (last_flush_ms : Z) : list Line :=
  usage_metric "counter" "zradar_usage_tracker_write_samples_dropped_total" (write_samples_dropped_total m) ++
  usage_metric "counter" "zradar_usage_tracker_query_samples_dropped_total" (query_samples_dropped_total m) ++
  usage_metric "counter" "zradar_usage_tracker_flush_failures_total" (flush_failures_total m) ++
  usage_metric "counter" "zradar_usage_tracker_flush_batches_total" (flush_batches_total m) ++
  usage_metric "counter" "zradar_usage_tracker_flush_samples_total" (flush_samples_total m) ++
  usage_metric "gauge" "zradar_usage_tracker_buffered_samples" (buffered_samples m) ++
  usage_metric "gauge" "zradar_usage_tracker_last_flush_duration_ms" last_flush_ms.

Lemma wal_page m : Wal.render_prometheus m = exposition_text (wal_lines m).
Proof.
  unfold Wal.render_prometheus, Wal.write_counter, Wal.write_gauge, Wal.write_metric, wal_lines, metric_lines, metadata.
  rewrite !page_text_app. cbn [exposition_text foldr line_body write_labels]. rewrite !string_app_assoc. reflexivity.
Qed.

Lemma usage_page m ms : usage_render_prometheus m ms = exposition_text (usage_lines m ms).
Proof.
  unfold usage_render_prometheus, usage_write_counter, usage_write_gauge, usage_write_metric, usage_lines, usage_metric.
  rewrite !page_text_app. cbn [exposition_text foldr line_body write_labels]. rewrite !string_app_assoc. reflexivity.
Qed.

Lemma plain_sample_ok name value :
  all_chars name_char name = true → all_chars not_newline value = true → line_ok (Sample name [] value) = true.
Proof. intros Hn Hv. cbn [line_ok forallb]. by rewrite Hn, Hv. Qed.

Lemma wal_lines_ok m : forallb line_ok (wal_lines m) = true.
Proof.
  apply forallb_forall. intros l Hl. unfold wal_lines, metric_lines, metadata in Hl. cbn [app In] in Hl.
  repeat (destruct Hl as [<-|Hl]; [first [reflexivity|apply plain_sample_ok; [reflexivity|first [apply pretty_no_newline|apply f64_text_no_newline]]]|]).
  destruct Hl.
Qed.

Lemma usage_lines_ok m ms : forallb line_ok (usage_lines m ms) = true.
Proof.
  apply forallb_forall. intros l Hl. unfold usage_lines, usage_metric in Hl. cbn [app In] in Hl.
  repeat (destruct Hl as [<-|Hl]; [first [reflexivity|apply plain_sample_ok; [reflexivity|apply pretty_no_newline]]|]).
  destruct Hl.
Qed.

Section Page.
Context (uuid_text : Z → string).

Lemma hub_calls_sized hub order :
  hub_sized hub → order ≡ₚ map_to_list (workspaces hub) → Forall call_sized (hub_calls uuid_text hub order).
Proof.
  intros [Hs Hw] Horder. unfold hub_calls. apply Forall_app. split; [by apply system_calls_sized|].
  apply Forall_forall. intros c ([w m] & Hc & Hin)%list_elem_of_bind. rewrite Horder in Hin. apply elem_of_map_to_list in Hin.
  pose proof (workspace_calls_sized m (uuid_text w) (Hw _ _ Hin)) as H. rewrite Forall_forall in H. by apply H.
Qed.

Lemma hub_calls_ok hub order : forallb call_ok (hub_calls uuid_text hub order) = true.
Proof.
  unfold hub_calls. rewrite forallb_app, system_calls_ok. cbn [andb]. induction order as [|[w m] order IH]; [done|].
  cbn [mbind list_bind]. rewrite forallb_app, workspace_calls_ok. exact IH.
Qed.

(** Whatever the texts of the workspaces' ids and the order they come in, the page of
    a server that has reported any events reads back, line by line, as the metrics:
    each family documented before its first sample, every label and every value as
    it was, and the system's samples with the totals of what was reported. *)
Theorem page_reads_back wal usage last_flush_ms events order :
  let hub := hub_run hub_new events in
  order ≡ₚ map_to_list (workspaces hub) →
  parse_exposition (served_metrics uuid_text wal usage last_flush_ms hub order) =
    Some (wal_lines wal ++ usage_lines usage last_flush_ms ++ lines_of [] (hub_calls uuid_text hub order)) ∧
  (∀ s, Sample "zradar_ingest_rows_accepted_total" [("signal", metric_signal_as_str s)] (pretty (u64_wrap (total (rows_of s) events)))
        ∈ lines_of [] (hub_calls uuid_text hub order)) ∧
  (∀ r, Sample "zradar_ingest_rejections_total" [("reason", reason_as_str r)] (pretty (u64_wrap (total (rejections_of r) events)))
        ∈ lines_of [] (hub_calls uuid_text hub order)).
Proof.
  intros hub Horder.
  assert (∀ calls documented c l, c ∈ calls → l ∈ call_samples c → l ∈ lines_of documented calls) as Hin.
  { intros calls. induction calls as [|c' calls IH]; intros documented c l Hc Hl; [by apply elem_of_nil in Hc|].
    cbn [lines_of]. rewrite !elem_of_app. apply elem_of_cons in Hc as [->|Hc]; [by right; left|right; right; by eapply IH]. }
  pose proof (hub_system_accounts events) as (Hr & _ & Hj). fold hub in Hr, Hj.
  split_and!.
  - unfold served_metrics, render, into_string. rewrite wal_page, usage_page.
    rewrite (collect_says _ encoder_new []); [|by apply hub_calls_sized; [apply hub_run_sized|]|cbn; set_solver].
    change (out encoder_new +:+ ?t) with t. rewrite <- !page_text_app. apply parse_page.
    rewrite !forallb_app, wal_lines_ok, usage_lines_ok, (lines_of_ok _ _ (hub_calls_ok hub order)). done.
  - intros s. apply (Hin _ _ (CallCounter "zradar_ingest_rows_accepted_total" "Telemetry rows accepted after the guard chain."
      (counter_at (rows_accepted (system hub)) (signal_index s)) [("signal", metric_signal_as_str s)])).
    + unfold hub_calls. apply elem_of_app. left. unfold system_calls. apply elem_of_app. left. apply list_elem_of_bind. exists s.
      split; [right; left|destruct s; set_solver].
    + rewrite Hr. cbn [call_samples]. apply list_elem_of_singleton. by destruct s.
  - intros r. apply (Hin _ _ (CallCounter "zradar_ingest_rejections_total" "Requests/rows rejected by the guard chain."
      (counter_at (rejections (system hub)) (reason_index r)) [("reason", reason_as_str r)])).
    + unfold hub_calls. apply elem_of_app. left. unfold system_calls. rewrite !elem_of_app. right. left. apply list_elem_of_bind. exists r.
      split; [by left|destruct r; set_solver].
    + rewrite Hj. cbn [call_samples]. apply list_elem_of_singleton. by destruct r.
Qed.
End Page.

(** *** Documentation and grouping *)

Definition is_comment (l : Line) : bool := match l with Comment _ => true | _ => false end.

Lemma name_before_space n n' a b :
  all_chars name_char n = true → all_chars name_char n' = true → n +:+ String " " a = n' +:+ String " " b → n = n'.
Proof.
  intros Hn Hn' Heq. assert (∀ m, all_chars name_char m = true → all_chars (λ c, negb (Ascii.eqb c " ")) m = true) as Hs.
  { intros m. apply all_chars_impl. intros c. by destruct c as [[] [] [] [] [] [] [] []]. }
  pose proof (span_until_app (λ c, Ascii.eqb c " ") n " " a (Hs _ Hn) eq_refl) as H.
  rewrite Heq, (span_until_app (λ c, Ascii.eqb c " ") n' " " b (Hs _ Hn') eq_refl) in H. by injection H as -> _.
Qed.

Lemma metadata_name n h t n' h' t' l :
  all_chars name_char n = true → all_chars name_char n' = true → l ∈ metadata n h t → l ∈ metadata n' h' t' → n = n'.
Proof.
  intros Hn Hn'. unfold metadata. rewrite !elem_of_cons, !elem_of_nil. intros [->|[->|[]]] [He|[He|[]]]; try done.
  - injection He as He. by apply name_before_space in He.
  - injection He as He. by apply name_before_space in He.
Qed.

Lemma samples_no_comment c l : l ∈ call_samples c → is_comment l = true → False.
Proof.
  intros Hl. destruct c; cbn [call_samples] in Hl; [apply list_elem_of_singleton in Hl; by subst..|].
  unfold histogram_samples in Hl. apply elem_of_app in Hl as [Hl|Hl]; [|apply list_elem_of_In in Hl; cbn in Hl; naive_solver].
  apply list_elem_of_lookup in Hl as [i Hl]. rewrite lookup_zip_with in Hl. by do 2 (apply bind_Some in Hl as (? & _ & Hl)); simplify_eq.
Qed.

Lemma comments_of_calls calls documented l :
  l ∈ lines_of documented calls → is_comment l = true →
  ∃ c, c ∈ calls ∧ (call_name c ∉ documented) ∧ l ∈ metadata (call_name c) (call_help c) (call_type c).
Proof.
  revert documented. induction calls as [|c calls IH]; intros documented Hl Hc; [by apply elem_of_nil in Hl|].
  cbn [lines_of] in Hl. rewrite !elem_of_app in Hl. destruct Hl as [Hl|[Hl|Hl]].
  - destruct (decide _); [by apply elem_of_nil in Hl|]. exists c. split_and!; [by left|done|done].
  - exfalso. by eapply samples_no_comment.
  - apply IH in Hl as (c' & Hin & Hnin & Hm); [|done]. exists c'. split_and!; [by right| |done]. intros Hd. apply Hnin. by right.
Qed.

(** No family is documented twice, however many workspaces have its series. *)
Theorem metadata_once uuid_text hub order :
  NoDup (filter (λ l, is_comment l = true) (lines_of [] (hub_calls uuid_text hub order))).
Proof.
  assert (∀ calls documented, forallb call_ok calls = true → NoDup (filter (λ l, is_comment l = true) (lines_of documented calls))) as H.
  { intros calls. induction calls as [|c calls IH]; intros documented Hok; [constructor|]. cbn [forallb lines_of] in *.
    apply andb_true_iff in Hok as [Hc Hok]. assert (all_chars name_char (call_name c) = true) as Hname by (unfold call_ok in Hc; by rewrite !andb_true_iff in Hc; destruct Hc as [[? _] _]).
    assert (filter (λ l, is_comment l = true) (call_samples c) = []) as Hnone.
    { destruct (filter _ (call_samples c)) as [|l ls] eqn:Hf; [done|]. exfalso.
      assert (l ∈ filter (λ l, is_comment l = true) (call_samples c)) as Hl by (rewrite Hf; by left).
      apply list_elem_of_filter in Hl as [Hl Hin]. by eapply samples_no_comment. }
    rewrite !filter_app, Hnone. cbn [app]. destruct (decide _); [by apply IH|]. apply NoDup_app. split_and!; [| |by apply IH].
    - apply NoDup_filter. repeat constructor; [rewrite list_elem_of_singleton; by intros [=]|apply not_elem_of_nil].
    - intros l [_ Hl]%list_elem_of_filter [Hcl Hl']%list_elem_of_filter.
      apply comments_of_calls in Hl' as (c' & Hin & Hnin & Hm); [|done]. 
      assert (call_ok c' = true) as Hc' by (rewrite forallb_forall in Hok; apply Hok; by apply list_elem_of_In).
      unfold call_ok in Hc'. rewrite !andb_true_iff in Hc'. destruct Hc' as [[Hname' _] _].
      pose proof (metadata_name _ _ _ _ _ _ _ Hname Hname' Hl Hm) as Heq. apply Hnin. rewrite Heq. by left. }
  apply H, hub_calls_ok.
Qed.

(** The families of a page in order, a family named once for each run of its lines;
    the text format wants all lines of a family in one group. *)
Definition sample_name (l : Line) : option string := match l with Sample n _ _ => Some n | Comment _ => None end.
Fixpoint runs (l : list string) : list string :=
  match l with
  | a :: (b :: _) as l' => if bool_decide (a = b) then runs l' else a :: runs l'
  | l => l
  end.
Definition sample_runs (ls : list Line) : list string := runs (omap sample_name ls).

(** The page of a server just started already has the per-signal families in four
    pieces each. *)
Theorem families_split uuid_text :
  length (filter (λ n, n = "zradar_ingest_requests_total") (sample_runs (lines_of [] (hub_calls uuid_text hub_new [])))) = 4%nat ∧
  length (filter (λ n, n = "zradar_ingest_rejections_total") (sample_runs (lines_of [] (hub_calls uuid_text hub_new [])))) = 1%nat.
Proof. split; vm_compute; reflexivity. Qed.

(** ** A page with two observed workspaces, one with a text that must be escaped *)

Definition sample_uuid (w : Z) : string := if w =? 1 then "a" +:+ quote +:+ "\b" +:+ nl +:+ "c" else pretty w.
Definition sample_events : list ((Z → bool) * HubEvent) :=
  [(λ _, true, Accepted 1 Traces 3 1500 2000000 80000); (λ w, w =? 2, Accepted 1 Traces 4 10 1 1); (λ _, true, Rejected 2 RejectRateLimit);
   (λ _, true, SetQueueDepth 42)].
Definition sample_hub : MetricsHub := hub_run hub_new sample_events.

Lemma page_reads_back_witness :
  is_Some (parse_exposition (served_metrics sample_uuid (Wal.record_append Wal.wal_metrics_new 1024 500000)
    (mkUsageMetrics 0 0 0 0 0 0) 0 sample_hub (map_to_list (workspaces sample_hub)))) ∧
  Sample "zradar_ingest_rows_accepted_total" [("signal", "traces")] "7" ∈
    lines_of [] (hub_calls sample_uuid sample_hub (map_to_list (workspaces sample_hub))).
Proof.
  destruct (page_reads_back sample_uuid (Wal.record_append Wal.wal_metrics_new 1024 500000) (mkUsageMetrics 0 0 0 0 0 0) 0 sample_events
    (map_to_list (workspaces sample_hub)) (reflexivity _)) as (Hp & Hr & _). split; [by eexists|exact (Hr Traces)].
Defined.

Example sample_page_escapes :
  parse_line ("m{workspace=" +:+ quote +:+ escape_label (sample_uuid 1) +:+ quote +:+ "} 3") = Some (Sample "m" [("workspace", sample_uuid 1)] "3").
Proof. vm_compute. reflexivity. Qed.
