(* ===== verification/Runtime.v ===== *)
(** The server process: [zradar-runtime/src/builder.rs], [health.rs] and
    [zradar-server/src/main.rs].

    [run] starts the components in a fixed order, each step able to stop it, and
    then serves its listeners until one of them ends. *)

From stdpp Require Import base gmap list strings.
From S2P Require Import Prelude FileList Retention Auth Authorize IngestGuard Config.

(** ** Health *)

Inductive CheckStatus := Healthy | Degraded | Unhealthy.
#[export] Instance CheckStatus_eq_dec : EqDecision CheckStatus.
Proof. solve_decision. Defined.

Record ReadinessChecks := mkChecks {
  rc_database : CheckStatus;
  rc_storage : CheckStatus;
  rc_circuit_breaker : CheckStatus;
  rc_queue_depth : CheckStatus;
  rc_retention : CheckStatus;
  rc_ingestion : CheckStatus;
  rc_background_jobs : CheckStatus;
}.

(** [HealthState]; the pool is there or not. *)
Record HealthState := mkHealthState {
  hs_pg_pool : bool;
  hs_circuit_breaker : option CircuitBreaker;
  hs_retention_initialized : bool;
  hs_ingestion_initialized : bool;
  hs_background_jobs_started : bool;
}.

(** What the probe finds: the answer to [SELECT 1], whether the storage path is a
    directory, and what [check] of the breaker decides. *)
Record ProbeEnv := mkProbe { pr_select_ok : bool; pr_is_dir : bool; pr_breaker_ok : bool }.

Definition initialized (b : bool) : CheckStatus := if b then Healthy else Unhealthy.

Definition checks_of (s : HealthState) (env : ProbeEnv) : ReadinessChecks := {|
  rc_database := if hs_pg_pool s then (if pr_select_ok env then Healthy else Unhealthy) else Unhealthy;
  rc_storage := if pr_is_dir env then Healthy else Unhealthy;
  rc_circuit_breaker := match hs_circuit_breaker s with Some _ => if pr_breaker_ok env then Healthy else Degraded | None => Degraded end;
  rc_queue_depth := match hs_circuit_breaker s with
                    | Some cb => if max_queue_depth cb <? queue_depth cb then Degraded else Healthy | None => Degraded end;
  rc_retention := initialized (hs_retention_initialized s);
  rc_ingestion := initialized (hs_ingestion_initialized s);
  rc_background_jobs := initialized (hs_background_jobs_started s);
|}.

Definition ready (c : ReadinessChecks) : bool :=
  bool_decide (rc_database c = Healthy) && bool_decide (rc_storage c = Healthy) && negb (bool_decide (rc_circuit_breaker c = Unhealthy))
  && negb (bool_decide (rc_queue_depth c = Unhealthy)) && bool_decide (rc_retention c = Healthy) && bool_decide (rc_ingestion c = Healthy)
  && bool_decide (rc_background_jobs c = Healthy).

(** [readiness]. *)
Definition readiness (s : HealthState) (env : ProbeEnv) : Z * (bool * ReadinessChecks) :=
  let checks := checks_of s env in
  (if ready checks then 200 else 503, (ready checks, checks)).

(** ** Limits *)

(** [secs_or_none]. *)
Definition secs_or_none (secs : Z) : option Z := if 0 <? secs then Some secs else None.

Inductive LimitWarning := AuthNotBelowRequest | BodyNotBelowRequest.

Definition not_below (inner outer : option Z) : bool :=
  match inner, outer with Some a, Some b => b <=? a | _, _ => false end.

(** The warnings of [run], in order; the second is looked at with the OTLP/HTTP
    receiver only. *)
Definition limit_warnings (limits : OtlpLimitsConfig) (http : bool) : list LimitWarning :=
  let request := secs_or_none (request_timeout_secs limits) in
  (if not_below (secs_or_none (auth_timeout_secs limits)) request then [AuthNotBelowRequest] else []) ++
  (if http && not_below (secs_or_none (http_body_read_timeout_secs limits)) request then [BodyNotBelowRequest] else []).

(** ** Starting *)

Inductive Task :=
| PolicyRefreshTask | FlushWorkerTask | CompactorTask | FileMoverTask | CleanupTask | ReclaimerTask | SnapshotTask
| WalFlusherTask | WalJanitorTask | QueueDepthTask.

Inductive StartEvent :=
| Connected | Migrated | PoliciesLoaded | DataDirCreated | WritesRecovered | S3Connected | SettingsRead
| WalDirCreated | WalOpened | WalReplayed | Spawned (t : Task).

Inductive Listener :=
| OtlpGrpcListener (port : Z) | AdminHttpListener (port : Z) | OtlpHttpListener (port : Z)
| QueryGrpcListener (port : Z) | AdminGrpcListener (port : Z).
#[export] Instance Listener_eq_dec : EqDecision Listener.
Proof. solve_decision. Defined.

Definition listener_port (l : Listener) : Z :=
  match l with
  | OtlpGrpcListener p | AdminHttpListener p | OtlpHttpListener p | QueryGrpcListener p | AdminGrpcListener p => p
  end.

(** How each step ends; the settings are the rows [list_all_settings] reads. *)
Record StartEnv := mkStartEnv {
  se_database_url : bool;
  se_connect_ok : bool;
  se_migrations_ok : bool;
  se_policies_ok : bool;
  se_data_dir_ok : bool;
  se_s3_ok : bool;
  se_settings : option (gmap Z Settings);
  se_wal_dir_ok : bool;
  se_wal_open_ok : bool;
  se_replay_ok : bool;
}.

Definition starting (A : Type) : Type := list StartEvent * outcome unit A.
#[local] Instance starting_ret : MRet starting := λ A a, ([], Ok a).
#[local] Instance starting_bind : MBind starting := λ A B f m,
  match m with
  | (events, Ok a) => let '(events', r) := f a in (events ++ events', r)
  | (events, Err e) => (events, Err e)
  | (events, Panic) => (events, Panic)
  end.

(** A step that may fail, one that cannot, and [.expect(..)]. *)
Definition attempt (ok : bool) (e : StartEvent) : starting unit := if ok then ([e], Ok ()) else ([], Err ()).
Definition did (e : StartEvent) : starting unit := ([e], Ok ()).
Definition expect (ok : bool) : starting unit := if ok then ([], Ok ()) else ([], Panic).
Definition spawn_if (b : bool) (t : Task) : starting unit := if b then did (Spawned t) else ([], Ok ()).

(** What [run] has built when it starts to serve. *)
Record Server := mkServer { sv_listeners : list Listener; sv_retention : RetentionConfigStore; sv_health : HealthState }.

Definition storage_of (c : Config) : StorageConfig := default storage_default (ig_storage <$> ingestor c).

(** The retention store: the default days, then the rows of the settings. *)
Definition retention_from (days : Z) (settings : list (Z * Settings)) : RetentionConfigStore :=
  foldl (λ store row, config_upsert store row.1 (u32_of_i32 (traces_retention_days row.2))) (retention_new days) settings.

Definition listeners_of (c : Config) : list Listener :=
  [OtlpGrpcListener (otlp_port c); AdminHttpListener (effective_admin_port c)] ++
  (if 0 <? otlp_http_port c then [OtlpHttpListener (otlp_http_port c)] else []) ++
  [QueryGrpcListener (effective_query_grpc_port c); AdminGrpcListener (effective_admin_grpc_port c)].

(** [run] up to the listeners; [policy_override] when the caller brought a policy
    store. A failed recovery of incomplete writes is only logged. *)
Definition start (c : Config) (policy_override : bool) (env : StartEnv) : starting Server :=
  let storage := storage_of c in
  let parquet := sc_parquet storage in
  let breaker := breaker_new (ps_circuit_breaker_max_disk_usage_percent parquet) (ps_circuit_breaker_max_memory_usage_percent parquet)
                   (ps_circuit_breaker_max_queue_depth parquet) in
  _ ← expect (se_database_url env);
  _ ← expect (se_connect_ok env);
  _ ← did Connected;
  _ ← attempt (se_migrations_ok env) Migrated;
  _ ← (if policy_override then ([], Ok ()) else attempt (se_policies_ok env) PoliciesLoaded);
  _ ← attempt (se_data_dir_ok env) DataDirCreated;
  _ ← did WritesRecovered;
  _ ← spawn_if (negb policy_override) PolicyRefreshTask;
  _ ← spawn_if (ps_write_buffer_enabled parquet) FlushWorkerTask;
  _ ← spawn_if (ps_compaction_enabled parquet) CompactorTask;
  _ ← match sc_s3 storage with
      | Some _ => _ ← attempt (se_s3_ok env) S3Connected; did (Spawned FileMoverTask)
      | None => ([], Ok ())
      end;
  settings ← match se_settings env with Some m => ([SettingsRead], Ok m) | None => ([], Err ()) end;
  _ ← did (Spawned CleanupTask);
  _ ← did (Spawned ReclaimerTask);
  _ ← did (Spawned SnapshotTask);
  _ ← attempt (se_wal_dir_ok env) WalDirCreated;
  _ ← attempt (se_wal_open_ok env) WalOpened;
  _ ← attempt (se_replay_ok env) WalReplayed;
  _ ← did (Spawned WalFlusherTask);
  _ ← did (Spawned WalJanitorTask);
  _ ← spawn_if (ps_write_buffer_enabled parquet) QueueDepthTask;
  mret (mkServer (listeners_of c) (retention_from (ps_retention_days parquet) (map_to_list settings))
          (mkHealthState true (Some breaker) true true true)).

(** ** Serving *)

(** The servers bind as [select!] polls them; the first that fails ends [run].
    The flag says that the system refuses the address for another reason. Port
    0 asks for any free port. *)
Record Serving := mkServing { bound : list Z; serving : bool }.

Definition poll_listener (s : Serving) (poll : Listener * bool) : Serving :=
  let port := listener_port poll.1 in
  if negb (serving s) then s
  else if poll.2 || (negb (port =? 0) && bool_decide (port ∈ bound s)) then mkServing (bound s) false
  else mkServing (port :: bound s) true.

Definition serve_polls (polls : list (Listener * bool)) : Serving := foldl poll_listener (mkServing [] true) polls.

(** [run]: the listeners once each was polled, in the order and with the refusals
    of [polls]; [None] while it serves. A listener's failure is logged and
    [run] returns [Ok]. *)
Definition run (c : Config) (policy_override : bool) (env : StartEnv) (polls : list (Listener * bool)) :
    list StartEvent * option (outcome unit unit) :=
  match start c policy_override env with
  | (events, Ok server) => (events, if serving (serve_polls polls) then None else Some (Ok ()))
  | (events, Err e) => (events, Some (Err e))
  | (events, Panic) => (events, Some Panic)
  end.

(** [main]: the keys of the ingest API, when it asks for one. *)
Definition otlp_auth (c : Config) : option (gmap string RequestContext) :=
  if otlp_require_api_key (cf_auth c) then Some (from_config (api_keys c)) else None.

(** ** Properties *)

(** The steps of a whole start, in order. *)
Definition start_trace (c : Config) (policy_override : bool) : list StartEvent :=
  let parquet := sc_parquet (storage_of c) in
  let only (b : bool) (e : StartEvent) := if b then [e] else [] in
  [Connected; Migrated] ++ only (negb policy_override) PoliciesLoaded ++ [DataDirCreated; WritesRecovered] ++
  only (negb policy_override) (Spawned PolicyRefreshTask) ++ only (ps_write_buffer_enabled parquet) (Spawned FlushWorkerTask) ++
  only (ps_compaction_enabled parquet) (Spawned CompactorTask) ++
  match sc_s3 (storage_of c) with Some _ => [S3Connected; Spawned FileMoverTask] | None => [] end ++
  [SettingsRead; Spawned CleanupTask; Spawned ReclaimerTask; Spawned SnapshotTask;
   WalDirCreated; WalOpened; WalReplayed; Spawned WalFlusherTask; Spawned WalJanitorTask] ++
  only (ps_write_buffer_enabled parquet) (Spawned QueueDepthTask).

(** A step does its events, or fails having done the first of them. *)
Definition traced {A : Type} (m : starting A) (t : list StartEvent) : Prop :=
  match m.2 with Ok _ => m.1 = t | _ => m.1 `prefix_of` t end.

Lemma traced_bind {A B : Type} (m : starting A) (f : A → starting B) t1 t2 :
  traced m t1 → (∀ a, traced (f a) t2) → traced (m ≫= f) (t1 ++ t2).
Proof.
  destruct m as [events [a|e|]]; unfold traced, mbind, starting_bind; cbn.
  - intros -> Hf. specialize (Hf a). destruct (f a) as [events' [b|e|]]; cbn in *; [by subst|by apply prefix_app..].
  - intros Hp _. by apply prefix_app_r.
  - intros Hp _. by apply prefix_app_r.
Qed.

Lemma traced_attempt ok e : traced (attempt ok e) [e].
Proof. destruct ok; [done|apply prefix_nil]. Qed.
Lemma traced_expect ok : traced (expect ok) [].
Proof. destruct ok; [done|apply prefix_nil]. Qed.
Lemma traced_did e : traced (did e) [e].
Proof. done. Qed.
Lemma traced_spawn b t : traced (spawn_if b t) (if b then [Spawned t] else []).
Proof. by destruct b. Qed.

Lemma start_traced c o env : traced (start c o env) (start_trace c o).
Proof.
  unfold start, start_trace. cbn zeta.
  apply (traced_bind _ _ []); [apply traced_expect|intros _]. apply (traced_bind _ _ []); [apply traced_expect|intros _].
  apply (traced_bind _ _ [_]); [apply traced_did|intros _]. apply (traced_bind _ _ [_]); [apply traced_attempt|intros _].
  apply traced_bind; [destruct o; [done|apply traced_attempt]|intros _].
  apply (traced_bind _ _ [_]); [apply traced_attempt|intros _]. apply (traced_bind _ _ [_]); [apply traced_did|intros _].
  do 3 (apply traced_bind; [apply traced_spawn|intros _]).
  apply traced_bind.
  { destruct (sc_s3 (storage_of c)); [|done]. apply (traced_bind _ _ [_]); [apply traced_attempt|intros _]. done. }
  intros _. apply (traced_bind _ _ [_]); [destruct (se_settings env); [done|apply prefix_nil]|intros settings].
  do 3 (apply (traced_bind _ _ [_]); [apply traced_did|intros _]).
  do 3 (apply (traced_bind _ _ [_]); [apply traced_attempt|intros _]).
  do 2 (apply (traced_bind _ _ [_]); [apply traced_did|intros _]).
  rewrite <-(app_nil_r (if ps_write_buffer_enabled _ then [Spawned QueueDepthTask] else [])).
  apply traced_bind; [apply traced_spawn|done].
Qed.

(** What comes before an event of a list whose events are all different. *)
Definition precedes (a b : StartEvent) (t : list StartEvent) : Prop := ∀ l1 l2, t = l1 ++ b :: l2 → a ∈ l1.

Lemma precedes_prefix a b t1 t2 : t1 `prefix_of` t2 → precedes a b t2 → precedes a b t1.
Proof. intros [k ->] Hp l1 l2 ->. apply (Hp l1 (l2 ++ k)). by rewrite <-app_assoc. Qed.

Lemma precedes_app a b t1 t2 : a ∈ t1 → b ∉ t1 → precedes a b (t1 ++ t2).
Proof.
  intros Ha Hb l1 l2 Heq. apply app_eq_inv in Heq as [(k & -> & Hk)|(k & -> & Hk)].
  - destruct k as [|x k]; [by rewrite app_nil_r in Ha|]. injection Hk as <- _. exfalso. apply Hb. apply elem_of_app. right. by left.
  - apply elem_of_app. by left.
Qed.

#[local] Instance Task_eq_dec : EqDecision Task.
Proof. solve_decision. Defined.
#[local] Instance StartEvent_eq_dec : EqDecision StartEvent.
Proof. solve_decision. Defined.

Fixpoint before (a b : StartEvent) (t : list StartEvent) : bool :=
  match t with
  | [] => true
  | e :: t => if decide (e = a) then true else if decide (e = b) then false else before a b t
  end.

Lemma before_precedes a b t : a ≠ b → before a b t = true → precedes a b t.
Proof.
  intros Hab. induction t as [|e t IH]; cbn [before]; [intros _ [|? ?] l2 [=]|].
  intros Hb [|x l1] l2 [= -> Heq].
  - destruct (decide (b = a)); [by subst|]. by destruct (decide (b = b)).
  - destruct (decide (x = a)) as [->|]; [by left|]. destruct (decide (x = b)); [done|]. right. by eapply IH.
Qed.

Lemma start_precedes a b c o : a ≠ b →
  (∀ only1 only2 only3 only4 : bool, before a b
    ([Connected; Migrated] ++ (if only1 then [PoliciesLoaded] else []) ++ [DataDirCreated; WritesRecovered] ++
     (if only1 then [Spawned PolicyRefreshTask] else []) ++ (if only2 then [Spawned FlushWorkerTask] else []) ++
     (if only3 then [Spawned CompactorTask] else []) ++ (if only4 then [S3Connected; Spawned FileMoverTask] else []) ++
     [SettingsRead; Spawned CleanupTask; Spawned ReclaimerTask; Spawned SnapshotTask; WalDirCreated; WalOpened; WalReplayed;
      Spawned WalFlusherTask; Spawned WalJanitorTask] ++ (if only2 then [Spawned QueueDepthTask] else [])) = true) →
  precedes a b (start_trace c o).
Proof.
  intros Hab Hb. apply before_precedes; [done|]. unfold start_trace. cbn zeta.
  destruct (sc_s3 (storage_of c)); [apply (Hb _ _ _ true)|apply (Hb _ _ _ false)].
Qed.

(** A start does the steps of its trace in order and stops at the first that
    fails: only a whole start serves, migrations come before every other step,
    interrupted writes are cleared before any background task runs, the
    settings are in the retention store before cleanup and reclaim begin, and
    the WAL is replayed before its flusher and janitor run. *)
Theorem start_in_order c o env :
  let '(events, r) := start c o env in
  events `prefix_of` start_trace c o ∧ (is_ok r = true → events = start_trace c o) ∧
  (∀ e, e ≠ Connected → e ≠ Migrated → precedes Migrated e events) ∧
  (∀ t, precedes WritesRecovered (Spawned t) events) ∧
  precedes SettingsRead (Spawned CleanupTask) events ∧ precedes SettingsRead (Spawned ReclaimerTask) events ∧
  precedes WalReplayed (Spawned WalFlusherTask) events ∧ precedes WalReplayed (Spawned WalJanitorTask) events.
Proof.
  pose proof (start_traced c o env) as Ht. unfold traced in Ht. destruct (start c o env) as [events r]. cbn [fst snd] in Ht.
  assert (events `prefix_of` start_trace c o) as Hp by (destruct r; [by rewrite Ht|done..]).
  split; [done|]. split; [by destruct r|].
  split_and!; intros; apply (precedes_prefix _ _ _ _ Hp), start_precedes; try done; intros.
  - cbn. destruct (decide (Connected = Migrated)); [done|]. by rewrite decide_False by done.
  - destruct only1, only2, only3, only4; reflexivity.
  - destruct only1, only2, only3, only4; reflexivity.
  - destruct only1, only2, only3, only4; reflexivity.
  - destruct only1, only2, only3, only4; reflexivity.
  - destruct only1, only2, only3, only4; reflexivity.
Qed.

(** Once started, the retention of a workspace is that of its settings' traces,
    and the configured default without settings. *)
Lemma retention_from_lookup rows store w :
  NoDup rows.*1 → configs (foldl (λ store row, config_upsert store row.1 (u32_of_i32 (traces_retention_days row.2))) store rows) !! w =
    match (list_to_map rows : gmap Z Settings) !! w with
    | Some s => Some (u32_of_i32 (traces_retention_days s)) | None => configs store !! w end.
Proof.
  revert store. induction rows as [|[k s] rows IH]; intros store Hnd; [done|].
  apply NoDup_cons in Hnd as [Hk Hnd]. cbn [foldl list_to_map foldr fst snd uncurry]. rewrite IH by done.
  destruct (decide (k = w)) as [->|Hne].
  - rewrite lookup_insert_eq. rewrite (not_elem_of_list_to_map_1 rows w) by done. cbn. by rewrite lookup_insert_eq.
  - rewrite lookup_insert_ne by done. destruct (_ !! w); [done|]. cbn. by rewrite lookup_insert_ne.
Qed.

Lemma retention_from_default rows store :
  global_default_days (foldl (λ store row, config_upsert store row.1 (u32_of_i32 (traces_retention_days row.2))) store rows) = global_default_days store.
Proof. revert store. induction rows as [|row rows IH]; intros store; [done|]. cbn. by rewrite IH. Qed.

Lemma starting_bind_Ok {A B : Type} (m : starting A) (f : A → starting B) events b :
  m ≫= f = (events, Ok b) → ∃ ev1 a ev2, m = (ev1, Ok a) ∧ f a = (ev2, Ok b).
Proof.
  destruct m as [ev1 [a|e|]]; unfold mbind, starting_bind; [|done..]. destruct (f a) as [ev2 r] eqn:Hf. intros [= _ ->]. eauto.
Qed.

Lemma start_Ok c o env events server : start c o env = (events, Ok server) →
  ∃ settings, se_settings env = Some settings ∧ sv_listeners server = listeners_of c ∧
    sv_retention server = retention_from (ps_retention_days (sc_parquet (storage_of c))) (map_to_list settings) ∧
    ∃ cb, sv_health server = mkHealthState true (Some cb) true true true.
Proof.
  intros Hs. unfold start in Hs. cbn zeta in Hs.
  repeat (apply starting_bind_Ok in Hs as (? & ? & ? & ? & Hs)).
  injection Hs as _ <-. destruct (se_settings env) as [m|]; [|done]. exists m. cbn. simplify_eq. eauto 10.
Qed.

(** Once started, the retention of a workspace is that of its settings' traces,
    and the configured default without settings. *)
Theorem retention_loaded c o env events server settings w :
  start c o env = (events, Ok server) → se_settings env = Some settings →
  get_effective_days (sv_retention server) w =
    match settings !! w with
    | Some s => u32_of_i32 (traces_retention_days s) | None => ps_retention_days (sc_parquet (storage_of c)) end.
Proof.
  intros (m & Hm & _ & -> & _)%start_Ok Hset. assert (m = settings) as -> by congruence.
  unfold get_effective_days, retention_from. rewrite retention_from_lookup by apply NoDup_fst_map_to_list.
  rewrite list_to_map_to_list, retention_from_default. cbn. rewrite lookup_empty. by destruct (settings !! w).
Qed.

(** A started server is ready exactly while the database answers and the storage
    directory is there: an open circuit breaker and an overfull queue show in
    the checks and do not change the answer. *)
Theorem readiness_of_server c o env events server probe depth :
  start c o env = (events, Ok server) →
  let health := sv_health server in
  let filled := mkHealthState (hs_pg_pool health) ((λ cb, set_queue_depth cb depth) <$> hs_circuit_breaker health)
                  (hs_retention_initialized health) (hs_ingestion_initialized health) (hs_background_jobs_started health) in
  (readiness filled probe).1 = (if pr_select_ok probe && pr_is_dir probe then 200 else 503).
Proof.
  intros (m & _ & _ & _ & cb & ->)%start_Ok. cbn. unfold readiness, checks_of. cbn -[Z.ltb ready].
  destruct probe as [[] [] []], (max_queue_depth cb <? depth); reflexivity.
Qed.

(** ** Serving *)

Lemma poll_stopped polls s : serving s = false → foldl poll_listener s polls = s.
Proof.
  revert s. induction polls as [|p polls IH]; intros s Hs; [done|]. cbn [foldl].
  assert (poll_listener s p = s) as -> by (unfold poll_listener; by rewrite Hs). by apply IH.
Qed.

Lemma poll_bound p polls s : p ≠ 0 → p ∈ bound s → p ∈ (listener_port ∘ fst <$> polls) → serving (foldl poll_listener s polls) = false.
Proof.
  intros Hp. revert s. induction polls as [|poll polls IH]; intros s Hb; [by intros ?%elem_of_nil|].
  rewrite fmap_cons. intros Hin. cbn [foldl]. destruct (serving s) eqn:Hs.
  2: { unfold poll_listener at 2. rewrite Hs. cbn [negb]. by rewrite poll_stopped. }
  apply elem_of_cons in Hin as [->|Hin].
  - rewrite poll_stopped; [|unfold poll_listener; rewrite Hs; cbn [negb]];
      unfold poll_listener; rewrite ?Hs; cbn [negb]; cbn in *;
      rewrite bool_decide_eq_true_2 by done; rewrite (proj2 (Z.eqb_neq _ _) Hp); cbn; by rewrite orb_true_r.
  - unfold poll_listener at 2. rewrite Hs. cbn [negb]. destruct (_ || _); [by rewrite poll_stopped|].
    apply IH; [by right|done].
Qed.

(** Two listeners cannot have one port: once both have tried to bind, [run] has
    ended. *)
Theorem shared_port_stops polls i j l1 l2 b1 b2 :
  polls !! i = Some (l1, b1) → polls !! j = Some (l2, b2) → i ≠ j →
  listener_port l1 = listener_port l2 → listener_port l1 ≠ 0 → serving (serve_polls polls) = false.
Proof.
  intros Hi Hj Hij Hport Hp.
  assert (∀ i j l1 l2 b1 b2, (i < j)%nat → polls !! i = Some (l1, b1) → polls !! j = Some (l2, b2) → listener_port l1 = listener_port l2 →
    listener_port l1 ≠ 0 → serving (serve_polls polls) = false) as Hlt.
  { clear. intros i j l1 l2 b1 b2 Hij Hi Hj Hport Hp. unfold serve_polls. rewrite <-(take_drop_middle _ _ _ Hi), foldl_app. cbn [foldl].
    set (s := foldl _ _ (take i polls)).
    assert (listener_port l1 ∈ (listener_port ∘ fst <$> drop (S i) polls)) as Hin.
    { apply list_elem_of_fmap. exists (l2, b2). split; [done|]. apply list_elem_of_lookup. exists (j - S i)%nat.
      rewrite lookup_drop. by replace (S i + (j - S i))%nat with j by lia. }
    destruct (serving (poll_listener s (l1, b1))) eqn:Hs; [|by rewrite poll_stopped].
    eapply poll_bound; [exact Hp| |exact Hin]. revert Hs. unfold poll_listener. cbn [fst snd].
    destruct (serving s) eqn:Hs; cbn [negb]; [|by rewrite Hs]. destruct (_ || _); [done|]. intros _. by left. }
  destruct (decide (i < j)%nat); [by eapply Hlt|]. eapply (Hlt j i); [lia|done..|by rewrite <-Hport].
Qed.

(** Listeners with different ports that the system does not refuse all serve. *)
Theorem separate_ports_serve polls :
  Forall (λ poll, poll.2 = false) polls → NoDup (listener_port ∘ fst <$> polls) →
  serve_polls polls = mkServing (reverse (listener_port ∘ fst <$> polls)) true.
Proof.
  intros Hok Hnd. unfold serve_polls.
  assert (∀ done, NoDup (done ++ (listener_port ∘ fst <$> polls)) →
    foldl poll_listener (mkServing (reverse done) true) polls = mkServing (reverse (done ++ (listener_port ∘ fst <$> polls))) true) as Hall.
  { clear Hnd. induction Hok as [|[l b] polls Hb _ IH]; intros before Hnd; [by rewrite app_nil_r|]. cbn in Hb. subst b.
    cbn [foldl fmap list_fmap compose fst]. unfold poll_listener at 2. cbn [serving negb fst snd orb bound].
    rewrite bool_decide_eq_false_2, andb_false_r.
    - rewrite <-(reverse_snoc before), (IH (before ++ [listener_port l])); by rewrite <-(assoc_L (++)).
    - rewrite elem_of_reverse. intros Hin. apply NoDup_app in Hnd as (_ & Hnd & _). eapply Hnd; [exact Hin|by left]. }
  apply (Hall []). done.
Qed.

(** With one port for the admin HTTP server and the query gRPC server, the
    process starts everything, ends as soon as both have tried to bind, and
    reports success. *)
Theorem shared_port_exits c o env events server polls :
  start c o env = (events, Ok server) → polls.*1 ≡ₚ sv_listeners server →
  effective_admin_port c = effective_query_grpc_port c → effective_admin_port c ≠ 0 →
  run c o env polls = (events, Some (Ok ())).
Proof.
  intros Hs Hpolls Hport Hp. unfold run. rewrite Hs.
  destruct (start_Ok _ _ _ _ _ Hs) as (m & _ & Hl & _). rewrite Hl in Hpolls.
  assert (AdminHttpListener (effective_admin_port c) ∈ polls.*1) as ([l1 b1] & Heq1 & Hi)%list_elem_of_fmap.
  { rewrite Hpolls. right. by left. }
  assert (QueryGrpcListener (effective_query_grpc_port c) ∈ polls.*1) as ([l2 b2] & Heq2 & Hj)%list_elem_of_fmap.
  { rewrite Hpolls. unfold listeners_of. rewrite !elem_of_app. do 2 right. by left. }
  cbn in Heq1, Heq2. subst l1 l2. apply list_elem_of_lookup in Hi as [i Hi], Hj as [j Hj].
  rewrite (shared_port_stops polls i j _ _ b1 b2 Hi Hj); [done|by intros ->; simplify_eq|done|done].
Qed.

(** The default limits draw no warning; they do as soon as a deadline inside the
    request is not below the request's. *)
Theorem limit_warnings_exact limits http :
  0 ≤ auth_timeout_secs limits → 0 ≤ request_timeout_secs limits → 0 ≤ http_body_read_timeout_secs limits →
  limit_warnings otlp_limits_default http = [] ∧
  (AuthNotBelowRequest ∈ limit_warnings limits http ↔ 0 < request_timeout_secs limits ≤ auth_timeout_secs limits) ∧
  (BodyNotBelowRequest ∈ limit_warnings limits http ↔ http = true ∧ 0 < request_timeout_secs limits ≤ http_body_read_timeout_secs limits).
Proof.
  intros Ha Hr Hb. split; [by destruct http|]. unfold limit_warnings, secs_or_none. cbn zeta. rewrite !elem_of_app.
  destruct (Z.ltb_spec 0 (auth_timeout_secs limits)), (Z.ltb_spec 0 (request_timeout_secs limits)),
    (Z.ltb_spec 0 (http_body_read_timeout_secs limits)), http; cbn [not_below andb];
    repeat match goal with |- context [?a <=? ?b] => destruct (Z.leb_spec a b) end;
    rewrite ?list_elem_of_singleton, ?elem_of_nil; split; split; intros; destruct_or?; destruct_and?; try done; try lia; auto with lia.
Qed.
